(* ===== verification/_CoqProject ===== *)
-Q . S2P
Prelude.v
Memory.v
Pmm.v
PmmProof.v
PmmFree.v
PmmInit.v
PmmIface.v
PmmSpec.v
Vmm.v
VmmProof.v
VmmMap.v
VmmSpec.v
Pfndb.v
CString.v
CStringProof.v
Endian.v
Tlsf.v
TlsfProof.v
TlsfLists.v
TlsfPhys.v
TlsfHeap.v
TlsfInit.v
TlsfSpec.v
TlsfRealloc.v
Cpu.v
Sched.v
SchedProof.v
Print.v
PrintProof.v
Vfs.v
Ramfs.v
RamfsProof.v
CpioProof.v
Modsym.v
ModsymProof.v
Elf.v
ElfProof.v
ElfSpec.v
Module.v
ModuleProof.v
Exfat.v
ExfatVfs.v
ExfatProof.v
ExfatSpec.v
Acpi.v
AcpiProof.v
Pci.v
PciProof.v
Hoare.v
Io.v
MathFp.v
Ktime.v
KtimeProof.v
Ata.v
AtaProof.v
PmmBlocks.v
Dma.v
Sata.v
SataProof.v
SataSpec.v
Hci.v
HciProof.v
MsdProof.v
UsbConfig.v
HciSpec.v
Apic.v
Kmain.v
RingList.v
Boot.v
TermTables.v
Term.v
TermProof.v
Fb.v
FbProof.v
FbSpec.v
FbRefine.v
FbBackend.v
FbInit.v
TermText.v
TermScreen.v
