(* ===== verification/Prelude.v ===== *)
(** * A verification library for the OSFIX kernel

    OSFIX is a small x86-64 kernel in C, booted by Limine.  [kmain]
    (src/kernel/main/kernel.c) sets up the descriptor tables, the physical and
    the virtual memory managers, the page frame database and the heap, then
    the drivers, the file systems, the module loader and the scheduler.  This
    library translates the kernel's own code into executable Rocq functions
    and proves what makes each part correct.

    ** How C is modelled

    - Integers are [Z]; every unsigned C expression is wrapped to its width by
      [u8], [u16], [u32] or [u64], signed ones by [s8], [s32], [s64].
    - Memory ([Memory.memory]) is a finite map from addresses to bytes, with
      little-endian accesses; data structures that the C code threads through
      raw memory (free lists, page tables, heap headers, strings) are there,
      at the offsets of their fields, and not abstract values.
    - A function that reads or writes state is a state transformer [M S A].
      Its outcome is [Ok], [Halt] (the kernel stops itself: a [hlt] loop or a
      failed assertion), [Fault] (an access that C leaves undefined) or [Spin]
      (the fuel of a loop ran out).
    - A C loop with a counter is [for_loop] with the number of its iterations.
      A loop whose length depends on data is a [Fixpoint] on fuel; each
      theorem about it proves that the result is [Ok] for the fuel it names,
      so no theorem holds because a loop never ends.  The free-list walks of
      pmm.c take as fuel the number of pages plus one, the string loops any
      number above the length of the string.
    - Console and serial output is left out; lgdt, lidt, invlpg, clflush and
      the like set fields or append to logs of the state.

    ** The parts

    - [Pmm]: src/kernel/main/mm/pmm.c, the buddy allocator of physical pages:
      page bitmap, eleven intrusive free lists, counters.  [PmmProof] has the
      invariant [pmm_inv] (which ghost set of blocks is on which list, links
      and bitmap agreeing with it) and allocation, [PmmFree] release and
      coalescing, [PmmInit] the boot-time construction; [PmmSpec] states what
      the allocator promises.  [PmmIface] is the interface [PageAllocator] to
      its clients, with the buddy allocator as an instance.
    - [Vmm]: src/kernel/main/mm/vmm.c, four-level page tables.  [VmmProof] has
      the ghost description of the tables, the invariant [vm_inv] and the
      abstract translation [xlate] that [virt_to_phys_user] refines; [VmmMap]
      and [VmmSpec] show that mapping and unmapping change the translation of
      one page and no other, against the interface [PageAllocator].
    - [Pfndb]: src/kernel/main/mm/pfndb.c, the array of page
      records: classification of the pages and the conversions.
    - [Tlsf]: src/kernel/main/mm/heapalloc/tlsf.c and malloc.c, the heap.
      [TlsfProof] has the size classes, good fit and the search in the
      bitmaps; [TlsfLists] the segregated free lists in memory (ghost map from
      classes to lists of blocks, the separation of their fields); [TlsfPhys]
      the physical list of blocks; [TlsfHeap] the invariant [heap], which ties
      the two and the map of live allocations together, and that allocation
      and release keep it; [TlsfInit] its construction; [TlsfSpec] the
      abstract allocator (events, traces) that the heap refines; [TlsfRealloc]
      reallocation.
    - [CString], [CStringProof]: src/kernel/main/util/string.c and the integer
      part of math.h and math.c.  [Endian]: util/endian.h.
    - [Cpu]: cpu/gdt.c, idt.c, isr.c and isrs_gen.c.
    - [Sched], [SchedProof]: cpu/sched.c with the interrupt entry of
      isr_stubs.S: the ring of tasks, saved register frames on the stacks, the
      abstract round-robin queue that the timer interrupt and spawning refine.
    - [Print], [PrintProof]: util/util.c, print/kprintf.c, serial.c and log.c:
      number conversions, and snprintf against a reference renderer.
    - [Vfs]: fsm/vfs.c.  [Ramfs], [RamfsProof]: ramfs.c, with the class
      [Realloc] for what it asks of the heap.  [CpioProof]: the unpacker of
      the initramfs (modelled in [Ramfs]) inverts a reference encoder.
    - [Modsym], [ModsymProof]: module/ksym.c and modsym.c, the symbols of the
      kernel and of its modules, in a table on the modelled heap.
    - [Elf], [ElfProof], [ElfSpec]: the program loader of
      util/elf/elf_loader.c over page tables, file systems and heap: a loaded
      segment reads through the page tables as in the file.
    - [Module], [ModuleProof]: the module loader of the same file: layout of
      sections, symbol resolution, relocations.
    - [Exfat], [ExfatVfs]: src/fs/exfat/exfat.c and exfat_vfs.c on a disk by
      byte, with the sector loops of src/drivers/storage/sata.c.  [ExfatProof]
      has the geometry of a volume, cluster chains and the bitmap; [ExfatSpec]
      states directory entries, cluster allocation (with a bitmap of any number
      of clusters) and file contents.
    - [Acpi], [AcpiProof]: src/drivers/acpi: the search for the root pointer,
      table lookup with checksums, and the shutdown, whose scan of the byte
      code stays within it.
    - [Pci], [PciProof]: src/drivers/pci/pci.c and [sata_search]: the scan of
      a bus hierarchy against its depth-first enumeration, over a device given
      by the class [PciBus] and over the page tables, through which the
      registers of disk controllers are read.
    - [Hoare]: total-correctness triples for the monad [M].  [Io]: the port
      instructions of cpu/io.c and io.h over the class [Ports], and [Mmio] for
      registers in memory, with the processor's flags and halting (class
      [Core]).  [Dma]: the state of a driver whose device reads and writes
      memory by itself (class [BusMaster]): page tables, device, clock and the
      driver's globals.
    - [Ktime], [KtimeProof]: util/time: the interval timer, the time-stamp
      counter and the delays on top of them; the classes of the chips say how
      far a reading may advance them.
    - [Ata], [AtaProof]: src/drivers/storage/ata.c, atapi.c and the drive
      table of stmodule.c.  Any answer of the channel keeps a read within its
      buffer; on a channel with two drives (class [AtaChannel], whose drives
      assert DRQ within the driver's 100000 polls) reads and writes transfer
      the sectors asked for.
    - [PmmBlocks]: the class [BlockAllocator] for clients of [palloc_order]
      that know the page tables, with the buddy allocator as instance.
    - [Sata], [SataProof], [SataSpec]: the AHCI commands of sata.c.  The class
      [AhciPort] says what a controller does with a command list; [SataSpec]
      has an executable controller that keeps to it, and a machine of 256
      pages on which the theorems apply.
    - [Hci], [HciProof], [MsdProof], [UsbConfig], [HciSpec]:
      src/drivers/hci/hci.c.  A controller may do anything that the class
      [EhciBus] allows to its queue of transfers; [MsdProof] shows that
      reading a sector leaves the rest of the machine alone, [UsbConfig] that
      the enumeration reads off the device that a configuration describes. The
      waits on the clock take as fuel the number of milliseconds of their
      limit and a bit more ([MsClock]: the clock advances).
    - [Apic]: src/drivers/pic/apic: set-up of the interrupt controllers, the
      table of interrupt handlers and its dispatch through [Cpu], masks.
    - [Kmain]: the loading of modules in kernel.c over the module loader, the
      file systems and the string library; the static buffer of the directory
      walk and the pointers that the table keeps to it are in the memory of
      the model.
    - [Boot]: the start of the memory managers in kernel.c, with page
      allocator, page tables, heap and frame database over one memory.
    - [TermTables], [Term], [TermProof]: src/kernel/main/terminal, flanterm.c:
      the tables for the width of characters and for code page 437 (the binary
      search is a linear one), and the whole escape-sequence parser as a state
      machine on bytes over the class [Backend], which holds the function
      pointers of the context.  [TermProof]: over every back end that keeps to
      [BackendOk] any bytes are processed within the arrays, and the fields
      stay within their types.
    - [Fb]: flanterm_backends/fb.c with its built-in font: the grid of
      characters, the queue of changes with its map, the pixels, the pool and
      the set-up with its failure path.  Recursions of the set-up take 100 and
      1000 rounds, and end after 4 and 120 for the constants of the file.
    - [FbProof], [FbSpec], [FbRefine]: drawing a character sets the pixels of
      its cell and no others; every operation of fb.c does to the queue, map
      and grid what it does to an abstract screen (a list of characters and a
      cursor); a flush makes the pixels show that screen.
    - [FbBackend]: the parser is natural in its back end, so that running it
      on the pair of framebuffer and abstract screen relates the two: writing
      to one refines writing to the other.
    - [FbInit], [TermText], [TermScreen]: the terminal that kmain sets up over
      the boot loader's framebuffer, UTF-8, cursor addressing, and plain text
      from [flanterm_write] to the pixels.
    - [MathFp]: the floating-point functions of util/math.c and math.h in IEEE
      754 arithmetic.  [RingList]: the intrusive lists of cpu/io.h in memory,
      refined to lists.

    ** What the theorems show

    The claims are numbered in the doc comments.  The invariants are
    established by the initialisation code and kept by every operation; the
    operations are total on states that satisfy them; their effect is given on
    the abstract state (the set of free pages, the translation function, the
    classes of the pages).  Where the code departs from what it means to do,
    a closed theorem runs it on a concrete input: the free-page counter, the
    removal of a page inside a 2 MiB mapping, [strlcpy] with size 0, the
    largest heap pool, [calloc], the bitmap of 32769 pages
    ([PmmSpec.pmm_init_short_bitmap]), the place of the frame database, the
    entry point of a program, segments that share a page, the end of a file that
    fills its clusters, the path buffer of the module loader, the stack pointer
    of spawned tasks ([SchedProof.spawned_tasks_share_frame]), the second page
    of an AHCI controller ([PciProof.scan_beyond_page_faults]), a disk command
    of 2049 sectors ([SataSpec.sata_long_request_faults]).  The theorems next to
    them name in their comments the condition that excludes such an input.
    Components
    compose: the loader's theorem is proved against the invariants of the page
    tables and the page allocator, the symbol table and the module loader
    against the heap invariant, exFAT against the sector loops of the disk.

    ** Not modelled

    limine.h only declares the boot protocol and limine-bios-hdd.h is the boot
    loader's binary; the assembly stubs are hardware access; messages on the
    console are left out where they do not change the state.
    What a device does is a class that the theorems assume, with an executable
    instance on which their witnesses run; of a controller's time only the
    number of polls that the driver allows is modelled.


    ** Plan

    What could still be added: the first part of [kmain] as one composition of
    the parts (the console output between the calls is what it consists of),
    and the frame of a successful module load.
*)
From Stdlib Require Import ZArith Lia.
From stdpp Require Import base option gmap list.

(** ** Scopes and settings *)

Declare Scope kern_scope.
Delimit Scope kern_scope with K.
#[global] Open Scope Z_scope.

Create HintDb kern.
Create HintDb kern_simpl.

(** ** Machine integers

    A w-bit unsigned integer is a [Z]; every C expression of an unsigned type
    is wrapped by the cast of its width. *)

Definition u8 (z : Z) : Z := z `mod` 2 ^ 8.
Definition u16 (z : Z) : Z := z `mod` 2 ^ 16.
Definition u32 (z : Z) : Z := z `mod` 2 ^ 32.
Definition u64 (z : Z) : Z := z `mod` 2 ^ 64.

(** Two's complement reading of the low [w] bits. *)
Definition swrap (w z : Z) : Z :=
  let r := z `mod` 2 ^ w in if r <? 2 ^ (w - 1) then r else r - 2 ^ w.
Definition s8 : Z → Z := swrap 8.
Definition s32 : Z → Z := swrap 32.
Definition s64 : Z → Z := swrap 64.

(** [fits w z]: [z] is representable in [w] unsigned bits. *)
Definition fits (w z : Z) : Prop := 0 ≤ z < 2 ^ w.

Ltac unfold_ints := unfold u8, u16, u32, u64, fits in *.

(** [lia] after exposing the widths as literals and the quotients and
    remainders by their defining equations. *)
Ltac zdiv :=
  repeat match goal with
  | |- context [2 ^ ?n] =>
      let v := eval vm_compute in (2 ^ n) in
      match v with Zpos _ => change (2 ^ n) with v end
  | H : context [2 ^ ?n] |- _ =>
      let v := eval vm_compute in (2 ^ n) in
      match v with Zpos _ => change (2 ^ n) with v in H end
  end; Z.div_mod_to_equations; lia.

(** Splits the conjunctions of the goal as it is written, unfolding nothing. *)
Ltac splits := repeat match goal with |- _ ∧ _ => split end.

Lemma s32_small z : - 2 ^ 31 ≤ z < 2 ^ 31 → s32 z = z.
Proof. intros Hz. unfold s32, swrap. cbv zeta. destruct (Z.ltb_spec (z `mod` 2 ^ 32) (2 ^ (32 - 1))); zdiv. Qed.
Lemma u64_small z : 0 ≤ z < 2 ^ 64 → u64 z = z.
Proof. intros. unfold u64. by apply Z.mod_small. Qed.
Lemma u32_small z : 0 ≤ z < 2 ^ 32 → u32 z = z.
Proof. intros. unfold u32. by apply Z.mod_small. Qed.
Lemma u16_small z : 0 ≤ z < 2 ^ 16 → u16 z = z.
Proof. intros. unfold u16. by apply Z.mod_small. Qed.
Lemma u8_small z : 0 ≤ z < 2 ^ 8 → u8 z = z.
Proof. intros. unfold u8. by apply Z.mod_small. Qed.

Lemma u64_range z : 0 ≤ u64 z < 2 ^ 64.
Proof. apply Z.mod_pos_bound; lia. Qed.
Lemma u32_range z : 0 ≤ u32 z < 2 ^ 32.
Proof. apply Z.mod_pos_bound; lia. Qed.
Lemma u16_range z : 0 ≤ u16 z < 2 ^ 16.
Proof. apply Z.mod_pos_bound; lia. Qed.
Lemma u8_range z : 0 ≤ u8 z < 2 ^ 8.
Proof. apply Z.mod_pos_bound; lia. Qed.
#[export] Hint Resolve u64_range u32_range u16_range u8_range : kern.

(** ** Bit operations as arithmetic *)

Lemma land_ones_mod x k : 0 ≤ k → Z.land x (2 ^ k - 1) = x `mod` 2 ^ k.
Proof.
  intros. rewrite <-Z.land_ones by lia. f_equal. rewrite Z.ones_equiv. lia.
Qed.

(** [x & ~(2^k - 1)] rounds [x] down to a multiple of [2^k]. *)
Lemma land_lnot_ones x k :
  0 ≤ k → Z.land x (Z.lnot (2 ^ k - 1)) = x / 2 ^ k * 2 ^ k.
Proof.
  intros Hk. replace (2 ^ k - 1) with (Z.ones k) by (rewrite Z.ones_equiv; lia).
  rewrite <-Z.ldiff_land, Z.ldiff_ones_r, Z.shiftr_div_pow2, Z.shiftl_mul_pow2 by lia.
  done.
Qed.

Lemma shiftl_1 k : 0 ≤ k → Z.shiftl 1 k = 2 ^ k.
Proof. intros. rewrite Z.shiftl_mul_pow2; lia. Qed.

Lemma testbit_pow2 k i : 0 ≤ k → Z.testbit (2 ^ k) i = (k =? i).
Proof.
  intros. destruct (Z.eqb_spec k i) as [->|]; [by apply Z.pow2_bits_true|].
  by apply Z.pow2_bits_false.
Qed.

Lemma testbit_high x w i : 0 ≤ x < 2 ^ w → w ≤ i → 0 ≤ w → Z.testbit x i = false.
Proof.
  intros Hx Hi Hw. rewrite <-(Z.mod_small x (2 ^ w)) by lia.
  apply Z.mod_pow2_bits_high. lia.
Qed.

(** Single-bit test as it is written in C: [(x >> k) & 1]. *)
Lemma shiftr_land_1 x k : 0 ≤ k → Z.land (Z.shiftr x k) 1 = Z.b2z (Z.testbit x k).
Proof.
  intros. change 1 with (2 ^ 1 - 1) at 1. rewrite land_ones_mod by lia.
  rewrite Z.testbit_spec' by lia. rewrite Z.shiftr_div_pow2 by lia. done.
Qed.

Lemma land_bit_eqb e k : 0 ≤ k → (Z.land e (Z.shiftl 1 k) =? 0) = negb (Z.testbit e k).
Proof.
  intros Hk. rewrite shiftl_1 by done. destruct (Z.testbit e k) eqn:E; cbn.
  - apply Z.eqb_neq. intros H. assert (Z.testbit (Z.land e (2 ^ k)) k = false) as Hb by (rewrite H; apply Z.bits_0).
    rewrite Z.land_spec, E, testbit_pow2, Z.eqb_refl in Hb by done. done.
  - apply Z.eqb_eq. apply Z.bits_inj'. intros i Hi. rewrite Z.land_spec, testbit_pow2, Z.bits_0 by done.
    destruct (Z.eqb_spec k i) as [->|]; [by rewrite E|apply andb_false_r].
Qed.
Lemma fits_land_ones w x : 0 ≤ w → fits w x ↔ Z.land x (Z.ones w) = x.
Proof.
  intros Hw. unfold fits. rewrite Z.land_ones by lia.
  assert (0 < 2 ^ w) by (apply Z.pow_pos_nonneg; lia).
  split; [intros; by apply Z.mod_small|intros <-; by apply Z.mod_pos_bound].
Qed.

Lemma lor_fits w x y : 0 ≤ w → fits w x → fits w y → fits w (Z.lor x y).
Proof.
  intros Hw. rewrite !fits_land_ones by done. intros Hx Hy.
  by rewrite Z.land_lor_distr_l, Hx, Hy.
Qed.

Lemma land_fits w x y : 0 ≤ w → fits w x → fits w (Z.land x y).
Proof.
  intros Hw. rewrite !fits_land_ones by done. intros Hx.
  by rewrite <-Z.land_assoc, (Z.land_comm y), Z.land_assoc, Hx.
Qed.

Lemma lxor_fits w x y : 0 ≤ w → fits w x → fits w y → fits w (Z.lxor x y).
Proof.
  intros Hw Hx Hy. apply fits_land_ones; [done|].
  apply Z.bits_inj'; intros i Hi.
  rewrite Z.land_spec, Z.lxor_spec.
  destruct (decide (i < w)); [by rewrite Z.ones_spec_low, andb_true_r by lia|].
  by rewrite (testbit_high x w), (testbit_high y w) by (unfold fits in *; lia).
Qed.
#[export] Hint Resolve lor_fits land_fits lxor_fits : kern.

(** ** Outcomes and the state monad of the kernel code

    A C function that reads or writes global state is a state transformer.
    [Ok] is a normal return; [Halt] is the kernel stopping itself (an endless
    [hlt] loop after a fatal error, or a failed assertion); [Fault] is an
    access the C standard leaves undefined; [Spin] means that the fuel of a
    [while] loop ran out. *)

Inductive outcome (A : Type) : Type :=
| Ok (a : A)
| Halt
| Fault
| Spin.
Arguments Ok {A} a.
Arguments Halt {A}.
Arguments Fault {A}.
Arguments Spin {A}.

Definition M (S A : Type) : Type := S → outcome (A * S).

#[global] Instance M_ret S : MRet (M S) := λ A a s, Ok (a, s).
#[global] Instance M_bind S : MBind (M S) := λ A B f m s,
  match m s with
  | Ok (a, s') => f a s'
  | Halt => Halt
  | Fault => Fault
  | Spin => Spin
  end.

Definition gets {S A} (f : S → A) : M S A := λ s, Ok (f s, s).
Definition modify {S} (f : S → S) : M S unit := λ s, Ok (tt, f s).
Definition put {S} (s' : S) : M S unit := λ _, Ok (tt, s').
Definition halt {S A} : M S A := λ _, Halt.
Definition fault {S A} : M S A := λ _, Fault.
Definition spin {S A} : M S A := λ _, Spin.
Definition when {S} (b : bool) (m : M S unit) : M S unit := if b then m else mret tt.

(** [for (i = lo; ...; i++)] with a known number of iterations. *)
Fixpoint for_loop {S} (n : nat) (i : Z) (body : Z → M S unit) : M S unit :=
  match n with
  | O => mret tt
  | Datatypes.S n => body i ;; for_loop n (i + 1) body
  end.

(** Run a computation of a part [S] of a larger state [T]. *)
Definition zoom {S T A} (get : T → S) (set : S → T → T) (m : M S A) : M T A :=
  λ t, match m (get t) with
       | Ok (a, s') => Ok (a, set s' t)
       | Halt => Halt
       | Fault => Fault
       | Spin => Spin
       end.

Lemma zoom_ok {S T X} (get : T → S) (set : S → T → T) (m : M S X) t x s :
  m (get t) = Ok (x, s) → zoom get set m t = Ok (x, set s t).
Proof. intros E. unfold zoom. by rewrite E. Qed.

Section monad_lemmas.
Context {S : Type}.

Lemma bind_ok {A B} (m : M S A) (f : A → M S B) s a s' :
  m s = Ok (a, s') → (m ≫= f) s = f a s'.
Proof. intros H. unfold mbind, M_bind. by rewrite H. Qed.

Lemma bind_inv {A B} (m : M S A) (f : A → M S B) s b s'' :
  (m ≫= f) s = Ok (b, s'') → ∃ a s', m s = Ok (a, s') ∧ f a s' = Ok (b, s'').
Proof.
  unfold mbind, M_bind. destruct (m s) as [[a s']| | |] eqn:E; intros H; try done.
  eauto.
Qed.

Lemma ret_eq {A} (a : A) s : (mret a : M S A) s = Ok (a, s).
Proof. done. Qed.

(** Hoare-style rule for counted loops. *)
Lemma for_loop_inv (I : Z → S → Prop) (body : Z → M S unit) n lo s :
  I lo s →
  (∀ i s, lo ≤ i < lo + Z.of_nat n → I i s → ∃ s', body i s = Ok (tt, s') ∧ I (i + 1) s') →
  ∃ s', for_loop n lo body s = Ok (tt, s') ∧ I (lo + Z.of_nat n) s'.
Proof.
  revert lo s; induction n as [|n IH]; intros lo s HI Hb.
  - exists s. split; [done|]. by rewrite Z.add_0_r.
  - destruct (Hb lo s) as (s1 & E1 & H1); [lia|done|].
    destruct (IH (lo + 1) s1 H1) as (s2 & E2 & H2).
    { intros i s' Hi. apply Hb. lia. }
    exists s2. split; [|by replace (lo + Z.of_nat (Datatypes.S n))
      with (lo + 1 + Z.of_nat n) by lia].
    cbn [for_loop]. by erewrite bind_ok.
Qed.
End monad_lemmas.

(** One symbolic-execution step of a monadic goal [(m ≫= f) s = _]. *)
Ltac mstep :=
  match goal with
  | |- context [(@mbind _ (M_bind _) _ _ ?f ?m) ?s] =>
      erewrite (bind_ok m f s); [|first [eassumption | reflexivity]]; cbv beta
  end.
Tactic Notation "mstep" "with" uconstr(H) :=
  match goal with
  | |- context [(@mbind _ (M_bind _) _ _ ?f ?m) ?s] =>
      rewrite (bind_ok m f s _ _ H); cbv beta
  end.

(** ** Lists *)

Lemma lookup_insert_list {A} (l : list A) i j x :
  (i < length l)%nat → <[i:=x]> l !! j = if decide (i = j) then Some x else l !! j.
Proof.
  intros. case_decide; subst; [by apply list_lookup_insert_eq|by apply list_lookup_insert_ne].
Qed.

Lemma NoDup_bounded (l : list Z) n :
  NoDup l → (∀ x, x ∈ l → 0 ≤ x < Z.of_nat n) → (length l ≤ n)%nat.
Proof.
  intros Hnd Hb.
  assert (length (seqZ 0 (Z.of_nat n)) = n) as <- by (rewrite length_seqZ; lia).
  apply submseteq_length, NoDup_submseteq; [done|].
  intros x Hx. apply elem_of_seqZ. apply Hb in Hx. lia.
Qed.

(** C array access by a signed index: [None] outside the bounds. *)
Definition zlookup {A} (l : list A) (i : Z) : option A :=
  if i <? 0 then None else l !! Z.to_nat i.
Definition zinsert {A} (i : Z) (x : A) (l : list A) : list A :=
  if i <? 0 then l else <[Z.to_nat i := x]> l.

Lemma zlookup_Some_bounds {A} (l : list A) i x :
  zlookup l i = Some x → 0 ≤ i < Z.of_nat (length l).
Proof.
  unfold zlookup. destruct (Z.ltb_spec i 0); [done|].
  intros H1%lookup_lt_Some. lia.
Qed.
Lemma zlookup_lt {A} (l : list A) i :
  0 ≤ i < Z.of_nat (length l) → is_Some (zlookup l i).
Proof.
  intros. unfold zlookup. destruct (Z.ltb_spec i 0); [lia|].
  apply lookup_lt_is_Some. lia.
Qed.
Lemma zlookup_zinsert {A} (l : list A) i j x :
  0 ≤ i < Z.of_nat (length l) →
  zlookup (zinsert i x l) j = if decide (i = j) then Some x else zlookup l j.
Proof.
  intros Hi. unfold zlookup, zinsert. destruct (Z.ltb_spec i 0); [lia|].
  destruct (Z.ltb_spec j 0); [by rewrite decide_False by lia|].
  rewrite lookup_insert_list by lia.
  destruct (decide (i = j)); [by rewrite decide_True by lia|by rewrite decide_False by lia].
Qed.
Lemma zinsert_id {A} (l : list A) i x : zlookup l i = Some x → zinsert i x l = l.
Proof. unfold zlookup, zinsert. destruct (i <? 0); [done|]. apply list_insert_id. Qed.
Lemma zinsert_twice {A} n (x y : A) l : zinsert n x (zinsert n y l) = zinsert n x l.
Proof. unfold zinsert. destruct (n <? 0); [done|]. apply list_insert_insert_eq. Qed.
Lemma length_zinsert {A} (l : list A) i x : length (zinsert i x l) = length l.
Proof. unfold zinsert. destruct (i <? 0); [done|apply length_insert]. Qed.

(** ** Alignment macros of src/kernel/includes/main/util/util.h *)

Definition ALIGN_DOWN (x align : Z) : Z := u64 (Z.land x (Z.lnot (align - 1))).
Definition ALIGN_UP (x align : Z) : Z :=
  u64 (Z.land (u64 (x + (align - 1))) (Z.lnot (align - 1))).

Lemma ALIGN_DOWN_spec x k : 0 ≤ k → fits 64 x → ALIGN_DOWN x (2 ^ k) = x / 2 ^ k * 2 ^ k.
Proof.
  intros Hk [H0 H1]. unfold ALIGN_DOWN. rewrite land_lnot_ones by done.
  assert (0 < 2 ^ k) by (apply Z.pow_pos_nonneg; lia).
  pose proof (Z.mul_div_le x (2 ^ k)). pose proof (Z.div_pos x (2 ^ k)).
  apply u64_small. nia.
Qed.
Lemma ALIGN_UP_spec x k :
  0 ≤ k → 0 ≤ x → x + 2 ^ k - 1 < 2 ^ 64 →
  ALIGN_UP x (2 ^ k) = (x + 2 ^ k - 1) / 2 ^ k * 2 ^ k.
Proof.
  intros Hk H0 H1. assert (0 < 2 ^ k) by (apply Z.pow_pos_nonneg; lia).
  unfold ALIGN_UP. rewrite (u64_small (x + (2 ^ k - 1))) by lia.
  replace (x + (2 ^ k - 1)) with (x + 2 ^ k - 1) by lia.
  apply ALIGN_DOWN_spec; [done|unfold fits; lia].
Qed.

#[global] Arguments u8 : simpl never.
#[global] Arguments u16 : simpl never.
#[global] Arguments u32 : simpl never.
#[global] Arguments u64 : simpl never.
#[global] Arguments swrap : simpl never.
#[global] Arguments zlookup : simpl never.
#[global] Arguments zinsert : simpl never.
#[global] Arguments ALIGN_UP : simpl never.
#[global] Arguments ALIGN_DOWN : simpl never.
