(* ===== verification/Memory.v ===== *)
(** * Memory

    The byte-addressed memory the kernel's C code works on, shared by the
    physical allocator (free-list links and the page bitmap), the page tables,
    the heap and the string library.  A memory is a finite map from addresses
    to byte values; an address outside the map reads as zero, so that a memory
    denotes a total function and no statement depends on what was mapped.
    [load n]/[store n] are the little-endian accesses of an [n]-byte integer
    through a pointer; [memset_z], [memcpy_z] are the byte loops of
    src/kernel/main/util/string.c seen as memory transformers. *)
From Stdlib Require Import ZArith Lia.
From stdpp Require Import base option gmap list.
From S2P Require Import Prelude.

Abbreviation memory := (gmap Z Z).

Definition load8 (m : memory) (a : Z) : Z := u8 (default 0 (m !! a)).
Definition store8 (m : memory) (a v : Z) : memory := <[a := u8 v]> m.

(** Little-endian integers of [n] bytes. *)
Fixpoint load (n : nat) (m : memory) (a : Z) : Z :=
  match n with
  | O => 0
  | S n => load8 m a + 2 ^ 8 * load n m (a + 1)
  end.
Fixpoint store (n : nat) (m : memory) (a v : Z) : memory :=
  match n with
  | O => m
  | S n => store n (store8 m a v) (a + 1) (v / 2 ^ 8)
  end.

Definition load16 := load 2.
Definition load32 := load 4.
Definition load64 := load 8.
Definition store16 := store 2.
Definition store32 := store 4.
Definition store64 := store 8.

Lemma load8_range m a : 0 ≤ load8 m a < 256.
Proof. apply (u8_range _). Qed.

Lemma load8_store8 m a b v :
  load8 (store8 m a v) b = if decide (a = b) then u8 v else load8 m b.
Proof.
  unfold load8, store8. case_decide as H; subst.
  - rewrite lookup_insert_eq. simpl. unfold u8. by rewrite Z.mod_mod by lia.
  - by rewrite lookup_insert_ne.
Qed.
Lemma load8_store8_eq m a v : load8 (store8 m a v) a = u8 v.
Proof. rewrite load8_store8. by case_decide. Qed.
Lemma load8_store8_ne m a b v : a ≠ b → load8 (store8 m a v) b = load8 m b.
Proof. intros. rewrite load8_store8. by case_decide. Qed.

(** Every byte after an [n]-byte store. *)
Lemma load8_store n m a v b :
  load8 (store n m a v) b =
    if decide (a ≤ b < a + Z.of_nat n) then u8 (v / 2 ^ (8 * (b - a))) else load8 m b.
Proof.
  revert m a v; induction n as [|n IH]; intros m a v.
  - simpl. case_decide; [lia|done].
  - cbn [store]. rewrite IH, load8_store8.
    destruct (decide (a = b)) as [->|Hne].
    + rewrite decide_False by lia. rewrite decide_True by lia.
      rewrite Z.sub_diag. simpl. by rewrite Z.div_1_r.
    + destruct (decide (a + 1 ≤ b < a + 1 + Z.of_nat n)).
      * rewrite decide_True by lia. rewrite Z.div_div by lia.
        rewrite <-Z.pow_add_r by lia. do 3 f_equal. lia.
      * rewrite decide_False by lia. done.
Qed.

Lemma load_ext n m1 m2 a :
  (∀ b, a ≤ b < a + Z.of_nat n → load8 m1 b = load8 m2 b) → load n m1 a = load n m2 a.
Proof.
  revert a; induction n as [|n IH]; intros a H; [done|].
  cbn [load]. rewrite H by lia. f_equal. f_equal. apply IH. intros. apply H. lia.
Qed.

(** Equal bytes at two places are equal integers. *)
Lemma load_shift n m1 m2 a1 a2 :
  (∀ i, 0 ≤ i < Z.of_nat n → load8 m1 (a1 + i) = load8 m2 (a2 + i)) → load n m1 a1 = load n m2 a2.
Proof.
  revert a1 a2; induction n as [|n IH]; intros a1 a2 H; [done|]. cbn [load].
  pose proof (H 0 ltac:(lia)) as H0. rewrite !Z.add_0_r in H0. rewrite H0. do 2 f_equal. apply IH.
  intros i Hi. rewrite <-!Z.add_assoc. apply H. lia.
Qed.

Lemma load_range n m a : 0 ≤ load n m a < 2 ^ (8 * Z.of_nat n).
Proof.
  revert a; induction n as [|n IH]; intros a; [simpl; lia|].
  cbn [load]. specialize (IH (a + 1)). pose proof (load8_range m a).
  replace (8 * Z.of_nat (S n)) with (8 + 8 * Z.of_nat n) by lia.
  rewrite Z.pow_add_r by lia. nia.
Qed.

Lemma load64_range m a : 0 ≤ load64 m a < 2 ^ 64.
Proof. apply (load_range 8). Qed.
Lemma load32_range m a : 0 ≤ load32 m a < 2 ^ 32.
Proof. apply (load_range 4). Qed.
Lemma load16_range m a : 0 ≤ load16 m a < 2 ^ 16.
Proof. apply (load_range 2). Qed.
#[export] Hint Resolve load8_range load16_range load32_range load64_range : kern.

Lemma load_store_ne n k m a b v :
  b + Z.of_nat n ≤ a ∨ a + Z.of_nat k ≤ b → load n (store k m a v) b = load n m b.
Proof.
  intros H. apply load_ext. intros c Hc. rewrite load8_store, decide_False by lia. done.
Qed.

Lemma load_store_eq n m a v : load n (store n m a v) a = v `mod` 2 ^ (8 * Z.of_nat n).
Proof.
  revert m a v; induction n as [|n IH]; intros m a v.
  - simpl. by rewrite Z.mod_1_r.
  - cbn [load store]. rewrite load8_store, decide_False, load8_store8_eq by lia.
    rewrite IH. replace (8 * Z.of_nat (S n)) with (8 + 8 * Z.of_nat n) by lia.
    rewrite Z.pow_add_r, Z.rem_mul_r by lia. unfold u8. lia.
Qed.

Lemma load64_store64_eq m a v : load64 (store64 m a v) a = u64 v.
Proof. apply (load_store_eq 8). Qed.
Lemma load64_store64_ne m a b v :
  b + 8 ≤ a ∨ a + 8 ≤ b → load64 (store64 m a v) b = load64 m b.
Proof. intros. apply (load_store_ne 8 8). lia. Qed.
Lemma load32_store32_eq m a v : load32 (store32 m a v) a = u32 v.
Proof. apply (load_store_eq 4). Qed.
Lemma load32_store32_ne m a b v : b + 4 ≤ a ∨ a + 4 ≤ b → load32 (store32 m a v) b = load32 m b.
Proof. intros. apply (load_store_ne 4 4). lia. Qed.
Lemma load8_store64_ne m a b v :
  b < a ∨ a + 8 ≤ b → load8 (store64 m a v) b = load8 m b.
Proof. intros. unfold store64. rewrite load8_store, decide_False by lia. done. Qed.
Lemma load64_store8_ne m a b v :
  a < b ∨ b + 8 ≤ a → load64 (store8 m a v) b = load64 m b.
Proof.
  intros. apply load_ext. intros c Hc. apply load8_store8_ne. lia.
Qed.

(** ** Agreement on a region

    [mem_agree lo hi m1 m2]: the two memories hold the same bytes on
    [lo, hi). *)
Definition mem_agree (lo hi : Z) (m1 m2 : memory) : Prop :=
  ∀ a, lo ≤ a < hi → load8 m1 a = load8 m2 a.

#[global] Instance mem_agree_equiv lo hi : Equivalence (mem_agree lo hi).
Proof.
  split.
  - by intros m a Ha.
  - intros m1 m2 H a Ha. symmetry. by apply H.
  - intros m1 m2 m3 H1 H2 a Ha. etransitivity; [by apply H1|by apply H2].
Qed.

Lemma mem_agree_load n lo hi m1 m2 a :
  mem_agree lo hi m1 m2 → lo ≤ a → a + Z.of_nat n ≤ hi → load n m1 a = load n m2 a.
Proof. intros H ??. apply load_ext. intros b Hb. apply H. lia. Qed.

Lemma mem_agree_store n lo hi m a v :
  a + Z.of_nat n ≤ lo ∨ hi ≤ a → mem_agree lo hi (store n m a v) m.
Proof. intros H b Hb. rewrite load8_store, decide_False by lia. done. Qed.

(** ** Block operations *)

(** [memset(s, c, n)], src/kernel/main/util/string.c *)
Fixpoint memset_nat (m : memory) (s c : Z) (n : nat) : memory :=
  match n with
  | O => m
  | S n => memset_nat (store8 m s c) (s + 1) c n
  end.
Definition memset_z (m : memory) (s c n : Z) : memory := memset_nat m s c (Z.to_nat n).

(** [memcpy(dest, src, n)]: byte by byte, in increasing order. *)
Fixpoint memcpy_nat (m : memory) (d s : Z) (n : nat) : memory :=
  match n with
  | O => m
  | S n => memcpy_nat (store8 m d (load8 m s)) (d + 1) (s + 1) n
  end.
Definition memcpy_z (m : memory) (d s n : Z) : memory := memcpy_nat m d s (Z.to_nat n).

Lemma load8_memset_z m s c n b :
  load8 (memset_z m s c n) b = if decide (s ≤ b < s + n) then u8 c else load8 m b.
Proof.
  unfold memset_z. remember (Z.to_nat n) as k eqn:Hk.
  assert (Hbnd : (s ≤ b < s + n) ↔ (s ≤ b < s + Z.of_nat k)) by lia.
  rewrite (decide_ext _ _ _ _ Hbnd). clear Hbnd Hk n.
  revert m s; induction k as [|k IH]; intros m s.
  - simpl. case_decide; [lia|done].
  - cbn [memset_nat]. rewrite IH, load8_store8.
    destruct (decide (s = b)); subst.
    + rewrite decide_False by lia. rewrite decide_True by lia. done.
    + destruct (decide (s + 1 ≤ b < s + 1 + Z.of_nat k)).
      * rewrite decide_True by lia. done.
      * rewrite decide_False by lia. done.
Qed.

Lemma load_zeros n m a :
  (∀ b, a ≤ b < a + Z.of_nat n → load8 m b = 0) → load n m a = 0.
Proof.
  revert a; induction n as [|n IH]; intros a H; [done|].
  cbn [load]. rewrite H by lia. rewrite IH; [done|]. intros; apply H; lia.
Qed.

Lemma load64_memset_zero m s n a :
  s ≤ a → a + 8 ≤ s + n → load64 (memset_z m s 0 n) a = 0.
Proof.
  intros. apply load_zeros. intros b Hb. rewrite load8_memset_z, decide_True by lia. done.
Qed.
Lemma load64_memset_ne m s c n a :
  a + 8 ≤ s ∨ s + n ≤ a → load64 (memset_z m s c n) a = load64 m a.
Proof.
  intros. apply load_ext. intros b Hb. rewrite load8_memset_z, decide_False by lia. done.
Qed.

(** A forward copy that does not read what it has written (destination below
    the source, or the regions apart) copies the original bytes. *)
Lemma load8_memcpy_z m d s n b :
  d ≤ s ∨ s + n ≤ d →
  load8 (memcpy_z m d s n) b = if decide (d ≤ b < d + n) then load8 m (s + (b - d)) else load8 m b.
Proof.
  unfold memcpy_z. remember (Z.to_nat n) as k eqn:Hk. intros Hov.
  assert (Hbnd : (d ≤ b < d + n) ↔ (d ≤ b < d + Z.of_nat k)) by lia.
  rewrite (decide_ext _ _ _ _ Hbnd).
  assert (Hov' : d ≤ s ∨ s + Z.of_nat k ≤ d) by lia. clear Hbnd Hk n Hov.
  revert m d s Hov'; induction k as [|k IH]; intros m d s Hov.
  - simpl. case_decide; [lia|done].
  - cbn [memcpy_nat]. rewrite IH by lia.
    rewrite !load8_store8.
    destruct (decide (d = b)) as [->|].
    + rewrite decide_False by lia. rewrite decide_True by lia.
      rewrite Z.sub_diag, Z.add_0_r. apply u8_small. apply load8_range.
    + destruct (decide (d + 1 ≤ b < d + 1 + Z.of_nat k)).
      * rewrite decide_False by lia. rewrite decide_True by lia. f_equal. lia.
      * rewrite (decide_False (P := d ≤ b < d + Z.of_nat (S k))) by lia. done.
Qed.

#[global] Arguments load8 : simpl never.
#[global] Arguments store8 : simpl never.
#[global] Arguments load : simpl never.
#[global] Arguments store : simpl never.
#[global] Arguments load16 : simpl never.
#[global] Arguments load32 : simpl never.
#[global] Arguments load64 : simpl never.
#[global] Arguments store16 : simpl never.
#[global] Arguments store32 : simpl never.
#[global] Arguments store64 : simpl never.
#[global] Arguments memset_z : simpl never.
#[global] Arguments memcpy_z : simpl never.
