(* ===== verification/Pmm.v ===== *)
(** * Physical memory manager

    Model of src/kernel/main/mm/pmm.c: the buddy allocator of physical pages.
    The free list of an order is threaded through the free blocks themselves
    (the first word of a block holds the address of the next one, at
    [hhdm_offset] above its physical address), and one bit per page says
    whether the page is in use; both live in [pmm_mem].  The invariant and the theorems are in PmmProof.v. *)
From Stdlib Require Import ZArith Lia.
From stdpp Require Import base option gmap list.
From S2P Require Import Prelude Memory.

Definition PAGE_SIZE : Z := 4096.
Definition MAX_ORDER : Z := 11.

(** The file-scope variables of pmm.c, with the memory they point into. *)
Record pmm := mkPmm {
  pmm_mem : memory;
  pmm_total_pages : Z;
  pmm_free_pages : Z;
  pmm_bitmap : Z;            (* address of the bitmap, 0 = NULL *)
  pmm_max_page : Z;
  hhdm_offset : Z;
  free_lists : list Z;       (* MAX_ORDER head pointers, 0 = NULL *)
}.

Definition set_pmm_mem (m : memory) (s : pmm) : pmm :=
  mkPmm m (pmm_total_pages s) (pmm_free_pages s) (pmm_bitmap s) (pmm_max_page s)
    (hhdm_offset s) (free_lists s).
Definition set_pmm_total_pages (n : Z) (s : pmm) : pmm :=
  mkPmm (pmm_mem s) n (pmm_free_pages s) (pmm_bitmap s) (pmm_max_page s)
    (hhdm_offset s) (free_lists s).
Definition set_pmm_free_pages (n : Z) (s : pmm) : pmm :=
  mkPmm (pmm_mem s) (pmm_total_pages s) n (pmm_bitmap s) (pmm_max_page s)
    (hhdm_offset s) (free_lists s).
Definition set_pmm_bitmap (b : Z) (s : pmm) : pmm :=
  mkPmm (pmm_mem s) (pmm_total_pages s) (pmm_free_pages s) b (pmm_max_page s)
    (hhdm_offset s) (free_lists s).
Definition set_pmm_max_page (n : Z) (s : pmm) : pmm :=
  mkPmm (pmm_mem s) (pmm_total_pages s) (pmm_free_pages s) (pmm_bitmap s) n
    (hhdm_offset s) (free_lists s).
Definition set_hhdm_offset (h : Z) (s : pmm) : pmm :=
  mkPmm (pmm_mem s) (pmm_total_pages s) (pmm_free_pages s) (pmm_bitmap s)
    (pmm_max_page s) h (free_lists s).
Definition set_free_lists (l : list Z) (s : pmm) : pmm :=
  mkPmm (pmm_mem s) (pmm_total_pages s) (pmm_free_pages s) (pmm_bitmap s)
    (pmm_max_page s) (hhdm_offset s) l.

(** ** The bitmap *)

Definition bitmap_set (bit : Z) : M pmm unit :=
  modify (λ s, let a := pmm_bitmap s + bit / 8 in
    set_pmm_mem (store8 (pmm_mem s) a
      (Z.lor (load8 (pmm_mem s) a) (u8 (Z.shiftl 1 (bit `mod` 8))))) s).

Definition bitmap_clear (bit : Z) : M pmm unit :=
  modify (λ s, let a := pmm_bitmap s + bit / 8 in
    set_pmm_mem (store8 (pmm_mem s) a
      (Z.land (load8 (pmm_mem s) a) (u8 (Z.lnot (Z.shiftl 1 (bit `mod` 8)))))) s).

Definition bitmap_test (bit : Z) : M pmm Z :=
  gets (λ s, Z.land (Z.shiftr (load8 (pmm_mem s) (pmm_bitmap s + bit / 8)) (bit `mod` 8)) 1).

(** ** The free lists *)

Definition free_list_get (order : Z) : M pmm Z := λ s,
  match zlookup (free_lists s) order with
  | Some h => Ok (h, s)
  | None => Fault
  end.
Definition free_list_set (order v : Z) : M pmm unit := λ s,
  match zlookup (free_lists s) order with
  | Some _ => Ok (tt, set_free_lists (zinsert order v (free_lists s)) s)
  | None => Fault
  end.
(** [region->next] *)
Definition region_next (region : Z) : M pmm Z := gets (λ s, load64 (pmm_mem s) region).
Definition set_region_next (region v : Z) : M pmm unit :=
  modify (λ s, set_pmm_mem (store64 (pmm_mem s) region v) s).

Definition pmm_list_add (order phys_addr : Z) : M pmm unit :=
  hhdm ← gets hhdm_offset;
  let region := u64 (phys_addr + hhdm) in
  head ← free_list_get order;
  set_region_next region head;;
  free_list_set order region.

(** What the variable [prev] of [pmm_list_remove] points to: a list head, or
    the [next] field of a region. *)
Inductive link :=
| LinkHead (order : Z)
| LinkNext (region : Z).

Definition set_link (l : link) (v : Z) : M pmm unit :=
  match l with
  | LinkHead order => free_list_set order v
  | LinkNext region => set_region_next region v
  end.

(** Fuel of the list walks: one step per page and one for the end.  A list
    that is not circular has at most one node per page. *)
Definition walk_fuel (s : pmm) : nat := S (Z.to_nat (pmm_max_page s)).

Fixpoint pmm_list_remove_loop (fuel : nat) (prev : link) (curr phys_addr : Z) : M pmm unit :=
  if curr =? 0 then mret tt else
  match fuel with
  | O => spin
  | S fuel =>
      hhdm ← gets hhdm_offset;
      next ← region_next curr;
      if u64 (curr - hhdm) =? phys_addr then set_link prev next
      else pmm_list_remove_loop fuel (LinkNext curr) next phys_addr
  end.

Definition pmm_list_remove (order phys_addr : Z) : M pmm unit :=
  curr ← free_list_get order;
  fuel ← gets walk_fuel;
  pmm_list_remove_loop fuel (LinkHead order) curr phys_addr.

Fixpoint pmm_list_contains_loop (fuel : nat) (curr phys_addr : Z) : M pmm Z :=
  if curr =? 0 then mret 0 else
  match fuel with
  | O => spin
  | S fuel =>
      hhdm ← gets hhdm_offset;
      if u64 (curr - hhdm) =? phys_addr then mret 1
      else (next ← region_next curr; pmm_list_contains_loop fuel next phys_addr)
  end.

Definition pmm_list_contains (order phys_addr : Z) : M pmm Z :=
  curr ← free_list_get order;
  fuel ← gets walk_fuel;
  pmm_list_contains_loop fuel curr phys_addr.

(** ** Allocation *)

(** [while (i > order) { i--; pmm_list_add(i, addr + (PAGE_SIZE << i)); }],
    with [n = i - order] iterations left. *)
Fixpoint palloc_split (n : nat) (i addr : Z) : M pmm unit :=
  match n with
  | O => mret tt
  | S n =>
      let i := i - 1 in
      pmm_list_add i (u64 (addr + u64 (Z.shiftl PAGE_SIZE i)));;
      palloc_split n i addr
  end.

(** [for (i = order; i < MAX_ORDER; i++)], with [n = MAX_ORDER - i] values of
    [i] left. *)
Fixpoint palloc_search (n : nat) (order i : Z) : M pmm Z :=
  match n with
  | O => mret 0
  | S n =>
      head ← free_list_get i;
      if head =? 0 then palloc_search n order (i + 1) else
      hhdm ← gets hhdm_offset;
      let addr := u64 (head - hhdm) in
      next ← region_next head;
      free_list_set i next;;
      palloc_split (Z.to_nat (i - order)) i addr;;
      let page_idx := addr / PAGE_SIZE in
      for_loop (Z.to_nat (u64 (Z.shiftl 1 order))) 0 (λ j, bitmap_set (u64 (page_idx + j)));;
      modify (λ s, set_pmm_free_pages (u64 (pmm_free_pages s - u64 (Z.shiftl 1 order))) s);;
      mret addr
  end.

Definition palloc_order (order : Z) : M pmm Z :=
  palloc_search (Z.to_nat (MAX_ORDER - order)) order order.

Definition palloc : M pmm Z := palloc_order 0.

(** ** Release *)

(** The coalescing loop of [pfree_order]; the result is the order and the page
    index it ends with. *)
Fixpoint pfree_merge (n : nat) (order page_idx : Z) : M pmm (Z * Z) :=
  match n with
  | O => mret (order, page_idx)
  | S n =>
      let buddy_idx := Z.lxor page_idx (u64 (Z.shiftl 1 order)) in
      let buddy_phys := u64 (buddy_idx * PAGE_SIZE) in
      max_page ← gets pmm_max_page;
      if max_page <=? buddy_idx then mret (order, page_idx) else
      used ← bitmap_test buddy_idx;
      if negb (used =? 0) then mret (order, page_idx) else
      found ← pmm_list_contains order buddy_phys;
      if found =? 0 then mret (order, page_idx) else
      pmm_list_remove order buddy_phys;;
      pfree_merge n (order + 1) (if buddy_idx <? page_idx then buddy_idx else page_idx)
  end.

Definition pfree_order (phys_addr order : Z) : M pmm unit :=
  let page_idx := phys_addr / PAGE_SIZE in
  for_loop (Z.to_nat (u64 (Z.shiftl 1 order))) 0 (λ j, bitmap_clear (u64 (page_idx + j)));;
  '(order, page_idx) ← pfree_merge (Z.to_nat (MAX_ORDER - 1 - order)) order page_idx;
  pmm_list_add order (u64 (page_idx * PAGE_SIZE));;
  modify (λ s, set_pmm_free_pages (u64 (pmm_free_pages s + u64 (Z.shiftl 1 order))) s).

Definition pfree (phys_addr : Z) : M pmm unit := pfree_order phys_addr 0.

(** ** Initialisation *)

(** [struct limine_memmap_entry] of src/boot/limine.h *)
Record memmap_entry := mkEntry { e_base : Z; e_length : Z; e_type : Z }.
Definition LIMINE_MEMMAP_USABLE : Z := 0.

(** The largest end address of the map. *)
Definition memmap_top (memmap : list memmap_entry) : Z :=
  fold_left (λ top e, let end_ := u64 (e_base e + e_length e) in
                      if top <? end_ then end_ else top) memmap 0.

(** The loop that places the bitmap in the first usable entry that is large
    enough, and removes it from that entry. *)
Fixpoint place_bitmap (bitmap_size : Z) (memmap : list memmap_entry)
    : M pmm (list memmap_entry) :=
  match memmap with
  | [] => mret []
  | e :: rest =>
      if negb (e_type e =? LIMINE_MEMMAP_USABLE) || (e_length e <? bitmap_size)
      then rest' ← place_bitmap bitmap_size rest; mret (e :: rest')
      else
        modify (λ s, set_pmm_bitmap (u64 (e_base e + hhdm_offset s)) s);;
        modify (λ s, set_pmm_mem (memset_z (pmm_mem s) (pmm_bitmap s) 255 bitmap_size) s);;
        mret (mkEntry (u64 (e_base e + bitmap_size)) (u64 (e_length e - bitmap_size)) (e_type e)
              :: rest)
  end.

(** The largest order of a block that starts at [cur] and ends by [end_]. *)
Fixpoint carve_order (n : nat) (order cur end_ : Z) : Z :=
  match n with
  | O => order
  | S n =>
      let size := u64 (Z.shiftl PAGE_SIZE (order + 1)) in
      if (end_ <? u64 (cur + size)) || negb (cur `mod` size =? 0) then order
      else carve_order n (order + 1) cur end_
  end.

Fixpoint carve_region (fuel : nat) (cur end_ : Z) : M pmm unit :=
  if end_ <=? cur then mret tt else
  match fuel with
  | O => spin
  | S fuel =>
      let order := carve_order (Z.to_nat (MAX_ORDER - 1)) 0 cur end_ in
      let page_idx := cur / PAGE_SIZE in
      for_loop (Z.to_nat (u64 (Z.shiftl 1 order))) 0 (λ j, bitmap_clear (u64 (page_idx + j)));;
      pmm_list_add order cur;;
      modify (λ s, set_pmm_total_pages (u64 (pmm_total_pages s + u64 (Z.shiftl 1 order))) s);;
      modify (λ s, set_pmm_free_pages (u64 (pmm_free_pages s + u64 (Z.shiftl 1 order))) s);;
      carve_region fuel (u64 (cur + u64 (Z.shiftl PAGE_SIZE order))) end_
  end.

Fixpoint carve_memmap (memmap : list memmap_entry) : M pmm unit :=
  match memmap with
  | [] => mret tt
  | e :: rest =>
      (if negb (e_type e =? LIMINE_MEMMAP_USABLE) then mret tt else
       let base := ALIGN_UP (e_base e) PAGE_SIZE in
       let end_ := ALIGN_DOWN (u64 (e_base e + e_length e)) PAGE_SIZE in
       carve_region (Z.to_nat ((end_ - base) / PAGE_SIZE)) base end_);;
      carve_memmap rest
  end.

(** [hhdm] and [memmap] are the responses of the boot loader, [None] when a
    response is NULL; the result is the memory map after the bitmap was taken
    out of it. *)
Definition pmm_init (hhdm : option Z) (memmap : option (list memmap_entry))
    : M pmm (list memmap_entry) :=
  match hhdm, memmap with
  | Some offset, Some memmap =>
      modify (set_hhdm_offset offset);;
      let top_addr := memmap_top memmap in
      modify (set_pmm_max_page (top_addr / PAGE_SIZE));;
      max_page ← gets pmm_max_page;
      let bitmap_size := ALIGN_UP (max_page / 8) PAGE_SIZE in
      memmap ← place_bitmap bitmap_size memmap;
      bitmap ← gets pmm_bitmap;
      if bitmap =? 0 then halt else
      modify (set_free_lists (replicate (Z.to_nat MAX_ORDER) 0));;
      carve_memmap memmap;;
      mret memmap
  | _, _ => halt
  end.

Definition pmm_get_total_pages : M pmm Z := gets pmm_total_pages.
Definition pmm_get_free_pages : M pmm Z := gets pmm_free_pages.
Definition pmm_get_used_pages : M pmm Z :=
  gets (λ s, u64 (pmm_total_pages s - pmm_free_pages s)).
Definition pmm_get_hhdm_offset : M pmm Z := gets hhdm_offset.

(** The zero-initialised variables at boot, over some memory. *)
Definition pmm_boot (m : memory) : pmm := mkPmm m 0 0 0 0 0 [].
