(* ===== verification/PmmProof.v ===== *)
(** * Correctness of the physical memory manager

    The ghost function [L] gives, for each order, the physical addresses of
    the blocks on that free list of pmm.c.  [pmm_inv s L] says that the memory
    of [s] represents [L], that the free blocks are aligned, inside the
    managed memory and pairwise disjoint, and that the bitmap is clear exactly
    on the pages of the free blocks.  Allocation and release keep the
    invariant and change the set of free pages by exactly the block. *)
From Stdlib Require Import ZArith Lia.
From stdpp Require Import base option gmap list.
From S2P Require Import Prelude Memory Pmm.

Abbreviation ghost := (Z → list Z).

(** Page [q] lies in the block of order [o] at physical address [p]. *)
Definition covers (o p q : Z) : Prop := p / PAGE_SIZE ≤ q < p / PAGE_SIZE + 2 ^ o.

Definition free_page (L : ghost) (q : Z) : Prop := ∃ o p, p ∈ L o ∧ covers o p q.

Definition upd (L : ghost) (o : Z) (l : list Z) : ghost :=
  λ o', if decide (o' = o) then l else L o'.

(** The blocks of [l], linked through their first words from pointer [h]. *)
Fixpoint chain (m : memory) (hhdm h : Z) (l : list Z) : Prop :=
  match l with
  | [] => h = 0
  | p :: l => h = p + hhdm ∧ chain m hhdm (load64 m h) l
  end.

Definition page_bit (s : pmm) (q : Z) : bool :=
  Z.testbit (load8 (pmm_mem s) (pmm_bitmap s + q / 8)) (q `mod` 8).

Definition bitmap_len (s : pmm) : Z := (pmm_max_page s + 7) / 8.

(** A block of order [o] at [p]: not at address zero, aligned to its size and
    inside the managed memory. *)
Definition block_ok (s : pmm) (o p : Z) : Prop :=
  0 ≤ o < MAX_ORDER ∧ 0 < p ∧ p `mod` (PAGE_SIZE * 2 ^ o) = 0 ∧
  p / PAGE_SIZE + 2 ^ o ≤ pmm_max_page s.

(** Page [q] does not meet the memory of the bitmap. *)
Definition off_bitmap (s : pmm) (q : Z) : Prop :=
  hhdm_offset s + PAGE_SIZE * (q + 1) ≤ pmm_bitmap s ∨
  pmm_bitmap s + bitmap_len s ≤ hhdm_offset s + PAGE_SIZE * q.

Definition geometry (s : pmm) : Prop :=
  length (free_lists s) = Z.to_nat MAX_ORDER ∧
  0 ≤ pmm_max_page s ∧ 0 ≤ hhdm_offset s ∧
  hhdm_offset s + PAGE_SIZE * pmm_max_page s < 2 ^ 64.

Definition disjoint_blocks (L : ghost) : Prop :=
  ∀ o p o' p' q, p ∈ L o → p' ∈ L o' → covers o p q → covers o' p' q → o = o' ∧ p = p'.

(** The free blocks of [L]: well placed, pairwise disjoint, off the bitmap. *)
Record blocks_inv (s : pmm) (L : ghost) : Prop := {
  bi_block : ∀ o p, p ∈ L o → block_ok s o p;
  bi_nodup : ∀ o, NoDup (L o);
  bi_disj : disjoint_blocks L;
  bi_off : ∀ q, free_page L q → off_bitmap s q;
}.

(** The lists in memory are those of [L]. *)
Definition chains (s : pmm) (L : ghost) : Prop :=
  ∀ o, 0 ≤ o < MAX_ORDER →
    ∃ h, zlookup (free_lists s) o = Some h ∧ chain (pmm_mem s) (hhdm_offset s) h (L o).

Record lists_inv (s : pmm) (L : ghost) : Prop := {
  li_geom : geometry s;
  li_chain : chains s L;
  li_blocks : blocks_inv s L;
}.

Lemma li_block s L : lists_inv s L → ∀ o p, p ∈ L o → block_ok s o p.
Proof. intros [_ _ H]. apply H. Qed.
Lemma li_disj s L : lists_inv s L → disjoint_blocks L.
Proof. intros [_ _ H]. apply H. Qed.
Lemma li_off s L : lists_inv s L → ∀ q, free_page L q → off_bitmap s q.
Proof. intros [_ _ H]. apply H. Qed.
Lemma li_nodup s L : lists_inv s L → ∀ o, NoDup (L o).
Proof. intros [_ _ H]. apply H. Qed.

Definition bits_exact (s : pmm) (P : Z → Prop) : Prop :=
  ∀ q, 0 ≤ q < pmm_max_page s → page_bit s q = false ↔ P q.

Definition pmm_inv (s : pmm) (L : ghost) : Prop :=
  lists_inv s L ∧ bits_exact s (free_page L).

(** ** Block arithmetic *)

Lemma pow2_pos o : 0 ≤ o → 0 < 2 ^ o.
Proof. intros. apply Z.pow_pos_nonneg; lia. Qed.
Lemma pow2_le o : 0 ≤ o < MAX_ORDER → 2 ^ o ≤ 1024.
Proof. intros. change 1024 with (2 ^ 10). apply Z.pow_le_mono_r; unfold MAX_ORDER in *; lia. Qed.

Lemma block_aligned s o p : block_ok s o p → p = PAGE_SIZE * (p / PAGE_SIZE).
Proof.
  intros ([Ho _] & _ & Hal & _). pose proof (pow2_pos o Ho).
  apply Z.mod_divide in Hal as [k ->]; [|unfold PAGE_SIZE; lia].
  rewrite Z.mul_assoc, (Z.mul_comm k), <-Z.mul_assoc, (Z.mul_comm PAGE_SIZE).
  rewrite Z.div_mul by (unfold PAGE_SIZE; lia). lia.
Qed.

Lemma covers_head o p : 0 ≤ o → covers o p (p / PAGE_SIZE).
Proof. intros. pose proof (pow2_pos o). unfold covers. lia. Qed.

Lemma block_page_pos s o p : block_ok s o p → 0 < p / PAGE_SIZE < pmm_max_page s.
Proof.
  intros H. pose proof (block_aligned _ _ _ H). destruct H as ([Ho _] & Hp & _ & Hm).
  pose proof (pow2_pos o Ho). unfold PAGE_SIZE in *. lia.
Qed.

Lemma free_page_range s L q : lists_inv s L → free_page L q → 0 ≤ q < pmm_max_page s.
Proof.
  intros HL (o & p & Hp & Hc). pose proof (li_block _ _ HL _ _ Hp) as Hb.
  pose proof (block_page_pos _ _ _ Hb). destruct Hb as (_ & _ & _ & Hm).
  unfold covers in Hc. lia.
Qed.

(** ** What an operation may change *)

(** [s'] differs from [s] only in the free-list heads, the free-page counter
    and the bytes at the addresses of [P]. *)
Definition unchanged_but (P : Z → Prop) (s s' : pmm) : Prop :=
  pmm_bitmap s' = pmm_bitmap s ∧ pmm_max_page s' = pmm_max_page s ∧
  hhdm_offset s' = hhdm_offset s ∧ pmm_total_pages s' = pmm_total_pages s ∧
  length (free_lists s') = length (free_lists s) ∧
  ∀ a, ¬ P a → load8 (pmm_mem s') a = load8 (pmm_mem s) a.

Definition in_block (s : pmm) (o p a : Z) : Prop :=
  hhdm_offset s + p ≤ a < hhdm_offset s + p + PAGE_SIZE * 2 ^ o.
Definition in_free (s : pmm) (L : ghost) (a : Z) : Prop :=
  ∃ o p, p ∈ L o ∧ in_block s o p a.
Definition in_bitmap (s : pmm) (a : Z) : Prop :=
  pmm_bitmap s ≤ a < pmm_bitmap s + bitmap_len s.

Lemma unchanged_refl P s : unchanged_but P s s.
Proof. by repeat split. Qed.

Lemma unchanged_mono (P Q : Z → Prop) s s' :
  unchanged_but P s s' → (∀ a, P a → Q a) → unchanged_but Q s s'.
Proof. intros (?&?&?&?&?&H) HPQ. repeat split; auto. Qed.

Lemma unchanged_trans (P : Z → Prop) s s' s'' :
  unchanged_but P s s' → unchanged_but P s' s'' → unchanged_but P s s''.
Proof.
  intros (E1&E2&E3&E4&E5&H) (F1&F2&F3&F4&F5&G). repeat split; try congruence.
  intros a Ha. by rewrite G, H.
Qed.

Lemma unchanged_geometry P s s' : unchanged_but P s s' → geometry s → geometry s'.
Proof. intros (?&E2&E3&?&E5&_). unfold geometry. by rewrite E2, E3, E5. Qed.

Lemma unchanged_block_ok P s s' o p : unchanged_but P s s' → block_ok s o p → block_ok s' o p.
Proof. intros (?&E2&_). unfold block_ok. by rewrite E2. Qed.

Lemma unchanged_off P s s' q : unchanged_but P s s' → off_bitmap s q → off_bitmap s' q.
Proof. intros (E1&E2&E3&_). unfold off_bitmap, bitmap_len. by rewrite E1, E2, E3. Qed.

Lemma unchanged_load64 P s s' a :
  unchanged_but P s s' → (∀ b, a ≤ b < a + 8 → ¬ P b) →
  load64 (pmm_mem s') a = load64 (pmm_mem s) a.
Proof. intros (_&_&_&_&_&H) HP. apply load_ext. intros b Hb. apply H, HP. lia. Qed.

Lemma unchanged_page_bit P s s' q :
  unchanged_but P s s' → (∀ a, in_bitmap s a → ¬ P a) → 0 ≤ q < pmm_max_page s →
  page_bit s' q = page_bit s q.
Proof.
  intros (E1&E2&E3&E4&E5&H) HP Hq. unfold page_bit. rewrite E1, H; [done|].
  apply HP. unfold in_bitmap, bitmap_len. zdiv.
Qed.

Lemma unchanged_bits P s s' (R : Z → Prop) :
  unchanged_but P s s' → (∀ a, in_bitmap s a → ¬ P a) → bits_exact s R → bits_exact s' R.
Proof.
  intros Hu HP HB q Hq. pose proof Hu as (_&E2&_). rewrite E2 in Hq.
  erewrite unchanged_page_bit by eauto. by apply HB.
Qed.

(** Pages and addresses of a block. *)
Lemma in_block_page s o p a :
  block_ok s o p → in_block s o p a →
  ∃ q, covers o p q ∧ hhdm_offset s + PAGE_SIZE * q ≤ a < hhdm_offset s + PAGE_SIZE * (q + 1).
Proof.
  intros Hb Ha. pose proof (block_aligned _ _ _ Hb) as E. unfold in_block in Ha.
  exists ((a - hhdm_offset s) / PAGE_SIZE).
  set (k := p / PAGE_SIZE) in *. unfold covers. fold k.
  unfold PAGE_SIZE in *. zdiv.
Qed.

Lemma block_off_bitmap s o p a :
  block_ok s o p → (∀ q, covers o p q → off_bitmap s q) → in_bitmap s a → ¬ in_block s o p a.
Proof.
  intros Hb Hoff Hbm Ha. destruct (in_block_page s o p a Hb Ha) as (q & Hc & Hq).
  specialize (Hoff q Hc). unfold off_bitmap, in_bitmap in *. lia.
Qed.

Lemma in_free_off_bitmap s L a : lists_inv s L → in_bitmap s a → ¬ in_free s L a.
Proof.
  intros HL Hbm (o & p & Hp & Ha). revert Ha.
  eapply block_off_bitmap; [by eapply li_block| |done].
  intros q Hq. eapply li_off; [done|]. by exists o, p.
Qed.

(** A page belongs to at most one free block, and blocks that share no page
    share no address. *)
Lemma blocks_apart s o p o' p' a :
  block_ok s o p → block_ok s o' p' → (∀ q, covers o p q → ¬ covers o' p' q) →
  in_block s o p a → ¬ in_block s o' p' a.
Proof.
  intros Hb Hb' Hd Ha Ha'.
  destruct (in_block_page s o p a Hb Ha) as (q & Hc & Hq).
  destruct (in_block_page s o' p' a Hb' Ha') as (q' & Hc' & Hq').
  assert (q = q') as -> by (unfold PAGE_SIZE in *; lia). by eapply Hd.
Qed.

(** ** Chains *)

Lemma chain_frame m m' hhdm h l :
  (∀ p, p ∈ l → load64 m' (p + hhdm) = load64 m (p + hhdm)) →
  chain m hhdm h l → chain m' hhdm h l.
Proof.
  revert h; induction l as [|p l IH]; intros h Hl; [done|].
  intros [-> Hc]. split; [done|]. rewrite Hl by left. apply IH; [|done].
  intros q Hq. apply Hl. by right.
Qed.

(** Unlinking a node that has a predecessor. *)
Lemma chain_unlink m hhdm h l1 x p l2 :
  (∀ y, y ∈ l1 ++ l2 → y + 8 ≤ x ∨ x + 8 ≤ y) →
  chain m hhdm h (l1 ++ x :: p :: l2) →
  chain (store64 m (x + hhdm) (load64 m (p + hhdm))) hhdm h (l1 ++ x :: l2).
Proof.
  revert h; induction l1 as [|y l1 IH]; intros h Hsep; cbn [app chain].
  - intros (-> & Hp & Hc). split; [done|]. rewrite load64_store64_eq.
    rewrite Hp in Hc. rewrite u64_small by apply load64_range.
    eapply chain_frame; [|exact Hc].
    intros q Hq. apply load64_store64_ne. specialize (Hsep q). 
    assert (q + 8 ≤ x ∨ x + 8 ≤ q) by (apply Hsep; done). lia.
  - intros (-> & Hc). split; [done|].
    assert (y + 8 ≤ x ∨ x + 8 ≤ y) by (apply Hsep; left).
    rewrite load64_store64_ne by lia. apply IH; [|done].
    intros z Hz. apply Hsep. by right.
Qed.

Lemma upd_eq L o l : upd L o l o = l.
Proof. unfold upd. by case_decide. Qed.
Lemma upd_ne L o l o' : o' ≠ o → upd L o l o' = L o'.
Proof. intros. unfold upd. by case_decide. Qed.
Lemma elem_of_upd L o l o' p : p ∈ upd L o l o' ↔ (o' = o ∧ p ∈ l) ∨ (o' ≠ o ∧ p ∈ L o').
Proof. unfold upd. case_decide; split; tauto. Qed.

Lemma region_fits s o p :
  geometry s → block_ok s o p → 0 < p + hhdm_offset s < 2 ^ 64 - 8.
Proof.
  intros (_ & Hm & Hh & Hb) Hok. pose proof (block_aligned _ _ _ Hok).
  pose proof (block_page_pos _ _ _ Hok). destruct Hok as (_ & Hp & _). unfold PAGE_SIZE in *. lia.
Qed.

Lemma chain_head_fits s L o h :
  lists_inv s L → chain (pmm_mem s) (hhdm_offset s) h (L o) → fits 64 h.
Proof.
  intros HL. destruct (L o) as [|p l] eqn:E; cbn [chain]; [intros ->; unfold fits; lia|].
  intros [-> _]. assert (p ∈ L o) as Hp by (rewrite E; left).
  pose proof (region_fits s o p (li_geom _ _ HL) (li_block _ _ HL _ _ Hp)). unfold fits; lia.
Qed.

(** Two page-aligned blocks at different addresses have their link words apart. *)
Lemma links_apart s o p o' p' :
  block_ok s o p → block_ok s o' p' → p ≠ p' → p + 8 ≤ p' ∨ p' + 8 ≤ p.
Proof.
  intros H H' Hne. pose proof (block_aligned _ _ _ H). pose proof (block_aligned _ _ _ H').
  unfold PAGE_SIZE in *. lia.
Qed.

Lemma free_block_head s L o p : lists_inv s L → p ∈ L o → free_page L (p / PAGE_SIZE).
Proof.
  intros HL Hp. exists o, p. split; [done|]. apply covers_head.
  destruct (li_block _ _ HL _ _ Hp) as ([? _] & _). done.
Qed.

(** Ghost effect of adding a block of non-free pages. *)
Lemma blocks_inv_add s L o p :
  blocks_inv s L → block_ok s o p →
  (∀ q, covers o p q → ¬ free_page L q) → (∀ q, covers o p q → off_bitmap s q) →
  blocks_inv s (upd L o (p :: L o)).
Proof.
  intros HB Hb Hnf Hoff.
  assert (Hcase : ∀ o' p', p' ∈ upd L o (p :: L o) o' → (o' = o ∧ p' = p) ∨ p' ∈ L o').
  { intros o' p' [[-> Hx]|[? Hx]]%elem_of_upd; [|by right].
    apply elem_of_cons in Hx as [->|]; [by left|by right]. }
  split.
  - intros o' p' [[-> ->]|Hp']%Hcase; [done|by apply HB].
  - intros o'. unfold upd. case_decide; [subst|apply HB].
    constructor; [|apply HB]. intros Hin. destruct Hb as (Ho & _).
    eapply Hnf; [apply covers_head; lia|]. exists o, p. split; [done|apply covers_head; lia].
  - intros o1 p1 o2 p2 q [[-> ->]|H1]%Hcase [[-> ->]|H2]%Hcase C1 C2; [done| | |by eapply (bi_disj _ _ HB)].
    + exfalso. eapply Hnf; [done|]. by exists o2, p2.
    + exfalso. eapply Hnf; [done|]. by exists o1, p1.
  - intros q (o' & p' & [[-> ->]|Hp']%Hcase & Hc); [by apply Hoff|].
    apply HB. by exists o', p'.
Qed.

Lemma blocks_inv_unchanged P s s' L :
  unchanged_but P s s' → blocks_inv s L → blocks_inv s' L.
Proof.
  intros Hu HB. split; [| |apply HB|].
  - intros o p Hp. eapply unchanged_block_ok; [done|by apply HB].
  - apply HB.
  - intros q Hq. eapply unchanged_off; [done|by apply HB].
Qed.

(** The state after [region->next = head; free_lists[order] = region]. *)
Definition list_add_state (o p h : Z) (s : pmm) : pmm :=
  set_free_lists (zinsert o (p + hhdm_offset s) (free_lists s))
    (set_pmm_mem (store64 (pmm_mem s) (p + hhdm_offset s) h) s).

Lemma list_add_state_unchanged s o p h :
  0 ≤ o → unchanged_but (in_block s o p) s (list_add_state o p h s).
Proof.
  intros Ho. repeat split; cbn; [apply length_zinsert|].
  intros a Ha. apply load8_store64_ne. unfold in_block in Ha. pose proof (pow2_pos o Ho).
  unfold PAGE_SIZE in *. lia.
Qed.

Lemma chains_add s L o p h :
  chains s L → zlookup (free_lists s) o = Some h →
  chain (pmm_mem s) (hhdm_offset s) h (L o) → fits 64 h →
  (∀ o' x, x ∈ L o' → x + 8 ≤ p ∨ p + 8 ≤ x) →
  chains (list_add_state o p h s) (upd L o (p :: L o)).
Proof.
  intros Hch Eh Hh Hfit Hlk o' Ho'. pose proof (zlookup_Some_bounds _ _ _ Eh) as Hbd.
  cbn. rewrite zlookup_zinsert by done. unfold upd.
  destruct (decide (o' = o)) as [->|Hne].
  - exists (p + hhdm_offset s). split; [by case_decide|].
    split; [done|]. rewrite load64_store64_eq, u64_small by apply Hfit.
    eapply chain_frame; [|done]. intros x Hx. apply load64_store64_ne. apply Hlk in Hx. lia.
  - destruct (Hch o' Ho') as (h' & Eh' & Hh'). exists h'. split; [by rewrite decide_False|].
    eapply chain_frame; [|done]. intros x Hx. apply load64_store64_ne. apply Hlk in Hx. lia.
Qed.

Lemma pmm_list_add_spec s L o p :
  lists_inv s L → block_ok s o p →
  (∀ q, covers o p q → ¬ free_page L q) → (∀ q, covers o p q → off_bitmap s q) →
  ∃ s', pmm_list_add o p s = Ok (tt, s') ∧ lists_inv s' (upd L o (p :: L o)) ∧
        unchanged_but (in_block s o p) s s' ∧ pmm_free_pages s' = pmm_free_pages s.
Proof.
  intros HL Hb Hnf Hoff. pose proof (region_fits _ _ _ (li_geom _ _ HL) Hb) as Hr.
  pose proof Hb as (Ho & Hp0 & _).
  destruct (li_chain _ _ HL o Ho) as (h & Eh & Hh).
  pose proof (chain_head_fits _ _ _ _ HL Hh) as Hfit.
  assert (Hlk : ∀ o' x, x ∈ L o' → x + 8 ≤ p ∨ p + 8 ≤ x).
  { intros o' x Hx. eapply links_apart; [by eapply li_block|done|].
    intros ->. eapply Hnf; [apply covers_head; lia|]. by eapply free_block_head. }
  pose proof (list_add_state_unchanged s o p h (proj1 Ho)) as Hu.
  exists (list_add_state o p h s). split_and!; [|constructor|done|done].
  - unfold pmm_list_add. mstep. rewrite u64_small by lia.
    erewrite bind_ok; [|unfold free_list_get; by rewrite Eh].
    mstep. unfold free_list_set. cbn. by rewrite Eh.
  - eapply unchanged_geometry; [done|]. apply HL.
  - apply chains_add; try done. apply HL.
  - eapply blocks_inv_unchanged; [done|]. by apply blocks_inv_add; [apply HL|..].
Qed.

(** ** Walking a free list *)

Lemma free_list_length s L o :
  lists_inv s L → (length (L o) ≤ Z.to_nat (pmm_max_page s))%nat.
Proof.
  intros HL. rewrite <-(length_fmap (λ p, p / PAGE_SIZE)). apply NoDup_bounded.
  - apply NoDup_fmap_2_strong; [|by apply (li_nodup _ _ HL)].
    intros x y Hx Hy E. rewrite (block_aligned s o x), (block_aligned s o y) by (by eapply li_block).
    by rewrite E.
  - intros q (p & -> & Hp)%list_elem_of_fmap.
    pose proof (block_page_pos _ _ _ (li_block _ _ HL _ _ Hp)). lia.
Qed.

Section walk.
Context (s : pmm).

(** Nodes whose addresses above [hhdm_offset] do not wrap. *)
Definition node_ok (p : Z) : Prop := 0 < p ∧ 0 ≤ hhdm_offset s ∧ p + hhdm_offset s < 2 ^ 64.

Lemma node_of_ptr p : node_ok p → u64 (p + hhdm_offset s - hhdm_offset s) = p.
Proof. intros (? & ? & ?). rewrite Z.add_simpl_r. apply u64_small. lia. Qed.

Lemma node_ptr_nonnull p : node_ok p → (p + hhdm_offset s =? 0) = false.
Proof. intros (? & ? & ?). lia. Qed.

Lemma pmm_list_contains_walk l fuel curr p :
  chain (pmm_mem s) (hhdm_offset s) curr l → Forall node_ok l → (length l < fuel)%nat →
  pmm_list_contains_loop fuel curr p s = Ok (if decide (p ∈ l) then 1 else 0, s).
Proof.
  revert fuel curr; induction l as [|x l IH]; intros fuel curr Hc Hok Hf.
  - cbn in Hc. subst. destruct fuel; [cbn in Hf; lia|done].
  - destruct fuel as [|fuel]; [cbn in Hf; lia|].
    apply list.Forall_cons in Hok as [Hx Hok]. destruct Hc as [-> Hc].
    cbn [pmm_list_contains_loop]. rewrite node_ptr_nonnull by done.
    mstep. rewrite node_of_ptr by done. destruct (Z.eqb_spec x p) as [->|Hne].
    + rewrite decide_True by left. done.
    + mstep. rewrite IH by (cbn in Hf; done || lia).
      destruct (decide (p ∈ l)) as [Hin|Hin].
      * rewrite decide_True by (by right). done.
      * rewrite decide_False; [done|]. rewrite not_elem_of_cons. done.
Qed.

(** The walk of [pmm_list_remove] stops at the node and stores its successor
    in the link that led to it. *)
Lemma pmm_list_remove_walk l1 p l2 fuel prev curr :
  chain (pmm_mem s) (hhdm_offset s) curr (l1 ++ p :: l2) → Forall node_ok (l1 ++ [p]) →
  p ∉ l1 → (length l1 < fuel)%nat →
  pmm_list_remove_loop fuel prev curr p s =
    set_link (match last l1 with Some x => LinkNext (x + hhdm_offset s) | None => prev end)
      (load64 (pmm_mem s) (p + hhdm_offset s)) s.
Proof.
  revert fuel prev curr; induction l1 as [|x l1 IH]; intros fuel prev curr Hc Hok Hni Hf.
  - destruct fuel as [|fuel]; [cbn in Hf; lia|]. destruct Hc as [-> Hc].
    apply list.Forall_cons in Hok as [Hx _]. cbn [pmm_list_remove_loop].
    rewrite node_ptr_nonnull by done. mstep. mstep. rewrite node_of_ptr by done.
    by rewrite Z.eqb_refl.
  - destruct fuel as [|fuel]; [cbn in Hf; lia|]. destruct Hc as [-> Hc].
    cbn in Hok. apply list.Forall_cons in Hok as [Hx Hok]. apply not_elem_of_cons in Hni as [Hne Hni].
    cbn [pmm_list_remove_loop]. rewrite node_ptr_nonnull by done.
    mstep. mstep. rewrite node_of_ptr by done.
    destruct (Z.eqb_spec x p) as [->|_]; [done|].
    rewrite IH by (cbn in Hf; done || lia).
    rewrite last_cons. by destruct (last l1).
Qed.
End walk.

Lemma nodes_ok s L o : lists_inv s L → Forall (node_ok s) (L o).
Proof.
  intros HL. apply Forall_forall. intros p Hp.
  pose proof (li_block _ _ HL _ _ Hp) as Hb. pose proof (li_geom _ _ HL) as Hg.
  pose proof (region_fits _ _ _ Hg Hb). destruct Hg as (_ & _ & ? & _), Hb as (_ & ? & _).
  unfold node_ok. lia.
Qed.

Lemma pmm_list_contains_spec s L o p :
  lists_inv s L → 0 ≤ o < MAX_ORDER →
  pmm_list_contains o p s = Ok (if decide (p ∈ L o) then 1 else 0, s).
Proof.
  intros HL Ho. destruct (li_chain _ _ HL o Ho) as (h & Eh & Hh).
  unfold pmm_list_contains. erewrite bind_ok; [|unfold free_list_get; by rewrite Eh].
  mstep. apply pmm_list_contains_walk; [done|by apply nodes_ok|].
  pose proof (free_list_length s L o HL). unfold walk_fuel. lia.
Qed.

(** Ghost effect of taking a block off its list. *)
Lemma elem_of_remove (L : ghost) o p l1 l2 o' p' :
  L o = l1 ++ p :: l2 → p' ∈ upd L o (l1 ++ l2) o' → p' ∈ L o'.
Proof.
  intros E [[-> H]|[_ H]]%elem_of_upd; [|done]. rewrite E.
  apply elem_of_app in H as [H|H]; apply elem_of_app; [by left|right; by right].
Qed.

Lemma blocks_inv_remove s L o p l1 l2 :
  L o = l1 ++ p :: l2 → blocks_inv s L → blocks_inv s (upd L o (l1 ++ l2)).
Proof.
  intros E HB. pose proof (elem_of_remove L o p l1 l2) as Hin.
  split.
  - intros o' p' Hp. apply HB. eauto.
  - intros o'. unfold upd. case_decide; [subst|apply HB].
    pose proof (bi_nodup _ _ HB o) as Hnd. rewrite E in Hnd.
    by apply NoDup_app in Hnd as (? & Hx & [? ?]%NoDup_cons); apply NoDup_app;
      split_and!; [|intros y Hy Hy2; eapply Hx; [exact Hy|by right]|].
  - intros o1 p1 o2 p2 q H1 H2. eapply (bi_disj _ _ HB); eauto.
  - intros q (o' & p' & Hp' & Hc). apply HB. exists o', p'. eauto.
Qed.

Lemma free_page_remove s L o p l1 l2 q :
  L o = l1 ++ p :: l2 → blocks_inv s L →
  free_page (upd L o (l1 ++ l2)) q ↔ free_page L q ∧ ¬ covers o p q.
Proof.
  intros E HB. split.
  - intros (o' & p' & Hp' & Hc). pose proof (elem_of_remove _ _ _ _ _ _ _ E Hp') as Hin.
    split; [by exists o', p'|]. intros Hc'.
    destruct (bi_disj _ _ HB o' p' o p q) as [-> ->]; [done|rewrite E; set_solver|done|done|].
    apply elem_of_upd in Hp' as [[_ Hx]|[? _]]; [|done].
    pose proof (bi_nodup _ _ HB o) as Hnd. rewrite E in Hnd.
    apply NoDup_app in Hnd as (_ & Hx1 & [Hx2 _]%NoDup_cons).
    apply elem_of_app in Hx as [Hx|Hx]; [|done]. eapply Hx1; [done|left].
  - intros [(o' & p' & Hp' & Hc) Hn]. exists o', p'. split; [|done].
    apply elem_of_upd. destruct (decide (o' = o)) as [->|]; [left|by right].
    split; [done|]. rewrite E in Hp'. set_solver.
Qed.

(** The state after the node was unlinked. *)
Definition list_remove_state (o : Z) (l1 : list Z) (next : Z) (s : pmm) : pmm :=
  match last l1 with
  | Some x => set_pmm_mem (store64 (pmm_mem s) (x + hhdm_offset s) next) s
  | None => set_free_lists (zinsert o next (free_lists s)) s
  end.

Lemma list_remove_state_unchanged s L o p l1 l2 next :
  lists_inv s L → L o = l1 ++ p :: l2 →
  unchanged_but (in_free s L) s (list_remove_state o l1 next s).
Proof.
  intros HL E. unfold list_remove_state. destruct (last l1) as [x|] eqn:El.
  - assert (x ∈ L o) as Hx.
    { rewrite E. apply elem_of_app; left. apply last_Some in El as [l' ->]. set_solver. }
    repeat split; cbn. intros a Ha. apply load8_store64_ne.
    destruct (li_block _ _ HL _ _ Hx) as ([Ho _] & _). pose proof (pow2_pos o Ho).
    destruct (decide (a < x + hhdm_offset s)); [by left|right].
    destruct (decide (x + hhdm_offset s + 8 ≤ a)); [done|].
    destruct Ha. exists o, x. split; [done|]. unfold in_block, PAGE_SIZE. lia.
  - repeat split; cbn. apply length_zinsert.
Qed.

Lemma chains_remove s L o p l1 l2 :
  lists_inv s L → 0 ≤ o < MAX_ORDER → L o = l1 ++ p :: l2 →
  chains (list_remove_state o l1 (load64 (pmm_mem s) (p + hhdm_offset s)) s) (upd L o (l1 ++ l2)).
Proof.
  intros HL Ho E o' Ho'. destruct (li_chain _ _ HL o Ho) as (h & Eh & Hh).
  destruct (li_chain _ _ HL o' Ho') as (h' & Eh' & Hh').
  pose proof (zlookup_Some_bounds _ _ _ Eh) as Hbd. unfold list_remove_state, upd.
  destruct (last l1) as [x|] eqn:El.
  - apply last_Some in El as [l ->]. rewrite <-!app_assoc in *. cbn [app] in *.
    assert (x ∈ L o) as Hx by (rewrite E; set_solver).
    cbn. destruct (decide (o' = o)) as [->|Hne]; eexists; (split; [done|]).
    + apply chain_unlink; [|rewrite Eh in Eh'; simplify_eq; by rewrite E in Hh].
      intros y Hy. eapply (links_apart s o _ o); [|by eapply li_block|];
        [eapply li_block; [done|]; rewrite E; set_solver|].
      intros ->. pose proof (li_nodup _ _ HL o) as Hnd. rewrite E in Hnd.
      apply NoDup_app in Hnd as (_ & H1 & [H2 _]%NoDup_cons). 
      apply elem_of_app in Hy as [Hy|Hy]; [eapply H1; [done|left]|].
      apply H2. by right.
    + eapply chain_frame; [|done]. intros y Hy. apply load64_store64_ne.
      assert (y ≠ x); [|pose proof (links_apart s o x o' y (li_block _ _ HL _ _ Hx)
        (li_block _ _ HL _ _ Hy)); lia].
      intros ->. destruct (li_disj _ _ HL o x o' x (x / PAGE_SIZE)); try done;
        apply covers_head; lia.
  - apply last_None in El as ->. cbn [app] in *. cbn. rewrite zlookup_zinsert by done.
    destruct (decide (o' = o)) as [->|Hne].
    + eexists. rewrite decide_True by done. split; [done|].
      rewrite E in Hh. by destruct Hh as [-> Hh].
    + exists h'. by rewrite decide_False.
Qed.

Lemma pmm_list_remove_spec s L o p :
  lists_inv s L → p ∈ L o →
  ∃ s' L', pmm_list_remove o p s = Ok (tt, s') ∧ lists_inv s' L' ∧
    (∀ q, free_page L' q ↔ free_page L q ∧ ¬ covers o p q) ∧
    (∀ o' p', p' ∈ L' o' ↔ p' ∈ L o' ∧ ¬ (o' = o ∧ p' = p)) ∧
    unchanged_but (in_free s L) s s' ∧ pmm_free_pages s' = pmm_free_pages s.
Proof.
  intros HL Hp. pose proof (li_block _ _ HL _ _ Hp) as (Ho & _).
  apply list_elem_of_split in Hp as (l1 & l2 & E).
  destruct (li_chain _ _ HL o Ho) as (h & Eh & Hh).
  set (next := load64 (pmm_mem s) (p + hhdm_offset s)).
  pose proof (list_remove_state_unchanged s L o p l1 l2 next HL E) as Hu.
  pose proof (li_nodup _ _ HL o) as Hnd. rewrite E in Hnd.
  apply NoDup_app in Hnd as (_ & Hni & [Hni2 _]%NoDup_cons).
  exists (list_remove_state o l1 next s), (upd L o (l1 ++ l2)). split_and!; [|constructor| | |done|].
  - unfold pmm_list_remove. erewrite bind_ok; [|unfold free_list_get; by rewrite Eh].
    mstep. rewrite (pmm_list_remove_walk s l1 p l2).
    + unfold list_remove_state, set_link. destruct (last l1); [done|].
      unfold free_list_set. by rewrite Eh.
    + by rewrite <-E.
    + pose proof (nodes_ok s L o HL) as Hok. rewrite E in Hok.
      apply Forall_app in Hok as [? [? _]%list.Forall_cons]. apply Forall_app; split; [done|].
      by apply list.Forall_cons.
    + intros Hx. eapply Hni; [done|left].
    + pose proof (free_list_length s L o HL) as Hlen. rewrite E, length_app in Hlen.
      cbn in Hlen. unfold walk_fuel. lia.
  - eapply unchanged_geometry; [done|apply HL].
  - by apply chains_remove.
  - eapply blocks_inv_unchanged; [done|]. eapply blocks_inv_remove; [done|apply HL].
  - intros q. eapply free_page_remove; [done|apply HL].
  - intros o' p'. rewrite elem_of_upd. destruct (decide (o' = o)) as [->|]; [|naive_solver].
    rewrite E. set_solver.
  - unfold list_remove_state. by destruct (last l1).
Qed.

(** ** The bitmap *)

Definition set_bit_state (b : Z) (s : pmm) : pmm :=
  let a := pmm_bitmap s + b / 8 in
  set_pmm_mem (store8 (pmm_mem s) a (Z.lor (load8 (pmm_mem s) a) (u8 (Z.shiftl 1 (b `mod` 8))))) s.
Definition clear_bit_state (b : Z) (s : pmm) : pmm :=
  let a := pmm_bitmap s + b / 8 in
  set_pmm_mem (store8 (pmm_mem s) a
    (Z.land (load8 (pmm_mem s) a) (u8 (Z.lnot (Z.shiftl 1 (b `mod` 8)))))) s.

Lemma same_byte_bit b q : 0 ≤ b → 0 ≤ q → b / 8 = q / 8 → (b `mod` 8 =? q `mod` 8) = (b =? q).
Proof. intros. destruct (Z.eqb_spec (b `mod` 8) (q `mod` 8)), (Z.eqb_spec b q); subst; zdiv. Qed.

Lemma page_bit_set s b q :
  0 ≤ b → 0 ≤ q → page_bit (set_bit_state b s) q = (b =? q) || page_bit s q.
Proof.
  intros Hb Hq. unfold page_bit, set_bit_state. cbn. rewrite load8_store8.
  destruct (decide (pmm_bitmap s + b / 8 = pmm_bitmap s + q / 8)) as [E|E].
  - assert (b / 8 = q / 8) as E8 by lia. rewrite <-E8. rewrite <-(same_byte_bit b q) by done.
    pose proof (Z.mod_pos_bound b 8). pose proof (Z.mod_pos_bound q 8).
    rewrite shiftl_1 by lia.
    assert (fits 8 (2 ^ (b `mod` 8))) as Hf.
    { split; [lia|]. apply Z.pow_lt_mono_r; lia. }
    rewrite (u8_small (2 ^ (b `mod` 8))) by done.
    rewrite u8_small by (apply lor_fits; [lia|apply load8_range|done]).
    rewrite Z.lor_spec, testbit_pow2 by lia. apply orb_comm.
  - destruct (Z.eqb_spec b q); [subst; lia|done].
Qed.

Lemma page_bit_clear s b q :
  0 ≤ b → 0 ≤ q → page_bit (clear_bit_state b s) q = negb (b =? q) && page_bit s q.
Proof.
  intros Hb Hq. unfold page_bit, clear_bit_state. cbn. rewrite load8_store8.
  destruct (decide (pmm_bitmap s + b / 8 = pmm_bitmap s + q / 8)) as [E|E].
  - assert (b / 8 = q / 8) as E8 by lia. rewrite <-E8. rewrite <-(same_byte_bit b q) by done.
    pose proof (Z.mod_pos_bound b 8). pose proof (Z.mod_pos_bound q 8).
    rewrite shiftl_1 by lia.
    rewrite u8_small by (apply land_fits; [lia|apply load8_range]).
    unfold u8. rewrite Z.land_spec, Z.mod_pow2_bits_low by lia.
    rewrite Z.lnot_spec by lia. rewrite testbit_pow2 by lia. apply andb_comm.
  - destruct (Z.eqb_spec b q); [subst; lia|done].
Qed.

(** [s'] is [s] with other bitmap contents. *)
Definition only_bitmap (s s' : pmm) : Prop :=
  unchanged_but (in_bitmap s) s s' ∧ free_lists s' = free_lists s ∧
  pmm_free_pages s' = pmm_free_pages s.

Lemma only_bitmap_trans s s' s'' : only_bitmap s s' → only_bitmap s' s'' → only_bitmap s s''.
Proof.
  intros (U1 & F1 & P1) (U2 & F2 & P2). split_and!; [|congruence|congruence].
  eapply unchanged_trans; [done|]. eapply unchanged_mono; [done|].
  intros a. destruct U1 as (E1 & E2 & _). unfold in_bitmap, bitmap_len. by rewrite E1, E2.
Qed.

Lemma store_bit_only s b v :
  0 ≤ b < pmm_max_page s →
  only_bitmap s (set_pmm_mem (store8 (pmm_mem s) (pmm_bitmap s + b / 8) v) s).
Proof.
  intros Hb. repeat split. cbn. intros a Ha. apply load8_store8_ne. intros <-.
  apply Ha. unfold in_bitmap, bitmap_len. zdiv.
Qed.

Section bit_loops.
Context (s : pmm) (k n : Z).
Hypothesis (Hk : 0 ≤ k) (Hn : 0 ≤ n) (Hmax : k + n ≤ pmm_max_page s) (Hfit : pmm_max_page s < 2 ^ 64).

Lemma bitmap_loop (body : Z → M pmm unit) (st : Z → pmm → pmm) (f : bool → bool) :
  (∀ b s', body b s' = Ok (tt, st b s')) →
  (∀ b s', 0 ≤ b < pmm_max_page s' → only_bitmap s' (st b s')) →
  (∀ b q s', 0 ≤ b → 0 ≤ q →
     page_bit (st b s') q = if b =? q then f (page_bit s' q) else page_bit s' q) →
  (∀ b, f (f b) = f b) →
  ∃ s', for_loop (Z.to_nat n) 0 (λ j, body (u64 (k + j))) s = Ok (tt, s') ∧ only_bitmap s s' ∧
    ∀ q, 0 ≤ q → page_bit s' q =
      if bool_decide (k ≤ q < k + n) then f (page_bit s q) else page_bit s q.
Proof.
  intros Hbody Honly Hbit Hidem.
  destruct (for_loop_inv (λ i s', only_bitmap s s' ∧
     ∀ q, 0 ≤ q → page_bit s' q =
      if bool_decide (k ≤ q < k + i) then f (page_bit s q) else page_bit s q)
    (λ j, body (u64 (k + j))) (Z.to_nat n) 0 s) as (s' & E & Ho & Hq).
  - split; [split_and!; [apply unchanged_refl|done|done]|].
    intros q Hq. rewrite bool_decide_eq_false_2 by lia. done.
  - intros i s1 Hi [Ho Hq]. rewrite u64_small by lia. rewrite Hbody.
    eexists. split; [done|]. pose proof Ho as ((_ & Em & _) & _).
    split; [eapply only_bitmap_trans; [done|]; apply Honly; lia|].
    intros q Hq0. rewrite Hbit, Hq by lia.
    destruct (Z.eqb_spec (k + i) q) as [<-|Hne].
    + rewrite bool_decide_eq_false_2 by lia. by rewrite bool_decide_eq_true_2 by lia.
    + destruct (decide (k ≤ q < k + i)).
      * rewrite !bool_decide_eq_true_2 by lia. done.
      * rewrite !bool_decide_eq_false_2 by lia. done.
  - exists s'. split_and!; [done|done|]. intros q Hq0. rewrite Hq by done.
    by replace (0 + Z.of_nat (Z.to_nat n)) with n by lia.
Qed.

Lemma bitmap_set_loop :
  ∃ s', for_loop (Z.to_nat n) 0 (λ j, bitmap_set (u64 (k + j))) s = Ok (tt, s') ∧
    only_bitmap s s' ∧
    ∀ q, 0 ≤ q → page_bit s' q = if bool_decide (k ≤ q < k + n) then true else page_bit s q.
Proof.
  apply (bitmap_loop bitmap_set set_bit_state (λ _, true)); [done| | |done].
  - intros. by apply store_bit_only.
  - intros. rewrite page_bit_set by done. by destruct (b =? q).
Qed.

Lemma bitmap_clear_loop :
  ∃ s', for_loop (Z.to_nat n) 0 (λ j, bitmap_clear (u64 (k + j))) s = Ok (tt, s') ∧
    only_bitmap s s' ∧
    ∀ q, 0 ≤ q → page_bit s' q = if bool_decide (k ≤ q < k + n) then false else page_bit s q.
Proof.
  apply (bitmap_loop bitmap_clear clear_bit_state (λ _, false)); [done| | |done].
  - intros. by apply store_bit_only.
  - intros. rewrite page_bit_clear by done. by destruct (b =? q).
Qed.
End bit_loops.

Lemma bitmap_test_spec s q :
  0 ≤ q → bitmap_test q s = Ok (Z.b2z (page_bit s q), s).
Proof.
  intros Hq. unfold bitmap_test, gets, page_bit. rewrite shiftr_land_1; [done|].
  apply Z.mod_pos_bound. lia.
Qed.

(** Changing the bitmap does not disturb the lists. *)
Lemma lists_inv_only_bitmap s s' L : only_bitmap s s' → lists_inv s L → lists_inv s' L.
Proof.
  intros (Hu & Hf & _) HL. split.
  - eapply unchanged_geometry; [done|apply HL].
  - intros o Ho. destruct (li_chain _ _ HL o Ho) as (h & Eh & Hh).
    exists h. rewrite Hf. split; [done|]. pose proof Hu as (_&_&E3&_). rewrite E3.
    eapply chain_frame; [|done]. intros p Hp. eapply unchanged_load64; [done|].
    intros b Hb Hbm. eapply in_free_off_bitmap; [done|done|].
    exists o, p. split; [done|]. destruct (li_block _ _ HL _ _ Hp) as ([Ho' _] & _).
    pose proof (pow2_pos o Ho'). unfold in_block, PAGE_SIZE. lia.
  - eapply blocks_inv_unchanged; [done|apply HL].
Qed.

(** ** Allocation *)

Lemma free_page_add L o p q :
  free_page (upd L o (p :: L o)) q ↔ free_page L q ∨ covers o p q.
Proof.
  split.
  - intros (o' & p' & Hp & Hc). apply elem_of_upd in Hp as [[-> Hp]|[_ Hp]].
    + apply elem_of_cons in Hp as [->|Hp]; [by right|left; by exists o, p'].
    + left. by exists o', p'.
  - intros [(o' & p' & Hp & Hc)|Hc].
    + exists o', p'. split; [|done]. apply elem_of_upd.
      destruct (decide (o' = o)) as [->|]; [left|by right]. split; [done|by right].
    + exists o, p. split; [|done]. rewrite upd_eq. left.
Qed.

(** The upper half of a block of order [i] is a block of order [i - 1]. *)
Lemma upper_half_ok s i p :
  block_ok s i p → 0 < i →
  block_ok s (i - 1) (p + PAGE_SIZE * 2 ^ (i - 1)) ∧
  block_ok s (i - 1) p ∧
  (p + PAGE_SIZE * 2 ^ (i - 1)) / PAGE_SIZE = p / PAGE_SIZE + 2 ^ (i - 1).
Proof.
  intros Hb Hi. pose proof (pow2_pos (i - 1)) as Hpos.
  assert (2 ^ i = 2 * 2 ^ (i - 1)) as E2 by (rewrite <-Z.pow_succ_r by lia; f_equal; lia).
  assert ((p + PAGE_SIZE * 2 ^ (i - 1)) / PAGE_SIZE = p / PAGE_SIZE + 2 ^ (i - 1)) as E.
  { rewrite Z.mul_comm, Z.div_add by (unfold PAGE_SIZE; lia). done. }
  destruct Hb as (Ho & Hp & Hal & Hm). rewrite E2 in Hal, Hm.
  apply Z.mod_divide in Hal as [k Hk]; [|unfold PAGE_SIZE in *; lia].
  unfold block_ok. rewrite E. split_and!; try (unfold PAGE_SIZE in *; lia).
  - apply Z.mod_divide; [unfold PAGE_SIZE in *; lia|]. exists (2 * k + 1). lia.
  - apply Z.mod_divide; [unfold PAGE_SIZE in *; lia|]. exists (2 * k). lia.
Qed.

Lemma pow2_half i : 0 < i → 2 ^ i = 2 * 2 ^ (i - 1).
Proof. intros. rewrite <-Z.pow_succ_r by lia. f_equal. lia. Qed.

(** Pages of the pieces a split leaves behind. *)
Lemma split_pages i n p q :
  0 ≤ n < i → 
  (covers i p q ∧ ¬ covers (i - (n + 1)) p q) ↔
  (p / PAGE_SIZE + 2 ^ (i - 1) ≤ q < p / PAGE_SIZE + 2 ^ i) ∨
  (covers (i - 1) p q ∧ ¬ covers (i - (n + 1)) p q).
Proof.
  intros Hn. unfold covers. pose proof (pow2_half i). 
  assert (2 ^ (i - (n + 1)) ≤ 2 ^ (i - 1)) by (apply Z.pow_le_mono_r; lia).
  assert (0 < 2 ^ (i - (n + 1))) by (apply pow2_pos; lia). lia.
Qed.

Lemma palloc_split_step n i p s :
  geometry s → block_ok s i p → 0 < i →
  palloc_split (S n) i p s =
    (pmm_list_add (i - 1) (p + PAGE_SIZE * 2 ^ (i - 1));; palloc_split n (i - 1) p) s.
Proof.
  intros Hg Hb Hi. destruct (upper_half_ok s i p Hb Hi) as (Hup & _ & _).
  pose proof (region_fits _ _ _ Hg Hup) as Hr. pose proof Hup as (_ & Hp & _).
  destruct Hb as (_ & Hp0 & _), Hg as (_ & _ & Hh & _). pose proof (pow2_pos (i - 1)).
  cbn [palloc_split]. rewrite Z.shiftl_mul_pow2 by lia.
  rewrite (u64_small (PAGE_SIZE * 2 ^ (i - 1))) by (unfold PAGE_SIZE in *; lia).
  rewrite u64_small by lia. done.
Qed.

Lemma palloc_split_spec n i p s L :
  lists_inv s L → block_ok s i p → Z.of_nat n ≤ i →
  (∀ q, covers i p q → ¬ free_page L q) → (∀ q, covers i p q → off_bitmap s q) →
  ∃ s' L', palloc_split n i p s = Ok (tt, s') ∧ lists_inv s' L' ∧
    (∀ q, free_page L' q ↔ free_page L q ∨ covers i p q ∧ ¬ covers (i - Z.of_nat n) p q) ∧
    (∀ o' p', p' ∈ L' o' ↔ p' ∈ L o' ∨
       i - Z.of_nat n ≤ o' < i ∧ p' = p + PAGE_SIZE * 2 ^ o') ∧
    unchanged_but (in_block s i p) s s' ∧ pmm_free_pages s' = pmm_free_pages s.
Proof.
  revert i s L; induction n as [|n IH]; intros i s L HL Hb Hn Hnf Hoff.
  - exists s, L. rewrite Z.sub_0_r. split_and!; [done|done|..|done].
    + intros q. tauto.
    + intros o' p'. split; [by left|]. intros [?|[? _]]; [done|lia].
    + apply unchanged_refl.
  - destruct (upper_half_ok s i p Hb) as (Hup & Hlo & Eq); [lia|].
    pose proof (pow2_half i) as E2. pose proof (pow2_pos (i - 1)).
    rewrite palloc_split_step by first [done | lia | exact (li_geom _ _ HL)].
    set (up := p + PAGE_SIZE * 2 ^ (i - 1)) in *.
    assert (Hup_in : ∀ q, covers (i - 1) up q → covers i p q ∧ ¬ covers (i - 1) p q).
    { intros q. unfold covers. rewrite Eq. lia. }
    destruct (pmm_list_add_spec s L (i - 1) up HL Hup) as (s1 & E1 & HL1 & Hu1 & Hf1).
    { intros q Hq. apply Hnf. by apply Hup_in. }
    { intros q Hq. apply Hoff. by apply Hup_in. }
    destruct (IH (i - 1) s1 _ HL1) as (s' & L' & E & HL' & Hfree & Hmem & Hu & Hf).
    { by eapply unchanged_block_ok. } { lia. }
    { intros q Hq. rewrite free_page_add. intros [Hx|Hx%Hup_in]; [|tauto].
      revert Hx. apply Hnf. unfold covers in *. lia. }
    { intros q Hq. eapply unchanged_off; [done|]. apply Hoff. unfold covers in *. lia. }
    exists s', L'. replace (i - 1 - Z.of_nat n) with (i - (Z.of_nat n + 1)) in * by lia.
    replace (i - Z.of_nat (S n)) with (i - (Z.of_nat n + 1)) by lia. split_and!; [|done|..].
    + by erewrite bind_ok.
    + intros q. rewrite Hfree, free_page_add, split_pages by lia. unfold covers at 1. rewrite Eq.
      replace (p / PAGE_SIZE + 2 ^ (i - 1) + 2 ^ (i - 1)) with (p / PAGE_SIZE + 2 ^ i) by lia. tauto.
    + intros o' p'. rewrite Hmem. unfold upd. case_decide as Ho'; [subst o'; rewrite elem_of_cons|].
      * fold up. naive_solver lia.
      * naive_solver lia.
    + pose proof Hu1 as (_ & _ & E3 & _). apply (unchanged_trans _ s s1 s').
      * eapply unchanged_mono; [done|]. intros a. unfold in_block, up, PAGE_SIZE. lia.
      * eapply unchanged_mono; [done|]. intros a. unfold in_block. rewrite E3. unfold PAGE_SIZE. lia.
    + congruence.
Qed.

(** [free_lists[i] = free_lists[i]->next] on a list with head block [p]. *)
Lemma pop_spec s L i p rest :
  lists_inv s L → L i = p :: rest →
  let s1 := list_remove_state i [] (load64 (pmm_mem s) (p + hhdm_offset s)) s in
  lists_inv s1 (upd L i rest) ∧ unchanged_but (in_free s L) s s1 ∧ pmm_mem s1 = pmm_mem s ∧
  (∀ q, free_page (upd L i rest) q ↔ free_page L q ∧ ¬ covers i p q).
Proof.
  intros HL E s1. assert (p ∈ L i) as Hp by (rewrite E; left).
  pose proof (li_block _ _ HL _ _ Hp) as (Ho & _).
  assert (Hu : unchanged_but (in_free s L) s s1) by (by eapply (list_remove_state_unchanged _ _ _ _ [])).
  split_and!; [split|done|done|].
  - eapply unchanged_geometry; [done|apply HL].
  - by apply (chains_remove s L i p [] rest).
  - eapply blocks_inv_unchanged; [done|]. eapply (blocks_inv_remove _ _ _ _ []); [done|apply HL].
  - intros q. eapply (free_page_remove _ _ _ _ []); [done|apply HL].
Qed.

(** What a successful allocation of order [o] at [p] has done. *)
Record alloc_post (s : pmm) (L : ghost) (o p : Z) (s' : pmm) (L' : ghost) : Prop := {
  ap_inv : pmm_inv s' L';
  ap_block : block_ok s o p;
  ap_was_free : ∀ q, covers o p q → free_page L q;
  ap_free : ∀ q, free_page L' q ↔ free_page L q ∧ ¬ covers o p q;
  ap_frame : unchanged_but (λ a, in_bitmap s a ∨ in_free s L a) s s';
  ap_count : pmm_free_pages s' = u64 (pmm_free_pages s - 2 ^ o);
  ap_source : ∃ i rest, o ≤ i < MAX_ORDER ∧ L i = p :: rest ∧ (∀ k, o ≤ k < i → L k = []) ∧
    ∀ o' p', p' ∈ L' o' ↔ p' ∈ upd L i rest o' ∨ o ≤ o' < i ∧ p' = p + PAGE_SIZE * 2 ^ o';
}.

Lemma lists_inv_free_pages s L n : lists_inv s L → lists_inv (set_pmm_free_pages n s) L.
Proof. by intros [? ? []]. Qed.

Lemma free_list_get_head s L i p rest :
  lists_inv s L → L i = p :: rest →
  free_list_get i s = Ok (p + hhdm_offset s, s) ∧
  (p + hhdm_offset s =? 0) = false ∧ u64 (p + hhdm_offset s - hhdm_offset s) = p.
Proof.
  intros HL E. assert (p ∈ L i) as Hp by (rewrite E; left).
  pose proof (li_block _ _ HL _ _ Hp) as (Ho & _).
  destruct (li_chain _ _ HL i Ho) as (h & Eh & Hh). rewrite E in Hh. destruct Hh as [-> _].
  pose proof (proj1 (Forall_forall _ _) (nodes_ok s L i HL) p Hp) as Hn.
  split_and!; [unfold free_list_get; by rewrite Eh|by apply node_ptr_nonnull|by apply node_of_ptr].
Qed.

Lemma free_list_get_nil s L i :
  lists_inv s L → 0 ≤ i < MAX_ORDER → L i = [] → free_list_get i s = Ok (0, s).
Proof.
  intros HL Ho E. destruct (li_chain _ _ HL i Ho) as (h & Eh & Hh). rewrite E in Hh.
  cbn in Hh. subst. unfold free_list_get. by rewrite Eh.
Qed.

Lemma covers_sub s o i p q : 0 ≤ o ≤ i → block_ok s i p → covers o p q → covers i p q.
Proof.
  intros Ho Hb Hc. unfold covers in *. assert (2 ^ o ≤ 2 ^ i) by (apply Z.pow_le_mono_r; lia). lia.
Qed.

Lemma sub_block_ok s o i p : 0 ≤ o ≤ i → block_ok s i p → block_ok s o p.
Proof.
  intros Ho (Hi & Hp & Hal & Hm).
  assert (2 ^ i = 2 ^ o * 2 ^ (i - o)) as E by (rewrite <-Z.pow_add_r by lia; f_equal; lia).
  pose proof (pow2_pos o). pose proof (pow2_pos (i - o)).
  assert (2 ^ o ≤ 2 ^ i) by (apply Z.pow_le_mono_r; lia).
  split_and!; [lia|lia|lia| |lia].
  rewrite E in Hal. apply Z.mod_divide in Hal as [k ->]; [|unfold PAGE_SIZE; nia].
  apply Z.mod_divide; [unfold PAGE_SIZE; lia|]. exists (k * 2 ^ (i - o)). lia.
Qed.

(** The bits after a split, the marking of the block and the new counter. *)
Lemma mark_used_spec s L L2 o p :
  lists_inv s L2 → block_ok s o p → bits_exact s (free_page L) →
  (∀ q, covers o p q → off_bitmap s q) →
  (∀ q, free_page L2 q ↔ free_page L q ∧ ¬ covers o p q) →
  ∃ s', (for_loop (Z.to_nat (u64 (Z.shiftl 1 o))) 0
           (λ j, bitmap_set (u64 (p / PAGE_SIZE + j)));;
         modify (λ s, set_pmm_free_pages (u64 (pmm_free_pages s - u64 (Z.shiftl 1 o))) s);;
         mret p) s = Ok (p, s') ∧
    pmm_inv s' L2 ∧ unchanged_but (in_bitmap s) s s' ∧
    pmm_free_pages s' = u64 (pmm_free_pages s - 2 ^ o).
Proof.
  intros HL Hb HB Hoff Hfree. pose proof (block_page_pos _ _ _ Hb) as Hpp.
  pose proof Hb as (Ho & Hp & _ & Hm). pose proof (pow2_pos o). pose proof (pow2_le o Ho).
  destruct (li_geom _ _ HL) as (_ & Hmx & Hh & Hg).
  rewrite shiftl_1, u64_small by lia.
  destruct (bitmap_set_loop s (p / PAGE_SIZE) (2 ^ o)) as (s' & E & Hob & Hbits);
    [lia|lia|lia|unfold PAGE_SIZE in *; lia|].
  pose proof Hob as (Hu & _ & Hf). exists (set_pmm_free_pages (u64 (pmm_free_pages s' - 2 ^ o)) s').
  split_and!; [|split|done|cbn; by rewrite Hf].
  - by erewrite bind_ok.
  - apply lists_inv_free_pages. by eapply lists_inv_only_bitmap.
  - intros q Hq. change (page_bit s' q = false ↔ free_page L2 q).
    pose proof Hu as (_ & Em & _). cbn in Hq. rewrite Em in Hq.
    rewrite Hbits, Hfree by lia. unfold covers. case_bool_decide; [naive_solver|].
    specialize (HB q ltac:(done)). tauto.
Qed.

Lemma palloc_take_spec n o i p rest s L :
  pmm_inv s L → 0 ≤ o ≤ i → L i = p :: rest → (∀ k, o ≤ k < i → L k = []) →
  ∃ s' L', palloc_search (S n) o i s = Ok (p, s') ∧ alloc_post s L o p s' L'.
Proof.
  intros [HL HB] Ho E Hempty. assert (p ∈ L i) as Hp by (rewrite E; left).
  pose proof (li_block _ _ HL _ _ Hp) as Hbi. pose proof Hbi as (Hi & _).
  destruct (free_list_get_head s L i p rest HL E) as (Eget & Enn & Eaddr).
  destruct (pop_spec s L i p rest HL E) as (HL1 & Hu1 & Em1 & Hf1).
  set (s1 := list_remove_state i [] _ s) in *.
  destruct (palloc_split_spec (Z.to_nat (i - o)) i p s1 _ HL1) as (s2 & L2 & E2 & HL2 & Hf2 & Hmem & Hu2 & Hc2).
  { by eapply unchanged_block_ok. } { lia. } { intros q Hq. rewrite Hf1. tauto. }
  { intros q Hq. eapply unchanged_off; [done|]. eapply li_off; [done|]. by exists i, p. }
  replace (i - Z.of_nat (Z.to_nat (i - o))) with o in * by lia.
  assert (Hu12 : unchanged_but (in_free s L) s s2).
  { eapply (unchanged_trans _ s s1); [done|]. eapply unchanged_mono; [done|].
    intros a Ha. exists i, p. split; [done|]. done. }
  pose proof (sub_block_ok s o i p Ho Hbi) as Hbo.
  assert (Hfree2 : ∀ q, free_page L2 q ↔ free_page L q ∧ ¬ covers o p q).
  { intros q. rewrite Hf2, Hf1. pose proof (covers_sub s o i p q Ho Hbi).
    destruct (decide (covers i p q)) as [Hc|Hc]; [|tauto].
    assert (free_page L q) by (by exists i, p). tauto. }
  destruct (mark_used_spec s2 L L2 o p) as (s' & E3 & Hinv & Hu3 & Hc3); try done.
  { by eapply unchanged_block_ok. }
  { eapply unchanged_bits; [done| |done]. intros a Ha. by eapply in_free_off_bitmap. }
  { intros q Hq. eapply unchanged_off; [done|]. eapply li_off; [done|]. exists i, p.
    split; [done|]. by eapply covers_sub. }
  exists s', L2. split.
  - cbn [palloc_search]. erewrite bind_ok by done. rewrite Enn. mstep. mstep.
    assert (Eset : free_list_set i (load64 (pmm_mem s) (p + hhdm_offset s)) s = Ok (tt, s1)).
    { unfold free_list_set. destruct (li_chain _ _ HL i Hi) as (h & Eh & _). by rewrite Eh. }
    mstep with Eset. rewrite Eaddr. mstep with E2. done.
  - constructor; [done|done| |done| | |].
    + intros q Hq. exists i, p. split; [done|]. by eapply covers_sub.
    + eapply (unchanged_trans _ s s2); (eapply unchanged_mono; [done|]); [by right|].
      intros a Ha. left. destruct Hu12 as (E1' & E2' & _). unfold in_bitmap, bitmap_len in *.
      by rewrite E1', E2' in Ha.
    + rewrite Hc3, Hc2. done.
    + exists i, rest. split_and!; [lia|lia|done|done|]. intros o' p'. rewrite Hmem.
      naive_solver.
Qed.

Lemma palloc_search_spec n o i s L :
  pmm_inv s L → 0 ≤ o ≤ i → Z.of_nat n = MAX_ORDER - i → (∀ k, o ≤ k < i → L k = []) →
  (palloc_search n o i s = Ok (0, s) ∧ ∀ k, o ≤ k < MAX_ORDER → L k = []) ∨
  (∃ p s' L', palloc_search n o i s = Ok (p, s') ∧ alloc_post s L o p s' L').
Proof.
  revert i; induction n as [|n IH]; intros i Hinv Ho Hn Hempty.
  - left. split; [done|]. intros k Hk. apply Hempty. lia.
  - destruct (L i) as [|p rest] eqn:E.
    + pose proof (free_list_get_nil s L i (proj1 Hinv)) as Hget.
      cbn [palloc_search]. erewrite bind_ok by (apply Hget; [lia|done]). cbn.
      apply IH; [done|lia|lia|]. intros k Hk. destruct (decide (k = i)) as [->|]; [done|].
      apply Hempty. lia.
    + right. destruct (palloc_take_spec n o i p rest s L) as (s' & L' & ? & ?); try done.
      by exists p, s', L'.
Qed.

Lemma palloc_order_cases o s L :
  pmm_inv s L → 0 ≤ o < MAX_ORDER →
  (palloc_order o s = Ok (0, s) ∧ ∀ k, o ≤ k < MAX_ORDER → L k = []) ∨
  (∃ p s' L', palloc_order o s = Ok (p, s') ∧ alloc_post s L o p s' L').
Proof.
  intros Hinv Ho. apply palloc_search_spec; [done|lia|lia|]. intros k Hk. lia.
Qed.
