(* ===== verification/PmmFree.v ===== *)
(** * Releasing pages

    Correctness of [pfree_order] of src/kernel/main/mm/pmm.c: the coalescing
    loop takes free buddies off their lists while the block grows, and the
    block that results is added to its list. *)
From Stdlib Require Import ZArith Lia.
From stdpp Require Import base option gmap list.
From S2P Require Import Prelude Memory Pmm PmmProof.

(** ** Buddy arithmetic *)

Lemma lxor_1 m : 0 ≤ m → Z.lxor m 1 = if Z.even m then m + 1 else m - 1.
Proof.
  intros Hm. destruct (Z.even m) eqn:Ev.
  - apply Z.even_spec in Ev as [k ->]. destruct k; done.
  - assert (Z.odd m = true) as Od by (by rewrite <-Z.negb_even, Ev).
    apply Z.odd_spec in Od as [k ->]. destruct k; try done; lia.
Qed.

(** The buddy of an aligned block is the other half of the aligned block of
    the next order. *)
Lemma buddy_cases o k :
  0 ≤ o → 0 ≤ k → k `mod` 2 ^ o = 0 →
  let b := Z.lxor k (2 ^ o) in
  0 ≤ b ∧ b `mod` 2 ^ o = 0 ∧
  ((k `mod` 2 ^ (o + 1) = 0 ∧ b = k + 2 ^ o) ∨ (b `mod` 2 ^ (o + 1) = 0 ∧ k = b + 2 ^ o)).
Proof.
  intros Ho Hk Hal b. pose proof (pow2_pos o Ho) as Hp.
  apply Z.mod_divide in Hal as [m ->]; [|lia].
  assert (0 ≤ m) as Hm by nia.
  assert (b = Z.lxor m 1 * 2 ^ o) as Eb.
  { unfold b. rewrite <-!Z.shiftl_mul_pow2, <-(Z.shiftl_1_l o), <-Z.shiftl_lxor by lia. done. }
  rewrite lxor_1 in Eb by done. rewrite Z.pow_add_r, Z.pow_1_r by lia.
  destruct (Z.even m) eqn:Ev.
  - apply Z.even_spec in Ev as [j ->]. rewrite Eb. split_and!; [nia| |left; split; [|lia]].
    + apply Z.mod_divide; [lia|]. by exists (2 * j + 1).
    + apply Z.mod_divide; [lia|]. exists j. lia.
  - assert (Z.odd m = true) as Od by (by rewrite <-Z.negb_even, Ev).
    apply Z.odd_spec in Od as [j ->]. rewrite Eb. split_and!; [nia| |right; split; [|lia]].
    + apply Z.mod_divide; [lia|]. by exists (2 * j + 1 - 1).
    + apply Z.mod_divide; [lia|]. exists j. lia.
Qed.

Lemma block_ok_idx s o k :
  block_ok s o (k * PAGE_SIZE) ↔
  0 ≤ o < MAX_ORDER ∧ 0 < k ∧ k `mod` 2 ^ o = 0 ∧ k + 2 ^ o ≤ pmm_max_page s.
Proof.
  unfold block_ok. rewrite Z.div_mul by (unfold PAGE_SIZE; lia).
  split; intros (Ho & Hp & Hal & Hm); pose proof (pow2_pos o (proj1 Ho));
    (split_and!; [lia|lia|unfold PAGE_SIZE in *; lia| |lia]).
  - rewrite Z.mul_comm, Z.mul_mod_distr_l in Hal by (unfold PAGE_SIZE; lia).
    unfold PAGE_SIZE in *; lia.
  - rewrite (Z.mul_comm k), Z.mul_mod_distr_l, Hal by (unfold PAGE_SIZE; lia). lia.
Qed.

Lemma covers_idx o k q : covers o (k * PAGE_SIZE) q ↔ k ≤ q < k + 2 ^ o.
Proof. unfold covers. by rewrite Z.div_mul by (unfold PAGE_SIZE; lia). Qed.

(** The page index of the block that two buddies form. *)
Definition merged (k b : Z) : Z := if b <? k then b else k.

Lemma merged_ok s o k :
  let b := Z.lxor k (2 ^ o) in
  o + 1 < MAX_ORDER → block_ok s o (k * PAGE_SIZE) → block_ok s o (b * PAGE_SIZE) →
  block_ok s (o + 1) (merged k b * PAGE_SIZE) ∧
  ∀ q, covers (o + 1) (merged k b * PAGE_SIZE) q ↔
       covers o (k * PAGE_SIZE) q ∨ covers o (b * PAGE_SIZE) q.
Proof.
  intros b Hmo Hk Hb. apply block_ok_idx in Hk as (Ho & Hk & Hal & Hm).
  apply block_ok_idx in Hb as (_ & Hb & _ & Hbm). pose proof (pow2_pos o (proj1 Ho)).
  destruct (buddy_cases o k) as (_ & _ & Hc); [lia|lia|done|]. fold b in Hc.
  assert (2 ^ (o + 1) = 2 * 2 ^ o) as E2 by (rewrite Z.pow_add_r by lia; lia).
  rewrite block_ok_idx. setoid_rewrite covers_idx. unfold merged.
  destruct Hc as [[Hx E]|[Hx E]].
  - rewrite (proj2 (Z.ltb_ge b k)) by lia. split; [split_and!; done || lia|]. intros q. lia.
  - rewrite (proj2 (Z.ltb_lt b k)) by lia. split; [split_and!; done || lia|]. intros q. lia.
Qed.

(** ** The coalescing loop *)

(** The state between two iterations: the block of order [o] at page [k] is in
    no list, but its bits are already clear. *)
Record merging (s : pmm) (L : ghost) (o k : Z) : Prop := {
  mg_lists : lists_inv s L;
  mg_block : block_ok s o (k * PAGE_SIZE);
  mg_out : ∀ q, covers o (k * PAGE_SIZE) q → ¬ free_page L q;
  mg_off : ∀ q, covers o (k * PAGE_SIZE) q → off_bitmap s q;
  mg_bits : bits_exact s (λ q, free_page L q ∨ covers o (k * PAGE_SIZE) q);
}.

(** No free block of the same order would merge with the block. *)
Definition no_buddy (L : ghost) (o k : Z) : Prop :=
  o = MAX_ORDER - 1 ∨ Z.lxor k (2 ^ o) * PAGE_SIZE ∉ L o.

Lemma merging_step s L o k :
  let b := Z.lxor k (2 ^ o) in
  merging s L o k → o + 1 < MAX_ORDER → b * PAGE_SIZE ∈ L o →
  ∃ s' L', pmm_list_remove o (b * PAGE_SIZE) s = Ok (tt, s') ∧
    merging s' L' (o + 1) (merged k b) ∧
    (∀ q, free_page L' q ∨ covers (o + 1) (merged k b * PAGE_SIZE) q ↔
          free_page L q ∨ covers o (k * PAGE_SIZE) q) ∧
    (∀ o' p', p' ∈ L' o' ↔ p' ∈ L o' ∧ ¬ (o' = o ∧ p' = b * PAGE_SIZE)) ∧
    unchanged_but (in_free s L) s s' ∧ pmm_free_pages s' = pmm_free_pages s.
Proof.
  intros b [HL Hblk Hout Hoff Hbits] Hmo Hb.
  destruct (pmm_list_remove_spec s L o _ HL Hb) as (s' & L' & E & HL' & Hfree & Hmem & Hu & Hf).
  pose proof (li_block _ _ HL _ _ Hb) as Hbb.
  destruct (merged_ok s o k Hmo Hblk Hbb) as [Hmb Hmc]. fold b in Hmb, Hmc.
  assert (Hbf : ∀ q, covers o (b * PAGE_SIZE) q → free_page L q) by (intros q ?; by exists o, (b * PAGE_SIZE)).
  assert (Hsame : ∀ q, free_page L' q ∨ covers (o + 1) (merged k b * PAGE_SIZE) q ↔
          free_page L q ∨ covers o (k * PAGE_SIZE) q).
  { intros q. rewrite Hfree, Hmc. specialize (Hbf q).
    destruct (decide (covers o (b * PAGE_SIZE) q)); tauto. }
  exists s', L'. split_and!; [done| |done..]. split.
  - done.
  - by eapply unchanged_block_ok.
  - intros q Hq. rewrite Hfree. apply Hmc in Hq as [Hq|Hq]; [|tauto]. specialize (Hout q Hq). tauto.
  - intros q Hq. eapply unchanged_off; [done|]. apply Hmc in Hq as [Hq|Hq]; [by apply Hoff|].
    eapply li_off; [done|]. by apply Hbf.
  - eapply (unchanged_bits _ s s') in Hbits; [|done|intros a; by apply in_free_off_bitmap].
    intros q Hq. rewrite (Hbits q Hq). symmetry. apply Hsame.
Qed.

(** The three tests of the loop decide whether the buddy is on the list. *)
Lemma merge_tests s L o k (n : nat) :
  let b := Z.lxor k (2 ^ o) in
  merging s L o k → o + 1 < MAX_ORDER →
  (b * PAGE_SIZE ∈ L o ∧
   pfree_merge (S n) o k s =
     (pmm_list_remove o (b * PAGE_SIZE);; pfree_merge n (o + 1) (merged k b)) s) ∨
  (b * PAGE_SIZE ∉ L o ∧ pfree_merge (S n) o k s = Ok ((o, k), s)).
Proof.
  intros b [HL Hblk Hout Hoff Hbits] Hmo. apply block_ok_idx in Hblk as (Ho & Hk & Hal & Hm).
  destruct (buddy_cases o k) as (Hb0 & _); [lia|lia|done|]. fold b in Hb0.
  pose proof (pow2_le o Ho). pose proof (pow2_pos o (proj1 Ho)).
  destruct (li_geom _ _ HL) as (_ & Hmx & Hh & Hg).
  cbn [pfree_merge]. rewrite shiftl_1, (u64_small (2 ^ o)) by lia. fold b. mstep.
  destruct (Z.leb_spec (pmm_max_page s) b) as [Hge|Hlt].
  { right. split; [|done]. intros Hin. apply (li_block _ _ HL) in Hin.
    apply block_ok_idx in Hin as (_ & _ & _ & ?). lia. }
  rewrite (u64_small (b * PAGE_SIZE)) by (unfold PAGE_SIZE in *; lia).
  mstep with (bitmap_test_spec s b Hb0). destruct (page_bit s b) eqn:Ebit; cbn.
  { right. split; [|done]. intros Hin.
    assert (page_bit s b = false); [|congruence]. apply Hbits; [lia|]. left.
    pose proof (free_block_head _ _ _ _ HL Hin) as Hx.
    by rewrite Z.div_mul in Hx by (unfold PAGE_SIZE; lia). }
  mstep with (pmm_list_contains_spec s L o (b * PAGE_SIZE) HL Ho).
  case_decide; cbn; [by left|by right].
Qed.

Lemma in_free_sub s s' (L L' : ghost) a :
  hhdm_offset s' = hhdm_offset s → (∀ o p, p ∈ L' o → p ∈ L o) → in_free s' L' a → in_free s L a.
Proof.
  intros E Hsub (o & p & Hp & Ha). exists o, p. split; [by apply Hsub|].
  unfold in_block in *. by rewrite E in Ha.
Qed.

Lemma pfree_merge_spec n s L o k :
  merging s L o k → Z.of_nat n = MAX_ORDER - 1 - o →
  ∃ o' k' s' L', pfree_merge n o k s = Ok ((o', k'), s') ∧ merging s' L' o' k' ∧
    o ≤ o' ∧ no_buddy L' o' k' ∧
    (∀ q, free_page L' q ∨ covers o' (k' * PAGE_SIZE) q ↔ free_page L q ∨ covers o (k * PAGE_SIZE) q) ∧
    (∀ i p, p ∈ L' i → p ∈ L i) ∧
    unchanged_but (in_free s L) s s' ∧ pmm_free_pages s' = pmm_free_pages s.
Proof.
  revert s L o k; induction n as [|n IH]; intros s L o k Hmg Hn.
  - exists o, k, s, L. split_and!; try done. left; lia.
  - destruct (merge_tests s L o k n Hmg) as [[Hin E]|[Hni E]]; [lia| |].
    + destruct (merging_step s L o k Hmg) as (s1 & L1 & E1 & Hmg1 & Hs1 & Hm1 & Hu1 & Hf1); [lia|done|].
      destruct (IH s1 L1 _ _ Hmg1) as (o' & k' & s' & L' & E' & Hmg' & Hle & Hnb & Hs & Hsub & Hu & Hf); [lia|].
      exists o', k', s', L'. split_and!; [|done|lia|done| | | |congruence].
      * rewrite E. mstep with E1. done.
      * intros q. by rewrite Hs, Hs1.
      * intros i p Hp. by eapply Hm1, Hsub.
      * eapply unchanged_trans; [done|]. eapply unchanged_mono; [done|].
        intros a. eapply in_free_sub; [by destruct Hu1 as (_&_&?&_)|]. intros i p Hp. by eapply Hm1.
    + exists o, k, s, L. split_and!; try done. by right.
Qed.

(** ** Release *)

(** A block a caller may give back: well placed, in use, and not the bitmap. *)
Record releasable (s : pmm) (L : ghost) (o p : Z) : Prop := {
  rl_block : block_ok s o p;
  rl_used : ∀ q, covers o p q → ¬ free_page L q;
  rl_off : ∀ q, covers o p q → off_bitmap s q;
}.

Record free_post (s : pmm) (L : ghost) (o p : Z) (s' : pmm) (L' : ghost) : Prop := {
  fp_inv : pmm_inv s' L';
  fp_free : ∀ q, free_page L' q ↔ free_page L q ∨ covers o p q;
  fp_frame : unchanged_but (λ a, in_bitmap s a ∨ in_free s L a ∨ in_block s o p a) s s';
  fp_merged : ∃ o' k' rest, o ≤ o' < MAX_ORDER ∧ L' o' = k' * PAGE_SIZE :: rest ∧
    no_buddy (upd L' o' rest) o' k' ∧
    pmm_free_pages s' = u64 (pmm_free_pages s + 2 ^ o');
}.

Lemma clear_block_spec s L o p :
  pmm_inv s L → releasable s L o p →
  ∃ s', for_loop (Z.to_nat (u64 (Z.shiftl 1 o))) 0
          (λ j, bitmap_clear (u64 (p / PAGE_SIZE + j))) s = Ok (tt, s') ∧
    merging s' L o (p / PAGE_SIZE) ∧ only_bitmap s s'.
Proof.
  intros [HL HB] [Hb Hused Hoff]. pose proof (block_page_pos _ _ _ Hb) as Hpp.
  pose proof (block_aligned _ _ _ Hb) as Ea. rewrite Z.mul_comm in Ea.
  pose proof Hb as (Ho & Hp & _ & Hm). pose proof (pow2_pos o (proj1 Ho)). pose proof (pow2_le o Ho).
  destruct (li_geom _ _ HL) as (_ & Hmx & Hh & Hg).
  rewrite shiftl_1, u64_small by lia.
  destruct (bitmap_clear_loop s (p / PAGE_SIZE) (2 ^ o)) as (s' & E & Hob & Hbits);
    [lia|lia|lia|unfold PAGE_SIZE in *; lia|].
  pose proof Hob as (Hu & _ & Hf). exists s'. split_and!; [done| |done]. split; rewrite <-?Ea.
  - by eapply lists_inv_only_bitmap.
  - by eapply unchanged_block_ok.
  - done.
  - intros q Hq. eapply unchanged_off; eauto.
  - intros q Hq. pose proof Hu as (_ & Em & _). rewrite Em in Hq.
    rewrite Hbits by lia. unfold covers. case_bool_decide; [naive_solver|].
    specialize (HB q ltac:(done)). tauto.
Qed.

Lemma bits_of_merged s L L' o k :
  bits_exact s (λ q, free_page L q ∨ covers o (k * PAGE_SIZE) q) →
  (∀ q, free_page L' q ↔ free_page L q ∨ covers o (k * PAGE_SIZE) q) →
  bits_exact s (free_page L').
Proof. intros HB HF q Hq. by rewrite (HB q Hq), HF. Qed.

Lemma upd_upd L o l l' o' : upd (upd L o l) o l' o' = upd L o l' o'.
Proof. unfold upd. by case_decide. Qed.

Lemma block_addr_u64 s o p : geometry s → block_ok s o p → u64 p = p.
Proof.
  intros Hg Hb. pose proof (region_fits _ _ _ Hg Hb) as Hr.
  destruct Hg as (_ & _ & Hh & _), Hb as (_ & Hp & _). apply u64_small. lia.
Qed.

Lemma pfree_order_spec s L o p :
  pmm_inv s L → releasable s L o p →
  ∃ s' L', pfree_order p o s = Ok (tt, s') ∧ free_post s L o p s' L'.
Proof.
  intros Hinv Hrel. destruct (clear_block_spec s L o p Hinv Hrel) as (s1 & E1 & Hmg1 & Hob).
  pose proof (rl_block _ _ _ _ Hrel) as Hb. pose proof Hb as (Ho & _).
  pose proof (block_aligned _ _ _ Hb) as Ea. rewrite Z.mul_comm in Ea.
  destruct (pfree_merge_spec (Z.to_nat (MAX_ORDER - 1 - o)) s1 L o (p / PAGE_SIZE) Hmg1)
    as (o' & k' & s2 & L2 & E2 & [HL2 Hb2 Hout2 Hoff2 Hbits2] & Hle & Hnb & Hs & Hsub & Hu2 & Hf2); [lia|].
  destruct (pmm_list_add_spec s2 L2 o' _ HL2 Hb2 Hout2 Hoff2) as (s3 & E3 & HL3 & Hu3 & Hf3).
  pose proof Hb2 as (Ho' & _ & _). pose proof (pow2_le o' Ho'). pose proof (pow2_pos o' (proj1 Ho')).
  pose proof Hob as (Hu1 & _ & Hf1). pose proof Hu1 as (B1 & M1 & H1 & _). pose proof Hu2 as (_ & _ & H2 & _).
  set (L' := upd L2 o' (k' * PAGE_SIZE :: L2 o')) in *.
  exists (set_pmm_free_pages (u64 (pmm_free_pages s3 + 2 ^ o')) s3), L'. split.
  - unfold pfree_order. mstep with E1. mstep with E2.
    rewrite (block_addr_u64 _ _ _ (li_geom _ _ HL2) Hb2). mstep with E3. by rewrite shiftl_1, (u64_small (2 ^ o')) by lia.
  - assert (Hfree : ∀ q, free_page L' q ↔ free_page L2 q ∨ covers o' (k' * PAGE_SIZE) q)
      by (intros q; apply free_page_add).
    rewrite <-Ea in Hs. constructor.
    + split; [by apply lists_inv_free_pages|]. 
      change (bits_exact s3 (free_page L')). eapply unchanged_bits; [done| |by eapply bits_of_merged].
      intros a Ha. by eapply block_off_bitmap.
    + intros q. by rewrite Hfree, Hs.
    + eapply (unchanged_trans _ s s1); [eapply unchanged_mono; [done|]; by left|].
      eapply (unchanged_trans _ s1 s2); [eapply unchanged_mono; [done|]|].
      { intros a Ha. right; left. by apply (in_free_sub s s1 L L). }
      eapply (unchanged_mono _ _ s2 s3) in Hu3; [exact Hu3|].
      intros a Ha. destruct (in_block_page s2 o' _ a Hb2 Ha) as (q & Hc & Hq).
      rewrite H2, H1 in Hq. right. destruct (proj1 (Hs q)) as [(i & x & Hx & Hcx)|Hcp]; [by right| |].
      * left. exists i, x. split; [done|]. 
        pose proof (block_aligned _ _ _ (li_block _ _ (proj1 Hinv) _ _ Hx)).
        unfold in_block, covers, PAGE_SIZE in *. lia.
      * right. unfold in_block, covers, PAGE_SIZE in *. lia.
    + exists o', k', (L2 o'). split_and!; [lia|lia|unfold L'; by rewrite upd_eq| |].
      * unfold no_buddy. destruct Hnb as [Hx|Hx]; [by left|right]. by rewrite upd_eq.
      * cbn. by rewrite Hf3, Hf2, Hf1.
Qed.
