(* ===== verification/PmmInit.v ===== *)
(** * Start of the physical memory manager

    [pmm_init] of src/kernel/main/mm/pmm.c places the bitmap in the first
    large usable region of the boot loader's memory map and cuts the rest into
    aligned blocks.  On a map as the boot protocol documents it, this
    establishes the invariant of PmmProof.v with exactly the remaining usable
    pages free. *)
From Stdlib Require Import ZArith Lia.
From stdpp Require Import base option gmap list.
From S2P Require Import Prelude Memory Pmm PmmProof PmmFree.

(** ** Cutting a region into blocks *)

(** The order chosen for a block at [cur]: aligned, inside the region, and the
    next order would not be. *)
Lemma carve_order_spec n o cur end_ :
  0 ≤ o → Z.of_nat n = MAX_ORDER - 1 - o → 0 ≤ cur → end_ + 2 ^ 23 < 2 ^ 64 →
  cur `mod` (PAGE_SIZE * 2 ^ o) = 0 → cur + PAGE_SIZE * 2 ^ o ≤ end_ →
  let o' := carve_order n o cur end_ in
  o ≤ o' < MAX_ORDER ∧ cur `mod` (PAGE_SIZE * 2 ^ o') = 0 ∧ cur + PAGE_SIZE * 2 ^ o' ≤ end_ ∧
  (o' = MAX_ORDER - 1 ∨ end_ < cur + PAGE_SIZE * 2 ^ (o' + 1) ∨
   cur `mod` (PAGE_SIZE * 2 ^ (o' + 1)) ≠ 0).
Proof.
  revert o; induction n as [|n IH]; intros o Ho Hn Hc He Hal Hend; cbn [carve_order].
  - split_and!; [lia|lia|done|done|left; lia].
  - assert (2 ^ (o + 1) ≤ 2 ^ 10) by (apply Z.pow_le_mono_r; unfold MAX_ORDER in *; lia).
    pose proof (pow2_pos (o + 1)). pose proof (pow2_pos o Ho).
    rewrite Z.shiftl_mul_pow2, (u64_small (PAGE_SIZE * 2 ^ (o + 1))) by (unfold PAGE_SIZE; lia).
    rewrite u64_small by (unfold PAGE_SIZE in *; lia).
    destruct (Z.ltb_spec end_ (cur + PAGE_SIZE * 2 ^ (o + 1))); cbn.
    { split_and!; [lia|lia|done|done|by right; left]. }
    destruct (Z.eqb_spec (cur `mod` (PAGE_SIZE * 2 ^ (o + 1))) 0); cbn.
    + destruct (IH (o + 1)) as (? & ? & ? & ?); [lia..|done|lia|]. split_and!; [lia|lia|done..].
    + split_and!; [lia|lia|done|done|by right; right].
Qed.

Lemma pmm_inv_counters s L t f :
  pmm_inv s L → pmm_inv (set_pmm_free_pages f (set_pmm_total_pages t s)) L.
Proof. by intros [[? ? []] ?]. Qed.

(** One block of the carving loop: its bits are cleared and it is listed. *)
Lemma carve_block_spec s L o p :
  pmm_inv s L → releasable s L o p →
  ∃ s', (for_loop (Z.to_nat (u64 (Z.shiftl 1 o))) 0
           (λ j, bitmap_clear (u64 (p / PAGE_SIZE + j)));; pmm_list_add o p) s = Ok (tt, s') ∧
    pmm_inv s' (upd L o (p :: L o)) ∧
    unchanged_but (λ a, in_bitmap s a ∨ in_block s o p a) s s' ∧
    pmm_free_pages s' = pmm_free_pages s.
Proof.
  intros Hinv Hrel. destruct (clear_block_spec s L o p Hinv Hrel) as (s1 & E1 & [HL Hb Hout Hoff HB] & Hob).
  pose proof (block_aligned _ _ _ (rl_block _ _ _ _ Hrel)) as Ea. rewrite Z.mul_comm in Ea.
  pose proof Hob as (Hu1 & _ & Hf1). pose proof Hu1 as (_ & _ & H1 & _).
  rewrite <-Ea in *.
  destruct (pmm_list_add_spec s1 L o p HL Hb Hout Hoff) as (s2 & E2 & HL2 & Hu2 & Hf2).
  exists s2. split_and!; [by mstep with E1| split; [done|] | | congruence].
  - eapply (unchanged_bits _ s1); [done|intros a; by apply block_off_bitmap|].
    intros q Hq. rewrite (HB q Hq). symmetry. apply free_page_add.
  - eapply (unchanged_trans _ s s1); (eapply unchanged_mono; [done|]); [by left|].
    intros a Ha. right. unfold in_block in *. by rewrite H1 in Ha.
Qed.

(** Pages [lo .. hi - 1] may be added to the allocator. *)
Record addable (s : pmm) (L : ghost) (lo hi : Z) : Prop := {
  ad_lo : 0 < lo;
  ad_hi : hi ≤ pmm_max_page s;
  ad_used : ∀ q, lo ≤ q < hi → ¬ free_page L q;
  ad_off : ∀ q, lo ≤ q < hi → off_bitmap s q;
}.

Lemma addable_block s L lo hi o :
  addable s L lo hi → 0 ≤ o < MAX_ORDER →
  (lo * PAGE_SIZE) `mod` (PAGE_SIZE * 2 ^ o) = 0 → lo + 2 ^ o ≤ hi →
  releasable s L o (lo * PAGE_SIZE).
Proof.
  intros [Hlo Hhi Hu Hoff] Ho Hal He. pose proof (pow2_pos o (proj1 Ho)). split.
  - unfold block_ok. rewrite Z.div_mul by (unfold PAGE_SIZE; lia).
    split_and!; [lia|lia|unfold PAGE_SIZE; lia|done|lia].
  - intros q Hq. rewrite covers_idx in Hq. apply Hu. lia.
  - intros q Hq. rewrite covers_idx in Hq. apply Hoff. lia.
Qed.

Lemma addable_mono P s s' L L' lo hi lo' :
  addable s L lo hi → lo ≤ lo' → unchanged_but P s s' →
  (∀ q, lo' ≤ q < hi → free_page L' q → free_page L q) → addable s' L' lo' hi.
Proof.
  intros [Hlo Hhi Hused Hoff] Hle Hu Hf. pose proof Hu as (_ & Em & _).
  split; [lia|by rewrite Em|..].
  - intros q Hq Hfq. eapply Hused; [|by apply Hf]. lia.
  - intros q Hq. eapply unchanged_off; [done|]. apply Hoff. lia.
Qed.

(** [n] pages were added to both counters. *)
Definition counted (s s' : pmm) (n : Z) : Prop :=
  pmm_total_pages s' = u64 (pmm_total_pages s + n) ∧
  pmm_free_pages s' = u64 (pmm_free_pages s + n).
Definition same_layout (s s' : pmm) : Prop :=
  pmm_bitmap s' = pmm_bitmap s ∧ pmm_max_page s' = pmm_max_page s ∧
  hhdm_offset s' = hhdm_offset s.
Definition counters_fit (s : pmm) : Prop :=
  fits 64 (pmm_total_pages s) ∧ fits 64 (pmm_free_pages s).

Lemma u64_add_l x y : u64 (u64 x + y) = u64 (x + y).
Proof. apply Zplus_mod_idemp_l. Qed.

Lemma counted_0 s : counters_fit s → counted s s 0.
Proof. intros [H1 H2]. unfold counted. rewrite !Z.add_0_r. split; symmetry; by apply u64_small. Qed.
Lemma counted_trans s s' s'' m n : counted s s' m → counted s' s'' n → counted s s'' (m + n).
Proof. intros [A B] [C D]. split; [rewrite C, A|rewrite D, B]; rewrite u64_add_l; f_equal; lia. Qed.
Lemma counted_fit s s' n : counted s s' n → counters_fit s'.
Proof. intros [A B]. split; [rewrite A|rewrite B]; apply u64_range. Qed.
Lemma same_layout_trans s s' s'' : same_layout s s' → same_layout s' s'' → same_layout s s''.
Proof. intros (?&?&?) (?&?&?). split_and!; congruence. Qed.

(** One iteration of the carving loop. *)
Lemma carve_step fuel s L lo hi :
  pmm_inv s L → addable s L lo hi → lo < hi →
  PAGE_SIZE * pmm_max_page s + 2 ^ 23 < 2 ^ 64 →
  ∃ o s' L', 0 ≤ o ∧ lo + 2 ^ o ≤ hi ∧
    carve_region (S fuel) (lo * PAGE_SIZE) (hi * PAGE_SIZE) s =
      carve_region fuel ((lo + 2 ^ o) * PAGE_SIZE) (hi * PAGE_SIZE) s' ∧
    pmm_inv s' L' ∧ addable s' L' (lo + 2 ^ o) hi ∧
    (∀ q, free_page L' q ↔ free_page L q ∨ lo ≤ q < lo + 2 ^ o) ∧
    same_layout s s' ∧ counted s s' (2 ^ o).
Proof.
  intros Hinv Had Hlt Hbig. pose proof Had as [Hlo Hhi _ _].
  cbn [carve_region]. rewrite (proj2 (Z.leb_gt _ _)) by (unfold PAGE_SIZE; lia).
  destruct (carve_order_spec (Z.to_nat (MAX_ORDER - 1)) 0 (lo * PAGE_SIZE) (hi * PAGE_SIZE))
    as (Ho & Hal & Hend & _); [lia|unfold MAX_ORDER; lia|unfold PAGE_SIZE in *; lia..| |unfold PAGE_SIZE in *; lia|].
  { rewrite Z.pow_0_r, Z.mul_1_r. apply Z.mod_mul. done. }
  set (o := carve_order _ _ _ _) in *. pose proof (pow2_pos o (proj1 Ho)). pose proof (pow2_le o Ho).
  assert (lo + 2 ^ o ≤ hi) as He by (unfold PAGE_SIZE in *; lia).
  pose proof (addable_block s L lo hi o Had Ho Hal He) as Hrel.
  destruct (carve_block_spec s L o _ Hinv Hrel) as (s1 & E1 & Hinv1 & Hu1 & Hf1).
  pose proof Hu1 as (B1 & M1 & H1 & T1 & _).
  exists o, (set_pmm_free_pages (u64 (pmm_free_pages s1 + 2 ^ o))
              (set_pmm_total_pages (u64 (pmm_total_pages s1 + 2 ^ o)) s1)), (upd L o (lo * PAGE_SIZE :: L o)).
  assert (Hfree : ∀ q, free_page (upd L o (lo * PAGE_SIZE :: L o)) q ↔ free_page L q ∨ lo ≤ q < lo + 2 ^ o).
  { intros q. by rewrite free_page_add, covers_idx. }
  splits; [lia|lia| |by apply pmm_inv_counters| |done|done|split; cbn; congruence].
  - apply bind_inv in E1 as ([] & s0 & E0 & E1). mstep with E0. mstep with E1. mstep. mstep.
    rewrite (shiftl_1 o), (u64_small (2 ^ o)), Z.shiftl_mul_pow2 by lia.
    rewrite (u64_small (PAGE_SIZE * 2 ^ o)) by (unfold PAGE_SIZE; lia).
    rewrite u64_small by (unfold PAGE_SIZE in *; lia).
    replace (lo * PAGE_SIZE + PAGE_SIZE * 2 ^ o) with ((lo + 2 ^ o) * PAGE_SIZE) by lia. done.
  - eapply (addable_mono _ s s1) in Had as [? ? ? Hoff];
      [split; [done|done|done|exact Hoff]|lia|exact Hu1|].
    intros q Hq. rewrite Hfree. intros [?|?]; [done|lia].
Qed.

Lemma carve_region_spec fuel s L lo hi :
  pmm_inv s L → addable s L lo hi → (Z.to_nat (hi - lo) ≤ fuel)%nat → counters_fit s →
  PAGE_SIZE * pmm_max_page s + 2 ^ 23 < 2 ^ 64 →
  ∃ s' L', carve_region fuel (lo * PAGE_SIZE) (hi * PAGE_SIZE) s = Ok (tt, s') ∧
    pmm_inv s' L' ∧ (∀ q, free_page L' q ↔ free_page L q ∨ lo ≤ q < hi) ∧
    same_layout s s' ∧ counted s s' (Z.max 0 (hi - lo)).
Proof.
  revert s L lo; induction fuel as [|fuel IH]; intros s L lo Hinv Had Hf Hfit Hbig;
    (destruct (decide (hi ≤ lo)) as [Hge|Hlt];
      [exists s, L; cbn [carve_region]; rewrite (proj2 (Z.leb_le _ _)) by (unfold PAGE_SIZE; lia);
       splits; [done|done|intros q; split; [by left|intros [?|?]; [done|lia]]|done|];
       rewrite Z.max_l by lia; by apply counted_0|]).
  - lia.
  - destruct (carve_step fuel s L lo hi) as (o & s1 & L1 & Ho & He & E & Hinv1 & Had1 & Hfr1 & Hl1 & Hc1);
      [done|done|lia|done|]. pose proof (pow2_pos o Ho). pose proof Hl1 as (_ & M1 & _).
    destruct (IH s1 L1 (lo + 2 ^ o)) as (s' & L' & E' & Hinv' & Hfr' & Hl' & Hc');
      [done|done|lia|by eapply counted_fit|by rewrite M1|].
    exists s', L'. splits; [by rewrite E|done| |by eapply same_layout_trans|].
    + intros q. assert (lo ≤ q < hi ↔ lo ≤ q < lo + 2 ^ o ∨ lo + 2 ^ o ≤ q < hi) by lia.
      rewrite Hfr', Hfr1. tauto.
    + replace (Z.max 0 (hi - lo)) with (2 ^ o + Z.max 0 (hi - (lo + 2 ^ o))) by lia.
      by eapply counted_trans.
Qed.

(** ** The memory map *)

Definition usable (e : memmap_entry) : Prop := e_type e = LIMINE_MEMMAP_USABLE.
Definition e_end (e : memmap_entry) : Z := e_base e + e_length e.

(** Page [q] lies in a usable entry. *)
Definition usable_page (mm : list memmap_entry) (q : Z) : Prop :=
  ∃ e, e ∈ mm ∧ usable e ∧ e_base e ≤ PAGE_SIZE * q ∧ PAGE_SIZE * (q + 1) ≤ e_end e.

(** A usable entry: page-aligned, not at address zero (boot protocol: usable
    entries are page aligned and the first page is never usable). *)
Definition entry_ok (e : memmap_entry) : Prop :=
  0 ≤ e_base e ∧ 0 ≤ e_length e ∧ e_end e < 2 ^ 64 ∧
  (usable e → 0 < e_base e ∧ e_base e `mod` PAGE_SIZE = 0 ∧ e_length e `mod` PAGE_SIZE = 0).

Definition apart (e e' : memmap_entry) : Prop :=
  usable e → usable e' → e_end e ≤ e_base e' ∨ e_end e' ≤ e_base e.

Fixpoint memmap_ok (mm : list memmap_entry) : Prop :=
  match mm with
  | [] => True
  | e :: rest => entry_ok e ∧ (∀ e', e' ∈ rest → apart e e') ∧ memmap_ok rest
  end.

(** Pages of the usable entries. *)
Fixpoint usable_count (mm : list memmap_entry) : Z :=
  match mm with
  | [] => 0
  | e :: rest => (if e_type e =? LIMINE_MEMMAP_USABLE then e_length e / PAGE_SIZE else 0)
                 + usable_count rest
  end.

Lemma memmap_ok_elem mm e : memmap_ok mm → e ∈ mm → entry_ok e.
Proof.
  induction mm as [|x mm IH]; [intros _ H; by apply elem_of_nil in H|].
  intros (Hx & _ & Hmm) [->|H]%elem_of_cons; [done|by apply IH].
Qed.

(** A usable entry runs over whole pages. *)
Lemma entry_pages e :
  entry_ok e → usable e →
  ALIGN_UP (e_base e) PAGE_SIZE = e_base e / PAGE_SIZE * PAGE_SIZE ∧
  ALIGN_DOWN (u64 (e_base e + e_length e)) PAGE_SIZE = e_end e / PAGE_SIZE * PAGE_SIZE ∧
  e_base e = e_base e / PAGE_SIZE * PAGE_SIZE ∧ e_end e = e_end e / PAGE_SIZE * PAGE_SIZE ∧
  e_end e / PAGE_SIZE - e_base e / PAGE_SIZE = e_length e / PAGE_SIZE ∧ 0 < e_base e / PAGE_SIZE.
Proof.
  intros (Hb & Hl & He & Hu) Hus. destruct (Hu Hus) as (Hp & Hab & Hal).
  unfold e_end in *. change PAGE_SIZE with (2 ^ 12) in *.
  assert (e_base e = e_base e / 2 ^ 12 * 2 ^ 12) as Eb by zdiv.
  rewrite ALIGN_UP_spec by zdiv. rewrite (u64_small (_ + _)) by lia.
  rewrite ALIGN_DOWN_spec by (unfold fits; lia). splits; zdiv.
Qed.

Definition entry_page (e : memmap_entry) (q : Z) : Prop :=
  usable e ∧ e_base e ≤ PAGE_SIZE * q ∧ PAGE_SIZE * (q + 1) ≤ e_end e.

Lemma usable_page_cons e mm q :
  usable_page (e :: mm) q ↔ entry_page e q ∨ usable_page mm q.
Proof.
  split.
  - intros (x & [->|Hx]%elem_of_cons & H); [by left|right; by exists x].
  - intros [H|(x & Hx & H)]; [exists e|exists x]; (split; [|done]); [left|by right].
Qed.

Lemma entry_page_range e q :
  entry_ok e → usable e →
  entry_page e q ↔ e_base e / PAGE_SIZE ≤ q < e_end e / PAGE_SIZE.
Proof.
  intros Hok Hu. destruct (entry_pages e Hok Hu) as (_ & _ & Eb & Ee & _).
  unfold entry_page, PAGE_SIZE in *. split; [intros (_ & ? & ?)|intros; split; [done|]]; lia.
Qed.

Lemma apart_pages e mm q :
  memmap_ok (e :: mm) → entry_page e q → ¬ usable_page mm q.
Proof.
  intros (_ & Hap & _) (Hu & H1 & H2) (x & Hx & Hux & H3 & H4).
  destruct (Hap x Hx Hu Hux); unfold PAGE_SIZE in *; lia.
Qed.

(** The entries of [mm] lie below the managed limit and off the bitmap. *)
Definition placed (s : pmm) (mm : list memmap_entry) : Prop :=
  (∀ e, e ∈ mm → usable e → e_end e / PAGE_SIZE ≤ pmm_max_page s) ∧
  ∀ q, usable_page mm q → off_bitmap s q.

Lemma placed_tail s s' e mm : same_layout s s' → placed s (e :: mm) → placed s' mm.
Proof.
  intros (E1 & E2 & E3) [Hp Ho]. split.
  - intros x Hx Hu. rewrite E2. apply Hp; [by right|done].
  - intros q Hq. assert (off_bitmap s q) as H by (apply Ho, usable_page_cons; by right).
    unfold off_bitmap, bitmap_len in *. by rewrite E1, E2, E3.
Qed.

(** One entry of the map. *)
Lemma carve_entry_spec e mm s L :
  pmm_inv s L → memmap_ok (e :: mm) → placed s (e :: mm) → counters_fit s →
  PAGE_SIZE * pmm_max_page s + 2 ^ 23 < 2 ^ 64 →
  (∀ q, usable_page (e :: mm) q → ¬ free_page L q) →
  ∃ s' L', carve_memmap (e :: mm) s = carve_memmap mm s' ∧ pmm_inv s' L' ∧
    (∀ q, free_page L' q ↔ free_page L q ∨ entry_page e q) ∧ same_layout s s' ∧
    counted s s' (if e_type e =? LIMINE_MEMMAP_USABLE then e_length e / PAGE_SIZE else 0).
Proof.
  intros Hinv Hok [Hp Ho] Hfit Hbig Hnf. pose proof Hok as (He & _ & _). cbn [carve_memmap].
  destruct (Z.eqb_spec (e_type e) LIMINE_MEMMAP_USABLE) as [Hu|Hnu]; cbn.
  - destruct (entry_pages e He Hu) as (Eb & Ee & Eb' & Ee' & Elen & Hpos).
    set (lo := e_base e / PAGE_SIZE) in *. set (hi := e_end e / PAGE_SIZE) in *.
    assert (0 ≤ hi - lo) as Hle.
    { rewrite Elen. apply Z.div_pos; [by destruct He as (_ & ? & _)|unfold PAGE_SIZE; lia]. }
    destruct (carve_region_spec (Z.to_nat ((hi * PAGE_SIZE - lo * PAGE_SIZE) / PAGE_SIZE)) s L lo hi)
      as (s' & L' & E & Hinv' & Hfr & Hl & Hc); [done| | |done|done|].
    { split; [done|apply Hp; [left|done]|..]; intros q Hq;
        [apply Hnf|apply Ho]; apply usable_page_cons; left; by apply entry_page_range. }
    { rewrite <-Z.mul_sub_distr_r, Z.div_mul by done. done. }
    exists s', L'. splits; [rewrite Eb, Ee; by mstep with E|done| |done|].
    + intros q. by rewrite Hfr, entry_page_range.
    + rewrite <-Elen. by rewrite Z.max_r in Hc by lia.
  - exists s, L. splits; [by mstep|done| |done|by apply counted_0].
    intros q. split; [by left|]. intros [?|[? _]]; done.
Qed.

Lemma carve_memmap_spec mm s L :
  pmm_inv s L → memmap_ok mm → placed s mm → counters_fit s →
  PAGE_SIZE * pmm_max_page s + 2 ^ 23 < 2 ^ 64 →
  (∀ q, usable_page mm q → ¬ free_page L q) →
  ∃ s' L', carve_memmap mm s = Ok (tt, s') ∧ pmm_inv s' L' ∧
    (∀ q, free_page L' q ↔ free_page L q ∨ usable_page mm q) ∧
    same_layout s s' ∧ counted s s' (usable_count mm).
Proof.
  revert s L; induction mm as [|e mm IH]; intros s L Hinv Hok Hpl Hfit Hbig Hnf.
  - exists s, L. splits; [done|done| |done|by apply counted_0].
    intros q. split; [by left|]. intros [?|(x & Hx & _)]; [done|]. by apply elem_of_nil in Hx.
  - destruct (carve_entry_spec e mm s L) as (s1 & L1 & E & Hinv1 & Hfr1 & Hl1 & Hc1); [done..|].
    destruct (IH s1 L1) as (s' & L' & E' & Hinv' & Hfr' & Hl' & Hc'); [done|apply Hok| | | | |].
    + by eapply placed_tail.
    + by eapply counted_fit.
    + destruct Hl1 as (_ & -> & _). done.
    + intros q Hq. rewrite Hfr1. intros [Hx|Hx].
      * eapply Hnf; [apply usable_page_cons; by right|done].
      * by eapply (apart_pages e mm).
    + exists s', L'. splits; [by rewrite E|done| |by eapply same_layout_trans|by eapply counted_trans].
      intros q. rewrite Hfr', Hfr1, usable_page_cons. tauto.
Qed.

(** ** Placing the bitmap *)

(** What the placing loop does to the map: [n] bytes at [b] are taken from
    the start of a usable entry. *)
Record placing (n b : Z) (mm mm' : list memmap_entry) : Prop := {
  pl_ok : memmap_ok mm';
  pl_pages : ∀ q, usable_page mm' q ↔
    usable_page mm q ∧ (PAGE_SIZE * (q + 1) ≤ b ∨ b + n ≤ PAGE_SIZE * q);
  pl_shrunk : ∀ e', e' ∈ mm' → ∃ e, e ∈ mm ∧ e_end e' = e_end e ∧ e_base e ≤ e_base e' ∧
    e_type e' = e_type e;
  pl_count : usable_count mm' = usable_count mm - n / PAGE_SIZE;
  pl_entry : ∃ e, e ∈ mm ∧ usable e ∧ e_base e = b ∧ n ≤ e_length e;
}.

(** The entry [e] was skipped. *)
Lemma placing_skip n b e mm mm' :
  memmap_ok (e :: mm) → placing n b mm mm' → placing n b (e :: mm) (e :: mm').
Proof.
  intros (He & Hap & _) [Hok Hpg Hsh Hct (x & Hx & Hux & Eb & Hn)]. split.
  - split_and!; try apply He; [|done]. intros e' He' Hu Hu'.
    destruct (Hsh e' He') as (e0 & H0 & E1 & E2 & E3).
    unfold usable in *. destruct (Hap e0 H0 Hu); [congruence|lia|lia].
  - intros q. rewrite !usable_page_cons, Hpg. split; [|tauto].
    intros [Hq|?]; [|tauto]. split; [by left|]. destruct Hq as (Hu & ? & ?).
    destruct (Hap x Hx Hu Hux); unfold e_end in *; lia.
  - intros e' [->|He']%elem_of_cons; [exists e; split_and!; [left|done..]|].
    destruct (Hsh e' He') as (e0 & ? & ?). exists e0. split; [by right|done].
  - cbn. rewrite Hct. lia.
  - exists x. split; [by right|done].
Qed.

Definition shrink (n : Z) (e : memmap_entry) : memmap_entry :=
  mkEntry (e_base e + n) (e_length e - n) (e_type e).

(** The entry [e] was chosen. *)
Lemma placing_take n e mm :
  memmap_ok (e :: mm) → usable e → 0 ≤ n ≤ e_length e → n `mod` PAGE_SIZE = 0 →
  placing n (e_base e) (e :: mm) (shrink n e :: mm).
Proof.
  intros Hok Hu Hn Hal. pose proof Hok as ((Hb & Hl & He & Hp) & Hap & Hmm).
  specialize (Hp Hu). assert (Eend : e_end (shrink n e) = e_end e) by (unfold e_end; cbn; lia).
  split.
  - split_and!; [unfold entry_ok; rewrite Eend; cbn; splits; [lia|lia|done|]| |done].
    + intros _. unfold PAGE_SIZE in *. splits; zdiv.
    + intros e' He' _ Hu'. rewrite Eend. cbn. destruct (Hap e' He' Hu Hu'); lia.
  - intros q. rewrite !usable_page_cons. unfold entry_page. rewrite Eend. cbn.
    split; [intros [(_ & ? & ?)|Hq]|intros [[(_ & ? & ?)|Hq] Hx]].
    + split; [left; split; [done|lia]|lia].
    + split; [by right|]. destruct Hq as (x & Hx & Hux & ? & ?).
      destruct (Hap x Hx Hu Hux); unfold e_end in *; lia.
    + left. split; [done|]. unfold PAGE_SIZE in *. lia.
    + by right.
  - intros e' [->|He']%elem_of_cons; [exists e|exists e']; splits; cbn;
      [left|done|lia|done|by right|done|lia|done].
  - cbn. rewrite (proj2 (Z.eqb_eq _ _) Hu). unfold PAGE_SIZE in *. zdiv.
  - exists e. splits; [left|done|done|lia].
Qed.

Lemma place_bitmap_spec n mm s :
  memmap_ok mm → 0 ≤ n → n `mod` PAGE_SIZE = 0 → 0 ≤ hhdm_offset s →
  (∀ e, e ∈ mm → e_end e + hhdm_offset s < 2 ^ 64) →
  (∃ e, e ∈ mm ∧ usable e ∧ n ≤ e_length e) →
  ∃ b mm', place_bitmap n mm s =
      Ok (mm', set_pmm_mem (memset_z (pmm_mem s) (b + hhdm_offset s) 255 n)
                (set_pmm_bitmap (b + hhdm_offset s) s)) ∧ placing n b mm mm'.
Proof.
  intros Hok H0 Hal Hh Hend Hex. induction mm as [|e mm IH]; cbn [place_bitmap].
  { destruct Hex as (x & Hx & _). by apply elem_of_nil in Hx. }
  destruct (decide (usable e ∧ n ≤ e_length e)) as [[Hu Hn]|Hno].
  - rewrite (proj2 (Z.eqb_eq _ _) Hu), (proj2 (Z.ltb_ge _ _)) by lia. cbn.
    exists (e_base e), (shrink n e :: mm). split; [|by apply placing_take].
    pose proof Hok as ((? & ? & ? & _) & _). pose proof (Hend e ltac:(left)) as He.
    unfold e_end in *. mstep. mstep. cbn. by rewrite !u64_small by lia.
  - assert (negb (e_type e =? LIMINE_MEMMAP_USABLE) || (e_length e <? n) = true) as ->.
    { destruct (Z.eqb_spec (e_type e) LIMINE_MEMMAP_USABLE), (Z.ltb_spec (e_length e) n); try done.
      destruct Hno. split; [done|lia]. }
    destruct IH as (b & mm' & E & Hpl).
    + apply Hok.
    + intros x Hx. apply Hend. by right.
    + destruct Hex as (x & [->|Hx]%elem_of_cons & ?); [tauto|by exists x].
    + exists b, (e :: mm'). split; [by mstep with E|by apply placing_skip].
Qed.

(** ** The whole initialisation *)

(** The body of the loop of [memmap_top]. *)
Definition top_step (top : Z) (e : memmap_entry) : Z :=
  if top <? u64 (e_base e + e_length e) then u64 (e_base e + e_length e) else top.

Lemma memmap_top_fold mm top :
  Forall (λ e, 0 ≤ e_end e < 2 ^ 64) mm →
  let t := fold_left top_step mm top in
  top ≤ t ∧ (∀ e, e ∈ mm → e_end e ≤ t) ∧ (t = top ∨ ∃ e, e ∈ mm ∧ t = e_end e).
Proof.
  revert top; induction mm as [|e mm IH]; intros top Hall; cbn [fold_left].
  - splits; [lia| |by left]. intros e He. by apply elem_of_nil in He.
  - apply list.Forall_cons in Hall as [He Hall]. set (top' := top_step top e).
    assert (top ≤ top' ∧ e_end e ≤ top' ∧ (top' = top ∨ top' = e_end e)) as (H1 & H2 & H3).
    { unfold top', top_step. rewrite u64_small by apply He. fold (e_end e). destruct (Z.ltb_spec top (e_end e)); splits; lia. }
    destruct (IH top' Hall) as (G1 & G2 & G3). splits; [lia| |].
    + intros x [->|Hx]%elem_of_cons; [lia|by apply G2].
    + destruct G3 as [G3|(x & ? & ?)]; [|right; exists x; split; [by right|done]].
      destruct H3 as [H3|H3]; [left; congruence|right; exists e; split; [left|congruence]].
Qed.

(** What the boot protocol promises about its two responses. *)
Record boot_ok (offset : Z) (mm : list memmap_entry) : Prop := {
  bo_map : memmap_ok mm;
  bo_offset : 2 ^ 23 ≤ offset < 2 ^ 64;
  bo_window : ∀ e, e ∈ mm → e_end e + offset < 2 ^ 64;
}.

(** The bitmap is sized by [max_page / 8], rounded down before it is rounded up
    to whole pages.  [bitmap_covers]: it nevertheless has a bit for every managed
    page; [bitmap_fits]: there is an entry to place it in. *)
Definition bitmap_bytes (mm : list memmap_entry) : Z := ALIGN_UP (memmap_top mm / PAGE_SIZE / 8) PAGE_SIZE.
Definition bitmap_covers (mm : list memmap_entry) : Prop := memmap_top mm / PAGE_SIZE ≤ 8 * bitmap_bytes mm.
Definition bitmap_fits (mm : list memmap_entry) : Prop := ∃ e, e ∈ mm ∧ usable e ∧ bitmap_bytes mm ≤ e_length e.

Lemma memmap_top_spec offset mm :
  boot_ok offset mm →
  0 ≤ memmap_top mm ∧ memmap_top mm + offset < 2 ^ 64 ∧ (∀ e, e ∈ mm → e_end e ≤ memmap_top mm).
Proof.
  intros [Hok Hoff Hwin].
  destruct (memmap_top_fold mm 0) as (H1 & H2 & H3).
  { apply Forall_forall. intros e He. destruct (memmap_ok_elem mm e Hok He) as (? & ? & ? & _).
    unfold e_end in *. lia. }
  splits; [done| |done]. destruct H3 as [H3|(e & He & H3)]; change (memmap_top mm) with (fold_left top_step mm 0); rewrite H3.
  - lia.
  - by apply Hwin.
Qed.

(** The bitmap is too short exactly when the number of managed pages is 1 to 7
    above a multiple of 32768, the pages that one page of the bitmap covers. *)
Lemma bitmap_covers_iff offset mm : boot_ok offset mm →
  bitmap_covers mm ↔ ¬ 1 ≤ (memmap_top mm / PAGE_SIZE) `mod` 32768 ≤ 7.
Proof.
  intros Hbo. destruct (memmap_top_spec _ _ Hbo) as (Ht0 & Ht1 & _). pose proof (bo_offset _ _ Hbo) as Hoff.
  unfold bitmap_covers, bitmap_bytes. set (max := memmap_top mm / PAGE_SIZE).
  assert (0 ≤ max ∧ max < 2 ^ 52) as [Hm0 Hm1] by (unfold max, PAGE_SIZE; zdiv).
  change PAGE_SIZE with (2 ^ 12). rewrite ALIGN_UP_spec by zdiv.
  pose proof (Z.div_mod max 8 ltac:(lia)). pose proof (Z.mod_pos_bound max 8 ltac:(lia)).
  pose proof (Z.div_mod max 32768 ltac:(lia)). pose proof (Z.mod_pos_bound max 32768 ltac:(lia)).
  pose proof (Z.div_mod (max / 8 + 2 ^ 12 - 1) (2 ^ 12) ltac:(lia)). pose proof (Z.mod_pos_bound (max / 8 + 2 ^ 12 - 1) (2 ^ 12) ltac:(lia)).
  lia.
Qed.

(** The state in which carving starts: no block listed, every bit set. *)
Lemma carve_start s L0 :
  (∀ o, L0 o = []) → free_lists s = replicate (Z.to_nat MAX_ORDER) 0 →
  0 ≤ pmm_max_page s → 0 ≤ hhdm_offset s →
  hhdm_offset s + PAGE_SIZE * pmm_max_page s < 2 ^ 64 →
  (∀ q, 0 ≤ q < pmm_max_page s → load8 (pmm_mem s) (pmm_bitmap s + q / 8) = 255) →
  pmm_inv s L0.
Proof.
  intros HL Hfl Hm Hh Hg Hbits.
  assert (Hno : ∀ o p, p ∉ L0 o) by (intros o p; rewrite HL; apply not_elem_of_nil).
  assert (Hnf : ∀ q, ¬ free_page L0 q) by (intros q (o & p & Hp & _); by eapply Hno).
  split; [split|].
  - unfold geometry; splits; [by rewrite Hfl|done..].
  - intros o Ho. exists 0. rewrite Hfl, HL. split; [|done].
    unfold zlookup, MAX_ORDER in *. destruct (Z.ltb_spec o 0); [lia|].
    apply lookup_replicate. split; [done|lia].
  - split; [intros o p Hp; by destruct (Hno o p)|intros o; rewrite HL; constructor| |].
    + intros o p o' p' q Hp. by destruct (Hno o p).
    + intros q Hq. by destruct (Hnf q).
  - intros q Hq. split; [|intros Hx; by destruct (Hnf q)].
    unfold page_bit. rewrite Hbits by done. pose proof (Z.mod_pos_bound q 8).
    intros Hx. exfalso. change 255 with (Z.ones 8) in Hx. rewrite Z.ones_spec_low in Hx by lia. done.
Qed.

Lemma align_up_page x :
  0 ≤ x → x + 2 ^ 13 < 2 ^ 64 →
  0 ≤ ALIGN_UP x PAGE_SIZE ∧ ALIGN_UP x PAGE_SIZE `mod` PAGE_SIZE = 0.
Proof.
  intros H0 H1. change PAGE_SIZE with (2 ^ 12). rewrite ALIGN_UP_spec by lia.
  split; [zdiv|]. apply Z.mod_mul. lia.
Qed.

(** Without an entry for the bitmap the kernel stops. *)
Lemma place_bitmap_none n mm s : (∀ e, e ∈ mm → usable e → e_length e < n) → place_bitmap n mm s = Ok (mm, s).
Proof.
  induction mm as [|e mm IH]; intros H; cbn [place_bitmap]; [done|].
  assert (negb (e_type e =? LIMINE_MEMMAP_USABLE) || (e_length e <? n) = true) as ->.
  { destruct (Z.eqb_spec (e_type e) LIMINE_MEMMAP_USABLE) as [Hu|]; [|done]. apply Z.ltb_lt, H; [left|done]. }
  mstep with (IH ltac:(intros x Hx; apply H; by right)). done.
Qed.
Lemma pmm_init_halts m offset mm : ¬ bitmap_fits mm → pmm_init (Some offset) (Some mm) (pmm_boot m) = Halt.
Proof.
  intros Hno. unfold pmm_init. mstep. mstep. mstep. cbn. erewrite bind_ok; [|apply place_bitmap_none].
  - done.
  - intros e He Hu. destruct (decide (e_length e < bitmap_bytes mm)) as [H|H]; [exact H|]. destruct Hno. exists e. splits; [done|done|lia].
Qed.

Lemma pmm_init_spec m offset mm :
  boot_ok offset mm → bitmap_covers mm → bitmap_fits mm →
  ∃ b mm' s' L',
    pmm_init (Some offset) (Some mm) (pmm_boot m) = Ok (mm', s') ∧
    placing (bitmap_bytes mm) b mm mm' ∧
    pmm_inv s' L' ∧ (∀ q, free_page L' q ↔ usable_page mm' q) ∧
    pmm_bitmap s' = b + offset ∧ pmm_max_page s' = memmap_top mm / PAGE_SIZE ∧
    hhdm_offset s' = offset ∧
    pmm_total_pages s' = u64 (usable_count mm') ∧ pmm_free_pages s' = u64 (usable_count mm').
Proof.
  intros Hbo Hlen Hex. destruct (memmap_top_spec _ _ Hbo) as (Ht0 & Ht1 & Htop).
  destruct Hbo as [Hok Hoff Hwin]. unfold bitmap_covers, bitmap_fits, bitmap_bytes in *.
  set (max := memmap_top mm / PAGE_SIZE) in *. set (n := ALIGN_UP (max / 8) PAGE_SIZE) in *.
  assert (0 ≤ max ∧ PAGE_SIZE * max ≤ memmap_top mm) as [Hm0 Hm1]
    by (unfold max, PAGE_SIZE in *; zdiv).
  destruct (align_up_page (max / 8)) as [Hn0 Hnal]; [zdiv|clear Hlen; unfold PAGE_SIZE in *; zdiv|]. fold n in Hn0, Hnal.
  set (s0 := set_pmm_max_page max (set_hhdm_offset offset (pmm_boot m))).
  destruct (place_bitmap_spec n mm s0 Hok Hn0 Hnal) as (b & mm' & E & Hpl); [cbn; lia|done|done|].
  pose proof (pl_entry _ _ _ _ Hpl) as (e & He & Hue & Eb & Hne).
  pose proof (memmap_ok_elem mm e Hok He) as (_ & _ & _ & Hpos). destruct (Hpos Hue) as (Hb & _).
  pose proof (Hwin e He) as Hwe. cbn [hhdm_offset] in E.
  set (s1 := set_pmm_mem _ _) in E. set (s2 := set_free_lists (replicate (Z.to_nat MAX_ORDER) 0) s1).
  assert (Enn : (pmm_bitmap s1 =? 0) = false) by (cbn; lia).
  destruct (carve_memmap_spec mm' s2 (λ _, [])) as (s' & L' & E' & Hinv & Hfr & (B & M & H) & Hct).
  - apply carve_start; try done; [cbn; lia|cbn; unfold PAGE_SIZE in *; lia|].
    intros q Hq. cbn in *. rewrite load8_memset_z, decide_True; [done|]. zdiv.
  - apply Hpl.
  - split.
    + intros x Hx Hux. destruct (pl_shrunk _ _ _ _ Hpl x Hx) as (x0 & Hx0 & -> & _).
      cbn. apply Z.div_le_mono; [done|]. by apply Htop.
    + intros q Hq. apply (pl_pages _ _ _ _ Hpl) in Hq as [_ Hq]. unfold off_bitmap, bitmap_len. cbn.
      assert ((max + 7) / 8 ≤ n) by zdiv. lia.
  - by repeat split.
  - cbn. unfold PAGE_SIZE in *. lia.
  - intros q _ (o & p & Hp & _). by apply elem_of_nil in Hp.
  - exists b, mm', s', L'. destruct Hct as [Ht Hf]. cbn in *. splits; try done.
    + unfold pmm_init. mstep. mstep. mstep. cbn. fold max n. mstep with E. mstep.
      change (pmm_bitmap s1 =? 0) with (b + offset =? 0). rewrite Enn. mstep. mstep with E'. done.
    + intros q. rewrite Hfr. split; [|by right]. intros [(o & p & Hp & _)|?]; [|done]. by apply elem_of_nil in Hp.
Qed.
