(* ===== verification/PmmIface.v ===== *)
(** * The interface of the page allocator

    What the clients of pmm.c rely on, as a type class over predicates on page
    numbers, and the proof that the buddy allocator provides it.  The clients'
    theorems (VmmProof.v) are proved against the class. *)
From Stdlib Require Import ZArith Lia.
From stdpp Require Import base option gmap list.
From S2P Require Import Prelude Memory Pmm PmmProof PmmFree.

(** ** The owner of an allocated block *)

Lemma alloc_releasable s L o p s' L' :
  pmm_inv s L → alloc_post s L o p s' L' → releasable s' L' o p.
Proof.
  intros [HL _] H. pose proof (ap_frame _ _ _ _ _ _ H) as Hu. split.
  - eapply unchanged_block_ok; [done|apply H].
  - intros q Hq. rewrite (ap_free _ _ _ _ _ _ H). tauto.
  - intros q Hq. eapply unchanged_off; [done|]. eapply li_off; [done|]. by eapply ap_was_free.
Qed.

(** An allocation that returned an address. *)
Lemma alloc_hit s L o p s' :
  pmm_inv s L → 0 ≤ o < MAX_ORDER → palloc_order o s = Ok (p, s') → p ≠ 0 →
  ∃ L', alloc_post s L o p s' L'.
Proof.
  intros Hinv Ho E Hp. destruct (palloc_order_cases o _ L Hinv Ho) as [[E' _]|(p' & s1 & L' & E' & H)];
    rewrite E in E'; injection E' as -> ->; [done|by exists L'].
Qed.

(** A client's store to memory that is neither a free page nor the bitmap. *)
Lemma pmm_inv_frame s s' L P :
  pmm_inv s L → unchanged_but P s s' → free_lists s' = free_lists s →
  (∀ a, P a → ¬ in_bitmap s a ∧ ¬ in_free s L a) → pmm_inv s' L.
Proof.
  intros [HL HB] Hu Hfl HP. pose proof Hu as (_ & _ & Eh & _). split; [split|].
  - eapply unchanged_geometry; [done|apply HL].
  - intros o Ho. destruct (li_chain _ _ HL o Ho) as (h & E & Hc). exists h. rewrite Hfl, Eh.
    split; [done|]. eapply chain_frame; [|done]. intros p Hp. eapply unchanged_load64; [done|].
    intros b Hb HPb. destruct (HP b HPb) as [_ Hn]. apply Hn. exists o, p. split; [done|].
    pose proof (pow2_pos o (proj1 Ho)). unfold in_block, PAGE_SIZE. lia.
  - eapply blocks_inv_unchanged; [done|apply HL].
  - eapply unchanged_bits; [done| |done]. intros a Ha HPa. by destruct (HP a HPa).
Qed.

(** ** The interface *)

(** Address [a] lies in physical page [q], seen through the direct map. *)
Definition in_page (s : pmm) (q a : Z) : Prop :=
  hhdm_offset s + PAGE_SIZE * q ≤ a < hhdm_offset s + PAGE_SIZE * (q + 1).

(** The memory that belongs to an allocator whose free pages are [F]. *)
Definition private (s : pmm) (F : Z → Prop) (a : Z) : Prop :=
  in_bitmap s a ∨ ∃ q, F q ∧ in_page s q a.

(** [s'] has the layout of [s]. *)
Definition pmm_layout (s s' : pmm) : Prop :=
  pmm_bitmap s' = pmm_bitmap s ∧ pmm_max_page s' = pmm_max_page s ∧
  hhdm_offset s' = hhdm_offset s.
Lemma pmm_layout_trans s1 s2 s3 : pmm_layout s1 s2 → pmm_layout s2 s3 → pmm_layout s1 s3.
Proof. intros (?&?&?) (?&?&?). unfold pmm_layout. splits; congruence. Qed.

Class PageAllocator (inv : pmm → (Z → Prop) → Prop) : Prop := {
  pa_window s F : inv s F → 0 ≤ pmm_max_page s ∧ 0 ≤ hhdm_offset s ∧
    hhdm_offset s + PAGE_SIZE * pmm_max_page s < 2 ^ 64;
  pa_free s F q : inv s F → F q → 0 < q < pmm_max_page s ∧ off_bitmap s q;
  pa_palloc s F : inv s F →
    (palloc s = Ok (0, s) ∧ ∀ q, ¬ F q) ∨
    (∃ q s' F', palloc s = Ok (PAGE_SIZE * q, s') ∧ F q ∧ inv s' F' ∧
       (∀ x, F' x ↔ F x ∧ x ≠ q) ∧ pmm_layout s s' ∧
       ∀ a, ¬ private s F a → load8 (pmm_mem s') a = load8 (pmm_mem s) a);
  pa_write s F m : inv s F →
    (∀ a, private s F a → load8 m a = load8 (pmm_mem s) a) → inv (set_pmm_mem m s) F;
}.

(** ** The buddy allocator provides it *)

Definition buddy_inv (s : pmm) (F : Z → Prop) : Prop :=
  ∃ L, pmm_inv s L ∧ ∀ q, F q ↔ free_page L q.

Lemma in_free_private s L F a :
  pmm_inv s L → (∀ q, F q ↔ free_page L q) → in_free s L a → private s F a.
Proof.
  intros [HL _] HF (o & p & Hp & Ha). right.
  destruct (in_block_page s o p a (li_block _ _ HL _ _ Hp) Ha) as (q & Hc & Hq).
  exists q. split; [|done]. apply HF. by exists o, p.
Qed.

Lemma buddy_palloc s F :
  buddy_inv s F →
  (palloc s = Ok (0, s) ∧ ∀ q, ¬ F q) ∨
  (∃ q s' F', palloc s = Ok (PAGE_SIZE * q, s') ∧ F q ∧ buddy_inv s' F' ∧
     (∀ x, F' x ↔ F x ∧ x ≠ q) ∧ pmm_layout s s' ∧
     ∀ a, ¬ private s F a → load8 (pmm_mem s') a = load8 (pmm_mem s) a).
Proof.
  intros (L & Hinv & HF).
  destruct (palloc_order_cases 0 s L Hinv) as [[E Hn]|(p & s' & L' & E & HA)]; [unfold MAX_ORDER; lia| |].
  - left. split; [done|]. intros q (o & p & Hp & _)%HF.
    pose proof (li_block _ _ (proj1 Hinv) _ _ Hp) as (Ho & _). rewrite Hn in Hp by lia.
    by apply elem_of_nil in Hp.
  - right. pose proof (block_aligned _ _ _ (ap_block _ _ _ _ _ _ HA)) as Ea.
    assert (Hc : ∀ x, covers 0 p x ↔ x = p / PAGE_SIZE) by (intros x; unfold covers; lia).
    exists (p / PAGE_SIZE), s', (free_page L'). rewrite <-Ea. splits; [done| | | | |].
    + apply HF, (ap_was_free _ _ _ _ _ _ HA). by apply Hc.
    + exists L'. split; [apply HA|done].
    + intros x. by rewrite (ap_free _ _ _ _ _ _ HA), HF, Hc.
    + by destruct (ap_frame _ _ _ _ _ _ HA) as (? & ? & ? & _).
    + intros a Ha. destruct (ap_frame _ _ _ _ _ _ HA) as (_&_&_&_&_&Hm). apply Hm.
      intros [Hb|Hf]; apply Ha; [by left|by eapply in_free_private].
Qed.

Lemma buddy_write s F m :
  buddy_inv s F → (∀ a, private s F a → load8 m a = load8 (pmm_mem s) a) →
  buddy_inv (set_pmm_mem m s) F.
Proof.
  intros (L & Hinv & HF) Hm. exists L. split; [|done].
  apply (pmm_inv_frame s _ L (λ a, load8 m a ≠ load8 (pmm_mem s) a)); [done| |done|].
  - repeat split. cbn. intros a Ha. by apply dec_stable.
  - intros a Ha. split; intros Hx; apply Ha, Hm; [by left|by eapply in_free_private].
Qed.

#[export] Instance buddy_allocator : PageAllocator buddy_inv.
Proof.
  split.
  - intros s F (L & [HL _] & _). by destruct (li_geom _ _ HL) as (_ & ? & ? & ?).
  - intros s F q (L & [HL _] & HF) Hq. apply HF in Hq. split; [|by eapply li_off].
    pose proof Hq as (o & p & Hp & Hc). pose proof (block_page_pos _ _ _ (li_block _ _ HL _ _ Hp)).
    pose proof (free_page_range _ _ _ HL Hq). unfold covers in Hc. lia.
  - intros s F H. by apply buddy_palloc.
  - intros s F m. apply buddy_write.
Qed.
