(* ===== verification/PmmSpec.v ===== *)
(** * Theorems of the physical memory manager

    The statements about pmm.c that its clients rely on, over the invariant of
    PmmProof.v, each with an instance at a concrete machine. *)
From Stdlib Require Import ZArith Lia.
From stdpp Require Import base option gmap list.
From S2P Require Import Prelude Memory Pmm PmmProof PmmFree PmmInit PmmIface.

(** ** A machine to instantiate the theorems at

    65 pages of physical memory: the first is reserved, the others usable. *)
Definition sample_map : list memmap_entry := [mkEntry 0 4096 1; mkEntry 4096 (64 * 4096) 0].
Definition sample_offset : Z := 0xffff800000000000.

Lemma sample_boot_ok : boot_ok sample_offset sample_map.
Proof.
  split.
  - cbn. unfold entry_ok, apart, usable, e_end, LIMINE_MEMMAP_USABLE, PAGE_SIZE. cbn.
    splits; try lia; try done; intros e' H Hu; first [done|by apply elem_of_nil in H].
  - done.
  - intros e [->|[->|H]%elem_of_cons]%elem_of_cons; [done|done|]. by apply elem_of_nil in H.
Qed.
Lemma sample_covers : bitmap_covers sample_map.
Proof. by vm_compute. Qed.
Lemma sample_fits : bitmap_fits sample_map.
Proof. eexists. split; [right; left|]. done. Qed.

Definition sample_state : pmm :=
  match pmm_init (Some sample_offset) (Some sample_map) (pmm_boot ∅) with
  | Ok (_, s) => s
  | _ => pmm_boot ∅
  end.

(** The state after a run that returns. *)
Definition after {A} (m : M pmm A) (s : pmm) : pmm :=
  match m s with Ok (_, s') => s' | _ => s end.

Definition returns (m : M pmm Z) (s : pmm) (x : Z) : bool :=
  match m s with Ok (y, _) => y =? x | _ => false end.

Lemma returns_ok m s x : returns m s x = true → m s = Ok (x, after m s).
Proof.
  unfold returns, after. destruct (m s) as [[y s']| | |]; try done. by intros ->%Z.eqb_eq.
Qed.

Lemma sample_inv : ∃ L, pmm_inv sample_state L.
Proof.
  destruct (pmm_init_spec ∅ _ _ sample_boot_ok sample_covers sample_fits) as (b & mm & s & L & E & _ & H & _).
  exists L. unfold sample_state. by rewrite E.
Qed.

(** ** The theorems *)

(** Whether there is room for the bitmap can be decided. *)
Lemma bitmap_fits_dec mm : bitmap_fits mm ∨ ¬ bitmap_fits mm.
Proof.
  destruct (decide (Exists (λ e, usable e ∧ bitmap_bytes mm ≤ e_length e) mm)) as [H|H]; rewrite Exists_exists in H; [left|right]; exact H.
Qed.

(** C1: On a memory map that meets the boot protocol's promises and whose number of pages, up to its last address, is not
    1 to 7 above a multiple of 32768 ([bitmap_covers], by [bitmap_covers_iff]: else the bitmap is a byte too short, see
    [pmm_init_short_bitmap]): when no usable entry has room for the bitmap, [pmm_init] stops the kernel; otherwise it
    returns, and it establishes the allocator invariant with exactly the usable pages outside the bitmap free, and both
    page counters equal to their number. *)
Theorem pmm_init_correct m offset mm :
  boot_ok offset mm → bitmap_covers mm →
  (¬ bitmap_fits mm ∧ pmm_init (Some offset) (Some mm) (pmm_boot m) = Halt) ∨
  bitmap_fits mm ∧ ∃ b mm' s' L',
    pmm_init (Some offset) (Some mm) (pmm_boot m) = Ok (mm', s') ∧ pmm_inv s' L' ∧
    (∀ q, free_page L' q ↔ usable_page mm q ∧
       (PAGE_SIZE * (q + 1) ≤ b ∨ b + bitmap_bytes mm ≤ PAGE_SIZE * q)) ∧
    pmm_bitmap s' = b + offset ∧
    pmm_total_pages s' = u64 (usable_count mm') ∧ pmm_free_pages s' = u64 (usable_count mm').
Proof.
  intros H Hcov. destruct (bitmap_fits_dec mm) as [Hfit|Hno]; [right|left; split; [done|by apply pmm_init_halts]]. split; [done|].
  destruct (pmm_init_spec m _ _ H Hcov Hfit) as (b & mm' & s' & L' & E & Hpl & Hinv & Hfr & Hb & _ & _ & Ht & Hf).
  exists b, mm', s', L'. splits; try done. intros q. rewrite Hfr. apply Hpl.
Qed.

Lemma pmm_init_correct_witness :
  ∃ b mm' s' L',
    pmm_init (Some sample_offset) (Some sample_map) (pmm_boot ∅) = Ok (mm', s') ∧ pmm_inv s' L' ∧
    (∀ q, free_page L' q ↔ usable_page sample_map q ∧
       (PAGE_SIZE * (q + 1) ≤ b ∨ b + bitmap_bytes sample_map ≤ PAGE_SIZE * q)) ∧
    pmm_bitmap s' = b + sample_offset ∧
    pmm_total_pages s' = u64 (usable_count mm') ∧ pmm_free_pages s' = u64 (usable_count mm').
Proof.
  destruct (pmm_init_correct ∅ sample_offset sample_map sample_boot_ok sample_covers) as [[Hno _]|[_ H]]; [destruct (Hno sample_fits)|exact H].
Defined.

(** 32769 pages of which the pages 16, 17 and 32768 are usable: the bitmap is page 16, and the bit of page 32768 is in
    page 17, which is free.  Handing out page 32768 changes the link of page 17 from 0 to 1, and after page 17 has been
    handed out as well the allocator has 1 at the head of its list: it is not empty, and the next request gets an
    address that is no page. *)
Definition short_map : list memmap_entry := [mkEntry 0x10000 8192 0; mkEntry (32768 * 4096) 4096 0].
Lemma pmm_init_short_bitmap :
  ¬ bitmap_covers short_map ∧
  match pmm_init (Some sample_offset) (Some short_map) (pmm_boot ∅) with
  | Ok (_, s) =>
      match (p1 ← palloc; p2 ← palloc; l ← gets free_lists; p3 ← palloc; mret (p1, p2, head l, p3)) s with
      | Ok (r, _) => r = (32768 * 4096, 17 * 4096, Some 1, u64 (1 - sample_offset))
      | _ => False
      end
  | _ => False
  end.
Proof. split; [by vm_compute|]. vm_compute. reflexivity. Qed.

(** C2: [palloc_order] always returns.  It returns 0 and changes nothing only when every list of that order and
    above is empty; otherwise it returns an aligned block of free pages, keeps the invariant, removes exactly
    that block from the free pages, writes only to the bitmap and to free pages, and decreases the counter by
    the block's size. *)
Theorem palloc_order_correct o s L :
  pmm_inv s L → 0 ≤ o < MAX_ORDER →
  (palloc_order o s = Ok (0, s) ∧ ∀ k, o ≤ k < MAX_ORDER → L k = []) ∨
  (∃ p s' L', palloc_order o s = Ok (p, s') ∧ alloc_post s L o p s' L').
Proof. apply palloc_order_cases. Qed.

Lemma palloc_order_correct_witness :
  ∃ L, pmm_inv sample_state L ∧
    ((palloc_order 3 sample_state = Ok (0, sample_state) ∧ ∀ k, 3 ≤ k < MAX_ORDER → L k = []) ∨
     (∃ p s' L', palloc_order 3 sample_state = Ok (p, s') ∧ alloc_post sample_state L 3 p s' L')).
Proof.
  destruct sample_inv as [L H]. exists L. split; [exact H|].
  apply (palloc_order_correct 3 sample_state L H). unfold MAX_ORDER; lia.
Defined.

(** C3: [pfree_order] of a block in use returns, keeps the invariant, adds exactly that block to the free pages,
    writes only to the bitmap, to free pages and to the block, and leaves at the head of a list a block that has
    no free buddy of its order (or has the largest order). *)
Theorem pfree_order_correct s L o p :
  pmm_inv s L → releasable s L o p →
  ∃ s' L', pfree_order p o s = Ok (tt, s') ∧ free_post s L o p s' L'.
Proof. apply pfree_order_spec. Qed.

Lemma pfree_order_correct_witness :
  ∃ p s L, pmm_inv s L ∧ releasable s L 2 p ∧
    ∃ s' L', pfree_order p 2 s = Ok (tt, s') ∧ free_post s L 2 p s' L'.
Proof.
  destruct sample_inv as [L H].
  destruct (alloc_hit sample_state L 2 (4 * 4096) (after (palloc_order 2) sample_state) H)
    as [L' HA]; [unfold MAX_ORDER; lia|apply returns_ok; vm_compute; reflexivity|done|].
  pose proof (alloc_releasable _ _ _ _ _ _ H HA) as HR.
  eexists _, _, L'. split; [apply HA|]. split; [exact HR|].
  apply pfree_order_correct; [apply HA|exact HR].
Defined.

(** Giving a block back right after allocating it succeeds and restores the set of free pages. *)
Theorem palloc_pfree_roundtrip o s L p s1 :
  pmm_inv s L → 0 ≤ o < MAX_ORDER → palloc_order o s = Ok (p, s1) → p ≠ 0 →
  ∃ s' L', pfree_order p o s1 = Ok (tt, s') ∧ pmm_inv s' L' ∧ ∀ q, free_page L' q ↔ free_page L q.
Proof.
  intros Hinv Ho E Hp. destruct (alloc_hit _ _ _ _ _ Hinv Ho E Hp) as [L1 HA].
  destruct (pfree_order_spec s1 L1 o p) as (s' & L' & E' & HF);
    [apply HA|by eapply alloc_releasable|].
  exists s', L'. splits; [done|apply HF|]. intros q.
  rewrite (fp_free _ _ _ _ _ _ HF), (ap_free _ _ _ _ _ _ HA).
  pose proof (ap_was_free _ _ _ _ _ _ HA q). destruct (decide (covers o p q)); tauto.
Qed.

Lemma palloc_pfree_roundtrip_witness :
  ∃ L s' L', pmm_inv sample_state L ∧
    pfree_order 0x8000 3 (after (palloc_order 3) sample_state) = Ok (tt, s') ∧
    pmm_inv s' L' ∧ ∀ q, free_page L' q ↔ free_page L q.
Proof.
  destruct sample_inv as [L H].
  destruct (palloc_pfree_roundtrip 3 sample_state L 0x8000 (after (palloc_order 3) sample_state) H)
    as (s' & L' & HR); [unfold MAX_ORDER; lia|apply returns_ok; vm_compute; reflexivity|done|].
  exists L, s', L'. split; [exact H|exact HR].
Defined.



(** [pfree_order] adds the size of the coalesced block, not of the block given back, to the free-page counter:
    after two allocations and two releases of single pages on a fresh machine of 63 free pages all pages are free
    again, but the counter says 64, more than the 63 pages in total, and [pmm_get_used_pages] wraps around. *)
Theorem pfree_overcounts :
  match (a ← palloc; b ← palloc; pfree a;; pfree b;;
         total ← pmm_get_total_pages; free ← pmm_get_free_pages; used ← pmm_get_used_pages;
         mret (total, free, used)) sample_state with
  | Ok (r, _) => r = (63, 64, 2 ^ 64 - 1)
  | _ => False
  end.
Proof. vm_compute. reflexivity. Qed.
