(* ===== verification/Vmm.v ===== *)
(** * Virtual memory manager

    Model of src/kernel/main/mm/vmm.c: four-level page tables in the memory of
    the physical memory manager, which supplies the pages of new tables.  The
    processor state the code touches is the CR3 register and the addresses
    given to [invlpg] and [clflush], kept as logs. *)
From Stdlib Require Import ZArith Lia.
From stdpp Require Import base option gmap list.
From S2P Require Import Prelude Memory Pmm.

Definition PTE_PRESENT : Z := Z.shiftl 1 0.
Definition PTE_WRITABLE : Z := Z.shiftl 1 1.
Definition PTE_USER : Z := Z.shiftl 1 2.
Definition PTE_PS : Z := Z.shiftl 1 7.
Definition PTE_NX : Z := Z.shiftl 1 63.
Definition PTE_ADDR_MASK : Z := 0x000FFFFFFFFFF000.
Definition PML4_INDEX (v : Z) : Z := Z.land (Z.shiftr v 39) 0x1FF.
Definition PDPT_INDEX (v : Z) : Z := Z.land (Z.shiftr v 30) 0x1FF.
Definition PD_INDEX (v : Z) : Z := Z.land (Z.shiftr v 21) 0x1FF.
Definition PT_INDEX (v : Z) : Z := Z.land (Z.shiftr v 12) 0x1FF.
Definition USER_STACK_TOP : Z := 0x0000700000000000.
Definition GUARD_PAGE_SIZE : Z := PAGE_SIZE.

(** The variables of vmm.c, over the allocator's state and the processor. *)
Record vmm := mkVmm {
  v_pmm : pmm;
  v_hhdm : Z;                 (* hhdm_offset of vmm.c *)
  kernel_pml4 : Z;
  cpu_cr3 : Z;
  invlpg_log : list Z;
  clflush_log : list Z;
}.
Definition set_v_pmm (p : pmm) (s : vmm) : vmm :=
  mkVmm p (v_hhdm s) (kernel_pml4 s) (cpu_cr3 s) (invlpg_log s) (clflush_log s).
Definition set_v_hhdm (h : Z) (s : vmm) : vmm :=
  mkVmm (v_pmm s) h (kernel_pml4 s) (cpu_cr3 s) (invlpg_log s) (clflush_log s).
Definition set_pml4 (p : Z) (s : vmm) : vmm :=
  mkVmm (v_pmm s) (v_hhdm s) p (cpu_cr3 s) (invlpg_log s) (clflush_log s).
Definition set_cr3 (c : Z) (s : vmm) : vmm :=
  mkVmm (v_pmm s) (v_hhdm s) (kernel_pml4 s) c (invlpg_log s) (clflush_log s).
Definition log_invlpg (v : Z) (s : vmm) : vmm :=
  mkVmm (v_pmm s) (v_hhdm s) (kernel_pml4 s) (cpu_cr3 s) (v :: invlpg_log s) (clflush_log s).
Definition log_clflush (v : Z) (s : vmm) : vmm :=
  mkVmm (v_pmm s) (v_hhdm s) (kernel_pml4 s) (cpu_cr3 s) (invlpg_log s) (v :: clflush_log s).

Definition v_mem (s : vmm) : memory := pmm_mem (v_pmm s).
Definition set_v_mem (m : memory) (s : vmm) : vmm := set_v_pmm (set_pmm_mem m (v_pmm s)) s.

Definition in_pmm {A} (m : M pmm A) : M vmm A := zoom v_pmm set_v_pmm m.

Definition phys_to_virt (phys : Z) : M vmm Z := gets (λ s, u64 (phys + v_hhdm s)).
Definition virt_to_phys (virt : Z) : M vmm Z := gets (λ s, u64 (virt - v_hhdm s)).

(** [table[idx]] and [table[idx] = v] *)
Definition entry (table idx : Z) : M vmm Z := gets (λ s, load64 (v_mem s) (table + 8 * idx)).
Definition set_entry (table idx v : Z) : M vmm unit :=
  modify (λ s, set_v_mem (store64 (v_mem s) (table + 8 * idx) v) s).

Definition alloc_table : M vmm Z :=
  phys ← in_pmm palloc;
  if phys =? 0 then halt else
  virt ← phys_to_virt phys;
  modify (λ s, set_v_mem (memset_z (v_mem s) virt 0 PAGE_SIZE) s);;
  phys_to_virt phys.

(** [x & ~0xFFFULL] *)
Definition page_base (x : Z) : Z := Z.land x (Z.lnot 0xFFF).

Definition walk_or_alloc (table idx user_bit : Z) : M vmm Z :=
  e ← entry table idx;
  if Z.land e PTE_PRESENT =? 0 then
    child ← alloc_table;
    phys ← virt_to_phys child;
    set_entry table idx (Z.lor (Z.lor (Z.lor (page_base phys) PTE_PRESENT) PTE_WRITABLE) user_bit);;
    mret child
  else
    set_entry table idx (Z.lor e user_bit);;
    e ← entry table idx;
    phys_to_virt (page_base e).

Definition invlpg (virt : Z) : M vmm unit := modify (log_invlpg virt).

(** The value stored in the last-level entry. *)
Definition leaf_entry (phys flags : Z) : Z := Z.lor (Z.lor (page_base phys) flags) PTE_PRESENT.

(** The branch that replaces a 2 MiB mapping by a table of 512 pages. *)
Definition split_huge (pd virt phys flags user_bit : Z) : M vmm unit :=
  e ← entry pd (PD_INDEX virt);
  let huge_phys := Z.land e 0x000FFFFFFFE00000 in
  let huge_flags := Z.land (Z.land e 0xFFF) (Z.lnot PTE_PS) in
  pt ← alloc_table;
  for_loop 512 0 (λ i, set_entry pt i
    (Z.lor (Z.lor (u64 (huge_phys + u64 (i * PAGE_SIZE))) huge_flags) user_bit));;
  pt_phys ← virt_to_phys pt;
  set_entry pd (PD_INDEX virt)
    (Z.lor (Z.lor (Z.lor (page_base pt_phys) PTE_PRESENT) PTE_WRITABLE) user_bit);;
  set_entry pt (PT_INDEX virt) (leaf_entry phys flags);;
  invlpg virt.

Definition map_page (virt phys flags : Z) : M vmm unit :=
  let user_bit := Z.land flags PTE_USER in
  pml4 ← gets kernel_pml4;
  pdpt ← walk_or_alloc pml4 (PML4_INDEX virt) user_bit;
  pd ← walk_or_alloc pdpt (PDPT_INDEX virt) user_bit;
  e ← entry pd (PD_INDEX virt);
  if negb (Z.land e PTE_PS =? 0) then split_huge pd virt phys flags user_bit else
  pt ← walk_or_alloc pd (PD_INDEX virt) user_bit;
  set_entry pt (PT_INDEX virt) (leaf_entry phys flags);;
  invlpg virt.

Definition unmap_page (virt : Z) : M vmm unit :=
  pml4 ← gets kernel_pml4;
  e4 ← entry pml4 (PML4_INDEX virt);
  if Z.land e4 PTE_PRESENT =? 0 then mret tt else
  pdpt ← phys_to_virt (page_base e4);
  e3 ← entry pdpt (PDPT_INDEX virt);
  if Z.land e3 PTE_PRESENT =? 0 then mret tt else
  pd ← phys_to_virt (page_base e3);
  e2 ← entry pd (PD_INDEX virt);
  if Z.land e2 PTE_PRESENT =? 0 then mret tt else
  pt ← phys_to_virt (page_base e2);
  set_entry pt (PT_INDEX virt) 0;;
  invlpg virt.

Definition virt_to_phys_user (virt : Z) : M vmm Z :=
  pml4 ← gets kernel_pml4;
  e4 ← entry pml4 (PML4_INDEX virt);
  if Z.land e4 PTE_PRESENT =? 0 then mret 0 else
  pdpt ← phys_to_virt (Z.land e4 PTE_ADDR_MASK);
  e3 ← entry pdpt (PDPT_INDEX virt);
  if Z.land e3 PTE_PRESENT =? 0 then mret 0 else
  pd ← phys_to_virt (Z.land e3 PTE_ADDR_MASK);
  e2 ← entry pd (PD_INDEX virt);
  if Z.land e2 PTE_PRESENT =? 0 then mret 0 else
  if negb (Z.land e2 PTE_PS =? 0)
  then mret (u64 (Z.land e2 PTE_ADDR_MASK + Z.land virt 0x1FFFFF)) else
  pt ← phys_to_virt (Z.land e2 PTE_ADDR_MASK);
  e1 ← entry pt (PT_INDEX virt);
  if Z.land e1 PTE_PRESENT =? 0 then mret 0 else
  mret (u64 (Z.land e1 PTE_ADDR_MASK + Z.land virt 0xFFF)).

(** [while (p < end) { clflush(p); p += 64; }]; the fuel is the number of
    lines between the two addresses and one more. *)
Fixpoint flush_lines (fuel : nat) (p end_ : Z) : M vmm unit :=
  if end_ <=? p then mret tt else
  match fuel with
  | O => spin
  | S fuel => modify (log_clflush p);; flush_lines fuel (u64 (p + 64)) end_
  end.
Definition phys_flush_cache (addr size : Z) : M vmm unit :=
  let p := Z.land addr (Z.lnot 63) in
  let end_ := u64 (addr + size) in
  flush_lines (S (Z.to_nat ((end_ - p) / 64))) p end_.
Definition phys_invalidate_cache (addr size : Z) : M vmm unit := phys_flush_cache addr size.

Definition get_kernel_pml4 : M vmm Z := gets kernel_pml4.
Definition get_current_cr3 : M vmm Z := gets (λ s, page_base (cpu_cr3 s)).
Definition load_cr3 (cr3_phys : Z) : M vmm unit :=
  modify (set_cr3 cr3_phys);;
  pml4 ← phys_to_virt cr3_phys;
  modify (set_pml4 pml4).
Definition set_kernel_pml4 (pml4 : Z) : M vmm unit := modify (set_pml4 pml4).

Definition vmm_init : M vmm unit :=
  offset ← in_pmm pmm_get_hhdm_offset;
  modify (set_v_hhdm offset);;
  cr3 ← gets cpu_cr3;
  pml4 ← phys_to_virt (page_base cr3);
  modify (set_pml4 pml4).

Definition create_user_stack (size : Z) : M vmm Z :=
  let num_pages := ALIGN_UP size PAGE_SIZE / PAGE_SIZE in
  let stack_bottom := u64 (USER_STACK_TOP - size) in
  for_loop (Z.to_nat num_pages) 0 (λ i,
    phys ← in_pmm palloc;
    map_page (u64 (stack_bottom + u64 (i * PAGE_SIZE))) phys
      (Z.lor (Z.lor PTE_PRESENT PTE_USER) PTE_WRITABLE));;
  mret USER_STACK_TOP.

(** [for (addr = ...; addr < USER_STACK_TOP; addr += PAGE_SIZE)]; the fuel is
    the number of pages below the top and one more. *)
Fixpoint map_stack_loop (fuel : nat) (addr : Z) : M vmm unit :=
  if USER_STACK_TOP <=? addr then mret tt else
  match fuel with
  | O => spin
  | S fuel =>
      phys ← in_pmm palloc;
      map_page addr phys (Z.lor (Z.lor PTE_PRESENT PTE_WRITABLE) PTE_USER);;
      map_stack_loop fuel (u64 (addr + PAGE_SIZE))
  end.
Definition map_user_stack_with_guard (stack_size : Z) : M vmm Z :=
  let stack_bottom := u64 (u64 (USER_STACK_TOP - stack_size) - GUARD_PAGE_SIZE) in
  let addr := u64 (stack_bottom + GUARD_PAGE_SIZE) in
  map_stack_loop (S (Z.to_nat ((USER_STACK_TOP - addr) / PAGE_SIZE + 1))) addr;;
  mret USER_STACK_TOP.
