(* ===== verification/VmmProof.v ===== *)
(** * Correctness of the page tables

    The ghost function [T] gives the page number of the table of level [k]
    (4 = PML4 .. 1 = page table) that serves the virtual pages with prefix
    [pre].  [vm_inv] says that the memory of vmm.c represents the tree [T] and
    that its tables are in use and pairwise different pages.  The theorems are
    proved against the interface of the page allocator (PmmIface.v). *)
From Stdlib Require Import ZArith Lia.
From stdpp Require Import base option gmap list.
From S2P Require Import Prelude Memory Pmm PmmProof PmmIface Vmm.

Abbreviation tables := (Z → Z → option Z).

(** ** Virtual addresses *)

(** The 36-bit virtual page number. *)
Definition vpn (v : Z) : Z := (v / 2 ^ 12) `mod` 2 ^ 36.
(** The prefix of [v] that selects its table of level [k], and its index there. *)
Definition prefix (k v : Z) : Z := vpn v / 2 ^ (9 * k).
Definition index (k v : Z) : Z := (vpn v / 2 ^ (9 * (k - 1))) `mod` 512.

Lemma index_range k v : 0 ≤ index k v < 512.
Proof. apply Z.mod_pos_bound. lia. Qed.
Lemma vpn_range v : 0 ≤ vpn v < 2 ^ 36.
Proof. apply Z.mod_pos_bound. lia. Qed.

Lemma prefix_step k v : 1 ≤ k → prefix (k - 1) v = prefix k v * 512 + index k v.
Proof.
  intros Hk. unfold prefix, index. set (n := 2 ^ (9 * (k - 1))).
  assert (0 < n) by (apply Z.pow_pos_nonneg; lia).
  replace (2 ^ (9 * k)) with (n * 512).
  - rewrite <-Z.div_div by lia. rewrite (Z.div_mod (vpn v / n) 512) at 1; lia.
  - unfold n. change 512 with (2 ^ 9). rewrite <-Z.pow_add_r by lia. f_equal. lia.
Qed.

Lemma prefix_4 v : prefix 4 v = 0.
Proof. unfold prefix. apply Z.div_small. apply vpn_range. Qed.

Lemma prefix_index_vpn v v' : prefix 1 v = prefix 1 v' → index 1 v = index 1 v' → vpn v = vpn v'.
Proof. unfold prefix, index. pose proof (vpn_range v). pose proof (vpn_range v'). zdiv. Qed.

Lemma index_bits v n : 0 ≤ n → Z.land (Z.shiftr v n) 0x1FF = (v / 2 ^ n) `mod` 512.
Proof. intros. change 0x1FF with (2 ^ 9 - 1). rewrite land_ones_mod, Z.shiftr_div_pow2 by lia. done. Qed.

Lemma PML4_INDEX_eq v : PML4_INDEX v = index 4 v.
Proof. unfold PML4_INDEX. rewrite index_bits by lia. unfold index, vpn. zdiv. Qed.
Lemma PDPT_INDEX_eq v : PDPT_INDEX v = index 3 v.
Proof. unfold PDPT_INDEX. rewrite index_bits by lia. unfold index, vpn. zdiv. Qed.
Lemma PD_INDEX_eq v : PD_INDEX v = index 2 v.
Proof. unfold PD_INDEX. rewrite index_bits by lia. unfold index, vpn. zdiv. Qed.
Lemma PT_INDEX_eq v : PT_INDEX v = index 1 v.
Proof. unfold PT_INDEX. rewrite index_bits by lia. unfold index, vpn. zdiv. Qed.

(** ** Entries *)

Definition is_present (e : Z) : bool := Z.testbit e 0.
Definition is_huge (e : Z) : bool := Z.testbit e 7.

#[global] Arguments is_present : simpl never.
#[global] Arguments is_huge : simpl never.

Lemma present_eqb e : (Z.land e PTE_PRESENT =? 0) = negb (is_present e).
Proof. by apply land_bit_eqb. Qed.
Lemma huge_eqb e : (Z.land e PTE_PS =? 0) = negb (is_huge e).
Proof. by apply land_bit_eqb. Qed.

(** The physical address an entry maps. *)
Definition pte_addr (e : Z) : Z := Z.land e PTE_ADDR_MASK.

Lemma page_base_div x : page_base x = x / 2 ^ 12 * 2 ^ 12.
Proof. unfold page_base. change 0xFFF with (2 ^ 12 - 1). by apply land_lnot_ones. Qed.

Lemma page_base_page q : page_base (PAGE_SIZE * q) = PAGE_SIZE * q.
Proof. rewrite page_base_div. unfold PAGE_SIZE. zdiv. Qed.

Lemma page_base_testbit x i : 0 ≤ i → Z.testbit (page_base x) i = (12 <=? i) && Z.testbit x i.
Proof.
  intros Hi. unfold page_base. rewrite Z.land_spec, Z.lnot_spec by done.
  change 0xFFF with (Z.ones 12). rewrite andb_comm. f_equal.
  destruct (Z.leb_spec 12 i); [by rewrite Z.ones_spec_high by lia|by rewrite Z.ones_spec_low by lia].
Qed.

Lemma addr_mask_testbit i : 0 ≤ i → Z.testbit PTE_ADDR_MASK i = (12 <=? i) && (i <? 52).
Proof.
  intros Hi. replace PTE_ADDR_MASK with (Z.ldiff (Z.ones 52) (Z.ones 12)) by done.
  rewrite Z.ldiff_spec. destruct (Z.ltb_spec i 52), (Z.leb_spec 12 i);
    rewrite ?(Z.ones_spec_low 52), ?(Z.ones_spec_high 52), ?(Z.ones_spec_low 12), ?(Z.ones_spec_high 12) by lia; done.
Qed.

Lemma pte_addr_of_base e c :
  page_base e = PAGE_SIZE * c → 0 ≤ c < 2 ^ 40 → pte_addr e = PAGE_SIZE * c.
Proof.
  intros Hb Hc. rewrite <-Hb. apply Z.bits_inj'. intros i Hi.
  unfold pte_addr. rewrite Z.land_spec, addr_mask_testbit, page_base_testbit by done.
  destruct (Z.ltb_spec i 52) as [H|H]; [by rewrite andb_true_r, andb_comm|].
  rewrite andb_false_r, andb_false_r. symmetry. rewrite <-page_base_testbit, Hb by done.
  apply (testbit_high _ 52); unfold PAGE_SIZE; lia.
Qed.

(** An entry that points to the table in page [c]. *)
Definition table_pte (e c : Z) : Prop :=
  is_present e = true ∧ is_huge e = false ∧ page_base e = PAGE_SIZE * c.
Definition no_pte (e : Z) : Prop := is_present e = false ∧ is_huge e = false.
(** A 2 MiB mapping. *)
Definition huge_pte (e : Z) : Prop :=
  is_present e = true ∧ is_huge e = true ∧ pte_addr e `mod` 2 ^ 21 = 0.

(** An entry of a table of level [k] whose subtree is [t]. *)
Definition pte_ok (k e : Z) (t : option Z) : Prop :=
  match t with
  | Some c => table_pte e c
  | None => no_pte e ∨ (k = 2 ∧ huge_pte e)
  end.

Definition user_bit_ok (u : Z) : Prop := u = 0 ∨ u = PTE_USER.
Lemma user_bit_land flags : user_bit_ok (Z.land flags PTE_USER).
Proof.
  unfold user_bit_ok. destruct (Z.testbit flags 2) eqn:E; [right|left].
  - apply Z.bits_inj'. intros i Hi. rewrite Z.land_spec. change PTE_USER with (2 ^ 2).
    rewrite testbit_pow2 by done. destruct (Z.eqb_spec 2 i) as [<-|]; [by rewrite E|apply andb_false_r].
  - apply Z.eqb_eq. unfold PTE_USER. rewrite land_bit_eqb by done. by rewrite E.
Qed.

Lemma user_bit_testbit u i : user_bit_ok u → i ≠ 2 → Z.testbit u i = false.
Proof. intros [-> | ->] Hi; [apply Z.bits_0|]. change PTE_USER with (2 ^ 2). rewrite testbit_pow2 by done. lia. Qed.

Lemma lor_user_table e c u : user_bit_ok u → table_pte e c → table_pte (Z.lor e u) c.
Proof.
  intros Hu (H1 & H2 & H3). unfold table_pte, is_present, is_huge in *.
  rewrite !Z.lor_spec, !(user_bit_testbit u), H1, H2 by done. splits; [done|done|].
  rewrite <-H3. apply Z.bits_inj'. intros i Hi. rewrite !page_base_testbit, Z.lor_spec by done.
  destruct (Z.leb_spec 12 i); [|done]. by rewrite (user_bit_testbit u), orb_false_r by (done || lia).
Qed.

(** The entry stored for a new table. *)
Definition new_pte (c u : Z) : Z := Z.lor (Z.lor (Z.lor (page_base (PAGE_SIZE * c)) PTE_PRESENT) PTE_WRITABLE) u.

Lemma new_pte_ok c u : user_bit_ok u → table_pte (new_pte c u) c.
Proof.
  intros Hu. apply lor_user_table; [done|]. unfold table_pte, is_present, is_huge.
  rewrite !Z.lor_spec, !page_base_testbit by done. splits; [done|done|].
  rewrite <-(page_base_page c) at 2. apply Z.bits_inj'. intros i Hi.
  rewrite !page_base_testbit, !Z.lor_spec, page_base_testbit by done.
  destruct (Z.leb_spec 12 i); [|done]. change PTE_PRESENT with (2 ^ 0). change PTE_WRITABLE with (2 ^ 1).
  rewrite !testbit_pow2 by done. destruct (Z.eqb_spec 0 i), (Z.eqb_spec 1 i); try lia.
  by rewrite !orb_false_r.
Qed.

(** ** The tree in memory *)

Definition pte (s : vmm) (q i : Z) : Z := load64 (v_mem s) (v_hhdm s + PAGE_SIZE * q + 8 * i).

(** The state after [table[i] = e] for the table in page [q]. *)
Definition write_pte (q i e : Z) (s : vmm) : vmm :=
  set_v_mem (store64 (v_mem s) (v_hhdm s + PAGE_SIZE * q + 8 * i) e) s.

Lemma pte_write s q i e q' j :
  0 ≤ i < 512 → 0 ≤ j < 512 → fits 64 e →
  pte (write_pte q i e s) q' j = if decide (q' = q ∧ j = i) then e else pte s q' j.
Proof.
  intros Hi Hj He. unfold pte, write_pte, v_mem. cbn. case_decide as H.
  - destruct H as [-> ->]. rewrite load64_store64_eq. by apply u64_small.
  - apply load64_store64_ne. unfold PAGE_SIZE in *. lia.
Qed.

Definition upd2 (T : tables) (k pre c : Z) : tables :=
  λ k' pre', if decide (k' = k ∧ pre' = pre) then Some c else T k' pre'.

(** Evaluates the level of a child. *)
Ltac levels := change (4 - 1) with 3 in *; change (3 - 1) with 2 in *; change (2 - 1) with 1 in *.

Section paging.
Context {inv : pmm → (Z → Prop) → Prop} `{!PageAllocator inv}.

(** A page that may hold a table: allocated, and not the allocator's own. *)
Definition table_page (s : pmm) (F : Z → Prop) (q : Z) : Prop :=
  0 < q < pmm_max_page s ∧ ¬ F q ∧ off_bitmap s q.

Record vm_inv (s : vmm) (F : Z → Prop) (T : tables) : Prop := {
  vi_alloc : inv (v_pmm s) F;
  vi_hhdm : v_hhdm s = hhdm_offset (v_pmm s);
  vi_phys : pmm_max_page (v_pmm s) ≤ 2 ^ 40;
  vi_root : ∃ r, T 4 0 = Some r ∧ kernel_pml4 s = v_hhdm s + PAGE_SIZE * r;
  vi_level : ∀ k pre q, T k pre = Some q → 1 ≤ k ≤ 4 ∧ 0 ≤ pre ∧ (k = 4 → pre = 0);
  vi_page : ∀ k pre q, T k pre = Some q → table_page (v_pmm s) F q;
  vi_inj : ∀ k pre k' pre' q, T k pre = Some q → T k' pre' = Some q → k = k' ∧ pre = pre';
  vi_parent : ∀ k pre q, T k pre = Some q → k < 4 → is_Some (T (k + 1) (pre / 512));
  vi_entries : ∀ k pre q i, 2 ≤ k → T k pre = Some q → 0 ≤ i < 512 →
    pte_ok k (pte s q i) (T (k - 1) (pre * 512 + i));
}.

(** Addresses of a table page are not the allocator's. *)
Lemma table_not_private s F q a :
  inv s F → table_page s F q → in_page s q a → ¬ private s F a.
Proof.
  intros HI (Hq & HF & Hoff) Ha [Hb|(x & Hx & Hax)].
  - unfold off_bitmap, in_bitmap, in_page in *. lia.
  - assert (x = q) as -> by (unfold in_page, PAGE_SIZE in *; lia). done.
Qed.

Lemma table_addr s F q : inv s F → 0 ≤ q < pmm_max_page s →
  0 ≤ hhdm_offset s + PAGE_SIZE * q ∧ hhdm_offset s + PAGE_SIZE * q + PAGE_SIZE < 2 ^ 64.
Proof. intros HI Hq. destruct (pa_window _ _ HI) as (? & ? & ?). unfold PAGE_SIZE in *. lia. Qed.

(** Changing only bytes of one table page keeps the allocator. *)
Lemma alloc_write_table s F q m :
  inv s F → table_page s F q →
  (∀ a, ¬ in_page s q a → load8 m a = load8 (pmm_mem s) a) → inv (set_pmm_mem m s) F.
Proof.
  intros HI Hq Hm. apply pa_write; [done|]. intros a Ha. apply Hm. intros Hin.
  by eapply table_not_private.
Qed.

Lemma alloc_write_pte s F q i e :
  inv (v_pmm s) F → v_hhdm s = hhdm_offset (v_pmm s) → table_page (v_pmm s) F q → 0 ≤ i < 512 →
  inv (v_pmm (write_pte q i e s)) F.
Proof.
  intros HI Hh Hq Hi. cbn. eapply alloc_write_table; [done|done|].
  intros a Ha. apply load8_store64_ne. rewrite Hh. unfold in_page, PAGE_SIZE in *. lia.
Qed.

(** ** Effect of a store to an entry on the invariant *)

Lemma vm_inv_write s F T k pre q i e :
  vm_inv s F T → T k pre = Some q → 0 ≤ i < 512 → fits 64 e →
  (2 ≤ k → pte_ok k e (T (k - 1) (pre * 512 + i))) → vm_inv (write_pte q i e s) F T.
Proof.
  intros HV Hq Hi He Hok. split; try by destruct HV.
  - apply alloc_write_pte; try by destruct HV. by eapply vi_page.
  - intros k' pre' q' j Hk' Hq' Hj. rewrite pte_write by done. case_decide as Hx.
    + destruct Hx as [-> ->]. destruct (vi_inj _ _ _ HV k' pre' k pre q) as [-> ->]; auto.
    + by apply (vi_entries _ _ _ HV).
Qed.

(** Linking a fresh table under an entry that had none. *)
Lemma vm_inv_link s F T k pre q i c e :
  vm_inv s F T → T k pre = Some q → 2 ≤ k → 0 ≤ i < 512 → fits 64 e →
  T (k - 1) (pre * 512 + i) = None → table_pte e c →
  table_page (v_pmm s) F c → (∀ k pre, T k pre ≠ Some c) →
  (2 < k → ∀ j, 0 ≤ j < 512 → no_pte (pte s c j)) →
  vm_inv (write_pte q i e s) F (upd2 T (k - 1) (pre * 512 + i) c).
Proof.
  intros HV Hq Hk Hi He HN Hpte Hc Hfresh Hzero.
  destruct (vi_level _ _ _ HV _ _ _ Hq) as (Hk4 & Hpre & Hroot).
  assert (Hcase : ∀ k' pre' x, upd2 T (k - 1) (pre * 512 + i) c k' pre' = Some x →
    (k' = k - 1 ∧ pre' = pre * 512 + i ∧ x = c) ∨ T k' pre' = Some x).
  { intros k' pre' x. unfold upd2. case_decide as H; [|by right]. destruct H. intros [= <-]. by left. }
  assert (Hkeep : ∀ k' pre' x, T k' pre' = Some x → upd2 T (k - 1) (pre * 512 + i) c k' pre' = Some x).
  { intros k' pre' x Hx. unfold upd2. case_decide as H; [|done]. destruct H; subst. congruence. }
  split; try by destruct HV.
  - apply alloc_write_pte; try by destruct HV. by eapply vi_page.
  - destruct (vi_root _ _ _ HV) as (r & Hr & ?). exists r. split; [by apply Hkeep|done].
  - intros k' pre' x [(-> & -> & ->)|Hx]%Hcase; [lia|by eapply vi_level].
  - intros k' pre' x [(-> & -> & ->)|Hx]%Hcase; [done|by eapply (vi_page _ _ _ HV)].
  - intros k1 p1 k2 p2 x [(-> & -> & ->)|H1]%Hcase [(-> & -> & E)|H2]%Hcase; [done| | |].
    + by destruct (Hfresh _ _ H2).
    + subst x. by destruct (Hfresh _ _ H1).
    + by eapply (vi_inj _ _ _ HV).
  - intros k' pre' x [(-> & -> & ->)|Hx]%Hcase Hlt.
    + replace (k - 1 + 1) with k by lia. replace ((pre * 512 + i) / 512) with pre by zdiv.
      exists q. by apply Hkeep.
    + destruct (vi_parent _ _ _ HV _ _ _ Hx Hlt) as [y Hy]. exists y. by apply Hkeep.
  - intros k' pre' x j Hk' [(-> & -> & ->)|Hx]%Hcase Hj; rewrite pte_write by done.
    + rewrite decide_False by (intros [-> _]; by eapply Hfresh).
      unfold upd2. rewrite decide_False by lia.
      destruct (T (k - 1 - 1) _) as [y|] eqn:Ey; [|left; apply Hzero; [lia|done]].
      destruct (vi_parent _ _ _ HV _ _ _ Ey) as [z Hz]; [lia|].
      replace (k - 1 - 1 + 1) with (k - 1) in Hz by lia.
      replace (((pre * 512 + i) * 512 + j) / 512) with (pre * 512 + i) in Hz by zdiv. congruence.
    + case_decide as Hd.
      * destruct Hd as [-> ->]. destruct (vi_inj _ _ _ HV k' pre' k pre q Hx Hq) as [-> ->].
        unfold upd2. by rewrite decide_True.
      * pose proof (vi_entries _ _ _ HV k' pre' x j Hk' Hx Hj) as Hent.
        unfold upd2. case_decide as Hd'; [|done]. exfalso. destruct Hd' as [E1 E2].
        assert (k' = k) as -> by lia. assert (pre' = pre) as -> by lia. assert (j = i) by lia.
        apply Hd. split; congruence.
Qed.

(** ** Translation *)

(** The physical address the tree gives to [v]. *)
Definition xlate (s : vmm) (T : tables) (v : Z) : option Z :=
  match T 1 (prefix 1 v) with
  | Some pt =>
      let e := pte s pt (index 1 v) in
      if is_present e then Some (u64 (pte_addr e + v `mod` 2 ^ 12)) else None
  | None =>
      match T 2 (prefix 2 v) with
      | Some pd =>
          let e := pte s pd (index 2 v) in
          if is_present e then Some (u64 (pte_addr e + v `mod` 2 ^ 21)) else None
      | None => None
      end
  end.

(** Reading the entry for [v] of the table of level [k]. *)
Lemma entry_pte s q i : entry (v_hhdm s + PAGE_SIZE * q) i s = Ok (pte s q i, s).
Proof. done. Qed.

Lemma child_virt s F T k pre c e :
  vm_inv s F T → T k pre = Some c → table_pte e c →
  phys_to_virt (pte_addr e) s = Ok (v_hhdm s + PAGE_SIZE * c, s) ∧
  phys_to_virt (page_base e) s = Ok (v_hhdm s + PAGE_SIZE * c, s).
Proof.
  intros HV Hc (_ & _ & Hb). destruct (vi_page _ _ _ HV _ _ _ Hc) as (Hr & _).
  pose proof (vi_phys _ _ _ HV). pose proof (vi_hhdm _ _ _ HV) as Hh.
  destruct (table_addr _ _ c (vi_alloc _ _ _ HV)) as [H1 H2]; [lia|].
  rewrite (pte_addr_of_base e c Hb) by lia. rewrite Hb. unfold phys_to_virt, gets.
  rewrite (Z.add_comm (PAGE_SIZE * c)), u64_small; [done|]. rewrite Hh. unfold PAGE_SIZE in *. lia.
Qed.

(** One level of a walk: either the entry has no table, or the walk goes on in
    the child. *)
Lemma walk_level s F T k v q :
  vm_inv s F T → 2 ≤ k → T k (prefix k v) = Some q →
  pte_ok k (pte s q (index k v)) (T (k - 1) (prefix (k - 1) v)).
Proof.
  intros HV Hk Hq. rewrite prefix_step by lia. apply (vi_entries _ _ _ HV); [done|done|].
  apply index_range.
Qed.

Lemma no_child_below s F T k v :
  vm_inv s F T → 1 ≤ k < 4 → T k (prefix k v) = None → 1 < k → T (k - 1) (prefix (k - 1) v) = None.
Proof.
  intros HV Hk HN H1. destruct (T (k - 1) (prefix (k - 1) v)) as [x|] eqn:E; [|done].
  destruct (vi_parent _ _ _ HV _ _ _ E) as [y Hy]; [lia|].
  rewrite prefix_step in Hy by lia. replace (k - 1 + 1) with k in Hy by lia.
  replace ((prefix k v * 512 + index k v) / 512) with (prefix k v) in Hy
    by (pose proof (index_range k v); zdiv). congruence.
Qed.

Lemma no_pte_none k e t : pte_ok k e t → is_present e = false → t = None.
Proof. destruct t; [|done]. intros (H & _). congruence. Qed.

Lemma present_table k e t : pte_ok k e t → is_present e = true → k ≠ 2 → ∃ c, t = Some c ∧ table_pte e c.
Proof. destruct t as [c|]; [by exists c|]. intros [[H _]|[? _]]; [congruence|done]. Qed.

Lemma land_low v n : 0 ≤ n → Z.land v (2 ^ n - 1) = v `mod` 2 ^ n.
Proof. apply land_ones_mod. Qed.

Lemma virt_to_phys_user_xlate s F T v :
  vm_inv s F T → virt_to_phys_user v s = Ok (default 0 (xlate s T v), s).
Proof.
  intros HV. destruct (vi_root _ _ _ HV) as (r & Hr & Epml4). rewrite <-(prefix_4 v) in Hr.
  unfold virt_to_phys_user. mstep. rewrite Epml4, PML4_INDEX_eq, PDPT_INDEX_eq, PD_INDEX_eq, PT_INDEX_eq.
  change 0xFFF with (2 ^ 12 - 1). change 0x1FFFFF with (2 ^ 21 - 1). rewrite !land_low by done.
  mstep with (entry_pte s r (index 4 v)). rewrite present_eqb.
  pose proof (walk_level s F T 4 v r HV ltac:(lia) Hr) as H4. levels.
  destruct (is_present (pte s r (index 4 v))) eqn:P4; cbn.
  2:{ apply no_pte_none in H4; [|done]. pose proof (no_child_below s F T 3 v HV ltac:(lia) H4 ltac:(lia)) as H2.
      pose proof (no_child_below s F T 2 v HV ltac:(lia) H2 ltac:(lia)) as H1.
      levels. unfold xlate. by rewrite H1, H2. }
  destruct (present_table _ _ _ H4 P4) as (c3 & T3 & He4); [done|].
  mstep with (proj1 (child_virt s F T _ _ c3 _ HV T3 He4)). mstep with (entry_pte s c3 (index 3 v)).
  rewrite present_eqb.
  pose proof (walk_level s F T 3 v c3 HV ltac:(lia) T3) as H3. levels.
  destruct (is_present (pte s c3 (index 3 v))) eqn:P3; cbn.
  2:{ apply no_pte_none in H3; [|done]. pose proof (no_child_below s F T 2 v HV ltac:(lia) H3 ltac:(lia)) as H1.
      levels. unfold xlate. by rewrite H1, H3. }
  destruct (present_table _ _ _ H3 P3) as (c2 & T2 & He3); [done|].
  mstep with (proj1 (child_virt s F T _ _ c2 _ HV T2 He3)). mstep with (entry_pte s c2 (index 2 v)).
  rewrite present_eqb, huge_eqb.
  pose proof (walk_level s F T 2 v c2 HV ltac:(lia) T2) as H2. levels.
  unfold xlate. destruct (T 1 (prefix 1 v)) as [c1|] eqn:T1.
  - pose proof H2 as (P2 & U2 & _). rewrite P2, U2. cbn.
    mstep with (proj1 (child_virt s F T _ _ c1 _ HV T1 H2)). mstep with (entry_pte s c1 (index 1 v)).
    rewrite present_eqb. by destruct (is_present (pte s c1 (index 1 v))).
  - rewrite T2. destruct H2 as [[P2 U2]|(_ & P2 & U2 & _)]; rewrite P2; [done|]. by rewrite U2.
Qed.
End paging.
