(* ===== verification/VmmMap.v ===== *)
(** * Mapping and unmapping pages

    [map_page] and [unmap_page] of src/kernel/main/mm/vmm.c change the
    translation of exactly one page and keep the invariant of VmmProof.v. *)
From Stdlib Require Import ZArith Lia.
From stdpp Require Import base option gmap list.
From S2P Require Import Prelude Memory Pmm PmmProof PmmIface Vmm VmmProof.

(** The processor and the roots are as before. *)
Definition quiet (s s' : vmm) : Prop :=
  kernel_pml4 s' = kernel_pml4 s ∧ v_hhdm s' = v_hhdm s ∧ cpu_cr3 s' = cpu_cr3 s ∧
  invlpg_log s' = invlpg_log s.

Lemma quiet_trans s s' s'' : quiet s s' → quiet s' s'' → quiet s s''.
Proof. intros (?&?&?&?) (?&?&?&?). unfold quiet. splits; congruence. Qed.
Lemma quiet_write s q i e : quiet s (write_pte q i e s).
Proof. done. Qed.

(** At least [n] pages are free. *)
Definition spare (n : nat) (F : Z → Prop) : Prop :=
  ∃ l : list Z, length l = n ∧ NoDup l ∧ ∀ x, x ∈ l → F x.

Lemma spare_none n F : spare (S n) F → ¬ ∀ x, ¬ F x.
Proof. intros ([|x l] & Hl & _ & H) HN; [done|]. apply (HN x), H. left. Qed.

Lemma spare_less n F : spare (S n) F → spare n F.
Proof.
  intros ([|x l] & Hl & Hnd & H); [done|]. exists l. splits; [by injection Hl|by apply NoDup_cons in Hnd as [_ ?]|].
  intros y Hy. apply H. by right.
Qed.

Lemma spare_remove n (F F' : Z → Prop) c :
  (∀ x, F x → x ≠ c → F' x) → spare (S n) F → spare n F'.
Proof.
  intros HF (l & Hl & Hnd & H). destruct (decide (c ∈ l)) as [Hc|Hc].
  - apply list_elem_of_split in Hc as (l1 & l2 & ->). exists (l1 ++ l2).
    rewrite !length_app in *. cbn in Hl. apply NoDup_app in Hnd as (N1 & N2 & [N3 N4]%NoDup_cons).
    splits; [lia|apply NoDup_app; set_solver|].
    intros x Hx. apply HF; [apply H; set_solver|]. intros ->. set_solver.
  - apply (spare_less n). exists l. splits; [done|done|]. intros x Hx. apply HF; [by apply H|]. by intros ->.
Qed.

Section mapping.
Context {inv : pmm → (Z → Prop) → Prop} `{!PageAllocator inv}.
Abbreviation vm_inv := (vm_inv (inv := inv)).

(** ** Frames *)

(** The memory that belongs to the allocator and to the page tables. *)
Definition vm_private (s : vmm) (F : Z → Prop) (T : tables) (a : Z) : Prop :=
  private (v_pmm s) F a ∨ ∃ k pre q, T k pre = Some q ∧ in_page (v_pmm s) q a.

(** Nothing else is changed, and tables are made from free pages only. *)
Record vm_frame (s : vmm) (F : Z → Prop) (T : tables) (s' : vmm) (F' : Z → Prop) (T' : tables) : Prop := {
  vf_layout : pmm_layout (v_pmm s) (v_pmm s');
  vf_mem : ∀ a, ¬ vm_private s F T a → load8 (v_mem s') a = load8 (v_mem s) a;
  vf_own : ∀ a, vm_private s' F' T' a → vm_private s F T a;
}.

Lemma vm_frame_trans s1 F1 T1 s2 F2 T2 s3 F3 T3 :
  vm_frame s1 F1 T1 s2 F2 T2 → vm_frame s2 F2 T2 s3 F3 T3 → vm_frame s1 F1 T1 s3 F3 T3.
Proof.
  intros [L1 M1 O1] [L2 M2 O2]. split; [by eapply pmm_layout_trans| |auto].
  intros a Ha. rewrite M2, M1; auto.
Qed.
Lemma in_page_layout s s' q a : pmm_layout s s' → in_page s' q a ↔ in_page s q a.
Proof. intros (_ & _ & E). unfold in_page. by rewrite E. Qed.
Lemma private_shrinks s s' (F F' : Z → Prop) a : pmm_layout s s' → (∀ x, F' x → F x) → private s' F' a → private s F a.
Proof.
  intros HL HF [Hb|(q & Hq & Ha)]; [left|right; exists q; split; [auto|by apply (in_page_layout s s')]].
  destruct HL as (E1 & E2 & E3). unfold in_bitmap, bitmap_len in *. by rewrite E1, E2 in Hb.
Qed.
Lemma in_pte_page s q i a : v_hhdm s = hhdm_offset (v_pmm s) → 0 ≤ i < 512 →
  v_hhdm s + PAGE_SIZE * q + 8 * i ≤ a < v_hhdm s + PAGE_SIZE * q + 8 * i + 8 → in_page (v_pmm s) q a.
Proof. intros -> Hi Ha. unfold in_page, PAGE_SIZE in *. lia. Qed.
Lemma load8_write_pte s q i e a : v_hhdm s = hhdm_offset (v_pmm s) → 0 ≤ i < 512 → ¬ in_page (v_pmm s) q a →
  load8 (v_mem (write_pte q i e s)) a = load8 (v_mem s) a.
Proof.
  intros Hh Hi Ha. apply load8_store64_ne. destruct (decide (v_hhdm s + PAGE_SIZE * q + 8 * i ≤ a < v_hhdm s + PAGE_SIZE * q + 8 * i + 8)).
  - destruct Ha. by eapply in_pte_page.
  - lia.
Qed.

(** A new table [c] out of the free pages. *)
Lemma vm_frame_link s F T s' F' k pre c :
  pmm_layout (v_pmm s) (v_pmm s') → (∀ x, F' x → F x) → F c →
  (∀ a, ¬ vm_private s F T a → load8 (v_mem s') a = load8 (v_mem s) a) → vm_frame s F T s' F' (upd2 T k pre c).
Proof.
  intros HL HF Hc Hm. split; [done|done|]. intros a [Ha|(k' & pre' & q & Hq & Ha)].
  - left. by eapply private_shrinks.
  - apply (in_page_layout _ _ _ _ HL) in Ha. unfold upd2 in Hq. case_decide.
    + injection Hq as <-. left. right. by exists c.
    + right. by exists k', pre', q.
Qed.

Lemma vm_inv_transport s s' F F' T :
  vm_inv s F T → inv (v_pmm s') F' → pmm_layout (v_pmm s) (v_pmm s') → quiet s s' →
  (∀ x, F' x → F x) →
  (∀ k pre q i, T k pre = Some q → 0 ≤ i < 512 → pte s' q i = pte s q i) → vm_inv s' F' T.
Proof.
  intros HV HI (L1 & L2 & L3) (Q1 & Q2 & _) HF Hpte. split; try by destruct HV.
  - rewrite Q2, L3. by destruct HV.
  - rewrite L2. by destruct HV.
  - rewrite Q1, Q2. by destruct HV.
  - intros k pre q Hq. destruct (vi_page _ _ _ HV _ _ _ Hq) as (Hr & HnF & Hoff).
    unfold table_page, off_bitmap, bitmap_len in *. rewrite L1, L2, L3. splits; [lia|lia|auto|done].
  - intros k pre q i Hk Hq Hi. rewrite (Hpte _ _ _ _ Hq Hi). by apply (vi_entries _ _ _ HV).
Qed.

(** ** New tables *)

Record fresh_table (s : vmm) (F : Z → Prop) (T : tables) (c : Z) (s' : vmm) (F' : Z → Prop) : Prop := {
  ft_inv : vm_inv s' F' T;
  ft_was : F c;
  ft_free : ∀ x, F' x ↔ F x ∧ x ≠ c;
  ft_page : table_page (v_pmm s') F' c;
  ft_new : ∀ k pre, T k pre ≠ Some c;
  ft_zero : ∀ i, 0 ≤ i < 512 → pte s' c i = 0;
  ft_old : ∀ k pre q i, T k pre = Some q → 0 ≤ i < 512 → pte s' q i = pte s q i;
  ft_layout : pmm_layout (v_pmm s) (v_pmm s');
  ft_quiet : quiet s s';
  ft_mem : ∀ a, ¬ private (v_pmm s) F a → load8 (v_mem s') a = load8 (v_mem s) a;
}.

Lemma alloc_table_spec s F T :
  vm_inv s F T →
  (alloc_table s = Halt ∧ ∀ q, ¬ F q) ∨
  (∃ c s' F', alloc_table s = Ok (v_hhdm s + PAGE_SIZE * c, s') ∧ fresh_table s F T c s' F').
Proof.
  intros HV. pose proof (vi_alloc _ _ _ HV) as HI. pose proof (vi_hhdm _ _ _ HV) as Hh.
  unfold alloc_table, in_pmm.
  destruct (pa_palloc _ _ HI) as [[E HN]|(c & p1 & F' & E & HF & HI1 & HF' & Hlay & Hframe)].
  { left. split; [|done]. unfold mbind, M_bind, zoom. by rewrite E. }
  right. destruct (pa_free _ _ _ HI HF) as [Hc Hoff].
  assert (Eaddr : u64 (PAGE_SIZE * c + v_hhdm s) = v_hhdm s + PAGE_SIZE * c).
  { destruct (table_addr _ _ c HI) as [A1 A2]; [lia|]. rewrite u64_small; [lia|].
    rewrite Hh. unfold PAGE_SIZE in *. lia. }
  assert (Enz : (PAGE_SIZE * c =? 0) = false) by (unfold PAGE_SIZE; lia).
  set (s1 := set_v_pmm p1 s).
  set (s2 := set_v_mem (memset_z (v_mem s1) (v_hhdm s + PAGE_SIZE * c) 0 PAGE_SIZE) s1).
  pose proof Hlay as (L1 & L2 & L3).
  assert (Hcp : table_page p1 F' c).
  { unfold table_page, off_bitmap, bitmap_len in *. rewrite L1, L2, L3. splits; [lia|lia| |done].
    rewrite HF'. tauto. }
  assert (Hother : ∀ k pre q, T k pre = Some q → q ≠ c).
  { intros k pre q Hq ->. by destruct (vi_page _ _ _ HV _ _ _ Hq) as (_ & ? & _). }
  assert (Hold : ∀ k pre q i, T k pre = Some q → 0 ≤ i < 512 → pte s2 q i = pte s q i).
  { intros k pre q i Hq Hi. pose proof (Hother _ _ _ Hq). unfold pte, s2. cbn.
    rewrite load64_memset_ne by (unfold PAGE_SIZE; lia). apply load_ext. intros b Hb. apply Hframe.
    eapply table_not_private; [done|by eapply vi_page|]. rewrite Hh in Hb. unfold in_page, PAGE_SIZE in *. lia. }
  exists c, s2, F'. split.
  - assert (Ez : zoom v_pmm set_v_pmm palloc s = Ok (PAGE_SIZE * c, s1)) by (unfold zoom; by rewrite E).
    mstep with Ez. rewrite Enz. mstep. mstep. unfold phys_to_virt, gets. cbn. by rewrite Eaddr.
  - constructor; [|exact HF|exact HF'|exact Hcp| | |exact Hold|exact Hlay|done|].
    + eapply (vm_inv_transport s s2); [exact HV| |exact Hlay|done| |exact Hold].
      * apply (alloc_write_table p1 F' c); [exact HI1|exact Hcp|]. intros a Ha. cbn. rewrite load8_memset_z, decide_False; [done|].
        unfold in_page in Ha. rewrite L3, <-Hh in Ha. unfold PAGE_SIZE in Ha |- *. lia.
      * intros x Hx%HF'. tauto.
    + intros k pre Hq. by apply (Hother _ _ _ Hq).
    + intros i Hi. unfold pte, s2. cbn. apply load64_memset_zero; unfold PAGE_SIZE; lia.
    + intros a Ha. unfold s2. cbn. rewrite load8_memset_z. case_decide as Hd; [|by apply Hframe].
      destruct Ha. right. exists c. split; [done|]. unfold in_page. rewrite <-Hh. unfold PAGE_SIZE in *. lia.
Qed.

(** ** Translations under a store to an upper entry *)

(** A store to an entry of a table other than [q'] is not seen in [q']. *)
Lemma pte_write_other s F T k pre q i e k' pre' q' j :
  vm_inv s F T → T k pre = Some q → T k' pre' = Some q' → 0 ≤ i < 512 → 0 ≤ j < 512 → fits 64 e →
  ¬ (k' = k ∧ pre' = pre ∧ j = i) → pte (write_pte q i e s) q' j = pte s q' j.
Proof.
  intros HV Hq Hq' Hi Hj He Hne. rewrite pte_write by done. rewrite decide_False; [done|].
  intros [-> ->]. destruct (vi_inj _ _ _ HV _ _ _ _ _ Hq Hq'). apply Hne. splits; congruence.
Qed.

Lemma prefix_1_of w : prefix 1 w = prefix 2 w * 512 + index 2 w.
Proof. apply (prefix_step 2). lia. Qed.

Lemma xlate_write_upper s F T k pre q i e c w :
  vm_inv s F T → T k pre = Some q → 2 ≤ k → 0 ≤ i < 512 → fits 64 e →
  T (k - 1) (pre * 512 + i) = Some c →
  xlate (write_pte q i e s) T w = xlate s T w.
Proof.
  intros HV Hq Hk Hi He Hc. unfold xlate. pose proof (index_range 1 w). pose proof (index_range 2 w).
  destruct (T 1 (prefix 1 w)) as [pt|] eqn:T1.
  - by rewrite (pte_write_other s F T k pre q i e 1 _ pt _ HV Hq T1) by (done || lia).
  - destruct (T 2 (prefix 2 w)) as [pd|] eqn:T2; [|done].
    rewrite (pte_write_other s F T k pre q i e 2 _ pd _ HV Hq T2); [done|done|done|done|].
    intros (<- & <- & <-). rewrite prefix_1_of in T1. change (2 - 1) with 1 in Hc. congruence.
Qed.

Lemma no_table_xlate s F T k pre q i w :
  vm_inv s F T → T k pre = Some q → 2 ≤ k ≤ 3 → 0 ≤ i < 512 →
  no_pte (pte s q i) → T (k - 1) (pre * 512 + i) = None →
  prefix (k - 1) w = pre * 512 + i → xlate s T w = None.
Proof.
  intros HV Hq Hk Hi [Hno _] HN Hw. unfold xlate.
  destruct (decide (k = 2)) as [->|Hk2].
  - change (2 - 1) with 1 in *. rewrite Hw, HN. rewrite prefix_1_of in Hw. pose proof (index_range 2 w).
    assert (prefix 2 w = pre) as -> by lia. assert (index 2 w = i) as -> by lia. by rewrite Hq, Hno.
  - assert (k = 3) as -> by lia. change (3 - 1) with 2 in *.
    pose proof (no_child_below s F T 2 w HV ltac:(lia)) as H1. change (2 - 1) with 1 in H1.
    rewrite Hw in H1. rewrite H1 by (done || lia). by rewrite Hw, HN.
Qed.

Lemma xlate_link s F T k pre q i c e w :
  vm_inv s F T → T k pre = Some q → 2 ≤ k → 0 ≤ i < 512 → fits 64 e →
  T (k - 1) (pre * 512 + i) = None → no_pte (pte s q i) → (∀ k pre, T k pre ≠ Some c) →
  (∀ j, 0 ≤ j < 512 → pte s c j = 0) →
  xlate (write_pte q i e s) (upd2 T (k - 1) (pre * 512 + i) c) w = xlate s T w.
Proof.
  intros HV Hq Hk Hi He HN Hno Hfresh Hzero. destruct (vi_level _ _ _ HV _ _ _ Hq) as (Hk4 & _).
  pose proof (index_range 1 w). pose proof (index_range 2 w).
  assert (Hc : ∀ j, 0 ≤ j < 512 → pte (write_pte q i e s) c j = 0).
  { intros j Hj. rewrite pte_write by done. rewrite decide_False; [by apply Hzero|].
    intros [-> _]. by eapply Hfresh. }
  destruct (decide (2 ≤ k ≤ 3 ∧ prefix (k - 1) w = pre * 512 + i)) as [[Hk3 Hw]|Hne].
  - rewrite (no_table_xlate s F T k pre q i w) by done. unfold xlate, upd2.
    destruct (decide (k = 2)) as [->|Hk2]; [|assert (k = 3) as -> by lia]; levels; rewrite Hw.
    + by rewrite decide_True, Hc by done.
    + rewrite decide_False by lia. pose proof (no_child_below s F T 2 w HV ltac:(lia)) as H1.
      levels. rewrite Hw in H1. rewrite H1 by (done || lia). by rewrite decide_True, Hc by done.
  - unfold xlate. assert (Hsame : ∀ j, 1 ≤ j ≤ 2 → upd2 T (k - 1) (pre * 512 + i) c j (prefix j w) = T j (prefix j w)).
    { intros j Hj. unfold upd2. rewrite decide_False; [done|]. intros [-> Hx]. apply Hne. lia. }
    rewrite !Hsame by lia. destruct (T 1 (prefix 1 w)) as [pt|] eqn:T1.
    + by rewrite (pte_write_other s F T k pre q i e 1 _ pt _ HV Hq T1) by (done || lia).
    + destruct (T 2 (prefix 2 w)) as [pd|] eqn:T2; [|done].
      rewrite (pte_write_other s F T k pre q i e 2 _ pd _ HV Hq T2); [done|done|done|done|].
      intros (<- & <- & <-). apply Hne. levels. by rewrite <-prefix_1_of.
Qed.

Lemma xlate_same s s' T w :
  (∀ k pre q i, T k pre = Some q → 0 ≤ i < 512 → pte s' q i = pte s q i) →
  xlate s' T w = xlate s T w.
Proof.
  intros H. unfold xlate. destruct (T 1 (prefix 1 w)) as [pt|] eqn:T1.
  - by rewrite (H _ _ _ _ T1) by apply index_range.
  - destruct (T 2 (prefix 2 w)) as [pd|] eqn:T2; [|done].
    by rewrite (H _ _ _ _ T2) by apply index_range.
Qed.

(** ** Walking down, creating the missing table *)

Record walk_post (s : vmm) (F : Z → Prop) (T : tables) (k v c : Z)
    (s' : vmm) (F' : Z → Prop) (T' : tables) : Prop := {
  wp_inv : vm_inv s' F' T';
  wp_child : T' (k - 1) (prefix (k - 1) v) = Some c;
  wp_keeps : ∀ j pre q, T j pre = Some q → T' j pre = Some q;
  wp_other : ∀ j pre, j ≠ k - 1 → T' j pre = T j pre;
  wp_xlate : ∀ w, xlate s' T' w = xlate s T w;
  wp_free : ∀ x, F' x → F x;
  wp_cost : ∀ n, spare (S n) F → spare n F';
  wp_quiet : quiet s s';
  wp_frame : vm_frame s F T s' F' T';
}.

Lemma vm_frame_write s F T k pre q i e :
  vm_inv s F T → T k pre = Some q → 0 ≤ i < 512 → vm_frame s F T (write_pte q i e s) F T.
Proof.
  intros HV Hq Hi. split; [done| |by intros a Ha]. intros a Ha. apply load8_write_pte; [apply HV|done|].
  intros Hin. apply Ha. right. by exists k, pre, q.
Qed.

Lemma lor_user_fits e u : fits 64 e → user_bit_ok u → fits 64 (Z.lor e u).
Proof. intros He Hu. apply lor_fits; [done|done|]. destruct Hu as [-> | ->]; done. Qed.

Lemma new_pte_fits c u : 0 ≤ c < 2 ^ 40 → user_bit_ok u → fits 64 (new_pte c u).
Proof.
  intros Hc Hu. unfold new_pte. rewrite page_base_page. apply lor_fits; [done| |by destruct Hu as [-> | ->]].
  apply lor_fits; [done| |done]. apply lor_fits; [done| |done]. unfold fits, PAGE_SIZE. lia.
Qed.

Lemma write_pte_entry s q i e : set_entry (v_hhdm s + PAGE_SIZE * q) i e s = Ok (tt, write_pte q i e s).
Proof. done. Qed.

Lemma walk_present s F T k v q c u :
  vm_inv s F T → 2 ≤ k → T k (prefix k v) = Some q → user_bit_ok u →
  T (k - 1) (prefix (k - 1) v) = Some c →
  ∃ s', walk_or_alloc (v_hhdm s + PAGE_SIZE * q) (index k v) u s = Ok (v_hhdm s + PAGE_SIZE * c, s') ∧
    walk_post s F T k v c s' F T.
Proof.
  intros HV Hk Hq Hu Hc. pose proof (walk_level s F T k v q HV Hk Hq) as He. rewrite Hc in He.
  pose proof (index_range k v) as Hi. set (e := pte s q (index k v)) in *.
  assert (Hf : fits 64 (Z.lor e u)) by (apply lor_user_fits; [apply load64_range|done]).
  pose proof (lor_user_table e c u Hu He) as He'.
  assert (Hpre : prefix (k - 1) v = prefix k v * 512 + index k v) by (apply prefix_step; lia).
  set (s' := write_pte q (index k v) (Z.lor e u) s).
  assert (HV' : vm_inv s' F T).
  { eapply vm_inv_write; [done|done|done|done|]. intros _. by rewrite <-Hpre, Hc. }
  exists s'. split.
  - unfold walk_or_alloc. mstep with (entry_pte s q (index k v)). fold e. rewrite present_eqb.
    destruct He as (He & _). rewrite He. cbn [negb]. mstep with (write_pte_entry s q (index k v) (Z.lor e u)).
    fold s'. mstep with (entry_pte s' q (index k v)).
    unfold s' at 1. rewrite pte_write, decide_True by done.
    apply (child_virt s' F T (k - 1) (prefix (k - 1) v) c _ HV' Hc He').
  - constructor; try done; [|intros n; apply spare_less|by eapply vm_frame_write].
    intros w. eapply xlate_write_upper; try done. by rewrite <-Hpre.
Qed.

Lemma walk_missing s F T k v q u :
  vm_inv s F T → 2 ≤ k → T k (prefix k v) = Some q → user_bit_ok u →
  T (k - 1) (prefix (k - 1) v) = None → is_huge (pte s q (index k v)) = false →
  (walk_or_alloc (v_hhdm s + PAGE_SIZE * q) (index k v) u s = Halt ∧ ∀ x, ¬ F x) ∨
  (∃ c s' F' T', walk_or_alloc (v_hhdm s + PAGE_SIZE * q) (index k v) u s = Ok (v_hhdm s + PAGE_SIZE * c, s') ∧
    walk_post s F T k v c s' F' T').
Proof.
  intros HV Hk Hq Hu HN Hnh. pose proof (walk_level s F T k v q HV Hk Hq) as He. rewrite HN in He.
  pose proof (index_range k v) as Hi.
  assert (Hno : no_pte (pte s q (index k v))) by (destruct He as [?|(_ & _ & ? & _)]; [done|congruence]).
  assert (Hpre : prefix (k - 1) v = prefix k v * 512 + index k v) by (apply prefix_step; lia).
  unfold walk_or_alloc. mstep with (entry_pte s q (index k v)). rewrite present_eqb.
  rewrite (proj1 Hno). cbn [negb].
  destruct (alloc_table_spec s F T HV) as [[E HF]|(c & s1 & F1 & E & HFT)].
  { left. split; [|done]. unfold mbind, M_bind at 1. by rewrite E. }
  right. destruct HFT as [HV1 Hwas HF1 Hcp Hfresh Hzero Hold Hlay Hquiet Hmem].
  pose proof Hquiet as (_ & Hh & _). pose proof (vi_hhdm _ _ _ HV1) as Hh1.
  pose proof (vi_phys _ _ _ HV1) as Hphys. pose proof Hcp as (Hcr & _).
  destruct (table_addr _ _ c (vi_alloc _ _ _ HV1)) as [A1 A2]; [lia|].
  set (s' := write_pte q (index k v) (new_pte c u) s1).
  exists c, s', F1, (upd2 T (k - 1) (prefix (k - 1) v) c). split.
  - mstep with E. mstep. rewrite Hh, Z.add_simpl_l, u64_small by (unfold PAGE_SIZE in *; lia).
    rewrite <-Hh at 1. mstep with (write_pte_entry s1 q (index k v) (new_pte c u)). done.
  - rewrite Hpre in *. constructor.
    + apply vm_inv_link; try done; [apply new_pte_fits; [lia|done]|by apply new_pte_ok|].
      intros _ j Hj. by rewrite Hzero.
    + rewrite Hpre. unfold upd2. by rewrite decide_True.
    + intros j pre x Hx. unfold upd2. case_decide as Hd; [|done]. destruct Hd; subst. congruence.
    + intros j pre Hj. unfold upd2. rewrite decide_False; [done|]. lia.
    + intros w. rewrite <-(xlate_same s s1 T w) by done. eapply xlate_link; try done.
      * apply new_pte_fits; [lia|done].
      * by rewrite (Hold _ _ _ _ Hq Hi).
    + intros x Hx%HF1. tauto.
    + intros n. apply (spare_remove n F F1 c). intros x ? ?. by apply HF1.
    + eapply quiet_trans; [done|apply quiet_write].
    + apply vm_frame_link; [done| |done|]; [intros x Hx%HF1; tauto|]. intros a Ha. unfold s'. rewrite load8_write_pte; [|done|done|].
      * apply Hmem. intros Hp. apply Ha. by left.
      * intros Hin%(in_page_layout _ _ _ _ Hlay). apply Ha. right. by exists k, (prefix k v), q.
Qed.

Lemma walk_or_alloc_spec s F T k v q u :
  vm_inv s F T → 2 ≤ k → T k (prefix k v) = Some q → user_bit_ok u →
  is_huge (pte s q (index k v)) = false →
  (walk_or_alloc (v_hhdm s + PAGE_SIZE * q) (index k v) u s = Halt ∧ ∀ x, ¬ F x) ∨
  (∃ c s' F' T', walk_or_alloc (v_hhdm s + PAGE_SIZE * q) (index k v) u s = Ok (v_hhdm s + PAGE_SIZE * c, s') ∧
    walk_post s F T k v c s' F' T').
Proof.
  intros HV Hk Hq Hu Hnh. destruct (T (k - 1) (prefix (k - 1) v)) as [c|] eqn:Ec.
  - right. destruct (walk_present s F T k v q c u) as (s' & E & H); try done. by exists c, s', F, T.
  - by eapply walk_missing.
Qed.

(** ** The last level *)

Lemma xlate_leaf s F T v pt e w :
  vm_inv s F T → T 1 (prefix 1 v) = Some pt → fits 64 e →
  xlate (write_pte pt (index 1 v) e s) T w =
    if decide (vpn w = vpn v)
    then if is_present e then Some (u64 (pte_addr e + w `mod` 2 ^ 12)) else None
    else xlate s T w.
Proof.
  intros HV Hpt He. pose proof (index_range 1 v). pose proof (index_range 1 w). pose proof (index_range 2 w).
  unfold xlate. case_decide as Hw.
  - assert (prefix 1 w = prefix 1 v) as -> by (unfold prefix; by rewrite Hw).
    assert (index 1 w = index 1 v) as -> by (unfold index; by rewrite Hw).
    by rewrite Hpt, pte_write, decide_True by done.
  - destruct (T 1 (prefix 1 w)) as [pt'|] eqn:T1.
    + rewrite (pte_write_other s F T 1 _ pt _ e 1 _ pt' _ HV Hpt T1); [done..|].
      intros (_ & E1 & E2). apply Hw. by apply prefix_index_vpn.
    + destruct (T 2 (prefix 2 w)) as [pd|] eqn:T2; [|done].
      by rewrite (pte_write_other s F T 1 _ pt _ e 2 _ pd _ HV Hpt T2) by (done || lia).
Qed.

Lemma page_base_fits x : fits 64 x → fits 64 (page_base x).
Proof. intros. by apply land_fits. Qed.
Lemma leaf_entry_fits phys flags : fits 64 phys → fits 64 flags → fits 64 (leaf_entry phys flags).
Proof.
  intros. apply lor_fits; [done| |done]. apply lor_fits; [done|by apply page_base_fits|done].
Qed.
Lemma leaf_entry_present phys flags : is_present (leaf_entry phys flags) = true.
Proof. unfold is_present, leaf_entry. rewrite Z.lor_spec. apply orb_true_r. Qed.

(** The address a leaf maps, when the flags have no address bits. *)
Lemma leaf_addr phys flags w :
  0 ≤ phys < 2 ^ 52 → Z.land flags PTE_ADDR_MASK = 0 →
  u64 (pte_addr (leaf_entry phys flags) + w `mod` 2 ^ 12) = page_base phys + w `mod` 2 ^ 12.
Proof.
  intros Hp Hm. assert (pte_addr (leaf_entry phys flags) = page_base phys) as ->.
  { unfold pte_addr, leaf_entry. rewrite !Z.land_lor_distr_l, Hm, Z.lor_0_r.
    change (Z.land PTE_PRESENT PTE_ADDR_MASK) with 0. rewrite Z.lor_0_r.
    change (pte_addr (page_base phys) = page_base phys).
    assert (page_base phys = PAGE_SIZE * (phys / PAGE_SIZE)) as E by (rewrite page_base_div; unfold PAGE_SIZE; zdiv).
    rewrite (pte_addr_of_base _ (phys / PAGE_SIZE)); [done| |unfold PAGE_SIZE; zdiv].
    rewrite E. apply page_base_page. }
  rewrite page_base_div. apply u64_small. zdiv.
Qed.

(** What a mapping call has done to the translation: the page of [v] has the
    entry [e], the others are as before. *)
Record mapped (s : vmm) (F : Z → Prop) (T : tables) (v e : Z)
    (s' : vmm) (F' : Z → Prop) (T' : tables) : Prop := {
  mp_inv : vm_inv s' F' T';
  mp_page : ∀ w, vpn w = vpn v → xlate s' T' w = Some (u64 (pte_addr e + w `mod` 2 ^ 12));
  mp_rest : ∀ w, vpn w ≠ vpn v → xlate s' T' w = xlate s T w;
  mp_free : ∀ x, F' x → F x;
  mp_log : invlpg_log s' = v :: invlpg_log s;
  mp_root : kernel_pml4 s' = kernel_pml4 s ∧ v_hhdm s' = v_hhdm s ∧ cpu_cr3 s' = cpu_cr3 s;
  mp_frame : vm_frame s F T s' F' T';
}.

Lemma vm_inv_log s F T v : vm_inv s F T → vm_inv (log_invlpg v s) F T.
Proof. by intros []. Qed.

(** Storing the leaf and flushing. *)
Lemma write_leaf s0 F0 T0 s F T v pt phys flags :
  vm_inv s F T → T 1 (prefix 1 v) = Some pt → fits 64 phys → fits 64 flags →
  (∀ w, xlate s T w = xlate s0 T0 w) → (∀ x, F x → F0 x) → quiet s0 s → vm_frame s0 F0 T0 s F T →
  ∃ s', (set_entry (v_hhdm s + PAGE_SIZE * pt) (PT_INDEX v) (leaf_entry phys flags);; invlpg v) s = Ok (tt, s') ∧
    mapped s0 F0 T0 v (leaf_entry phys flags) s' F T.
Proof.
  intros HV Hpt Hp Hf Hx HF (Q1 & Q2 & Q3 & Q4) Hfr. rewrite PT_INDEX_eq. pose proof (index_range 1 v).
  pose proof (leaf_entry_fits _ _ Hp Hf) as He.
  exists (log_invlpg v (write_pte pt (index 1 v) (leaf_entry phys flags) s)). split; [done|].
  constructor; [|intros w Hw..| | | |].
  - apply vm_inv_log. eapply vm_inv_write; try done.
  - change (xlate (log_invlpg v ?x)) with (xlate x). rewrite (xlate_leaf s F T) by done.
    by rewrite decide_True, leaf_entry_present.
  - change (xlate (log_invlpg v ?x)) with (xlate x). rewrite (xlate_leaf s F T) by done.
    by rewrite decide_False, Hx.
  - done.
  - cbn. by rewrite Q4.
  - done.
  - eapply vm_frame_trans; [exact Hfr|]. destruct (vm_frame_write s F T 1 _ pt (index 1 v) (leaf_entry phys flags) HV Hpt) as [? ? ?]; [done|].
    by split.
Qed.

(** ** Splitting a 2 MiB mapping *)

(** The entry written for the [i]-th page of the region of the entry [e]. *)
Definition split_entry (e u i : Z) : Z :=
  Z.lor (Z.lor (u64 (Z.land e 0x000FFFFFFFE00000 + u64 (i * PAGE_SIZE)))
               (Z.land (Z.land e 0xFFF) (Z.lnot PTE_PS))) u.

Lemma pte_addr_range e : 0 ≤ e → 0 ≤ pte_addr e < 2 ^ 52.
Proof.
  intros He. unfold pte_addr. rewrite Z.land_comm. apply (land_fits 52); [lia|]. done.
Qed.

Lemma huge_phys_eq e : pte_addr e `mod` 2 ^ 21 = 0 → Z.land e 0x000FFFFFFFE00000 = pte_addr e.
Proof.
  intros Hm. apply Z.bits_inj'. intros i Hi. unfold pte_addr in *.
  change 0x000FFFFFFFE00000 with (Z.land PTE_ADDR_MASK (Z.lnot (Z.ones 21))).
  rewrite Z.land_assoc, Z.land_spec, Z.lnot_spec by done.
  destruct (Z.ltb_spec i 21).
  - rewrite Z.ones_spec_low, andb_false_r by lia. rewrite <-(Z.mod_pow2_bits_low _ 21) by lia.
    by rewrite Hm, Z.bits_0.
  - by rewrite Z.ones_spec_high, andb_true_r by lia.
Qed.

Lemma split_entry_spec e u i :
  fits 64 e → huge_pte e → user_bit_ok u → 0 ≤ i < 512 →
  fits 64 (split_entry e u i) ∧ is_present (split_entry e u i) = true ∧
  pte_addr (split_entry e u i) = pte_addr e + i * 2 ^ 12.
Proof.
  intros He (Hp & _ & Hal) Hu Hi. pose proof (pte_addr_range e (proj1 He)) as Hr.
  unfold split_entry. rewrite (huge_phys_eq e Hal), (u64_small (i * PAGE_SIZE)) by (unfold PAGE_SIZE; lia).
  assert (pte_addr e + i * PAGE_SIZE < 2 ^ 52) as Hlt by (unfold PAGE_SIZE; zdiv).
  rewrite u64_small by (unfold PAGE_SIZE in *; lia).
  set (a := pte_addr e + i * PAGE_SIZE) in *. set (f := Z.land (Z.land e 0xFFF) (Z.lnot PTE_PS)).
  assert (Hf : fits 12 f) by (apply land_fits; [lia|]; rewrite Z.land_comm; by apply land_fits).
  splits.
  - apply lor_user_fits; [|done]. apply lor_fits; [lia|unfold fits, a, PAGE_SIZE in *; lia|unfold fits in *; lia].
  - unfold is_present in *. rewrite !Z.lor_spec. unfold f. rewrite !Z.land_spec, Hp. cbn. by rewrite orb_true_r.
  - rewrite (pte_addr_of_base _ (a / PAGE_SIZE)); [unfold a, PAGE_SIZE in *; zdiv| |unfold a, PAGE_SIZE in *; zdiv].
    assert (PAGE_SIZE * (a / PAGE_SIZE) = page_base a) as ->
      by (rewrite page_base_div; unfold PAGE_SIZE; zdiv).
    apply Z.bits_inj'. intros j Hj. rewrite !page_base_testbit, !Z.lor_spec by done.
    destruct (Z.leb_spec 12 j); [|done].
    by rewrite (testbit_high f 12), (user_bit_testbit u), !orb_false_r by (done || lia).
Qed.

(** The loop that fills the fresh table [c]. *)
Lemma split_loop s F T c e u :
  vm_inv s F T → table_page (v_pmm s) F c → (∀ k pre, T k pre ≠ Some c) →
  (∀ i, 0 ≤ i < 512 → fits 64 (split_entry e u i)) →
  ∃ s', for_loop 512 0 (λ i, set_entry (v_hhdm s + PAGE_SIZE * c) i (split_entry e u i)) s = Ok (tt, s') ∧
    vm_inv s' F T ∧ table_page (v_pmm s') F c ∧ quiet s s' ∧
    (∀ i, 0 ≤ i < 512 → pte s' c i = split_entry e u i) ∧
    (∀ k pre q i, T k pre = Some q → 0 ≤ i < 512 → pte s' q i = pte s q i) ∧
    pmm_layout (v_pmm s) (v_pmm s') ∧ ∀ a, ¬ in_page (v_pmm s) c a → load8 (v_mem s') a = load8 (v_mem s) a.
Proof.
  intros HV Hc Hfresh Hfit.
  destruct (for_loop_inv (λ j s', vm_inv s' F T ∧ table_page (v_pmm s') F c ∧ quiet s s' ∧
     (∀ i, 0 ≤ i < 512 → i < j → pte s' c i = split_entry e u i) ∧
     (∀ k pre q i, T k pre = Some q → 0 ≤ i < 512 → pte s' q i = pte s q i) ∧
     pmm_layout (v_pmm s) (v_pmm s') ∧ ∀ a, ¬ in_page (v_pmm s) c a → load8 (v_mem s') a = load8 (v_mem s) a)
    (λ i, set_entry (v_hhdm s + PAGE_SIZE * c) i (split_entry e u i)) 512 0 s)
    as (s' & E & HV' & Hc' & Hq' & Hnew & Hold & Hlay & Hmem).
  - splits; try done. intros. lia.
  - intros i s1 Hi (HV1 & Hc1 & Hq1 & Hnew1 & Hold1 & Hlay1 & Hmem1). pose proof Hq1 as (_ & Eh & _).
    assert (Hpt : ∀ k pre q j, T k pre = Some q → 0 ≤ j < 512 →
      pte (write_pte c i (split_entry e u i) s1) q j = pte s1 q j).
    { intros k pre q j Hq Hj. rewrite pte_write by (auto with lia).
      rewrite decide_False; [done|]. intros [-> _]. by eapply Hfresh. }
    exists (write_pte c i (split_entry e u i) s1). split; [by rewrite <-Eh|]. splits.
    + eapply (vm_inv_transport s1); [done| |done|done|done|done].
      apply alloc_write_pte; [apply HV1|apply HV1|done|lia].
    + done.
    + done.
    + intros j Hj Hji. rewrite pte_write by (auto with lia). case_decide as Hd; [by destruct Hd as [_ ->]|].
      apply Hnew1; [done|]. lia.
    + intros k pre q j Hq Hj. rewrite (Hpt _ _ _ _ Hq Hj). by eapply Hold1.
    + done.
    + intros a Ha. rewrite load8_write_pte; [by apply Hmem1|apply HV1|lia|]. by rewrite (in_page_layout _ _ _ _ Hlay1).
  - exists s'. splits; try done. intros i Hi. apply Hnew; [done|]. cbn. lia.
Qed.

(** Linking the filled table does not change the translation. *)
Lemma xlate_split s F T q c v u w :
  vm_inv s F T → T 2 (prefix 2 v) = Some q → T 1 (prefix 1 v) = None →
  let e := pte s q (index 2 v) in
  huge_pte e → user_bit_ok u → fits 64 (new_pte c u) → (∀ k pre, T k pre ≠ Some c) →
  (∀ i, 0 ≤ i < 512 → pte s c i = split_entry e u i) →
  xlate (write_pte q (index 2 v) (new_pte c u) s) (upd2 T 1 (prefix 1 v) c) w = xlate s T w.
Proof.
  intros HV Hq HN e He Hu Hf Hfresh Hc. pose proof (index_range 1 w). pose proof (index_range 2 w).
  pose proof (index_range 2 v). unfold xlate, upd2.
  destruct (decide (prefix 1 w = prefix 1 v)) as [Hw|Hw].
  - rewrite decide_True, Hw, HN by done. rewrite !prefix_1_of in Hw.
    assert (prefix 2 w = prefix 2 v) as -> by lia. assert (index 2 w = index 2 v) as -> by lia.
    rewrite Hq, pte_write by done. rewrite decide_False by (intros [-> _]; by eapply Hfresh).
    rewrite Hc by done. fold e. destruct (split_entry_spec e u (index 1 w)) as (_ & -> & ->);
      [apply load64_range|done|done|done|].
    rewrite (proj1 He). do 2 f_equal. unfold index, vpn. zdiv.
  - rewrite decide_False by tauto. destruct (T 1 (prefix 1 w)) as [pt|] eqn:T1.
    + by rewrite (pte_write_other s F T 2 _ q _ _ 1 _ pt _ HV Hq T1) by (done || lia).
    + rewrite decide_False by lia. destruct (T 2 (prefix 2 w)) as [pd|] eqn:T2; [|done].
      rewrite (pte_write_other s F T 2 _ q _ _ 2 _ pd _ HV Hq T2); [done..|].
      intros (_ & E1 & E2). apply Hw. rewrite !prefix_1_of. congruence.
Qed.

Lemma virt_to_phys_table s F T c :
  vm_inv s F T → 0 ≤ c < pmm_max_page (v_pmm s) →
  virt_to_phys (v_hhdm s + PAGE_SIZE * c) s = Ok (PAGE_SIZE * c, s).
Proof.
  intros HV Hc. destruct (table_addr _ _ c (vi_alloc _ _ _ HV) Hc) as [A1 A2].
  pose proof (vi_phys _ _ _ HV). unfold virt_to_phys, gets.
  rewrite Z.add_simpl_l, u64_small; [done|]. unfold PAGE_SIZE in *. lia.
Qed.

Lemma split_huge_spec s F T q v phys flags u :
  vm_inv s F T → T 2 (prefix 2 v) = Some q → T 1 (prefix 1 v) = None →
  huge_pte (pte s q (index 2 v)) → user_bit_ok u → fits 64 phys → fits 64 flags →
  (split_huge (v_hhdm s + PAGE_SIZE * q) v phys flags u s = Halt ∧ ∀ x, ¬ F x) ∨
  (∃ s' F' T', split_huge (v_hhdm s + PAGE_SIZE * q) v phys flags u s = Ok (tt, s') ∧
     mapped s F T v (leaf_entry phys flags) s' F' T' ∧ ∀ n, spare (S n) F → spare n F').
Proof.
  intros HV Hq HN He Hu Hp Hf. pose proof (index_range 2 v) as Hi.
  unfold split_huge. rewrite !PD_INDEX_eq. mstep with (entry_pte s q (index 2 v)).
  set (e := pte s q (index 2 v)) in *.
  destruct (alloc_table_spec s F T HV) as [[E HF]|(c & s1 & F1 & E & [HV1 Hwas HF1 Hcp Hfresh _ Hold Hlay1 Hq1 Hmem1])].
  { left. split; [|done]. unfold mbind, M_bind at 1. by rewrite E. }
  right. pose proof Hq1 as (_ & Hh1 & _). 
  destruct (split_loop s1 F1 T c e u HV1 Hcp Hfresh) as (s2 & E2 & HV2 & Hcp2 & Hq2 & Hnew & Hold2 & Hlay2 & Hmem2).
  { intros i Hi'. eapply split_entry_spec; [apply load64_range|done..]. }
  pose proof Hq2 as (_ & Hh2 & _). pose proof (vi_phys _ _ _ HV2). pose proof Hcp2 as (Hcr & _).
  assert (Hfit : fits 64 (new_pte c u)) by (apply new_pte_fits; [lia|done]).
  assert (Ee : pte s2 q (index 2 v) = e) by (by rewrite (Hold2 _ _ _ _ Hq Hi), (Hold _ _ _ _ Hq Hi)).
  set (s3 := write_pte q (index 2 v) (new_pte c u) s2).
  assert (HV3 : vm_inv s3 F1 (upd2 T 1 (prefix 1 v) c)).
  { rewrite prefix_1_of in *. eapply (vm_inv_link s2 F1 T 2); try done. by apply new_pte_ok. }
  assert (Hx : ∀ w, xlate s3 (upd2 T 1 (prefix 1 v) c) w = xlate s T w).
  { intros w. rewrite <-(xlate_same s s1 T w), <-(xlate_same s1 s2 T w) by done.
    unfold s3. rewrite (xlate_split s2 F1 T q c v u w); try done; [by rewrite Ee|].
    intros i Hi'. rewrite Ee. by apply Hnew. }
  destruct (write_leaf s F T s3 F1 _ v c phys flags HV3) as (s' & E3 & Hm); try done.
  { unfold upd2. by rewrite decide_True. } { intros x Hx1%HF1. tauto. }
  { eapply quiet_trans; [done|]. eapply quiet_trans; [done|apply quiet_write]. }
  { apply vm_frame_link; [by eapply pmm_layout_trans|intros x Hx1%HF1; tauto|done|]. intros a Ha.
    pose proof (pmm_layout_trans _ _ _ Hlay1 Hlay2) as Hlay. unfold s3. rewrite load8_write_pte; [|apply HV2|done|].
    - rewrite Hmem2, Hmem1; [done| |].
      + intros Hx1. apply Ha. by left.
      + intros Hin%(in_page_layout _ _ _ _ Hlay1). apply Ha. left. right. by exists c.
    - intros Hin%(in_page_layout _ _ _ _ Hlay). apply Ha. right. by exists 2, (prefix 2 v), q. }
  exists s', F1, (upd2 T 1 (prefix 1 v) c). splits; [|done|intros n; apply (spare_remove n F F1 c); intros x ? ?; by apply HF1].
  mstep with E. rewrite <-Hh1. mstep with E2. rewrite <-Hh2.
  mstep with (virt_to_phys_table s2 F1 T c HV2 ltac:(lia)).
  mstep with (write_pte_entry s2 q (index 2 v) (new_pte c u)). exact E3.
Qed.

(** ** The whole call *)

Lemma upper_not_huge s F T k v q :
  vm_inv s F T → 3 ≤ k → T k (prefix k v) = Some q → is_huge (pte s q (index k v)) = false.
Proof.
  intros HV Hk Hq. pose proof (walk_level s F T k v q HV ltac:(lia) Hq) as He.
  destruct (T (k - 1) _); [by destruct He as (_ & ? & _)|]. destruct He as [[_ ?]|[? _]]; [done|lia].
Qed.

(** The two upper walks of [map_page]. *)
Lemma walk_to_pd s F T v u :
  vm_inv s F T → user_bit_ok u →
  let walk := (pml4 ← gets kernel_pml4;
               pdpt ← walk_or_alloc pml4 (PML4_INDEX v) u; walk_or_alloc pdpt (PDPT_INDEX v) u) in
  (walk s = Halt ∧ ¬ spare 3 F) ∨
  (∃ q s' F' T', walk s = Ok (v_hhdm s' + PAGE_SIZE * q, s') ∧ vm_inv s' F' T' ∧
     T' 2 (prefix 2 v) = Some q ∧ (∀ w, xlate s' T' w = xlate s T w) ∧ (∀ x, F' x → F x) ∧
     (∀ n, spare (S (S n)) F → spare n F') ∧ quiet s s' ∧ vm_frame s F T s' F' T').
Proof.
  intros HV Hu walk. destruct (vi_root _ _ _ HV) as (r & Hr & Er). rewrite <-(prefix_4 v) in Hr.
  unfold walk. mstep. rewrite Er, PML4_INDEX_eq, PDPT_INDEX_eq.
  destruct (walk_or_alloc_spec s F T 4 v r u HV ltac:(lia) Hr Hu) as [[E HN]|(c3 & s1 & F1 & T1 & E & H1)];
    [by eapply upper_not_huge|left; split; [unfold mbind, M_bind; by rewrite E|intros Hs; by apply spare_none in Hs]|].
  mstep with E. destruct H1 as [HV1 Hc1 _ _ Hx1 HF1 Hs1 Hq1 Hf1]. levels. pose proof Hq1 as (_ & Hh1 & _). rewrite <-Hh1.
  destruct (walk_or_alloc_spec s1 F1 T1 3 v c3 u HV1 ltac:(lia) Hc1 Hu) as [[E' HN]|(c2 & s2 & F2 & T2 & E' & H2)];
    [by eapply upper_not_huge|left; split; [done|intros Hs; by apply Hs1, spare_none in Hs]|].
  right. destruct H2 as [HV2 Hc2 _ _ Hx2 HF2 Hs2 Hq2 Hf2]. levels. pose proof Hq2 as (_ & Hh2 & _).
  exists c2, s2, F2, T2. splits; [by rewrite E', Hh2|done|done| |auto|auto|by eapply quiet_trans|by eapply vm_frame_trans].
  intros w. by rewrite Hx2, Hx1.
Qed.

Lemma mapped_trans s s1 F F1 T T1 v e s' F' T' :
  mapped s1 F1 T1 v e s' F' T' → (∀ w, xlate s1 T1 w = xlate s T w) → (∀ x, F1 x → F x) → quiet s s1 →
  vm_frame s F T s1 F1 T1 →
  mapped s F T v e s' F' T'.
Proof.
  intros [HV Hp Hr HF Hl (R1 & R2 & R3) Hfr] Hx HF1 (Q1 & Q2 & Q3 & Q4) Hfr1.
  constructor; [done|done| |auto|congruence|splits; congruence|by eapply vm_frame_trans].
  intros w Hw. by rewrite Hr, Hx.
Qed.

(** What [map_page] does once the page directory is found. *)
Definition map_in_pd (v phys flags u pd : Z) : M vmm unit :=
  e ← entry pd (PD_INDEX v);
  if negb (Z.land e PTE_PS =? 0) then split_huge pd v phys flags u else
  pt ← walk_or_alloc pd (PD_INDEX v) u;
  set_entry pt (PT_INDEX v) (leaf_entry phys flags);;
  invlpg v.

Lemma map_page_unfold v phys flags s :
  map_page v phys flags s =
    ((pml4 ← gets kernel_pml4; pdpt ← walk_or_alloc pml4 (PML4_INDEX v) (Z.land flags PTE_USER);
      walk_or_alloc pdpt (PDPT_INDEX v) (Z.land flags PTE_USER)) ≫=
     map_in_pd v phys flags (Z.land flags PTE_USER)) s.
Proof.
  unfold map_page, map_in_pd, mbind, M_bind, gets.
  by destruct (walk_or_alloc (kernel_pml4 s) (PML4_INDEX v) (Z.land flags PTE_USER) s) as [[]| | |].
Qed.

Lemma map_in_pd_spec s F T v phys flags u q :
  vm_inv s F T → T 2 (prefix 2 v) = Some q → user_bit_ok u → fits 64 phys → fits 64 flags →
  (map_in_pd v phys flags u (v_hhdm s + PAGE_SIZE * q) s = Halt ∧ ¬ spare 1 F) ∨
  (∃ s' F' T', map_in_pd v phys flags u (v_hhdm s + PAGE_SIZE * q) s = Ok (tt, s') ∧
     mapped s F T v (leaf_entry phys flags) s' F' T' ∧ ∀ n, spare (S n) F → spare n F').
Proof.
  intros HV Hq Hu Hp Hf. unfold map_in_pd. rewrite PD_INDEX_eq. mstep with (entry_pte s q (index 2 v)).
  rewrite huge_eqb, negb_involutive. destruct (is_huge (pte s q (index 2 v))) eqn:Eh.
  - pose proof (walk_level s F T 2 v q HV ltac:(lia) Hq) as He. levels.
    destruct (T 1 (prefix 1 v)) as [c|] eqn:T1; [destruct He as (_ & ? & _); congruence|].
    destruct He as [[_ ?]|[_ He]]; [congruence|].
    destruct (split_huge_spec s F T q v phys flags u) as [[E HN]|H]; try done; [|by right].
    left. split; [done|]. intros Hs. by apply spare_none in Hs.
  - destruct (walk_or_alloc_spec s F T 2 v q u HV ltac:(lia) Hq Hu Eh) as [[E HN]|(c & s1 & F1 & T1 & E & H1)].
    { left. split; [unfold mbind, M_bind; by rewrite E|]. intros Hs. by apply spare_none in Hs. }
    mstep with E. right. destruct H1 as [HV1 Hc1 _ _ Hx1 HF1 Hs1 Hq1 Hf1]. levels. pose proof Hq1 as (_ & Hh1 & _).
    rewrite <-Hh1. destruct (write_leaf s F T s1 F1 T1 v c phys flags) as (s' & E' & Hm); try done.
    by exists s', F1, T1.
Qed.

Lemma map_page_spec s F T v phys flags :
  vm_inv s F T → fits 64 phys → fits 64 flags →
  (map_page v phys flags s = Halt ∧ ¬ spare 3 F) ∨
  (∃ s' F' T', map_page v phys flags s = Ok (tt, s') ∧
     mapped s F T v (leaf_entry phys flags) s' F' T' ∧ ∀ n, spare (S (S (S n))) F → spare n F').
Proof.
  intros HV Hp Hf. pose proof (user_bit_land flags) as Hu. rewrite map_page_unfold.
  destruct (walk_to_pd s F T v _ HV Hu) as [[E HN]|(q & s1 & F1 & T1 & E & HV1 & Hq & Hx & HF & Hs & Hqt & Hfr)].
  { left. split; [unfold mbind at 1, M_bind at 1; by rewrite E|done]. }
  mstep with E. destruct (map_in_pd_spec s1 F1 T1 v phys flags _ q HV1 Hq Hu Hp Hf)
    as [[E' HN]|(s' & F' & T' & E' & Hm & Hc)]; [left; split; [done|by intros ?%Hs]|right].
  exists s', F', T'. splits; [done|by eapply mapped_trans|auto].
Qed.

(** ** Unmapping *)

Lemma unmap_page_spec s F T v :
  vm_inv s F T → (∀ q, T 2 (prefix 2 v) = Some q → is_huge (pte s q (index 2 v)) = false) →
  ∃ s', unmap_page v s = Ok (tt, s') ∧ vm_inv s' F T ∧
    ∀ w, xlate s' T w = if decide (vpn w = vpn v) then None else xlate s T w.
Proof.
  intros HV Hnh.
  assert (Hnone : T 1 (prefix 1 v) = None → ∀ w, xlate s T w = if decide (vpn w = vpn v) then None else xlate s T w).
  { intros HN w. case_decide as Hw; [|done]. unfold xlate, prefix, index. rewrite Hw.
    fold (prefix 1 v) (prefix 2 v) (index 2 v). rewrite HN.
    destruct (T 2 (prefix 2 v)) as [pd|] eqn:T2; [|done].
    pose proof (walk_level s F T 2 v pd HV ltac:(lia) T2) as He. levels. rewrite HN in He.
    destruct He as [[-> _]|(_ & _ & Hx & _)]; [done|]. by rewrite (Hnh _ eq_refl) in Hx. }
  destruct (vi_root _ _ _ HV) as (r & Hr & Epml4). rewrite <-(prefix_4 v) in Hr.
  unfold unmap_page. mstep. rewrite Epml4, PML4_INDEX_eq, PDPT_INDEX_eq, PD_INDEX_eq, PT_INDEX_eq.
  mstep with (entry_pte s r (index 4 v)). rewrite present_eqb.
  pose proof (walk_level s F T 4 v r HV ltac:(lia) Hr) as H4. levels.
  destruct (is_present (pte s r (index 4 v))) eqn:P4; cbn [negb].
  2:{ apply no_pte_none in H4; [|done]. pose proof (no_child_below s F T 3 v HV ltac:(lia) H4 ltac:(lia)) as H2.
      pose proof (no_child_below s F T 2 v HV ltac:(lia) H2 ltac:(lia)) as H1. levels.
      exists s. splits; [done|done|auto]. }
  destruct (present_table _ _ _ H4 P4) as (c3 & T3 & He4); [done|].
  mstep with (proj2 (child_virt s F T _ _ c3 _ HV T3 He4)). mstep with (entry_pte s c3 (index 3 v)).
  rewrite present_eqb. pose proof (walk_level s F T 3 v c3 HV ltac:(lia) T3) as H3. levels.
  destruct (is_present (pte s c3 (index 3 v))) eqn:P3; cbn [negb].
  2:{ apply no_pte_none in H3; [|done]. pose proof (no_child_below s F T 2 v HV ltac:(lia) H3 ltac:(lia)) as H1.
      levels. exists s. splits; [done|done|auto]. }
  destruct (present_table _ _ _ H3 P3) as (c2 & T2 & He3); [done|].
  mstep with (proj2 (child_virt s F T _ _ c2 _ HV T2 He3)). mstep with (entry_pte s c2 (index 2 v)).
  rewrite present_eqb. pose proof (walk_level s F T 2 v c2 HV ltac:(lia) T2) as H2. levels.
  destruct (T 1 (prefix 1 v)) as [c1|] eqn:T1.
  - rewrite (proj1 H2). cbn [negb]. mstep with (proj2 (child_virt s F T _ _ c1 _ HV T1 H2)).
    exists (log_invlpg v (write_pte c1 (index 1 v) 0 s)). pose proof (index_range 1 v). splits; [done| |].
    + apply vm_inv_log. by eapply vm_inv_write.
    + intros w. change (xlate (log_invlpg v ?x)) with (xlate x). by rewrite (xlate_leaf s F T).
  - destruct H2 as [[-> _]|(_ & _ & Hx & _)]; [|by rewrite (Hnh _ T2) in Hx].
    exists s. splits; [done|done|auto].
Qed.
End mapping.
