(* ===== verification/VmmSpec.v ===== *)
(** * Theorems of the virtual memory manager

    Proved for every page allocator that meets the interface of PmmIface.v and
    instantiated at the buddy allocator. *)
From Stdlib Require Import ZArith Lia.
From stdpp Require Import base option gmap list.
From S2P Require Import Prelude Memory Pmm PmmProof PmmFree PmmInit PmmIface PmmSpec Vmm VmmProof VmmMap.

(** ** A machine to instantiate the theorems at: the sample machine of
    PmmSpec.v with one page allocated for an empty top-level table. *)
Definition root_tree (r : Z) : tables := λ k pre, if decide (k = 4 ∧ pre = 0) then Some r else None.

Definition sample_vm : vmm :=
  let p := after palloc sample_state in
  mkVmm (set_pmm_mem (memset_z (pmm_mem p) (sample_offset + 0x40000) 0 PAGE_SIZE) p)
    sample_offset (sample_offset + 0x40000) 0x40000 [] [].

Lemma vm_inv_root inv `{!PageAllocator inv} p F h r cr3 :
  inv p F → table_page p F r → hhdm_offset p = h → pmm_max_page p ≤ 2 ^ 40 →
  let m := memset_z (pmm_mem p) (h + PAGE_SIZE * r) 0 PAGE_SIZE in
  vm_inv (inv := inv) (mkVmm (set_pmm_mem m p) h (h + PAGE_SIZE * r) cr3 [] []) F (root_tree r).
Proof.
  intros HI Hr Hh Hmax m.
  assert (Hcase : ∀ k pre q, root_tree r k pre = Some q → k = 4 ∧ pre = 0 ∧ q = r).
  { intros k pre q. unfold root_tree. case_decide as Hd; [|done]. destruct Hd. by intros [= ->]. }
  split; cbn [v_pmm v_hhdm kernel_pml4]; try done.
  - apply (alloc_write_table p F r); [done|done|]. intros a Ha. unfold m.
    rewrite load8_memset_z, decide_False; [done|]. unfold in_page in Ha. rewrite Hh in Ha.
    unfold PAGE_SIZE in *. lia.
  - by exists r.
  - intros k pre q (-> & -> & ->)%Hcase. lia.
  - intros k pre q (-> & -> & ->)%Hcase. done.
  - intros k pre k' pre' q (-> & -> & ->)%Hcase (-> & -> & _)%Hcase. done.
  - intros k pre q (-> & _ & _)%Hcase. lia.
  - intros k pre q i Hk (-> & -> & ->)%Hcase Hi. left. unfold pte, v_mem. cbn.
    unfold m. rewrite load64_memset_zero by (unfold PAGE_SIZE; lia). done.
Qed.

Lemma sample_spare L :
  pmm_inv sample_state L → ∀ q, 2 ≤ q < 65 → free_page L q.
Proof.
  assert (pmm_max_page sample_state = 65) as Emax by (vm_compute; reflexivity).
  intros Hinv q Hq. apply (proj2 Hinv); [lia|].
  assert (forallb (λ q, negb (page_bit sample_state q)) (seqZ 2 63) = true) as H by (vm_compute; reflexivity).
  rewrite forallb_forall in H. apply negb_true_iff, H, list_elem_of_In, elem_of_seqZ. lia.
Qed.

Lemma spare_run n (F : Z → Prop) : (∀ q, 2 ≤ q < 2 + Z.of_nat n → F q) → spare n F.
Proof.
  intros H. exists (seqZ 2 (Z.of_nat n)). splits; [rewrite length_seqZ; lia|apply NoDup_seqZ|]. intros x Hx%elem_of_seqZ. apply H. lia.
Qed.

Lemma sample_vm_free : ∃ F, vm_inv (inv := buddy_inv) sample_vm F (root_tree 64) ∧ ∀ q, 2 ≤ q < 64 → F q.
Proof.
  destruct sample_inv as [L H].
  destruct (alloc_hit sample_state L 0 0x40000 (after palloc sample_state) H) as [L' HA];
    [unfold MAX_ORDER; lia|apply returns_ok; vm_compute; reflexivity|done|].
  pose proof (alloc_releasable _ _ _ _ _ _ H HA) as [(_ & _ & _ & Hm) Hused Hoff].
  pose proof (ap_frame _ _ _ _ _ _ HA) as (_ & M1 & H1 & _).
  assert (covers 0 0x40000 64) by (unfold covers; change (0x40000 / PAGE_SIZE) with 64; lia).
  assert (pmm_max_page sample_state = 65) as Emax by (vm_compute; reflexivity).
  assert (hhdm_offset sample_state = sample_offset) as Ehh by (vm_compute; reflexivity).
  exists (free_page L'). split.
  - apply (vm_inv_root buddy_inv (after palloc sample_state) (free_page L') sample_offset 64 0x40000).
    + exists L'. split; [apply HA|done].
    + unfold table_page. rewrite M1, Emax. splits; [lia|lia|by apply Hused|by apply Hoff].
    + rewrite H1. exact Ehh.
    + rewrite M1, Emax. lia.
  - intros x Hx. apply (ap_free _ _ _ _ _ _ HA). split.
    + apply (sample_spare L H). lia.
    + unfold covers. change (0x40000 / PAGE_SIZE) with 64. lia.
Qed.

Lemma sample_vm_inv : ∃ F, vm_inv (inv := buddy_inv) sample_vm F (root_tree 64) ∧ spare 3 F.
Proof. destruct sample_vm_free as (F & HV & HF). exists F. split; [exact HV|]. apply spare_run. intros q Hq. apply HF. lia. Qed.

Section theorems.
Context {inv : pmm → (Z → Prop) → Prop} `{!PageAllocator inv}.

(** C8: When at least three pages are free, [map_page] returns; whenever it returns, the page tables are well
    formed again, [virt_to_phys_user] of every address of the page gives the mapped frame at the same offset,
    the translation of every other address is what it was before, also when a 2 MiB mapping had to be split,
    and the page was flushed from the TLB. *)
Theorem map_page_correct s F T v phys flags :
  vm_inv (inv := inv) s F T → 0 ≤ phys < 2 ^ 52 → fits 64 flags → Z.land flags PTE_ADDR_MASK = 0 →
  (map_page v phys flags s = Halt ∧ ¬ spare 3 F) ∨
  (∃ s' F' T', map_page v phys flags s = Ok (tt, s') ∧ vm_inv (inv := inv) s' F' T' ∧
     (∀ w, vpn w = vpn v → virt_to_phys_user w s' = Ok (page_base phys + w `mod` 2 ^ 12, s')) ∧
     (∀ w, vpn w ≠ vpn v → ∃ a, virt_to_phys_user w s = Ok (a, s) ∧ virt_to_phys_user w s' = Ok (a, s')) ∧
     invlpg_log s' = v :: invlpg_log s).
Proof.
  intros HV Hp Hf Hm. destruct (map_page_spec s F T v phys flags HV) as [?|(s' & F' & T' & E & [HV' Hpg Hrest _ Hlog _ _] & _)];
    [unfold fits; lia|done|by left|right].
  exists s', F', T'. splits; [done|done|intros w Hw..|done].
  - rewrite (virt_to_phys_user_xlate s' F' T' w HV'), Hpg by done. cbn.
    by rewrite (leaf_addr phys flags w).
  - exists (default 0 (xlate s T w)). split; [by apply virt_to_phys_user_xlate with F|].
    by rewrite (virt_to_phys_user_xlate s' F' T' w HV'), Hrest.
Qed.

(** C22: On an address that is not inside a 2 MiB mapping, [unmap_page] returns and keeps the page tables well
    formed; afterwards no address of the page translates and every other address translates as before. *)
Theorem unmap_page_correct s F T v :
  vm_inv (inv := inv) s F T →
  (∀ q, T 2 (prefix 2 v) = Some q → is_huge (pte s q (index 2 v)) = false) →
  ∃ s', unmap_page v s = Ok (tt, s') ∧ vm_inv (inv := inv) s' F T ∧
    (∀ w, vpn w = vpn v → virt_to_phys_user w s' = Ok (0, s')) ∧
    (∀ w, vpn w ≠ vpn v → ∃ a, virt_to_phys_user w s = Ok (a, s) ∧ virt_to_phys_user w s' = Ok (a, s')).
Proof.
  intros HV Hnh. destruct (unmap_page_spec s F T v HV Hnh) as (s' & E & HV' & Hx).
  exists s'. splits; [done|done|intros w Hw..].
  - by rewrite (virt_to_phys_user_xlate s' F T w HV'), Hx, decide_True.
  - exists (default 0 (xlate s T w)). split; [by apply virt_to_phys_user_xlate with F|].
    by rewrite (virt_to_phys_user_xlate s' F T w HV'), Hx, decide_False.
Qed.
End theorems.

Lemma map_page_correct_witness :
  ∃ F, vm_inv (inv := buddy_inv) sample_vm F (root_tree 64) ∧ spare 3 F ∧
  ((map_page 0x400123 0x7000 3 sample_vm = Halt ∧ ¬ spare 3 F) ∨
  (∃ s' F' T', map_page 0x400123 0x7000 3 sample_vm = Ok (tt, s') ∧ vm_inv (inv := buddy_inv) s' F' T' ∧
     (∀ w, vpn w = vpn 0x400123 → virt_to_phys_user w s' = Ok (page_base 0x7000 + w `mod` 2 ^ 12, s')) ∧
     (∀ w, vpn w ≠ vpn 0x400123 →
        ∃ a, virt_to_phys_user w sample_vm = Ok (a, sample_vm) ∧ virt_to_phys_user w s' = Ok (a, s')) ∧
     invlpg_log s' = 0x400123 :: invlpg_log sample_vm)).
Proof.
  destruct sample_vm_inv as (F & HV & Hs). exists F. split; [exact HV|]. split; [exact Hs|].
  apply (map_page_correct (inv := buddy_inv) sample_vm F (root_tree 64) 0x400123 0x7000 3 HV);
    [lia|unfold fits; lia|reflexivity].
Defined.

Lemma unmap_page_correct_witness :
  ∃ F s', vm_inv (inv := buddy_inv) sample_vm F (root_tree 64) ∧
    unmap_page 0x400123 sample_vm = Ok (tt, s') ∧ vm_inv (inv := buddy_inv) s' F (root_tree 64) ∧
    (∀ w, vpn w = vpn 0x400123 → virt_to_phys_user w s' = Ok (0, s')) ∧
    (∀ w, vpn w ≠ vpn 0x400123 →
       ∃ a, virt_to_phys_user w sample_vm = Ok (a, sample_vm) ∧ virt_to_phys_user w s' = Ok (a, s')).
Proof.
  destruct sample_vm_inv as (F & HV & _).
  destruct (unmap_page_correct (inv := buddy_inv) sample_vm F (root_tree 64) 0x400123 HV) as (s' & H);
    [intros q H; discriminate H|].
  exists F, s'. split; [exact HV|exact H].
Defined.

(** A 2 MiB mapping of the frame at 0 at virtual address 4 MiB, and a word
    stored at physical address 24. *)
Definition sample_huge : M vmm unit :=
  map_page 0x400000 0x5000 3;;
  pml4 ← gets kernel_pml4; e4 ← entry pml4 0; pdpt ← phys_to_virt (page_base e4);
  e3 ← entry pdpt 0; pd ← phys_to_virt (page_base e3);
  set_entry pd (PD_INDEX 0x400000) (Z.lor (Z.lor PTE_PRESENT PTE_WRITABLE) PTE_PS);;
  modify (λ s, set_v_mem (store64 (v_mem s) (sample_offset + 24) 42) s).

(** [unmap_page] does not test for a 2 MiB mapping: it takes the mapped frame for a page table, clears a word
    of its data (here the word at physical address 24) and leaves the translation of the address in place. *)
Theorem unmap_page_huge_corrupts :
  match (sample_huge;;
         before ← gets (λ s, load64 (v_mem s) (sample_offset + 24));
         unmap_page 0x403000;;
         after_ ← gets (λ s, load64 (v_mem s) (sample_offset + 24));
         a ← virt_to_phys_user 0x403000;
         mret (before, after_, a)) sample_vm with
  | Ok (r, _) => r = (42, 0, 0x3000)
  | _ => False
  end.
Proof. vm_compute. reflexivity. Qed.
