(* ===== verification/Pfndb.v ===== *)
(** * Page frame database

    Model of src/kernel/main/mm/pfndb.c: an array of 64-byte [page_t] records,
    one per physical page, placed in the first usable region that is large
    enough and filled from the boot loader's memory map. *)
From Stdlib Require Import ZArith Lia.
From stdpp Require Import base option gmap list.
From S2P Require Import Prelude Memory Pmm PmmProof PmmInit PmmSpec.

Definition PAGE_FREE : Z := Z.shiftl 1 0.
Definition PAGE_USED : Z := Z.shiftl 1 1.
Definition PAGE_RESERVED : Z := Z.shiftl 1 2.

(** [sizeof(page_t)] and the offsets of its fields: [u1.next] at 0. *)
Definition sizeof_page : Z := 64.
Definition off_flags : Z := 16.
Definition off_refcount : Z := 24.

Record pfndb := mkPfndb {
  pf_mem : memory;
  pf_hhdm : Z;          (* hhdm_offset of vmm.c, used by phys_to_virt *)
  mem_map : Z;          (* address of the array, 0 = NULL *)
  max_pfn : Z;
  pfndb_phys : Z;
}.
Definition set_pf_mem (m : memory) (s : pfndb) : pfndb :=
  mkPfndb m (pf_hhdm s) (mem_map s) (max_pfn s) (pfndb_phys s).
Definition set_mem_map (p : Z) (s : pfndb) : pfndb :=
  mkPfndb (pf_mem s) (pf_hhdm s) p (max_pfn s) (pfndb_phys s).
Definition set_max_pfn (n : Z) (s : pfndb) : pfndb :=
  mkPfndb (pf_mem s) (pf_hhdm s) (mem_map s) n (pfndb_phys s).
Definition set_pfndb_phys (p : Z) (s : pfndb) : pfndb :=
  mkPfndb (pf_mem s) (pf_hhdm s) (mem_map s) (max_pfn s) p.

(** [&mem_map[i]] *)
Definition page_at (s : pfndb) (i : Z) : Z := mem_map s + sizeof_page * i.

Definition page_flags (i : Z) : M pfndb Z := gets (λ s, load64 (pf_mem s) (page_at s i + off_flags)).
Definition set_page_flags (i v : Z) : M pfndb unit :=
  modify (λ s, set_pf_mem (store64 (pf_mem s) (page_at s i + off_flags) v) s).
Definition set_page_refcount (i v : Z) : M pfndb unit :=
  modify (λ s, set_pf_mem (store32 (pf_mem s) (page_at s i + off_refcount) v) s).
Definition set_page_next (i v : Z) : M pfndb unit :=
  modify (λ s, set_pf_mem (store64 (pf_mem s) (page_at s i) v) s).

Definition _pfndb_calc_max_pfn (mmap : list memmap_entry) : M pfndb unit :=
  modify (set_max_pfn
    (fold_left (λ m e,
       if negb (e_type e =? LIMINE_MEMMAP_USABLE) then m else
       let end_ := u64 (e_base e + e_length e + PAGE_SIZE - 1) / PAGE_SIZE in
       if m <? end_ then end_ else m) mmap 0)).

(** The result is the memory map with the region taken out. *)
Fixpoint pfndb_take (size : Z) (mmap : list memmap_entry) : M pfndb (list memmap_entry) :=
  match mmap with
  | [] => halt
  | e :: rest =>
      if negb (e_type e =? LIMINE_MEMMAP_USABLE) || (e_length e <? size)
      then rest' ← pfndb_take size rest; mret (e :: rest')
      else modify (set_pfndb_phys (e_base e));;
           mret (mkEntry (u64 (e_base e + size)) (u64 (e_length e - size)) (e_type e) :: rest)
  end.
Definition _pfndb_reserve (mmap : list memmap_entry) : M pfndb (list memmap_entry) :=
  max ← gets max_pfn;
  pfndb_take (ALIGN_UP (u64 (u64 (max + 1) * sizeof_page)) PAGE_SIZE) mmap.

(** The pages [start .. end - 1] up to [max_pfn] become free. *)
Definition mark_free (i : Z) : M pfndb unit :=
  f ← page_flags i;
  set_page_flags i (Z.lor (Z.land f (u32 (Z.lnot (Z.lor PAGE_RESERVED PAGE_USED)))) PAGE_FREE).

Fixpoint mark_entries (mmap : list memmap_entry) : M pfndb unit :=
  match mmap with
  | [] => mret tt
  | e :: rest =>
      (if negb (e_type e =? LIMINE_MEMMAP_USABLE) then mret tt else
       max ← gets max_pfn;
       let start := e_base e / PAGE_SIZE in
       let end_ := u64 (e_base e + e_length e) / PAGE_SIZE in
       for_loop (Z.to_nat (Z.min end_ (max + 1) - start)) start mark_free);;
      mark_entries rest
  end.

Definition init_page (i : Z) : M pfndb unit :=
  set_page_flags i PAGE_RESERVED;;
  set_page_refcount i 0;;
  max ← gets max_pfn;
  next ← gets (λ s, page_at s (i + 1));
  set_page_next i (if i <? max then next else 0).

Definition pfndb_init (memmap : list memmap_entry) : M pfndb (list memmap_entry) :=
  _pfndb_calc_max_pfn memmap;;
  memmap ← _pfndb_reserve memmap;
  modify (λ s, set_mem_map (u64 (pfndb_phys s + pf_hhdm s)) s);;
  map ← gets mem_map;
  if map =? 0 then halt else
  max ← gets max_pfn;
  for_loop (Z.to_nat (max + 1)) 0 init_page;;
  mark_entries memmap;;
  set_page_flags 0 PAGE_RESERVED;;
  set_page_refcount 0 0;;
  mret memmap.

(** The lines [pfndb_dump] prints: runs of pages with equal flag bytes, and
    the number of free pages. *)
Inductive page_state := USED | RESERVED | FREE | UNKNOWN.
Definition state_of (cur : Z) : page_state :=
  if negb (Z.land cur PAGE_USED =? 0) then USED
  else if negb (Z.land cur PAGE_RESERVED =? 0) then RESERVED
  else if negb (Z.land cur PAGE_FREE =? 0) then FREE else UNKNOWN.

Fixpoint dump_loop (n : nat) (i range_start cur free_pages : Z)
    (lines : list (Z * Z * page_state)) : M pfndb (list (Z * Z * page_state) * Z) :=
  match n with
  | O => mret (lines ++ [(u64 (range_start * PAGE_SIZE), u64 ((i - 1) * PAGE_SIZE), state_of cur)], free_pages)
  | S n =>
      flags ← page_flags i;
      let f := u8 flags in
      let free_pages := if negb (Z.land f PAGE_FREE =? 0) then free_pages + 1 else free_pages in
      if negb (f =? cur)
      then dump_loop n (i + 1) i f free_pages
             (lines ++ [(u64 (range_start * PAGE_SIZE), u64 ((i - 1) * PAGE_SIZE), state_of cur)])
      else dump_loop n (i + 1) range_start cur free_pages lines
  end.
Definition pfndb_dump : M pfndb (list (Z * Z * page_state) * Z) :=
  flags ← page_flags 0;
  let cur := u8 flags in
  max ← gets max_pfn;
  dump_loop (Z.to_nat max) 1 0 cur (if negb (Z.land cur PAGE_FREE =? 0) then 1 else 0) [].

Definition pfndb_getdb : M pfndb Z := gets mem_map.
Definition pfndb_getmax : M pfndb Z := gets max_pfn.
Definition pfndb_pfnaddr (pfn : Z) : M pfndb Z :=
  gets (λ s, if max_pfn s <? pfn then 0 else u64 (pfn * PAGE_SIZE)).
Definition pfndb_getptr (pfn : Z) : M pfndb Z :=
  gets (λ s, if max_pfn s <? pfn then 0 else page_at s pfn).
(** The test that [page] points into the array. *)
Definition page_valid (s : pfndb) (page : Z) : bool :=
  negb (page =? 0) && negb (mem_map s =? 0) &&
  negb (page <? mem_map s) && negb (page_at s (max_pfn s) <? page).
Definition pfndb_getpfn (page : Z) : M pfndb Z :=
  gets (λ s, if page_valid s page then (page - mem_map s) / sizeof_page else 2 ^ 64 - 1).
Definition pfndb_page_to_phys (page : Z) : M pfndb Z :=
  gets (λ s, if page_valid s page then u64 ((page - mem_map s) / sizeof_page * PAGE_SIZE) else 0).
Definition pfndb_phys_to_page (phys : Z) : M pfndb Z :=
  gets (λ s, let pfn := phys / PAGE_SIZE in
             if max_pfn s <? pfn then 0 else page_at s pfn).

(** ** Theorems of the page frame database

    After [pfndb_init] the flags of every page are what the memory map says,
    the conversions between frames, records and addresses are inverse to each
    other; and the place [pfndb_init] takes for its array is still on the free
    lists of the physical memory manager. *)

Definition flags_of (s : pfndb) (i : Z) : Z := load64 (pf_mem s) (page_at s i + off_flags).

(** [s'] has the array of [s] in the same place. *)
Definition same_db (s s' : pfndb) : Prop :=
  mem_map s' = mem_map s ∧ max_pfn s' = max_pfn s ∧ pfndb_phys s' = pfndb_phys s.

Lemma load64_store32_ne m a b v : b + 8 ≤ a ∨ a + 4 ≤ b → load64 (store32 m a v) b = load64 m b.
Proof. intros H. unfold load64, store32. apply load_store_ne. lia. Qed.

(** ** Effect of the field stores on the flags *)

Lemma flags_set s i v s' j :
  set_page_flags i v s = Ok (tt, s') → same_db s s' ∧ (flags_of s' j = if decide (j = i) then u64 v else flags_of s j).
Proof.
  intros [= <-]. split; [done|]. unfold flags_of, page_at. cbn. case_decide as Hd.
  - subst. by rewrite load64_store64_eq.
  - apply load64_store64_ne. unfold sizeof_page, off_flags. lia.
Qed.

Lemma flags_refcount s i v s' j :
  set_page_refcount i v s = Ok (tt, s') → same_db s s' ∧ flags_of s' j = flags_of s j.
Proof.
  intros [= <-]. split; [done|]. unfold flags_of, page_at. cbn.
  apply load64_store32_ne. unfold sizeof_page, off_flags, off_refcount. lia.
Qed.

Lemma flags_next s i v s' j :
  set_page_next i v s = Ok (tt, s') → same_db s s' ∧ flags_of s' j = flags_of s j.
Proof.
  intros [= <-]. split; [done|]. unfold flags_of, page_at. cbn.
  apply load64_store64_ne. unfold sizeof_page, off_flags. lia.
Qed.

Lemma same_db_trans s s' s'' : same_db s s' → same_db s' s'' → same_db s s''.
Proof. intros (?&?&?) (?&?&?). unfold same_db. splits; congruence. Qed.

Lemma init_page_spec s i :
  ∃ s', init_page i s = Ok (tt, s') ∧ same_db s s' ∧
    ∀ j, flags_of s' j = if decide (j = i) then PAGE_RESERVED else flags_of s j.
Proof.
  eexists. split; [reflexivity|]. cbn. split; [done|]. intros j.
  set (s1 := set_pf_mem (store64 (pf_mem s) (page_at s i + off_flags) PAGE_RESERVED) s).
  destruct (flags_set s i PAGE_RESERVED s1 j eq_refl) as [_ E1].
  set (s2 := set_pf_mem (store32 (pf_mem s1) (page_at s1 i + off_refcount) 0) s1).
  destruct (flags_refcount s1 i 0 s2 j eq_refl) as [_ E2].
  match goal with |- flags_of ?s3 j = _ =>
    destruct (flags_next s2 i (if i <? max_pfn s2 then page_at s2 (i + 1) else 0) s3 j eq_refl) as [_ E3] end.
  rewrite E3, E2, E1. by case_decide.
Qed.

Lemma mark_free_spec s i :
  flags_of s i = PAGE_RESERVED ∨ flags_of s i = PAGE_FREE →
  ∃ s', mark_free i s = Ok (tt, s') ∧ same_db s s' ∧
    ∀ j, flags_of s' j = if decide (j = i) then PAGE_FREE else flags_of s j.
Proof.
  intros Hf. unfold mark_free. eexists. split; [reflexivity|]. cbn. split; [done|]. intros j.
  match goal with |- flags_of ?s1 j = _ => destruct (flags_set s i
    (Z.lor (Z.land (flags_of s i) (u32 (Z.lnot (Z.lor PAGE_RESERVED PAGE_USED)))) PAGE_FREE) s1 j eq_refl) as [_ E] end.
  rewrite E. case_decide; [|done]. by destruct Hf as [-> | ->].
Qed.

(** ** The loops *)

Lemma init_pages_spec s n :
  0 ≤ n → ∃ s', for_loop (Z.to_nat n) 0 init_page s = Ok (tt, s') ∧ same_db s s' ∧
    ∀ j, 0 ≤ j < n → flags_of s' j = PAGE_RESERVED.
Proof.
  intros Hn. destruct (for_loop_inv (λ i s', same_db s s' ∧ ∀ j, 0 ≤ j < i → flags_of s' j = PAGE_RESERVED)
    init_page (Z.to_nat n) 0 s) as (s' & E & Hs & Hj).
  - split; [done|]. intros. lia.
  - intros i s1 Hi [Hs1 Hj1]. destruct (init_page_spec s1 i) as (s2 & E2 & Hs2 & Hj2).
    exists s2. splits; [done|by eapply same_db_trans|]. intros j Hj. rewrite Hj2.
    case_decide; [done|]. apply Hj1. lia.
  - exists s'. splits; [done|done|]. intros j Hj'. apply Hj. lia.
Qed.

(** The flags say free exactly on [P], and reserved elsewhere. *)
Definition classified (s : pfndb) (P : Z → Prop) : Prop :=
  ∀ j, 0 ≤ j ≤ max_pfn s → (P j ∧ flags_of s j = PAGE_FREE) ∨ (¬ P j ∧ flags_of s j = PAGE_RESERVED).

Lemma mark_range_spec s P lo n :
  classified s P → 0 ≤ lo → lo + Z.of_nat n ≤ max_pfn s + 1 →
  ∃ s', for_loop n lo mark_free s = Ok (tt, s') ∧ same_db s s' ∧
    classified s' (λ j, P j ∨ lo ≤ j < lo + Z.of_nat n).
Proof.
  intros HP Hlo Hn. destruct (for_loop_inv (λ i s', same_db s s' ∧ classified s' (λ j, P j ∨ lo ≤ j < i))
    mark_free n lo s) as (s' & E & Hs & Hc).
  - split; [done|]. intros j Hj. destruct (HP j Hj) as [[? ?]|[? ?]]; [left|right]; (split; [|done]); [tauto|].
    intros [?|?]; [done|lia].
  - intros i s1 Hi [Hs1 Hc1]. pose proof Hs1 as (_ & Em & _).
    destruct (mark_free_spec s1 i) as (s2 & E2 & Hs2 & Hj2).
    { destruct (Hc1 i) as [[_ ->]|[_ ->]]; [lia|by right|by left]. }
    exists s2. splits; [done|by eapply same_db_trans|]. intros j Hj. rewrite Hj2.
    pose proof Hs2 as (_ & Em2 & _). rewrite Em2 in Hj. case_decide as Hd.
    + left. split; [right; lia|done].
    + destruct (Hc1 j Hj) as [[? ?]|[Hn1 ?]]; [left|right]; (split; [|done]); [destruct H as [?|?]; [by left|right; lia]|].
      intros [?|?]; apply Hn1; [by left|right; lia].
  - by exists s'.
Qed.

(** Frames of the usable entries, as [pfndb_init] counts them. *)
Definition map_frame (mm : list memmap_entry) (j : Z) : Prop :=
  ∃ e, e ∈ mm ∧ e_type e = LIMINE_MEMMAP_USABLE ∧
    e_base e / PAGE_SIZE ≤ j < u64 (e_base e + e_length e) / PAGE_SIZE.

Lemma classified_ext s P Q : (∀ j, 0 ≤ j ≤ max_pfn s → P j ↔ Q j) → classified s P → classified s Q.
Proof. intros H HP j Hj. rewrite <-(H j Hj). by apply HP. Qed.

Lemma map_frame_cons e mm j :
  map_frame (e :: mm) j ↔
  (e_type e = LIMINE_MEMMAP_USABLE ∧ e_base e / PAGE_SIZE ≤ j < u64 (e_base e + e_length e) / PAGE_SIZE) ∨ map_frame mm j.
Proof.
  split.
  - intros (x & [->|Hx]%elem_of_cons & H); [by left|right; by exists x].
  - intros [H|(x & Hx & H)]; [exists e|exists x]; (split; [|done]); [left|by right].
Qed.

Lemma mark_entries_spec mm s P :
  classified s P → 0 ≤ max_pfn s → Forall (λ e, 0 ≤ e_base e) mm →
  ∃ s', mark_entries mm s = Ok (tt, s') ∧ same_db s s' ∧ classified s' (λ j, P j ∨ map_frame mm j).
Proof.
  revert s P; induction mm as [|e mm IH]; intros s P HP Hmax Hall; cbn [mark_entries].
  - exists s. splits; [done|done|]. eapply classified_ext; [|done]. intros j _. split; [by left|].
    intros [?|(x & Hx & _)]; [done|]. by apply elem_of_nil in Hx.
  - apply list.Forall_cons in Hall as [Hb Hall].
    destruct (Z.eqb_spec (e_type e) LIMINE_MEMMAP_USABLE) as [Hu|Hu]; cbn [negb].
    + set (lo := e_base e / PAGE_SIZE). set (hi := u64 (e_base e + e_length e) / PAGE_SIZE).
      assert (0 ≤ lo) by (apply Z.div_pos; [done|unfold PAGE_SIZE; lia]).
      set (n := Z.to_nat (Z.min hi (max_pfn s + 1) - lo)).
      assert (∃ s1, for_loop n lo mark_free s = Ok (tt, s1) ∧ same_db s s1 ∧
        classified s1 (λ j, P j ∨ lo ≤ j < hi)) as (s1 & E1 & Hs1 & Hc1).
      { destruct (decide (Z.min hi (max_pfn s + 1) ≤ lo)) as [Hle|Hgt].
        - exists s. splits; [unfold n; by rewrite Z2Nat.nonpos by lia|done|].
          eapply classified_ext; [|done]. intros j Hj. split; [by left|]. intros [?|?]; [done|lia].
        - destruct (mark_range_spec s P lo n HP) as (s1 & E1 & Hs1 & Hc1); [done|lia|].
          exists s1. splits; [done|done|]. destruct Hs1 as (_ & Em & _).
          eapply classified_ext; [|done]. intros j Hj. rewrite Em in Hj.
          assert (lo ≤ j < lo + Z.of_nat n ↔ lo ≤ j < hi) by lia. tauto. }
      pose proof Hs1 as (_ & Em & _).
      destruct (IH s1 _ Hc1) as (s' & E' & Hs' & Hc'); [lia|done|].
      exists s'. splits; [|by eapply same_db_trans|].
      * erewrite bind_ok; [exact E'|]. mstep. exact E1.
      * eapply classified_ext; [|done]. intros j _. rewrite map_frame_cons. tauto.
    + destruct (IH s P HP Hmax Hall) as (s' & E' & Hs' & Hc'). exists s'. splits; [by mstep|done|].
      eapply classified_ext; [|done]. intros j _. rewrite map_frame_cons. tauto.
Qed.

(** ** Taking the region *)

(** An entry in which [_pfndb_reserve] can place an array of [size] bytes, and
    what is left of it. *)
Definition roomy (size : Z) (e : memmap_entry) : Prop := e_type e = LIMINE_MEMMAP_USABLE ∧ size ≤ e_length e.
Definition shrink (size : Z) (e : memmap_entry) : memmap_entry :=
  mkEntry (u64 (e_base e + size)) (u64 (e_length e - size)) (e_type e).

(** The first roomy entry is taken. *)
Definition first_roomy (size : Z) (mm : list memmap_entry) (e : memmap_entry) (mm' : list memmap_entry) : Prop :=
  ∃ pre post, mm = pre ++ e :: post ∧ Forall (λ x, ¬ roomy size x) pre ∧ roomy size e ∧
    mm' = pre ++ shrink size e :: post.

Lemma pfndb_take_cases size mm s :
  (pfndb_take size mm s = Halt ∧ Forall (λ x, ¬ roomy size x) mm) ∨
  (∃ e mm', pfndb_take size mm s = Ok (mm', set_pfndb_phys (e_base e) s) ∧ first_roomy size mm e mm').
Proof.
  induction mm as [|e mm IH]; cbn [pfndb_take]; [by left|].
  destruct (decide (roomy size e)) as [Hr|Hr].
  - right. pose proof Hr as [-> Hl]. rewrite (proj2 (Z.ltb_ge _ _) Hl). cbn. exists e. eexists. split; [reflexivity|].
    exists [], mm. splits; [done|done|done|]. unfold shrink. by destruct Hr as [-> _].
  - assert (negb (e_type e =? LIMINE_MEMMAP_USABLE) || (e_length e <? size) = true) as ->.
    { unfold roomy in Hr. rewrite orb_true_iff, negb_true_iff. lia. }
    destruct IH as [[E Hf]|(x & mm' & E & pre & post & -> & Hf & Hx & ->)].
    + left. split; [unfold mbind, M_bind; by rewrite E|by constructor].
    + right. exists x. eexists. split; [by mstep with E|]. exists (e :: pre), post. splits; [done|by constructor|done|done].
Qed.

Lemma first_roomy_elem size mm e mm' : first_roomy size mm e mm' → e ∈ mm ∧ roomy size e.
Proof.
  intros (pre & post & -> & _ & Hr & _). split; [|done]. apply elem_of_app. right. by apply elem_of_cons; left.
Qed.

Lemma first_roomy_bases size mm e mm' :
  first_roomy size mm e mm' → Forall (λ e, 0 ≤ e_base e) mm → Forall (λ e, 0 ≤ e_base e) mm'.
Proof.
  intros (pre & post & -> & _ & _ & ->). rewrite !Forall_app, !Forall_cons. intros (? & _ & ?).
  splits; [done|apply u64_range|done].
Qed.

Lemma max_pfn_nonneg mm m :
  0 ≤ m → 0 ≤ fold_left (λ m e,
       if negb (e_type e =? LIMINE_MEMMAP_USABLE) then m else
       let end_ := u64 (e_base e + e_length e + PAGE_SIZE - 1) / PAGE_SIZE in
       if m <? end_ then end_ else m) mm m.
Proof.
  revert m; induction mm as [|e mm IH]; intros m Hm; [done|]. apply IH.
  destruct (negb _); [done|]. cbv zeta. destruct (Z.ltb_spec m (u64 (e_base e + e_length e + PAGE_SIZE - 1) / PAGE_SIZE)); lia.
Qed.

(** ** The theorems *)

(** The highest frame number and the size of the array for a memory map. *)
Definition map_max_pfn (mm : list memmap_entry) : Z :=
  fold_left (λ m e,
    if negb (e_type e =? LIMINE_MEMMAP_USABLE) then m else
    let end_ := u64 (e_base e + e_length e + PAGE_SIZE - 1) / PAGE_SIZE in
    if m <? end_ then end_ else m) mm 0.
Definition db_size (mm : list memmap_entry) : Z :=
  ALIGN_UP (u64 (u64 (map_max_pfn mm + 1) * sizeof_page)) PAGE_SIZE.

(** Filling the array once its place is known. *)
Lemma pfndb_fill_spec mm s :
  0 ≤ max_pfn s → Forall (λ e, 0 ≤ e_base e) mm →
  ∃ s', (for_loop (Z.to_nat (max_pfn s + 1)) 0 init_page;; mark_entries mm;;
         set_page_flags 0 PAGE_RESERVED;; set_page_refcount 0 0;; mret mm) s = Ok (mm, s') ∧
    same_db s s' ∧ classified s' (λ j, map_frame mm j ∧ j ≠ 0).
Proof.
  intros Hmax Hall. destruct (init_pages_spec s (max_pfn s + 1)) as (s2 & E2 & Hs2 & Hj2); [lia|].
  mstep with E2. pose proof Hs2 as (_ & Em2 & _).
  destruct (mark_entries_spec mm s2 (λ _, False)) as (s3 & E3 & Hs3 & Hc3);
    [intros j Hj; right; split; [tauto|apply Hj2; lia]|rewrite Em2; done|done|].
  mstep with E3. mstep. set (s4 := set_pf_mem _ s3). mstep. eexists. splits; [reflexivity|by eapply same_db_trans|].
  intros j Hj. cbn in Hj.
  match goal with |- context [flags_of ?s5 j] => assert (flags_of s5 j = flags_of s4 j) as ->
    by (by apply (flags_refcount s4 0 0)) end.
  destruct (flags_set s3 0 PAGE_RESERVED s4 j eq_refl) as [_ ->].
  case_decide as Hd; [right; split; [tauto|done]|].
  destruct (Hc3 j Hj) as [[? ->]|[? ->]]; [left|right]; (split; [tauto|done]).
Qed.

(** [pfndb_init] stops the kernel exactly when no usable entry of the memory map has room for the array (no entry
    translating to the null address). Otherwise it takes the front of the first entry with room, points [mem_map]
    there, and every page up to the highest one is classified by what is left of the memory map: free exactly when the
    page lies in a usable entry and is not page 0, reserved otherwise. *)
Theorem pfndb_init_classifies mm s :
  Forall (λ e, 0 ≤ e_base e ∧ u64 (e_base e + pf_hhdm s) ≠ 0) mm →
  (pfndb_init mm s = Halt ∧ Forall (λ e, ¬ roomy (db_size mm) e) mm) ∨
  (∃ e mm' s', pfndb_init mm s = Ok (mm', s') ∧ first_roomy (db_size mm) mm e mm' ∧
     mem_map s' = u64 (e_base e + pf_hhdm s) ∧ max_pfn s' = map_max_pfn mm ∧
     classified s' (λ j, map_frame mm' j ∧ j ≠ 0)).
Proof.
  intros [Hall Hnz]%Forall_and. unfold pfndb_init. mstep. set (s0 := set_max_pfn _ s). unfold _pfndb_reserve.
  destruct (pfndb_take_cases (db_size mm) mm s0) as [[E Hf]|(e & mm' & E & Hr)].
  { left. split; [|done]. unfold mbind at 1, M_bind at 1. unfold mbind at 1, M_bind at 1, gets.
    change (ALIGN_UP _ _) with (db_size mm). by rewrite E. }
  right. erewrite bind_ok; [|mstep; exact E]. mstep. mstep. set (s1 := set_mem_map _ _).
  destruct (first_roomy_elem _ _ _ _ Hr) as [He _]. rewrite Forall_forall in Hnz. specialize (Hnz e He).
  change (mem_map s1) with (u64 (e_base e + pf_hhdm s)). rewrite (proj2 (Z.eqb_neq _ _) Hnz). mstep.
  destruct (pfndb_fill_spec mm' s1) as (s' & E' & (Hm & Hp & _) & Hc).
  { by apply (max_pfn_nonneg mm 0). }
  { by eapply first_roomy_bases. }
  exists e, mm', s'. splits; [exact E'|done|by rewrite Hm|by rewrite Hp|done].
Qed.

Lemma pfndb_init_classifies_witness :
  let s := mkPfndb ∅ sample_offset 0 0 0 in
  (pfndb_init sample_map s = Halt ∧ Forall (λ e, ¬ roomy (db_size sample_map) e) sample_map) ∨
  (∃ e mm' s', pfndb_init sample_map s = Ok (mm', s') ∧ first_roomy (db_size sample_map) sample_map e mm' ∧
     mem_map s' = u64 (e_base e + pf_hhdm s) ∧ max_pfn s' = map_max_pfn sample_map ∧
     classified s' (λ j, map_frame mm' j ∧ j ≠ 0)).
Proof.
  intros s. apply (pfndb_init_classifies sample_map s).
  repeat constructor; first [by apply Z.leb_le | by apply Z.eqb_neq].
Defined.

(** The database was placed at a non-null address below the end of memory. *)
Definition db_ok (s : pfndb) : Prop :=
  0 < mem_map s ∧ 0 ≤ max_pfn s < 2 ^ 50.

Lemma page_valid_at s i : db_ok s → 0 ≤ i ≤ max_pfn s → page_valid s (page_at s i) = true.
Proof.
  intros [Hm Hx] Hi. unfold page_valid, page_at, sizeof_page. rewrite !andb_true_iff, !negb_true_iff. lia.
Qed.

(** Frame numbers, records and physical addresses convert into each other without loss: the frame of the record
    of frame [pfn] is [pfn], and the address of the record of a physical address is that address rounded down to
    its page. *)
Theorem pfndb_roundtrip s pfn phys :
  db_ok s → 0 ≤ pfn ≤ max_pfn s → 0 ≤ phys → phys / PAGE_SIZE ≤ max_pfn s →
  (page ← pfndb_getptr pfn; pfndb_getpfn page) s = Ok (pfn, s) ∧
  (page ← pfndb_phys_to_page phys; pfndb_page_to_phys page) s = Ok (phys / PAGE_SIZE * PAGE_SIZE, s).
Proof.
  intros Hok Hp H0 Hphys. pose proof Hok as [Hm Hx].
  assert (Hdiv : ∀ i, (page_at s i - mem_map s) / sizeof_page = i).
  { intros i. unfold page_at, sizeof_page. rewrite Z.add_simpl_l, Z.mul_comm. by apply Z.div_mul. }
  assert (0 ≤ phys / PAGE_SIZE) by (apply Z.div_pos; [done|unfold PAGE_SIZE; lia]).
  split; mstep; cbn.
  - rewrite (proj2 (Z.ltb_ge _ _)) by lia. unfold pfndb_getpfn, gets.
    by rewrite page_valid_at, Hdiv by (done || lia).
  - rewrite (proj2 (Z.ltb_ge _ _)) by lia. unfold pfndb_page_to_phys, gets.
    rewrite page_valid_at, Hdiv by (done || lia). rewrite u64_small; [done|]. unfold PAGE_SIZE in *. lia.
Qed.

Lemma pfndb_roundtrip_witness :
  let s := mkPfndb ∅ sample_offset (sample_offset + 0x2000) 65 0x2000 in
  (page ← pfndb_getptr 7; pfndb_getpfn page) s = Ok (7, s) ∧
  (page ← pfndb_phys_to_page 0x5123; pfndb_page_to_phys page) s = Ok (0x5123 / PAGE_SIZE * PAGE_SIZE, s).
Proof. intros s. apply (pfndb_roundtrip s 7 0x5123); [split; [reflexivity|cbn; lia]|cbn; lia|lia|vm_compute; discriminate]. Defined.

(** [kmain] calls [pfndb_init] with the memory map that [pmm_init] has already turned into free lists: wherever
    the array is placed, its first page is a free page of the physical memory manager, so the array overwrites the
    free lists and is handed out again. *)
Theorem pfndb_overlaps_free_pages m offset mm :
  boot_ok offset mm → bitmap_covers mm → bitmap_fits mm →
  ∃ mm' s L, pmm_init (Some offset) (Some mm) (pmm_boot m) = Ok (mm', s) ∧ pmm_inv s L ∧
    ∀ pf pf' mm'', 0 ≤ max_pfn pf < 2 ^ 50 → _pfndb_reserve mm' pf = Ok (mm'', pf') →
      free_page L (pfndb_phys pf' / PAGE_SIZE).
Proof.
  intros Hbo Hcov Hfit. destruct (pmm_init_spec m _ _ Hbo Hcov Hfit) as (b & mm' & s & L & E & Hpl & Hinv & HL & _).
  exists mm', s, L. splits; [done|done|]. intros pf pf' mm'' Hmax Hres. unfold _pfndb_reserve in Hres.
  apply bind_inv in Hres as (x & s1 & [= <- <-] & Hres). pose proof (pl_ok _ _ _ _ Hpl) as Hok.
  destruct (pfndb_take_cases (ALIGN_UP (u64 (u64 (max_pfn pf + 1) * sizeof_page)) PAGE_SIZE) mm' pf)
    as [[E' _]|(e & mm1 & E' & (He & Hu & Hsz)%first_roomy_elem)].
  - rewrite E' in Hres. discriminate.
  - rewrite E' in Hres. injection Hres as _ <-. cbn [pfndb_phys set_pfndb_phys].
    apply HL. exists e. splits; [done|done|..].
    all: destruct (entry_pages e (memmap_ok_elem _ _ Hok He) Hu) as (_ & _ & Eb & _).
    + unfold PAGE_SIZE in *. lia.
    + assert (PAGE_SIZE ≤ e_length e); [|unfold e_end, PAGE_SIZE in *; lia].
      etrans; [|exact Hsz]. rewrite (u64_small (max_pfn pf + 1)), u64_small by (unfold sizeof_page; lia).
      change PAGE_SIZE with (2 ^ 12). rewrite ALIGN_UP_spec by (unfold sizeof_page; lia).
      unfold sizeof_page. zdiv.
Qed.

Lemma pfndb_overlaps_free_pages_witness :
  ∃ mm' s L, pmm_init (Some sample_offset) (Some sample_map) (pmm_boot ∅) = Ok (mm', s) ∧ pmm_inv s L ∧
    ∀ pf pf' mm'', 0 ≤ max_pfn pf < 2 ^ 50 → _pfndb_reserve mm' pf = Ok (mm'', pf') →
      free_page L (pfndb_phys pf' / PAGE_SIZE).
Proof. exact (pfndb_overlaps_free_pages ∅ sample_offset sample_map sample_boot_ok sample_covers sample_fits). Defined.
