(* ===== verification/CString.v ===== *)
(** * The string library

    Model of src/kernel/main/util/string.c (and the integer helpers of
    src/kernel/includes/main/util/math.h) over the byte memory.  A [char] is
    its byte value; a pointer is an address, 0 is NULL.  A loop that runs to a
    terminating NUL takes fuel and yields [Spin] when the fuel runs out; the
    theorems of CStringProof.v give the fuel that is enough (the length of the
    string and one more). *)
From Stdlib Require Import ZArith Lia.
From stdpp Require Import base option gmap list.
From S2P Require Import Prelude Memory.

(** ** Memory blocks *)

Definition memcpy (dest src n : Z) : M memory Z := modify (λ m, memcpy_z m dest src n);; mret dest.
Definition memset (s c n : Z) : M memory Z := modify (λ m, memset_z m s c n);; mret s.

(** [for (i = n; i > 0; i--) pdest[i-1] = psrc[i-1]] *)
Fixpoint copy_down (m : memory) (d s : Z) (n : nat) : memory :=
  match n with
  | O => m
  | S n => copy_down (store8 m (d + Z.of_nat n) (load8 m (s + Z.of_nat n))) d s n
  end.
Definition memmove (dest src n : Z) : M memory Z :=
  (if dest <? src then modify (λ m, memcpy_z m dest src n)
   else if src <? dest then modify (λ m, copy_down m dest src (Z.to_nat n))
   else mret tt);;
  mret dest.

Fixpoint memcmp_loop (n : nat) (p1 p2 : Z) : M memory Z :=
  match n with
  | O => mret 0
  | S n =>
      a ← gets (λ m, load8 m p1);
      b ← gets (λ m, load8 m p2);
      if negb (a =? b) then mret (if a <? b then -1 else 1)
      else memcmp_loop n (p1 + 1) (p2 + 1)
  end.
Definition memcmp (s1 s2 n : Z) : M memory Z := memcmp_loop (Z.to_nat n) s1 s2.

Fixpoint memcmp_const_loop (n : nat) (p val : Z) : M memory Z :=
  match n with
  | O => mret 0
  | S n =>
      a ← gets (λ m, load8 m p);
      if negb (a =? val) then mret (s8 (a - val)) else memcmp_const_loop n (p + 1) val
  end.
Definition memcmp_const (ptr val n : Z) : M memory Z := memcmp_const_loop (Z.to_nat n) ptr val.

(** ** NUL-terminated strings *)

Definition char_at (p : Z) : M memory Z := gets (λ m, load8 m p).
Definition put_char (p c : Z) : M memory unit := modify (λ m, store8 m p c).

Fixpoint strncmp_loop (n : nat) (p1 p2 : Z) : M memory Z :=
  match n with
  | O => mret 0
  | S n =>
      a ← char_at p1;
      b ← char_at p2;
      if negb (a =? b) then mret (a - b)
      else if a =? 0 then mret 0
      else strncmp_loop n (p1 + 1) (p2 + 1)
  end.
Definition strncmp (str1 str2 n : Z) : M memory Z := strncmp_loop (Z.to_nat n) str1 str2.

Fixpoint strlen (fuel : nat) (str : Z) : M memory Z :=
  match fuel with
  | O => spin
  | S fuel =>
      c ← char_at str;
      if c =? 0 then mret 0 else l ← strlen fuel (str + 1); mret (l + 1)
  end.

Fixpoint strcmp (fuel : nat) (str1 str2 : Z) : M memory Z :=
  match fuel with
  | O => spin
  | S fuel =>
      a ← char_at str1;
      b ← char_at str2;
      if negb (a =? 0) && (a =? b) then strcmp fuel (str1 + 1) (str2 + 1) else mret (a - b)
  end.

Definition strlcat (fuel : nat) (dst src size : Z) : M memory Z :=
  sl ← strlen fuel src;
  dl ← strlen fuel dst;
  if dl =? size then mret (u64 (size + sl)) else
  (if sl <? u64 (size - dl) then (memcpy (dst + dl) src (sl + 1);; mret tt)
   else (memcpy (dst + dl) src (u64 (size - dl - 1));; put_char (dst + size - 1) 0));;
  mret (u64 (sl + dl)).

(** [while (--n > 0) { if (( *d++ = *s++ ) == 0) break; }]: the loop ends with
    the values of [n], [d] and [s]. *)
Fixpoint strlcpy_loop (fuel : nat) (n d s : Z) : M memory (Z * Z * Z) :=
  let n := u64 (n - 1) in
  if n =? 0 then mret (n, d, s) else
  match fuel with
  | O => spin
  | S fuel =>
      c ← char_at s;
      put_char d c;;
      if c =? 0 then mret (n, d + 1, s + 1) else strlcpy_loop fuel n (d + 1) (s + 1)
  end.
(** [while ( *s++ );] *)
Fixpoint skip_to_end (fuel : nat) (s : Z) : M memory Z :=
  match fuel with
  | O => spin
  | S fuel => c ← char_at s; if c =? 0 then mret (s + 1) else skip_to_end fuel (s + 1)
  end.
Definition strlcpy (fuel : nat) (dst src n : Z) : M memory Z :=
  '(n', d, s) ← strlcpy_loop fuel n dst src;
  s ← (if n' =? 0 then
         (when (negb (n =? 0)) (put_char d 0);; skip_to_end fuel s)
       else mret s);
  mret (s - src - 1).

(** The two loops of [strncpy]; [n] counts the iterations left. *)
Fixpoint strncpy_loop (n : nat) (d s : Z) : M memory unit :=
  match n with
  | O => mret tt
  | S n' =>
      c ← char_at s;
      if c =? 0 then modify (λ m, memset_z m d 0 (Z.of_nat n))
      else put_char d c;; strncpy_loop n' (d + 1) (s + 1)
  end.
Definition strncpy (dest src n : Z) : M memory Z := strncpy_loop (Z.to_nat n) dest src;; mret dest.

Fixpoint strchr_loop (fuel : nat) (str chr : Z) : M memory Z :=
  match fuel with
  | O => spin
  | S fuel =>
      c ← char_at str;
      if c =? 0 then mret 0 else if c =? chr then mret str else strchr_loop fuel (str + 1) chr
  end.
Definition strchr (fuel : nat) (str chr : Z) : M memory Z :=
  if str =? 0 then mret 0 else strchr_loop fuel str chr.

Fixpoint strswap_loop (fuel : nat) (str char1 char2 : Z) : M memory unit :=
  match fuel with
  | O => spin
  | S fuel =>
      c ← char_at str;
      if c =? 0 then mret tt else
      when (c =? char1) (put_char str char2);;
      strswap_loop fuel (str + 1) char1 char2
  end.
Definition strswap (fuel : nat) (str char1 char2 : Z) : M memory unit :=
  if str =? 0 then mret tt else strswap_loop fuel str char1 char2.

Fixpoint strcount_loop (fuel : nat) (str char1 count : Z) : M memory Z :=
  match fuel with
  | O => spin
  | S fuel =>
      c ← char_at str;
      if c =? 0 then mret count else
      strcount_loop fuel (str + 1) char1 (if c =? char1 then u32 (count + 1) else count)
  end.
Definition strcount (fuel : nat) (str char1 : Z) : M memory Z :=
  if str =? 0 then mret 0 else strcount_loop fuel str char1 0.

(** [while ( *d != 0 ) d++;] *)
Fixpoint find_end (fuel : nat) (d : Z) : M memory Z :=
  match fuel with
  | O => spin
  | S fuel => c ← char_at d; if c =? 0 then mret d else find_end fuel (d + 1)
  end.
(** [while (( *d++ = *src++ ) != 0) {}] *)
Fixpoint copy_string (fuel : nat) (d src : Z) : M memory unit :=
  match fuel with
  | O => spin
  | S fuel =>
      c ← char_at src;
      put_char d c;;
      if c =? 0 then mret tt else copy_string fuel (d + 1) (src + 1)
  end.
Definition strcat (fuel : nat) (dest src : Z) : M memory Z :=
  d ← find_end fuel dest; copy_string fuel d src;; mret dest.
Definition strcpy (fuel : nat) (dest src : Z) : M memory Z := copy_string fuel dest src;; mret dest.

Fixpoint strncat_loop (n : nat) (d src : Z) : M memory Z :=
  match n with
  | O => mret d
  | S n => c ← char_at src; if c =? 0 then mret d else put_char d c;; strncat_loop n (d + 1) (src + 1)
  end.
Definition strncat (fuel : nat) (dest src n : Z) : M memory Z :=
  d ← find_end fuel dest;
  d ← strncat_loop (Z.to_nat n) d src;
  put_char d 0;;
  mret dest.

(** [while ( *a && *b && *a == *b ) { a++; b++; }]: the value of [*b] at the end. *)
Fixpoint match_here (fuel : nat) (a b : Z) : M memory Z :=
  match fuel with
  | O => spin
  | S fuel =>
      ca ← char_at a;
      cb ← char_at b;
      if negb (ca =? 0) && negb (cb =? 0) && (ca =? cb) then match_here fuel (a + 1) (b + 1) else mret cb
  end.
Fixpoint strstr_loop (fuel : nat) (inner : nat) (hpos needle : Z) : M memory Z :=
  match fuel with
  | O => spin
  | S fuel =>
      c ← char_at hpos;
      if c =? 0 then mret 0 else
      lh ← strlen inner hpos;
      ln ← strlen inner needle;
      if lh <? ln then mret 0 else
      r ← match_here inner hpos needle;
      if r =? 0 then mret hpos else strstr_loop fuel inner (hpos + 1) needle
  end.
Definition strstr (fuel : nat) (haystack needle : Z) : M memory Z :=
  c ← char_at needle;
  if c =? 0 then mret haystack else strstr_loop fuel fuel haystack needle.

(** The inner loop of [strpbrk]: is [c1] one of the characters of [c2]? *)
Fixpoint any_of (fuel : nat) (c1 c2 : Z) : M memory bool :=
  match fuel with
  | O => spin
  | S fuel => c ← char_at c2; if c =? 0 then mret false else if c1 =? c then mret true else any_of fuel c1 (c2 + 1)
  end.
Fixpoint strpbrk_loop (fuel inner : nat) (c1 needle : Z) : M memory Z :=
  match fuel with
  | O => spin
  | S fuel =>
      c ← char_at c1;
      if c =? 0 then mret 0 else
      hit ← any_of inner c needle;
      if (hit : bool) then mret c1 else strpbrk_loop fuel inner (c1 + 1) needle
  end.
Definition strpbrk (fuel : nat) (haystack needle : Z) : M memory Z := strpbrk_loop fuel fuel haystack needle.

(** [strtok] keeps its position in the static variable [tok]: the state is the
    memory and that variable. *)
Definition strtok (fuel : nat) (str delim : Z) : M (memory * Z) Z :=
  tok ← gets snd;
  let start := if negb (str =? 0) then str else tok in
  if start =? 0 then mret 0 else
  end_ ← zoom fst (λ m s, (m, snd s)) (strpbrk fuel start delim);
  (if negb (end_ =? 0) then
     zoom fst (λ m s, (m, snd s)) (put_char end_ 0);;
     modify (λ s, (fst s, end_ + 1))
   else modify (λ s, (fst s, 0)));;
  mret start.

Fixpoint strrchr_loop (fuel : nat) (s c last : Z) : M memory Z :=
  match fuel with
  | O => spin
  | S fuel =>
      x ← char_at s;
      if x =? 0 then mret (if u8 c =? 0 then s else last)
      else strrchr_loop fuel (s + 1) c (if x =? u8 c then s else last)
  end.
Definition strrchr (fuel : nat) (s c : Z) : M memory Z := strrchr_loop fuel s c 0.

(** ** Integer helpers *)

(** [for (int i = 0; i < exp; i++) res *= exp]; a product that does not fit an
    [int] is undefined. *)
Fixpoint ipow_loop (n : nat) (exp res : Z) : outcome Z :=
  match n with
  | O => Ok res
  | S n => let r := res * exp in if s32 r =? r then ipow_loop n exp r else Fault
  end.
Definition ipow (exp : Z) : outcome Z := ipow_loop (Z.to_nat exp) exp 1.

(** [-x] is undefined on the least [int32_t]. *)
Definition abs32 (x : Z) : outcome Z :=
  if x =? - 2 ^ 31 then Fault else Ok (u32 (if x <? 0 then - x else x)).
Definition abs16 (x : Z) : Z := u16 (if x <? 0 then - x else x).
Definition abs8 (x : Z) : Z := u8 (if x <? 0 then - x else x).
Definition min32 (a b : Z) : Z := u32 (if a <? b then a else b).
Definition max32 (a b : Z) : Z := u32 (if b <? a then a else b).
Fixpoint log2u_loop (fuel : nat) (num counter : Z) : outcome Z :=
  if num =? 1 then Ok counter else
  match fuel with
  | O => Spin
  | S fuel => log2u_loop fuel (Z.shiftr num 1) (u32 (counter + 1))
  end.
(** 32 iterations are enough for every [uint32_t] but 0, on which the loop of
    the source does not end. *)
Definition log2u (number : Z) : outcome Z := log2u_loop 32 number 0.
Definition __udivdi3 (n d : Z) : outcome Z := if d =? 0 then Fault else Ok (n / d).
Definition __umoddi3 (n d : Z) : outcome Z := if d =? 0 then Fault else Ok (n `mod` d).
