(* ===== verification/CStringProof.v ===== *)
(** * Correctness of the string library

    [cstr m a l] says that the memory [m] holds the NUL-terminated string [l]
    at address [a]; the theorems give the result of the functions of string.c
    in terms of such strings. *)
From Stdlib Require Import ZArith Lia.
From stdpp Require Import base option gmap list.
From S2P Require Import Prelude Memory CString.

Fixpoint cstr (m : memory) (a : Z) (l : list Z) : Prop :=
  match l with
  | [] => load8 m a = 0
  | c :: l => load8 m a = c ∧ c ≠ 0 ∧ cstr m (a + 1) l
  end.

Lemma cstr_char m a l i :
  cstr m a l → 0 ≤ i ≤ Z.of_nat (length l) → load8 m (a + i) = default 0 (l !! Z.to_nat i).
Proof.
  revert a i; induction l as [|c l IH]; intros a i Hc Hi; cbn in Hc, Hi.
  - assert (i = 0) as -> by lia. by rewrite Z.add_0_r.
  - destruct Hc as (H1 & H2 & Hc). destruct (decide (i = 0)) as [->|]; [by rewrite Z.add_0_r|].
    replace (a + i) with (a + 1 + (i - 1)) by lia. rewrite IH by (done || lia).
    replace (Z.to_nat i) with (S (Z.to_nat (i - 1))) by lia. done.
Qed.

Lemma cstr_frame m m' a l :
  (∀ b, a ≤ b ≤ a + Z.of_nat (length l) → load8 m' b = load8 m b) → cstr m a l → cstr m' a l.
Proof.
  revert a; induction l as [|c l IH]; intros a Hf; cbn in *.
  - intros H. rewrite Hf by lia. done.
  - intros (H1 & H2 & H3). splits; [rewrite Hf by lia; done|done|]. apply IH; [|done]. intros b Hb. apply Hf. lia.
Qed.

Lemma cstr_unique m a l k : cstr m a l → cstr m a k → l = k.
Proof.
  revert a k; induction l as [|c l IH]; intros a [|d k]; cbn; [done| | |].
  - intros H1 (H2 & H3 & _). congruence.
  - intros (H2 & H3 & _) H1. congruence.
  - intros (H1 & _ & H2) (H3 & _ & H4). f_equal; [congruence|by eapply IH].
Qed.

Lemma cstr_byte m a l : cstr m a l → Forall (λ c, 0 < c < 256) l.
Proof.
  revert a; induction l as [|c l IH]; intros a; [constructor|].
  intros (H1 & H2 & H3). apply list.Forall_cons. split; [|by eapply IH].
  pose proof (load8_range m a). lia.
Qed.

(** ** Blocks *)

Lemma load8_copy_down m d s n b :
  s ≤ d →
  load8 (copy_down m d s n) b =
    if decide (d ≤ b < d + Z.of_nat n) then load8 m (s + (b - d)) else load8 m b.
Proof.
  revert m; induction n as [|n IH]; intros m Hsd; cbn [copy_down].
  - by rewrite decide_False by lia.
  - rewrite IH, !load8_store8 by done. destruct (decide (b = d + Z.of_nat n)) as [->|Hb].
    + rewrite decide_False by lia. rewrite !decide_True by lia.
      rewrite u8_small by apply load8_range. f_equal. lia.
    + rewrite (decide_False (P := d + Z.of_nat n = b)) by lia.
      destruct (decide (d ≤ b < d + Z.of_nat n)).
      * rewrite decide_False by lia. by rewrite decide_True by lia.
      * by rewrite decide_False by lia.
Qed.

(** [memmove] copies the original bytes of the source, also when the regions overlap, and changes nothing else. *)
Theorem memmove_correct m dest src n :
  0 ≤ n →
  ∃ m', memmove dest src n m = Ok (dest, m') ∧
    ∀ b, load8 m' b = if decide (dest ≤ b < dest + n) then load8 m (src + (b - dest)) else load8 m b.
Proof.
  intros Hn. unfold memmove. destruct (Z.ltb_spec dest src); [|destruct (Z.ltb_spec src dest)];
    (eexists; split; [by mstep|]); intros b.
  - apply load8_memcpy_z. lia.
  - rewrite load8_copy_down by lia. by rewrite Z2Nat.id.
  - assert (src = dest) as -> by lia. case_decide; [f_equal; lia|done].
Qed.

Lemma memmove_correct_witness :
  let m : memory := store8 (store8 (store8 ∅ 100 1) 101 2) 102 3 in
  ∃ m', memmove 101 100 3 m = Ok (101, m') ∧
    ∀ b, load8 m' b = if decide (101 ≤ b < 101 + 3) then load8 m (100 + (b - 101)) else load8 m b.
Proof. intros m. apply (memmove_correct m 101 100 3). lia. Defined.

(** ** Length and comparison *)

Lemma strlen_spec m a l fuel :
  cstr m a l → (length l < fuel)%nat → strlen fuel a m = Ok (Z.of_nat (length l), m).
Proof.
  revert a fuel; induction l as [|c l IH]; intros a [|fuel] Hc Hf; cbn in Hf; try lia; cbn [strlen].
  - mstep. cbn in Hc. by rewrite Hc.
  - destruct Hc as (H1 & H2 & H3). mstep. rewrite H1, (proj2 (Z.eqb_neq _ _)) by done.
    mstep with (IH _ fuel H3 ltac:(lia)). cbn [length]. unfold mret, M_ret. do 2 f_equal. lia.
Qed.

(** The difference of the first characters in which two strings differ. *)
Fixpoint first_diff (l k : list Z) : Z :=
  match l, k with
  | [], [] => 0
  | [], d :: _ => - d
  | c :: _, [] => c
  | c :: l, d :: k => if c =? d then first_diff l k else c - d
  end.

(** Lexicographic order on byte strings. *)
Inductive lex_lt : list Z → list Z → Prop :=
| lex_nil d k : lex_lt [] (d :: k)
| lex_head c l d k : c < d → lex_lt (c :: l) (d :: k)
| lex_tail c l k : lex_lt l k → lex_lt (c :: l) (c :: k).

Lemma first_diff_order l k :
  Forall (λ c, 0 < c < 256) l → Forall (λ c, 0 < c < 256) k →
  (first_diff l k = 0 ↔ l = k) ∧ (first_diff l k < 0 ↔ lex_lt l k).
Proof.
  revert k; induction l as [|c l IH]; intros [|d k] Hl Hk; cbn [first_diff].
  - split; [done|]. split; [lia|inversion 1].
  - apply list.Forall_cons in Hk as [Hd _]. split; [split; [lia|done]|]. split; [constructor|lia].
  - apply list.Forall_cons in Hl as [Hc _]. split; [split; [lia|done]|]. split; [lia|inversion 1].
  - apply list.Forall_cons in Hl as [Hc Hl]. apply list.Forall_cons in Hk as [Hd Hk].
    destruct (Z.eqb_spec c d) as [->|Hne].
    + destruct (IH k Hl Hk) as [I1 I2]. split; [rewrite I1; split; [by intros ->|by intros [= ->]]|].
      rewrite I2. split; [by constructor|]. inversion 1; [lia|done].
    + split; [split; [lia|intros [= ? _]; lia]|]. split; [intros; constructor; lia|]. inversion 1; subst; [lia|done].
Qed.

Lemma strcmp_spec m a l b k fuel :
  cstr m a l → cstr m b k → (length l < fuel)%nat → strcmp fuel a b m = Ok (first_diff l k, m).
Proof.
  revert a b k fuel; induction l as [|c l IH]; intros a b k [|fuel] Hl Hk Hf; cbn in Hf; try lia; cbn [strcmp].
  - mstep. mstep. cbn in Hl. rewrite Hl. cbn [negb andb].
    destruct k as [|d k]; cbn in Hk |- *; [by rewrite Hk|]. destruct Hk as (-> & _). done.
  - destruct Hl as (H1 & H2 & H3). mstep. mstep. rewrite H1, (proj2 (Z.eqb_neq c 0)) by done. cbn [negb andb].
    destruct k as [|d k]; cbn [first_diff].
    + cbn in Hk. rewrite Hk, (proj2 (Z.eqb_neq c 0)) by done. unfold mret, M_ret. by rewrite Z.sub_0_r.
    + destruct Hk as (K1 & _ & K3). rewrite K1. destruct (Z.eqb_spec c d) as [->|Hne]; [|done].
      apply IH; [done|done|lia].
Qed.

(** [strcmp] of two strings returns (the fuel of the loop is the length of the first one and one more), the
    result is zero exactly on equal strings and negative exactly when the first is lexicographically smaller as a
    sequence of unsigned bytes. *)
Theorem strcmp_correct m a l b k :
  cstr m a l → cstr m b k →
  ∃ r, strcmp (S (length l)) a b m = Ok (r, m) ∧ (r = 0 ↔ l = k) ∧ (r < 0 ↔ lex_lt l k).
Proof.
  intros Hl Hk. exists (first_diff l k). split; [apply strcmp_spec; [done|done|lia]|].
  apply first_diff_order; by eapply cstr_byte.
Qed.

Lemma strcmp_correct_witness :
  let m : memory := store8 (store8 (store8 (store8 ∅ 10 65) 11 200) 20 65) 21 66 in
  ∃ r, strcmp 3 10 20 m = Ok (r, m) ∧ (r = 0 ↔ [65; 200] = [65; 66]) ∧ (r < 0 ↔ lex_lt [65; 200] [65; 66]).
Proof. intros m. apply (strcmp_correct m 10 [65; 200] 20 [65; 66]); vm_compute; repeat split; discriminate. Defined.

(** ** Bounded copy *)

(** Memory after the string [l] and a NUL were stored at [d]. *)
Definition holds_bytes (m : memory) (d : Z) (l : list Z) : Prop :=
  ∀ i, 0 ≤ i < Z.of_nat (length l) → load8 m (d + i) = default 0 (l !! Z.to_nat i).

Lemma cstr_of_bytes m d l :
  holds_bytes m d l → load8 m (d + Z.of_nat (length l)) = 0 → Forall (λ c, 0 < c < 256) l → cstr m d l.
Proof.
  revert d; induction l as [|c l IH]; intros d Hb H0 Hl; cbn in *; [by rewrite Z.add_0_r in H0|].
  apply list.Forall_cons in Hl as [Hc Hl]. splits; [|lia|].
  - specialize (Hb 0 ltac:(cbn; lia)). by rewrite Z.add_0_r in Hb.
  - apply IH; [| |done].
    + intros i Hi. specialize (Hb (i + 1) ltac:(cbn; lia)). replace (d + 1 + i) with (d + (i + 1)) by lia.
      rewrite Hb. by replace (Z.to_nat (i + 1)) with (S (Z.to_nat i)) by lia.
    + by replace (d + 1 + Z.of_nat (length l)) with (d + Z.of_nat (S (length l))) by lia.
Qed.

Lemma triple_ok (x y z x' y' z' : Z) (m : memory) :
  x = x' → y = y' → z = z' → Ok (x, y, z, m) = Ok (x', y', z', m).
Proof. by intros -> -> ->. Qed.

(** The copying loop: it stores the string with its NUL, or its first
    [n - 1] characters, and stops behind what it read. *)
Lemma strlcpy_loop_spec m l : ∀ fuel n d s m0,
  cstr m s l → 1 ≤ n < 2 ^ 64 → d + n ≤ s ∨ s + Z.of_nat (length l) + 1 ≤ d →
  (∀ b, s ≤ b ≤ s + Z.of_nat (length l) → load8 m0 b = load8 m b) → (length l < fuel)%nat →
  let k := Z.min (n - 1) (Z.of_nat (length l)) in
  let full := Z.of_nat (length l) <? n - 1 in
  ∃ m', strlcpy_loop fuel n d s m0 =
      Ok (if full then (n - 1 - Z.of_nat (length l) - 0, d + k + 1, s + k + 1) else (0, d + k, s + k), m') ∧
    ∀ b, load8 m' b = if decide (d ≤ b < d + k + Z.b2z full) then load8 m (s + (b - d)) else load8 m0 b.
Proof.
  induction l as [|c l IH]; intros [|fuel] n d s m0 Hc Hn Hap Hsame Hf; cbn [length] in *; try lia;
    cbn [strlcpy_loop]; rewrite (u64_small (n - 1)) by lia.
  - destruct (Z.eqb_spec (n - 1) 0) as [E|E].
    + exists m0. rewrite E. change (Z.of_nat 0 <? 0) with false. split; [apply triple_ok; lia|].
      intros b. by rewrite decide_False by (cbn; lia).
    + rewrite (proj2 (Z.ltb_lt _ _)) by lia. mstep. cbn in Hc. rewrite (Hsame s) by lia. rewrite Hc. mstep.
      eexists. split; [cbn [Z.eqb]; apply triple_ok; cbn; lia|].
      intros b. cbn. rewrite load8_store8. destruct (decide (d = b)) as [->|].
      * rewrite decide_True by lia. rewrite Z.sub_diag, Z.add_0_r. by rewrite Hc.
      * by rewrite decide_False by lia.
  - destruct Hc as (H1 & H2 & H3). destruct (Z.eqb_spec (n - 1) 0) as [E|E].
    + exists m0. rewrite (proj2 (Z.ltb_ge _ _)), Z.min_l by lia. rewrite E.
      split; [apply triple_ok; lia|]. intros b. by rewrite decide_False by (cbn; lia).
    + mstep. rewrite (Hsame s) by lia. rewrite H1. mstep. rewrite (proj2 (Z.eqb_neq c 0)) by done.
      destruct (IH fuel (n - 1) (d + 1) (s + 1) (store8 m0 d c)) as (m' & E' & Hb'); [done|lia|lia| |lia|].
      { intros b Hb. rewrite load8_store8_ne by lia. apply Hsame. lia. }
      exists m'. rewrite E'. 
      replace (Z.of_nat (S (length l)) <? n - 1) with (Z.of_nat (length l) <? n - 1 - 1)
        by (destruct (Z.ltb_spec (Z.of_nat (length l)) (n - 1 - 1)), (Z.ltb_spec (Z.of_nat (S (length l))) (n - 1)); lia).
      split; [destruct (Z.of_nat (length l) <? n - 1 - 1); apply triple_ok; lia|].
      intros b. rewrite Hb'. set (f := Z.b2z _). assert (0 ≤ f) by (by destruct (_ <? _)).
      rewrite load8_store8. destruct (decide (d = b)) as [->|Hdb].
      * rewrite decide_False by lia. rewrite decide_True by lia.
        rewrite Z.sub_diag, Z.add_0_r, H1. apply u8_small. pose proof (load8_range m s). lia.
      * destruct (decide (d + 1 ≤ b < d + 1 + Z.min (n - 1 - 1) (Z.of_nat (length l)) + f)).
        -- rewrite decide_True by lia. f_equal. lia.
        -- by rewrite decide_False by lia.
Qed.

Lemma skip_to_end_spec m s l fuel :
  cstr m s l → (length l < fuel)%nat → skip_to_end fuel s m = Ok (s + Z.of_nat (length l) + 1, m).
Proof.
  revert s fuel; induction l as [|c l IH]; intros s [|fuel] Hc Hf; cbn in Hf; try lia; cbn [skip_to_end]; mstep.
  - cbn in Hc. rewrite Hc. cbn. unfold mret, M_ret. do 2 f_equal. lia.
  - destruct Hc as (H1 & H2 & H3). rewrite H1, (proj2 (Z.eqb_neq _ _)) by done.
    rewrite (IH _ fuel H3) by lia. cbn [length]. do 2 f_equal. lia.
Qed.

Lemma cstr_drop m a l (k : nat) : (k ≤ length l)%nat → cstr m a l → cstr m (a + Z.of_nat k) (drop k l).
Proof.
  revert a k; induction l as [|c l IH]; intros a [|k] Hk Hc; cbn in Hk; try lia; rewrite ?Z.add_0_r; try done.
  destruct Hc as (_ & _ & Hc). cbn [drop]. replace (a + Z.of_nat (S k)) with (a + 1 + Z.of_nat k) by lia.
  apply IH; [lia|done].
Qed.

Lemma strlcpy_spec m dst src l n fuel :
  cstr m src l → 1 ≤ n < 2 ^ 64 → dst + n ≤ src ∨ src + Z.of_nat (length l) + 1 ≤ dst → (length l < fuel)%nat →
  ∃ m', strlcpy fuel dst src n m = Ok (Z.of_nat (length l), m') ∧
    cstr m' dst (take (Z.to_nat (n - 1)) l) ∧
    ∀ b, ¬ (dst ≤ b < dst + n) → load8 m' b = load8 m b.
Proof.
  intros Hc Hn Hap Hf. pose proof (cstr_byte _ _ _ Hc) as Hbytes.
  destruct (strlcpy_loop_spec m l fuel n dst src m Hc Hn Hap ltac:(done) Hf) as (m1 & E1 & Hb1).
  set (len := Z.of_nat (length l)) in *. set (k := Z.min (n - 1) len) in *.
  assert (0 ≤ k ≤ len) as Hk by (unfold k, len; lia).
  assert (length (take (Z.to_nat (n - 1)) l) = Z.to_nat k) as Hlen by (rewrite length_take; unfold k, len; lia).
  assert (Hbytes' : ∀ m', (∀ i, 0 ≤ i < k → load8 m' (dst + i) = load8 m (src + i)) → load8 m' (dst + k) = 0 →
    cstr m' dst (take (Z.to_nat (n - 1)) l)).
  { intros m' Hm' H0. apply cstr_of_bytes; [| |by apply Forall_take].
    - intros i Hi. rewrite Hlen in Hi. rewrite Hm', (cstr_char m src l i Hc) by lia.
      by rewrite lookup_take_lt by lia.
    - by rewrite Hlen, Z2Nat.id by lia. }
  unfold strlcpy. mstep with E1. destruct (Z.ltb_spec len (n - 1)) as [Hfull|Hcut]; cbn [Z.b2z] in Hb1.
  - rewrite (proj2 (Z.eqb_neq _ _)) by lia. exists m1. splits.
    + mstep. unfold mret, M_ret. do 2 f_equal. lia.
    + apply Hbytes'.
      * intros i Hi. rewrite Hb1, decide_True by lia. f_equal. lia.
      * rewrite Hb1, decide_True by lia. replace (src + (dst + k - dst)) with (src + len) by lia.
        rewrite (cstr_char m src l len Hc), lookup_ge_None_2 by (unfold len; lia). done.
    + intros b Hb. by rewrite Hb1, decide_False by lia.
  - rewrite Z.eqb_refl, (proj2 (Z.eqb_neq n 0)) by lia. unfold when. cbn [negb].
    set (m2 := store8 m1 (dst + k) 0).
    assert (Hsrc : cstr m2 (src + Z.of_nat (Z.to_nat k)) (drop (Z.to_nat k) l)).
    { eapply (cstr_frame m); [|apply cstr_drop; [lia|done]]. intros b Hb. rewrite length_drop in Hb.
      unfold m2. rewrite load8_store8_ne, Hb1, decide_False by lia. done. }
    exists m2. splits.
    + erewrite bind_ok; [|mstep; apply (skip_to_end_spec m2 _ (drop (Z.to_nat k) l));
        [by rewrite Z2Nat.id in Hsrc by lia|rewrite length_drop; lia]].
      unfold mret, M_ret. do 2 f_equal. rewrite length_drop. lia.
    + apply Hbytes'.
      * intros i Hi. unfold m2. rewrite load8_store8_ne, Hb1, decide_True by lia. f_equal. lia.
      * unfold m2. apply load8_store8_eq.
    + intros b Hb. unfold m2. by rewrite load8_store8_ne, Hb1, decide_False by lia.
Qed.

(** [strlcpy] with a non-zero size returns the length of the source, stores the longest prefix of it that fits
    with a terminating NUL, and writes nothing outside the [n] bytes of the destination. *)
Theorem strlcpy_correct m dst src l n :
  cstr m src l → 1 ≤ n < 2 ^ 64 → dst + n ≤ src ∨ src + Z.of_nat (length l) + 1 ≤ dst →
  ∃ m', strlcpy (S (length l)) dst src n m = Ok (Z.of_nat (length l), m') ∧
    cstr m' dst (take (Z.to_nat (n - 1)) l) ∧
    ∀ b, ¬ (dst ≤ b < dst + n) → load8 m' b = load8 m b.
Proof. intros. by apply strlcpy_spec; [..|lia]. Qed.

Lemma strlcpy_correct_witness :
  let m : memory := store8 (store8 (store8 ∅ 10 65) 11 66) 12 67 in
  ∃ m', strlcpy 4 100 10 3 m = Ok (3, m') ∧ cstr m' 100 [65; 66] ∧
    ∀ b, ¬ (100 ≤ b < 100 + 3) → load8 m' b = load8 m b.
Proof.
  intros m. apply (strlcpy_correct m 100 10 [65; 66; 67] 3);
    [vm_compute; repeat split; discriminate|lia|cbn; lia].
Defined.

(** With size 0 the destination has no room at all, but the counter of [strlcpy] wraps around: the whole source
    string and its NUL are written to the destination (here three bytes at address 100). *)
Theorem strlcpy_zero_overflows :
  let m : memory := store8 (store8 ∅ 10 65) 11 66 in
  match strlcpy 5 100 10 0 (store8 m 102 7) with
  | Ok (r, m') => r = 2 ∧ load8 m' 100 = 65 ∧ load8 m' 101 = 66 ∧ load8 m' 102 = 0
  | _ => False
  end.
Proof. vm_compute. auto. Qed.

(** ** Searching *)

(** [match_here] ends on a NUL of the needle exactly when the needle is a
    prefix of what follows. *)
Lemma match_here_spec m a l b k fuel :
  cstr m a l → cstr m b k → (length l < fuel)%nat →
  ∃ c, match_here fuel a b m = Ok (c, m) ∧ (c = 0 ↔ k `prefix_of` l).
Proof.
  revert a b k fuel; induction l as [|x l IH]; intros a b k [|fuel] Hl Hk Hf; cbn in Hf; try lia;
    cbn [match_here]; mstep; mstep.
  - cbn in Hl. rewrite Hl. cbn [Z.eqb negb andb]. destruct k as [|y k].
    + cbn in Hk. exists 0. rewrite Hk. split; [done|]. split; [intros _; apply prefix_nil|done].
    + destruct Hk as (K1 & K2 & _). exists y. rewrite K1. split; [done|].
      split; [done|]. intros H. by apply prefix_nil_not in H.
  - destruct Hl as (H1 & H2 & H3). rewrite H1, (proj2 (Z.eqb_neq x 0)) by done. cbn [negb andb].
    destruct k as [|y k].
    + cbn in Hk. exists 0. rewrite Hk. split; [done|]. split; [intros _; apply prefix_nil|done].
    + destruct Hk as (K1 & K2 & K3). rewrite K1, (proj2 (Z.eqb_neq y 0)) by done. cbn [negb andb].
      destruct (Z.eqb_spec x y) as [->|Hne].
      * destruct (IH (a + 1) (b + 1) k fuel) as (c & E & Hc); [done|done|lia|]. exists c. split; [done|].
        rewrite Hc. split; [by apply prefix_cons|by apply prefix_cons_inv_2].
      * exists y. split; [done|]. split; [done|]. intros H. apply prefix_cons_inv_1 in H. done.
Qed.

(** The position of the first occurrence of [k] in [l]. *)
Fixpoint first_match (k l : list Z) : option Z :=
  match l with
  | [] => None
  | _ :: l' => if decide (k `prefix_of` l) then Some 0 else Z.succ <$> first_match k l'
  end.

Lemma strstr_loop_spec m a l b k fuel inner :
  cstr m a l → cstr m b k → (length l < fuel)%nat → (length l < inner)%nat → (length k < inner)%nat →
  strstr_loop fuel inner a b m = Ok (match first_match k l with Some i => a + i | None => 0 end, m).
Proof.
  intros Hl Hk. revert a Hl fuel; induction l as [|x l IH]; intros a Hl [|fuel] Hf Hi Hin; cbn in Hf; try lia;
    cbn [strstr_loop]; mstep.
  - cbn in Hl. by rewrite Hl.
  - pose proof Hl as (H1 & H2 & H3). rewrite H1, (proj2 (Z.eqb_neq x 0)) by done.
    mstep with (strlen_spec m a (x :: l) inner Hl Hi). mstep with (strlen_spec m b k inner Hk Hin).
    cbn [first_match]. destruct (Z.ltb_spec (Z.of_nat (length (x :: l))) (Z.of_nat (length k))) as [Hlt|Hge].
    + assert (Hnone : ∀ l', (length l' < length k)%nat → first_match k l' = None).
      { induction l' as [|y l' IHl]; intros Hl'; [done|]. cbn [first_match length] in *.
        rewrite decide_False; [by rewrite IHl by lia|]. intros Hp%prefix_length. cbn in Hp. lia. }
      rewrite decide_False; [by rewrite Hnone by (cbn in Hlt; lia)|]. intros Hp%prefix_length. lia.
    + destruct (match_here_spec m a (x :: l) b k inner Hl Hk Hi) as (c & E & Hc). mstep with E.
      destruct (Z.eqb_spec c 0) as [Hc0|Hc0]; case_decide as Hd; try tauto.
      * by rewrite Z.add_0_r.
      * rewrite IH; [|done|lia|cbn in Hi; lia|done].
        destruct (first_match k l); cbn; [do 2 f_equal; lia|done].
Qed.

Lemma first_match_spec k l :
  k ≠ [] →
  match first_match k l with
  | Some i => 0 ≤ i ∧ k `prefix_of` drop (Z.to_nat i) l ∧ ∀ j : nat, Z.of_nat j < i → ¬ k `prefix_of` drop j l
  | None => ∀ j : nat, ¬ k `prefix_of` drop j l
  end.
Proof.
  intros Hk. induction l as [|x l IH]; cbn [first_match].
  - intros j Hp. rewrite drop_nil in Hp. by destruct k; [|apply prefix_nil_not in Hp].
  - case_decide as Hd; [splits; [lia|done|intros; lia]|].
    destruct (first_match k l) as [i|]; cbn.
    + destruct IH as (H0 & Hp & Hmin). splits; [lia| |].
      * by replace (Z.to_nat (Z.succ i)) with (S (Z.to_nat i)) by lia.
      * intros [|j] Hj; [done|]. apply Hmin. lia.
    + intros [|j]; [done|]. apply IH.
Qed.

(** [strstr] returns; the result is the address of the first occurrence of the needle in the haystack, and NULL
    when there is none (the haystack itself for the empty needle). *)
Theorem strstr_correct m a l b k fuel :
  cstr m a l → cstr m b k → (length l < fuel)%nat → (length k < fuel)%nat →
  ∃ r, strstr fuel a b m = Ok (r, m) ∧
    ((r = 0 ∧ ∀ j : nat, ¬ k `prefix_of` drop j l) ∨
     (∃ i, 0 ≤ i ∧ r = a + i ∧ k `prefix_of` drop (Z.to_nat i) l ∧ ∀ j : nat, Z.of_nat j < i → ¬ k `prefix_of` drop j l)).
Proof.
  intros Hl Hk Hf Hfk. unfold strstr. mstep. destruct k as [|y k].
  - cbn in Hk. rewrite Hk. exists a. split; [done|]. right. exists 0. splits; [lia|lia|apply prefix_nil|intros; lia].
  - pose proof Hk as (K1 & K2 & _). rewrite K1, (proj2 (Z.eqb_neq y 0)) by done.
    rewrite (strstr_loop_spec m a l b (y :: k)) by done. eexists. split; [done|].
    pose proof (first_match_spec (y :: k) l ltac:(done)) as Hs. destruct (first_match (y :: k) l) as [i|]; [right|by left].
    exists i. destruct Hs as (? & ? & ?). done.
Qed.

Lemma strstr_correct_witness :
  let m : memory := store8 (store8 (store8 (store8 ∅ 10 65) 11 65) 12 66) 20 66 in
  ∃ r, strstr 5 10 20 m = Ok (r, m) ∧
    ((r = 0 ∧ ∀ j : nat, ¬ [66] `prefix_of` drop j [65; 65; 66]) ∨
     (∃ i, 0 ≤ i ∧ r = 10 + i ∧ [66] `prefix_of` drop (Z.to_nat i) [65; 65; 66] ∧
        ∀ j : nat, Z.of_nat j < i → ¬ [66] `prefix_of` drop j [65; 65; 66])).
Proof.
  intros m. apply (strstr_correct m 10 [65; 65; 66] 20 [66] 5);
    [vm_compute; repeat split; discriminate|vm_compute; repeat split; discriminate|cbn; lia|cbn; lia].
Defined.
