(* ===== verification/Endian.v ===== *)
(** * Byte order

    Model of src/kernel/includes/main/util/endian.h on a little-endian machine
    (the x86-64 branch of its conditional code), and the proof that the
    conversions read memory in big-endian order and are their own inverses. *)
From Stdlib Require Import ZArith Lia.
From stdpp Require Import base option gmap list.
From S2P Require Import Prelude Memory.

Definition be64toh (be : Z) : Z :=
  Z.lor (Z.lor (Z.lor (Z.lor (Z.lor (Z.lor (Z.lor
    (Z.shiftr (Z.land be 0xFF00000000000000) 56)
    (Z.shiftr (Z.land be 0x00FF000000000000) 40))
    (Z.shiftr (Z.land be 0x0000FF0000000000) 24))
    (Z.shiftr (Z.land be 0x000000FF00000000) 8))
    (u64 (Z.shiftl (Z.land be 0x00000000FF000000) 8)))
    (u64 (Z.shiftl (Z.land be 0x0000000000FF0000) 24)))
    (u64 (Z.shiftl (Z.land be 0x000000000000FF00) 40)))
    (u64 (Z.shiftl (Z.land be 0x00000000000000FF) 56)).
Definition le64toh (le : Z) : Z := le.
Definition be32toh (be : Z) : Z :=
  Z.lor (Z.lor (Z.lor
    (Z.shiftr (Z.land be 0xFF000000) 24)
    (Z.shiftr (Z.land be 0x00FF0000) 8))
    (u32 (Z.shiftl (Z.land be 0x0000FF00) 8)))
    (u32 (Z.shiftl (Z.land be 0x000000FF) 24)).
Definition le32toh (le : Z) : Z := le.
Definition be16toh (be : Z) : Z :=
  u16 (Z.lor (Z.shiftr (Z.land be 0xFF00) 8) (Z.shiftl (Z.land be 0x00FF) 8)).
Definition le16toh (le : Z) : Z := le.
Definition bew64toh (be : Z) : Z :=
  Z.lor (Z.lor (Z.lor
    (Z.shiftr (Z.land be 0xFFFF000000000000) 48)
    (Z.shiftr (Z.land be 0x0000FFFF00000000) 16))
    (u64 (Z.shiftl (Z.land be 0x00000000FFFF0000) 16)))
    (u64 (Z.shiftl (Z.land be 0x000000000000FFFF) 48)).
Definition lew64toh (le : Z) : Z := le.
Definition bew32toh (be : Z) : Z :=
  Z.lor (Z.shiftr (Z.land be 0xFFFF0000) 16) (u32 (Z.shiftl (Z.land be 0x0000FFFF) 16)).
Definition lew32toh (le : Z) : Z := le.
Definition lebbew64toh (lbe : Z) : Z := bew64toh (le64toh lbe).
Definition beblew64toh (lbe : Z) : Z := lew64toh (be64toh lbe).
Definition lebbew32toh (lbe : Z) : Z := bew32toh (le32toh lbe).
Definition beblew32toh (lbe : Z) : Z := lew32toh (be32toh lbe).

(** ** The conversions as arithmetic *)

(** The bits [k .. k + w - 1] of [x]. *)
Definition field (k w x : Z) : Z := (x / 2 ^ k) `mod` 2 ^ w.

Lemma land_field k w x : 0 ≤ k → 0 ≤ w → Z.land x (Z.shiftl (Z.ones w) k) = field k w x * 2 ^ k.
Proof.
  intros Hk Hw. unfold field. apply Z.bits_inj'. intros i Hi.
  rewrite Z.land_spec, Z.shiftl_spec by done. rewrite <-Z.shiftl_mul_pow2, Z.shiftl_spec by done.
  rewrite <-Z.shiftr_div_pow2 by done. destruct (decide (i < k)).
  - rewrite !(Z.testbit_neg_r _ (i - k)) by lia. apply andb_false_r.
  - destruct (decide (i - k < w)).
    + rewrite Z.ones_spec_low, andb_true_r, Z.mod_pow2_bits_low, Z.shiftr_spec by lia. f_equal. lia.
    + rewrite Z.ones_spec_high, andb_false_r, Z.mod_pow2_bits_high by lia. done.
Qed.

Lemma lor_low_high b a k : 0 ≤ k → 0 ≤ b < 2 ^ k → Z.lor b (a * 2 ^ k) = b + a * 2 ^ k.
Proof.
  intros Hk Hb. assert (Z.land b (a * 2 ^ k) = 0) as H0.
  { apply Z.bits_inj'. intros i Hi. rewrite Z.land_spec, Z.bits_0, <-Z.shiftl_mul_pow2, Z.shiftl_spec by done.
    destruct (decide (i < k)); [rewrite (Z.testbit_neg_r _ (i - k)) by lia; apply andb_false_r|].
    by rewrite (testbit_high b k) by lia. }
  rewrite <-Z.lxor_lor by done. symmetry. by apply Z.add_nocarry_lxor.
Qed.

Lemma field_range k w x : 0 ≤ w → 0 ≤ field k w x < 2 ^ w.
Proof. intros. apply Z.mod_pos_bound. apply Z.pow_pos_nonneg; lia. Qed.

Lemma shift_down k w x n d : k - n = d → 0 ≤ n ≤ k → 0 ≤ w →
  Z.shiftr (Z.land x (Z.shiftl (Z.ones w) k)) n = field k w x * 2 ^ d.
Proof.
  intros <- Hn Hw. rewrite land_field, Z.shiftr_div_pow2 by lia.
  replace (2 ^ k) with (2 ^ (k - n) * 2 ^ n) by (rewrite <-Z.pow_add_r by lia; f_equal; lia).
  rewrite Z.mul_assoc. apply Z.div_mul. apply Z.pow_nonzero; lia.
Qed.

Lemma shift_up k w x n d : k + n = d → 0 ≤ n → 0 ≤ k → 0 ≤ w →
  Z.shiftl (Z.land x (Z.shiftl (Z.ones w) k)) n = field k w x * 2 ^ d.
Proof.
  intros <- Hn Hk Hw. rewrite land_field, Z.shiftl_mul_pow2 by lia. rewrite Z.pow_add_r by lia. lia.
Qed.

(** Rewrites masks to fields: each literal mask is [ones w] shifted by [k]. *)
Ltac byte_fields :=
  repeat match goal with
  | |- context [Z.shiftr (Z.land ?x ?m) ?n] =>
      let k := eval vm_compute in (Z.log2 (Z.land m (- m))) in
      let w := eval vm_compute in (Z.log2 m + 1 - k) in
      change (Z.shiftr (Z.land x m) n) with (Z.shiftr (Z.land x (Z.shiftl (Z.ones w) k)) n);
      let d := eval vm_compute in (k - n) in rewrite (shift_down k w x n d eq_refl) by lia
  | |- context [Z.shiftl (Z.land ?x ?m) ?n] =>
      let k := eval vm_compute in (Z.log2 (Z.land m (- m))) in
      let w := eval vm_compute in (Z.log2 m + 1 - k) in
      change (Z.shiftl (Z.land x m) n) with (Z.shiftl (Z.land x (Z.shiftl (Z.ones w) k)) n);
      let d := eval vm_compute in (k + n) in rewrite (shift_up k w x n d eq_refl) by lia
  end.

(** Disjunctions of fields are sums, from the lowest field up. *)
Ltac lor_fields :=
  repeat match goal with
  | |- context [Z.lor ?b (?a * 2 ^ ?k)] =>
      lazymatch b with
      | context [Z.lor _ _] => fail
      | _ => rewrite (lor_low_high b a k) by lia
      end
  end.

Lemma be16toh_eq x : be16toh x = field 8 8 x + field 0 8 x * 2 ^ 8.
Proof.
  unfold be16toh. byte_fields.
  pose proof (field_range 8 8 x ltac:(lia)). pose proof (field_range 0 8 x ltac:(lia)).
  rewrite lor_low_high by lia. rewrite Z.pow_0_r, Z.mul_1_r, u16_small by lia. done.
Qed.

Lemma be32toh_eq x :
  be32toh x = field 24 8 x + field 16 8 x * 2 ^ 8 + field 8 8 x * 2 ^ 16 + field 0 8 x * 2 ^ 24.
Proof.
  unfold be32toh. byte_fields. pose proof (field_range 0 8 x ltac:(lia)). pose proof (field_range 8 8 x ltac:(lia)).
  pose proof (field_range 16 8 x ltac:(lia)). pose proof (field_range 24 8 x ltac:(lia)).
  rewrite !u32_small by lia. lor_fields. by rewrite Z.pow_0_r, Z.mul_1_r.
Qed.

Lemma be64toh_eq x :
  be64toh x = field 56 8 x + field 48 8 x * 2 ^ 8 + field 40 8 x * 2 ^ 16 + field 32 8 x * 2 ^ 24 +
    field 24 8 x * 2 ^ 32 + field 16 8 x * 2 ^ 40 + field 8 8 x * 2 ^ 48 + field 0 8 x * 2 ^ 56.
Proof.
  unfold be64toh. byte_fields. pose proof (field_range 0 8 x ltac:(lia)). pose proof (field_range 8 8 x ltac:(lia)).
  pose proof (field_range 16 8 x ltac:(lia)). pose proof (field_range 24 8 x ltac:(lia)). pose proof (field_range 32 8 x ltac:(lia)).
  pose proof (field_range 40 8 x ltac:(lia)). pose proof (field_range 48 8 x ltac:(lia)). pose proof (field_range 56 8 x ltac:(lia)).
  rewrite !u64_small by lia. lor_fields. by rewrite Z.pow_0_r, Z.mul_1_r.
Qed.

Lemma bew64toh_eq x :
  bew64toh x = field 48 16 x + field 32 16 x * 2 ^ 16 + field 16 16 x * 2 ^ 32 + field 0 16 x * 2 ^ 48.
Proof.
  unfold bew64toh. byte_fields. pose proof (field_range 0 16 x ltac:(lia)). pose proof (field_range 16 16 x ltac:(lia)).
  pose proof (field_range 32 16 x ltac:(lia)). pose proof (field_range 48 16 x ltac:(lia)).
  rewrite !u64_small by lia. lor_fields. by rewrite Z.pow_0_r, Z.mul_1_r.
Qed.

Lemma bew32toh_eq x : bew32toh x = field 16 16 x + field 0 16 x * 2 ^ 16.
Proof.
  unfold bew32toh. byte_fields. pose proof (field_range 0 16 x ltac:(lia)). pose proof (field_range 16 16 x ltac:(lia)).
  rewrite !u32_small by lia. lor_fields. by rewrite Z.pow_0_r, Z.mul_1_r.
Qed.

(** The byte [i] of a little-endian value in memory. *)
Lemma load_field n m a i : (i < n)%nat → field (8 * Z.of_nat i) 8 (load n m a) = load8 m (a + Z.of_nat i).
Proof.
  revert a i; induction n as [|n IH]; intros a i Hi; [lia|]. change (load (S n) m a) with (load8 m a + 2 ^ 8 * load n m (a + 1)).
  pose proof (load8_range m a). unfold field in *. destruct i as [|i].
  - cbn [Z.of_nat Z.mul]. rewrite Z.pow_0_r, Z.div_1_r, Z.add_0_r, Z.mul_comm, Z.mod_add by lia. apply Z.mod_small. lia.
  - replace (8 * Z.of_nat (S i)) with (8 + 8 * Z.of_nat i) by lia.
    rewrite Z.pow_add_r, <-Z.div_div by (try apply Z.pow_nonzero; lia || apply Z.pow_pos_nonneg; lia).
    replace ((load8 m a + 2 ^ 8 * load n m (a + 1)) / 2 ^ 8) with (load n m (a + 1)) by zdiv.
    rewrite IH by lia. f_equal. lia.
Qed.

Lemma next_addr a i : a + i + 1 = a + (i + 1).
Proof. lia. Qed.

(** Evaluates the offsets from [a]. *)
Ltac addresses a :=
  repeat match goal with
  | |- context [a + ?i] => let j := eval vm_compute in i in progress change (a + i) with (a + j)
  end.

(** Big-endian reading of [n] bytes. *)
Fixpoint load_be (n : nat) (m : memory) (a acc : Z) : Z :=
  match n with
  | O => acc
  | S n => load_be n m (a + 1) (2 ^ 8 * acc + load8 m a)
  end.

(** A number is the sum of its fields, and the fields of such a sum are its
    summands. *)
Lemma fields_2 w x : 0 ≤ w → field 0 w x + field w w x * 2 ^ w = x `mod` 2 ^ (2 * w).
Proof.
  intros Hw. unfold field. rewrite Z.pow_0_r, Z.div_1_r. replace (2 * w) with (w + w) by lia.
  rewrite Z.pow_add_r, Z.rem_mul_r by (try apply Z.pow_nonzero; lia || apply Z.pow_pos_nonneg; lia). lia.
Qed.

Lemma fields_4 w x : 0 ≤ w →
  field 0 w x + field w w x * 2 ^ w + field (2 * w) w x * 2 ^ (2 * w) + field (3 * w) w x * 2 ^ (3 * w) =
  x `mod` 2 ^ (4 * w).
Proof.
  intros Hw. replace (4 * w) with (2 * w + 2 * w) by lia. assert (0 < 2 ^ (2 * w)) by (apply Z.pow_pos_nonneg; lia).
  rewrite Z.pow_add_r, Z.rem_mul_r by lia. rewrite <-(fields_2 w x), <-(fields_2 w (x / 2 ^ (2 * w))) by lia.
  unfold field. rewrite Z.pow_0_r, !Z.div_1_r, Z.div_div by (try apply Z.pow_nonzero; lia || apply Z.pow_pos_nonneg; lia).
  rewrite <-Z.pow_add_r by lia. replace (2 * w + w) with (3 * w) by lia.
  replace (2 ^ (3 * w)) with (2 ^ (2 * w) * 2 ^ w) by (rewrite <-Z.pow_add_r by lia; f_equal; lia). lia.
Qed.

Lemma fields_8 w x : 0 ≤ w →
  field 0 w x + field w w x * 2 ^ w + field (2 * w) w x * 2 ^ (2 * w) + field (3 * w) w x * 2 ^ (3 * w) +
  field (4 * w) w x * 2 ^ (4 * w) + field (5 * w) w x * 2 ^ (5 * w) + field (6 * w) w x * 2 ^ (6 * w) +
  field (7 * w) w x * 2 ^ (7 * w) = x `mod` 2 ^ (8 * w).
Proof.
  intros Hw. replace (8 * w) with (4 * w + 4 * w) by lia. assert (0 < 2 ^ (4 * w)) by (apply Z.pow_pos_nonneg; lia).
  rewrite Z.pow_add_r, Z.rem_mul_r by lia. rewrite <-(fields_4 w x), <-(fields_4 w (x / 2 ^ (4 * w))) by lia.
  unfold field. rewrite Z.pow_0_r, !Z.div_1_r, !Z.div_div by (try apply Z.pow_nonzero; lia || apply Z.pow_pos_nonneg; lia).
  rewrite <-!Z.pow_add_r by lia.
  replace (4 * w + w) with (5 * w) by lia. replace (4 * w + 2 * w) with (6 * w) by lia.
  replace (4 * w + 3 * w) with (7 * w) by lia.
  replace (2 ^ (5 * w)) with (2 ^ (4 * w) * 2 ^ w) by (rewrite <-Z.pow_add_r by lia; f_equal; lia).
  replace (2 ^ (6 * w)) with (2 ^ (4 * w) * 2 ^ (2 * w)) by (rewrite <-Z.pow_add_r by lia; f_equal; lia).
  replace (2 ^ (7 * w)) with (2 ^ (4 * w) * 2 ^ (3 * w)) by (rewrite <-Z.pow_add_r by lia; f_equal; lia). lia.
Qed.

(** Replaces the number by the sum of its fields. *)
Ltac recompose H :=
  let E := fresh in pose proof H as E;
  repeat match type of E with
  | context [Z.mul (Zpos ?p) (Zpos ?q)] =>
      let r := eval vm_compute in (Zpos p * Zpos q) in change (Zpos p * Zpos q) with r in E
  end; rewrite <-E; clear E.

(** Generalises the fields of [x] of width [w] to bounded numbers. *)
Ltac name_fields x :=
  repeat match goal with
  | |- context [field ?k ?w x] =>
      pose proof (field_range k w x ltac:(lia)); generalize dependent (field k w x); intros
  end.

Lemma be16toh_invol x : be16toh (be16toh x) = u16 x.
Proof.
  rewrite (be16toh_eq (be16toh x)), be16toh_eq. unfold u16. recompose (fields_2 8 x ltac:(lia)).
  name_fields x. unfold field. zdiv.
Qed.
Lemma bew32toh_invol x : bew32toh (bew32toh x) = u32 x.
Proof.
  rewrite (bew32toh_eq (bew32toh x)), bew32toh_eq. unfold u32. recompose (fields_2 16 x ltac:(lia)).
  name_fields x. unfold field. zdiv.
Qed.
Lemma be32toh_invol x : be32toh (be32toh x) = u32 x.
Proof.
  rewrite (be32toh_eq (be32toh x)), be32toh_eq. unfold u32. recompose (fields_4 8 x ltac:(lia)).
  name_fields x. unfold field. zdiv.
Qed.
Lemma bew64toh_invol x : bew64toh (bew64toh x) = u64 x.
Proof.
  rewrite (bew64toh_eq (bew64toh x)), bew64toh_eq. unfold u64. recompose (fields_4 16 x ltac:(lia)).
  name_fields x. unfold field. zdiv.
Qed.
(** Fields of a number written digit by digit. *)
Lemma field_low b y : 0 ≤ b < 2 ^ 8 → field 0 8 (b + 2 ^ 8 * y) = b.
Proof. intros. unfold field. zdiv. Qed.
Lemma field_high k b y : 0 ≤ k → 0 ≤ b < 2 ^ 8 → field (8 + k) 8 (b + 2 ^ 8 * y) = field k 8 y.
Proof.
  intros Hk Hb. unfold field. rewrite Z.pow_add_r, <-Z.div_div by (try apply Z.pow_nonzero; lia || apply Z.pow_pos_nonneg; lia).
  do 2 f_equal. zdiv.
Qed.
Ltac digits :=
  repeat match goal with
  | |- context [field 0 8 (?b + 2 ^ 8 * ?y)] => rewrite (field_low b y) by lia
  | |- context [field (Zpos ?k) 8 (?b + 2 ^ 8 * ?y)] =>
      let k' := eval vm_compute in (Zpos k - 8) in
      change (field (Zpos k) 8 (b + 2 ^ 8 * y)) with (field (8 + k') 8 (b + 2 ^ 8 * y));
      rewrite (field_high k' b y) by lia
  end.

Lemma be64toh_invol x : be64toh (be64toh x) = u64 x.
Proof.
  assert (be64toh x = field 56 8 x + 2 ^ 8 * (field 48 8 x + 2 ^ 8 * (field 40 8 x + 2 ^ 8 * (field 32 8 x +
    2 ^ 8 * (field 24 8 x + 2 ^ 8 * (field 16 8 x + 2 ^ 8 * (field 8 8 x + 2 ^ 8 * (field 0 8 x + 2 ^ 8 * 0)))))))) as E
    by (rewrite be64toh_eq; lia).
  rewrite (be64toh_eq (be64toh x)), E. clear E. unfold u64. recompose (fields_8 8 x ltac:(lia)).
  name_fields x. digits. lia.
Qed.

(** Applied to a 16, 32 or 64-bit value loaded from memory, the [be*toh] functions give the value the bytes have
    in big-endian order, and they are their own inverses on values of their width. *)
Theorem betoh_correct m a x :
  be16toh (load16 m a) = load_be 2 m a 0 ∧ be32toh (load32 m a) = load_be 4 m a 0 ∧
  be64toh (load64 m a) = load_be 8 m a 0 ∧
  be16toh (be16toh x) = u16 x ∧ be32toh (be32toh x) = u32 x ∧ be64toh (be64toh x) = u64 x ∧
  bew32toh (bew32toh x) = u32 x ∧ bew64toh (bew64toh x) = u64 x.
Proof.
  assert (Hf : ∀ n k j, k = 8 * j → 0 ≤ j < Z.of_nat n → field k 8 (load n m a) = load8 m (a + j)).
  { intros n k j -> Hj. rewrite <-(Z2Nat.id j) by lia. apply load_field. lia. }
  splits.
  - rewrite be16toh_eq. unfold load16. rewrite (Hf 2%nat 8 1), (Hf 2%nat 0 0) by (done || lia).
    unfold load_be. rewrite Z.add_0_r. lia.
  - rewrite be32toh_eq. unfold load32. rewrite (Hf 4%nat 24 3), (Hf 4%nat 16 2), (Hf 4%nat 8 1), (Hf 4%nat 0 0) by (done || lia).
    unfold load_be. rewrite Z.add_0_r, !next_addr. addresses a. lia.
  - rewrite be64toh_eq. unfold load64. rewrite (Hf 8%nat 56 7), (Hf 8%nat 48 6), (Hf 8%nat 40 5), (Hf 8%nat 32 4),
      (Hf 8%nat 24 3), (Hf 8%nat 16 2), (Hf 8%nat 8 1), (Hf 8%nat 0 0) by (done || lia).
    unfold load_be. rewrite Z.add_0_r, !next_addr. addresses a. lia.
  - apply be16toh_invol.
  - apply be32toh_invol.
  - apply be64toh_invol.
  - apply bew32toh_invol.
  - apply bew64toh_invol.
Qed.
