(* ===== verification/Tlsf.v ===== *)
(** * The kernel heap

    Model of src/kernel/main/mm/heapalloc/tlsf.c (the two-level segregated fit
    allocator) and src/kernel/main/mm/heapalloc/malloc.c, as compiled by GCC
    for x86-64.  The control structure and the block headers live in the byte
    memory at their C offsets; a failed [tlsf_assert] stops the kernel. *)
From Stdlib Require Import ZArith Lia.
From stdpp Require Import base option gmap list.
From S2P Require Import Prelude Memory.

(** ** Constants *)

Definition SL_INDEX_COUNT_LOG2 : Z := 5.
Definition ALIGN_SIZE_LOG2 : Z := 3.
Definition ALIGN_SIZE : Z := Z.shiftl 1 ALIGN_SIZE_LOG2.
Definition FL_INDEX_MAX : Z := 32.
Definition SL_INDEX_COUNT : Z := Z.shiftl 1 SL_INDEX_COUNT_LOG2.
Definition FL_INDEX_SHIFT : Z := SL_INDEX_COUNT_LOG2 + ALIGN_SIZE_LOG2.
Definition FL_INDEX_COUNT : Z := FL_INDEX_MAX - FL_INDEX_SHIFT + 1.
Definition SMALL_BLOCK_SIZE : Z := Z.shiftl 1 FL_INDEX_SHIFT.

(** [block_header_t]: offsets of the fields and size. *)
Definition off_prev_phys : Z := 0.
Definition off_size : Z := 8.
Definition off_next_free : Z := 16.
Definition off_prev_free : Z := 24.
Definition sizeof_block_header : Z := 32.

Definition block_header_free_bit : Z := Z.shiftl 1 0.
Definition block_header_prev_free_bit : Z := Z.shiftl 1 1.
Definition block_header_overhead : Z := 8.
Definition block_start_offset : Z := off_size + 8.
Definition block_size_min : Z := sizeof_block_header - 8.
Definition block_size_max : Z := Z.shiftl 1 FL_INDEX_MAX.

(** [control_t]: [block_null] at 0, then the bitmaps and the list heads. *)
Definition off_fl_bitmap : Z := sizeof_block_header.
Definition off_sl_bitmap : Z := off_fl_bitmap + 4.
Definition off_blocks : Z := off_sl_bitmap + 4 * FL_INDEX_COUNT.
Definition sizeof_control : Z := off_blocks + 8 * (FL_INDEX_COUNT * SL_INDEX_COUNT).

(** ** Bit search *)

(** [__builtin_ffs(word) - 1] *)
Definition tlsf_ffs (word : Z) : Z := if word =? 0 then -1 else Z.log2 (Z.land word (- word)).
(** [word ? 32 - __builtin_clz(word) : 0], less one *)
Definition tlsf_fls (word : Z) : Z := if word =? 0 then -1 else Z.log2 word.
Definition tlsf_fls_sizet (size : Z) : Z :=
  let high := u32 (Z.shiftr size 32) in
  if negb (high =? 0) then 32 + tlsf_fls high else tlsf_fls (Z.land (u32 size) 0xffffffff).

(** ** Memory accesses *)

Definition tlsf_assert (b : bool) : M memory unit := if b then mret tt else halt.
Definition get_size (block : Z) : M memory Z := gets (λ m, load64 m (block + off_size)).
Definition set_size (block v : Z) : M memory unit := modify (λ m, store64 m (block + off_size) v).
Definition get_prev_phys (block : Z) : M memory Z := gets (λ m, load64 m (block + off_prev_phys)).
Definition set_prev_phys (block v : Z) : M memory unit := modify (λ m, store64 m (block + off_prev_phys) v).
Definition get_next_free (block : Z) : M memory Z := gets (λ m, load64 m (block + off_next_free)).
Definition set_next_free (block v : Z) : M memory unit := modify (λ m, store64 m (block + off_next_free) v).
Definition get_prev_free (block : Z) : M memory Z := gets (λ m, load64 m (block + off_prev_free)).
Definition set_prev_free (block v : Z) : M memory unit := modify (λ m, store64 m (block + off_prev_free) v).

Definition fl_bitmap (control : Z) : M memory Z := gets (λ m, load32 m (control + off_fl_bitmap)).
Definition set_fl_bitmap (control v : Z) : M memory unit := modify (λ m, store32 m (control + off_fl_bitmap) v).
(** An index outside the array is an access out of bounds. *)
Definition sl_bitmap (control fl : Z) : M memory Z :=
  if (0 <=? fl) && (fl <? FL_INDEX_COUNT) then gets (λ m, load32 m (control + off_sl_bitmap + 4 * fl)) else fault.
Definition set_sl_bitmap (control fl v : Z) : M memory unit :=
  if (0 <=? fl) && (fl <? FL_INDEX_COUNT) then modify (λ m, store32 m (control + off_sl_bitmap + 4 * fl) v) else fault.
Definition list_head (control fl sl : Z) : Z := control + off_blocks + 8 * (SL_INDEX_COUNT * fl + sl).
Definition in_lists (fl sl : Z) : bool :=
  (0 <=? fl) && (fl <? FL_INDEX_COUNT) && (0 <=? sl) && (sl <? SL_INDEX_COUNT).
Definition get_head (control fl sl : Z) : M memory Z :=
  if in_lists fl sl then gets (λ m, load64 m (list_head control fl sl)) else fault.
Definition set_head (control fl sl v : Z) : M memory unit :=
  if in_lists fl sl then modify (λ m, store64 m (list_head control fl sl) v) else fault.
(** [&control->block_null] *)
Definition block_null (control : Z) : Z := control.

(** ** Block headers *)

Definition size_bits : Z := Z.lor block_header_free_bit block_header_prev_free_bit.
Definition block_size (block : Z) : M memory Z := s ← get_size block; mret (Z.land s (Z.lnot size_bits)).
Definition block_set_size (block size : Z) : M memory unit :=
  oldsize ← get_size block; set_size block (Z.lor size (Z.land oldsize size_bits)).
Definition block_is_last (block : Z) : M memory bool := s ← block_size block; mret (s =? 0).
Definition block_is_free (block : Z) : M memory bool :=
  s ← get_size block; mret (negb (Z.land s block_header_free_bit =? 0)).
Definition block_set_free (block : Z) : M memory unit :=
  s ← get_size block; set_size block (Z.lor s block_header_free_bit).
Definition block_set_used (block : Z) : M memory unit :=
  s ← get_size block; set_size block (Z.land s (Z.lnot block_header_free_bit)).
Definition block_is_prev_free (block : Z) : M memory bool :=
  s ← get_size block; mret (negb (Z.land s block_header_prev_free_bit =? 0)).
Definition block_set_prev_free (block : Z) : M memory unit :=
  s ← get_size block; set_size block (Z.lor s block_header_prev_free_bit).
Definition block_set_prev_used (block : Z) : M memory unit :=
  s ← get_size block; set_size block (Z.land s (Z.lnot block_header_prev_free_bit)).

Definition block_from_ptr (ptr : Z) : Z := u64 (ptr - block_start_offset).
Definition block_to_ptr (block : Z) : Z := u64 (block + block_start_offset).
Definition offset_to_block (ptr size : Z) : Z := u64 (ptr + size).

Definition block_prev (block : Z) : M memory Z :=
  pf ← block_is_prev_free block; tlsf_assert pf;; get_prev_phys block.
Definition block_next (block : Z) : M memory Z :=
  s ← block_size block;
  let next := offset_to_block (block_to_ptr block) (s - block_header_overhead) in
  last ← block_is_last block;
  tlsf_assert (negb last);;
  mret next.
Definition block_link_next (block : Z) : M memory Z :=
  next ← block_next block; set_prev_phys next block;; mret next.
Definition block_mark_as_free (block : Z) : M memory unit :=
  next ← block_link_next block; block_set_prev_free next;; block_set_free block.
Definition block_mark_as_used (block : Z) : M memory unit :=
  next ← block_next block; block_set_prev_used next;; block_set_used block.

Definition is_pow2 (align : Z) : bool := Z.land align (u64 (align - 1)) =? 0.
Definition align_up (x align : Z) : M memory Z :=
  tlsf_assert (is_pow2 align);; mret (u64 (Z.land (u64 (x + (align - 1))) (Z.lnot (align - 1)))).
Definition align_down (x align : Z) : M memory Z :=
  tlsf_assert (is_pow2 align);; mret (u64 (x - Z.land x (align - 1))).
Definition align_ptr (ptr align : Z) : M memory Z :=
  let aligned := u64 (Z.land (u64 (ptr + (align - 1))) (Z.lnot (align - 1))) in
  tlsf_assert (is_pow2 align);; mret aligned.

Definition adjust_request_size (size align : Z) : M memory Z :=
  if size =? 0 then mret 0 else
  aligned ← align_up size align;
  mret (if aligned <? block_size_max then Z.max aligned block_size_min else 0).

(** ** Size classes *)

Definition mapping_insert (size : Z) : Z * Z :=
  if size <? SMALL_BLOCK_SIZE then (0, s32 size / (SMALL_BLOCK_SIZE / SL_INDEX_COUNT))
  else
    let fl := tlsf_fls_sizet size in
    let sl := Z.lxor (s32 (Z.shiftr size (fl - SL_INDEX_COUNT_LOG2))) (Z.shiftl 1 SL_INDEX_COUNT_LOG2) in
    (fl - (FL_INDEX_SHIFT - 1), sl).

(** The shift of an [int] by 31 or more is undefined. *)
Definition mapping_search (size : Z) : M memory (Z * Z) :=
  if SMALL_BLOCK_SIZE <=? size then
    let k := tlsf_fls_sizet size - SL_INDEX_COUNT_LOG2 in
    if 31 <=? k then fault else
    let round := Z.shiftl 1 k - 1 in
    mret (mapping_insert (u64 (size + round)))
  else mret (mapping_insert size).

(** The result is the block (0 when there is none) and the list it heads. *)
Definition search_suitable_block (control fl sl : Z) : M memory (Z * (Z * Z)) :=
  slb ← sl_bitmap control fl;
  let sl_map := Z.land slb (u32 (Z.shiftl 0xffffffff sl)) in
  if sl_map =? 0 then
    flb ← fl_bitmap control;
    let fl_map := Z.land flb (u32 (Z.shiftl 0xffffffff (fl + 1))) in
    if fl_map =? 0 then mret (0, (fl, sl)) else
    let fl := tlsf_ffs fl_map in
    sl_map ← sl_bitmap control fl;
    tlsf_assert (negb (sl_map =? 0));;
    let sl := tlsf_ffs sl_map in
    block ← get_head control fl sl;
    mret (block, (fl, sl))
  else
    tlsf_assert (negb (sl_map =? 0));;
    let sl := tlsf_ffs sl_map in
    block ← get_head control fl sl;
    mret (block, (fl, sl)).

(** ** Free lists *)

Definition remove_free_block (control block fl sl : Z) : M memory unit :=
  prev ← get_prev_free block;
  next ← get_next_free block;
  tlsf_assert (negb (prev =? 0));;
  tlsf_assert (negb (next =? 0));;
  set_prev_free next prev;;
  set_next_free prev next;;
  head ← get_head control fl sl;
  if head =? block then
    set_head control fl sl next;;
    if next =? block_null control then
      slb ← sl_bitmap control fl;
      set_sl_bitmap control fl (Z.land slb (u32 (Z.lnot (Z.shiftl 1 sl))));;
      slb ← sl_bitmap control fl;
      if slb =? 0 then
        flb ← fl_bitmap control;
        set_fl_bitmap control (Z.land flb (u32 (Z.lnot (Z.shiftl 1 fl))))
      else mret tt
    else mret tt
  else mret tt.

Definition insert_free_block (control block fl sl : Z) : M memory unit :=
  current ← get_head control fl sl;
  tlsf_assert (negb (current =? 0));;
  tlsf_assert (negb (block =? 0));;
  set_next_free block current;;
  set_prev_free block (block_null control);;
  set_prev_free current block;;
  aligned ← align_ptr (block_to_ptr block) ALIGN_SIZE;
  tlsf_assert (block_to_ptr block =? aligned);;
  set_head control fl sl block;;
  flb ← fl_bitmap control;
  set_fl_bitmap control (Z.lor flb (u32 (Z.shiftl 1 fl)));;
  slb ← sl_bitmap control fl;
  set_sl_bitmap control fl (Z.lor slb (u32 (Z.shiftl 1 sl))).

Definition block_remove (control block : Z) : M memory unit :=
  s ← block_size block;
  let '(fl, sl) := mapping_insert s in
  remove_free_block control block fl sl.
Definition block_insert (control block : Z) : M memory unit :=
  s ← block_size block;
  let '(fl, sl) := mapping_insert s in
  insert_free_block control block fl sl.

(** ** Splitting and merging *)

Definition block_can_split (block size : Z) : M memory bool :=
  s ← block_size block; mret (u64 (sizeof_block_header + size) <=? s).

Definition block_split (block size : Z) : M memory Z :=
  let remaining := offset_to_block (block_to_ptr block) (size - block_header_overhead) in
  s ← block_size block;
  let remain_size := u64 (s - (size + block_header_overhead)) in
  aligned ← align_ptr (block_to_ptr remaining) ALIGN_SIZE;
  tlsf_assert (block_to_ptr remaining =? aligned);;
  s ← block_size block;
  tlsf_assert (s =? u64 (remain_size + size + block_header_overhead));;
  block_set_size remaining remain_size;;
  rs ← block_size remaining;
  tlsf_assert (block_size_min <=? rs);;
  block_set_size block size;;
  block_mark_as_free remaining;;
  mret remaining.

Definition block_absorb (prev block : Z) : M memory Z :=
  last ← block_is_last prev;
  tlsf_assert (negb last);;
  s ← block_size block;
  ps ← get_size prev;
  set_size prev (u64 (ps + (s + block_header_overhead)));;
  block_link_next prev;;
  mret prev.

Definition block_merge_prev (control block : Z) : M memory Z :=
  pf ← block_is_prev_free block;
  if (pf : bool) then
    prev ← block_prev block;
    tlsf_assert (negb (prev =? 0));;
    f ← block_is_free prev;
    tlsf_assert f;;
    block_remove control prev;;
    block_absorb prev block
  else mret block.

Definition block_merge_next (control block : Z) : M memory Z :=
  next ← block_next block;
  tlsf_assert (negb (next =? 0));;
  f ← block_is_free next;
  if (f : bool) then
    last ← block_is_last block;
    tlsf_assert (negb last);;
    block_remove control next;;
    block_absorb block next
  else mret block.

Definition block_trim_free (control block size : Z) : M memory unit :=
  f ← block_is_free block;
  tlsf_assert f;;
  split ← block_can_split block size;
  if (split : bool) then
    remaining_block ← block_split block size;
    block_link_next block;;
    block_set_prev_free remaining_block;;
    block_insert control remaining_block
  else mret tt.

Definition block_trim_used (control block size : Z) : M memory unit :=
  f ← block_is_free block;
  tlsf_assert (negb f);;
  split ← block_can_split block size;
  if (split : bool) then
    remaining_block ← block_split block size;
    block_set_prev_used remaining_block;;
    remaining_block ← block_merge_next control remaining_block;
    block_insert control remaining_block
  else mret tt.

Definition block_trim_free_leading (control block size : Z) : M memory Z :=
  split ← block_can_split block size;
  if (split : bool) then
    remaining_block ← block_split block (size - block_header_overhead);
    block_set_prev_free remaining_block;;
    block_link_next block;;
    block_insert control block;;
    mret remaining_block
  else mret block.

(** ** Allocation *)

Definition block_locate_free (control size : Z) : M memory Z :=
  '(block, (fl, sl)) ←
    (if size =? 0 then mret (0, (0, 0)) else
     '(fl, sl) ← mapping_search size;
     if fl <? FL_INDEX_COUNT then search_suitable_block control fl sl else mret (0, (fl, sl)));
  (if negb (block =? 0) then
     s ← block_size block;
     tlsf_assert (size <=? s);;
     remove_free_block control block fl sl
   else mret tt);;
  mret block.

Definition block_prepare_used (control block size : Z) : M memory Z :=
  if negb (block =? 0) then
    tlsf_assert (negb (size =? 0));;
    block_trim_free control block size;;
    block_mark_as_used block;;
    mret (block_to_ptr block)
  else mret 0.

Definition control_construct (control : Z) : M memory unit :=
  set_next_free (block_null control) (block_null control);;
  set_prev_free (block_null control) (block_null control);;
  set_fl_bitmap control 0;;
  for_loop (Z.to_nat FL_INDEX_COUNT) 0 (λ i,
    set_sl_bitmap control i 0;;
    for_loop (Z.to_nat SL_INDEX_COUNT) 0 (λ j, set_head control i j (block_null control))).

(** ** Integrity checks *)

(** [tlsf_insist(x)]: the assertion, then the status. *)
Definition tlsf_insist (x : bool) (status : Z) : M memory Z :=
  tlsf_assert x;; mret (if x then status else status - 1).

(** The walk over one free list; [fuel] bounds the number of its blocks. *)
Fixpoint check_list (fuel : nat) (control i j block status : Z) : M memory Z :=
  if block =? block_null control then mret status else
  match fuel with
  | O => spin
  | S fuel =>
      free ← block_is_free block;
      status ← tlsf_insist free status;
      pf ← block_is_prev_free block;
      status ← tlsf_insist (negb pf) status;
      next ← block_next block;
      nf ← block_is_free next;
      status ← tlsf_insist (negb nf) status;
      npf ← block_is_prev_free next;
      status ← tlsf_insist npf status;
      s ← block_size block;
      status ← tlsf_insist (block_size_min <=? s) status;
      let '(fli, sli) := mapping_insert s in
      status ← tlsf_insist ((fli =? i) && (sli =? j)) status;
      block ← get_next_free block;
      check_list fuel control i j block status
  end.

Definition check_class (fuel : nat) (control i j status : Z) : M memory Z :=
  flb ← fl_bitmap control;
  let fl_map := Z.land flb (u32 (Z.shiftl 1 i)) in
  sl_list ← sl_bitmap control i;
  let sl_map := Z.land sl_list (u32 (Z.shiftl 1 j)) in
  block ← get_head control i j;
  status ← (if fl_map =? 0 then tlsf_insist (sl_map =? 0) status else mret status);
  if sl_map =? 0 then tlsf_insist (block =? block_null control) status else
  status ← tlsf_insist (negb (sl_list =? 0)) status;
  status ← tlsf_insist (negb (block =? block_null control)) status;
  check_list fuel control i j block status.

Fixpoint check_classes (fuel : nat) (control : Z) (ijs : list (Z * Z)) (status : Z) : M memory Z :=
  match ijs with
  | [] => mret status
  | (i, j) :: ijs => status ← check_class fuel control i j status; check_classes fuel control ijs status
  end.
(** The pairs the two counted loops run through. *)
Definition all_classes : list (Z * Z) :=
  i ← seqZ 0 FL_INDEX_COUNT; (λ j, (i, j)) <$> seqZ 0 SL_INDEX_COUNT.
Definition tlsf_check (fuel : nat) (tlsf : Z) : M memory Z := check_classes fuel tlsf all_classes 0.

(** A walker is a function with state of its own, the [user] argument. *)
Definition in_heap {U A} (m : M memory A) : M (memory * U) A := zoom fst (λ h s, (h, snd s)) m.

Fixpoint walk_blocks {U} (fuel : nat) (walker : Z → Z → bool → M (memory * U) unit) (block : Z)
    : M (memory * U) unit :=
  if block =? 0 then mret tt else
  last ← in_heap (block_is_last block);
  if (last : bool) then mret tt else
  match fuel with
  | O => spin
  | S fuel =>
      s ← in_heap (block_size block);
      free ← in_heap (block_is_free block);
      walker (block_to_ptr block) s (negb free);;
      next ← in_heap (block_next block);
      walk_blocks fuel walker next
  end.
Definition tlsf_walk_pool {U} (fuel : nat) (pool : Z) (walker : Z → Z → bool → M (memory * U) unit)
    : M (memory * U) unit :=
  walk_blocks fuel walker (offset_to_block pool (- block_header_overhead)).

(** What [default_walker] prints: pointer, use, size and block. *)
Definition default_walker (ptr size : Z) (used : bool) : M (memory * list (Z * bool * Z * Z)) unit :=
  modify (λ s, (fst s, snd s ++ [(ptr, used, u32 size, block_from_ptr ptr)])).

(** [integrity_t]: previous status and status. *)
Definition integrity_walker (ptr size : Z) (used : bool) : M (memory * (Z * Z)) unit :=
  let block := block_from_ptr ptr in
  pf ← in_heap (block_is_prev_free block);
  f ← in_heap (block_is_free block);
  this_block_size ← in_heap (block_size block);
  integ ← gets snd;
  status ← in_heap (tlsf_insist (fst integ =? Z.b2z pf) 0);
  status ← in_heap (tlsf_insist (size =? this_block_size) status);
  modify (λ s, (fst s, (Z.b2z f, snd (snd s) + status))).
Definition tlsf_check_pool (fuel : nat) (pool : Z) : M memory Z := λ m,
  match tlsf_walk_pool fuel pool integrity_walker (m, (0, 0)) with
  | Ok (_, (m', integ)) => Ok (snd integ, m')
  | Halt => Halt
  | Fault => Fault
  | Spin => Spin
  end.

Definition tlsf_block_size (ptr : Z) : M memory Z :=
  if negb (ptr =? 0) then block_size (block_from_ptr ptr) else mret 0.
Definition tlsf_size : Z := sizeof_control.
Definition tlsf_align_size : Z := ALIGN_SIZE.
Definition tlsf_block_size_min : Z := block_size_min.
Definition tlsf_block_size_max : Z := block_size_max.
Definition tlsf_pool_overhead : Z := 2 * block_header_overhead.
Definition tlsf_alloc_overhead : Z := block_header_overhead.

(** ** Pools *)

Definition tlsf_add_pool (tlsf mem bytes : Z) : M memory Z :=
  pool_bytes ← align_down (u64 (bytes - tlsf_pool_overhead)) ALIGN_SIZE;
  if negb (s64 mem `rem` ALIGN_SIZE =? 0) then mret 0 else
  if (pool_bytes <? block_size_min) || (block_size_max <? pool_bytes) then mret 0 else
  let block := offset_to_block mem (- block_header_overhead) in
  block_set_size block pool_bytes;;
  block_set_free block;;
  block_set_prev_used block;;
  block_insert tlsf block;;
  next ← block_link_next block;
  block_set_size next 0;;
  block_set_used next;;
  block_set_prev_free next;;
  mret mem.

Definition tlsf_remove_pool (tlsf pool : Z) : M memory unit :=
  let block := offset_to_block pool (- block_header_overhead) in
  f ← block_is_free block;
  tlsf_assert f;;
  next ← block_next block;
  nf ← block_is_free next;
  tlsf_assert (negb nf);;
  next ← block_next block;
  ns ← block_size next;
  tlsf_assert (ns =? 0);;
  s ← block_size block;
  let '(fl, sl) := mapping_insert s in
  remove_free_block tlsf block fl sl.

(** The self-test of the bit searches, compiled in debug builds. *)
Definition test_ffs_fls : Z :=
  let t (b : bool) (v : Z) := if b then 0 else v in
  t (tlsf_ffs 0 =? -1) 0x1 + t (tlsf_fls 0 =? -1) 0x2 + t (tlsf_ffs 1 =? 0) 0x4 + t (tlsf_fls 1 =? 0) 0x8 +
  t (tlsf_ffs 0x80000000 =? 31) 0x10 + t (tlsf_ffs 0x80008000 =? 15) 0x20 +
  t (tlsf_fls 0x80000008 =? 31) 0x40 + t (tlsf_fls 0x7FFFFFFF =? 30) 0x80 +
  t (tlsf_fls_sizet 0x80000000 =? 31) 0x100 + t (tlsf_fls_sizet 0x100000000 =? 32) 0x200 +
  t (tlsf_fls_sizet 0xffffffffffffffff =? 63) 0x400.

Definition tlsf_create (mem : Z) : M memory Z :=
  if negb (s64 mem `rem` ALIGN_SIZE =? 0) then mret 0 else
  control_construct mem;; mret mem.
Definition tlsf_create_with_pool (mem bytes : Z) : M memory Z :=
  tlsf ← tlsf_create mem;
  tlsf_add_pool tlsf (u64 (mem + tlsf_size)) (u64 (bytes - tlsf_size));;
  mret tlsf.
Definition tlsf_destroy (tlsf : Z) : M memory unit := mret tt.
Definition tlsf_get_pool (tlsf : Z) : Z := u64 (tlsf + tlsf_size).

(** ** The public operations *)

Definition tlsf_malloc (tlsf size : Z) : M memory Z :=
  adjust ← adjust_request_size size ALIGN_SIZE;
  block ← block_locate_free tlsf adjust;
  block_prepare_used tlsf block adjust.

Definition tlsf_memalign (tlsf align size : Z) : M memory Z :=
  adjust ← adjust_request_size size ALIGN_SIZE;
  let gap_minimum := sizeof_block_header in
  size_with_gap ← adjust_request_size (u64 (adjust + align + gap_minimum)) align;
  let aligned_size := if negb (adjust =? 0) && (ALIGN_SIZE <? align) then size_with_gap else adjust in
  block ← block_locate_free tlsf aligned_size;
  tlsf_assert (sizeof_block_header =? block_size_min + block_header_overhead);;
  block ← (if negb (block =? 0) then
    let ptr := block_to_ptr block in
    aligned ← align_ptr ptr align;
    let gap := u64 (aligned - ptr) in
    gap ← (if negb (gap =? 0) && (gap <? gap_minimum) then
             let gap_remain := gap_minimum - gap in
             let offset := Z.max gap_remain align in
             aligned ← align_ptr (u64 (aligned + offset)) align;
             mret (u64 (aligned - ptr))
           else mret gap);
    if negb (gap =? 0) then
      tlsf_assert (gap_minimum <=? gap);;
      block_trim_free_leading tlsf block gap
    else mret block
  else mret block);
  block_prepare_used tlsf block adjust.

Definition tlsf_free (tlsf ptr : Z) : M memory unit :=
  if negb (ptr =? 0) then
    let block := block_from_ptr ptr in
    f ← block_is_free block;
    tlsf_assert (negb f);;
    block_mark_as_free block;;
    block ← block_merge_prev tlsf block;
    block ← block_merge_next tlsf block;
    block_insert tlsf block
  else mret tt.

Definition tlsf_realloc (tlsf ptr size : Z) : M memory Z :=
  if negb (ptr =? 0) && (size =? 0) then tlsf_free tlsf ptr;; mret 0
  else if ptr =? 0 then tlsf_malloc tlsf size
  else
    let block := block_from_ptr ptr in
    next ← block_next block;
    cursize ← block_size block;
    nextsize ← block_size next;
    let combined := u64 (cursize + nextsize + block_header_overhead) in
    adjust ← adjust_request_size size ALIGN_SIZE;
    f ← block_is_free block;
    tlsf_assert (negb f);;
    nf ← block_is_free next;
    if (cursize <? adjust) && (negb nf || (combined <? adjust)) then
      p ← tlsf_malloc tlsf size;
      (if negb (p =? 0) then
         modify (λ m, memcpy_z m p ptr (Z.min cursize size));;
         tlsf_free tlsf ptr
       else mret tt);;
      mret p
    else
      (if cursize <? adjust then
         block_merge_next tlsf block;;
         block_mark_as_used block
       else mret tt);;
      block_trim_used tlsf block adjust;;
      mret ptr.

(** ** malloc.c: the same operations on [kernel_tlsf_pool] *)

Definition malloc (kernel_tlsf_pool size : Z) : M memory Z := tlsf_malloc kernel_tlsf_pool size.
Definition calloc (kernel_tlsf_pool n size : Z) : M memory Z :=
  ptr ← tlsf_malloc kernel_tlsf_pool (u64 (n * size));
  (if negb (ptr =? 0) then modify (λ m, memset_z m ptr 0 (u64 (n * size))) else mret tt);;
  mret ptr.
Definition realloc (kernel_tlsf_pool ptr size : Z) : M memory Z := tlsf_realloc kernel_tlsf_pool ptr size.
Definition free (kernel_tlsf_pool ptr : Z) : M memory unit := tlsf_free kernel_tlsf_pool ptr.
