(* ===== verification/TlsfProof.v ===== *)
(** * Size classes of the kernel heap

    The two-level index of tlsf.c: [mapping_insert] puts a block into the class
    that contains its size, [mapping_search] starts at a class all of whose
    blocks are large enough, and [search_suitable_block] finds the first
    non-empty class from there on. *)
From Stdlib Require Import ZArith Lia.
From stdpp Require Import base option gmap list.
From S2P Require Import Prelude Memory Tlsf.

(** ** Bit searches *)

Lemma odd_part w : 0 < w → ∃ k j, 0 ≤ k ∧ w = (2 * j + 1) * 2 ^ k.
Proof.
  destruct w as [|p|]; [lia| |lia]. intros _. induction p as [p IH|p IH|].
  - exists 0, (Zpos p). split; [lia|]. rewrite Z.pow_0_r. lia.
  - destruct IH as (k & j & Hk & E). exists (k + 1), j. split; [lia|]. rewrite Z.pow_add_r by lia. lia.
  - exists 0, 0. split; [lia|done].
Qed.

Lemma land_odd_neg j : Z.land (2 * j + 1) (- (2 * j + 1)) = 1.
Proof.
  replace (- (2 * j + 1)) with (2 * Z.lnot j + 1) by (unfold Z.lnot; lia).
  apply Z.bits_inj'. intros i Hi. rewrite Z.land_spec. destruct (decide (i = 0)) as [->|Hne].
  - by rewrite !Z.testbit_odd_0.
  - replace i with (Z.succ (i - 1)) by lia. rewrite !Z.testbit_odd_succ, Z.lnot_spec by lia.
    rewrite andb_negb_r. change 1 with (2 * 0 + 1). rewrite Z.testbit_odd_succ by lia. by rewrite Z.bits_0.
Qed.

Lemma tlsf_ffs_spec w :
  0 < w → 0 ≤ tlsf_ffs w ∧ Z.testbit w (tlsf_ffs w) = true ∧ ∀ i, 0 ≤ i < tlsf_ffs w → Z.testbit w i = false.
Proof.
  intros Hw. destruct (odd_part w Hw) as (k & j & Hk & E).
  assert (tlsf_ffs w = k) as ->.
  { unfold tlsf_ffs. rewrite (proj2 (Z.eqb_neq w 0)) by lia.
    assert (Z.land w (- w) = 2 ^ k) as ->; [|by apply Z.log2_pow2].
    rewrite E, <-Z.mul_opp_l, <-!Z.shiftl_mul_pow2, <-Z.shiftl_land by done.
    by rewrite land_odd_neg, shiftl_1. }
  rewrite E, <-Z.shiftl_mul_pow2 by done. splits; [done| |].
  - rewrite Z.shiftl_spec by done. by rewrite Z.sub_diag, Z.testbit_odd_0.
  - intros i Hi. rewrite Z.shiftl_spec, Z.testbit_neg_r by lia. done.
Qed.

Lemma tlsf_fls_sizet_spec size : 0 < size < 2 ^ 64 → tlsf_fls_sizet size = Z.log2 size.
Proof.
  intros Hs. unfold tlsf_fls_sizet, tlsf_fls. rewrite Z.shiftr_div_pow2 by lia.
  rewrite (u32_small (size / 2 ^ 32)) by zdiv. destruct (Z.eqb_spec (size / 2 ^ 32) 0) as [E|E]; cbn [negb].
  - assert (size < 2 ^ 32) by zdiv. change 0xffffffff with (2 ^ 32 - 1). rewrite u32_small, land_ones_mod by lia.
    rewrite Z.mod_small by lia. by rewrite (proj2 (Z.eqb_neq size 0)) by lia.
  - assert (0 < size / 2 ^ 32) by zdiv.
    rewrite <-Z.shiftr_div_pow2, Z.log2_shiftr by lia.
    assert (32 ≤ Z.log2 size); [|lia]. change 32 with (Z.log2 (2 ^ 32)). apply Z.log2_le_mono. zdiv.
Qed.

(** ** Classes *)

Definition class_low (c : Z * Z) : Z :=
  if c.1 =? 0 then 8 * c.2 else 2 ^ (c.1 + 7) + c.2 * 2 ^ (c.1 + 2).
Definition class_width (c : Z * Z) : Z := if c.1 =? 0 then 8 else 2 ^ (c.1 + 2).

Lemma lxor_32 q : 32 ≤ q < 64 → Z.lxor q 32 = q - 32.
Proof.
  intros Hq. assert (forallb (λ q, Z.lxor q 32 =? q - 32) (seqZ 32 32) = true) as H by (vm_compute; reflexivity).
  rewrite forallb_forall in H. apply Z.eqb_eq, H, list_elem_of_In, elem_of_seqZ. lia.
Qed.

Lemma mapping_insert_large size :
  256 ≤ size < 2 ^ 33 →
  let f := Z.log2 size in
  let q := size / 2 ^ (f - 5) in
  8 ≤ f ≤ 32 ∧ 32 ≤ q < 64 ∧ q * 2 ^ (f - 5) ≤ size < (q + 1) * 2 ^ (f - 5) ∧
  mapping_insert size = (f - 7, q - 32).
Proof.
  intros Hs f q. assert (8 ≤ f).
  { unfold f. change 8 with (Z.log2 256). apply Z.log2_le_mono. lia. }
  assert (f < 33) by (unfold f; apply Z.log2_lt_pow2; lia).
  pose proof (Z.log2_spec size ltac:(lia)) as [H1 H2]. fold f in H1, H2. rewrite Z.pow_succ_r in H2 by lia.
  assert (2 ^ f = 32 * 2 ^ (f - 5)) as E by (change 32 with (2 ^ 5); rewrite <-Z.pow_add_r by lia; f_equal; lia).
  assert (0 < 2 ^ (f - 5)) by (apply Z.pow_pos_nonneg; lia).
  assert (32 ≤ q < 64) as Hq.
  { split; [apply Z.div_le_lower_bound; lia|apply Z.div_lt_upper_bound; lia]. }
  assert (q * 2 ^ (f - 5) ≤ size < (q + 1) * 2 ^ (f - 5)) as Hb.
  { unfold q. pose proof (Z.mul_div_le size (2 ^ (f - 5))). pose proof (Z.mul_succ_div_gt size (2 ^ (f - 5))). lia. }
  splits; try lia. unfold mapping_insert. change SMALL_BLOCK_SIZE with 256. rewrite (proj2 (Z.ltb_ge _ _)) by lia.
  rewrite tlsf_fls_sizet_spec by lia. fold f. unfold SL_INDEX_COUNT_LOG2.
  rewrite Z.shiftr_div_pow2 by lia. fold q.
  assert (s32 q = q) as ->.
  { unfold s32, swrap. rewrite Z.mod_small by lia. by rewrite (proj2 (Z.ltb_lt _ _)) by lia. }
  change (Z.shiftl 1 5) with 32. rewrite lxor_32 by done. done.
Qed.

Lemma mapping_insert_spec size :
  0 ≤ size < 2 ^ 33 →
  let c := mapping_insert size in
  0 ≤ c.1 ≤ 25 ∧ 0 ≤ c.2 < SL_INDEX_COUNT ∧ (size < block_size_max → c.1 < FL_INDEX_COUNT) ∧
  class_low c ≤ size < class_low c + class_width c.
Proof.
  intros Hs c. destruct (decide (size < 256)) as [Hsmall|Hlarge].
  - assert (c = (0, size / 8)) as ->.
    { unfold c, mapping_insert. change SMALL_BLOCK_SIZE with 256. rewrite (proj2 (Z.ltb_lt _ _)) by lia.
      unfold s32, swrap. rewrite Z.mod_small by lia. by rewrite (proj2 (Z.ltb_lt _ _)) by lia. }
    change SL_INDEX_COUNT with 32. change FL_INDEX_COUNT with 25.
    unfold class_low, class_width. cbn [fst snd Z.eqb]. splits; first [zdiv | intros _; lia].
  - destruct (mapping_insert_large size) as (Hf & Hq & Hb & E); [lia|]. unfold c. rewrite E.
    set (f := Z.log2 size) in *. set (q := size / 2 ^ (f - 5)) in *.
    unfold class_low, class_width. cbn [fst snd]. rewrite (proj2 (Z.eqb_neq (f - 7) 0)) by lia.
    replace (f - 7 + 7) with f by lia. replace (f - 7 + 2) with (f - 5) by lia.
    assert (2 ^ f = 32 * 2 ^ (f - 5)) by (change 32 with (2 ^ 5); rewrite <-Z.pow_add_r by lia; f_equal; lia).
    splits; try lia; [change SL_INDEX_COUNT with 32; lia|].
    intros Hmax. change block_size_max with (2 ^ 32) in Hmax. change FL_INDEX_COUNT with 25.
    assert (f < 32); [|lia]. apply Z.log2_lt_pow2; lia.
Qed.

(** The order in which classes are searched. *)
Definition class_le (c d : Z * Z) : Prop := c.1 < d.1 ∨ (c.1 = d.1 ∧ c.2 ≤ d.2).

Definition class_ok (c : Z * Z) : Prop := 0 ≤ c.1 ∧ 0 ≤ c.2 < 32.

Lemma class_low_bounds c :
  class_ok c → (c.1 = 0 → 0 ≤ class_low c < 256) ∧
  (0 < c.1 → 2 ^ (c.1 + 7) ≤ class_low c < 2 ^ (c.1 + 8)).
Proof.
  intros [H1 H2]. unfold class_low. split; intros Hc.
  - rewrite Hc. cbn. lia.
  - rewrite (proj2 (Z.eqb_neq _ _)) by lia.
    replace (c.1 + 7) with (c.1 + 2 + 5) by lia. replace (c.1 + 8) with (c.1 + 2 + 6) by lia.
    rewrite (Z.pow_add_r 2 (c.1 + 2) 5), (Z.pow_add_r 2 (c.1 + 2) 6) by lia.
    assert (0 < 2 ^ (c.1 + 2)) by (apply Z.pow_pos_nonneg; lia). nia.
Qed.

Lemma class_low_mono c d : class_ok c → class_ok d → class_le c d → class_low c ≤ class_low d.
Proof.
  intros Hc Hd [Hlt|[E Hle]].
  - destruct (class_low_bounds c Hc) as [C0 C1]. destruct (class_low_bounds d Hd) as [D0 D1].
    destruct Hc as [Hc1 _]. specialize (D1 ltac:(lia)).
    assert (256 ≤ 2 ^ (d.1 + 7)) by (change 256 with (2 ^ 8); apply Z.pow_le_mono_r; lia).
    destruct (decide (c.1 = 0)) as [E|E]; [specialize (C0 E); lia|].
    specialize (C1 ltac:(lia)). assert (2 ^ (c.1 + 8) ≤ 2 ^ (d.1 + 7)) by (apply Z.pow_le_mono_r; lia). lia.
  - unfold class_low. rewrite E. destruct (d.1 =? 0); [lia|]. assert (0 ≤ 2 ^ (d.1 + 2)) by (apply Z.pow_nonneg; lia). nia.
Qed.

Lemma mapping_insert_ok size : 0 ≤ size < 2 ^ 33 → class_ok (mapping_insert size).
Proof. intros Hs. destruct (mapping_insert_spec size Hs) as (? & ? & _). change SL_INDEX_COUNT with 32 in *. split; lia. Qed.

(** Rounding a request up reaches the next class boundary. *)
Lemma search_low size :
  256 ≤ size < 2 ^ 32 →
  size ≤ class_low (mapping_insert (size + (2 ^ (Z.log2 size - 5) - 1))).
Proof.
  intros Hs. set (f := Z.log2 size). pose proof (Z.log2_spec size ltac:(lia)) as [H1 H2]. fold f in H1, H2.
  assert (8 ≤ f) by (unfold f; change 8 with (Z.log2 256); apply Z.log2_le_mono; lia).
  assert (f < 32) by (unfold f; apply Z.log2_lt_pow2; lia).
  assert (2 ^ f = 32 * 2 ^ (f - 5)) as E by (change 32 with (2 ^ 5); rewrite <-Z.pow_add_r by lia; f_equal; lia).
  assert (0 < 2 ^ (f - 5)) by (apply Z.pow_pos_nonneg; lia).
  assert (2 ^ (f - 5) ≤ 2 ^ 26) by (apply Z.pow_le_mono_r; lia). rewrite Z.pow_succ_r in H2 by lia.
  set (size' := size + (2 ^ (f - 5) - 1)). assert (256 ≤ size' < 2 ^ 33) as Hs' by (unfold size'; lia).
  destruct (mapping_insert_large size' Hs') as (Hf' & Hq' & Hb' & ->). set (f' := Z.log2 size') in *.
  assert (f ≤ f') by (apply Z.log2_le_mono; unfold size'; lia).
  assert (2 ^ f' = 32 * 2 ^ (f' - 5)) as E' by (change 32 with (2 ^ 5); rewrite <-Z.pow_add_r by lia; f_equal; lia).
  unfold class_low. cbn [fst snd]. rewrite (proj2 (Z.eqb_neq (f' - 7) 0)) by lia.
  replace (f' - 7 + 7) with f' by lia. replace (f' - 7 + 2) with (f' - 5) by lia.
  destruct (decide (f' = f)) as [->|Hne]; [unfold size' in *; nia|].
  assert (2 ^ (f + 1) ≤ 2 ^ f') by (apply Z.pow_le_mono_r; lia).
  rewrite Z.pow_add_r, Z.pow_1_r in * by lia. assert (0 < 2 ^ (f' - 5)) by (apply Z.pow_pos_nonneg; lia). nia.
Qed.

(** The order of classes follows the order of sizes. *)
Lemma class_low_next c d : class_ok c → class_ok d → ¬ class_le c d → class_low d + class_width d ≤ class_low c.
Proof.
  intros [Hc1 Hc2] [Hd1 Hd2] Hn. unfold class_le in Hn. destruct (decide (d.1 = c.1)) as [E|E].
  - unfold class_low, class_width. rewrite E. destruct (c.1 =? 0); [lia|]. assert (0 ≤ 2 ^ (c.1 + 2)) by (apply Z.pow_nonneg; lia). nia.
  - destruct (class_low_bounds c) as [_ C1]; [done|]. specialize (C1 ltac:(lia)).
    transitivity (2 ^ (d.1 + 8)); [|transitivity (2 ^ (c.1 + 7)); [apply Z.pow_le_mono_r; lia|lia]].
    unfold class_low, class_width. destruct (Z.eqb_spec d.1 0) as [->|H0]; [change (2 ^ (0 + 8)) with 256; lia|].
    replace (d.1 + 7) with (d.1 + 2 + 5) by lia. replace (d.1 + 8) with (d.1 + 2 + 6) by lia.
    rewrite (Z.pow_add_r 2 (d.1 + 2) 5), (Z.pow_add_r 2 (d.1 + 2) 6) by lia.
    assert (0 < 2 ^ (d.1 + 2)) by (apply Z.pow_pos_nonneg; lia). nia.
Qed.
Lemma mapping_insert_mono s t : 0 ≤ s ≤ t → t < 2 ^ 33 → class_le (mapping_insert s) (mapping_insert t).
Proof.
  intros Hs Ht. destruct (decide (class_le (mapping_insert s) (mapping_insert t))) as [|Hn]; [done|].
  pose proof (class_low_next _ _ (mapping_insert_ok s ltac:(lia)) (mapping_insert_ok t ltac:(lia)) Hn).
  destruct (mapping_insert_spec s) as (_ & _ & _ & ? & _); [lia|]. destruct (mapping_insert_spec t) as (_ & _ & _ & _ & ?); [lia|]. lia.
Qed.

(** The size whose class the search starts at: at most one part in 32 above
    the request. *)
Lemma mapping_search_spec m size :
  0 < size < block_size_max → size `mod` 8 = 0 →
  ∃ size', mapping_search size m = Ok (mapping_insert size', m) ∧ size ≤ size' ∧ 32 * size' < 33 * size ∧ size' < 2 ^ 33 ∧
    ∀ b, 0 ≤ b < block_size_max → class_le (mapping_insert size') (mapping_insert b) → size ≤ b.
Proof.
  intros Hs Hal. change block_size_max with (2 ^ 32) in *. unfold mapping_search. change SMALL_BLOCK_SIZE with 256.
  assert (Hfit : ∀ s', 0 ≤ s' < 2 ^ 33 → size ≤ class_low (mapping_insert s') →
    ∀ b, 0 ≤ b < 2 ^ 32 → class_le (mapping_insert s') (mapping_insert b) → size ≤ b).
  { intros s' Hs' Hlow b Hb Hle. destruct (mapping_insert_spec b) as (_ & _ & _ & Hb' & _); [lia|].
    pose proof (class_low_mono _ _ (mapping_insert_ok s' Hs') (mapping_insert_ok b ltac:(lia)) Hle). lia. }
  destruct (Z.leb_spec 256 size) as [Hlarge|Hsmall].
  - rewrite tlsf_fls_sizet_spec by lia. unfold SL_INDEX_COUNT_LOG2.
    assert (Z.log2 size < 32) by (apply Z.log2_lt_pow2; lia).
    assert (8 ≤ Z.log2 size) by (change 8 with (Z.log2 256); apply Z.log2_le_mono; lia).
    assert (0 < 2 ^ (Z.log2 size - 5) ≤ 2 ^ 26) by (split; [apply Z.pow_pos_nonneg|apply Z.pow_le_mono_r]; lia).
    assert (32 * 2 ^ (Z.log2 size - 5) ≤ size).
    { change 32 with (2 ^ 5). rewrite <-Z.pow_add_r by lia. replace (5 + (Z.log2 size - 5)) with (Z.log2 size) by lia. apply Z.log2_spec. lia. }
    rewrite (proj2 (Z.leb_gt _ _)), shiftl_1 by lia. eexists. split; [by rewrite u64_small by lia|].
    splits; [lia|lia|lia|]. apply Hfit; [lia|]. apply search_low. lia.
  - exists size. split; [done|]. splits; [lia|lia|lia|]. apply Hfit; [lia|]. destruct (mapping_insert_spec size) as (_ & _ & _ & Hl); [lia|].
    unfold mapping_insert, class_low. change SMALL_BLOCK_SIZE with 256. rewrite (proj2 (Z.ltb_lt _ _)) by lia.
    unfold s32, swrap. rewrite Z.mod_small by lia. rewrite (proj2 (Z.ltb_lt _ _)) by lia. change (256 / SL_INDEX_COUNT) with 8. cbn [fst snd Z.eqb]. zdiv.
Qed.

(** ** The search through the bitmaps *)

Definition nonempty (m : memory) (control : Z) (c : Z * Z) : Prop :=
  load64 m (list_head control c.1 c.2) ≠ block_null control.
Definition in_range (c : Z * Z) : Prop := 0 ≤ c.1 < FL_INDEX_COUNT ∧ 0 ≤ c.2 < SL_INDEX_COUNT.

(** The bitmaps tell which lists have blocks. *)
Record bitmaps_ok (m : memory) (control : Z) : Prop := {
  bm_sl : ∀ c, in_range c →
    Z.testbit (load32 m (control + off_sl_bitmap + 4 * c.1)) c.2 = true ↔ nonempty m control c;
  bm_fl : ∀ fl, 0 ≤ fl < FL_INDEX_COUNT →
    Z.testbit (load32 m (control + off_fl_bitmap)) fl = true ↔ load32 m (control + off_sl_bitmap + 4 * fl) ≠ 0;
  bm_high : load32 m (control + off_fl_bitmap) < 2 ^ FL_INDEX_COUNT;
}.

(** [x & (~0U << k)]: the bits of [x] from [k] on. *)
Lemma mask_from_testbit x k i :
  0 ≤ x < 2 ^ 32 → 0 ≤ k → 0 ≤ i →
  Z.testbit (Z.land x (u32 (Z.shiftl 0xffffffff k))) i = Z.testbit x i && (k <=? i).
Proof.
  intros Hx Hk Hi. rewrite Z.land_spec. destruct (decide (i < 32)) as [Hlt|Hge].
  - unfold u32. rewrite Z.mod_pow2_bits_low, Z.shiftl_spec by lia. change 0xffffffff with (Z.ones 32).
    f_equal. destruct (Z.leb_spec k i); [by apply Z.ones_spec_low; lia|by apply Z.testbit_neg_r; lia].
  - by rewrite (testbit_high x 32) by lia.
Qed.

Lemma testbit_nonzero x : 0 ≤ x → x ≠ 0 → ∃ i, 0 ≤ i ∧ Z.testbit x i = true.
Proof. intros H0 Hx. exists (Z.log2 x). split; [apply Z.log2_nonneg|]. apply Z.bit_log2. lia. Qed.

Lemma in_lists_true c : in_range c → in_lists c.1 c.2 = true.
Proof. intros [? ?]. unfold in_lists. rewrite !andb_true_iff. lia. Qed.

Lemma sl_bitmap_ok control fl m :
  0 ≤ fl < FL_INDEX_COUNT → sl_bitmap control fl m = Ok (load32 m (control + off_sl_bitmap + 4 * fl), m).
Proof. intros H. unfold sl_bitmap. rewrite (proj2 (Z.leb_le _ _)), (proj2 (Z.ltb_lt _ _)) by lia. done. Qed.
Lemma get_head_ok control c m :
  in_range c → get_head control c.1 c.2 m = Ok (load64 m (list_head control c.1 c.2), m).
Proof. intros H. unfold get_head. by rewrite in_lists_true. Qed.

(** The lowest set bit of a map of one row. *)
Lemma first_in_row m control fl k :
  bitmaps_ok m control → 0 ≤ fl < FL_INDEX_COUNT → 0 ≤ k →
  let sl_map := Z.land (load32 m (control + off_sl_bitmap + 4 * fl)) (u32 (Z.shiftl 0xffffffff k)) in
  if sl_map =? 0 then ∀ sl, k ≤ sl < SL_INDEX_COUNT → ¬ nonempty m control (fl, sl)
  else let sl := tlsf_ffs sl_map in
    k ≤ sl < SL_INDEX_COUNT ∧ nonempty m control (fl, sl) ∧ ∀ sl', k ≤ sl' < sl → ¬ nonempty m control (fl, sl').
Proof.
  intros HB Hfl Hk sl_map. set (row := load32 m (control + off_sl_bitmap + 4 * fl)) in *.
  assert (Hrow : 0 ≤ row < 2 ^ 32) by apply load32_range.
  assert (Hbit : ∀ i, 0 ≤ i → Z.testbit sl_map i = Z.testbit row i && (k <=? i)) by (intros; by apply mask_from_testbit).
  assert (Hne : ∀ sl, 0 ≤ sl < SL_INDEX_COUNT → Z.testbit row sl = true ↔ nonempty m control (fl, sl))
    by (intros sl Hsl; apply (bm_sl _ _ HB (fl, sl)); done).
  assert (0 ≤ sl_map) as H0 by (apply Z.land_nonneg; left; lia).
  destruct (Z.eqb_spec sl_map 0) as [E|E].
  - intros sl Hsl. rewrite <-Hne by lia. specialize (Hbit sl ltac:(lia)).
    rewrite E, Z.bits_0, (proj2 (Z.leb_le k sl)), andb_true_r in Hbit by lia. congruence.
  - destruct (tlsf_ffs_spec sl_map ltac:(lia)) as (S0 & S1 & S2). rewrite Hbit in S1 by done.
    apply andb_true_iff in S1 as [S1 S3]. apply Z.leb_le in S3.
    assert (tlsf_ffs sl_map < 32).
    { destruct (decide (tlsf_ffs sl_map < 32)); [done|]. by rewrite (testbit_high row 32) in S1 by lia. }
    change SL_INDEX_COUNT with 32 in *. cbv zeta. splits; [done|done|apply Hne; [lia|done]|].
    intros sl' Hsl'. rewrite <-Hne by lia. specialize (S2 sl' ltac:(lia)).
    rewrite Hbit, (proj2 (Z.leb_le k sl')), andb_true_r in S2 by lia. congruence.
Qed.

Lemma first_row m control fl :
  bitmaps_ok m control → 0 ≤ fl →
  let fl_map := Z.land (load32 m (control + off_fl_bitmap)) (u32 (Z.shiftl 0xffffffff (fl + 1))) in
  if fl_map =? 0 then ∀ c, in_range c → fl < c.1 → ¬ nonempty m control c
  else let fl' := tlsf_ffs fl_map in
    fl < fl' < FL_INDEX_COUNT ∧ load32 m (control + off_sl_bitmap + 4 * fl') ≠ 0 ∧
    ∀ c, in_range c → fl < c.1 < fl' → ¬ nonempty m control c.
Proof.
  intros HB Hfl fl_map. set (row := load32 m (control + off_fl_bitmap)) in *.
  assert (Hrow : 0 ≤ row < 2 ^ 32) by apply load32_range. pose proof (bm_high _ _ HB) as Hhigh. fold row in Hhigh.
  assert (Hbit : ∀ i, 0 ≤ i → Z.testbit fl_map i = Z.testbit row i && (fl + 1 <=? i)) by (intros; apply mask_from_testbit; lia).
  assert (Hempty : ∀ c, in_range c → Z.testbit row c.1 = false → ¬ nonempty m control c).
  { intros c Hc Hb Hn. apply (bm_sl _ _ HB c Hc) in Hn. 
    assert (load32 m (control + off_sl_bitmap + 4 * c.1) ≠ 0) as Hz by (intros E; by rewrite E, Z.bits_0 in Hn).
    apply (bm_fl _ _ HB) in Hz; [|by destruct Hc]. fold row in Hz. congruence. }
  assert (0 ≤ fl_map) as H0 by (apply Z.land_nonneg; left; lia).
  destruct (Z.eqb_spec fl_map 0) as [E|E].
  - intros c Hc Hlt. apply Hempty; [done|]. specialize (Hbit c.1 ltac:(lia)).
    rewrite E, Z.bits_0, (proj2 (Z.leb_le _ _)), andb_true_r in Hbit by lia. done.
  - destruct (tlsf_ffs_spec fl_map ltac:(lia)) as (S0 & S1 & S2). rewrite Hbit in S1 by done.
    apply andb_true_iff in S1 as [S1 S3]. apply Z.leb_le in S3.
    assert (tlsf_ffs fl_map < FL_INDEX_COUNT) as Hlt.
    { destruct (decide (tlsf_ffs fl_map < FL_INDEX_COUNT)); [done|].
      by rewrite (testbit_high row FL_INDEX_COUNT) in S1 by (change FL_INDEX_COUNT with 25 in *; lia). }
    cbv zeta. splits; [lia|lia|apply (bm_fl _ _ HB); [lia|done]|].
    intros c Hc Hcl. apply Hempty; [done|]. specialize (S2 c.1 ltac:(lia)).
    rewrite Hbit, (proj2 (Z.leb_le _ _)), andb_true_r in S2 by lia. done.
Qed.

(** What the search returns: the head of the first non-empty list at or after
    the given class, or 0. *)
Definition first_fit (m : memory) (control : Z) (c : Z * Z) (r : Z * (Z * Z)) : Prop :=
  (r.1 = 0 ∧ ∀ d, in_range d → class_le c d → ¬ nonempty m control d) ∨
  (∃ d, r = (load64 m (list_head control d.1 d.2), d) ∧ in_range d ∧ class_le c d ∧ nonempty m control d ∧
     ∀ d', in_range d' → class_le c d' → ¬ class_le d d' → ¬ nonempty m control d').

Lemma row_full x : 0 ≤ x < 2 ^ 32 → Z.land x (u32 (Z.shiftl 0xffffffff 0)) = x.
Proof.
  intros Hx. change (u32 (Z.shiftl 0xffffffff 0)) with (2 ^ 32 - 1). rewrite land_ones_mod by lia. by apply Z.mod_small.
Qed.

Lemma search_suitable_block_spec m control c :
  bitmaps_ok m control → in_range c →
  ∃ r, search_suitable_block control c.1 c.2 m = Ok (r, m) ∧ first_fit m control c r.
Proof.
  intros HB [Hfl Hsl]. unfold search_suitable_block. mstep with (sl_bitmap_ok control c.1 m Hfl).
  pose proof (first_in_row m control c.1 c.2 HB Hfl ltac:(lia)) as Hrow. cbv zeta in Hrow.
  destruct (Z.land _ _ =? 0) eqn:E1.
  - mstep. pose proof (first_row m control c.1 HB ltac:(lia)) as Hf. cbv zeta in Hf.
    destruct (Z.land (load32 m (control + off_fl_bitmap)) _ =? 0) eqn:E2.
    + eexists. split; [done|]. left. split; [done|]. intros d Hd [Hlt|[Ed Hle]]; [by apply Hf|].
      destruct d as [d1 d2]. cbn [fst snd] in *. subst d1. apply Hrow. destruct Hd. cbn [fst snd] in *. lia.
    + set (fl' := tlsf_ffs _) in *. destruct Hf as (Hlt & Hnz & Hskip).
      mstep with (sl_bitmap_ok control fl' m ltac:(lia)).
      pose proof (first_in_row m control fl' 0 HB ltac:(lia) ltac:(lia)) as Hrow'. cbv zeta in Hrow'.
      rewrite row_full in Hrow' by apply load32_range.
      rewrite (proj2 (Z.eqb_neq _ 0)) in * by done. cbn [negb]. unfold tlsf_assert. mstep.
      destruct Hrow' as (Hr1 & Hr2 & Hr3). set (sl' := tlsf_ffs (load32 m (control + off_sl_bitmap + 4 * fl'))) in *.
      assert (in_range (fl', sl')) as Hin by (split; cbn [fst snd]; lia).
      mstep with (get_head_ok control (fl', sl') m Hin). eexists. split; [done|]. right. exists (fl', sl').
      splits; [done|done|left; cbn [fst snd]; lia|done|]. intros d Hd Hcd Hnd.
      destruct d as [d1 d2]. unfold class_le in *. cbn [fst snd] in *. destruct Hd as [Hd1 Hd2]. cbn [fst snd] in *.
      destruct (decide (d1 = fl')) as [->|]; [apply Hr3; lia|].
      destruct (decide (d1 = c.1)) as [->|]; [apply Hrow; lia|]. apply Hskip; [done|]. cbn [fst snd]. lia.
  - cbn [negb]. unfold tlsf_assert. mstep. set (sl' := tlsf_ffs _) in *. destruct Hrow as (Hr1 & Hr2 & Hr3).
    assert (in_range (c.1, sl')) as Hin by (split; cbn [fst snd]; lia).
    mstep with (get_head_ok control (c.1, sl') m Hin). eexists. split; [done|]. right. exists (c.1, sl').
    splits; [done|done|right; cbn [fst snd]; lia|done|]. intros d Hd Hcd Hnd.
    destruct d as [d1 d2]. unfold class_le in *. cbn [fst snd] in *.
    assert (d1 = c.1) as -> by lia. apply Hr3. lia.
Qed.

(** ** Deciding the consistency of the bitmaps of a concrete heap *)

Definition bitmaps_okb (m : memory) (control : Z) : bool :=
  forallb (λ c : Z * Z, eqb (Z.testbit (load32 m (control + off_sl_bitmap + 4 * c.1)) c.2)
                    (negb (load64 m (list_head control c.1 c.2) =? block_null control))) all_classes &&
  forallb (λ fl, eqb (Z.testbit (load32 m (control + off_fl_bitmap)) fl)
                     (negb (load32 m (control + off_sl_bitmap + 4 * fl) =? 0))) (seqZ 0 FL_INDEX_COUNT) &&
  (load32 m (control + off_fl_bitmap) <? 2 ^ FL_INDEX_COUNT).

Lemma in_all_classes c : in_range c → c ∈ all_classes.
Proof.
  intros [H1 H2]. destruct c as [i j]. unfold all_classes. apply list_elem_of_bind. exists i.
  split; [|apply elem_of_seqZ; cbn [fst] in H1; lia].
  apply list_elem_of_fmap. exists j. split; [done|]. apply elem_of_seqZ. cbn [snd] in H2. lia.
Qed.

Lemma eqb_bit_iff b (x y : Z) : eqb b (negb (x =? y)) = true → b = true ↔ x ≠ y.
Proof. intros ->%eqb_prop. rewrite negb_true_iff. apply Z.eqb_neq. Qed.

Lemma bitmaps_okb_sound m control : bitmaps_okb m control = true → bitmaps_ok m control.
Proof.
  unfold bitmaps_okb. rewrite !andb_true_iff, !forallb_forall. intros [[H1 H2] H3]. split.
  - intros c Hc. apply eqb_bit_iff, H1, list_elem_of_In, in_all_classes, Hc.
  - intros fl Hfl. apply eqb_bit_iff, H2, list_elem_of_In, elem_of_seqZ. lia.
  - by apply Z.ltb_lt.
Qed.

(** A heap of 64 KiB at 64 KiB, with two blocks of 104 and 5000 bytes in use. *)
Definition sample_heap : memory :=
  match (t ← tlsf_create_with_pool 0x10000 0x10000; tlsf_malloc t 100;; tlsf_malloc t 5000) ∅ with
  | Ok (_, m) => m
  | _ => ∅
  end.

(** ** The theorems *)

(** Every size of a block has a class inside the tables of the control structure, and the class contains the
    size: its lower bound is at most the size, and the size is below the lower bound plus the width of the class. *)
Theorem mapping_insert_class size :
  0 ≤ size < block_size_max →
  let c := mapping_insert size in
  in_range c ∧ class_low c ≤ size < class_low c + class_width c.
Proof.
  intros Hs. change block_size_max with (2 ^ 32) in Hs.
  destruct (mapping_insert_spec size) as (H1 & H2 & H3 & H4); [lia|].
  specialize (H3 ltac:(change block_size_max with (2 ^ 32); lia)). split; [|done]. split; [lia|done].
Qed.

Lemma mapping_insert_class_witness :
  let c := mapping_insert 5000 in
  in_range c ∧ class_low c ≤ 5000 < class_low c + class_width c.
Proof. apply (mapping_insert_class 5000). vm_compute. split; [discriminate|reflexivity]. Defined.

(** The class from which a request (a multiple of 8) is searched contains, and is followed only by classes that
    contain, blocks at least as large as the request: whatever block the search finds is large enough. *)
Theorem mapping_search_good_fit m size :
  0 < size < block_size_max → size `mod` 8 = 0 →
  ∃ c, mapping_search size m = Ok (c, m) ∧
    ∀ b, 0 ≤ b < block_size_max → class_le c (mapping_insert b) → size ≤ b.
Proof.
  intros Hs Hal. destruct (mapping_search_spec m size Hs Hal) as (s' & E & _ & _ & _ & Hfit). eauto.
Qed.

Lemma mapping_search_good_fit_witness :
  ∃ c, mapping_search 5000 sample_heap = Ok (c, sample_heap) ∧
    ∀ b, 0 ≤ b < block_size_max → class_le c (mapping_insert b) → 5000 ≤ b.
Proof.
  apply (mapping_search_good_fit sample_heap 5000); [vm_compute; split; reflexivity|reflexivity].
Defined.

(** With bitmaps that tell which lists are empty, the search returns the head of the first non-empty list at or
    after the given class, and 0 only when all those lists are empty; no assertion fails and no array index is out
    of bounds. *)
Theorem search_suitable_block_correct m control c :
  bitmaps_ok m control → in_range c →
  ∃ r, search_suitable_block control c.1 c.2 m = Ok (r, m) ∧ first_fit m control c r.
Proof. apply search_suitable_block_spec. Qed.

Lemma search_suitable_block_correct_witness :
  ∃ r, search_suitable_block 0x10000 3 7 sample_heap = Ok (r, sample_heap) ∧ first_fit sample_heap 0x10000 (3, 7) r.
Proof.
  apply (search_suitable_block_correct sample_heap 0x10000 (3, 7));
    [apply bitmaps_okb_sound; vm_compute; reflexivity|].
  split; vm_compute; (split; [discriminate|reflexivity]).
Defined.

(** [tlsf_add_pool] accepts a pool whose block is exactly [block_size_max] bytes, but the first-level class of
    that size is [FL_INDEX_COUNT]: inserting the block indexes [blocks] and [sl_bitmap] out of bounds. *)
Theorem tlsf_add_pool_max_out_of_bounds :
  (mapping_insert block_size_max).1 = FL_INDEX_COUNT ∧
  (t ← tlsf_create 0x10000; tlsf_add_pool t 0x20000 (block_size_max + tlsf_pool_overhead)) ∅ = Fault.
Proof. vm_compute. split; reflexivity. Qed.

(** [calloc] multiplies its arguments without a test: for 2^61 + 1 elements of 8 bytes the product wraps to 8
    and a block of 24 bytes is returned. *)
Theorem calloc_overflows :
  match (p ← calloc 0x10000 (2 ^ 61 + 1) 8; s ← tlsf_block_size p; mret (p =? 0, s)) sample_heap with
  | Ok (r, _) => r = (false, 24)
  | _ => False
  end.
Proof. vm_compute. reflexivity. Qed.
