(* ===== verification/TlsfLists.v ===== *)
(** * The free lists of the kernel heap

    The doubly linked lists of tlsf.c, one per size class, with the bitmaps
    that tell which are empty.  [lists m F L]: in memory [m] the list of class
    [c] is [L c], and the lists together hold exactly the blocks of [F], a map
    from the address of a block to its size.  Inserting and removing a block
    keep the lists well formed and write only to the control structure and the
    links of the blocks that are on the lists. *)
From Stdlib Require Import ZArith Lia.
From stdpp Require Import base option gmap list.
From S2P Require Import Prelude Memory Tlsf TlsfProof.

(** [only S m m']: the memories differ at most on the bytes of [S]. *)
Definition only (S : Z → Prop) (m m' : memory) : Prop := ∀ b, ¬ S b → load8 m' b = load8 m b.

Lemma only_refl S m : only S m m.
Proof. by intros b _. Qed.
Lemma only_trans S m1 m2 m3 : only S m1 m2 → only S m2 m3 → only S m1 m3.
Proof. intros H1 H2 b Hb. by rewrite H2, H1. Qed.
Lemma only_weaken (S T : Z → Prop) m m' : (∀ b, S b → T b) → only S m m' → only T m m'.
Proof. intros Hs H b Hb. apply H. auto. Qed.
Lemma only_store64 (S : Z → Prop) m a v : (∀ b, a ≤ b < a + 8 → S b) → only S m (store64 m a v).
Proof. intros Hs b Hb. apply load8_store64_ne. destruct (decide (a ≤ b < a + 8)); [by destruct Hb; apply Hs|lia]. Qed.
Lemma only_store32 (S : Z → Prop) m a v : (∀ b, a ≤ b < a + 4 → S b) → only S m (store32 m a v).
Proof.
  intros Hs b Hb. unfold store32. rewrite load8_store. rewrite decide_False; [done|]. intros Hin. apply Hb, Hs. lia.
Qed.
Lemma only_load64 S m m' a : only S m m' → (∀ b, a ≤ b < a + 8 → ¬ S b) → load64 m' a = load64 m a.
Proof. intros H Hs. apply load_ext. intros b Hb. apply H, Hs. lia. Qed.
Lemma only_load32 S m m' a : only S m m' → (∀ b, a ≤ b < a + 4 → ¬ S b) → load32 m' a = load32 m a.
Proof. intros H Hs. apply load_ext. intros b Hb. apply H, Hs. lia. Qed.

Lemma load32_store64_ne m a b v : b + 4 ≤ a ∨ a + 8 ≤ b → load32 (store64 m a v) b = load32 m b.
Proof. intros. apply (load_store_ne 4 8). lia. Qed.
Lemma load64_store32_ne' m a b v : b + 8 ≤ a ∨ a + 4 ≤ b → load64 (store32 m a v) b = load64 m b.
Proof. intros. apply (load_store_ne 8 4). lia. Qed.

Lemma sizeof_control_eq : sizeof_control = 6536.
Proof. done. Qed.
(** [lia] with the size of the control structure. *)
Ltac clia := rewrite ?sizeof_control_eq in *; lia.

Section lists.
(** The address of the control structure, which is also [block_null]. *)
Context (ctl : Z).
Hypothesis Hctl : 0 < ctl ∧ ctl + sizeof_control < 2 ^ 64.

Definition control_byte (b : Z) : Prop := ctl ≤ b < ctl + sizeof_control.
Definition link_byte (x b : Z) : Prop := x + 16 ≤ b < x + 32.

(** Blocks that may be on a list: their links lie outside the control
    structure and do not overlap each other. *)
Record nodes_ok (F : gmap Z Z) : Prop := {
  no_size : ∀ x s, F !! x = Some s → 0 ≤ s < block_size_max;
  no_addr : ∀ x s, F !! x = Some s → 0 < x ∧ x + 32 < 2 ^ 64 ∧ x `mod` 8 = 0;
  no_ctl : ∀ x s, F !! x = Some s → x + 32 ≤ ctl ∨ ctl + sizeof_control ≤ x + 16;
  no_apart : ∀ x y s t, F !! x = Some s → F !! y = Some t → x ≠ y → x + 16 ≤ y ∨ y + 16 ≤ x;
}.

(** A block of a list, or the null block at the end of each. *)
Definition node (F : gmap Z Z) (x : Z) : Prop := x = ctl ∨ is_Some (F !! x).

Lemma node_apart F x y : nodes_ok F → node F x → node F y → x ≠ y → x + 16 ≤ y ∨ y + 16 ≤ x.
Proof.
  intros HF [->|[s Hx]] [->|[t Hy]] Hne; [done|..].
  - pose proof (no_ctl _ HF _ _ Hy). clia.
  - pose proof (no_ctl _ HF _ _ Hx). clia.
  - by apply (no_apart _ HF _ _ _ _ Hx Hy).
Qed.

Section links.
Context (F : gmap Z Z) (HF : nodes_ok F).

Lemma next_set_next m x y v :
  node F x → node F y → load64 (store64 m (x + 16) v) (y + 16) = if decide (x = y) then u64 v else load64 m (y + 16).
Proof.
  intros Hx Hy. case_decide as Hd; [subst; apply load64_store64_eq|].
  apply load64_store64_ne. destruct (node_apart F x y HF Hx Hy Hd); lia.
Qed.
Lemma prev_set_prev m x y v :
  node F x → node F y → load64 (store64 m (x + 24) v) (y + 24) = if decide (x = y) then u64 v else load64 m (y + 24).
Proof.
  intros Hx Hy. case_decide as Hd; [subst; apply load64_store64_eq|].
  apply load64_store64_ne. destruct (node_apart F x y HF Hx Hy Hd); lia.
Qed.
Lemma next_set_prev m x y v : node F x → node F y → load64 (store64 m (x + 24) v) (y + 16) = load64 m (y + 16).
Proof.
  intros Hx Hy. apply load64_store64_ne. destruct (decide (x = y)) as [->|Hd]; [lia|].
  destruct (node_apart F x y HF Hx Hy Hd); lia.
Qed.
Lemma prev_set_next m x y v : node F x → node F y → load64 (store64 m (x + 16) v) (y + 24) = load64 m (y + 24).
Proof.
  intros Hx Hy. apply load64_store64_ne. destruct (decide (x = y)) as [->|Hd]; [lia|].
  destruct (node_apart F x y HF Hx Hy Hd); lia.
Qed.
End links.

(** ** Doubly linked lists *)

Definition hd_or (l : list Z) : Z := default ctl (head l).
Fixpoint last_or (p : Z) (l : list Z) : Z := match l with [] => p | x :: l => last_or x l end.

Fixpoint dlist (m : memory) (p : Z) (l : list Z) : Prop :=
  match l with
  | [] => True
  | x :: l => load64 m (x + 24) = p ∧ load64 m (x + 16) = hd_or l ∧ dlist m x l
  end.

Lemma dlist_frame m m' p l :
  (∀ x, x ∈ l → load64 m' (x + 16) = load64 m (x + 16) ∧ load64 m' (x + 24) = load64 m (x + 24)) →
  dlist m p l → dlist m' p l.
Proof.
  revert p. induction l as [|x l IH]; intros p Hf H; [done|]. destruct H as (H1 & H2 & H3).
  destruct (Hf x ltac:(left)) as [E1 E2]. cbn [dlist]. splits; [congruence|congruence|]. apply IH; [|done]. intros y Hy. apply Hf. by right.
Qed.

Lemma dlist_node m p l1 x l2 :
  dlist m p (l1 ++ x :: l2) → load64 m (x + 24) = last_or p l1 ∧ load64 m (x + 16) = hd_or l2.
Proof.
  revert p. induction l1 as [|y l1 IH]; intros p H; cbn in H; [tauto|]. apply IH. tauto.
Qed.

Lemma hd_or_app l1 l2 : hd_or (l1 ++ l2) = match l1 with [] => hd_or l2 | x :: _ => x end.
Proof. by destruct l1. Qed.

Lemma last_or_node F p l : node F p → (∀ x, x ∈ l → node F x) → node F (last_or p l).
Proof.
  revert p. induction l as [|x l IH]; intros p Hp Hl; [done|]. apply IH; [apply Hl; left|]. intros y Hy. apply Hl. by right.
Qed.
Lemma hd_or_node F l : (∀ x, x ∈ l → node F x) → node F (hd_or l).
Proof. intros Hl. destruct l as [|x l]; [by left|]. apply Hl. left. Qed.
Lemma last_or_in p l : last_or p l = p ∨ last_or p l ∈ l.
Proof.
  revert p. induction l as [|x l IH]; intros p; [by left|]. right. destruct (IH x) as [E|E]; cbn; [rewrite E; left|by right].
Qed.

(** Unlinking [x]: the successor gets its predecessor and the other way round. *)
Lemma dlist_unlink F m x l2 : nodes_ok F → ∀ l1 p,
  node F p → (∀ y, y ∈ l1 ++ x :: l2 → node F y ∧ y ≠ ctl) → p ∉ l1 ++ x :: l2 → NoDup (l1 ++ x :: l2) →
  dlist m p (l1 ++ x :: l2) →
  dlist (store64 (store64 m (hd_or l2 + 24) (last_or p l1)) (last_or p l1 + 16) (hd_or l2)) p (l1 ++ l2).
Proof.
  intros HF. induction l1 as [|a l1 IH]; intros p Hp Hn Hpn Hnd H.
  - cbn [app last_or] in *. apply NoDup_cons in Hnd as [Hx Hnd]. destruct H as (_ & _ & H).
    assert (Hn2 : ∀ y, y ∈ l2 → node F y ∧ y ≠ ctl) by (intros y Hy; apply Hn; by right).
    assert (Hp64 : u64 p = p). { apply u64_small. destruct Hp as [->|[s Hp]]; [clia|pose proof (no_addr _ HF _ _ Hp); lia]. }
    destruct l2 as [|y r]; [done|]. cbn [hd_or head default from_option] in *. destruct H as (H1 & H2 & H3).
    assert (Hy : node F y) by (apply Hn2; left). assert (p ≠ y) by (intros ->; apply Hpn; right; left).
    apply NoDup_cons in Hnd as [Hyr Hnd]. unfold id in *.
    cbn [dlist]. splits.
    + by rewrite (prev_set_next F HF), (prev_set_prev F HF), decide_True by done.
    + rewrite (next_set_next F HF), decide_False, (next_set_prev F HF) by done. done.
    + eapply dlist_frame; [|exact H3]. intros z Hz. destruct (Hn2 z ltac:(by right)) as [Hzn _].
      assert (p ≠ z) by (intros ->; apply Hpn; do 2 right; done). assert (y ≠ z) by (intros ->; done).
      rewrite (next_set_next F HF), (next_set_prev F HF), (prev_set_next F HF), (prev_set_prev F HF) by done.
      by rewrite !decide_False by done.
  - cbn [app last_or] in *. apply NoDup_cons in Hnd as [Ha Hnd]. destruct H as (H1 & H2 & H3).
    destruct (Hn a ltac:(left)) as [Han Hac].
    assert (Hn' : ∀ y, y ∈ l1 ++ x :: l2 → node F y ∧ y ≠ ctl) by (intros y Hy; apply Hn; by right).
    set (q := last_or a l1). set (n := hd_or l2).
    assert (Hq : node F q) by (apply last_or_node; [done|]; intros y Hy; apply Hn', elem_of_app; by left).
    assert (Hnn : node F n) by (apply hd_or_node; intros y Hy; apply Hn', elem_of_app; right; by right).
    assert (n ≠ a).
    { unfold n. destruct l2 as [|y r]; [done|]. intros E. cbn in E. unfold id in E. subst y. apply Ha. apply elem_of_app. right. right. left. }
    assert (Hrng : u64 n = n). { apply u64_small. destruct Hnn as [->|[s Hs]]; [clia|pose proof (no_addr _ HF _ _ Hs); lia]. }
    cbn [dlist]. splits.
    + by rewrite (prev_set_next F HF), (prev_set_prev F HF), decide_False by done.
    + rewrite (next_set_next F HF), (next_set_prev F HF) by done. destruct l1 as [|b l1].
      * cbn [last_or] in q. subst q. rewrite decide_True by done. done.
      * rewrite decide_False; [by rewrite H2|]. unfold q. cbn [last_or]. destruct (last_or_in b l1) as [->|Hi].
        -- intros ->. apply Ha. left.
        -- intros E. rewrite E in Hi. apply Ha. right. apply elem_of_app. by left.
    + apply IH; [done|done|done|done|done].
Qed.

(** ** The lists of all classes *)

Definition head_addr (c : Z * Z) : Z := list_head ctl c.1 c.2.

Lemma head_addr_range c : in_range c → ctl + 136 ≤ head_addr c ∧ head_addr c + 8 ≤ ctl + sizeof_control.
Proof.
  intros [H1 H2]. unfold head_addr, list_head. change off_blocks with 136. change SL_INDEX_COUNT with 32 in *.
  change FL_INDEX_COUNT with 25 in *. clia.
Qed.
Lemma head_addr_apart c d : in_range c → in_range d → c ≠ d → head_addr c + 8 ≤ head_addr d ∨ head_addr d + 8 ≤ head_addr c.
Proof.
  intros [H1 H2] [H3 H4] Hne. destruct c as [c1 c2], d as [d1 d2]. unfold head_addr, list_head. cbn [fst snd] in *.
  change SL_INDEX_COUNT with 32 in *. assert (c1 ≠ d1 ∨ c2 ≠ d2) by (destruct (decide (c1 = d1)); [right; congruence|by left]). lia.
Qed.

(** The lists without the bitmaps. *)
Record links (m : memory) (F : gmap Z Z) (L : Z * Z → list Z) : Prop := {
  lk_nodes : nodes_ok F;
  lk_head : ∀ c, in_range c → load64 m (head_addr c) = hd_or (L c);
  lk_dl : ∀ c, in_range c → dlist m ctl (L c);
  lk_nodup : ∀ c, in_range c → NoDup (L c);
  lk_mem : ∀ c x, in_range c → x ∈ L c ↔ ∃ s, F !! x = Some s ∧ mapping_insert s = c;
}.

Lemma lk_node m F L c x : links m F L → in_range c → x ∈ L c → node F x ∧ x ≠ ctl.
Proof.
  intros H Hc (s & Hs & _)%(lk_mem _ _ _ H c x Hc). split; [right; eauto|]. intros ->.
  pose proof (no_ctl _ (lk_nodes _ _ _ H) _ _ Hs). clia.
Qed.

Lemma hd_or_null m F L c : links m F L → in_range c → hd_or (L c) = ctl ↔ L c = [].
Proof.
  intros H Hc. destruct (L c) as [|x l] eqn:E; [done|]. cbn. split; [|done]. intros ->.
  by destruct (lk_node m F L c ctl H Hc ltac:(rewrite E; left)).
Qed.

(** The bytes that list operations write. *)
Definition list_fp (F : gmap Z Z) (b : Z) : Prop := control_byte b ∨ ∃ x, is_Some (F !! x) ∧ link_byte x b.

Lemma node_next_fp F x b : node F x → x + 16 ≤ b < x + 24 → list_fp F b.
Proof. intros [->|Hx] Hb; [left; unfold control_byte; clia|right; exists x; split; [done|unfold link_byte; lia]]. Qed.
Lemma node_prev_fp F x b : node F x → x + 24 ≤ b < x + 32 → list_fp F b.
Proof. intros [->|Hx] Hb; [left; unfold control_byte; clia|right; exists x; split; [done|unfold link_byte; lia]]. Qed.

Lemma head_set_link F m x c v off :
  nodes_ok F → node F x → in_range c → off = 16 ∨ off = 24 → load64 (store64 m (x + off) v) (head_addr c) = load64 m (head_addr c).
Proof.
  intros HF Hx Hc Hoff. pose proof (head_addr_range c Hc). apply load64_store64_ne.
  destruct Hx as [->|[s Hs]]; [lia|]. pose proof (no_ctl _ HF _ _ Hs). lia.
Qed.
Lemma link_set_head F m x c v off :
  nodes_ok F → node F x → in_range c → off = 16 ∨ off = 24 → load64 (store64 m (head_addr c) v) (x + off) = load64 m (x + off).
Proof.
  intros HF Hx Hc Hoff. pose proof (head_addr_range c Hc). apply load64_store64_ne.
  destruct Hx as [->|[s Hs]]; [lia|]. pose proof (no_ctl _ HF _ _ Hs). lia.
Qed.

Definition upd_class (L : Z * Z → list Z) (c : Z * Z) (l : list Z) : Z * Z → list Z :=
  λ d, if decide (d = c) then l else L d.

Lemma nodes_ok_delete F x : nodes_ok F → nodes_ok (delete x F).
Proof.
  intros [H1 H2 H3 H4]. split; intros *; rewrite ?lookup_delete_Some.
  - intros [_ ?]; eauto.
  - intros [_ ?]; eauto.
  - intros [_ ?]; eauto.
  - intros [_ ?] [_ ?]; eauto.
Qed.

(** Taking [x] out of its list, up to the bitmaps. *)
Lemma links_remove m F L x s l1 l2 :
  let c := mapping_insert s in
  links m F L → F !! x = Some s → in_range c → L c = l1 ++ x :: l2 →
  let m2 := store64 (store64 m (hd_or l2 + 24) (last_or ctl l1)) (last_or ctl l1 + 16) (hd_or l2) in
  let m3 := if decide (l1 = []) then store64 m2 (head_addr c) (hd_or l2) else m2 in
  links m3 (delete x F) (upd_class L c (l1 ++ l2)) ∧ only (list_fp (delete x F)) m m3.
Proof.
  intros c H Hx Hc HL m2 m3. pose proof (lk_nodes _ _ _ H) as HF. pose proof (lk_nodup _ _ _ H c Hc) as Hnd. rewrite HL in Hnd.
  assert (Hn : ∀ y, y ∈ l1 ++ x :: l2 → node F y ∧ y ≠ ctl) by (rewrite <-HL; intros y Hy; by eapply lk_node).
  assert (Hctln : ctl ∉ l1 ++ x :: l2) by (intros Hi; by destruct (Hn ctl Hi)).
  assert (Hq : node F (last_or ctl l1)) by (apply last_or_node; [by left|]; intros y Hy; apply Hn, elem_of_app; by left).
  assert (Hnn : node F (hd_or l2)) by (apply hd_or_node; intros y Hy; apply Hn, elem_of_app; right; by right).
  assert (Hxl : x ∉ l1 ∧ x ∉ l2).
  { apply NoDup_app in Hnd as (_ & Hd & Hnd2). apply NoDup_cons in Hnd2 as [? _]. split; [|done].
    intros Hi. apply (Hd x Hi). left. }
  assert (Hlast_x : last_or ctl l1 ≠ x).
  { destruct (last_or_in ctl l1) as [E|E]; [rewrite E; intros ->; apply Hctln, elem_of_app; right; left|intros E'; rewrite E' in E; tauto]. }
  assert (Hhd_x : hd_or l2 ≠ x).
  { destruct l2 as [|y r]; [intros E; cbn in E; apply Hctln; rewrite E; apply elem_of_app; right; left|].
    cbn. unfold id. intros ->. destruct Hxl as [_ Hxl]. apply Hxl. left. }
  assert (Hl2hd : l2 = [] ∨ hd_or l2 ∈ l2) by (destruct l2; [by left|right; left]).
  (* words other than the links of the two neighbours *)
  assert (Hm2 : ∀ y, node F y → y ≠ hd_or l2 → load64 m2 (y + 24) = load64 m (y + 24)).
  { intros y Hy Hne. unfold m2. rewrite (prev_set_next F HF), (prev_set_prev F HF), decide_False by done. done. }
  assert (Hm2' : ∀ y, node F y → y ≠ last_or ctl l1 → load64 m2 (y + 16) = load64 m (y + 16)).
  { intros y Hy Hne. unfold m2. rewrite (next_set_next F HF), decide_False, (next_set_prev F HF) by done. done. }
  assert (Hh2 : ∀ d, in_range d → load64 m2 (head_addr d) = load64 m (head_addr d)).
  { intros d Hd. unfold m2. rewrite (head_set_link F _ _ d _ 16), (head_set_link F _ _ d _ 24) by tauto. done. }
  assert (Hlk3 : ∀ y off, node F y → off = 16 ∨ off = 24 → load64 m3 (y + off) = load64 m2 (y + off)).
  { intros y off Hy Hoff. unfold m3. destruct (decide _); [|done]. by apply (link_set_head F). }
  assert (Hnhd : u64 (hd_or l2) = hd_or l2).
  { apply u64_small. destruct Hnn as [->|[t Ht]]; [clia|pose proof (no_addr _ HF _ _ Ht); lia]. }
  assert (Hdom : ∀ y, y ∈ l1 ++ l2 → y ∈ l1 ++ x :: l2) by (intros y; rewrite !elem_of_app; rewrite elem_of_cons; tauto).
  split.
  - split.
    + by apply nodes_ok_delete.
    + intros d Hd. unfold upd_class. case_decide as Hdc.
      * subst d. rewrite hd_or_app. unfold m3. destruct (decide (l1 = [])) as [->|Hl1].
        -- by rewrite load64_store64_eq.
        -- rewrite Hh2 by done. rewrite (lk_head _ _ _ H) by done. rewrite HL, hd_or_app. by destruct l1.
      * unfold m3. destruct (decide (l1 = [])); [rewrite load64_store64_ne by (by apply or_comm, head_addr_apart)|];
          rewrite Hh2 by done; by apply (lk_head _ _ _ H).
    + intros d Hd. unfold upd_class. case_decide as Hdc.
      * subst d. eapply dlist_frame; [intros y Hy; destruct (Hn y (Hdom y Hy)); split; apply Hlk3; tauto|].
        apply (dlist_unlink F m x l2 HF l1 ctl); [by left|done|done|done|]. rewrite <-HL. by apply (lk_dl _ _ _ H).
      * eapply dlist_frame; [|by apply (lk_dl _ _ _ H)]. intros y Hy. destruct (lk_node _ _ _ _ _ H Hd Hy) as [Hyn Hyc].
        assert (Hyl : y ∉ l1 ++ x :: l2).
        { rewrite <-HL. intros Hy'. apply (lk_mem _ _ _ H) in Hy as (t & Et & <-); [|done].
          apply (lk_mem _ _ _ H) in Hy' as (t' & Et' & Ec); [|done]. apply Hdc. congruence. }
        rewrite !Hlk3 by tauto. split; [apply Hm2'|apply Hm2]; [done| |done|].
        -- intros ->. destruct (last_or_in ctl l1) as [E|E]; [done|]. apply Hyl, elem_of_app. by left.
        -- intros ->. destruct Hl2hd as [->|E]; [done|]. apply Hyl, elem_of_app. right. by right.
    + intros d Hd. unfold upd_class. case_decide; [|by apply (lk_nodup _ _ _ H)].
      apply NoDup_app in Hnd as (N1 & N2 & N3). apply NoDup_cons in N3 as [N3 N4]. apply NoDup_app. splits; [done| |done].
      intros y Hy1 Hy2. apply (N2 y Hy1). by right.
    + intros d y Hd. unfold upd_class. setoid_rewrite lookup_delete_Some. case_decide as Hdc.
      * subst d. rewrite elem_of_app. pose proof (lk_mem _ _ _ H c y Hc) as Hm. rewrite HL, elem_of_app, elem_of_cons in Hm.
        split.
        -- intros Hy. destruct (proj1 Hm ltac:(tauto)) as (t & Et & Ec). exists t. splits; [|done|done].
           intros <-. destruct Hxl. tauto.
        -- intros (t & [Hne Et] & Ec). destruct (proj2 Hm (ex_intro _ t (conj Et Ec))) as [?|[->|?]]; tauto.
      * rewrite (lk_mem _ _ _ H d y Hd). split; intros (t & Ht); exists t; [|tauto].
        destruct Ht as [Et Ec]. splits; [|done|done]. intros <-. rewrite Hx in Et. injection Et as <-. by apply Hdc.
  - assert (Hfp : ∀ y, node F y → y ≠ x → node (delete x F) y).
    { intros y [->|[t Ht]] Hne; [by left|right]. exists t. by apply lookup_delete_Some. }
    unfold m3. assert (only (list_fp (delete x F)) m m2) as Ho2.
    { unfold m2. eapply only_trans; apply only_store64; intros b Hb.
      - apply (node_prev_fp _ (hd_or l2)); [by apply Hfp|lia].
      - apply (node_next_fp _ (last_or ctl l1)); [by apply Hfp|lia]. }
    destruct (decide _); [|done]. eapply only_trans; [exact Ho2|]. apply only_store64. intros b Hb.
    left. unfold control_byte. pose proof (head_addr_range c Hc). lia.
Qed.

Lemma lk_class_inj m F L c d x : links m F L → in_range c → in_range d → x ∈ L c → x ∈ L d → c = d.
Proof.
  intros H Hc Hd (s & Es & <-)%(lk_mem _ _ _ H _ _ Hc) (t & Et & <-)%(lk_mem _ _ _ H _ _ Hd). congruence.
Qed.

(** Putting [x] in front of a list: only the old head's back link changes. *)
Lemma dlist_push m m' p q l :
  dlist m p l → NoDup l → (∀ y, y ∈ l → load64 m' (y + 16) = load64 m (y + 16)) →
  (∀ y, y ∈ l → load64 m' (y + 24) = if decide (y = hd_or l) then q else load64 m (y + 24)) → dlist m' q l.
Proof.
  intros H Hnd Hn Hp. destruct l as [|y l]; [done|]. destruct H as (H1 & H2 & H3). apply NoDup_cons in Hnd as [Hy _].
  cbn [dlist]. splits.
  - rewrite Hp by left. by rewrite decide_True.
  - by rewrite Hn by left.
  - eapply dlist_frame; [|exact H3]. intros z Hz. split; [apply Hn; by right|]. rewrite Hp by (by right).
    rewrite decide_False; [done|]. cbn. unfold id. by intros ->.
Qed.

Lemma links_insert m F L x s :
  let c := mapping_insert s in
  let cur := hd_or (L c) in
  links m F L → nodes_ok (<[x := s]> F) → F !! x = None → in_range c →
  let m' := store64 (store64 (store64 (store64 m (x + 16) cur) (x + 24) ctl) (cur + 24) x) (head_addr c) x in
  links m' (<[x := s]> F) (upd_class L c (x :: L c)) ∧ only (list_fp (<[x := s]> F)) m m'.
Proof.
  intros c cur H HF' Hx Hc m'. set (F' := <[x := s]> F) in *.
  assert (Hxs : F' !! x = Some s) by apply lookup_insert_eq. assert (Hxn : node F' x) by (right; eauto).
  assert (Hnode : ∀ d y, in_range d → y ∈ L d → node F' y ∧ y ≠ ctl ∧ y ≠ x).
  { intros d y Hd Hy. destruct (lk_node _ _ _ _ _ H Hd Hy) as [[->|[t Et]] Hyc]; [done|].
    assert (y ≠ x) by congruence. splits; [|done|done]. right. exists t. unfold F'. by rewrite lookup_insert_ne. }
  assert (Hcur : node F' cur) by (apply hd_or_node; intros y Hy; by apply (Hnode c)).
  assert (Hcx : cur ≠ x).
  { unfold cur. destruct (L c) as [|y l] eqn:E; [|by apply (Hnode c); [|rewrite E; left]].
    cbn. pose proof (no_ctl _ HF' _ _ Hxs). clia. }
  assert (Hn16 : ∀ y, node F' y → load64 m' (y + 16) = if decide (x = y) then cur else load64 m (y + 16)).
  { intros y Hy. unfold m'. rewrite (link_set_head F' _ y c _ 16), !(next_set_prev F' HF'), (next_set_next F' HF') by tauto.
    case_decide; [|done]. apply u64_small. destruct Hcur as [->|[t Et]]; [clia|pose proof (no_addr _ HF' _ _ Et); lia]. }
  assert (Hn24 : ∀ y, node F' y → y ≠ x → load64 m' (y + 24) = if decide (cur = y) then x else load64 m (y + 24)).
  { intros y Hy Hyx. unfold m'. rewrite (link_set_head F' _ y c _ 24), (prev_set_prev F' HF') by tauto.
    case_decide; [apply u64_small; pose proof (no_addr _ HF' _ _ Hxs); lia|].
    by rewrite (prev_set_prev F' HF'), decide_False, (prev_set_next F' HF') by done. }
  assert (Hx24 : load64 m' (x + 24) = ctl).
  { unfold m'. rewrite (link_set_head F' _ x c _ 24), (prev_set_prev F' HF'), decide_False by tauto.
    rewrite (prev_set_prev F' HF'), decide_True by done. apply u64_small. clia. }
  assert (Hhd : ∀ d, in_range d → load64 m' (head_addr d) = if decide (d = c) then x else load64 m (head_addr d)).
  { intros d Hd. unfold m'. case_decide as Hdc.
    - subst d. rewrite load64_store64_eq. apply u64_small. pose proof (no_addr _ HF' _ _ Hxs). lia.
    - rewrite load64_store64_ne by (by apply or_comm, head_addr_apart).
      by rewrite !(head_set_link F' _ _ d _ 24), (head_set_link F' _ _ d _ 16) by tauto. }
  split; [split|].
  - done.
  - intros d Hd. rewrite Hhd by done. unfold upd_class. case_decide; [done|]. by apply (lk_head _ _ _ H).
  - intros d Hd. unfold upd_class. case_decide as Hdc.
    + subst d. cbn [dlist]. splits; [done| |].
      * rewrite Hn16 by done. by rewrite decide_True.
      * apply (dlist_push m _ ctl); [by apply (lk_dl _ _ _ H)|by apply (lk_nodup _ _ _ H)|..].
        -- intros y Hy. destruct (Hnode c y Hc Hy) as (? & _ & ?). rewrite Hn16 by done. by rewrite decide_False.
        -- intros y Hy. destruct (Hnode c y Hc Hy) as (? & _ & ?). rewrite Hn24 by done. fold cur.
           by destruct (decide (cur = y)), (decide (y = cur)).
    + eapply dlist_frame; [|by apply (lk_dl _ _ _ H)]. intros y Hy. destruct (Hnode d y Hd Hy) as (? & Hyc & ?).
      rewrite Hn16, Hn24 by done. rewrite (decide_False (P := x = y)) by done. split; [done|].
      rewrite decide_False; [done|]. intros <-. apply Hdc. apply (lk_class_inj _ _ _ _ _ _ H Hd Hc Hy).
      revert Hyc. unfold cur. destruct (L c); [done|]. intros _. left.
  - intros d Hd. unfold upd_class. case_decide; [|by apply (lk_nodup _ _ _ H)]. apply NoDup_cons.
    split; [intros Hi; by apply (Hnode c x Hc) in Hi as (_ & _ & ?)|by apply (lk_nodup _ _ _ H)].
  - intros d y Hd. unfold upd_class, F'. case_decide as Hdc.
    + subst d. rewrite elem_of_cons, (lk_mem _ _ _ H c y Hc). destruct (decide (y = x)) as [->|Hne].
      * rewrite lookup_insert_eq. split; [eauto|tauto].
      * rewrite lookup_insert_ne by done. split; [intros [?|?]; [done|done]|tauto].
    + rewrite (lk_mem _ _ _ H d y Hd). destruct (decide (y = x)) as [->|Hne].
      * rewrite lookup_insert_eq, Hx. split; [naive_solver|]. intros (t & [= <-] & E). by destruct Hdc.
      * by rewrite lookup_insert_ne by done.
  - unfold m'. repeat (eapply only_trans; [|apply only_store64]); [apply only_refl|..]; intros b Hb.
    + by apply (node_next_fp _ x); [|lia].
    + by apply (node_prev_fp _ x); [|lia].
    + by apply (node_prev_fp _ cur); [|lia].
    + left. unfold control_byte. pose proof (head_addr_range c Hc). lia.
Qed.

(** ** The bitmaps *)

Definition fl_addr : Z := ctl + off_fl_bitmap.
Definition sl_addr (fl : Z) : Z := ctl + off_sl_bitmap + 4 * fl.
Definition bitmap_byte (b : Z) : Prop := ctl + off_fl_bitmap ≤ b < ctl + off_blocks.

Lemma fl_addr_range : ctl + 32 ≤ fl_addr ∧ fl_addr + 4 ≤ ctl + 136.
Proof. unfold fl_addr, off_fl_bitmap, sizeof_block_header. lia. Qed.
Lemma sl_addr_range fl : 0 ≤ fl < FL_INDEX_COUNT → fl_addr + 4 ≤ sl_addr fl ∧ sl_addr fl + 4 ≤ ctl + 136.
Proof. change FL_INDEX_COUNT with 25. unfold sl_addr, fl_addr, off_sl_bitmap, off_fl_bitmap, sizeof_block_header. lia. Qed.

(** The bitmaps as numbers: [ne] tells which lists have blocks. *)
Record bits_ok (flw : Z) (row : Z → Z) (ne : Z * Z → Prop) : Prop := {
  bo_sl : ∀ c, in_range c → Z.testbit (row c.1) c.2 = true ↔ ne c;
  bo_fl : ∀ fl, 0 ≤ fl < FL_INDEX_COUNT → Z.testbit flw fl = true ↔ row fl ≠ 0;
  bo_high : flw < 2 ^ FL_INDEX_COUNT;
}.

Lemma bits_ok_ext flw row row' ne ne' :
  (∀ fl, 0 ≤ fl < FL_INDEX_COUNT → row' fl = row fl) → (∀ c, in_range c → ne c ↔ ne' c) →
  bits_ok flw row ne → bits_ok flw row' ne'.
Proof.
  intros Hr Hn [H1 H2 H3]. split; [|intros fl Hfl; rewrite Hr by done; by apply H2|done].
  intros c Hc. rewrite Hr by (by destruct Hc). rewrite <-Hn by done. by apply H1.
Qed.

Lemma u32_bit k : 0 ≤ k < 32 → u32 (Z.shiftl 1 k) = 2 ^ k.
Proof. intros Hk. rewrite shiftl_1 by lia. apply u32_small. split; [lia|]. apply Z.pow_lt_mono_r; lia. Qed.
Lemma set_testbit x k i : 0 ≤ k < 32 → Z.testbit (Z.lor x (u32 (Z.shiftl 1 k))) i = Z.testbit x i || (k =? i).
Proof. intros Hk. by rewrite u32_bit, Z.lor_spec, testbit_pow2 by lia. Qed.
Lemma clear_testbit x k i :
  0 ≤ x < 2 ^ 32 → 0 ≤ k < 32 → 0 ≤ i →
  Z.testbit (Z.land x (u32 (Z.lnot (Z.shiftl 1 k)))) i = Z.testbit x i && negb (k =? i).
Proof.
  intros Hx Hk Hi. rewrite Z.land_spec. destruct (decide (i < 32)).
  - unfold u32. by rewrite Z.mod_pow2_bits_low, Z.lnot_spec, shiftl_1, testbit_pow2 by lia.
  - by rewrite (testbit_high x 32) by lia.
Qed.
Lemma clear_range x y : 0 ≤ x < 2 ^ 32 → 0 ≤ Z.land x y < 2 ^ 32.
Proof. intros Hx. by apply (land_fits 32). Qed.
Lemma set_range x k : 0 ≤ x < 2 ^ 32 → 0 ≤ k < 32 → 0 ≤ Z.lor x (u32 (Z.shiftl 1 k)) < 2 ^ 32.
Proof. intros Hx Hk. apply (lor_fits 32); [lia|done|]. unfold fits. apply u32_range. Qed.

Lemma bits_ok_clear flw row ne c :
  bits_ok flw row ne → in_range c → ne c → 0 ≤ flw → (∀ fl, 0 ≤ row fl < 2 ^ 32) →
  let r := Z.land (row c.1) (u32 (Z.lnot (Z.shiftl 1 c.2))) in
  let flw' := if r =? 0 then Z.land flw (u32 (Z.lnot (Z.shiftl 1 c.1))) else flw in
  bits_ok flw' (λ fl, if decide (fl = c.1) then r else row fl) (λ d, ne d ∧ d ≠ c).
Proof.
  intros [H1 H2 H3] Hc Hne H0 Hrow r flw'. pose proof Hc as [Hc1 Hc2].
  change FL_INDEX_COUNT with 25 in *. change SL_INDEX_COUNT with 32 in *. split.
  - intros d Hd. pose proof Hd as [Hd1 Hd2]. change FL_INDEX_COUNT with 25 in *. change SL_INDEX_COUNT with 32 in *.
    rewrite <-(H1 d Hd). destruct c as [c1 c2], d as [d1 d2]. cbn [fst snd] in *. case_decide as E.
    + subst d1. unfold r. rewrite clear_testbit by (done || lia). rewrite andb_true_iff, negb_true_iff, Z.eqb_neq.
      split; intros [A B]; (split; [done|]); congruence.
    + split; [|tauto]. split; [done|]. congruence.
  - intros fl Hfl. unfold flw'. case_decide as E.
    + subst fl. destruct (Z.eqb_spec r 0) as [E|E].
      * rewrite clear_testbit by lia. rewrite Z.eqb_refl, andb_false_r. split; [done|]. by intros ?.
      * rewrite (H2 c.1 Hc1). split; [done|]. intros _ Hz. apply (H1 c Hc) in Hne. by rewrite Hz, Z.bits_0 in Hne.
    + rewrite <-H2 by done. destruct (r =? 0); [|done]. rewrite clear_testbit by lia.
      by rewrite (proj2 (Z.eqb_neq c.1 fl)), andb_true_r by lia.
  - unfold flw'. destruct (r =? 0); [|done]. apply (land_fits 25); [lia|]. unfold fits. lia.
Qed.

Lemma bits_ok_set flw row ne c :
  bits_ok flw row ne → in_range c → 0 ≤ flw → (∀ fl, 0 ≤ row fl) →
  let r := Z.lor (row c.1) (u32 (Z.shiftl 1 c.2)) in
  let flw' := Z.lor flw (u32 (Z.shiftl 1 c.1)) in
  bits_ok flw' (λ fl, if decide (fl = c.1) then r else row fl) (λ d, ne d ∨ d = c).
Proof.
  intros [H1 H2 H3] Hc H0 Hrow r flw'. pose proof Hc as [Hc1 Hc2].
  change FL_INDEX_COUNT with 25 in *. change SL_INDEX_COUNT with 32 in *. split.
  - intros d Hd. rewrite <-(H1 d Hd). destruct c as [c1 c2], d as [d1 d2]. cbn [fst snd] in *. case_decide as E.
    + subst d1. unfold r. rewrite set_testbit, orb_true_iff, Z.eqb_eq by lia.
      split; (intros [A|A]; [by left|right]); congruence.
    + split; [by left|]. intros [A|A]; [done|congruence].
  - intros fl Hfl. unfold flw'. rewrite set_testbit, orb_true_iff, H2, Z.eqb_eq by (done || lia). case_decide as E.
    + subst fl. split; [|by right]. intros _ Hz. assert (Z.testbit r c.2 = true) as Hb.
      { unfold r. rewrite set_testbit by lia. rewrite Z.eqb_refl. by rewrite orb_true_r. }
      by rewrite Hz, Z.bits_0 in Hb.
    + split; [intros [?|?]; [done|lia]|by left].
  - unfold flw'. apply (lor_fits 25); [lia|unfold fits; lia|]. rewrite u32_bit by lia. unfold fits.
    split; [lia|]. apply Z.pow_lt_mono_r; lia.
Qed.

(** ** Lists and bitmaps together *)

Record lists (m : memory) (F : gmap Z Z) (L : Z * Z → list Z) : Prop := {
  ls_links : links m F L;
  ls_bits : bits_ok (load32 m fl_addr) (λ fl, load32 m (sl_addr fl)) (λ c, L c ≠ []);
}.

Lemma lists_bitmaps m F L : lists m F L → bitmaps_ok m ctl.
Proof.
  intros [H [H1 H2 H3]]. split; [|done|done]. intros c Hc. change (ctl + off_sl_bitmap + 4 * c.1) with (sl_addr c.1).
  rewrite (H1 c Hc). unfold nonempty. change (list_head ctl c.1 c.2) with (head_addr c). rewrite (lk_head _ _ _ H c Hc).
  unfold block_null. by rewrite (hd_or_null m F L c H Hc).
Qed.

(** The links depend on the list heads and the link fields only. *)
Lemma links_frame m m' F L :
  links m F L → (∀ b, list_fp F b → ¬ bitmap_byte b → load8 m' b = load8 m b) → links m' F L.
Proof.
  intros H Hf. assert (∀ a, (∀ b, a ≤ b < a + 8 → list_fp F b ∧ ¬ bitmap_byte b) → load64 m' a = load64 m a) as Hw.
  { intros a Ha. apply load_ext. intros b Hb. apply Hf; by apply Ha. }
  pose proof (lk_nodes _ _ _ H) as HF. destruct H as [_ H1 H2 H3 H4]. split; [done| |intros c Hc|done|done].
  - intros c Hc. rewrite Hw; [by apply H1|]. intros b Hb. pose proof (head_addr_range c Hc).
    split; [left; unfold control_byte; lia|unfold bitmap_byte; change off_fl_bitmap with 32; change off_blocks with 136; lia].
  - eapply dlist_frame; [|by apply H2]. intros x Hx. apply H4 in Hx as (s & Hs & _); [|done].
    assert (Hn : node F x) by (right; eauto). pose proof (no_ctl _ HF _ _ Hs).
    split; apply Hw; intros b Hb; (split; [|unfold bitmap_byte; change off_fl_bitmap with 32; change off_blocks with 136; clia]).
    + by apply (node_next_fp F x); [|lia].
    + by apply (node_prev_fp F x); [|lia].
Qed.

Lemma lists_frame m m' F L : lists m F L → (∀ b, list_fp F b → load8 m' b = load8 m b) → lists m' F L.
Proof.
  intros [H HB] Hf. split; [eapply links_frame; [done|auto]|].
  assert (∀ a, ctl ≤ a ∧ a + 4 ≤ ctl + sizeof_control → load32 m' a = load32 m a) as Hw.
  { intros a Ha. apply load_ext. intros b Hb. apply Hf. left. unfold control_byte. lia. }
  pose proof fl_addr_range. rewrite Hw by clia. refine (bits_ok_ext _ _ _ _ _ _ _ HB); [|done].
  intros fl Hfl. pose proof (sl_addr_range fl Hfl). apply Hw. clia.
Qed.

(** The bitmap words after the stores to links and heads. *)
Lemma bitmap_links F x off v m a :
  nodes_ok F → node F x → off = 16 ∨ off = 24 → ctl + 32 ≤ a ∧ a + 4 ≤ ctl + 136 → load32 (store64 m (x + off) v) a = load32 m a.
Proof.
  intros HF Hx Ho Ha. apply load32_store64_ne. destruct Hx as [->|[s Hs]]; [lia|]. pose proof (no_ctl _ HF _ _ Hs). clia.
Qed.
Lemma bitmap_head c v m a : in_range c → ctl + 32 ≤ a ∧ a + 4 ≤ ctl + 136 → load32 (store64 m (head_addr c) v) a = load32 m a.
Proof. intros Hc Ha. apply load32_store64_ne. pose proof (head_addr_range c Hc). lia. Qed.

Lemma set_row m c r :
  in_range c → 0 ≤ r < 2 ^ 32 →
  let m' := store32 m (sl_addr c.1) r in
  load32 m' fl_addr = load32 m fl_addr ∧
  ∀ fl, 0 ≤ fl < FL_INDEX_COUNT → load32 m' (sl_addr fl) = if decide (fl = c.1) then r else load32 m (sl_addr fl).
Proof.
  intros [Hc _] Hr m'. unfold m'. pose proof (sl_addr_range c.1 Hc). split; [by rewrite load32_store32_ne by lia|].
  intros fl Hfl. case_decide as E; [by rewrite E, load32_store32_eq, u32_small|].
  rewrite load32_store32_ne; [done|]. unfold sl_addr. lia.
Qed.
Lemma set_first m w :
  0 ≤ w < 2 ^ 32 →
  let m' := store32 m fl_addr w in
  load32 m' fl_addr = w ∧ ∀ fl, 0 ≤ fl < FL_INDEX_COUNT → load32 m' (sl_addr fl) = load32 m (sl_addr fl).
Proof.
  intros Hw m'. unfold m'. split; [by rewrite load32_store32_eq, u32_small|]. intros fl Hfl.
  pose proof (sl_addr_range fl Hfl). by rewrite load32_store32_ne by lia.
Qed.

Lemma only_bitmap_row F m c r : in_range c → only bitmap_byte m (store32 m (sl_addr c.1) r) ∧ only (list_fp F) m (store32 m (sl_addr c.1) r).
Proof.
  intros [Hc _]. pose proof (sl_addr_range c.1 Hc). pose proof fl_addr_range.
  split; apply only_store32; intros b Hb; [|left; unfold control_byte; clia].
  unfold bitmap_byte. change off_fl_bitmap with 32. change off_blocks with 136. lia.
Qed.
Lemma only_bitmap_first F m w : only bitmap_byte m (store32 m fl_addr w) ∧ only (list_fp F) m (store32 m fl_addr w).
Proof.
  pose proof fl_addr_range. split; apply only_store32; intros b Hb; [|left; unfold control_byte; clia].
  unfold bitmap_byte. change off_fl_bitmap with 32. change off_blocks with 136. lia.
Qed.

(** Lists after a change of the bitmaps alone. *)
Lemma lists_intro m m' F L flw row :
  links m F L → only bitmap_byte m m' → load32 m' fl_addr = flw →
  (∀ fl, 0 ≤ fl < FL_INDEX_COUNT → load32 m' (sl_addr fl) = row fl) → bits_ok flw row (λ c, L c ≠ []) → lists m' F L.
Proof.
  intros H Ho Hf Hr HB. split; [eapply links_frame; [done|intros; by apply Ho]|]. rewrite Hf. by refine (bits_ok_ext _ _ _ _ _ _ _ HB).
Qed.

(** ** The operations *)

Lemma set_head_ok c v m : in_range c → set_head ctl c.1 c.2 v m = Ok (tt, store64 m (head_addr c) v).
Proof. intros H. unfold set_head. by rewrite in_lists_true. Qed.
Lemma set_sl_bitmap_ok fl v m : 0 ≤ fl < FL_INDEX_COUNT → set_sl_bitmap ctl fl v m = Ok (tt, store32 m (sl_addr fl) v).
Proof. intros H. unfold set_sl_bitmap. rewrite (proj2 (Z.leb_le _ _)), (proj2 (Z.ltb_lt _ _)) by lia. done. Qed.

(** Clearing the bits of a list that has become empty. *)
Lemma clear_bits_spec m F L c :
  links m F L → in_range c →
  bits_ok (load32 m fl_addr) (λ fl, load32 m (sl_addr fl)) (λ d, L d ≠ [] ∨ d = c) → L c = [] →
  ∃ m', (slb ← sl_bitmap ctl c.1;
         set_sl_bitmap ctl c.1 (Z.land slb (u32 (Z.lnot (Z.shiftl 1 c.2))));;
         slb ← sl_bitmap ctl c.1;
         if slb =? 0 then
           flb ← fl_bitmap ctl; set_fl_bitmap ctl (Z.land flb (u32 (Z.lnot (Z.shiftl 1 c.1))))
         else mret tt) m = Ok (tt, m') ∧ lists m' F L ∧ only (list_fp F) m m'.
Proof.
  intros H Hc HB HL. pose proof Hc as [Hc1 _].
  pose proof (bits_ok_clear _ _ _ c HB Hc (or_intror eq_refl) ltac:(apply load32_range) ltac:(intros; apply load32_range)) as HB'.
  cbv beta zeta in HB'. change (ctl + off_sl_bitmap + 4 * c.1) with (sl_addr c.1) in *.
  mstep with (sl_bitmap_ok ctl c.1 m Hc1). change (ctl + off_sl_bitmap + 4 * c.1) with (sl_addr c.1).
  set (r := Z.land (load32 m (sl_addr c.1)) (u32 (Z.lnot (Z.shiftl 1 c.2)))) in *.
  assert (Hr : 0 ≤ r < 2 ^ 32) by apply clear_range, load32_range.
  mstep with (set_sl_bitmap_ok c.1 r m Hc1). mstep with (sl_bitmap_ok ctl c.1 _ Hc1).
  change (ctl + off_sl_bitmap + 4 * c.1) with (sl_addr c.1). set (m1 := store32 m (sl_addr c.1) r).
  destruct (set_row m c r Hc Hr) as [E1 E2]. fold m1 in E1, E2.
  destruct (only_bitmap_row F m c r Hc) as [O1 O2]. fold m1 in O1, O2.
  rewrite E2, decide_True by done.
  assert (Hne : ∀ d, in_range d → (L d ≠ [] ∨ d = c) ∧ d ≠ c ↔ L d ≠ []).
  { intros d _. split; [tauto|]. intros Hd. split; [by left|]. by intros ->. }
  apply (bits_ok_ext _ _ _ _ _ (λ _ _, eq_refl) Hne) in HB'.
  destruct (r =? 0).
  - mstep. change (ctl + off_fl_bitmap) with fl_addr. rewrite E1.
    set (w := Z.land (load32 m fl_addr) (u32 (Z.lnot (Z.shiftl 1 c.1)))) in *.
    eexists. split; [done|]. change (ctl + off_fl_bitmap) with fl_addr.
    destruct (set_first m1 w ltac:(apply clear_range, load32_range)) as [E3 E4].
    destruct (only_bitmap_first F m1 w) as [O3 O4]. split; [|by eapply only_trans].
    eapply (lists_intro m _ F L w); [done|by eapply only_trans|done| |exact HB']. intros fl Hfl. by rewrite E4, E2.
  - eexists. split; [done|]. split; [|done]. exact (lists_intro m m1 F L _ _ H O1 E1 E2 HB').
Qed.

Lemma class_in_range size : 0 ≤ size < block_size_max → in_range (mapping_insert size).
Proof.
  intros Hs. change block_size_max with (2 ^ 32) in Hs. destruct (mapping_insert_spec size) as (H1 & H2 & H3 & _); [lia|].
  split; [|done]. split; [lia|]. apply H3. change block_size_max with (2 ^ 32). lia.
Qed.

Lemma node_pos F x : nodes_ok F → node F x → x ≠ 0.
Proof. intros HF [->|[s Hs]]; [lia|]. pose proof (no_addr _ HF _ _ Hs). lia. Qed.

(** The blocks around [x] on its list. *)
Lemma lk_around m F L c x l1 l2 :
  links m F L → in_range c → L c = l1 ++ x :: l2 →
  load64 m (x + 24) = last_or ctl l1 ∧ load64 m (x + 16) = hd_or l2 ∧
  node F (last_or ctl l1) ∧ node F (hd_or l2) ∧ (hd_or (L c) = x ↔ l1 = []) ∧ (hd_or l2 = ctl ↔ l2 = []).
Proof.
  intros H Hc HL. pose proof (lk_node m F L c) as Hn. rewrite HL in Hn. 
  assert (Hn' : ∀ y, y ∈ l1 ++ x :: l2 → node F y ∧ y ≠ ctl) by (intros; by eapply Hn). clear Hn.
  destruct (dlist_node m ctl l1 x l2) as [Ep En]; [rewrite <-HL; by apply (lk_dl _ _ _ H)|].
  pose proof (lk_nodup _ _ _ H c Hc) as Hnd. rewrite HL in Hnd. splits; [done|done|..].
  - apply last_or_node; [by left|]. intros y Hy. apply Hn', elem_of_app. by left.
  - apply hd_or_node. intros y Hy. apply Hn', elem_of_app. right. by right.
  - rewrite HL, hd_or_app. destruct l1 as [|y l1]; [done|]. split; [|done]. intros ->.
    apply NoDup_cons in Hnd as [Hnd _]. destruct Hnd. apply elem_of_app. right. left.
  - destruct l2 as [|y l2]; [done|]. cbn. unfold id. split; [|done]. intros ->.
    destruct (Hn' ctl); [|done]. apply elem_of_app. right. right. left.
Qed.

Lemma remove_free_block_spec m F L x s :
  lists m F L → F !! x = Some s →
  ∃ m' L', remove_free_block ctl x (mapping_insert s).1 (mapping_insert s).2 m = Ok (tt, m') ∧
    lists m' (delete x F) L' ∧ only (list_fp (delete x F)) m m'.
Proof.
  intros [H HB] Hx. pose proof (lk_nodes _ _ _ H) as HF. set (c := mapping_insert s) in *.
  assert (Hc : in_range c) by (eapply class_in_range, no_size; [done|exact Hx]).
  assert (Hin : x ∈ L c) by (apply (lk_mem _ _ _ H); [done|eauto]).
  apply list_elem_of_split in Hin as (l1 & l2 & HL).
  destruct (links_remove m F L x s l1 l2 H Hx Hc HL) as [H' Ho]. fold c in H', Ho.
  destruct (lk_around m F L c x l1 l2 H Hc HL) as (Ep & En & Hpn & Hnn & Hhead & Hnull).
  unfold remove_free_block. mstep. mstep. unfold off_prev_free, off_next_free. rewrite Ep, En.
  rewrite !(proj2 (Z.eqb_neq _ 0)) by (by apply (node_pos F)). cbn [negb tlsf_assert]. mstep. mstep. mstep. mstep.
  unfold off_prev_free, off_next_free.
  set (m2 := store64 (store64 m (hd_or l2 + 24) (last_or ctl l1)) (last_or ctl l1 + 16) (hd_or l2)) in *.
  mstep with (get_head_ok ctl c m2 Hc). change (list_head ctl c.1 c.2) with (head_addr c).
  assert (load64 m2 (head_addr c) = hd_or (L c)) as ->.
  { unfold m2. rewrite (head_set_link F _ _ c _ 16), (head_set_link F _ _ c _ 24) by tauto. by apply (lk_head _ _ _ H). }
  assert (Hbm : ∀ a, ctl + 32 ≤ a ∧ a + 4 ≤ ctl + 136 → load32 m2 a = load32 m a).
  { intros a Ha. unfold m2. by rewrite (bitmap_links F _ 16), (bitmap_links F _ 24) by tauto. }
  assert (HB2 : ∀ m3, (∀ a, ctl + 32 ≤ a ∧ a + 4 ≤ ctl + 136 → load32 m3 a = load32 m2 a) → ∀ ne,
    (∀ d, in_range d → L d ≠ [] ↔ ne d) → bits_ok (load32 m3 fl_addr) (λ fl, load32 m3 (sl_addr fl)) ne).
  { intros m3 Hm3 ne Hne. pose proof fl_addr_range. rewrite Hm3, Hbm by done. refine (bits_ok_ext _ _ _ _ _ _ Hne HB).
    intros fl Hfl. pose proof (sl_addr_range fl Hfl). rewrite Hm3, Hbm by lia. done. }
  assert (Hne : (l1 ++ l2 ≠ [] → ∀ d, in_range d → L d ≠ [] ↔ upd_class L c (l1 ++ l2) d ≠ [])).
  { intros Hl d Hd. unfold upd_class. destruct (decide (d = c)) as [E|E]; [rewrite E, HL|done]. split; [done|]. by intros _ [_ ?]%app_nil. }
  destruct (Z.eqb_spec (hd_or (L c)) x) as [E|E].
  - apply Hhead in E as ->. rewrite decide_True in H', Ho by done. mstep with (set_head_ok c _ m2 Hc).
    set (m3 := store64 m2 (head_addr c) (hd_or l2)) in *.
    assert (Hm3 : ∀ a, ctl + 32 ≤ a ∧ a + 4 ≤ ctl + 136 → load32 m3 a = load32 m2 a) by (intros; by apply bitmap_head).
    unfold block_null. destruct (Z.eqb_spec (hd_or l2) ctl) as [E|E].
    + apply Hnull in E as ->.
      destruct (clear_bits_spec m3 (delete x F) (upd_class L c []) c) as (m4 & E4 & H4 & O4); [done|done| |..].
      * apply HB2; [done|]. intros d Hd. unfold upd_class. destruct (decide (d = c)) as [Ed|Ed]; [rewrite Ed, HL|tauto]. by split; [right|].
      * unfold upd_class. by rewrite decide_True.
      * exists m4, (upd_class L c []). splits; [done|done|]. by eapply only_trans.
    + exists m3, (upd_class L c l2). splits; [done|split; [done|]|done]. apply HB2; [done|]. apply Hne. cbn [app]. intros ->. by apply E, Hnull.
  - assert (l1 ≠ []) as Hl1 by (intros ->; by apply E, Hhead). rewrite decide_False in H', Ho by done.
    exists m2, (upd_class L c (l1 ++ l2)). splits; [done|split; [done|]|done]. apply HB2; [done|]. apply Hne. by destruct l1.
Qed.

Lemma align_ptr_aligned p m : 0 ≤ p → p + 8 ≤ 2 ^ 64 → p `mod` 8 = 0 → align_ptr p ALIGN_SIZE m = Ok (p, m).
Proof.
  intros H0 H1 H8. unfold align_ptr. change (is_pow2 ALIGN_SIZE) with true. cbn [tlsf_assert]. mstep.
  change ALIGN_SIZE with (2 ^ 3). rewrite (u64_small (p + _)), land_lnot_ones by lia. rewrite ret_eq. do 2 f_equal.
  rewrite u64_small by zdiv. zdiv.
Qed.

Lemma insert_free_block_spec m F L x s :
  lists m F L → nodes_ok (<[x := s]> F) → F !! x = None →
  ∃ m' L', insert_free_block ctl x (mapping_insert s).1 (mapping_insert s).2 m = Ok (tt, m') ∧
    lists m' (<[x := s]> F) L' ∧ only (list_fp (<[x := s]> F)) m m'.
Proof.
  intros [H HB] HF' Hx. set (c := mapping_insert s) in *. assert (Hxs : <[x := s]> F !! x = Some s) by apply lookup_insert_eq.
  assert (Hc : in_range c) by (eapply class_in_range, no_size; [exact HF'|exact Hxs]).
  destruct (links_insert m F L x s H HF' Hx Hc) as [H' Ho]. fold c in H', Ho. pose proof (no_addr _ HF' _ _ Hxs) as Ha.
  assert (Hcur : node F (hd_or (L c))) by (apply hd_or_node; intros y Hy; by eapply lk_node).
  unfold insert_free_block. mstep with (get_head_ok ctl c m Hc). change (list_head ctl c.1 c.2) with (head_addr c).
  rewrite (lk_head _ _ _ H c Hc). rewrite (proj2 (Z.eqb_neq (hd_or _) 0)), (proj2 (Z.eqb_neq x 0)); [|lia|apply (node_pos F); [apply (lk_nodes _ _ _ H)|done]].
  cbn [negb tlsf_assert]. do 5 mstep. unfold off_prev_free, off_next_free, block_null.
  assert (Hp : block_to_ptr x = x + 16) by (unfold block_to_ptr; change block_start_offset with 16; apply u64_small; lia).
  rewrite Hp. erewrite bind_ok; [|apply align_ptr_aligned; zdiv]. rewrite Z.eqb_refl. cbn [tlsf_assert]. mstep.
  mstep with (set_head_ok c x _ Hc). set (m4 := store64 _ (head_addr c) x) in *.
  mstep. mstep. change (ctl + off_fl_bitmap) with fl_addr.
  set (w := Z.lor (load32 m4 fl_addr) (u32 (Z.shiftl 1 c.1))). pose proof Hc as [Hc1 Hc2].
  mstep with (sl_bitmap_ok ctl c.1 _ Hc1). change (ctl + off_sl_bitmap + 4 * c.1) with (sl_addr c.1).
  rewrite (set_sl_bitmap_ok c.1 _ _ Hc1).
  destruct (set_first m4 w) as [E1 E2]; [apply set_range; [apply load32_range|change FL_INDEX_COUNT with 25 in *; lia]|].
  set (m5 := store32 m4 fl_addr w) in *. rewrite E2 by done.
  set (r := Z.lor (load32 m4 (sl_addr c.1)) (u32 (Z.shiftl 1 c.2))).
  destruct (set_row m5 c r Hc) as [E3 E4]; [apply set_range; [apply load32_range|done]|].
  eexists _, (upd_class L c (x :: L c)). split; [done|].
  destruct (only_bitmap_first (<[x := s]> F) m4 w) as [O1 O2]. destruct (only_bitmap_row (<[x := s]> F) m5 c r Hc) as [O3 O4].
  split; [|by do 2 (eapply only_trans; [done|])].
  eapply (lists_intro m4 _ _ _ w); [done|by eapply only_trans|by rewrite E3|intros fl Hfl; rewrite E4, E2 by done; reflexivity|].
  assert (Hbm : ∀ a, ctl + 32 ≤ a ∧ a + 4 ≤ ctl + 136 → load32 m4 a = load32 m a).
  { intros a Ha'. unfold m4. assert (Hxn : node (<[x := s]> F) x) by (right; eauto).
    assert (Hcn : node (<[x := s]> F) (hd_or (L c))).
    { destruct Hcur as [->|[t Ht]]; [by left|right]. exists t. rewrite lookup_insert_ne; [done|]. intros ->. congruence. }
    rewrite bitmap_head by done. by rewrite !(bitmap_links (<[x := s]> F) _ 24), (bitmap_links (<[x := s]> F) _ 16) by tauto. }
  unfold w, r. pose proof fl_addr_range.
  pose proof (bits_ok_set _ _ _ c HB Hc ltac:(apply load32_range) ltac:(intros; apply load32_range)) as HB'. cbv beta zeta in HB'.
  rewrite Hbm by done. pose proof (sl_addr_range _ Hc1). rewrite (Hbm (sl_addr c.1)) by lia. refine (bits_ok_ext _ _ _ _ _ _ _ HB').
  - intros fl Hfl. pose proof (sl_addr_range _ Hfl). by rewrite Hbm by lia.
  - intros d Hd. unfold upd_class. case_decide; [|tauto]. by split; [|right].
Qed.

(** The search, in terms of the blocks of the lists. *)
Lemma search_lists m F L c :
  lists m F L → in_range c →
  ∃ r, search_suitable_block ctl c.1 c.2 m = Ok (r, m) ∧
    ((r.1 = 0 ∧ ∀ x s, F !! x = Some s → ¬ class_le c (mapping_insert s)) ∨
     ∃ x s, r = (x, mapping_insert s) ∧ F !! x = Some s ∧ class_le c (mapping_insert s)).
Proof.
  intros H Hc. pose proof (ls_links _ _ _ H) as HL.
  destruct (search_suitable_block_spec m ctl c (lists_bitmaps _ _ _ H) Hc) as (r & E & Hr). exists r. split; [done|].
  assert (Hne : ∀ d, in_range d → nonempty m ctl d ↔ L d ≠ []).
  { intros d Hd. unfold nonempty, block_null. change (list_head ctl d.1 d.2) with (head_addr d).
    rewrite (lk_head _ _ _ HL) by done. by rewrite (hd_or_null m F L d HL Hd). }
  destruct Hr as [[H0 Hr]|(d & -> & Hd & Hle & Hnd & _)]; [left|right].
  - split; [done|]. intros x s Hx Hle. assert (Hi : in_range (mapping_insert s)).
    { eapply class_in_range, no_size; [apply (lk_nodes _ _ _ HL)|exact Hx]. }
    apply (Hr _ Hi Hle), Hne; [done|]. intros E0.
    assert (x ∈ L (mapping_insert s)) as Hin by (apply (lk_mem _ _ _ HL); eauto). rewrite E0 in Hin. by apply elem_of_nil in Hin.
  - apply Hne in Hnd; [|done]. change (list_head ctl d.1 d.2) with (head_addr d). rewrite (lk_head _ _ _ HL) by done.
    destruct (L d) as [|x l] eqn:El; [done|]. cbn.
    destruct (proj1 (lk_mem _ _ _ HL d x Hd)) as (s & Hs & <-); [rewrite El; left|]. eauto.
Qed.
End lists.
