(* ===== verification/TlsfPhys.v ===== *)
(** * The physical blocks of the kernel heap

    A pool of tlsf.c is a sequence of blocks laid out one after the other and
    ended by a sentinel of size 0.  The header of the block at [b] is the word
    at [b + 8]: its size with the free bit and the bit that tells whether the
    previous block is free; the word at [b] belongs to the previous block and
    holds its address when it is free.  [chain m b pf bs] says that memory [m]
    has the blocks [bs] (sizes and free bits) from [b] on, the block before
    being free if [pf] is true. *)
From Stdlib Require Import ZArith Lia.
From stdpp Require Import base option gmap list.
From S2P Require Import Prelude Memory Tlsf TlsfProof TlsfLists.

(** ** Header words *)

Definition hdr (s : Z) (f pf : bool) : Z := s + Z.b2z f + 2 * Z.b2z pf.

Lemma testbit_4 k c i : 0 ≤ c < 4 → 0 ≤ i → Z.testbit (4 * k + c) i = if i <? 2 then Z.testbit c i else Z.testbit k (i - 2).
Proof.
  intros Hc Hi. destruct (Z.ltb_spec i 2).
  - rewrite <-(Z.mod_pow2_bits_low _ 2) by lia. f_equal. change (2 ^ 2) with 4. Z.div_mod_to_equations. lia.
  - replace i with (i - 2 + 2) at 1 by lia. rewrite <-Z.div_pow2_bits by lia. f_equal. change (2 ^ 2) with 4.
    Z.div_mod_to_equations. lia.
Qed.

(** The two low bits and the rest of a word are independent under the masks. *)
Lemma land_4 j c k d : 0 ≤ c < 4 → 0 ≤ d < 4 → Z.land (4 * j + c) (4 * k + d) = 4 * Z.land j k + Z.land c d.
Proof.
  intros Hc Hd. assert (0 ≤ Z.land c d < 4) by (apply (land_fits 2); [lia|unfold fits; lia]).
  apply Z.bits_inj'. intros i Hi. rewrite Z.land_spec, !testbit_4 by done. destruct (i <? 2); by rewrite Z.land_spec.
Qed.
Lemma lor_4 j c k d : 0 ≤ c < 4 → 0 ≤ d < 4 → Z.lor (4 * j + c) (4 * k + d) = 4 * Z.lor j k + Z.lor c d.
Proof.
  intros Hc Hd. assert (0 ≤ Z.lor c d < 4) by (apply (lor_fits 2); [lia|unfold fits; lia|unfold fits; lia]).
  apply Z.bits_inj'. intros i Hi. rewrite Z.lor_spec, !testbit_4 by done. destruct (i <? 2); by rewrite Z.lor_spec.
Qed.

Definition low_bits (f pf : bool) : Z := Z.b2z f + 2 * Z.b2z pf.
Lemma low_bits_range f pf : 0 ≤ low_bits f pf < 4.
Proof. by destruct f, pf. Qed.
Lemma hdr_4 s f pf : s `mod` 8 = 0 → hdr s f pf = 4 * (s / 4) + low_bits f pf.
Proof. intros Hs. unfold hdr, low_bits. zdiv. Qed.

Section hdr.
Context (s : Z) (f pf : bool) (Hs : s `mod` 8 = 0).

Lemma hdr_and c j : 0 ≤ c < 4 → Z.land (hdr s f pf) (4 * j + c) = 4 * Z.land (s / 4) j + Z.land (low_bits f pf) c.
Proof. intros Hc. rewrite hdr_4 by done. apply land_4; [apply low_bits_range|done]. Qed.
Lemma hdr_or c : 0 ≤ c < 4 → Z.lor (hdr s f pf) c = 4 * (s / 4) + Z.lor (low_bits f pf) c.
Proof.
  intros Hc. rewrite hdr_4 by done. replace c with (4 * 0 + c) at 1 by lia. rewrite lor_4 by (done || apply low_bits_range).
  by rewrite Z.lor_0_r.
Qed.

Lemma hdr_size : Z.land (hdr s f pf) (Z.lnot size_bits) = s.
Proof. change (Z.lnot size_bits) with (4 * -1 + 0). rewrite hdr_and, Z.land_m1_r, Z.land_0_r by lia. zdiv. Qed.
Lemma hdr_is_free : negb (Z.land (hdr s f pf) block_header_free_bit =? 0) = f.
Proof. change block_header_free_bit with (4 * 0 + 1). rewrite hdr_and, Z.land_0_r by lia. by destruct f, pf. Qed.
Lemma hdr_is_prev_free : negb (Z.land (hdr s f pf) block_header_prev_free_bit =? 0) = pf.
Proof. change block_header_prev_free_bit with (4 * 0 + 2). rewrite hdr_and, Z.land_0_r by lia. by destruct f, pf. Qed.
Lemma hdr_set_free : Z.lor (hdr s f pf) block_header_free_bit = hdr s true pf.
Proof. change block_header_free_bit with 1. rewrite hdr_or, hdr_4 by (done || lia). by destruct f, pf. Qed.
Lemma hdr_set_prev_free : Z.lor (hdr s f pf) block_header_prev_free_bit = hdr s f true.
Proof. change block_header_prev_free_bit with 2. rewrite hdr_or, hdr_4 by (done || lia). by destruct f, pf. Qed.
Lemma hdr_set_used : Z.land (hdr s f pf) (Z.lnot block_header_free_bit) = hdr s false pf.
Proof.
  change (Z.lnot block_header_free_bit) with (4 * -1 + 2). rewrite hdr_and, Z.land_m1_r, hdr_4 by (done || lia). by destruct f, pf.
Qed.
Lemma hdr_set_prev_used : Z.land (hdr s f pf) (Z.lnot block_header_prev_free_bit) = hdr s f false.
Proof.
  change (Z.lnot block_header_prev_free_bit) with (4 * -1 + 1). rewrite hdr_and, Z.land_m1_r, hdr_4 by (done || lia). by destruct f, pf.
Qed.
Lemma hdr_u64 : 0 ≤ s < 2 ^ 64 - 8 → u64 (hdr s f pf) = hdr s f pf.
Proof. intros. apply u64_small. unfold hdr. destruct f, pf; cbn; lia. Qed.
End hdr.

(** A new size keeps the two bits of whatever word was there. *)
Lemma hdr_set_size w s :
  0 ≤ w → s `mod` 8 = 0 → Z.lor s (Z.land w size_bits) = hdr s (Z.testbit w 0) (Z.testbit w 1).
Proof.
  intros Hw Hs. change size_bits with (2 ^ 2 - 1). rewrite land_ones_mod by lia. rewrite hdr_4 by done.
  assert (w `mod` 2 ^ 2 = low_bits (Z.testbit w 0) (Z.testbit w 1)) as ->.
  { unfold low_bits. rewrite <-!(Z.mod_pow2_bits_low w 2) by lia. assert (0 ≤ w `mod` 2 ^ 2 < 4) as H by zdiv.
    revert H. generalize (w `mod` 2 ^ 2). intros z Hz. assert (z = 0 ∨ z = 1 ∨ z = 2 ∨ z = 3) as [->|[->|[->| ->]]] by lia; done. }
  pose proof (low_bits_range (Z.testbit w 0) (Z.testbit w 1)) as Hl. revert Hl. generalize (low_bits (Z.testbit w 0) (Z.testbit w 1)).
  intros l Hl. replace s with (4 * (s / 4) + 0) at 1 by zdiv. replace l with (4 * 0 + l) at 1 by lia.
  rewrite lor_4 by lia. by rewrite Z.lor_0_r, Z.lor_0_l.
Qed.

(** ** Block accesses *)

Section access.
Context (m : memory) (b s : Z) (f pf : bool).
Hypothesis Hw : load64 m (b + 8) = hdr s f pf.
Hypothesis Hs : s `mod` 8 = 0.

Lemma block_size_ok : block_size b m = Ok (s, m).
Proof. unfold block_size. mstep. unfold off_size. by rewrite Hw, hdr_size. Qed.
Lemma block_is_last_ok : block_is_last b m = Ok (s =? 0, m).
Proof. unfold block_is_last. by mstep with block_size_ok. Qed.
Lemma block_is_free_ok : block_is_free b m = Ok (f, m).
Proof. unfold block_is_free. mstep. unfold off_size. by rewrite Hw, hdr_is_free. Qed.
Lemma block_is_prev_free_ok : block_is_prev_free b m = Ok (pf, m).
Proof. unfold block_is_prev_free. mstep. unfold off_size. by rewrite Hw, hdr_is_prev_free. Qed.
Lemma block_set_free_ok : block_set_free b m = Ok (tt, store64 m (b + 8) (hdr s true pf)).
Proof. unfold block_set_free. mstep. unfold off_size, set_size. by rewrite Hw, hdr_set_free. Qed.
Lemma block_set_used_ok : block_set_used b m = Ok (tt, store64 m (b + 8) (hdr s false pf)).
Proof. unfold block_set_used. mstep. unfold off_size, set_size. by rewrite Hw, hdr_set_used. Qed.
Lemma block_set_prev_free_ok : block_set_prev_free b m = Ok (tt, store64 m (b + 8) (hdr s f true)).
Proof. unfold block_set_prev_free. mstep. unfold off_size, set_size. by rewrite Hw, hdr_set_prev_free. Qed.
Lemma block_set_prev_used_ok : block_set_prev_used b m = Ok (tt, store64 m (b + 8) (hdr s f false)).
Proof. unfold block_set_prev_used. mstep. unfold off_size, set_size. by rewrite Hw, hdr_set_prev_used. Qed.

Hypothesis Hb : 0 ≤ b ∧ 8 ≤ s ∧ b + 16 + s < 2 ^ 64.

Lemma block_next_ok : block_next b m = Ok (b + 8 + s, m).
Proof.
  unfold block_next. mstep with block_size_ok. mstep with block_is_last_ok. rewrite (proj2 (Z.eqb_neq s 0)) by lia.
  cbn [negb tlsf_assert]. mstep. rewrite ret_eq. do 2 f_equal. unfold offset_to_block, block_to_ptr.
  change block_start_offset with 16. change block_header_overhead with 8. rewrite (u64_small (b + 16)), u64_small by lia. lia.
Qed.
Lemma block_link_next_ok : block_link_next b m = Ok (b + 8 + s, store64 m (b + 8 + s) b).
Proof.
  unfold block_link_next. mstep with block_next_ok. unfold set_prev_phys, off_prev_phys. mstep. by rewrite Z.add_0_r.
Qed.
End access.

Lemma block_set_size_ok m b s :
  s `mod` 8 = 0 → ∃ f pf, block_set_size b s m = Ok (tt, store64 m (b + 8) (hdr s f pf)) ∧
    ∀ s0 f0 pf0, s0 `mod` 8 = 0 → load64 m (b + 8) = hdr s0 f0 pf0 → f = f0 ∧ pf = pf0.
Proof.
  intros Hs. unfold block_set_size. mstep. unfold off_size, set_size. rewrite hdr_set_size by (done || apply load64_range).
  do 2 eexists. split; [done|]. intros s0 f0 pf0 Hs0 ->. rewrite hdr_4 by done. rewrite !testbit_4 by (lia || apply low_bits_range).
  by destruct f0, pf0.
Qed.

(** The header of a block after a store elsewhere or to it. *)
Lemma header_store_ne m a v b : b + 16 ≤ a ∨ a + 8 ≤ b + 8 → load64 (store64 m a v) (b + 8) = load64 m (b + 8).
Proof. intros. apply load64_store64_ne. lia. Qed.
Lemma header_store_eq m b s f pf :
  s `mod` 8 = 0 → 0 ≤ s < 2 ^ 64 - 8 → load64 (store64 m (b + 8) (hdr s f pf)) (b + 8) = hdr s f pf.
Proof. intros Hs Hr. rewrite load64_store64_eq. by apply hdr_u64. Qed.

(** [block_mark_as_used] and [block_mark_as_free]: the block and the flag of
    its successor. *)
Lemma block_mark_as_used_ok m b s f pf s2 f2 pf2 :
  load64 m (b + 8) = hdr s f pf → load64 m (b + 8 + s + 8) = hdr s2 f2 pf2 → s `mod` 8 = 0 → s2 `mod` 8 = 0 →
  0 ≤ b ∧ 8 ≤ s ∧ b + 16 + s < 2 ^ 64 →
  block_mark_as_used b m = Ok (tt, store64 (store64 m (b + 8 + s + 8) (hdr s2 f2 false)) (b + 8) (hdr s false pf)).
Proof.
  intros Hw Hw2 Hs Hs2 Hb. unfold block_mark_as_used. mstep with (block_next_ok m b s f pf Hw Hs Hb).
  mstep with (block_set_prev_used_ok m _ s2 f2 pf2 Hw2 Hs2). apply (block_set_used_ok _ b s f pf); [|done].
  by rewrite header_store_ne by lia.
Qed.
Lemma block_mark_as_free_ok m b s f pf s2 f2 pf2 :
  load64 m (b + 8) = hdr s f pf → load64 m (b + 8 + s + 8) = hdr s2 f2 pf2 → s `mod` 8 = 0 → s2 `mod` 8 = 0 →
  0 ≤ b ∧ 8 ≤ s ∧ b + 16 + s < 2 ^ 64 →
  block_mark_as_free b m =
    Ok (tt, store64 (store64 (store64 m (b + 8 + s) b) (b + 8 + s + 8) (hdr s2 f2 true)) (b + 8) (hdr s true pf)).
Proof.
  intros Hw Hw2 Hs Hs2 Hb. unfold block_mark_as_free. mstep with (block_link_next_ok m b s f pf Hw Hs Hb).
  erewrite bind_ok; [|apply (block_set_prev_free_ok _ _ s2 f2 pf2); [by rewrite header_store_ne by lia|done]].
  apply (block_set_free_ok _ b s f pf); [|done]. by rewrite !header_store_ne by lia.
Qed.

Lemma block_ptr_ok x : 0 ≤ x → x + 24 ≤ 2 ^ 64 → x `mod` 8 = 0 →
  block_to_ptr x = x + 16 ∧ ∀ m, align_ptr (x + 16) ALIGN_SIZE m = Ok (x + 16, m).
Proof.
  intros H0 H1 H2. unfold block_to_ptr. change block_start_offset with 16.
  split; [apply u64_small; lia|intros m; apply align_ptr_aligned; zdiv].
Qed.

(** [block_split]: the remaining block is marked free; whether its
    predecessor is free stays as the bytes there had it. *)
Lemma block_split_ok m x s f pf size s2 f2 pf2 :
  let r := x + 8 + size in
  let rs := s - size - 8 in
  load64 m (x + 8) = hdr s f pf → load64 m (x + 8 + s + 8) = hdr s2 f2 pf2 → s2 `mod` 8 = 0 →
  0 ≤ x ∧ x `mod` 8 = 0 → s `mod` 8 = 0 → size `mod` 8 = 0 → 24 ≤ size → 32 + size ≤ s → x + s + 32 < 2 ^ 64 →
  ∃ g1 g2, block_split x size m =
    Ok (r, store64 (store64 (store64 (store64 (store64 m (r + 8) (hdr rs g1 g2)) (x + 8) (hdr size f pf))
             (x + 8 + s) r) (x + 8 + s + 8) (hdr s2 f2 true)) (r + 8) (hdr rs true g2)).
Proof.
  intros r rs Hw Hw2 Hs2 [Hx0 Hx8] Hs Hz Hz1 Hz2 Hb. assert (Hrs : rs `mod` 8 = 0 ∧ 24 ≤ rs) by (unfold rs; zdiv).
  assert (Hr8 : r `mod` 8 = 0) by (unfold r; zdiv). assert (Er : r + 8 + rs = x + 8 + s) by (unfold r, rs; lia).
  unfold block_split. rewrite (proj1 (block_ptr_ok x Hx0 ltac:(lia) Hx8)). change block_header_overhead with 8.
  assert (offset_to_block (x + 16) (size - 8) = r) as ->.
  { unfold offset_to_block, r. rewrite u64_small by lia. lia. }
  destruct (block_ptr_ok r) as [-> Ea]; [unfold r; lia|unfold r; lia|done|].
  mstep with (block_size_ok m x s f pf Hw Hs). assert (u64 (s - (size + 8)) = rs) as -> by (unfold rs; rewrite u64_small by lia; lia).
  mstep with (Ea m). rewrite Z.eqb_refl. cbn [tlsf_assert]. mstep. mstep with (block_size_ok m x s f pf Hw Hs).
  assert (u64 (rs + size + 8) = s) as -> by (unfold rs; rewrite u64_small by lia; lia). rewrite Z.eqb_refl. cbn [tlsf_assert]. mstep.
  destruct (block_set_size_ok m r rs) as (g1 & g2 & E1 & _); [tauto|]. mstep with E1.
  set (m1 := store64 m (r + 8) (hdr rs g1 g2)).
  assert (Hr1 : load64 m1 (r + 8) = hdr rs g1 g2) by (apply header_store_eq; lia).
  mstep with (block_size_ok m1 r rs g1 g2 Hr1 (proj1 Hrs)). change block_size_min with 24. rewrite (proj2 (Z.leb_le 24 rs)) by lia.
  cbn [tlsf_assert]. mstep. assert (Hx1 : load64 m1 (x + 8) = hdr s f pf) by (unfold m1; by rewrite header_store_ne by lia).
  destruct (block_set_size_ok m1 x size Hz) as (f' & pf' & E2 & Hfl). destruct (Hfl s f pf Hs Hx1) as [-> ->]. mstep with E2.
  exists g1, g2. erewrite bind_ok; [|apply (block_mark_as_free_ok _ r rs g1 g2 s2 f2 pf2); [|rewrite Er|tauto|done|unfold r, rs; lia]].
  - rewrite Er. done.
  - by rewrite header_store_ne by lia.
  - unfold m1. by rewrite !header_store_ne by lia.
Qed.

(** ** Sequences of blocks *)

Abbreviation blocks := (list (Z * bool)).

Fixpoint end_of (b : Z) (bs : blocks) : Z := match bs with [] => b | (s, _) :: bs => end_of (b + 8 + s) bs end.
Fixpoint last_flag (pf : bool) (bs : blocks) : bool := match bs with [] => pf | (_, f) :: bs => last_flag f bs end.
(** The blocks with their addresses. *)
Fixpoint ents (b : Z) (bs : blocks) : list (Z * Z * bool) :=
  match bs with [] => [] | (s, f) :: bs => (b, s, f) :: ents (b + 8 + s) bs end.
Definition sizes (bs : blocks) : Prop := Forall (λ p : Z * bool, 24 ≤ p.1 ∧ p.1 `mod` 8 = 0) bs.
Definition hd_size (bs : blocks) : Z := match bs with [] => 0 | (s, _) :: _ => s end.
Definition hd_free (bs : blocks) : bool := match bs with [] => false | (_, f) :: _ => f end.

Fixpoint seg (m : memory) (b : Z) (pf : bool) (bs : blocks) : Prop :=
  match bs with
  | [] => True
  | (s, f) :: bs => load64 m (b + 8) = hdr s f pf ∧ (f = true → load64 m (b + 8 + s) = b) ∧ seg m (b + 8 + s) f bs
  end.
Definition chain (m : memory) (b : Z) (pf : bool) (bs : blocks) : Prop :=
  seg m b pf bs ∧ load64 m (end_of b bs + 8) = hdr 0 false (last_flag pf bs).

Lemma end_of_app b l1 l2 : end_of b (l1 ++ l2) = end_of (end_of b l1) l2.
Proof. revert b. induction l1 as [|[s f] l1 IH]; intros b; [done|]. apply IH. Qed.
Lemma last_flag_app pf l1 l2 : last_flag pf (l1 ++ l2) = last_flag (last_flag pf l1) l2.
Proof. revert pf. induction l1 as [|[s f] l1 IH]; intros pf; [done|]. apply IH. Qed.
Lemma ents_app b l1 l2 : ents b (l1 ++ l2) = ents b l1 ++ ents (end_of b l1) l2.
Proof. revert b. induction l1 as [|[s f] l1 IH]; intros b; [done|]. cbn. by rewrite IH. Qed.
Lemma seg_app m b pf l1 l2 : seg m b pf (l1 ++ l2) ↔ seg m b pf l1 ∧ seg m (end_of b l1) (last_flag pf l1) l2.
Proof. revert b pf. induction l1 as [|[s f] l1 IH]; intros b pf; cbn; [tauto|]. rewrite IH. tauto. Qed.
Lemma chain_app m b pf l1 l2 : chain m b pf (l1 ++ l2) ↔ seg m b pf l1 ∧ chain m (end_of b l1) (last_flag pf l1) l2.
Proof. unfold chain. rewrite seg_app, end_of_app, last_flag_app. tauto. Qed.
Lemma chain_cons m b pf s f l :
  chain m b pf ((s, f) :: l) ↔ load64 m (b + 8) = hdr s f pf ∧ (f = true → load64 m (b + 8 + s) = b) ∧ chain m (b + 8 + s) f l.
Proof. unfold chain. cbn. tauto. Qed.
Lemma chain_hd m b pf l : chain m b pf l → load64 m (b + 8) = hdr (hd_size l) (hd_free l) pf.
Proof. destruct l as [|[s f] l]; intros [H1 H2]; [done|]. apply H1. Qed.
Lemma hd_size_mod l : sizes l → hd_size l `mod` 8 = 0 ∧ 0 ≤ hd_size l.
Proof. intros H. destruct H as [|[s f] l [H1 H2] _]; [done|]. cbn in *. lia. Qed.

Lemma end_of_ge b l : sizes l → b ≤ end_of b l ∧ (l ≠ [] → b + 32 ≤ end_of b l).
Proof.
  intros H. revert b. induction H as [|[s f] l [H1 H2] _ IH]; intros b; [done|]. cbn in *. destruct (IH (b + 8 + s)). split; lia.
Qed.
Lemma end_of_mod b l : sizes l → b `mod` 8 = 0 → end_of b l `mod` 8 = 0.
Proof.
  intros H. revert b. induction H as [|[s f] l [H1 H2] _ IH]; intros b Hb; [done|]. cbn in *. apply IH. zdiv.
Qed.
Lemma sizes_app l1 l2 : sizes (l1 ++ l2) ↔ sizes l1 ∧ sizes l2.
Proof. apply Forall_app. Qed.
Lemma sizes_cons s f l : sizes ((s, f) :: l) ↔ (24 ≤ s ∧ s `mod` 8 = 0) ∧ sizes l.
Proof. unfold sizes. by rewrite Forall_cons. Qed.
Lemma sizes_1 s f : 24 ≤ s → s `mod` 8 = 0 → sizes [(s, f)].
Proof. intros. by apply Forall_singleton. Qed.

Lemma ents_bounds b l x s f :
  sizes l → (x, s, f) ∈ ents b l → b ≤ x ∧ x + 8 + s ≤ end_of b l ∧ 24 ≤ s ∧ s `mod` 8 = 0.
Proof.
  intros H. revert b. induction H as [|[s1 f1] l [H1 H2] Hl IH]; intros b; cbn in *; [by intros ?%elem_of_nil|].
  intros [[= -> -> ->]|Hin]%elem_of_cons; [pose proof (end_of_ge (b + 8 + s1) l Hl); lia|]. apply IH in Hin. lia.
Qed.
Lemma ents_split b l x s f : (x, s, f) ∈ ents b l → ∃ l1 l2, l = l1 ++ (s, f) :: l2 ∧ x = end_of b l1.
Proof.
  revert b. induction l as [|[s1 f1] l IH]; intros b; cbn; [by intros ?%elem_of_nil|].
  intros [[= -> -> ->]|Hin]%elem_of_cons; [by exists [], l|]. destruct (IH _ Hin) as (l1 & l2 & -> & ->).
  by exists ((s1, f1) :: l1), l2.
Qed.
(** Membership around a block. *)
Lemma ents_mid b l1 s f l2 y t g :
  (y, t, g) ∈ ents b (l1 ++ (s, f) :: l2) ↔
  (y, t, g) ∈ ents b l1 ∨ (y, t, g) = (end_of b l1, s, f) ∨ (y, t, g) ∈ ents (end_of b l1 + 8 + s) l2.
Proof. rewrite ents_app, elem_of_app. cbn. rewrite elem_of_cons. tauto. Qed.
Lemma ents_around b l1 s f l2 y t g :
  sizes (l1 ++ (s, f) :: l2) → (y, t, g) ∈ ents b (l1 ++ (s, f) :: l2) →
  (y + 8 + t ≤ end_of b l1 ∧ (y, t, g) ∈ ents b l1) ∨ (y = end_of b l1 ∧ t = s ∧ g = f) ∨
  (end_of b l1 + 8 + s ≤ y ∧ (y, t, g) ∈ ents (end_of b l1 + 8 + s) l2).
Proof.
  intros (H1 & H2 & H3)%sizes_app%(λ H, conj (proj1 H) (proj1 (sizes_cons _ _ _) (proj2 H))). rewrite ents_mid.
  intros [H|[[= -> -> ->]|H]]; [left|by right; left|right; right]; (split; [|done]); apply ents_bounds in H; (done || lia).
Qed.

Lemma ents_at b l1 s f l2 t g : sizes (l1 ++ (s, f) :: l2) → (end_of b l1, t, g) ∈ ents b (l1 ++ (s, f) :: l2) → t = s ∧ g = f.
Proof.
  intros Hs Hi. pose proof (ents_bounds _ _ _ _ _ Hs Hi). pose proof Hs as [_ [[? _] _]%sizes_cons]%sizes_app.
  destruct (ents_around _ _ _ _ _ _ _ _ Hs Hi) as [[? _]|[[_ ?]|[? _]]]; [lia|done|lia].
Qed.

(** ** What a sequence of blocks depends on

    The headers and the back pointers, but not the bytes where free blocks
    keep their links. *)
Definition inner (b : Z) (l : blocks) (a : Z) : Prop := ∃ x s f, (x, s, f) ∈ ents b l ∧ link_byte x a.

Lemma seg_frame m m' b pf l :
  sizes l → seg m b pf l → (∀ a, b + 8 ≤ a < end_of b l + 8 → ¬ inner b l a → load8 m' a = load8 m a) → seg m' b pf l.
Proof.
  intros Hl. revert b pf. induction Hl as [|[s f] l [H1 H2] Hl IH]; intros b pf H Hf; [done|]. cbn [fst] in *.
  cbn [seg end_of] in *. destruct H as (Hw & Hp & Hr). destruct (end_of_ge (b + 8 + s) l Hl) as [Hge _].
  assert (Hword : ∀ a, (a = b + 8 ∨ a = b + 8 + s) → load64 m' a = load64 m a).
  { intros a Ha. apply load_ext. intros c Hc. apply Hf; [lia|]. intros (x & t & g & [[= -> -> ->]|Hin]%elem_of_cons & Hx);
      unfold link_byte in Hx; [lia|]. apply ents_bounds in Hin; [lia|done]. }
  rewrite !Hword by tauto. splits; [done|done|]. apply IH; [done|]. intros a Ha Hin. apply Hf; [lia|].
  intros (x & t & g & [[= -> -> ->]|Hx]%elem_of_cons & Hb); [unfold link_byte in Hb; lia|]. apply Hin. by exists x, t, g.
Qed.
Lemma phys_frame m m' b pf l :
  sizes l → chain m b pf l → (∀ a, b + 8 ≤ a < end_of b l + 16 → ¬ inner b l a → load8 m' a = load8 m a) → chain m' b pf l.
Proof.
  intros Hl [H He] Hf. split; [eapply seg_frame; [done|done|]; intros; apply Hf; [lia|done]|].
  rewrite <-He. destruct (end_of_ge b l Hl). apply load_ext. intros c Hc. apply Hf; [lia|].
  intros (x & t & g & Hin & Hb). apply ents_bounds in Hin; [|done]. unfold link_byte in Hb. lia.
Qed.
(** The flag of the block before is kept in the first header only. *)
Lemma chain_set_flag m m' b pf pf' l :
  sizes l → chain m b pf l → load64 m' (b + 8) = hdr (hd_size l) (hd_free l) pf' →
  (∀ a, b + 16 ≤ a < end_of b l + 16 → load8 m' a = load8 m a) → chain m' b pf' l.
Proof.
  intros Hl H Hw Hf. destruct l as [|[s f] l]; [done|]. apply sizes_cons in Hl as [[H1 H2] Hl].
  apply chain_cons in H as (_ & Hp & H). cbn [end_of] in Hf. destruct (end_of_ge (b + 8 + s) l Hl).
  apply chain_cons. splits; [done| |].
  - intros Hff. rewrite <-(Hp Hff) at 2. apply load_ext. intros c Hc. apply Hf. lia.
  - eapply phys_frame; [done|done|]. intros; apply Hf; lia.
Qed.

(** ** The state of the heap between the steps of an operation

    [b0] is the address of the first block, [e] that of the sentinel. *)
Section heap.
Context (ctl b0 e : Z).

Record layout_ok : Prop := {
  lo_ctl : 0 < ctl ∧ ctl + sizeof_control < 2 ^ 64;
  lo_base : 0 < b0 ∧ b0 `mod` 8 = 0;
  lo_end : e + 32 < 2 ^ 64 ∧ e - b0 ≤ block_size_max;
  lo_apart : ctl + sizeof_control ≤ b0 + 8 ∨ e + 16 ≤ ctl;
}.
Context (Hlo : layout_ok).

(** [F] are the blocks that are on the free lists: some of the free ones. *)
Record state (m : memory) (F : gmap Z Z) (L : Z * Z → list Z) (bs : blocks) : Prop := {
  st_lists : lists ctl m F L;
  st_chain : chain m b0 false bs;
  st_sizes : sizes bs;
  st_end : end_of b0 bs = e;
  st_sub : ∀ x s, F !! x = Some s → (x, s, true) ∈ ents b0 bs;
}.

Lemma nodes_ok_sub F bs :
  sizes bs → end_of b0 bs = e → (∀ x s, F !! x = Some s → (x, s, true) ∈ ents b0 bs) → nodes_ok ctl F.
Proof.
  intros Hs He Hsub. destruct Hlo as [[Hc1 Hc2] [Hb1 Hb2] [He1 He2] Ha]. change block_size_max with (2 ^ 32) in *.
  split.
  - intros x s Hx%Hsub. apply ents_bounds in Hx; [|done]. change block_size_max with (2 ^ 32). lia.
  - intros x s Hx%Hsub. pose proof (ents_bounds _ _ _ _ _ Hs Hx). apply ents_split in Hx as (l1 & l2 & -> & ->).
    splits; [lia|lia|]. apply end_of_mod; [by apply sizes_app in Hs as [? _]|done].
  - intros x s Hx%Hsub. apply ents_bounds in Hx; [|done]. lia.
  - intros x y s t Hx%Hsub Hy%Hsub Hne. pose proof (ents_bounds _ _ _ _ _ Hs Hx).
    apply ents_split in Hx as (l1 & l2 & -> & ->). pose proof (ents_bounds _ _ _ _ _ Hs Hy).
    destruct (ents_around _ _ _ _ _ _ _ _ Hs Hy) as [[? _]|[[? _]|[? _]]]; lia.
Qed.
Lemma st_nodes m F L bs : state m F L bs → nodes_ok ctl F.
Proof. intros [_ _ Hs He Hsub]. by eapply nodes_ok_sub. Qed.

(** Bytes that list operations touch are no headers and no back pointers. *)
Lemma list_fp_inner F bs a :
  sizes bs → end_of b0 bs = e → (∀ x s, F !! x = Some s → (x, s, true) ∈ ents b0 bs) →
  list_fp ctl F a → b0 + 8 ≤ a < e + 16 → inner b0 bs a.
Proof.
  intros Hs He Hsub [Hc|(x & [s Hx] & Hb)] Ha; [unfold control_byte in Hc; destruct Hlo; lia|].
  exists x, s, true. by split; [apply Hsub|].
Qed.

Lemma state_lists m m' F F' L L' bs :
  state m F L bs → lists ctl m' F' L' → only (list_fp ctl F') m m' → (∀ x s, F' !! x = Some s → (x, s, true) ∈ ents b0 bs) →
  state m' F' L' bs.
Proof.
  intros [_ Hc Hs He _] HL' Ho Hsub'. split; try done. eapply phys_frame; [done|done|]. rewrite He. intros a Ha Hi.
  apply Ho. intros Hf. by apply Hi, (list_fp_inner F').
Qed.

(** Removing a free block from its list and inserting it. *)
Lemma state_remove m F L bs x s :
  state m F L bs → F !! x = Some s →
  ∃ m' L', remove_free_block ctl x (mapping_insert s).1 (mapping_insert s).2 m = Ok (tt, m') ∧
    state m' (delete x F) L' bs ∧ only (list_fp ctl (delete x F)) m m'.
Proof.
  intros H Hx. destruct (remove_free_block_spec ctl (lo_ctl Hlo) m F L x s (st_lists _ _ _ _ H) Hx) as (m' & L' & E & HL & Ho).
  exists m', L'. splits; [done| |done]. eapply state_lists; [done|done|done|]. intros y t [_ Hy]%lookup_delete_Some.
  by apply (st_sub _ _ _ _ H).
Qed.
Lemma state_insert m F L bs x s :
  state m F L bs → (x, s, true) ∈ ents b0 bs → F !! x = None →
  ∃ m' L', insert_free_block ctl x (mapping_insert s).1 (mapping_insert s).2 m = Ok (tt, m') ∧
    state m' (<[x := s]> F) L' bs ∧ only (list_fp ctl (<[x := s]> F)) m m'.
Proof.
  intros H Hx Hn. assert (Hsub : ∀ y t, <[x := s]> F !! y = Some t → (y, t, true) ∈ ents b0 bs).
  { intros y t [[<- <-]|[_ Hy]]%lookup_insert_Some; [done|]. by apply (st_sub _ _ _ _ H). }
  destruct (insert_free_block_spec ctl (lo_ctl Hlo) m F L x s) as (m' & L' & E & HL & Ho); [apply (st_lists _ _ _ _ H)| |done|].
  { by eapply nodes_ok_sub; [apply (st_sizes _ _ _ _ H)|apply (st_end _ _ _ _ H)|]. }
  exists m', L'. splits; [done| |done]. by eapply state_lists.
Qed.

(** Replacing the blocks [mid], none of which is on a list, by [mid']. *)
Lemma state_step m m' F L pre mid mid' post :
  let x := end_of b0 pre in
  let n := end_of x mid in
  state m F L (pre ++ mid ++ post) → (∀ y s, F !! y = Some s → y < x ∨ n ≤ y) →
  only (λ a, x + 8 ≤ a < n + 16) m m' → sizes mid' → end_of x mid' = n → seg m' x (last_flag false pre) mid' →
  load64 m' (n + 8) = hdr (hd_size post) (hd_free post) (last_flag (last_flag false pre) mid') →
  state m' F L (pre ++ mid' ++ post).
Proof.
  intros x n H HF Ho Hs' He' Hseg Hn. pose proof (st_nodes _ _ _ _ H) as HN. destruct H as [HL Hc Hs He Hsub].
  pose proof Hs as (Hs1 & Hs2 & Hs3)%sizes_app%(λ H, conj (proj1 H) (proj1 (sizes_app _ _) (proj2 H))).
  rewrite !end_of_app in He. fold x n in He. apply chain_app in Hc as [Hc1 Hc2]. apply chain_app in Hc2 as [Hc2 Hc3]. fold x n in Hc2, Hc3.
  destruct (end_of_ge b0 pre Hs1) as [Hx _]. fold x in Hx. destruct (end_of_ge x mid Hs2) as [Hxn _]. fold n in Hxn.
  destruct (end_of_ge n post Hs3) as [Hne _].
  assert (Hent : ∀ y s, F !! y = Some s → (y, s, true) ∈ ents b0 pre ∨ (y, s, true) ∈ ents n post).
  { intros y s Hy. specialize (HF _ _ Hy). apply Hsub in Hy. rewrite !ents_app, !elem_of_app in Hy. fold x n in Hy.
    destruct Hy as [Hy|[Hy|Hy]]; [by left| |by right]. apply ents_bounds in Hy; [|done]. fold n in Hy. lia. }
  split.
  - apply (lists_frame ctl (lo_ctl Hlo) m); [done|]. intros a Ha. apply Ho. intros Hin.
    destruct Ha as [Ha|(y & [s Hy] & Hb)]; [unfold control_byte in Ha; destruct Hlo; lia|]. unfold link_byte in Hb.
    destruct (Hent y s Hy) as [Hi|Hi]; (apply ents_bounds in Hi; [|done]); [fold x in Hi; lia|lia].
  - apply chain_app. fold x. split; [|apply chain_app; rewrite He'; split; [done|]].
    + eapply seg_frame; [done|done|]. intros a Ha _. apply Ho. fold x in Ha. lia.
    + eapply chain_set_flag; [done|exact Hc3|done|]. intros a Ha. apply Ho. lia.
  - rewrite !sizes_app. done.
  - rewrite !end_of_app. fold x. by rewrite He'.
  - intros y s Hy. rewrite !ents_app, !elem_of_app. fold x. rewrite He'. destruct (Hent y s Hy); tauto.
Qed.

(** What is known of a block and its successor. *)
Lemma state_block m F L pre s f post :
  let x := end_of b0 pre in
  state m F L (pre ++ (s, f) :: post) →
  load64 m (x + 8) = hdr s f (last_flag false pre) ∧ load64 m (x + 8 + s + 8) = hdr (hd_size post) (hd_free post) f ∧
  (f = true → load64 m (x + 8 + s) = x) ∧ b0 ≤ x ∧ x `mod` 8 = 0 ∧ 24 ≤ s ∧ s `mod` 8 = 0 ∧ x + 8 + s ≤ e ∧
  hd_size post `mod` 8 = 0 ∧ 0 ≤ hd_size post < 2 ^ 64 - 8.
Proof.
  intros x [_ Hc Hs He _]. apply sizes_app in Hs as [Hs1 Hs2]. apply sizes_cons in Hs2 as [[H1 H2] Hs2].
  apply chain_app in Hc as [_ Hc]. fold x in Hc. apply chain_cons in Hc as (Hw & Hp & Hc).
  rewrite end_of_app in He. cbn [end_of] in He. fold x in He. destruct (end_of_ge b0 pre Hs1) as [Hx _]. fold x in Hx.
  destruct (end_of_ge (x + 8 + s) post Hs2) as [Hge _]. destruct (hd_size_mod post Hs2) as [Hm H0]. pose proof (lo_base Hlo).
  splits; [done|by apply chain_hd|done|done| |done|done|lia|done|done|].
  - apply end_of_mod; [done|tauto].
  - destruct post as [|[s2 f2] post]; [done|]. cbn [hd_size end_of] in *.
    apply sizes_cons in Hs2 as [_ Hs2]. destruct (end_of_ge (x + 8 + s + 8 + s2) post Hs2). pose proof (lo_end Hlo). lia.
Qed.
Lemma state_not_in m F L pre s f post y t :
  state m F L (pre ++ (s, f) :: post) → F !! end_of b0 pre = None → F !! y = Some t →
  y < end_of b0 pre ∨ end_of b0 pre + 8 + s ≤ y.
Proof.
  intros H Hx Hy. pose proof (st_sizes _ _ _ _ H) as Hs. apply (st_sub _ _ _ _ H) in Hy as Hi.
  pose proof (ents_bounds _ _ _ _ _ Hs Hi).
  destruct (ents_around _ _ _ _ _ _ _ _ Hs Hi) as [[? _]|[[-> _]|[? _]]]; [lia|congruence|lia].
Qed.

Lemma state_mark_used m F L pre s post :
  let x := end_of b0 pre in
  state m F L (pre ++ (s, true) :: post) → F !! x = None →
  ∃ m', block_mark_as_used x m = Ok (tt, m') ∧ state m' F L (pre ++ (s, false) :: post) ∧
    only (λ a, x + 8 ≤ a < x + 16 ∨ x + 8 + s ≤ a < x + 8 + s + 16) m m'.
Proof.
  intros x H Hx. destruct (state_block _ _ _ _ _ _ _ H) as (Hw & Hw2 & _ & Hb & Hal & Hs1 & Hs2 & Hle & Hm & Hr). fold x in Hw, Hw2, Hb, Hal, Hle.
  pose proof (lo_base Hlo). pose proof (lo_end Hlo). eexists.
  split; [apply (block_mark_as_used_ok m x s _ _ _ _ _ Hw Hw2 Hs2 Hm); lia|]. split.
  - change ((s, false) :: post) with ([(s, false)] ++ post).
    apply (state_step m _ F L pre [(s, true)]); [done|..]; cbn [end_of seg last_flag]; fold x.
    + intros y t Hy. by apply (state_not_in _ _ _ _ _ _ _ _ _ H Hx Hy).
    + eapply only_trans; apply only_store64; intros a Ha; lia.
    + by apply sizes_1.
    + done.
    + splits; [apply header_store_eq; lia|done|done].
    + rewrite load64_store64_ne by lia. by apply header_store_eq.
  - eapply only_trans; apply only_store64; intros a Ha; lia.
Qed.

Lemma state_mark_free m F L pre s post :
  let x := end_of b0 pre in
  state m F L (pre ++ (s, false) :: post) →
  ∃ m', block_mark_as_free x m = Ok (tt, m') ∧ state m' F L (pre ++ (s, true) :: post) ∧
    only (λ a, x + 8 ≤ a < x + 8 + s + 16) m m'.
Proof.
  intros x H. destruct (state_block _ _ _ _ _ _ _ H) as (Hw & Hw2 & _ & Hb & Hal & Hs1 & Hs2 & Hle & Hm & Hr). fold x in Hw, Hw2, Hb, Hal, Hle.
  pose proof (lo_base Hlo). pose proof (lo_end Hlo). eexists.
  assert (Ho : only (λ a, x + 8 ≤ a < x + 8 + s + 16) m (store64 (store64 (store64 m (x + 8 + s) x)
     (x + 8 + s + 8) (hdr (hd_size post) (hd_free post) true)) (x + 8) (hdr s true (last_flag false pre)))).
  { repeat (eapply only_trans; [|apply only_store64]); [apply only_refl|..]; intros a Ha; lia. }
  split; [apply (block_mark_as_free_ok m x s _ _ _ _ _ Hw Hw2 Hs2 Hm); lia|]. split; [|done].
  change ((s, true) :: post) with ([(s, true)] ++ post).
  apply (state_step m _ F L pre [(s, false)]); [done|..]; cbn [end_of seg last_flag]; fold x.
  - intros y t Hy. eapply state_not_in; [exact H| |exact Hy]. destruct (F !! end_of b0 pre) as [t'|] eqn:Hx; [|done].
    apply (st_sub _ _ _ _ H) in Hx. pose proof (st_sizes _ _ _ _ H) as Hsz. pose proof (ents_bounds _ _ _ _ _ Hsz Hx).
    destruct (ents_around _ _ _ _ _ _ _ _ Hsz Hx) as [[? _]|[(_ & _ & [=])|[? _]]]; lia.
  - done.
  - by apply sizes_1.
  - done.
  - splits; [apply header_store_eq; lia| |done]. intros _. rewrite !load64_store64_ne, load64_store64_eq by lia. apply u64_small. lia.
  - rewrite load64_store64_ne by lia. by apply header_store_eq.
Qed.

(** [block_absorb]: a free block takes in the free block after it. *)
Lemma state_absorb m F L pre s s2 post :
  let x := end_of b0 pre in
  state m F L (pre ++ (s, true) :: (s2, true) :: post) → F !! x = None → F !! (x + 8 + s) = None →
  ∃ m', block_absorb x (x + 8 + s) m = Ok (x, m') ∧ state m' F L (pre ++ (s + 8 + s2, true) :: post) ∧
    only (λ a, x + 8 ≤ a < x + 8 + s + 8 + s2 + 8) m m'.
Proof.
  intros x H Hx Hy. pose proof H as H'. change ((s, true) :: (s2, true) :: post) with ([(s, true)] ++ (s2, true) :: post) in H'.
  rewrite app_assoc in H'.
  destruct (state_block _ _ _ _ _ _ _ H) as (Hw & _ & _ & Hb & Hal & Hs1 & Hs2 & Hle & _). fold x in Hw, Hb, Hal, Hle.
  destruct (state_block _ _ _ _ _ _ _ H') as (Hw2 & Hw3 & _ & _ & _ & Hs3 & Hs4 & Hle2 & Hm & Hr).
  rewrite end_of_app in *. cbn [end_of] in *. fold x in Hw2, Hw3, Hle2. pose proof (lo_base Hlo). pose proof (lo_end Hlo).
  assert (Hw' : u64 (hdr s true (last_flag false pre) + (s2 + 8)) = hdr (s + 8 + s2) true (last_flag false pre)).
  { rewrite <-(hdr_u64 (s + 8 + s2)) by zdiv. f_equal. unfold hdr. lia. }
  assert (Hh : load64 (store64 m (x + 8) (hdr (s + 8 + s2) true (last_flag false pre))) (x + 8) = hdr (s + 8 + s2) true (last_flag false pre))
    by (apply header_store_eq; zdiv).
  unfold block_absorb. mstep with (block_is_last_ok m x s _ _ Hw Hs2). rewrite (proj2 (Z.eqb_neq s 0)) by lia. cbn [negb tlsf_assert].
  mstep. mstep with (block_size_ok m _ s2 _ _ Hw2 Hs4). mstep. unfold off_size. rewrite Hw. change block_header_overhead with 8. rewrite Hw'.
  mstep. unfold off_size. erewrite bind_ok; [|apply (block_link_next_ok _ x (s + 8 + s2) true (last_flag false pre)); [done|zdiv|lia]].
  eexists. split; [done|]. split.
  - change ((s + 8 + s2, true) :: post) with ([(s + 8 + s2, true)] ++ post).
    apply (state_step m _ F L pre [(s, true); (s2, true)]); [done|..]; cbn [end_of seg last_flag]; fold x.
    + intros y t Hyt. pose proof (state_not_in _ _ _ _ _ _ _ _ _ H Hx Hyt) as A. fold x in A.
      pose proof (state_not_in _ _ _ _ _ _ _ y t H') as B. rewrite end_of_app in B. cbn [end_of] in B. fold x in B.
      specialize (B Hy Hyt). lia.
    + eapply only_trans; apply only_store64; intros a Ha; lia.
    + apply sizes_1; [lia|zdiv].
    + lia.
    + rewrite header_store_ne by lia. splits; [done| |done]. intros _. rewrite load64_store64_eq. apply u64_small. lia.
    + rewrite !load64_store64_ne by lia. by rewrite <-Hw3.
  - eapply only_trans; apply only_store64; intros a Ha; lia.
Qed.

(** [block_split] with the two calls after it in [block_trim_free]: a free
    block becomes two, the second linked to the first. *)
Lemma state_split m F L pre s size post :
  let x := end_of b0 pre in
  let r := x + 8 + size in
  state m F L (pre ++ (s, true) :: post) → F !! x = None → 24 ≤ size → size `mod` 8 = 0 → 32 + size ≤ s →
  ∃ m1 m2, block_split x size m = Ok (r, m1) ∧ (∃ n, block_link_next x m1 = Ok (n, m2)) ∧
    ∃ m', block_set_prev_free r m2 = Ok (tt, m') ∧
    state m' F L (pre ++ (size, true) :: (s - size - 8, true) :: post) ∧ only (λ a, x + 8 ≤ a < x + 8 + s + 16) m m'.
Proof.
  intros x r H Hx Hz1 Hz2 Hz3. destruct (state_block _ _ _ _ _ _ _ H) as (Hw & Hw2 & _ & Hb & Hal & Hs1 & Hs2 & Hle & Hm & Hr).
  fold x in Hw, Hw2, Hb, Hal, Hle. pose proof (lo_base Hlo). pose proof (lo_end Hlo). set (pf := last_flag false pre) in *.
  destruct (block_split_ok m x s true pf size _ _ _ Hw Hw2 Hm) as (g1 & g2 & E1); [lia|done|done|done|done|lia|]. fold r in E1.
  set (rs := s - size - 8) in *. assert (Hrs : rs `mod` 8 = 0 ∧ 24 ≤ rs) by (unfold rs; zdiv).
  assert (Er : r + 8 + rs = x + 8 + s) by (unfold r, rs; lia).
  match type of E1 with _ = Ok (_, ?m1) => set (M1 := m1) in * end.
  assert (Hx1 : load64 M1 (x + 8) = hdr size true pf).
  { unfold M1. rewrite !load64_store64_ne by lia. apply header_store_eq; lia. }
  assert (Hr1 : load64 (store64 M1 r x) (r + 8) = hdr rs true g2).
  { rewrite header_store_ne by lia. unfold M1. apply header_store_eq; lia. }
  exists M1, (store64 M1 r x). split; [done|]. split; [exists r; apply (block_link_next_ok M1 x size true pf Hx1 Hz2); lia|].
  eexists. split; [apply (block_set_prev_free_ok _ r rs true g2 Hr1 (proj1 Hrs))|].
  assert (Ho : only (λ a, x + 8 ≤ a < x + 8 + s + 16) m (store64 (store64 M1 r x) (r + 8) (hdr rs true true))).
  { unfold M1. repeat (eapply only_trans; [|apply only_store64]); [apply only_refl|..]; intros a Ha; lia. }
  split; [|done]. change ((size, true) :: (rs, true) :: post) with ([(size, true); (rs, true)] ++ post).
  apply (state_step m _ F L pre [(s, true)]); [done|..]; cbn [end_of seg last_flag]; fold x r pf.
  - intros y t Hy. by apply (state_not_in _ _ _ _ _ _ _ _ _ H Hx Hy).
  - done.
  - apply sizes_cons. split; [lia|]. apply sizes_1; lia.
  - done.
  - rewrite !header_store_ne by lia. rewrite Er. splits; [done| |apply header_store_eq; lia| |done]; intros _.
    + rewrite load64_store64_ne, load64_store64_eq by lia. apply u64_small. lia.
    + unfold M1. rewrite !load64_store64_ne, load64_store64_eq by lia. apply u64_small. lia.
  - unfold M1. rewrite !load64_store64_ne by lia. apply header_store_eq; lia.
Qed.
End heap.
