(* ===== verification/TlsfHeap.v ===== *)
(** * Allocation on the kernel heap

    The invariant of the heap of tlsf.c: the pool is a sequence of blocks, the
    free ones are exactly the blocks on the free lists, no two free blocks are
    neighbours, and the used ones are the allocations [A], a map from the
    pointer given to the caller to the size of its memory.  [tlsf_malloc] and
    [tlsf_free] keep it and do not touch the memory of other allocations. *)
From Stdlib Require Import ZArith Lia.
From stdpp Require Import base option gmap list.
From S2P Require Import Prelude Memory Tlsf TlsfProof TlsfLists TlsfPhys.

(** No two neighbours are free; [pf]: the block before is free. *)
Fixpoint coalesced (pf : bool) (bs : blocks) : Prop :=
  match bs with [] => True | (_, f) :: bs => ¬ (pf = true ∧ f = true) ∧ coalesced f bs end.

Lemma coalesced_app pf l1 l2 : coalesced pf (l1 ++ l2) ↔ coalesced pf l1 ∧ coalesced (last_flag pf l1) l2.
Proof. revert pf. induction l1 as [|[s f] l1 IH]; intros pf; cbn; [tauto|]. rewrite IH. tauto. Qed.
Lemma coalesced_weaken pf bs : coalesced pf bs → coalesced false bs.
Proof. destruct bs as [|[s f] bs]; [done|]. cbn. intros [_ H]. split; [by intros [? _]|done]. Qed.
Lemma coalesced_hd bs : coalesced false bs → hd_free bs = false → coalesced true bs.
Proof. destruct bs as [|[s f] bs]; [done|]. cbn. intros [_ H] ->. split; [by intros [_ ?]|done]. Qed.

(** Bytes outside the memory of the allocations. *)
Definition unowned (A : gmap Z Z) (a : Z) : Prop := ∀ p s, A !! p = Some s → ¬ (p ≤ a < p + s).

Section heap.
Context (ctl b0 e : Z).

Record heap (m : memory) (bs : blocks) (A : gmap Z Z) : Prop := {
  hp_layout : layout_ok ctl b0 e;
  hp_state : ∃ F L, state ctl b0 e m F L bs ∧ ∀ x s, (x, s, true) ∈ ents b0 bs → F !! x = Some s;
  hp_coalesced : coalesced false bs;
  hp_used : ∀ p s, A !! p = Some s ↔ (p - 16, s, false) ∈ ents b0 bs;
}.

(** The allocations do not overlap, lie in the pool, and are aligned. *)
Lemma heap_apart m bs A p s : heap m bs A → A !! p = Some s →
  p `mod` 8 = 0 ∧ 24 ≤ s ∧ b0 + 16 ≤ p ∧ p + s ≤ e + 8 ∧ ∀ q t, A !! q = Some t → q ≠ p → p + s ≤ q ∨ q + t ≤ p.
Proof.
  intros [Hlo (F & L & H & _) _ Hu] Hp%Hu. destruct H as [_ _ Hs He _]. pose proof (ents_bounds _ _ _ _ _ Hs Hp).
  apply ents_split in Hp as (l1 & l2 & -> & Ep). pose proof (lo_base _ _ _ Hlo).
  assert (end_of b0 l1 `mod` 8 = 0) by (apply end_of_mod; [by apply sizes_app in Hs as [? _]|tauto]).
  splits; [zdiv|lia|lia|lia|]. intros q t Hq%Hu Hne. pose proof (ents_bounds _ _ _ _ _ Hs Hq).
  destruct (ents_around _ _ _ _ _ _ _ _ Hs Hq) as [[? _]|[[? _]|[? _]]]; lia.
Qed.

(** ** Footprints *)

Definition unused (bs : blocks) (a : Z) : Prop := ∀ y t, (y, t, false) ∈ ents b0 bs → ¬ (y + 16 ≤ a < y + 16 + t).

Lemma unused_unowned bs (A : gmap Z Z) a :
  (∀ p s, A !! p = Some s → (p - 16, s, false) ∈ ents b0 bs) → unused bs a → unowned A a.
Proof. intros Hu Ha p s Hp%Hu Hin. apply (Ha _ _ Hp). lia. Qed.

(** A block with its header, and the header after it. *)
Lemma extent_unused l1 s f l2 a :
  let x := end_of b0 l1 in
  sizes (l1 ++ (s, f) :: l2) → x + 8 ≤ a < x + 8 + s + 16 → (f = false → ¬ x + 16 ≤ a < x + 16 + s) → unused (l1 ++ (s, f) :: l2) a.
Proof.
  intros x Hs Ha Hf y t Hy Hin. destruct (ents_around _ _ _ _ _ _ _ _ Hs Hy) as [[? _]|[(Ex & Et & Ef)|[? _]]]; unfold x in *.
  - lia.
  - subst. apply Hf; [done|]. lia.
  - lia.
Qed.

Section with_layout.
Context (Hlo : layout_ok ctl b0 e).

Lemma list_fp_unused F bs a :
  sizes bs → end_of b0 bs = e → (∀ x s, F !! x = Some s → (x, s, true) ∈ ents b0 bs) → list_fp ctl F a → unused bs a.
Proof.
  intros Hs He Hsub [Hc|(x & [s Hx%Hsub] & Hb)] y t Hy Hin; pose proof (ents_bounds _ _ _ _ _ Hs Hy).
  - unfold control_byte in Hc. destruct Hlo. lia.
  - unfold link_byte in Hb. pose proof (ents_bounds _ _ _ _ _ Hs Hx). apply ents_split in Hx as (l1 & l2 & -> & ->).
    destruct (ents_around _ _ _ _ _ _ _ _ Hs Hy) as [[? _]|[(? & ? & [=])|[? _]]]; lia.
Qed.
Lemma state_fp_unused m F L bs a : state ctl b0 e m F L bs → list_fp ctl F a → unused bs a.
Proof. intros [_ _ Hs He Hsub]. by apply list_fp_unused. Qed.

(** ** Blocks on and off the lists *)

Lemma block_remove_ok m F L bs x s :
  state ctl b0 e m F L bs → F !! x = Some s →
  ∃ m' L', block_remove ctl x m = Ok (tt, m') ∧ state ctl b0 e m' (delete x F) L' bs ∧ only (unused bs) m m'.
Proof.
  intros H Hx. pose proof (st_sub _ _ _ _ _ _ _ H x s Hx) as Hi. apply ents_split in Hi as (l1 & l2 & E & Ex).
  pose proof H as H0. rewrite E in H0. destruct (state_block _ _ _ Hlo _ _ _ _ _ _ _ H0) as (Hw & _ & _ & _ & _ & _ & Hs8 & _).
  rewrite <-Ex in Hw. destruct (state_remove _ _ _ Hlo _ _ _ _ _ _ H Hx) as (m' & L' & Er & H' & Ho).
  exists m', L'. split; [|split; [done|]].
  - unfold block_remove. mstep with (block_size_ok m x s _ _ Hw Hs8). by destruct (mapping_insert s).
  - eapply only_weaken; [|exact Ho]. intros a. by eapply state_fp_unused.
Qed.
Lemma block_insert_ok m F L bs x s :
  state ctl b0 e m F L bs → (x, s, true) ∈ ents b0 bs → F !! x = None →
  ∃ m' L', block_insert ctl x m = Ok (tt, m') ∧ state ctl b0 e m' (<[x := s]> F) L' bs ∧ only (unused bs) m m'.
Proof.
  intros H Hi Hx. pose proof Hi as Hi0. apply ents_split in Hi as (l1 & l2 & E & Ex).
  pose proof H as H0. rewrite E in H0. destruct (state_block _ _ _ Hlo _ _ _ _ _ _ _ H0) as (Hw & _ & _ & _ & _ & _ & Hs8 & _).
  rewrite <-Ex in Hw. destruct (state_insert _ _ _ Hlo _ _ _ _ _ _ H Hi0 Hx) as (m' & L' & Er & H' & Ho).
  exists m', L'. split; [|split; [done|]].
  - unfold block_insert. mstep with (block_size_ok m x s _ _ Hw Hs8). by destruct (mapping_insert s).
  - eapply only_weaken; [|exact Ho]. intros a. by eapply state_fp_unused.
Qed.

(** ** Allocation *)

Lemma unused_ext bs bs' a : (∀ y t, (y, t, false) ∈ ents b0 bs ↔ (y, t, false) ∈ ents b0 bs') → unused bs a ↔ unused bs' a.
Proof. intros H. unfold unused. by setoid_rewrite H. Qed.

(** Used blocks after a free block has been split. *)
Lemma ents_split_free pre s size post f y t :
  (y, t, false) ∈ ents b0 (pre ++ (size, f) :: (s - size - 8, true) :: post) ↔
  (y, t, false) ∈ ents b0 pre ∨ (f = false ∧ y = end_of b0 pre ∧ t = size) ∨ (y, t, false) ∈ ents (end_of b0 pre + 8 + s) post.
Proof.
  rewrite ents_mid. cbn [ents]. rewrite elem_of_cons. replace (end_of b0 pre + 8 + size + 8 + (s - size - 8)) with (end_of b0 pre + 8 + s) by lia.
  naive_solver.
Qed.

(** [block_trim_free]: the blocks after it, and what is on the lists. *)
Definition trimmed (s size : Z) (f : bool) : blocks :=
  if 32 + size <=? s then [(size, f); (s - size - 8, true)] else [(s, f)].

Lemma block_trim_free_ok m F L pre s size post :
  let x := end_of b0 pre in
  let bs := pre ++ (s, true) :: post in
  state ctl b0 e m F L bs → F !! x = None → 24 ≤ size ≤ s → size `mod` 8 = 0 →
  (∀ y t, (y, t, true) ∈ ents b0 bs → y ≠ x → F !! y = Some t) →
  ∃ m' F' L', block_trim_free ctl x size m = Ok (tt, m') ∧
    state ctl b0 e m' F' L' (pre ++ trimmed s size true ++ post) ∧ F' !! x = None ∧
    (∀ y t, (y, t, true) ∈ ents b0 (pre ++ trimmed s size true ++ post) → y ≠ x → F' !! y = Some t) ∧ only (unused bs) m m'.
Proof.
  intros x bs H Hx Hz Hz8 Hex. destruct (state_block _ _ _ Hlo _ _ _ _ _ _ _ H) as (Hw & _ & _ & Hb & _ & _ & Hs8 & Hle & _).
  fold x in Hw, Hb, Hle. pose proof (lo_end _ _ _ Hlo) as [_ He]. change block_size_max with (2 ^ 32) in He. pose proof (lo_end _ _ _ Hlo).
  unfold block_trim_free. mstep with (block_is_free_ok m x s _ _ Hw Hs8). cbn [tlsf_assert]. mstep.
  unfold block_can_split. erewrite bind_ok; [|mstep with (block_size_ok m x s _ _ Hw Hs8); reflexivity].
  change sizeof_block_header with 32. rewrite u64_small by lia. unfold trimmed. destruct (Z.leb_spec (32 + size) s) as [Hsp|Hsp].
  - destruct (state_split _ _ _ Hlo _ _ _ _ _ size _ H Hx ltac:(lia) Hz8 Hsp) as (m1 & m2 & E1 & (n & E2) & m3 & E3 & H3 & O3).
    fold x in E1, E2, E3, O3. mstep with E1. mstep with E2. mstep with E3.
    change ((size, true) :: (s - size - 8, true) :: post) with ([(size, true)] ++ (s - size - 8, true) :: post) in H3.
    rewrite app_assoc in H3. set (bs1 := (pre ++ [(size, true)]) ++ (s - size - 8, true) :: post) in *.
    assert (Ebs1 : pre ++ [(size, true); (s - size - 8, true)] ++ post = bs1) by (unfold bs1; by rewrite <-app_assoc).
    set (r := x + 8 + size) in *. assert (Er : end_of b0 (pre ++ [(size, true)]) = r) by (by rewrite end_of_app).
    assert (Hin : (r, s - size - 8, true) ∈ ents b0 bs1) by (unfold bs1; rewrite ents_mid, Er; tauto).
    assert (HFr : ∀ y t, F !! y = Some t → y ≠ r).
    { intros y t Hy ->. pose proof (state_not_in _ _ _ _ _ _ _ _ _ _ _ _ H Hx Hy). fold x in H1. unfold r in *. lia. }
    assert (Hr : F !! r = None) by (destruct (F !! r) as [t|] eqn:Hr; [by destruct (HFr r t Hr)|done]).
    destruct (block_insert_ok m3 F L bs1 r (s - size - 8) H3 Hin Hr) as (m4 & L4 & E4 & H4 & O4).
    exists m4, (<[r := s - size - 8]> F), L4. rewrite Ebs1. splits; [done|done| | |].
    + rewrite lookup_insert_ne; [done|]. unfold r. lia.
    + intros y t Hy Hyx. unfold bs1 in Hy. rewrite <-app_assoc in Hy. cbn [app] in Hy.
      rewrite ents_mid in Hy. cbn [ents] in Hy. rewrite elem_of_cons in Hy. fold x r in Hy.
      destruct Hy as [Hy|[[= -> ->]|[[= -> ->]|Hy]]]; [|done|by rewrite lookup_insert_eq|].
      * rewrite lookup_insert_ne; [apply Hex; [apply ents_mid; by left|done]|]. intros <-.
        apply ents_bounds in Hy; [fold x in Hy; unfold r in Hy; lia|]. by apply st_sizes, sizes_app in H as [? _].
      * replace (r + 8 + (s - size - 8)) with (x + 8 + s) in Hy by (unfold r; lia).
        rewrite lookup_insert_ne; [apply Hex; [apply ents_mid; tauto|done]|]. intros <-.
        apply ents_bounds in Hy; [unfold r in Hy; lia|]. by apply st_sizes, sizes_app in H as [_ [_ ?]%sizes_cons].
    + eapply only_trans; [eapply only_weaken; [|exact O3]|eapply only_weaken; [|exact O4]]; intros a Ha.
      * apply extent_unused; [apply (st_sizes _ _ _ _ _ _ _ H)|done|done].
      * eapply unused_ext; [|exact Ha]. intros y t. unfold bs1, bs. rewrite <-app_assoc. cbn [app].
        rewrite ents_split_free, ents_mid. naive_solver.
  - exists m, F, L. splits; [done|done|done|done|apply only_refl].
Qed.

Lemma ents_of_block bs s f : (s, f) ∈ bs → ∃ x, (x, s, f) ∈ ents b0 bs.
Proof.
  intros (l1 & l2 & ->)%list_elem_of_split. exists (end_of b0 l1). apply ents_mid. tauto.
Qed.

(** [block_locate_free]: a block that is large enough and off its list, or none
    when every free block is smaller than the request plus a thirty-second. *)
Lemma block_locate_free_ok m F L bs size :
  state ctl b0 e m F L bs → (∀ x s, (x, s, true) ∈ ents b0 bs → F !! x = Some s) →
  24 ≤ size < block_size_max → size `mod` 8 = 0 →
  ∃ x m', block_locate_free ctl size m = Ok (x, m') ∧
    ((x = 0 ∧ m' = m ∧ ∀ s, (s, true) ∈ bs → 32 * s < 33 * size) ∨
     ∃ s L', (x, s, true) ∈ ents b0 bs ∧ size ≤ s ∧ state ctl b0 e m' (delete x F) L' bs ∧ only (unused bs) m m').
Proof.
  intros H Hex Hz Hz8. change block_size_max with (2 ^ 32) in Hz.
  destruct (mapping_search_spec m size) as (size' & Em & Hs1 & Hs2 & Hs3 & Hfit); [change block_size_max with (2 ^ 32); lia|done|].
  set (c := mapping_insert size') in *.
  assert (Hfail : (∀ x s, F !! x = Some s → ¬ class_le c (mapping_insert s)) → ∀ s, (s, true) ∈ bs → 32 * s < 33 * size).
  { intros Hno s (x & Hx)%ents_of_block. pose proof (no_size _ _ (st_nodes _ _ _ Hlo _ _ _ _ H) x s (Hex _ _ Hx)) as Hr.
    change block_size_max with (2 ^ 32) in Hr. destruct (decide (s < size')); [lia|].
    destruct (Hno x s (Hex _ _ Hx)). apply mapping_insert_mono; lia. }
  destruct (mapping_insert_spec size') as (Hc1 & Hc2 & _); [lia|]. fold c in Hc1, Hc2.
  unfold block_locate_free. rewrite (proj2 (Z.eqb_neq size 0)) by lia.
  assert (∃ r, (('(fl, sl) ← mapping_search size;
     if fl <? FL_INDEX_COUNT then search_suitable_block ctl fl sl else mret (0, (fl, sl))) : M memory (Z * (Z * Z))) m = Ok (r, m) ∧
     ((r.1 = 0 ∧ ∀ x s, F !! x = Some s → ¬ class_le c (mapping_insert s)) ∨
      ∃ x s, r = (x, mapping_insert s) ∧ F !! x = Some s ∧ class_le c (mapping_insert s))) as (r & Er & Hr).
  { mstep with Em. fold c. destruct c as [fl sl] eqn:Ec. cbn [fst snd] in *. destruct (Z.ltb_spec fl FL_INDEX_COUNT) as [Hlt|Hge].
    - apply (search_lists ctl (lo_ctl _ _ _ Hlo) m F L (fl, sl) (st_lists _ _ _ _ _ _ _ H)). split; cbn [fst snd]; lia.
    - eexists. split; [done|]. left. split; [done|]. intros x s Hx.
      pose proof (class_in_range s (no_size _ _ (st_nodes _ _ _ Hlo _ _ _ _ H) x s Hx)) as [Hi _]. unfold class_le. cbn [fst snd]. lia. }
  mstep with Er. destruct Hr as [[Hr1 Hr2]|(x & s & -> & Hx & Hle)].
  - destruct r as [x [fl sl]]. cbn [fst] in Hr1. subst x. rewrite Z.eqb_refl. cbn [negb]. mstep. exists 0, m. split; [done|]. left. eauto.
  - pose proof (st_sub _ _ _ _ _ _ _ H x s Hx) as Hi. pose proof Hi as (l1 & l2 & E & Ex)%ents_split. pose proof H as H0. rewrite E in H0.
    destruct (state_block _ _ _ Hlo _ _ _ _ _ _ _ H0) as (Hw & _ & _ & Hb & _ & _ & Hs8 & _). rewrite <-Ex in Hw, Hb.
    pose proof (lo_base _ _ _ Hlo). pose proof (no_size _ _ (st_nodes _ _ _ Hlo _ _ _ _ H) x s Hx).
    destruct (state_remove _ _ _ Hlo _ _ _ _ _ _ H Hx) as (m' & L' & E2 & Hst' & O2).
    exists x, m'. destruct (mapping_insert s) as [fl sl] eqn:Ec. cbn [fst snd] in E2. rewrite (proj2 (Z.eqb_neq x 0)) by lia. cbn [negb].
    assert (size ≤ s) by (apply Hfit; [lia|by rewrite Ec]). split.
    + erewrite bind_ok; [reflexivity|]. mstep with (block_size_ok m x s _ _ Hw Hs8). rewrite (proj2 (Z.leb_le size s)) by lia.
      cbn [tlsf_assert]. mstep. exact E2.
    + right. exists s, L'. splits; [done|done|done|]. eapply only_weaken; [|exact O2]. intros a. by eapply state_fp_unused.
Qed.

(** [block_prepare_used] on a block taken off its list. *)
Lemma block_prepare_used_ok m F L pre s size post A :
  let x := end_of b0 pre in
  let bs := pre ++ (s, true) :: post in
  let bs' := pre ++ trimmed s size false ++ post in
  state ctl b0 e m F L bs → F !! x = None → 24 ≤ size ≤ s → size `mod` 8 = 0 →
  (∀ y t, (y, t, true) ∈ ents b0 bs → y ≠ x → F !! y = Some t) → coalesced false bs →
  (∀ p t, A !! p = Some t ↔ (p - 16, t, false) ∈ ents b0 bs) →
  ∃ m' s', block_prepare_used ctl x size m = Ok (x + 16, m') ∧ size ≤ s' ∧ A !! (x + 16) = None ∧
    heap m' bs' (<[x + 16 := s']> A) ∧ only (unused bs) m m'.
Proof.
  intros x bs bs' H Hx Hz Hz8 Hex Hco Hu.
  destruct (block_trim_free_ok m F L pre s size post H Hx Hz Hz8 Hex) as (m1 & F1 & L1 & E1 & H1 & Hx1 & Hex1 & O1). fold x bs in E1, Hex1, O1.
  destruct (state_block _ _ _ Hlo _ _ _ _ _ _ _ H) as (_ & _ & _ & Hb & Hal & _ & _ & Hle & _). fold x in Hb, Hal, Hle.
  pose proof (lo_base _ _ _ Hlo). pose proof (lo_end _ _ _ Hlo).
  set (s' := if 32 + size <=? s then size else s).
  set (rest := if 32 + size <=? s then (s - size - 8, true) :: post else post).
  assert (Etr : ∀ f, trimmed s size f ++ post = (s', f) :: rest) by (intros f; unfold trimmed, s', rest; by destruct (32 + size <=? s)).
  unfold bs'. rewrite Etr in *.
  destruct (state_mark_used _ _ _ Hlo _ _ _ _ _ _ H1 Hx1) as (m2 & E2 & Hst2 & O2). fold x in E2, O2.
  assert (Hused : ∀ y t, (y, t, false) ∈ ents b0 bs ↔ (y, t, false) ∈ ents b0 (pre ++ (s', true) :: rest)).
  { intros y t. unfold bs. rewrite !ents_mid. unfold s', rest. destruct (32 + size <=? s); [|done]. cbn [ents].
    rewrite elem_of_cons. replace (end_of b0 pre + 8 + size + 8 + (s - size - 8)) with (end_of b0 pre + 8 + s) by lia. naive_solver. }
  assert (Hfresh : A !! (x + 16) = None).
  { destruct (A !! (x + 16)) as [t|] eqn:EA; [|done]. apply Hu in EA. replace (x + 16 - 16) with x in EA by lia.
    by destruct (ents_at _ _ _ _ _ _ _ (st_sizes _ _ _ _ _ _ _ H) EA). }
  exists m2, s'. split.
  - unfold block_prepare_used. rewrite (proj2 (Z.eqb_neq x 0)), (proj2 (Z.eqb_neq size 0)) by lia. cbn [negb tlsf_assert].
    mstep. mstep with E1. mstep with E2. destruct (block_ptr_ok x) as [-> _]; [lia|lia|done|done].
  - splits; [unfold s'; destruct (32 + size <=? s); lia|done| |].
    + split; [done|exists F1, L1; split; [done|]|..].
      * intros y t Hy. apply Hex1; [rewrite ents_mid in Hy; apply ents_mid; naive_solver|]. intros ->.
        by destruct (ents_at _ _ _ _ _ _ _ (st_sizes _ _ _ _ _ _ _ Hst2) Hy).
      * unfold bs in Hco. rewrite coalesced_app in Hco |- *. destruct Hco as [Hc1 Hc2]. split; [done|]. cbn in Hc2 |- *.
        split; [by intros [_ ?]|]. unfold rest. destruct (32 + size <=? s); [|by eapply coalesced_weaken, Hc2]. cbn. split; [by intros [? _]|tauto].
      * intros p t. destruct (decide (p = x + 16)) as [->|Hne].
        -- rewrite lookup_insert_eq. replace (x + 16 - 16) with x by lia. split; [intros [= <-]; apply ents_mid; tauto|].
           intros Hi. by destruct (ents_at _ _ _ _ _ _ _ (st_sizes _ _ _ _ _ _ _ Hst2) Hi) as [-> _].
        -- rewrite lookup_insert_ne by done. rewrite Hu, Hused, !ents_mid. fold x. split; [naive_solver|].
           intros [?|[[= ? ?]|?]]; [by left|lia|tauto].
    + eapply only_trans; [exact O1|]. eapply only_weaken; [|exact O2]. intros a Ha. apply (unused_ext _ _ _ Hused).
      apply extent_unused; [apply (st_sizes _ _ _ _ _ _ _ H1)|fold x; cbv beta in Ha|done]. assert (24 ≤ s') by (unfold s'; destruct (32 + size <=? s); lia). lia.
Qed.

(** ** Release *)

(** The block after [pre] is free and off the lists; every other free block is
    on its list. *)
Record pending (m : memory) (F : gmap Z Z) (L : Z * Z → list Z) (pre : blocks) (s : Z) (post : blocks) : Prop := {
  pd_state : state ctl b0 e m F L (pre ++ (s, true) :: post);
  pd_off : F !! end_of b0 pre = None;
  pd_on : ∀ y t, (y, t, true) ∈ ents b0 (pre ++ (s, true) :: post) → y ≠ end_of b0 pre → F !! y = Some t;
}.

Lemma ents_merge pre s1 s2 post y t f :
  y ≠ end_of b0 pre → (y, t, f) ∈ ents b0 (pre ++ (s1 + 8 + s2, true) :: post) →
  (y, t, f) ∈ ents b0 (pre ++ (s1, true) :: (s2, true) :: post).
Proof.
  intros Hy. rewrite !ents_mid. cbn [ents]. rewrite elem_of_cons.
  replace (end_of b0 pre + 8 + s1 + 8 + s2) with (end_of b0 pre + 8 + (s1 + 8 + s2)) by lia. naive_solver.
Qed.
Lemma ents_merge_used pre s1 s2 post y t :
  (y, t, false) ∈ ents b0 (pre ++ (s1, true) :: (s2, true) :: post) ↔ (y, t, false) ∈ ents b0 (pre ++ (s1 + 8 + s2, true) :: post).
Proof.
  rewrite !ents_mid. cbn [ents]. rewrite elem_of_cons.
  replace (end_of b0 pre + 8 + s1 + 8 + s2) with (end_of b0 pre + 8 + (s1 + 8 + s2)) by lia. naive_solver.
Qed.

(** The common step of the two merges: [y], one of two free neighbours, leaves
    its list and the first absorbs the second. *)
Lemma merge_ok m F L pre s1 s2 post y t :
  let x := end_of b0 pre in
  let bs := pre ++ (s1, true) :: (s2, true) :: post in
  state ctl b0 e m F L bs → F !! y = Some t → y = x ∨ y = x + 8 + s1 →
  (delete y F) !! x = None → (delete y F) !! (x + 8 + s1) = None →
  (∀ z u, (z, u, true) ∈ ents b0 bs → z ≠ x → z ≠ x + 8 + s1 → F !! z = Some u) →
  ∃ m1 m2 L', block_remove ctl y m = Ok (tt, m1) ∧ block_absorb x (x + 8 + s1) m1 = Ok (x, m2) ∧
    pending m2 (delete y F) L' pre (s1 + 8 + s2) post ∧ only (unused bs) m m2.
Proof.
  intros x bs H Hy Hxy Hx Hn Hon. destruct (block_remove_ok m F L bs y t H Hy) as (m1 & L1 & E1 & H1 & O1).
  destruct (state_absorb _ _ _ Hlo _ _ _ _ _ _ _ H1 Hx Hn) as (m2 & E2 & H2 & O2). fold x in E2, O2.
  exists m1, m2, L1. splits; [done|done| |].
  - split; [done|done|]. intros z u Hz Hzx. pose proof (ents_merge _ _ _ _ _ _ _ Hzx Hz) as Hz'. fold x in Hzx.
    assert (z ≠ x + 8 + s1) as Hzn.
    { pose proof (st_sizes _ _ _ _ _ _ _ H) as [_ [[? _] [[? _] _]%sizes_cons]%sizes_cons]%sizes_app.
      pose proof (ents_bounds _ _ _ _ _ (st_sizes _ _ _ _ _ _ _ H2) Hz).
      destruct (ents_around _ _ _ _ _ _ _ _ (st_sizes _ _ _ _ _ _ _ H2) Hz) as [[Hr _]|[[Hr _]|[Hr _]]]; fold x in Hr; lia. }
    rewrite lookup_delete_ne; [by apply Hon|]. destruct Hxy; congruence.
  - eapply only_trans; [exact O1|]. eapply only_weaken; [|exact O2]. intros a Ha. cbv beta in Ha.
    eapply unused_ext; [apply ents_merge_used|]. apply extent_unused; [apply (st_sizes _ _ _ _ _ _ _ H2)|fold x; lia|done].
Qed.

Lemma block_merge_prev_ok m F L pre s post :
  let x := end_of b0 pre in
  let bs := pre ++ (s, true) :: post in
  pending m F L pre s post → coalesced false pre →
  ∃ m' F' L' pre' s', block_merge_prev ctl x m = Ok (end_of b0 pre', m') ∧ pending m' F' L' pre' s' post ∧
    coalesced false pre' ∧ last_flag false pre' = false ∧
    (∀ y t, (y, t, false) ∈ ents b0 bs ↔ (y, t, false) ∈ ents b0 (pre' ++ (s', true) :: post)) ∧ only (unused bs) m m'.
Proof.
  intros x bs HP Hco. pose proof (pd_state _ _ _ _ _ _ HP) as H.
  destruct (state_block _ _ _ Hlo _ _ _ _ _ _ _ H) as (Hw & _ & _ & Hb & _ & Hs & Hs8 & _). fold x in Hw, Hb.
  unfold block_merge_prev. mstep with (block_is_prev_free_ok m x s _ _ Hw Hs8). destruct (last_flag false pre) eqn:Ef.
  - destruct pre as [|[sp fp] pre _] using rev_ind; [done|]. rewrite last_flag_app in Ef. cbn in Ef. subst fp.
    assert (Ex : x = end_of b0 pre + 8 + sp) by (unfold x; by rewrite end_of_app).
    assert (Ebs : bs = pre ++ (sp, true) :: (s, true) :: post) by (unfold bs; by rewrite <-app_assoc).
    pose proof (pd_off _ _ _ _ _ _ HP) as Hoff. pose proof (pd_on _ _ _ _ _ _ HP) as Hon. fold x bs in H, Hoff, Hon. rewrite Ebs in *.
    destruct (state_block _ _ _ Hlo _ _ _ _ _ _ _ H) as (Hwp & _ & Hbk & Hbp & _ & Hsp & Hsp8 & _). rewrite <-Ex in Hbk.
    set (xp := end_of b0 pre) in *. pose proof (lo_base _ _ _ Hlo).
    assert (Hxp : F !! xp = Some sp) by (apply Hon; [apply ents_mid; tauto|lia]).
    unfold block_prev. erewrite bind_ok.
    2: { mstep with (block_is_prev_free_ok m x s _ _ Hw Hs8). cbn [tlsf_assert]. mstep. unfold get_prev_phys, gets, off_prev_phys.
         rewrite Z.add_0_r, Hbk by done. reflexivity. }
    rewrite (proj2 (Z.eqb_neq xp 0)) by lia. cbn [negb tlsf_assert]. mstep. mstep with (block_is_free_ok m xp sp _ _ Hwp Hsp8).
    cbn [tlsf_assert]. mstep.
    destruct (merge_ok m F L pre sp s post xp sp H Hxp) as (m1 & m2 & L2 & E1 & E2 & HP2 & O2); [by left|apply lookup_delete_eq| | |].
    + fold xp. rewrite <-Ex, lookup_delete_ne by lia. done.
    + intros z u Hz _ Hzx. apply Hon; [done|]. fold xp in Hzx. by rewrite <-Ex in Hzx.
    + fold xp in E2. rewrite <-Ex in E2. mstep with E1. rewrite E2. exists m2, (delete xp F), L2, pre, (sp + 8 + s).
      rewrite coalesced_app in Hco. destruct Hco as [Hc1 Hc2]. cbn in Hc2. splits; [done|done|done| |apply ents_merge_used|done].
      destruct (last_flag false pre); [|done]. by destruct Hc2 as [[] _].
  - exists m, F, L, pre, s. splits; [done|done|done|done|done|apply only_refl].
Qed.

Lemma block_merge_next_ok m F L pre s post :
  let x := end_of b0 pre in
  let bs := pre ++ (s, true) :: post in
  pending m F L pre s post → coalesced false post →
  ∃ m' F' L' s' post', block_merge_next ctl x m = Ok (x, m') ∧ pending m' F' L' pre s' post' ∧ coalesced true post' ∧
    (∀ y t, (y, t, false) ∈ ents b0 bs ↔ (y, t, false) ∈ ents b0 (pre ++ (s', true) :: post')) ∧ only (unused bs) m m'.
Proof.
  intros x bs HP Hco. pose proof (pd_state _ _ _ _ _ _ HP) as H. fold bs in H.
  destruct (state_block _ _ _ Hlo _ _ _ _ _ _ _ H) as (Hw & Hw2 & _ & Hb & _ & Hs & Hs8 & Hle & Hn8 & _). fold x in Hw, Hw2, Hb, Hle.
  pose proof (lo_base _ _ _ Hlo). pose proof (lo_end _ _ _ Hlo).
  unfold block_merge_next. mstep with (block_next_ok m x s _ _ Hw Hs8 ltac:(lia)). rewrite (proj2 (Z.eqb_neq (x + 8 + s) 0)) by lia.
  cbn [negb tlsf_assert]. mstep. mstep with (block_is_free_ok m _ _ _ _ Hw2 Hn8).
  destruct (hd_free post) eqn:Ef.
  - destruct post as [|[s2 f2] post]; [done|]. cbn in Ef. subst f2. mstep with (block_is_last_ok m x s _ _ Hw Hs8).
    rewrite (proj2 (Z.eqb_neq s 0)) by lia. cbn [negb tlsf_assert]. mstep.
    assert (Hn : F !! (x + 8 + s) = Some s2).
    { apply (pd_on _ _ _ _ _ _ HP); [|fold x; lia]. apply ents_mid. cbn [ents]. fold x. right. right. left. }
    destruct (merge_ok m F L pre s s2 post (x + 8 + s) s2 H Hn) as (m1 & m2 & L2 & E1 & E2 & HP2 & O2); [by right| | | |].
    + rewrite lookup_delete_ne by (fold x; lia). apply (pd_off _ _ _ _ _ _ HP).
    + apply lookup_delete_eq.
    + intros z u Hz Hzx _. by apply (pd_on _ _ _ _ _ _ HP).
    + fold x in E2. mstep with E1. rewrite E2. eexists m2, _, L2, _, post. split; [done|]. split; [exact HP2|]. cbn in Hco.
      splits; [tauto|apply ents_merge_used|done].
  - exists m, F, L, s, post. splits; [done|done| |done|apply only_refl]. by apply coalesced_hd.
Qed.

(** Inserting the pending block gives a heap again. *)
Lemma heap_insert m F L pre s post A :
  pending m F L pre s post → coalesced false (pre ++ (s, true) :: post) →
  (∀ p t, A !! p = Some t ↔ (p - 16, t, false) ∈ ents b0 (pre ++ (s, true) :: post)) →
  ∃ m', block_insert ctl (end_of b0 pre) m = Ok (tt, m') ∧ heap m' (pre ++ (s, true) :: post) A ∧
    only (unused (pre ++ (s, true) :: post)) m m'.
Proof.
  intros [H Hoff Hon] Hco Hu. set (bs := pre ++ (s, true) :: post) in *. set (x := end_of b0 pre) in *.
  destruct (block_insert_ok m F L bs x s H) as (m' & L' & E & H' & O); [apply ents_mid; tauto|done|].
  exists m'. splits; [done| |done]. split; [done| |done|done]. exists (<[x := s]> F), L'. split; [done|].
  intros y t Hy. destruct (decide (y = x)) as [->|Hne].
  - rewrite lookup_insert_eq. by destruct (ents_at _ _ _ _ _ _ _ (st_sizes _ _ _ _ _ _ _ H) Hy) as [-> _].
  - rewrite lookup_insert_ne by done. by apply Hon.
Qed.
End with_layout.

(** ** [tlsf_free] *)

Lemma tlsf_free_spec m bs A p s :
  heap m bs A → A !! p = Some s →
  ∃ m' bs', tlsf_free ctl p m = Ok (tt, m') ∧ heap m' bs' (delete p A) ∧ only (unowned (delete p A)) m m'.
Proof.
  intros [Hlo (F & L & H & Hall) Hco Hu] Hp. pose proof Hp as (pre & post & -> & Ex)%Hu%ents_split. set (x := end_of b0 pre) in *.
  destruct (state_block _ _ _ Hlo _ _ _ _ _ _ _ H) as (Hw & _ & _ & Hb & _ & Hs & Hs8 & Hle & _). fold x in Hw, Hb, Hle.
  pose proof (lo_base _ _ _ Hlo). pose proof (lo_end _ _ _ Hlo). pose proof (st_sizes _ _ _ _ _ _ _ H) as Hsz.
  assert (Hused : ∀ q t, delete p A !! q = Some t ↔ (q - 16, t, false) ∈ ents b0 (pre ++ (s, true) :: post)).
  { intros q t. rewrite lookup_delete_Some, Hu, !ents_mid. fold x. split.
    - intros [Hne [Hi|[[= ? ?]|Hi]]]; [tauto|lia|tauto].
    - intros Hi. assert ((q - 16, t, false) ∈ ents b0 (pre ++ (s, false) :: post)) as Hi' by (apply ents_mid; naive_solver).
      split; [|naive_solver]. intros <-. pose proof Hsz as [? [[? ?] ?]%sizes_cons]%sizes_app.
      destruct Hi as [Hi|[[= ]|Hi]]; (apply ents_bounds in Hi; [|done]); fold x in Hi; lia. }
  destruct (state_mark_free _ _ _ Hlo _ _ _ _ _ _ H) as (m1 & E1 & Hst1 & O1). fold x in E1, O1.
  assert (HP : pending m1 F L pre s post).
  { split; [done|destruct (F !! end_of b0 pre) as [t|] eqn:EF; [|done]|].
    - apply (st_sub _ _ _ _ _ _ _ H) in EF. by destruct (ents_at _ _ _ _ _ _ _ Hsz EF).
    - intros y t Hy Hne. apply Hall. rewrite ents_mid in Hy |- *. naive_solver. }
  apply coalesced_app in Hco as [Hc1 [_ Hc2]].
  destruct (block_merge_prev_ok Hlo m1 F L pre s post HP Hc1) as (m2 & F2 & L2 & pre' & s' & E2 & HP2 & Hc1' & Hlf & Hu2 & O2). fold x in E2.
  destruct (block_merge_next_ok Hlo m2 F2 L2 pre' s' post HP2 Hc2) as (m3 & F3 & L3 & s3 & post' & E3 & HP3 & Hc3 & Hu3 & O3).
  destruct (heap_insert Hlo m3 F3 L3 pre' s3 post' (delete p A) HP3) as (m4 & E4 & Hst4 & O4).
  - rewrite coalesced_app. split; [done|]. cbn. rewrite Hlf. split; [by intros [? _]|done].
  - intros q t. by rewrite Hused, Hu2, Hu3.
  - exists m4, (pre' ++ (s3, true) :: post'). split; [|split; [done|]].
    + unfold tlsf_free. rewrite (proj2 (Z.eqb_neq p 0)) by lia. cbn [negb].
      assert (block_from_ptr p = x) as ->.
      { unfold block_from_ptr. change block_start_offset with 16. rewrite u64_small by lia. lia. }
      mstep with (block_is_free_ok m x s _ _ Hw Hs8). cbn [negb tlsf_assert]. mstep. mstep with E1. mstep with E2. mstep with E3. exact E4.
    + assert (Hw1 : ∀ a, unused (pre ++ (s, true) :: post) a → unowned (delete p A) a).
      { intros a. apply unused_unowned. intros q t. apply Hused. }
      eapply only_trans; [|eapply only_trans; [|eapply only_trans]].
      * eapply only_weaken; [|exact O1]. intros a Ha. apply Hw1, extent_unused; [apply (st_sizes _ _ _ _ _ _ _ Hst1)|done|done].
      * eapply only_weaken; [|exact O2]. done.
      * eapply only_weaken; [|exact O3]. intros a Ha. apply Hw1. by eapply unused_ext.
      * eapply only_weaken; [|exact O4]. intros a Ha. apply Hw1. eapply unused_ext; [done|]. by eapply unused_ext.
Qed.

(** ** [tlsf_malloc] *)

(** The size searched for: 0 when the request is empty or too large. *)
Definition request (size : Z) : Z :=
  let aligned := (size + 7) / 8 * 8 in
  if size =? 0 then 0 else if aligned <? block_size_max then Z.max aligned block_size_min else 0.

Lemma adjust_request_size_ok size m : 0 ≤ size ≤ 2 ^ 64 - 8 → adjust_request_size size ALIGN_SIZE m = Ok (request size, m).
Proof.
  intros Hs. unfold adjust_request_size, request. destruct (size =? 0); [done|].
  unfold align_up. change (is_pow2 ALIGN_SIZE) with true. cbn [tlsf_assert]. erewrite bind_ok; [|mstep; reflexivity].
  change ALIGN_SIZE with (2 ^ 3). rewrite (u64_small (size + _)), land_lnot_ones by lia.
  replace (size + (2 ^ 3 - 1)) with (size + 7) by lia. rewrite u64_small by zdiv. done.
Qed.
Lemma request_range size : 0 ≤ size → request size = 0 ∨ (size ≤ request size ∧ 24 ≤ request size < block_size_max ∧ request size `mod` 8 = 0).
Proof.
  intros Hs. unfold request. destruct (Z.eqb_spec size 0); [by left|]. change block_size_max with (2 ^ 32). change block_size_min with 24.
  destruct (Z.ltb_spec ((size + 7) / 8 * 8) (2 ^ 32)); [right|by left].
  destruct (Z.max_spec ((size + 7) / 8 * 8) 24) as [[? ->]|[? ->]]; splits; zdiv.
Qed.

Lemma tlsf_malloc_spec m bs A size :
  heap m bs A → 0 ≤ size ≤ 2 ^ 64 - 8 →
  ∃ p m', tlsf_malloc ctl size m = Ok (p, m') ∧
    ((p = 0 ∧ m' = m ∧ (request size = 0 ∨ ∀ s, (s, true) ∈ bs → 32 * s < 33 * request size)) ∨
     ∃ s bs', size ≤ s ∧ A !! p = None ∧ heap m' bs' (<[p := s]> A) ∧ only (unowned A) m m').
Proof.
  intros [Hlo (F & L & H & Hall) Hco Hu] Hz. unfold tlsf_malloc. mstep with (adjust_request_size_ok size m Hz).
  destruct (request_range size ltac:(lia)) as [E0|(R1 & R2 & R3)].
  - rewrite E0. unfold block_locate_free. cbn [Z.eqb]. exists 0, m. split; [done|]. left. tauto.
  - destruct (block_locate_free_ok Hlo m F L bs (request size) H Hall R2 R3) as (x & m1 & E1 & [(-> & -> & Hno)|(s & L1 & Hi & Hle & H1 & O1)]).
    + mstep with E1. exists 0, m. split; [done|]. left. tauto.
    + pose proof Hi as (pre & post & -> & ->)%ents_split.
      destruct (block_prepare_used_ok Hlo m1 (delete (end_of b0 pre) F) L1 pre s (request size) post A H1) as (m2 & s' & E2 & Hs' & Hf & H2 & O2);
        [apply lookup_delete_eq|lia|done| |done|done|].
      * intros y t Hy Hne. rewrite lookup_delete_ne by done. by apply Hall.
      * mstep with E1. rewrite E2. exists (end_of b0 pre + 16), m2. split; [done|]. right.
        eexists s', _. splits; [lia|done|exact H2|]. eapply only_trans; (eapply only_weaken; [|eassumption]); intros a;
          apply unused_unowned; intros q t; apply Hu.
Qed.
End heap.
