(* ===== verification/TlsfInit.v ===== *)
(** * A new kernel heap

    [tlsf_create_with_pool] builds the control structure and a pool of one free
    block, and so establishes the invariant that [tlsf_malloc] and [tlsf_free]
    keep. *)
From Stdlib Require Import ZArith Lia.
From stdpp Require Import base option gmap list.
From S2P Require Import Prelude Memory Tlsf TlsfProof TlsfLists TlsfPhys TlsfHeap.

(** ** The control structure *)

Section construct.
Context (ctl : Z) (Hctl : 0 < ctl ∧ ctl + sizeof_control < 2 ^ 64) (m0 : memory).

Lemma only_control_head m c v : in_range c → only (control_byte ctl) m (store64 m (head_addr ctl c) v).
Proof. intros Hc. apply only_store64. intros a Ha. pose proof (head_addr_range ctl Hctl c Hc). unfold control_byte. lia. Qed.

(** The control structure after [i] rows and [j] columns of row [i]. *)
Record constructed (i j : Z) (m : memory) : Prop := {
  cs_fl : load32 m (fl_addr ctl) = 0;
  cs_rows : ∀ fl, 0 ≤ fl < FL_INDEX_COUNT → fl < i ∨ (fl = i ∧ 0 < j) → load32 m (sl_addr ctl fl) = 0;
  cs_heads : ∀ c, in_range c → c.1 < i ∨ (c.1 = i ∧ c.2 < j) → load64 m (head_addr ctl c) = ctl;
  cs_only : only (control_byte ctl) m0 m;
}.

Lemma construct_head i j m :
  0 ≤ i < FL_INDEX_COUNT → 0 ≤ j < SL_INDEX_COUNT → constructed i j m → load32 m (sl_addr ctl i) = 0 →
  ∃ m', set_head ctl i j (block_null ctl) m = Ok (tt, m') ∧ constructed i (j + 1) m' ∧ load32 m' (sl_addr ctl i) = 0.
Proof.
  intros Hi Hj [H1 H2 H3 H4] Hr. assert (Hc : in_range (i, j)) by done. eexists.
  split; [apply (set_head_ok ctl (i, j) (block_null ctl) m Hc)|]. pose proof (fl_addr_range ctl).
  pose proof (sl_addr_range ctl i Hi). split; [split|].
  - by rewrite (bitmap_head ctl Hctl) by (done || lia).
  - intros fl Hfl Hc2. pose proof (sl_addr_range ctl fl Hfl). rewrite (bitmap_head ctl Hctl) by (done || lia).
    destruct (decide (fl = i)) as [->|]; [done|]. apply H2; [done|lia].
  - intros c Hcr Hlt. destruct (decide (c = (i, j))) as [->|Hne]; [by rewrite load64_store64_eq, u64_small by (unfold block_null; clia)|].
    rewrite load64_store64_ne by (by apply or_comm, head_addr_apart). apply H3; [done|].
    destruct c as [c1 c2]. cbn [fst snd] in *. assert (c1 ≠ i ∨ c2 ≠ j) by (destruct (decide (c1 = i)); [right; congruence|by left]). lia.
  - eapply only_trans; [exact H4|]. by apply only_control_head.
  - by rewrite (bitmap_head ctl Hctl) by (done || lia).
Qed.

Lemma construct_row i m :
  0 ≤ i < FL_INDEX_COUNT → constructed i 0 m →
  ∃ m', (set_sl_bitmap ctl i 0;;
         for_loop (Z.to_nat SL_INDEX_COUNT) 0 (λ j, set_head ctl i j (block_null ctl))) m = Ok (tt, m') ∧ constructed (i + 1) 0 m'.
Proof.
  intros Hi [H1 H2 H3 H4]. mstep with (set_sl_bitmap_ok ctl i 0 m Hi). destruct (set_row ctl m (i, 0) 0) as [E1 E2]; [done|lia|].
  cbn [fst] in E1, E2. set (m1 := store32 m (sl_addr ctl i) 0) in *.
  destruct (for_loop_inv (λ j m, constructed i j m ∧ load32 m (sl_addr ctl i) = 0)
    (λ j, set_head ctl i j (block_null ctl)) (Z.to_nat SL_INDEX_COUNT) 0 m1) as (m' & E & HC & Hr).
  - split; [split|].
    + by rewrite E1.
    + intros fl Hfl Hlt. rewrite E2 by done. case_decide; [done|]. apply H2; [done|lia].
    + intros c Hc Hlt. transitivity (load64 m (head_addr ctl c)); [|by apply H3]. unfold m1. pose proof (head_addr_range ctl Hctl c Hc). pose proof (sl_addr_range ctl i Hi).
      apply load64_store32_ne'. lia.
    + eapply only_trans; [exact H4|]. apply only_store32. intros a Ha. pose proof (sl_addr_range ctl i Hi). pose proof (fl_addr_range ctl).
      unfold control_byte. clia.
    + rewrite E2 by done. by rewrite decide_True.
  - intros j m2 Hj [HC Hr]. destruct (construct_head i j m2 Hi) as (m3 & E3 & HC3 & Hr3); [change SL_INDEX_COUNT with 32 in *; lia|done|done|]. eauto.
  - exists m'. split; [done|]. destruct HC as [C1 C2 C3 C4]. split; [done| | |done].
    + intros fl Hfl Hlt. destruct (decide (fl = i)) as [->|]; [done|]. apply C2; [done|lia].
    + intros c Hc Hlt. apply C3; [done|]. destruct Hc as [_ Hc]. change SL_INDEX_COUNT with 32 in *. lia.
Qed.

Lemma control_construct_spec :
  ∃ m', control_construct ctl m0 = Ok (tt, m') ∧ lists ctl m' ∅ (λ _, []) ∧ only (control_byte ctl) m0 m'.
Proof.
  unfold control_construct. do 3 mstep. unfold off_next_free, off_prev_free, block_null. change (ctl + off_fl_bitmap) with (fl_addr ctl).
  match goal with |- context [for_loop _ _ _ ?m1] => set (m1' := m1) end. pose proof (fl_addr_range ctl).
  destruct (for_loop_inv (λ i m, constructed i 0 m) (λ i, set_sl_bitmap ctl i 0;;
    for_loop (Z.to_nat SL_INDEX_COUNT) 0 (λ j, set_head ctl i j ctl)) (Z.to_nat FL_INDEX_COUNT) 0 m1') as (m' & E & [C1 C2 C3 C4]).
  - split; [by apply load32_store32_eq|intros fl Hfl; lia|intros c [? ?]; lia|]. unfold m1'.
    eapply only_trans; [eapply only_trans|]; [apply only_store64|apply only_store64|apply only_store32]; intros a Ha; unfold control_byte; clia.
  - intros i m Hi HC. apply (construct_row i m); [change FL_INDEX_COUNT with 25 in *; lia|done].
  - exists m'. split; [done|]. split; [|done]. assert (Hr : ∀ fl, 0 ≤ fl < FL_INDEX_COUNT → load32 m' (sl_addr ctl fl) = 0).
    { intros fl Hfl. apply C2; [done|]. change FL_INDEX_COUNT with 25 in *. lia. }
    split; [split|split].
    + by split; intros *; rewrite lookup_empty.
    + intros c Hc. apply C3; [done|]. destruct Hc as [Hc _]. change FL_INDEX_COUNT with 25 in *. lia.
    + done.
    + intros. constructor.
    + intros c x _. clear. setoid_rewrite lookup_empty. split; [intros Hx; by apply elem_of_nil in Hx|by intros (s & ? & _)].
    + intros c Hc. rewrite Hr by (by destruct Hc). rewrite Z.bits_0. clear. split; [done|by intros []].
    + intros fl Hfl. rewrite C1, Hr by done. rewrite Z.bits_0. clear. split; [done|by intros []].
    + by rewrite C1.
Qed.
End construct.

(** ** The pool *)

Lemma rem_8_aligned a : 0 ≤ a < 2 ^ 64 → a `mod` 8 = 0 → (s64 a `rem` ALIGN_SIZE =? 0) = true.
Proof.
  intros Ha H8. apply Z.eqb_eq. change ALIGN_SIZE with 8. apply Z.rem_divide; [lia|]. unfold s64, swrap. rewrite Z.mod_small by lia.
  apply Z.mod_divide in H8; [|lia]. destruct (a <? _); [done|]. apply Z.divide_sub_r; [done|]. by exists (2 ^ 61).
Qed.
Lemma align_down_8 a m : 0 ≤ a < 2 ^ 64 → align_down a ALIGN_SIZE m = Ok (a / 8 * 8, m).
Proof.
  intros Ha. unfold align_down. change (is_pow2 ALIGN_SIZE) with true. cbn [tlsf_assert]. mstep.
  change (ALIGN_SIZE - 1) with (2 ^ 3 - 1). rewrite land_ones_mod, ret_eq by lia. do 2 f_equal. rewrite u64_small by zdiv. zdiv.
Qed.

Section pool.
Context (ctl b0 pb : Z).
Let e := b0 + 8 + pb.
Hypothesis Hlo : layout_ok ctl b0 e.
Hypothesis Hpb : 24 ≤ pb < block_size_max ∧ pb `mod` 8 = 0.

(** The stores of [tlsf_add_pool], from empty lists, before [k]. *)
Lemma pool_spec {B} (k : M memory B) m :
  lists ctl m ∅ (λ _, []) →
  ∃ m', (block_set_size b0 pb;; block_set_free b0;; block_set_prev_used b0;; block_insert ctl b0;;
         next ← block_link_next b0; block_set_size next 0;; block_set_used next;; block_set_prev_free next;; k) m = k m' ∧
    heap ctl b0 e m' [(pb, true)] ∅.
Proof.
  intros HL. destruct Hlo as [Hc Hb He Ha]. destruct Hpb as [Hp Hp8]. change block_size_max with (2 ^ 32) in *.
  destruct (block_set_size_ok m b0 pb Hp8) as (g1 & g2 & E1 & _). mstep with E1.
  assert (Hh : ∀ m f pf, load64 (store64 m (b0 + 8) (hdr pb f pf)) (b0 + 8) = hdr pb f pf) by (intros; apply header_store_eq; lia).
  mstep with (block_set_free_ok _ b0 pb g1 g2 (Hh _ _ _) Hp8). mstep with (block_set_prev_used_ok _ b0 pb true g2 (Hh _ _ _) Hp8).
  match goal with |- context [store64 ?m' (b0 + 8) (hdr pb true false)] => set (m1 := store64 m' (b0 + 8) (hdr pb true false)) end.
  assert (Hm1 : load64 m1 (b0 + 8) = hdr pb true false) by apply Hh.
  assert (Hsub : ∀ x s, ({[b0 := pb]} : gmap Z Z) !! x = Some s → (x, s, true) ∈ ents b0 [(pb, true)])
    by (intros x s [-> ->]%lookup_singleton_Some; left).
  assert (Hsz : sizes [(pb, true)]) by (apply sizes_1; [lia|done]).
  assert (HL1 : lists ctl m1 ∅ (λ _, [])).
  { apply (lists_frame ctl Hc m); [done|]. intros a [Ha'|(x & [? [=]] & _)]. unfold control_byte in Ha'.
    unfold m1. rewrite !load8_store64_ne by lia. done. }
  destruct (insert_free_block_spec ctl Hc m1 ∅ (λ _, []) b0 pb HL1) as (m2 & L2 & E2 & HL2 & O2).
  { rewrite insert_empty. apply (nodes_ok_sub ctl b0 e Hlo _ [(pb, true)]); [done|done|]. exact Hsub. }
  { done. }
  unfold block_insert. erewrite bind_ok; [|mstep with (block_size_ok m1 b0 pb _ _ Hm1 Hp8); destruct (mapping_insert pb); exact E2].
  rewrite insert_empty in HL2, O2.
  assert (Hm2 : load64 m2 (b0 + 8) = hdr pb true false).
  { rewrite <-Hm1. eapply only_load64; [exact O2|]. intros a Ha' Hf.
    destruct Hf as [Hf|(x & [s [<- _]%lookup_singleton_Some] & Hf)]; [unfold control_byte in Hf|unfold link_byte in Hf]; lia. }
  mstep with (block_link_next_ok m2 b0 pb _ _ Hm2 Hp8 ltac:(lia)). fold e.
  destruct (block_set_size_ok (store64 m2 e b0) e 0) as (h1 & h2 & E3 & _); [done|]. mstep with E3.
  assert (He0 : ∀ m f pf, load64 (store64 m (e + 8) (hdr 0 f pf)) (e + 8) = hdr 0 f pf) by (intros; by apply header_store_eq).
  mstep with (block_set_used_ok _ e 0 h1 h2 (He0 _ _ _) eq_refl). mstep with (block_set_prev_free_ok _ e 0 false h2 (He0 _ _ _) eq_refl).
  match goal with |- context [store64 ?m' (e + 8) (hdr 0 false true)] => set (m3 := store64 m' (e + 8) (hdr 0 false true)) end.
  assert (He1 : e = b0 + 8 + pb) by done. exists m3. split; [done|]. split; [done| |by split; [intros []|]|].
  - exists {[b0 := pb]}, L2. split; [split|].
    + apply (lists_frame ctl Hc m2); [done|]. intros a Ha'. unfold m3. rewrite !load8_store64_ne; [done|..];
        (destruct Ha' as [Hf|(x & [s [<- _]%lookup_singleton_Some] & Hf)]; [unfold control_byte in Hf|unfold link_byte in Hf]; lia).
    + split; [cbn [seg]; splits; [| |done]|].
      * unfold m3. rewrite !load64_store64_ne by lia. done.
      * intros _. fold e. unfold m3. rewrite !load64_store64_ne, load64_store64_eq by lia. apply u64_small. lia.
      * cbn [end_of last_flag]. fold e. unfold m3. apply He0.
    + done.
    + done.
    + exact Hsub.
    + intros x s [[= -> ->]|Hx]%elem_of_cons; [apply lookup_singleton_eq|by apply elem_of_nil in Hx].
  - intros p s. rewrite lookup_empty. split; [done|]. intros [[=]|Hx]%elem_of_cons. by apply elem_of_nil in Hx.
Qed.
End pool.

(** The block of a pool made of [bytes] bytes that start with the control
    structure. *)
Definition pool_block (bytes : Z) : Z := (bytes - sizeof_control - tlsf_pool_overhead) / 8 * 8.

Lemma tlsf_create_with_pool_spec mem bytes m :
  0 < mem → mem `mod` 8 = 0 → mem + bytes + 16 < 2 ^ 64 →
  block_size_min ≤ pool_block bytes < block_size_max →
  let b0 := mem + sizeof_control - 8 in
  ∃ m', tlsf_create_with_pool mem bytes m = Ok (mem, m') ∧
    heap mem b0 (b0 + 8 + pool_block bytes) m' [(pool_block bytes, true)] ∅.
Proof.
  intros Hm Hm8 Hmb Hpb b0. assert (sizeof_control = 6536) as Esz by done. assert (tlsf_pool_overhead = 16) as Eov by done.
  change block_size_min with 24 in *. change block_size_max with (2 ^ 32) in *.
  assert (Hpb' : pool_block bytes ≤ bytes - 6552 < pool_block bytes + 8 ∧ pool_block bytes `mod` 8 = 0).
  { unfold pool_block. rewrite Esz, Eov. zdiv. }
  assert (Hlo : layout_ok mem b0 (b0 + 8 + pool_block bytes)).
  { unfold b0. split; rewrite ?Esz; [lia|split; [lia|zdiv]|change block_size_max with (2 ^ 32); zdiv|lia]. }
  unfold tlsf_create_with_pool, tlsf_create. rewrite (rem_8_aligned mem) by lia. cbn [negb].
  destruct (control_construct_spec mem (lo_ctl _ _ _ Hlo) m) as (m1 & E1 & HL & _). erewrite bind_ok; [|mstep with E1; reflexivity].
  destruct (pool_spec mem b0 (pool_block bytes) Hlo ltac:(change block_size_max with (2 ^ 32); lia)
    (mret (mem + 6536) : M memory Z) m1 HL) as (m2 & E2 & Hh).
  exists m2. split; [|done]. erewrite bind_ok; [reflexivity|]. unfold tlsf_add_pool, tlsf_size. rewrite Eov, Esz.
  rewrite !(u64_small (mem + _)), !(u64_small (bytes - 6536)), (u64_small (_ - 16)) by lia.
  erewrite bind_ok; [|apply align_down_8; lia].
  assert ((bytes - 6536 - 16) / 8 * 8 = pool_block bytes) as -> by (unfold pool_block; by rewrite Esz, Eov).
  rewrite rem_8_aligned by zdiv. cbn [negb]. change block_size_min with 24. change block_size_max with (2 ^ 32).
  rewrite (proj2 (Z.ltb_ge _ 24)), (proj2 (Z.ltb_ge (2 ^ 32) _)) by lia. cbn [orb].
  assert (offset_to_block (mem + 6536) (- block_header_overhead) = b0) as ->.
  { unfold offset_to_block, b0. change (- block_header_overhead) with (-8). rewrite Esz, u64_small by lia. lia. }
  exact E2.
Qed.
