(* ===== verification/TlsfSpec.v ===== *)
(** * What the kernel heap promises

    The abstract allocator: a set of allocations that do not overlap and the
    bytes the callers keep in them.  [tlsf_malloc], [tlsf_free] and the callers'
    own accesses to their memory refine it. *)
From Stdlib Require Import ZArith Lia.
From stdpp Require Import base option gmap list.
From S2P Require Import Prelude Memory Tlsf TlsfProof TlsfLists TlsfPhys TlsfHeap TlsfInit.

(** ** Accesses of the callers *)

Lemma seg_used_frame m m' b pf l :
  sizes l → seg m b pf l → (∀ a, b + 8 ≤ a < end_of b l + 8 → unused b l a → load8 m' a = load8 m a) → seg m' b pf l.
Proof.
  intros Hl. revert b pf. induction Hl as [|[s f] l [H1 H2] Hl IH]; intros b pf H Hf; [done|]. cbn [fst] in *.
  cbn [seg end_of] in *. destruct H as (Hw & Hp & Hr). destruct (end_of_ge (b + 8 + s) l Hl) as [Hge _].
  assert (Hword : ∀ a, (a = b + 8 ∨ (f = true ∧ a = b + 8 + s)) → load64 m' a = load64 m a).
  { intros a Ha. apply load_ext. intros c Hc. apply Hf; [lia|]. intros y t [[= -> -> <-]|Hin]%elem_of_cons Hy.
    - destruct Ha as [?|[? _]]; [lia|done].
    - apply ents_bounds in Hin; [lia|done]. }
  splits; [by rewrite Hword by tauto|intros Ef; rewrite Hword by tauto; by apply Hp|].
  apply IH; [done|]. intros a Ha Hu. apply Hf; [lia|]. intros y t [[= -> -> <-]|Hin]%elem_of_cons Hy; [lia|by eapply Hu].
Qed.

Section heap.
Context (ctl b0 e : Z).

(** The bytes of the allocations can be written freely. *)
Lemma heap_write m m' bs A : heap ctl b0 e m bs A → (∀ a, unowned A a → load8 m' a = load8 m a) → heap ctl b0 e m' bs A.
Proof.
  intros [Hlo (F & L & H & Hall) Hco Hu] Hf. split; [done| |done|done]. exists F, L. split; [|done].
  assert (Hf' : ∀ a, unused b0 bs a → load8 m' a = load8 m a).
  { intros a Ha. apply Hf. apply (unused_unowned b0 bs); [|done]. intros. by apply Hu. }
  pose proof (state_fp_unused ctl b0 e Hlo m F L bs) as Hfp. pose proof H as [HL [Hc He] Hs Hend Hsub].
  split; [|split|done|done|done].
  - apply (lists_frame ctl (lo_ctl _ _ _ Hlo) m); [done|]. intros a Ha. by apply Hf', Hfp.
  - eapply seg_used_frame; [done|done|]. intros. by apply Hf'.
  - rewrite <-He. apply load_ext. intros c Hc'. apply Hf'. intros y t Hy. apply ents_bounds in Hy; [lia|done].
Qed.

(** ** The abstract allocator *)

Definition owned (A : gmap Z Z) (a : Z) : Prop := ∃ p n, A !! p = Some n ∧ p ≤ a < p + n.
(** The memory of a new allocation: aligned, large enough, and apart from all
    others. *)
Definition fresh (A : gmap Z Z) (size p n : Z) : Prop :=
  p ≠ 0 ∧ p `mod` ALIGN_SIZE = 0 ∧ size ≤ n ∧ A !! p = None ∧ ∀ q t, A !! q = Some t → p + n ≤ q ∨ q + t ≤ p.

Inductive event : Type :=
| EMalloc (size p : Z)
| EFree (p : Z)
| EWrite (a v : Z)
| ERead (a v : Z).

(** Allocations and the contents of their bytes. *)
Definition astate : Type := gmap Z Z * (Z → Z).

Inductive astep : astate → event → astate → Prop :=
| AMalloc_none A C size : astep (A, C) (EMalloc size 0) (A, C)
| AMalloc A C C' size p n : fresh A size p n → (∀ a, owned A a → C' a = C a) → astep (A, C) (EMalloc size p) (<[p := n]> A, C')
| AFree_null A C : astep (A, C) (EFree 0) (A, C)
| AFree A C p n : A !! p = Some n → astep (A, C) (EFree p) (delete p A, C)
| AWrite A C C' a v : owned A a → C' a = u8 v → (∀ b, owned A b → b ≠ a → C' b = C b) → astep (A, C) (EWrite a v) (A, C')
| ARead A C a : owned A a → astep (A, C) (ERead a (C a)) (A, C).

(** The same events on the memory. *)
Inductive cstep : memory → event → memory → Prop :=
| CMalloc m m' size p : tlsf_malloc ctl size m = Ok (p, m') → cstep m (EMalloc size p) m'
| CFree m m' p : tlsf_free ctl p m = Ok (tt, m') → cstep m (EFree p) m'
| CWrite m a v : cstep m (EWrite a v) (store8 m a v)
| CRead m a : cstep m (ERead a (load8 m a)) m.

(** What callers may do: free what they own, and access their own memory. *)
Definition client_ok (A : gmap Z Z) (ev : event) : Prop :=
  match ev with
  | EMalloc size _ => 0 ≤ size ≤ 2 ^ 64 - 8
  | EFree p => p = 0 ∨ is_Some (A !! p)
  | EWrite a _ | ERead a _ => owned A a
  end.

Definition represents (m : memory) (st : astate) : Prop :=
  (∃ bs, heap ctl b0 e m bs st.1) ∧ ∀ a, owned st.1 a → load8 m a = st.2 a.

Lemma not_unowned A a : owned A a → ¬ unowned A a.
Proof. intros (p & n & Hp & Ha) Hu. by apply (Hu p n). Qed.
Lemma only_owned A m m' a : only (unowned A) m m' → owned A a → load8 m' a = load8 m a.
Proof. intros Ho Ha. apply Ho. by apply not_unowned. Qed.
Lemma owned_delete A p a : owned (delete p A) a → owned A a.
Proof. intros (q & n & [_ Hq]%lookup_delete_Some & Ha). by exists q, n. Qed.

Lemma heap_fresh m bs A size p n :
  heap ctl b0 e m bs (<[p := n]> A) → A !! p = None → size ≤ n → fresh A size p n ∧ b0 + 16 ≤ p ∧ p + n ≤ e + 8.
Proof.
  intros H Hf Hn. destruct (heap_apart _ _ _ _ _ _ p n H) as (P1 & P2 & P3 & P4 & P5); [apply lookup_insert_eq|].
  pose proof (lo_base _ _ _ (hp_layout _ _ _ _ _ _ H)). unfold fresh. splits; [lia|done|done|done| |done|done].
  intros q t Hq. assert (q ≠ p) by congruence. apply P5; [by rewrite lookup_insert_ne|done].
Qed.

Lemma heap_step m ev m' st :
  represents m st → cstep m ev m' → client_ok st.1 ev → ∃ st', astep st ev st' ∧ represents m' st'.
Proof.
  destruct st as [A C]. intros [[bs H] HC] Hs Hok. cbn [fst snd] in *. destruct Hs as [m m' size p E|m m' p E|m a v|m a]; cbn [client_ok] in Hok.
  - destruct (tlsf_malloc_spec ctl b0 e m bs A size H Hok) as (p' & m1 & E' & Hr). rewrite E in E'. injection E' as <- <-.
    destruct Hr as [(-> & -> & _)|(n & bs' & Hn & Hf & H' & Ho)]; [exists (A, C); split; [constructor|by split; [exists bs|]]|].
    exists (<[p := n]> A, load8 m'). split; [constructor|split; [by exists bs'|done]].
    + by apply (heap_fresh m' bs').
    + intros a Ha. rewrite <-HC by done. by eapply only_owned.
  - destruct (decide (p = 0)) as [->|Hp].
    { injection E as <-. exists (A, C). split; [constructor|by split; [exists bs|]]. }
    destruct Hok as [?|[n Hn]]; [done|]. destruct (tlsf_free_spec ctl b0 e m bs A p n H Hn) as (m1 & bs' & E' & H' & Ho).
    rewrite E in E'. injection E' as <-. exists (delete p A, C). split; [by econstructor|]. split; [by exists bs'|]. cbn [fst snd].
    intros a Ha. rewrite (only_owned _ _ _ _ Ho Ha). apply HC. by eapply owned_delete.
  - exists (A, load8 (store8 m a v)). split; [constructor; [done|apply load8_store8_eq|]|split; [|done]].
    + intros b Hb Hne. rewrite load8_store8_ne by done. by apply HC.
    + exists bs. eapply heap_write; [exact H|]. intros b Hb. apply load8_store8_ne. intros <-. by apply (not_unowned _ _ Hok).
  - exists (A, C). rewrite (HC a Hok). split; [by constructor|by split; [exists bs|]].
Qed.

(** ** Runs *)

Inductive crun : memory → list event → memory → Prop :=
| crun_nil m : crun m [] m
| crun_cons m1 m2 m3 ev evs : cstep m1 ev m2 → crun m2 evs m3 → crun m1 (ev :: evs) m3.
Inductive arun : astate → list event → astate → Prop :=
| arun_nil st : arun st [] st
| arun_cons s1 s2 s3 ev evs : astep s1 ev s2 → arun s2 evs s3 → arun s1 (ev :: evs) s3.

(** The callers keep to their memory whatever the abstract allocator does. *)
Fixpoint clients_ok (st : astate) (evs : list event) : Prop :=
  match evs with
  | [] => True
  | ev :: evs => client_ok st.1 ev ∧ ∀ st', astep st ev st' → clients_ok st' evs
  end.

Lemma heap_run m evs m' : crun m evs m' → ∀ st, represents m st → clients_ok st evs → ∃ st', arun st evs st' ∧ represents m' st'.
Proof.
  induction 1 as [m|m1 m2 m3 ev evs Hs _ IH]; intros st HR Hok; [exists st; split; [constructor|done]|]. destruct Hok as [Hok Hoks].
  destruct (heap_step m1 ev m2 st HR Hs Hok) as (st2 & Ha & HR2). destruct (IH st2 HR2 (Hoks st2 Ha)) as (st3 & Ha3 & HR3).
  exists st3. split; [by econstructor|done].
Qed.
End heap.

(** ** Concrete heaps *)

(** The memory and the pointer that a computation ends with. *)
Definition final {A} (r : outcome (A * memory)) : memory := match r with Ok (_, m) => m | _ => ∅ end.
Definition result (r : outcome (Z * memory)) : Z := match r with Ok (p, _) => p | _ => 0 end.

Lemma final_ok (r : outcome (Z * memory)) p m : r = Ok (p, m) → final r = m ∧ result r = p.
Proof. by intros ->. Qed.

(** A new heap of 64 KiB at 64 KiB. *)
Definition new_heap : memory := final (tlsf_create_with_pool 0x10000 0x10000 ∅).
Abbreviation sample_base := (0x10000 + sizeof_control - 8).
Abbreviation sample_end := (sample_base + 8 + pool_block 0x10000).

Lemma new_heap_ok : heap 0x10000 sample_base sample_end new_heap [(pool_block 0x10000, true)] ∅.
Proof.
  destruct (tlsf_create_with_pool_spec 0x10000 0x10000 ∅) as (m & E & H); [done|done|done|by vm_compute|].
  apply final_ok in E as [E _]. assert (new_heap = m) as -> by exact E. exact H.
Qed.

(** The heap after a first allocation of 100 bytes. *)
Definition heap_100 : memory := final (tlsf_malloc 0x10000 100 new_heap).
Definition ptr_100 : Z := result (tlsf_malloc 0x10000 100 new_heap).

Lemma ptr_100_nonzero : ptr_100 ≠ 0.
Proof. vm_compute. discriminate. Qed.

Lemma heap_100_eq p m : tlsf_malloc 0x10000 100 new_heap = Ok (p, m) → heap_100 = m ∧ ptr_100 = p.
Proof. apply final_ok. Qed.

Lemma heap_100_ok : ∃ n bs, heap 0x10000 sample_base sample_end heap_100 bs {[ptr_100 := n]}.
Proof.
  destruct (tlsf_malloc_spec _ _ _ new_heap _ ∅ 100 new_heap_ok ltac:(lia)) as (p & m & E & Hr).
  pose proof ptr_100_nonzero as Hp. apply heap_100_eq in E as [-> E]. rewrite E in Hp |- *.
  destruct Hr as [[H0 _]|(n & bs & _ & _ & H & _)]; [destruct (Hp H0)|]. exists n, bs. exact H.
Qed.

(** ** The theorems *)

(** C4: On a well-formed heap [tlsf_malloc] of at most 2^64 - 8 bytes (the sizes above wrap around, see [tlsf_malloc_wraps])
    returns (no assertion fails, no access is out of bounds) and either returns
    a pointer to at least [size] bytes that are aligned, inside the pool and apart from every other allocation, keeps
    the invariant and changes no byte of another allocation; or it returns 0 and changes nothing, and then the request
    is empty or too large or every free block is smaller than 33/32 of the rounded request. *)
Theorem tlsf_malloc_correct ctl b0 e m bs A size :
  heap ctl b0 e m bs A → 0 ≤ size ≤ 2 ^ 64 - 8 →
  ∃ p m', tlsf_malloc ctl size m = Ok (p, m') ∧
    ((p = 0 ∧ m' = m ∧ (request size = 0 ∨ ∀ s, (s, true) ∈ bs → 32 * s < 33 * request size)) ∨
     ∃ n bs', fresh A size p n ∧ b0 + 16 ≤ p ∧ p + n ≤ e + 8 ∧ heap ctl b0 e m' bs' (<[p := n]> A) ∧
       ∀ a, owned A a → load8 m' a = load8 m a).
Proof.
  intros H Hz. destruct (tlsf_malloc_spec ctl b0 e m bs A size H Hz) as (p & m' & E & [Hr|(n & bs' & Hn & Hf & H' & Ho)]); [by eauto 10|].
  exists p, m'. split; [done|]. right. exists n, bs'.
  destruct (heap_fresh ctl b0 e m' bs' A size p n H' Hf Hn) as (? & ? & ?). splits; [done|done|done|done|].
  intros a Ha. by eapply only_owned.
Qed.

Lemma tlsf_malloc_correct_witness :
  ∃ p m', tlsf_malloc 0x10000 100 new_heap = Ok (p, m') ∧
    ((p = 0 ∧ m' = new_heap ∧ (request 100 = 0 ∨ ∀ s, (s, true) ∈ [(pool_block 0x10000, true)] → 32 * s < 33 * request 100)) ∨
     ∃ n bs', fresh ∅ 100 p n ∧ sample_base + 16 ≤ p ∧ p + n ≤ sample_end + 8 ∧
       heap 0x10000 sample_base sample_end m' bs' (<[p := n]> ∅) ∧ ∀ a, owned ∅ a → load8 m' a = load8 new_heap a).
Proof. apply (tlsf_malloc_correct _ _ _ new_heap _ ∅ 100 new_heap_ok). lia. Defined.

(** C5: On a well-formed heap [tlsf_free] of an allocation returns, the allocation is gone, the invariant is kept (the
    block has been merged with its free neighbours: no two free blocks are adjacent) and no byte of another allocation
    has changed. *)
Theorem tlsf_free_correct ctl b0 e m bs A p n :
  heap ctl b0 e m bs A → A !! p = Some n →
  ∃ m' bs', tlsf_free ctl p m = Ok (tt, m') ∧ heap ctl b0 e m' bs' (delete p A) ∧
    ∀ a, owned (delete p A) a → load8 m' a = load8 m a.
Proof.
  intros H Hp. destruct (tlsf_free_spec ctl b0 e m bs A p n H Hp) as (m' & bs' & E & H' & Ho). exists m', bs'.
  splits; [done|done|]. intros a Ha. by eapply only_owned.
Qed.

Lemma tlsf_free_correct_witness :
  ∃ m' bs', tlsf_free 0x10000 ptr_100 heap_100 = Ok (tt, m') ∧
    heap 0x10000 sample_base sample_end m' bs' ∅ .
Proof.
  destruct heap_100_ok as (n & bs & H).
  destruct (tlsf_free_correct _ _ _ heap_100 bs {[ptr_100 := n]} ptr_100 n H (lookup_singleton_eq ptr_100 n)) as (m' & bs' & E & H' & _).
  rewrite delete_singleton_eq in H'. exists m', bs'. split; [exact E|exact H'].
Defined.

(** C6: The heap refines the abstract allocator: in any run of allocations, releases, reads and writes in which callers
    release only what they own and access only memory they own, every event is one the abstract allocator allows -
    new memory is apart from all other allocations, and a read gives what was last written there. *)
Theorem heap_refines_allocator ctl b0 e m bs evs m' :
  heap ctl b0 e m bs ∅ → crun ctl m evs m' → clients_ok (∅, load8 m) evs →
  ∃ st', arun (∅, load8 m) evs st' ∧ represents ctl b0 e m' st'.
Proof. intros H Hr Hok. eapply heap_run; [done| |done]. split; [by exists bs|done]. Qed.

Lemma heap_refines_allocator_witness :
  ∃ st', arun (∅, load8 new_heap) [EMalloc 100 ptr_100; EFree 0] st' ∧ represents 0x10000 sample_base sample_end heap_100 st'.
Proof.
  apply (heap_refines_allocator _ _ _ new_heap _ [EMalloc 100 ptr_100; EFree 0] heap_100 new_heap_ok).
  - eapply crun_cons; [|eapply crun_cons; [apply CFree; reflexivity|apply crun_nil]]. apply CMalloc.
    destruct (tlsf_malloc_spec _ _ _ new_heap _ ∅ 100 new_heap_ok ltac:(lia)) as (p & m & E & _).
    destruct (heap_100_eq p m E) as [-> ->]. exact E.
  - cbn. split; [lia|]. intros st' _. split; [by left|done].
Defined.

(** When every allocation has been released the heap is one free block again: nothing is lost to fragmentation. *)
Theorem heap_all_free ctl b0 e m bs :
  heap ctl b0 e m bs ∅ → b0 < e → bs = [(e - b0 - 8, true)].
Proof.
  intros [_ (F & L & [_ _ Hs He _] & _) Hco Hu] Hlt.
  assert (Hfree : ∀ s f, (s, f) ∈ bs → f = true).
  { intros s f (x & Hx)%(ents_of_block b0). destruct f; [done|]. replace x with (x + 16 - 16) in Hx by lia. by apply Hu in Hx. }
  destruct bs as [|[s f] [|[s2 f2] bs]]; cbn in *; [lia| |].
  - rewrite (Hfree s f) by left. f_equal. f_equal. lia.
  - rewrite (Hfree s f), (Hfree s2 f2) in Hco by (left || (right; left)). by destruct Hco as (_ & [] & _).
Qed.

Lemma heap_all_free_witness : [(pool_block 0x10000, true)] = [(sample_end - sample_base - 8, true)].
Proof. apply (heap_all_free 0x10000 sample_base sample_end new_heap); [exact new_heap_ok|by vm_compute]. Defined.

(** [tlsf_create_with_pool] on aligned memory that is large enough establishes the invariant, with the whole pool as
    one free block and no allocation. *)
Theorem tlsf_create_with_pool_correct mem bytes m :
  0 < mem → mem `mod` 8 = 0 → mem + bytes + 16 < 2 ^ 64 →
  block_size_min ≤ pool_block bytes < block_size_max →
  let b0 := mem + sizeof_control - 8 in
  ∃ m', tlsf_create_with_pool mem bytes m = Ok (mem, m') ∧
    heap mem b0 (b0 + 8 + pool_block bytes) m' [(pool_block bytes, true)] ∅.
Proof. apply tlsf_create_with_pool_spec. Qed.

Lemma tlsf_create_with_pool_correct_witness :
  ∃ m', tlsf_create_with_pool 0x10000 0x10000 ∅ = Ok (0x10000, m') ∧
    heap 0x10000 sample_base sample_end m' [(pool_block 0x10000, true)] ∅.
Proof. apply (tlsf_create_with_pool_correct 0x10000 0x10000 ∅); [done|done|done|by vm_compute]. Defined.

(** A request within 7 bytes of the end of the address space wraps when it is rounded up: [tlsf_malloc] of 2^64 - 1
    bytes returns a block of 24 bytes. *)
Theorem tlsf_malloc_wraps :
  match (p ← tlsf_malloc 0x10000 (2 ^ 64 - 1); n ← tlsf_block_size p; mret (p =? 0, n)) new_heap with
  | Ok (r, _) => r = (false, 24)
  | _ => False
  end.
Proof. vm_compute. reflexivity. Qed.
