(* ===== verification/TlsfRealloc.v ===== *)
(** * Resizing allocations

    [tlsf_realloc]: an allocation shrinks in place, grows into a free neighbour,
    or moves; its contents are kept up to the smaller of the two sizes.  A
    request that is too large for the heap, however, cuts the block to nothing. *)
From Stdlib Require Import ZArith Lia.
From stdpp Require Import base option gmap list.
From S2P Require Import Prelude Memory Tlsf TlsfProof TlsfLists TlsfPhys TlsfHeap TlsfInit TlsfSpec.

Section heap.
Context (ctl b0 e : Z) (Hlo : layout_ok ctl b0 e).

Lemma used_not_listed m F L pre s post : state ctl b0 e m F L (pre ++ (s, false) :: post) → F !! end_of b0 pre = None.
Proof.
  intros H. destruct (F !! end_of b0 pre) as [t|] eqn:E; [|done]. apply (st_sub _ _ _ _ _ _ _ H) in E.
  by destruct (ents_at _ _ _ _ _ _ _ (st_sizes _ _ _ _ _ _ _ H) E).
Qed.

(** [block_split] of a used block, with the call after it in [block_trim_used]. *)
Lemma state_split_used m F L pre s size post :
  let x := end_of b0 pre in
  let r := x + 8 + size in
  state ctl b0 e m F L (pre ++ (s, false) :: post) → 24 ≤ size → size `mod` 8 = 0 → 32 + size ≤ s →
  ∃ m1 m', block_split x size m = Ok (r, m1) ∧ block_set_prev_used r m1 = Ok (tt, m') ∧
    state ctl b0 e m' F L (pre ++ (size, false) :: (s - size - 8, true) :: post) ∧
    only (λ a, x + 8 ≤ a < x + 16 ∨ x + 16 + size ≤ a < x + 8 + s + 16) m m'.
Proof.
  intros x r H Hz1 Hz2 Hz3. pose proof (used_not_listed _ _ _ _ _ _ H) as Hx. fold x in Hx.
  destruct (state_block _ _ _ Hlo _ _ _ _ _ _ _ H) as (Hw & Hw2 & _ & Hb & Hal & Hs1 & Hs2 & Hle & Hm & Hr).
  fold x in Hw, Hw2, Hb, Hal, Hle. pose proof (lo_base _ _ _ Hlo). pose proof (lo_end _ _ _ Hlo). set (pf := last_flag false pre) in *.
  destruct (block_split_ok m x s false pf size _ _ _ Hw Hw2 Hm) as (g1 & g2 & E1); [lia|done|done|done|done|lia|]. fold r in E1.
  set (rs := s - size - 8) in *. assert (Hrs : rs `mod` 8 = 0 ∧ 24 ≤ rs) by (unfold rs; zdiv).
  assert (Er : r + 8 + rs = x + 8 + s) by (unfold r, rs; lia).
  match type of E1 with _ = Ok (_, ?m1) => set (M1 := m1) in * end.
  assert (Hr1 : load64 M1 (r + 8) = hdr rs true g2) by (apply header_store_eq; lia).
  exists M1. eexists. split; [done|]. split; [apply (block_set_prev_used_ok _ r rs true g2 Hr1 (proj1 Hrs))|].
  assert (Ho : only (λ a, x + 8 ≤ a < x + 16 ∨ x + 16 + size ≤ a < x + 8 + s + 16) m (store64 M1 (r + 8) (hdr rs true false))).
  { unfold M1. repeat (eapply only_trans; [|apply only_store64]); [apply only_refl|..]; intros a Ha; unfold r in *; lia. }
  split; [|done]. change ((size, false) :: (rs, true) :: post) with ([(size, false); (rs, true)] ++ post).
  apply (state_step ctl b0 e Hlo m _ F L pre [(s, false)]); [done|..]; cbn [end_of seg last_flag]; fold x r pf.
  - intros y t Hy. by apply (state_not_in _ _ _ _ _ _ _ _ _ _ _ _ H Hx Hy).
  - eapply only_weaken; [|exact Ho]. intros a Ha. cbv beta in Ha. unfold r in *. lia.
  - apply sizes_cons. split; [lia|]. apply sizes_1; lia.
  - done.
  - rewrite header_store_ne by lia. rewrite Er. splits; [|done|apply header_store_eq; lia| |done].
    + unfold M1. rewrite !load64_store64_ne by lia. apply header_store_eq; lia.
    + intros _. unfold M1. rewrite !load64_store64_ne, load64_store64_eq by lia. apply u64_small. lia.
  - unfold M1. rewrite !load64_store64_ne by lia. apply header_store_eq; lia.
Qed.

(** Replacing the size of a used block. *)
Lemma used_resize pre s s' rest post (A : gmap Z Z) :
  let x := end_of b0 pre in
  sizes (pre ++ (s, false) :: post) → sizes (pre ++ (s', false) :: rest) →
  (∀ y t, (y, t, false) ∈ ents (x + 8 + s') rest ↔ (y, t, false) ∈ ents (x + 8 + s) post) →
  (∀ p t, A !! p = Some t ↔ (p - 16, t, false) ∈ ents b0 (pre ++ (s, false) :: post)) →
  ∀ p t, <[x + 16 := s']> A !! p = Some t ↔ (p - 16, t, false) ∈ ents b0 (pre ++ (s', false) :: rest).
Proof.
  intros x Hs Hs' Hr Hu p t. destruct (decide (p = x + 16)) as [->|Hne].
  - rewrite lookup_insert_eq. replace (x + 16 - 16) with x by lia. split; [intros [= <-]; apply ents_mid; tauto|].
    intros Hi. by destruct (ents_at _ _ _ _ _ _ _ Hs' Hi) as [-> _].
  - rewrite lookup_insert_ne by done. rewrite Hu, !ents_mid. fold x. rewrite Hr. split; (intros [?|[[= ? ?]|?]]; [tauto|lia|tauto]).
Qed.

Lemma only_unused_unowned m m' bs (A : gmap Z Z) :
  (∀ p t, A !! p = Some t ↔ (p - 16, t, false) ∈ ents b0 bs) → only (unused b0 bs) m m' → only (unowned A) m m'.
Proof. intros Hu. apply only_weaken. intros a. apply unused_unowned. intros q t. apply Hu. Qed.

Lemma block_trim_used_ok m pre s size post A :
  let x := end_of b0 pre in
  heap ctl b0 e m (pre ++ (s, false) :: post) A → 24 ≤ size ≤ s → size `mod` 8 = 0 →
  ∃ m' bs' s', block_trim_used ctl x size m = Ok (tt, m') ∧ size ≤ s' ≤ s ∧ heap ctl b0 e m' bs' (<[x + 16 := s']> A) ∧
    only (unowned (<[x + 16 := s']> A)) m m'.
Proof.
  intros x HH Hz Hz8. pose proof HH as [_ (F & L & H & Hall) Hco Hu].
  destruct (state_block _ _ _ Hlo _ _ _ _ _ _ _ H) as (Hw & _ & _ & Hb & _ & Hs & Hs8 & Hle & _). fold x in Hw, Hb, Hle.
  pose proof (lo_base _ _ _ Hlo). pose proof (lo_end _ _ _ Hlo).
  unfold block_trim_used. mstep with (block_is_free_ok m x s _ _ Hw Hs8). cbn [negb tlsf_assert]. mstep.
  unfold block_can_split. erewrite bind_ok; [|mstep with (block_size_ok m x s _ _ Hw Hs8); reflexivity].
  change sizeof_block_header with 32. rewrite u64_small by lia. destruct (Z.leb_spec (32 + size) s) as [Hsp|Hsp].
  - destruct (state_split_used m F L pre s size post H ltac:(lia) Hz8 Hsp) as (m1 & m2 & E1 & E2 & H2 & O2). fold x in E1, E2, O2.
    mstep with E1. mstep with E2. set (rs := s - size - 8) in *. set (r := x + 8 + size) in *.
    assert (Er : end_of b0 (pre ++ [(size, false)]) = r) by (by rewrite end_of_app).
    assert (Hux : ∀ p t, <[x + 16 := size]> A !! p = Some t ↔ (p - 16, t, false) ∈ ents b0 (pre ++ (size, false) :: (rs, true) :: post)).
    { apply (used_resize pre s _ _ post); [apply (st_sizes _ _ _ _ _ _ _ H)|apply (st_sizes _ _ _ _ _ _ _ H2)| |done].
      intros y t. fold x r. cbn [ents]. rewrite elem_of_cons. replace (r + 8 + rs) with (x + 8 + s) by (unfold r, rs; lia). naive_solver. }
    assert (O2' : only (unowned (<[x + 16 := size]> A)) m m2).
    { apply (only_unused_unowned _ _ _ _ Hux). eapply only_weaken; [|exact O2]. intros a Ha. cbv beta in Ha.
      intros y t Hy Hin. destruct (ents_around _ _ _ _ _ _ _ _ (st_sizes _ _ _ _ _ _ _ H2) Hy) as [[Hr _]|[(Hr & -> & _)|[Hr Hy']]]; fold x in Hr; [lia|lia|].
      cbn [ents] in Hy'. rewrite elem_of_cons in Hy'. destruct Hy' as [[=]|Hy'].
      pose proof (st_sizes _ _ _ _ _ _ _ H) as [_ [_ Hsp']%sizes_cons]%sizes_app. apply ents_bounds in Hy'; [|done]. unfold rs in Hy'. lia. }
    assert (Eapp : pre ++ (size, false) :: (rs, true) :: post = (pre ++ [(size, false)]) ++ (rs, true) :: post) by (by rewrite <-app_assoc).
    rewrite Eapp in H2, Hux.
    assert (HP : pending ctl b0 e m2 F L (pre ++ [(size, false)]) rs post).
    { assert (HFr : ∀ y t, F !! y = Some t → y ≠ r).
      { intros y t Hy ->. pose proof (state_not_in _ _ _ _ _ _ _ _ _ _ _ _ H (used_not_listed _ _ _ _ _ _ H) Hy) as Hn. fold x in Hn. unfold r in *. lia. }
      split; [done|rewrite Er; destruct (F !! r) as [t|] eqn:Hr; [by destruct (HFr r t Hr)|done]|]. rewrite Er. intros y t Hy Hyr.
      apply Hall. rewrite <-Eapp in Hy. rewrite ents_mid in Hy |- *. cbn [ents] in Hy. rewrite elem_of_cons in Hy. fold x r in Hy |- *.
      replace (r + 8 + rs) with (x + 8 + s) in Hy by (unfold r, rs; lia). naive_solver. }
    apply coalesced_app in Hco as [Hc1 [_ Hc2]].
    destruct (block_merge_next_ok ctl b0 e Hlo m2 F L _ rs post HP Hc2) as (m3 & F3 & L3 & s3 & post' & E3 & HP3 & Hc3 & Hu3 & O3).
    rewrite Er in E3. mstep with E3.
    destruct (heap_insert ctl b0 e Hlo m3 F3 L3 _ s3 post' (<[x + 16 := size]> A) HP3) as (m4 & E4 & H4 & O4).
    + rewrite coalesced_app, coalesced_app, last_flag_app. cbn. splits; [done|by intros [_ ?]|done|by intros [? _]|done].
    + intros q t. by rewrite Hux, Hu3.
    + rewrite Er in E4. eexists m4, _, size. split; [done|]. split; [lia|]. split; [exact H4|].
      eapply only_trans; [exact O2'|]. eapply only_trans; [by apply (only_unused_unowned _ _ _ _ Hux)|].
      eapply only_unused_unowned; [|exact O4]. intros q t. by rewrite Hux, Hu3.
  - exists m, (pre ++ (s, false) :: post), s. rewrite insert_id; [splits; [done|lia|lia|done|apply only_refl]|].
    apply Hu. replace (x + 16 - 16) with x by lia. apply ents_mid. tauto.
Qed.

(** [block_merge_next] and [block_mark_as_used] of a used block with a free
    neighbour. *)
Lemma grow_ok m pre s s2 post A :
  let x := end_of b0 pre in
  heap ctl b0 e m (pre ++ (s, false) :: (s2, true) :: post) A →
  ∃ m1 m', block_merge_next ctl x m = Ok (x, m1) ∧ block_mark_as_used x m1 = Ok (tt, m') ∧
    heap ctl b0 e m' (pre ++ (s + 8 + s2, false) :: post) (<[x + 16 := s + 8 + s2]> A) ∧ only (unowned A) m m'.
Proof.
  intros x [_ (F & L & H & Hall) Hco Hu]. set (n := x + 8 + s).
  destruct (state_block _ _ _ Hlo _ _ _ _ _ _ _ H) as (Hw & Hw2 & _ & Hb & Hal & Hs & Hs8 & Hle & Hn8 & _). fold x in Hw, Hw2, Hb, Hal, Hle. fold n in Hw2, Hle.
  pose proof (lo_base _ _ _ Hlo) as Hlb. pose proof (lo_end _ _ _ Hlo) as Hle0. cbn [hd_size hd_free] in *.
  assert (Hn : F !! n = Some s2) by (apply Hall; apply ents_mid; cbn [ents]; fold x n; right; right; left).
  destruct (block_remove_ok ctl b0 e Hlo m F L _ n s2 H Hn) as (m1 & L1 & E1 & H1 & O1).
  pose proof H1 as H1'. change ((s, false) :: (s2, true) :: post) with ([(s, false)] ++ (s2, true) :: post) in H1'. rewrite app_assoc in H1'.
  destruct (state_block _ _ _ Hlo _ _ _ _ _ _ _ H1) as (Hv & Hv2 & _). fold x in Hv, Hv2. cbn [hd_size hd_free] in Hv2. fold n in Hv2.
  destruct (state_block _ _ _ Hlo _ _ _ _ _ _ _ H1') as (_ & Hv3 & _ & _ & _ & Hs2 & Hs28 & Hle2 & Hm & Hr).
  rewrite end_of_app in Hv3, Hle2. cbn [end_of] in Hv3, Hle2. fold x n in Hv3, Hle2. set (pf := last_flag false pre) in *.
  set (n2 := n + 8 + s2) in *. assert (En2 : x + 8 + (s + 8 + s2) = n2) by (unfold n2, n; lia).
  assert (Hw' : u64 (hdr s false pf + (s2 + 8)) = hdr (s + 8 + s2) false pf).
  { rewrite <-(hdr_u64 (s + 8 + s2)) by zdiv. f_equal. unfold hdr. lia. }
  set (m2 := store64 (store64 m1 (x + 8) (hdr (s + 8 + s2) false pf)) n2 x).
  assert (Hx2 : load64 m2 (x + 8) = hdr (s + 8 + s2) false pf) by (unfold m2; rewrite header_store_ne by lia; apply header_store_eq; zdiv).
  assert (E2 : block_absorb x n m1 = Ok (x, m2)).
  { unfold block_absorb. mstep with (block_is_last_ok m1 x s _ _ Hv Hs8). rewrite (proj2 (Z.eqb_neq s 0)) by lia. cbn [negb tlsf_assert].
    mstep. mstep with (block_size_ok m1 _ s2 _ _ Hv2 Hs28). mstep. unfold off_size. rewrite Hv. change block_header_overhead with 8. rewrite Hw'.
    mstep. unfold off_size. erewrite bind_ok; [|apply (block_link_next_ok _ x (s + 8 + s2) false pf); [apply header_store_eq; zdiv|zdiv|lia]].
    rewrite En2. done. }
  assert (E3 : block_mark_as_used x m2 = Ok (tt, store64 (store64 m2 (n2 + 8) (hdr (hd_size post) (hd_free post) false)) (x + 8) (hdr (s + 8 + s2) false pf))).
  { rewrite <-En2. apply (block_mark_as_used_ok m2 x (s + 8 + s2) false pf (hd_size post) (hd_free post) true); [done| |zdiv|done|lia].
    rewrite En2. unfold m2. rewrite !load64_store64_ne by lia. exact Hv3. }
  set (m3 := store64 (store64 m2 _ _) (x + 8) _) in E3. exists m2, m3. split; [|split; [done|]].
  { unfold block_merge_next. mstep with (block_next_ok m x s _ _ Hw Hs8 ltac:(lia)). fold n. rewrite (proj2 (Z.eqb_neq n 0)) by lia.
    cbn [negb tlsf_assert]. mstep. mstep with (block_is_free_ok m _ _ _ _ Hw2 Hn8). mstep with (block_is_last_ok m x s _ _ Hw Hs8).
    rewrite (proj2 (Z.eqb_neq s 0)) by lia. cbn [negb tlsf_assert]. mstep. mstep with E1. exact E2. }
  assert (Hstep : only (λ a, x + 8 ≤ a < x + 16 ∨ n2 ≤ a < n2 + 16) m1 m3).
  { unfold m3, m2. repeat (eapply only_trans; [|apply only_store64]); [apply only_refl|..]; intros a Ha; lia. }
  assert (Hx : delete n F !! x = None).
  { rewrite lookup_delete_ne by lia. by apply (used_not_listed m _ L _ s ((s2, true) :: post)). }
  assert (H3 : state ctl b0 e m3 (delete n F) L1 (pre ++ [(s + 8 + s2, false)] ++ post)).
  { apply (state_step ctl b0 e Hlo m1 _ _ _ pre [(s, false); (s2, true)]); [done|..]; cbn [end_of seg last_flag]; fold x n n2 pf.
    - intros y t Hyt. pose proof (state_not_in _ _ _ _ _ _ _ _ _ _ _ _ H1 Hx Hyt) as P. fold x in P.
      pose proof (state_not_in _ _ _ _ _ _ _ _ _ _ y t H1') as Q. rewrite end_of_app in Q. cbn [end_of] in Q. fold x n n2 in Q.
      specialize (Q (lookup_delete_eq F n) Hyt). lia.
    - eapply only_weaken; [|exact Hstep]. intros a Ha. cbv beta in Ha. lia.
    - apply sizes_1; [lia|zdiv].
    - lia.
    - splits; [apply header_store_eq; zdiv|done|done].
    - unfold m3. rewrite load64_store64_ne by lia. by apply header_store_eq. }
  cbn [app] in H3. split.
  - split; [done|exists (delete n F), L1; split; [done|]|..].
    + intros y t Hy. assert (y ≠ n) as Hyn.
      { intros ->. pose proof (ents_bounds _ _ _ _ _ (st_sizes _ _ _ _ _ _ _ H3) Hy).
        destruct (ents_around _ _ _ _ _ _ _ _ (st_sizes _ _ _ _ _ _ _ H3) Hy) as [[Hr' _]|[(_ & _ & [=])|[Hr' _]]]; fold x in Hr'; lia. }
      rewrite lookup_delete_ne by done. apply Hall. rewrite ents_mid in Hy |- *. cbn [ents]. rewrite elem_of_cons. fold x n in Hy |- *.
      rewrite En2 in Hy. fold n2. naive_solver.
    + rewrite coalesced_app in Hco |- *. cbn in Hco |- *. destruct Hco as (C1 & _ & _ & C2). split; [done|].
      split; [by intros [_ ?]|by eapply coalesced_weaken].
    + apply (used_resize pre s _ _ ((s2, true) :: post)); [apply (st_sizes _ _ _ _ _ _ _ H)|apply (st_sizes _ _ _ _ _ _ _ H3)| |done].
      intros y t. fold x n. cbn [ents]. rewrite En2, elem_of_cons. fold n2. naive_solver.
  - eapply only_trans; [by eapply only_unused_unowned|]. eapply only_unused_unowned; [exact Hu|]. eapply only_weaken; [|exact Hstep].
    intros a Ha y t Hy Hin. cbv beta in Ha. pose proof (ents_bounds _ _ _ _ _ (st_sizes _ _ _ _ _ _ _ H) Hy).
    destruct (ents_around _ _ _ _ _ _ _ _ (st_sizes _ _ _ _ _ _ _ H) Hy) as [[Hr' _]|[(Hr' & -> & _)|[Hr' Hy']]]; fold x in Hr'; [lia|lia|].
    cbn [ents] in Hy'. rewrite elem_of_cons in Hy'. fold x n in Hy'. destruct Hy' as [[=]|Hy'].
    pose proof (st_sizes _ _ _ _ _ _ _ H) as [_ [_ [_ Hsp]%sizes_cons]%sizes_cons]%sizes_app. apply ents_bounds in Hy'; [|done]. fold n2 in Hy'. lia.
Qed.
End heap.

Section realloc.
Context (ctl b0 e : Z).

(** What a successful [tlsf_realloc] of [p] leaves behind. *)
Definition resized (m : memory) (A : gmap Z Z) (p n size q : Z) (m' : memory) : Prop :=
  ∃ n' bs', fresh (delete p A) size q n' ∧ heap ctl b0 e m' bs' (<[q := n']> (delete p A)) ∧
    (∀ i, 0 ≤ i < Z.min n size → load8 m' (q + i) = load8 m (p + i)) ∧
    ∀ a, owned (delete p A) a → load8 m' a = load8 m a.

(** The block of [n] bytes is smaller than the request, and so (up to a thirty-second) is every free block. *)
Definition no_block (bs : list (Z * bool)) (n size : Z) : Prop :=
  n < request size ∧ ∀ s, (s, true) ∈ bs → 32 * s < 33 * request size.

(** The move: a new block, the copy, and the release of the old block. *)
Lemma realloc_move m bs A p n size :
  heap ctl b0 e m bs A → A !! p = Some n → 0 < size ≤ 2 ^ 64 - 8 → 0 < n < request size →
  ∃ q m', (q ← tlsf_malloc ctl size;
     (if negb (q =? 0) then modify (λ m, memcpy_z m q p (Z.min n size));; tlsf_free ctl p else mret tt);; mret q) m = Ok (q, m') ∧
    ((q = 0 ∧ m' = m ∧ no_block bs n size) ∨ resized m A p n size q m').
Proof.
  intros H Hp Hz Hnr. destruct (tlsf_malloc_spec ctl b0 e m bs A size H ltac:(lia)) as (q & m1 & E1 & Hr). mstep with E1.
  destruct Hr as [(-> & -> & Hno)|(n1 & bs1 & Hn1 & Hf & H1 & O1)]; [exists 0, m; split; [done|left; splits; [done|done|split; [lia|destruct Hno; [lia|done]]]]|].
  destruct (heap_fresh ctl b0 e m1 bs1 A size q n1 H1 Hf Hn1) as [(F1 & F2 & F3 & F4 & F5) _].
  rewrite (proj2 (Z.eqb_neq q 0)) by done. cbn [negb]. set (m2 := memcpy_z m1 q p (Z.min n size)).
  assert (Hpq : p ≠ q) by congruence. assert (Hap : q + n1 ≤ p ∨ p + n ≤ q) by (by apply F5).
  destruct (heap_apart _ _ _ _ _ _ p n H Hp) as (_ & Hn24 & _).
  assert (Hm2 : ∀ a, load8 m2 a = if decide (q ≤ a < q + Z.min n size) then load8 m1 (p + (a - q)) else load8 m1 a).
  { intros a. apply load8_memcpy_z. lia. }
  assert (H2 : heap ctl b0 e m2 bs1 (<[q := n1]> A)).
  { eapply heap_write; [exact H1|]. intros a Ha. rewrite Hm2, decide_False; [done|]. intros Hin.
    apply (Ha q n1); [apply lookup_insert_eq|lia]. }
  destruct (tlsf_free_spec ctl b0 e m2 bs1 (<[q := n1]> A) p n H2) as (m3 & bs3 & E3 & H3 & O3); [by rewrite lookup_insert_ne|].
  rewrite delete_insert_ne in H3, O3 by done. exists q, m3. split.
  - erewrite bind_ok; [reflexivity|]. mstep. exact E3.
  - right. exists n1, bs3. splits.
    + unfold fresh. splits; [done|done|done|rewrite lookup_delete_ne by done; done|]. intros q' t [_ Hq']%lookup_delete_Some. by apply F5.
    + done.
    + intros i Hi. rewrite (only_owned _ _ _ (q + i) O3) by (exists q, n1; split; [apply lookup_insert_eq|lia]).
      rewrite Hm2, decide_True by lia. replace (p + (q + i - q)) with (p + i) by lia.
      apply (only_owned A); [done|]. exists p, n. split; [done|lia].
    + intros a (q' & t & Hq' & Ha). assert (Hqa : q' ≠ q) by (intros ->; rewrite lookup_delete_ne in Hq' by done; congruence).
      rewrite (only_owned _ _ _ a O3) by (exists q', t; split; [by rewrite lookup_insert_ne|done]).
      apply lookup_delete_Some in Hq' as [_ Hq']. rewrite Hm2, decide_False by (pose proof (F5 _ _ Hq'); lia).
      apply (only_owned A); [done|]. by exists q', t.
Qed.

(** Trimming after the block has reached its size [s]. *)
Lemma realloc_trim m0 A n p m pre s post size :
  p = end_of b0 pre + 16 → A !! p = Some n →
  heap ctl b0 e m (pre ++ (s, false) :: post) (<[p := s]> A) → only (unowned A) m0 m →
  size ≤ request size → 24 ≤ request size ≤ s → request size `mod` 8 = 0 →
  ∃ m', block_trim_used ctl (end_of b0 pre) (request size) m = Ok (tt, m') ∧ resized m0 A p n size p m'.
Proof.
  intros Ep Hp H Ho Hsz Hr Hr8.
  destruct (block_trim_used_ok ctl b0 e (hp_layout _ _ _ _ _ _ H) m pre s (request size) post _ H Hr Hr8) as (m' & bs' & s' & E & Hs' & H' & O').
  rewrite <-Ep, insert_insert_eq in H', O'. exists m'. split; [done|].
  exists s', bs'. rewrite insert_delete_eq.
  destruct (heap_apart _ _ _ _ _ _ p s' H') as (P1 & P2 & P3 & P4 & P5); [apply lookup_insert_eq|].
  pose proof (lo_base _ _ _ (hp_layout _ _ _ _ _ _ H)). splits; [|done|..].
  - unfold fresh. splits; [lia|done|lia|apply lookup_delete_eq|]. intros q t [Hne Hq]%lookup_delete_Some.
    apply P5; [by rewrite lookup_insert_ne|done].
  - intros i Hi. rewrite (only_owned _ _ _ (p + i) O') by (exists p, s'; split; [apply lookup_insert_eq|lia]).
    apply (only_owned A); [done|]. exists p, n. split; [done|lia].
  - intros a (q & t & [Hne Hq]%lookup_delete_Some & Ha).
    rewrite (only_owned _ _ _ a O') by (exists q, t; split; [by rewrite lookup_insert_ne|done]).
    apply (only_owned A); [done|]. by exists q, t.
Qed.

Lemma tlsf_realloc_spec m bs A p n size :
  heap ctl b0 e m bs A → A !! p = Some n → 0 < size ≤ 2 ^ 64 - 8 → request size ≠ 0 →
  ∃ q m', tlsf_realloc ctl p size m = Ok (q, m') ∧ ((q = 0 ∧ m' = m ∧ no_block bs n size) ∨ resized m A p n size q m').
Proof.
  intros H Hp Hz Hreq. pose proof H as [Hlo (F & L & Hst & _) _ Hu]. pose proof Hp as (pre & post & -> & Ex)%Hu%ents_split.
  destruct (state_block _ _ _ Hlo _ _ _ _ _ _ _ Hst) as (Hw & Hw2 & _ & Hb & _ & Hs & Hs8 & Hle & Hn8 & Hn0).
  destruct (heap_apart _ _ _ _ _ _ p n H Hp) as (_ & _ & Hp1 & _). pose proof (lo_base _ _ _ Hlo). pose proof (lo_end _ _ _ Hlo) as [He1 He2].
  change block_size_max with (2 ^ 32) in He2. destruct (request_range size ltac:(lia)) as [?|(R1 & R2 & R3)]; [done|].
  set (x := end_of b0 pre) in *. unfold tlsf_realloc. rewrite (proj2 (Z.eqb_neq p 0)), (proj2 (Z.eqb_neq size 0)) by lia. cbn [negb andb].
  assert (block_from_ptr p = x) as ->.
  { unfold block_from_ptr. change block_start_offset with 16. rewrite u64_small by lia. lia. }
  mstep with (block_next_ok m x n _ _ Hw Hs8 ltac:(lia)). mstep with (block_size_ok m x n _ _ Hw Hs8).
  mstep with (block_size_ok m _ _ _ _ Hw2 Hn8). mstep with (adjust_request_size_ok size m ltac:(lia)).
  mstep with (block_is_free_ok m x n _ _ Hw Hs8). cbn [negb tlsf_assert]. mstep. mstep with (block_is_free_ok m _ _ _ _ Hw2 Hn8).
  change block_header_overhead with 8. assert (Epx : p = x + 16) by lia.
  destruct (Z.ltb_spec n (request size)) as [Hlt|Hge]; cbn [andb].
  - destruct (hd_free post) eqn:Ehf; cbn [negb orb]; [|apply (realloc_move m _ A p n size H Hp); lia].
    destruct post as [|[s2 f2] post]; [done|]. cbn in Ehf. subst f2. cbn [hd_size] in *.
    assert (Hle2 : x + 8 + n + 8 + s2 ≤ e).
    { pose proof (st_sizes _ _ _ _ _ _ _ Hst) as [_ [_ [_ Hsz]%sizes_cons]%sizes_cons]%sizes_app.
      pose proof (st_end _ _ _ _ _ _ _ Hst) as Hend. rewrite end_of_app in Hend. cbn [end_of] in Hend. fold x in Hend.
      destruct (end_of_ge (x + 8 + n + 8 + s2) post Hsz). lia. }
    rewrite u64_small by lia. destruct (Z.ltb_spec (n + s2 + 8) (request size)) as [Hc|Hc]; [apply (realloc_move m _ A p n size H Hp); lia|].
    destruct (grow_ok ctl b0 e Hlo m pre n s2 post A H) as (m1 & m2 & E1 & E2 & H2 & O2). fold x in E1, E2, H2. rewrite <-Epx in H2.
    destruct (realloc_trim m A n p m2 pre (n + 8 + s2) post size) as (m3 & E3 & H3); [lia|done|done|done|lia|lia|done|].
    exists p, m3. split; [|by right]. erewrite bind_ok; [|mstep with E1; exact E2]. fold x in E3. by mstep with E3.
  - destruct (realloc_trim m A n p m pre n post size) as (m3 & E3 & H3); [lia|done| |apply only_refl|lia|lia|done|].
    + by rewrite insert_id.
    + exists p, m3. split; [|by right]. mstep. fold x in E3. by mstep with E3.
Qed.
End realloc.

(** ** The theorems *)

Lemma request_nonzero size : 0 < size ≤ block_size_max - 8 → request size ≠ 0.
Proof.
  unfold request. change block_size_max with (2 ^ 32). change block_size_min with 24. intros Hs.
  rewrite (proj2 (Z.eqb_neq size 0)), (proj2 (Z.ltb_lt _ _)) by zdiv. lia.
Qed.

(** C17: [tlsf_realloc] of an allocation to size 0 releases it, as [tlsf_free] does, and returns 0.  To any other size up to
    the largest that a block of the heap can have (2^32 - 8; above, see [tlsf_realloc_too_large]) it returns 0 and changes
    nothing, which happens only when the block is smaller than the request and every free block is smaller than 33/32 of it,
    or returns memory of at least that size, apart from the other allocations, that begins with the old contents
    up to the smaller size.  In all cases the invariant holds and no byte of another allocation has changed. *)
Theorem tlsf_realloc_correct ctl b0 e m bs A p n size :
  heap ctl b0 e m bs A → A !! p = Some n → 0 ≤ size ≤ block_size_max - 8 →
  ∃ q m', tlsf_realloc ctl p size m = Ok (q, m') ∧
    (size = 0 ∧ q = 0 ∧ (∃ bs', heap ctl b0 e m' bs' (delete p A)) ∧ (∀ a, owned (delete p A) a → load8 m' a = load8 m a) ∨
     0 < size ∧ (q = 0 ∧ m' = m ∧ no_block bs n size ∨ resized ctl b0 e m A p n size q m')).
Proof.
  intros H Hp Hs. destruct (decide (size = 0)) as [->|Hz].
  - destruct (tlsf_free_spec ctl b0 e m bs A p n H Hp) as (m' & bs' & E & H' & Ho). exists 0, m'.
    split; [|left; splits; [done|done|by exists bs'|intros a Ha; by eapply only_owned]].
    assert (Hnz : p ≠ 0) by (destruct (heap_apart _ _ _ _ _ _ p n H Hp) as (_ & _ & ? & _); pose proof (lo_base _ _ _ (hp_layout _ _ _ _ _ _ H)); lia).
    unfold tlsf_realloc. rewrite (proj2 (Z.eqb_neq p 0) Hnz). cbn [negb andb Z.eqb].
    by mstep with E.
  - destruct (tlsf_realloc_spec ctl b0 e m bs A p n size H Hp) as (q & m' & E & HR); [change block_size_max with (2 ^ 32) in *; lia|apply request_nonzero; lia|].
    exists q, m'. split; [exact E|]. right. split; [lia|exact HR].
Qed.

Lemma tlsf_realloc_correct_witness :
  ∃ n bs q m', tlsf_realloc 0x10000 ptr_100 1000 heap_100 = Ok (q, m') ∧
    (q = 0 ∧ m' = heap_100 ∧ no_block bs n 1000 ∨ resized 0x10000 sample_base sample_end heap_100 {[ptr_100 := n]} ptr_100 n 1000 q m').
Proof.
  destruct heap_100_ok as (n & bs & H). exists n, bs.
  destruct (tlsf_realloc_correct _ _ _ heap_100 bs {[ptr_100 := n]} ptr_100 n 1000 H (lookup_singleton_eq ptr_100 n)) as (q & m' & E & [[Hz _]|[_ HR]]);
    [change block_size_max with (2 ^ 32); lia|discriminate Hz|]. exists q, m'. split; [exact E|exact HR].
Defined.

(** [tlsf_realloc] to a size above the largest block does not fail: the rounded request is 0, the block is cut to
    size 0 and its pointer returned as if the call had succeeded, and the next allocation is handed out inside the
    memory of the caller. *)
Theorem tlsf_realloc_too_large :
  match (q ← tlsf_realloc 0x10000 ptr_100 block_size_max; n ← tlsf_block_size q; q2 ← tlsf_malloc 0x10000 24; mret (q =? ptr_100, n, q2 - q)) heap_100 with
  | Ok (r, _) => r = (true, 0, 8)
  | _ => False
  end.
Proof. vm_compute. reflexivity. Qed.
