(* ===== verification/Cpu.v ===== *)
(** * Descriptor tables and interrupts

    Model of src/kernel/main/cpu/gdt.c, idt.c, isr.c and isrs_gen.c: the
    global descriptor table with its task-state segment, the interrupt
    descriptor table, and the table of interrupt handlers.  The addresses of
    the assembly stubs and of the handlers are numbers; [lgdt], [lidt], [ltr]
    and the segment registers they load are fields of the state. *)
From Stdlib Require Import ZArith Lia.
From stdpp Require Import base option gmap list.
From S2P Require Import Prelude Memory.

(** ** GDT *)

Record GDTEntry := mkGDT {
  LimitLow : Z; BaseLow : Z; BaseMiddle : Z; Access : Z; FlagsLimitHi : Z; BaseHigh : Z }.

Definition GDT_CODE_SEGMENT : Z := 0x08.
Definition GDT_DATA_SEGMENT : Z := 0x10.
Definition GDT_ACCESS_CODE_READABLE : Z := 0x02.
Definition GDT_ACCESS_DATA_WRITEABLE : Z := 0x02.
Definition GDT_ACCESS_DATA_SEGMENT : Z := 0x10.
Definition GDT_ACCESS_CODE_SEGMENT : Z := 0x18.
Definition GDT_ACCESS_RING0 : Z := 0x00.
Definition GDT_ACCESS_RING3 : Z := 0x60.
Definition GDT_ACCESS_PRESENT : Z := 0x80.
Definition GDT_FLAG_64BIT : Z := 0x20.
Definition GDT_FLAG_GRANULARITY_4K : Z := 0x80.

Definition GDT_LIMIT_LOW (limit : Z) : Z := Z.land limit 0xFFFF.
Definition GDT_BASE_LOW (base : Z) : Z := Z.land base 0xFFFF.
Definition GDT_BASE_MIDDLE (base : Z) : Z := Z.land (Z.shiftr base 16) 0xFF.
Definition GDT_FLAGS_LIMIT_HI (limit flags : Z) : Z :=
  Z.lor (Z.land (Z.shiftr limit 16) 0xF) (Z.land flags 0xF0).
Definition GDT_BASE_HIGH (base : Z) : Z := Z.land (Z.shiftr base 24) 0xFF.
Definition GDT_ENTRY (base limit access flags : Z) : GDTEntry :=
  mkGDT (GDT_LIMIT_LOW limit) (GDT_BASE_LOW base) (GDT_BASE_MIDDLE base) access
    (GDT_FLAGS_LIMIT_HI limit flags) (GDT_BASE_HIGH base).

(** [sizeof(struct tss_entry)], packed *)
Definition sizeof_tss : Z := 4 + 8 * 12 + 2 + 2.
Record tss_entry := mkTss {
  reserved0 : Z; rsp0 : Z; rsp1 : Z; rsp2 : Z; reserved1 : Z;
  ist1 : Z; ist2 : Z; ist3 : Z; ist4 : Z; ist5 : Z; ist6 : Z; ist7 : Z;
  reserved2 : Z; reserved3 : Z; iopb_offset : Z }.
Definition tss_zero : tss_entry := mkTss 0 0 0 0 0 0 0 0 0 0 0 0 0 0 0.
Definition set_rsp0 (v : Z) (t : tss_entry) : tss_entry :=
  mkTss (reserved0 t) v (rsp1 t) (rsp2 t) (reserved1 t) (ist1 t) (ist2 t) (ist3 t) (ist4 t) (ist5 t) (ist6 t) (ist7 t)
    (reserved2 t) (reserved3 t) (iopb_offset t).
Definition set_iopb_offset (v : Z) (t : tss_entry) : tss_entry :=
  mkTss (reserved0 t) (rsp0 t) (rsp1 t) (rsp2 t) (reserved1 t) (ist1 t) (ist2 t) (ist3 t) (ist4 t) (ist5 t) (ist6 t) (ist7 t)
    (reserved2 t) (reserved3 t) v.

Definition g_GDT_init : list GDTEntry := [
  GDT_ENTRY 0 0 0 0;
  GDT_ENTRY 0 0xFFFFF (Z.lor (Z.lor (Z.lor GDT_ACCESS_PRESENT GDT_ACCESS_RING0) GDT_ACCESS_CODE_SEGMENT)
    GDT_ACCESS_CODE_READABLE) (Z.lor GDT_FLAG_64BIT GDT_FLAG_GRANULARITY_4K);
  GDT_ENTRY 0 0xFFFFF (Z.lor (Z.lor (Z.lor GDT_ACCESS_PRESENT GDT_ACCESS_RING0) GDT_ACCESS_DATA_SEGMENT)
    GDT_ACCESS_DATA_WRITEABLE) GDT_FLAG_GRANULARITY_4K;
  GDT_ENTRY 0 0xFFFFF (Z.lor (Z.lor (Z.lor GDT_ACCESS_PRESENT GDT_ACCESS_RING3) GDT_ACCESS_CODE_SEGMENT)
    GDT_ACCESS_CODE_READABLE) (Z.lor GDT_FLAG_64BIT GDT_FLAG_GRANULARITY_4K);
  GDT_ENTRY 0 0xFFFFF (Z.lor (Z.lor (Z.lor GDT_ACCESS_PRESENT GDT_ACCESS_RING3) GDT_ACCESS_DATA_SEGMENT)
    GDT_ACCESS_DATA_WRITEABLE) GDT_FLAG_GRANULARITY_4K;
  GDT_ENTRY 0 (sizeof_tss - 1) 0x89 0x00;
  GDT_ENTRY 0 0 0 0 ].

(** ** IDT and handlers *)

Record IDTEntry := mkIDT {
  IBaseLow : Z; SegmentSelector : Z; IST : Z; Flags : Z; IBaseMiddle : Z; IBaseHigh : Z; Reserved : Z }.
Definition IDT_FLAG_GATE_32BIT_INT : Z := 0xE.
Definition IDT_FLAG_RING0 : Z := Z.shiftl 0 5.
Definition IDT_FLAG_PRESENT : Z := 0x80.

Record cpu := mkCpu {
  g_GDT : list GDTEntry;
  tss : tss_entry;
  g_IDT : list IDTEntry;            (* 256 entries *)
  g_ISRHandlers : list Z;           (* 256 function pointers, 0 = NULL *)
  gdtr : option (Z * Z);            (* limit and base given to lgdt *)
  idtr : option (Z * Z);
  seg_cs : Z; seg_ds : Z; task_register : Z;
}.
Definition set_GDT (g : list GDTEntry) (s : cpu) : cpu :=
  mkCpu g (tss s) (g_IDT s) (g_ISRHandlers s) (gdtr s) (idtr s) (seg_cs s) (seg_ds s) (task_register s).
Definition set_tss (t : tss_entry) (s : cpu) : cpu :=
  mkCpu (g_GDT s) t (g_IDT s) (g_ISRHandlers s) (gdtr s) (idtr s) (seg_cs s) (seg_ds s) (task_register s).
Definition set_IDT (i : list IDTEntry) (s : cpu) : cpu :=
  mkCpu (g_GDT s) (tss s) i (g_ISRHandlers s) (gdtr s) (idtr s) (seg_cs s) (seg_ds s) (task_register s).
Definition set_handlers (h : list Z) (s : cpu) : cpu :=
  mkCpu (g_GDT s) (tss s) (g_IDT s) h (gdtr s) (idtr s) (seg_cs s) (seg_ds s) (task_register s).
Definition set_idtr (d : Z * Z) (s : cpu) : cpu :=
  mkCpu (g_GDT s) (tss s) (g_IDT s) (g_ISRHandlers s) (gdtr s) (Some d) (seg_cs s) (seg_ds s) (task_register s).
Definition load_segments (d : Z * Z) (cs ds : Z) (s : cpu) : cpu :=
  mkCpu (g_GDT s) (tss s) (g_IDT s) (g_ISRHandlers s) (Some d) (idtr s) cs ds (task_register s).
Definition set_tr (v : Z) (s : cpu) : cpu :=
  mkCpu (g_GDT s) (tss s) (g_IDT s) (g_ISRHandlers s) (gdtr s) (idtr s) (seg_cs s) (seg_ds s) v.

(** Arrays of the state, with an access out of bounds as [Fault]. *)
Definition upd_at {A} (i : Z) (f : A → A) (l : list A) : option (list A) :=
  x ← zlookup l i; Some (zinsert i (f x) l).
Definition gdt_update (i : Z) (f : GDTEntry → GDTEntry) : M cpu unit := λ s,
  match upd_at i f (g_GDT s) with Some g => Ok (tt, set_GDT g s) | None => Fault end.
Definition idt_update (i : Z) (f : IDTEntry → IDTEntry) : M cpu unit := λ s,
  match upd_at i f (g_IDT s) with Some t => Ok (tt, set_IDT t s) | None => Fault end.

(** [tss_base] and [kernel_stack] are the addresses of the two variables. *)
Definition TSS_Initialize (tss_base kernel_stack : Z) : M cpu unit :=
  modify (set_tss tss_zero);;
  modify (λ s, set_tss (set_rsp0 (u64 (kernel_stack + 16384)) (tss s)) s);;
  modify (λ s, set_tss (set_iopb_offset (u16 sizeof_tss) (tss s)) s);;
  gdt_update 5 (λ e, mkGDT (LimitLow e) (Z.land tss_base 0xFFFF) (Z.land (Z.shiftr tss_base 16) 0xFF)
                       (Access e) (FlagsLimitHi e) (Z.land (Z.shiftr tss_base 24) 0xFF));;
  (* *(uint32_t * )&g_GDT[6] = upper half: the first two 16-bit fields *)
  let upper := Z.land (Z.shiftr tss_base 32) 0xFFFFFFFF in
  gdt_update 6 (λ e, mkGDT (Z.land upper 0xFFFF) (Z.shiftr upper 16) (BaseMiddle e)
                       (Access e) (FlagsLimitHi e) (BaseHigh e)).

Definition GDT_Load (limit base cs ds : Z) : M cpu unit := modify (load_segments (limit, base) cs ds).

(** The result tells whether the success message is printed. *)
Definition GDT_Initialize (gdt_base tss_base kernel_stack : Z) : M cpu bool :=
  TSS_Initialize tss_base kernel_stack;;
  GDT_Load (8 * 7 - 1) gdt_base GDT_CODE_SEGMENT GDT_DATA_SEGMENT;;
  cs ← gets seg_cs;
  ds ← gets seg_ds;
  modify (set_tr 0x28);;
  mret ((cs =? GDT_CODE_SEGMENT) && (ds =? GDT_DATA_SEGMENT)).

Definition IDT_SetGate (interrupt base segmentDescriptor flags : Z) : M cpu unit :=
  idt_update interrupt (λ _, mkIDT (Z.land base 0xFFFF) segmentDescriptor 0 flags
    (Z.land (Z.shiftr base 16) 0xFFFF) (Z.land (Z.shiftr base 32) 0xFFFFFFFF) 0).
Definition set_flags (f : Z) (e : IDTEntry) : IDTEntry :=
  mkIDT (IBaseLow e) (SegmentSelector e) (IST e) f (IBaseMiddle e) (IBaseHigh e) (Reserved e).
Definition IDT_EnableGate (interrupt : Z) : M cpu unit :=
  idt_update interrupt (λ e, set_flags (u8 (Z.lor (Flags e) IDT_FLAG_PRESENT)) e).
Definition IDT_DisableGate (interrupt : Z) : M cpu unit :=
  idt_update interrupt (λ e, set_flags (u8 (Z.land (Flags e) (Z.lnot IDT_FLAG_PRESENT))) e).
Definition IDT_Load (limit base : Z) : M cpu unit := modify (set_idtr (limit, base)).
Definition IDT_Initialize (idt_base : Z) : M cpu bool :=
  IDT_Load (16 * 256 - 1) idt_base;;
  current ← gets idtr;
  mret (match current with Some (l, b) => (b =? idt_base) && (l =? 16 * 256 - 1) | None => false end).

Definition ISR_RegisterHandler (interrupt handler : Z) : M cpu unit :=
  (λ s, match upd_at interrupt (λ _, handler) (g_ISRHandlers s) with
        | Some h => Ok (tt, set_handlers h s)
        | None => Fault
        end);;
  IDT_EnableGate interrupt.

(** [isr n] is the address of the stub [ISRn]. *)
Definition ISR_InitializeGates (isr : Z → Z) : M cpu unit :=
  for_loop 256 0 (λ i, IDT_SetGate i (isr i) GDT_CODE_SEGMENT (Z.lor IDT_FLAG_RING0 IDT_FLAG_GATE_32BIT_INT)).
Definition ISR_Initialize (isr : Z → Z) (page_fault_handler : Z) : M cpu unit :=
  ISR_InitializeGates isr;;
  ISR_RegisterHandler 14 page_fault_handler;;
  for_loop 256 0 (λ i, if negb (i =? 14) then IDT_EnableGate i else mret tt).

(** The handler that is called, or the panic that stops the kernel. *)
Definition ISR_Handler (interrupt : Z) : M cpu Z := λ s,
  match zlookup (g_ISRHandlers s) interrupt with
  | Some h => if h =? 0 then Halt else Ok (h, s)
  | None => Fault
  end.
Definition page_fault_handler : M cpu unit := halt.
Definition panic : M cpu unit := halt.

(** The stack walk of [print_verbose_isr_info]: the return addresses it
    reports, from the frame pointer of the interrupted code.  The C loop
    counts [depth] up to 15. *)
Fixpoint stack_walk (m : memory) (fuel : nat) (frame : Z) : list Z :=
  match fuel with
  | O => []
  | S fuel =>
      if frame =? 0 then [] else
      load64 m (u64 (frame + 8)) ::
      let next := load64 m frame in
      if (next =? 0) || (next <=? frame) then [] else stack_walk m fuel next
  end.
Definition print_verbose_isr_info (m : memory) (rbp : Z) : list Z := stack_walk m 15 rbp.

(** The tables as they are linked. *)
Definition cpu_boot : cpu :=
  mkCpu g_GDT_init tss_zero (replicate 256 (mkIDT 0 0 0 0 0 0 0)) (replicate 256 0) None None 0 0 0.

(** ** Theorems of the descriptor tables and interrupts *)

(** ** What the processor reads from the tables *)

Definition segment_base (e : GDTEntry) : Z := BaseLow e + BaseMiddle e * 2 ^ 16 + BaseHigh e * 2 ^ 24.
Definition segment_limit (e : GDTEntry) : Z := LimitLow e + Z.land (FlagsLimitHi e) 0xF * 2 ^ 16.
(** A system descriptor spans two entries. *)
Definition system_base (lo hi : GDTEntry) : Z := segment_base lo + (LimitLow hi + BaseLow hi * 2 ^ 16) * 2 ^ 32.
Definition gate_base (e : IDTEntry) : Z := IBaseLow e + IBaseMiddle e * 2 ^ 16 + IBaseHigh e * 2 ^ 32.
Definition gate_present (e : IDTEntry) : bool := Z.testbit (Flags e) 7.

Lemma land_mask x n m : m = 2 ^ n - 1 → 0 ≤ n → Z.land x m = x `mod` 2 ^ n.
Proof. intros ->. apply land_ones_mod. Qed.

Lemma shiftr_div x n : 0 ≤ n → Z.shiftr x n = x / 2 ^ n.
Proof. apply Z.shiftr_div_pow2. Qed.

Lemma upd_at_some {A} (l : list A) i f x :
  zlookup l i = Some x → upd_at i f l = Some (zinsert i (f x) l).
Proof. intros H. unfold upd_at. by rewrite H. Qed.

(** ** GDT *)

(** [GDT_Initialize] leaves in entries 5 and 6 of the GDT a system descriptor whose 64-bit base is the address of
    the task-state segment and whose limit is its size less one, keeps the four segment entries, and loads the
    kernel selectors. *)
Theorem GDT_Initialize_correct gdt_base tss_base kernel_stack s :
  0 ≤ tss_base < 2 ^ 64 → g_GDT s = g_GDT_init →
  ∃ s' lo hi, GDT_Initialize gdt_base tss_base kernel_stack s = Ok (true, s') ∧
    zlookup (g_GDT s') 5 = Some lo ∧ zlookup (g_GDT s') 6 = Some hi ∧
    system_base lo hi = tss_base ∧ segment_limit lo = sizeof_tss - 1 ∧
    (∀ i, 0 ≤ i < 5 → zlookup (g_GDT s') i = zlookup g_GDT_init i) ∧
    rsp0 (tss s') = u64 (kernel_stack + 16384) ∧
    seg_cs s' = GDT_CODE_SEGMENT ∧ seg_ds s' = GDT_DATA_SEGMENT ∧ task_register s' = 0x28.
Proof.
  intros Hb Hg. destruct s as [g t idt h gr ir cs ds tr]. cbn in Hg. subst g.
  do 3 eexists. splits; try reflexivity.
  - unfold system_base, segment_base. cbn.
    rewrite !(land_mask _ 16 0xFFFF), !(land_mask _ 8 0xFF), (land_mask _ 32 0xFFFFFFFF), !shiftr_div by done.
    zdiv.
  - intros i Hi. assert (i = 0 ∨ i = 1 ∨ i = 2 ∨ i = 3 ∨ i = 4) as Hc by lia.
    destruct Hc as [-> | [-> | [-> | [-> | ->]]]]; reflexivity.
Qed.

Lemma GDT_Initialize_correct_witness :
  ∃ s' lo hi, GDT_Initialize 0xffffffff80010000 0xffffffff80020340 0xffffffff80030000 cpu_boot = Ok (true, s') ∧
    zlookup (g_GDT s') 5 = Some lo ∧ zlookup (g_GDT s') 6 = Some hi ∧
    system_base lo hi = 0xffffffff80020340 ∧ segment_limit lo = sizeof_tss - 1 ∧
    (∀ i, 0 ≤ i < 5 → zlookup (g_GDT s') i = zlookup g_GDT_init i) ∧
    rsp0 (tss s') = u64 (0xffffffff80030000 + 16384) ∧
    seg_cs s' = GDT_CODE_SEGMENT ∧ seg_ds s' = GDT_DATA_SEGMENT ∧ task_register s' = 0x28.
Proof. apply (GDT_Initialize_correct 0xffffffff80010000 0xffffffff80020340 0xffffffff80030000 cpu_boot); [lia|reflexivity]. Defined.

(** ** IDT *)

(** The gates and handlers of a state, as functions. *)
Definition gate (s : cpu) (i : Z) : option IDTEntry := zlookup (g_IDT s) i.

Lemma idt_update_spec i f s e :
  gate s i = Some e →
  ∃ s', idt_update i f s = Ok (tt, s') ∧ g_ISRHandlers s' = g_ISRHandlers s ∧
    ∀ j, gate s' j = if decide (i = j) then Some (f e) else gate s j.
Proof.
  intros He. unfold idt_update. rewrite (upd_at_some _ _ f e He). eexists. split; [reflexivity|]. split; [done|].
  intros j. unfold gate. cbn. rewrite zlookup_zinsert; [done|]. by eapply zlookup_Some_bounds.
Qed.

(** A loop that updates the gates one after the other. *)
Lemma gates_loop (body : Z → M cpu unit) (f : Z → IDTEntry → IDTEntry) s :
  (∀ i, 0 ≤ i < 256 → is_Some (gate s i)) →
  (∀ i s e, 0 ≤ i < 256 → gate s i = Some e → ∃ s', body i s = Ok (tt, s') ∧ g_ISRHandlers s' = g_ISRHandlers s ∧
     ∀ j, gate s' j = if decide (i = j) then Some (f i e) else gate s j) →
  ∃ s', for_loop 256 0 body s = Ok (tt, s') ∧ g_ISRHandlers s' = g_ISRHandlers s ∧
    ∀ i, 0 ≤ i < 256 → gate s' i = f i <$> gate s i.
Proof.
  intros Hs Hbody. destruct (for_loop_inv (λ n s', g_ISRHandlers s' = g_ISRHandlers s ∧
    ∀ i, 0 ≤ i < 256 → gate s' i = if decide (i < n) then f i <$> gate s i else gate s i) body 256 0 s)
    as (s' & E & Hh & Hg).
  - split; [done|]. intros i Hi. by rewrite decide_False by lia.
  - intros i s1 Hi [Hh1 Hg1]. destruct (Hs i ltac:(lia)) as [e He].
    pose proof (Hg1 i ltac:(lia)) as Hi1. rewrite decide_False in Hi1 by lia. rewrite He in Hi1.
    destruct (Hbody i s1 e ltac:(lia) Hi1) as (s2 & E2 & Hh2 & Hg2). exists s2. splits; [done|congruence|].
    intros j Hj. rewrite Hg2. destruct (decide (i = j)) as [<-|].
    + rewrite decide_True by lia. by rewrite He.
    + rewrite Hg1 by done. destruct (decide (j < i)); [by rewrite decide_True by lia|by rewrite decide_False by lia].
  - exists s'. splits; [done|done|]. intros i Hi. rewrite Hg by done. by rewrite decide_True by lia.
Qed.

(** The entry [IDT_SetGate] stores. *)
Definition gate_entry (base sel flags : Z) : IDTEntry :=
  mkIDT (Z.land base 0xFFFF) sel 0 flags (Z.land (Z.shiftr base 16) 0xFFFF) (Z.land (Z.shiftr base 32) 0xFFFFFFFF) 0.

Lemma gate_entry_base base sel flags : gate_base (gate_entry base sel flags) = u64 base.
Proof.
  unfold gate_base, gate_entry, u64. cbn.
  rewrite !(land_mask _ 16 0xFFFF), (land_mask _ 32 0xFFFFFFFF), !shiftr_div by done. zdiv.
Qed.

Definition enabled (e : IDTEntry) : IDTEntry := set_flags (u8 (Z.lor (Flags e) IDT_FLAG_PRESENT)) e.

Lemma enabled_present e : gate_present (enabled e) = true.
Proof.
  unfold gate_present, enabled, set_flags, u8. cbn [Flags]. rewrite Z.mod_pow2_bits_low, Z.lor_spec by lia. apply orb_true_r.
Qed.

Lemma ISR_RegisterHandler_spec i h s e x :
  gate s i = Some e → zlookup (g_ISRHandlers s) i = Some x →
  ∃ s', ISR_RegisterHandler i h s = Ok (tt, s') ∧
    (∀ j, gate s' j = if decide (i = j) then Some (enabled e) else gate s j) ∧
    (∀ j, zlookup (g_ISRHandlers s') j = if decide (i = j) then Some h else zlookup (g_ISRHandlers s) j).
Proof.
  intros He Hx. unfold ISR_RegisterHandler.
  assert ((λ s, match upd_at i (λ _, h) (g_ISRHandlers s) with Some h => Ok (tt, set_handlers h s) | None => Fault end) s =
    Ok (tt, set_handlers (zinsert i h (g_ISRHandlers s)) s)) as E1 by (cbn; by rewrite (upd_at_some _ _ _ x Hx)).
  mstep with E1. set (s1 := set_handlers _ s).
  destruct (idt_update_spec i enabled s1 e He) as (s' & E & Hh & Hg).
  exists s'. splits; [exact E|exact Hg|]. intros j. rewrite Hh. cbn.
  apply zlookup_zinsert. by eapply zlookup_Some_bounds.
Qed.

(** C38: After [ISR_Initialize] every one of the 256 gates is present, in the kernel code segment, and leads to the
    stub of its own number; interrupt 14 is dispatched to the page-fault handler, and every other interrupt without a
    handler stops the kernel. *)
Theorem ISR_Initialize_correct isr pf :
  pf ≠ 0 → (∀ i, 0 ≤ isr i < 2 ^ 64) →
  ∃ s', ISR_Initialize isr pf cpu_boot = Ok (tt, s') ∧
    (∀ i, 0 ≤ i < 256 → ∃ e, gate s' i = Some e ∧ gate_present e = true ∧ gate_base e = isr i ∧
       SegmentSelector e = GDT_CODE_SEGMENT) ∧
    ISR_Handler 14 s' = Ok (pf, s') ∧
    (∀ i, 0 ≤ i < 256 → i ≠ 14 → ISR_Handler i s' = Halt).
Proof.
  intros Hpf Hisr. set (flags := Z.lor IDT_FLAG_RING0 IDT_FLAG_GATE_32BIT_INT).
  assert (Hboot : ∀ i, 0 ≤ i < 256 → is_Some (gate cpu_boot i)) by (intros i Hi; by apply zlookup_lt).
  destruct (gates_loop (λ i, IDT_SetGate i (isr i) GDT_CODE_SEGMENT flags) (λ i _, gate_entry (isr i) GDT_CODE_SEGMENT flags)
    cpu_boot Hboot) as (s1 & E1 & Hh1 & Hg1).
  { intros i s e Hi He. exact (idt_update_spec i (λ _, gate_entry (isr i) GDT_CODE_SEGMENT flags) s e He). }
  assert (Hg1' : ∀ i, 0 ≤ i < 256 → gate s1 i = Some (gate_entry (isr i) GDT_CODE_SEGMENT flags)).
  { intros i Hi. rewrite Hg1 by done. destruct (Hboot i Hi) as [e ->]. done. }
  assert (Hn : ∀ i, 0 ≤ i < 256 → zlookup (g_ISRHandlers cpu_boot) i = Some 0).
  { intros i Hi. unfold zlookup. destruct (Z.ltb_spec i 0); [lia|]. apply lookup_replicate. split; [done|lia]. }
  assert (Hn14 : zlookup (g_ISRHandlers s1) 14 = Some 0) by (rewrite Hh1; apply Hn; lia).
  destruct (ISR_RegisterHandler_spec 14 pf s1 _ 0 (Hg1' 14 ltac:(lia)) Hn14) as (s2 & E2 & Hg2 & Hh2).
  destruct (gates_loop (λ i, if negb (i =? 14) then IDT_EnableGate i else mret tt)
    (λ i e, if negb (i =? 14) then enabled e else e) s2) as (s3 & E3 & Hh3 & Hg3).
  { intros i Hi. rewrite Hg2. case_decide; [done|]. rewrite Hg1' by done. done. }
  { intros i s e Hi He. destruct (i =? 14); [|exact (idt_update_spec i enabled s e He)].
    exists s. splits; [done|done|]. intros j. cbn. by case_decide; subst. }
  exists s3. splits.
  - unfold ISR_Initialize. mstep with E1. mstep with E2. exact E3.
  - intros i Hi. rewrite Hg3, Hg2 by done.
    set (e0 := gate_entry (isr i) GDT_CODE_SEGMENT flags).
    assert (∃ e, (λ e, if negb (i =? 14) then enabled e else e) <$> (if decide (14 = i) then Some (enabled (gate_entry (isr 14) GDT_CODE_SEGMENT flags)) else gate s1 i) = Some e ∧ e = enabled e0) as (e & -> & ->).
    { case_decide as Hd; [subst i; eexists; by split|]. rewrite Hg1' by done.
      rewrite (proj2 (Z.eqb_neq i 14)) by lia. eexists. by split. }
    eexists. splits; [done|apply enabled_present| |done].
    change (gate_base (enabled e0)) with (gate_base e0). unfold e0. rewrite gate_entry_base. apply u64_small, Hisr.
  - unfold ISR_Handler. rewrite Hh3, Hh2, decide_True by done. by rewrite (proj2 (Z.eqb_neq pf 0)).
  - intros i Hi Hne. unfold ISR_Handler. rewrite Hh3, Hh2, decide_False, Hh1, Hn by (done || lia). done.
Qed.

Lemma ISR_Initialize_correct_witness :
  let isr := λ i, (2 ^ 63 + 16 * (i `mod` 256)) in
  ∃ s', ISR_Initialize isr 0x1234 cpu_boot = Ok (tt, s') ∧
    (∀ i, 0 ≤ i < 256 → ∃ e, gate s' i = Some e ∧ gate_present e = true ∧ gate_base e = isr i ∧
       SegmentSelector e = GDT_CODE_SEGMENT) ∧
    ISR_Handler 14 s' = Ok (0x1234, s') ∧
    (∀ i, 0 ≤ i < 256 → i ≠ 14 → ISR_Handler i s' = Halt).
Proof.
  intros isr. apply (ISR_Initialize_correct isr 0x1234); [lia|]. intros i. unfold isr.
  pose proof (Z.mod_pos_bound i 256 ltac:(lia)). lia.
Defined.
