(* ===== verification/Sched.v ===== *)
(** * Round-robin scheduler

    Model of src/kernel/main/cpu/sched.c with the interrupt entry of
    src/kernel/includes/main/cpu/asm/isr_stubs.S.  The table [tasks] is a list
    of records whose [next] pointers are indices into it; stacks and saved
    register frames are in the shared memory, as is the heap that spawning
    allocates stacks from; writes to the local APIC are a log. *)
From Stdlib Require Import ZArith Lia.
From stdpp Require Import base option gmap list.
From S2P Require Import Prelude Memory Tlsf Cpu.

Definition STACK_SIZE : Z := 8192.
Definition MAX_TASKS : Z := 16.

(** The 22 quadwords of [Registers_t], in the order of their addresses. *)
Record Registers_t := mkRegs {
  r15 : Z; r14 : Z; r13 : Z; r12 : Z; r11 : Z; r10 : Z; r9 : Z; r8 : Z;
  rbp : Z; rdi : Z; rsi : Z; rdx : Z; rcx : Z; rbx : Z; rax : Z;
  interrupt : Z; error : Z;
  rip : Z; cs : Z; rflags : Z; rsp : Z; ss : Z }.
Definition sizeof_Registers : Z := 8 * 22.
Definition regs_words (r : Registers_t) : list Z :=
  [r15 r; r14 r; r13 r; r12 r; r11 r; r10 r; r9 r; r8 r; rbp r; rdi r; rsi r; rdx r; rcx r; rbx r; rax r;
   interrupt r; error r; rip r; cs r; rflags r; rsp r; ss r].
(** Fields by their offset: [rip] is word 17, [cs] 18, [rflags] 19. *)
Definition off_rip : Z := 8 * 17.
Definition off_cs : Z := 8 * 18.
Definition off_rflags : Z := 8 * 19.
Definition load_regs (m : memory) (a : Z) : Registers_t :=
  let w i := load64 m (a + 8 * i) in
  mkRegs (w 0) (w 1) (w 2) (w 3) (w 4) (w 5) (w 6) (w 7) (w 8) (w 9) (w 10) (w 11) (w 12) (w 13) (w 14)
    (w 15) (w 16) (w 17) (w 18) (w 19) (w 20) (w 21).
(** What the pops and [iretq] put into the registers; [add $16] skips the
    number of the interrupt and the error code. *)
Definition popped (r : Registers_t) : Registers_t :=
  mkRegs (r15 r) (r14 r) (r13 r) (r12 r) (r11 r) (r10 r) (r9 r) (r8 r) (rbp r) (rdi r) (rsi r) (rdx r) (rcx r)
    (rbx r) (rax r) 0 0 (rip r) (cs r) (rflags r) (rsp r) (ss r).
Fixpoint store_words (m : memory) (a : Z) (ws : list Z) : memory :=
  match ws with
  | [] => m
  | w :: ws => store_words (store64 m a w) (a + 8) ws
  end.

Record task := mkTask {
  t_rsp : Z; t_stack_base : Z; t_id : Z;
  t_next : option Z   (* index into [tasks], [None] is the null pointer *) }.
Definition task_zero : task := mkTask 0 0 0 None.
Definition set_t_rsp (v : Z) (t : task) : task := mkTask v (t_stack_base t) (t_id t) (t_next t).
Definition set_t_stack_base (v : Z) (t : task) : task := mkTask (t_rsp t) v (t_id t) (t_next t).
Definition set_t_id (v : Z) (t : task) : task := mkTask (t_rsp t) (t_stack_base t) v (t_next t).
Definition set_t_next (v : option Z) (t : task) : task := mkTask (t_rsp t) (t_stack_base t) (t_id t) v.

Record sched := mkSched {
  tasks : list task;
  current : option Z;
  task_count : Z;
  s_mem : memory;
  s_cpu : cpu;
  lapic_log : list (Z * Z);    (* register and value, last write first *)
}.
Definition set_tasks (l : list task) (s : sched) : sched :=
  mkSched l (current s) (task_count s) (s_mem s) (s_cpu s) (lapic_log s).
Definition set_current (c : option Z) (s : sched) : sched :=
  mkSched (tasks s) c (task_count s) (s_mem s) (s_cpu s) (lapic_log s).
Definition set_task_count (n : Z) (s : sched) : sched :=
  mkSched (tasks s) (current s) n (s_mem s) (s_cpu s) (lapic_log s).
Definition set_s_mem (m : memory) (s : sched) : sched :=
  mkSched (tasks s) (current s) (task_count s) m (s_cpu s) (lapic_log s).
Definition set_s_cpu (c : cpu) (s : sched) : sched :=
  mkSched (tasks s) (current s) (task_count s) (s_mem s) c (lapic_log s).
Definition log_lapic (w : Z * Z) (s : sched) : sched :=
  mkSched (tasks s) (current s) (task_count s) (s_mem s) (s_cpu s) (w :: lapic_log s).

Definition in_mem {A} (m : M memory A) : M sched A := zoom s_mem set_s_mem m.
Definition in_cpu {A} (m : M cpu A) : M sched A := zoom s_cpu set_s_cpu m.

(** [tasks[i]], a field update of it, and a pointer that is dereferenced. *)
Definition get_task (i : Z) : M sched task := λ s,
  match zlookup (tasks s) i with Some t => Ok (t, s) | None => Fault end.
Definition upd_task (i : Z) (f : task → task) : M sched unit := λ s,
  match upd_at i f (tasks s) with Some l => Ok (tt, set_tasks l s) | None => Fault end.
Definition deref (p : option Z) : M sched Z :=
  match p with Some i => mret i | None => fault end.

Definition LAPIC_BASE : Z := 0xFEE00000.
Definition APIC_EOI : Z := 0x0B0.
Definition APIC_LVT_TIMER : Z := 0x320.
Definition APIC_TIMER_INIT : Z := 0x380.
Definition APIC_TIMER_DIV : Z := 0x3E0.
Definition lapic_write (reg val : Z) : M sched unit := modify (log_lapic (LAPIC_BASE + reg, val)).
Definition lapic_eoi : M sched unit := lapic_write APIC_EOI 0.

Definition setup_frame (stack_base entry t : Z) : M sched unit :=
  let frame_addr := u64 (stack_base + STACK_SIZE - sizeof_Registers - 8) in
  in_mem (modify (λ m, memset_z m frame_addr 0 sizeof_Registers));;
  in_mem (modify (λ m, store64 m (frame_addr + off_rip) entry));;
  in_mem (modify (λ m, store64 m (frame_addr + off_cs) 0x08));;
  in_mem (modify (λ m, store64 m (frame_addr + off_rflags) 0x202));;
  upd_task t (set_t_rsp frame_addr).

(** The result -1 is the error of the C code. *)
Definition sched_spawn (kernel_tlsf_pool entry : Z) : M sched Z :=
  count ← gets task_count;
  if MAX_TASKS <=? count then mret (-1) else
  cur ← gets current;
  match cur with
  | None => mret (-1)
  | Some _ =>
      let id := count in
      p ← in_mem (tlsf_malloc kernel_tlsf_pool STACK_SIZE);
      upd_task id (set_t_stack_base p);;
      if p =? 0 then mret (-1) else
      upd_task id (set_t_id id);;
      setup_frame p entry id;;
      c ← deref cur;
      tc ← get_task c;
      upd_task id (set_t_next (t_next tc));;
      c ← deref cur;
      upd_task c (set_t_next (Some id));;
      modify (λ s, set_task_count (task_count s + 1) s);;
      mret id
  end.

Definition sched_yield : M sched unit := mret tt.

(** The registers after the switch: what the pops and [iretq] load from the
    frame of the next task. *)
Definition sched_tick (regs : Z) : M sched Registers_t :=
  cur ← gets current;
  old ← deref cur;
  t ← get_task old;
  modify (set_current (t_next t));;
  upd_task old (set_t_rsp regs);;
  new ← gets current;
  new ← deref new;
  t ← get_task new;
  gets (λ s, popped (load_regs (s_mem s) (t_rsp t))).

Definition timer_handler (regs : Z) : M sched Registers_t :=
  lapic_eoi;;
  sched_tick regs.

Definition apic_timer_init : M sched unit :=
  lapic_write APIC_LVT_TIMER (Z.lor 0x20 (Z.shiftl 1 17));;
  lapic_write APIC_TIMER_DIV 3;;
  lapic_write APIC_TIMER_INIT 0x100000.

Definition sched_init (kernel_tlsf_pool idle_task timer_handler_addr : Z) : M sched unit :=
  modify (set_tasks (replicate 16 task_zero));;
  modify (set_task_count 0);;
  p ← in_mem (tlsf_malloc kernel_tlsf_pool STACK_SIZE);
  upd_task 0 (set_t_stack_base p);;
  upd_task 0 (set_t_id 0);;
  setup_frame p idle_task 0;;
  upd_task 1 (set_t_id 1);;
  upd_task 1 (set_t_stack_base 0);;
  upd_task 1 (set_t_rsp 0);;
  upd_task 0 (set_t_next (Some 1));;
  upd_task 1 (set_t_next (Some 0));;
  modify (set_current (Some 1));;
  modify (set_task_count 2);;
  in_cpu (ISR_RegisterHandler 0x20 timer_handler_addr).

Definition sched_start : M sched unit := apic_timer_init.

Definition test_tasks_init (kernel_tlsf_pool task_a task_b task_c : Z) : M sched unit :=
  sched_spawn kernel_tlsf_pool task_a;;
  sched_spawn kernel_tlsf_pool task_b;;
  sched_spawn kernel_tlsf_pool task_c;;
  mret tt.

(** The entry of a timer interrupt: the processor aligns the stack to 16 bytes
    and pushes the interrupted context; the stub pushes an error code 0, the
    number of the interrupt and the registers, and passes the frame. *)
Definition isr_common_stub (n : Z) (r : Registers_t) : M memory Z :=
  let frame := u64 (Z.land (rsp r) (Z.lnot 15) - sizeof_Registers) in
  modify (λ m, store_words m frame
    (regs_words (mkRegs (r15 r) (r14 r) (r13 r) (r12 r) (r11 r) (r10 r) (r9 r) (r8 r) (rbp r) (rdi r) (rsi r)
       (rdx r) (rcx r) (rbx r) (rax r) n 0 (rip r) (cs r) (rflags r) (rsp r) (ss r))));;
  mret frame.
Definition timer_interrupt (r : Registers_t) : M sched Registers_t :=
  frame ← in_mem (isr_common_stub 0x20 r);
  timer_handler frame.
