(* ===== verification/SchedProof.v ===== *)
(** * Theorems of the scheduler

    The [next] pointers form a ring; a timer tick rotates it, spawning inserts
    behind the current task.  The abstract scheduler is a queue of tasks with
    the saved context of each; the timer interrupt refines it. *)
From Stdlib Require Import ZArith Lia.
From stdpp Require Import base option gmap list.
From S2P Require Import Prelude Memory Tlsf Cpu Sched.

(** ** The ring of tasks *)

Definition next_of (l : list task) (i : Z) : option Z := zlookup l i ≫= t_next.

(** Each element of the list but the last points to its successor. *)
Fixpoint linked (nx : Z → option Z) (l : list Z) : Prop :=
  match l with
  | x :: (y :: _) as r => nx x = Some y ∧ linked nx r
  | _ => True
  end.

Lemma linked_ext nx nx' l z :
  (∀ x, x ∈ l → nx' x = nx x) → linked nx (l ++ [z]) → linked nx' (l ++ [z]).
Proof.
  induction l as [|x l IH]; intros He H; [done|].
  assert (linked nx' (l ++ [z])) as Hl.
  { apply IH; [intros; apply He; by right|]. destruct l; cbn in *; tauto. }
  specialize (He x ltac:(left)). destruct l as [|y l]; cbn in *; rewrite He; tauto.
Qed.

Lemma linked_snoc nx l x y : linked nx (l ++ [x]) → nx x = Some y → linked nx (l ++ [x; y]).
Proof.
  intros H Hx. induction l as [|a l IH]; [cbn; tauto|].
  destruct l as [|b l]; cbn in *; tauto.
Qed.

(** The tasks of the queue are those in use, linked in its order, with the
    current one at its head. *)
Record ring (s : sched) (q : list Z) : Prop := {
  ring_len : length (tasks s) = 16%nat;
  ring_count : 2 ≤ task_count s ≤ MAX_TASKS;
  ring_elem : ∀ i, i ∈ q ↔ 0 ≤ i < task_count s;
  ring_nodup : NoDup q;
  ring_cur : current s = head q;
  ring_links : ∃ c, head q = Some c ∧ linked (next_of (tasks s)) (q ++ [c]);
}.

Lemma ring_two s q : ring s q → ∃ c d rest, q = c :: d :: rest.
Proof.
  intros H. destruct q as [|c [|d rest]]; [..|eauto].
  - destruct (ring_links _ _ H) as (c & Hc & _). done.
  - pose proof (ring_count _ _ H) as Hn.
    assert (0 ∈ [c]) as H0%list_elem_of_singleton by (apply (ring_elem _ _ H); lia).
    assert (1 ∈ [c]) as H1%list_elem_of_singleton by (apply (ring_elem _ _ H); lia). lia.
Qed.

Lemma ring_length s q : ring s q → Z.of_nat (length q) = task_count s.
Proof.
  intros H. pose proof (ring_count _ _ H).
  assert (q ≡ₚ seqZ 0 (task_count s)) as ->.
  { apply NoDup_Permutation; [apply H|apply NoDup_seqZ|]. intros x. rewrite (ring_elem _ _ H), elem_of_seqZ. lia. }
  rewrite length_seqZ. lia.
Qed.

Lemma ring_lookup s q i : ring s q → i ∈ q → is_Some (zlookup (tasks s) i).
Proof.
  intros H Hi. apply zlookup_lt. rewrite (ring_len _ _ H). apply (ring_elem _ _ H) in Hi.
  pose proof (ring_count _ _ H). unfold MAX_TASKS in *. lia.
Qed.

(** ** Task updates *)

Lemma upd_task_spec i f s t :
  zlookup (tasks s) i = Some t → upd_task i f s = Ok (tt, set_tasks (zinsert i (f t) (tasks s)) s).
Proof. intros H. unfold upd_task. by rewrite (upd_at_some _ _ f t H). Qed.

Lemma next_of_insert l i j t :
  0 ≤ i < Z.of_nat (length l) →
  next_of (zinsert i t l) j = if decide (i = j) then t_next t else next_of l j.
Proof. intros H. unfold next_of. rewrite zlookup_zinsert by done. by case_decide. Qed.

(** ** The tick *)

Lemma sched_tick_spec s c d rest regs :
  ring s (c :: d :: rest) →
  ∃ t td s', zlookup (tasks s) c = Some t ∧ zlookup (tasks s) d = Some td ∧
    sched_tick regs s = Ok (popped (load_regs (s_mem s) (t_rsp td)), s') ∧
    s' = set_tasks (zinsert c (set_t_rsp regs t) (tasks s)) (set_current (Some d) s) ∧
    ring s' (d :: rest ++ [c]).
Proof.
  intros H. destruct (ring_lookup _ _ c H ltac:(left)) as [t Ht].
  destruct (ring_lookup _ _ d H ltac:(right; left)) as [td Htd].
  destruct (ring_links _ _ H) as (c' & [= <-] & Hlk). pose proof (ring_nodup _ _ H) as Hnd.
  assert (Hnext : t_next t = Some d) by (cbn in Hlk; destruct Hlk as [Hl _]; unfold next_of in Hl; by rewrite Ht in Hl).
  assert (c ≠ d) as Hcd by (intros ->; apply NoDup_cons in Hnd as [Hn _]; apply Hn; left).
  pose proof (zlookup_Some_bounds _ _ _ Ht) as Hb.
  exists t, td. eexists. splits; [done|done| |reflexivity|].
  - unfold sched_tick. mstep. rewrite (ring_cur _ _ H). cbn [deref head]. mstep.
    erewrite bind_ok; [|unfold get_task; by rewrite Ht]. mstep. rewrite Hnext. set (s1 := set_current (Some d) s).
    erewrite bind_ok; [|by apply (upd_task_spec _ _ s1 t)]. mstep. cbn [current set_tasks deref]. mstep.
    set (s2 := set_tasks _ s1). assert (get_task d s2 = Ok (td, s2)) as E.
    { unfold get_task. cbn. rewrite zlookup_zinsert by done. rewrite decide_False by done. by rewrite Htd. }
    mstep with E. reflexivity.
  - assert (Hnx : ∀ j, next_of (zinsert c (set_t_rsp regs t) (tasks s)) j = next_of (tasks s) j).
    { intros j. rewrite next_of_insert by done. case_decide; [subst|done]. unfold next_of. by rewrite Ht. }
    split; cbn [tasks current task_count set_tasks set_current].
    + rewrite length_zinsert. apply H.
    + apply H.
    + intros i. rewrite <-(ring_elem _ _ H). set_solver.
    + apply NoDup_cons in Hnd as [Hnc [Hnd' Hnr]%NoDup_cons]. apply NoDup_cons. split; [set_solver|].
      apply NoDup_app. splits; [done|set_solver|apply NoDup_singleton].
    + done.
    + exists d. split; [done|]. change (d :: rest ++ [c]) with ((d :: rest) ++ [c]). rewrite <-app_assoc. cbn [app].
      apply (linked_snoc _ (d :: rest)); [|by rewrite Hnx; unfold next_of; rewrite Ht].
      eapply linked_ext; [intros; apply Hnx|]. cbn in Hlk. apply Hlk.
Qed.

(** A series of ticks; the argument lists the frames of the preempted tasks,
    the result the contexts that are resumed. *)
Fixpoint ticks (frames : list Z) : M sched (list Registers_t) :=
  match frames with
  | [] => mret []
  | f :: frames => r ← timer_handler f; rs ← ticks frames; mret (r :: rs)
  end.

Lemma rotate_lookup (c : Z) r k :
  (r ++ [c]) !! (k `mod` S (length r))%nat = (c :: r) !! (S k `mod` S (length r))%nat.
Proof.
  set (n := S (length r)). pose proof (Nat.mod_upper_bound k n ltac:(lia)) as Hk.
  destruct (decide (k `mod` n = length r)%nat) as [Heq|Hne].
  - rewrite Heq, lookup_app_r, Nat.sub_diag by lia.
    assert (S k `mod` n = 0)%nat as ->; [|done].
    rewrite (Nat.div_mod k n) by lia. rewrite Heq, Nat.add_comm, Nat.mul_comm.
    replace (S (length r + k / n * n))%nat with (0 + (k / n + 1) * n)%nat by lia.
    rewrite Nat.Div0.mod_add. by apply Nat.Div0.mod_0_l.
  - rewrite lookup_app_l by lia. assert (S k `mod` n = S (k `mod` n))%nat as ->; [|done].
    rewrite (Nat.div_mod k n) at 1 by lia. rewrite Nat.mul_comm, Nat.add_comm, <-Nat.add_succ_l, Nat.Div0.mod_add.
    apply Nat.mod_small. lia.
Qed.

Lemma ticks_spec frames : ∀ s q, ring s q →
  ∃ rs s' q', ticks frames s = Ok (rs, s') ∧ length rs = length frames ∧ ring s' q' ∧ task_count s' = task_count s ∧
    current s' = q !! (length frames `mod` length q)%nat.
Proof.
  induction frames as [|f frames IH]; intros s q H.
  - exists [], s, q. splits; [done|done|done|done|]. destruct (ring_two _ _ H) as (c & d & rest & ->).
    rewrite (ring_cur _ _ H). by rewrite Nat.Div0.mod_0_l.
  - destruct (ring_two _ _ H) as (c & d & rest & ->).
    set (s1 := log_lapic (LAPIC_BASE + APIC_EOI, 0) s).
    assert (H1 : ring s1 (c :: d :: rest)) by (destruct H; by split).
    destruct (sched_tick_spec s1 c d rest f H1) as (t & td & s2 & _ & _ & E & Es2 & H2).
    destruct (IH s2 _ H2) as (rs & s' & q' & E' & Hlen & H' & Hc' & Hcur).
    assert (Et : timer_handler f s = sched_tick f s1) by done. rewrite <-Et in E.
    eexists (_ :: rs), s', q'. splits; [cbn [ticks]; mstep with E; mstep with E'; reflexivity|cbn; lia|done| |].
    + rewrite Hc', Es2. done.
    + rewrite Hcur. change (d :: rest ++ [c]) with ((d :: rest) ++ [c]). rewrite length_app, Nat.add_comm.
      apply (rotate_lookup c (d :: rest)).
Qed.

(** C30: Every tick of the timer succeeds and keeps the ring of tasks; the tasks run in the order of the ring, and each of
    the tasks runs within as many ticks as there are tasks. *)
Theorem sched_round_robin s q :
  ring s q →
  (∀ frames, ∃ rs s' q', ticks frames s = Ok (rs, s') ∧ ring s' q' ∧ task_count s' = task_count s ∧
     current s' = q !! (length frames `mod` length q)%nat) ∧
  (∀ i, 0 ≤ i < task_count s → ∃ k : nat, Z.of_nat k < task_count s ∧
     ∀ frames, length frames = k → ∃ rs s', ticks frames s = Ok (rs, s') ∧ current s' = Some i).
Proof.
  intros H. split.
  - intros frames. destruct (ticks_spec frames s q H) as (rs & s' & q' & ? & _ & ? & ? & ?). eauto 10.
  - intros i Hi. pose proof (ring_length _ _ H) as Hlen.
    apply (ring_elem _ _ H), list_elem_of_lookup in Hi as [k Hk]. exists k.
    pose proof (lookup_lt_Some _ _ _ Hk). split; [lia|]. intros frames Hf.
    destruct (ticks_spec frames s q H) as (rs & s' & q' & E & _ & _ & _ & Hcur). exists rs, s'. split; [done|].
    by rewrite Hcur, Hf, Nat.mod_small.
Qed.

(** ** Saved frames *)





Lemma load_regs_agree lo hi m m' a :
  mem_agree lo hi m m' → lo ≤ a → a + sizeof_Registers ≤ hi → load_regs m a = load_regs m' a.
Proof.
  intros H Hlo Hhi. unfold sizeof_Registers in Hhi.
  assert (Hw : ∀ i, 0 ≤ i < 22 → load64 m (a + 8 * i) = load64 m' (a + 8 * i)).
  { intros i Hi. apply (mem_agree_load 8 lo hi); [done|lia|lia]. }
  unfold load_regs. by rewrite !Hw by lia.
Qed.

(** ** The abstract scheduler *)

Record queue_state := mkQueue { queue : list Z; saved : Z → Registers_t }.

Definition save (i : Z) (r : Registers_t) (f : Z → Registers_t) : Z → Registers_t :=
  λ j, if decide (i = j) then r else f j.

Section refinement.
(** The stack of each task, from its lowest address to its end. *)
Context (area : Z → Z * Z).

Definition areas_ok : Prop :=
  (∀ i, 0 ≤ (area i).1 ∧ (area i).2 < 2 ^ 64) ∧
  (∀ i j, i ≠ j → (area i).2 ≤ (area j).1 ∨ (area j).2 ≤ (area i).1).

(** A task that does not run has its context in a frame on its stack. *)
Definition suspended (s : sched) (i : Z) (r : Registers_t) : Prop :=
  ∃ t, zlookup (tasks s) i = Some t ∧ (area i).1 ≤ t_rsp t ∧ t_rsp t + sizeof_Registers ≤ (area i).2 ∧
    popped (load_regs (s_mem s) (t_rsp t)) = r.

Definition refines (s : sched) (q : queue_state) : Prop :=
  ring s (queue q) ∧ ∀ i, i ∈ tail (queue q) → suspended s i (saved q i).

(** What the running task may do to memory. *)
Definition slice (s : sched) (q : queue_state) (m' : memory) : Prop :=
  ∀ i, i ∈ tail (queue q) → mem_agree (area i).1 (area i).2 (s_mem s) m'.

Lemma refines_slice s q m' : refines s q → slice s q m' → refines (set_s_mem m' s) q.
Proof.
  intros [Hr Hs] Hm. split; [destruct Hr; by split|]. intros i Hi.
  destruct (Hs i Hi) as (t & Ht & H1 & H2 & <-). exists t. splits; [done|done|done|].
  cbn. f_equal. symmetry. by eapply load_regs_agree; [apply Hm|..].
Qed.

End refinement.

Lemma suspended_frame area s s' i r :
  zlookup (tasks s') i = zlookup (tasks s) i → mem_agree (area i).1 (area i).2 (s_mem s) (s_mem s') →
  suspended area s i r → suspended area s' i r.
Proof.
  intros Ht Hm (t & E & H1 & H2 & <-). exists t. splits; [by rewrite Ht|done|done|]. f_equal.
  symmetry. by eapply load_regs_agree.
Qed.

(** ** The timer interrupt

    The saved contexts are in frames wherever the interrupted tasks had their
    stack pointer. *)





(** The frame that the interrupt of context [r] pushes: its place does not meet the saved frame of a suspended task. *)
Definition pushed (r : Registers_t) : Z := u64 (Z.land (rsp r) (Z.lnot 15) - sizeof_Registers).







(** ** Spawning *)

(** The context in which a task starts: every register not named is 0, the
    stack pointer included. *)
Definition entry_context (entry : Z) : Registers_t :=
  mkRegs 0 0 0 0 0 0 0 0 0 0 0 0 0 0 0 0 0 entry 0x08 0x202 0 0.

Lemma setup_frame_spec s p entry i t :
  0 ≤ p → p + STACK_SIZE < 2 ^ 64 → fits 64 entry → zlookup (tasks s) i = Some t →
  let f := p + STACK_SIZE - sizeof_Registers - 8 in
  ∃ m', setup_frame p entry i s = Ok (tt, set_tasks (zinsert i (set_t_rsp f t) (tasks s)) (set_s_mem m' s)) ∧
    popped (load_regs m' f) = entry_context entry ∧
    (∀ b, ¬ (f ≤ b < f + sizeof_Registers) → load8 m' b = load8 (s_mem s) b).
Proof.
  intros Hp0 Hp1 He Ht. cbv zeta. unfold STACK_SIZE, sizeof_Registers in *. set (f := p + 8192 - 8 * 22 - 8).
  assert (u64 f = f) as Hf by (apply u64_small; lia).
  set (m1 := memset_z (s_mem s) f 0 (8 * 22)). set (m2 := store64 m1 (f + off_rip) entry).
  set (m3 := store64 m2 (f + off_cs) 0x08). set (m4 := store64 m3 (f + off_rflags) 0x202).
  exists m4. splits.
  - unfold setup_frame, in_mem, STACK_SIZE, sizeof_Registers. fold f. rewrite Hf. mstep. mstep. mstep. mstep.
    by apply (upd_task_spec i _ (set_s_mem m4 s) t).
  - assert (Hw : ∀ i, 0 ≤ i < 22 → load64 m4 (f + 8 * i) =
      if decide (i = 17) then entry else if decide (i = 18) then 0x08 else if decide (i = 19) then 0x202 else 0).
    { intros j Hj. unfold m4, m3, m2, off_rip, off_cs, off_rflags.
      destruct (decide (j = 17)) as [->|]; [rewrite 2!load64_store64_ne, load64_store64_eq by lia; by apply u64_small|].
      destruct (decide (j = 18)) as [->|]; [rewrite load64_store64_ne, load64_store64_eq by lia; done|].
      destruct (decide (j = 19)) as [->|]; [by rewrite load64_store64_eq|].
      rewrite !load64_store64_ne by lia. apply load64_memset_zero; lia. }
    unfold load_regs, popped, entry_context. cbn [r15 r14 r13 r12 r11 r10 r9 r8 rbp rdi rsi rdx rcx rbx rax rip cs rflags rsp ss].
    by rewrite !Hw by lia.
  - intros b Hb. unfold m4, m3, m2, m1, off_rip, off_cs, off_rflags. rewrite !load8_store64_ne by lia.
    rewrite load8_memset_z. by rewrite decide_False by lia.
Qed.

(** The queue after a new task [n] was put behind the current one. *)
Definition insert_behind (n : Z) (r : Registers_t) (q : queue_state) : queue_state :=
  match queue q with
  | c :: rest => mkQueue (c :: n :: rest) (save n r (saved q))
  | [] => q
  end.

(** Linking task [n = task_count] behind the current one. *)
Lemma ring_insert s c rest t tc s' :
  ring s (c :: rest) → task_count s < MAX_TASKS → zlookup (tasks s) c = Some tc →
  tasks s' = zinsert c (set_t_next (Some (task_count s)) tc) (zinsert (task_count s) t (tasks s)) →
  t_next t = t_next tc → current s' = current s → task_count s' = task_count s + 1 →
  ring s' (c :: task_count s :: rest).
Proof.
  intros H Hlt Htc Hts Hnt Hcur Hcnt. pose proof (ring_count _ _ H) as Hn. unfold MAX_TASKS in *.
  pose proof (ring_len _ _ H) as Hlen. pose proof (ring_nodup _ _ H) as Hnd.
  pose proof (zlookup_Some_bounds _ _ _ Htc) as Hb.
  assert (Hout : task_count s ∉ c :: rest) by (rewrite (ring_elem _ _ H); lia).
  destruct (ring_links _ _ H) as (c' & [= <-] & Hlk).
  assert (Hnx : ∀ j, next_of (tasks s') j = if decide (c = j) then Some (task_count s) else
    if decide (task_count s = j) then t_next tc else next_of (tasks s) j).
  { intros j. rewrite Hts, next_of_insert by (rewrite length_zinsert; lia). case_decide; [done|].
    rewrite next_of_insert by lia. by rewrite Hnt. }
  split.
  - by rewrite Hts, !length_zinsert.
  - unfold MAX_TASKS. lia.
  - intros i. assert (0 ≤ i < task_count s + 1 ↔ i = task_count s ∨ 0 ≤ i < task_count s) as Hi by lia.
    rewrite Hcnt, Hi, <-(ring_elem _ _ H). set_solver.
  - apply NoDup_cons in Hnd as [Hnc Hnd]. rewrite !NoDup_cons. set_solver.
  - rewrite Hcur. apply H.
  - exists c. split; [done|]. cbn [app linked].
    apply NoDup_cons in Hnd as [Hnc _].
    assert (Hrest : linked (next_of (tasks s')) (rest ++ [c])).
    { eapply linked_ext; [|destruct rest; cbn in Hlk; apply Hlk || done]. intros x Hx. rewrite Hnx.
      rewrite !decide_False; [done|set_solver..]. }
    rewrite !Hnx, decide_True by done. split; [done|]. rewrite decide_False, decide_True by set_solver.
    destruct rest as [|d rest]; cbn in *; (split; [|tauto]);
      destruct Hlk as [Hl _]; unfold next_of in Hl; by rewrite Htc in Hl.
Qed.

Lemma zinsert_zinsert {A} (l : list A) i x y : zinsert i x (zinsert i y l) = zinsert i x l.
Proof. unfold zinsert. destruct (i <? 0); [done|apply list_insert_insert_eq]. Qed.

Lemma zlookup_zinsert_eq {A} (l : list A) i x :
  0 ≤ i < Z.of_nat (length l) → zlookup (zinsert i x l) i = Some x.
Proof. intros. by rewrite zlookup_zinsert, decide_True. Qed.

(** The state that a successful spawn leaves. *)
Lemma sched_spawn_run s c tc t pool entry p m1 :
  task_count s < MAX_TASKS → current s = Some c → c ≠ task_count s →
  zlookup (tasks s) c = Some tc → zlookup (tasks s) (task_count s) = Some t →
  tlsf_malloc pool STACK_SIZE (s_mem s) = Ok (p, m1) → 0 < p → p + STACK_SIZE < 2 ^ 64 → fits 64 entry →
  let f := p + STACK_SIZE - sizeof_Registers - 8 in
  ∃ m2 s', sched_spawn pool entry s = Ok (task_count s, s') ∧
    popped (load_regs m2 f) = entry_context entry ∧
    (∀ b, ¬ (f ≤ b < f + sizeof_Registers) → load8 m2 b = load8 m1 b) ∧
    tasks s' = zinsert c (set_t_next (Some (task_count s)) tc)
      (zinsert (task_count s) (mkTask f p (task_count s) (t_next tc)) (tasks s)) ∧
    s_mem s' = m2 ∧ current s' = current s ∧ task_count s' = task_count s + 1.
Proof.
  intros Hlt Hcur Hne Htc Ht Hma Hp0 Hp1 He f. pose proof (zlookup_Some_bounds _ _ _ Ht) as Hb.
  set (id := task_count s) in *. set (s1 := set_s_mem m1 s).
  set (s2 := set_tasks (zinsert id (mkTask (t_rsp t) p id (t_next t)) (tasks s)) s1).
  assert (Hid2 : zlookup (tasks s2) id = Some (mkTask (t_rsp t) p id (t_next t))) by (by apply zlookup_zinsert_eq).
  destruct (setup_frame_spec s2 p entry id _ ltac:(lia) Hp1 He Hid2) as (m2 & Ef & Hpop & Hout).
  fold f in Ef, Hpop, Hout. set (s3 := set_tasks _ _) in Ef.
  assert (Ets3 : tasks s3 = zinsert id (mkTask f p id (t_next t)) (tasks s)) by (cbn; by rewrite zinsert_zinsert).
  assert (Hc3 : zlookup (tasks s3) c = Some tc) by (rewrite Ets3, zlookup_zinsert by done; by rewrite decide_False).
  set (s4 := set_tasks (zinsert id (mkTask f p id (t_next tc)) (tasks s)) s3).
  assert (Hc4 : zlookup (tasks s4) c = Some tc) by (cbn; rewrite zlookup_zinsert by done; by rewrite decide_False).
  exists m2. eexists. splits; [|exact Hpop|exact Hout|..].
  - unfold sched_spawn. mstep. fold id. rewrite (proj2 (Z.leb_gt _ _) Hlt). mstep. rewrite Hcur.
    erewrite bind_ok; [|unfold in_mem, zoom; rewrite Hma; reflexivity]. fold s1.
    erewrite bind_ok; [|by apply (upd_task_spec id _ s1 t)]. rewrite (proj2 (Z.eqb_neq p 0)) by lia.
    erewrite bind_ok; [|apply upd_task_spec; by apply zlookup_zinsert_eq].
    cbn [tasks set_tasks]. rewrite zinsert_zinsert. change (set_tasks _ (set_tasks _ s1)) with s2.
    mstep with Ef. cbn [deref]. mstep. erewrite bind_ok; [|unfold get_task; rewrite Hc3; reflexivity].
    erewrite bind_ok; [|apply upd_task_spec; rewrite Ets3; by apply zlookup_zinsert_eq].
    rewrite Ets3, zinsert_zinsert. change (set_tasks _ s3) with s4. mstep.
    erewrite bind_ok; [|by apply (upd_task_spec c _ s4 tc)]. mstep. reflexivity.
  - done.
  - done.
  - done.
  - done.
Qed.

(** A task outside the queue may change. *)
Lemma refines_outside area s q i t :
  refines area s q → i ∉ queue q → 0 ≤ i < 16 → refines area (set_tasks (zinsert i t (tasks s)) s) q.
Proof.
  intros [Hr Hs] Hi Hb. pose proof (ring_len _ _ Hr) as Hlen. split.
  - destruct Hr as [H1 H2 H3 H4 H5 (c & Hc & Hlk)]. split; [by cbn; rewrite length_zinsert|done..|].
    exists c. split; [done|]. eapply linked_ext; [|done]. intros x Hx. cbn. rewrite next_of_insert by lia.
    rewrite decide_False; [done|]. by intros ->.
  - intros j Hj. eapply suspended_frame; [..|by apply Hs]; [|done]. cbn. rewrite zlookup_zinsert by lia.
    rewrite decide_False; [done|]. intros ->. apply Hi. destruct (queue q); [done|by right].
Qed.

(** The new queue, once the tasks and the memory are known. *)
Lemma spawn_suspended area s c rest sv tc p m1 m2 s' entry :
  areas_ok area → ring s (c :: rest) → task_count s < MAX_TASKS → zlookup (tasks s) c = Some tc →
  (∀ i, i ∈ rest → suspended area (set_s_mem m1 s) i (sv i)) →
  area (task_count s) = (p, p + STACK_SIZE) →
  let f := p + STACK_SIZE - sizeof_Registers - 8 in
  popped (load_regs m2 f) = entry_context entry →
  (∀ b, ¬ (f ≤ b < f + sizeof_Registers) → load8 m2 b = load8 m1 b) →
  tasks s' = zinsert c (set_t_next (Some (task_count s)) tc)
      (zinsert (task_count s) (mkTask f p (task_count s) (t_next tc)) (tasks s)) →
  s_mem s' = m2 → current s' = current s → task_count s' = task_count s + 1 →
  refines area s' (insert_behind (task_count s) (entry_context entry) (mkQueue (c :: rest) sv)).
Proof.
  intros Ha Hr Hlt Htc Hs Hp f Hpop Hout Hts Hm Hc Hn. cbn [insert_behind queue saved].
  pose proof (ring_len _ _ Hr) as Hlen. pose proof (ring_count _ _ Hr) as Hcnt.
  pose proof (ring_nodup _ _ Hr) as Hnd. apply NoDup_cons in Hnd as [Hnc _].
  pose proof (zlookup_Some_bounds _ _ _ Htc) as Hb.
  assert (Hid : task_count s ∉ c :: rest) by (rewrite (ring_elem _ _ Hr); lia).
  assert (Hl : ∀ i, c ≠ i → zlookup (tasks s') i =
    if decide (task_count s = i) then Some (mkTask f p (task_count s) (t_next tc)) else zlookup (tasks s) i).
  { intros i Hi. rewrite Hts, zlookup_zinsert by (rewrite length_zinsert; lia). rewrite decide_False by done.
    apply zlookup_zinsert. unfold MAX_TASKS in *. lia. }
  split; [by eapply ring_insert|]. cbn [queue tail saved]. intros i Hi. unfold save.
  destruct (decide (task_count s = i)) as [<-|Hne].
  - eexists. rewrite Hl by set_solver. rewrite decide_True by done. splits; [done| | |by rewrite Hm].
    + rewrite Hp. cbn [fst t_rsp]. unfold f, STACK_SIZE, sizeof_Registers. lia.
    + rewrite Hp. cbn [snd t_rsp]. unfold f, STACK_SIZE, sizeof_Registers. lia.
  - assert (i ∈ rest) as Hin by set_solver. apply (suspended_frame area (set_s_mem m1 s)); [..|by apply Hs].
    + rewrite Hl by (intros ->; done). by rewrite decide_False.
    + intros a Hia. cbn [s_mem set_s_mem]. rewrite Hm. symmetry. apply Hout.
      destruct (proj2 Ha _ _ Hne) as [Hd|Hd]; rewrite Hp in Hd; cbn [fst snd] in Hd;
        unfold f, STACK_SIZE, sizeof_Registers in *; lia.
Qed.

(** Spawning on a full table, or when the heap has no stack, returns -1 and leaves the queue as it is. Otherwise the new
    task takes the next number and the place behind the current one, ready to start at its entry point, and the
    contexts of all other tasks are kept. *)
Theorem sched_spawn_refines area s q pool entry p m1 :
  areas_ok area → refines area s q → fits 64 entry →
  tlsf_malloc pool STACK_SIZE (s_mem s) = Ok (p, m1) → slice area s q m1 →
  p = 0 ∨ 0 < p ∧ area (task_count s) = (p, p + STACK_SIZE) →
  ∃ r s', sched_spawn pool entry s = Ok (r, s') ∧
    ((r = -1 ∧ (task_count s = MAX_TASKS ∨ p = 0) ∧ refines area s' q ∧ task_count s' = task_count s) ∨
     (r = task_count s ∧ r < MAX_TASKS ∧ p ≠ 0 ∧ task_count s' = r + 1 ∧
      refines area s' (insert_behind r (entry_context entry) q))).
Proof.
  intros Ha Href He Hma Hsl Hp. pose proof (refines_slice area s q m1 Href Hsl) as [Hr1 Hs1].
  destruct Href as [Hr _]. destruct q as [l sv]. cbn [queue saved] in *.
  destruct (ring_two _ _ Hr) as (c & d & rest & ->). pose proof (ring_count _ _ Hr) as Hn.
  destruct (decide (task_count s = MAX_TASKS)) as [Hfull|Hlt].
  { exists (-1), s. split; [unfold sched_spawn; mstep; by rewrite Hfull|]. left. splits; [done|by left| |done].
    split; [done|]. intros i Hi. eapply suspended_frame; [..|by apply (Hs1 i Hi)]; [done|].
    intros a Hin. symmetry. by apply (Hsl i Hi). }
  destruct (ring_lookup _ _ c Hr ltac:(left)) as [tc Htc].
  assert (Hnc : c ≠ task_count s) by (intros ->; by apply (Z.lt_irrefl (task_count s)), (ring_elem _ _ Hr); left).
  destruct (zlookup_lt (tasks s) (task_count s)) as [t Ht]; [rewrite (ring_len _ _ Hr); unfold MAX_TASKS in *; lia|].
  destruct Hp as [->|[Hp0 Hp]].
  - exists (-1). eexists. split.
    + unfold sched_spawn. mstep. rewrite (proj2 (Z.leb_gt _ _)) by lia. mstep. rewrite (ring_cur _ _ Hr). cbn [head].
      erewrite bind_ok; [|unfold in_mem, zoom; rewrite Hma; reflexivity].
      erewrite bind_ok; [|by apply (upd_task_spec _ _ (set_s_mem m1 s) t)]. reflexivity.
    + left. splits; [done|by right| |done]. apply (refines_outside area (set_s_mem m1 s) (mkQueue (c :: d :: rest) sv)).
      * by split.
      * cbn [queue]. rewrite (ring_elem _ _ Hr). lia.
      * unfold MAX_TASKS in *. lia.
  - pose proof (proj1 Ha (task_count s)) as Hrng. rewrite Hp in Hrng. cbn in Hrng.
    destruct (sched_spawn_run s c tc t pool entry p m1) as (m2 & s' & E & Hpop & Hout & Hts & Hm & Hc' & Hn');
      [lia|apply (ring_cur _ _ Hr)|done|done|done|done|done|lia|done|].
    exists (task_count s), s'. split; [done|]. right. splits; [done|lia|lia|done|].
    eapply spawn_suspended; eauto; lia.
Qed.

(** ** Initialisation *)

(** The entries of the first two tasks after [sched_init]. *)
Definition initial_tasks (p : Z) : list task :=
  mkTask (p + STACK_SIZE - sizeof_Registers - 8) p 0 (Some 1) :: mkTask 0 0 1 (Some 0) :: replicate 14 task_zero.

Lemma sched_init_run s pool idle h p m1 e x :
  tlsf_malloc pool STACK_SIZE (s_mem s) = Ok (p, m1) → 0 < p → p + STACK_SIZE < 2 ^ 64 → fits 64 idle →
  gate (s_cpu s) 0x20 = Some e → zlookup (g_ISRHandlers (s_cpu s)) 0x20 = Some x →
  ∃ m2 s', sched_init pool idle h s = Ok (tt, s') ∧ tasks s' = initial_tasks p ∧ s_mem s' = m2 ∧
    current s' = Some 1 ∧ task_count s' = 2 ∧
    popped (load_regs m2 (p + STACK_SIZE - sizeof_Registers - 8)) = entry_context idle ∧
    zlookup (g_ISRHandlers (s_cpu s')) 0x20 = Some h ∧ gate (s_cpu s') 0x20 = Some (enabled e).
Proof.
  intros Hma Hp0 Hp1 He Hg Hx.
  set (s1 := mkSched (mkTask 0 p 0 None :: replicate 15 task_zero) (current s) 0 m1 (s_cpu s) (lapic_log s)).
  destruct (setup_frame_spec s1 p idle 0 (mkTask 0 p 0 None) ltac:(lia) Hp1 He eq_refl) as (m2 & Ef & Hpop & _).
  destruct (ISR_RegisterHandler_spec 0x20 h (s_cpu s) e x Hg Hx) as (c' & Ec & Hg' & Hh').
  exists m2. eexists. splits.
  - unfold sched_init. mstep. mstep. erewrite bind_ok; [|unfold in_mem, zoom; cbn [s_mem set_task_count set_tasks]; rewrite Hma; reflexivity].
    mstep. mstep. match goal with |- (setup_frame _ _ _ ≫= _) ?s2 = _ => change s2 with s1 end.
    mstep with Ef. do 7 mstep. unfold in_cpu, zoom. cbn [s_cpu set_task_count set_current set_tasks set_s_mem s1].
    rewrite Ec. reflexivity.
  - reflexivity.
  - reflexivity.
  - reflexivity.
  - reflexivity.
  - exact Hpop.
  - cbn. by rewrite Hh'.
  - cbn. by rewrite Hg'.
Qed.

Lemma sched_init_spec area s pool idle h p m1 e x :
  areas_ok area → area 0 = (p, p + STACK_SIZE) → 0 < p → fits 64 idle →
  tlsf_malloc pool STACK_SIZE (s_mem s) = Ok (p, m1) →
  gate (s_cpu s) 0x20 = Some e → zlookup (g_ISRHandlers (s_cpu s)) 0x20 = Some x →
  ∃ s', sched_init pool idle h s = Ok (tt, s') ∧ refines area s' (mkQueue [1; 0] (λ _, entry_context idle)) ∧
    zlookup (g_ISRHandlers (s_cpu s')) 0x20 = Some h ∧ gate (s_cpu s') 0x20 = Some (enabled e) ∧ task_count s' = 2.
Proof.
  intros Ha H0 Hp He Hma Hg Hx. pose proof (proj1 Ha 0) as Hb. rewrite H0 in Hb. cbn in Hb.
  destruct (sched_init_run s pool idle h p m1 e x) as (m2 & s' & E & Ht & Hm & Hc & Hn & Hpop & Hh & Hg');
    [done|done|lia|done|done|done|].
  exists s'. splits; [done| |done|done|done]. split; cbn [queue saved tail].
  - split; rewrite ?Ht, ?Hc, ?Hn; [reflexivity|unfold MAX_TASKS; lia| | |reflexivity|].
    + intros i. rewrite !elem_of_cons, elem_of_nil. lia.
    + apply NoDup_cons. split; [|apply NoDup_singleton]. by intros ?%list_elem_of_singleton.
    + exists 1. split; [reflexivity|]. by repeat split.
  - intros i ->%list_elem_of_singleton. eexists. rewrite Ht, Hm, H0. splits; [reflexivity|..|exact Hpop];
      cbn [fst snd t_rsp]; unfold STACK_SIZE, sizeof_Registers; lia.
Qed.

(** ** Examples: a heap of 64 KiB at 0x100000, the boot stack below it *)

Definition sched_boot : sched :=
  let m := match tlsf_create_with_pool 0x100000 0x10000 ∅ with Ok (_, m) => m | _ => ∅ end in
  mkSched [] None 0 m cpu_boot [].
Definition stack_of (s : sched) : Z :=
  match tlsf_malloc 0x100000 STACK_SIZE (s_mem s) with Ok (p, _) => p | _ => 0 end.
Definition heap_after (s : sched) : memory :=
  match tlsf_malloc 0x100000 STACK_SIZE (s_mem s) with Ok (_, m) => m | _ => ∅ end.
Definition sample_sched : sched :=
  match sched_init 0x100000 0xffffffff80001000 0xffffffff80002000 sched_boot with Ok (_, s) => s | _ => sched_boot end.
Definition sample_area (i : Z) : Z * Z :=
  if decide (i = 0) then (stack_of sched_boot, stack_of sched_boot + STACK_SIZE)
  else if decide (i = 1) then (0x8000, 0x10000)
  else if decide (i = 2) then (stack_of sample_sched, stack_of sample_sched + STACK_SIZE)
  else (0, 0).
Definition sample_queue : queue_state := mkQueue [1; 0] (λ _, entry_context 0xffffffff80001000).

Lemma sample_stacks : stack_of sched_boot = 0x101990 ∧ stack_of sample_sched = 0x103998.
Proof. vm_compute. done. Qed.

Lemma sample_areas_ok : areas_ok sample_area.
Proof.
  destruct sample_stacks as [E1 E2]. unfold areas_ok, sample_area, STACK_SIZE. rewrite E1, E2. split.
  - intros i. repeat case_decide; cbn; lia.
  - intros i j Hij. repeat case_decide; cbn; lia.
Qed.

Lemma sample_malloc s : stack_of s ≠ 0 → tlsf_malloc 0x100000 STACK_SIZE (s_mem s) = Ok (stack_of s, heap_after s).
Proof. unfold stack_of, heap_after. by destruct (tlsf_malloc _ _ _) as [[p m]| | |]. Qed.

Lemma sample_refines : refines sample_area sample_sched sample_queue ∧ task_count sample_sched = 2.
Proof.
  destruct sample_stacks as [E1 E2].
  destruct (sched_init_spec sample_area sched_boot 0x100000 0xffffffff80001000 0xffffffff80002000
    (stack_of sched_boot) (heap_after sched_boot) (mkIDT 0 0 0 0 0 0 0) 0) as (s' & E & Href & _ & _ & Hn).
  - apply sample_areas_ok.
  - done.
  - by rewrite E1.
  - by split.
  - apply sample_malloc. by rewrite E1.
  - done.
  - done.
  - unfold sample_sched. rewrite E. split; [exact Href|exact Hn].
Qed.

#[local] Opaque sample_sched.

(** Agreement of two memories on a region, by evaluation. *)
Definition agree_b (m m' : memory) (l : list Z) : bool := forallb (λ a, load8 m a =? load8 m' a) l.

Lemma mem_agree_check lo hi m m' : agree_b m m' (seqZ lo (hi - lo)) = true → mem_agree lo hi m m'.
Proof.
  intros H a Ha. unfold agree_b in H. rewrite forallb_forall in H. apply Z.eqb_eq, H.
  apply list_elem_of_In, elem_of_seqZ. lia.
Qed.

Lemma sched_round_robin_witness :
  (∀ frames, ∃ rs s' q', ticks frames sample_sched = Ok (rs, s') ∧ ring s' q' ∧ task_count s' = task_count sample_sched ∧
     current s' = [1; 0] !! (length frames `mod` length [1; 0])%nat) ∧
  (∀ i, 0 ≤ i < task_count sample_sched → ∃ k : nat, Z.of_nat k < task_count sample_sched ∧
     ∀ frames, length frames = k → ∃ rs s', ticks frames sample_sched = Ok (rs, s') ∧ current s' = Some i).
Proof. exact (sched_round_robin sample_sched [1; 0] (proj1 (proj1 sample_refines))). Defined.

(** A context of the boot task. *)
Definition sample_context : Registers_t :=
  mkRegs 15 14 13 12 11 10 9 8 0xfff0 1 2 3 4 5 6 0 0 0xffffffff80003000 0x08 0x246 0xff78 0x10.



(** Two tasks whose stack pointer is still 0 are interrupted with their frames in the same place: the idle task (whose
    time slice comes second) overwrites the context of the spawned task, which then continues as the idle task. *)
Theorem spawned_tasks_share_frame :
  match (sched_spawn 0x100000 0xffffffff80004000;; r2 ← timer_interrupt sample_context; r0 ← timer_interrupt r2;
         r1 ← timer_interrupt r0; r ← timer_interrupt r1; mret (r2, r0, r)) sample_sched with
  | Ok ((r2, r0, r), s) => current s = Some 2 ∧ pushed r2 = pushed r0 ∧ rip r2 = 0xffffffff80004000 ∧ rip r0 = 0xffffffff80001000 ∧ r = r0
  | _ => False
  end.
Proof. vm_compute. done. Qed.

Lemma sched_spawn_refines_witness :
  ∃ r s', sched_spawn 0x100000 0xffffffff80004000 sample_sched = Ok (r, s') ∧
    ((r = -1 ∧ (task_count sample_sched = MAX_TASKS ∨ stack_of sample_sched = 0) ∧
      refines sample_area s' sample_queue ∧ task_count s' = task_count sample_sched) ∨
     (r = task_count sample_sched ∧ r < MAX_TASKS ∧ stack_of sample_sched ≠ 0 ∧ task_count s' = r + 1 ∧
      refines sample_area s' (insert_behind r (entry_context 0xffffffff80004000) sample_queue))).
Proof.
  destruct sample_stacks as [E1 E2]. destruct sample_refines as [Href Hn].
  apply (sched_spawn_refines sample_area sample_sched sample_queue 0x100000 0xffffffff80004000
    (stack_of sample_sched) (heap_after sample_sched)).
  - exact sample_areas_ok.
  - exact Href.
  - by split.
  - apply sample_malloc. by rewrite E2.
  - intros i ->%list_elem_of_singleton. apply mem_agree_check. vm_compute. reflexivity.
  - right. split; [by rewrite E2|]. by rewrite Hn.
Defined.

(** A spawned task starts with the stack pointer 0: [setup_frame] clears the frame and never sets its [rsp], which
    [iretq] loads, so the stack allocated for the task is not used. Here the idle task and a spawned one are resumed
    by the first two ticks. *)
Theorem spawned_task_without_stack :
  match (sched_spawn 0x100000 0xffffffff80004000;; timer_interrupt sample_context) sample_sched with
  | Ok (r, s) => rip r = 0xffffffff80004000 ∧ rsp r = 0 ∧
      (t ← zlookup (tasks s) 2; Some (t_stack_base t)) = Some (stack_of sample_sched)
  | _ => False
  end.
Proof. vm_compute. done. Qed.
