(* ===== verification/Print.v ===== *)
(** * Numbers and formatted output

    Model of src/kernel/main/util/util.c (itoa, atoi, atol), of
    print/kprintf.c (snprintf and kprintf), print/serial.c and print/log.c.
    Buffers that the caller provides are in memory.  A format is the list of
    its characters without the terminating NUL; reading past that NUL is a
    [Fault].  The arguments of a variadic call are a list; the terminal and
    the serial line are the list of the bytes written to them. *)
From Stdlib Require Import ZArith Lia Ascii String.
From stdpp Require Import base option gmap list.
From S2P Require Import Prelude Memory CString.

(** The bytes of a C string literal. *)
Fixpoint lit (s : string) : list Z :=
  match s with
  | EmptyString => []
  | String c s => Z.of_nat (nat_of_ascii c) :: lit s
  end.
Definition ch (c : ascii) : Z := Z.of_nat (nat_of_ascii c).

(** ** util.c *)

Definition __assert_fail {S A} : M S A := halt.

(** [(rem > 9) ? (rem - 10) + 'a' : rem + '0'] *)
Definition digit_char (rem : Z) : Z := if 9 <? rem then (rem - 10) + ch "a" else rem + ch "0".

(** The operands of [value % base] and [value / base] are converted to
    [uint32_t]. *)
Fixpoint itoa_digits (fuel : nat) (value base str i : Z) : M memory Z :=
  match fuel with
  | O => spin
  | S fuel =>
      if value =? 0 then mret i else
      if base =? 0 then fault else
      let rem := s32 (u32 value `mod` base) in
      put_char (str + i) (digit_char rem);;
      itoa_digits fuel (s32 (u32 value / base)) base str (i + 1)
  end.

Fixpoint itoa_reverse (fuel : nat) (str start end_ : Z) : M memory unit :=
  match fuel with
  | O => if start <? end_ then spin else mret tt
  | S fuel =>
      if start <? end_ then
        temp ← char_at (str + start);
        c ← char_at (str + end_);
        put_char (str + start) c;;
        put_char (str + end_) temp;;
        itoa_reverse fuel str (start + 1) (end_ - 1)
      else mret tt
  end.

(** At most 32 digits are produced for a base of 2 or more. *)
Definition itoa (value str base : Z) : M memory Z :=
  if value =? 0 then
    put_char str (ch "0");;
    put_char (str + 1) 0;;
    mret str
  else
    let isNegative := (value <? 0) && (base =? 10) in
    if isNegative && (value =? - 2 ^ 31) then fault else
    let value := if isNegative then - value else value in
    i ← itoa_digits 33 value base str 0;
    (if isNegative then put_char (str + i) (ch "-") else mret tt);;
    let i := if isNegative then i + 1 else i in
    put_char (str + i) 0;;
    itoa_reverse (Z.to_nat i) str 0 (i - 1);;
    mret str.

Definition is_blank (c : Z) : bool := (c =? ch " ") || (c =? 9) || (c =? 10).
Definition is_digit (c : Z) : bool := (ch "0" <=? c) && (c <=? ch "9").

Fixpoint skip_blanks (fuel : nat) (str : Z) : M memory Z :=
  match fuel with
  | O => spin
  | S fuel => c ← char_at str; if is_blank c then skip_blanks fuel (str + 1) else mret str
  end.
(** [w] is the width of the result; signed overflow is undefined. *)
Fixpoint read_digits (fuel : nat) (w str result : Z) : M memory Z :=
  match fuel with
  | O => spin
  | S fuel =>
      c ← char_at str;
      if is_digit c then
        let r := result * 10 + (c - ch "0") in
        if swrap w (result * 10) =? result * 10 then
          if swrap w r =? r then read_digits fuel w (str + 1) r else fault
        else fault
      else mret result
  end.
Definition ato (w : Z) (fuel : nat) (str : Z) : M memory Z :=
  str ← skip_blanks fuel str;
  c ← char_at str;
  let sign := if c =? ch "-" then -1 else 1 in
  let str := if (c =? ch "-") || (c =? ch "+") then str + 1 else str in
  result ← read_digits fuel w str 0;
  mret (sign * result).
Definition atoi : nat → Z → M memory Z := ato 32.
Definition atol : nat → Z → M memory Z := ato 64.

(** ** Variadic arguments

    An integer or pointer argument is its 64-bit slot; a string argument is
    its contents ([None] is NULL); a [double] is given by the integers the
    code derives from it, its integral part and the next six decimals. *)
Inductive varg :=
| VInt (slot : Z)
| VStr (s : option (list Z))
| VDouble (int_part frac : Z).

Definition next_slot (args : list varg) : outcome (Z * list varg) :=
  match args with VInt z :: args => Ok (z, args) | _ => Fault end.
Definition next_str (args : list varg) : outcome (option (list Z) * list varg) :=
  match args with VStr s :: args => Ok (s, args) | _ => Fault end.

(** [*f] at the end of the format is the NUL. *)
Definition hd0 (f : list Z) : Z := match f with c :: _ => c | [] => 0 end.

(** ** snprintf *)

Definition FLAG_ZERO_PAD : Z := 0x01.
Definition FLAG_LEFT_JUST : Z := 0x02.
Definition FLAG_SIGN_SPACE : Z := 0x04.
Definition FLAG_SIGN_PLUS : Z := 0x08.
Definition FLAG_ALT_FORM : Z := 0x10.
Definition has (flags f : Z) : bool := negb (Z.land flags f =? 0).

Definition digits : list Z := lit "0123456789abcdef".
Definition digits_upper : list Z := lit "0123456789ABCDEF".

(** The output of vsnprintf: [out] (0 is NULL) and [remaining]. *)
Record sink := mkSink { k_mem : memory; out : Z; remaining : Z }.

Definition print_char (c : Z) : M sink unit := λ k,
  if (out k =? 0) || (remaining k <=? 1) then Ok (tt, k)
  else Ok (tt, mkSink (store8 (k_mem k) (out k) c) (out k + 1) (remaining k - 1)).

Fixpoint print_chars (s : list Z) : M sink unit :=
  match s with
  | [] => mret tt
  | c :: s =>
      r ← gets remaining;
      if 1 <? r then print_char c;; print_chars s else mret tt
  end.
Definition print_string (s : option (list Z)) : M sink unit :=
  print_chars (default (lit "(null)") s).

(** [while (len < width && *remaining > 1)], [n] times at most *)
Fixpoint print_pad (n : nat) (pad : Z) : M sink unit :=
  match n with
  | O => mret tt
  | S n =>
      r ← gets remaining;
      if 1 <? r then print_char pad;; print_pad n pad else mret tt
  end.

(** The digits of [n], least significant first; a 64-bit number has at most 64
    of them. *)
Fixpoint digit_loop (fuel : nat) (digits : list Z) (n base : Z) : list Z :=
  match fuel with
  | O => []
  | S fuel =>
      if 0 <? n then default 0 (zlookup digits (n `mod` base)) :: digit_loop fuel digits (n / base) base
      else []
  end.
Definition digit_buffer (digits : list Z) (n base : Z) : list Z :=
  if n =? 0 then [ch "0"] else digit_loop 64 digits n base.

Definition print_unsigned (digits : list Z) (n base width flags : Z) : M sink unit :=
  let buffer := digit_buffer digits n base in
  let pad := Z.to_nat (width - Z.of_nat (length buffer)) in
  (if negb (has flags FLAG_LEFT_JUST)
   then print_pad pad (if has flags FLAG_ZERO_PAD then ch "0" else ch " ") else mret tt);;
  print_chars (reverse buffer);;
  if has flags FLAG_LEFT_JUST then print_pad pad (ch " ") else mret tt.

Definition print_int (n base width flags : Z) : M sink unit :=
  if n <? 0 then
    if n =? - 2 ^ 63 then fault else
    print_char (ch "-");;
    print_unsigned digits (- n) base (width - 1) flags
  else if has flags FLAG_SIGN_PLUS then
    print_char (ch "+");; print_unsigned digits n base (width - 1) flags
  else if has flags FLAG_SIGN_SPACE then
    print_char (ch " ");; print_unsigned digits n base (width - 1) flags
  else print_unsigned digits n base width flags.

(** ** Directives

    The flags, the width, the precision and the length of a directive; the
    functions return what is left of the format. *)

Fixpoint parse_flags (f : list Z) (flags : Z) : Z * list Z :=
  match f with
  | c :: f' =>
      if c =? ch "0" then parse_flags f' (Z.lor flags FLAG_ZERO_PAD)
      else if c =? ch "-" then parse_flags f' (Z.lor flags FLAG_LEFT_JUST)
      else if c =? ch " " then parse_flags f' (Z.lor flags FLAG_SIGN_SPACE)
      else if c =? ch "+" then parse_flags f' (Z.lor flags FLAG_SIGN_PLUS)
      else if c =? ch "#" then parse_flags f' (Z.lor flags FLAG_ALT_FORM)
      else (flags, f)
  | [] => (flags, [])
  end.
(** A decimal number of type [int]; overflow is undefined. *)
Fixpoint parse_number (f : list Z) (n : Z) : outcome (Z * list Z) :=
  match f with
  | c :: f' =>
      if is_digit c then
        let r := n * 10 + (c - ch "0") in
        if s32 r =? r then parse_number f' r else Fault
      else Ok (n, f)
  | [] => Ok (n, [])
  end.
Definition parse_amount (f : list Z) (args : list varg) : outcome (Z * list Z * list varg) :=
  if hd0 f =? ch "*" then
    match next_slot args with
    | Ok (z, args) => Ok (s32 z, tail f, args)
    | _ => Fault
    end
  else
    match parse_number f 0 with
    | Ok (n, f) => Ok (n, f, args)
    | _ => Fault
    end.
Definition parse_precision (f : list Z) (args : list varg) : outcome (Z * list Z * list varg) :=
  if hd0 f =? ch "." then parse_amount (tail f) args else Ok (-1, f, args).

Inductive length_mod := LENGTH_NONE | LENGTH_SHORT | LENGTH_LONG | LENGTH_LONG_LONG.
Definition parse_length (f : list Z) : length_mod * list Z :=
  if hd0 f =? ch "h" then (LENGTH_SHORT, tail f)
  else if hd0 f =? ch "l" then
    let f := tail f in
    if hd0 f =? ch "l" then (LENGTH_LONG_LONG, tail f) else (LENGTH_LONG, f)
  else (LENGTH_NONE, f).

Record directive := mkDir { d_flags : Z; d_width : Z; d_precision : Z; d_length : length_mod; d_conv : Z }.

(** From behind the [%]: the directive and what follows it.  [d_conv] is the
    conversion character; at the end of the format it is the NUL. *)
Definition parse_directive (f : list Z) (args : list varg) : outcome (directive * list Z * list varg) :=
  let '(flags, f) := parse_flags f 0 in
  match parse_amount f args with
  | Ok (width, f, args) =>
      match parse_precision f args with
      | Ok (precision, f, args) =>
          let '(len, f) := parse_length f in
          Ok (mkDir flags width precision len (hd0 f), f, args)
      | _ => Fault
      end
  | _ => Fault
  end.

Definition signed_arg (len : length_mod) (z : Z) : Z :=
  match len with LENGTH_LONG | LENGTH_LONG_LONG => s64 z | _ => s32 z end.
Definition unsigned_arg (len : length_mod) (z : Z) : Z :=
  match len with LENGTH_LONG | LENGTH_LONG_LONG => u64 z | _ => u32 z end.

(** The directive applied to its argument; the result are the arguments left. *)
Definition run_directive (d : directive) (args : list varg) : M sink (list varg) :=
  let with_slot (k : Z → M sink unit) : M sink (list varg) :=
    match next_slot args with
    | Ok (z, args) => k z;; mret args
    | _ => fault
    end in
  let flags := d_flags d in
  if d_conv d =? ch "c" then with_slot (λ z, print_char (s8 z))
  else if d_conv d =? ch "s" then
    match next_str args with
    | Ok (s, args) => print_string s;; mret args
    | _ => fault
    end
  else if (d_conv d =? ch "d") || (d_conv d =? ch "i") then
    with_slot (λ z, print_int (signed_arg (d_length d) z) 10 (d_width d) flags)
  else if d_conv d =? ch "u" then
    with_slot (λ z, print_unsigned digits (unsigned_arg (d_length d) z) 10 (d_width d) flags)
  else if d_conv d =? ch "x" then
    with_slot (λ z,
      let n := unsigned_arg (d_length d) z in
      (if has flags FLAG_ALT_FORM && negb (n =? 0) then print_string (Some (lit "0x")) else mret tt);;
      print_unsigned digits n 16 (d_width d) flags)
  else if d_conv d =? ch "X" then
    with_slot (λ z,
      let n := unsigned_arg (d_length d) z in
      (if has flags FLAG_ALT_FORM && negb (n =? 0) then print_string (Some (lit "0X")) else mret tt);;
      print_unsigned digits_upper n 16 (d_width d) flags)
  else if d_conv d =? ch "p" then
    with_slot (λ z,
      print_string (Some (lit "0x"));;
      print_unsigned digits (u64 z) 16 (d_width d) flags)
  else if d_conv d =? ch "%" then print_char (ch "%");; mret args
  else print_char (ch "%");; print_char (d_conv d);; mret args.

(** The loop over the format; [fuel] is the length of the format and one more. *)
Fixpoint vsnprintf_loop (fuel : nat) (f : list Z) (args : list varg) : M sink unit :=
  match fuel with
  | O => spin
  | S fuel =>
      match f with
      | [] => mret tt
      | c :: f =>
          if negb (c =? ch "%") then print_char c;; vsnprintf_loop fuel f args else
          match parse_directive f args with
          | Ok (d, f, args) =>
              args ← run_directive d args;
              match f with
              | [] => fault             (* f++ steps over the NUL *)
              | _ :: f => vsnprintf_loop fuel f args
              end
          | _ => fault
          end
      end
  end.

Definition vsnprintf (str size : Z) (format : list Z) (ap : list varg) : M memory Z := λ m,
  let k := if (str =? 0) || (size =? 0) then mkSink m 0 (2 ^ 64 - 1) else mkSink m str size in
  match vsnprintf_loop (S (length format)) format ap k with
  | Ok (_, k) =>
      let m := k_mem k in
      let m := if negb (str =? 0) && (0 <? size) then
                 if 0 <? remaining k then store8 m (out k) 0 else store8 m (str + size - 1) 0
               else m in
      Ok (s32 (out k - str), m)
  | Halt => Halt | Fault => Fault | Spin => Spin
  end.
Definition snprintf := vsnprintf.

(** ** kprintf *)

(** Bytes as the terminal gets them. *)
Definition flanterm_write_translated (buf : list Z) : list Z :=
  flat_map (λ c, if c =? 10 then [13; 10] else [c]) buf.

(** The text [itoa] leaves in a buffer of the caller's frame. *)
Definition itoa_text (value base : Z) : outcome (list Z) :=
  match itoa (s32 value) 0 base ∅ with
  | Ok (_, m) =>
      match strlen 64 0 m with
      | Ok (n, _) => Ok ((λ i, load8 m i) <$> seqZ 0 n)
      | _ => Fault
      end
  | Halt => Halt | Fault => Fault | Spin => Spin
  end.

(** The number after an optional [0]; [pad] is an [int]. *)
Definition parse_pad (f : list Z) : outcome (Z * Z * list Z) :=
  let '(pad_char, f) := if hd0 f =? ch "0" then (ch "0", tail f) else (ch " ", f) in
  match parse_number f 0 with
  | Ok (pad, f) => Ok (pad_char, pad, f)
  | _ => Fault
  end.
Definition parse_long (f : list Z) : length_mod * list Z :=
  if hd0 f =? ch "l" then
    let f := tail f in
    if hd0 f =? ch "l" then (LENGTH_LONG_LONG, tail f) else (LENGTH_LONG, f)
  else if hd0 f =? ch "L" then (LENGTH_LONG_LONG, tail f)
  else (LENGTH_NONE, f).

(** What one directive of kprintf writes, the count it adds and the arguments
    left.  The count of a converted text is its length before translation. *)
Definition kprintf_padded (pad pad_char : Z) (prefix p : list Z) : list Z * Z :=
  let len := Z.of_nat (length p) in
  let fill := replicate (Z.to_nat (pad - len)) pad_char in
  (prefix ++ fill ++ flanterm_write_translated p,
   Z.of_nat (length prefix) + Z.of_nat (length fill) + len).

Definition kprintf_directive (c pad pad_char : Z) (len : length_mod) (args : list varg)
    : outcome (list Z * Z * list varg) :=
  if (c =? ch "d") || (c =? ch "u") || (c =? ch "x") || (c =? ch "o") then
    match next_slot args with
    | Ok (z, args) =>
        let prefix := if c =? ch "x" then lit "0x" else [] in
        match itoa_text z (if c =? ch "x" then 16 else if c =? ch "o" then 8 else 10) with
        | Ok p => Ok (kprintf_padded pad pad_char prefix p, args)
        | _ => Fault
        end
    | _ => Fault
    end
  else if c =? ch "f" then
    match args with
    | VDouble int_part frac :: args =>
        match itoa_text int_part 10, itoa_text frac 10 with
        | Ok a, Ok b => Ok (a ++ lit "." ++ b, Z.of_nat (length a + 1 + length b), args)
        | _, _ => Fault
        end
    | _ => Fault
    end
  else if c =? ch "s" then
    match next_str args with
    | Ok (s, args) => Ok (kprintf_padded pad pad_char [] (default (lit "(null)") s), args)
    | _ => Fault
    end
  else if c =? ch "c" then
    match next_slot args with
    | Ok (z, args) =>
        let ch := u8 z in
        Ok (if ch =? 10 then ([13; 10], 2) else ([ch], 1), args)
    | _ => Fault
    end
  else if c =? ch "p" then
    match next_slot args with
    | Ok (z, args) =>
        match itoa_text z 16 with
        | Ok p => Ok (kprintf_padded pad pad_char (lit "0x") p, args)
        | _ => Fault
        end
    | _ => Fault
    end
  else if c =? ch "m" then
    match next_str args with
    | Ok (s, args) =>
        let len := if pad =? 0 then 16 else pad in
        let mem := default (lit "(null)") s in
        (* the bytes behind the string and its NUL are not the caller's *)
        if Z.of_nat (length mem) + 1 <? len then Fault
        else Ok (take (Z.to_nat len) (mem ++ [0]), Z.max 0 len, args)
    | _ => Fault
    end
  else Ok (lit "%" ++ [c], 2, args).

Fixpoint kprintf_loop (fuel : nat) (f : list Z) (args : list varg) (outp : list Z) (chars_written : Z)
    : outcome (list Z * Z) :=
  match fuel with
  | O => Spin
  | S fuel =>
      match f with
      | [] => Ok (outp, chars_written)
      | c :: f =>
          if negb (c =? ch "%") then
            if c =? 10 then kprintf_loop fuel f args (outp ++ [13; 10]) (chars_written + 2)
            else kprintf_loop fuel f args (outp ++ [c]) (chars_written + 1)
          else
            match parse_pad f with
            | Ok (pad_char, pad, f) =>
                let '(len, f) := parse_long f in
                match kprintf_directive (hd0 f) pad pad_char len args with
                | Ok (o, n, args) =>
                    match f with
                    | [] => Fault          (* the NUL was consumed *)
                    | _ :: f => kprintf_loop fuel f args (outp ++ o) (chars_written + n)
                    end
                | _ => Fault
                end
            | _ => Fault
            end
      end
  end.
(** [global_flanterm] tells whether the terminal exists. *)
Definition kprintf (global_flanterm : bool) (format : list Z) (args : list varg) : outcome (list Z * Z) :=
  if negb global_flanterm then Ok ([], -1)
  else kprintf_loop (S (length format)) format args [] 0.

(** ** serial.c

    The line status that [serial_wait_tx] polls is the device's; the bytes
    sent are the list that the functions return. *)

Definition PORT : Z := 0x3F8.
(** The port writes of init_serial and its result, given the byte that the
    loop-back read returns. *)
Definition init_serial (loopback : Z) : list (Z * Z) * Z :=
  let w := [(PORT + 1, 0x00); (PORT + 3, 0x80); (PORT + 0, 0x03); (PORT + 1, 0x00); (PORT + 3, 0x03);
            (PORT + 2, 0xC7); (PORT + 4, 0x0B); (PORT + 4, 0x1E); (PORT + 0, 0xAE)] in
  if negb (loopback =? 0xAE) then (w, 1) else (w ++ [(PORT + 4, 0x0F)], 0).
Definition serial_received (status : Z) : Z := Z.land status 1.

Definition serial_write (msg : option (list Z)) : list Z :=
  match msg with
  | None => []
  | Some s => flat_map (λ c, if c =? 10 then [13; c] else [c]) s
  end.

Definition write_uint_dec (val : Z) : list Z := reverse (digit_buffer digits val 10).
Definition write_uint_hex (val : Z) (uppercase : bool) : list Z :=
  reverse (digit_buffer (if uppercase then digits_upper else digits) val 16).

Definition serial_length (f : list Z) : length_mod * list Z :=
  if hd0 f =? ch "l" then
    let f := tail f in
    if hd0 f =? ch "l" then (LENGTH_LONG_LONG, tail f) else (LENGTH_LONG, f)
  else if hd0 f =? ch "z" then (LENGTH_LONG_LONG, tail f)
  else (LENGTH_NONE, f).

Definition serial_directive (c : Z) (len : length_mod) (args : list varg) : outcome (list Z * list varg) :=
  let with_slot (k : Z → outcome (list Z)) :=
    match next_slot args with
    | Ok (z, args) => match k z with Ok o => Ok (o, args) | _ => Fault end
    | _ => Fault
    end in
  if (c =? ch "d") || (c =? ch "i") then
    with_slot (λ z,
      let val := signed_arg len z in
      if val =? - 2 ^ 63 then Fault
      else Ok (if val <? 0 then ch "-" :: write_uint_dec (- val) else write_uint_dec val))
  else if c =? ch "u" then with_slot (λ z, Ok (write_uint_dec (unsigned_arg len z)))
  else if (c =? ch "x") || (c =? ch "X") then
    with_slot (λ z, Ok (lit "0x" ++ write_uint_hex (unsigned_arg len z) (c =? ch "X")))
  else if c =? ch "p" then with_slot (λ z, Ok (lit "0x" ++ write_uint_hex (u64 z) false))
  else if c =? ch "s" then
    match next_str args with
    | Ok (s, args) => Ok (serial_write (Some (default (lit "(null)") s)), args)
    | _ => Fault
    end
  else if c =? ch "c" then with_slot (λ z, Ok [u8 z])
  else if c =? ch "%" then Ok (lit "%", args)
  else Ok (lit "%" ++ [c], args).

Fixpoint serial_loop (fuel : nat) (f : list Z) (args : list varg) (sent : list Z) : outcome (list Z) :=
  match fuel with
  | O => Spin
  | S fuel =>
      match f with
      | [] => Ok sent
      | c :: f =>
          if negb (c =? ch "%") then
            serial_loop fuel f args (sent ++ (if c =? 10 then [13; c] else [c]))
          else
            match f with
            | [] => Ok sent
            | _ :: _ =>
                let '(len, f) := serial_length f in
                match serial_directive (hd0 f) len args with
                | Ok (o, args) =>
                    match f with
                    | [] => Fault
                    | _ :: f => serial_loop fuel f args (sent ++ o)
                    end
                | _ => Fault
                end
            end
      end
  end.
Definition serial_printf (fmt : list Z) (args : list varg) : outcome (list Z) :=
  serial_loop (S (length fmt)) fmt args [].

(** ** log.c *)

Inductive result_t := ROk | RInfo | RWarn | RFatal.
Definition result_str (r : result_t) : list Z :=
  match r with
  | ROk => lit "[  OK  ]" | RInfo => lit "[ INFO ]" | RWarn => lit "[ WARN ]" | RFatal => lit "[FAILED]"
  end.
Definition esc (s : string) : list Z := 27 :: lit s.
Definition COLOR_RESET : list Z := esc "[0m".
Definition COLOR_DIM : list Z := esc "[2m".
Definition get_status_color (r : result_t) : list Z :=
  match r with ROk => esc "[32m" | RInfo => esc "[1m" | RWarn => esc "[33m" | RFatal => esc "[31m" end.

(** [fmt_uint]: at most 20 digits fit its buffer. *)
Definition fmt_uint (val base : Z) : list Z := reverse (digit_buffer digits val base).

(** The buffer [message] of 1024 bytes, as the bytes stored so far.  A store
    behind its end is a [Fault]; [done] ends the message early. *)
Definition MESSAGE_SIZE : Z := 1024.
Inductive msg := More (text : list Z) | Done (text : list Z) | Overrun.
Definition msg_bind (m : msg) (f : list Z → msg) : msg :=
  match m with More t => f t | Done t => Done t | Overrun => Overrun end.

(** [strcpy_advance], which does not know the size of the buffer *)
Definition strcpy_advance (src text : list Z) : option (list Z) :=
  if Z.of_nat (length text) + Z.of_nat (length src) <=? MESSAGE_SIZE then Some (text ++ src) else None.
Definition SAFE_ADVANCE (src text : list Z) : msg :=
  match strcpy_advance src text with
  | Some t => if MESSAGE_SIZE - 1 <=? Z.of_nat (length t) then Done t else More t
  | None => Overrun
  end.
Definition SAFE_CHAR (c : Z) (text : list Z) : msg :=
  if Z.of_nat (length text) <? MESSAGE_SIZE - 1 then More (text ++ [c]) else Done text.

Definition of_text (o : outcome (list Z)) (k : list Z → msg) : msg :=
  match o with Ok t => k t | _ => Overrun end.

(** [ms] is the clock, get_time_ms *)
Definition write_timestamp (ms : Z) : outcome (list Z) :=
  match itoa_text (ms / 1000) 10, itoa_text (ms `mod` 1000) 10 with
  | Ok sec_str, Ok frac_str =>
      Ok (lit "[ " ++ replicate (4 - length sec_str) (ch " ") ++ sec_str ++ lit "." ++
          replicate (3 - length frac_str) (ch "0") ++ frac_str ++ lit " ] ")
  | _, _ => Fault
  end.

(** The part of the path behind the last separator. *)
Fixpoint last_slash (f best : list Z) : list Z :=
  match f with
  | [] => best
  | c :: f => last_slash f (if (c =? ch "/") || (c =? 92) then f else best)
  end.

(** One round of the loop over the format, at a [%] and behind it. *)
Definition log_directive (c : Z) (args : list varg) (text : list Z) : msg * list varg :=
  let with_slot (k : Z → msg) : msg * list varg :=
    match next_slot args with Ok (z, args) => (k z, args) | _ => (Overrun, args) end in
  if (c =? ch "d") || (c =? ch "i") then
    with_slot (λ z, of_text (itoa_text z 10) (λ num, SAFE_ADVANCE num text))
  else if c =? ch "u" then with_slot (λ z, SAFE_ADVANCE (fmt_uint (u32 z) 10) text)
  else if c =? ch "s" then
    match next_str args with
    | Ok (Some s, args) => (SAFE_ADVANCE s text, args)
    | Ok (None, args) => (More text, args)
    | _ => (Overrun, args)
    end
  else if (c =? ch "p") || (c =? ch "x") then
    with_slot (λ z, msg_bind (SAFE_CHAR (ch "0") text) (λ text, msg_bind (SAFE_CHAR (ch "x") text)
      (SAFE_ADVANCE (fmt_uint (u64 z) 16))))
  else if c =? ch "%" then (SAFE_CHAR (ch "%") text, args)
  else (msg_bind (SAFE_CHAR (ch "%") text) (SAFE_CHAR c), args).

Fixpoint log_loop (fuel : nat) (f : list Z) (args : list varg) (text : list Z) : msg :=
  match fuel with
  | O => Overrun
  | S fuel =>
      match f with
      | [] => More text
      | c :: f =>
          if negb (Z.of_nat (length text) <? MESSAGE_SIZE - 1) then More text else
          if c =? ch "%" then
            let '(m, args) := log_directive (hd0 f) args text in
            msg_bind m (log_loop fuel (tail f) args)
          else msg_bind (SAFE_CHAR c text) (log_loop fuel f args)
      end
  end.

(** The text of the message; [None] when the buffer is overrun. *)
Definition log_text (ms : Z) (status : result_t) (from file : list Z) (line : Z) (fmt : list Z) (args : list varg) : msg :=
  let adv (src : list Z) (m : msg) : msg := msg_bind m (SAFE_ADVANCE src) in
  let chr (c : Z) (m : msg) : msg := msg_bind m (SAFE_CHAR c) in
  of_text (write_timestamp ms) (λ t0,
  let m := adv (result_str status) (adv (get_status_color status) (More t0)) in
  let m := match status with RInfo => m | _ => adv COLOR_RESET m end in
  let m := adv (lit " in ") (adv from (chr (ch "[") (chr (ch " ") (adv COLOR_DIM m)))) in
  let m := chr (ch ":") (adv (last_slash file file) m) in
  msg_bind m (λ t, of_text (itoa_text line 10) (λ line_str,
  let m := chr (ch " ") (adv COLOR_RESET (chr (ch "]") (SAFE_ADVANCE line_str t))) in
  msg_bind m (log_loop (S (length fmt)) fmt args)))).

Definition log_to_terminal (global_flanterm : bool) (ms : Z) (status : result_t) (from file : option (list Z))
    (line : Z) (fmt : option (list Z)) (args : list varg) : outcome (list Z) :=
  if negb global_flanterm then Ok [] else
  let from := default (lit "<unknown>") from in
  let file := default (lit "<unknown>") file in
  match fmt with
  | None => Ok []
  | Some fmt =>
      match log_text ms status from file line fmt args with
      | More t | Done t =>
          (* *ptr = 0 *)
          if Z.of_nat (length t) <? MESSAGE_SIZE then Ok (flanterm_write_translated t) else Fault
      | Overrun => Fault
      end
  end.

Definition printcol (global_flanterm : bool) (color text : list Z) : list Z :=
  if global_flanterm then color ++ flanterm_write_translated text ++ COLOR_RESET else [].
