(* ===== verification/PrintProof.v ===== *)
(** * Theorems of the number conversions and formatted output *)
From Stdlib Require Import ZArith Lia Ascii String.
From stdpp Require Import base option gmap list.
From S2P Require Import Prelude Memory CString CStringProof Print.

(** ** Digits *)

(** The number that a sequence of digit values denotes, most significant first. *)
Definition number (base : Z) (ds : list Z) : Z := foldl (λ a d, a * base + d) 0 ds.
(** The value of a digit character. *)
Definition digit_value (c : Z) : Z :=
  if is_digit c then c - ch "0" else if (ch "a" <=? c) then c - ch "a" + 10 else c - ch "A" + 10.

Lemma number_snoc base ds d : number base (ds ++ [d]) = number base ds * base + d.
Proof. unfold number. by rewrite foldl_app. Qed.

Lemma digits_value upper d :
  0 ≤ d < 16 → ∃ c, zlookup (if upper : bool then digits_upper else digits) d = Some c ∧ digit_value c = d ∧ 0 < c < 128.
Proof.
  intros Hd. assert (d = 0 ∨ d = 1 ∨ d = 2 ∨ d = 3 ∨ d = 4 ∨ d = 5 ∨ d = 6 ∨ d = 7 ∨ d = 8 ∨ d = 9 ∨ d = 10 ∨ d = 11 ∨
    d = 12 ∨ d = 13 ∨ d = 14 ∨ d = 15) as Hc by lia.
  destruct upper; destruct_or! Hc; subst; eexists; (split; [reflexivity|]); vm_compute; done.
Qed.

(** The digit characters of [n], least significant first. *)
Lemma digit_loop_value upper base : 2 ≤ base ≤ 16 → ∀ fuel n, 0 ≤ n < 2 ^ Z.of_nat fuel →
  number base (digit_value <$> reverse (digit_loop fuel (if upper : bool then digits_upper else digits) n base)) = n ∧
  Forall (λ c, 0 < c < 128) (digit_loop fuel (if upper then digits_upper else digits) n base) ∧
  (0 < n → ∃ c, last (digit_loop fuel (if upper then digits_upper else digits) n base) = Some c ∧ digit_value c ≠ 0).
Proof.
  intros Hb. induction fuel as [|fuel IH]; intros n Hn.
  - cbn in Hn. assert (n = 0) as -> by lia. splits; [done|done|lia].
  - cbn [digit_loop]. destruct (Z.ltb_spec 0 n) as [Hpos|]; [|splits; [cbn; lia|done|lia]].
    pose proof (Z.mod_pos_bound n base ltac:(lia)) as Hm. pose proof (Z.div_mod n base ltac:(lia)) as Hdm.
    destruct (digits_value upper (n `mod` base) ltac:(lia)) as (c & -> & Hc & Hcr). cbn [default from_option id].
    assert (0 ≤ n / base < 2 ^ Z.of_nat fuel) as Hq.
    { split; [apply Z.div_pos; lia|]. apply Z.div_lt_upper_bound; [lia|].
      rewrite Nat2Z.inj_succ, Z.pow_succ_r in Hn by lia. nia. }
    destruct (IH (n / base) Hq) as (H1 & H2 & H3). splits.
    + rewrite reverse_cons, fmap_app. change (digit_value <$> [c]) with [digit_value c].
      rewrite number_snoc, H1, Hc. lia.
    + by constructor.
    + intros _. destruct (decide (0 < n / base)) as [Hq0|Hq0].
      * destruct (H3 Hq0) as (x & Hx & Hx0). exists x. split; [|done].
        destruct (digit_loop fuel _ (n / base) base) as [|y l]; [done|]. by rewrite last_cons_cons.
      * exists c. assert (n / base = 0) as -> by lia. split; [by destruct fuel|]. rewrite Hc. nia.
Qed.

Lemma number_text_spec (upper : bool) n base :
  fits 64 n → 2 ≤ base ≤ 16 →
  let text := reverse (digit_buffer (if upper then digits_upper else digits) n base) in
  number base (digit_value <$> text) = n ∧ Forall (λ c, 0 < c < 128) text ∧ text ≠ [] ∧
  (n ≠ 0 → ∃ c, head text = Some c ∧ digit_value c ≠ 0).
Proof.
  intros Hn Hb. unfold digit_buffer. destruct (Z.eqb_spec n 0) as [->|Hne].
  { splits; [reflexivity|by repeat constructor|discriminate|by intros []]. }
  destruct (digit_loop_value upper base Hb 64 n Hn) as (H1 & H2 & H3). unfold fits in Hn.
  destruct H3 as (c & Hc & Hc0); [lia|]. apply last_Some in Hc as [l El]. cbv zeta. rewrite El in *.
  splits; [done|by apply Forall_reverse| |].
  - rewrite reverse_app. done.
  - intros _. exists c. rewrite reverse_app. done.
Qed.

(** The text of an unsigned 64-bit number, as snprintf, the serial port and the log print it (base 10 or 16, upper or
    lower case), denotes the number, consists of non-NUL characters, and has no leading zero unless it is 0 itself. *)
Theorem number_text_correct (upper : bool) n base :
  fits 64 n → 2 ≤ base ≤ 16 →
  let text := reverse (digit_buffer (if upper then digits_upper else digits) n base) in
  number base (digit_value <$> text) = n ∧ Forall (λ c, 0 < c < 128) text ∧ text ≠ [] ∧
  (n ≠ 0 → ∃ c, head text = Some c ∧ digit_value c ≠ 0).
Proof. apply number_text_spec. Qed.

Lemma number_text_correct_witness :
  let text := reverse (digit_buffer digits 0xdeadbeef 16) in
  number 16 (digit_value <$> text) = 0xdeadbeef ∧ Forall (λ c, 0 < c < 128) text ∧ text ≠ [] ∧
  (0xdeadbeef ≠ 0 → ∃ c, head text = Some c ∧ digit_value c ≠ 0).
Proof. apply (number_text_correct false 0xdeadbeef 16); [by split|lia]. Defined.

(** ** itoa *)

Lemma s32_zero u : 0 ≤ u < 2 ^ 32 → (s32 u =? 0) = (u =? 0).
Proof. intros Hu. unfold s32, swrap. rewrite Z.mod_small by lia. destruct (Z.ltb_spec u (2 ^ (32 - 1))); lia. Qed.
Lemma u32_s32 u : 0 ≤ u < 2 ^ 32 → u32 (s32 u) = u.
Proof.
  intros Hu. unfold u32, s32, swrap. rewrite (Z.mod_small u) by lia. destruct (Z.ltb_spec u (2 ^ (32 - 1))).
  - apply Z.mod_small. lia.
  - zdiv.
Qed.

Lemma digit_char_lookup d : 0 ≤ d < 16 → zlookup digits d = Some (digit_char d).
Proof.
  intros Hd. assert (d = 0 ∨ d = 1 ∨ d = 2 ∨ d = 3 ∨ d = 4 ∨ d = 5 ∨ d = 6 ∨ d = 7 ∨ d = 8 ∨ d = 9 ∨ d = 10 ∨ d = 11 ∨
    d = 12 ∨ d = 13 ∨ d = 14 ∨ d = 15) as Hc by lia. by destruct_or! Hc; subst.
Qed.
Lemma digit_char_range d : 0 ≤ d < 16 → 0 < digit_char d < 128.
Proof. intros Hd. unfold digit_char. change (ch "a") with 97. change (ch "0") with 48. destruct (Z.ltb_spec 9 d); lia. Qed.

(** Effect of the loops of itoa on memory. *)
Definition only_in (lo hi : Z) (m m' : memory) : Prop := ∀ b, ¬ (lo ≤ b < hi) → load8 m' b = load8 m b.

Lemma itoa_digits_spec base str : 2 ≤ base ≤ 16 → ∀ fuel u i m, 0 ≤ u < 2 ^ Z.of_nat fuel → u < 2 ^ 32 →
  let ds := digit_loop fuel digits u base in
  ∃ m', itoa_digits (S fuel) (s32 u) base str i m = Ok (i + Z.of_nat (length ds), m') ∧
    holds_bytes m' (str + i) ds ∧ only_in (str + i) (str + i + Z.of_nat (length ds)) m m'.
Proof.
  intros Hb. induction fuel as [|fuel IH]; intros u i m Hu Hu32 ds.
  - cbn in Hu. assert (u = 0) as -> by lia. exists m. cbn. rewrite Z.add_0_r. splits; [done|intros ? ?; cbn in *; lia|done].
  - subst ds. cbn [digit_loop]. destruct (Z.ltb_spec 0 u) as [Hpos|Hnp].
    2:{ assert (u = 0) as -> by lia. exists m. cbn. rewrite Z.add_0_r. splits; [done|intros ? ?; cbn in *; lia|done]. }
    pose proof (Z.mod_pos_bound u base ltac:(lia)) as Hm. rewrite digit_char_lookup by lia. cbn [default from_option id].
    set (c := digit_char (u `mod` base)). pose proof (digit_char_range (u `mod` base) ltac:(lia)) as Hc. fold c in Hc.
    assert (0 ≤ u / base < 2 ^ Z.of_nat fuel) as Hq.
    { split; [apply Z.div_pos; lia|]. apply Z.div_lt_upper_bound; [lia|].
      rewrite Nat2Z.inj_succ, Z.pow_succ_r in Hu by lia. nia. }
    assert (u / base < 2 ^ 32) by (apply Z.div_lt_upper_bound; lia).
    set (m1 := store8 m (str + i) c).
    destruct (IH (u / base) (i + 1) m1 Hq ltac:(lia)) as (m' & E & Hh & Ho).
    exists m'. assert (load8 m' (str + i) = c) as Hfirst.
    { rewrite Ho by lia. unfold m1. rewrite load8_store8_eq. apply u8_small. lia. }
    splits.
    + change (itoa_digits (S (S fuel)) (s32 u) base str i m) with
        ((if s32 u =? 0 then mret i else if base =? 0 then fault else
          put_char (str + i) (digit_char (s32 (u32 (s32 u) `mod` base)));;
          itoa_digits (S fuel) (s32 (u32 (s32 u) / base)) base str (i + 1)) m).
      rewrite s32_zero, u32_s32 by lia. rewrite (proj2 (Z.eqb_neq u 0)), (proj2 (Z.eqb_neq base 0)) by lia.
      rewrite (s32_small (u `mod` base)) by lia. mstep. fold c m1. rewrite E. cbn [length]. do 2 f_equal. lia.
    + intros j Hj. cbn [length] in Hj. destruct (decide (j = 0)) as [->|]; [by rewrite Z.add_0_r|].
      replace (str + i + j) with (str + (i + 1) + (j - 1)) by lia. rewrite Hh by lia.
      by replace (Z.to_nat j) with (S (Z.to_nat (j - 1))) by lia.
    + intros b Hout. cbn [length] in Hout. rewrite Ho by lia. unfold m1. apply load8_store8_ne. lia.
Qed.

(** The reversal, as a permutation of the bytes. *)
Lemma itoa_reverse_spec str : ∀ fuel start end_ m, end_ - start < 2 * Z.of_nat fuel ∨ end_ ≤ start →
  ∃ m', itoa_reverse fuel str start end_ m = Ok (tt, m') ∧
    ∀ b, load8 m' b = if decide (start ≤ b - str ≤ end_) then load8 m (str + start + end_ - (b - str)) else load8 m b.
Proof.
  assert (Hdone : ∀ start end_ m b, end_ ≤ start → load8 m b =
    if decide (start ≤ b - str ≤ end_) then load8 m (str + start + end_ - (b - str)) else load8 m b).
  { intros start end_ m b H. case_decide; [|done]. f_equal. lia. }
  induction fuel as [|fuel IH]; intros start end_ m Hf; cbn [itoa_reverse].
  - rewrite (proj2 (Z.ltb_ge start end_)) by lia. exists m. split; [done|]. intros b. apply Hdone. lia.
  - destruct (Z.ltb_spec start end_) as [Hlt|Hge]; [|exists m; split; [done|]; intros b; by apply Hdone].
    mstep. mstep. mstep. mstep.
    set (m2 := store8 (store8 m (str + start) (load8 m (str + end_))) (str + end_) (load8 m (str + start))).
    destruct (IH (start + 1) (end_ - 1) m2) as (m' & E & Hm'); [lia|]. exists m'. split; [exact E|].
    assert (Hm2 : ∀ b, load8 m2 b = if decide (b = str + end_) then load8 m (str + start)
      else if decide (b = str + start) then load8 m (str + end_) else load8 m b).
    { intros b. unfold m2. rewrite !load8_store8.
      destruct (decide (b = str + end_)), (decide (str + end_ = b)); try lia; [apply u8_small, load8_range|].
      destruct (decide (b = str + start)), (decide (str + start = b)); try lia.
      apply u8_small, load8_range. }
    intros b. rewrite Hm', !Hm2.
    repeat case_decide; try lia; f_equal; lia.
Qed.

(** The text that itoa produces. *)
Definition itoa_string (value base : Z) : list Z :=
  if (value <? 0) && (base =? 10) then ch "-" :: reverse (digit_buffer digits (- value) base)
  else reverse (digit_buffer digits (u32 value) base).

(** The digits of a number that fits [k] bits do not depend on larger fuel. *)
Lemma digit_loop_fuel ds base k k' n :
  2 ≤ base → 0 ≤ n < 2 ^ Z.of_nat k → (k ≤ k')%nat → digit_loop k' ds n base = digit_loop k ds n base.
Proof.
  intros Hb. revert k' n. induction k as [|k IH]; intros k' n Hn Hk.
  - cbn in Hn. assert (n = 0) as -> by lia. by destruct k'.
  - destruct k' as [|k']; [lia|]. cbn [digit_loop]. destruct (0 <? n); [|done]. f_equal. apply IH; [|lia].
    split; [apply Z.div_pos; lia|]. apply Z.div_lt_upper_bound; [lia|].
    rewrite Nat2Z.inj_succ, Z.pow_succ_r in Hn by lia. nia.
Qed.

(** The bytes of a string, followed by NUL and then reversed. *)
Lemma reversed_cstr m m' str l :
  holds_bytes m str l → load8 m (str + Z.of_nat (length l)) = 0 → Forall (λ c, 0 < c < 256) l →
  (∀ b, load8 m' b = if decide (0 ≤ b - str ≤ Z.of_nat (length l) - 1)
     then load8 m (str + 0 + (Z.of_nat (length l) - 1) - (b - str)) else load8 m b) →
  cstr m' str (reverse l).
Proof.
  intros Hh H0 Hl Hm'. apply cstr_of_bytes; [..|by apply Forall_reverse].
  - intros i Hi. rewrite length_reverse in Hi. rewrite Hm', decide_True by lia.
    replace (str + 0 + (Z.of_nat (length l) - 1) - (str + i - str)) with (str + (Z.of_nat (length l) - 1 - i)) by lia.
    rewrite Hh by lia. f_equal. rewrite reverse_lookup by lia. f_equal. lia.
  - rewrite length_reverse, Hm', decide_False by lia. done.
Qed.

Lemma holds_bytes_snoc m str l c :
  holds_bytes m str l → load8 m (str + Z.of_nat (length l)) = c → holds_bytes m str (l ++ [c]).
Proof.
  intros Hh Hc i Hi. rewrite length_app in Hi. cbn in Hi.
  destruct (decide (i = Z.of_nat (length l))) as [->|].
  - rewrite lookup_app_r by lia. rewrite Nat2Z.id, Nat.sub_diag. done.
  - rewrite lookup_app_l by lia. apply Hh. lia.
Qed.

Lemma holds_bytes_frame m m' str l :
  holds_bytes m str l → (∀ b, str ≤ b < str + Z.of_nat (length l) → load8 m' b = load8 m b) → holds_bytes m' str l.
Proof. intros Hh Hf i Hi. rewrite Hf by lia. by apply Hh. Qed.

(** The part of itoa after the sign of the number was settled. *)
Lemma itoa_body_spec m str (neg : bool) u base :
  2 ≤ base ≤ 16 → 0 < u < 2 ^ 32 →
  let text := (if neg then [ch "-"] else []) ++ reverse (digit_buffer digits u base) in
  ∃ m', (i ← itoa_digits 33 (s32 u) base str 0;
    (if neg then put_char (str + i) (ch "-") else mret tt);;
    let i := if neg then i + 1 else i in
    put_char (str + i) 0;;
    itoa_reverse (Z.to_nat i) str 0 (i - 1);;
    mret str) m = Ok (str, m') ∧ cstr m' str text ∧ only_in str (str + Z.of_nat (length text) + 1) m m'.
Proof.
  intros Hb Hu text. set (ds := digit_loop 32 digits u base).
  assert (Hds : digit_buffer digits u base = ds).
  { unfold digit_buffer. rewrite (proj2 (Z.eqb_neq u 0)) by lia. apply digit_loop_fuel; lia. }
  destruct (itoa_digits_spec base str Hb 32 u 0 m ltac:(lia) ltac:(lia)) as (m1 & E1 & Hh1 & Ho1). fold ds in E1, Hh1, Ho1.
  destruct (digit_loop_value false base Hb 32 u ltac:(lia)) as (_ & Hrng & _). fold ds in Hrng.
  set (l := ds ++ (if neg then [ch "-"] else [])). set (n := Z.of_nat (length ds)) in *.
  assert (Htext : text = reverse l).
  { unfold text, l. rewrite Hds, reverse_app. by destruct neg. }
  set (m2 := if neg then store8 m1 (str + n) (ch "-") else m1).
  assert (Hlen : Z.of_nat (length l) = if neg then n + 1 else n).
  { unfold l, n. rewrite length_app. destruct neg; cbn; lia. }
  set (m3 := store8 m2 (str + Z.of_nat (length l)) 0).
  rewrite Z.add_0_r in Hh1, Ho1. assert (Hh3 : holds_bytes m3 str l).
  { apply (holds_bytes_frame m2); [|intros b Hbd; unfold m3; apply load8_store8_ne; lia].
    unfold l, m2. destruct neg; [|by rewrite app_nil_r].
    apply holds_bytes_snoc; [|by rewrite load8_store8_eq].
    apply (holds_bytes_frame m1); [done|]. intros b Hbd. apply load8_store8_ne. fold n in Hbd. lia. }
  assert (H0 : load8 m3 (str + Z.of_nat (length l)) = 0) by (unfold m3; by rewrite load8_store8_eq).
  destruct (itoa_reverse_spec str (length l) 0 (Z.of_nat (length l) - 1) m3 ltac:(lia)) as (m' & E' & Hm').
  exists m'. splits.
  - mstep with E1. rewrite Z.add_0_l. fold n. erewrite (bind_ok _ _ _ tt m2); [|by unfold m2; destruct neg]. cbv zeta.
    rewrite <-Hlen. mstep. fold m3. rewrite Nat2Z.id. mstep with E'. done.
  - rewrite Htext. eapply reversed_cstr; [done|done| |exact Hm'].
    unfold l. apply Forall_app. split; [eapply Forall_impl; [exact Hrng|cbn; lia]|]. destruct neg; by repeat constructor.
  - intros b Hout. rewrite Htext, length_reverse in Hout. rewrite Hm', decide_False by lia. unfold m3.
    rewrite load8_store8_ne by lia. unfold m2. destruct neg; [rewrite load8_store8_ne by lia|]; apply Ho1; lia.
Qed.

Lemma itoa_spec m str value base :
  - 2 ^ 31 ≤ value < 2 ^ 31 → 2 ≤ base ≤ 16 → value ≠ - 2 ^ 31 ∨ base ≠ 10 →
  ∃ m', itoa value str base m = Ok (str, m') ∧ cstr m' str (itoa_string value base) ∧
    only_in str (str + Z.of_nat (length (itoa_string value base)) + 1) m m'.
Proof.
  intros Hv Hb Hmin. unfold itoa, itoa_string. destruct (Z.eqb_spec value 0) as [->|Hne].
  - assert (Ht : (if (0 <? 0) && (base =? 10) then ch "-" :: reverse (digit_buffer digits (- 0) base)
      else reverse (digit_buffer digits (u32 0) base)) = [ch "0"]) by reflexivity. rewrite Ht. eexists. splits; [reflexivity| |].
    + cbn. rewrite load8_store8_ne by lia. rewrite !load8_store8_eq. done.
    + intros b Hout. cbn in Hout. rewrite !load8_store8_ne by lia. done.
  - set (neg := (value <? 0) && (base =? 10)). cbv zeta.
    assert (neg && (value =? - 2 ^ 31) = false) as ->.
    { unfold neg. destruct Hmin; [rewrite (proj2 (Z.eqb_neq value _)) by done; apply andb_false_r|].
      rewrite (proj2 (Z.eqb_neq base _)) by done. by rewrite andb_false_r. }
    set (u := if neg then - value else u32 value).
    assert (Hu : 0 < u < 2 ^ 32 ∧ s32 u = if neg then - value else value).
    { unfold u. destruct neg eqn:En.
      - apply andb_true_iff in En as [?%Z.ltb_lt ->%Z.eqb_eq]. split; [lia|]. apply s32_small. lia.
      - unfold u32, s32, swrap. cbv zeta. destruct (Z.ltb_spec ((value `mod` 2 ^ 32) `mod` 2 ^ 32) (2 ^ (32 - 1))); zdiv. }
    destruct Hu as [Hu Hs]. destruct (itoa_body_spec m str neg u base Hb Hu) as (m' & E & Hc & Ho).
    rewrite Hs in E. exists m'. split; [exact E|].
    assert (((if neg then [ch "-"] else []) ++ reverse (digit_buffer digits u base)) =
      if neg then ch "-" :: reverse (digit_buffer digits (- value) base) else reverse (digit_buffer digits (u32 value) base))
      as Ht by (unfold u; by destruct neg).
    rewrite Ht in Hc, Ho. by split.
Qed.

(** ** atoi *)

Lemma number_cons base d ds : number base (d :: ds) = d * base ^ Z.of_nat (length ds) + number base ds.
Proof.
  unfold number. cbn [foldl]. rewrite Z.add_0_l.
  assert (∀ ds a, foldl (λ a d, a * base + d) a ds = a * base ^ Z.of_nat (length ds) + foldl (λ a d, a * base + d) 0 ds) as H.
  { clear. induction ds as [|x ds IH]; intros a; cbn [foldl length]; [lia|].
    rewrite IH, (IH (0 * base + x)). rewrite Nat2Z.inj_succ, Z.pow_succ_r by lia. lia. }
  apply H.
Qed.

Lemma read_digits_spec m w : 2 ≤ w → ∀ ds a fuel r,
  cstr m a ds → Forall (λ c, is_digit c = true) ds → (length ds < fuel)%nat → 0 ≤ r →
  r * 10 ^ Z.of_nat (length ds) + number 10 ((λ c, c - ch "0") <$> ds) < 2 ^ (w - 1) →
  read_digits fuel w a r m = Ok (r * 10 ^ Z.of_nat (length ds) + number 10 ((λ c, c - ch "0") <$> ds), m).
Proof.
  intros Hw ds. induction ds as [|c ds IH]; intros a fuel r Hc Hd Hf Hr Hlt; (destruct fuel as [|fuel]; [cbn in Hf; lia|]).
  - cbn in Hc. cbn [read_digits]. mstep. rewrite Hc. cbn. unfold number. cbn. rewrite Z.mul_1_r, Z.add_0_r. done.
  - cbn in Hc. destruct Hc as (Hc & Hc0 & Hcs). apply list.Forall_cons in Hd as [Hdc Hd].
    cbn [read_digits]. mstep. rewrite Hc, Hdc. change ((λ c, c - ch "0") <$> c :: ds) with ((c - ch "0") :: ((λ c, c - ch "0") <$> ds)) in *.
    rewrite number_cons, length_fmap in *. cbn [length] in *. rewrite Nat2Z.inj_succ, Z.pow_succ_r in * by lia.
    assert (0 ≤ c - ch "0" ≤ 9) as Hcd.
    { unfold is_digit in Hdc. apply andb_true_iff in Hdc. change (ch "0") with 48 in *. change (ch "9") with 57 in *. lia. }
    set (p := 10 ^ Z.of_nat (length ds)) in *. assert (1 ≤ p) by (unfold p; pose proof (Z.pow_pos_nonneg 10 (Z.of_nat (length ds))); lia).
    set (v := number 10 _) in *. assert (0 ≤ v) as Hv.
    { unfold v. clear -Hd. induction Hd as [|x l Hx Hl IHl]; [done|].
      change ((λ c, c - ch "0") <$> x :: l) with ((x - ch "0") :: ((λ c, c - ch "0") <$> l)). rewrite number_cons.
      unfold is_digit in Hx. apply andb_true_iff in Hx. change (ch "0") with 48 in *. change (ch "9") with 57 in *.
      pose proof (Z.pow_nonneg 10 (Z.of_nat (length ((λ c, c - 48) <$> l))) ltac:(lia)). nia. }
    assert (Hsw : ∀ z, 0 ≤ z < 2 ^ (w - 1) → swrap w z = z).
    { intros z Hz. unfold swrap. cbv zeta. assert (2 ^ w = 2 * 2 ^ (w - 1)) by (rewrite <-Z.pow_succ_r by lia; f_equal; lia).
      rewrite Z.mod_small by lia. by rewrite (proj2 (Z.ltb_lt _ _)) by lia. }
    rewrite !Hsw, !Z.eqb_refl by nia. rewrite (IH (a + 1) fuel (r * 10 + (c - ch "0"))) by (done || lia || nia).
    fold p v. do 2 f_equal. lia.
Qed.

(** Decimal digits are read back by their distance from ['0']. *)
Lemma decimal_digits n :
  fits 64 n → let text := reverse (digit_buffer digits n 10) in
  Forall (λ c, is_digit c = true) text ∧ number 10 ((λ c, c - ch "0") <$> text) = n ∧ Forall (λ c, 0 < c < 256) text.
Proof.
  intros Hn. assert (Hd : ∀ fuel n, 0 ≤ n → Forall (λ c, is_digit c = true) (digit_loop fuel digits n 10)).
  { induction fuel as [|fuel IH]; intros k Hk; [constructor|]. cbn [digit_loop]. destruct (0 <? k); [|constructor].
    pose proof (Z.mod_pos_bound k 10 ltac:(lia)). rewrite digit_char_lookup by lia. cbn [default from_option id].
    constructor; [|apply IH, Z.div_pos; lia]. unfold is_digit, digit_char.
    change (ch "a") with 97. change (ch "0") with 48. change (ch "9") with 57.
    rewrite (proj2 (Z.ltb_ge 9 _)) by lia. apply andb_true_iff. lia. }
  assert (Hall : Forall (λ c, is_digit c = true) (reverse (digit_buffer digits n 10))).
  { apply Forall_reverse. unfold digit_buffer. destruct (n =? 0); [by repeat constructor|]. apply Hd. apply Hn. }
  cbv zeta. splits; [done| |].
  - destruct (digit_loop_value false 10 ltac:(lia) 64 n Hn) as (H1 & _ & _).
    assert ((λ c, c - ch "0") <$> reverse (digit_buffer digits n 10) = digit_value <$> reverse (digit_buffer digits n 10)) as ->.
    { apply list_fmap_ext. intros i c Hc. rewrite Forall_lookup in Hall. unfold digit_value. by rewrite (Hall i c Hc). }
    unfold digit_buffer. destruct (Z.eqb_spec n 0) as [->|]; [reflexivity|exact H1].
  - eapply Forall_impl; [exact Hall|]. intros c Hc. unfold is_digit in Hc. apply andb_true_iff in Hc.
    change (ch "0") with 48 in Hc. change (ch "9") with 57 in Hc. lia.
Qed.

Lemma atoi_spec m a (neg : bool) n fuel :
  0 ≤ n < 2 ^ 31 → let text := reverse (digit_buffer digits n 10) in
  cstr m a ((if neg then [ch "-"] else []) ++ text) → (length text + 1 < fuel)%nat →
  atoi fuel a m = Ok (if neg then - n else n, m).
Proof.
  intros Hn text Hc Hf. destruct (decimal_digits n ltac:(unfold fits; lia)) as (Hd & Hv & _). fold text in Hd, Hv.
  assert (Hrest : ∀ b, cstr m b text → read_digits fuel 32 b 0 m = Ok (n, m)).
  { intros b Hb. rewrite (read_digits_spec m 32 ltac:(lia) text b fuel 0) by (done || lia). by rewrite Hv. }
  assert (Hfirst : ∃ c l, text = c :: l).
  { destruct text as [|c l] eqn:Et; [|by eauto]. destruct (number_text_spec false n 10 ltac:(unfold fits; lia) ltac:(lia))
      as (_ & _ & Hne & _). by destruct (Hne Et). }
  destruct fuel as [|fuel]; [lia|]. unfold atoi, ato. destruct neg; cbn [app] in Hc.
  - cbn in Hc. destruct Hc as (Hc & _ & Hcs). erewrite bind_ok; [|cbn [skip_blanks]; mstep; rewrite Hc; reflexivity].
    mstep. rewrite Hc. cbn [orb Z.eqb]. change (ch "-" =? ch "-") with true. cbn [orb]. mstep with (Hrest _ Hcs).
    unfold mret, M_ret. do 2 f_equal; lia.
  - destruct Hfirst as (c & l & Et). pose proof (Hrest a Hc) as Hr. rewrite Et in Hc. cbn in Hc. destruct Hc as (Hc & _ & _).
    rewrite Et in Hd. apply list.Forall_cons in Hd as [Hdc _]. unfold is_digit in Hdc. apply andb_true_iff in Hdc.
    change (ch "0") with 48 in Hdc. change (ch "9") with 57 in Hdc.
    assert (is_blank c = false) as Hb by (unfold is_blank; change (ch " ") with 32; lia).
    erewrite bind_ok; [|cbn [skip_blanks]; mstep; rewrite Hc, Hb; reflexivity].
    mstep. rewrite Hc. assert ((c =? ch "-") = false) as -> by (change (ch "-") with 45; lia).
    assert ((c =? ch "+") = false) as -> by (change (ch "+") with 43; lia). cbn [orb]. mstep with Hr.
    unfold mret, M_ret. do 2 f_equal; lia.
Qed.

(** [itoa] writes the canonical text of the number in the base and nothing behind it (at most 33 characters), for
    every 32-bit value but INT_MIN in base 10, where it negates INT_MIN; and reading a decimal text back
    with [atoi] gives the number. *)
Theorem itoa_atoi_roundtrip m str value base :
  - 2 ^ 31 ≤ value < 2 ^ 31 → 2 ≤ base ≤ 16 → value ≠ - 2 ^ 31 ∨ base ≠ 10 →
  ∃ m', itoa value str base m = Ok (str, m') ∧ cstr m' str (itoa_string value base) ∧
    only_in str (str + Z.of_nat (length (itoa_string value base)) + 1) m m' ∧
    (base = 10 → ∀ fuel, (length (itoa_string value base) + 1 < fuel)%nat → atoi fuel str m' = Ok (value, m')).
Proof.
  intros Hv Hb Hmin. destruct (itoa_spec m str value base Hv Hb Hmin) as (m' & E & Hc & Ho).
  exists m'. splits; [done|done|done|]. intros -> fuel Hf. unfold itoa_string in *.
  destruct (Z.ltb_spec value 0) as [Hneg|Hpos]; cbn [andb] in *.
  - change (10 =? 10) with true in *. cbn [length] in Hf. rewrite (atoi_spec m' str true (- value) fuel); [|lia|exact Hc|lia].
    do 2 f_equal. lia.
  - rewrite u32_small in * by lia. apply (atoi_spec m' str false value fuel); [lia|exact Hc|exact Hf].
Qed.

Lemma itoa_atoi_roundtrip_witness :
  ∃ m', itoa (-1234) 100 10 ∅ = Ok (100, m') ∧ cstr m' 100 (itoa_string (-1234) 10) ∧
    only_in 100 (100 + Z.of_nat (length (itoa_string (-1234) 10)) + 1) ∅ m' ∧
    (10 = 10 → ∀ fuel, (length (itoa_string (-1234) 10) + 1 < fuel)%nat → atoi fuel 100 m' = Ok (-1234, m')).
Proof. apply (itoa_atoi_roundtrip ∅ 100 (-1234) 10); [lia|lia|left; lia]. Defined.

(** ** snprintf

    The reference: the whole text of a format, without a bound. *)

Definition number_field (ds : list Z) (n base width flags : Z) : list Z :=
  let text := reverse (digit_buffer ds n base) in
  let fill := Z.to_nat (width - Z.of_nat (length text)) in
  if has flags FLAG_LEFT_JUST then text ++ replicate fill (ch " ")
  else replicate fill (if has flags FLAG_ZERO_PAD then ch "0" else ch " ") ++ text.
Definition int_field (n width flags : Z) : option (list Z) :=
  if n =? - 2 ^ 63 then None
  else if n <? 0 then Some (ch "-" :: number_field digits (- n) 10 (width - 1) flags)
  else if has flags FLAG_SIGN_PLUS then Some (ch "+" :: number_field digits n 10 (width - 1) flags)
  else if has flags FLAG_SIGN_SPACE then Some (ch " " :: number_field digits n 10 (width - 1) flags)
  else Some (number_field digits n 10 width flags).
Definition hex_field (upper : bool) (n width flags : Z) : list Z :=
  (if has flags FLAG_ALT_FORM && negb (n =? 0) then lit (if upper then "0X" else "0x") else []) ++
  number_field (if upper then digits_upper else digits) n 16 width flags.

Definition directive_text (d : directive) (args : list varg) : option (list Z * list varg) :=
  let with_slot (k : Z → option (list Z)) :=
    match args with VInt z :: args => t ← k z; Some (t, args) | _ => None end in
  let c := d_conv d in
  if c =? ch "c" then with_slot (λ z, Some [s8 z])
  else if c =? ch "s" then
    match args with VStr s :: args => Some (default (lit "(null)") s, args) | _ => None end
  else if (c =? ch "d") || (c =? ch "i") then
    with_slot (λ z, int_field (signed_arg (d_length d) z) (d_width d) (d_flags d))
  else if c =? ch "u" then
    with_slot (λ z, Some (number_field digits (unsigned_arg (d_length d) z) 10 (d_width d) (d_flags d)))
  else if c =? ch "x" then
    with_slot (λ z, Some (hex_field false (unsigned_arg (d_length d) z) (d_width d) (d_flags d)))
  else if c =? ch "X" then
    with_slot (λ z, Some (hex_field true (unsigned_arg (d_length d) z) (d_width d) (d_flags d)))
  else if c =? ch "p" then
    with_slot (λ z, Some (lit "0x" ++ number_field digits (u64 z) 16 (d_width d) (d_flags d)))
  else if c =? ch "%" then Some ([ch "%"], args)
  else Some ([ch "%"; c], args).

(** [None]: the format ends inside a directive, or an argument is missing. *)
Fixpoint render (fuel : nat) (f : list Z) (args : list varg) : option (list Z) :=
  match fuel with
  | O => None
  | S fuel =>
      match f with
      | [] => Some []
      | c :: f =>
          if negb (c =? ch "%") then t ← render fuel f args; Some (c :: t) else
          match parse_directive f args with
          | Ok (d, _ :: f, args) =>
              '(t, args) ← directive_text d args;
              rest ← render fuel f args;
              Some (t ++ rest)
          | _ => None
          end
      end
  end.

(** A computation that appends the characters [o] to the output. *)
Definition feed1 (k : sink) (c : Z) : sink :=
  if (out k =? 0) || (remaining k <=? 1) then k
  else mkSink (store8 (k_mem k) (out k) c) (out k + 1) (remaining k - 1).
Definition feed (o : list Z) (k : sink) : sink := foldl feed1 k o.
Definition emits {A} (m : M sink A) (a : A) (o : list Z) : Prop := ∀ k, m k = Ok (a, feed o k).

Lemma emits_ret {A} (a : A) : emits (mret a) a [].
Proof. by intros k. Qed.
Lemma emits_bind {A B} (m : M sink A) (f : A → M sink B) a b o o' :
  emits m a o → emits (f a) b o' → emits (m ≫= f) b (o ++ o').
Proof. intros H1 H2 k. mstep with (H1 k). rewrite H2. unfold feed. by rewrite foldl_app. Qed.
Lemma emits_char c : emits (print_char c) tt [c].
Proof. intros k. unfold print_char, feed, feed1. cbn. by destruct (_ || _). Qed.

Lemma feed_full o k : remaining k ≤ 1 → feed o k = k.
Proof.
  intros Hk. unfold feed. induction o as [|c o IH]; [done|]. cbn [foldl]. unfold feed1 at 2.
  by rewrite (proj2 (Z.leb_le _ _) Hk), orb_true_r.
Qed.
Lemma emits_chars s : emits (print_chars s) tt s.
Proof.
  induction s as [|c s IH]; intros k; [done|]. cbn [print_chars]. mstep. destruct (Z.ltb_spec 1 (remaining k)).
  - rewrite (emits_bind _ _ tt tt [c] s (emits_char c) IH k). done.
  - by rewrite feed_full.
Qed.
Lemma emits_pad n c : emits (print_pad n c) tt (replicate n c).
Proof.
  induction n as [|n IH]; intros k; [done|]. cbn [print_pad]. mstep. destruct (Z.ltb_spec 1 (remaining k)).
  - rewrite (emits_bind _ _ tt tt [c] (replicate n c) (emits_char c) IH k). done.
  - by rewrite feed_full.
Qed.

Lemma emits_unsigned ds n base width flags :
  emits (print_unsigned ds n base width flags) tt (number_field ds n base width flags).
Proof.
  unfold print_unsigned, number_field. cbv zeta. rewrite length_reverse. set (t := reverse (digit_buffer ds n base)).
  set (fill := Z.to_nat _). destruct (has flags FLAG_LEFT_JUST); cbn [negb].
  - exact (emits_bind _ _ tt tt [] _ (emits_ret tt) (emits_bind _ _ tt tt _ _ (emits_chars t) (emits_pad fill _))).
  - pose proof (emits_bind _ (λ _, mret tt) tt tt _ _ (emits_chars t) (emits_ret tt)) as E. rewrite app_nil_r in E.
    exact (emits_bind _ _ tt tt _ _ (emits_pad fill _) E).
Qed.

Lemma emits_int n width flags o :
  int_field n width flags = Some o → emits (print_int n 10 width flags) tt o.
Proof.
  unfold int_field, print_int. destruct (Z.eqb_spec n (- 2 ^ 63)) as [|Hne]; [done|].
  destruct (n <? 0); [|destruct (has flags FLAG_SIGN_PLUS); [|destruct (has flags FLAG_SIGN_SPACE)]]; intros [= <-].
  - apply (emits_bind _ _ tt tt [_]); [apply emits_char|apply emits_unsigned].
  - apply (emits_bind _ _ tt tt [_]); [apply emits_char|apply emits_unsigned].
  - apply (emits_bind _ _ tt tt [_]); [apply emits_char|apply emits_unsigned].
  - apply emits_unsigned.
Qed.

Lemma emits_directive d args o args' :
  directive_text d args = Some (o, args') → emits (run_directive d args) args' o.
Proof.
  assert (Hslot : ∀ (k : Z → M sink unit) (t : Z → option (list Z)), (∀ z o, t z = Some o → emits (k z) tt o) →
    match args with VInt z :: args => t0 ← t z; Some (t0, args) | _ => None end = Some (o, args') →
    emits (match next_slot args with Ok (z, args) => k z;; mret args | _ => fault end) args' o).
  { intros k t Hk H. destruct args as [|[z| |] args0]; [done| |done|done]. cbn [next_slot].
    destruct (t z) as [t0|] eqn:Et; [|done]. injection H as <- <-. rewrite <-(app_nil_r t0).
    exact (emits_bind _ (λ _, mret args0) tt _ _ _ (Hk z t0 Et) (emits_ret args0)). }
  assert (Hhex : ∀ (upper : bool) n, emits
    ((if has (d_flags d) FLAG_ALT_FORM && negb (n =? 0) then print_string (Some (lit (if upper then "0X" else "0x"))) else mret tt);;
     print_unsigned (if upper then digits_upper else digits) n 16 (d_width d) (d_flags d)) tt
    (hex_field upper n (d_width d) (d_flags d))).
  { intros upper n. unfold hex_field. apply (emits_bind _ _ tt tt); [|apply emits_unsigned].
    destruct (_ && _); [apply emits_chars|apply emits_ret]. }
  unfold directive_text, run_directive. cbv zeta.
  destruct (d_conv d =? ch "c"); [apply Hslot; intros z o' [= <-]; apply emits_char|].
  destruct (d_conv d =? ch "s").
  { destruct args as [|[|s|] args0]; [done|done| |done]. intros [= <- <-]. rewrite <-(app_nil_r (default _ s)).
    exact (emits_bind _ (λ _, mret args0) tt _ _ _ (emits_chars _) (emits_ret args0)). }
  destruct (_ || _); [apply Hslot; intros z o'; apply emits_int|].
  destruct (d_conv d =? ch "u"); [apply Hslot; intros z o' [= <-]; apply emits_unsigned|].
  destruct (d_conv d =? ch "x"); [apply Hslot; intros z o' [= <-]; apply (Hhex false)|].
  destruct (d_conv d =? ch "X"); [apply Hslot; intros z o' [= <-]; apply (Hhex true)|].
  destruct (d_conv d =? ch "p").
  { apply Hslot. intros z o' [= <-]. apply (emits_bind _ _ tt tt (lit "0x")); [apply emits_chars|apply emits_unsigned]. }
  destruct (d_conv d =? ch "%"); intros [= <- <-].
  - exact (emits_bind _ (λ _, mret args) tt _ _ _ (emits_char _) (emits_ret args)).
  - exact (emits_bind _ (λ _, _) tt _ [_] _ (emits_char _)
      (emits_bind _ (λ _, mret args) tt _ _ _ (emits_char _) (emits_ret args))).
Qed.

Lemma emits_format fuel : ∀ f args o, render fuel f args = Some o → emits (vsnprintf_loop fuel f args) tt o.
Proof.
  induction fuel as [|fuel IH]; intros f args o H; [done|]. cbn [render vsnprintf_loop] in *.
  destruct f as [|c f]; [injection H as <-; apply emits_ret|]. destruct (negb (c =? ch "%")).
  - destruct (render fuel f args) as [t|] eqn:E; [|done]. injection H as <-.
    apply (emits_bind _ _ tt tt [c]); [apply emits_char|by apply IH].
  - destruct (parse_directive f args) as [[[d [|x f']] args']| | |]; try done.
    destruct (directive_text d args') as [[t args'']|] eqn:Et; [|done]. cbn in H.
    destruct (render fuel f' args'') as [rest|] eqn:Er; [|done]. injection H as <-.
    eapply emits_bind; [by apply emits_directive|by apply IH].
Qed.

Lemma feed_spec o : ∀ m d r, 0 < d → 1 ≤ r →
  let n := Nat.min (length o) (Z.to_nat (r - 1)) in
  ∃ m', feed o (mkSink m d r) = mkSink m' (d + Z.of_nat n) (r - Z.of_nat n) ∧
    holds_bytes m' d (u8 <$> take n o) ∧ only_in d (d + Z.of_nat n) m m'.
Proof.
  induction o as [|c o IH]; intros m d r Hd Hr n.
  - exists m. subst n. cbn. rewrite Z.add_0_r, Z.sub_0_r. splits; [done|intros i Hi; cbn in Hi; lia|done].
  - destruct (decide (r = 1)) as [->|Hr1].
    { exists m. rewrite feed_full by (cbn; lia). subst n. cbn [length]. replace (Nat.min _ _) with 0%nat by lia. cbn.
      rewrite Z.add_0_r. splits; [done|intros i Hi; cbn in Hi; lia|done]. }
    assert (feed (c :: o) (mkSink m d r) = feed o (mkSink (store8 m d c) (d + 1) (r - 1))) as ->.
    { unfold feed. cbn [foldl]. unfold feed1 at 2. cbn [out remaining k_mem].
      by rewrite (proj2 (Z.eqb_neq d 0)), (proj2 (Z.leb_gt r 1)) by lia. }
    destruct (IH (store8 m d c) (d + 1) (r - 1)) as (m' & E & Hh & Ho); [lia|lia|].
    set (n' := Nat.min (length o) (Z.to_nat (r - 1 - 1))) in *.
    assert (Hn : n = S n') by (unfold n, n'; cbn [length]; lia). rewrite Hn. exists m'. splits.
    + rewrite E. f_equal; lia.
    + intros i Hi. cbn [take fmap list_fmap length] in *. destruct (decide (i = 0)) as [->|].
      * rewrite Z.add_0_r, Ho by lia. by rewrite load8_store8_eq.
      * replace (d + i) with (d + 1 + (i - 1)) by lia. rewrite Hh by lia.
        by replace (Z.to_nat i) with (S (Z.to_nat (i - 1))) by lia.
    + intros b Hb. rewrite Ho by lia. apply load8_store8_ne. lia.
Qed.

(** The buffer after a computation that gives a text *)
Lemma vsnprintf_emits m str size format args text :
  0 < str → 1 ≤ size < 2 ^ 31 → emits (vsnprintf_loop (S (length format)) format args) tt text →
  let n := Nat.min (length text) (Z.to_nat (size - 1)) in
  ∃ m', vsnprintf str size format args m = Ok (Z.of_nat n, m') ∧
    holds_bytes m' str (u8 <$> take n text) ∧ load8 m' (str + Z.of_nat n) = 0 ∧ only_in str (str + size) m m'.
Proof.
  intros Hs Hsz Hr n. destruct (feed_spec text m str size Hs ltac:(lia)) as (m1 & E & Hh & Ho). fold n in E, Hh, Ho.
  exists (store8 m1 (str + Z.of_nat n) 0). splits.
  - unfold vsnprintf. rewrite (proj2 (Z.eqb_neq str 0)), (proj2 (Z.eqb_neq size 0)) by lia. cbn [orb negb andb].
    rewrite Hr, E. cbn [k_mem out remaining].
    rewrite (proj2 (Z.ltb_lt 0 size)), (proj2 (Z.ltb_lt 0 (size - Z.of_nat n))) by lia.
    do 2 f_equal. rewrite s32_small by lia. lia.
  - eapply holds_bytes_frame; [exact Hh|]. intros b Hb. rewrite length_fmap, length_take in Hb.
    apply load8_store8_ne. lia.
  - by rewrite load8_store8_eq.
  - intros b Hb. rewrite load8_store8_ne by lia. apply Ho. lia.
Qed.

Lemma vsnprintf_cstr m str size format args text :
  0 < str → 1 ≤ size < 2 ^ 31 → emits (vsnprintf_loop (S (length format)) format args) tt text → Forall (λ c, 0 < c < 256) text →
  ∃ r m', vsnprintf str size format args m = Ok (r, m') ∧ cstr m' str (take (Z.to_nat (size - 1)) text) ∧ only_in str (str + size) m m'.
Proof.
  intros Hs Hsz Hr Ht. destruct (vsnprintf_emits m str size format args text Hs Hsz Hr) as (m' & E & Hh & H0 & Ho).
  eexists _, m'. split; [exact E|]. split; [|exact Ho].
  assert (El : take (Nat.min (length text) (Z.to_nat (size - 1))) text = take (Z.to_nat (size - 1)) text).
  { destruct (decide (length text ≤ Z.to_nat (size - 1))%nat); [|by rewrite Nat.min_r by lia].
    by rewrite Nat.min_l, !take_ge by lia. }
  rewrite El in Hh. assert (Ht' : Forall (λ c, 0 < c < 256) (take (Z.to_nat (size - 1)) text)) by (by apply Forall_take).
  assert (Eu : u8 <$> take (Z.to_nat (size - 1)) text = take (Z.to_nat (size - 1)) text).
  { clear -Ht'. induction Ht' as [|c l Hc _ IH]; [done|]. cbn. rewrite IH. unfold u8. rewrite Z.mod_small by lia. done. }
  rewrite Eu in Hh. apply cstr_of_bytes; [exact Hh| |exact Ht']. rewrite length_take, Nat.min_comm. exact H0.
Qed.

(** C12: [vsnprintf] into a buffer of [size] bytes stores the text that the format and its arguments denote, cut to
    [size - 1] characters, and a terminating NUL; it returns the number of characters stored and writes nothing
    outside the buffer. *)
Theorem vsnprintf_correct m str size format args text :
  0 < str → 1 ≤ size < 2 ^ 31 → render (S (length format)) format args = Some text →
  let n := Nat.min (length text) (Z.to_nat (size - 1)) in
  ∃ m', vsnprintf str size format args m = Ok (Z.of_nat n, m') ∧
    holds_bytes m' str (u8 <$> take n text) ∧ load8 m' (str + Z.of_nat n) = 0 ∧ only_in str (str + size) m m'.
Proof. intros Hs Hsz Hr. apply vsnprintf_emits; [done|done|]. by apply emits_format. Qed.

Lemma vsnprintf_correct_witness :
  let format := lit "%s: %-4d|%08llx" in
  let args := [VStr (Some (lit "pfn")); VInt (-7); VInt 0xdeadbeef] in
  let text := lit "pfn: -7  |deadbeef" in
  let n := Nat.min (length text) (Z.to_nat (16 - 1)) in
  ∃ m', vsnprintf 0x5000 16 format args ∅ = Ok (Z.of_nat n, m') ∧
    holds_bytes m' 0x5000 (u8 <$> take n text) ∧ load8 m' (0x5000 + Z.of_nat n) = 0 ∧ only_in 0x5000 (0x5000 + 16) ∅ m'.
Proof.
  intros format args text. apply (vsnprintf_correct ∅ 0x5000 16 format args text); [lia|lia|vm_compute; reflexivity].
Defined.

(** kprintf converts every integer with the 32-bit [itoa]: of a 64-bit argument of %llx only the low half is printed,
    and an unsigned value with the top bit set is printed as a negative number by %u. *)
Theorem kprintf_truncates :
  kprintf true (lit "%llx") [VInt 0x123456789] = Ok (lit "0x23456789", 10) ∧
  kprintf true (lit "%u") [VInt 4294967295] = Ok (lit "-1", 2).
Proof. vm_compute. split; reflexivity. Qed.

(** A [%] at the end of a format makes vsnprintf and kprintf step over the terminating NUL and read on behind the
    format; serial_printf stops there. *)
Theorem trailing_percent_overreads :
  vsnprintf 0x5000 16 (lit "100%") [] ∅ = Fault ∧ kprintf true (lit "100%") [] = Fault ∧
  serial_printf (lit "100%") [] = Ok (lit "100").
Proof. vm_compute. splits; reflexivity. Qed.

(** log_to_terminal copies a string argument before it tests the end of its buffer of 1024 bytes: a string of 1024
    characters is written behind the buffer. *)
Theorem log_overruns_buffer :
  log_to_terminal true 0 RInfo None None 1 (Some (lit "%s")) [VStr (Some (replicate 1024 65))] = Fault.
Proof. vm_compute. reflexivity. Qed.
