(* ===== verification/Vfs.v ===== *)
(** * Virtual file system

    Model of src/kernel/main/fsm/vfs.c: the registry of file systems, the
    mount table and the dispatch of operations.  A file system is a record of
    optional operations (a null function pointer is [None]) over its context
    [C]; the contexts are in the mount table.  A mount pointer is the index of
    its entry, [None] for NULL; paths are the lists of their characters. *)
From Stdlib Require Import ZArith Lia Ascii String.
From stdpp Require Import base option gmap list.
From S2P Require Import Prelude Print.

Definition VFS_MAX_FILESYSTEMS : Z := 200.
Definition VFS_MAX_MOUNTS : Z := 200.
Definition VFS_TYPE_FILE : Z := 1.
Definition VFS_TYPE_DIR : Z := 2.

Record vfs_dirent := mkDirent { de_inode : Z; de_type : Z; de_size : Z; de_name : list Z }.
(** The fields of [vfs_stat_t] that the file systems fill in. *)
Record vfs_stat_t := mkStat { st_inode : Z; st_size : Z; st_type : Z }.

Section vfs.
Context {C : Type}.

(** [read] returns the bytes it stores in the buffer with its result; [write]
    is given the bytes of the buffer. *)
Record vfs_ops := mkOps {
  op_mount : option (Z → Z → outcome (option C));
  op_unmount : option (M C Z);
  op_read : option (Z → Z → Z → M C (Z * list Z));
  op_write : option (Z → list Z → Z → M C Z);
  op_listdir : option (Z → Z → M C (Z * list vfs_dirent));
  op_path_to_inode : option (list Z → M C Z);
  op_create : option (list Z → M C Z);
  op_mkdir : option (list Z → M C Z);
  op_remove : option (list Z → M C Z);
  op_rename : option (list Z → list Z → M C Z);
  op_stat : option (Z → M C (Z * option vfs_stat_t));
  op_chmod : option (Z → Z → M C Z);
  op_truncate : option (Z → Z → M C Z);
}.
Record vfs_filesystem := mkFs { fs_type : Z; fs_name : list Z; fs_ops : vfs_ops }.
Record vfs_mount_t := mkMount {
  mnt_fs : vfs_filesystem; fs_ctx : C; device_ptr : Z; read_cb : Z; write_cb : Z; sector_count : Z }.
Definition set_fs_ctx (c : C) (m : vfs_mount_t) : vfs_mount_t :=
  mkMount (mnt_fs m) c (device_ptr m) (read_cb m) (write_cb m) (sector_count m).

(** The tables, as long as their counters. *)
Record vfs := mkVfs {
  registered_fs : list vfs_filesystem;
  mounts : list vfs_mount_t;
  mount_paths : list (list Z);
}.
Definition set_registered (l : list vfs_filesystem) (s : vfs) : vfs := mkVfs l (mounts s) (mount_paths s).
Definition set_mounts (l : list vfs_mount_t) (s : vfs) : vfs := mkVfs (registered_fs s) l (mount_paths s).
Definition registered_count (s : vfs) : Z := Z.of_nat (length (registered_fs s)).
Definition mount_count (s : vfs) : Z := Z.of_nat (length (mounts s)).

(** [strncmp(path, mp, strlen(mp)) == 0], and the character behind the match *)
Definition path_starts (path mp : list Z) : bool := bool_decide (take (length mp) path = mp).
Definition char_behind (path mp : list Z) : Z := hd0 (drop (length mp) path).

Fixpoint best_mount (path : list Z) (i : Z) (mps : list (list Z)) (best : Z) (best_len : nat) : Z * nat :=
  match mps with
  | [] => (best, best_len)
  | mp :: mps =>
      let skip := best_mount path (i + 1) mps best best_len in
      if hd0 mp =? 0 then skip else
      if path_starts path mp then
        if (char_behind path mp =? ch "/") || (char_behind path mp =? 0) then
          if (best_len <? length mp)%nat then best_mount path (i + 1) mps i (length mp) else skip
        else skip
      else skip
  end.

(** The mount and the path relative to it. *)
Definition vfs_get_mount_for_path (path : list Z) : M vfs (option Z * list Z) := gets (λ s,
  let '(best, best_len) := best_mount path 0 (mount_paths s) (-1) 0 in
  if best <? 0 then (if 0 <? mount_count s then Some 0 else None, path)
  else
    let rel_path := drop best_len path in
    (Some best, if hd0 rel_path =? 0 then lit "/" else rel_path)).

Definition vfs_init : M vfs unit := put (mkVfs [] [] []).

Definition vfs_register_filesystem (fs : option vfs_filesystem) : M vfs Z :=
  match fs with
  | None => mret (-1)
  | Some fs =>
      n ← gets registered_count;
      if VFS_MAX_FILESYSTEMS <=? n then mret (-1) else
      modify (λ s, set_registered (registered_fs s ++ [fs]) s);;
      mret 0
  end.

Fixpoint find_fs (type : Z) (l : list vfs_filesystem) : option vfs_filesystem :=
  match l with
  | [] => None
  | fs :: l => if fs_type fs =? type then Some fs else find_fs type l
  end.
Definition vfs_find (type : Z) : M vfs (option vfs_filesystem) := gets (λ s, find_fs type (registered_fs s)).

Definition default_mount_path (type : Z) : list Z :=
  if type =? 0x09 then lit "/proc" else if type =? 0x0A then lit "/dev" else lit "/".

Definition vfs_mount (type device size rcb wcb : Z) : M vfs (option Z) :=
  fs ← vfs_find type;
  match fs with
  | None => mret None
  | Some fs =>
      n ← gets mount_count;
      if VFS_MAX_MOUNTS <=? n then mret None else
      ctx ← (match op_mount (fs_ops fs) with
             | Some mnt => λ s, match mnt device size with
                                | Ok c => Ok (c, s) | Halt => Halt | Fault => Fault | Spin => Spin
                                end
             | None => mret None
             end);
      match ctx with
      | None => mret None
      | Some ctx =>
          modify (λ s, mkVfs (registered_fs s) (mounts s ++ [mkMount fs ctx device rcb wcb size])
                         (mount_paths s ++ [default_mount_path type]));;
          mret (Some n)
      end
  end.

Definition vfs_get_root_mount : M vfs (option Z) := gets (λ s, if 0 <? mount_count s then Some 0 else None).
Definition vfs_get_mount_count : M vfs Z := gets mount_count.
Definition vfs_get_mount_path (idx : Z) : M vfs (option (list Z)) :=
  gets (λ s, if (idx <? 0) || (mount_count s <=? idx) then None else zlookup (mount_paths s) idx).
Definition vfs_get_mount_by_index (idx : Z) : M vfs (option Z) :=
  gets (λ s, if (idx <? 0) || (mount_count s <=? idx) then None else Some idx).

(** [if (!mnt || !mnt->fs || !mnt->fs->ops.op) return err;
     return mnt->fs->ops.op(mnt->fs_ctx, ...);] *)
Definition dispatch {R} (op : vfs_ops → option (M C R)) (err : R) (mnt : option Z) : M vfs R := λ s,
  match mnt with
  | None => Ok (err, s)
  | Some i =>
      match zlookup (mounts s) i with
      | None => Fault
      | Some m =>
          match op (fs_ops (mnt_fs m)) with
          | None => Ok (err, s)
          | Some f =>
              match f (fs_ctx m) with
              | Ok (r, c) => Ok (r, set_mounts (zinsert i (set_fs_ctx c m) (mounts s)) s)
              | Halt => Halt | Fault => Fault | Spin => Spin
              end
          end
      end
  end.

Definition vfs_unmount : option Z → M vfs Z := dispatch op_unmount (-1).
Definition vfs_create (mnt : option Z) (path : list Z) : M vfs Z :=
  dispatch (λ o, f ← op_create o; Some (f path)) 0 mnt.
Definition vfs_mkdir (mnt : option Z) (path : list Z) : M vfs Z :=
  dispatch (λ o, f ← op_mkdir o; Some (f path)) 0 mnt.
Definition vfs_remove (mnt : option Z) (path : list Z) : M vfs Z :=
  dispatch (λ o, f ← op_remove o; Some (f path)) (-1) mnt.
Definition vfs_rename (mnt : option Z) (old_path new_path : list Z) : M vfs Z :=
  dispatch (λ o, f ← op_rename o; Some (f old_path new_path)) (-1) mnt.
Definition vfs_stat (mnt : option Z) (inode : Z) : M vfs (Z * option vfs_stat_t) :=
  dispatch (λ o, f ← op_stat o; Some (f inode)) (-1, None) mnt.
Definition vfs_chmod (mnt : option Z) (inode mode : Z) : M vfs Z :=
  dispatch (λ o, f ← op_chmod o; Some (f inode mode)) (-1) mnt.
Definition vfs_truncate (mnt : option Z) (inode size : Z) : M vfs Z :=
  dispatch (λ o, f ← op_truncate o; Some (f inode size)) (-1) mnt.
Definition vfs_read (mnt : option Z) (inode size offset : Z) : M vfs (Z * list Z) :=
  dispatch (λ o, f ← op_read o; Some (f inode size offset)) (-1, []) mnt.
Definition vfs_write (mnt : option Z) (inode : Z) (buf : list Z) (offset : Z) : M vfs Z :=
  dispatch (λ o, f ← op_write o; Some (f inode buf offset)) (-1) mnt.
Definition vfs_listdir (mnt : option Z) (inode max_entries : Z) : M vfs (Z * list vfs_dirent) :=
  dispatch (λ o, f ← op_listdir o; Some (f inode max_entries)) (-1, []) mnt.
Definition vfs_path_to_inode (mnt : option Z) (path : list Z) : M vfs Z :=
  dispatch (λ o, f ← op_path_to_inode o; Some (f path)) 0 mnt.
End vfs.
Arguments vfs_ops : clear implicits.
Arguments vfs_filesystem : clear implicits.
Arguments vfs_mount_t : clear implicits.
Arguments vfs : clear implicits.

(** ** Theorems of the virtual file system: choosing the mount of a path *)

(** A mount path matches when it is a non-empty prefix of the path that ends
    at the boundary of a component. *)
Definition covers (path mp : list Z) : Prop :=
  hd0 mp ≠ 0 ∧ mp `prefix_of` path ∧ (char_behind path mp = ch "/" ∨ char_behind path mp = 0).

Lemma path_starts_spec path mp : path_starts path mp = true ↔ mp `prefix_of` path.
Proof.
  unfold path_starts. rewrite bool_decide_eq_true. split.
  - intros <-. exists (drop (length mp) path). by rewrite take_drop.
  - intros [k ->]. apply take_app_length.
Qed.

Definition covers_b (path mp : list Z) : bool :=
  negb (hd0 mp =? 0) && path_starts path mp && ((char_behind path mp =? ch "/") || (char_behind path mp =? 0)).
Lemma covers_b_spec path mp : covers_b path mp = true ↔ covers path mp.
Proof.
  unfold covers_b, covers. rewrite !andb_true_iff, negb_true_iff, Z.eqb_neq, path_starts_spec, orb_true_iff, !Z.eqb_eq. tauto.
Qed.

(** [mp], at index [k], is the longest matching mount path; of equally long
    ones the first. *)
Definition longest (path : list Z) (mps : list (list Z)) (k : nat) (mp : list Z) : Prop :=
  mps !! k = Some mp ∧ covers path mp ∧
  ∀ j mp', mps !! j = Some mp' → covers path mp' → (length mp' ≤ length mp)%nat ∧ ((j < k)%nat → (length mp' < length mp)%nat).

Lemma best_mount_step path i mp mps best bl :
  best_mount path i (mp :: mps) best bl =
  if covers_b path mp && (bl <? length mp)%nat then best_mount path (i + 1) mps i (length mp)
  else best_mount path (i + 1) mps best bl.
Proof.
  cbn [best_mount]. unfold covers_b. destruct (hd0 mp =? 0), (path_starts path mp), (_ || _), (bl <? length mp)%nat; done.
Qed.

Lemma best_mount_spec path mps : ∀ i best bl,
  (best_mount path i mps best bl = (best, bl) ∧ ∀ j mp, mps !! j = Some mp → covers path mp → (length mp ≤ bl)%nat) ∨
  (∃ k mp, best_mount path i mps best bl = (i + Z.of_nat k, length mp) ∧ (bl < length mp)%nat ∧ longest path mps k mp).
Proof.
  unfold longest. induction mps as [|mp mps IH]; intros i best bl; [left; by split|]. rewrite best_mount_step.
  destruct (covers_b path mp) eqn:Hc; [apply covers_b_spec in Hc; destruct (Nat.ltb_spec bl (length mp)) as [Hl|Hl]|]; cbn [andb].
  - right. destruct (IH (i + 1) i (length mp)) as [[-> Hm]|(k & mp' & -> & Hlt & Hk & Hcov & Hmax)].
    + exists 0%nat, mp. splits; [f_equal; lia|done|done|done|]. intros [|j] mp' Hj Hcov; cbn in Hj; [injection Hj as <-; lia|].
      specialize (Hm j mp' Hj Hcov). lia.
    + exists (S k), mp'. splits; [f_equal; lia|lia|done|done|]. intros [|j] mp'' Hj Hcov'; cbn in Hj; [injection Hj as <-; lia|].
      destruct (Hmax j mp'' Hj Hcov'). lia.
  - destruct (IH (i + 1) best bl) as [[-> Hm]|(k & mp' & -> & Hlt & Hk & Hcov & Hmax)].
    + left. split; [done|]. intros [|j] mp' Hj; cbn in Hj; [by injection Hj as <-|by apply (Hm j)].
    + right. exists (S k), mp'. splits; [f_equal; lia|lia|done|done|]. intros [|j] mp'' Hj Hcov'; cbn in Hj; [injection Hj as <-; lia|].
      destruct (Hmax j mp'' Hj Hcov'). lia.
  - assert (Hn : ¬ covers path mp) by (rewrite <-covers_b_spec; congruence).
    destruct (IH (i + 1) best bl) as [[-> Hm]|(k & mp' & -> & Hlt & Hk & Hcov & Hmax)].
    + left. split; [done|]. intros [|j] mp' Hj; cbn in Hj; [by injection Hj as <-|by apply (Hm j)].
    + right. exists (S k), mp'. splits; [f_equal; lia|lia|done|done|]. intros [|j] mp'' Hj Hcov'; cbn in Hj; [by injection Hj as <-|].
      destruct (Hmax j mp'' Hj Hcov'). lia.
Qed.

(** A path is resolved in the mount with the longest mount path that covers it at a component boundary (the first of
    them), and the rest of the path, "/" when nothing is left, is passed on; without such a mount the whole path goes
    to the first mount, or nowhere when nothing is mounted. *)
Theorem mount_for_path_longest {C} path (s : vfs C) :
  Forall (λ c, c ≠ 0) path →
  ∃ r rel, vfs_get_mount_for_path path s = Ok ((r, rel), s) ∧
    ((∃ k mp, r = Some (Z.of_nat k) ∧ longest path (mount_paths s) k mp ∧
        (path = mp ++ rel ∧ rel ≠ [] ∨ path = mp ∧ rel = lit "/")) ∨
     ((∀ mp, mp ∈ mount_paths s → ¬ covers path mp) ∧ rel = path ∧
        (mounts s = [] ∧ r = None ∨ mounts s ≠ [] ∧ r = Some 0))).
Proof.
  intros Hnz. unfold vfs_get_mount_for_path, gets.
  destruct (best_mount_spec path (mount_paths s) 0 (-1) 0) as [[-> Hm]|(k & mp & -> & Hlt & Hk)].
  - eexists _, _. split; [reflexivity|]. right. splits.
    + intros mp [j Hj]%list_elem_of_lookup Hcov. pose proof (Hm j mp Hj Hcov). destruct Hcov as (Hh & _).
      destruct mp; [done|cbn in *; lia].
    + done.
    + unfold mount_count. destruct (mounts s); [by left|right]. by split.
  - rewrite Z.add_0_l. rewrite (proj2 (Z.ltb_ge _ 0)) by lia. eexists _, _. split; [reflexivity|].
    left. exists k, mp. splits; [done|done|]. destruct Hk as (_ & (_ & [rest ->] & _) & _).
    rewrite drop_app_length. apply Forall_app in Hnz as [_ Hnz].
    destruct rest as [|c rest]; [right; by rewrite app_nil_r|]. apply Forall_cons in Hnz as [Hc _].
    left. cbn [hd0]. by rewrite (proj2 (Z.eqb_neq c 0)).
Qed.

Lemma mount_for_path_longest_witness :
  let ops := mkOps None None None None None None None None None None None None None in
  let mnt := mkMount (mkFs 8 [] ops) tt 0 0 0 0 in
  let s := mkVfs [] [mnt; mnt; mnt] [lit "/"; lit "/proc"; lit "/dev"] in
  ∃ r rel, vfs_get_mount_for_path (lit "/proc/cpu") s = Ok ((r, rel), s) ∧
    ((∃ k mp, r = Some (Z.of_nat k) ∧ longest (lit "/proc/cpu") (mount_paths s) k mp ∧
        (lit "/proc/cpu" = mp ++ rel ∧ rel ≠ [] ∨ lit "/proc/cpu" = mp ∧ rel = lit "/")) ∨
     ((∀ mp, mp ∈ mount_paths s → ¬ covers (lit "/proc/cpu") mp) ∧ rel = lit "/proc/cpu" ∧
        (mounts s = [] ∧ r = None ∨ mounts s ≠ [] ∧ r = Some 0))).
Proof. intros ops mnt s. apply (mount_for_path_longest (lit "/proc/cpu") s). repeat constructor; discriminate. Defined.
