(* ===== verification/Ramfs.v ===== *)
(** * RAM file system and initramfs

    Model of src/kernel/main/fsm/initramfs/ramfs.c and initramfs-unpacker.c.
    The table of files is a list as long as [file_count].  The data of a file
    is the list of the [alloc_size] bytes of its buffer; growing it is the
    heap's [realloc], of which the class [Realloc] says what the code relies
    on.  The archive is read from memory. *)
From Stdlib Require Import ZArith Lia Ascii String.
From stdpp Require Import base option gmap list.
From S2P Require Import Prelude Memory Print Vfs.

(** [realloc buf n]: [None] when there is no memory; otherwise a buffer of [n]
    bytes that begins with the old contents, as far as they fit. *)
Class Realloc := {
  realloc_buf : list Z → Z → option (list Z);
  realloc_len : ∀ l n l', realloc_buf l n = Some l' → 0 ≤ n → Z.of_nat (length l') = n;
  realloc_keep : ∀ l n l', realloc_buf l n = Some l' → Z.of_nat (length l) ≤ n → take (length l) l' = l;
}.

Definition MAX_FILES : Z := 2098.
Definition FS_TYPE_RAMFS : Z := 0x08.

Record ram_file := mkFile { rf_name : list Z; rf_data : list Z; rf_size : Z; rf_inode : Z; rf_type : Z }.
Definition alloc_size (f : ram_file) : Z := Z.of_nat (length (rf_data f)).
Record ramfs_ctx := mkRamfs { files : list ram_file; next_inode : Z }.
Definition file_count (c : ramfs_ctx) : Z := Z.of_nat (length (files c)).

(** [avail] tells whether the heap has room for the context. *)
Definition ramfs_mount (avail : bool) (device size : Z) : outcome (option ramfs_ctx) :=
  if negb avail then Ok None
  else Ok (Some (mkRamfs [mkFile (lit "/") [] 0 1 VFS_TYPE_DIR] 2)).

Fixpoint skip_leading (p : list Z) : list Z :=
  match p with
  | c :: p' =>
      if c =? ch "/" then skip_leading p'
      else if c =? ch "." then
        match p' with
        | d :: p'' => if d =? ch "/" then skip_leading p'' else p
        | [] => p
        end
      else p
  | [] => []
  end.
(** [None]: the buffer is left with an unterminated ".". *)
Definition normalize_ramfs_path (path : list Z) (out_size : Z) : option (list Z) :=
  let name := take (Z.to_nat (out_size - 1)) (skip_leading path) in
  match name with [] => None | _ => Some name end.

Definition str_eqb (a b : list Z) : bool := bool_decide (a = b).

Section ramfs.
Context {heap : Realloc}.

(** The first file that satisfies [p], with its index. *)
Fixpoint find_file (p : ram_file → bool) (l : list ram_file) (i : Z) : option (Z * ram_file) :=
  match l with
  | [] => None
  | f :: l => if p f then Some (i, f) else find_file p l (i + 1)
  end.
Definition by_name (name : list Z) (f : ram_file) : bool := str_eqb (rf_name f) name.
Definition by_inode (inode : Z) (f : ram_file) : bool := rf_inode f =? inode.

Definition ramfs_path_to_inode (path : list Z) : M ramfs_ctx Z := λ c,
  if str_eqb path (lit "/") then
    match files c with f :: _ => Ok (rf_inode f, c) | [] => Fault end
  else
    match normalize_ramfs_path path 256 with
    | None => Fault
    | Some norm =>
        match find_file (by_name norm) (files c) 0 with
        | Some (_, f) => Ok (rf_inode f, c)
        | None => Ok (0, c)
        end
    end.

(** [memcpy] from the buffer of the file. *)
Definition ramfs_read (inode size offset : Z) : M ramfs_ctx (Z * list Z) := λ c,
  match find_file (by_inode inode) (files c) 0 with
  | None => Ok ((-1, []), c)
  | Some (_, f) =>
      if rf_type f =? VFS_TYPE_DIR then Ok ((-1, []), c) else
      if rf_size f <=? offset then Ok ((0, []), c) else
      let size := if rf_size f <? u64 (offset + size) then rf_size f - offset else size in
      if alloc_size f <? offset + size then Fault else
      Ok ((s32 size, take (Z.to_nat size) (drop (Z.to_nat offset) (rf_data f))), c)
  end.

(** The buffer after [memcpy(data + offset, src, size)]. *)
Definition overwrite (data : list Z) (offset : Z) (src : list Z) : list Z :=
  take (Z.to_nat offset) data ++ src ++ drop (Z.to_nat offset + length src) data.
Definition set_file (i : Z) (f : ram_file) (c : ramfs_ctx) : ramfs_ctx :=
  mkRamfs (zinsert i f (files c)) (next_inode c).

Definition ramfs_write (inode : Z) (buffer : list Z) (offset : Z) : M ramfs_ctx Z := λ c,
  match find_file (by_inode inode) (files c) 0 with
  | None => Ok (-1, c)
  | Some (i, f) =>
      let size := Z.of_nat (length buffer) in
      if rf_type f =? VFS_TYPE_DIR then Ok (-1, c) else
      if size =? 0 then Ok (0, c) else
      let requested_end := u64 (offset + size) in
      let data := if alloc_size f <? requested_end then realloc_buf (rf_data f) requested_end
                  else Some (rf_data f) in
      match data with
      | None => Ok (-1, c)
      | Some data =>
          if Z.of_nat (length data) <? offset + size then Fault else
          let fsize := if rf_size f <? requested_end then requested_end else rf_size f in
          Ok (s32 size, set_file i (mkFile (rf_name f) (overwrite data offset buffer) fsize (rf_inode f) (rf_type f)) c)
      end
  end.

(** Appending an entry; a name has at most 255 characters. *)
Definition add_file (name : list Z) (type : Z) (c : ramfs_ctx) : Z * ramfs_ctx :=
  (next_inode c, mkRamfs (files c ++ [mkFile (take 255 name) [] 0 (next_inode c) type]) (u64 (next_inode c + 1))).

Definition ramfs_create (path : list Z) : M ramfs_ctx Z := λ c,
  match normalize_ramfs_path path 256 with
  | None => Fault
  | Some norm =>
      match find_file (by_name norm) (files c) 0 with
      | Some (_, f) => Ok (rf_inode f, c)
      | None => if MAX_FILES <=? file_count c then Ok (0, c) else Ok (add_file norm VFS_TYPE_FILE c)
      end
  end.

Definition ramfs_mkdir (path : list Z) : M ramfs_ctx Z := λ c,
  if MAX_FILES <=? file_count c then Ok (0, c) else
  match normalize_ramfs_path path 256 with
  | None => Fault
  | Some norm => Ok (add_file norm VFS_TYPE_DIR c)
  end.

Definition ramfs_stat (inode : Z) : M ramfs_ctx (Z * option vfs_stat_t) := λ c,
  match find_file (by_inode inode) (files c) 0 with
  | Some (_, f) => Ok ((0, Some (mkStat inode (rf_size f) (rf_type f))), c)
  | None => Ok ((-1, None), c)
  end.

Definition dirent_of (f : ram_file) : vfs_dirent := mkDirent (rf_inode f) (rf_type f) (rf_size f) (rf_name f).
Definition ramfs_listdir (inode max_entries : Z) : M ramfs_ctx (Z * list vfs_dirent) := λ c,
  match find_file (by_inode inode) (files c) 0 with
  | None => Ok ((-1, []), c)
  | Some (_, f) =>
      if negb (rf_type f =? VFS_TYPE_DIR) then Ok ((-1, []), c) else
      match files c with
      | root :: rest =>
          if negb (inode =? rf_inode root) then Ok ((0, []), c)
          else let ents := take (Z.to_nat max_entries) (dirent_of <$> rest) in
               Ok ((Z.of_nat (length ents), ents), c)
      | [] => Fault
      end
  end.

Definition ramfs_fs (avail : bool) : vfs_filesystem ramfs_ctx :=
  mkFs FS_TYPE_RAMFS (lit "ramfs")
    (mkOps (Some (ramfs_mount avail)) None (Some ramfs_read) (Some ramfs_write) (Some ramfs_listdir)
       (Some ramfs_path_to_inode) (Some ramfs_create) (Some ramfs_mkdir) None None (Some ramfs_stat) None None).
Definition ramfs_init (avail : bool) : M (vfs ramfs_ctx) Z := vfs_register_filesystem (Some (ramfs_fs avail)).
End ramfs.

(** ** initramfs-unpacker.c *)

Definition CPIO_MAGIC : list Z := lit "070701".
Definition CPIO_IFMT : Z := 0xF000.
Definition CPIO_IFREG : Z := 0x8000.
Definition CPIO_IFDIR : Z := 0x4000.
(** [sizeof(struct cpio_newc_header)] and the fields that are read *)
Definition sizeof_cpio : Z := 110.
Definition off_mode : Z := 14.
Definition off_filesize : Z := 54.
Definition off_namesize : Z := 94.

(** [char] is signed: a byte above 127 is no hexadecimal digit. *)
Definition hex_digit (c : Z) : Z :=
  if (ch "0" <=? c) && (c <=? ch "9") then c - ch "0"
  else if (ch "a" <=? c) && (c <=? ch "f") then c - ch "a" + 10
  else if (ch "A" <=? c) && (c <=? ch "F") then c - ch "A" + 10
  else 0.
Definition hex8_to_u32 (m : memory) (s : Z) : Z :=
  foldl (λ v i, Z.lor (u32 (Z.shiftl v 4)) (hex_digit (load8 m (s + i)))) 0 (seqZ 0 8).

Definition align4 (p : Z) : Z := u64 (Z.land (u64 (p + 3)) (Z.lnot 3)).
Definition limine_to_virt (hhdm_offset addr : Z) : Z :=
  if addr <? hhdm_offset then u64 (addr + hhdm_offset) else addr.

(** [memcmp(p, s, n) == 0] for a literal *)
Definition starts_with (m : memory) (p : Z) (s : list Z) : bool :=
  forallb (λ '(i, c), load8 m (p + i) =? c) (zip (seqZ 0 (Z.of_nat (length s))) s).

Fixpoint skip_slashes (m : memory) (fuel : nat) (src : Z) : outcome Z :=
  match fuel with
  | O => Spin
  | S fuel => if load8 m src =? ch "/" then skip_slashes m fuel (src + 1) else Ok src
  end.
(** At most [n] characters up to the NUL. *)
Fixpoint read_name (m : memory) (n : nat) (src : Z) : list Z :=
  match n with
  | O => []
  | S n => let c := load8 m src in if c =? 0 then [] else c :: read_name m n (src + 1)
  end.
Definition normalize_path (m : memory) (fuel : nat) (src dstsz : Z) : outcome (list Z) :=
  match skip_slashes m fuel src with
  | Ok src =>
      let name := read_name m (Z.to_nat (dstsz - 1)) src in
      Ok (match name with [] => lit "." | _ => name end)
  | Halt => Halt | Fault => Fault | Spin => Spin
  end.

Definition read_bytes (m : memory) (p n : Z) : list Z := (λ i, load8 m (p + i)) <$> seqZ 0 n.

Section unpack.
Context {C : Type} (m : memory) (mnt : option Z).

(** The file or directory of one archive member. *)
Definition unpack_entry (path : list Z) (mode data filesize : Z) : M (vfs C) unit :=
  if str_eqb path (lit ".") then mret tt else
  let ftype := Z.land mode CPIO_IFMT in
  if ftype =? CPIO_IFREG then
    inode ← vfs_create mnt path;
    if inode =? 0 then mret tt else
    if 0 <? filesize then vfs_write mnt inode (read_bytes m data filesize) 0;; mret tt else mret tt
  else if ftype =? CPIO_IFDIR then vfs_mkdir mnt path;; mret tt
  else mret tt.

(** [fuel] bounds the members of the archive and the slashes of a name. *)
Fixpoint unpack_loop (fuel : nat) (ptr end_ : Z) : M (vfs C) unit :=
  match fuel with
  | O => spin
  | S fuel =>
      if negb (ptr + sizeof_cpio <=? end_) then mret tt else
      if negb (starts_with m ptr CPIO_MAGIC) then mret tt else
      let namesize := hex8_to_u32 m (ptr + off_namesize) in
      let filesize := hex8_to_u32 m (ptr + off_filesize) in
      let mode := hex8_to_u32 m (ptr + off_mode) in
      let ptr := ptr + sizeof_cpio in
      if (namesize =? 0) || (end_ <? ptr + namesize) then mret tt else
      let name := ptr in
      if starts_with m name (lit "TRAILER!!!") then mret tt else
      let ptr := align4 (ptr + namesize) in
      if end_ <? ptr + filesize then mret tt else
      let file_data := ptr in
      let ptr := align4 (ptr + filesize) in
      match normalize_path m (S fuel) name 256 with
      | Ok path => unpack_entry path mode file_data filesize;; unpack_loop fuel ptr end_
      | _ => spin
      end
  end.
Definition unpack_cpio (fuel : nat) (base archive_size : Z) : M (vfs C) unit :=
  unpack_loop fuel base (base + archive_size).
End unpack.

(** A boot module: its path and command line, its address and size. *)
Record limine_file := mkModule { mod_path : option (list Z); mod_string : option (list Z); mod_address : Z; mod_size : Z }.
Definition contains (needle s : list Z) : bool :=
  existsb (λ i, bool_decide (take (length needle) (drop i s) = needle)) (seq 0 (S (length s))).
Definition is_initramfs (f : limine_file) : bool :=
  match mod_path f with Some s => contains (lit "initramfs") s | None => false end ||
  match mod_string f with Some s => contains (lit "initramfs") s | None => false end.

Fixpoint unpack_modules {heap : Realloc} (m : memory) (fuel : nat) (hhdm_offset : Z) (mnt : option Z)
    (mods : list limine_file) : M (vfs ramfs_ctx) unit :=
  match mods with
  | [] => mret tt
  | f :: mods =>
      (if is_initramfs f then unpack_cpio m mnt fuel (limine_to_virt hhdm_offset (mod_address f)) (mod_size f)
       else mret tt);;
      unpack_modules m fuel hhdm_offset mnt mods
  end.
Definition initramfs_init {heap : Realloc} (avail : bool) (m : memory) (fuel : nat) (hhdm_offset : Z)
    (response : option (list limine_file)) : M (vfs ramfs_ctx) unit :=
  ramfs_init avail;;
  mnt ← vfs_mount FS_TYPE_RAMFS 0 0 0 0;
  match mnt with
  | None => mret tt
  | Some i =>
      match response with
      | None => mret tt
      | Some mods => unpack_modules m fuel hhdm_offset (Some i) mods
      end
  end.
