(* ===== verification/RamfsProof.v ===== *)
(** * Theorems of the RAM file system *)
From Stdlib Require Import ZArith Lia Ascii String.
From stdpp Require Import base option gmap list.
From S2P Require Import Prelude Memory Print PrintProof Vfs Ramfs.

Section ramfs.
Context {heap : Realloc}.

(** The file of an inode: inodes are handed out in order from 1. *)
Definition file_at (c : ramfs_ctx) (inode : Z) : option ram_file := zlookup (files c) (inode - 1).

Record ramfs_ok (c : ramfs_ctx) : Prop := {
  ok_count : file_count c ≤ MAX_FILES;
  ok_next : next_inode c = file_count c + 1;
  ok_inode : ∀ i f, file_at c i = Some f → rf_inode f = i;
  ok_size : ∀ i f, file_at c i = Some f → 0 ≤ rf_size f ≤ alloc_size f;
}.

Lemma zlookup_cons {A} (x : A) l i : zlookup (x :: l) i = if decide (i = 0) then Some x else zlookup l (i - 1).
Proof.
  unfold zlookup. destruct (Z.ltb_spec i 0); [rewrite decide_False by lia; by rewrite (proj2 (Z.ltb_lt _ _)) by lia|].
  case_decide as Hd; [by subst|]. rewrite (proj2 (Z.ltb_ge (i - 1) 0)) by lia.
  by replace (Z.to_nat i) with (S (Z.to_nat (i - 1))) by lia.
Qed.

(** What [find_file] finds. *)
Lemma find_file_spec p l : ∀ i,
  (find_file p l i = None ∧ Forall (λ f, p f = false) l) ∨
  (∃ k f, find_file p l i = Some (k, f) ∧ zlookup l (k - i) = Some f ∧ p f = true).
Proof.
  induction l as [|f l IH]; intros i; cbn [find_file]; [by left|]. destruct (p f) eqn:Hp.
  - right. exists i, f. splits; [done| |done]. by rewrite zlookup_cons, decide_True by lia.
  - destruct (IH (i + 1)) as [[-> Hf]|(k & g & -> & Hg & Hpg)]; [left; split; [done|by constructor]|].
    right. exists k, g. splits; [done| |done]. pose proof (zlookup_Some_bounds _ _ _ Hg).
    rewrite zlookup_cons, decide_False by lia. by replace (k - i - 1) with (k - (i + 1)) by lia.
Qed.

Lemma find_inode c inode :
  ramfs_ok c → find_file (by_inode inode) (files c) 0 = (f ← file_at c inode; Some (inode - 1, f)).
Proof.
  intros Hok. destruct (find_file_spec (by_inode inode) (files c) 0) as [[-> Hf]|(k & f & -> & Hk & Hp)].
  - destruct (file_at c inode) as [f|] eqn:Hf'; [|done]. pose proof (ok_inode _ Hok _ _ Hf') as Hi.
    rewrite Forall_forall in Hf. specialize (Hf f). unfold by_inode in Hf. rewrite Hi, Z.eqb_refl in Hf.
    discriminate Hf. unfold file_at, zlookup in Hf'. destruct (_ <? 0); [done|]. by eapply list_elem_of_lookup_2.
  - rewrite Z.sub_0_r in Hk. unfold by_inode in Hp. apply Z.eqb_eq in Hp.
    assert (file_at c (k + 1) = Some f) as Hf by (unfold file_at; by replace (k + 1 - 1) with k by lia).
    pose proof (ok_inode _ Hok _ _ Hf) as Hi. assert (inode = k + 1) as -> by lia. rewrite Hf. cbn. do 2 f_equal. lia.
Qed.

Lemma file_at_set c inode f g i :
  file_at c inode = Some f →
  file_at (set_file (inode - 1) g c) i = if decide (i = inode) then Some g else file_at c i.
Proof.
  intros Hf. unfold file_at, set_file. cbn. rewrite zlookup_zinsert by (by eapply zlookup_Some_bounds).
  destruct (decide (i = inode)); [by rewrite decide_True by lia|by rewrite decide_False by lia].
Qed.

Lemma ramfs_ok_set c inode f g :
  ramfs_ok c → file_at c inode = Some f → rf_inode g = inode → 0 ≤ rf_size g ≤ alloc_size g →
  ramfs_ok (set_file (inode - 1) g c).
Proof.
  intros Hok Hf Hg Hs. split.
  - unfold file_count, set_file. cbn. rewrite length_zinsert. apply Hok.
  - unfold file_count, set_file. cbn. rewrite length_zinsert. apply Hok.
  - intros i h. rewrite (file_at_set _ _ _ _ _ Hf). case_decide; [by intros [= <-]; subst|apply Hok].
  - intros i h. rewrite (file_at_set _ _ _ _ _ Hf). case_decide; [by intros [= <-]|apply Hok].
Qed.

(** ** Overwriting *)

Lemma overwrite_length data off src :
  0 ≤ off → off + Z.of_nat (length src) ≤ Z.of_nat (length data) → length (overwrite data off src) = length data.
Proof. intros. unfold overwrite. rewrite !length_app, length_take, length_drop. lia. Qed.

Lemma overwrite_read data off src :
  0 ≤ off → off + Z.of_nat (length src) ≤ Z.of_nat (length data) →
  take (length src) (drop (Z.to_nat off) (overwrite data off src)) = src.
Proof.
  intros H0 H1. unfold overwrite. rewrite drop_app_length' by (rewrite length_take; lia). by rewrite take_app_length.
Qed.

Lemma overwrite_other data off src j :
  0 ≤ off → off + Z.of_nat (length src) ≤ Z.of_nat (length data) → ¬ (off ≤ j < off + Z.of_nat (length src)) →
  zlookup (overwrite data off src) j = zlookup data j.
Proof.
  intros H0 H1 Hj. unfold zlookup. destruct (Z.ltb_spec j 0); [done|]. unfold overwrite.
  destruct (decide (j < off)).
  - rewrite lookup_app_l by (rewrite length_take; lia). apply lookup_take_lt. lia.
  - rewrite lookup_app_r by (rewrite length_take; lia). rewrite length_take, lookup_app_r by lia.
    rewrite lookup_drop. f_equal. lia.
Qed.

(** The buffer that [ramfs_write] writes to. *)
Definition grown (f : ram_file) (n : Z) : option (list Z) :=
  if alloc_size f <? n then realloc_buf (rf_data f) n else Some (rf_data f).

Lemma grown_spec f n data :
  0 ≤ n → grown f n = Some data → n ≤ Z.of_nat (length data) ∧ alloc_size f ≤ Z.of_nat (length data) ∧
  ∀ j, j < alloc_size f → zlookup data j = zlookup (rf_data f) j.
Proof.
  intros Hn. unfold grown. destruct (Z.ltb_spec (alloc_size f) n) as [Hlt|Hge]; intros H.
  - pose proof (realloc_len _ _ _ H Hn) as Hl. assert (Z.of_nat (length (rf_data f)) ≤ n) by (unfold alloc_size in *; lia).
    pose proof (realloc_keep _ _ _ H ltac:(done)) as Hk. splits; [lia|unfold alloc_size in *; lia|].
    intros j Hj. unfold zlookup. destruct (j <? 0) eqn:Hj0; [done|]. unfold alloc_size in Hj.
    trans (take (length (rf_data f)) data !! Z.to_nat j); [symmetry; apply lookup_take_lt; lia|by rewrite Hk].
  - injection H as <-. unfold alloc_size in *. splits; [lia|lia|done].
Qed.

(** A write to a file either fails for lack of memory and changes nothing, or returns the number of bytes; then
    reading the same range gives the bytes back, the size has grown to cover the range, every other byte of the file
    and every other file are what they were, and the table is well formed. *)
Theorem ramfs_write_read c inode f buffer offset :
  let n := Z.of_nat (length buffer) in
  ramfs_ok c → file_at c inode = Some f → rf_type f ≠ VFS_TYPE_DIR → 0 ≤ offset → 0 < n → offset + n < 2 ^ 31 →
  (ramfs_write inode buffer offset c = Ok (-1, c) ∧ alloc_size f < offset + n ∧ realloc_buf (rf_data f) (offset + n) = None) ∨
  (∃ c' f', ramfs_write inode buffer offset c = Ok (n, c') ∧ ramfs_ok c' ∧
     ramfs_read inode n offset c' = Ok ((n, buffer), c') ∧
     file_at c' inode = Some f' ∧ rf_size f' = Z.max (rf_size f) (offset + n) ∧ rf_name f' = rf_name f ∧
     rf_type f' = rf_type f ∧
     (∀ j, j < rf_size f → ¬ (offset ≤ j < offset + n) → zlookup (rf_data f') j = zlookup (rf_data f) j) ∧
     (∀ i, i ≠ inode → file_at c' i = file_at c i)).
Proof.
  intros n Hok Hf Ht H0 Hn Hb. pose proof (ok_size _ Hok _ _ Hf) as Hs.
  assert (Hw : ramfs_write inode buffer offset c = match grown f (offset + n) with
    | None => Ok (-1, c)
    | Some data => if Z.of_nat (length data) <? offset + n then Fault else
        Ok (n, set_file (inode - 1) (mkFile (rf_name f) (overwrite data offset buffer)
          (if rf_size f <? offset + n then offset + n else rf_size f) (rf_inode f) (rf_type f)) c) end).
  { unfold ramfs_write. rewrite find_inode, Hf by done. cbn [mbind option_bind]. fold n.
    rewrite (proj2 (Z.eqb_neq _ _) Ht), (proj2 (Z.eqb_neq n 0)) by lia. rewrite u64_small by lia.
    rewrite (s32_small n) by lia. done. }
  destruct (grown f (offset + n)) as [data|] eqn:Hg.
  - right. destruct (grown_spec f (offset + n) data ltac:(lia) Hg) as (Hl & Hl' & Hkeep).
    rewrite (proj2 (Z.ltb_ge _ _) Hl) in Hw. rewrite Hw.
    set (f' := mkFile _ _ _ _ _) in *. exists (set_file (inode - 1) f' c), f'. assert (Hf' : file_at (set_file (inode - 1) f' c) inode = Some f').
    { rewrite (file_at_set _ _ _ _ _ Hf). by rewrite decide_True. }
    assert (Hs' : rf_size f' = Z.max (rf_size f) (offset + n)) by (cbn; destruct (Z.ltb_spec (rf_size f) (offset + n)); lia).
    assert (Ha' : alloc_size f' = Z.of_nat (length data)) by (unfold alloc_size; cbn; by rewrite overwrite_length).
    assert (Hok' : ramfs_ok (set_file (inode - 1) f' c)).
    { apply (ramfs_ok_set _ _ f); [done|done|exact (ok_inode _ Hok _ _ Hf)|lia]. }
    splits; [reflexivity|done| |exact Hf'|done|done|done| |].
    + unfold ramfs_read. rewrite find_inode, Hf' by done. cbn [mbind option_bind].
      change (rf_type f') with (rf_type f). rewrite (proj2 (Z.eqb_neq _ _) Ht).
      rewrite (proj2 (Z.leb_gt _ _)) by lia. rewrite u64_small by lia. rewrite (proj2 (Z.ltb_ge (rf_size f') _)) by lia.
      rewrite (proj2 (Z.ltb_ge (alloc_size f') _)) by lia. rewrite s32_small by lia. do 3 f_equal.
      unfold n. rewrite Nat2Z.id. by apply overwrite_read.
    + intros j Hj Hout. cbn [rf_data f']. rewrite overwrite_other by done. apply Hkeep. lia.
    + intros i Hi. rewrite (file_at_set _ _ _ _ _ Hf). by rewrite decide_False.
  - left. rewrite Hw. unfold grown in Hg. destruct (Z.ltb_spec (alloc_size f) (offset + n)); [done|discriminate].
Qed.

(** ** Names *)

Definition fs_named (c : ramfs_ctx) (name : list Z) : Prop := ∃ i f, file_at c i = Some f ∧ rf_name f = name.

Lemma find_name c name :
  ramfs_ok c →
  (find_file (by_name name) (files c) 0 = None ∧ ¬ fs_named c name) ∨
  (∃ k f, find_file (by_name name) (files c) 0 = Some (k, f) ∧ file_at c (rf_inode f) = Some f ∧ rf_name f = name).
Proof.
  intros Hok. destruct (find_file_spec (by_name name) (files c) 0) as [[-> Hf]|(k & f & -> & Hk & Hp)].
  - left. split; [done|]. intros (i & f & Hi & Hn). rewrite Forall_forall in Hf.
    assert (by_name name f = false) as Hb; [|unfold by_name, str_eqb in Hb; by rewrite bool_decide_eq_true_2 in Hb].
    apply Hf. unfold file_at, zlookup in Hi. destruct (_ <? 0); [done|]. by eapply list_elem_of_lookup_2.
  - right. exists k, f. rewrite Z.sub_0_r in Hk.
    assert (file_at c (k + 1) = Some f) as Hf by (unfold file_at; by replace (k + 1 - 1) with k by lia).
    rewrite (ok_inode _ Hok _ _ Hf). splits; [done|done|]. unfold by_name, str_eqb in Hp. by apply bool_decide_eq_true in Hp.
Qed.

Lemma normalize_short path norm : normalize_ramfs_path path 256 = Some norm → take 255 norm = norm.
Proof.
  unfold normalize_ramfs_path. change (Z.to_nat (256 - 1)) with 255%nat.
  destruct (take 255 (skip_leading path)) as [|x l] eqn:E; [done|]. intros [= <-]. apply take_ge. rewrite <-E, length_take. lia.
Qed.

Lemma add_file_spec name type c :
  ramfs_ok c → file_count c < MAX_FILES → take 255 name = name →
  let c' := (add_file name type c).2 in
  ramfs_ok c' ∧ (add_file name type c).1 = file_count c + 1 ∧
  ∀ i, file_at c' i = if decide (i = file_count c + 1) then Some (mkFile name [] 0 i type) else file_at c i.
Proof.
  intros Hok Hlt Hname c'. pose proof (ok_next _ Hok) as Hnx. unfold MAX_FILES in Hlt.
  assert (Hat : ∀ i, file_at c' i = if decide (i = file_count c + 1) then Some (mkFile name [] 0 i type) else file_at c i).
  { intros i. unfold c', add_file, file_at, zlookup. cbn. rewrite Hname, Hnx. unfold file_count.
    destruct (Z.ltb_spec (i - 1) 0); [by rewrite decide_False by lia|]. case_decide as Hd.
    - rewrite lookup_app_r by lia. replace (Z.to_nat (i - 1) - length (files c))%nat with 0%nat by lia. cbn. by rewrite Hd.
    - destruct (decide (i - 1 < Z.of_nat (length (files c)))); [by rewrite lookup_app_l by lia|].
      rewrite lookup_ge_None_2 by (rewrite length_app; cbn; lia). by rewrite lookup_ge_None_2 by lia. }
  assert (Hfc : file_count c' = file_count c + 1) by (unfold file_count, c'; cbn; rewrite length_app; cbn; lia).
  splits; [split|by cbn|done].
  - rewrite Hfc. unfold MAX_FILES. lia.
  - rewrite Hfc. cbn. rewrite Hnx. apply u64_small. unfold file_count in *. lia.
  - intros i f. rewrite Hat. case_decide; [by intros [= <-]|apply Hok].
  - intros i f. rewrite Hat. case_decide; [|apply Hok]. intros [= <-]. unfold alloc_size. cbn. lia.
Qed.

(** Creating a file by a path that names something returns an inode under which the path is found from then on, and
    creating it again returns the same inode; an existing name changes nothing, a full table gives 0, and a new file
    is empty, with all other files as they were. *)
Theorem ramfs_create_lookup c path norm :
  ramfs_ok c → normalize_ramfs_path path 256 = Some norm → path ≠ lit "/" →
  ∃ r c', ramfs_create path c = Ok (r, c') ∧ ramfs_ok c' ∧
    ((r = 0 ∧ c' = c ∧ file_count c = MAX_FILES ∧ ¬ fs_named c norm) ∨
     (ramfs_path_to_inode path c' = Ok (r, c') ∧ ramfs_create path c' = Ok (r, c') ∧
      (c' = c ∨ ¬ fs_named c norm ∧ file_at c' r = Some (mkFile norm [] 0 r VFS_TYPE_FILE) ∧
         file_at c r = None ∧ ∀ i, i ≠ r → file_at c' i = file_at c i))).
Proof.
  intros Hok Hn Hp. assert (Hp' : str_eqb path (lit "/") = false) by (by apply bool_decide_eq_false).
  assert (Hfound : ∀ c k f, find_file (by_name norm) (files c) 0 = Some (k, f) →
    ramfs_create path c = Ok (rf_inode f, c) ∧ ramfs_path_to_inode path c = Ok (rf_inode f, c)).
  { intros c0 k f E. unfold ramfs_create, ramfs_path_to_inode. by rewrite Hp', Hn, E. }
  destruct (find_name c norm Hok) as [[E Hno]|(k & f & E & Hf & Hnm)].
  - unfold ramfs_create at 1. rewrite Hn, E. destruct (Z.leb_spec MAX_FILES (file_count c)) as [Hfull|Hlt].
    + exists 0, c. splits; [done|done|]. left. splits; [done|done| |done]. pose proof (ok_count _ Hok). lia.
    + destruct (add_file_spec norm VFS_TYPE_FILE c Hok Hlt (normalize_short _ _ Hn)) as (Hok' & Hr & Hat).
      destruct (add_file norm VFS_TYPE_FILE c) as [r c'] eqn:Ea. cbn [fst snd] in *. exists r, c'. splits; [done|done|]. right.
      assert (Hr' : file_at c' r = Some (mkFile norm [] 0 r VFS_TYPE_FILE)) by (by rewrite Hat, decide_True).
      assert (Hnew : file_at c r = None).
      { unfold file_at, zlookup. rewrite Hr. unfold file_count. destruct (_ <? 0); [done|]. apply lookup_ge_None_2. lia. }
      destruct (find_name c' norm Hok') as [[_ Hno']|(k & g & E' & Hg & Hgn)]; [destruct Hno'; exists r; by eexists|].
      assert (rf_inode g = r) as Hgr.
      { rewrite Hat in Hg. case_decide as Hd; [lia|]. destruct Hno. by exists (rf_inode g), g. }
      destruct (Hfound c' k g E') as [H1 H2]. rewrite Hgr in H1, H2. splits; [done|done|].
      right. splits; [done|done|done|]. intros i Hi. rewrite Hat. rewrite decide_False; [done|]. lia.
  - destruct (Hfound c k f E) as [H1 H2]. exists (rf_inode f), c. splits; [done|done|]. right. splits; [done|done|by left].
Qed.
End ramfs.

(** ** Examples *)

(** A heap that never runs out. *)
#[export] Program Instance zero_heap : Realloc :=
  {| realloc_buf l n := Some (take (Z.to_nat n) l ++ replicate (Z.to_nat n - length l) 0) |}.
Next Obligation. intros l n l' [= <-] Hn. rewrite length_app, length_take, length_replicate. lia. Qed.
Next Obligation.
  intros l n l' [= <-] Hn. rewrite (take_ge l (Z.to_nat n)) by lia. apply take_app_length.
Qed.

Definition sample_ramfs : ramfs_ctx :=
  mkRamfs [mkFile (lit "/") [] 0 1 VFS_TYPE_DIR; mkFile (lit "motd") [104; 105; 0; 0] 3 2 VFS_TYPE_FILE] 3.

Lemma sample_ramfs_ok : ramfs_ok sample_ramfs.
Proof.
  assert (Hi : ∀ i f, file_at sample_ramfs i = Some f → i = 1 ∨ i = 2).
  { intros i f Hf. apply zlookup_Some_bounds in Hf. cbn in Hf. lia. }
  split; [done|done|..]; intros i f Hf; destruct (Hi i f Hf) as [-> | ->]; injection Hf as <-; done.
Qed.

Lemma ramfs_write_read_witness :
  let buffer := lit "hello" in let offset := 2 in
  let n := Z.of_nat (length buffer) in
  let f := mkFile (lit "motd") [104; 105; 0; 0] 3 2 VFS_TYPE_FILE in
  (ramfs_write 2 buffer offset sample_ramfs = Ok (-1, sample_ramfs) ∧ alloc_size f < offset + n ∧
   realloc_buf (rf_data f) (offset + n) = None) ∨
  (∃ c' f', ramfs_write 2 buffer offset sample_ramfs = Ok (n, c') ∧ ramfs_ok c' ∧
     ramfs_read 2 n offset c' = Ok ((n, buffer), c') ∧
     file_at c' 2 = Some f' ∧ rf_size f' = Z.max (rf_size f) (offset + n) ∧ rf_name f' = rf_name f ∧
     rf_type f' = rf_type f ∧
     (∀ j, j < rf_size f → ¬ (offset ≤ j < offset + n) → zlookup (rf_data f') j = zlookup (rf_data f) j) ∧
     (∀ i, i ≠ 2 → file_at c' i = file_at sample_ramfs i)).
Proof.
  intros buffer offset n f. apply (ramfs_write_read sample_ramfs 2 f buffer offset).
  - exact sample_ramfs_ok.
  - reflexivity.
  - discriminate.
  - lia.
  - reflexivity.
  - reflexivity.
Defined.

Lemma ramfs_create_lookup_witness :
  ∃ r c', ramfs_create (lit "/etc/passwd") sample_ramfs = Ok (r, c') ∧ ramfs_ok c' ∧
    ((r = 0 ∧ c' = sample_ramfs ∧ file_count sample_ramfs = MAX_FILES ∧ ¬ fs_named sample_ramfs (lit "etc/passwd")) ∨
     (ramfs_path_to_inode (lit "/etc/passwd") c' = Ok (r, c') ∧ ramfs_create (lit "/etc/passwd") c' = Ok (r, c') ∧
      (c' = sample_ramfs ∨ ¬ fs_named sample_ramfs (lit "etc/passwd") ∧
         file_at c' r = Some (mkFile (lit "etc/passwd") [] 0 r VFS_TYPE_FILE) ∧
         file_at sample_ramfs r = None ∧ ∀ i, i ≠ r → file_at c' i = file_at sample_ramfs i))).
Proof.
  apply (ramfs_create_lookup sample_ramfs (lit "/etc/passwd") (lit "etc/passwd")).
  - exact sample_ramfs_ok.
  - reflexivity.
  - discriminate.
Defined.

(** Two files with the same name: mkdir does not look for the name first. *)
Example mkdir_duplicates :
  match (ramfs_mkdir (lit "/etc");; ramfs_mkdir (lit "/etc")) sample_ramfs with
  | Ok (i, c) => i = 4 ∧ length (filter (λ f, rf_name f = lit "etc") (files c)) = 2%nat
  | _ => False
  end.
Proof. vm_compute. done. Qed.
