(* ===== verification/CpioProof.v ===== *)
(** * The initramfs archive: unpacking inverts packing

    A reference encoder for newc archives, and the proof that [unpack_cpio]
    performs exactly the file operations of the members of an archive. *)
From Stdlib Require Import ZArith Lia Ascii String.
From stdpp Require Import base option gmap list.
From S2P Require Import Prelude Memory CStringProof Print Vfs Ramfs RamfsProof.

(** ** The encoder *)

Definition hex_char (d : Z) : Z := default 0 (zlookup digits_upper d).
Definition hex8 (v : Z) : list Z := (λ i, hex_char ((v / 16 ^ (7 - i)) `mod` 16)) <$> seqZ 0 8.

(** A member; of the header fields that are not read any bytes may be given. *)
Record member := mkMember {
  m_name : list Z; m_mode : Z; m_data : list Z;
  m_ino : list Z; m_owner : list Z; m_dev : list Z; m_check : list Z }.

Definition header (e : member) : list Z :=
  CPIO_MAGIC ++ m_ino e ++ hex8 (m_mode e) ++ m_owner e ++ hex8 (Z.of_nat (length (m_data e))) ++ m_dev e ++
  hex8 (Z.of_nat (length (m_name e)) + 1) ++ m_check e.
Definition padding (n : Z) : list Z := replicate (Z.to_nat ((- n) `mod` 4)) 0.
Definition encode (e : member) : list Z :=
  let named := header e ++ m_name e ++ [0] in
  named ++ padding (Z.of_nat (length named)) ++ m_data e ++ padding (Z.of_nat (length (m_data e))).
Definition trailer : member :=
  mkMember (lit "TRAILER!!!") 0 [] (hex8 0) (hex8 0 ++ hex8 0 ++ hex8 1 ++ hex8 0) (hex8 0 ++ hex8 0 ++ hex8 0 ++ hex8 0) (hex8 0).
Definition archive (es : list member) : list Z := concat (encode <$> es) ++ encode trailer.

(** Members whose names are relative, fit the buffer of the unpacker and are
    not taken for the trailer. *)
Record member_ok (e : member) : Prop := {
  mo_name : Forall (λ c, 0 < c < 256) (m_name e) ∧ (0 < length (m_name e) ≤ 255)%nat;
  mo_rel : hd0 (m_name e) ≠ ch "/";
  mo_trailer : ¬ lit "TRAILER!!!" `prefix_of` m_name e;
  mo_mode : fits 32 (m_mode e);
  mo_data : Forall (λ c, 0 ≤ c < 256) (m_data e) ∧ Z.of_nat (length (m_data e)) < 2 ^ 32;
  mo_fields : length (m_ino e) = 8%nat ∧ length (m_owner e) = 32%nat ∧ length (m_dev e) = 32%nat ∧ length (m_check e) = 8%nat;
}.

(** The operations of one member on the mounted file system. *)
Definition install {C} (mnt : option Z) (e : member) : M (vfs C) unit :=
  if str_eqb (m_name e) (lit ".") then mret tt else
  let ftype := Z.land (m_mode e) CPIO_IFMT in
  if ftype =? CPIO_IFREG then
    inode ← vfs_create mnt (m_name e);
    if inode =? 0 then mret tt else
    match m_data e with
    | [] => mret tt
    | _ => vfs_write mnt inode (m_data e) 0;; mret tt
    end
  else if ftype =? CPIO_IFDIR then vfs_mkdir mnt (m_name e);; mret tt
  else mret tt.
Fixpoint install_all {C} (mnt : option Z) (es : list member) : M (vfs C) unit :=
  match es with
  | [] => mret tt
  | e :: es => install mnt e;; install_all mnt es
  end.

(** ** Bytes in memory *)

Lemma holds_bytes_app m d l k :
  holds_bytes m d (l ++ k) ↔ holds_bytes m d l ∧ holds_bytes m (d + Z.of_nat (length l)) k.
Proof.
  unfold holds_bytes. rewrite length_app. split.
  - intros H. split; intros i Hi.
    + rewrite H by lia. by rewrite lookup_app_l by lia.
    + rewrite <-Z.add_assoc, H by lia. rewrite lookup_app_r by lia. do 2 f_equal. lia.
  - intros [H1 H2] i Hi. destruct (decide (i < Z.of_nat (length l))).
    + rewrite lookup_app_l by lia. apply H1. lia.
    + rewrite lookup_app_r by lia. replace (d + i) with (d + Z.of_nat (length l) + (i - Z.of_nat (length l))) by lia.
      rewrite H2 by lia. do 2 f_equal. lia.
Qed.

Lemma holds_bytes_cons m d c l : holds_bytes m d (c :: l) → load8 m d = c ∧ holds_bytes m (d + 1) l.
Proof.
  intros H. apply (holds_bytes_app m d [c] l) in H as [H1 H2]. split; [|done].
  specialize (H1 0 ltac:(cbn; lia)). by rewrite Z.add_0_r in H1.
Qed.

Lemma starts_with_spec m p s : starts_with m p s = true ↔ holds_bytes m p s.
Proof.
  unfold starts_with, holds_bytes. rewrite forallb_forall. split.
  - intros H i Hi. destruct (lookup_lt_is_Some_2 s (Z.to_nat i)) as [c Hc]; [lia|]. rewrite Hc. cbn.
    assert ((i, c) ∈ zip (seqZ 0 (Z.of_nat (length s))) s) as Hin.
    { apply list_elem_of_lookup. exists (Z.to_nat i). apply lookup_zip_with_Some. exists i, c. splits; [done| |done].
      rewrite lookup_seqZ. lia. }
    apply list_elem_of_In in Hin. specialize (H _ Hin). cbn in H. by apply Z.eqb_eq.
  - intros H [i c] Hin. apply list_elem_of_In, list_elem_of_lookup in Hin as [k Hk].
    apply lookup_zip_with_Some in Hk as (i' & c' & [= <- <-] & Hi & Hc). apply lookup_seqZ in Hi as [-> Hi].
    apply Z.eqb_eq. rewrite H by lia. by replace (Z.to_nat (0 + Z.of_nat k)) with k by lia; rewrite Hc.
Qed.

Lemma read_bytes_spec m p l : holds_bytes m p l → read_bytes m p (Z.of_nat (length l)) = l.
Proof.
  intros H. unfold read_bytes. apply list_eq. intros i. rewrite list_lookup_fmap.
  destruct (decide (i < length l)%nat) as [Hi|Hi].
  - destruct (lookup_lt_is_Some_2 l i Hi) as [c Hc]. rewrite Hc.
    assert (seqZ 0 (Z.of_nat (length l)) !! i = Some (Z.of_nat i)) as -> by (apply lookup_seqZ; lia).
    cbn. rewrite H by lia. rewrite Nat2Z.id, Hc. done.
  - rewrite (lookup_ge_None_2 l) by lia. rewrite lookup_ge_None_2; [done|]. rewrite length_seqZ. lia.
Qed.

Lemma read_name_spec m l : ∀ n p, holds_bytes m p (l ++ [0]) → Forall (λ c, 0 < c < 256) l → (length l ≤ n)%nat →
  read_name m n p = l.
Proof.
  induction l as [|c l IH]; intros n p Hh Hl Hn; cbn [app] in Hh; apply holds_bytes_cons in Hh as [Hc Hh].
  - destruct n; [done|]. cbn. by rewrite Hc.
  - destruct n; [cbn in Hn; lia|]. apply list.Forall_cons in Hl as [Hc0 Hl]. cbn [read_name]. rewrite Hc.
    rewrite (proj2 (Z.eqb_neq c 0)) by lia. f_equal. apply IH; [done|done|cbn in Hn; lia].
Qed.

(** ** Header fields *)

Lemma hex_char_digit d : 0 ≤ d < 16 → hex_digit (hex_char d) = d.
Proof.
  intros Hd. assert (d = 0 ∨ d = 1 ∨ d = 2 ∨ d = 3 ∨ d = 4 ∨ d = 5 ∨ d = 6 ∨ d = 7 ∨ d = 8 ∨ d = 9 ∨ d = 10 ∨ d = 11 ∨
    d = 12 ∨ d = 13 ∨ d = 14 ∨ d = 15) as Hc by lia. by destruct_or! Hc; subst.
Qed.

Lemma hex_step v d : 0 ≤ v < 2 ^ 28 → 0 ≤ d < 16 → Z.lor (u32 (Z.shiftl v 4)) d = v * 16 + d.
Proof.
  intros Hv Hd. rewrite Z.shiftl_mul_pow2 by lia. rewrite u32_small by lia.
  pose proof (Z.add_lor_land (v * 2 ^ 4) d). assert (Z.land (v * 2 ^ 4) d = 0); [|lia].
  apply Z.bits_inj'. intros i Hi. rewrite Z.land_spec, Z.bits_0. destruct (decide (i < 4)).
  - by rewrite Z.mul_pow2_bits_low by lia.
  - by rewrite (testbit_high d 4), andb_false_r by lia.
Qed.

Lemma hex8_read m s v : fits 32 v → holds_bytes m s (hex8 v) → hex8_to_u32 m s = v.
Proof.
  intros [Hv0 Hv1] Hh.
  assert (Hd : ∀ i, 0 ≤ i < 8 → hex_digit (load8 m (s + i)) = (v / 16 ^ (7 - i)) `mod` 16).
  { intros i Hi. rewrite Hh by (unfold hex8; rewrite length_fmap, length_seqZ; lia).
    unfold hex8. rewrite list_lookup_fmap.
    assert (seqZ 0 8 !! Z.to_nat i = Some i) as -> by (apply lookup_seqZ; lia). cbn [fmap option_fmap option_map default from_option id].
    apply hex_char_digit. apply Z.mod_pos_bound. lia. }
  assert (Hstep : ∀ k k1, k1 = k + 1 → 0 ≤ k < 8 → Z.lor (u32 (Z.shiftl (v / 16 ^ k1) 4)) ((v / 16 ^ k) `mod` 16) = v / 16 ^ k).
  { intros k k1 -> Hk. assert (v / 16 ^ (k + 1) = v / 16 ^ k / 16) as ->.
    { rewrite Z.div_div by (try apply Z.pow_nonzero; lia). by rewrite Z.pow_add_r by lia. }
    pose proof (Z.div_pos v (16 ^ k) Hv0 ltac:(apply Z.pow_pos_nonneg; lia)).
    pose proof (Z.div_mod (v / 16 ^ k) 16 ltac:(lia)). pose proof (Z.mod_pos_bound (v / 16 ^ k) 16 ltac:(lia)).
    assert (v / 16 ^ k ≤ v) by (apply Z.div_le_upper_bound; [apply Z.pow_pos_nonneg; lia|
      pose proof (Z.pow_pos_nonneg 16 k ltac:(lia) ltac:(lia)); nia]).
    rewrite hex_step by lia. lia. }
  unfold hex8_to_u32. change (seqZ 0 8) with [0; 1; 2; 3; 4; 5; 6; 7]. cbn [foldl].
  rewrite !Hd by lia. change (7 - 0) with 7. change (7 - 1) with 6. change (7 - 2) with 5. change (7 - 3) with 4.
  change (7 - 4) with 3. change (7 - 5) with 2. change (7 - 6) with 1. change (7 - 7) with 0.
  assert (0 = v / 16 ^ 8) as E0 by (symmetry; apply Z.div_small; lia).
  rewrite E0 at 1. rewrite (Hstep 7 8), (Hstep 6 7), (Hstep 5 6), (Hstep 4 5), (Hstep 3 4), (Hstep 2 3), (Hstep 1 2), (Hstep 0 1) by lia.
  apply Z.div_1_r.
Qed.

Lemma length_hex8 v : length (hex8 v) = 8%nat.
Proof. unfold hex8. by rewrite length_fmap, length_seqZ. Qed.

(** What the unpacker reads from a header. *)
Lemma header_read m p e :
  member_ok e → holds_bytes m p (header e) →
  starts_with m p CPIO_MAGIC = true ∧ hex8_to_u32 m (p + off_mode) = m_mode e ∧
  hex8_to_u32 m (p + off_filesize) = Z.of_nat (length (m_data e)) ∧
  hex8_to_u32 m (p + off_namesize) = Z.of_nat (length (m_name e)) + 1 ∧ length (header e) = 110%nat.
Proof.
  intros He Hh. destruct (mo_fields _ He) as (L1 & L2 & L3 & L4). destruct (mo_name _ He) as [_ Hn].
  destruct (mo_data _ He) as [_ Hd]. unfold header in *.
  rewrite !holds_bytes_app, !length_hex8, L1, L2, L3 in Hh.
  destruct Hh as (H1 & _ & H3 & _ & H5 & _ & H7 & _). change (Z.of_nat (length CPIO_MAGIC)) with 6 in *. splits.
  - by apply starts_with_spec.
  - apply hex8_read; [apply He|]. unfold off_mode. by replace (p + 14) with (p + 6 + Z.of_nat 8) by lia.
  - apply hex8_read; [unfold fits; lia|]. unfold off_filesize.
    by replace (p + 54) with (p + 6 + Z.of_nat 8 + Z.of_nat 8 + Z.of_nat 32) by lia.
  - apply hex8_read; [unfold fits; lia|]. unfold off_namesize.
    by replace (p + 94) with (p + 6 + Z.of_nat 8 + Z.of_nat 8 + Z.of_nat 32 + Z.of_nat 8 + Z.of_nat 32) by lia.
  - rewrite !length_app, !length_hex8, L1, L2, L3, L4. done.
Qed.

Lemma align4_spec p : 0 ≤ p → p + 3 < 2 ^ 64 → align4 p = p + (- p) `mod` 4.
Proof.
  intros H0 H1. unfold align4. rewrite (u64_small (p + 3)) by lia. change 3 with (2 ^ 2 - 1) at 2.
  rewrite land_lnot_ones by lia. rewrite u64_small; zdiv.
Qed.

(** ** The loop *)

Lemma trailer_not_name m p name :
  holds_bytes m p (name ++ [0]) → ¬ lit "TRAILER!!!" `prefix_of` name → starts_with m p (lit "TRAILER!!!") = false.
Proof.
  intros Hh Hn. apply not_true_iff_false. rewrite starts_with_spec. intros Ht.
  assert (Heq : ∀ i : nat, (i < 10)%nat → (i < length name + 1)%nat → lit "TRAILER!!!" !! i = (name ++ [0]) !! i).
  { intros i Hi Hl. specialize (Ht (Z.of_nat i) ltac:(cbn; lia)). specialize (Hh (Z.of_nat i) ltac:(rewrite length_app; cbn; lia)).
    rewrite Nat2Z.id in *. destruct (lookup_lt_is_Some_2 (lit "TRAILER!!!") i) as [x Hx]; [cbn; lia|].
    destruct (lookup_lt_is_Some_2 (name ++ [0]) i) as [y Hy]; [rewrite length_app; cbn; lia|].
    rewrite Hx in Ht |- *. rewrite Hy in Hh |- *. cbn in *. congruence. }
  destruct (decide (10 ≤ length name)%nat) as [Hge|Hlt].
  - apply Hn. assert (take 10 name = lit "TRAILER!!!") as <-; [|by apply prefix_take]. apply list_eq. intros i.
    destruct (decide (i < 10)%nat).
    2:{ rewrite (lookup_ge_None_2 (take 10 name)) by (rewrite length_take; lia).
        symmetry. apply lookup_ge_None_2. change (length (lit "TRAILER!!!")) with 10%nat. lia. }
    rewrite Heq by lia. by rewrite lookup_take_lt, lookup_app_l by lia.
  - specialize (Heq (length name) ltac:(lia) ltac:(lia)). rewrite lookup_app_r, Nat.sub_diag in Heq by lia. cbn in Heq.
    apply list_elem_of_lookup_2 in Heq. vm_compute in Heq. repeat (apply elem_of_cons in Heq as [Heq|Heq]; [discriminate|]).
    by apply elem_of_nil in Heq.
Qed.

Lemma normalize_name m fuel p name :
  holds_bytes m p (name ++ [0]) → Forall (λ c, 0 < c < 256) name → (0 < length name ≤ 255)%nat → hd0 name ≠ ch "/" →
  normalize_path m (S fuel) p 256 = Ok name.
Proof.
  intros Hh Hn Hl Hs. unfold normalize_path. cbn [skip_slashes].
  destruct name as [|c name]; [cbn in Hl; lia|]. pose proof Hh as [Hc _]%holds_bytes_cons. rewrite Hc.
  cbn in Hs. rewrite (proj2 (Z.eqb_neq _ _) Hs).
  rewrite (read_name_spec m (c :: name)); [done|done|done|]. change (Z.to_nat (256 - 1)) with 255%nat. lia.
Qed.

Section unpack.
Context {C : Type} (m : memory) (mnt : option Z).

Lemma unpack_entry_install e data (s : vfs C) :
  holds_bytes m data (m_data e) →
  unpack_entry m mnt (m_name e) (m_mode e) data (Z.of_nat (length (m_data e))) s = install mnt e s.
Proof.
  intros Hd. unfold unpack_entry, install. rewrite (read_bytes_spec _ _ _ Hd).
  destruct (str_eqb _ _); [done|]. cbv zeta. destruct (_ =? CPIO_IFREG); [|done].
  unfold mbind, M_bind. destruct (vfs_create mnt (m_name e) s) as [[i s']| | |]; [|done..].
  destruct (i =? 0); [done|]. by destruct (m_data e).
Qed.

Lemma encode_length e :
  member_ok e → Z.of_nat (length (encode e)) =
    let q := 110 + (Z.of_nat (length (m_name e)) + 1) in
    let n := Z.of_nat (length (m_data e)) in
    q + (- q) `mod` 4 + n + (- n) `mod` 4.
Proof.
  intros He. destruct (mo_fields _ He) as (L1 & L2 & L3 & L4).
  unfold encode, padding, header. rewrite !length_app, !length_replicate, !length_hex8, L1, L2, L3, L4. cbn [length CPIO_MAGIC lit].
  pose proof (Z.mod_pos_bound (- (110 + (Z.of_nat (length (m_name e)) + 1))) 4 ltac:(lia)).
  pose proof (Z.mod_pos_bound (- Z.of_nat (length (m_data e))) 4 ltac:(lia)).
  match goal with |- context [Z.to_nat ((- Z.of_nat ?x) `mod` 4)] =>
    replace (Z.of_nat x) with (110 + (Z.of_nat (length (m_name e)) + 1)) by lia end.
  cbv zeta. lia.
Qed.

Lemma unpack_step fuel p end_ e (s : vfs C) :
  member_ok e → p `mod` 4 = 0 → 0 ≤ p → p + Z.of_nat (length (encode e)) ≤ end_ → end_ + 4 < 2 ^ 64 →
  holds_bytes m p (encode e) →
  unpack_loop m mnt (S fuel) p end_ s =
    (install mnt e;; unpack_loop m mnt fuel (p + Z.of_nat (length (encode e))) end_) s.
Proof.
  intros He Hp Hp0 Hend Hmax Hh. rewrite (encode_length e He) in *. cbv zeta in *.
  set (q := 110 + (Z.of_nat (length (m_name e)) + 1)) in *. set (n := Z.of_nat (length (m_data e))) in *.
  unfold encode in Hh. cbv zeta in Hh. rewrite holds_bytes_app in Hh. destruct Hh as [Hnamed Hh].
  rewrite holds_bytes_app in Hnamed. destruct Hnamed as [Hhd Hnm].
  destruct (header_read m p e He Hhd) as (Hmg & Hmo & Hfs & Hns & Hlen). rewrite Hlen in Hnm.
  rewrite !holds_bytes_app in Hh. destruct Hh as (_ & Hdata & _).
  destruct (mo_name _ He) as [Hnb Hnl]. pose proof (Z.mod_pos_bound (- q) 4 ltac:(lia)). pose proof (Z.mod_pos_bound (- n) 4 ltac:(lia)).
  assert (Ha1 : align4 (p + sizeof_cpio + (Z.of_nat (length (m_name e)) + 1)) = p + q + (- q) `mod` 4).
  { unfold sizeof_cpio. rewrite align4_spec by lia. replace (p + 110 + (Z.of_nat (length (m_name e)) + 1)) with (p + q) by lia. zdiv. }
  assert (Ha2 : align4 (p + q + (- q) `mod` 4 + n) = p + (q + (- q) `mod` 4 + n + (- n) `mod` 4)).
  { rewrite align4_spec by lia. zdiv. }
  cbn [unpack_loop]. rewrite (proj2 (Z.leb_le (p + sizeof_cpio) end_)) by (unfold sizeof_cpio; lia). cbn [negb].
  rewrite Hmg, Hmo, Hfs, Hns. cbn [negb]. rewrite (proj2 (Z.eqb_neq _ 0)), (proj2 (Z.ltb_ge end_ _)) by (unfold sizeof_cpio; lia). cbn [orb].
  change (Z.of_nat 110) with sizeof_cpio in Hnm.
  rewrite (trailer_not_name m _ _ Hnm (mo_trailer _ He)), Ha1. rewrite (proj2 (Z.ltb_ge end_ _)) by lia.
  fold n. rewrite Ha2, (normalize_name m fuel _ _ Hnm Hnb Hnl (mo_rel _ He)).
  unfold mbind at 1 2, M_bind at 1 2. unfold n. rewrite unpack_entry_install; [done|].
  unfold padding in Hdata. rewrite length_replicate, !length_app, Hlen in Hdata. cbn [length] in Hdata.
  match type of Hdata with holds_bytes _ ?a _ => replace (p + q + (- q) `mod` 4) with a; [done|] end.
  unfold sizeof_cpio. match goal with |- context [Z.to_nat ((- Z.of_nat ?x) `mod` 4)] =>
    replace (Z.of_nat x) with q by lia end. lia.
Qed.

(** The loop stops at the trailer. *)
Lemma unpack_trailer fuel p end_ (s : vfs C) :
  p + Z.of_nat (length (encode trailer)) ≤ end_ → holds_bytes m p (encode trailer) →
  unpack_loop m mnt (S fuel) p end_ s = Ok (tt, s).
Proof.
  intros Hend Hh. change (Z.of_nat (length (encode trailer))) with 124 in Hend. cbn [unpack_loop].
  unfold sizeof_cpio, off_namesize. rewrite (proj2 (Z.leb_le (p + 110) end_)) by lia. cbn [negb].
  assert (Hsub : ∀ k n, holds_bytes m (p + Z.of_nat k) (take n (drop k (encode trailer)))).
  { intros k n i Hi. rewrite length_take, length_drop in Hi.
    replace (p + Z.of_nat k + i) with (p + (Z.of_nat k + i)) by lia. rewrite Hh by lia.
    rewrite lookup_take_lt, lookup_drop by lia. do 2 f_equal. lia. }
  pose proof (Hsub 0%nat 6%nat) as H1. pose proof (Hsub 94%nat 8%nat) as H2. pose proof (Hsub 110%nat 10%nat) as H3.
  change (take 6 (drop 0 (encode trailer))) with CPIO_MAGIC in H1. rewrite Z.add_0_r in H1.
  change (take 8 (drop 94 (encode trailer))) with (hex8 11) in H2. change (p + Z.of_nat 94) with (p + 94) in H2.
  change (take 10 (drop 110 (encode trailer))) with (lit "TRAILER!!!") in H3. change (p + Z.of_nat 110) with (p + 110) in H3.
  rewrite (proj2 (starts_with_spec _ _ _) H1). cbn [negb]. rewrite (hex8_read m (p + 94) 11 ltac:(unfold fits; lia) H2).
  rewrite (proj2 (Z.ltb_ge end_ _)) by lia. cbn [orb Z.eqb]. by rewrite (proj2 (starts_with_spec _ _ _) H3).
Qed.

Lemma unpack_spec es : ∀ fuel p end_ (s : vfs C),
  Forall member_ok es → p `mod` 4 = 0 → 0 ≤ p → p + Z.of_nat (length (archive es)) ≤ end_ → end_ + 4 < 2 ^ 64 →
  holds_bytes m p (archive es) → (length es < fuel)%nat →
  unpack_loop m mnt fuel p end_ s = install_all mnt es s.
Proof.
  induction es as [|e es IH]; intros fuel p end_ s Hok Hp Hp0 Hend Hmax Hh Hf; (destruct fuel as [|fuel]; [cbn in Hf; lia|]).
  - apply unpack_trailer; [exact Hend|exact Hh].
  - apply list.Forall_cons in Hok as [He Hok]. assert (Ha : archive (e :: es) = encode e ++ archive es).
    { unfold archive. rewrite fmap_cons. cbn [concat]. by rewrite <-app_assoc. }
    rewrite Ha in Hh, Hend. apply holds_bytes_app in Hh as [Hh1 Hh2]. rewrite length_app in Hend.
    rewrite (unpack_step fuel p end_ e) by (done || lia). cbn [install_all]. unfold mbind, M_bind.
    destruct (install mnt e s) as [[[] s']| | |]; [|done..]. apply IH; [done| |lia|lia|lia|done|cbn in Hf; lia].
    rewrite (encode_length e He). cbv zeta. zdiv.
Qed.
End unpack.

(** C11: Unpacking inverts packing: on a newc archive of well-formed members at a 4-byte aligned address, [unpack_cpio] performs
    exactly the creations, writes and directory creations of the members, in their order, and stops at the trailer. *)
Theorem unpack_cpio_roundtrip {C} m mnt es fuel base (s : vfs C) :
  Forall member_ok es → base `mod` 4 = 0 → 0 ≤ base → base + Z.of_nat (length (archive es)) + 4 < 2 ^ 64 →
  holds_bytes m base (archive es) → (length es < fuel)%nat →
  unpack_cpio m mnt fuel base (Z.of_nat (length (archive es))) s = install_all mnt es s.
Proof. intros. by apply unpack_spec; [..|lia|lia| |]. Qed.

(** ** Termination on any archive *)

Lemma hex8_nonneg m s : 0 ≤ hex8_to_u32 m s.
Proof.
  unfold hex8_to_u32. assert (H : ∀ l v, 0 ≤ v → 0 ≤ foldl (λ v i, Z.lor (u32 (Z.shiftl v 4)) (hex_digit (load8 m (s + i)))) v l).
  { induction l as [|i l IH]; intros v Hv; [done|]. apply IH. apply Z.lor_nonneg. split; [apply Z.mod_pos_bound; lia|].
    unfold hex_digit. change (ch "0") with 48. change (ch "a") with 97. change (ch "A") with 65.
    repeat case_match; rewrite ?andb_true_iff, ?Z.leb_le in *; lia. }
  by apply H.
Qed.

Lemma align4_bounds p : 0 ≤ p → p + 3 < 2 ^ 64 → p ≤ align4 p ≤ p + 3.
Proof. intros. rewrite align4_spec by done. pose proof (Z.mod_pos_bound (- p) 4 ltac:(lia)). lia. Qed.

(** A byte that is no slash stops the loop over the leading slashes. *)
Lemma skip_slashes_stops m e fuel : ∀ p, load8 m e ≠ ch "/" → p ≤ e → e - p < Z.of_nat fuel → ∃ q, skip_slashes m fuel p = Ok q.
Proof.
  induction fuel as [|fuel IH]; intros p He Hp Hf; [lia|]. cbn [skip_slashes]. destruct (_ =? _) eqn:E; [|by eexists].
  apply IH; [done| |lia]. apply Z.eqb_eq in E. destruct (decide (p = e)); [congruence|lia].
Qed.

Section termination.
Context {C : Type} (m : memory) (mnt : option Z) (I : vfs C → Prop).
Context (Hentry : ∀ path mode data n s, I s → unpack_entry m mnt path mode data n s ≠ Spin ∧
                    ∀ s', unpack_entry m mnt path mode data n s = Ok (tt, s') → I s').

Lemma unpack_loop_terminates e end_ fuel : ∀ p s, load8 m e ≠ ch "/" → I s → 0 ≤ p ≤ end_ + 3 → end_ ≤ e → end_ + 6 < 2 ^ 64 →
  e - p + 4 < Z.of_nat fuel → unpack_loop m mnt fuel p end_ s ≠ Spin.
Proof.
  induction fuel as [|fuel IH]; intros p s He Hs Hp Hend Hmax Hf; [lia|]. cbn [unpack_loop]. cbv zeta.
  destruct (p + sizeof_cpio <=? end_) eqn:E1; cbn [negb]; [|done]. destruct (starts_with m p CPIO_MAGIC); cbn [negb]; [|done].
  pose proof (hex8_nonneg m (p + off_namesize)) as Hn. pose proof (hex8_nonneg m (p + off_filesize)) as Hz.
  set (n := hex8_to_u32 m (p + off_namesize)) in *. set (z := hex8_to_u32 m (p + off_filesize)) in *.
  destruct (_ || _) eqn:E2; [done|]. apply orb_false_iff in E2 as [E2 E3]. destruct (starts_with m _ _); [done|].
  destruct (end_ <? align4 _ + z) eqn:E4; [done|]. apply Z.leb_le in E1. apply Z.eqb_neq in E2. apply Z.ltb_ge in E3, E4. unfold sizeof_cpio in *.
  pose proof (align4_bounds (p + 110 + n) ltac:(lia) ltac:(lia)) as A1.
  pose proof (align4_bounds (align4 (p + 110 + n) + z) ltac:(lia) ltac:(lia)) as A2.
  unfold normalize_path. destruct (skip_slashes_stops m e (S fuel) (p + 110) He ltac:(lia) ltac:(lia)) as [q ->].
  unfold mbind, M_bind. match goal with |- context [unpack_entry m mnt ?a ?b ?c ?d s] => destruct (Hentry a b c d s Hs) as [H1 H2] end.
  destruct (unpack_entry _ _ _ _ _ _ _) as [[[] s']| | |]; [|done..]. by apply IH; [done|by apply H2|lia..].
Qed.
End termination.

(** The RAM file system is mounted at [i]. *)
Definition ram_mounted `{Realloc} (avail : bool) (i : Z) (s : vfs ramfs_ctx) : Prop :=
  ∃ mt, zlookup (mounts s) i = Some mt ∧ fs_ops (mnt_fs mt) = fs_ops (ramfs_fs avail).

Lemma dispatch_ram `{Realloc} avail {R} op (f : M ramfs_ctx R) err i s :
  ram_mounted avail i s → op (fs_ops (ramfs_fs avail)) = Some f → (∀ c, f c ≠ Spin) →
  dispatch op err (Some i) s ≠ Spin ∧ ∀ r s', dispatch op err (Some i) s = Ok (r, s') → ram_mounted avail i s'.
Proof.
  intros (mt & Hl & Ho) Hop Hf. unfold dispatch. rewrite Hl, Ho, Hop. specialize (Hf (fs_ctx mt)).
  destruct (f (fs_ctx mt)) as [[r c]| | |]; [|done..]. split; [done|]. intros r' s' [= <- <-].
  exists (set_fs_ctx c mt). split; [|done]. cbn. rewrite zlookup_zinsert by (by eapply zlookup_Some_bounds). by rewrite decide_True.
Qed.

(** An operation that terminates and keeps the mount, and its combinations. *)
Definition settles `{Realloc} (avail : bool) (i : Z) {R} (f : M (vfs ramfs_ctx) R) : Prop :=
  ∀ s, ram_mounted avail i s → f s ≠ Spin ∧ ∀ r s', f s = Ok (r, s') → ram_mounted avail i s'.

Lemma settles_ret `{Realloc} avail i {R} (x : R) : settles avail i (mret x).
Proof. intros s Hs. split; [done|]. by intros r s' [= <- <-]. Qed.
Lemma settles_bind `{Realloc} avail i {R T} (f : M (vfs ramfs_ctx) R) (g : R → M (vfs ramfs_ctx) T) :
  settles avail i f → (∀ x, settles avail i (g x)) → settles avail i (x ← f; g x).
Proof.
  intros Hf Hg s Hs. destruct (Hf s Hs) as [H1 H2]. unfold mbind, M_bind. destruct (f s) as [[x s1]| | |]; [|done..].
  apply Hg. by eapply H2.
Qed.
Lemma settles_create `{Realloc} avail i path : settles avail i (vfs_create (Some i) path).
Proof.
  intros s Hs. apply (dispatch_ram avail _ (ramfs_create path)); [done|done|]. intros c. unfold ramfs_create. by repeat case_match.
Qed.
Lemma settles_mkdir `{Realloc} avail i path : settles avail i (vfs_mkdir (Some i) path).
Proof.
  intros s Hs. apply (dispatch_ram avail _ (ramfs_mkdir path)); [done|done|]. intros c. unfold ramfs_mkdir. by repeat case_match.
Qed.
Lemma settles_write `{Realloc} avail i inode buf off : settles avail i (vfs_write (Some i) inode buf off).
Proof.
  intros s Hs. apply (dispatch_ram avail _ (ramfs_write inode buf off)); [done|done|]. intros c. unfold ramfs_write. cbv zeta.
  by repeat case_match.
Qed.

Lemma unpack_entry_ram `{Realloc} avail m i path mode data n : settles avail i (unpack_entry m (Some i) path mode data n).
Proof.
  unfold unpack_entry. cbv zeta. destruct (str_eqb _ _); [apply settles_ret|]. destruct (_ =? CPIO_IFREG).
  - apply settles_bind; [apply settles_create|]. intros inode. destruct (inode =? 0); [apply settles_ret|].
    destruct (0 <? n); [|apply settles_ret]. apply settles_bind; [apply settles_write|]. intros. apply settles_ret.
  - destruct (_ =? CPIO_IFDIR); [|apply settles_ret]. apply settles_bind; [apply settles_mkdir|]. intros. apply settles_ret.
Qed.

(** C33: Whatever bytes are in memory, unpacking into the RAM file system terminates: the pointer moves by at least a header
    with every member, and the loop over the slashes of a name ends at the first byte [e] behind the archive that is no
    slash, so that [e - base + 5] steps are enough. *)
Theorem unpack_cpio_terminates `{Realloc} m i avail base archive_size e fuel (s : vfs ramfs_ctx) :
  ram_mounted avail i s → 0 ≤ base → 0 ≤ archive_size → base + archive_size + 6 < 2 ^ 64 → base + archive_size ≤ e → load8 m e ≠ ch "/" →
  e - base + 4 < Z.of_nat fuel → unpack_cpio m (Some i) fuel base archive_size s ≠ Spin.
Proof.
  intros Hs Hb Hz Hmax He Hc Hf. unfold unpack_cpio.
  apply (unpack_loop_terminates m (Some i) (ram_mounted avail i)) with (e := e); [|done|done|lia..].
  intros path mode data n s' Hs'. destruct (unpack_entry_ram avail m i path mode data n s' Hs') as [H1 H2]. split; [done|]. intros t. apply H2.
Qed.

(** ** Example: an archive with a directory and two files *)

Definition sample_member (name data : string) (mode : Z) : member :=
  mkMember (lit name) mode (lit data) (m_ino trailer) (m_owner trailer) (m_dev trailer) (m_check trailer).
Definition sample_members : list member :=
  [sample_member "etc" "" 0x41ED; sample_member "etc/motd" "hello" 0x81A4; sample_member "init" "#!/bin/sh" 0x81ED].
Definition store_bytes (m : memory) (p : Z) (l : list Z) : memory :=
  foldl (λ m '(i, c), store8 m (p + i) c) m (zip (seqZ 0 (Z.of_nat (length l))) l).
Definition sample_archive : memory := store_bytes ∅ 0x2000 (archive sample_members).
Definition sample_vfs : vfs ramfs_ctx :=
  match (ramfs_init true;; vfs_mount FS_TYPE_RAMFS 0 0 0 0) (mkVfs [] [] []) with Ok (_, s) => s | _ => mkVfs [] [] [] end.

Lemma sample_members_ok : Forall member_ok sample_members.
Proof.
  repeat constructor; cbn; try lia; try discriminate; try (by split); try (intros [k Hk]; discriminate).
Qed.

Lemma sample_archive_holds : holds_bytes sample_archive 0x2000 (archive sample_members).
Proof. apply starts_with_spec. vm_compute. reflexivity. Qed.

Lemma unpack_cpio_roundtrip_witness :
  unpack_cpio sample_archive (Some 0) 4 0x2000 (Z.of_nat (length (archive sample_members))) sample_vfs =
  install_all (Some 0) sample_members sample_vfs.
Proof.
  apply (unpack_cpio_roundtrip sample_archive (Some 0) sample_members 4 0x2000 sample_vfs).
  - exact sample_members_ok.
  - reflexivity.
  - lia.
  - apply Z.ltb_lt. vm_compute. reflexivity.
  - exact sample_archive_holds.
  - cbn. lia.
Defined.

Lemma unpack_cpio_terminates_witness : unpack_cpio sample_archive (Some 0) 1000 0x2000 600 sample_vfs ≠ Spin.
Proof.
  apply (unpack_cpio_terminates sample_archive 0 true 0x2000 600 0x2258 1000 sample_vfs).
  - exists (mkMount (ramfs_fs true) (mkRamfs [mkFile (lit "/") [] 0 1 VFS_TYPE_DIR] 2) 0 0 0 0). split; reflexivity.
  - lia.
  - lia.
  - lia.
  - lia.
  - vm_compute. discriminate.
  - lia.
Defined.

(** The whole of [initramfs_init] on that archive: the file is there and reads back. *)
Example initramfs_reads_back :
  match (initramfs_init true sample_archive 5 0 (Some [mkModule (Some (lit "/boot/initramfs.cpio")) None 0x2000
           (Z.of_nat (length (archive sample_members)))]);;
         i ← vfs_path_to_inode (Some 0) (lit "/etc/motd"); vfs_read (Some 0) i 100 0) (mkVfs [] [] []) with
  | Ok (r, _) => r = (5, lit "hello")
  | _ => False
  end.
Proof. vm_compute. reflexivity. Qed.
