(* ===== verification/Modsym.v ===== *)
(** * Symbols of the kernel and of its modules

    Model of src/kernel/main/module/ksym.c and modsym.c.  The symbols that
    loaded modules export are in a table on the kernel heap that grows by
    [realloc], with copies of their names from [malloc]; the symbols of the
    kernel itself are a constant table.  ELF structures are read from memory at
    the offsets of src/kernel/includes/main/util/elf/elf.h. *)
From Stdlib Require Import ZArith Lia Ascii String.
From stdpp Require Import base option gmap list.
From S2P Require Import Prelude Memory CString Tlsf Print.

(** ** ELF structures *)

Definition sizeof_Ehdr : Z := 64.
Definition sizeof_Phdr : Z := 56.
Definition sizeof_Shdr : Z := 64.
Definition sizeof_Sym : Z := 24.
Definition sizeof_Rela : Z := 24.

(** [Elf64_Ehdr] at [h] *)
Definition e_ident (m : memory) (h i : Z) : Z := load8 m (h + i).
Definition e_type (m : memory) (h : Z) : Z := load16 m (h + 16).
Definition e_entry (m : memory) (h : Z) : Z := load64 m (h + 24).
Definition e_phoff (m : memory) (h : Z) : Z := load64 m (h + 32).
Definition e_shoff (m : memory) (h : Z) : Z := load64 m (h + 40).
Definition e_phentsize (m : memory) (h : Z) : Z := load16 m (h + 54).
Definition e_phnum (m : memory) (h : Z) : Z := load16 m (h + 56).
Definition e_shnum (m : memory) (h : Z) : Z := load16 m (h + 60).

(** [shdrs[i]] and its fields *)
Definition shdr (shdrs i : Z) : Z := shdrs + sizeof_Shdr * i.
Definition sh_type (m : memory) (s : Z) : Z := load32 m (s + 4).
Definition sh_flags (m : memory) (s : Z) : Z := load64 m (s + 8).
Definition sh_addr (m : memory) (s : Z) : Z := load64 m (s + 16).
Definition sh_offset (m : memory) (s : Z) : Z := load64 m (s + 24).
Definition sh_size (m : memory) (s : Z) : Z := load64 m (s + 32).
Definition sh_link (m : memory) (s : Z) : Z := load32 m (s + 40).
Definition sh_info (m : memory) (s : Z) : Z := load32 m (s + 44).
Definition sh_addralign (m : memory) (s : Z) : Z := load64 m (s + 48).

(** [Elf64_Sym] *)
Definition st_name (m : memory) (s : Z) : Z := load32 m s.
Definition st_info (m : memory) (s : Z) : Z := load8 m (s + 4).
Definition st_shndx (m : memory) (s : Z) : Z := load16 m (s + 6).
Definition st_value (m : memory) (s : Z) : Z := load64 m (s + 8).
Definition ELF64_ST_BIND (i : Z) : Z := Z.shiftr i 4.

Definition SHN_UNDEF : Z := 0.
Definition SHN_ABS : Z := 0xfff1.
Definition SHT_SYMTAB : Z := 2.
Definition SHT_RELA : Z := 4.
Definition SHT_NOBITS : Z := 8.
Definition SHF_ALLOC : Z := 2.

(** ** The kernel's symbols *)

(** The names of [ksym_table], in its order. *)
Definition ksym_names : list (list Z) := map lit [
  "kprintf"; "serial_printf"; "malloc"; "calloc"; "realloc"; "free"; "memcpy"; "memset"; "memcmp"; "strlen";
  "strcpy"; "strncpy"; "strcmp"; "strncmp"; "strstr"; "strchr"; "serial_write"; "outb"; "outw"; "outl"; "inb"; "inw";
  "inl"; "log_to_terminal"; "palloc_order"; "pfree_order"; "palloc"; "phys_to_virt"; "virt_to_phys";
  "phys_flush_cache"; "phys_invalidate_cache"; "udelay"; "pfree"; "map_page"; "get_time_ms"; "ISR_RegisterHandler";
  "strrchr"; "vfs_register_filesystem"; "vfs_mount"; "vfs_unmount"; "vfs_get_root_mount"; "vfs_read"; "vfs_write";
  "vfs_listdir"; "vfs_path_to_inode"; "vfs_create"; "vfs_mkdir"; "vfs_remove"; "vfs_rename"; "vfs_stat";
  "vfs_get_mount_for_path"]%string.

(** [strcmp] of a literal with the string at [p]. *)
Fixpoint strcmp_lit (l : list Z) (p : Z) : M memory Z :=
  b ← char_at p;
  match l with
  | [] => mret (0 - b)
  | a :: l => if negb (a =? 0) && (a =? b) then strcmp_lit l (p + 1) else mret (a - b)
  end.

(** [addr] gives the address of the function of each entry, which the linker
    fills in. *)
Fixpoint ksym_find (addr : Z → Z) (i : Z) (names : list (list Z)) (name : Z) : M memory Z :=
  match names with
  | [] => mret 0
  | n :: names => r ← strcmp_lit n name; if r =? 0 then mret (addr i) else ksym_find addr (i + 1) names name
  end.
Definition ksym_lookup (addr : Z → Z) (name : Z) : M memory Z := ksym_find addr 0 ksym_names name.

(** ** The table of module symbols *)

(** The static variables of modsym.c, with the memory; an entry has 16 bytes. *)
Record modsym := mkModsym { sy_mem : memory; sym_table : Z; sym_count : Z; sym_cap : Z }.
Definition set_sy_mem (m : memory) (s : modsym) : modsym := mkModsym m (sym_table s) (sym_count s) (sym_cap s).
Definition set_table (t cap : Z) (s : modsym) : modsym := mkModsym (sy_mem s) t (sym_count s) cap.
Definition set_count (n : Z) (s : modsym) : modsym := mkModsym (sy_mem s) (sym_table s) n (sym_cap s).
Definition on_heap {A} (m : M memory A) : M modsym A := zoom sy_mem set_sy_mem m.
Definition sizeof_entry : Z := 16.

(** The part that makes room for one more entry; [false] when there is none. *)
Definition grow_table (pool : Z) : M modsym bool :=
  count ← gets sym_count;
  cap ← gets sym_cap;
  if cap <=? count then
    let new_cap := if cap =? 0 then 64 else u64 (cap * 2) in
    table ← gets sym_table;
    grown ← on_heap (realloc pool table (u64 (new_cap * sizeof_entry)));
    if grown =? 0 then mret false else modify (set_table grown new_cap);; mret true
  else mret true.

Definition push_sym (fuel : nat) (pool name addr : Z) : M modsym unit :=
  room ← grow_table pool;
  if negb room then mret tt else
  len ← on_heap (strlen fuel name);
  name_copy ← on_heap (malloc pool (u64 (len + 1)));
  if name_copy =? 0 then mret tt else
  on_heap (strcpy fuel name_copy name);;
  table ← gets sym_table;
  count ← gets sym_count;
  on_heap (modify (λ m, store64 m (table + sizeof_entry * count) name_copy));;
  on_heap (modify (λ m, store64 m (table + sizeof_entry * count + 8) addr));;
  modify (set_count (u64 (count + 1))).

Fixpoint lookup_loop (n : nat) (fuel : nat) (i name : Z) : M modsym Z :=
  match n with
  | O => mret 0
  | S n =>
      table ← gets sym_table;
      p ← gets (λ s, load64 (sy_mem s) (table + sizeof_entry * i));
      r ← on_heap (strcmp fuel p name);
      if r =? 0 then gets (λ s, load64 (sy_mem s) (table + sizeof_entry * i + 8))
      else lookup_loop n fuel (i + 1) name
  end.
Definition modsym_lookup (fuel : nat) (name : Z) : M modsym Z :=
  count ← gets sym_count; lookup_loop (Z.to_nat count) fuel 0 name.

(** The lines of [modsym_dump]: name pointer and address. *)
Definition modsym_dump : M modsym (list (Z * Z)) := gets (λ s,
  (λ i, (load64 (sy_mem s) (sym_table s + sizeof_entry * i), load64 (sy_mem s) (sym_table s + sizeof_entry * i + 8)))
    <$> seqZ 0 (sym_count s)).

(** One symbol of the symbol table of a module. *)
Definition register_sym (fuel : nat) (pool image ehdr shdrs sym strtab : Z) : M modsym unit :=
  m ← gets sy_mem;
  let ndx := st_shndx m sym in
  if ndx =? SHN_UNDEF then mret tt else
  if ndx =? SHN_ABS then mret tt else
  if ELF64_ST_BIND (st_info m sym) =? 0 then mret tt else
  if e_shnum m ehdr <=? ndx then mret tt else
  let name := u64 (strtab + st_name m sym) in
  if (name =? 0) || (load8 m name =? 0) then mret tt else
  let addr := u64 (image + sh_addr m (shdr shdrs ndx) + st_value m sym) in
  push_sym fuel pool name addr.

(** The symbols [j], ..., [nsym - 1]. *)
Fixpoint register_syms (n : nat) (fuel : nat) (pool image ehdr shdrs syms strtab j : Z) : M modsym unit :=
  match n with
  | O => mret tt
  | S n =>
      register_sym fuel pool image ehdr shdrs (syms + sizeof_Sym * j) strtab;;
      register_syms n fuel pool image ehdr shdrs syms strtab (j + 1)
  end.

(** The sections [i], ..., [e_shnum - 1]: the first symbol table counts. *)
Fixpoint register_sections (n : nat) (fuel : nat) (pool buf image ehdr shdrs i : Z) : M modsym unit :=
  match n with
  | O => mret tt
  | S n =>
      m ← gets sy_mem;
      let s := shdr shdrs i in
      if negb (sh_type m s =? SHT_SYMTAB) then register_sections n fuel pool buf image ehdr shdrs (i + 1) else
      let syms := u64 (buf + sh_offset m s) in
      let strtab := u64 (buf + sh_offset m (shdr shdrs (sh_link m s))) in
      let nsym := sh_size m s / sizeof_Sym in
      register_syms (Z.to_nat (nsym - 1)) fuel pool image ehdr shdrs syms strtab 1
  end.
Definition modsym_register (fuel : nat) (pool buf image ehdr shdrs : Z) : M modsym unit :=
  n ← gets (λ s, e_shnum (sy_mem s) ehdr);
  register_sections (Z.to_nat n) fuel pool buf image ehdr shdrs 0.
