(* ===== verification/ModsymProof.v ===== *)
(** * The table of module symbols on the kernel heap

    [push_sym] and [modsym_lookup] implement a list of (name, address) pairs:
    a push appends, a lookup finds the first pair of a name.  The proofs use of
    the heap only what [tlsf_malloc] and [tlsf_realloc] promise. *)
From Stdlib Require Import ZArith Lia.
From stdpp Require Import base option gmap list.
From S2P Require Import Prelude Memory CString CStringProof Tlsf TlsfLists TlsfPhys TlsfHeap TlsfInit TlsfSpec TlsfRealloc Modsym.

(** ** Strings *)

Lemma copy_string_spec m d src s fuel :
  cstr m src s → (length s < fuel)%nat →
  d + Z.of_nat (length s) < src ∨ src + Z.of_nat (length s) < d →
  ∃ m', copy_string fuel d src m = Ok (tt, m') ∧ cstr m' d s ∧
    ∀ a, ¬ (d ≤ a ≤ d + Z.of_nat (length s)) → load8 m' a = load8 m a.
Proof.
  revert m d src fuel. induction s as [|c s IH]; intros m d src [|fuel] Hs Hf Hd; cbn [length] in Hf, Hd; try lia; cbn [copy_string].
  - cbn in Hs. mstep. rewrite Hs. mstep. exists (store8 m d 0). splits; [done| |].
    + cbn. by rewrite load8_store8_eq.
    + intros a Ha. cbn [length] in Ha. apply load8_store8_ne. lia.
  - destruct Hs as (H1 & H2 & H3). mstep. rewrite H1. mstep. rewrite (proj2 (Z.eqb_neq c 0)) by done.
    assert (Hs' : cstr (store8 m d c) (src + 1) s).
    { eapply cstr_frame; [|exact H3]. intros b Hb. apply load8_store8_ne. lia. }
    destruct (IH (store8 m d c) (d + 1) (src + 1) fuel Hs') as (m' & E & Hc & Hk); [lia|lia|].
    exists m'. splits; [done| |].
    + cbn [cstr]. splits; [|done|done]. rewrite Hk, load8_store8_eq by lia. apply u8_small.
      pose proof (load8_range m src). lia.
    + intros a Ha. cbn [length] in Ha. rewrite Hk by lia. apply load8_store8_ne. lia.
Qed.

(** ** The representation of the table *)

Section modsym.
Context (ctl b0 e : Z).

(** The name of an entry is a string in an allocation of its own. *)
Definition name_at (m : memory) (A : gmap Z Z) (p : Z) (s : list Z) : Prop :=
  ∃ n, A !! p = Some n ∧ Z.of_nat (length s) < n ∧ cstr m p s.

Record table_ok (st : modsym) (A : gmap Z Z) (l : list (list Z * Z)) : Prop := {
  tb_heap : ∃ bs, heap ctl b0 e (sy_mem st) bs A;
  tb_count : sym_count st = Z.of_nat (length l) ∧ sym_count st ≤ sym_cap st;
  tb_room : (sym_table st = 0 ∧ sym_cap st = 0) ∨ ∃ n, A !! sym_table st = Some n ∧ sizeof_entry * sym_cap st ≤ n;
  tb_entry : ∀ i s a, l !! i = Some (s, a) →
    let x := sym_table st + sizeof_entry * Z.of_nat i in
    load64 (sy_mem st) (x + 8) = a ∧ load64 (sy_mem st) x ≠ sym_table st ∧ name_at (sy_mem st) A (load64 (sy_mem st) x) s;
}.

(** The allocations other than [t] are still there with their contents. *)
Definition kept (t : Z) (A : gmap Z Z) (m : memory) (A' : gmap Z Z) (m' : memory) : Prop :=
  ∀ p n, A !! p = Some n → p ≠ t → A' !! p = Some n ∧ ∀ a, p ≤ a < p + n → load8 m' a = load8 m a.

Lemma name_kept t A m A' m' p s : kept t A m A' m' → p ≠ t → name_at m A p s → name_at m' A' p s.
Proof.
  intros HK Hp (n & Hn & Hl & Hs). destruct (HK p n Hn Hp) as [Hn' Hm]. exists n. splits; [done|done|].
  eapply cstr_frame; [|exact Hs]. intros b Hb. apply Hm. lia.
Qed.

Lemma fresh_kept A m m' size p n : fresh A size p n → (∀ a, owned A a → load8 m' a = load8 m a) → ∀ t, kept t A m (<[p := n]> A) m'.
Proof.
  intros (_ & _ & _ & Hf & _) Hm t q k Hq _. split; [rewrite lookup_insert_ne by congruence; done|].
  intros a Ha. apply Hm. by exists q, k.
Qed.

(** The size the table grows to, and that the heap does not have it. *)
Definition grown_cap (st : modsym) : Z := if sym_cap st =? 0 then 64 else u64 (sym_cap st * 2).
Definition no_room (st : modsym) : Prop :=
  sym_count st = sym_cap st ∧ tlsf_realloc ctl (sym_table st) (grown_cap st * sizeof_entry) (sy_mem st) = Ok (0, sy_mem st).

(** An empty slot of the table can take a new entry. *)
Lemma grow_table_spec st A l :
  table_ok st A l → Z.of_nat (length l) < 2 ^ 26 →
  ∃ r st' A', grow_table ctl st = Ok (r, st') ∧ table_ok st' A' l ∧ kept (sym_table st) A (sy_mem st) A' (sy_mem st') ∧
    (∀ p, is_Some (A !! p) → p ≠ sym_table st → p ≠ sym_table st') ∧
    if r then sym_count st' < sym_cap st' else no_room st.
Proof.
  intros HT Hlen. pose proof HT as [[bs Hh] [Hc1 Hc2] Hroom Hent]. unfold grow_table. mstep. mstep.
  destruct (Z.leb_spec (sym_cap st) (sym_count st)) as [Hfull|Hfree].
  2: { exists true, st, A. splits; [done|done| |done|done]. by intros p n Hp _. }
  assert (Ecap : sym_cap st = Z.of_nat (length l)) by lia. mstep.
  fold (grown_cap st). set (new_cap := grown_cap st).
  assert (Hnc : 64 ≤ new_cap ∨ sym_cap st < new_cap) by (unfold new_cap, grown_cap; destruct (Z.eqb_spec (sym_cap st) 0); [|rewrite u64_small by lia]; lia).
  assert (Hnc' : 0 < new_cap < 2 ^ 27 ∧ sym_cap st < new_cap) by (unfold new_cap, grown_cap; destruct (Z.eqb_spec (sym_cap st) 0); [|rewrite u64_small by lia]; lia).
  unfold sizeof_entry. rewrite u64_small by lia. unfold on_heap, realloc.
  assert (Hreq : request (new_cap * 16) ≠ 0).
  { unfold request. rewrite (proj2 (Z.eqb_neq (new_cap * 16) 0)) by lia. change block_size_max with (2 ^ 32). change block_size_min with 24.
    rewrite (proj2 (Z.ltb_lt ((new_cap * 16 + 7) / 8 * 8) _)) by zdiv. lia. }
  assert (∃ q m', tlsf_realloc ctl (sym_table st) (new_cap * 16) (sy_mem st) = Ok (q, m') ∧
    ((q = 0 ∧ m' = sy_mem st) ∨ ∃ n' A', fresh (delete (sym_table st) A) (new_cap * 16) q n' ∧
       A' = <[q := n']> (delete (sym_table st) A) ∧ (∃ bs', heap ctl b0 e m' bs' A') ∧
       (∀ i, 0 ≤ i < 16 * sym_cap st → load8 m' (q + i) = load8 (sy_mem st) (sym_table st + i)) ∧
       ∀ a, owned (delete (sym_table st) A) a → load8 m' a = load8 (sy_mem st) a)) as (q & m' & E & Hr).
  { destruct Hroom as [[Et Ez]|(n & Hn & Hsz)].
    - rewrite Et. unfold tlsf_realloc. cbn [Z.eqb negb andb].
      destruct (tlsf_malloc_spec ctl b0 e _ bs A (new_cap * 16) Hh ltac:(lia)) as (q & m' & E & [(-> & -> & _)|(n' & bs' & Hn' & Hf & H' & Ho)]).
      + exists 0, (sy_mem st). split; [done|]. by left.
      + destruct (heap_fresh _ _ _ _ _ _ _ _ _ H' Hf Hn') as [Hfr _].
        assert (A !! 0 = None) as HA0.
        { destruct (A !! 0) as [k|] eqn:E0; [|done]. destruct (heap_apart _ _ _ _ _ _ 0 k Hh E0) as (_ & _ & ? & _).
          pose proof (lo_base _ _ _ (hp_layout _ _ _ _ _ _ Hh)). lia. }
        exists q, m'. split; [done|]. right. exists n', (<[q := n']> (delete 0 A)). rewrite (delete_id A 0) by done.
        splits; [done|done|by exists bs'|lia|]. intros a Ha. by eapply only_owned.
    - destruct (tlsf_realloc_spec ctl b0 e _ bs A _ n (new_cap * 16) Hh Hn ltac:(lia) Hreq) as (q & m' & E & [(-> & -> & _)|(n' & bs' & Hf & H' & Hcp & Hk)]).
      + exists 0, (sy_mem st). split; [done|]. by left.
      + exists q, m'. split; [done|]. right. exists n', (<[q := n']> (delete (sym_table st) A)). unfold sizeof_entry in Hsz.
        splits; [done|done|by exists bs'| |done]. intros i Hi. apply Hcp. lia. }
  erewrite bind_ok; [|unfold zoom; rewrite E; reflexivity]. cbv beta.
  destruct Hr as [[-> ->]|(n' & A' & Hf & -> & Hh' & Hcp & Hk)].
  { exists false, (set_sy_mem (sy_mem st) st), A. rewrite Z.eqb_refl. splits; [done|by destruct st| |done|].
    - by intros p n Hp _.
    - split; [lia|]. unfold sizeof_entry. done. }
  pose proof Hf as (Hq0 & _ & Hq1 & Hq2 & Hq3). rewrite (proj2 (Z.eqb_neq q 0)) by done. mstep.
  assert (HK : kept (sym_table st) A (sy_mem st) (<[q := n']> (delete (sym_table st) A)) m').
  { intros p n Hp Hne. assert (Hp' : delete (sym_table st) A !! p = Some n) by (by rewrite lookup_delete_ne).
    split; [rewrite lookup_insert_ne by congruence; done|]. intros a Ha. apply Hk. by exists p, n. }
  eexists true, _, _. split; [done|]. split; [|split; [exact HK|split; [|cbn; lia]]].
  2: { intros p [k Hp] Hne ->. cbn in Hne, Hp. rewrite lookup_delete_ne in Hq2 by congruence. congruence. }
  split; cbn [sy_mem sym_table sym_count sym_cap set_table set_sy_mem].
  - done.
  - lia.
  - right. exists n'. split; [apply lookup_insert_eq|unfold sizeof_entry; lia].
  - intros i s a Hi. destruct (Hent i s a Hi) as (E1 & E2 & E3). pose proof (lookup_lt_Some _ _ _ Hi).
    assert (Hw : ∀ k, k = 0 ∨ k = 8 → load64 m' (q + sizeof_entry * Z.of_nat i + k) = load64 (sy_mem st) (sym_table st + sizeof_entry * Z.of_nat i + k)).
    { intros k Hk'. apply load_shift. intros j Hj. unfold sizeof_entry.
      replace (q + 16 * Z.of_nat i + k + j) with (q + (16 * Z.of_nat i + k + j)) by lia. rewrite Hcp by lia. f_equal. lia. }
    pose proof (Hw 0 ltac:(by left)) as W0. pose proof (Hw 8 ltac:(by right)) as W8. rewrite !Z.add_0_r in W0. cbv zeta. rewrite W0, W8.
    destruct E3 as (k & Hk1 & Hk2 & Hk3). splits; [done| |].
    + intros Eq. assert (Hd : delete (sym_table st) A !! q = Some k) by (rewrite lookup_delete_ne by congruence; congruence). congruence.
    + eapply name_kept; [exact HK|done|]. by exists k.
Qed.


Lemma kept_trans t1 t2 A1 A2 A3 m1 m2 m3 :
  kept t1 A1 m1 A2 m2 → (∀ p, is_Some (A1 !! p) → p ≠ t1 → p ≠ t2) → kept t2 A2 m2 A3 m3 → kept t1 A1 m1 A3 m3.
Proof.
  intros H1 Ht H2 p n Hp Hne. destruct (H1 p n Hp Hne) as [H3 H4]. destruct (H2 p n H3) as [H5 H6]; [apply Ht; eauto|].
  split; [done|]. intros a Ha. by rewrite H6, H4.
Qed.

(** A new entry behind the [l] that are there, once its name has a copy [c]. *)
Lemma add_entry_spec st A l c n m2 m3 s addr :
  table_ok st A l → sym_count st < sym_cap st → fresh A (Z.of_nat (length s) + 1) c n →
  (∃ bs, heap ctl b0 e m2 bs (<[c := n]> A)) → (∀ a, owned A a → load8 m2 a = load8 (sy_mem st) a) →
  cstr m3 c s → (∀ a, ¬ (c ≤ a ≤ c + Z.of_nat (length s)) → load8 m3 a = load8 m2 a) → 0 ≤ addr < 2 ^ 64 → 0 ≤ c < 2 ^ 64 →
  let x := sym_table st + sizeof_entry * sym_count st in
  let m5 := store64 (store64 m3 x c) (x + 8) addr in
  table_ok (mkModsym m5 (sym_table st) (sym_count st + 1) (sym_cap st)) (<[c := n]> A) (l ++ [(s, addr)]) ∧
  kept (sym_table st) A (sy_mem st) (<[c := n]> A) m5.
Proof.
  intros [_ [Hc1 Hc2] Hroom Hent] Hfree (F1 & _ & F2 & F3 & F4) [bs Hh] H2 Hs H3 Ha Hc x m5.
  destruct Hroom as [[_ ?]|(k & Hk & Hsz)]; [lia|]. pose proof (F4 _ _ Hk) as Hapart.
  assert (Hne : sym_table st ≠ c) by congruence. unfold sizeof_entry in *.
  assert (H5 : ∀ a, ¬ (x ≤ a < x + 16) → load8 m5 a = load8 m3 a).
  { intros a Hx. unfold m5. rewrite !load8_store64_ne by lia. done. }
  assert (HK : kept (sym_table st) A (sy_mem st) (<[c := n]> A) m5).
  { intros p j Hp Hpt. split; [rewrite lookup_insert_ne by congruence; done|]. intros a Hin. pose proof (F4 _ _ Hp).
    assert (p + j ≤ sym_table st ∨ sym_table st + k ≤ p).
    { destruct (heap_apart _ _ _ _ _ _ p j Hh) as (_ & _ & _ & _ & Hd); [rewrite lookup_insert_ne by congruence; done|].
      apply or_comm. destruct (Hd (sym_table st) k); [rewrite lookup_insert_ne by congruence; done|done|lia|lia]. }
    rewrite H5, H3, H2 by (lia || by exists p, j). done. }
  split; [|exact HK]. split; cbn [sy_mem sym_table sym_count sym_cap].
  - exists bs. eapply heap_write; [exact Hh|]. intros a Hu.
    assert (¬ (sym_table st ≤ a < sym_table st + k)) by (apply (Hu (sym_table st) k); by rewrite lookup_insert_ne by congruence).
    assert (¬ (c ≤ a < c + n)) by (apply (Hu c n); apply lookup_insert_eq).
    rewrite H5, H3 by lia. done.
  - rewrite length_app. cbn [length]. lia.
  - right. exists k. split; [by rewrite lookup_insert_ne by congruence|unfold sizeof_entry; lia].
  - intros i s' a' Hi. cbv zeta. unfold sizeof_entry. apply lookup_app_Some in Hi as [Hi|[Hi1 Hi2]].
    + pose proof (lookup_lt_Some _ _ _ Hi) as Hlt. destruct (Hent i s' a' Hi) as (E1 & E2 & E3). cbv zeta in E1, E2, E3.
      assert (Hw : ∀ y, sym_table st ≤ y → y + 8 ≤ x → load64 m5 y = load64 (sy_mem st) y).
      { intros y Hy1 Hy2. apply load_ext. intros b Hb. rewrite H5, H3, H2 by (lia || (exists (sym_table st), k; split; [done|lia])). done. }
      rewrite !Hw by lia. splits; [done|done|]. by eapply name_kept.
    + assert (i = length l) as ->.
      { apply lookup_lt_Some in Hi2. cbn [length] in Hi2. lia. }
      rewrite Nat.sub_diag in Hi2. injection Hi2 as <- <-. rewrite <-Hc1. fold x. unfold m5.
      rewrite load64_store64_eq, load64_store64_ne, load64_store64_eq, !u64_small by lia.
      splits; [done|congruence|]. exists n. splits; [apply lookup_insert_eq|lia|].
      eapply cstr_frame; [|exact Hs]. intros b Hb. apply H5. lia.
Qed.

Lemma on_heap_ok {X} (f : M memory X) st x m' : f (sy_mem st) = Ok (x, m') → on_heap f st = Ok (x, set_sy_mem m' st).
Proof. intros E. unfold on_heap, zoom. by rewrite E. Qed.

(** The string [s] at [name], in an allocation other than the table. *)
Definition borrowed (st : modsym) (A : gmap Z Z) (name : Z) (s : list Z) : Prop :=
  ∃ p n, A !! p = Some n ∧ p ≠ sym_table st ∧ p ≤ name ∧ name + Z.of_nat (length s) < p + n ∧ cstr (sy_mem st) name s.

Lemma push_sym_spec st A l name s addr fuel :
  table_ok st A l → Z.of_nat (length l) < 2 ^ 26 → borrowed st A name s → (length s < fuel)%nat → 0 ≤ addr < 2 ^ 64 →
  ∃ st' A' l', push_sym fuel ctl name addr st = Ok (tt, st') ∧ table_ok st' A' l' ∧
    kept (sym_table st) A (sy_mem st) A' (sy_mem st') ∧
    (l' = l ++ [(s, addr)] ∨
     l' = l ∧ (no_room st ∨ tlsf_malloc ctl (Z.of_nat (length s) + 1) (sy_mem st') = Ok (0, sy_mem st'))).
Proof.
  intros HT Hlen (P & k & HP & HPt & Hn1 & Hn2 & Hs) Hf Haddr. unfold push_sym.
  destruct (grow_table_spec st A l HT Hlen) as (r & st1 & A1 & E1 & HT1 & HK1 & Hapart & Hr). mstep with E1.
  destruct r; cbn [negb]; [|exists st1, A1, l; splits; [done|done|done|tauto]].
  destruct (HK1 P k HP HPt) as [HP1 HmP]. 
  assert (Hs1 : cstr (sy_mem st1) name s) by (eapply cstr_frame; [|exact Hs]; intros b Hb; apply HmP; lia).
  destruct (tb_heap _ _ _ HT1) as [bs Hh]. pose proof (heap_apart _ _ _ _ _ _ _ _ Hh HP1) as (_ & _ & HPl & HPh & _).
  pose proof (hp_layout _ _ _ _ _ _ Hh) as Hlo. pose proof (lo_base _ _ _ Hlo). pose proof (lo_end _ _ _ Hlo) as [He1 He2].
  change block_size_max with (2 ^ 32) in He2.
  assert (Hlen1 : u64 (Z.of_nat (length s) + 1) = Z.of_nat (length s) + 1) by (apply u64_small; lia).
  mstep with (on_heap_ok _ st1 _ _ (strlen_spec _ _ _ _ Hs1 Hf)). rewrite Hlen1. replace (set_sy_mem (sy_mem st1) st1) with st1 by (by destruct st1).
  destruct (tlsf_malloc_spec ctl b0 e _ bs A1 (Z.of_nat (length s) + 1) Hh ltac:(lia)) as (c & m2 & E2 & [(-> & -> & _)|(n & bs' & Hn & HA & Hh2 & Ho)]).
  { mstep with (on_heap_ok _ st1 _ _ E2). rewrite Z.eqb_refl. exists st1, A1, l. replace (set_sy_mem (sy_mem st1) st1) with st1 by (by destruct st1). splits; [done|done|done|tauto]. }
  mstep with (on_heap_ok _ st1 _ _ E2). destruct (heap_fresh _ _ _ _ _ _ _ _ _ Hh2 HA Hn) as (Hfr & Hc1 & Hc2). rewrite (proj2 (Z.eqb_neq c 0)) by lia.
  assert (Hm2 : ∀ a, owned A1 a → load8 m2 a = load8 (sy_mem st1) a) by (intros a Hin; by eapply only_owned).
  assert (Hs2 : cstr m2 name s) by (eapply cstr_frame; [|exact Hs1]; intros b Hb; apply Hm2; exists P, k; split; [done|lia]).
  pose proof Hfr as (_ & _ & _ & _ & Hd). specialize (Hd P k HP1).
  destruct (copy_string_spec m2 c name s fuel Hs2 Hf ltac:(lia)) as (m3 & E3 & Hs3 & Hm3).
  assert (Estrcpy : strcpy fuel c name m2 = Ok (c, m3)) by (unfold strcpy; by mstep with E3).
  mstep with (on_heap_ok _ (set_sy_mem m2 st1) _ _ Estrcpy). repeat (mstep; cbn [sym_table sym_count sym_cap sy_mem set_sy_mem]).
  destruct (tb_count _ _ _ HT1) as [Hcnt _].
  destruct (add_entry_spec st1 A1 l c n m2 m3 s addr HT1 Hr Hfr ltac:(by exists bs') Hm2 Hs3 Hm3 Haddr ltac:(lia)) as [HT5 HK5].
  eexists _, _, _. split; [|split; [exact HT5|split; [|by left]]].
  - unfold modify, set_count. cbn [sym_table sym_count sym_cap sy_mem set_sy_mem]. rewrite u64_small by lia. done.
  - cbn [sy_mem]. by eapply kept_trans; [exact HK1|exact Hapart|exact HK5].
Qed.

(** ** Lookup *)

(** The address of the first pair of a name, or 0. *)
Fixpoint assoc (s : list Z) (l : list (list Z * Z)) : Z :=
  match l with
  | [] => 0
  | (s', a) :: l => if decide (s' = s) then a else assoc s l
  end.

Lemma assoc_app s l k : assoc s (l ++ k) = if decide (s ∈ l.*1) then assoc s l else assoc s k.
Proof.
  induction l as [|[s' a] l IH]; cbn [assoc app fmap list_fmap fst]; [by rewrite decide_False by apply not_elem_of_nil|].
  rewrite IH. destruct (decide (s' = s)) as [->|Hne]; [by rewrite decide_True by apply list_elem_of_here|].
  destruct (decide (s ∈ l.*1)); [by rewrite decide_True by by apply list_elem_of_further|].
  rewrite decide_False; [done|]. rewrite elem_of_cons. naive_solver.
Qed.

Lemma lookup_loop_spec st A l name s fuel : table_ok st A l → cstr (sy_mem st) name s → (length s < fuel)%nat →
  ∀ k i, drop i l = k → Forall (λ p, length p.1 < fuel)%nat k →
  lookup_loop (length k) fuel (Z.of_nat i) name st = Ok (assoc s k, st).
Proof.
  intros HT Hs Hf k. induction k as [|[s' a] k IH]; intros i Hd Hall; cbn [length lookup_loop assoc]; [done|].
  assert (Hi : l !! i = Some (s', a)) by (rewrite <-(Nat.add_0_r i), <-lookup_drop, Hd; done).
  apply list.Forall_cons in Hall as [Hlt Hall]. cbn [fst] in Hlt.
  destruct (tb_entry _ _ _ HT i s' a Hi) as (E1 & _ & n & _ & _ & Hs'). mstep. mstep.
  pose proof (strcmp_spec _ _ _ _ _ fuel Hs' Hs Hlt) as E. mstep with (on_heap_ok _ st _ _ E).
  replace (set_sy_mem (sy_mem st) st) with st by (by destruct st).
  destruct (first_diff_order s' s) as [Hz _]; [by eapply cstr_byte|by eapply cstr_byte|].
  destruct (decide (s' = s)) as [He|Hne].
  - rewrite (proj2 (Z.eqb_eq _ 0)) by tauto. unfold gets. by rewrite E1.
  - rewrite (proj2 (Z.eqb_neq _ 0)) by tauto. replace (Z.of_nat i + 1) with (Z.of_nat (S i)) by lia. apply IH; [|done].
    replace (S i) with (i + 1)%nat by lia. by rewrite <-drop_drop, Hd.
Qed.

Lemma modsym_lookup_spec st A l name s fuel :
  table_ok st A l → cstr (sy_mem st) name s → (length s < fuel)%nat → Forall (λ p, length p.1 < fuel)%nat l →
  modsym_lookup fuel name st = Ok (assoc s l, st).
Proof.
  intros HT Hs Hf Hall. unfold modsym_lookup. mstep. destruct (tb_count _ _ _ HT) as [-> _]. rewrite Nat2Z.id.
  apply (lookup_loop_spec st A l name s fuel HT Hs Hf l 0); done.
Qed.
End modsym.

(** ** The kernel's own table *)

Lemma strcmp_lit_spec m p s l :
  cstr m p s → Forall (λ c, 0 < c < 256) l → ∃ r, strcmp_lit l p m = Ok (r, m) ∧ (r = 0 ↔ l = s).
Proof.
  revert p s. induction l as [|c l IH]; intros p s Hs Hl; cbn [strcmp_lit]; mstep.
  - exists (0 - load8 m p). split; [done|]. destruct s as [|d s]; cbn [cstr] in Hs; [rewrite Hs; done|].
    destruct Hs as (-> & ? & _). split; [lia|done].
  - apply list.Forall_cons in Hl as [Hc Hl]. rewrite (proj2 (Z.eqb_neq c 0)) by lia. cbn [negb andb].
    destruct s as [|d s]; cbn [cstr] in Hs.
    + rewrite Hs, (proj2 (Z.eqb_neq c 0)) by lia. exists (c - 0). split; [done|]. split; [lia|done].
    + destruct Hs as (-> & Hd & Hs). destruct (Z.eqb_spec c d) as [->|Hne].
      * destruct (IH _ _ Hs Hl) as (r & E & Hr). exists r. split; [done|]. rewrite Hr. split; [by intros ->|by intros [= ]].
      * exists (c - d). split; [done|]. split; [lia|by intros [= ]].
Qed.

(** The position of a name in the table. *)
Fixpoint name_index (s : list Z) (names : list (list Z)) : option Z :=
  match names with
  | [] => None
  | n :: names => if decide (n = s) then Some 0 else Z.succ <$> name_index s names
  end.

Lemma ksym_find_spec addr m name s names i :
  cstr m name s → Forall (Forall (λ c, 0 < c < 256)) names →
  ksym_find addr i names name m = Ok (from_option (λ j, addr (i + j)) 0 (name_index s names), m).
Proof.
  intros Hs. revert i. induction names as [|n names IH]; intros i Hall; cbn [ksym_find name_index]; [done|].
  apply list.Forall_cons in Hall as [Hn Hall]. destruct (strcmp_lit_spec m name s n Hs Hn) as (r & E & Hr). mstep with E.
  destruct (decide (n = s)) as [He|Hne].
  - rewrite (proj2 (Z.eqb_eq r 0)) by tauto. cbn [from_option]. by rewrite Z.add_0_r.
  - rewrite (proj2 (Z.eqb_neq r 0)) by tauto. rewrite IH by done. destruct (name_index s names) as [j|]; cbn; [|done].
    do 3 f_equal. lia.
Qed.

Lemma ksym_names_bytes : Forall (Forall (λ c, 0 < c < 256)) ksym_names.
Proof. apply (bool_decide_unpack _). vm_compute. exact I. Qed.

Lemma ksym_lookup_spec addr m name s :
  cstr m name s → ksym_lookup addr name m = Ok (from_option addr 0 (name_index s ksym_names), m).
Proof. intros Hs. unfold ksym_lookup. rewrite (ksym_find_spec addr m name s) by (done || apply ksym_names_bytes). by destruct (name_index s ksym_names). Qed.

(** ** The theorems *)

Lemma cstr_one m p c : 0 < c < 256 → cstr (store8 (store8 m p c) (p + 1) 0) p [c].
Proof.
  intros Hc. cbn [cstr]. rewrite load8_store8_ne, !load8_store8_eq by lia. unfold u8. rewrite Z.mod_small by lia. splits; [done|lia|done].
Qed.

(** A heap with the name [A] in an allocation, and no symbols yet. *)
Definition sample_syms : modsym := mkModsym (store8 (store8 heap_100 ptr_100 65) (ptr_100 + 1) 0) 0 0 0.

Lemma sample_syms_ok : ∃ n, table_ok 0x10000 sample_base sample_end sample_syms {[ptr_100 := n]} [] ∧
  borrowed sample_syms {[ptr_100 := n]} ptr_100 [65].
Proof.
  destruct heap_100_ok as (n & bs & H). destruct (heap_apart _ _ _ _ _ _ ptr_100 n H (lookup_singleton_eq _ _)) as (_ & Hn & _).
  exists n. split.
  - split; cbn; [|lia|by left|done]. exists bs. eapply heap_write; [exact H|]. intros a Ha.
    specialize (Ha ptr_100 n (lookup_singleton_eq _ _)). rewrite !load8_store8_ne by lia. done.
  - exists ptr_100, n. cbn [sym_table sample_syms length]. splits; [apply lookup_singleton_eq|apply ptr_100_nonzero|lia|lia|].
    apply cstr_one; lia.
Qed.

(** [push_sym] on a table of fewer than 2^26 symbols appends the pair of the name (copied to the heap) and the
    address, or leaves the list of symbols as it is when the heap cannot grow the table or hold the name; every other
    allocation of the heap keeps its place and contents, and the heap stays well-formed. *)
Theorem push_sym_correct ctl b0 e st A l name s addr fuel :
  table_ok ctl b0 e st A l → Z.of_nat (length l) < 2 ^ 26 → borrowed st A name s → (length s < fuel)%nat → 0 ≤ addr < 2 ^ 64 →
  ∃ st' A' l', push_sym fuel ctl name addr st = Ok (tt, st') ∧ table_ok ctl b0 e st' A' l' ∧
    kept (sym_table st) A (sy_mem st) A' (sy_mem st') ∧
    (l' = l ++ [(s, addr)] ∨
     l' = l ∧ (no_room ctl st ∨ tlsf_malloc ctl (Z.of_nat (length s) + 1) (sy_mem st') = Ok (0, sy_mem st'))).
Proof. apply push_sym_spec. Qed.

Lemma push_sym_correct_witness :
  ∃ st' A' l', push_sym 10 0x10000 ptr_100 0xffff sample_syms = Ok (tt, st') ∧ table_ok 0x10000 sample_base sample_end st' A' l' ∧
    (l' = [([65], 0xffff)] ∨ l' = []).
Proof.
  destruct sample_syms_ok as (n & HT & HB).
  destruct (push_sym_correct 0x10000 sample_base sample_end sample_syms _ [] ptr_100 [65] 0xffff 10 HT) as (st' & A' & l' & E & HT' & _ & Hl);
    [cbn; lia|exact HB|cbn; lia|lia|].
  exists st', A', l'. split; [exact E|]. split; [exact HT'|]. destruct Hl as [->|[-> _]]; [by left|by right].
Defined.
