(* ===== verification/Elf.v ===== *)
(** * Program loader

    Model of the part of src/kernel/main/util/elf/elf_loader.c that loads
    programs: [elf_load] from a file, [elf_load_from_memory] from memory.  The
    state is the virtual memory manager (with the memory), the file systems and
    the static variables of modsym.c; [pool] is the kernel heap.  A path is the
    list of its characters; what is printed is left out. *)
From Stdlib Require Import ZArith Lia Ascii String.
From stdpp Require Import base option gmap list.
From S2P Require Import Prelude Memory Pmm Vmm CString Tlsf Print Vfs Modsym.

Definition ELFCLASS32 : Z := 1.
Definition ELFCLASS64 : Z := 2.
Definition ET_REL : Z := 1.
Definition ET_EXEC : Z := 2.
Definition ET_DYN : Z := 3.
Definition PT_LOAD : Z := 1.
Definition UINTPTR_MAX : Z := 2 ^ 64 - 1.
Definition LOAD_ADDR : Z := 0x400000.

(** The fields of the headers that the loader uses, of both classes. *)
Record ehdr := mkEhdr { eh_type : Z; eh_entry : Z; eh_phoff : Z; eh_phentsize : Z; eh_phnum : Z }.
Record phdr := mkPhdr { p_type : Z; p_offset : Z; p_vaddr : Z; p_filesz : Z; p_memsz : Z }.

Definition Elf64_Ehdr (m : memory) (h : Z) : ehdr :=
  mkEhdr (Modsym.e_type m h) (e_entry m h) (e_phoff m h) (e_phentsize m h) (e_phnum m h).
Definition Elf32_Ehdr (m : memory) (h : Z) : ehdr :=
  mkEhdr (load16 m (h + 16)) (load32 m (h + 24)) (load32 m (h + 28)) (load16 m (h + 42)) (load16 m (h + 44)).
Definition Elf64_Phdr (m : memory) (a : Z) : phdr :=
  mkPhdr (load32 m a) (load64 m (a + 8)) (load64 m (a + 16)) (load64 m (a + 32)) (load64 m (a + 40)).
Definition Elf32_Phdr (m : memory) (a : Z) : phdr :=
  mkPhdr (load32 m a) (load32 m (a + 4)) (load32 m (a + 8)) (load32 m (a + 16)) (load32 m (a + 20)).
Definition sizeof_Phdr32 : Z := 32.

(** [elf_info_t] *)
Record elf_info := mkInfo {
  entry_point : Z; stack_top : Z; is_32bit : Z; phnum : Z; phent : Z; phoff : Z; info_type : Z; privileged : Z }.
Definition set_is_32bit (b : Z) (i : elf_info) : elf_info :=
  mkInfo (entry_point i) (stack_top i) b (phnum i) (phent i) (phoff i) (info_type i) (privileged i).

(** [memcmp(p, "\x7f\x45\x4c\x46", 4) == 0] *)
Definition elf_magic (m : memory) (p : Z) : bool :=
  (load8 m p =? 0x7f) && (load8 m (p + 1) =? 0x45) && (load8 m (p + 2) =? 0x4c) && (load8 m (p + 3) =? 0x46).

Fixpoint store_bytes (m : memory) (a : Z) (l : list Z) : memory :=
  match l with
  | [] => m
  | c :: l => store_bytes (store8 m a c) (a + 1) l
  end.

Section loader.
Context {C : Type}.

Record kernel := mkKernel { k_vmm : vmm; k_vfs : vfs C; k_table : Z; k_count : Z; k_cap : Z }.
Definition set_k_vmm (v : vmm) (k : kernel) : kernel := mkKernel v (k_vfs k) (k_table k) (k_count k) (k_cap k).
Definition set_k_vfs (v : vfs C) (k : kernel) : kernel := mkKernel (k_vmm k) v (k_table k) (k_count k) (k_cap k).
Definition k_mem (k : kernel) : memory := v_mem (k_vmm k).
Definition set_k_mem (m : memory) (k : kernel) : kernel := set_k_vmm (set_v_mem m (k_vmm k)) k.
Definition k_syms (k : kernel) : modsym := mkModsym (k_mem k) (k_table k) (k_count k) (k_cap k).
Definition set_k_syms (s : modsym) (k : kernel) : kernel :=
  mkKernel (set_v_mem (sy_mem s) (k_vmm k)) (k_vfs k) (sym_table s) (sym_count s) (sym_cap s).

Definition in_vmm {A} (m : M vmm A) : M kernel A := zoom k_vmm set_k_vmm m.
Definition in_vfs {A} (m : M (vfs C) A) : M kernel A := zoom k_vfs set_k_vfs m.
Definition in_mem {A} (m : M memory A) : M kernel A := zoom k_mem set_k_mem m.
Definition in_syms {A} (m : M modsym A) : M kernel A := zoom k_syms set_k_syms m.

(** [vfs_read(mnt, inode, buf, size, offset)] into memory *)
Definition read_into (mnt : option Z) (inode buf size offset : Z) : M kernel Z :=
  r ← in_vfs (vfs_read mnt inode size offset);
  in_mem (modify (λ m, store_bytes m buf (take (Z.to_nat size) r.2)));;
  mret r.1.

(** ** Segments *)

(** The part of the file for page [p] of a segment: offset in the page, length
    and offset in the segment. *)
Definition file_part (off_in_page filesz p : Z) : option (Z * Z * Z) :=
  let copy_off := if p =? 0 then off_in_page else 0 in
  let copy_len := PAGE_SIZE - copy_off in
  let file_offset_in_seg := if p =? 0 then 0 else s64 (u64 (p * PAGE_SIZE - off_in_page)) in
  if (file_offset_in_seg <? 0) || (filesz <=? u64 file_offset_in_seg) then None else
  let file_rem := s64 (s64 filesz - file_offset_in_seg) in
  if file_rem <=? 0 then None else
  let actual_copy := if copy_len <? u64 file_rem then copy_len else u64 file_rem in
  Some (copy_off, actual_copy, file_offset_in_seg).

Definition load_page (flags : Z) (copy : Z → Z → Z → M kernel unit) (vaddr_aligned off_in_page filesz p : Z) : M kernel unit :=
  phys ← in_vmm (in_pmm palloc);
  in_vmm (map_page (u64 (vaddr_aligned + p * PAGE_SIZE)) phys flags);;
  dest ← in_vmm (phys_to_virt phys);
  in_mem (modify (λ m, memset_z m dest 0 PAGE_SIZE));;
  match file_part off_in_page filesz p with
  | None => mret tt
  | Some (copy_off, actual_copy, off) => copy (u64 (dest + copy_off)) actual_copy off
  end.

Definition page_count (off_in_page memsz : Z) : Z := u64 (memsz + off_in_page + PAGE_SIZE - 1) / PAGE_SIZE.
Definition load_pages (flags : Z) (copy : Z → Z → Z → M kernel unit) (vaddr memsz filesz : Z) : M kernel unit :=
  let vaddr_aligned := Z.land vaddr (Z.lnot (PAGE_SIZE - 1)) in
  let off_in_page := Z.land vaddr (PAGE_SIZE - 1) in
  for_loop (Z.to_nat (page_count off_in_page memsz)) 0 (load_page flags copy vaddr_aligned off_in_page filesz).

Definition USER_FLAGS : Z := Z.lor (Z.lor PTE_PRESENT PTE_WRITABLE) PTE_USER.

Definition copy_from (filedata filedata_len file_offset dest actual_copy off : Z) : M kernel unit :=
  let src_off := u64 (file_offset + off) in
  if u64 (src_off + actual_copy) <=? filedata_len
  then in_mem (modify (λ m, memcpy_z m dest (u64 (filedata + src_off)) actual_copy)) else mret tt.
Definition map_segment (vaddr memsz filesz filedata filedata_len file_offset : Z) : M kernel unit :=
  load_pages USER_FLAGS (copy_from filedata filedata_len file_offset) vaddr memsz filesz.

Definition setup_stack (stack_base stack_pages : Z) : M kernel unit :=
  for_loop (Z.to_nat stack_pages) 0 (λ i,
    phys ← in_vmm (in_pmm palloc);
    in_vmm (map_page (u64 (stack_base - (i + 1) * PAGE_SIZE)) phys USER_FLAGS)).

(** ** Loading from a file *)

(** Header [i], ... of the [n] program headers that are read by [get]. *)
Fixpoint min_vaddr (n : nat) (get : Z → phdr) (i acc : Z) : Z :=
  match n with
  | O => acc
  | S n =>
      let ph := get i in
      min_vaddr n get (i + 1) (if (p_type ph =? PT_LOAD) && (p_vaddr ph <? acc) then p_vaddr ph else acc)
  end.

(** [wide]: the 64-bit loader, which lacks the last case. *)
Definition load_base_path (wide : bool) (e : ehdr) (minv : Z) : Z :=
  if eh_type e =? ET_DYN then LOAD_ADDR
  else if minv <? LOAD_ADDR then LOAD_ADDR - minv
  else if negb wide && (eh_entry e <? LOAD_ADDR) && (LOAD_ADDR <=? minv) then LOAD_ADDR
  else 0.
Definition entry_path (e : ehdr) (load_base minv : Z) : Z :=
  if negb (load_base =? 0) then u64 (eh_entry e + load_base)
  else if eh_entry e <? LOAD_ADDR then (if LOAD_ADDR <=? minv then u64 (eh_entry e + LOAD_ADDR) else eh_entry e)
  else eh_entry e.

Definition load_segment_path (mnt : option Z) (inode : Z) (info : elf_info) (load_base : Z) (get : memory → phdr) : M kernel unit :=
  ph ← gets (λ k, get (k_mem k));
  if negb (p_type ph =? PT_LOAD) then mret tt else
  let flags := Z.lor (Z.lor PTE_PRESENT PTE_WRITABLE) (if privileged info =? 0 then PTE_USER else 0) in
  load_pages flags (λ dest n off, read_into mnt inode dest n (u64 (p_offset ph + off));; mret tt)
    (u64 (p_vaddr ph + load_base)) (p_memsz ph) (p_filesz ph).

(** [elf64_load_path] and [elf32_load_path]: [-1] or [0], and what is stored in
    [*info]. *)
Definition load_path (wide : bool) (pool : Z) (mnt : option Z) (inode : Z) (e : ehdr) (info : elf_info) (stack : Z)
    : M kernel (Z * elf_info) :=
  let size := if wide then sizeof_Phdr else sizeof_Phdr32 in
  let Phdr := if wide then Elf64_Phdr else Elf32_Phdr in
  let n := Z.to_nat (eh_phnum e) in
  phdrs ← in_mem (malloc pool (eh_phnum e * size));
  if phdrs =? 0 then mret (-1, info) else
  read_into mnt inode phdrs (eh_phnum e * size) (eh_phoff e);;
  minv ← gets (λ k, min_vaddr n (λ i, Phdr (k_mem k) (phdrs + size * i)) 0 UINTPTR_MAX);
  let load_base := load_base_path wide e minv in
  for_loop n 0 (λ i, load_segment_path mnt inode info load_base (λ m, Phdr m (phdrs + size * i)));;
  setup_stack stack 16;;
  minv' ← gets (λ k, min_vaddr n (λ i, Phdr (k_mem k) (phdrs + size * i)) 0 UINTPTR_MAX);
  in_mem (free pool phdrs);;
  mret (0, mkInfo (entry_path e load_base minv') stack (is_32bit info) (eh_phnum e) (eh_phentsize e) (eh_phoff e)
             (eh_type e) (privileged info)).
Definition elf64_load_path := load_path true.
Definition elf32_load_path := load_path false.

Definition executable (e : ehdr) : bool := (eh_type e =? ET_EXEC) || (eh_type e =? ET_DYN).

(** The header is read into a local array, here a memory of its own. *)
Definition elf_load (pool : Z) (path : list Z) (info : elf_info) (stack : Z) : M kernel (Z * elf_info) :=
  mnt ← in_vfs vfs_get_root_mount;
  match mnt with
  | None => mret (-1, info)
  | Some _ =>
      inode ← in_vfs (vfs_path_to_inode mnt path);
      if inode =? 0 then mret (-1, info) else
      r ← in_vfs (vfs_read mnt inode sizeof_Ehdr 0);
      if negb (r.1 =? sizeof_Ehdr) then mret (-1, info) else
      let hdr_buf := store_bytes ∅ 0 r.2 in
      if negb (elf_magic hdr_buf 0) then mret (-1, info) else
      let cls := load8 hdr_buf 4 in
      if cls =? ELFCLASS64 then
        let e := Elf64_Ehdr hdr_buf 0 in
        if negb (executable e) then mret (-1, info) else
        elf64_load_path pool mnt inode e (set_is_32bit 0 info) stack
      else if cls =? ELFCLASS32 then
        let e := Elf32_Ehdr hdr_buf 0 in
        if negb (executable e) then mret (-1, info) else
        elf32_load_path pool mnt inode e (set_is_32bit 1 info) stack
      else mret (-1, info)
  end.

(** ** Loading from memory *)

Fixpoint vaddr_range (n : nat) (get : Z → phdr) (end_of : phdr → Z) (i minv maxv : Z) : Z * Z :=
  match n with
  | O => (minv, maxv)
  | S n =>
      let ph := get i in
      if p_type ph =? PT_LOAD then
        vaddr_range n get end_of (i + 1)
          (if p_vaddr ph <? minv then p_vaddr ph else minv) (if maxv <? end_of ph then end_of ph else maxv)
      else vaddr_range n get end_of (i + 1) minv maxv
  end.

Definition load_base_memory (e : ehdr) (minv maxv : Z) : Z :=
  if eh_type e =? ET_DYN then LOAD_ADDR
  else if (minv <=? eh_entry e) && (eh_entry e <? maxv) then 0
  else if eh_entry e <? minv then u64 (LOAD_ADDR - minv)
  else if minv <? LOAD_ADDR then LOAD_ADDR - minv else 0.

(** The segments; [false] when one is outside of the file. *)
Fixpoint load_segments (n : nat) (get : memory → Z → phdr) (buf size load_base i : Z) : M kernel bool :=
  match n with
  | O => mret true
  | S n =>
      ph ← gets (λ k, get (k_mem k) i);
      if negb (p_type ph =? PT_LOAD) then load_segments n get buf size load_base (i + 1) else
      if size <? u64 (p_offset ph + p_filesz ph) then mret false else
      map_segment (u64 (p_vaddr ph + load_base)) (p_memsz ph) (p_filesz ph) buf size (p_offset ph);;
      load_segments n get buf size load_base (i + 1)
  end.

Definition entry_memory64 (e : ehdr) (load_base : Z) : Z :=
  if negb (load_base =? 0) then u64 (eh_entry e + load_base)
  else if eh_entry e <? LOAD_ADDR then u64 (eh_entry e + LOAD_ADDR) else eh_entry e.

Definition elf64_load_memory (buf size : Z) (info : elf_info) : M kernel (Z * elf_info) :=
  e ← gets (λ k, Elf64_Ehdr (k_mem k) buf);
  if negb (executable e) then mret (-1, info) else
  if size <? u64 (eh_phoff e + eh_phnum e * sizeof_Phdr) then mret (-1, info) else
  let get m i := Elf64_Phdr m (u64 (buf + eh_phoff e) + sizeof_Phdr * i) in
  let n := Z.to_nat (eh_phnum e) in
  range ← gets (λ k, vaddr_range n (get (k_mem k)) (λ ph, u64 (p_vaddr ph + p_memsz ph)) 0 UINTPTR_MAX 0);
  let load_base := load_base_memory e range.1 range.2 in
  ok ← load_segments n get buf size load_base 0;
  if negb ok then mret (-1, info) else
  mret (0, mkInfo (entry_memory64 e load_base) 0x700000000000 0 (eh_phnum e) (eh_phentsize e) (eh_phoff e) (eh_type e)
             (privileged info)).

Definition elf32_load_memory (buf size : Z) (info : elf_info) : M kernel (Z * elf_info) :=
  e ← gets (λ k, Elf32_Ehdr (k_mem k) buf);
  if negb (executable e) then mret (-1, info) else
  if size <? u64 (eh_phoff e + eh_phnum e * sizeof_Phdr32) then mret (-1, info) else
  let get m i := Elf32_Phdr m (u64 (buf + eh_phoff e) + sizeof_Phdr32 * i) in
  let n := Z.to_nat (eh_phnum e) in
  range ← gets (λ k, vaddr_range n (get (k_mem k)) (λ ph, u32 (p_vaddr ph + p_memsz ph)) 0 UINTPTR_MAX 0);
  let load_base := load_base_memory e range.1 range.2 in
  ok ← load_segments n get buf size load_base 0;
  if negb ok then mret (-1, info) else
  let stack_base := 0xC0000000 in
  setup_stack stack_base 16;;
  minv ← gets (λ k, min_vaddr n (get (k_mem k)) 0 UINTPTR_MAX);
  mret (0, mkInfo (entry_path e load_base minv) stack_base 1 (eh_phnum e) (eh_phentsize e) (eh_phoff e) (eh_type e)
             (privileged info)).

Definition elf_load_from_memory (address size : Z) (info : elf_info) : M kernel (Z * elf_info) :=
  if size <? sizeof_Ehdr then mret (-1, info) else
  m ← gets k_mem;
  if negb (elf_magic m address) then mret (-1, info) else
  let cls := load8 m (address + 4) in
  if cls =? ELFCLASS64 then elf64_load_memory address size info
  else if cls =? ELFCLASS32 then elf32_load_memory address size info
  else mret (-1, info).
End loader.
Arguments kernel : clear implicits.
