(* ===== verification/ElfProof.v ===== *)
(** * Segments of a program are loaded correctly

    [load_pages] for a segment: every address of the segment is mapped to a
    fresh frame that holds the byte of the file, or zero behind the file's
    part.  Proved for any source of the bytes ([source]) and any page allocator
    of PmmIface.v; [map_segment], which copies from memory, is an instance. *)
From Stdlib Require Import ZArith Lia.
From stdpp Require Import base option gmap list.
From S2P Require Import Prelude Memory Pmm PmmProof PmmIface Vmm VmmProof VmmMap Vfs Modsym Elf.

(** ** Which part of the file goes where *)

(** Byte [d] of a segment with [filesz] bytes in the file. *)
Definition segment_byte (file : Z → Z) (filesz d : Z) : Z := if decide (0 ≤ d < filesz) then file d else 0.

(** Byte [o] of page [p] after clearing and copying what [file_part] says. *)
Definition page_byte (file : Z → Z) (off filesz p o : Z) : Z :=
  match file_part off filesz p with
  | Some (co, n, fo) => if decide (co ≤ o < co + n) then file (fo + (o - co)) else 0
  | None => 0
  end.

Lemma s64_small x : 0 ≤ x < 2 ^ 63 → s64 x = x.
Proof.
  intros Hx. unfold s64, swrap. cbv zeta. rewrite Z.mod_small by lia. by rewrite (proj2 (Z.ltb_lt x (2 ^ (64 - 1)))) by lia.
Qed.

Lemma file_part_range off filesz p co n fo :
  0 ≤ off < PAGE_SIZE → 0 ≤ filesz < 2 ^ 62 → 0 ≤ p < 2 ^ 50 → file_part off filesz p = Some (co, n, fo) →
  0 ≤ co ∧ 0 < n ∧ co + n ≤ PAGE_SIZE ∧ 0 ≤ fo ∧ fo + n ≤ filesz ∧
  (p = 0 ∧ co = off ∧ fo = 0 ∨ p ≠ 0 ∧ co = 0 ∧ fo = p * PAGE_SIZE - off) ∧ (n = PAGE_SIZE - co ∨ fo + n = filesz).
Proof.
  intros Ho Hf Hp. unfold file_part. cbv zeta. destruct (Z.eqb_spec p 0) as [->|Hp0].
  - cbn [Z.ltb Z.compare orb]. rewrite (u64_small 0), Z.sub_0_r by lia. destruct (Z.leb_spec filesz 0); [done|].
    rewrite (s64_small filesz), (s64_small filesz), (u64_small filesz) by lia. rewrite (proj2 (Z.leb_gt filesz 0)) by lia.
    destruct (Z.ltb_spec (PAGE_SIZE - off) filesz); intros [= <- <- <-]; splits; lia.
  - unfold PAGE_SIZE in *. rewrite (u64_small (p * 4096 - off)), (s64_small (p * 4096 - off)), (u64_small (p * 4096 - off)) by lia.
    rewrite (proj2 (Z.ltb_ge _ 0)) by lia. cbn [orb]. destruct (Z.leb_spec filesz (p * 4096 - off)); [done|].
    rewrite (s64_small filesz), s64_small, u64_small by lia. rewrite (proj2 (Z.leb_gt _ 0)) by lia.
    destruct (Z.ltb_spec (4096 - 0) (filesz - (p * 4096 - off))); intros [= <- <- <-]; splits; lia.
Qed.

Lemma file_part_none off filesz p :
  0 ≤ off < PAGE_SIZE → 0 ≤ filesz < 2 ^ 62 → 0 ≤ p < 2 ^ 50 → file_part off filesz p = None →
  filesz ≤ if decide (p = 0) then 0 else p * PAGE_SIZE - off.
Proof.
  intros Ho Hf Hp. unfold file_part. cbv zeta. destruct (Z.eqb_spec p 0) as [->|Hp0].
  - rewrite decide_True by done. cbn [Z.ltb Z.compare orb]. rewrite (u64_small 0), Z.sub_0_r by lia. destruct (Z.leb_spec filesz 0); [done|].
    rewrite (s64_small filesz), (s64_small filesz) by lia. by rewrite (proj2 (Z.leb_gt filesz 0)) by lia.
  - rewrite decide_False by done. unfold PAGE_SIZE in *. rewrite (u64_small (p * 4096 - off)), (s64_small (p * 4096 - off)), (u64_small (p * 4096 - off)) by lia.
    rewrite (proj2 (Z.ltb_ge _ 0)) by lia. cbn [orb]. destruct (Z.leb_spec filesz (p * 4096 - off)); [done|].
    rewrite (s64_small filesz), s64_small by lia. by rewrite (proj2 (Z.leb_gt _ 0)) by lia.
Qed.

(** The pages together are the segment, shifted by its offset in the first. *)
Lemma page_byte_spec file off filesz p o :
  0 ≤ off < PAGE_SIZE → 0 ≤ filesz < 2 ^ 62 → 0 ≤ p < 2 ^ 50 → 0 ≤ o < PAGE_SIZE →
  page_byte file off filesz p o = segment_byte file filesz (p * PAGE_SIZE + o - off).
Proof.
  intros Ho Hf Hp Hoo. unfold page_byte, segment_byte. destruct (file_part off filesz p) as [[[co n] fo]|] eqn:E.
  - destruct (file_part_range _ _ _ _ _ _ Ho Hf Hp E) as (H1 & H2 & H3 & H4 & H5 & H6 & H7). unfold PAGE_SIZE in *.
    case_decide as Hd; case_decide as Hd'; try done; try lia. f_equal. lia.
  - apply file_part_none in E; [|done..]. rewrite decide_False; [done|]. case_decide; unfold PAGE_SIZE in *; lia.
Qed.

(** ** One page *)

Section load.
Context {C : Type} {inv : pmm → (Z → Prop) → Prop} `{!PageAllocator inv}.
Implicit Types k : kernel C.
Abbreviation vm_inv := (vm_inv (inv := inv)).

Lemma in_vmm_ok {X} (f : M vmm X) k x v' : f (k_vmm k) = Ok (x, v') → in_vmm f k = Ok (x, set_k_vmm v' k).
Proof. intros E. unfold in_vmm, zoom. by rewrite E. Qed.
Lemma in_pmm_ok {X} (f : M pmm X) s x p' : f (v_pmm s) = Ok (x, p') → in_pmm f s = Ok (x, set_v_pmm p' s).
Proof. intros E. unfold in_pmm, zoom. by rewrite E. Qed.

(** A source of the bytes [file] of a segment: [I] says that it is intact, [D]
    is the memory it depends on. *)
Record source (copy : Z → Z → Z → M (kernel C) unit) (file : Z → Z) (filesz : Z) (I : kernel C → Prop) (D : Z → Prop) : Prop := {
  src_stable : ∀ k k', I k → (∀ a, D a → load8 (k_mem k') a = load8 (k_mem k) a) → k_vfs k' = k_vfs k → I k';
  src_copy : ∀ k dest n off, I k → 0 ≤ dest → dest + n < 2 ^ 64 → 0 ≤ off → 0 < n → off + n ≤ filesz →
    (∀ b, dest ≤ b < dest + n → ¬ D b) →
    ∃ k' m', copy dest n off k = Ok (tt, k') ∧ I k' ∧ k_vmm k' = set_v_mem m' (k_vmm k) ∧
      ∀ b, load8 m' b = if decide (dest ≤ b < dest + n) then u8 (file (off + (b - dest))) else load8 (k_mem k) b;
}.

(** The address [w] is mapped, and the memory behind it holds [c] and is not
    used by the allocator or the page tables. *)
Definition holds k (F : Z → Prop) (T : tables) (w c : Z) : Prop :=
  ∃ p, xlate (k_vmm k) T w = Some p ∧ load8 (k_mem k) (v_hhdm (k_vmm k) + p) = c ∧
    ¬ vm_private (k_vmm k) F T (v_hhdm (k_vmm k) + p).

(** The step from [k] to [k'] maps the pages [P] and touches no other memory
    than the allocator's and the tables'. *)
Record loads k (F : Z → Prop) (T : tables) (P : Z → Prop) k' (F' : Z → Prop) (T' : tables) : Prop := {
  ld_inv : vm_inv (k_vmm k') F' T';
  ld_rest : ∀ w, ¬ P (vpn w) → xlate (k_vmm k') T' w = xlate (k_vmm k) T w;
  ld_frame : vm_frame (k_vmm k) F T (k_vmm k') F' T';
  ld_hhdm : v_hhdm (k_vmm k') = v_hhdm (k_vmm k);
}.

Lemma loads_holds k F T P k' F' T' w c : loads k F T P k' F' T' → ¬ P (vpn w) → holds k F T w c → holds k' F' T' w c.
Proof.
  intros [_ Hr Hf Hh] Hw (p & Hp & Hc & Hn). exists p. rewrite Hr, Hh by done. splits; [done| |].
  - by rewrite <-Hc; apply (vf_mem _ _ _ _ _ _ Hf).
  - intros Ha. apply Hn. by apply (vf_own _ _ _ _ _ _ Hf).
Qed.
Lemma loads_trans k F T P k1 F1 T1 Q k2 F2 T2 :
  loads k F T P k1 F1 T1 → loads k1 F1 T1 Q k2 F2 T2 → loads k F T (λ x, P x ∨ Q x) k2 F2 T2.
Proof.
  intros [_ Hr1 Hf1 Hh1] [HV Hr2 Hf2 Hh2]. split; [done| |by eapply vm_frame_trans|congruence].
  intros w Hw. rewrite Hr2, Hr1; tauto.
Qed.
Lemma loads_weaken k F T (P Q : Z → Prop) k' F' T' : (∀ x, P x → Q x) → loads k F T P k' F' T' → loads k F T Q k' F' T'.
Proof. intros HPQ [? Hr ? ?]. split; auto. Qed.

(** A page [q] that was taken out of the free ones belongs to nobody. *)
Lemma taken_not_private s F T q p1 F1 a :
  vm_inv s F T → F q → (∀ x, F1 x ↔ F x ∧ x ≠ q) → pmm_layout (v_pmm s) p1 → in_page (v_pmm s) q a →
  ¬ vm_private (set_v_pmm p1 s) F1 T a.
Proof.
  intros HV Hq HF1 HL Ha [[Hb|(x & Hx & Hax)]|(kk & pre & x & Hx & Hax)]; cbn [v_pmm set_v_pmm] in *.
  - destruct (pa_free _ _ _ (vi_alloc _ _ _ HV) Hq) as [_ Hoff]. destruct HL as (E1 & E2 & E3).
    unfold off_bitmap, in_bitmap, in_page, bitmap_len in *. rewrite E1, E2 in Hb. lia.
  - apply (in_page_layout _ _ _ _ HL) in Hax. apply HF1 in Hx as [_ Hne]. unfold in_page, PAGE_SIZE in *. lia.
  - apply (in_page_layout _ _ _ _ HL) in Hax. assert (x = q) as -> by (unfold in_page, PAGE_SIZE in *; lia).
    by destruct (vi_page _ _ _ HV _ _ _ Hx) as (_ & ? & _).
Qed.

(** Allocating a page, mapping it and filling it. *)
Lemma palloc_map_spec k F T v flags n :
  vm_inv (k_vmm k) F T → fits 64 flags → Z.land flags PTE_ADDR_MASK = 0 → spare (S (S (S (S n)))) F →
  ∃ q k1 s2 F2 T2, in_vmm (in_pmm palloc) k = Ok (PAGE_SIZE * q, k1) ∧ in_vmm (map_page v (PAGE_SIZE * q) flags) k1 = Ok (tt, set_k_vmm s2 k) ∧
    0 < q < pmm_max_page (v_pmm (k_vmm k)) ∧ loads k F T (λ x, x = vpn v) (set_k_vmm s2 k) F2 T2 ∧ spare n F2 ∧
    (∀ w, vpn w = vpn v → xlate s2 T2 w = Some (PAGE_SIZE * q + w `mod` 2 ^ 12)) ∧
    (∀ a, in_page (v_pmm s2) q a → ¬ vm_private s2 F2 T2 a ∧ vm_private (k_vmm k) F T a).
Proof.
  intros HV Hfl Hmask Hs. set (s := k_vmm k) in *. pose proof (vi_alloc _ _ _ HV) as HI.
  destruct (pa_palloc _ _ HI) as [[_ HN]|(q & p1 & F1 & E & HF & HI1 & HF1 & HL & Hfr)]; [by apply spare_none in Hs|].
  destruct (pa_free _ _ _ HI HF) as [Hq Hoff]. pose proof (vi_phys _ _ _ HV) as Hmax.
  assert (Hold : ∀ kk pre x i, T kk pre = Some x → 0 ≤ i < 512 → pte (set_v_pmm p1 s) x i = pte s x i).
  { intros kk pre x i Hx Hi. apply load_ext. intros b Hb. apply Hfr. eapply table_not_private; [done|by eapply vi_page|].
    by eapply in_pte_page; [apply HV|exact Hi|]. }
  assert (HV1 : vm_inv (set_v_pmm p1 s) F1 T).
  { eapply (vm_inv_transport s); [done|done|done|done| |done]. intros x Hx%HF1. tauto. }
  assert (Hs1 : spare (S (S (S n))) F1) by (eapply (spare_remove _ F F1 q); [intros x ? ?; by apply HF1|done]).
  assert (Hsp3 : spare 3 F1).
  { clear -Hs1. induction n as [|n IH]; [done|]. apply IH. by apply spare_less. }
  destruct (map_page_spec (set_v_pmm p1 s) F1 T v (PAGE_SIZE * q) flags HV1) as [[_ ?]|(s2 & F2 & T2 & E2 & Hm & Hc)];
    [unfold fits, PAGE_SIZE; lia|done|done|].
  destruct Hm as [HV2 Hpg Hrest _ _ (_ & Hh & _) Hfr2].
  assert (Hfr1 : vm_frame s F T (set_v_pmm p1 s) F1 T).
  { split; [done| |]. - intros a Ha. apply Hfr. intros Hp. apply Ha. by left.
    - intros a [Hp|(kk & pre & x & Hx & Ha)]; [left; eapply (private_shrinks _ p1); [exact HL| |exact Hp]; intros x Hx%HF1; tauto|].
      right. exists kk, pre, x. split; [done|]. by apply (in_page_layout _ _ _ _ HL). }
  exists q, (set_k_vmm (set_v_pmm p1 s) k), s2, F2, T2. splits; [| |lia|lia| |auto| |].
  - by apply in_vmm_ok, in_pmm_ok.
  - apply (in_vmm_ok _ (set_k_vmm (set_v_pmm p1 s) k)). exact E2.
  - split; cbn [k_vmm set_k_vmm]; [done| |by eapply vm_frame_trans|].
    + intros w Hw. rewrite Hrest by done. by apply xlate_same.
    + by rewrite Hh.
  - intros w Hw. rewrite Hpg by done. rewrite (leaf_addr (PAGE_SIZE * q) flags w); [by rewrite page_base_page|unfold PAGE_SIZE; lia|done].
  - intros a Ha. assert (Ha' : in_page (v_pmm s) q a).
    { apply (in_page_layout _ _ _ _ HL). by apply (in_page_layout _ _ _ _ (vf_layout _ _ _ _ _ _ Hfr2)). }
    split; [|left; right; by exists q]. intros Hp%(vf_own _ _ _ _ _ _ Hfr2).
    exact (taken_not_private s F T q p1 F1 a HV HF HF1 HL Ha' Hp).
Qed.

(** Writing outside of what the allocator and the tables use. *)
Lemma vm_inv_outside s F T m : vm_inv s F T → (∀ a, vm_private s F T a → load8 m a = load8 (v_mem s) a) →
  vm_inv (set_v_mem m s) F T ∧ (∀ w, xlate (set_v_mem m s) T w = xlate s T w) ∧
  ∀ a, vm_private (set_v_mem m s) F T a ↔ vm_private s F T a.
Proof.
  intros HV Hpriv.
  assert (Hpte : ∀ kk pre x i, T kk pre = Some x → 0 ≤ i < 512 → pte (set_v_mem m s) x i = pte s x i).
  { intros kk pre x i Hx Hi. apply load_ext. intros b Hb. apply Hpriv. right. exists kk, pre, x. split; [done|].
    by eapply in_pte_page; [apply HV|exact Hi|]. }
  splits; [|intros w; by apply xlate_same|done].
  eapply (vm_inv_transport s); [done| |done|done|done|done]. apply pa_write; [apply HV|]. intros a Ha. apply Hpriv. by left.
Qed.

(** Filling a frame that belongs to nobody. *)
Lemma fill_loads k F T P k1 F1 T1 k2 m q :
  loads k F T P k1 F1 T1 → (∀ a, in_page (v_pmm (k_vmm k1)) q a → ¬ vm_private (k_vmm k1) F1 T1 a ∧ vm_private (k_vmm k) F T a) →
  k_vmm k2 = set_v_mem m (k_vmm k1) → (∀ a, ¬ in_page (v_pmm (k_vmm k1)) q a → load8 m a = load8 (k_mem k1) a) →
  loads k F T P k2 F1 T1 ∧ (∀ w, xlate (k_vmm k2) T1 w = xlate (k_vmm k1) T1 w) ∧
  ∀ a, vm_private (k_vmm k2) F1 T1 a ↔ vm_private (k_vmm k1) F1 T1 a.
Proof.
  intros [HV Hr [L M O] Hh] Hq E Hm. rewrite E.
  destruct (vm_inv_outside (k_vmm k1) F1 T1 m HV) as (HV' & Hx & Hp).
  { intros a Ha. apply Hm. intros Hin. by destruct (Hq a Hin). }
  splits; [|done|done]. split; rewrite E; [done| | |done].
  - intros w Hw. rewrite Hx. by apply Hr.
  - split; [done| |done]. intros a Ha. change (load8 m a = load8 (v_mem (k_vmm k)) a). rewrite Hm; [by apply M|].
    intros Hin. apply Ha. by destruct (Hq a Hin).
Qed.

Lemma load_page_spec copy file filesz I D k F T flags base off p n :
  source copy file filesz I D → I k → vm_inv (k_vmm k) F T → (∀ a, D a → ¬ vm_private (k_vmm k) F T a) →
  fits 64 flags → Z.land flags PTE_ADDR_MASK = 0 → spare (S (S (S (S n)))) F →
  0 ≤ off < PAGE_SIZE → 0 ≤ filesz < 2 ^ 62 → 0 ≤ p < 2 ^ 50 →
  let v := u64 (base + p * PAGE_SIZE) in
  ∃ k' F' T', load_page flags copy base off filesz p k = Ok (tt, k') ∧ I k' ∧ spare n F' ∧
    loads k F T (λ x, x = vpn v) k' F' T' ∧
    ∀ w, vpn w = vpn v → holds k' F' T' w (u8 (page_byte file off filesz p (w `mod` 2 ^ 12))).
Proof.
  intros HS HI HV HD Hfl Hmask Hs Ho Hf Hp v. unfold load_page. fold v.
  destruct (palloc_map_spec k F T v flags n HV Hfl Hmask Hs) as (q & k1 & s2 & F2 & T2 & E1 & E2 & Hq & HL & Hs2 & Hx & Hpriv).
  set (k2 := set_k_vmm s2 k) in *. mstep with E1. mstep with E2.
  pose proof (ld_inv _ _ _ _ _ _ _ HL) as HV2. pose proof (vi_hhdm _ _ _ HV2) as Hh2. cbn [k_vmm k2 set_k_vmm] in HV2, Hh2.
  destruct (vf_layout _ _ _ _ _ _ (ld_frame _ _ _ _ _ _ _ HL)) as (_ & Emax & _). cbn [k_vmm k2 set_k_vmm] in Emax.
  destruct (table_addr _ _ q (vi_alloc _ _ _ HV2)) as [A1 A2]; [lia|]. rewrite <-Hh2 in A1, A2.
  set (dest := v_hhdm s2 + PAGE_SIZE * q) in *.
  assert (Ed : in_vmm (phys_to_virt (PAGE_SIZE * q)) k2 = Ok (dest, k2)).
  { unfold in_vmm, zoom, phys_to_virt, gets. cbn [k_vmm k2 set_k_vmm]. rewrite u64_small, Z.add_comm by (unfold dest, PAGE_SIZE in *; lia). done. }
  mstep with Ed. set (m3 := memset_z (k_mem k2) dest 0 PAGE_SIZE). set (k3 := set_k_mem m3 k2).
  assert (E3 : in_mem (modify (λ m, memset_z m dest 0 PAGE_SIZE)) k2 = Ok (tt, k3)) by done. mstep with E3.
  assert (Hpage : ∀ a, in_page (v_pmm s2) q a ↔ dest ≤ a < dest + PAGE_SIZE).
  { intros a. unfold in_page. rewrite <-Hh2. unfold dest, PAGE_SIZE. lia. }
  assert (HDp : ∀ a, D a → ¬ in_page (v_pmm s2) q a) by (intros a Ha Hin; apply (HD a Ha); by destruct (Hpriv a Hin)).
  assert (HI3 : I k3).
  { eapply (src_stable _ _ _ _ _ HS k); [done| |done]. intros a Ha. change (k_mem k3) with m3. unfold m3. rewrite load8_memset_z, decide_False.
    - apply (vf_mem _ _ _ _ _ _ (ld_frame _ _ _ _ _ _ _ HL)). auto.
    - intros Hin. apply (HDp a Ha). by apply Hpage. }
  assert (∃ k' m', (match file_part off filesz p with Some (co, n, fo) => copy (u64 (dest + co)) n fo | None => mret tt end) k3 = Ok (tt, k') ∧
    I k' ∧ k_vmm k' = set_v_mem m' (k_vmm k2) ∧
    ∀ a, load8 m' a = if decide (in_page (v_pmm s2) q a) then u8 (page_byte file off filesz p (a - dest)) else load8 (k_mem k2) a)
    as (k' & m' & Ek & HI' & Evm & Hm').
  { assert (Hm3 : ∀ a, load8 m3 a = if decide (in_page (v_pmm s2) q a) then 0 else load8 (k_mem k2) a).
    { intros a. unfold m3. rewrite load8_memset_z. destruct (decide (in_page (v_pmm s2) q a)) as [Hin|Hin]; [rewrite decide_True by (by apply Hpage); done|].
      rewrite decide_False; [done|]. by rewrite <-Hpage. }
    unfold page_byte. destruct (file_part off filesz p) as [[[co cn] fo]|] eqn:Ef.
    - destruct (file_part_range _ _ _ _ _ _ Ho Hf Hp Ef) as (H1 & H2 & H3 & H4 & H5 & _).
      rewrite u64_small by (unfold PAGE_SIZE in *; lia).
      destruct (src_copy _ _ _ _ _ HS k3 (dest + co) cn fo HI3) as (k' & m' & Ek & HI' & Evm & Hm'); [lia|unfold PAGE_SIZE in *; lia|lia|lia|lia| |].
      { intros b Hb HDb. apply (HDp b HDb). apply Hpage. lia. }
      exists k', m'. splits; [done|done|done|]. intros a. rewrite Hm'. change (k_mem k3) with m3. rewrite Hm3.
      destruct (decide (in_page (v_pmm s2) q a)) as [Hin|Hin].
      + destruct (decide (dest + co ≤ a < dest + co + cn)); [rewrite decide_True by lia; do 3 f_equal; lia|by rewrite decide_False by lia].
      + rewrite Hpage in Hin. by rewrite decide_False by lia.
    - exists k3, m3. splits; [done|done|done|]. intros a. by rewrite Hm3. }
  rewrite Ek. destruct (fill_loads _ _ _ _ _ _ _ k' m' q HL Hpriv Evm) as (HL' & Hx' & Hp').
  { intros a Ha. rewrite Hm'. by rewrite decide_False. }
  exists k', F2, T2. splits; [done|done|done|done|]. intros w Hw. exists (PAGE_SIZE * q + w `mod` 2 ^ 12).
  assert (Eh : v_hhdm (k_vmm k') + (PAGE_SIZE * q + w `mod` 2 ^ 12) = dest + w `mod` 2 ^ 12) by (rewrite Evm; unfold dest; cbn; lia).
  assert (Hin : in_page (v_pmm s2) q (dest + w `mod` 2 ^ 12)) by (apply Hpage; unfold PAGE_SIZE; pose proof (Z.mod_pos_bound w (2 ^ 12)); lia).
  rewrite Eh. splits.
  - rewrite Hx'. by apply Hx.
  - unfold k_mem. rewrite Evm. change (load8 m' (dest + w `mod` 2 ^ 12) = u8 (page_byte file off filesz p (w `mod` 2 ^ 12))).
    rewrite Hm', decide_True by done. by rewrite Z.add_simpl_l.
  - rewrite Hp'. by apply Hpriv.
Qed.

(** ** All pages *)

Lemma vpn_low w : 0 ≤ w < 2 ^ 48 → vpn w = w / PAGE_SIZE.
Proof. intros Hw. unfold vpn, PAGE_SIZE. change (2 ^ 12) with 4096. apply Z.mod_small. zdiv. Qed.

Section segment.
Context (copy : Z → Z → Z → M (kernel C) unit) (file : Z → Z) (filesz : Z) (I : kernel C → Prop) (D : Z → Prop)
  (HS : source copy file filesz I D) (Hfz : 0 ≤ filesz < 2 ^ 62) (flags : Z) (Hfl : fits 64 flags)
  (Hmask : Z.land flags PTE_ADDR_MASK = 0).

(** The state that a load starts from and ends with: [n] pages are free. *)
Definition ready (n : nat) k (F : Z → Prop) (T : tables) : Prop :=
  I k ∧ vm_inv (k_vmm k) F T ∧ (∀ a, D a → ¬ vm_private (k_vmm k) F T a) ∧ spare n F.

Lemma loads_ready n k F T P k' F' T' :
  (∀ a, D a → ¬ vm_private (k_vmm k) F T a) → loads k F T P k' F' T' → I k' → spare n F' → ready n k' F' T'.
Proof.
  intros HD HL HI Hs. unfold ready. splits; [done|apply HL| |done]. intros a Ha Hp. apply (HD a Ha). by apply (vf_own _ _ _ _ _ _ (ld_frame _ _ _ _ _ _ _ HL)).
Qed.

Lemma load_loop_spec base off r n : ∀ i k F T,
  ready (4 * n + r) k F T → base `mod` PAGE_SIZE = 0 → 0 ≤ base → 0 ≤ i → base + (i + Z.of_nat n) * PAGE_SIZE ≤ 2 ^ 48 → 0 ≤ off < PAGE_SIZE →
  ∃ k' F' T', for_loop n i (load_page flags copy base off filesz) k = Ok (tt, k') ∧ ready r k' F' T' ∧
    loads k F T (λ x, base / PAGE_SIZE + i ≤ x < base / PAGE_SIZE + i + Z.of_nat n) k' F' T' ∧
    ∀ w, base + i * PAGE_SIZE ≤ w < base + (i + Z.of_nat n) * PAGE_SIZE → holds k' F' T' w (u8 (segment_byte file filesz (w - base - off))).
Proof.
  induction n as [|n IH]; intros i k F T HR Hal Hb Hi Hend Ho; cbn [for_loop].
  { exists k, F, T. splits; [done|done| |].
    - destruct HR as (_ & HV & _). split; [done|done| |done]. by split.
    - intros w Hw. lia. }
  destruct HR as (HI & HV & HD & Hs). replace (4 * S n + r)%nat with (S (S (S (S (4 * n + r))))) in Hs by lia. unfold PAGE_SIZE in Hend, Hal, Hb.
  set (v := u64 (base + i * PAGE_SIZE)). assert (Ev : v = base + i * PAGE_SIZE) by (apply u64_small; unfold PAGE_SIZE; lia).
  destruct (load_page_spec copy file filesz I D k F T flags base off i (4 * n + r) HS HI HV HD Hfl Hmask Hs Ho Hfz ltac:(lia))
    as (k1 & F1 & T1 & E1 & HI1 & Hs1 & HL1 & Hw1). mstep with E1. fold v in HL1, Hw1.
  assert (Evpn : vpn v = base / PAGE_SIZE + i) by (rewrite vpn_low by (rewrite Ev; unfold PAGE_SIZE; lia); rewrite Ev; unfold PAGE_SIZE; zdiv).
  destruct (IH (i + 1) k1 F1 T1) as (k2 & F2 & T2 & E2 & HR2 & HL2 & Hw2); [by eapply loads_ready|by unfold PAGE_SIZE|done|lia|unfold PAGE_SIZE; lia|done|].
  exists k2, F2, T2. splits; [done|done| |].
  - eapply loads_weaken; [|eapply loads_trans; [exact HL1|exact HL2]]. intros x [->|Hx]; lia.
  - intros w Hw. destruct (decide (base + (i + 1) * PAGE_SIZE ≤ w)) as [Hge|Hlt].
    + apply Hw2. unfold PAGE_SIZE in *. lia.
    + assert (Evw : vpn w = vpn v) by (rewrite Evpn, vpn_low by (unfold PAGE_SIZE in *; lia); unfold PAGE_SIZE in *; zdiv).
      eapply loads_holds; [exact HL2| |].
      * rewrite Evw, Evpn. lia.
      * specialize (Hw1 w Evw). rewrite page_byte_spec in Hw1 by (done || lia || (unfold PAGE_SIZE; zdiv)).
        replace (i * PAGE_SIZE + w `mod` 2 ^ 12 - off) with (w - base - off) in Hw1; [done|]. unfold PAGE_SIZE in *. change (2 ^ 12) with 4096. zdiv.
Qed.

Definition segment_pages (vaddr memsz x : Z) : Prop := vaddr / PAGE_SIZE ≤ x < (vaddr + memsz + PAGE_SIZE - 1) / PAGE_SIZE.

Lemma load_pages_spec r k F T vaddr memsz :
  let n := Z.to_nat (page_count (vaddr `mod` PAGE_SIZE) memsz) in
  ready (4 * n + r) k F T → 0 ≤ vaddr → 0 ≤ memsz → vaddr + memsz + PAGE_SIZE ≤ 2 ^ 48 →
  ∃ k' F' T', load_pages flags copy vaddr memsz filesz k = Ok (tt, k') ∧ ready r k' F' T' ∧
    loads k F T (segment_pages vaddr memsz) k' F' T' ∧
    ∀ w, vaddr ≤ w < vaddr + memsz → holds k' F' T' w (u8 (segment_byte file filesz (w - vaddr))).
Proof.
  intros n HR Hv Hm Hend. unfold load_pages. cbv zeta.
  assert (E1 : Z.land vaddr (Z.lnot (PAGE_SIZE - 1)) = vaddr / PAGE_SIZE * PAGE_SIZE) by (apply (land_lnot_ones vaddr 12); lia).
  assert (E2 : Z.land vaddr (PAGE_SIZE - 1) = vaddr `mod` PAGE_SIZE) by (apply (land_ones_mod vaddr 12); lia).
  rewrite E1, E2. fold n. assert (Hn : Z.of_nat n = (memsz + vaddr `mod` PAGE_SIZE + PAGE_SIZE - 1) / PAGE_SIZE).
  { unfold n, page_count. rewrite u64_small by (unfold PAGE_SIZE in *; zdiv). rewrite Z2Nat.id; [done|unfold PAGE_SIZE in *; zdiv]. }
  destruct (load_loop_spec (vaddr / PAGE_SIZE * PAGE_SIZE) (vaddr `mod` PAGE_SIZE) r n 0 k F T HR) as (k' & F' & T' & E & HR' & HL & Hw);
    [unfold PAGE_SIZE; zdiv|unfold PAGE_SIZE; zdiv|lia|rewrite Hn; unfold PAGE_SIZE in *; zdiv|unfold PAGE_SIZE; zdiv|].
  exists k', F', T'. splits; [done|done| |].
  - eapply loads_weaken; [|exact HL]. intros x. rewrite Hn. unfold segment_pages, PAGE_SIZE. intros Hx. zdiv.
  - intros w Hin. replace (w - vaddr) with (w - vaddr / PAGE_SIZE * PAGE_SIZE - vaddr `mod` PAGE_SIZE) by (unfold PAGE_SIZE; zdiv).
    apply Hw. rewrite Hn. unfold PAGE_SIZE in *. zdiv.
Qed.
End segment.

(** ** From memory *)

Section memory.
Context (m0 : memory) (buf size : Z) (Hbuf : 0 ≤ buf) (Hsize : buf + size < 2 ^ 62).

Definition in_file (a : Z) : Prop := buf ≤ a < buf + size.
Definition file_intact k : Prop := ∀ a, in_file a → load8 (k_mem k) a = load8 m0 a.

Lemma copy_from_source off filesz : 0 ≤ off → off + filesz ≤ size →
  source (copy_from buf size off) (λ d, load8 m0 (buf + off + d)) filesz file_intact in_file.
Proof.
  intros H0 H1. split.
  - intros k k' HI Hm _ a Ha. rewrite Hm by done. by apply HI.
  - intros k dest n o HI Hd Hd' Ho Hn Hon HD. unfold copy_from. cbv zeta. rewrite (u64_small (off + o)), (u64_small (off + o + n)) by lia.
    rewrite (proj2 (Z.leb_le _ size)), u64_small by lia.
    assert (Hap : buf + (off + o) + n ≤ dest ∨ dest + n ≤ buf + (off + o)).
    { destruct (decide (buf + (off + o) + n ≤ dest)); [by left|]. right. destruct (decide (dest + n ≤ buf + (off + o))); [done|].
      destruct (HD (Z.max dest (buf + (off + o)))); [lia|]. unfold in_file. lia. }
    set (m' := memcpy_z (k_mem k) dest (buf + (off + o)) n).
    assert (Hm' : ∀ b, load8 m' b = if decide (dest ≤ b < dest + n) then u8 (load8 m0 (buf + off + (o + (b - dest)))) else load8 (k_mem k) b).
    { intros b. unfold m'. rewrite load8_memcpy_z by lia. case_decide; [|done]. rewrite HI by (unfold in_file; lia).
      rewrite (u8_small (load8 m0 _)) by apply load8_range. f_equal. lia. }
    exists (set_k_mem m' k), m'. splits; [done| |done|done]. intros a Ha. change (load8 m' a = load8 m0 a).
    rewrite Hm', decide_False by (intros Hin; by apply (HD a)). by apply HI.
Qed.

Lemma map_segment_spec r k F T vaddr memsz filesz off :
  ready file_intact in_file (4 * Z.to_nat (page_count (vaddr `mod` PAGE_SIZE) memsz) + r) k F T →
  0 ≤ vaddr → 0 ≤ memsz → vaddr + memsz + PAGE_SIZE ≤ 2 ^ 48 → 0 ≤ off → 0 ≤ filesz → off + filesz ≤ size →
  ∃ k' F' T', map_segment vaddr memsz filesz buf size off k = Ok (tt, k') ∧ ready file_intact in_file r k' F' T' ∧
    loads k F T (segment_pages vaddr memsz) k' F' T' ∧
    ∀ w, vaddr ≤ w < vaddr + memsz →
      holds k' F' T' w (segment_byte (λ d, load8 m0 (buf + off + d)) filesz (w - vaddr)).
Proof.
  intros HR Hv Hm Hend Ho Hf Hof.
  destruct (load_pages_spec _ _ filesz _ _ (copy_from_source off filesz Ho Hof) ltac:(lia) USER_FLAGS ltac:(done) ltac:(done) r k F T vaddr memsz HR Hv Hm Hend)
    as (k' & F' & T' & E & HR' & HL & Hw).
  exists k', F', T'. splits; [done|done|done|]. intros w Hin. specialize (Hw w Hin). rewrite u8_small in Hw; [done|].
  unfold segment_byte. case_decide; [apply load8_range|lia].
Qed.

(** ** All segments *)

Section segments.
Context (get : memory → Z → phdr) (ph : Z → phdr) (num load_base : Z)
  (Hget : ∀ k i, file_intact k → 0 ≤ i < num → get (k_mem k) i = ph i).

Definition loadable (i : Z) : Prop := p_type (ph i) = PT_LOAD.
Definition seg_vaddr (i : Z) : Z := u64 (p_vaddr (ph i) + load_base).
Definition seg_pages (i x : Z) : Prop := segment_pages (seg_vaddr i) (p_memsz (ph i)) x.
Definition seg_byte (i d : Z) : Z := segment_byte (λ d, load8 m0 (buf + p_offset (ph i) + d)) (p_filesz (ph i)) d.

(** A segment is inside of the file and of the lower half of the address space. *)
Record seg_ok (i : Z) : Prop := {
  so_range : 0 ≤ p_offset (ph i) ∧ 0 ≤ p_filesz (ph i) ∧ 0 ≤ p_memsz (ph i);
  so_file : p_offset (ph i) + p_filesz (ph i) ≤ size;
  so_end : seg_vaddr i + p_memsz (ph i) + PAGE_SIZE ≤ 2 ^ 48;
}.

(** The pages that loading [n] segments from [i] on may need, with the tables. *)
Definition seg_cost (i : Z) : nat :=
  if p_type (ph i) =? PT_LOAD then 4 * Z.to_nat (page_count (seg_vaddr i `mod` PAGE_SIZE) (p_memsz (ph i))) else 0.
Fixpoint segs_cost (n : nat) (i : Z) : nat :=
  match n with
  | O => 0
  | S n => seg_cost i + segs_cost n (i + 1)
  end.

Lemma load_segments_spec r n : ∀ i k F T,
  ready file_intact in_file (segs_cost n i + r) k F T → 0 ≤ i → i + Z.of_nat n ≤ num →
  (∀ j, i ≤ j < num → loadable j → seg_ok j) →
  (∀ j j' x, i ≤ j → j < j' < num → loadable j → loadable j' → seg_pages j x → ¬ seg_pages j' x) →
  ∃ k' F' T', load_segments n get buf size load_base i k = Ok (true, k') ∧ ready file_intact in_file r k' F' T' ∧
    loads k F T (λ x, ∃ j, i ≤ j < i + Z.of_nat n ∧ loadable j ∧ seg_pages j x) k' F' T' ∧
    ∀ j d, i ≤ j < i + Z.of_nat n → loadable j → 0 ≤ d < p_memsz (ph j) → holds k' F' T' (seg_vaddr j + d) (seg_byte j d).
Proof.
  induction n as [|n IH]; intros i k F T HR Hi Hn Hok Hdis; cbn [load_segments segs_cost] in *.
  { exists k, F, T. splits; [done|done| |].
    - destruct HR as (_ & HV & _). split; [done|done| |done]. by split.
    - intros j d Hj. lia. }
  pose proof HR as (HI & _). mstep. rewrite (Hget k i HI ltac:(lia)). unfold seg_cost in HR.
  destruct (Z.eqb_spec (p_type (ph i)) PT_LOAD) as [Ht|Ht]; cbn [negb].
  - destruct (Hok i ltac:(lia) Ht) as [[R1 [R2 R3]] R4 R5]. pose proof (u64_range (p_vaddr (ph i) + load_base)) as R6. fold (seg_vaddr i) in R6.
    rewrite (u64_small (p_offset (ph i) + p_filesz (ph i))) by lia. rewrite (proj2 (Z.ltb_ge size _)) by lia. fold (seg_vaddr i).
    rewrite <-Nat.add_assoc in HR.
    destruct (map_segment_spec (segs_cost n (i + 1) + r) k F T (seg_vaddr i) (p_memsz (ph i)) (p_filesz (ph i)) (p_offset (ph i)) HR)
      as (k1 & F1 & T1 & E1 & HR1 & HL1 & Hw1); [lia|lia|done|lia|lia|done|]. mstep with E1.
    destruct (IH (i + 1) k1 F1 T1 HR1) as (k2 & F2 & T2 & E2 & HR2 & HL2 & Hw2); [lia|lia|intros j Hj; apply Hok; lia|intros j j' x Hj; apply Hdis; lia|].
    exists k2, F2, T2. splits; [done|done| |].
    + eapply loads_weaken; [|eapply loads_trans; [exact HL1|exact HL2]]. intros x [Hx|(j & Hj & Hl & Hx)]; [exists i|exists j]; splits; (done || lia).
    + intros j d Hj Hl Hd. destruct (decide (j = i)) as [->|Hne]; [|apply Hw2; (done || lia)].
      eapply loads_holds; [exact HL2| |].
      * intros (j & Hj' & Hl' & Hx). refine (Hdis i j _ _ _ Hl Hl' _ Hx); [lia|lia|]. unfold seg_pages, segment_pages.
        rewrite vpn_low by (unfold PAGE_SIZE in *; lia). unfold PAGE_SIZE in *. zdiv.
      * specialize (Hw1 (seg_vaddr i + d) ltac:(lia)). by rewrite Z.add_simpl_l in Hw1.
  - destruct (IH (i + 1) k F T HR) as (k2 & F2 & T2 & E2 & HR2 & HL2 & Hw2); [lia|lia|intros j Hj; apply Hok; lia|intros j j' x Hj; apply Hdis; lia|].
    exists k2, F2, T2. splits; [done|done| |].
    + eapply loads_weaken; [|exact HL2]. intros x (j & Hj & Hl & Hx). exists j. splits; (done || lia).
    + intros j d Hj Hl Hd. assert (j ≠ i) by (by intros ->). apply Hw2; (done || lia).
Qed.
End segments.
End memory.
End load.
