(* ===== verification/ElfSpec.v ===== *)
(** * Theorems of the program loader

    A 64-bit program that is loaded from memory: every byte of every segment is
    where the program expects it.  Two properties that the code lacks are shown
    by examples. *)
From Stdlib Require Import ZArith Lia.
From stdpp Require Import base option gmap list.
From S2P Require Import Prelude Memory Pmm PmmProof PmmIface PmmSpec Vmm VmmProof VmmMap VmmSpec Vfs Modsym Elf ElfProof.

(** ** The headers of a program in memory *)

Definition file_ehdr (m : memory) (buf : Z) : ehdr := Elf64_Ehdr m buf.
Definition file_phdr (m : memory) (buf i : Z) : phdr := Elf64_Phdr m (buf + eh_phoff (file_ehdr m buf) + sizeof_Phdr * i).
Definition file_load_base (m : memory) (buf : Z) : Z :=
  let e := file_ehdr m buf in
  let range := vaddr_range (Z.to_nat (eh_phnum e)) (file_phdr m buf) (λ ph, u64 (p_vaddr ph + p_memsz ph)) 0 UINTPTR_MAX 0 in
  load_base_memory e range.1 range.2.

(** A 64-bit program of [size] bytes at [buf] whose segments are inside of it
    and on different pages. *)
Record program_ok (m : memory) (buf size : Z) : Prop := {
  po_place : 0 ≤ buf ∧ buf + size < 2 ^ 62 ∧ sizeof_Ehdr ≤ size;
  po_magic : elf_magic m buf = true ∧ load8 m (buf + 4) = ELFCLASS64;
  po_type : executable (file_ehdr m buf) = true;
  po_headers : eh_phoff (file_ehdr m buf) + eh_phnum (file_ehdr m buf) * sizeof_Phdr ≤ size;
  po_segments : ∀ i, 0 ≤ i < eh_phnum (file_ehdr m buf) → loadable (file_phdr m buf) i →
    seg_ok size (file_phdr m buf) (file_load_base m buf) i;
  po_apart : ∀ i j x, 0 ≤ i → i < j < eh_phnum (file_ehdr m buf) → loadable (file_phdr m buf) i → loadable (file_phdr m buf) j →
    seg_pages (file_phdr m buf) (file_load_base m buf) i x → ¬ seg_pages (file_phdr m buf) (file_load_base m buf) j x;
}.

Lemma phdr_intact m m' buf size i : program_ok m buf size → 0 ≤ i < eh_phnum (file_ehdr m buf) →
  (∀ a, in_file buf size a → load8 m' a = load8 m a) →
  Elf64_Phdr m' (buf + eh_phoff (file_ehdr m buf) + sizeof_Phdr * i) = file_phdr m buf i.
Proof.
  intros [Hp _ _ Hh _ _] Hi Hm. pose proof (load64_range m (buf + 32)) as R. change (load64 m (buf + 32)) with (eh_phoff (file_ehdr m buf)) in R.
  unfold file_phdr, Elf64_Phdr, load32, load64. unfold sizeof_Phdr in *.
  assert (HL : ∀ w a, buf ≤ a → a + Z.of_nat w ≤ buf + size → load w m' a = load w m a).
  { intros w a H1 H2. apply load_ext. intros b Hb. apply Hm. unfold in_file. lia. }
  rewrite !HL by lia. done.
Qed.

Section theorems.
Context {C : Type} {inv : pmm → (Z → Prop) → Prop} `{!PageAllocator inv}.
Implicit Types k : kernel C.

Lemma holds_user k F T w c : vm_inv (inv := inv) (k_vmm k) F T → holds k F T w c →
  ∃ p, virt_to_phys_user w (k_vmm k) = Ok (p, k_vmm k) ∧ load8 (k_mem k) (v_hhdm (k_vmm k) + p) = c.
Proof.
  intros HV (p & Hp & Hc & _). exists p. split; [|done]. rewrite (virt_to_phys_user_xlate _ F T w HV). by rewrite Hp.
Qed.

(** C10: [elf_load_from_memory] succeeds on a 64-bit program whose headers and segments lie within the file, whose loadable
    segments lie on different pages ([program_ok]: of two segments that share a page the bytes of the first are lost, see
    [segments_share_page]), and which is not in the memory of the page allocator or of the page tables, when there are
    enough free pages for the segments and the tables ([segs_cost]).  Afterwards the page tables are well formed, every
    address of every loadable segment translates to a frame that holds the byte of the file, or zero behind the part that
    is in the file; every address outside of the segments' pages translates as before, and no memory has changed but that
    of the page allocator and of the page tables. *)
Theorem elf_load_from_memory_correct k F T buf size info :
  let m := k_mem k in
  let e := file_ehdr m buf in
  let ph := file_phdr m buf in
  let base := file_load_base m buf in
  vm_inv (inv := inv) (k_vmm k) F T → program_ok m buf size → (∀ a, in_file buf size a → ¬ vm_private (k_vmm k) F T a) →
  spare (segs_cost ph base (Z.to_nat (eh_phnum e)) 0) F →
  ∃ k' F' T', elf_load_from_memory buf size info k =
      Ok ((0, mkInfo (entry_memory64 e base) 0x700000000000 0 (eh_phnum e) (eh_phentsize e) (eh_phoff e) (eh_type e) (privileged info)), k') ∧
    vm_inv (inv := inv) (k_vmm k') F' T' ∧
    (∀ i d, 0 ≤ i < eh_phnum e → loadable ph i → 0 ≤ d < p_memsz (ph i) →
       ∃ p, virt_to_phys_user (seg_vaddr ph base i + d) (k_vmm k') = Ok (p, k_vmm k') ∧
         load8 (k_mem k') (v_hhdm (k_vmm k') + p) = seg_byte m buf ph i d) ∧
    (∀ w, (∀ i, 0 ≤ i < eh_phnum e → loadable ph i → ¬ seg_pages ph base i (vpn w)) →
       ∃ p, virt_to_phys_user w (k_vmm k) = Ok (p, k_vmm k) ∧ virt_to_phys_user w (k_vmm k') = Ok (p, k_vmm k')) ∧
    (∀ a, ¬ vm_private (k_vmm k) F T a → load8 (k_mem k') a = load8 m a).
Proof.
  intros m e ph base HV HP HD Hs. pose proof HP as [(P1 & P2 & P3) [P4 P5] P6 P7 P8 P9].
  pose proof (load16_range m (buf + 56)) as Rn. change (load16 m (buf + 56)) with (eh_phnum e) in Rn.
  pose proof (load64_range m (buf + 32)) as Ro. change (load64 m (buf + 32)) with (eh_phoff e) in Ro.
  unfold elf_load_from_memory. rewrite (proj2 (Z.ltb_ge size sizeof_Ehdr)) by lia. mstep. fold m. rewrite P4, P5. cbn [negb]. rewrite Z.eqb_refl.
  unfold elf64_load_memory. mstep. fold m. change (Elf64_Ehdr m buf) with e. fold e in P6, P7. rewrite P6. cbn [negb].
  unfold sizeof_Phdr in P7 |- *. rewrite (u64_small (eh_phoff e + eh_phnum e * 56)), (u64_small (buf + eh_phoff e)) by lia.
  rewrite (proj2 (Z.ltb_ge size _)) by lia. mstep. fold m.
  change (load_base_memory e _ _) with base. set (get := λ (m : memory) (i : Z), Elf64_Phdr m (buf + eh_phoff e + 56 * i)).
  assert (Hget : ∀ (k1 : kernel C) i, file_intact m buf size k1 → 0 ≤ i < eh_phnum e → get (k_mem k1) i = ph i).
  { intros k1 i HI Hi. apply (phdr_intact m _ buf size i HP Hi). exact HI. }
  destruct (load_segments_spec (inv := inv) m buf size P1 P2 get ph (eh_phnum e) base Hget 0 (Z.to_nat (eh_phnum e)) 0 k F T)
    as (k' & F' & T' & E & HR & HL & Hw).
  - rewrite Nat.add_0_r. by splits.
  - lia.
  - lia.
  - intros j Hj. apply P8. exact Hj.
  - intros i j x Hi. by apply P9.
  - mstep with E. cbn [negb]. exists k', F', T'. pose proof HR as (_ & HV' & _). splits; [done|done| | |].
    + intros i d Hi Hl Hd. apply (holds_user k' F' T'); [done|]. apply Hw; [lia|done|done].
    + intros w Hno. exists (default 0 (xlate (k_vmm k) T w)). split; [by apply virt_to_phys_user_xlate with F|].
      rewrite (virt_to_phys_user_xlate _ F' T' w HV'). rewrite (ld_rest _ _ _ _ _ _ _ HL); [done|].
      intros (j & Hj & Hl & Hx). apply (Hno j); [lia|done|done].
    + intros a Ha. apply (vf_mem _ _ _ _ _ _ (ld_frame _ _ _ _ _ _ _ HL) a Ha).
Qed.
End theorems.

(** ** A machine and a program *)

(** The sample machine of VmmSpec.v with the memory changed outside of it. *)
Definition machine_with (m : memory) : kernel unit := mkKernel (set_v_mem m sample_vm) (mkVfs [] [] []) 0 0 0.

(** A program header with [p_offset = 0]. *)
Definition put_phdr (m : memory) (a vaddr filesz memsz : Z) : memory :=
  store64 (store64 (store64 (store32 m a PT_LOAD) (a + 16) vaddr) (a + 32) filesz) (a + 40) memsz.
(** An executable of class 64 with its program headers behind the header. *)
Definition put_ehdr (m : memory) (a entry num : Z) : memory :=
  store16 (store64 (store64 (store16 (store64 m a 0x02464c457f) (a + 16) ET_EXEC) (a + 24) entry) (a + 32) 64) (a + 56) num.

(** One segment at 0x400100 with the first 16 bytes of the file. *)
Definition sample_program : memory := put_phdr (put_ehdr (v_mem sample_vm) 0x1000 0x400100 1) (0x1000 + 64) 0x400100 16 32.
Definition sample_size : Z := 64 + 56.

Lemma sample_low_free F T a : vm_inv (inv := buddy_inv) sample_vm F T → 0 ≤ a < 2 ^ 32 → ¬ vm_private sample_vm F T a.
Proof.
  intros HV Ha. assert (Eh : hhdm_offset (v_pmm sample_vm) = sample_offset) by (vm_compute; reflexivity).
  assert (Eb : 2 ^ 32 ≤ pmm_bitmap (v_pmm sample_vm)) by (vm_compute; discriminate).
  assert (Hp : ∀ q, 0 ≤ q → ¬ in_page (v_pmm sample_vm) q a).
  { intros q Hq Hin. unfold in_page in Hin. rewrite Eh in Hin. unfold sample_offset, PAGE_SIZE in Hin. lia. }
  intros [[Hb|(q & Hq & Hin)]|(kk & pre & q & Hq & Hin)].
  - unfold in_bitmap in Hb. lia.
  - destruct (pa_free _ _ _ (vi_alloc _ _ _ HV) Hq). by apply (Hp q); [lia|].
  - destruct (vi_page _ _ _ HV _ _ _ Hq) as (Hr & _). by apply (Hp q); [lia|].
Qed.

Lemma machine_inv m F T : vm_inv (inv := buddy_inv) sample_vm F T → (∀ a, 2 ^ 32 ≤ a → load8 m a = load8 (v_mem sample_vm) a) →
  vm_inv (inv := buddy_inv) (set_v_mem m sample_vm) F T ∧ ∀ a, vm_private (set_v_mem m sample_vm) F T a ↔ vm_private sample_vm F T a.
Proof.
  intros HV Hm.
  assert (Hpriv : ∀ a, vm_private sample_vm F T a → load8 m a = load8 (v_mem sample_vm) a).
  { intros a Ha. apply Hm. destruct (decide (2 ^ 32 ≤ a)) as [|Hlt]; [done|]. exfalso.
    assert (0 ≤ a) as H0; [|by apply (sample_low_free F T a HV ltac:(lia))]. destruct Ha as [[Hb|(q & Hq & Hin)]|(kk & pre & q & Hq & Hin)].
    - assert (0 ≤ pmm_bitmap (v_pmm sample_vm)) by (vm_compute; discriminate). unfold in_bitmap in Hb. lia.
    - destruct (pa_free _ _ _ (vi_alloc _ _ _ HV) Hq). destruct (pa_window _ _ (vi_alloc _ _ _ HV)) as (_ & ? & _). unfold in_page, PAGE_SIZE in *. lia.
    - destruct (vi_page _ _ _ HV _ _ _ Hq) as (? & _). destruct (pa_window _ _ (vi_alloc _ _ _ HV)) as (_ & ? & _). unfold in_page, PAGE_SIZE in *. lia. }
  destruct (vm_inv_outside (inv := buddy_inv) sample_vm F T m HV Hpriv) as (H1 & _ & H2). split; [exact H1|exact H2].
Qed.

Lemma sample_program_ok : program_ok sample_program 0x1000 sample_size.
Proof.
  assert (En : eh_phnum (file_ehdr sample_program 0x1000) = 1) by (vm_compute; reflexivity).
  split; rewrite ?En; clear En.
  - unfold sample_size, sizeof_Ehdr. lia.
  - split; vm_compute; reflexivity.
  - vm_compute. reflexivity.
  - vm_compute. discriminate.
  - intros i Hi _. assert (i = 0) as -> by lia. split; [splits; vm_compute; discriminate|vm_compute; discriminate..].
  - intros i j x Hi Hj. lia.
Qed.

Lemma load8_store_low n m a v b : a + Z.of_nat n ≤ b → load8 (store n m a v) b = load8 m b.
Proof. intros H. by rewrite load8_store, decide_False by lia. Qed.

Lemma elf_load_from_memory_correct_witness :
  let k := machine_with sample_program in
  ∃ k' p, elf_load_from_memory 0x1000 sample_size (mkInfo 0 0 0 0 0 0 0 0) k =
      Ok ((0, mkInfo 0x400100 0x700000000000 0 1 0 64 ET_EXEC 0), k') ∧
    virt_to_phys_user 0x400101 (k_vmm k') = Ok (p, k_vmm k') ∧ load8 (k_mem k') (v_hhdm (k_vmm k') + p) = 0x45.
Proof.
  intros k. destruct sample_vm_free as (F & HV & HF).
  destruct (machine_inv sample_program F _ HV) as [HV' Hp].
  { intros a Ha. unfold sample_program, put_phdr, put_ehdr, store64, store32, store16. by rewrite !load8_store_low by lia. }
  destruct (elf_load_from_memory_correct (inv := buddy_inv) k F (root_tree 64) 0x1000 sample_size (mkInfo 0 0 0 0 0 0 0 0) HV' sample_program_ok)
    as (k' & F' & T' & E & _ & Hw & _).
  - intros a Ha Hx. refine (sample_low_free F (root_tree 64) a HV _ (proj1 (Hp a) Hx)). unfold in_file, sample_size in Ha. lia.
  - replace (segs_cost _ _ _ 0) with 4%nat by (vm_compute; reflexivity). apply spare_run. intros q Hq. apply HF. lia.
  - destruct (Hw 0 1) as (p & H1 & H2); [vm_compute; split; [discriminate|reflexivity]|vm_compute; reflexivity|vm_compute; split; [discriminate|reflexivity]|].
    exists k', p. split; [|split; [exact H1|]].
    + rewrite E. apply (f_equal (λ i, Ok ((0, i), k'))). vm_compute. reflexivity.
    + rewrite H2. vm_compute. reflexivity.
Defined.

(** ** What the loader gets wrong *)

(** For a 64-bit program whose segments stay where they are linked but whose entry point is below 4 MiB,
    [elf_load_from_memory] adds 4 MiB to the entry point although it loads the segments without an offset: it returns
    success with an entry point that is not mapped (the segment is). *)
Theorem elf_load_from_memory_entry_unmapped :
  let m := put_phdr (put_ehdr (v_mem sample_vm) 0x1000 0x10100 1) (0x1000 + 64) 0x10100 16 32 in
  match (r ← elf_load_from_memory 0x1000 sample_size (mkInfo 0 0 0 0 0 0 0 0);
         here ← in_vmm (virt_to_phys_user 0x10100);
         there ← in_vmm (virt_to_phys_user (entry_point r.2));
         mret (r.1, entry_point r.2, negb (here =? 0), there)) (machine_with m) with
  | Ok (r, _) => r = (0, 0x410100, true, 0)
  | _ => False
  end.
Proof. vm_compute. reflexivity. Qed.

(** Two segments on one page: the second gets a new frame, and the bytes of the
    first are gone. *)
Example segments_share_page :
  let m := put_phdr (put_phdr (put_ehdr (v_mem sample_vm) 0x1000 0x400100 2) (0x1000 + 64) 0x400100 16 32)
             (0x1000 + 64 + 56) 0x400800 16 32 in
  match (r ← elf_load_from_memory 0x1000 (sample_size + 56) (mkInfo 0 0 0 0 0 0 0 0);
         p ← in_vmm (virt_to_phys_user 0x400101);
         gets (λ k, (r.1, load8 (k_mem k) (v_hhdm (k_vmm k) + p)))) (machine_with m) with
  | Ok (r, _) => r = (0, 0)
  | _ => False
  end.
Proof. vm_compute. reflexivity. Qed.
