(* ===== verification/Module.v ===== *)
(** * Loadable kernel modules

    Model of the rest of src/kernel/main/util/elf/elf_loader.c: a module is a
    relocatable object file whose sections are laid out in one allocation of
    the heap and relocated there against the symbols of the kernel and of the
    modules loaded before. *)
From Stdlib Require Import ZArith Lia Ascii String.
From stdpp Require Import base option gmap list.
From S2P Require Import Prelude Memory Pmm Vmm CString Tlsf Print Vfs Modsym Elf.

Definition mod_align_up (val align : Z) : Z :=
  if align <=? 1 then val else Z.land (u64 (val + align - 1)) (u64 (Z.lnot (align - 1))).

(** [Elf64_Rela] *)
Definition r_offset (m : memory) (r : Z) : Z := load64 m r.
Definition r_info (m : memory) (r : Z) : Z := load64 m (r + 8).
Definition r_addend (m : memory) (r : Z) : Z := load64 m (r + 16).
Definition ELF64_R_SYM (i : Z) : Z := Z.shiftr i 32.
Definition ELF64_R_TYPE (i : Z) : Z := Z.land i 0xffffffff.
Definition R_X86_64_NONE : Z := 0.
Definition R_X86_64_64 : Z := 1.
Definition R_X86_64_PC32 : Z := 2.
Definition R_X86_64_PLT32 : Z := 4.
Definition R_X86_64_32 : Z := 10.
Definition R_X86_64_32S : Z := 11.

(** [A] is the addend as an unsigned number; a signed 32-bit store has the same
    bytes as an unsigned one. *)
Definition mod_apply_rela (m : memory) (patch S A r_type : Z) : memory :=
  if r_type =? R_X86_64_64 then store64 m patch (u64 (S + A))
  else if r_type =? R_X86_64_32 then store32 m patch (u32 (u64 (S + A)))
  else if r_type =? R_X86_64_32S then store32 m patch (u32 (u64 (S + A)))
  else if (r_type =? R_X86_64_PC32) || (r_type =? R_X86_64_PLT32) then
    store32 m patch (u32 (s64 (u64 (S + A)) - s64 patch))
  else m.

(** [module_load_info_t] *)
Record module_load_info := mkModule { mi_image : Z; mi_image_size : Z; mi_entry : Z }.

Section module.
Context {C : Type}.
Implicit Types (image ehdr shdrs sym strtab : Z).

(** [None] is the result [-1]; otherwise the value stored in [*out]. [addr]
    are the addresses of the kernel's symbols. *)
Definition mod_resolve_sym (addr : Z → Z) (fuel : nat) (image ehdr shdrs sym strtab : Z) : M (kernel C) (option Z) :=
  m ← gets k_mem;
  let ndx := st_shndx m sym in
  if ndx =? SHN_UNDEF then
    let name := u64 (strtab + st_name m sym) in
    a ← in_mem (ksym_lookup addr name);
    a ← (if a =? 0 then in_syms (modsym_lookup fuel name) else mret a);
    if a =? 0 then mret None else mret (Some a)
  else if ndx =? SHN_ABS then mret (Some (st_value m sym))
  else if e_shnum m ehdr <=? ndx then mret None
  else mret (Some (u64 (image + sh_addr m (shdr shdrs ndx) + st_value m sym))).

Definition allocated (m : memory) (s : Z) : bool := negb (Z.land (sh_flags m s) SHF_ALLOC =? 0).

(** The loop that gives the sections [i], ... their offsets in the image and
    returns its size. *)
Fixpoint place_sections (n : nat) (shdrs i image_size : Z) (m : memory) : Z * memory :=
  match n with
  | O => (image_size, m)
  | S n =>
      let s := shdr shdrs i in
      if negb (allocated m s) then place_sections n shdrs (i + 1) image_size m else
      let off := mod_align_up image_size (sh_addralign m s) in
      let m := store64 m (s + 16) off in
      place_sections n shdrs (i + 1) (u64 (off + sh_size m s)) m
  end.

Definition copy_section (buf image s : Z) (m : memory) : memory :=
  if negb (allocated m s) then m else
  if sh_type m s =? SHT_NOBITS then m else
  memcpy_z m (u64 (image + sh_addr m s)) (u64 (buf + sh_offset m s)) (sh_size m s).
Fixpoint copy_sections (n : nat) (buf image shdrs i : Z) (m : memory) : memory :=
  match n with
  | O => m
  | S n => copy_sections n buf image shdrs (i + 1) (copy_section buf image (shdr shdrs i) m)
  end.

(** The relocations [j], ... of a section; [false] for an undefined symbol. *)
Fixpoint apply_relas (n : nat) (addr : Z → Z) (fuel : nat) (image ehdr shdrs symtab strtab relas target j : Z) : M (kernel C) bool :=
  match n with
  | O => mret true
  | S n =>
      m ← gets k_mem;
      let r := relas + sizeof_Rela * j in
      let sym_idx := u32 (ELF64_R_SYM (r_info m r)) in
      let r_type := u32 (ELF64_R_TYPE (r_info m r)) in
      sym_val ← (if negb (sym_idx =? 0)
                 then mod_resolve_sym addr fuel image ehdr shdrs (symtab + sizeof_Sym * sym_idx) strtab
                 else mret (Some 0));
      match sym_val with
      | None => mret false
      | Some sym_val =>
          m ← gets k_mem;
          let patch := u64 (image + sh_addr m target + r_offset m r) in
          in_mem (modify (λ m, mod_apply_rela m patch sym_val (r_addend m r) r_type));;
          apply_relas n addr fuel image ehdr shdrs symtab strtab relas target (j + 1)
      end
  end.

Definition relocate_section (addr : Z → Z) (fuel : nat) (buf image ehdr shdrs i : Z) : M (kernel C) bool :=
  m ← gets k_mem;
  let s := shdr shdrs i in
  if negb (sh_type m s =? SHT_RELA) then mret true else
  let target_idx := sh_info m s in
  let symtab_idx := sh_link m s in
  if (e_shnum m ehdr <=? target_idx) || (e_shnum m ehdr <=? symtab_idx) then mret true else
  let target := shdr shdrs target_idx in
  let symtab_shdr := shdr shdrs symtab_idx in
  if negb (allocated m target) then mret true else
  let strtab_idx := sh_link m symtab_shdr in
  if e_shnum m ehdr <=? strtab_idx then mret true else
  let symtab := u64 (buf + sh_offset m symtab_shdr) in
  let strtab := u64 (buf + sh_offset m (shdr shdrs strtab_idx)) in
  let relas := u64 (buf + sh_offset m s) in
  let nrela := sh_size m s / sizeof_Rela in
  apply_relas (Z.to_nat nrela) addr fuel image ehdr shdrs symtab strtab relas target 0.

Fixpoint relocate_sections (n : nat) (addr : Z → Z) (fuel : nat) (buf image ehdr shdrs i : Z) : M (kernel C) bool :=
  match n with
  | O => mret true
  | S n =>
      ok ← relocate_section addr fuel buf image ehdr shdrs i;
      if negb ok then mret false else relocate_sections n addr fuel buf image ehdr shdrs (i + 1)
  end.

(** [strcmp(p, "module_init")] has the sign of its opposite. *)
Definition is_module_init (p : Z) : M memory bool := r ← strcmp_lit (lit "module_init") p; mret (r =? 0).

(** The address of [module_init] among the symbols [j], ..., or 0. *)
Fixpoint find_init_sym (n : nat) (image ehdr shdrs syms strtab j : Z) : M (kernel C) Z :=
  match n with
  | O => mret 0
  | S n =>
      m ← gets k_mem;
      let s := syms + sizeof_Sym * j in
      let ndx := st_shndx m s in
      if ndx =? SHN_UNDEF then find_init_sym n image ehdr shdrs syms strtab (j + 1) else
      if e_shnum m ehdr <=? ndx then find_init_sym n image ehdr shdrs syms strtab (j + 1) else
      eq ← in_mem (is_module_init (u64 (strtab + st_name m s)));
      if negb eq then find_init_sym n image ehdr shdrs syms strtab (j + 1) else
      mret (u64 (image + sh_addr m (shdr shdrs ndx) + st_value m s))
  end.
Fixpoint find_init (n : nat) (buf image ehdr shdrs i : Z) : M (kernel C) Z :=
  match n with
  | O => mret 0
  | S n =>
      m ← gets k_mem;
      let s := shdr shdrs i in
      if negb (sh_type m s =? SHT_SYMTAB) then find_init n buf image ehdr shdrs (i + 1) else
      let syms := u64 (buf + sh_offset m s) in
      let strtab := u64 (buf + sh_offset m (shdr shdrs (sh_link m s))) in
      let nsym := sh_size m s / sizeof_Sym in
      entry ← find_init_sym (Z.to_nat nsym) image ehdr shdrs syms strtab 0;
      if entry =? 0 then find_init n buf image ehdr shdrs (i + 1) else mret entry
  end.

(** The part behind the checks of the header, which has the file in [buf]. *)
Definition link_module (pool : Z) (addr : Z → Z) (fuel : nat) (buf : Z) : M (kernel C) (option module_load_info) :=
  m ← gets k_mem;
  let ehdr := buf in
  let shnum := Z.to_nat (e_shnum m ehdr) in
  let shdrs := u64 (buf + e_shoff m ehdr) in
  image_size ← in_mem (λ m, Ok (place_sections shnum shdrs 0 0 m));
  if image_size =? 0 then in_mem (free pool buf);; mret None else
  image ← in_mem (malloc pool image_size);
  if image =? 0 then in_mem (free pool buf);; mret None else
  in_mem (modify (λ m, memset_z m image 0 image_size));;
  in_mem (modify (copy_sections shnum buf image shdrs 0));;
  ok ← relocate_sections shnum addr fuel buf image ehdr shdrs 0;
  if negb ok then in_mem (free pool image);; in_mem (free pool buf);; mret None else
  entry ← find_init shnum buf image ehdr shdrs 0;
  if entry =? 0 then in_mem (free pool image);; in_mem (free pool buf);; mret None else
  in_syms (modsym_register fuel pool buf image ehdr shdrs);;
  in_mem (free pool buf);;
  mret (Some (mkModule image image_size entry)).

(** Whether the header is that of a module. *)
Definition module_header (m : memory) (buf : Z) : bool :=
  elf_magic m buf && (e_ident m buf 4 =? ELFCLASS64) && (Modsym.e_type m buf =? ET_REL) &&
  negb ((e_shoff m buf =? 0) || (e_shnum m buf =? 0)).

(** [None] is the result [-1], otherwise what is stored in [*out]. *)
Definition elf_load_module (pool : Z) (addr : Z → Z) (fuel : nat) (path : list Z) : M (kernel C) (option module_load_info) :=
  mnt ← in_vfs vfs_get_root_mount;
  match mnt with
  | None => mret None
  | Some _ =>
      inode ← in_vfs (vfs_path_to_inode mnt path);
      if inode =? 0 then mret None else
      st ← in_vfs (vfs_stat mnt inode);
      if negb (st.1 =? 0) then mret None else
      match st.2 with
      | None => fault
      | Some st =>
          if st_size st =? 0 then mret None else
          buf ← in_mem (malloc pool (st_size st));
          if buf =? 0 then mret None else
          n ← read_into mnt inode buf (st_size st) 0;
          if negb (u64 n =? st_size st) then in_mem (free pool buf);; mret None else
          if st_size st <? sizeof_Ehdr then in_mem (free pool buf);; mret None else
          m ← gets k_mem;
          if negb (module_header m buf) then in_mem (free pool buf);; mret None else
          link_module pool addr fuel buf
      end
  end.
End module.
