(* ===== verification/ModuleProof.v ===== *)
(** * Modules are laid out, copied and relocated correctly

    The sections of a module get disjoint, aligned places in the image, the
    image is the contents of the file at these places, a relocation stores the
    value that the processor's addressing needs and nothing else, and a file
    that is not a module leaves the heap as it was. *)
From Stdlib Require Import ZArith Lia Ascii String.
From stdpp Require Import base option gmap list.
From S2P Require Import Prelude Memory Pmm Vmm CString CStringProof Tlsf TlsfLists TlsfPhys TlsfHeap TlsfInit TlsfSpec TlsfRealloc.
From S2P Require Import Print Vfs Modsym ModsymProof Elf Module.

(** ** Layout *)

Lemma mod_align_up_spec val k :
  0 ≤ k ≤ 32 → 0 ≤ val → val + 2 ^ k < 2 ^ 64 → mod_align_up val (2 ^ k) = (val + 2 ^ k - 1) / 2 ^ k * 2 ^ k.
Proof.
  intros Hk Hv Hb. assert (Hp : 0 < 2 ^ k) by (apply Z.pow_pos_nonneg; lia). unfold mod_align_up.
  destruct (Z.leb_spec (2 ^ k) 1).
  { assert (2 ^ k = 1) as -> by lia. rewrite Z.div_1_r. lia. }
  rewrite (u64_small (val + 2 ^ k - 1)) by lia.
  assert (Hu : ∀ x y, 0 ≤ x < 2 ^ 64 → Z.land x (u64 y) = Z.land x y).
  { intros x y Hx. unfold u64. rewrite <-Z.land_ones, (Z.land_comm y), Z.land_assoc by lia. f_equal.
    by apply fits_land_ones. }
  rewrite Hu, land_lnot_ones by lia. done.
Qed.

(** The least multiple of the alignment that is not below [val]; a section
    header may have 0 for no alignment. *)
Definition alignment (a : Z) : Prop := a = 0 ∨ ∃ k, 0 ≤ k ≤ 32 ∧ a = 2 ^ k.

Lemma mod_align_up_bounds val align :
  alignment align → 0 ≤ val < 2 ^ 63 →
  val ≤ mod_align_up val align < val + 2 ^ 32 ∧ (mod_align_up val align) `mod` (Z.max 1 align) = 0 ∧
  ∀ x, val ≤ x → x `mod` Z.max 1 align = 0 → mod_align_up val align ≤ x.
Proof.
  intros [->|(k & Hk & ->)] Hv.
  - unfold mod_align_up. cbn [Z.leb Z.max Z.compare]. rewrite Z.mod_1_r. splits; [lia|lia|done|]. done.
  - assert (Hp : 0 < 2 ^ k) by (apply Z.pow_pos_nonneg; lia). assert (2 ^ k ≤ 2 ^ 32) by (apply Z.pow_le_mono_r; lia).
    rewrite mod_align_up_spec by lia. rewrite Z.max_r by lia. set (p := 2 ^ k) in *. clearbody p.
    pose proof (Z.div_mod (val + p - 1) p ltac:(lia)). pose proof (Z.mod_pos_bound (val + p - 1) p Hp).
    splits; [nia|nia|apply Z.mod_mul; lia|]. intros x Hx Hm. apply Z.mod_divide in Hm as [q ->]; [|lia].
    assert ((val + p - 1) / p ≤ q); [|nia]. apply Z.lt_succ_r, Z.div_lt_upper_bound; nia.
Qed.

(** The fields [sh_addr] of the sections [i], ..., [i + n - 1]. *)
Definition addr_fields (shdrs i n b : Z) : Prop := ∃ j, i ≤ j < i + n ∧ shdr shdrs j + 16 ≤ b < shdr shdrs j + 24.

(** A field of a section header other than [sh_addr], or of another section. *)
Lemma header_field w m m' shdrs i n j o :
  only (addr_fields shdrs i n) m m' → 0 ≤ o → o + Z.of_nat w ≤ 64 → o + Z.of_nat w ≤ 16 ∨ 24 ≤ o ∨ ¬ (i ≤ j < i + n) →
  load w m' (shdr shdrs j + o) = load w m (shdr shdrs j + o).
Proof.
  intros Ho H0 H1 H2. apply load_ext. intros b Hb. apply Ho. intros (j' & Hj & Hf). unfold shdr, sizeof_Shdr in *. lia.
Qed.

Record same_section (m m' : memory) (s : Z) : Prop := {
  ss_flags : sh_flags m' s = sh_flags m s; ss_type : sh_type m' s = sh_type m s;
  ss_offset : sh_offset m' s = sh_offset m s; ss_size : sh_size m' s = sh_size m s;
  ss_align : sh_addralign m' s = sh_addralign m s; ss_link : sh_link m' s = sh_link m s;
}.
Lemma layout_same m m' shdrs i n j : only (addr_fields shdrs i n) m m' → same_section m m' (shdr shdrs j).
Proof. intros Ho. split; eapply header_field; try exact Ho; lia. Qed.
Lemma same_allocated m m' s : same_section m m' s → allocated m' s = allocated m s.
Proof. intros H. unfold allocated. by rewrite (ss_flags _ _ _ H). Qed.

Definition section_ok (m : memory) (s : Z) : Prop := alignment (sh_addralign m s) ∧ sh_size m s < 2 ^ 32.

(** What the layout promises for the sections [i], ..., [i + n - 1] of an image
    from [lo] to [hi]; addresses are read in [m']. *)
Definition laid_out (m m' : memory) (shdrs i n lo hi : Z) : Prop :=
  ∀ j, i ≤ j < i + n → allocated m (shdr shdrs j) = true →
  let a := sh_addr m' (shdr shdrs j) in
  a `mod` Z.max 1 (sh_addralign m (shdr shdrs j)) = 0 ∧ lo ≤ a ∧ a + sh_size m (shdr shdrs j) ≤ hi ∧
  ∀ j', j < j' < i + n → allocated m (shdr shdrs j') = true → a + sh_size m (shdr shdrs j) ≤ sh_addr m' (shdr shdrs j').

Lemma place_sections_spec n shdrs : ∀ i size m,
  (∀ j, i ≤ j < i + Z.of_nat n → allocated m (shdr shdrs j) = true → section_ok m (shdr shdrs j)) →
  0 ≤ size → size + Z.of_nat n * 2 ^ 33 < 2 ^ 63 →
  ∃ size' m', place_sections n shdrs i size m = (size', m') ∧ size ≤ size' ≤ size + Z.of_nat n * 2 ^ 33 ∧
    only (addr_fields shdrs i (Z.of_nat n)) m m' ∧ laid_out m m' shdrs i (Z.of_nat n) size size'.
Proof.
  induction n as [|n IH]; intros i size m Hok Hs Hb; cbn [place_sections].
  { exists size, m. splits; [done|lia|lia|apply only_refl|]. intros j Hj. lia. }
  destruct (allocated m (shdr shdrs i)) eqn:Ea; cbn [negb].
  - destruct (Hok i ltac:(lia) Ea) as [Hal Hsz]. set (off := mod_align_up size _).
    destruct (mod_align_up_bounds size _ Hal ltac:(lia)) as (Hoff & Hmod & _). fold off in Hoff, Hmod.
    set (m1 := store64 m (shdr shdrs i + 16) off).
    assert (O1 : only (addr_fields shdrs i 1) m m1).
    { apply only_store64. intros b Hb'. exists i. lia. }
    assert (Hsame : ∀ j, same_section m m1 (shdr shdrs j)) by (intros j; by eapply layout_same).
    pose proof (load64_range m (shdr shdrs i + 32)) as Hsr. fold (sh_size m (shdr shdrs i)) in Hsr.
    rewrite (ss_size _ _ _ (Hsame i)), u64_small by lia.
    destruct (IH (i + 1) (off + sh_size m (shdr shdrs i)) m1) as (size' & m' & E & Hb1 & O2 & HL); [|lia|lia|].
    { intros j Hj. rewrite (same_allocated _ _ _ (Hsame j)). unfold section_ok. rewrite (ss_size _ _ _ (Hsame j)), (ss_align _ _ _ (Hsame j)).
      apply Hok. lia. }
    exists size', m'. splits; [done|lia|lia| |].
    + eapply only_trans; (eapply only_weaken; [|first [exact O1|exact O2]]); intros b (j & Hj & Hx); exists j; lia.
    + assert (Ei : sh_addr m' (shdr shdrs i) = off).
      { unfold sh_addr. unfold load64. rewrite (header_field 8 m1 m' shdrs (i + 1) (Z.of_nat n) i 16 O2) by lia. unfold m1.
        rewrite load64_store64_eq. apply u64_small. lia. }
      assert (HL' : ∀ j, i < j < i + Z.of_nat (S n) → allocated m (shdr shdrs j) = true →
        let a := sh_addr m' (shdr shdrs j) in
        a `mod` Z.max 1 (sh_addralign m (shdr shdrs j)) = 0 ∧ off + sh_size m (shdr shdrs i) ≤ a ∧ a + sh_size m (shdr shdrs j) ≤ size' ∧
        ∀ j', j < j' < i + Z.of_nat (S n) → allocated m (shdr shdrs j') = true → a + sh_size m (shdr shdrs j) ≤ sh_addr m' (shdr shdrs j')).
      { intros j Hj Haj. destruct (HL j ltac:(lia)) as (P1 & P2 & P3 & P4); [by rewrite (same_allocated _ _ _ (Hsame j))|].
        rewrite (ss_size _ _ _ (Hsame j)) in P3, P4. rewrite (ss_align _ _ _ (Hsame j)) in P1. cbv zeta. splits; [done|done|done|].
        intros j' Hj' Ha'. apply P4; [lia|]. by rewrite (same_allocated _ _ _ (Hsame j')). }
      intros j Hj Haj. destruct (decide (j = i)) as [->|Hne].
      * cbv zeta. rewrite Ei. splits; [done|lia|lia|]. intros j' Hj' Ha'. destruct (HL' j' ltac:(lia) Ha') as (_ & P2 & _). done.
      * destruct (HL' j ltac:(lia) Haj) as (P1 & P2 & P3 & P4). cbv zeta. splits; [done|lia|done|done].
  - destruct (IH (i + 1) size m) as (size' & m' & E & Hb1 & O2 & HL); [intros j Hj; apply Hok; lia|lia|lia|].
    exists size', m'. splits; [done|lia|lia| |].
    + eapply only_weaken; [|exact O2]. intros b (j & Hj & Hx). exists j. lia.
    + intros j Hj Haj. destruct (decide (j = i)) as [->|Hne]; [congruence|]. destruct (HL j ltac:(lia) Haj) as (P1 & P2 & P3 & P4).
      cbv zeta. splits; [done|done|done|]. intros j' Hj'. apply P4. lia.
Qed.

(** ** Contents *)

Section image.
Context (buf len image size shdrs n : Z).

(** The image is apart from the file, which has the section headers and the
    contents of the sections. *)
Record file_ok (m : memory) : Prop := {
  fo_apart : image + size ≤ buf ∨ buf + len ≤ image;
  fo_range : 0 ≤ buf ∧ buf + len < 2 ^ 64 ∧ 0 ≤ image ∧ image + size < 2 ^ 64;
  fo_headers : buf ≤ shdrs ∧ shdr shdrs n ≤ buf + len;
  fo_contents : ∀ j, 0 ≤ j < n → allocated m (shdr shdrs j) = true → sh_type m (shdr shdrs j) ≠ SHT_NOBITS →
    sh_offset m (shdr shdrs j) + sh_size m (shdr shdrs j) ≤ len;
}.

Definition in_image (b : Z) : Prop := image ≤ b < image + size.

(** The byte of the file for offset [k] of section [s]. *)
Definition section_byte (m : memory) (s k : Z) : Z :=
  if sh_type m s =? SHT_NOBITS then 0 else load8 m (buf + sh_offset m s + k).

Lemma header_kept w m m' j o : file_ok m → only in_image m m' → 0 ≤ j < n → 0 ≤ o → o + Z.of_nat w ≤ 64 →
  load w m' (shdr shdrs j + o) = load w m (shdr shdrs j + o).
Proof.
  intros [Ha Hr Hh _] Ho Hj H0 H1. apply load_ext. intros b Hb. apply Ho. unfold in_image, shdr, sizeof_Shdr in *. lia.
Qed.
Lemma image_same m m' j : file_ok m → only in_image m m' → 0 ≤ j < n →
  same_section m m' (shdr shdrs j) ∧ sh_addr m' (shdr shdrs j) = sh_addr m (shdr shdrs j).
Proof. intros. split; [split|]; by apply header_kept. Qed.

Lemma copy_section_spec m m' i :
  file_ok m → only in_image m m' → 0 ≤ i < n →
  (allocated m (shdr shdrs i) = true → sh_addr m (shdr shdrs i) + sh_size m (shdr shdrs i) ≤ size) →
  let s := shdr shdrs i in
  ∀ b, load8 (copy_section buf image s m') b =
    if allocated m s && negb (sh_type m s =? SHT_NOBITS) && bool_decide (image + sh_addr m s ≤ b < image + sh_addr m s + sh_size m s)
    then load8 m (buf + sh_offset m s + (b - (image + sh_addr m s))) else load8 m' b.
Proof.
  intros Hf Ho Hi Hsz s b. destruct (image_same _ _ _ Hf Ho Hi) as [Hs Ha]. unfold copy_section. fold s in Hs, Ha, Hsz.
  rewrite (same_allocated _ _ _ Hs), (ss_type _ _ _ Hs), (ss_offset _ _ _ Hs), (ss_size _ _ _ Hs), Ha.
  destruct (allocated m s) eqn:Ea; cbn [negb andb]; [|done]. destruct (Z.eqb_spec (sh_type m s) SHT_NOBITS) as [|Hn]; cbn [negb andb]; [done|].
  pose proof (fo_contents _ Hf i Hi Ea Hn) as Hc. fold s in Hc. specialize (Hsz eq_refl). destruct Hf as [Hap Hr _ _].
  pose proof (load64_range m (s + 16)) as R1. pose proof (load64_range m (s + 24)) as R2. pose proof (load64_range m (s + 32)) as R3.
  fold (sh_addr m s) in R1. fold (sh_offset m s) in R2. fold (sh_size m s) in R3.
  rewrite !u64_small by lia. rewrite load8_memcpy_z by lia. case_decide as Hd.
  - rewrite bool_decide_true by done. apply Ho. unfold in_image. lia.
  - rewrite bool_decide_false by done. done.
Qed.

Lemma copy_sections_spec m : file_ok m → 0 ≤ n → laid_out m m shdrs 0 n 0 size → ∀ k i m',
  i + Z.of_nat k = n → 0 ≤ i → only in_image m m' →
  (∀ j o, 0 ≤ j < n → allocated m (shdr shdrs j) = true → 0 ≤ o < sh_size m (shdr shdrs j) →
    load8 m' (image + sh_addr m (shdr shdrs j) + o) = if decide (j < i) then section_byte m (shdr shdrs j) o else 0) →
  let m'' := copy_sections k buf image shdrs i m' in
  only in_image m m'' ∧
  ∀ j o, 0 ≤ j < n → allocated m (shdr shdrs j) = true → 0 ≤ o < sh_size m (shdr shdrs j) →
    load8 m'' (image + sh_addr m (shdr shdrs j) + o) = section_byte m (shdr shdrs j) o.
Proof.
  intros Hf Hn HL. induction k as [|k IH]; intros i m' Hik Hi Ho Hj; cbn [copy_sections].
  { split; [done|]. intros j o Hj1 Hj2 Hj3. rewrite (Hj j o Hj1 Hj2 Hj3), decide_True by lia. done. }
  assert (Hsz : ∀ j, 0 ≤ j < n → allocated m (shdr shdrs j) = true → 0 ≤ sh_addr m (shdr shdrs j) ∧
    sh_addr m (shdr shdrs j) + sh_size m (shdr shdrs j) ≤ size ∧ ∀ j', j < j' < n → allocated m (shdr shdrs j') = true →
    sh_addr m (shdr shdrs j) + sh_size m (shdr shdrs j) ≤ sh_addr m (shdr shdrs j')).
  { intros j Hj1 Hj2. destruct (HL j ltac:(lia) Hj2) as (_ & ? & ? & Hd). splits; [done|done|]. intros j' Hj'. apply Hd. lia. }
  pose proof (copy_section_spec m m' i Hf Ho ltac:(lia) (λ Ha, proj1 (proj2 (Hsz i ltac:(lia) Ha)))) as Hc. cbv zeta in Hc.
  apply IH; [lia|lia| |].
  - intros b Hb. rewrite Hc. destruct (allocated m (shdr shdrs i)) eqn:Ea; cbn [andb]; [|by apply Ho].
    destruct (Hsz i ltac:(lia) Ea) as (? & ? & _).
    rewrite (bool_decide_false (_ ≤ b < _)), andb_false_r; [by apply Ho|]. unfold in_image in Hb. lia.
  - intros j o Hj1 Hj2 Hj3. rewrite Hc. destruct (decide (j = i)) as [->|Hne].
    + rewrite Hj2. cbn [andb]. rewrite (bool_decide_true (_ ≤ _ < _)), andb_true_r by lia. rewrite decide_True by lia. unfold section_byte.
      destruct (sh_type m (shdr shdrs i) =? SHT_NOBITS) eqn:En; cbn [negb].
      * rewrite Hj by done. by rewrite decide_False by lia.
      * f_equal. lia.
    + destruct (allocated m (shdr shdrs i)) eqn:Ea; cbn [andb].
      * rewrite (bool_decide_false (_ ≤ _ < _)), andb_false_r.
        { rewrite Hj by done. destruct (decide (j < i)); [by rewrite decide_True by lia|by rewrite decide_False by lia]. }
        destruct (Hsz i ltac:(lia) Ea) as (? & ? & Hd1). destruct (Hsz j ltac:(lia) Hj2) as (? & ? & Hd2).
        destruct (Z.lt_total i j) as [Hlt|[?|Hlt]]; [specialize (Hd1 j ltac:(lia) Hj2); lia|lia|specialize (Hd2 i ltac:(lia) Ea); lia].
      * rewrite Hj by done. destruct (decide (j < i)); [by rewrite decide_True by lia|by rewrite decide_False by lia].
Qed.
End image.

(** Layout, allocation, clearing and copying together; [m2] is the memory
    after the allocation of the image. *)
Lemma module_image_spec buf len image size shdrs (n : nat) m m1 m2 :
  Z.of_nat n < 2 ^ 16 →
  (∀ j, 0 ≤ j < Z.of_nat n → allocated m (shdr shdrs j) = true → section_ok m (shdr shdrs j)) →
  place_sections n shdrs 0 0 m = (size, m1) → mem_agree buf (buf + len) m2 m1 →
  file_ok buf len image size shdrs (Z.of_nat n) m2 →
  let m3 := copy_sections n buf image shdrs 0 (memset_z m2 image 0 size) in
  only (in_image image size) m2 m3 ∧ laid_out m m3 shdrs 0 (Z.of_nat n) 0 size ∧
  ∀ j o, 0 ≤ j < Z.of_nat n → allocated m (shdr shdrs j) = true → 0 ≤ o < sh_size m (shdr shdrs j) →
    load8 m3 (image + sh_addr m3 (shdr shdrs j) + o) = section_byte buf m2 (shdr shdrs j) o.
Proof.
  intros Hn Hok Hp Hag Hf m3. destruct (place_sections_spec n shdrs 0 0 m) as (size' & m1' & E & _ & O1 & HL); [done|lia|lia|].
  rewrite Hp in E. injection E as <- <-. pose proof (fo_headers _ _ _ _ _ _ _ Hf) as Hh.
  assert (H21 : ∀ w j o, 0 ≤ j < Z.of_nat n → 0 ≤ o → o + Z.of_nat w ≤ 64 → load w m2 (shdr shdrs j + o) = load w m1 (shdr shdrs j + o)).
  { intros w j o Hj H0 H1. apply (mem_agree_load w buf (buf + len)); [done| |]; unfold shdr, sizeof_Shdr in *; lia. }
  assert (S1 : ∀ j, same_section m m1 (shdr shdrs j)) by (intros j; by eapply layout_same).
  assert (S2 : ∀ j, 0 ≤ j < Z.of_nat n → same_section m m2 (shdr shdrs j)).
  { intros j Hj. destruct (S1 j) as [F1 F2 F3 F4 F5 F6]. split.
    - rewrite <-F1. by apply (H21 8%nat). - rewrite <-F2. by apply (H21 4%nat). - rewrite <-F3. by apply (H21 8%nat).
    - rewrite <-F4. by apply (H21 8%nat). - rewrite <-F5. by apply (H21 8%nat). - rewrite <-F6. by apply (H21 4%nat). }
  assert (A2 : ∀ j, 0 ≤ j < Z.of_nat n → sh_addr m2 (shdr shdrs j) = sh_addr m1 (shdr shdrs j)) by (intros j Hj; by apply (H21 8%nat)).
  assert (HL2 : laid_out m m2 shdrs 0 (Z.of_nat n) 0 size).
  { intros j Hj Ha. destruct (HL j Hj Ha) as (P1 & P2 & P3 & P4). cbv zeta. rewrite A2 by lia. splits; [done|done|done|].
    intros j' Hj' Ha'. rewrite (A2 j') by lia. by apply P4. }
  assert (HL3 : laid_out m2 m2 shdrs 0 (Z.of_nat n) 0 size).
  { intros j Hj Ha. destruct (S2 j Hj) as [F1 F2 F3 F4 F5 F6]. rewrite (same_allocated _ _ _ (S2 j Hj)) in Ha.
    destruct (HL2 j Hj Ha) as (P1 & P2 & P3 & P4). cbv zeta. rewrite F4, F5. splits; [done|done|done|].
    intros j' Hj'. rewrite (same_allocated _ _ _ (S2 j' ltac:(lia))). by apply P4. }
  destruct (copy_sections_spec buf len image size shdrs (Z.of_nat n) m2 Hf ltac:(lia) HL3 n 0 (memset_z m2 image 0 size)) as [O3 HC]; [lia|lia| | |].
  { intros b Hb. rewrite load8_memset_z, decide_False by exact Hb. done. }
  { intros j o Hj Ha Ho. rewrite decide_False by lia. destruct (HL3 j Hj Ha) as (_ & ? & ? & _).
    rewrite load8_memset_z, decide_True by lia. done. }
  assert (A3 : ∀ j, 0 ≤ j < Z.of_nat n → sh_addr m3 (shdr shdrs j) = sh_addr m2 (shdr shdrs j)) by (intros j Hj; by eapply image_same).
  splits; [done| |].
  - intros j Hj Ha. destruct (HL2 j Hj Ha) as (P1 & P2 & P3 & P4). cbv zeta. rewrite A3 by lia. splits; [done|done|done|].
    intros j' Hj' Ha'. rewrite (A3 j') by lia. by apply P4.
  - intros j o Hj Ha Ho. rewrite A3 by done. destruct (S2 j Hj) as [F1 F2 F3 F4 F5 F6].
    apply HC; [done|by rewrite (same_allocated _ _ _ (S2 j Hj))|by rewrite F4].
Qed.

(** ** Relocation *)

(** The number of bytes a relocation stores, and the address that the
    processor computes from them: absolute, zero- or sign-extended, or relative
    to the field. *)
Definition rela_width (r_type : Z) : Z :=
  if r_type =? R_X86_64_64 then 8
  else if (r_type =? R_X86_64_32) || (r_type =? R_X86_64_32S) || (r_type =? R_X86_64_PC32) || (r_type =? R_X86_64_PLT32) then 4
  else 0.
Definition rela_target (m : memory) (patch r_type : Z) : Z :=
  if r_type =? R_X86_64_64 then load64 m patch
  else if r_type =? R_X86_64_32 then load32 m patch
  else if r_type =? R_X86_64_32S then u64 (s32 (load32 m patch))
  else u64 (patch + s32 (load32 m patch)).
(** That a field of that type can express the address [v]. *)
Definition rela_fits (patch v r_type : Z) : Prop :=
  if r_type =? R_X86_64_64 then True
  else if r_type =? R_X86_64_32 then v < 2 ^ 32
  else if r_type =? R_X86_64_32S then v < 2 ^ 31 ∨ 2 ^ 64 - 2 ^ 31 ≤ v
  else - 2 ^ 31 ≤ s64 v - s64 patch < 2 ^ 31.

Lemma s32_u32 x : - 2 ^ 31 ≤ x < 2 ^ 31 → s32 (u32 x) = x.
Proof.
  intros Hx. unfold s32, swrap, u32. cbv zeta. change (2 ^ (32 - 1)) with (2 ^ 31). rewrite Z.mod_mod by lia.
  destruct (Z_lt_dec x 0).
  - replace (x `mod` 2 ^ 32) with (x + 2 ^ 32) by (rewrite <-(Z_mod_plus_full x 1), Z.mod_small; lia).
    destruct (Z.ltb_spec (x + 2 ^ 32) (2 ^ 31)); lia.
  - rewrite Z.mod_small by lia. destruct (Z.ltb_spec x (2 ^ 31)); lia.
Qed.
Lemma u64_s64 x : 0 ≤ x < 2 ^ 64 → u64 (s64 x) = x.
Proof.
  intros Hx. unfold s64, swrap, u64. cbv zeta. rewrite (Z.mod_small x) by lia. change (2 ^ (64 - 1)) with (2 ^ 63).
  destruct (Z.ltb_spec x (2 ^ 63)); [by rewrite Z.mod_small by lia|].
  rewrite <-(Z_mod_plus_full _ 1). replace (x - 2 ^ 64 + 1 * 2 ^ 64) with x by lia. by apply Z.mod_small.
Qed.
Lemma u32_idem v : u32 (u32 v) = u32 v.
Proof. unfold u32. by rewrite Z.mod_mod by lia. Qed.

Lemma mod_apply_rela_spec m patch S A r_type :
  0 ≤ patch < 2 ^ 64 → rela_width r_type ≠ 0 → rela_fits patch (u64 (S + A)) r_type →
  rela_target (mod_apply_rela m patch S A r_type) patch r_type = u64 (S + A) ∧
  only (λ b, patch ≤ b < patch + rela_width r_type) m (mod_apply_rela m patch S A r_type).
Proof.
  intros Hp. set (v := u64 (S + A)). assert (Hv : 0 ≤ v < 2 ^ 64) by apply (u64_range (S + A)). unfold rela_width, rela_target, rela_fits, mod_apply_rela. fold v.
  destruct (Z.eqb_spec r_type R_X86_64_64) as [->|N1].
  { intros _ _. rewrite load64_store64_eq, u64_small by done. split; [done|]. by apply only_store64. }
  destruct (Z.eqb_spec r_type R_X86_64_32) as [->|N2]; cbn [orb].
  { intros _ Hf. rewrite load32_store32_eq. split; [|by apply only_store32]. cbn in Hf. unfold u32. rewrite (Z.mod_small v) by lia.
    apply Z.mod_small. lia. }
  destruct (Z.eqb_spec r_type R_X86_64_32S) as [->|N3]; cbn [orb].
  { intros _ Hf. rewrite load32_store32_eq. split; [|by apply only_store32]. rewrite u32_idem.
    assert (u32 v = u32 (s64 v)) as ->.
    { unfold s64, swrap. cbv zeta. rewrite (Z.mod_small v) by lia. destruct (v <? _); [done|]. unfold u32.
      replace (v - 2 ^ 64) with (v + (- 2 ^ 32) * 2 ^ 32) by lia. by rewrite Z_mod_plus_full. }
    rewrite s32_u32; [by apply u64_s64|]. unfold s64, swrap. cbv zeta. rewrite (Z.mod_small v) by lia. change (2 ^ (64 - 1)) with (2 ^ 63).
    destruct (Z.ltb_spec v (2 ^ 63)); lia. }
  destruct ((r_type =? R_X86_64_PC32) || (r_type =? R_X86_64_PLT32)) eqn:E; [|done]. intros _ Hf. split; [|by apply only_store32].
  rewrite load32_store32_eq. rewrite u32_idem. rewrite s32_u32 by done.
  transitivity (u64 (u64 (s64 patch) + (s64 v - s64 patch))); [by rewrite u64_s64|]. unfold u64 at 1 2. rewrite Zplus_mod_idemp_l.
  replace (s64 patch + (s64 v - s64 patch)) with (s64 v) by lia. by apply u64_s64.
Qed.

(** ** Symbols *)

Section resolve.
Context {C : Type}.
Implicit Types k : kernel C.

Lemma set_k_mem_id k : set_k_mem (k_mem k) k = k.
Proof. by destruct k as [[[] ? ? ? ? ?] ? ? ? ?]. Qed.
Lemma set_k_syms_id k : set_k_syms (k_syms k) k = k.
Proof. by destruct k as [[[] ? ? ? ? ?] ? ? ? ?]. Qed.
Lemma in_mem_ok {X} (f : M memory X) k x m' : f (k_mem k) = Ok (x, m') → in_mem f k = Ok (x, set_k_mem m' k).
Proof. intros E. unfold in_mem, zoom. by rewrite E. Qed.
Lemma in_vfs_ok {X} (f : M (vfs C) X) k x v' : f (k_vfs k) = Ok (x, v') → in_vfs f k = Ok (x, set_k_vfs v' k).
Proof. intros E. unfold in_vfs, zoom. by rewrite E. Qed.
Lemma in_syms_ok {X} (f : M modsym X) k x s' : f (k_syms k) = Ok (x, s') → in_syms f k = Ok (x, set_k_syms s' k).
Proof. intros E. unfold in_syms, zoom. by rewrite E. Qed.

(** An address of the kernel, or else of a module loaded before. *)
Definition resolve (addr : Z → Z) (l : list (list Z * Z)) (s : list Z) : Z :=
  let a := from_option addr 0 (name_index s ksym_names) in if a =? 0 then assoc s l else a.
Definition nonzero (a : Z) : option Z := if a =? 0 then None else Some a.

Lemma mod_resolve_sym_spec ctl b0 e k A l addr fuel image ehdr shdrs sym strtab s :
  table_ok ctl b0 e (k_syms k) A l → Forall (λ p, length p.1 < fuel)%nat l → (length s < fuel)%nat →
  (st_shndx (k_mem k) sym = SHN_UNDEF → cstr (k_mem k) (u64 (strtab + st_name (k_mem k) sym)) s) →
  mod_resolve_sym addr fuel image ehdr shdrs sym strtab k = Ok (
    let ndx := st_shndx (k_mem k) sym in
    if decide (ndx = SHN_UNDEF) then nonzero (resolve addr l s)
    else if decide (ndx = SHN_ABS) then Some (st_value (k_mem k) sym)
    else if decide (ndx < e_shnum (k_mem k) ehdr)
    then Some (u64 (image + sh_addr (k_mem k) (shdr shdrs ndx) + st_value (k_mem k) sym)) else None, k).
Proof.
  intros HT Hall Hs Hc. unfold mod_resolve_sym. mstep. cbv zeta. destruct (Z.eqb_spec (st_shndx (k_mem k) sym) SHN_UNDEF) as [E|N].
  - specialize (Hc E). rewrite decide_True by done. mstep with (in_mem_ok _ k _ _ (ksym_lookup_spec addr _ _ _ Hc)). rewrite set_k_mem_id.
    unfold resolve, nonzero. cbv zeta. destruct (Z.eqb_spec (from_option addr 0 (name_index s ksym_names)) 0) as [Ez|Ez].
    + assert (Hc' : cstr (sy_mem (k_syms k)) (u64 (strtab + st_name (k_mem k) sym)) s) by done.
      mstep with (in_syms_ok _ k _ _ (modsym_lookup_spec ctl b0 e (k_syms k) A l _ s fuel HT Hc' Hs Hall)). rewrite set_k_syms_id.
      by destruct (assoc s l =? 0).
    + mstep. by rewrite (proj2 (Z.eqb_neq _ 0)) by done.
  - rewrite decide_False by done. destruct (Z.eqb_spec (st_shndx (k_mem k) sym) SHN_ABS); [by rewrite decide_True by done|].
    rewrite decide_False by done. destruct (Z.leb_spec (e_shnum (k_mem k) ehdr) (st_shndx (k_mem k) sym)).
    + by rewrite decide_False by lia.
    + by rewrite decide_True by lia.
Qed.
End resolve.

(** ** Files that are not modules *)

Lemma load8_store_bytes m a l b :
  load8 (store_bytes m a l) b =
    if decide (a ≤ b < a + Z.of_nat (length l)) then u8 (default 0 (l !! Z.to_nat (b - a))) else load8 m b.
Proof.
  revert m a. induction l as [|c l IH]; intros m a; cbn [store_bytes length]; [by rewrite decide_False by lia|].
  rewrite IH. destruct (decide (a = b)) as [->|Hne].
  - rewrite decide_False, decide_True by lia. rewrite load8_store8_eq, Z.sub_diag. done.
  - destruct (decide (a + 1 ≤ b < a + 1 + Z.of_nat (length l))).
    + rewrite decide_True by lia. replace (Z.to_nat (b - a)) with (S (Z.to_nat (b - (a + 1)))) by lia. done.
    + rewrite decide_False by lia. by apply load8_store8_ne.
Qed.

(** The check of the header looks at its 64 bytes only. *)
Lemma module_header_shift m1 m2 d1 d2 :
  (∀ i, 0 ≤ i < sizeof_Ehdr → load8 m1 (d1 + i) = load8 m2 (d2 + i)) → module_header m1 d1 = module_header m2 d2.
Proof.
  intros H. unfold sizeof_Ehdr in H.
  assert (HL : ∀ w o, 0 ≤ o → o + Z.of_nat w ≤ 64 → load w m1 (d1 + o) = load w m2 (d2 + o)).
  { intros w o H0 H1. apply load_shift. intros i Hi. rewrite <-!Z.add_assoc. apply H. lia. }
  unfold module_header, elf_magic, e_ident, Modsym.e_type, e_shoff, e_shnum, load16, load64.
  rewrite !(HL 2%nat), !(HL 8%nat) by lia. pose proof (H 0 ltac:(lia)) as H0. rewrite !Z.add_0_r in H0. rewrite H0, !H by lia. done.
Qed.

Section reject.
Context {C : Type}.

(** What the file systems answer for the file of a module. *)
Definition file_of (v : vfs C) (path : list Z) (size r : Z) (l : list Z) (v3 : vfs C) : Prop :=
  ∃ i inode v1 v2 st, vfs_get_root_mount v = Ok (Some i, v) ∧ vfs_path_to_inode (Some i) path v = Ok (inode, v1) ∧ inode ≠ 0 ∧
    vfs_stat (Some i) inode v1 = Ok ((0, Some st), v2) ∧ st_size st = size ∧ vfs_read (Some i) inode size 0 v2 = Ok ((r, l), v3).

(** A short read, a file without room for a header, or a wrong header. *)
Definition not_a_module (size r : Z) (l : list Z) : Prop :=
  u64 r ≠ size ∨ size < sizeof_Ehdr ∨ r = Z.of_nat (length l) ∧ module_header (store_bytes ∅ 0 l) 0 = false.

Lemma elf_load_module_rejects_spec ctl b0 e k bs A addr fuel path size r l v3 :
  heap ctl b0 e (k_mem k) bs A → file_of (k_vfs k) path size r l v3 → 0 < size ≤ 2 ^ 32 → not_a_module size r l →
  ∃ k' bs', elf_load_module ctl addr fuel path k = Ok (None, k') ∧ heap ctl b0 e (k_mem k') bs' A ∧
    ∀ a, owned A a → load8 (k_mem k') a = load8 (k_mem k) a.
Proof.
  intros Hh (i & inode & v1 & v2 & st & E1 & E2 & Hin & E3 & Esz & E4) Hsz Hbad. unfold elf_load_module.
  mstep with (in_vfs_ok _ k _ _ E1). replace (set_k_vfs (k_vfs k) k) with k by (by destruct k).
  mstep with (in_vfs_ok _ k _ _ E2). rewrite (proj2 (Z.eqb_neq inode 0)) by done.
  mstep with (in_vfs_ok _ (set_k_vfs v1 k) _ _ E3). cbn [fst snd Z.eqb negb]. rewrite Esz, (proj2 (Z.eqb_neq size 0)) by lia.
  set (k2 := set_k_vfs v2 (set_k_vfs v1 k)).
  destruct (tlsf_malloc_spec ctl b0 e _ bs A size Hh ltac:(lia)) as (p & m1 & Em & Hr).
  assert (Em' : malloc ctl size (k_mem k2) = Ok (p, m1)) by exact Em. mstep with (in_mem_ok _ k2 _ _ Em').
  destruct Hr as [(-> & -> & _)|(n & bs1 & Hn & HA & H1 & O1)].
  { rewrite Z.eqb_refl. eexists _, bs. splits; [done|done|]. done. }
  destruct (heap_fresh _ _ _ _ _ _ _ _ _ H1 HA Hn) as ((Hp0 & _ & _ & _ & Hap) & Hlo & Hhi). rewrite (proj2 (Z.eqb_neq p 0)) by done.
  set (k3 := set_k_mem m1 k2). unfold read_into. assert (E4' : vfs_read (Some i) inode size 0 (k_vfs k3) = Ok ((r, l), v3)) by exact E4.
  set (m2 := store_bytes m1 p (take (Z.to_nat size) l)). set (k4 := set_k_mem m2 (set_k_vfs v3 k3)).
  assert (Er : (r0 ← in_vfs (vfs_read (Some i) inode size 0); in_mem (modify (λ m, store_bytes m p (take (Z.to_nat size) r0.2)));; mret r0.1) k3 = Ok (r, k4)).
  { mstep with (in_vfs_ok _ k3 _ _ E4'). by mstep. }
  mstep with Er. assert (Hm4 : k_mem k4 = m2) by done.
  assert (Hlen : Z.of_nat (length (take (Z.to_nat size) l)) ≤ size) by (rewrite length_take; lia).
  assert (Hw : ∀ a, ¬ (p ≤ a < p + n) → load8 m2 a = load8 m1 a) by (intros a Ha; unfold m2; rewrite load8_store_bytes, decide_False by lia; done).
  assert (H2 : heap ctl b0 e m2 bs1 (<[p := n]> A)).
  { eapply heap_write; [exact H1|]. intros a Ha. apply Hw. apply (Ha p n), lookup_insert_eq. }
  assert (∃ k' bs', (in_mem (free ctl p);; mret None) k4 = Ok (@None module_load_info, k') ∧ heap ctl b0 e (k_mem k') bs' A ∧
    ∀ a, owned A a → load8 (k_mem k') a = load8 (k_mem k) a) as Hrel.
  { destruct (tlsf_free_spec ctl b0 e m2 bs1 _ p n H2 (lookup_insert_eq _ _ _)) as (m3 & bs3 & Ef & H3 & O3).
    rewrite delete_insert_id in H3, O3 by done. exists (set_k_mem m3 k4), bs3.
    assert (Ef' : free ctl p (k_mem k4) = Ok (tt, m3)) by exact Ef. split; [by mstep with (in_mem_ok _ k4 _ _ Ef')|]. split; [exact H3|].
    intros a Ha. change (k_mem (set_k_mem m3 k4)) with m3. rewrite (only_owned _ _ _ _ O3 Ha). destruct Ha as (q & t & Hq & Hin').
    rewrite Hw by (destruct (Hap q t Hq); lia). apply (only_owned _ _ _ _ O1). by exists q, t. }
  destruct (Z.eqb_spec (u64 r) size) as [Eu|]; cbn [negb]; [|exact Hrel].
  destruct (Z.ltb_spec size sizeof_Ehdr) as [|Hge]; [exact Hrel|]. mstep.
  destruct Hbad as [?|[?|[Elen Hhd]]]; [done|lia|].
  assert (size ≤ Z.of_nat (length l)) as Hl by (rewrite <-Eu, Elen; apply Z.mod_le; lia).
  rewrite (module_header_shift (k_mem k4) (store_bytes ∅ 0 l) p 0), Hhd; [exact Hrel|].
  intros j Hj. rewrite Hm4. unfold m2. rewrite !load8_store_bytes, !decide_True by (rewrite ?length_take; lia).
  replace (p + j - p) with j by lia. replace (0 + j - 0) with j by lia. by rewrite lookup_take_lt by lia.
Qed.
End reject.

(** ** The theorems *)

(** C32: The sections of a module file are laid out at offsets that are multiples of their alignments, one behind the
    other and inside the image; after clearing and copying, the bytes of the image at these offsets are those of the
    file, or zero for a section without contents, and nothing outside of the image has changed.  The image is apart
    from the file, sections and alignments are below 2^32 and the contents are inside the file (which the code does
    not check). *)
Theorem module_image_correct buf len image size shdrs (n : nat) m m1 m2 :
  Z.of_nat n < 2 ^ 16 →
  (∀ j, 0 ≤ j < Z.of_nat n → allocated m (shdr shdrs j) = true → section_ok m (shdr shdrs j)) →
  place_sections n shdrs 0 0 m = (size, m1) → mem_agree buf (buf + len) m2 m1 →
  file_ok buf len image size shdrs (Z.of_nat n) m2 →
  let m3 := copy_sections n buf image shdrs 0 (memset_z m2 image 0 size) in
  only (in_image image size) m2 m3 ∧ laid_out m m3 shdrs 0 (Z.of_nat n) 0 size ∧
  ∀ j o, 0 ≤ j < Z.of_nat n → allocated m (shdr shdrs j) = true → 0 ≤ o < sh_size m (shdr shdrs j) →
    load8 m3 (image + sh_addr m3 (shdr shdrs j) + o) = section_byte buf m2 (shdr shdrs j) o.
Proof. apply module_image_spec. Qed.

(** A file at 0x1000 with two section headers at its start: 5 bytes, and 3
    bytes with alignment 16. *)
Definition sample_file : memory :=
  let section m s size align := store64 (store64 (store64 (store64 m (s + 8) 2) (s + 24) 128) (s + 32) size) (s + 48) align in
  section (section (store_bytes ∅ (0x1000 + 128) [1; 2; 3; 4; 5]) 0x1000 5 0) (0x1000 + 64) 3 16.
Definition sample_layout : memory := (place_sections 2 0x1000 0 0 sample_file).2.

Lemma module_image_correct_witness :
  let m3 := copy_sections 2 0x1000 0x2000 0x1000 0 (memset_z sample_layout 0x2000 0 19) in
  load8 m3 (0x2000 + sh_addr m3 (shdr 0x1000 1) + 2) = section_byte 0x1000 sample_layout (shdr 0x1000 1) 2.
Proof.
  apply (module_image_correct 0x1000 133 0x2000 19 0x1000 2 sample_file sample_layout sample_layout).
  - done.
  - intros j Hj _. assert (j = 0 ∨ j = 1) as [-> | ->] by lia.
    + split; [left; by vm_compute|by vm_compute].
    + split; [right; exists 4; split; [lia|by vm_compute]|by vm_compute].
  - assert ((place_sections 2 0x1000 0 0 sample_file).1 = 19) as <- by (vm_compute; reflexivity). exact (surjective_pairing _).
  - done.
  - split; [lia|lia|by vm_compute|]. intros j Hj _ _. assert (j = 0 ∨ j = 1) as [-> | ->] by lia; by vm_compute.
  - lia.
  - by vm_compute.
  - by vm_compute.
Defined.

(** C31: A relocation of one of the five supported types stores a field from which the processor computes exactly the
    address S + A, when a field of that type can express it, and changes no byte outside of the field. *)
Theorem mod_apply_rela_correct m patch S A r_type :
  0 ≤ patch < 2 ^ 64 → rela_width r_type ≠ 0 → rela_fits patch (u64 (S + A)) r_type →
  rela_target (mod_apply_rela m patch S A r_type) patch r_type = u64 (S + A) ∧
  only (λ b, patch ≤ b < patch + rela_width r_type) m (mod_apply_rela m patch S A r_type).
Proof. apply mod_apply_rela_spec. Qed.

(** A call backwards, with the addend -4 of the compiler. *)
Lemma mod_apply_rela_correct_witness :
  rela_target (mod_apply_rela ∅ 0x2000 0x1004 (2 ^ 64 - 4) R_X86_64_PLT32) 0x2000 R_X86_64_PLT32 = 0x1000.
Proof.
  destruct (mod_apply_rela_correct ∅ 0x2000 0x1004 (2 ^ 64 - 4) R_X86_64_PLT32) as [E _]; [lia|done|by vm_compute|].
  rewrite E. reflexivity.
Defined.

(** A symbol of a module resolves to its section's place in the image, to its absolute value, or - when undefined -
    to the kernel's function of that name if there is one, otherwise to the first module symbol of that name; resolving
    fails exactly when none exists or the section index is out of range, and changes nothing. *)
Theorem mod_resolve_sym_correct {C} ctl b0 e (k : kernel C) A l addr fuel image ehdr shdrs sym strtab s :
  table_ok ctl b0 e (k_syms k) A l → Forall (λ p, length p.1 < fuel)%nat l → (length s < fuel)%nat →
  (st_shndx (k_mem k) sym = SHN_UNDEF → cstr (k_mem k) (u64 (strtab + st_name (k_mem k) sym)) s) →
  mod_resolve_sym addr fuel image ehdr shdrs sym strtab k = Ok (
    let ndx := st_shndx (k_mem k) sym in
    if decide (ndx = SHN_UNDEF) then nonzero (resolve addr l s)
    else if decide (ndx = SHN_ABS) then Some (st_value (k_mem k) sym)
    else if decide (ndx < e_shnum (k_mem k) ehdr)
    then Some (u64 (image + sh_addr (k_mem k) (shdr shdrs ndx) + st_value (k_mem k) sym)) else None, k).
Proof. apply mod_resolve_sym_spec. Qed.

(** The kernel with the memory [m], a RAM file system as root and no symbols. *)
Definition kernel_of {C} (m : memory) (v : vfs C) : kernel C :=
  mkKernel (mkVmm (mkPmm m 0 0 0 0 0 []) 0 0 0 [] []) v 0 0 0.

(** An undefined symbol in an allocation, with the name "free" behind the
    fields that are used. *)
Definition sample_symbol : list Z := [0; 0; 0; 0; 0; 0; 0; 0] ++ lit "free" ++ [0].

Lemma client_bytes_ok : ∃ n, ∀ l, Z.of_nat (length l) ≤ 24 →
  table_ok 0x10000 sample_base sample_end (mkModsym (store_bytes heap_100 ptr_100 l) 0 0 0) {[ptr_100 := n]} [].
Proof.
  destruct heap_100_ok as (n & bs & H). destruct (heap_apart _ _ _ _ _ _ ptr_100 n H (lookup_singleton_eq _ _)) as (_ & Hn & _).
  exists n. intros l Hl. split; cbn [sy_mem sym_table sym_count sym_cap length]; [|lia|by left|done]. exists bs. eapply heap_write; [exact H|].
  intros a Ha. specialize (Ha ptr_100 n (lookup_singleton_eq _ _)). by rewrite load8_store_bytes, decide_False by lia.
Qed.

Lemma mod_resolve_sym_correct_witness :
  let k := kernel_of (store_bytes heap_100 ptr_100 sample_symbol) (mkVfs (C := unit) [] [] []) in
  mod_resolve_sym (λ i, 0x5000 + i) 20 0 0 0 ptr_100 (ptr_100 + 8) k = Ok (Some 0x5005, k).
Proof.
  intros k. destruct client_bytes_ok as (n & HT). specialize (HT sample_symbol ltac:(vm_compute; discriminate)).
  rewrite (mod_resolve_sym_correct 0x10000 sample_base sample_end k _ [] (λ i, 0x5000 + i) 20 0 0 0 ptr_100 (ptr_100 + 8) (lit "free") HT);
    [|constructor|vm_compute; lia|].
  - apply (f_equal (λ x, Ok (x, k))). vm_compute. reflexivity.
  - intros _. by vm_compute.
Defined.

(** C40: When the file system of the root mount finds a file of at most 2^32 bytes at the path and answers stat, and the file
    cannot be read in full, has no room for a header, or is not a 64-bit relocatable ELF file with sections,
    [elf_load_module] returns an error; the heap is well-formed with the same allocations as before, so nothing is leaked,
    and their contents are unchanged. *)
Theorem elf_load_module_rejects {C} ctl b0 e (k : kernel C) bs A addr fuel path size r l v3 :
  heap ctl b0 e (k_mem k) bs A → file_of (k_vfs k) path size r l v3 → 0 < size ≤ 2 ^ 32 → not_a_module size r l →
  ∃ k' bs', elf_load_module ctl addr fuel path k = Ok (None, k') ∧ heap ctl b0 e (k_mem k') bs' A ∧
    ∀ a, owned A a → load8 (k_mem k') a = load8 (k_mem k) a.
Proof. apply elf_load_module_rejects_spec. Qed.

(** A file system with one file of 100 bytes. *)
Definition sample_ops : vfs_ops unit :=
  mkOps None None (Some (λ _ n _, mret (n, repeat 0 100))) None None (Some (λ _, mret 7)) None None None None
    (Some (λ i, mret (0, Some (mkStat i 100 VFS_TYPE_FILE)))) None None.
Definition sample_vfs : vfs unit := mkVfs [] [mkMount (mkFs 1 [] sample_ops) tt 0 0 0 0] [lit "/"].

Lemma elf_load_module_rejects_witness :
  ∃ k' bs', elf_load_module 0x10000 (λ i, i) 10 (lit "/m") (kernel_of new_heap sample_vfs) = Ok (None, k') ∧
    heap 0x10000 sample_base sample_end (k_mem k') bs' ∅.
Proof.
  destruct (elf_load_module_rejects 0x10000 sample_base sample_end (kernel_of new_heap sample_vfs) _ ∅ (λ i, i) 10 (lit "/m") 100 100
    (repeat 0 100) sample_vfs new_heap_ok) as (k' & bs' & E & H & _).
  - exists 0, 7, sample_vfs, sample_vfs, (mkStat 7 100 VFS_TYPE_FILE). splits; [by vm_compute|by vm_compute|lia|by vm_compute|done|by vm_compute].
  - lia.
  - right. right. by vm_compute.
  - exists k', bs'. split; [exact E|exact H].
Defined.
