(* ===== verification/Exfat.v ===== *)
(** * exFAT

    Model of src/fs/exfat/exfat.c on a disk of 512-byte sectors, reached through
    the loops of [disk_read_callback] and [disk_write_callback]
    (src/drivers/storage/sata.c).  The state is the contents of the disk by byte;
    buffers, directory entries and the boot sector are memories of their own
    with addresses from 0.  Parameters stand for what the code gets from outside:
    [sector_ok] tells for which sectors the device's callback succeeds,
    [palloc_ok] whether there is a page when [depth] pages are held already, and
    [junk] what a fresh page or an uninitialised variable holds.  An access
    beyond a buffer is [fault]. *)
From Stdlib Require Import ZArith Lia Ascii String.
From stdpp Require Import base option gmap list.
From S2P Require Import Prelude Memory Pmm Print.

Definition SECTOR_SIZE : Z := 512.
Definition EXFAT_TYPE_EOD : Z := 0x00.
Definition EXFAT_TYPE_ALLOCATION : Z := 0x81.
Definition EXFAT_TYPE_UPCASE : Z := 0x82.
Definition EXFAT_TYPE_VOLUME_LABEL : Z := 0x83.
Definition EXFAT_TYPE_FILE : Z := 0x85.
Definition EXFAT_TYPE_STREAM : Z := 0xC0.
Definition EXFAT_TYPE_NAME : Z := 0xC1.
Definition EXFAT_ATTR_DIRECTORY : Z := 0x10.
Definition EXFAT_ATTR_ARCHIVE : Z := 0x20.
Definition EXFAT_FAT_FREE : Z := 0.
Definition EXFAT_FAT_EOC : Z := 0xFFFFFFFF.
Definition sizeof_dentry : Z := 32.

(** ** Fields of the structures on disk *)

(** [exfat_file_dentry_t] and [exfat_dentry_t.type] *)
Definition ent_type (e : memory) : Z := load8 e 0.
Definition secondary_count (e : memory) : Z := load8 e 1.
Definition file_attributes (e : memory) : Z := load16 e 4.
(** [exfat_stream_dentry_t] *)
Definition stream_flags (e : memory) : Z := load8 e 1.
Definition first_cluster_of (e : memory) : Z := load32 e 20.
Definition data_length (e : memory) : Z := load64 e 24.
(** [exfat_name_dentry_t.name[i]] *)
Definition name_unit (e : memory) (i : Z) : Z := load16 e (2 + 2 * i).

(** [exfat_fs_t], without the device, which is the state *)
Record exfat_fs := mkExfat {
  bytes_per_sector : Z; sectors_per_cluster : Z; bytes_per_cluster : Z; fat_offset : Z; fat_length : Z;
  cluster_heap_offset : Z; cluster_count : Z; root_dir_cluster : Z; num_fats : Z }.
(** [exfat_file_t], without the pointer to the file system *)
Record exfat_file := mkFile {
  first_cluster : Z; file_size : Z; position : Z; current_cluster : Z; cluster_offset : Z; no_fat_chain : bool;
  dir_cluster : Z; dir_contiguous : bool; dir_index : Z }.

(** [memcpy] between two memories. *)
Fixpoint blit (n : nat) (dst : memory) (d : Z) (src : memory) (s : Z) : memory :=
  match n with
  | O => dst
  | S n => blit n (store8 dst d (load8 src s)) (d + 1) src (s + 1)
  end.

Section exfat.
Context (sector_ok : Z → bool) (palloc_ok : nat → bool) (junk : memory) (partition_offset : Z).

(** ** Sectors *)

Fixpoint read_loop (n : nat) (sector : Z) (buf : memory) (off : Z) : M memory (Z * memory) :=
  match n with
  | O => mret (0, buf)
  | S n =>
      let lba := u64 (partition_offset + sector) in
      if negb (sector_ok lba) then mret (-1, buf) else
      dsk ← gets id;
      read_loop n (sector + 1) (blit 512 buf off dsk (lba * SECTOR_SIZE)) (off + SECTOR_SIZE)
  end.
(** [size] is the size of the buffer. *)
Definition exfat_read_sectors (sector count : Z) (buf : memory) (size : Z) : M memory (Z * memory) :=
  if size <? count * SECTOR_SIZE then fault else read_loop (Z.to_nat count) sector buf 0.

Fixpoint write_loop (n : nat) (sector : Z) (buf : memory) (off : Z) : M memory Z :=
  match n with
  | O => mret 0
  | S n =>
      let lba := u64 (partition_offset + sector) in
      if negb (sector_ok lba) then mret (-1) else
      modify (λ dsk, blit 512 dsk (lba * SECTOR_SIZE) buf off);;
      write_loop n (sector + 1) buf (off + SECTOR_SIZE)
  end.
(** The sectors are taken from offset [off] of the buffer. *)
Definition exfat_write_sectors (sector count : Z) (buf : memory) (off : Z) : M memory Z := write_loop (Z.to_nat count) sector buf off.

(** ** The file allocation table *)

Definition fat_sector (fs : exfat_fs) (cluster : Z) : Z := u64 (fat_offset fs + cluster * 4 / bytes_per_sector fs).
Definition fat_byte (fs : exfat_fs) (cluster : Z) : Z := (cluster * 4) `mod` bytes_per_sector fs.

Definition exfat_get_fat_entry (depth : nat) (fs : exfat_fs) (cluster : Z) : M memory Z :=
  if negb (palloc_ok depth) then mret EXFAT_FAT_EOC else
  r ← exfat_read_sectors (fat_sector fs cluster) 1 junk PAGE_SIZE;
  if negb (r.1 =? 0) then mret EXFAT_FAT_EOC else
  if PAGE_SIZE <? fat_byte fs cluster + 4 then fault else mret (load32 r.2 (fat_byte fs cluster)).

Definition exfat_set_fat_entry (depth : nat) (fs : exfat_fs) (cluster value : Z) : M memory Z :=
  if negb (palloc_ok depth) then mret (-1) else
  r ← exfat_read_sectors (fat_sector fs cluster) 1 junk PAGE_SIZE;
  if negb (r.1 =? 0) then mret (-1) else
  if PAGE_SIZE <? fat_byte fs cluster + 4 then fault else
  exfat_write_sectors (fat_sector fs cluster) 1 (store32 r.2 (fat_byte fs cluster) value) 0.

(** The result of the read is not tested. *)
Definition exfat_set_fat_entry_raw (depth : nat) (fat_off bps cluster value : Z) : M memory Z :=
  let sector := u64 (fat_off + cluster * 4 / bps) in
  let off := (cluster * 4) `mod` bps in
  if negb (palloc_ok depth) then mret (-1) else
  r ← exfat_read_sectors sector 1 junk PAGE_SIZE;
  if PAGE_SIZE <? off + 4 then fault else
  exfat_write_sectors sector 1 (store32 r.2 off value) 0.

Definition exfat_cluster_to_sector (fs : exfat_fs) (cluster : Z) : Z :=
  if cluster <? 2 then 0 else u64 (cluster_heap_offset fs + (cluster - 2) * sectors_per_cluster fs).

(** ** Directory entries *)

(** The cluster of entry [ent_off] counted from the start of [curr_clus], and
    its index there; [None] behind the end of the chain.  [fuel] is enough when
    it is above [ent_off] and a cluster has an entry. *)
Fixpoint dir_seek (fuel : nat) (depth : nat) (fs : exfat_fs) (contiguous : bool) (curr_clus ent_off : Z) : M memory (option (Z * Z)) :=
  let ents_per_clus := bytes_per_cluster fs / sizeof_dentry in
  if ent_off <? ents_per_clus then mret (Some (curr_clus, ent_off)) else
  match fuel with
  | O => spin
  | S fuel =>
      if contiguous then dir_seek fuel depth fs contiguous (u32 (curr_clus + 1)) (ent_off - ents_per_clus)
      else next ← exfat_get_fat_entry depth fs curr_clus;
           if EXFAT_FAT_EOC <=? next then mret None else dir_seek fuel depth fs contiguous next (ent_off - ents_per_clus)
  end.

Definition dir_sector (fs : exfat_fs) (clus ent_off : Z) : Z :=
  u64 (exfat_cluster_to_sector fs clus + ent_off * sizeof_dentry / bytes_per_sector fs).
Definition dir_byte (fs : exfat_fs) (ent_off : Z) : Z := (ent_off * sizeof_dentry) `mod` bytes_per_sector fs.

(** The result, and the entry: [old] when there is an error. *)
Definition exfat_read_dir_entry (depth : nat) (fs : exfat_fs) (cluster : Z) (contiguous : bool) (index : Z) (old : memory)
    : M memory (Z * memory) :=
  loc ← dir_seek (S (Z.to_nat index)) depth fs contiguous cluster index;
  match loc with
  | None => mret (-1, old)
  | Some (clus, ent_off) =>
      if negb (palloc_ok depth) then mret (-1, old) else
      r ← exfat_read_sectors (dir_sector fs clus ent_off) 1 junk PAGE_SIZE;
      if negb (r.1 =? 0) then mret (-1, old) else
      if PAGE_SIZE <? dir_byte fs ent_off + sizeof_dentry then fault else
      mret (0, blit 32 ∅ 0 r.2 (dir_byte fs ent_off))
  end.

Definition exfat_write_dir_entry (depth : nat) (fs : exfat_fs) (cluster : Z) (contiguous : bool) (index : Z) (entry : memory)
    : M memory Z :=
  loc ← dir_seek (S (Z.to_nat index)) depth fs contiguous cluster index;
  match loc with
  | None => mret (-1)
  | Some (clus, ent_off) =>
      if negb (palloc_ok depth) then mret (-1) else
      r ← exfat_read_sectors (dir_sector fs clus ent_off) 1 junk PAGE_SIZE;
      if negb (r.1 =? 0) then mret (-1) else
      if PAGE_SIZE <? dir_byte fs ent_off + sizeof_dentry then fault else
      exfat_write_sectors (dir_sector fs clus ent_off) 1 (blit 32 r.2 (dir_byte fs ent_off) entry 0) 0
  end.

(** ** The allocation bitmap *)

(** The entry of the bitmap in the root directory: first cluster and size. *)
Fixpoint bitmap_search (n : nat) (depth : nat) (fs : exfat_fs) (index : Z) : M memory (option (Z * Z)) :=
  match n with
  | O => mret None
  | S n =>
      r ← exfat_read_dir_entry depth fs (root_dir_cluster fs) false index junk;
      if negb (r.1 =? 0) then mret None else
      if ent_type r.2 =? EXFAT_TYPE_EOD then mret None else
      if ent_type r.2 =? EXFAT_TYPE_ALLOCATION then mret (Some (load32 r.2 20, load64 r.2 24)) else
      bitmap_search n depth fs (index + 1)
  end.
Definition exfat_get_bitmap_info (depth : nat) (fs : exfat_fs) : M memory (option (Z * Z)) := bitmap_search 128 depth fs 0.

(** The first clear bit of the [n] bytes from [i] on. *)
Fixpoint clear_bit (bits : nat) (byte bit : Z) : option Z :=
  match bits with
  | O => None
  | S bits => if Z.land byte (Z.shiftl 1 bit) =? 0 then Some bit else clear_bit bits byte (bit + 1)
  end.
Fixpoint clear_byte (n : nat) (buf : memory) (i : Z) : option (Z * Z) :=
  match n with
  | O => None
  | S n =>
      match (if load8 buf i =? 0xFF then None else clear_bit 8 (load8 buf i) 0) with
      | Some bit => Some (i, bit)
      | None => clear_byte n buf (i + 1)
      end
  end.

(** The loop over the clusters of the bitmap; a cluster is read into a single
    page.  [depth] counts the scratch page. *)
Fixpoint allocate_loop (fuel : nat) (depth : nat) (fs : exfat_fs) (curr_clus clus_idx : Z) (buf : memory) : M memory (option Z) :=
  match fuel with
  | O => spin
  | S fuel =>
      if EXFAT_FAT_EOC <=? curr_clus then mret None else
      let sector := exfat_cluster_to_sector fs curr_clus in
      r ← exfat_read_sectors sector (sectors_per_cluster fs) buf PAGE_SIZE;
      if negb (r.1 =? 0) then mret None else
      match clear_byte (Z.to_nat (bytes_per_cluster fs)) r.2 0 with
      | Some (i, bit) =>
          let found := u32 ((clus_idx * bytes_per_cluster fs + i) * 8 + bit + 2) in
          if cluster_count fs <=? u32 (found - 2) then mret None else
          let buf := store8 r.2 i (Z.lor (load8 r.2 i) (Z.shiftl 1 bit)) in
          exfat_write_sectors (u64 (sector + i / bytes_per_sector fs)) 1 buf (Z.land i (Z.lnot (bytes_per_sector fs - 1)));;
          exfat_set_fat_entry (pred depth) fs found EXFAT_FAT_EOC;;
          mret (Some found)
      | None =>
          next ← exfat_get_fat_entry depth fs curr_clus;
          allocate_loop fuel depth fs next (u32 (clus_idx + 1)) r.2
      end
  end.
(** [None] is the result [-1]. *)
Definition exfat_allocate_cluster (fuel : nat) (depth : nat) (fs : exfat_fs) : M memory (option Z) :=
  info ← exfat_get_bitmap_info depth fs;
  match info with
  | None => mret None
  | Some (bitmap_cluster, _) =>
      if negb (palloc_ok depth) then mret None else
      allocate_loop fuel (S depth) fs bitmap_cluster 0 junk
  end.

Definition exfat_update_bitmap (depth : nat) (fs : exfat_fs) (cluster : Z) (allocated : bool) : M memory Z :=
  info ← exfat_get_bitmap_info depth fs;
  match info with
  | None => mret (-1)
  | Some (bitmap_cluster, _) =>
      let cluster_idx := u32 (cluster - 2) in
      let byte_idx := cluster_idx / 8 in
      let bit_idx := cluster_idx `mod` 8 in
      let off := byte_idx `mod` bytes_per_sector fs in
      let sector := u64 (exfat_cluster_to_sector fs bitmap_cluster + byte_idx / bytes_per_sector fs) in
      if negb (palloc_ok depth) then mret (-1) else
      r ← exfat_read_sectors sector 1 junk PAGE_SIZE;
      if negb (r.1 =? 0) then mret (-1) else
      if PAGE_SIZE <=? off then fault else
      let byte := load8 r.2 off in
      let byte := if allocated then Z.lor byte (Z.shiftl 1 bit_idx) else Z.land byte (Z.lnot (Z.shiftl 1 bit_idx)) in
      exfat_write_sectors sector 1 (store8 r.2 off byte) 0
  end.

Fixpoint free_loop (n : nat) (depth : nat) (fs : exfat_fs) (contiguous : bool) (count i curr : Z) : M memory unit :=
  match n with
  | O => mret tt
  | S n =>
      next ← (if contiguous then mret (u32 (curr + 1)) else exfat_get_fat_entry depth fs curr);
      exfat_set_fat_entry depth fs curr EXFAT_FAT_FREE;;
      exfat_update_bitmap depth fs curr false;;
      if contiguous then
        if (if count =? 0 then 1 else count) <=? i + 1 then mret tt else free_loop n depth fs contiguous count (i + 1) next
      else
        if EXFAT_FAT_EOC <=? next then mret tt else free_loop n depth fs contiguous count (i + 1) next
  end.
Definition exfat_free_chain (depth : nat) (fs : exfat_fs) (first : Z) (contiguous : bool) (size : Z) : M memory Z :=
  if first <? 2 then mret 0 else
  let count := u32 (u64 (size + bytes_per_cluster fs - 1) / bytes_per_cluster fs) in
  let times := if (count =? 0) && (size =? 0) then 1 else count in
  free_loop (Z.to_nat times) depth fs contiguous count 0 first;;
  mret 0.

(** ** Checksums *)

Definition checksum_step (checksum byte : Z) : Z :=
  u16 (Z.lor (Z.shiftl checksum 15) (Z.shiftr checksum 1) + byte).
Definition exfat_calc_checksum (data : memory) (size : Z) : Z :=
  fold_left (λ c i, if (i =? 2) || (i =? 3) then c else checksum_step c (load8 data i)) (seqZ 0 size) 0.

(** The sum over the entries [i], ... of a file; [None] for an error. *)
Fixpoint sum_entries (n : nat) (depth : nat) (fs : exfat_fs) (dir : Z) (contiguous : bool) (index i checksum : Z) : M memory (option Z) :=
  match n with
  | O => mret (Some checksum)
  | S n =>
      r ← exfat_read_dir_entry depth fs dir contiguous (u32 (index + i)) junk;
      if negb (r.1 =? 0) then mret None else
      let checksum := fold_left (λ c j, if (i =? 0) && ((j =? 2) || (j =? 3)) then c else checksum_step c (load8 r.2 j)) (seqZ 0 32) checksum in
      sum_entries n depth fs dir contiguous index (i + 1) checksum
  end.
Definition exfat_update_checksum (depth : nat) (fs : exfat_fs) (dir : Z) (contiguous : bool) (index : Z) : M memory Z :=
  r ← exfat_read_dir_entry depth fs dir contiguous index junk;
  if negb (r.1 =? 0) then mret (-1) else
  sum ← sum_entries (Z.to_nat (1 + secondary_count r.2)) depth fs dir contiguous index 0 0;
  match sum with
  | None => mret (-1)
  | Some checksum => exfat_write_dir_entry depth fs dir contiguous index (store16 r.2 2 checksum)
  end.

(** ** Names *)

(** [exfat_utf16_to_ascii] on the 15 units of a name entry: the characters, of
    which at most [max_len - 1].  The array has no terminator of its own: [None]
    when the loop would go on behind its end. *)
Fixpoint utf16_to_ascii (units : list Z) (max_len : Z) : option (list Z) :=
  if max_len <=? 1 then Some [] else
  match units with
  | [] => None
  | u :: units => if u =? 0 then Some [] else cons (Z.land u 0xFF) <$> utf16_to_ascii units (max_len - 1)
  end.
Definition name_units (e : memory) : list Z := name_unit e <$> seqZ 0 15.

(** [exfat_ascii_to_utf16]: at most [max_chars] units; a character is signed. *)
Fixpoint ascii_to_utf16 (ascii : list Z) (max_chars : nat) : list Z :=
  match max_chars, ascii with
  | S n, c :: ascii => u16 (s8 c) :: ascii_to_utf16 ascii n
  | _, _ => []
  end.

Definition lower (c : Z) : Z := if (65 <=? c) && (c <=? 90) then c + 32 else c.
Fixpoint strcasecmp_simple (s1 s2 : list Z) : Z :=
  match s1, s2 with
  | c1 :: s1, c2 :: s2 =>
      if lower (s8 c1) =? lower (s8 c2) then strcasecmp_simple s1 s2 else lower (s8 c1) - lower (s8 c2)
  | [], [] => 0
  | c1 :: _, [] => s8 c1
  | [], c2 :: _ => - s8 c2
  end.

(** The name of the file at [index]: the text of its name entries [i], .... *)
Fixpoint read_names (n : nat) (depth : nat) (fs : exfat_fs) (dir : Z) (contiguous : bool) (index i : Z) (name : list Z) : M memory (list Z) :=
  match n with
  | O => mret name
  | S n =>
      r ← exfat_read_dir_entry depth fs dir contiguous (u32 (index + 2 + i)) junk;
      if negb (r.1 =? 0) then mret name else
      if ent_type r.2 =? EXFAT_TYPE_NAME then
        match utf16_to_ascii (name_units r.2) (256 - Z.of_nat (length name)) with
        | None => fault
        | Some text => read_names n depth fs dir contiguous index (i + 1) (name ++ text)
        end
      else read_names n depth fs dir contiguous index (i + 1) name
  end.

(** ** Files in a directory *)

(** The entries [index], ...: file entry, stream entry and index of the file of
    that name.  [fuel] bounds the number of entries looked at. *)
Fixpoint find_loop (fuel : nat) (depth : nat) (fs : exfat_fs) (dir : Z) (contiguous : bool) (name : list Z) (index : Z)
    : M memory (option (memory * memory * Z)) :=
  match fuel with
  | O => mret None
  | S fuel =>
      if 1024 <=? index then mret None else
      r ← exfat_read_dir_entry depth fs dir contiguous index junk;
      if negb (r.1 =? 0) then mret None else
      if ent_type r.2 =? EXFAT_TYPE_EOD then mret None else
      if ent_type r.2 =? EXFAT_TYPE_FILE then
        let sec_cnt := secondary_count r.2 in
        s ← exfat_read_dir_entry depth fs dir contiguous (index + 1) junk;
        if negb (s.1 =? 0) then mret None else
        if negb (ent_type s.2 =? EXFAT_TYPE_STREAM) then find_loop fuel depth fs dir contiguous name (index + 1) else
        temp_name ← read_names (Z.to_nat (sec_cnt - 1)) depth fs dir contiguous index 0 [];
        if strcasecmp_simple temp_name name =? 0 then mret (Some (r.2, s.2, index)) else
        find_loop fuel depth fs dir contiguous name (index + sec_cnt + 1)
      else find_loop fuel depth fs dir contiguous name (index + 1)
  end.
Definition exfat_find_file (depth : nat) (fs : exfat_fs) (dir : Z) (contiguous : bool) (name : list Z) :=
  find_loop 1024 depth fs dir contiguous name 0.

Definition exfat_open (depth : nat) (fs : exfat_fs) (path : list Z) : M memory (option exfat_file) :=
  let filename := match path with c :: p => if c =? ch "/" then p else path | [] => [] end in
  r ← exfat_find_file depth fs (root_dir_cluster fs) false filename;
  match r with
  | None => mret None
  | Some (_, se, di) =>
      mret (Some (mkFile (first_cluster_of se) (data_length se) 0 (first_cluster_of se) 0
                    (negb (Z.land (stream_flags se) 2 =? 0)) (root_dir_cluster fs) false di))
  end.

(** The loop that looks for [tot_ents] free entries; the result is [found_idx]. *)
Fixpoint free_entries (n : nat) (depth : nat) (fs : exfat_fs) (dir tot_ents idx found_idx free_cnt : Z) : M memory Z :=
  match n with
  | O => mret found_idx
  | S n =>
      r ← exfat_read_dir_entry depth fs dir false idx junk;
      if negb (r.1 =? 0) then mret found_idx else
      if (ent_type r.2 =? EXFAT_TYPE_EOD) || (Z.land (ent_type r.2) 0x80 =? 0) then
        let found_idx := if free_cnt =? 0 then idx else found_idx in
        if tot_ents <=? free_cnt + 1 then mret found_idx
        else free_entries n depth fs dir tot_ents (idx + 1) found_idx (free_cnt + 1)
      else free_entries n depth fs dir tot_ents (idx + 1) found_idx 0
  end.

Definition NO_INDEX : Z := 0xFFFFFFFF.
Definition file_entry (name_ents attr : Z) : memory :=
  store16 (store8 (store8 ∅ 0 EXFAT_TYPE_FILE) 1 (1 + name_ents)) 4 attr.
Definition name_entry (units : list Z) : memory :=
  fst (fold_left (λ '(e, i) u, (store16 e (2 + 2 * i) u, i + 1)) units (store8 ∅ 0 EXFAT_TYPE_NAME, 0)).

Fixpoint write_names (n : nat) (depth : nat) (fs : exfat_fs) (dir found_idx : Z) (name : list Z) (i : Z) : M memory unit :=
  match n with
  | O => mret tt
  | S n =>
      exfat_write_dir_entry depth fs dir false (u32 (found_idx + 2 + i)) (name_entry (ascii_to_utf16 name 15));;
      write_names n depth fs dir found_idx (drop 15 name) (i + 1)
  end.

(** What [exfat_create] and [exfat_mkdir] have in common: the entries of a new
    file, from the search for free ones on.  [None] when there are none. *)
Definition add_entries (depth : nat) (fs : exfat_fs) (dir : Z) (name : list Z) (attr : Z) (stream : memory) : M memory (option Z) :=
  let name_len := Z.of_nat (length name) in
  let name_ents := (name_len + 14) / 15 in
  let tot_ents := 2 + name_ents in
  found_idx ← free_entries 1024 depth fs dir tot_ents 0 NO_INDEX 0;
  if found_idx =? NO_INDEX then mret None else
  exfat_write_dir_entry depth fs dir false found_idx (file_entry name_ents attr);;
  exfat_write_dir_entry depth fs dir false (u32 (found_idx + 1)) stream;;
  write_names (Z.to_nat name_ents) depth fs dir found_idx name 0;;
  exfat_update_checksum depth fs dir false found_idx;;
  mret (Some found_idx).

Definition stream_entry (flags name_len first valid len : Z) : memory :=
  store64 (store32 (store64 (store8 (store8 (store8 ∅ 0 EXFAT_TYPE_STREAM) 1 flags) 3 name_len) 8 valid) 20 first) 24 len.

Definition exfat_create (depth : nat) (fs : exfat_fs) (dir : Z) (filename : list Z) : M memory (option exfat_file) :=
  r ← exfat_find_file depth fs dir false filename;
  match r with
  | Some _ => mret None
  | None =>
      idx ← add_entries depth fs dir filename EXFAT_ATTR_ARCHIVE (stream_entry 1 (Z.of_nat (length filename)) 0 0 0);
      match idx with
      | None => mret None
      | Some found_idx => mret (Some (mkFile 0 0 0 0 0 false dir false found_idx))
      end
  end.

(** [None] is the result [-1]; otherwise the cluster of the new directory. *)
Definition exfat_mkdir (fuel : nat) (depth : nat) (fs : exfat_fs) (dir : Z) (name : list Z) : M memory (option Z) :=
  r ← exfat_find_file depth fs dir false name;
  match r with
  | Some _ => mret None
  | None =>
      nc ← exfat_allocate_cluster fuel depth fs;
      match nc with
      | None => mret None
      | Some nc =>
          if negb (palloc_ok depth) then mret None else
          if PAGE_SIZE <? bytes_per_cluster fs then fault else
          exfat_write_sectors (exfat_cluster_to_sector fs nc) (sectors_per_cluster fs) (memset_z junk 0 0 (bytes_per_cluster fs)) 0;;
          idx ← add_entries depth fs dir name EXFAT_ATTR_DIRECTORY
                  (stream_entry 3 (Z.of_nat (length name)) nc (bytes_per_cluster fs) (bytes_per_cluster fs));
          match idx with None => mret None | Some _ => mret (Some nc) end
      end
  end.

Fixpoint erase_entries (n : nat) (depth : nat) (fs : exfat_fs) (dir di i : Z) : M memory unit :=
  match n with
  | O => mret tt
  | S n =>
      r ← exfat_read_dir_entry depth fs dir false (u32 (di + i)) junk;
      (if r.1 =? 0 then
         exfat_write_dir_entry depth fs dir false (u32 (di + i)) (store8 r.2 0 (Z.land (ent_type r.2) 0x7F));; mret tt
       else mret tt);;
      erase_entries n depth fs dir di (i + 1)
  end.
Definition exfat_remove (depth : nat) (fs : exfat_fs) (dir : Z) (name : list Z) : M memory Z :=
  r ← exfat_find_file depth fs dir false name;
  match r with
  | None => mret (-1)
  | Some (fe, se, di) =>
      (if 2 <=? first_cluster_of se
       then exfat_free_chain depth fs (first_cluster_of se) (negb (Z.land (stream_flags se) 2 =? 0)) (data_length se);; mret tt
       else mret tt);;
      erase_entries (Z.to_nat (1 + secondary_count fe)) depth fs dir di 0;;
      mret 0
  end.

(** ** Reading and writing files *)

Definition set_place (pos clus off : Z) (f : exfat_file) : exfat_file :=
  mkFile (first_cluster f) (file_size f) pos clus off (no_fat_chain f) (dir_cluster f) (dir_contiguous f) (dir_index f).
Definition set_size (size : Z) (f : exfat_file) : exfat_file :=
  mkFile (first_cluster f) size (position f) (current_cluster f) (cluster_offset f) (no_fat_chain f) (dir_cluster f)
    (dir_contiguous f) (dir_index f).
Definition set_chain (first : Z) (nfc : bool) (f : exfat_file) : exfat_file :=
  mkFile first (file_size f) (position f) (current_cluster f) (cluster_offset f) nfc (dir_cluster f) (dir_contiguous f) (dir_index f).

(** The size of the buffer for a cluster: [palloc_order(order)] with the least
    order that is large enough. *)
Fixpoint cluster_order (n : nat) (order bpc : Z) : Z :=
  match n with
  | O => order
  | S n => if u64 (Z.shiftl 4096 order) <? bpc then cluster_order n (order + 1) bpc else order
  end.
Definition cluster_buffer (fs : exfat_fs) : Z := Z.shiftl 4096 (cluster_order 32 0 (bytes_per_cluster fs)).

(** The loop of [exfat_read]: the bytes read, and the file. [depth] counts the
    cluster buffer. *)
Fixpoint read_file_loop (fuel : nat) (depth : nat) (fs : exfat_fs) (f : exfat_file) (to_read : Z) (clus_buf : memory) (acc : list Z)
    : M memory (list Z * exfat_file) :=
  if to_read <=? 0 then mret (acc, f) else
  match fuel with
  | O => spin
  | S fuel =>
      step ← (if bytes_per_cluster fs <=? cluster_offset f then
                if no_fat_chain f then mret (true, set_place (position f) (u32 (current_cluster f + 1)) 0 f)
                else next ← exfat_get_fat_entry depth fs (current_cluster f);
                     if EXFAT_FAT_EOC <=? next then mret (false, set_place (position f) next (cluster_offset f) f)
                     else mret (true, set_place (position f) next 0 f)
              else mret (true, f));
      let f := step.2 in
      if negb step.1 then mret (acc, f) else
      r ← exfat_read_sectors (exfat_cluster_to_sector fs (current_cluster f)) (sectors_per_cluster fs) clus_buf (cluster_buffer fs);
      if negb (r.1 =? 0) then mret (acc, f) else
      let avail := u32 (bytes_per_cluster fs - cluster_offset f) in
      let copy := if to_read <? avail then u32 to_read else avail in
      let bytes := (λ i, load8 r.2 (cluster_offset f + i)) <$> seqZ 0 copy in
      read_file_loop fuel depth fs (set_place (u64 (position f + copy)) (current_cluster f) (u32 (cluster_offset f + copy)) f)
        (u64 (to_read - copy)) r.2 (acc ++ bytes)
  end.
(** The bytes that are stored in the buffer (their number is the result, [-1]
    for [None]), and the file. [palloc_ok] also tells whether there is a block
    for a cluster. *)
Definition exfat_read (fuel : nat) (depth : nat) (fs : exfat_fs) (f : exfat_file) (size : Z) : M memory (option (list Z) * exfat_file) :=
  let to_read := if file_size f <? u64 (position f + size) then u64 (file_size f - position f) else size in
  if negb (palloc_ok depth) then mret (None, f) else
  r ← read_file_loop fuel (S depth) fs f to_read junk [];
  mret (Some r.1, r.2).

Fixpoint seek_loop (fuel : nat) (depth : nat) (fs : exfat_fs) (f : exfat_file) (rem : Z) : M memory exfat_file :=
  if negb ((0 <? rem) && (2 <=? current_cluster f) && (current_cluster f <? EXFAT_FAT_EOC)) then mret f else
  match fuel with
  | O => spin
  | S fuel =>
      let skip := u64 (bytes_per_cluster fs - cluster_offset f) in
      if rem <? skip then mret (set_place (u64 (position f + rem)) (current_cluster f) (u32 (cluster_offset f + u32 rem)) f) else
      let pos := u64 (position f + skip) in
      if no_fat_chain f then seek_loop fuel depth fs (set_place pos (u32 (current_cluster f + 1)) 0 f) (u64 (rem - skip))
      else next ← exfat_get_fat_entry depth fs (current_cluster f);
           if EXFAT_FAT_EOC <=? next then mret (set_place pos next (cluster_offset f) f)
           else seek_loop fuel depth fs (set_place pos next 0 f) (u64 (rem - skip))
  end.
Definition exfat_seek (fuel : nat) (depth : nat) (fs : exfat_fs) (f : exfat_file) (pos : Z) : M memory exfat_file :=
  let pos := if file_size f <? pos then file_size f else pos in
  seek_loop fuel depth fs (set_place 0 (first_cluster f) 0 f) pos.

(** The stream entry of a file, changed by [upd]; with its checksum. *)
Definition update_stream (depth : nat) (fs : exfat_fs) (f : exfat_file) (upd : memory → memory) : M memory unit :=
  r ← exfat_read_dir_entry depth fs (dir_cluster f) (dir_contiguous f) (u32 (dir_index f + 1)) junk;
  exfat_write_dir_entry depth fs (dir_cluster f) (dir_contiguous f) (u32 (dir_index f + 1)) (upd r.2);;
  exfat_update_checksum depth fs (dir_cluster f) (dir_contiguous f) (dir_index f);;
  mret tt.

Fixpoint link_run (n : nat) (depth : nat) (fs : exfat_fs) (c : Z) : M memory unit :=
  match n with
  | O => mret tt
  | S n => exfat_set_fat_entry depth fs c (u32 (c + 1));; link_run n depth fs (c + 1)
  end.

(** The cluster for the next bytes: [false] when there is none. *)
Definition first_write (fuel : nat) (depth : nat) (fs : exfat_fs) (f : exfat_file) : M memory (bool * exfat_file) :=
  if negb (first_cluster f =? 0) then mret (true, f) else
  nc ← exfat_allocate_cluster fuel depth fs;
  match nc with
  | None => mret (false, f)
  | Some nc =>
      let f := set_chain nc true (set_place (position f) nc (cluster_offset f) f) in
      update_stream depth fs f (λ se, store8 (store32 se 20 nc) 1 3);;
      mret (true, f)
  end.
Definition next_write (fuel : nat) (depth : nat) (fs : exfat_fs) (f : exfat_file) : M memory (bool * exfat_file) :=
  if cluster_offset f <? bytes_per_cluster fs then mret (true, f) else
  if no_fat_chain f then
    nc ← exfat_allocate_cluster fuel depth fs;
    match nc with
    | None => mret (false, f)
    | Some next =>
        if next =? u32 (current_cluster f + 1) then mret (true, set_place (position f) next 0 f) else
        let cur := current_cluster f in
        let f := set_chain (first_cluster f) false f in
        link_run (Z.to_nat (cur - first_cluster f)) depth fs (first_cluster f);;
        exfat_set_fat_entry depth fs cur next;;
        update_stream depth fs f (λ se, store8 se 1 (Z.land (stream_flags se) (Z.lnot 2)));;
        mret (true, set_place (position f) next 0 f)
    end
  else
    next ← exfat_get_fat_entry depth fs (current_cluster f);
    if EXFAT_FAT_EOC <=? next then
      nc ← exfat_allocate_cluster fuel depth fs;
      match nc with
      | None => mret (false, f)
      | Some next =>
          exfat_set_fat_entry depth fs (current_cluster f) next;;
          mret (true, set_place (position f) next 0 f)
      end
    else mret (true, set_place (position f) next 0 f).

Fixpoint write_file_loop (fuel : nat) (depth : nat) (fs : exfat_fs) (f : exfat_file) (src : list Z) (clus_buf : memory) (written : Z)
    : M memory (Z * exfat_file) :=
  match src with
  | [] => mret (written, f)
  | _ =>
  match fuel with
  | O => spin
  | S fuel' =>
      a ← first_write fuel depth fs f;
      if negb a.1 then mret (written, a.2) else
      b ← next_write fuel depth fs a.2;
      let f := b.2 in
      if negb b.1 then mret (written, f) else
      let avail := u32 (bytes_per_cluster fs - cluster_offset f) in
      let rem := Z.of_nat (length src) in
      let tw := if rem <? avail then rem else avail in
      let sec := exfat_cluster_to_sector fs (current_cluster f) in
      r ← (if tw <? bytes_per_cluster fs
           then exfat_read_sectors sec (sectors_per_cluster fs) clus_buf (cluster_buffer fs) else mret (0, clus_buf));
      let buf := fst (fold_left (λ '(m, i) c, (store8 m i c, i + 1)) (take (Z.to_nat tw) src) (r.2, cluster_offset f)) in
      w ← exfat_write_sectors sec (sectors_per_cluster fs) buf 0;
      if negb (w =? 0) then mret (written, f) else
      let pos := u64 (position f + tw) in
      let f := set_place pos (current_cluster f) (u32 (cluster_offset f + tw)) f in
      let f := if file_size f <? pos then set_size pos f else f in
      write_file_loop fuel' depth fs f (drop (Z.to_nat tw) src) buf (written + tw)
  end end.
(** [None] is the result [-1]. *)
Definition exfat_write (fuel : nat) (depth : nat) (fs : exfat_fs) (f : exfat_file) (buffer : list Z) : M memory (option Z * exfat_file) :=
  match buffer with
  | [] => mret (Some 0, f)
  | _ =>
      if negb (palloc_ok depth) then mret (None, f) else
      r ← write_file_loop fuel (S depth) fs f buffer junk 0;
      update_stream (S depth) fs r.2 (λ se, store64 (store64 se 8 (file_size r.2)) 24 (file_size r.2));;
      mret (Some r.1, r.2)
  end.

(** ** Mounting and formatting *)

(** [memcmp(boot->fs_name, "EXFAT   ", 8)] *)
Definition exfat_name : list Z := lit "EXFAT   ".
Definition boot_ok (boot : memory) : bool :=
  bool_decide ((λ i, load8 boot (3 + i)) <$> seqZ 0 8 = exfat_name) && (load16 boot 510 =? 0xAA55).
Definition exfat_mount (depth : nat) : M memory (option exfat_fs) :=
  if negb (palloc_ok depth) then mret None else
  r ← exfat_read_sectors 0 1 junk PAGE_SIZE;
  let boot := r.2 in
  if negb (r.1 =? 0) then mret None else
  if negb (boot_ok boot) then mret None else
  let bps := u32 (Z.shiftl 1 (load8 boot 108)) in
  let spc := u32 (Z.shiftl 1 (load8 boot 109)) in
  mret (Some (mkExfat bps spc (u32 (bps * spc)) (load32 boot 80) (load32 boot 84) (load32 boot 88) (load32 boot 92)
                (load32 boot 96) (load8 boot 110))).

Definition put_bytes (m : memory) (a : Z) (l : list Z) : memory :=
  fst (fold_left (λ '(m, i) c, (store8 m i c, i + 1)) l (m, a)).

(** The numbers that [exfat_format] computes from the size of the volume. *)
Definition fat_sectors (sector_count : Z) : Z := u32 (u32 (u32 (sector_count / 8) * 4) + 512 - 1) / 512.
Definition heap_start (sector_count : Z) : Z := Z.land (u32 (128 + fat_sectors sector_count + 8 - 1)) (u32 (Z.lnot (8 - 1))).
Definition clusters (sector_count : Z) : Z := u32 (u64 (sector_count - heap_start sector_count) / 8).

Definition boot_sector (sector_count : Z) : memory :=
  let b := put_bytes ∅ 0 [0xEB; 0x76; 0x90] in
  let b := put_bytes b 3 exfat_name in
  let b := store64 (store64 b 64 0) 72 sector_count in
  let b := store32 (store32 b 80 128) 84 (fat_sectors sector_count) in
  let b := store32 (store32 b 88 (heap_start sector_count)) 92 (clusters sector_count) in
  let b := store32 (store32 b 96 2) 100 0x12345678 in
  let b := store16 b 104 0x0100 in
  let b := store8 (store8 (store8 (store8 b 108 9) 109 3) 110 1) 111 0x80 in
  store16 b 510 0xAA55.

(** The loop that writes [len] sectors from [start] on, eight at a time, the
    first eight from [first] and the others zero; [n] iterations from [i] on. *)
Fixpoint write_area (n : nat) (start len i : Z) (first : memory) : M memory unit :=
  match n with
  | O => mret tt
  | S n =>
      let count := if len - i <? 8 then len - i else 8 in
      exfat_write_sectors (start + i) count (if i =? 0 then first else ∅) 0;;
      write_area n start len (i + 8) first
  end.

Definition fat_start : memory := store32 (store32 (store32 ∅ 0 0xFFFFFFF8) 4 0xFFFFFFFF) 8 0xFFFFFFFF.
Definition volume_label : list Z :=
  [EXFAT_TYPE_VOLUME_LABEL; 9; 86; 0; 78; 0; 105; 0; 88; 0; 32; 0; 68; 0; 73; 0; 83; 0; 75; 0].
Definition root_entries (sector_count : Z) : memory :=
  let e := put_bytes ∅ 0 volume_label in
  let e := store64 (store32 (store8 e 32 EXFAT_TYPE_ALLOCATION) 52 3) 56 (u32 (clusters sector_count + 7) / 8) in
  store64 (store32 (store8 e 64 EXFAT_TYPE_UPCASE) 84 4) 88 5836.

Fixpoint clear_reserved (n : nat) (i : Z) : M memory unit :=
  match n with
  | O => mret tt
  | S n => exfat_write_sectors i 1 ∅ 0;; clear_reserved n (i + 1)
  end.

Definition exfat_format (depth : nat) (sector_count : Z) : M memory Z :=
  if sector_count <? 1024 then mret (-1) else
  if negb (palloc_ok depth) then mret (-1) else
  r ← exfat_write_sectors 0 1 (boot_sector sector_count) 0;
  if negb (r =? 0) then mret (-1) else
  clear_reserved 10 1;;
  b ← exfat_read_sectors 0 1 ∅ PAGE_SIZE;
  exfat_write_sectors 12 1 b.2 0;;
  let fat_len := fat_sectors sector_count in
  let heap_off := heap_start sector_count in
  write_area (Z.to_nat ((fat_len + 7) / 8)) 128 fat_len 0 fat_start;;
  exfat_write_sectors heap_off 8 ∅ 0;;
  exfat_write_sectors heap_off 1 (root_entries sector_count) 0;;
  let bitmap_sectors := u32 (clusters sector_count / 8 + 511) / 512 in
  write_area (Z.to_nat ((bitmap_sectors + 7) / 8)) (heap_off + 8) bitmap_sectors 0 (store8 ∅ 0 7);;
  exfat_set_fat_entry_raw (S depth) 128 512 3 0xFFFFFFFF;;
  exfat_set_fat_entry_raw (S depth) 128 512 4 0xFFFFFFFF;;
  mret 0.
End exfat.
