(* ===== verification/ExfatVfs.v ===== *)
(** * exFAT below the virtual file system

    Model of src/fs/exfat/exfat_vfs.c: the cache of inodes, paths and the
    operations that the driver registers with the virtual file system.  The
    parameters are those of Exfat.v; [fuel] bounds the loops over cluster chains
    and [depth] is 0, as no scratch page is held between operations. *)
From Stdlib Require Import ZArith Lia Ascii String.
From stdpp Require Import base option gmap list.
From S2P Require Import Prelude Memory Pmm Print Vfs Exfat.

Definition MAX_INODE_CACHE : Z := 256.
Definition FS_TYPE_EXFAT : Z := 0x02.

Record exfat_inode_info := mkInode {
  in_inode : Z; in_first_cluster : Z; in_size : Z; in_no_fat_chain : bool; in_dir_cluster : Z; in_dir_contiguous : bool;
  in_dir_index : Z; in_valid : bool }.
Definition no_inode : exfat_inode_info := mkInode 0 0 0 false 0 false 0 false.

(** [exfat_vfs_ctx_t], with the disk behind it *)
Record exfat_ctx := mkCtx { cx_fs : exfat_fs; cx_cache : list exfat_inode_info; cx_disk : memory }.
Definition set_cx_cache (l : list exfat_inode_info) (c : exfat_ctx) : exfat_ctx := mkCtx (cx_fs c) l (cx_disk c).
Definition set_cx_disk (d : memory) (c : exfat_ctx) : exfat_ctx := mkCtx (cx_fs c) (cx_cache c) d.
Definition on_disk {A} (m : M memory A) : M exfat_ctx A := zoom cx_disk set_cx_disk m.

Definition make_inode (dir_cluster dir_index : Z) : Z := Z.lor (u64 (Z.shiftl dir_cluster 32)) dir_index.

Definition cache_inode (inode first size : Z) (nfc : bool) (dir : Z) (contiguous : bool) (index : Z) : M exfat_ctx unit :=
  modify (λ c, set_cx_cache (zinsert (inode `mod` MAX_INODE_CACHE) (mkInode inode first size nfc dir contiguous index true) (cx_cache c)) c).
Definition get_cached_inode (inode : Z) : M exfat_ctx (option exfat_inode_info) := gets (λ c,
  match zlookup (cx_cache c) (inode `mod` MAX_INODE_CACHE) with
  | Some i => if in_valid i && (in_inode i =? inode) then Some i else None
  | None => None
  end).

(** The components of a path, by [c]. *)
Fixpoint split_on (c : Z) (l : list Z) : list (list Z) :=
  match l with
  | [] => [[]]
  | x :: l =>
      if x =? c then [] :: split_on c l
      else match split_on c l with s :: r => (x :: s) :: r | [] => [[x]] end
  end.
(** [strrchr]: the text before the last [c] and behind it. *)
Definition split_last (c : Z) (l : list Z) : option (list Z * list Z) :=
  match list_find (λ x, x = c) (reverse l) with
  | Some (i, _) => Some (take (length l - i - 1) l, drop (length l - i) l)
  | None => None
  end.

Section vfs.
Context (sector_ok : Z → bool) (palloc_ok : nat → bool) (junk : memory) (partition_offset : Z) (fuel : nat).

Abbreviation find_file := (exfat_find_file sector_ok palloc_ok junk partition_offset 0).
Abbreviation read_dir_entry := (exfat_read_dir_entry sector_ok palloc_ok junk partition_offset 0).

(** [avail] tells whether the heap has room for the context; the device is not
    null.  The disk is the one the parameters belong to. *)
Definition exfat_vfs_mount (avail : bool) (dsk : memory) (device size : Z) : outcome (option exfat_ctx) :=
  if negb avail then Ok None else
  match exfat_mount sector_ok palloc_ok junk partition_offset 0 dsk with
  | Ok (Some fs, dsk) => Ok (Some (mkCtx fs (replicate (Z.to_nat MAX_INODE_CACHE) no_inode) dsk))
  | Ok (None, _) => Ok None
  | Halt => Halt
  | Fault => Fault
  | Spin => Spin
  end.
Definition exfat_vfs_unmount : M exfat_ctx Z := mret 0.

Definition prepare_file_handle (inode : Z) : M exfat_ctx exfat_file :=
  info ← get_cached_inode inode;
  fs ← gets cx_fs;
  match info with
  | Some i =>
      mret (mkFile (in_first_cluster i) (in_size i) 0 (in_first_cluster i) 0 (in_no_fat_chain i) (in_dir_cluster i)
              (in_dir_contiguous i) (in_dir_index i))
  | None =>
      if inode =? 0 then
        mret (mkFile (root_dir_cluster fs) 0xFFFFFFFF 0 (root_dir_cluster fs) 0 false 0 false 0)
      else
        let dir_c := Z.shiftr inode 32 in
        let dir_idx := u32 inode in
        let none := mkFile 0 0 0 0 0 false 0 false 0 in
        fe ← on_disk (read_dir_entry fs dir_c false dir_idx junk);
        if negb (fe.1 =? 0) then mret none else
        se ← on_disk (read_dir_entry fs dir_c false (u32 (dir_idx + 1)) junk);
        if negb (se.1 =? 0) then mret none else
        let first := first_cluster_of se.2 in
        let nfc := negb (Z.land (stream_flags se.2) 2 =? 0) in
        cache_inode inode first (data_length se.2) nfc dir_c false dir_idx;;
        mret (mkFile first (data_length se.2) 0 first 0 nfc dir_c false dir_idx)
  end.

Definition exfat_vfs_read (inode size offset : Z) : M exfat_ctx (Z * list Z) :=
  file ← prepare_file_handle inode;
  fs ← gets cx_fs;
  file ← on_disk (exfat_seek sector_ok palloc_ok junk partition_offset fuel 0 fs file offset);
  r ← on_disk (exfat_read sector_ok palloc_ok junk partition_offset fuel 0 fs file size);
  match r.1 with
  | None => mret (-1, [])
  | Some bytes => mret (s32 (Z.of_nat (length bytes)), bytes)
  end.

Definition exfat_vfs_write (inode : Z) (buffer : list Z) (offset : Z) : M exfat_ctx Z :=
  file ← prepare_file_handle inode;
  fs ← gets cx_fs;
  file ← on_disk (exfat_seek sector_ok palloc_ok junk partition_offset fuel 0 fs file offset);
  r ← on_disk (exfat_write sector_ok palloc_ok junk partition_offset fuel 0 fs file buffer);
  let written := s32 (default (-1) r.1) in
  let f := r.2 in
  (if 0 <? written
   then cache_inode inode (first_cluster f) (file_size f) (no_fat_chain f) (dir_cluster f) (dir_contiguous f) (dir_index f)
   else mret tt);;
  mret written.

(** The directories named by the components; 0 for an error. *)
Fixpoint walk_components (comps : list (list Z)) (curr_dir : Z) : M exfat_ctx Z :=
  match comps with
  | [] => mret curr_dir
  | c :: comps =>
      fs ← gets cx_fs;
      r ← on_disk (find_file fs curr_dir false c);
      match r with
      | None => mret 0
      | Some (fe, se, _) =>
          if Z.land (file_attributes fe) EXFAT_ATTR_DIRECTORY =? 0 then mret 0
          else walk_components comps (first_cluster_of se)
      end
  end.
(** The cluster of the directory of a path and the last component. *)
Definition exfat_vfs_resolve_parent (path : list Z) : M exfat_ctx (Z * list Z) :=
  root ← gets (λ c, root_dir_cluster (cx_fs c));
  let path_copy := take 255 path in
  let p := match path_copy with c :: p => if c =? ch "/" then p else path_copy | [] => [] end in
  match split_last (ch "/") p with
  | None => mret (root, p)
  | Some (dirs, last) => dir ← walk_components (split_on (ch "/") dirs) root; mret (dir, last)
  end.

Definition exfat_vfs_create (path : list Z) : M exfat_ctx Z :=
  r ← exfat_vfs_resolve_parent path;
  if r.1 =? 0 then mret 0 else
  fs ← gets cx_fs;
  file ← on_disk (exfat_create sector_ok palloc_ok junk partition_offset 0 fs r.1 r.2);
  match file with
  | None => mret 0
  | Some f =>
      let inode := make_inode (dir_cluster f) (dir_index f) in
      cache_inode inode (first_cluster f) (file_size f) (no_fat_chain f) (dir_cluster f) (dir_contiguous f) (dir_index f);;
      mret inode
  end.

(** The index of the new directory is not tested: [junk] when it is not found. *)
Definition exfat_vfs_mkdir (path : list Z) : M exfat_ctx Z :=
  r ← exfat_vfs_resolve_parent path;
  if r.1 =? 0 then mret 0 else
  fs ← gets cx_fs;
  nc ← on_disk (exfat_mkdir sector_ok palloc_ok junk partition_offset fuel 0 fs r.1 r.2);
  match nc with
  | None => mret 0
  | Some nc =>
      found ← on_disk (find_file fs r.1 false r.2);
      let di := match found with Some (_, _, di) => di | None => load32 junk 0 end in
      let inode := make_inode r.1 di in
      cache_inode inode nc (bytes_per_cluster fs) true r.1 false di;;
      mret inode
  end.

Fixpoint listdir_loop (n : nat) (fs : exfat_fs) (dir : Z) (contiguous : bool) (max count index : Z) (acc : list vfs_dirent)
    : M exfat_ctx (list vfs_dirent) :=
  if max <=? count then mret acc else
  match n with
  | O => spin
  | S n =>
      r ← on_disk (read_dir_entry fs dir contiguous index junk);
      if negb (r.1 =? 0) then mret acc else
      if ent_type r.2 =? EXFAT_TYPE_EOD then mret acc else
      if ent_type r.2 =? EXFAT_TYPE_FILE then
        s ← on_disk (read_dir_entry fs dir contiguous (u32 (index + 1)) junk);
        if negb (s.1 =? 0) then mret acc else
        if negb (ent_type s.2 =? EXFAT_TYPE_STREAM) then listdir_loop n fs dir contiguous max count (u32 (index + 1)) acc else
        let inode := make_inode dir index in
        cache_inode inode (first_cluster_of s.2) (data_length s.2) (negb (Z.land (stream_flags s.2) 2 =? 0)) dir contiguous index;;
        name ← on_disk (read_names sector_ok palloc_ok junk partition_offset (Z.to_nat (secondary_count r.2 - 1)) 0 fs dir contiguous index 0 []);
        let type := if Z.land (file_attributes r.2) EXFAT_ATTR_DIRECTORY =? 0 then VFS_TYPE_FILE else VFS_TYPE_DIR in
        listdir_loop n fs dir contiguous max (count + 1) (u32 (index + secondary_count r.2 + 1))
          (acc ++ [mkDirent inode type (data_length s.2) name])
      else listdir_loop n fs dir contiguous max count (u32 (index + 1)) acc
  end.
Definition exfat_vfs_listdir (inode max_entries : Z) : M exfat_ctx (Z * list vfs_dirent) :=
  fs ← gets cx_fs;
  info ← get_cached_inode inode;
  let '(dir, contiguous) :=
    if inode =? 0 then (root_dir_cluster fs, false)
    else match info with
         | Some i => (in_first_cluster i, in_no_fat_chain i)
         | None => (Z.shiftr inode 32, false)
         end in
  l ← listdir_loop fuel fs dir contiguous max_entries 0 0 [];
  mret (Z.of_nat (length l), l).

Definition exfat_vfs_path_to_inode (path : list Z) : M exfat_ctx Z :=
  if bool_decide (path = lit "/") then mret 0 else
  r ← exfat_vfs_resolve_parent path;
  if r.1 =? 0 then mret 0 else
  fs ← gets cx_fs;
  found ← on_disk (find_file fs r.1 false r.2);
  match found with
  | None => mret 0
  | Some (_, se, di) =>
      let inode := make_inode r.1 di in
      cache_inode inode (first_cluster_of se) (data_length se) (negb (Z.land (stream_flags se) 2 =? 0)) r.1 false di;;
      mret inode
  end.

Definition drop_inode (inode : Z) : M exfat_ctx unit := modify (λ c,
  let slot := inode `mod` MAX_INODE_CACHE in
  match zlookup (cx_cache c) slot with
  | Some i =>
      if in_inode i =? inode
      then set_cx_cache (zinsert slot (mkInode (in_inode i) (in_first_cluster i) (in_size i) (in_no_fat_chain i) (in_dir_cluster i)
                                         (in_dir_contiguous i) (in_dir_index i) false) (cx_cache c)) c
      else c
  | None => c
  end).
Definition exfat_vfs_remove (path : list Z) : M exfat_ctx Z :=
  r ← exfat_vfs_resolve_parent path;
  if r.1 =? 0 then mret (-1) else
  inode ← exfat_vfs_path_to_inode path;
  (if negb (inode =? 0) then drop_inode inode else mret tt);;
  fs ← gets cx_fs;
  on_disk (exfat_remove sector_ok palloc_ok junk partition_offset 0 fs r.1 r.2).

Definition exfat_vfs_fs (avail : bool) (dsk : memory) : vfs_filesystem exfat_ctx :=
  mkFs FS_TYPE_EXFAT (lit "exFAT")
    (mkOps (Some (exfat_vfs_mount avail dsk)) (Some exfat_vfs_unmount) (Some exfat_vfs_read) (Some exfat_vfs_write)
       (Some exfat_vfs_listdir) (Some exfat_vfs_path_to_inode) (Some exfat_vfs_create) (Some exfat_vfs_mkdir)
       (Some exfat_vfs_remove) None None None None).
Definition exfat_vfs_register (avail : bool) (dsk : memory) : M (vfs exfat_ctx) Z :=
  vfs_register_filesystem (Some (exfat_vfs_fs avail dsk)).
End vfs.
