(* ===== verification/ExfatProof.v ===== *)
(** * The file allocation table, directories and files of exFAT

    On a device that works, and with scratch pages at hand, the operations of
    Exfat.v are described by what they do to the bytes of the disk: table
    entries and directory entries are read and written in their places, and a
    file is the concatenation of the clusters of its chain. *)
From Stdlib Require Import ZArith Lia.
From stdpp Require Import base option gmap list.
From S2P Require Import Prelude Memory Pmm Print Exfat.

Lemma load8_blit n dst d src s b :
  load8 (blit n dst d src s) b = if decide (d ≤ b < d + Z.of_nat n) then load8 src (s + (b - d)) else load8 dst b.
Proof.
  revert dst d s. induction n as [|n IH]; intros dst d s; cbn [blit]; [by rewrite decide_False by lia|].
  rewrite IH. destruct (decide (d = b)) as [->|Hne].
  - rewrite decide_False, decide_True by lia. rewrite load8_store8_eq, u8_small by apply load8_range. f_equal. lia.
  - destruct (decide (d + 1 ≤ b < d + 1 + Z.of_nat n)).
    + rewrite decide_True by lia. f_equal. lia.
    + rewrite decide_False by lia. by apply load8_store8_ne.
Qed.

Section disk.
Context (sector_ok : Z → bool) (palloc_ok : nat → bool) (junk : memory) (po : Z).
Context (Hio : ∀ s, sector_ok s = true) (Hpage : ∀ d, palloc_ok d = true) (Hpo : 0 ≤ po).

Abbreviation read_sectors := (exfat_read_sectors sector_ok po).
Abbreviation write_sectors := (exfat_write_sectors sector_ok po).

(** The address on disk of byte [off] of a sector. *)
Definition sector_addr (sector : Z) : Z := (po + sector) * SECTOR_SIZE.

Lemma read_loop_spec n : ∀ sector buf off dsk, 0 ≤ sector → po + sector + Z.of_nat n < 2 ^ 64 →
  ∃ buf', read_loop sector_ok po n sector buf off dsk = Ok ((0, buf'), dsk) ∧
    ∀ b, load8 buf' b = if decide (off ≤ b < off + Z.of_nat n * SECTOR_SIZE) then load8 dsk (sector_addr sector + (b - off)) else load8 buf b.
Proof.
  unfold sector_addr, SECTOR_SIZE. induction n as [|n IH]; intros sector buf off dsk Hs Hb; cbn [read_loop].
  { exists buf. split; [done|]. intros b. by rewrite decide_False by lia. }
  rewrite u64_small, Hio by lia. cbn [negb]. mstep. unfold SECTOR_SIZE.
  destruct (IH (sector + 1) (blit 512 buf off dsk ((po + sector) * 512)) (off + 512) dsk) as (buf' & E & Hb'); [lia|lia|].
  exists buf'. split; [exact E|]. intros b. rewrite Hb', load8_blit.
  repeat case_decide; try lia; try done; f_equal; lia.
Qed.
Lemma write_loop_spec n : ∀ sector buf off dsk, 0 ≤ sector → po + sector + Z.of_nat n < 2 ^ 64 →
  ∃ dsk', write_loop sector_ok po n sector buf off dsk = Ok (0, dsk') ∧
    ∀ a, load8 dsk' a = if decide (sector_addr sector ≤ a < sector_addr sector + Z.of_nat n * SECTOR_SIZE)
                        then load8 buf (off + (a - sector_addr sector)) else load8 dsk a.
Proof.
  unfold sector_addr, SECTOR_SIZE. induction n as [|n IH]; intros sector buf off dsk Hs Hb; cbn [write_loop].
  { exists dsk. split; [done|]. intros b. by rewrite decide_False by lia. }
  rewrite u64_small, Hio by lia. cbn [negb]. mstep. unfold SECTOR_SIZE.
  destruct (IH (sector + 1) buf (off + 512) (blit 512 dsk ((po + sector) * 512) buf off)) as (dsk' & E & Hb'); [lia|lia|].
  exists dsk'. split; [exact E|]. intros a. rewrite Hb', load8_blit.
  repeat case_decide; try lia; try done; f_equal; lia.
Qed.

Lemma read_sectors_spec sector count buf size dsk :
  0 ≤ sector → 0 ≤ count → po + sector + count < 2 ^ 64 → count * SECTOR_SIZE ≤ size →
  ∃ buf', read_sectors sector count buf size dsk = Ok ((0, buf'), dsk) ∧
    ∀ b, 0 ≤ b < count * SECTOR_SIZE → load8 buf' b = load8 dsk (sector_addr sector + b).
Proof.
  intros Hs Hc Hb Hsz. unfold exfat_read_sectors. rewrite (proj2 (Z.ltb_ge size _)) by lia.
  destruct (read_loop_spec (Z.to_nat count) sector buf 0 dsk Hs) as (buf' & E & H); [lia|]. exists buf'. split; [done|].
  intros b Hb'. rewrite Z2Nat.id in H by lia. rewrite H, decide_True by lia. f_equal. lia.
Qed.
(** Writing back a buffer that is the old contents but for some bytes. *)
Lemma write_sectors_spec sector count buf off dsk :
  0 ≤ sector → 0 ≤ count → po + sector + count < 2 ^ 64 →
  ∃ dsk', write_sectors sector count buf off dsk = Ok (0, dsk') ∧
    ∀ a, load8 dsk' a = if decide (sector_addr sector ≤ a < sector_addr sector + count * SECTOR_SIZE)
                        then load8 buf (off + (a - sector_addr sector)) else load8 dsk a.
Proof.
  intros Hs Hc Hb. destruct (write_loop_spec (Z.to_nat count) sector buf off dsk Hs) as (dsk' & E & H); [lia|].
  exists dsk'. split; [done|]. intros a. rewrite H. by rewrite Z2Nat.id by lia.
Qed.

(** ** The geometry of a volume *)

Context (fs : exfat_fs).
Abbreviation spc := (sectors_per_cluster fs).
Abbreviation bpc := (bytes_per_cluster fs).

Record fs_ok : Prop := {
  fo_sector : bytes_per_sector fs = SECTOR_SIZE;
  fo_cluster : 1 ≤ spc ∧ bpc = spc * SECTOR_SIZE ∧ bpc < 2 ^ 32;
  fo_fat : 0 ≤ fat_offset fs ∧ (cluster_count fs + 2) * 4 ≤ fat_length fs * SECTOR_SIZE;
  fo_heap : fat_offset fs + fat_length fs ≤ cluster_heap_offset fs;
  fo_count : 0 < cluster_count fs < 2 ^ 32 - 16;
  fo_end : po + cluster_heap_offset fs + cluster_count fs * spc < 2 ^ 48;
}.
Context (Hfs : fs_ok).

(** A cluster of the heap. *)
Definition cluster_ok (c : Z) : Prop := 2 ≤ c < cluster_count fs + 2.

Definition fat_addr (c : Z) : Z := sector_addr (fat_offset fs) + 4 * c.
Definition cluster_addr (c : Z) : Z := sector_addr (cluster_heap_offset fs + (c - 2) * spc).
(** The entry of the table for cluster [c]. *)
Definition fat (dsk : memory) (c : Z) : Z := load32 dsk (fat_addr c).

Lemma cluster_to_sector_ok c : cluster_ok c → exfat_cluster_to_sector fs c = cluster_heap_offset fs + (c - 2) * spc.
Proof.
  intros Hc. unfold cluster_ok in Hc. destruct Hfs as [_ [? _] [? ?] ? ? ?]. unfold exfat_cluster_to_sector. rewrite (proj2 (Z.ltb_ge c 2)) by lia.
  apply u64_small. unfold SECTOR_SIZE in *. nia.
Qed.

Lemma fat_place c : 0 ≤ c < cluster_count fs + 2 →
  let s := fat_sector fs c in
  0 ≤ s ∧ po + s + 1 < 2 ^ 64 ∧ sector_addr s + fat_byte fs c = fat_addr c ∧ 0 ≤ fat_byte fs c ∧ fat_byte fs c + 4 ≤ SECTOR_SIZE.
Proof.
  intros Hc. destruct Hfs as [Eb [? _] [? ?] ? ? ?]. unfold fat_sector, fat_byte, fat_addr, sector_addr. rewrite Eb. unfold SECTOR_SIZE in *.
  assert (Hq : 0 ≤ c * 4 / 512 < fat_length fs) by zdiv. rewrite u64_small by nia.
  splits; [lia|nia|zdiv|zdiv|zdiv].
Qed.

Lemma get_fat_entry_spec depth c dsk : 0 ≤ c < cluster_count fs + 2 →
  exfat_get_fat_entry sector_ok palloc_ok junk po depth fs c dsk = Ok (fat dsk c, dsk).
Proof.
  intros Hc. destruct (fat_place c Hc) as (P1 & P2 & P3 & P4 & P5). unfold exfat_get_fat_entry. rewrite Hpage. cbn [negb].
  destruct (read_sectors_spec (fat_sector fs c) 1 junk PAGE_SIZE dsk) as (buf & E & Hb); [lia|lia|lia|unfold SECTOR_SIZE, PAGE_SIZE; lia|].
  mstep with E. cbn [fst snd Z.eqb negb]. rewrite (proj2 (Z.ltb_ge PAGE_SIZE _)) by (unfold SECTOR_SIZE, PAGE_SIZE in *; lia).
  unfold mret, M_ret. do 2 f_equal. unfold fat. rewrite <-P3. apply load_shift. intros i Hi. rewrite Hb by lia. f_equal. lia.
Qed.

(** Writing back a sector: [t] is the disk that results. *)
Lemma update_sector sector buf dsk (t : Z → Z) :
  0 ≤ sector → po + sector + 1 < 2 ^ 64 →
  (∀ b, 0 ≤ b < SECTOR_SIZE → load8 buf b = t (sector_addr sector + b)) →
  (∀ a, ¬ (sector_addr sector ≤ a < sector_addr sector + SECTOR_SIZE) → t a = load8 dsk a) →
  ∃ dsk', write_sectors sector 1 buf 0 dsk = Ok (0, dsk') ∧ ∀ a, load8 dsk' a = t a.
Proof.
  intros Hs Hb Hin Hout. destruct (write_sectors_spec sector 1 buf 0 dsk) as (dsk' & E & H); [lia|lia|lia|].
  exists dsk'. split; [done|]. intros a. rewrite H. case_decide as Hd.
  - rewrite Hin by lia. f_equal. lia.
  - symmetry. apply Hout. lia.
Qed.

Lemma set_fat_entry_spec depth c v dsk : 0 ≤ c < cluster_count fs + 2 →
  ∃ dsk', exfat_set_fat_entry sector_ok palloc_ok junk po depth fs c v dsk = Ok (0, dsk') ∧
    ∀ a, load8 dsk' a = load8 (store32 dsk (fat_addr c) v) a.
Proof.
  intros Hc. destruct (fat_place c Hc) as (P1 & P2 & P3 & P4 & P5). unfold exfat_set_fat_entry. rewrite Hpage. cbn [negb].
  destruct (read_sectors_spec (fat_sector fs c) 1 junk PAGE_SIZE dsk) as (buf & E & Hb); [lia|lia|lia|unfold SECTOR_SIZE, PAGE_SIZE; lia|].
  mstep with E. cbn [fst snd Z.eqb negb]. rewrite (proj2 (Z.ltb_ge PAGE_SIZE _)) by (unfold SECTOR_SIZE, PAGE_SIZE in *; lia).
  apply update_sector; [done|lia| |].
  - intros b Hb'. unfold store32. rewrite !load8_store. destruct (decide (fat_byte fs c ≤ b < fat_byte fs c + Z.of_nat 4)).
    + rewrite decide_True by lia. do 3 f_equal. lia.
    + rewrite decide_False by lia. apply Hb. lia.
  - intros a Ha. unfold store32. rewrite load8_store, decide_False; [done|]. lia.
Qed.

(** ** Chains of clusters *)

Definition next_of (contiguous : bool) (dsk : memory) (c : Z) : Z := if contiguous then c + 1 else fat dsk c.

(** [l] are clusters of the heap, each followed by the next. *)
Fixpoint chain (contiguous : bool) (dsk : memory) (l : list Z) : Prop :=
  match l with
  | [] => True
  | c :: l => cluster_ok c ∧ (match l with [] => True | c' :: _ => next_of contiguous dsk c = c' end) ∧ chain contiguous dsk l
  end.

Lemma chain_lookup contiguous dsk l i c : chain contiguous dsk l → l !! i = Some c → cluster_ok c.
Proof.
  revert i. induction l as [|x l IH]; intros [|i] Hl Hi; try done; destruct Hl as (Hx & _ & Hl); cbn in Hi.
  - injection Hi as <-. done.
  - exact (IH i Hl Hi).
Qed.
Lemma chain_next contiguous dsk l i c c' :
  chain contiguous dsk l → l !! i = Some c → l !! S i = Some c' → next_of contiguous dsk c = c'.
Proof.
  revert i. induction l as [|x l IH]; intros [|i] Hl Hi Hi'; try done; destruct Hl as (Hx & Hn & Hl); cbn in Hi, Hi'.
  - destruct l; [done|]. injection Hi as <-. injection Hi' as <-. done.
  - exact (IH i Hl Hi Hi').
Qed.
Lemma cluster_next_u32 c : cluster_ok c → u32 (c + 1) = c + 1.
Proof. intros Hc. destruct Hfs as [_ _ _ _ ? _]. unfold cluster_ok in Hc. unfold u32. apply Z.mod_small. lia. Qed.

(** ** Directory entries *)

Definition entries_per_cluster : Z := bpc / sizeof_dentry.
Lemma entries_eq : entries_per_cluster = 16 * spc ∧ 16 ≤ entries_per_cluster.
Proof. destruct Hfs as [_ [? [E ?]] _ _ _ _]. unfold entries_per_cluster. rewrite E. unfold SECTOR_SIZE, sizeof_dentry. zdiv. Qed.

Definition entry_addr (c o : Z) : Z := cluster_addr c + sizeof_dentry * o.

Lemma dir_seek_unfold fuel depth contiguous c o :
  dir_seek sector_ok palloc_ok junk po (S fuel) depth fs contiguous c o =
  (if o <? entries_per_cluster then mret (Some (c, o)) else
   if contiguous then dir_seek sector_ok palloc_ok junk po fuel depth fs contiguous (u32 (c + 1)) (o - entries_per_cluster)
   else next ← exfat_get_fat_entry sector_ok palloc_ok junk po depth fs c;
        if EXFAT_FAT_EOC <=? next then mret None
        else dir_seek sector_ok palloc_ok junk po fuel depth fs contiguous next (o - entries_per_cluster)).
Proof. done. Qed.

Lemma dir_seek_spec depth contiguous dsk l : ∀ c fuel o x,
  chain contiguous dsk (c :: l) → 0 ≤ o → (Z.to_nat o < fuel)%nat → (c :: l) !! Z.to_nat (o / entries_per_cluster) = Some x →
  dir_seek sector_ok palloc_ok junk po fuel depth fs contiguous c o dsk = Ok (Some (x, o `mod` entries_per_cluster), dsk).
Proof.
  destruct entries_eq as [Ee He]. induction l as [|c' l IH]; intros c fuel o x Hl Ho Hf Hx;
    (destruct fuel as [|fuel]; [lia|]); rewrite dir_seek_unfold.
  - destruct (Z.ltb_spec o entries_per_cluster) as [Hlt|Hge].
    + rewrite Z.div_small in Hx by lia. injection Hx as <-. by rewrite Z.mod_small by lia.
    + apply lookup_lt_Some in Hx. cbn in Hx. assert (1 ≤ o / entries_per_cluster) by (apply Z.div_le_lower_bound; lia). lia.
  - destruct (Z.ltb_spec o entries_per_cluster) as [Hlt|Hge].
    + rewrite Z.div_small in Hx by lia. injection Hx as <-. by rewrite Z.mod_small by lia.
    + assert (Hdiv : o / entries_per_cluster = 1 + (o - entries_per_cluster) / entries_per_cluster).
      { replace o with ((o - entries_per_cluster) + 1 * entries_per_cluster) at 1 by lia. rewrite Z.div_add by lia. lia. }
      assert (Hmod : o `mod` entries_per_cluster = (o - entries_per_cluster) `mod` entries_per_cluster).
      { replace o with ((o - entries_per_cluster) + 1 * entries_per_cluster) at 1 by lia. by rewrite Z.mod_add by lia. }
      assert (0 ≤ (o - entries_per_cluster) / entries_per_cluster) by (apply Z.div_pos; lia).
      rewrite Hdiv in Hx. replace (Z.to_nat (1 + _)) with (S (Z.to_nat ((o - entries_per_cluster) / entries_per_cluster))) in Hx by lia.
      destruct Hl as (Hc & Hn & Hl). rewrite Hmod. destruct contiguous; cbn [next_of] in Hn.
      * rewrite cluster_next_u32 by done. rewrite Hn. apply IH; [done|lia|lia|done].
      * assert (0 ≤ c < cluster_count fs + 2) by (unfold cluster_ok in Hc; lia). mstep with (get_fat_entry_spec depth c dsk ltac:(lia)). rewrite Hn.
        assert (cluster_ok c') as Hc' by (by destruct Hl). destruct Hfs as [_ _ _ _ ? _]. unfold cluster_ok in Hc'.
        rewrite (proj2 (Z.leb_gt EXFAT_FAT_EOC c')) by (unfold EXFAT_FAT_EOC; lia). apply IH; [done|lia|lia|done].
Qed.

Lemma dir_place c o : cluster_ok c → 0 ≤ o < entries_per_cluster →
  let s := dir_sector fs c o in
  0 ≤ s ∧ po + s + 1 < 2 ^ 64 ∧ sector_addr s + dir_byte fs o = entry_addr c o ∧ 0 ≤ dir_byte fs o ∧ dir_byte fs o + sizeof_dentry ≤ SECTOR_SIZE.
Proof.
  intros Hc Ho. destruct entries_eq as [Ee _]. pose proof (cluster_to_sector_ok c Hc) as Es. unfold cluster_ok in Hc.
  destruct Hfs as [Eb [? _] [? ?] ? ? ?]. unfold dir_sector, dir_byte, entry_addr, cluster_addr, sector_addr. rewrite Eb, Es.
  unfold SECTOR_SIZE, sizeof_dentry in *. assert (0 ≤ o * 32 / 512 < spc) by zdiv. rewrite u64_small by nia.
  splits; [nia|nia|zdiv|zdiv|zdiv].
Qed.

Section entry.
Context (contiguous : bool) (dsk : memory) (c : Z) (l : list Z) (Hl : chain contiguous dsk (c :: l)).
Context (index x : Z) (Hi : 0 ≤ index) (Hx : (c :: l) !! Z.to_nat (index / entries_per_cluster) = Some x).

Lemma read_dir_entry_spec depth old :
  ∃ e, exfat_read_dir_entry sector_ok palloc_ok junk po depth fs c contiguous index old dsk = Ok ((0, e), dsk) ∧
    ∀ b, 0 ≤ b < sizeof_dentry → load8 e b = load8 dsk (entry_addr x (index `mod` entries_per_cluster) + b).
Proof.
  destruct entries_eq as [_ He]. pose proof (Z.mod_pos_bound index entries_per_cluster ltac:(lia)) as Hm.
  destruct (dir_place x (index `mod` entries_per_cluster)) as (P1 & P2 & P3 & P4 & P5); [by eapply chain_lookup|done|].
  unfold exfat_read_dir_entry. mstep with (dir_seek_spec depth contiguous dsk l c (S (Z.to_nat index)) index x Hl Hi ltac:(lia) Hx). rewrite Hpage. cbn [negb].
  destruct (read_sectors_spec (dir_sector fs x (index `mod` entries_per_cluster)) 1 junk PAGE_SIZE dsk) as (buf & E & Hb);
    [lia|lia|lia|unfold SECTOR_SIZE, PAGE_SIZE; lia|].
  mstep with E. cbn [fst snd Z.eqb negb]. rewrite (proj2 (Z.ltb_ge PAGE_SIZE _)) by (unfold SECTOR_SIZE, PAGE_SIZE in *; lia).
  eexists. split; [done|]. intros b Hb'. unfold sizeof_dentry in *. rewrite load8_blit, decide_True by lia. rewrite Hb by lia. f_equal. lia.
Qed.

Lemma write_dir_entry_spec depth e :
  let base := entry_addr x (index `mod` entries_per_cluster) in
  ∃ dsk', exfat_write_dir_entry sector_ok palloc_ok junk po depth fs c contiguous index e dsk = Ok (0, dsk') ∧
    ∀ a, load8 dsk' a = if decide (base ≤ a < base + sizeof_dentry) then load8 e (a - base) else load8 dsk a.
Proof.
  destruct entries_eq as [_ He]. pose proof (Z.mod_pos_bound index entries_per_cluster ltac:(lia)) as Hm.
  destruct (dir_place x (index `mod` entries_per_cluster)) as (P1 & P2 & P3 & P4 & P5); [by eapply chain_lookup|done|].
  unfold exfat_write_dir_entry. mstep with (dir_seek_spec depth contiguous dsk l c (S (Z.to_nat index)) index x Hl Hi ltac:(lia) Hx). rewrite Hpage. cbn [negb].
  destruct (read_sectors_spec (dir_sector fs x (index `mod` entries_per_cluster)) 1 junk PAGE_SIZE dsk) as (buf & E & Hb);
    [lia|lia|lia|unfold SECTOR_SIZE, PAGE_SIZE; lia|].
  mstep with E. cbn [fst snd Z.eqb negb]. rewrite (proj2 (Z.ltb_ge PAGE_SIZE _)) by (unfold SECTOR_SIZE, PAGE_SIZE in *; lia).
  apply (update_sector _ _ _ (λ a, if decide (entry_addr x (index `mod` entries_per_cluster) ≤ a < entry_addr x (index `mod` entries_per_cluster) + sizeof_dentry)
    then load8 e (a - entry_addr x (index `mod` entries_per_cluster)) else load8 dsk a)); [done|lia| |].
  - intros b Hb'. unfold sizeof_dentry in *. rewrite load8_blit. case_decide as Hd; case_decide as Hd'; try lia; [f_equal; lia|]. rewrite Hb by lia. done.
  - intros a Ha. rewrite decide_False; [done|]. lia.
Qed.
End entry.

(** ** The contents of files *)

(** Byte [k] of the file whose clusters are [l]. *)
Definition file_byte (dsk : memory) (l : list Z) (k : Z) : Z :=
  load8 dsk (cluster_addr (default 0 (l !! Z.to_nat (k / bpc))) + k `mod` bpc).

Lemma bpc_pos : SECTOR_SIZE ≤ bpc.
Proof. destruct Hfs as [_ [? [E ?]] _ _ _ _]. unfold SECTOR_SIZE in *. lia. Qed.

Lemma cluster_order_spec n : ∀ order, 0 ≤ order → order + Z.of_nat n ≤ 32 → bpc ≤ Z.shiftl 4096 (order + Z.of_nat n) →
  bpc ≤ Z.shiftl 4096 (cluster_order n order bpc).
Proof.
  induction n as [|n IH]; intros order H0 Hn Hb; cbn [cluster_order]; [by rewrite Z.add_0_r in Hb|].
  assert (0 ≤ Z.shiftl 4096 order < 2 ^ 64).
  { rewrite Z.shiftl_mul_pow2 by lia. assert (0 < 2 ^ order ≤ 2 ^ 32) by (split; [apply Z.pow_pos_nonneg; lia|apply Z.pow_le_mono_r; lia]). lia. }
  rewrite u64_small by lia. destruct (Z.ltb_spec (Z.shiftl 4096 order) bpc); [|done].
  apply IH; [lia|lia|]. by replace (order + 1 + Z.of_nat n) with (order + Z.of_nat (S n)) by lia.
Qed.
Lemma cluster_buffer_ok : bpc ≤ cluster_buffer fs.
Proof.
  unfold cluster_buffer. apply cluster_order_spec; [lia|lia|]. destruct Hfs as [_ [_ [_ H]] _ _ _ _].
  change (Z.shiftl 4096 (0 + Z.of_nat 32)) with (4096 * 2 ^ 32). lia.
Qed.

(** The file is positioned at offset [o] of the [i]-th cluster; [o] can be the
    end of the cluster. *)
Definition placed (l : list Z) (f : exfat_file) (i o : Z) : Prop :=
  0 ≤ i ∧ 0 ≤ o ≤ bpc ∧ l !! Z.to_nat i = Some (current_cluster f) ∧ cluster_offset f = o ∧ position f = i * bpc + o.

Lemma file_byte_at dsk l i c o : 0 ≤ i → 0 ≤ o < bpc → l !! Z.to_nat i = Some c → file_byte dsk l (i * bpc + o) = load8 dsk (cluster_addr c + o).
Proof.
  intros Hi Ho Hc. unfold file_byte. rewrite Z.div_add_l, Z.div_small, Z.add_0_r by lia. rewrite Hc. cbn. do 2 f_equal.
  rewrite Z.add_comm, Z.mod_add by lia. by apply Z.mod_small.
Qed.

Lemma read_cluster_spec c buf dsk : cluster_ok c →
  ∃ buf', read_sectors (exfat_cluster_to_sector fs c) spc buf (cluster_buffer fs) dsk = Ok ((0, buf'), dsk) ∧
    ∀ b, 0 ≤ b < bpc → load8 buf' b = load8 dsk (cluster_addr c + b).
Proof.
  intros Hc. pose proof cluster_buffer_ok. rewrite cluster_to_sector_ok by done. unfold cluster_ok in Hc.
  destruct Hfs as [_ [? [E ?]] [? ?] ? ? ?]. destruct (read_sectors_spec (cluster_heap_offset fs + (c - 2) * spc) spc buf (cluster_buffer fs) dsk) as (buf' & Eb & Hb).
  - unfold SECTOR_SIZE in *. nia.
  - lia.
  - nia.
  - unfold SECTOR_SIZE in *. lia.
  - exists buf'. split; [done|]. intros b Hbb. apply Hb. lia.
Qed.

(** The first part of an iteration: the next cluster when this one is used up. *)
Definition advance (depth : nat) (f : exfat_file) : M memory (bool * exfat_file) :=
  if bpc <=? cluster_offset f then
    if no_fat_chain f then mret (true, set_place (position f) (u32 (current_cluster f + 1)) 0 f)
    else next ← exfat_get_fat_entry sector_ok palloc_ok junk po depth fs (current_cluster f);
         if EXFAT_FAT_EOC <=? next then mret (false, set_place (position f) next (cluster_offset f) f)
         else mret (true, set_place (position f) next 0 f)
  else mret (true, f).

Lemma advance_spec depth dsk l f i o :
  chain (no_fat_chain f) dsk l → placed l f i o → i * bpc + o < Z.of_nat (length l) * bpc →
  ∃ f' i' o', advance depth f dsk = Ok ((true, f'), dsk) ∧ placed l f' i' o' ∧ o' < bpc ∧ i' * bpc + o' = i * bpc + o ∧
    no_fat_chain f' = no_fat_chain f.
Proof.
  intros Hl (Hi & Ho & Hc & Eo & Ep) Hend. pose proof bpc_pos as Hb. unfold SECTOR_SIZE in Hb. unfold advance. rewrite Eo.
  destruct (Z.leb_spec bpc o) as [Hge|Hlt]; [|by exists f, i, o].
  assert (o = bpc) as -> by lia. assert (Hi1 : i + 1 < Z.of_nat (length l)) by nia.
  destruct (lookup_lt_is_Some_2 l (S (Z.to_nat i))) as [c' Hc']; [lia|].
  pose proof (chain_next _ _ _ _ _ _ Hl Hc Hc') as Hn. pose proof (chain_lookup _ _ _ _ _ Hl Hc) as Hok. pose proof (chain_lookup _ _ _ _ _ Hl Hc') as Hok'.
  assert (HP : placed l (set_place (position f) c' 0 f) (i + 1) 0).
  { unfold placed. cbn. replace (Z.to_nat (i + 1)) with (S (Z.to_nat i)) by lia. splits; [lia|lia|lia|done|done|lia]. }
  destruct (no_fat_chain f) eqn:En; cbn [next_of] in Hn.
  - rewrite cluster_next_u32, Hn by done. eexists _, _, _. splits; [done|exact HP|lia|lia|done].
  - mstep with (get_fat_entry_spec depth (current_cluster f) dsk ltac:(unfold cluster_ok in Hok; lia)). rewrite Hn.
    destruct Hfs as [_ _ _ _ ? _]. unfold cluster_ok in Hok'. rewrite (proj2 (Z.leb_gt EXFAT_FAT_EOC c')) by (unfold EXFAT_FAT_EOC; lia).
    eexists _, _, _. splits; [done|exact HP|lia|lia|done].
Qed.

Lemma seqZ_split s a b : 0 ≤ a → 0 ≤ b → seqZ s (a + b) = seqZ s a ++ seqZ (s + a) b.
Proof. intros Ha Hb. by rewrite seqZ_app. Qed.

Lemma read_file_loop_spec depth dsk l : ∀ fuel f i o n buf acc,
  chain (no_fat_chain f) dsk l → placed l f i o → 0 ≤ n → i * bpc + o + n ≤ Z.of_nat (length l) * bpc → n < 2 ^ 64 → i * bpc + o + n < 2 ^ 64 →
  (Z.to_nat n ≤ fuel)%nat →
  ∃ f', read_file_loop sector_ok palloc_ok junk po fuel depth fs f n buf acc dsk =
    Ok ((acc ++ (file_byte dsk l <$> seqZ (i * bpc + o) n), f'), dsk).
Proof.
  induction fuel as [|fuel IH]; intros f i o n buf acc Hl HP Hn Hend Hn64 Hp64 Hf; cbn [read_file_loop].
  { assert (n = 0) as -> by lia. cbn. rewrite app_nil_r. by exists f. }
  destruct (Z.leb_spec n 0) as [Hn0|Hpos].
  { assert (n = 0) as -> by lia. cbn. rewrite app_nil_r. by exists f. }
  destruct (advance_spec depth dsk l f i o Hl HP ltac:(lia)) as (f1 & i1 & o1 & E1 & HP1 & Ho1 & Epos & Enf). mstep with E1. cbn [fst snd negb].
  rewrite <-Enf in Hl. pose proof HP1 as (Hi1 & Ho1' & Hc1 & Eo1 & Ep1). pose proof (chain_lookup _ _ _ _ _ Hl Hc1) as Hok.
  destruct (read_cluster_spec (current_cluster f1) buf dsk Hok) as (buf' & E2 & Hb'). mstep with E2. cbn [fst snd Z.eqb negb]. rewrite Eo1.
  pose proof (fo_cluster Hfs) as (_ & _ & Hb32). rewrite !(u32_small (bpc - o1)) by lia.
  set (copy := if n <? bpc - o1 then u32 n else bpc - o1).
  assert (Hcopy : copy = Z.min n (bpc - o1)) by (unfold copy; destruct (Z.ltb_spec n (bpc - o1)); [rewrite u32_small by lia|]; lia).
  assert (0 ≤ i1 * bpc) by nia. rewrite Ep1.
  rewrite (u64_small (n - copy)), (u32_small (o1 + copy)), (u64_small (i1 * bpc + o1 + copy)) by lia.
  set (f2 := set_place (i1 * bpc + o1 + copy) (current_cluster f1) (o1 + copy) f1).
  assert (HP2 : placed l f2 i1 (o1 + copy)) by (unfold placed, f2; cbn; splits; [lia|lia|lia|done|done|lia]).
  destruct (IH f2 i1 (o1 + copy) (n - copy) buf' (acc ++ ((λ j, load8 buf' (o1 + j)) <$> seqZ 0 copy))) as (f' & E3);
    [done|done|lia|lia|lia|lia|lia|].
  exists f'. rewrite E3. do 3 f_equal. rewrite <-app_assoc. f_equal. rewrite <-Epos.
  replace n with (copy + (n - copy)) at 2 by lia. rewrite seqZ_app, fmap_app by lia. f_equal.
  - apply list_eq. intros j. rewrite !list_lookup_fmap. destruct (decide (Z.of_nat j < copy)) as [Hj|Hj].
    + rewrite !lookup_seqZ_lt by lia. cbn. f_equal. rewrite Z.add_0_l, Hb' by lia.
      rewrite <-Z.add_assoc, (file_byte_at dsk l i1 (current_cluster f1)) by (done || lia). done.
    + rewrite !lookup_seqZ_ge by lia. done.
  - by rewrite Z.add_assoc.
Qed.

(** ** Seeking *)

Lemma seek_loop_spec depth dsk l : ∀ fuel f i rem,
  chain (no_fat_chain f) dsk l → placed l f i 0 → 0 ≤ rem → i * bpc + rem ≤ Z.of_nat (length l) * bpc → i * bpc + rem < 2 ^ 64 →
  rem < Z.of_nat fuel * bpc →
  ∃ f', seek_loop sector_ok palloc_ok junk po fuel depth fs f rem dsk = Ok (f', dsk) ∧
    position f' = i * bpc + rem ∧ file_size f' = file_size f ∧ no_fat_chain f' = no_fat_chain f ∧
    (i * bpc + rem < Z.of_nat (length l) * bpc → ∃ i' o', placed l f' i' o' ∧ o' < bpc).
Proof.
  pose proof bpc_pos as Hb. unfold SECTOR_SIZE in Hb. pose proof (fo_cluster Hfs) as (_ & _ & Hb32).
  induction fuel as [|fuel IH]; intros f i rem Hl HP Hr Hend H64 Hf; [lia|].
  pose proof HP as (Hi & _ & Hc & Eo & Ep). pose proof (chain_lookup _ _ _ _ _ Hl Hc) as Hok. pose proof (fo_count Hfs). assert (0 ≤ i * bpc) by nia.
  cbn [seek_loop]. unfold cluster_ok in Hok. rewrite (proj2 (Z.leb_le 2 (current_cluster f))), (proj2 (Z.ltb_lt (current_cluster f) EXFAT_FAT_EOC)) by (unfold EXFAT_FAT_EOC; lia).
  rewrite !andb_true_r. destruct (Z.ltb_spec 0 rem) as [Hpos|Hrem]; cbn [negb].
  2: { exists f. assert (rem = 0) as -> by lia. splits; [done|lia|done|done|]. intros _. exists i, 0. split; [done|lia]. }
  rewrite Eo, Z.sub_0_r, (u64_small bpc), Ep by lia. destruct (Z.ltb_spec rem bpc) as [Hlt|Hge].
  - rewrite (u32_small rem), Z.add_0_l, (u32_small rem), u64_small by lia. eexists. split; [done|]. cbn. splits; [lia|done|done|]. intros _. exists i, rem.
    split; [|done]. unfold placed. cbn. splits; [lia|lia|lia|done|done|lia].
  - rewrite (u64_small (i * bpc + 0 + bpc)), (u64_small (rem - bpc)) by lia.
    assert (Hlast : ∀ c, rem = bpc → seek_loop sector_ok palloc_ok junk po fuel depth fs (set_place (i * bpc + 0 + bpc) c 0 f) (rem - bpc) dsk =
      Ok (set_place (i * bpc + 0 + bpc) c 0 f, dsk)) by (intros c ->; rewrite Z.sub_diag; by destruct fuel).
    destruct (decide (i + 1 < Z.of_nat (length l))) as [Hmore|Hno].
    + destruct (lookup_lt_is_Some_2 l (S (Z.to_nat i))) as [c' Hc']; [lia|].
      pose proof (chain_next _ _ _ _ _ _ Hl Hc Hc') as Hn. pose proof (chain_lookup _ _ _ _ _ Hl Hc') as Hok'.
      set (f1 := set_place (i * bpc + 0 + bpc) c' 0 f).
      assert (HP1 : placed l f1 (i + 1) 0).
      { unfold placed, f1. cbn. replace (Z.to_nat (i + 1)) with (S (Z.to_nat i)) by lia. splits; [lia|lia|lia|done|done|lia]. }
      destruct (IH f1 (i + 1) (rem - bpc)) as (f' & E & Hp' & Hs' & Hn' & Hd'); [done|done|lia|lia|lia|lia|].
      assert (Hres : ∃ f', seek_loop sector_ok palloc_ok junk po fuel depth fs f1 (rem - bpc) dsk = Ok (f', dsk) ∧ position f' = i * bpc + rem ∧
        file_size f' = file_size f ∧ no_fat_chain f' = no_fat_chain f ∧ (i * bpc + rem < Z.of_nat (length l) * bpc → ∃ i' o', placed l f' i' o' ∧ o' < bpc)).
      { exists f'. splits; [done|lia|done|done|]. intros Hx. apply Hd'. lia. }
      destruct (no_fat_chain f) eqn:En; cbn [next_of] in Hn.
      * rewrite cluster_next_u32, Hn by (unfold cluster_ok; lia). exact Hres.
      * mstep with (get_fat_entry_spec depth (current_cluster f) dsk ltac:(lia)). rewrite Hn. unfold cluster_ok in Hok'.
        rewrite (proj2 (Z.leb_gt EXFAT_FAT_EOC c')) by (unfold EXFAT_FAT_EOC; lia). exact Hres.
    + assert (i = Z.of_nat (length l) - 1) by (apply lookup_lt_Some in Hc; lia). assert (rem = bpc) as Erem by nia.
      assert (Hbad : ¬ (i * bpc + rem < Z.of_nat (length l) * bpc)) by nia.
      destruct (no_fat_chain f) eqn:En.
      * rewrite Hlast by done. eexists. split; [done|]. cbn. splits; [lia|done|done|done].
      * mstep with (get_fat_entry_spec depth (current_cluster f) dsk ltac:(lia)). destruct (EXFAT_FAT_EOC <=? fat dsk (current_cluster f)).
        -- eexists. split; [done|]. cbn. splits; [lia|done|done|done].
        -- rewrite Hlast by done. eexists. split; [done|]. cbn. splits; [lia|done|done|done].
Qed.

(** A file on the disk: its clusters hold its bytes. *)
Record file_on (dsk : memory) (l : list Z) (f : exfat_file) : Prop := {
  fi_chain : chain (no_fat_chain f) dsk l;
  fi_first : match l with c :: _ => first_cluster f = c | [] => True end;
  fi_size : 0 ≤ file_size f ≤ Z.of_nat (length l) * bpc ∧ file_size f < 2 ^ 62;
}.

Lemma seek_read_spec dsk l f pos size fuel depth :
  file_on dsk l f → 0 ≤ pos → 0 ≤ size < 2 ^ 62 → file_size f < Z.of_nat fuel → size ≤ Z.of_nat fuel →
  let p := Z.min pos (file_size f) in
  ∃ f', (f ← exfat_seek sector_ok palloc_ok junk po fuel depth fs f pos; exfat_read sector_ok palloc_ok junk po fuel depth fs f size) dsk =
    Ok ((Some (file_byte dsk l <$> seqZ p (Z.min size (file_size f - p))), f'), dsk).
Proof.
  intros [Hl Hfst Hsz] Hp Hs Hf1 Hf2 p. pose proof bpc_pos as Hb. unfold SECTOR_SIZE in Hb. unfold exfat_seek.
  assert (Ep : (if file_size f <? pos then file_size f else pos) = p) by (unfold p; destruct (Z.ltb_spec (file_size f) pos); lia). rewrite Ep.
  assert (Hread : ∀ f1, position f1 = p → file_size f1 = file_size f → no_fat_chain f1 = no_fat_chain f →
    (p < Z.of_nat (length l) * bpc → ∃ i' o', placed l f1 i' o' ∧ o' < bpc) →
    ∃ f', exfat_read sector_ok palloc_ok junk po fuel depth fs f1 size dsk =
      Ok ((Some (file_byte dsk l <$> seqZ p (Z.min size (file_size f - p))), f'), dsk)).
  { intros f1 E1 E2 E3 Hpl. unfold exfat_read. rewrite Hpage, E1, E2. cbn [negb]. rewrite (u64_small (p + size)), (u64_small (file_size f - p)) by lia.
    assert (En : (if file_size f <? p + size then file_size f - p else size) = Z.min size (file_size f - p)) by (destruct (Z.ltb_spec (file_size f) (p + size)); lia).
    rewrite En. set (n := Z.min size (file_size f - p)). destruct (decide (n = 0)) as [E0|Hn0].
    - rewrite E0. exists f1. by destruct fuel.
    - destruct Hpl as (i & o & HP & Ho); [lia|]. pose proof HP as (_ & _ & _ & _ & Epp). rewrite E1 in Epp.
      destruct (read_file_loop_spec (S depth) dsk l fuel f1 i o n junk []) as (f' & E); [by rewrite E3|done|lia|lia|lia|lia|lia|].
      mstep with E. cbn [fst snd]. rewrite Epp. by exists f'. }
  destruct l as [|c l'].
  - cbn in Hsz. assert (p = 0) as Ep0 by lia. rewrite Ep0 in *. set (f0 := set_place 0 (first_cluster f) 0 f).
    destruct (Hread f0) as (f' & E); [done|done|done|cbn; lia|]. exists f'.
    assert (Es : seek_loop sector_ok palloc_ok junk po fuel depth fs f0 0 dsk = Ok (f0, dsk)) by (by destruct fuel). mstep with Es. exact E.
  - set (f0 := set_place 0 (first_cluster f) 0 f).
    assert (HP0 : placed (c :: l') f0 0 0) by (unfold placed, f0; cbn; splits; [lia|lia|lia|by rewrite Hfst|done|done]).
    destruct (seek_loop_spec depth dsk (c :: l') fuel f0 0 p) as (f1 & E & P1 & P2 & P3 & P4); [done|done|lia|lia|lia|nia|].
    destruct (Hread f1) as (f' & E'); [lia|done|done|exact P4|]. exists f'. mstep with E. exact E'.
Qed.

(** ** The allocation bitmap *)

Definition bit_of (byte_at : Z → Z) (b : Z) : bool := Z.testbit (byte_at (b / 8)) (b `mod` 8).

Lemma clear_bit_spec n byte : ∀ k, 0 ≤ k →
  match clear_bit n byte k with
  | Some b => k ≤ b < k + Z.of_nat n ∧ Z.testbit byte b = false ∧ ∀ j, k ≤ j < b → Z.testbit byte j = true
  | None => ∀ j, k ≤ j < k + Z.of_nat n → Z.testbit byte j = true
  end.
Proof.
  induction n as [|n IH]; intros k Hk; cbn [clear_bit]; [intros j Hj; lia|]. rewrite land_bit_eqb by done.
  destruct (Z.testbit byte k) eqn:E; cbn [negb]; [|splits; [lia|lia|done|intros j Hj; lia]].
  specialize (IH (k + 1) ltac:(lia)). destruct (clear_bit n byte (k + 1)) as [b|].
  - destruct IH as (H1 & H2 & H3). splits; [lia|lia|done|]. intros j Hj. destruct (decide (j = k)) as [->|]; [done|]. apply H3. lia.
  - intros j Hj. destruct (decide (j = k)) as [->|]; [done|]. apply IH. lia.
Qed.

Lemma byte_all_set byte : byte = 0xFF → ∀ j, 0 ≤ j < 8 → Z.testbit byte j = true.
Proof. intros -> j Hj. assert (j = 0 ∨ j = 1 ∨ j = 2 ∨ j = 3 ∨ j = 4 ∨ j = 5 ∨ j = 6 ∨ j = 7) as H by lia. by repeat destruct H as [->|H]; [..|subst]. Qed.

Lemma clear_byte_spec n buf : ∀ i, 0 ≤ i →
  match clear_byte n buf i with
  | Some (j, b) => i ≤ j < i + Z.of_nat n ∧ 0 ≤ b < 8 ∧ bit_of (load8 buf) (8 * j + b) = false ∧
      ∀ x, 8 * i ≤ x < 8 * j + b → bit_of (load8 buf) x = true
  | None => ∀ x, 8 * i ≤ x < 8 * (i + Z.of_nat n) → bit_of (load8 buf) x = true
  end.
Proof.
  induction n as [|n IH]; intros i Hi; cbn [clear_byte]; [intros x Hx; lia|].
  assert (Hbit : ∀ b, 0 ≤ b < 8 → bit_of (load8 buf) (8 * i + b) = Z.testbit (load8 buf i) b).
  { intros b Hb. unfold bit_of. replace ((8 * i + b) / 8) with i by zdiv. by replace ((8 * i + b) `mod` 8) with b by zdiv. }
  assert (Hfull : (∀ j, 0 ≤ j < 8 → Z.testbit (load8 buf i) j = true) → ∀ x, 8 * i ≤ x < 8 * (i + 1) → bit_of (load8 buf) x = true).
  { intros Hall x Hx. replace x with (8 * i + (x - 8 * i)) by lia. rewrite Hbit by lia. apply Hall. lia. }
  assert (Hrec : (∀ j, 0 ≤ j < 8 → Z.testbit (load8 buf i) j = true) → match clear_byte n buf (i + 1) with
    | Some (j, b) => i ≤ j < i + Z.of_nat (S n) ∧ 0 ≤ b < 8 ∧ bit_of (load8 buf) (8 * j + b) = false ∧ ∀ x, 8 * i ≤ x < 8 * j + b → bit_of (load8 buf) x = true
    | None => ∀ x, 8 * i ≤ x < 8 * (i + Z.of_nat (S n)) → bit_of (load8 buf) x = true end).
  { intros Hall. specialize (IH (i + 1) ltac:(lia)). specialize (Hfull Hall). destruct (clear_byte n buf (i + 1)) as [[j b]|].
    - destruct IH as (H1 & H2 & H3 & H4). splits; [lia|lia|lia|lia|done|]. intros x Hx. destruct (decide (x < 8 * (i + 1))); [apply Hfull; lia|apply H4; lia].
    - intros x Hx. destruct (decide (x < 8 * (i + 1))); [apply Hfull; lia|apply IH; lia]. }
  destruct (Z.eqb_spec (load8 buf i) 0xFF) as [E|E]; [by apply Hrec, byte_all_set|].
  pose proof (clear_bit_spec 8 (load8 buf i) 0 ltac:(lia)) as Hc. destruct (clear_bit 8 (load8 buf i) 0) as [b|]; [|by apply Hrec].
  destruct Hc as (H1 & H2 & H3). rewrite Hbit by lia. splits; [lia|lia|lia|lia|done|]. intros x Hx.
  replace x with (8 * i + (x - 8 * i)) by lia. rewrite Hbit by lia. apply H3. lia.
Qed.

(** Whether cluster [b + 2] is in use, in a bitmap whose clusters are [bl]; the place of byte [k] of it. *)
Definition used (dsk : memory) (bl : list Z) (b : Z) : bool := bit_of (file_byte dsk bl) b.
Definition bitmap_addr (bl : list Z) (k : Z) : Z := cluster_addr (default 0 (bl !! Z.to_nat (k / bpc))) + k `mod` bpc.

(** The bitmap is the chain [bl] of the table, and has a bit for every cluster. *)
Record bitmap_on (dsk : memory) (bl : list Z) : Prop := {
  bm_chain : chain false dsk bl;
  bm_apart : NoDup bl;
  bm_end : ∀ c, last bl = Some c → EXFAT_FAT_EOC ≤ fat dsk c;
  bm_size : cluster_count fs ≤ 8 * (Z.of_nat (length bl) * bpc) ≤ 2 ^ 32;
}.

(** [c] has been allocated: it was the first free one, its bit is set and its entry of the table is the end mark, and
    nothing else has changed. *)
Record allocated (dsk : memory) (bl : list Z) (c : Z) (dsk' : memory) : Prop := {
  al_ok : cluster_ok c;
  al_free : used dsk bl (c - 2) = false;
  al_first : ∀ b, 0 ≤ b < c - 2 → used dsk bl b = true;
  al_bits : ∀ b, 0 ≤ b < 8 * (Z.of_nat (length bl) * bpc) → used dsk' bl b = used dsk bl b || (b =? c - 2);
  al_fat : ∀ x, 0 ≤ x < cluster_count fs + 2 → fat dsk' x = if decide (x = c) then EXFAT_FAT_EOC else fat dsk x;
  al_frame : ∀ a, a ≠ bitmap_addr bl ((c - 2) / 8) → ¬ (fat_addr c ≤ a < fat_addr c + 4) → load8 dsk' a = load8 dsk a;
}.

Lemma bit_set_other byte b j : 0 ≤ b → 0 ≤ j → Z.testbit (Z.lor byte (Z.shiftl 1 b)) j = Z.testbit byte j || (b =? j).
Proof. intros Hb Hj. rewrite Z.lor_spec, shiftl_1, testbit_pow2 by done. done. Qed.

Lemma lor_bit_byte byte b : 0 ≤ byte < 256 → 0 ≤ b < 8 → 0 ≤ Z.lor byte (Z.shiftl 1 b) < 256.
Proof.
  intros H1 H2. change 256 with (2 ^ 8). apply lor_fits; [lia|done|]. rewrite shiftl_1 by lia. split; [apply Z.pow_nonneg; lia|apply Z.pow_lt_mono_r; lia].
Qed.

(** Setting bit [b] of byte [i] of the bitmap cluster and writing its sector. *)
Lemma write_bitmap_spec bc buf dsk i b : cluster_ok bc → 0 ≤ i < bpc → 0 ≤ b < 8 →
  (∀ x, 0 ≤ x < bpc → load8 buf x = load8 dsk (cluster_addr bc + x)) →
  ∃ dsk', write_sectors (u64 (exfat_cluster_to_sector fs bc + i / bytes_per_sector fs)) 1 (store8 buf i (Z.lor (load8 buf i) (Z.shiftl 1 b)))
      (Z.land i (Z.lnot (bytes_per_sector fs - 1))) dsk = Ok (0, dsk') ∧
    ∀ a, load8 dsk' a = if decide (a = cluster_addr bc + i) then Z.lor (load8 dsk (cluster_addr bc + i)) (Z.shiftl 1 b) else load8 dsk a.
Proof.
  intros Hbc Hi Hb Hbuf. rewrite cluster_to_sector_ok by done. unfold cluster_ok in Hbc. destruct Hfs as [Eb [? [E ?]] [? ?] ? ? ?]. rewrite Eb.
  assert (Eland : Z.land i (Z.lnot (SECTOR_SIZE - 1)) = i / 512 * 512) by (apply (land_lnot_ones i 9); lia). rewrite Eland.
  unfold SECTOR_SIZE in *. set (s := cluster_heap_offset fs + (bc - 2) * spc). assert (0 ≤ i / 512 < spc) by zdiv.
  assert (Hs : 0 ≤ s ∧ po + s + spc < 2 ^ 48) by (unfold s; nia). rewrite u64_small by lia.
  destruct (write_sectors_spec (s + i / 512) 1 (store8 buf i (Z.lor (load8 buf i) (Z.shiftl 1 b))) (i / 512 * 512) dsk) as (dsk' & Ew & Hw); [lia|lia|lia|].
  exists dsk'. split; [exact Ew|]. intros a. rewrite Hw. unfold cluster_addr. fold s. unfold sector_addr, SECTOR_SIZE.
  pose proof (Hbuf i ltac:(lia)) as Hbi. unfold cluster_addr in Hbi. fold s in Hbi. unfold sector_addr, SECTOR_SIZE in Hbi. case_decide as Hd.
  - rewrite load8_store8. case_decide as Hd1.
    + rewrite decide_True by zdiv. rewrite Hbi. apply u8_small, lor_bit_byte; [apply load8_range|lia].
    + rewrite decide_False by zdiv. rewrite Hbuf by zdiv. unfold cluster_addr. fold s. unfold sector_addr, SECTOR_SIZE. f_equal. lia.
  - rewrite decide_False; [done|]. zdiv.
Qed.

Lemma bitmap_addr_at bl k x i : bl !! k = Some x → 0 ≤ i < bpc → bitmap_addr bl (Z.of_nat k * bpc + i) = cluster_addr x + i.
Proof.
  intros Hx Hi. unfold bitmap_addr. rewrite Z.div_add_l, Z.div_small, Z.add_0_r, Nat2Z.id, Hx by lia. cbn.
  by rewrite Z.add_comm, Z.add_comm, (Z.add_comm (Z.of_nat k * bpc)), Z.mod_add, Z.mod_small by lia.
Qed.
Lemma bitmap_addr_inj bl j k : NoDup bl → 0 ≤ j < Z.of_nat (length bl) * bpc → 0 ≤ k < Z.of_nat (length bl) * bpc →
  bitmap_addr bl j = bitmap_addr bl k → j = k.
Proof.
  intros Hnd Hj Hk. destruct Hfs as [_ [? [E ?]] _ _ _ _]. unfold SECTOR_SIZE in *. unfold bitmap_addr, cluster_addr, sector_addr, SECTOR_SIZE.
  assert (0 ≤ j / bpc < Z.of_nat (length bl) ∧ 0 ≤ k / bpc < Z.of_nat (length bl)) as [Dj Dk].
  { split; (split; [apply Z.div_pos; lia|apply Z.div_lt_upper_bound; lia]). }
  destruct (lookup_lt_is_Some_2 bl (Z.to_nat (j / bpc))) as [x Hx]; [lia|]. destruct (lookup_lt_is_Some_2 bl (Z.to_nat (k / bpc))) as [y Hy]; [lia|].
  rewrite Hx, Hy. cbn. pose proof (Z.mod_pos_bound j bpc ltac:(lia)). pose proof (Z.mod_pos_bound k bpc ltac:(lia)). intros Ea.
  assert (x = y) as <- by nia. assert (Z.to_nat (j / bpc) = Z.to_nat (k / bpc)) by (by eapply NoDup_lookup).
  pose proof (Z.div_mod j bpc ltac:(lia)). pose proof (Z.div_mod k bpc ltac:(lia)). assert (j / bpc = k / bpc) as Ed by lia. rewrite Ed in *. lia.
Qed.
Lemma bitmap_in_heap dsk bl k x : chain false dsk bl → 0 ≤ k < Z.of_nat (length bl) * bpc → 0 ≤ x < cluster_count fs + 2 → fat_addr x + 4 ≤ bitmap_addr bl k.
Proof.
  intros Hl Hk Hx. pose proof bpc_pos as Hb. unfold SECTOR_SIZE in Hb. unfold bitmap_addr. pose proof (Z.mod_pos_bound k bpc ltac:(lia)).
  assert (0 ≤ k / bpc < Z.of_nat (length bl)) by (split; [apply Z.div_pos; lia|apply Z.div_lt_upper_bound; lia]).
  destruct (lookup_lt_is_Some_2 bl (Z.to_nat (k / bpc))) as [c Hc]; [lia|]. rewrite Hc. cbn.
  pose proof (chain_lookup _ _ _ _ _ Hl Hc) as Hok. unfold cluster_ok in Hok. destruct Hfs as [_ [? _] [? ?] ? ? ?].
  assert (0 ≤ (c - 2) * spc) by (apply Z.mul_nonneg_nonneg; lia). generalize dependent (k `mod` bpc). intros r Hr.
  unfold fat_addr, cluster_addr, sector_addr, SECTOR_SIZE in *. lia.
Qed.

(** A free bit has been found: the bit is set and the table written. *)
Lemma take_cluster_spec depth dsk bl k x buf i b (idx := (Z.of_nat k * bpc + i) * 8 + b) :
  bitmap_on dsk bl → bl !! k = Some x → 0 ≤ i < bpc → 0 ≤ b < 8 → (∀ y, 0 ≤ y < bpc → load8 buf y = load8 dsk (cluster_addr x + y)) →
  idx < cluster_count fs → used dsk bl idx = false → (∀ y, 0 ≤ y < idx → used dsk bl y = true) →
  ∃ dsk', (write_sectors (u64 (exfat_cluster_to_sector fs x + i / bytes_per_sector fs)) 1 (store8 buf i (Z.lor (load8 buf i) (Z.shiftl 1 b)))
      (Z.land i (Z.lnot (bytes_per_sector fs - 1)));;
    exfat_set_fat_entry sector_ok palloc_ok junk po depth fs (idx + 2) EXFAT_FAT_EOC;; mret (Some (idx + 2))) dsk = Ok (Some (idx + 2), dsk') ∧
    allocated dsk bl (idx + 2) dsk'.
Proof.
  intros [Hl Hnd _ Hsz] Hx Hi Hb Hbuf Hlt Hfree Hall. pose proof (chain_lookup _ _ _ _ _ Hl Hx) as Hok. pose proof (lookup_lt_Some _ _ _ Hx) as Hk.
  destruct (write_bitmap_spec x buf dsk i b Hok Hi Hb Hbuf) as (d1 & E1 & Hd1). mstep with E1.
  assert (0 ≤ Z.of_nat k * bpc) by nia. assert (Hc : 0 ≤ idx + 2 < cluster_count fs + 2) by (unfold idx in *; lia).
  destruct (set_fat_entry_spec depth (idx + 2) EXFAT_FAT_EOC d1 Hc) as (d2 & E2 & Hd2). mstep with E2.
  exists d2. split; [done|]. assert (E8 : idx / 8 = Z.of_nat k * bpc + i) by (unfold idx; zdiv).
  assert (Em : idx `mod` 8 = b) by (unfold idx; zdiv). assert (Hki : Z.of_nat k * bpc + i < Z.of_nat (length bl) * bpc) by nia.
  pose proof (bitmap_addr_at bl k x i Hx Hi) as Ea. rewrite <-Ea in Hd1.
  assert (Hd : ∀ a, load8 d2 a = if decide (fat_addr (idx + 2) ≤ a < fat_addr (idx + 2) + 4) then load8 d2 a else
    if decide (a = bitmap_addr bl (idx / 8)) then Z.lor (load8 dsk (bitmap_addr bl (idx / 8))) (Z.shiftl 1 b) else load8 dsk a).
  { intros a. case_decide as Hf; [done|]. rewrite Hd2, E8, <-Hd1. unfold store32. rewrite load8_store. apply decide_False. lia. }
  replace (idx + 2) with (idx + 2) by lia. split; replace (idx + 2 - 2) with idx by lia; [unfold cluster_ok; lia|done|done|..].
  - intros y Hy. unfold used, bit_of. change (file_byte d2 bl (y / 8)) with (load8 d2 (bitmap_addr bl (y / 8))).
    change (file_byte dsk bl (y / 8)) with (load8 dsk (bitmap_addr bl (y / 8))).
    assert (Hy8 : 0 ≤ y / 8 < Z.of_nat (length bl) * bpc) by zdiv. pose proof (bitmap_in_heap dsk bl (y / 8) _ Hl Hy8 Hc).
    rewrite Hd, decide_False by lia. case_decide as Hd'.
    + apply bitmap_addr_inj in Hd'; [|done|done|lia]. rewrite <-Hd', bit_set_other by zdiv. f_equal. apply eq_true_iff_eq. rewrite !Z.eqb_eq. rewrite <-Em. zdiv.
    + rewrite (proj2 (Z.eqb_neq y idx)) by (intros ->; done). by rewrite orb_false_r.
  - intros y Hy. unfold fat. case_decide as Hd'.
    + subst y. rewrite (load_ext 4 d2 (store32 d1 (fat_addr (idx + 2)) EXFAT_FAT_EOC)) by (intros; apply Hd2). unfold load32, store32. by rewrite load_store_eq.
    + apply load_ext. intros z Hz. rewrite Hd, decide_False by (unfold fat_addr in *; lia).
      pose proof (bitmap_in_heap dsk bl (idx / 8) y Hl ltac:(lia) Hy). by rewrite decide_False by lia.
  - intros a Ha Hnf. rewrite Hd, decide_False by done. by rewrite decide_False.
Qed.

(** What the call returns: all clusters are in use, or one is allocated. *)
Definition allocation (dsk : memory) (bl : list Z) (r : outcome (option Z * memory)) : Prop :=
  (r = Ok (None, dsk) ∧ ∀ b, 0 ≤ b < cluster_count fs → used dsk bl b = true) ∨
  ∃ c dsk', r = Ok (Some c, dsk') ∧ allocated dsk bl c dsk'.

(** The loop, at the [k]-th cluster of the bitmap. *)
Lemma allocate_loop_spec depth dsk bl : bitmap_on dsk bl → bpc ≤ PAGE_SIZE →
  ∀ fuel k curr buf, (k ≤ length bl)%nat → (length bl < fuel + k)%nat →
  match bl !! k with Some x => curr = x | None => EXFAT_FAT_EOC ≤ curr end →
  (∀ b, 0 ≤ b < 8 * (Z.of_nat k * bpc) → used dsk bl b = true) →
  allocation dsk bl (allocate_loop sector_ok palloc_ok junk po fuel (S depth) fs curr (Z.of_nat k) buf dsk).
Proof.
  intros HB Hpg. pose proof HB as [Hl Hnd Hend Hsz]. pose proof bpc_pos as Hbp. unfold SECTOR_SIZE in Hbp.
  pose proof (fo_count Hfs) as Hc32. pose proof (fo_cluster Hfs) as (Hspc & Ebpc & _).
  induction fuel as [|fuel IH]; intros k curr buf Hk Hfuel Hcurr Hall; [lia|]. cbn [allocate_loop].
  destruct (bl !! k) as [x|] eqn:Hx.
  2:{ rewrite (proj2 (Z.leb_le _ _) Hcurr). left. split; [done|]. intros b Hb. apply Hall. apply lookup_ge_None in Hx. nia. }
  subst curr. pose proof (chain_lookup _ _ _ _ _ Hl Hx) as Hok. pose proof (lookup_lt_Some _ _ _ Hx) as Hkl.
  rewrite (proj2 (Z.leb_gt EXFAT_FAT_EOC x)) by (unfold cluster_ok, EXFAT_FAT_EOC in *; lia).
  assert (Hs : 0 ≤ cluster_heap_offset fs + (x - 2) * spc ∧ po + (cluster_heap_offset fs + (x - 2) * spc) + spc < 2 ^ 64).
  { unfold cluster_ok in Hok. destruct Hfs as [_ _ [? ?] ? ? ?]. unfold SECTOR_SIZE in *. nia. }
  destruct (read_sectors_spec (exfat_cluster_to_sector fs x) spc buf PAGE_SIZE dsk) as (buf' & Er & Hbuf);
    [rewrite cluster_to_sector_ok by done; lia|lia|rewrite cluster_to_sector_ok by done; lia|lia|].
  rewrite cluster_to_sector_ok in Hbuf by done. rewrite <-Ebpc in Hbuf. fold (cluster_addr x) in Hbuf. mstep with Er. cbn [fst snd Z.eqb negb].
  assert (Hused : ∀ y, 0 ≤ y < 8 * bpc → used dsk bl (8 * (Z.of_nat k * bpc) + y) = bit_of (load8 buf') y).
  { intros y Hy. unfold used, bit_of. change (file_byte dsk bl) with (λ j, load8 dsk (bitmap_addr bl j)). cbn beta.
    replace ((8 * (Z.of_nat k * bpc) + y) / 8) with (Z.of_nat k * bpc + y / 8) by zdiv.
    rewrite (bitmap_addr_at bl k x) by (done || zdiv). rewrite <-Hbuf by zdiv. f_equal. zdiv. }
  pose proof (clear_byte_spec (Z.to_nat bpc) buf' 0 ltac:(lia)) as Hcl. rewrite Z2Nat.id in Hcl by lia.
  assert (Hsplit : ∀ y, 0 ≤ y → (8 * (Z.of_nat k * bpc) ≤ y → bit_of (load8 buf') (y - 8 * (Z.of_nat k * bpc)) = true ∧ y < 8 * (Z.of_nat k * bpc) + 8 * bpc) → used dsk bl y = true).
  { intros y Hy H. destruct (decide (y < 8 * (Z.of_nat k * bpc))); [by apply Hall|]. destruct H as [H1 H2]; [lia|].
    replace y with (8 * (Z.of_nat k * bpc) + (y - 8 * (Z.of_nat k * bpc))) by lia. by rewrite Hused by lia. }
  destruct (clear_byte (Z.to_nat bpc) buf' 0) as [[i b]|].
  - destruct Hcl as (H1 & H2 & H3 & H4). set (idx := (Z.of_nat k * bpc + i) * 8 + b).
    assert (Hidx : 0 ≤ idx < 2 ^ 32) by (unfold idx; nia). assert (Eu : u32 (u32 (idx + 2) - 2) = idx).
    { unfold u32. rewrite Zminus_mod_idemp_l. replace (idx + 2 - 2) with idx by lia. by apply Z.mod_small. }
    rewrite Eu. assert (Hbefore : ∀ y, 0 ≤ y < idx → used dsk bl y = true).
    { intros y Hy. apply Hsplit; [lia|]. intros Hge. unfold idx in Hy. split; [apply H4; lia|lia]. }
    destruct (Z.leb_spec (cluster_count fs) idx) as [Hover|Hin].
    { left. split; [done|]. intros y Hy. apply Hbefore. lia. }
    right. rewrite u32_small by lia. destruct (take_cluster_spec depth dsk bl k x buf' i b HB Hx ltac:(lia) H2 Hbuf Hin) as (d & E & HA); [|done|].
    { fold idx. replace idx with (8 * (Z.of_nat k * bpc) + (8 * i + b)) by (unfold idx; lia). by rewrite Hused by lia. }
    exists (idx + 2), d. split; [exact E|exact HA].
  - mstep with (get_fat_entry_spec (S depth) x dsk ltac:(unfold cluster_ok in Hok; lia)).
    rewrite u32_small by nia. replace (Z.of_nat k + 1) with (Z.of_nat (S k)) by lia. apply IH; [lia|lia| |].
    + destruct (bl !! S k) as [y|] eqn:Hy; [exact (chain_next _ _ _ _ _ _ Hl Hx Hy)|]. apply Hend. rewrite last_lookup.
      apply lookup_ge_None in Hy. by replace (pred (length bl)) with k by lia.
    + intros y Hy. apply Hsplit; [lia|]. intros Hge. split; [apply Hcl; lia|lia].
Qed.

Lemma allocate_cluster_spec depth dsk bc bl sz fuel :
  exfat_get_bitmap_info sector_ok palloc_ok junk po depth fs dsk = Ok (Some (bc, sz), dsk) → head bl = Some bc → bitmap_on dsk bl →
  bpc ≤ PAGE_SIZE → (length bl < fuel)%nat → allocation dsk bl (exfat_allocate_cluster sector_ok palloc_ok junk po fuel depth fs dsk).
Proof.
  intros Einfo Hbc HB Hpg Hfuel. unfold exfat_allocate_cluster. unfold mbind, M_bind. rewrite Einfo, Hpage. cbn [negb].
  apply (allocate_loop_spec depth dsk bl HB Hpg fuel 0); [lia|lia| |intros b Hb; lia]. by destruct bl as [|? ?]; [|injection Hbc as ->].
Qed.
End disk.
