(* ===== verification/ExfatSpec.v ===== *)
(** * Theorems of the exFAT driver

    On a device that works: directory entries, the allocation of clusters and
    the contents of files.  Examples show where the driver destroys data. *)
From Stdlib Require Import ZArith Lia Ascii String.
From stdpp Require Import base option gmap list.
From S2P Require Import Prelude Memory Pmm Print Vfs Exfat ExfatVfs ExfatProof.

Section theorems.
Context (sector_ok : Z → bool) (palloc_ok : nat → bool) (junk : memory) (po : Z) (fs : exfat_fs).
Context (Hio : ∀ s, sector_ok s = true) (Hpage : ∀ d, palloc_ok d = true) (Hpo : 0 ≤ po) (Hfs : fs_ok po fs).

Abbreviation read_entry := (exfat_read_dir_entry sector_ok palloc_ok junk po).
Abbreviation write_entry := (exfat_write_dir_entry sector_ok palloc_ok junk po).

(** Bytes of the heap of clusters are not in the table. *)
Lemma chain_heap_write contiguous dsk dsk' l :
  (∀ a, a < sector_addr po (cluster_heap_offset fs) → load8 dsk' a = load8 dsk a) →
  chain po fs contiguous dsk l → chain po fs contiguous dsk' l.
Proof.
  intros Hm. induction l as [|c l IH]; [done|]. intros (H1 & H2 & H3). split; [done|]. split; [|by apply IH].
  destruct l as [|c' l]; [done|]. rewrite <-H2. destruct contiguous; [done|]. cbn [next_of]. unfold fat. apply load_ext. intros b Hb. apply Hm.
  destruct Hfs as [_ _ [? ?] ? ? ?]. unfold cluster_ok in H1. unfold fat_addr, sector_addr, SECTOR_SIZE in *. lia.
Qed.

(** Different entries of a directory are at different places. *)
Lemma entries_apart l i j x y : NoDup l → Forall (cluster_ok fs) l → 0 ≤ i → 0 ≤ j → i ≠ j →
  l !! Z.to_nat (i / entries_per_cluster fs) = Some x → l !! Z.to_nat (j / entries_per_cluster fs) = Some y →
  entry_addr po fs x (i `mod` entries_per_cluster fs) + sizeof_dentry ≤ entry_addr po fs y (j `mod` entries_per_cluster fs) ∨
  entry_addr po fs y (j `mod` entries_per_cluster fs) + sizeof_dentry ≤ entry_addr po fs x (i `mod` entries_per_cluster fs).
Proof.
  intros Hnd Hok Hi Hj Hne Hx Hy. destruct (entries_eq po fs Hfs) as [Ee He]. set (n := entries_per_cluster fs) in *.
  pose proof (Z.mod_pos_bound i n ltac:(lia)) as Mi. pose proof (Z.mod_pos_bound j n ltac:(lia)) as Mj.
  assert (0 ≤ i / n ∧ 0 ≤ j / n) as [? ?] by (split; apply Z.div_pos; lia).
  pose proof (Z.div_mod i n ltac:(lia)). pose proof (Z.div_mod j n ltac:(lia)).
  unfold entry_addr, cluster_addr, sector_addr, SECTOR_SIZE, sizeof_dentry. destruct (decide (x = y)) as [->|Hxy].
  - assert (Z.to_nat (i / n) = Z.to_nat (j / n)) by (by eapply NoDup_lookup). assert (i / n = j / n) by lia. nia.
  - destruct (Z.lt_total x y) as [Hlt|[?|Hlt]]; [left|done|right]; nia.
Qed.

(** C34: Writing entry [i] of a directory and then reading entry [j] gives the entry written when they are the same, and
    otherwise what entry [j] was before: for contiguous directories and for chains through the allocation table. *)
Theorem dir_entry_roundtrip depth contiguous dsk c l i j x y e old :
  chain po fs contiguous dsk (c :: l) → NoDup (c :: l) → 0 ≤ i → 0 ≤ j →
  (c :: l) !! Z.to_nat (i / entries_per_cluster fs) = Some x → (c :: l) !! Z.to_nat (j / entries_per_cluster fs) = Some y →
  ∃ dsk' e0 e1, write_entry depth fs c contiguous i e dsk = Ok (0, dsk') ∧
    read_entry depth fs c contiguous j old dsk = Ok ((0, e0), dsk) ∧ read_entry depth fs c contiguous j old dsk' = Ok ((0, e1), dsk') ∧
    ∀ b, 0 ≤ b < sizeof_dentry → load8 e1 b = if decide (i = j) then load8 e b else load8 e0 b.
Proof.
  intros Hl Hnd Hi Hj Hx Hy.
  destruct (write_dir_entry_spec sector_ok palloc_ok junk po Hio Hpage Hpo fs Hfs contiguous dsk c l Hl i x Hi Hx depth e) as (dsk' & Ew & Hw).
  destruct (read_dir_entry_spec sector_ok palloc_ok junk po Hio Hpage Hpo fs Hfs contiguous dsk c l Hl j y Hj Hy depth old) as (e0 & E0 & H0).
  assert (Hok : Forall (cluster_ok fs) (c :: l)) by (apply Forall_lookup; intros n z Hz; by eapply chain_lookup).
  assert (Hl' : chain po fs contiguous dsk' (c :: l)).
  { apply (chain_heap_write contiguous dsk); [|done]. intros a Ha. rewrite Hw, decide_False; [done|].
    assert (cluster_ok fs x) as Hcx by (by eapply Forall_lookup_1). destruct (entries_eq po fs Hfs) as [_ He].
    pose proof (Z.mod_pos_bound i (entries_per_cluster fs) ltac:(lia)). pose proof (fo_cluster _ _ Hfs) as [? _].
    unfold cluster_ok in Hcx. unfold entry_addr, cluster_addr, sector_addr, SECTOR_SIZE, sizeof_dentry in *. nia. }
  destruct (read_dir_entry_spec sector_ok palloc_ok junk po Hio Hpage Hpo fs Hfs contiguous dsk' c l Hl' j y Hj Hy depth old) as (e1 & E1 & H1).
  exists dsk', e0, e1. splits; [done|done|done|]. intros b Hb. rewrite H1, Hw by done. destruct (decide (i = j)) as [Hd|Hd].
  - assert (x = y) as -> by (rewrite <-Hd in Hy; congruence). rewrite <-Hd, decide_True by lia. f_equal. lia.
  - rewrite H0 by done. rewrite decide_False; [done|]. pose proof (entries_apart _ _ _ _ _ Hnd Hok Hi Hj Hd Hx Hy). lia.
Qed.

(** C14: [exfat_allocate_cluster] returns the first cluster that the bitmap says is free; then that bit and no other is
    set, the cluster's entry of the table is the end mark, the other entries and every other byte of the disk are
    unchanged.  It fails, with the disk unchanged, only when every cluster is in use.  This holds for a bitmap of any number
    of clusters, which are followed through the table to its end mark ([bitmap_on]), on a volume whose clusters have at
    most 4096 bytes (the driver reads a cluster into one page), when the entry of the bitmap is found in the root
    directory, no access to the disk fails and every [palloc] gets a page. *)
Theorem exfat_allocate_cluster_correct depth dsk bc bl sz fuel :
  exfat_get_bitmap_info sector_ok palloc_ok junk po depth fs dsk = Ok (Some (bc, sz), dsk) → head bl = Some bc → bitmap_on po fs dsk bl →
  bytes_per_cluster fs ≤ PAGE_SIZE → (length bl < fuel)%nat →
  let r := exfat_allocate_cluster sector_ok palloc_ok junk po fuel depth fs dsk in
  (r = Ok (None, dsk) ∧ ∀ b, 0 ≤ b < cluster_count fs → used po fs dsk bl b = true) ∨
  (∃ c dsk', r = Ok (Some c, dsk') ∧ allocated po fs dsk bl c dsk').
Proof. by apply allocate_cluster_spec. Qed.

(** C13: [exfat_seek] to any position followed by [exfat_read] of any size returns exactly the bytes of the file from that
    position on, up to the size asked for and the end of the file: byte [k] of the file is byte [k mod bytes_per_cluster]
    of the [k / bytes_per_cluster]-th cluster of its chain.  The disk is not changed. *)
Theorem exfat_seek_read_correct dsk l f pos size fuel depth :
  file_on po fs dsk l f → 0 ≤ pos → 0 ≤ size < 2 ^ 62 → file_size f < Z.of_nat fuel → size ≤ Z.of_nat fuel →
  let p := Z.min pos (file_size f) in
  ∃ f', (f ← exfat_seek sector_ok palloc_ok junk po fuel depth fs f pos; exfat_read sector_ok palloc_ok junk po fuel depth fs f size) dsk =
    Ok ((Some (file_byte po fs dsk l <$> seqZ p (Z.min size (file_size f - p))), f'), dsk).
Proof. by apply seek_read_spec. Qed.
End theorems.

(** ** A volume *)

(** Sectors of 512 bytes are the clusters: table in sector 1, eight clusters
    from sector 2 on, the root directory in the first and the bitmap in the
    second of them. *)
Definition sample_fs : exfat_fs := mkExfat 512 1 512 1 1 2 8 2 1.
Definition sample_file (m : memory) (a name first size : Z) : memory :=
  let m := blit 32 m a (file_entry 1 EXFAT_ATTR_ARCHIVE) 0 in
  let m := blit 32 m (a + 32) (stream_entry 3 1 first size size) 0 in
  blit 32 m (a + 64) (name_entry [name]) 0.
(** The files A and B of one cluster each, the clusters 4 and 5; 6 to 9 are free. *)
Definition sample_disk : memory :=
  let m := store32 (store32 (store32 (store32 ∅ (512 + 8) EXFAT_FAT_EOC) (512 + 12) EXFAT_FAT_EOC) (512 + 16) EXFAT_FAT_EOC) (512 + 20) EXFAT_FAT_EOC in
  let m := store64 (store32 (store8 m 1024 EXFAT_TYPE_ALLOCATION) (1024 + 20) 3) (1024 + 24) 1 in
  let m := sample_file (sample_file m (1024 + 32) 65 4 512) (1024 + 128) 66 5 512 in
  store8 m 1536 0x0F.
Definition works : Z → bool := λ _, true.
Definition pages : nat → bool := λ _, true.

Lemma sample_fs_ok : fs_ok 0 sample_fs.
Proof. split; cbn; unfold SECTOR_SIZE; lia. Qed.

Lemma dir_entry_roundtrip_witness :
  ∃ dsk' e1, exfat_write_dir_entry works pages ∅ 0 0 sample_fs 2 false 9 (file_entry 1 0) sample_disk = Ok (0, dsk') ∧
    exfat_read_dir_entry works pages ∅ 0 0 sample_fs 2 false 9 ∅ dsk' = Ok ((0, e1), dsk') ∧ load8 e1 0 = EXFAT_TYPE_FILE.
Proof.
  destruct (dir_entry_roundtrip works pages ∅ 0 sample_fs (λ _, eq_refl) (λ _, eq_refl) (Z.le_refl 0) sample_fs_ok 0 false sample_disk 2 [] 9 9 2 2
    (file_entry 1 0) ∅) as (dsk' & e0 & e1 & E1 & _ & E2 & H); [split; [unfold cluster_ok; cbn; lia|done]|apply NoDup_singleton|lia|lia|done|done|].
  exists dsk', e1. split; [exact E1|]. split; [exact E2|]. rewrite H by (unfold sizeof_dentry; lia). rewrite decide_True by done. vm_compute. reflexivity.
Defined.

(** A volume of 5000 such clusters: its bitmap has the clusters 3 and 5, and the first of them is full. *)
Definition large_fs : exfat_fs := mkExfat 512 1 512 1 40 41 5000 2 1.
Definition large_disk : memory :=
  let m := store32 (store32 (store32 ∅ (512 + 8) EXFAT_FAT_EOC) (512 + 12) 5) (512 + 20) EXFAT_FAT_EOC in
  let m := store64 (store32 (store8 m (41 * 512) EXFAT_TYPE_ALLOCATION) (41 * 512 + 20) 3) (41 * 512 + 24) 625 in
  memset_z m (42 * 512) 0xFF 512.
Lemma large_fs_ok : fs_ok 0 large_fs.
Proof. split; cbn; unfold SECTOR_SIZE; lia. Qed.
Lemma large_bitmap : bitmap_on 0 large_fs large_disk [3; 5].
Proof.
  split.
  - split; [unfold cluster_ok; cbn; lia|]. split; [by vm_compute|]. split; [unfold cluster_ok; cbn; lia|done].
  - apply NoDup_cons. split; [by intros ?%list_elem_of_singleton|apply NoDup_singleton].
  - intros c [= <-]. vm_compute. discriminate.
  - cbn. lia.
Qed.
Lemma large_entry : entry_addr 0 large_fs 2 (0 `mod` entries_per_cluster large_fs) = 20992.
Proof. by vm_compute. Qed.
Lemma large_info : exfat_get_bitmap_info works pages ∅ 0 0 large_fs large_disk = Ok (Some (3, 625), large_disk).
Proof.
  assert (Hl : chain 0 large_fs false large_disk [2]) by (split; [unfold cluster_ok; cbn; lia|done]).
  destruct (read_dir_entry_spec works pages ∅ 0 (λ _, eq_refl) (λ _, eq_refl) (Z.le_refl 0) large_fs large_fs_ok false large_disk 2 [] Hl 0 2 (Z.le_refl 0) eq_refl 0 ∅) as (e & E & He).
  rewrite large_entry in He. unfold sizeof_dentry in He.
  assert (H0 : ent_type e = EXFAT_TYPE_ALLOCATION) by (unfold ent_type; rewrite He by lia; by vm_compute).
  assert (H1 : load32 e 20 = 3) by (unfold load32; rewrite (load_shift 4 e large_disk 20 21012) by (intros i Hi; rewrite He by lia; f_equal; lia); by vm_compute).
  assert (H2 : load64 e 24 = 625) by (unfold load64; rewrite (load_shift 8 e large_disk 24 21016) by (intros i Hi; rewrite He by lia; f_equal; lia); by vm_compute).
  unfold exfat_get_bitmap_info. cbn [bitmap_search]. mstep with E. cbn [fst snd Z.eqb negb]. rewrite H0, H1, H2. done.
Qed.
Lemma large_full b : 0 ≤ b < 4096 → used 0 large_fs large_disk [3; 5] b = true.
Proof.
  intros Hb. assert (H : forallb (used 0 large_fs large_disk [3; 5]) (seqZ 0 4096) = true) by (vm_compute; reflexivity).
  rewrite forallb_forall in H. apply H, list_elem_of_In, elem_of_seqZ. lia.
Qed.

Lemma exfat_allocate_cluster_correct_witness :
  ∃ c dsk', exfat_allocate_cluster works pages ∅ 0 3 0 large_fs large_disk = Ok (Some c, dsk') ∧ 4098 ≤ c ∧ fat 0 large_fs dsk' c = EXFAT_FAT_EOC.
Proof.
  destruct (exfat_allocate_cluster_correct works pages ∅ 0 large_fs (λ _, eq_refl) (λ _, eq_refl) (Z.le_refl 0) large_fs_ok 0 large_disk 3 [3; 5] 625 3)
    as [[_ H]|(c & dsk' & E & [Hc Hfree _ _ Hfat _])].
  - exact large_info.
  - reflexivity.
  - exact large_bitmap.
  - cbn. unfold PAGE_SIZE. lia.
  - cbn. lia.
  - exfalso. assert (used 0 large_fs large_disk [3; 5] 4096 = false) as E by (vm_compute; reflexivity). rewrite H in E by (cbn; lia). discriminate.
  - exists c, dsk'. split; [exact E|]. unfold cluster_ok in Hc. split.
    + destruct (decide (c - 2 < 4096)); [|lia]. rewrite large_full in Hfree by lia. discriminate.
    + rewrite Hfat by lia. by rewrite decide_True.
Defined.

Lemma exfat_seek_read_correct_witness :
  ∃ f', (f ← exfat_seek works pages ∅ 0 1000 0 sample_fs (mkFile 4 512 0 4 0 true 2 false 1) 500;
         exfat_read works pages ∅ 0 1000 0 sample_fs f 100) sample_disk =
    Ok ((Some (file_byte 0 sample_fs sample_disk [4] <$> seqZ 500 12), f'), sample_disk).
Proof.
  apply (exfat_seek_read_correct works pages ∅ 0 sample_fs (λ _, eq_refl) (λ _, eq_refl) (Z.le_refl 0) sample_fs_ok sample_disk [4]
    (mkFile 4 512 0 4 0 true 2 false 1) 500 100 1000 0).
  - split; cbn; [unfold cluster_ok; cbn; lia|done|lia].
  - lia.
  - lia.
  - cbn. lia.
  - lia.
Defined.

(** ** Where the driver destroys data *)

Definition sample_ctx (dsk : memory) : exfat_ctx := mkCtx sample_fs (replicate (Z.to_nat MAX_INODE_CACHE) no_inode) dsk.
(** What a run of operations on a volume returns. *)
Definition returns {A} (m : M exfat_ctx A) (dsk : memory) : option A :=
  match m (sample_ctx dsk) with Ok (a, _) => Some a | _ => None end.

(** Writing at the end of a file whose size is a multiple of the cluster size overwrites another file:
    [exfat_seek] steps to the number behind the last cluster and [exfat_write] only allocates a cluster when the offset
    in the cluster is at its end.  Three bytes appended to A are reported as written and are the first bytes of B. *)
Theorem exfat_append_overwrites :
  returns (a ← exfat_vfs_path_to_inode works pages ∅ 0 (lit "/A"); b ← exfat_vfs_path_to_inode works pages ∅ 0 (lit "/B");
           before ← exfat_vfs_read works pages ∅ 0 100 b 4 0;
           w ← exfat_vfs_write works pages ∅ 0 100 a [7; 8; 9] 512;
           after ← exfat_vfs_read works pages ∅ 0 100 b 4 0;
           mret (before, w, after)) sample_disk = Some ((4, [0; 0; 0; 0]), 3, (4, [7; 8; 9; 0])).
Proof. vm_compute. reflexivity. Qed.

(** The same volume with the directory full. *)
Definition full_disk : memory :=
  sample_file (sample_file (sample_file sample_disk (1024 + 224) 67 0 0) (1024 + 320) 68 0 0) (1024 + 416) 69 0 0.
Definition type_of_entry (index : Z) : M exfat_ctx Z :=
  r ← on_disk (exfat_read_dir_entry works pages ∅ 0 0 sample_fs 2 false index ∅); mret (ent_type r.2).

(** [exfat_create] remembers the start of a hole that is too short: a file of
    four entries goes into the three of the removed A and over the first of B. *)
Example exfat_create_overwrites :
  returns (b ← type_of_entry 4; r ← exfat_vfs_remove works pages ∅ 0 (lit "/A");
           i ← exfat_vfs_create works pages ∅ 0 (lit "/abcdefghijklmnop"); b' ← type_of_entry 4;
           mret (b, r, i, b')) full_disk = Some (EXFAT_TYPE_FILE, 0, make_inode 2 1, EXFAT_TYPE_NAME).
Proof. vm_compute. reflexivity. Qed.

(** A name of 15 characters fills the array of name units, and the next search
    of the directory reads behind it. *)
Example exfat_long_name_overreads :
  (exfat_vfs_create works pages ∅ 0 (lit "/abcdefghijklmno");; exfat_vfs_path_to_inode works pages ∅ 0 (lit "/C"))
    (sample_ctx sample_disk) = Fault.
Proof. vm_compute. reflexivity. Qed.
