(* ===== verification/Acpi.v ===== *)
(** * ACPI

    Model of src/drivers/acpi/acpi.c and acpi_shtdwn.c: the search for the root
    pointer, the lookup of tables, the fixed description table and the
    shutdown.  The state is the memory, in which the firmware's tables are, the
    static variables of the two files and the list of 16-bit port writes.
    [PHYS_TO_VIRT] is the identity (acpi.h).  What is printed is left out. *)
From Stdlib Require Import ZArith Lia Ascii String.
From stdpp Require Import base option gmap list.
From S2P Require Import Prelude Memory Print.

Definition ACPI_OK : Z := 0.
Definition ACPI_ERR_NOT_FOUND : Z := -1.
Definition ACPI_ERR_CHECKSUM : Z := -2.
Definition ACPI_ERR_NO_TABLE : Z := -3.
Definition ACPI_ERR_NULL : Z := -4.

(** ** Tables in memory *)

(** [acpi_rsdp_t] at [r] *)
Definition rsdp_revision (m : memory) (r : Z) : Z := load8 m (r + 15).
Definition rsdt_address (m : memory) (r : Z) : Z := load32 m (r + 16).
Definition rsdp_length (m : memory) (r : Z) : Z := load32 m (r + 20).
Definition xsdt_address (m : memory) (r : Z) : Z := load64 m (r + 24).
(** [acpi_sdt_header_t] at [h] *)
Definition sizeof_sdt_header : Z := 36.
Definition sdt_length (m : memory) (h : Z) : Z := load32 m (h + 4).
Definition sdt_revision (m : memory) (h : Z) : Z := load8 m (h + 8).
(** [acpi_rsdt_t.tables[i]] and [acpi_xsdt_t.tables[i]] *)
Definition rsdt_entry (m : memory) (t i : Z) : Z := load32 m (t + sizeof_sdt_header + 4 * i).
Definition xsdt_entry (m : memory) (t i : Z) : Z := load64 m (t + sizeof_sdt_header + 8 * i).
(** [acpi_fadt_t] and the [acpi_gas_t] in it *)
Definition fadt_dsdt (m : memory) (f : Z) : Z := load32 m (f + 40).
Definition pm1a_cnt_blk (m : memory) (f : Z) : Z := load32 m (f + 64).
Definition pm1b_cnt_blk (m : memory) (f : Z) : Z := load32 m (f + 68).
Definition x_dsdt (m : memory) (f : Z) : Z := load64 m (f + 140).
Definition x_pm1a_cnt_blk (f : Z) : Z := f + 148.
Definition x_pm1b_cnt_blk (f : Z) : Z := f + 160.
Definition gas_address_space (m : memory) (g : Z) : Z := load8 m g.
Definition gas_address (m : memory) (g : Z) : Z := load64 m (g + 4).

(** ** State *)

Record acpi := mkAcpi {
  ac_mem : memory; g_rsdp : Z; g_rsdt : Z; g_xsdt : Z;
  g_pm1a_cnt_port : Z; g_pm1b_cnt_port : Z; g_dsdt_aml : Z; g_dsdt_len : Z; outw_log : list (Z * Z) }.
Definition set_rsdp (p : Z) (a : acpi) : acpi :=
  mkAcpi (ac_mem a) p (g_rsdt a) (g_xsdt a) (g_pm1a_cnt_port a) (g_pm1b_cnt_port a) (g_dsdt_aml a) (g_dsdt_len a) (outw_log a).
Definition set_rsdt (p : Z) (a : acpi) : acpi :=
  mkAcpi (ac_mem a) (g_rsdp a) p (g_xsdt a) (g_pm1a_cnt_port a) (g_pm1b_cnt_port a) (g_dsdt_aml a) (g_dsdt_len a) (outw_log a).
Definition set_xsdt (p : Z) (a : acpi) : acpi :=
  mkAcpi (ac_mem a) (g_rsdp a) (g_rsdt a) p (g_pm1a_cnt_port a) (g_pm1b_cnt_port a) (g_dsdt_aml a) (g_dsdt_len a) (outw_log a).
Definition set_fadt (pa pb aml len : Z) (a : acpi) : acpi :=
  mkAcpi (ac_mem a) (g_rsdp a) (g_rsdt a) (g_xsdt a) pa pb aml len (outw_log a).
Definition outw (port val : Z) : M acpi unit := modify (λ a,
  mkAcpi (ac_mem a) (g_rsdp a) (g_rsdt a) (g_xsdt a) (g_pm1a_cnt_port a) (g_pm1b_cnt_port a) (g_dsdt_aml a) (g_dsdt_len a)
    (outw_log a ++ [(port, val)])).

(** ** acpi.c *)

Fixpoint sum_bytes (n : nat) (m : memory) (ptr sum : Z) : Z :=
  match n with
  | O => sum
  | S n => sum_bytes n m (ptr + 1) (u8 (sum + load8 m ptr))
  end.
Definition acpi_checksum (m : memory) (base len : Z) : Z := sum_bytes (Z.to_nat len) m base 0.

Fixpoint has_signature (m : memory) (p : Z) (sig : list Z) : bool :=
  match sig with
  | [] => true
  | c :: sig => (load8 m p =? c) && has_signature m (p + 1) sig
  end.

(** The result 0 is a null pointer. *)
Definition try_rsdp (m : memory) (r : Z) : Z :=
  if negb (has_signature m r (lit "RSD PTR ")) then 0 else
  if negb (acpi_checksum m r 20 =? 0) then 0 else
  if (2 <=? rsdp_revision m r) && negb (acpi_checksum m r (rsdp_length m r) =? 0) then 0 else
  r.

(** The [n] addresses from [addr] on, 16 bytes apart. *)
Fixpoint search_loop (n : nat) (m : memory) (addr : Z) : Z :=
  match n with
  | O => 0
  | S n => let r := try_rsdp m addr in if negb (r =? 0) then r else search_loop n m (addr + 16)
  end.
Definition rsdp_search_range (m : memory) (start end_ : Z) : Z :=
  search_loop (Z.to_nat ((end_ - start + 15) / 16)) m start.

Definition rsdp_find (m : memory) : Z :=
  let ebda_base := Z.shiftl (load16 m 0x040E) 4 in
  let r := if (0x80000 <=? ebda_base) && (ebda_base <? 0xA0000) then rsdp_search_range m ebda_base (ebda_base + 1024) else 0 in
  if negb (r =? 0) then r else rsdp_search_range m 0xE0000 0x100000.

(** The part of both initialisations that has the root pointer in [g_rsdp]. *)
Definition init_tables : M acpi Z :=
  m ← gets ac_mem;
  rsdp ← gets g_rsdp;
  if (2 <=? rsdp_revision m rsdp) && negb (xsdt_address m rsdp =? 0) then
    let xsdt := xsdt_address m rsdp in
    modify (set_xsdt xsdt);;
    if negb (acpi_checksum m xsdt (sdt_length m xsdt) =? 0) then modify (set_xsdt 0);; mret ACPI_ERR_CHECKSUM
    else mret ACPI_OK
  else
    let rsdt := rsdt_address m rsdp in
    modify (set_rsdt rsdt);;
    if negb (acpi_checksum m rsdt (sdt_length m rsdt) =? 0) then modify (set_rsdt 0);; mret ACPI_ERR_CHECKSUM
    else mret ACPI_OK.

Definition acpi_init : M acpi Z :=
  r ← gets (λ a, rsdp_find (ac_mem a));
  modify (set_rsdp r);;
  if r =? 0 then mret ACPI_ERR_NOT_FOUND else init_tables.

Definition acpi_init_from_addr (rsdp_addr : Z) : M acpi Z :=
  if rsdp_addr =? 0 then mret ACPI_ERR_NULL else
  modify (set_rsdp rsdp_addr);;
  m ← gets ac_mem;
  if negb (acpi_checksum m rsdp_addr 20 =? 0) then modify (set_rsdp 0);; mret ACPI_ERR_CHECKSUM else
  init_tables.

(** The entries [i], ... of a root table: status and the value stored in
    [*out], if any. *)
Fixpoint find_entry (n : nat) (m : memory) (entry : Z → Z) (sig : list Z) (i : Z) : Z * option Z :=
  match n with
  | O => (ACPI_ERR_NO_TABLE, None)
  | S n =>
      let hdr := entry i in
      if has_signature m hdr sig then
        if negb (acpi_checksum m hdr (sdt_length m hdr) =? 0) then (ACPI_ERR_CHECKSUM, None) else (ACPI_OK, Some hdr)
      else find_entry n m entry sig (i + 1)
  end.
(** [(header.length - sizeof(acpi_sdt_header_t)) / size] in [size_t] *)
Definition entry_count (m : memory) (t size : Z) : Z := u64 (sdt_length m t - sizeof_sdt_header) / size.
Definition acpi_find_table (sig : list Z) : M acpi (Z * option Z) := gets (λ a,
  let m := ac_mem a in
  if g_rsdp a =? 0 then (ACPI_ERR_NOT_FOUND, None) else
  if negb (g_xsdt a =? 0) then find_entry (Z.to_nat (entry_count m (g_xsdt a) 8)) m (xsdt_entry m (g_xsdt a)) sig 0 else
  if negb (g_rsdt a =? 0) then find_entry (Z.to_nat (entry_count m (g_rsdt a) 4)) m (rsdt_entry m (g_rsdt a)) sig 0 else
  (ACPI_ERR_NOT_FOUND, None)).
Definition acpi_get_rsdp : M acpi Z := gets g_rsdp.

(** ** acpi_shtdwn.c *)

Definition SLP_EN : Z := Z.shiftl 1 13.

(** A control port: the extended field when it is in I/O space. *)
Definition cnt_port (m : memory) (gas legacy : Z) : Z :=
  if (gas_address_space m gas =? 1) && negb (gas_address m gas =? 0) then u32 (gas_address m gas) else legacy.
Definition acpi_parse_fadt : M acpi Z :=
  r ← acpi_find_table (lit "FACP");
  if negb (r.1 =? ACPI_OK) then mret r.1 else
  match r.2 with
  | None => fault
  | Some fadt =>
      m ← gets ac_mem;
      let wide := 2 <=? sdt_revision m fadt in
      let pa := if wide then cnt_port m (x_pm1a_cnt_blk fadt) (pm1a_cnt_blk m fadt) else pm1a_cnt_blk m fadt in
      let pb := if wide then cnt_port m (x_pm1b_cnt_blk fadt) (pm1b_cnt_blk m fadt) else pm1b_cnt_blk m fadt in
      let dsdt := if wide && negb (x_dsdt m fadt =? 0) then x_dsdt m fadt else fadt_dsdt m fadt in
      modify (set_fadt pa pb (u64 (dsdt + sizeof_sdt_header)) (u32 (sdt_length m dsdt - sizeof_sdt_header)));;
      mret ACPI_OK
  end.

Definition AML_NAMEOP : Z := 0x08.
Definition AML_PACKAGEOP : Z := 0x12.
Definition AML_BYTEPREFIX : Z := 0x0A.
Definition AML_ZEROOP : Z := 0x00.
Definition AML_ONEOP : Z := 0x01.
Definition aml_pkg_length_size (first_byte : Z) : Z := 1 + Z.land (Z.shiftr first_byte 6) 0x3.

(** [g_dsdt_aml[j]]; behind the end of the byte code the access is undefined. *)
Definition aml_byte (j : Z) : M acpi Z :=
  len ← gets g_dsdt_len;
  if len <=? j then fault else gets (λ a, load8 (ac_mem a) (g_dsdt_aml a + j)).

(** The four characters of the name, read until one differs. *)
Fixpoint aml_name (j : Z) (name : list Z) : M acpi bool :=
  match name with
  | [] => mret true
  | c :: name => b ← aml_byte j; if b =? c then aml_name (j + 1) name else mret false
  end.

(** The first element of the package at [j], with the place behind it. *)
Definition read_typa (j : Z) : M acpi (option (Z * Z)) :=
  b ← aml_byte j;
  if b =? AML_BYTEPREFIX then v ← aml_byte (j + 1); mret (Some (v, j + 2))
  else if b =? AML_ZEROOP then mret (Some (0, j + 1))
  else if b =? AML_ONEOP then mret (Some (1, j + 1))
  else mret None.
(** The second one. *)
Definition read_typb (j : Z) : M acpi Z :=
  len ← gets g_dsdt_len;
  if j <? len then
    b ← aml_byte j;
    if (b =? AML_BYTEPREFIX) && (j + 1 <? len) then aml_byte (j + 1)
    else if b =? AML_ONEOP then mret 1 else mret 0
  else mret 0.

(** The body of the loop at [i]: the two types when there is the object. *)
Definition s5_at (i : Z) : M acpi (option (Z * Z)) :=
  found ← aml_name i (lit "_S5_");
  if negb found then mret None else
  prev ← (if i =? 0 then mret 0 else aml_byte (i - 1));
  if (i =? 0) || negb (prev =? AML_NAMEOP) then mret None else
  let j := i + 4 in
  op ← aml_byte j;
  if negb (op =? AML_PACKAGEOP) then mret None else
  let j := j + 1 in
  first ← aml_byte j;
  let j := u32 (j + aml_pkg_length_size first + 1) in
  len ← gets g_dsdt_len;
  if len <? u32 (j + 4) then mret None else
  typa ← read_typa j;
  match typa with
  | None => mret None
  | Some (typa, j) => typb ← read_typb j; mret (Some (typa, typb))
  end.

(** The positions [i], ...; the loop ends when [i + 8] reaches the length. *)
Fixpoint s5_loop (n : nat) (i : Z) : M acpi (option (Z * Z)) :=
  match n with
  | O => mret None
  | S n => r ← s5_at i; match r with Some t => mret (Some t) | None => s5_loop n (i + 1) end
  end.
Definition dsdt_find_s5 : M acpi (option (Z * Z)) :=
  aml ← gets g_dsdt_aml;
  len ← gets g_dsdt_len;
  if (aml =? 0) || (len <? 8) then mret None else s5_loop (Z.to_nat (len - 8)) 0.

(** [SLP_TYP] and [SLP_EN] of a control register *)
Definition slp_value (typ : Z) : Z := u16 (Z.lor (Z.shiftl typ 10) SLP_EN).
Definition acpi_shutdown : M acpi Z :=
  pa ← gets g_pm1a_cnt_port;
  pb ← gets g_pm1b_cnt_port;
  aml ← gets g_dsdt_aml;
  if (pa =? 0) || (aml =? 0) then mret ACPI_ERR_NOT_FOUND else
  s5 ← dsdt_find_s5;
  match s5 with
  | None => mret ACPI_ERR_NOT_FOUND
  | Some (typa, typb) =>
      outw (u16 pa) (slp_value typa);;
      (if negb (pb =? 0) then outw (u16 pb) (slp_value typb) else mret tt);;
      mret ACPI_ERR_NOT_FOUND
  end.
