(* ===== verification/AcpiProof.v ===== *)
(** * ACPI: what the lookups return

    The root pointer and the tables that are found are the first ones that the
    search order gives, with valid checksums; the shutdown reads the byte code
    within its bounds and writes the sleep types of the first [_S5_] object. *)
From Stdlib Require Import ZArith Lia Ascii String.
From stdpp Require Import base option gmap list.
From S2P Require Import Prelude Memory Print Acpi.

(** ** Checksums and signatures *)

Definition bytes_at (m : memory) (p n : Z) : list Z := (λ i, load8 m (p + i)) <$> seqZ 0 n.
(** The bytes of a table sum up to 0 modulo 256. *)
Definition sums_to_zero (m : memory) (p n : Z) : Prop := foldr Z.add 0 (bytes_at m p n) `mod` 256 = 0.
#[global] Instance sums_to_zero_dec m p n : Decision (sums_to_zero m p n).
Proof. unfold sums_to_zero. apply _. Defined.

Lemma bytes_at_S m p n : bytes_at m p (Z.of_nat (S n)) = load8 m p :: bytes_at m (p + 1) (Z.of_nat n).
Proof.
  unfold bytes_at. rewrite Nat2Z.inj_succ, seqZ_cons by lia. cbn [fmap list_fmap]. rewrite Z.add_0_r. f_equal.
  rewrite Z.pred_succ, <-(fmap_add_seqZ 1 0), <-list_fmap_compose. apply list_fmap_ext. intros i x _. cbn. f_equal. lia.
Qed.

Lemma sum_bytes_spec n : ∀ m p s, 0 ≤ s < 256 → sum_bytes n m p s = (s + foldr Z.add 0 (bytes_at m p (Z.of_nat n))) `mod` 256.
Proof.
  induction n as [|n IH]; intros m p s Hs.
  - cbn. rewrite Z.add_0_r. by rewrite Z.mod_small.
  - rewrite bytes_at_S. cbn [sum_bytes foldr]. rewrite IH by apply u8_range. unfold u8. rewrite Zplus_mod_idemp_l. f_equal. lia.
Qed.

Lemma acpi_checksum_spec m p n : 0 ≤ n → (acpi_checksum m p n =? 0) = bool_decide (sums_to_zero m p n).
Proof.
  intros Hn. unfold acpi_checksum, sums_to_zero. rewrite sum_bytes_spec, Z.add_0_l, Z2Nat.id by lia.
  destruct (Z.eqb_spec (foldr Z.add 0 (bytes_at m p n) `mod` 256) 0) as [E|E]; [by rewrite bool_decide_eq_true_2|by rewrite bool_decide_eq_false_2].
Qed.

Lemma has_signature_spec m sig : ∀ p, has_signature m p sig = bool_decide (bytes_at m p (Z.of_nat (length sig)) = sig).
Proof.
  induction sig as [|c sig IH]; intros p; [done|]. cbn [has_signature length]. rewrite bytes_at_S, IH.
  destruct (Z.eqb_spec (load8 m p) c) as [->|Hne]; cbn [andb].
  - apply bool_decide_ext. split; [by intros ->|]. by intros [= ?].
  - symmetry. apply bool_decide_eq_false_2. by intros [= ?].
Qed.

(** ** The root pointer *)

Record valid_rsdp (m : memory) (r : Z) : Prop := {
  vr_sig : bytes_at m r 8 = lit "RSD PTR ";
  vr_sum : sums_to_zero m r 20;
  vr_ext : 2 ≤ rsdp_revision m r → sums_to_zero m r (rsdp_length m r);
}.

Lemma try_rsdp_spec m r : r ≠ 0 → (try_rsdp m r ≠ 0 ↔ valid_rsdp m r) ∧ (try_rsdp m r = 0 ∨ try_rsdp m r = r).
Proof.
  intros Hr. unfold try_rsdp. rewrite has_signature_spec. change (Z.of_nat (length (lit "RSD PTR "))) with 8.
  rewrite !acpi_checksum_spec by (lia || (pose proof (load32_range m (r + 20)); unfold rsdp_length; lia)).
  destruct (bool_decide_reflect (bytes_at m r 8 = lit "RSD PTR ")) as [H1|H1]; cbn [negb].
  2:{ split; [|by left]. split; [done|]. by intros []. }
  destruct (bool_decide_reflect (sums_to_zero m r 20)) as [H2|H2]; cbn [negb].
  2:{ split; [|by left]. split; [done|]. by intros []. }
  destruct (Z.leb_spec 2 (rsdp_revision m r)); cbn [andb].
  - destruct (bool_decide_reflect (sums_to_zero m r (rsdp_length m r))) as [H3|H3]; cbn [negb].
    + split; [|by right]. split; [|done]. by intros _.
    + split; [|by left]. split; [done|]. intros [_ _ H3']. by destruct H3; apply H3'.
  - split; [|by right]. split; [|done]. intros _. split; [done|done|lia].
Qed.

(** The [n] places from [p] on, 16 bytes apart. *)
Definition places (p : Z) (n : nat) : list Z := (λ i, p + 16 * i) <$> seqZ 0 (Z.of_nat n).
(** [r] is the first valid root pointer of [l], or 0. *)
Definition first_rsdp (m : memory) (l : list Z) (r : Z) : Prop :=
  (r = 0 ∧ Forall (λ p, ¬ valid_rsdp m p) l) ∨
  ∃ l1 l2, l = l1 ++ r :: l2 ∧ r ≠ 0 ∧ valid_rsdp m r ∧ Forall (λ p, ¬ valid_rsdp m p) l1.

Lemma places_S p n : places p (S n) = p :: places (p + 16) n.
Proof.
  unfold places. rewrite Nat2Z.inj_succ, seqZ_cons by lia. cbn [fmap list_fmap]. f_equal; [lia|].
  rewrite Z.pred_succ, <-(fmap_add_seqZ 1 0), <-list_fmap_compose. apply list_fmap_ext. intros i x _. cbn. lia.
Qed.

Lemma search_loop_spec m n : ∀ p, 0 < p → first_rsdp m (places p n) (search_loop n m p).
Proof.
  induction n as [|n IH]; intros p Hp; [left; split; [done|constructor]|]. rewrite places_S. cbn [search_loop]. cbv zeta.
  destruct (try_rsdp_spec m p ltac:(lia)) as [Hv Hr]. destruct (Z.eqb_spec (try_rsdp m p) 0) as [E|E]; cbn [negb].
  - assert (¬ valid_rsdp m p) as Hn by (intros H%Hv; done). destruct (IH (p + 16) ltac:(lia)) as [[E0 HF]|(l1 & l2 & El & Hnz & Hok & HF)].
    + left. split; [done|]. by constructor.
    + right. exists (p :: l1), l2. rewrite El. split; [done|]. split; [done|]. split; [done|]. by constructor.
  - right. destruct Hr as [?|Hr]; [done|]. rewrite Hr in *. exists [], (places (p + 16) n). split; [done|]. split; [done|].
    split; [by apply Hv|constructor].
Qed.

(** The places in the order of the search: the extended BIOS data area when
    its segment is plausible, then the BIOS area. *)
Definition rsdp_places (m : memory) : list Z :=
  let ebda := 16 * load16 m 0x040E in
  (if decide (0x80000 ≤ ebda < 0xA0000) then places ebda 64 else []) ++ places 0xE0000 8192.

Lemma first_rsdp_app m l1 l2 r1 r2 : first_rsdp m l1 r1 → first_rsdp m l2 r2 →
  first_rsdp m (l1 ++ l2) (if negb (r1 =? 0) then r1 else r2).
Proof.
  intros [[-> H1]|(k1 & k2 & -> & Hnz & Hok & H1)] H2.
  - cbn. destruct H2 as [[-> H2]|(k1 & k2 & -> & Hnz & Hok & H2)].
    + left. split; [done|]. by apply Forall_app.
    + right. exists (l1 ++ k1), k2. rewrite app_assoc. split; [done|]. split; [done|]. split; [done|]. by apply Forall_app.
  - rewrite (proj2 (Z.eqb_neq _ _) Hnz). cbn. right. exists k1, (k2 ++ l2). by rewrite <-app_assoc.
Qed.

Lemma rsdp_find_spec m : first_rsdp m (rsdp_places m) (rsdp_find m).
Proof.
  unfold rsdp_find, rsdp_places. cbv zeta. rewrite Z.shiftl_mul_pow2 by lia. change (2 ^ 4) with 16. rewrite (Z.mul_comm _ 16).
  set (e := 16 * load16 m 0x040E). apply first_rsdp_app; [|by apply search_loop_spec].
  destruct (Z.leb_spec 0x80000 e), (Z.ltb_spec e 0xA0000); cbn [andb].
  - rewrite decide_True by done. unfold rsdp_search_range. replace (e + 1024 - e + 15) with 1039 by lia.
    change (Z.to_nat (1039 / 16)) with 64%nat. apply search_loop_spec. lia.
  - rewrite decide_False by lia. left. split; [done|constructor].
  - rewrite decide_False by lia. left. split; [done|constructor].
  - rewrite decide_False by lia. left. split; [done|constructor].
Qed.

(** ** Tables *)

(** What a lookup among the tables [l] must give: the first of that signature
    decides. *)
Definition named (m : memory) (sig : list Z) (h : Z) : Prop := bytes_at m h (Z.of_nat (length sig)) = sig.
#[global] Instance named_dec m sig h : Decision (named m sig h).
Proof. unfold named. apply _. Defined.
Definition table_spec (m : memory) (l : list Z) (sig : list Z) : Z * option Z :=
  match list_find (named m sig) l with
  | None => (ACPI_ERR_NO_TABLE, None)
  | Some (_, h) => if decide (sums_to_zero m h (sdt_length m h)) then (ACPI_OK, Some h) else (ACPI_ERR_CHECKSUM, None)
  end.

Lemma find_entry_spec m entry sig n : ∀ i, find_entry n m entry sig i = table_spec m (entry <$> seqZ i (Z.of_nat n)) sig.
Proof.
  induction n as [|n IH]; intros i; [done|]. rewrite Nat2Z.inj_succ, seqZ_cons by lia. cbn [find_entry fmap list_fmap]. cbv zeta.
  unfold table_spec. cbn [list_find]. rewrite has_signature_spec. unfold named at 1. case_decide as H.
  - rewrite bool_decide_eq_true_2 by done. rewrite acpi_checksum_spec by (pose proof (load32_range m (entry i + 4)); unfold sdt_length; lia).
    case_decide as H1; [by rewrite bool_decide_eq_true_2|by rewrite bool_decide_eq_false_2].
  - rewrite bool_decide_eq_false_2 by done. rewrite IH, Z.pred_succ. unfold table_spec, Z.succ. by destruct (list_find _ _) as [[? ?]|].
Qed.

(** The tables that the root table of a root pointer lists: 64-bit addresses
    from revision 2 on, if there are any. *)
Definition extended (m : memory) (r : Z) : Prop := 2 ≤ rsdp_revision m r ∧ xsdt_address m r ≠ 0.
#[global] Instance extended_dec m r : Decision (extended m r).
Proof. unfold extended. apply _. Defined.
Definition root_table (m : memory) (r : Z) : Z := if decide (extended m r) then xsdt_address m r else rsdt_address m r.
Definition tables (m : memory) (r : Z) : list Z :=
  if decide (extended m r) then xsdt_entry m (xsdt_address m r) <$> seqZ 0 ((sdt_length m (xsdt_address m r) - 36) / 8)
  else rsdt_entry m (rsdt_address m r) <$> seqZ 0 ((sdt_length m (rsdt_address m r) - 36) / 4).

Lemma entry_count_ok m t size : 36 ≤ sdt_length m t → entry_count m t size = (sdt_length m t - 36) / size.
Proof.
  intros H. unfold entry_count, sizeof_sdt_header. pose proof (load32_range m (t + 4)). unfold sdt_length in *. by rewrite u64_small by lia.
Qed.

(** Both initialisations, once the root pointer is known. *)
Lemma init_tables_spec a : g_rsdp a ≠ 0 → g_rsdt a = 0 → g_xsdt a = 0 →
  let m := ac_mem a in let t := root_table m (g_rsdp a) in
  ∃ a', ac_mem a' = m ∧ g_rsdp a' = g_rsdp a ∧
    ((¬ sums_to_zero m t (sdt_length m t) ∧ init_tables a = Ok (ACPI_ERR_CHECKSUM, a') ∧ g_rsdt a' = 0 ∧ g_xsdt a' = 0) ∨
     (sums_to_zero m t (sdt_length m t) ∧ init_tables a = Ok (ACPI_OK, a') ∧
      ∀ sig, t ≠ 0 → 36 ≤ sdt_length m t → acpi_find_table sig a' = Ok (table_spec m (tables m (g_rsdp a)) sig, a'))).
Proof.
  intros Hr Ht Hx m t. unfold init_tables, mbind, M_bind, gets. fold m. set (r := g_rsdp a) in *.
  assert (E : (2 <=? rsdp_revision m r) && negb (xsdt_address m r =? 0) = bool_decide (extended m r)).
  { unfold extended. destruct (Z.leb_spec 2 (rsdp_revision m r)), (Z.eqb_spec (xsdt_address m r) 0); cbn;
      symmetry; (apply bool_decide_eq_true_2 || apply bool_decide_eq_false_2); lia. }
  rewrite E. unfold t, root_table, tables. clear E. destruct (decide (extended m r)) as [Hext|Hext].
  - rewrite bool_decide_eq_true_2 by done. rewrite acpi_checksum_spec by (pose proof (load32_range m (xsdt_address m r + 4)); unfold sdt_length; lia).
    destruct (bool_decide_reflect (sums_to_zero m (xsdt_address m r) (sdt_length m (xsdt_address m r)))) as [Hs|Hs]; cbn [negb].
    + exists (set_xsdt (xsdt_address m r) a). split; [done|]. split; [done|]. right. split; [done|]. split; [done|]. intros sig Hnz Hl.
      unfold acpi_find_table, gets. cbn -[entry_count find_entry Z.eqb]. fold r m.
      rewrite (proj2 (Z.eqb_neq r 0)), (proj2 (Z.eqb_neq (xsdt_address m r) 0)) by done. cbn [negb].
      rewrite find_entry_spec, entry_count_ok, Z2Nat.id by (done || (apply Z.div_pos; lia)). done.
    + exists (set_xsdt 0 (set_xsdt (xsdt_address m r) a)). split; [done|]. split; [done|]. left. done.
  - rewrite bool_decide_eq_false_2 by done. rewrite acpi_checksum_spec by (pose proof (load32_range m (rsdt_address m r + 4)); unfold sdt_length; lia).
    destruct (bool_decide_reflect (sums_to_zero m (rsdt_address m r) (sdt_length m (rsdt_address m r)))) as [Hs|Hs]; cbn [negb].
    + exists (set_rsdt (rsdt_address m r) a). split; [done|]. split; [done|]. right. split; [done|]. split; [done|]. intros sig Hnz Hl.
      unfold acpi_find_table, gets. cbn -[entry_count find_entry Z.eqb]. fold r m. rewrite Hx.
      rewrite (proj2 (Z.eqb_neq r 0)), (proj2 (Z.eqb_neq (rsdt_address m r) 0)) by done. cbn [negb Z.eqb].
      rewrite find_entry_spec, entry_count_ok, Z2Nat.id by (done || (apply Z.div_pos; lia)). done.
    + exists (set_rsdt 0 (set_rsdt (rsdt_address m r) a)). split; [done|]. split; [done|]. left. done.
Qed.

(** ** The byte code *)

Definition aml (a : acpi) (j : Z) : Z := load8 (ac_mem a) (g_dsdt_aml a + j).
(** A constant of the byte code: its value and length. *)
Definition aml_const (b0 b1 : Z) : option (Z * Z) :=
  if decide (b0 = AML_BYTEPREFIX) then Some (b1, 2) else if decide (b0 = AML_ZEROOP) then Some (0, 1)
  else if decide (b0 = AML_ONEOP) then Some (1, 1) else None.
(** The object [Name (_S5_, Package (n) {typa, typb, ...})] with its name at
    [i]: the first two elements of the package, the second one 0 when it is no
    constant. *)
Definition s5_object (a : acpi) (i : Z) : option (Z * Z) :=
  if decide (0 < i ∧ aml a (i - 1) = AML_NAMEOP ∧ (aml a <$> seqZ i 4) = lit "_S5_" ∧ aml a (i + 4) = AML_PACKAGEOP ∧
             i + 6 + aml_pkg_length_size (aml a (i + 5)) + 4 ≤ g_dsdt_len a) then
    let j := i + 6 + aml_pkg_length_size (aml a (i + 5)) in
    '(ta, n) ← aml_const (aml a j) (aml a (j + 1));
    Some (ta, default 0 (fst <$> aml_const (aml a (j + n)) (aml a (j + n + 1))))
  else None.

Lemma aml_byte_ok a j : j < g_dsdt_len a → aml_byte j a = Ok (aml a j, a).
Proof. intros H. unfold aml_byte, mbind, M_bind, gets. by rewrite (proj2 (Z.leb_gt _ _)). Qed.

Lemma aml_name_ok a name : ∀ j, j + Z.of_nat (length name) ≤ g_dsdt_len a →
  aml_name j name a = Ok (bool_decide ((aml a <$> seqZ j (Z.of_nat (length name))) = name), a).
Proof.
  induction name as [|c name IH]; intros j Hj; [done|]. cbn [length] in *. rewrite Nat2Z.inj_succ, seqZ_cons in * by lia. cbn [aml_name fmap list_fmap].
  rewrite (bind_ok _ _ a (aml a j) a) by (apply aml_byte_ok; lia). rewrite Z.pred_succ.
  destruct (Z.eqb_spec (aml a j) c) as [->|Hne].
  - rewrite IH by lia. f_equal. f_equal. apply bool_decide_ext. unfold Z.succ. split; [by intros ->|by intros [= ?]].
  - rewrite (bool_decide_eq_false_2 (_ :: _ = _)); [done|]. by intros [= ?].
Qed.

Lemma pkg_size_bound b : 1 ≤ aml_pkg_length_size b ≤ 4.
Proof. unfold aml_pkg_length_size. change 3 with (Z.ones 2). rewrite Z.land_ones by lia. pose proof (Z.mod_pos_bound (Z.shiftr b 6) (2 ^ 2) ltac:(lia)). lia. Qed.

Lemma read_typa_ok a j : j + 1 < g_dsdt_len a →
  read_typa j a = Ok ((λ c, (c.1, j + c.2)) <$> aml_const (aml a j) (aml a (j + 1)), a).
Proof.
  intros H. unfold read_typa, aml_const. rewrite (bind_ok _ _ a (aml a j) a) by (apply aml_byte_ok; lia).
  destruct (Z.eqb_spec (aml a j) AML_BYTEPREFIX) as [->|H1].
  { by rewrite (bind_ok _ _ a (aml a (j + 1)) a) by (by apply aml_byte_ok). }
  destruct (Z.eqb_spec (aml a j) AML_ZEROOP) as [->|H2]; [done|]. destruct (Z.eqb_spec (aml a j) AML_ONEOP) as [->|H3]; [done|].
  by rewrite !decide_False.
Qed.

Lemma read_typb_ok a j : j + 1 < g_dsdt_len a →
  read_typb j a = Ok (default 0 (fst <$> aml_const (aml a j) (aml a (j + 1))), a).
Proof.
  intros H. unfold read_typb, aml_const. rewrite (bind_ok _ _ a (g_dsdt_len a) a) by done.
  rewrite (proj2 (Z.ltb_lt j (g_dsdt_len a))), (proj2 (Z.ltb_lt (j + 1) (g_dsdt_len a))) by lia.
  rewrite (bind_ok _ _ a (aml a j) a) by (apply aml_byte_ok; lia). rewrite andb_true_r.
  destruct (Z.eqb_spec (aml a j) AML_BYTEPREFIX) as [->|H1]; [by rewrite aml_byte_ok|].
  rewrite (decide_False (P := aml a j = AML_BYTEPREFIX)) by done.
  destruct (Z.eqb_spec (aml a j) AML_ONEOP) as [->|H2]; [done|]. rewrite (decide_False (P := aml a j = AML_ONEOP)) by done. by case_decide.
Qed.

(** All accesses are inside of the byte code. *)
Lemma s5_at_ok a i : 0 ≤ i → i + 8 < g_dsdt_len a → g_dsdt_len a ≤ 2 ^ 32 - 16 → s5_at i a = Ok (s5_object a i, a).
Proof.
  intros Hi Hl Hmax. unfold s5_at, s5_object. set (len := g_dsdt_len a) in *.
  rewrite (bind_ok _ _ a _ a (aml_name_ok a (lit "_S5_") i ltac:(cbn [length lit]; fold len; lia))).
  change (Z.of_nat (length (lit "_S5_"))) with 4. case_bool_decide as Hn; cbn [negb]; [|by rewrite decide_False by tauto].
  destruct (Z.eqb_spec i 0) as [->|Hi0].
  { rewrite (bind_ok _ _ a 0 a) by done. cbn [orb]. rewrite decide_False by lia. done. }
  rewrite (bind_ok _ _ a (aml a (i - 1)) a) by (apply aml_byte_ok; fold len; lia). cbn [orb].
  destruct (Z.eqb_spec (aml a (i - 1)) AML_NAMEOP) as [Hp|Hp]; cbn [negb]; [|by rewrite decide_False by tauto]. cbv zeta.
  rewrite (bind_ok _ _ a (aml a (i + 4)) a) by (apply aml_byte_ok; fold len; lia).
  destruct (Z.eqb_spec (aml a (i + 4)) AML_PACKAGEOP) as [Hk|Hk]; cbn [negb]; [|by rewrite decide_False by tauto].
  replace (i + 4 + 1) with (i + 5) by lia. rewrite (bind_ok _ _ a (aml a (i + 5)) a) by (apply aml_byte_ok; fold len; lia).
  pose proof (pkg_size_bound (aml a (i + 5))) as Hb. set (k := aml_pkg_length_size (aml a (i + 5))) in *.
  replace (i + 5 + k + 1) with (i + 6 + k) by lia. rewrite (u32_small (i + 6 + k)) by lia. set (j := i + 6 + k) in *.
  rewrite (bind_ok _ _ a len a) by done. rewrite (u32_small (j + 4)) by lia.
  destruct (Z.ltb_spec len (j + 4)) as [Hlt|Hge]; [by rewrite decide_False by lia|]. rewrite decide_True by (splits; done || lia).
  rewrite (bind_ok _ _ a _ a (read_typa_ok a j ltac:(fold len; lia))).
  destruct (aml_const (aml a j) (aml a (j + 1))) as [[ta n]|] eqn:E; [|done]. cbn.
  assert (1 ≤ n ≤ 2) as Hn2. { unfold aml_const in E. repeat case_decide; simplify_eq; lia. }
  by rewrite (bind_ok _ _ a _ a (read_typb_ok a (j + n) ltac:(fold len; lia))).
Qed.

Lemma s5_loop_ok a n : ∀ i, 0 ≤ i → i + Z.of_nat n + 8 ≤ g_dsdt_len a → g_dsdt_len a ≤ 2 ^ 32 - 16 →
  (s5_loop n i a = Ok (None, a) ∧ ∀ k, i ≤ k < i + Z.of_nat n → s5_object a k = None) ∨
  ∃ k t, i ≤ k < i + Z.of_nat n ∧ s5_object a k = Some t ∧ (∀ k', i ≤ k' < k → s5_object a k' = None) ∧ s5_loop n i a = Ok (Some t, a).
Proof.
  induction n as [|n IH]; intros i Hi Hl Hmax; [left; split; [done|]; intros; lia|]. cbn [s5_loop].
  rewrite (bind_ok _ _ a _ a (s5_at_ok a i Hi ltac:(lia) Hmax)). destruct (s5_object a i) as [t|] eqn:E.
  - right. exists i, t. split; [lia|]. split; [done|]. split; [|done]. intros; lia.
  - destruct (IH (i + 1) ltac:(lia) ltac:(lia) Hmax) as [[E1 Hn]|(k & t & Hk & Et & Hf & E1)].
    + left. split; [done|]. intros k Hk. destruct (decide (k = i)) as [->|]; [done|]. apply Hn. lia.
    + right. exists k, t. split; [lia|]. split; [done|]. split; [|done]. intros k' Hk'. destruct (decide (k' = i)) as [->|]; [done|]. apply Hf. lia.
Qed.

Lemma dsdt_find_s5_ok a : g_dsdt_aml a ≠ 0 → 0 ≤ g_dsdt_len a ≤ 2 ^ 32 - 16 →
  (dsdt_find_s5 a = Ok (None, a) ∧ ∀ i, 0 ≤ i → i + 8 < g_dsdt_len a → s5_object a i = None) ∨
  ∃ i t, 0 ≤ i ∧ i + 8 < g_dsdt_len a ∧ s5_object a i = Some t ∧ (∀ k, 0 ≤ k < i → s5_object a k = None) ∧ dsdt_find_s5 a = Ok (Some t, a).
Proof.
  intros E2 Hl. unfold dsdt_find_s5. rewrite (bind_ok _ _ a (g_dsdt_aml a) a), (bind_ok _ _ a (g_dsdt_len a) a) by done.
  rewrite (proj2 (Z.eqb_neq _ _) E2). cbn [orb]. destruct (Z.ltb_spec (g_dsdt_len a) 8).
  { left. split; [done|]. intros; lia. }
  destruct (s5_loop_ok a (Z.to_nat (g_dsdt_len a - 8)) 0) as [[-> Hn]|(k & t & Hk & Et & Hf & ->)]; [lia|lia|lia| |].
  - left. split; [done|]. intros i Hi Hi2. apply Hn. lia.
  - right. exists k, t. split; [lia|]. split; [lia|]. done.
Qed.

(** The fields of the value for the control register. *)
Lemma slp_value_fields typ : 0 ≤ typ < 8 → slp_value typ = 1024 * typ + 2 ^ 13.
Proof.
  intros H. assert (typ = 0 ∨ typ = 1 ∨ typ = 2 ∨ typ = 3 ∨ typ = 4 ∨ typ = 5 ∨ typ = 6 ∨ typ = 7) as Hc by lia.
  by destruct_or! Hc; subst.
Qed.

(** ** The theorems *)

(** C36: [acpi_init] takes the first valid root pointer of the search order (signature, checksum and, from revision 2 on,
    the checksum of the whole structure) or reports that there is none; it refuses a root table whose bytes do not sum up
    to zero; and when it succeeds, [acpi_find_table] returns the first table of the signature that the root table lists,
    refuses it when its checksum is wrong, and reports a missing table exactly when none has the signature (for a root table that has an address and is not
    shorter than its header, whose entry count would wrap around). *)
Theorem acpi_init_find_correct a :
  g_rsdt a = 0 → g_xsdt a = 0 →
  let m := ac_mem a in
  ∃ r a', first_rsdp m (rsdp_places m) r ∧ ac_mem a' = m ∧ g_rsdp a' = r ∧
    let t := root_table m r in
    ((r = 0 ∧ acpi_init a = Ok (ACPI_ERR_NOT_FOUND, a')) ∨
     (r ≠ 0 ∧ ¬ sums_to_zero m t (sdt_length m t) ∧ acpi_init a = Ok (ACPI_ERR_CHECKSUM, a') ∧ g_rsdt a' = 0 ∧ g_xsdt a' = 0) ∨
     (r ≠ 0 ∧ sums_to_zero m t (sdt_length m t) ∧ acpi_init a = Ok (ACPI_OK, a') ∧
      ∀ sig, t ≠ 0 → 36 ≤ sdt_length m t → acpi_find_table sig a' = Ok (table_spec m (tables m r) sig, a'))).
Proof.
  intros Ht Hx m. exists (rsdp_find m). pose proof (rsdp_find_spec m) as Hf. unfold acpi_init.
  destruct (Z.eqb_spec (rsdp_find m) 0) as [E|E].
  - exists (set_rsdp (rsdp_find m) a). splits; [done|done|done|]. left. split; [done|]. cbn. unfold mbind, M_bind, gets, modify. fold m. by rewrite E.
  - destruct (init_tables_spec (set_rsdp (rsdp_find m) a) E Ht Hx) as (a' & Hm & Hr & Hcase). exists a'.
    splits; [done|done|done|]. right.
    assert (Ei : ∀ x, init_tables (set_rsdp (rsdp_find m) a) = x →
      (r ← gets (λ a, rsdp_find (ac_mem a)); modify (set_rsdp r);; if r =? 0 then mret ACPI_ERR_NOT_FOUND else init_tables) a = x).
    { intros x <-. unfold mbind, M_bind, gets, modify. fold m. by rewrite (proj2 (Z.eqb_neq _ _) E). }
    cbn [g_rsdp set_rsdp ac_mem] in Hcase. fold m in Hcase. destruct Hcase as [(H1 & H2 & H3)|(H1 & H2 & H3)]; [left|right]; eauto 10.
Qed.

(** C37: [acpi_shutdown] always returns, reads the byte code of the DSDT within its bounds, and writes to the control ports
    exactly the sleep types of the first [_S5_] package with the enable bit set; without such an object, a port or a DSDT
    it writes nothing.  The byte code has at most 2^32 - 16 bytes; only the length of a DSDT that is shorter than its header
    wraps around to more. *)
Theorem acpi_shutdown_correct a :
  0 ≤ g_dsdt_len a ≤ 2 ^ 32 - 16 →
  ∃ a', acpi_shutdown a = Ok (ACPI_ERR_NOT_FOUND, a') ∧
    ((outw_log a' = outw_log a ∧ (g_pm1a_cnt_port a = 0 ∨ g_dsdt_aml a = 0 ∨ ∀ i, 0 ≤ i → i + 8 < g_dsdt_len a → s5_object a i = None)) ∨
     ∃ i ta tb, 0 ≤ i ∧ i + 8 < g_dsdt_len a ∧ s5_object a i = Some (ta, tb) ∧ (∀ k, 0 ≤ k < i → s5_object a k = None) ∧
       outw_log a' = outw_log a ++ [(u16 (g_pm1a_cnt_port a), slp_value ta)] ++
         (if decide (g_pm1b_cnt_port a = 0) then [] else [(u16 (g_pm1b_cnt_port a), slp_value tb)])).
Proof.
  intros Hl. unfold acpi_shutdown. rewrite (bind_ok _ _ a (g_pm1a_cnt_port a) a), (bind_ok _ _ a (g_pm1b_cnt_port a) a), (bind_ok _ _ a (g_dsdt_aml a) a) by done.
  destruct (Z.eqb_spec (g_pm1a_cnt_port a) 0) as [E1|E1]; cbn [orb]; [exists a; by eauto 10|].
  destruct (Z.eqb_spec (g_dsdt_aml a) 0) as [E2|E2]; [exists a; by eauto 10|].
  destruct (dsdt_find_s5_ok a E2 Hl) as [[E Hn]|(i & [ta tb] & Hi & Hi2 & Et & Hf & E)]; rewrite (bind_ok _ _ a _ a E).
  - exists a. eauto 10.
  - destruct (Z.eqb_spec (g_pm1b_cnt_port a) 0) as [E3|E3]; cbn [negb]; (eexists; split; [reflexivity|]; right; exists i, ta, tb).
    + rewrite decide_True by done. done.
    + rewrite decide_False by done. split; [done|]. split; [done|]. split; [done|]. split; [done|]. cbn. by rewrite <-app_assoc.
Qed.

(** ** Examples *)

Fixpoint put_list (m : memory) (p : Z) (l : list Z) : memory :=
  match l with
  | [] => m
  | c :: l => put_list (store8 m p c) (p + 1) l
  end.
(** A root pointer of revision 0 at the end of the BIOS area, a root table with
    one entry, and a FADT; the checksum bytes make the sums zero. *)
Definition fix_sum (m : memory) (p n at_ : Z) : memory := store8 m at_ (u8 (load8 m at_ - acpi_checksum m p n)).
Definition sample_tables : memory :=
  let m := put_list ∅ 0xFFFE0 (lit "RSD PTR ") in
  let m := fix_sum (store32 m (0xFFFE0 + 16) 0x1000) 0xFFFE0 20 (0xFFFE0 + 8) in
  let m := store32 (store32 (put_list m 0x1000 (lit "RSDT")) 0x1004 40) (0x1000 + 36) 0x2000 in
  let m := fix_sum m 0x1000 40 0x1009 in
  let m := store32 (store32 (put_list m 0x2000 (lit "FACP")) 0x2004 116) (0x2000 + 40) 0x3000 in
  let m := store32 m (0x2000 + 64) 0x604 in
  let m := fix_sum m 0x2000 116 0x2009 in
  let m := store32 (put_list m 0x3000 (lit "DSDT")) 0x3004 60 in
  put_list m (0x3000 + 40) (AML_NAMEOP :: lit "_S5_" ++ [AML_PACKAGEOP; 6; 2; AML_BYTEPREFIX; 5; AML_ZEROOP]).
Definition sample_acpi : acpi := mkAcpi sample_tables 0 0 0 0 0 0 0 [].

Lemma acpi_init_find_correct_witness :
  ∃ r a', first_rsdp sample_tables (rsdp_places sample_tables) r ∧ ac_mem a' = sample_tables ∧ g_rsdp a' = r.
Proof.
  destruct (acpi_init_find_correct sample_acpi eq_refl eq_refl) as (r & a' & H1 & H2 & H3 & _).
  exists r, a'. split; [exact H1|]. split; [exact H2|exact H3].
Defined.

(** The whole of it: initialise, find the FADT, shut down. *)
Example acpi_sample_run :
  match (s ← acpi_init; t ← acpi_find_table (lit "FACP"); f ← acpi_parse_fadt; r ← acpi_shutdown; l ← gets outw_log;
         mret (s, t, f, r, l)) sample_acpi with
  | Ok (x, _) => x = (ACPI_OK, (ACPI_OK, Some 0x2000), ACPI_OK, ACPI_ERR_NOT_FOUND, [(0x604, 5 * 1024 + 8192)])
  | _ => False
  end.
Proof. vm_compute. reflexivity. Qed.

Definition sample_off : acpi := mkAcpi sample_tables 0xFFFE0 0x1000 0 0x604 0 (0x3000 + 36) 24 [].
Lemma acpi_shutdown_correct_witness : ∃ a', acpi_shutdown sample_off = Ok (ACPI_ERR_NOT_FOUND, a') ∧
  ∃ i ta tb, s5_object sample_off i = Some (ta, tb) ∧ outw_log a' = [(0x604, slp_value ta)].
Proof.
  destruct (acpi_shutdown_correct sample_off ltac:(cbn; lia)) as (a' & E & [[_ [H|[H|H]]]|(i & ta & tb & _ & _ & Hs & _ & Hl)]).
  - discriminate.
  - discriminate.
  - exfalso. specialize (H 5 ltac:(lia) ltac:(cbn; lia)). vm_compute in H. discriminate.
  - exists a'. split; [exact E|]. exists i, ta, tb. split; [exact Hs|exact Hl].
Defined.

(** A FADT of revision 2 with its fields at the offsets of the specification:
    the extended event block at 148, the extended control block at 172.
    [acpi_fadt_t] has the control block at 148, and so the shutdown writes to
    the event register. *)
Definition wide_tables : memory :=
  let m := store8 (store32 sample_tables 0x2004 196) 0x2008 2 in
  let m := store64 (store8 m (0x2000 + 148) 1) (0x2000 + 152) 0x600 in
  let m := store64 (store8 m (0x2000 + 172) 1) (0x2000 + 176) 0x604 in
  fix_sum m 0x2000 196 0x2009.
Example parse_fadt_takes_event_block :
  match (acpi_init;; acpi_parse_fadt;; gets g_pm1a_cnt_port) (mkAcpi wide_tables 0 0 0 0 0 0 0 []) with
  | Ok (p, _) => p = 0x600
  | _ => False
  end.
Proof. vm_compute. reflexivity. Qed.
