(* ===== verification/Pci.v ===== *)
(** * PCI enumeration

    Model of src/drivers/pci/pci.c and of [sata_search] (src/drivers/storage/sata.c),
    which the scan calls.  The device [D] behind the two configuration ports is
    a parameter, given by what the port instructions do ([ConfigPorts]); [mmio]
    gives the registers of disk controllers by their physical address; they are
    read through the page tables.  The rest of the state is the virtual memory manager and the static variables.  What is
    printed is left out. *)
From Stdlib Require Import ZArith Lia.
From stdpp Require Import base option gmap list.
From S2P Require Import Prelude Memory Pmm Vmm.

Definition PCI_CONFIG_ADDRESS : Z := 0xCF8.
Definition PCI_CONFIG_DATA : Z := 0xCFC.
Definition PTE_WRITE_THROUGH : Z := Z.shiftl 1 3.
Definition PTE_CACHE_DISABLE : Z := Z.shiftl 1 4.

(** The instructions [out] and [in] on 32-bit ports. *)
Class ConfigPorts (D : Type) := {
  outl : Z → Z → D → D;
  inl : Z → D → Z * D;
}.

Record pci (D : Type) := mkPci {
  p_dev : D; p_vmm : vmm; pid_rn : Z; ehci_mmio_phys : Z;
  ehci_saved_bus : Z; ehci_saved_device : Z; ehci_saved_func : Z; ehci_found : bool; g_sata_port : Z }.
Arguments mkPci {D}.
Arguments p_dev {D}.
Arguments p_vmm {D}.
Arguments pid_rn {D}.
Arguments ehci_mmio_phys {D}.
Arguments ehci_saved_bus {D}.
Arguments ehci_saved_device {D}.
Arguments ehci_saved_func {D}.
Arguments ehci_found {D}.
Arguments g_sata_port {D}.

Section pci.
Context {D : Type} `{ConfigPorts D} (mmio : Z → Z).

Definition set_p_dev (d : D) (s : pci D) : pci D :=
  mkPci d (p_vmm s) (pid_rn s) (ehci_mmio_phys s) (ehci_saved_bus s) (ehci_saved_device s) (ehci_saved_func s) (ehci_found s) (g_sata_port s).
Definition set_p_vmm (v : vmm) (s : pci D) : pci D :=
  mkPci (p_dev s) v (pid_rn s) (ehci_mmio_phys s) (ehci_saved_bus s) (ehci_saved_device s) (ehci_saved_func s) (ehci_found s) (g_sata_port s).
Definition set_pid_rn (n : Z) (s : pci D) : pci D :=
  mkPci (p_dev s) (p_vmm s) n (ehci_mmio_phys s) (ehci_saved_bus s) (ehci_saved_device s) (ehci_saved_func s) (ehci_found s) (g_sata_port s).
Definition set_ehci_mmio (a : Z) (s : pci D) : pci D :=
  mkPci (p_dev s) (p_vmm s) (pid_rn s) a (ehci_saved_bus s) (ehci_saved_device s) (ehci_saved_func s) (ehci_found s) (g_sata_port s).
Definition set_ehci (bus device func : Z) (s : pci D) : pci D :=
  mkPci (p_dev s) (p_vmm s) (pid_rn s) (ehci_mmio_phys s) bus device func true (g_sata_port s).
Definition set_sata_port (p : Z) (s : pci D) : pci D :=
  mkPci (p_dev s) (p_vmm s) (pid_rn s) (ehci_mmio_phys s) (ehci_saved_bus s) (ehci_saved_device s) (ehci_saved_func s) (ehci_found s) p.

(** ** Configuration space *)

Definition pci_address (bus device func offset : Z) : Z :=
  Z.lor (Z.lor (Z.lor (Z.lor (Z.shiftl 1 31) (Z.shiftl bus 16)) (Z.shiftl device 11)) (Z.shiftl func 8)) (Z.land offset 0xFC).

Definition pci_read (bus device func offset : Z) : M (pci D) Z := λ s,
  let '(v, d) := inl PCI_CONFIG_DATA (outl PCI_CONFIG_ADDRESS (pci_address bus device func offset) (p_dev s)) in
  Ok (v, set_p_dev d s).
Definition pci_write (bus device func offset data : Z) : M (pci D) unit := modify (λ s,
  set_p_dev (outl PCI_CONFIG_DATA data (outl PCI_CONFIG_ADDRESS (pci_address bus device func offset) (p_dev s))) s).

Definition pci_get_bar_size (bus device func offset : Z) : M (pci D) Z :=
  orig ← pci_read bus device func offset;
  pci_write bus device func offset 0xFFFFFFFF;;
  size_mask ← pci_read bus device func offset;
  pci_write bus device func offset orig;;
  let size_mask := Z.land size_mask (u32 (Z.lnot 0xF)) in
  mret (u32 (u32 (Z.lnot size_mask) + 1)).

Definition pci_read_bar (bus device func bar_num : Z) : M (pci D) Z :=
  if 5 <? bar_num then mret 0 else pci_read bus device func (u8 (0x10 + bar_num * 4)).

(** ** Disk controllers *)

Definition in_p_vmm {A} (m : M vmm A) : M (pci D) A := zoom p_vmm set_p_vmm m.

(** A load from a register of a controller: through the page tables, with a
    fault where the address is not mapped. *)
Definition mmio_read (a : Z) : M (pci D) Z :=
  phys ← in_p_vmm (virt_to_phys_user a);
  if phys =? 0 then fault else mret (mmio phys).

(** The body of the loop of [sata_search] over the ports of the controller; [pi]
    is the register of the ports that there are. *)
Definition sata_port (mmio_base pi p : Z) : M (pci D) unit :=
  if Z.land pi (Z.shiftl 1 p) =? 0 then mret tt else
  let port_base := u64 (mmio_base + 0x100 + p * 0x80) in
  ssts ← mmio_read (u64 (port_base + 0x28));
  if negb (Z.land ssts 0x0F =? 3) then mret tt else
  sig ← mmio_read (u64 (port_base + 0x24));
  if sig =? 0x00000101 then
    modify (λ s, if g_sata_port s =? 0 then set_sata_port port_base s else s)
  else mret tt.
Definition sata_search (mmio_base : Z) : M (pci D) unit :=
  if mmio_base =? 0 then mret tt else
  pi ← mmio_read (u64 (mmio_base + 0x0C));
  for_loop 32 0 (sata_port mmio_base pi).

(** ** The scan *)

(** The classes that the scan tells apart, from the class register. *)
Definition class_code (c : Z) : Z := Z.land (Z.shiftr c 24) 0xFF.
Definition subclass (c : Z) : Z := Z.land (Z.shiftr c 16) 0xFF.
Definition prog_if (c : Z) : Z := Z.land (Z.shiftr c 8) 0xFF.

(** The body of the loop over the functions; [scan_bus] scans a bus. *)
Definition scan_function (scan_bus : Z → M (pci D) unit) (bus device func : Z) : M (pci D) unit :=
  vd ← pci_read bus device func 0x00;
  if Z.land vd 0xFFFF =? 0xFFFF then mret tt else
  c ← pci_read bus device func 0x08;
  if class_code c =? 0x01 then
    if (subclass c =? 0x06) && (prog_if c =? 0x01) then
      bar5 ← pci_read bus device func 0x24;
      let ahci_base := Z.land bar5 0xFFFFFFF0 in
      modify (set_pid_rn 7);;
      in_p_vmm (map_page ahci_base ahci_base (Z.lor (Z.lor PTE_WRITABLE PTE_CACHE_DISABLE) PTE_WRITE_THROUGH));;
      sata_search ahci_base
    else mret tt
  else if (class_code c =? 0x0C) && (subclass c =? 0x03) then
    if prog_if c =? 0x20 then modify (λ s, if ehci_found s then s else set_ehci bus device func s) else mret tt
  else if (class_code c =? 0x06) && (subclass c =? 0x04) then
    bus_data ← pci_read bus device func 0x18;
    scan_bus (Z.land (Z.shiftr bus_data 8) 0xFF)
  else mret tt.

Definition scan_pci_device (scan_bus : Z → M (pci D) unit) (bus device : Z) : M (pci D) unit :=
  vendor_data ← pci_read bus device 0 0x00;
  if Z.land vendor_data 0xFFFF =? 0xFFFF then mret tt else
  header_data ← pci_read bus device 0 0x0C;
  let header_type := Z.land (Z.shiftr header_data 16) 0xFF in
  let func_limit := if negb (Z.land header_type 0x80 =? 0) then 8%nat else 1%nat in
  for_loop func_limit 0 (scan_function scan_bus bus device).

(** [fuel] bounds the depth of the nested calls. *)
Fixpoint scan_pci_bus (fuel : nat) (bus : Z) : M (pci D) unit :=
  match fuel with
  | O => spin
  | S fuel => for_loop 32 0 (scan_pci_device (scan_pci_bus fuel) bus)
  end.

Definition start_pci_enumeration (fuel : nat) : M (pci D) unit :=
  header_data ← pci_read 0 0 0 0x0C;
  let header_type := Z.land (Z.shiftr header_data 16) 0xFF in
  if Z.land header_type 0x80 =? 0 then scan_pci_bus fuel 0
  else for_loop 8 0 (λ func,
    vd ← pci_read 0 0 func 0x00;
    if Z.land vd 0xFFFF =? 0xFFFF then mret tt else
    bus_data ← pci_read 0 0 func 0x18;
    scan_pci_bus fuel (Z.land (Z.shiftr bus_data 8) 0xFF)).

(** ** The USB controller *)

(** Bus, device, function and whether there is one. *)
Definition pci_get_ehci : M (pci D) (Z * Z * Z * bool) :=
  gets (λ s, (ehci_saved_bus s, ehci_saved_device s, ehci_saved_func s, ehci_found s)).
Definition pci_get_ehci_mmio : M (pci D) Z := gets ehci_mmio_phys.

Definition ehci_pci_init (bus dev func : Z) : M (pci D) unit :=
  bar0 ← pci_read bus dev func 0x10;
  if negb (Z.land bar0 0x1 =? 0) then mret tt else
  let phys := Z.land bar0 0xFFFFFFF0 in
  size ← pci_get_bar_size bus dev func 0x10;
  for_loop (Z.to_nat ((size + 0xFFF) / 0x1000)) 0 (λ i,
    let off := i * 0x1000 in
    in_p_vmm (map_page (u64 (phys + off)) (u64 (phys + off))
      (Z.lor (Z.lor (Z.lor PTE_PRESENT PTE_WRITABLE) PTE_CACHE_DISABLE) PTE_WRITE_THROUGH)));;
  modify (set_ehci_mmio phys).
End pci.
