(* ===== verification/PciProof.v ===== *)
(** * PCI: the scan visits the hierarchy

    Against what the configuration mechanism promises ([PciBus]): addresses
    name registers uniquely, the scan of a hierarchy whose bus numbers increase
    ends and visits the functions in depth-first order, and the probe of a base
    address register restores it. *)
From Stdlib Require Import ZArith Lia.
From stdpp Require Import base option gmap list.
From S2P Require Import Prelude Memory Pmm PmmProof PmmFree PmmInit PmmIface PmmSpec Vmm VmmProof VmmMap VmmSpec Endian Pci.

(** Reading the data port gives the register that was selected and changes no
    register. *)
Class PciBus (D : Type) `{ConfigPorts D} := {
  creg : D → Z → Z;
  creg_read : ∀ d a, ∃ d', inl PCI_CONFIG_DATA (outl PCI_CONFIG_ADDRESS a d) = (creg d a, d') ∧ ∀ b, creg d' b = creg d b;
}.

(** ** Addresses *)

Lemma lor_add_fields hi lo k : 0 ≤ k → 0 ≤ lo < 2 ^ k → hi `mod` 2 ^ k = 0 → Z.lor hi lo = hi + lo.
Proof.
  intros Hk Hlo Hhi. pose proof (Z.div_mod hi (2 ^ k) ltac:(lia)) as E. rewrite Hhi, Z.add_0_r, Z.mul_comm in E.
  rewrite E, Z.lor_comm, lor_low_high by done. lia.
Qed.

Definition bdf_ok (bus device func : Z) : Prop := 0 ≤ bus < 256 ∧ 0 ≤ device < 32 ∧ 0 ≤ func < 8.
Definition reg_ok (offset : Z) : Prop := 0 ≤ offset < 256 ∧ offset `mod` 4 = 0.

Lemma pci_address_eq bus device func offset : bdf_ok bus device func → reg_ok offset →
  pci_address bus device func offset = 2 ^ 31 + 65536 * bus + 2048 * device + 256 * func + offset.
Proof.
  intros (Hb & Hd & Hf) [Ho Hm]. unfold pci_address. rewrite !Z.shiftl_mul_pow2 by lia.
  assert (Z.land offset 0xFC = offset) as ->.
  { change 0xFC with (Z.ldiff 0xFF 3). change 0xFF with (Z.ones 8). change 3 with (Z.ones 2).
    apply Z.bits_inj'. intros i Hi. rewrite Z.land_spec, Z.ldiff_spec, !Z.testbit_ones_nonneg by lia.
    destruct (Z.ltb_spec i 8); [|by rewrite (testbit_high offset 8) by lia].
    destruct (Z.ltb_spec i 2); cbn [negb andb]; [|by rewrite andb_true_r].
    rewrite andb_false_r. replace offset with (offset / 4 * 2 ^ 2) by (pose proof (Z.div_mod offset 4 ltac:(lia)); lia).
    by rewrite Z.mul_pow2_bits_low by lia. }
  rewrite (lor_add_fields (1 * 2 ^ 31) (bus * 2 ^ 16) 31) by (try lia; done).
  rewrite (lor_add_fields _ (device * 2 ^ 11) 16) by (try lia; zdiv).
  rewrite (lor_add_fields _ (func * 2 ^ 8) 11) by (try lia; zdiv). rewrite (lor_add_fields _ offset 8) by (try lia; zdiv). lia.
Qed.

(** ** The hierarchy, as the registers describe it *)

Section hierarchy.
Context (c : Z → Z).
Definition reg (b : Z * Z * Z) (offset : Z) : Z := c (pci_address b.1.1 b.1.2 b.2 offset).
Definition present (b : Z * Z * Z) : bool := negb (Z.land (reg b 0) 0xFFFF =? 0xFFFF).
Definition multifunction (b : Z * Z * Z) : bool := negb (Z.land (Z.land (Z.shiftr (reg b 0x0C) 16) 0xFF) 0x80 =? 0).
Definition is_ahci (b : Z * Z * Z) : bool :=
  (class_code (reg b 8) =? 0x01) && ((subclass (reg b 8) =? 0x06) && (prog_if (reg b 8) =? 0x01)).
Definition is_ehci (b : Z * Z * Z) : bool :=
  (class_code (reg b 8) =? 0x0C) && (subclass (reg b 8) =? 0x03) && (prog_if (reg b 8) =? 0x20).
Definition is_bridge (b : Z * Z * Z) : bool := (class_code (reg b 8) =? 0x06) && (subclass (reg b 8) =? 0x04).
Definition secondary (b : Z * Z * Z) : Z := Z.land (Z.shiftr (reg b 0x18) 8) 0xFF.
Definition ahci_base (b : Z * Z * Z) : Z := Z.land (reg b 0x24) 0xFFFFFFF0.

(** The functions on a bus and below it, depth first; [n] bounds the depth. *)
Fixpoint enum (n : nat) (bus : Z) : list (Z * Z * Z) :=
  match n with
  | O => []
  | S n =>
      let func device f := let b := (bus, device, f) in
        if present b then b :: (if is_bridge b then enum n (secondary b) else []) else [] in
      let dev device := if present (bus, device, 0) then seqZ 0 (if multifunction (bus, device, 0) then 8 else 1) ≫= func device else [] in
      seqZ 0 32 ≫= dev
  end.

(** Firmware numbers the buses so that a bridge leads to a higher one. *)
Definition numbered : Prop := ∀ b, bdf_ok b.1.1 b.1.2 b.2 → present b = true → is_bridge b = true → b.1.1 < secondary b.
End hierarchy.

(** The ports of a disk controller that have a drive. *)
Definition drive_at (mmio : Z → Z) (base p : Z) : bool :=
  negb (Z.land (mmio (base + 0x0C)) (Z.shiftl 1 p) =? 0) && (Z.land (mmio (base + 0x100 + p * 0x80 + 0x28)) 0x0F =? 3) &&
  (mmio (base + 0x100 + p * 0x80 + 0x24) =? 0x101).
Definition drives (mmio : Z → Z) (base : Z) : list Z :=
  if base =? 0 then [] else (λ p, base + 0x100 + p * 0x80) <$> filter (λ p, Is_true (drive_at mmio base p)) (seqZ 0 32).

(** The addresses that [sata_search] reads: the register of the ports there are, and status and signature of each of them. *)
Definition searched (mmio : Z → Z) (base w : Z) : Prop :=
  w = base + 0x0C ∨
  ∃ p, 0 ≤ p < 32 ∧ Z.land (mmio (base + 0x0C)) (Z.shiftl 1 p) ≠ 0 ∧ (w = base + 0x100 + p * 0x80 + 0x28 ∨ w = base + 0x100 + p * 0x80 + 0x24).

(** ** One step *)

Lemma union_None_r_opt {A} (o : option A) : o ∪ None = o.
Proof. by destruct o. Qed.
Lemma union_assoc_opt {A} (a b d : option A) : (a ∪ b) ∪ d = a ∪ (b ∪ d).
Proof. by destruct a, b, d. Qed.
Lemma head_app_union {A} (l k : list A) : head (l ++ k) = head l ∪ head k.
Proof. destruct l; cbn; by destruct k. Qed.

(** ** Mapping the registers of a disk controller *)

Lemma spare_le n k F : (n ≤ k)%nat → spare k F → spare n F.
Proof. intros Hn. induction Hn as [|k Hn IH]; [done|]. intros H. by apply IH, spare_less. Qed.

Section mapping.
Context {inv : pmm → (Z → Prop) → Prop} `{!PageAllocator inv}.

(** Well-formed page tables, and memory for [n] more mappings. *)
Definition vmm_room (n : nat) (v : vmm) : Prop := ∃ F T, vm_inv (inv := inv) v F T ∧ spare (3 * n) F.
(** [w] is mapped to itself. *)
Definition identity (v : vmm) (w : Z) : Prop := virt_to_phys_user w v = Ok (w, v).

Lemma same_page base w : 0 ≤ base < 2 ^ 32 → 0 ≤ w < 2 ^ 48 → vpn w = vpn base → page_base base + w `mod` 2 ^ 12 = w.
Proof.
  intros Hb Hw E. unfold page_base. change (Z.lnot 0xFFF) with (Z.lnot (Z.ones 12)). rewrite <-Z.ldiff_land, Z.ldiff_ones_r by lia.
  rewrite Z.shiftl_mul_pow2, Z.shiftr_div_pow2 by lia. unfold vpn in E. rewrite !Z.mod_small in E by zdiv. rewrite <-E.
  pose proof (Z.div_mod w (2 ^ 12) ltac:(lia)). lia.
Qed.

Lemma map_identity n base v : vmm_room (S n) v → 0 ≤ base < 2 ^ 32 →
  ∃ v', map_page base base (Z.lor (Z.lor PTE_WRITABLE PTE_CACHE_DISABLE) PTE_WRITE_THROUGH) v = Ok (tt, v') ∧ vmm_room n v' ∧
    ∀ w, 0 ≤ w < 2 ^ 48 → vpn w = vpn base ∨ identity v w → identity v' w.
Proof.
  intros (F & T & HV & Hs) Hb. replace (3 * S n)%nat with (S (S (S (3 * n)))) in Hs by lia.
  destruct (map_page_spec v F T base base (Z.lor (Z.lor PTE_WRITABLE PTE_CACHE_DISABLE) PTE_WRITE_THROUGH) HV)
    as [[_ HN]|(v' & F' & T' & E & [HV' Hpg Hrest _ _ _ _] & Hs')]; [unfold fits; lia|unfold fits; by vm_compute| |].
  { destruct HN. eapply spare_le; [|exact Hs]. lia. }
  exists v'. split; [done|]. split; [exists F', T'; auto|]. intros w Hw Hor. unfold identity in *.
  rewrite (virt_to_phys_user_xlate v' F' T' w HV'). destruct (decide (vpn w = vpn base)) as [Ew|Ew].
  - rewrite Hpg by done. cbn [default]. rewrite leaf_addr by (done || lia). by rewrite same_page.
  - destruct Hor as [?|Hid]; [done|]. rewrite Hrest by done. rewrite (virt_to_phys_user_xlate v F T w HV) in Hid. injection Hid as ->. done.
Qed.
End mapping.

Section scan.
Context {D : Type} `{PciBus D} (mmio : Z → Z) (c : Z → Z).
Context {inv : pmm → (Z → Prop) → Prop} `{!PageAllocator inv}.
Implicit Types (s : pci D).

(** The registers are those of [c]. *)
Definition conf s : Prop := ∀ a, creg (p_dev s) a = c a.
Definition ehci_of s : option (Z * Z * Z) :=
  if ehci_found s then Some (ehci_saved_bus s, ehci_saved_device s, ehci_saved_func s) else None.
Definition sata_of s : option Z := if g_sata_port s =? 0 then None else Some (g_sata_port s).
Definition first_ehci (l : list (Z * Z * Z)) : option (Z * Z * Z) := head (filter (λ b, Is_true (is_ehci c b)) l).
Definition drives_of (b : Z * Z * Z) : list Z := if is_ahci c b then drives mmio (ahci_base c b) else [].
Definition first_drive (l : list (Z * Z * Z)) : option Z := head (l ≫= drives_of).

(** The disk controllers among [l], and the pages of their registers. *)
Definition ahcis (l : list (Z * Z * Z)) : list (Z * Z * Z) := filter (λ b, Is_true (is_ahci c b)) l.
Definition ahci_page (l : list (Z * Z * Z)) (w : Z) : Prop := ∃ b, b ∈ ahcis l ∧ vpn w = vpn (ahci_base c b).

(** The scan maps one page for each of them, from the page of its base address on: the registers that are read lie on it,
    or are mapped already. *)
Definition reachable (l : list (Z * Z * Z)) (v : vmm) : Prop :=
  ∀ b w, b ∈ ahcis l → ahci_base c b ≠ 0 → searched mmio (ahci_base c b) w → vpn w = vpn (ahci_base c b) ∨ identity v w.

(** [s'] is [s] after the functions [l] were visited: the first USB controller
    and the first drive are remembered, the registers of the disk controllers
    are mapped, the configuration is unchanged. *)
Record visited (l : list (Z * Z * Z)) (n : nat) s s' : Prop := {
  vi_conf : conf s';
  vi_room : vmm_room (inv := inv) n (p_vmm s');
  vi_map : ∀ w, 0 ≤ w < 2 ^ 48 → ahci_page l w ∨ identity (p_vmm s) w → identity (p_vmm s') w;
  vi_ehci : ehci_of s' = ehci_of s ∪ first_ehci l;
  vi_sata : sata_of s' = sata_of s ∪ first_drive l;
}.
(** [f] visits [l]. *)
Definition visits (f : M (pci D) unit) (l : list (Z * Z * Z)) : Prop :=
  ∀ n s, conf s → vmm_room (inv := inv) (length (ahcis l) + n) (p_vmm s) → reachable l (p_vmm s) → ∃ s', f s = Ok (tt, s') ∧ visited l n s s'.

Lemma ahcis_app l k : ahcis (l ++ k) = ahcis l ++ ahcis k.
Proof. apply filter_app. Qed.
Lemma ahci_page_app l k w : ahci_page (l ++ k) w → ahci_page l w ∨ ahci_page k w.
Proof. intros (b & Hb & E). rewrite ahcis_app in Hb. apply elem_of_app in Hb as [Hb|Hb]; [left|right]; by exists b. Qed.
Lemma ahcis_1 b : ahcis [b] = if is_ahci c b then [b] else [].
Proof. unfold ahcis. rewrite filter_cons, filter_nil. destruct (is_ahci c b); by case_decide. Qed.
Lemma no_page l w : ahcis l = [] → ¬ ahci_page l w.
Proof. intros E (b & Hb & _). rewrite E in Hb. by apply elem_of_nil in Hb. Qed.

(** The addresses are below 2^48, so that what is mapped already stays mapped. *)
Lemma searched_range base w : 0 ≤ base < 2 ^ 32 → searched mmio base w → 0 < w < 2 ^ 48.
Proof. intros Hb [->|(p & Hp & _ & [->| ->])]; lia. Qed.
Lemma ahci_base_range b : 0 ≤ c (pci_address b.1.1 b.1.2 b.2 0x24) → 0 ≤ ahci_base c b < 2 ^ 32.
Proof.
  intros Hc. unfold ahci_base, reg. assert (fits 32 (Z.land 0xFFFFFFF0 (c (pci_address b.1.1 b.1.2 b.2 36)))) as Hf by (apply land_fits; [lia|unfold fits; lia]).
  rewrite Z.land_comm. exact Hf.
Qed.

Context (Hpos : ∀ a, 0 ≤ c a).

Lemma reachable_app l k v : reachable (l ++ k) v → reachable l v ∧ reachable k v.
Proof. intros HR. split; intros b w Hb; apply HR; rewrite ahcis_app; apply elem_of_app; auto. Qed.
Lemma reachable_mono l v v' : (∀ w, 0 ≤ w < 2 ^ 48 → identity v w → identity v' w) → reachable l v → reachable l v'.
Proof.
  intros Hm HR b w Hb Hb0 Hw. destruct (HR b w Hb Hb0 Hw) as [?|Hid]; [by left|right]. apply Hm; [|exact Hid].
  pose proof (searched_range _ _ (ahci_base_range b (Hpos _)) Hw). lia.
Qed.

Lemma visits_ret : visits (mret tt) [].
Proof.
  intros n s Hc Hi _. exists s. split; [done|]. split; [done|done|..]; [|cbn; by rewrite union_None_r_opt..].
  intros w _ [Hp|?]; [by apply no_page in Hp|done].
Qed.

Lemma visits_seq f g l k : visits f l → visits g k → visits (f;; g) (l ++ k).
Proof.
  intros Hf Hg n s Hc Hi [Rf Rg]%reachable_app. rewrite ahcis_app, length_app, <-Nat.add_assoc in Hi.
  destruct (Hf _ s Hc Hi Rf) as (s1 & E1 & [C1 I1 W1 H1 S1]).
  destruct (Hg _ s1 C1 I1) as (s2 & E2 & [C2 I2 W2 H2 S2]); [eapply reachable_mono; [|exact Rg]; auto|].
  exists s2. split; [by rewrite (bind_ok _ _ s tt s1 E1)|]. split; [done|done|..].
  - intros w Hw [[Hp|Hp]%ahci_page_app|Hp]; apply W2; auto.
  - rewrite H2, H1. unfold first_ehci. by rewrite filter_app, head_app_union, union_assoc_opt.
  - rewrite S2, S1. unfold first_drive. by rewrite bind_app, head_app_union, union_assoc_opt.
Qed.

(** A read first. *)
Lemma visits_read {l} bus device func offset (g : Z → M (pci D) unit) :
  visits (g (reg c (bus, device, func) offset)) l → visits (v ← pci_read bus device func offset; g v) l.
Proof.
  intros Hg n s Hc Hi HR. destruct (creg_read (p_dev s) (pci_address bus device func offset)) as (d' & E & Hd).
  destruct (Hg n (set_p_dev d' s)) as (s' & E' & [C1 I1 W1 H1 S1]); [intros a; cbn; by rewrite Hd|done|done|].
  exists s'. split; [|by split]. unfold mbind, M_bind, pci_read. rewrite E. unfold reg in E'. cbn [fst snd] in E'. by rewrite <-Hc in E'.
Qed.

Lemma visits_loop n (body : Z → M (pci D) unit) (L : Z → list (Z * Z * Z)) : ∀ lo,
  (∀ i, lo ≤ i < lo + Z.of_nat n → visits (body i) (L i)) → visits (for_loop n lo body) (seqZ lo (Z.of_nat n) ≫= L).
Proof.
  induction n as [|n IH]; intros lo Hb; [apply visits_ret|]. rewrite Nat2Z.inj_succ, seqZ_cons by lia. cbn [for_loop].
  change ((lo :: seqZ (Z.succ lo) (Z.pred (Z.succ (Z.of_nat n)))) ≫= L) with (L lo ++ (seqZ (Z.succ lo) (Z.pred (Z.succ (Z.of_nat n))) ≫= L)).
  apply visits_seq; [apply Hb; lia|]. rewrite Z.pred_succ. apply IH. intros i Hi. apply Hb. lia.
Qed.

(** A register that is mapped to itself *)
Lemma mmio_read_ok w s : 0 < w < 2 ^ 48 → identity (p_vmm s) w → mmio_read mmio w s = Ok (mmio w, s).
Proof.
  intros Hw Hid. unfold identity in Hid. unfold mmio_read, in_p_vmm. rewrite (bind_ok _ _ s w s); [by rewrite (proj2 (Z.eqb_neq w 0)) by lia|].
  rewrite (zoom_ok _ _ _ _ _ _ Hid). by destruct s.
Qed.

(** One port *)
Lemma sata_port_ok base p s : 0 < base < 2 ^ 32 → 0 ≤ p < 32 → (∀ w, searched mmio base w → identity (p_vmm s) w) →
  ∃ s1, sata_port mmio base (mmio (base + 0x0C)) p s = Ok (tt, s1) ∧ p_dev s1 = p_dev s ∧ p_vmm s1 = p_vmm s ∧ ehci_of s1 = ehci_of s ∧
    sata_of s1 = sata_of s ∪ (if drive_at mmio base p then Some (base + 0x100 + p * 0x80) else None).
Proof.
  intros Hb Hp Hid. unfold sata_port, drive_at. cbv zeta. rewrite (u64_small (base + 0x100 + p * 0x80)) by lia.
  destruct (Z.eqb_spec (Z.land (mmio (base + 0x0C)) (Z.shiftl 1 p)) 0) as [Epi|Epi]; cbn [negb andb]; [exists s; by rewrite union_None_r_opt|].
  assert (H28 : searched mmio base (base + 0x100 + p * 0x80 + 0x28)) by (right; exists p; auto).
  assert (H24 : searched mmio base (base + 0x100 + p * 0x80 + 0x24)) by (right; exists p; auto).
  rewrite (u64_small (_ + 0x28)), (u64_small (_ + 0x24)) by lia. rewrite (bind_ok _ _ _ _ _ (mmio_read_ok (base + 0x100 + p * 0x80 + 0x28) s ltac:(lia) (Hid _ H28))).
  destruct (Z.land _ 0x0F =? 3); cbn [negb andb]; [|exists s; by rewrite union_None_r_opt].
  rewrite (bind_ok _ _ _ _ _ (mmio_read_ok (base + 0x100 + p * 0x80 + 0x24) s ltac:(lia) (Hid _ H24))).
  destruct (mmio _ =? 0x101); [|exists s; by rewrite union_None_r_opt].
  eexists. split; [reflexivity|]. unfold sata_of. destruct (Z.eqb_spec (g_sata_port s) 0) as [E|E].
  - cbn. splits; try done. by rewrite (proj2 (Z.eqb_neq (base + 256 + p * 128) 0)) by lia.
  - splits; try done. by rewrite (proj2 (Z.eqb_neq _ _) E).
Qed.

Lemma sata_loop_ok base n : 0 < base < 2 ^ 32 → ∀ lo s, 0 ≤ lo → lo + Z.of_nat n ≤ 32 → (∀ w, searched mmio base w → identity (p_vmm s) w) →
  ∃ s', for_loop n lo (sata_port mmio base (mmio (base + 0x0C))) s = Ok (tt, s') ∧
  p_dev s' = p_dev s ∧ p_vmm s' = p_vmm s ∧ ehci_of s' = ehci_of s ∧
  sata_of s' = sata_of s ∪ head ((λ p, base + 0x100 + p * 0x80) <$> filter (λ p, Is_true (drive_at mmio base p)) (seqZ lo (Z.of_nat n))).
Proof.
  intros Hb. induction n as [|n IH]; intros lo s Hlo Hn Hid.
  { exists s. splits; try done. symmetry. apply union_None_r_opt. }
  rewrite Nat2Z.inj_succ, seqZ_cons, Z.pred_succ by lia. cbn [for_loop].
  destruct (sata_port_ok base lo s Hb ltac:(lia) Hid) as (s1 & E1 & D1 & V1 & H1 & S1).
  destruct (IH (lo + 1) s1 ltac:(lia) ltac:(lia)) as (s2 & E2 & D2 & V2 & H2 & S2); [by rewrite V1|]. exists s2.
  split; [by rewrite (bind_ok _ _ s tt s1 E1)|]. splits; [congruence|congruence|congruence|]. rewrite S2, S1, union_assoc_opt. f_equal.
  rewrite filter_cons. destruct (drive_at mmio base lo); case_decide as Hd; try done; cbn; by destruct (head _).
Qed.

Lemma sata_search_ok base s : 0 ≤ base < 2 ^ 32 → (base ≠ 0 → ∀ w, searched mmio base w → identity (p_vmm s) w) →
  ∃ s', sata_search mmio base s = Ok (tt, s') ∧ p_dev s' = p_dev s ∧ p_vmm s' = p_vmm s ∧ ehci_of s' = ehci_of s ∧
    sata_of s' = sata_of s ∪ head (drives mmio base).
Proof.
  intros Hb Hid. unfold sata_search, drives. destruct (Z.eqb_spec base 0) as [E0|E0]; [exists s; splits; try done; symmetry; apply union_None_r_opt|].
  rewrite u64_small by lia. rewrite (bind_ok _ _ _ _ _ (mmio_read_ok (base + 0x0C) s ltac:(lia) (Hid E0 _ ltac:(by left)))).
  apply (sata_loop_ok base 32); [lia|lia|lia|auto].
Qed.

Lemma first_ehci_1 b : first_ehci [b] = if is_ehci c b then Some b else None.
Proof. unfold first_ehci. rewrite filter_cons, filter_nil. destruct (is_ehci c b); by case_decide. Qed.
Lemma first_drive_1 b : first_drive [b] = head (drives_of b).
Proof. unfold first_drive. cbn. by rewrite app_nil_r. Qed.

Lemma visits_other b : is_ehci c b = false → is_ahci c b = false → visits (mret tt) [b].
Proof.
  intros He Ha n s Hc Hi _. rewrite ahcis_1, Ha in Hi. exists s. split; [done|]. split; [done|done|..].
  - intros w _ [Hp|?]; [|done]. apply no_page in Hp; [done|]. by rewrite ahcis_1, Ha.
  - by rewrite first_ehci_1, He, union_None_r_opt.
  - rewrite first_drive_1. unfold drives_of. rewrite Ha. symmetry. apply union_None_r_opt.
Qed.

Lemma visits_ehci b : is_ehci c b = true → is_ahci c b = false →
  visits (modify (λ s, if ehci_found s then s else set_ehci b.1.1 b.1.2 b.2 s)) [b].
Proof.
  intros He Ha n s Hc Hi _. rewrite ahcis_1, Ha in Hi. eexists. split; [reflexivity|]. split; [by destruct (ehci_found s)|by destruct (ehci_found s)|..].
  - intros w _ [Hp|?]; [|by destruct (ehci_found s)]. apply no_page in Hp; [done|]. by rewrite ahcis_1, Ha.
  - rewrite first_ehci_1, He. unfold ehci_of. destruct b as [[? ?] ?]. destruct (ehci_found s) eqn:E; by rewrite ?E.
  - rewrite first_drive_1. unfold drives_of. rewrite Ha. cbn [head]. rewrite union_None_r_opt. by destruct (ehci_found s).
Qed.

Lemma visits_ahci b : is_ehci c b = false → is_ahci c b = true →
  visits (modify (set_pid_rn 7);;
    in_p_vmm (map_page (ahci_base c b) (ahci_base c b) (Z.lor (Z.lor PTE_WRITABLE PTE_CACHE_DISABLE) PTE_WRITE_THROUGH));;
    sata_search mmio (ahci_base c b)) [b].
Proof.
  intros He Ha n s Hc Hi HR. rewrite ahcis_1, Ha in Hi. pose proof (ahci_base_range b (Hpos _)) as Hb.
  destruct (map_identity n (ahci_base c b) (p_vmm s) Hi Hb) as (v & Ev & Iv & Wv).
  rewrite (bind_ok _ _ s tt (set_pid_rn 7 s)) by done. rewrite (bind_ok _ _ _ tt (set_p_vmm v (set_pid_rn 7 s))).
  2:{ unfold in_p_vmm, zoom. cbn. by rewrite Ev. }
  set (s1 := set_p_vmm v (set_pid_rn 7 s)).
  assert (Hw : ∀ w, 0 ≤ w < 2 ^ 48 → ahci_page [b] w ∨ identity (p_vmm s) w → identity v w).
  { intros w Hw [(b' & Hb' & E)|?]; [|by auto]. rewrite ahcis_1, Ha in Hb'. apply list_elem_of_singleton in Hb' as ->. auto. }
  assert (Hl : ehci_of s = ehci_of s ∪ first_ehci [b]).
  { by rewrite first_ehci_1, He, union_None_r_opt. }
  assert (Hd : first_drive [b] = head (drives mmio (ahci_base c b))). { rewrite first_drive_1. unfold drives_of. by rewrite Ha. }
  destruct (sata_search_ok (ahci_base c b) s1 Hb) as (s2 & E2 & D2 & V2 & H2 & S2).
  { intros E0 w Hsw. pose proof (searched_range _ _ Hb Hsw). apply Hw; [lia|]. assert (b ∈ ahcis [b]) as Hin by (rewrite ahcis_1, Ha; left).
    destruct (HR b w Hin E0 Hsw) as [Ew|Hid]; [left; by exists b|by right]. }
  exists s2. split; [done|]. split; [intros a; by rewrite D2|by rewrite V2|by rewrite V2|by rewrite H2|]. by rewrite S2, Hd.
Qed.

Lemma absent_eqb b : (Z.land (reg c b 0) 0xFFFF =? 0xFFFF) = negb (present c b).
Proof. unfold present. by rewrite negb_involutive. Qed.

(** A function and, for a bridge, what is behind it. *)
Lemma visits_function scan_bus b k : (present c b = true → is_bridge c b = true → visits (scan_bus (secondary c b)) k) →
  visits (scan_function mmio scan_bus b.1.1 b.1.2 b.2) (if present c b then b :: (if is_bridge c b then k else []) else []).
Proof.
  intros Hk. destruct b as [[bus dev] f]. cbn [fst snd] in *. unfold scan_function. apply visits_read. cbv beta.
  set (b := (bus, dev, f)) in *. rewrite (absent_eqb b). destruct (present c b) eqn:Hp; cbn [negb]; [|apply visits_ret].
  specialize (Hk eq_refl).
  apply visits_read. cbv beta. fold b. unfold is_bridge in *. set (x := reg c b 8) in *.
  destruct (Z.eqb_spec (class_code x) 0x01) as [E1|E1].
  { assert (He : is_ehci c b = false) by (unfold is_ehci; fold x; by rewrite E1). rewrite E1. cbn [Z.eqb andb].
    destruct ((subclass x =? 0x06) && (prog_if x =? 0x01)) eqn:E2.
    - cbn [Pos.eqb andb]. apply visits_read. cbv beta zeta. fold b. change (Z.land (reg c b 36) 4294967280) with (ahci_base c b).
      apply visits_ahci; [done|]. unfold is_ahci. fold x. by rewrite E1, E2.
    - apply visits_other; [done|]. unfold is_ahci. fold x. by rewrite E1, E2. }
  assert (Ha : is_ahci c b = false). { unfold is_ahci. fold x. by rewrite (proj2 (Z.eqb_neq _ _) E1). }
  destruct ((class_code x =? 0x0C) && (subclass x =? 0x03)) eqn:E2.
  { assert (class_code x =? 6 = false) as ->. { apply andb_true_iff in E2 as [E2 _]. apply Z.eqb_eq in E2. by rewrite E2. }
    cbn [andb]. destruct (prog_if x =? 0x20) eqn:E3.
    - apply (visits_ehci b); [|done]. unfold is_ehci. fold x. by rewrite E2, E3.
    - apply visits_other; [|done]. unfold is_ehci. fold x. by rewrite E2, E3. }
  assert (He : is_ehci c b = false) by (unfold is_ehci; fold x; by rewrite E2).
  destruct ((class_code x =? 6) && (subclass x =? 4)) eqn:E3; [|by apply visits_other].
  apply visits_read. cbv beta. fold b. change (Z.land (Z.shiftr (reg c b 24) 8) 255) with (secondary c b).
  change (b :: k) with ([b] ++ k). intros n s Hc Hi HR. destruct (visits_seq (mret tt) _ [b] k (visits_other b He Ha) (Hk eq_refl) n s Hc Hi HR) as (s' & E & Hv).
  exists s'. split; [exact E|exact Hv].
Qed.

Lemma secondary_range b : 0 ≤ secondary c b < 256.
Proof. unfold secondary. change 0xFF with (Z.ones 8). rewrite Z.land_ones by lia. apply Z.mod_pos_bound. lia. Qed.

(** A bus of a numbered hierarchy. *)
Lemma visits_bus (Hnum : numbered c) n : ∀ bus, 0 ≤ bus < 256 → 256 - bus ≤ Z.of_nat n → visits (scan_pci_bus mmio n bus) (enum c n bus).
Proof.
  induction n as [|n IH]; intros bus Hbus Hn; [lia|]. cbn [scan_pci_bus enum]. apply (visits_loop 32). intros dev Hdev. unfold scan_pci_device.
  apply visits_read. cbv beta. rewrite absent_eqb. destruct (present c (bus, dev, 0)) eqn:Hp; cbn [negb]; [|apply visits_ret].
  apply visits_read. cbv beta zeta. change (negb (Z.land (Z.land (Z.shiftr (reg c (bus, dev, 0) 12) 16) 255) 128 =? 0)) with (multifunction c (bus, dev, 0)).
  assert (Hf : ∀ f, 0 ≤ f < 8 → visits (scan_function mmio (scan_pci_bus mmio n) bus dev f)
    (if present c (bus, dev, f) then (bus, dev, f) :: (if is_bridge c (bus, dev, f) then enum c n (secondary c (bus, dev, f)) else []) else [])).
  { intros f Hf. apply (visits_function _ (bus, dev, f)). intros Hp' Hb. pose proof (Hnum (bus, dev, f) ltac:(repeat split; cbn; lia) Hp' Hb) as Hlt.
    cbn in Hlt. apply IH; [|lia]. pose proof (secondary_range (bus, dev, f)). lia. }
  destruct (multifunction c (bus, dev, 0)); [apply (visits_loop 8)|apply (visits_loop 1)]; intros f Hfr; apply Hf; lia.
Qed.
End scan.

(** ** Reading, in general *)

Section laws.
Context {D : Type} `{PciBus D} (mmio : Z → Z).
Implicit Types (s : pci D).

Lemma pci_read_ok s bus device func offset : ∃ d', (∀ a, creg d' a = creg (p_dev s) a) ∧
  pci_read bus device func offset s = Ok (reg (creg (p_dev s)) (bus, device, func) offset, set_p_dev d' s).
Proof.
  destruct (creg_read (p_dev s) (pci_address bus device func offset)) as (d' & E & Hd). exists d'. split; [done|].
  unfold pci_read. by rewrite E.
Qed.

(** Different registers have different addresses. *)
Lemma pci_address_inj b d f o b' d' f' o' : bdf_ok b d f → reg_ok o → bdf_ok b' d' f' → reg_ok o' →
  pci_address b d f o = pci_address b' d' f' o' → b = b' ∧ d = d' ∧ f = f' ∧ o = o'.
Proof.
  intros H1 H2 H3 H4. rewrite !pci_address_eq by done. unfold bdf_ok, reg_ok in *. lia.
Qed.

(** The base address register [a] of a region of [size] bytes: the address bits
    below the size and the type bits are fixed. *)
Definition bar (a size flags : Z) : Prop := ∀ d v, 0 ≤ v < 2 ^ 32 →
  let d' := outl PCI_CONFIG_DATA v (outl PCI_CONFIG_ADDRESS a d) in
  creg d' a = Z.lor (Z.land v (Z.lnot (size - 1))) flags ∧ ∀ b, b ≠ a → creg d' b = creg d b.

Lemma bar_again v k flags : Z.lor (Z.land (Z.lor (Z.land v k) flags) k) flags = Z.lor (Z.land v k) flags.
Proof. apply Z.bits_inj'. intros i Hi. rewrite !Z.lor_spec, !Z.land_spec, !Z.lor_spec, !Z.land_spec. by destruct (Z.testbit v i), (Z.testbit k i), (Z.testbit flags i). Qed.

(** The mask read back, without the type bits. *)
Lemma bar_mask k flags : 4 ≤ k < 32 → 0 ≤ flags < 16 →
  Z.land (Z.lor (Z.land 0xFFFFFFFF (Z.lnot (2 ^ k - 1))) flags) (u32 (Z.lnot 0xF)) = 2 ^ 32 - 2 ^ k.
Proof.
  intros Hk Hf. replace (2 ^ 32 - 2 ^ k) with (Z.ones (32 - k) * 2 ^ k).
  2:{ rewrite Z.ones_equiv. replace (2 ^ 32) with (2 ^ (32 - k) * 2 ^ k) by (rewrite <-Z.pow_add_r by lia; f_equal; lia). lia. }
  change (u32 (Z.lnot 0xF)) with (Z.ldiff (Z.ones 32) (Z.ones 4)). change 0xFFFFFFFF with (Z.ones 32).
  replace (2 ^ k - 1) with (Z.ones k) by (rewrite Z.ones_equiv; lia). apply Z.bits_inj'. intros i Hi.
  rewrite Z.land_spec, Z.lor_spec, Z.land_spec, Z.ldiff_spec, Z.lnot_spec, !Z.testbit_ones_nonneg by lia.
  rewrite <-Z.shiftl_mul_pow2, Z.shiftl_spec by lia.
  destruct (Z.ltb_spec i 4).
  { rewrite andb_false_r, andb_false_r. symmetry. apply Z.testbit_neg_r. lia. }
  rewrite (testbit_high flags 4) by lia. rewrite orb_false_r. destruct (Z.ltb_spec i k).
  { rewrite andb_false_r. symmetry. apply Z.testbit_neg_r. lia. }
  rewrite Z.testbit_ones_nonneg by lia. cbn [negb]. rewrite !andb_true_r, andb_diag. destruct (Z.ltb_spec i 32), (Z.ltb_spec (i - k) (32 - k)); done || lia.
Qed.

(** Probing a base address register returns the size of its region, for every power of two from 16 bytes to 2 GiB, and
    leaves every register of every function as it was. *)
Theorem pci_get_bar_size_correct s bus device func offset k flags v :
  let a := pci_address bus device func offset in
  bar a (2 ^ k) flags → 4 ≤ k < 32 → 0 ≤ flags < 16 → 0 ≤ v < 2 ^ 32 → creg (p_dev s) a = Z.lor (Z.land v (Z.lnot (2 ^ k - 1))) flags →
  ∃ s', pci_get_bar_size bus device func offset s = Ok (2 ^ k, s') ∧ ∀ b, creg (p_dev s') b = creg (p_dev s) b.
Proof.
  intros a Hbar Hk Hf Hv Ha. unfold pci_get_bar_size.
  destruct (pci_read_ok s bus device func offset) as (d1 & C1 & E1). rewrite (bind_ok _ _ _ _ _ E1).
  unfold reg. cbn [fst snd]. fold a. rewrite Ha. set (R := Z.lor (Z.land v (Z.lnot (2 ^ k - 1))) flags) in *.
  set (s1 := set_p_dev d1 s). rewrite (bind_ok _ _ s1 tt (set_p_dev (outl PCI_CONFIG_DATA 0xFFFFFFFF (outl PCI_CONFIG_ADDRESS a d1)) s1)) by done.
  destruct (Hbar d1 0xFFFFFFFF ltac:(lia)) as [W1 O1]. set (s2 := set_p_dev _ s1).
  destruct (pci_read_ok s2 bus device func offset) as (d3 & C3 & E3). rewrite (bind_ok _ _ _ _ _ E3). unfold reg. cbn [fst snd]. fold a.
  change (p_dev s2) with (outl PCI_CONFIG_DATA 0xFFFFFFFF (outl PCI_CONFIG_ADDRESS a d1)). rewrite W1.
  set (s3 := set_p_dev d3 s2). rewrite (bind_ok _ _ s3 tt (set_p_dev (outl PCI_CONFIG_DATA R (outl PCI_CONFIG_ADDRESS a d3)) s3)) by done.
  assert (HR : 0 ≤ R < 2 ^ 32).
  { change (fits 32 R). apply lor_fits; [lia|by apply land_fits; [lia|]|unfold fits; lia]. }
  destruct (Hbar d3 R HR) as [W2 O2]. eexists. split.
  - rewrite bar_mask by done. unfold mret, M_ret. f_equal. f_equal.
    assert (2 ^ 4 ≤ 2 ^ k) by (apply Z.pow_le_mono_r; lia). assert (2 ^ k < 2 ^ 32) by (apply Z.pow_lt_mono_r; lia).
    assert (u32 (Z.lnot (2 ^ 32 - 2 ^ k)) = 2 ^ k - 1) as ->.
    { unfold u32, Z.lnot. rewrite <-(Z_mod_plus_full _ 1). rewrite Z.mod_small by lia. lia. }
    rewrite Z.sub_add. apply u32_small. lia.
  - intros b. cbn [p_dev set_p_dev]. destruct (decide (b = a)) as [->|Hb].
    + rewrite W2, Ha. apply bar_again.
    + rewrite O2 by done. rewrite C3. change (p_dev s2) with (outl PCI_CONFIG_DATA 0xFFFFFFFF (outl PCI_CONFIG_ADDRESS a d1)).
      by rewrite O1, C1.
Qed.

(** C35: On a hierarchy whose bridges lead to higher bus numbers, the scan from a bus ends after at most 256 nested calls,
    when there are enough free pages for the page tables of one mapping per AHCI controller, and when the registers that
    the search for drives reads are within its reach: on the page of the controller's base address, the only one the scan
    maps, or mapped to themselves before (the registers of ports 30 and 31 are not on the first page of a controller, see
    [scan_beyond_page_faults]).  The scan leaves the configuration registers and the mappings to themselves as they are
    and the page tables well formed, that page of every AHCI controller found is mapped to itself, and the EHCI controller
    and the disk port it remembers are the first ones in the depth-first order of the functions, unless there were some
    before. *)
Theorem scan_pci_bus_correct inv `{!PageAllocator inv} c s bus fuel n :
  let found := enum c fuel bus in
  (∀ a, creg (p_dev s) a = c a) → (∀ a, 0 ≤ c a) → numbered c → 0 ≤ bus < 256 → 256 - bus ≤ Z.of_nat fuel →
  vmm_room (inv := inv) (length (ahcis c found) + n) (p_vmm s) → reachable mmio c found (p_vmm s) →
  ∃ s', scan_pci_bus mmio fuel bus s = Ok (tt, s') ∧ (∀ a, creg (p_dev s') a = c a) ∧ vmm_room (inv := inv) n (p_vmm s') ∧
    (∀ w, 0 ≤ w < 2 ^ 48 → ahci_page c found w ∨ identity (p_vmm s) w → identity (p_vmm s') w) ∧
    ehci_of s' = ehci_of s ∪ first_ehci c found ∧ sata_of s' = sata_of s ∪ first_drive mmio c found.
Proof.
  intros found Hc Hpos Hnum Hbus Hf Hi HR.
  destruct (visits_bus (inv := inv) mmio c Hpos Hnum fuel bus Hbus Hf n s Hc Hi HR) as (s' & E & [C1 I1 W1 H1 S1]). by exists s'.
Qed.

(** A read, with the registers given. *)
Lemma read_step c s bus device func offset : (∀ a, creg (p_dev s) a = c a) →
  ∃ s', (∀ a, creg (p_dev s') a = c a) ∧
    ∀ A (g : Z → M (pci D) A), (v ← pci_read bus device func offset; g v) s = g (reg c (bus, device, func) offset) s'.
Proof.
  intros Hc. destruct (pci_read_ok s bus device func offset) as (d & C & E). exists (set_p_dev d s).
  split; [intros a; cbn; by rewrite C|]. intros A g. rewrite (bind_ok _ _ _ _ _ E). unfold reg. by rewrite Hc.
Qed.

Lemma bind_spin {X A B} (m : M X A) (f : A → M X B) (x : X) : m x = Spin → (m ≫= f) x = Spin.
Proof. intros E. unfold mbind, M_bind. by rewrite E. Qed.

Lemma for_loop_spin {X} n lo (f : Z → M X unit) (x : X) : (0 < n)%nat → f lo x = Spin → for_loop n lo f x = Spin.
Proof. intros Hn E. destruct n; [lia|]. by apply bind_spin. Qed.

(** The bridge is followed. *)
Lemma scan_function_bridge c scan_bus b s : (∀ a, creg (p_dev s) a = c a) → present c b = true → is_bridge c b = true →
  ∃ s', (∀ a, creg (p_dev s') a = c a) ∧ scan_function mmio scan_bus b.1.1 b.1.2 b.2 s = scan_bus (secondary c b) s'.
Proof.
  destruct b as [[bus dev] f]. intros Hc Hp Hb. cbn [fst snd]. unfold scan_function.
  destruct (read_step c s bus dev f 0 ltac:(done)) as (s1 & C1 & EC1). rewrite EC1. rewrite absent_eqb, Hp. cbn [negb].
  destruct (read_step c s1 bus dev f 8 ltac:(done)) as (s2 & C2 & EC2). rewrite EC2. unfold is_bridge in Hb. rewrite Hb.
  apply andb_true_iff in Hb as [Hb _]. apply Z.eqb_eq in Hb. rewrite Hb. cbn [Z.eqb Pos.eqb andb].
  destruct (read_step c s2 bus dev f 0x18 ltac:(done)) as (s3 & C3 & EC3). rewrite EC3. by exists s3.
Qed.

(** A bridge that leads to its own bus (as one does that no firmware has numbered, on bus 0) makes the scan recurse
    without end: no amount of nested calls is enough. *)
Theorem scan_unnumbered_bridge_spins c bus fuel s :
  (∀ a, creg (p_dev s) a = c a) → present c (bus, 0, 0) = true → is_bridge c (bus, 0, 0) = true → secondary c (bus, 0, 0) = bus →
  scan_pci_bus mmio fuel bus s = Spin.
Proof.
  intros Hc Hp Hb Hs. revert s Hc. induction fuel as [|fuel IH]; intros s Hc; [done|]. cbn [scan_pci_bus].
  apply for_loop_spin; [lia|]. unfold scan_pci_device.
  destruct (read_step c s bus 0 0 0 ltac:(done)) as (s1 & C1 & EC1). rewrite EC1. rewrite absent_eqb, Hp. cbn [negb].
  destruct (read_step c s1 bus 0 0 0x0C ltac:(done)) as (s2 & C2 & EC2). rewrite EC2. cbv zeta.
  apply for_loop_spin; [destruct (negb _); lia|].
  destruct (scan_function_bridge c (scan_pci_bus mmio fuel) (bus, 0, 0) s2 C2 Hp Hb) as (s3 & C3 & E). cbn [fst snd] in E.
  rewrite E, Hs. by apply IH.
Qed.
End laws.

(** ** A machine

    A host bridge, a bridge to bus 1, a USB controller with 4 KiB of registers,
    and on bus 1 a disk controller with a drive on its port 2.  Registers that
    are not listed read as ones; only the base address registers can be written. *)
Record board := mkBoard { latch : Z; regs : gmap Z Z }.

Definition board_bars : gmap Z (Z * Z) :=
  {[ pci_address 0 2 0 0x10 := (0x1000, 0); pci_address 1 0 0 0x24 := (0x2000, 0) ]}.
Definition board_regs : gmap Z Z := list_to_map [
  (pci_address 0 0 0 0x00, 0x29C08086); (pci_address 0 0 0 0x08, 0x06000002); (pci_address 0 0 0 0x0C, 0);
  (pci_address 0 1 0 0x00, 0x34208086); (pci_address 0 1 0 0x08, 0x06040002); (pci_address 0 1 0 0x0C, 0x00010000);
  (pci_address 0 1 0 0x18, 0x00010100);
  (pci_address 0 2 0 0x00, 0x293A8086); (pci_address 0 2 0 0x08, 0x0C032003); (pci_address 0 2 0 0x0C, 0);
  (pci_address 0 2 0 0x10, 0xFEBF0000);
  (pci_address 1 0 0 0x00, 0x29228086); (pci_address 1 0 0 0x08, 0x01060102); (pci_address 1 0 0 0x0C, 0);
  (pci_address 1 0 0 0x24, 0xFEB00000) ].
Definition board_reg (r : gmap Z Z) (a : Z) : Z := default 0xFFFFFFFF (r !! a).

Definition board_write (v : Z) (d : board) : board :=
  match board_bars !! latch d with
  | Some (size, flags) => mkBoard (latch d) (<[latch d := Z.lor (Z.land v (Z.lnot (size - 1))) flags]> (regs d))
  | None => d
  end.

#[export] Instance board_ports : ConfigPorts board := {|
  outl port v d := if port =? PCI_CONFIG_ADDRESS then mkBoard v (regs d) else if port =? PCI_CONFIG_DATA then board_write v d else d;
  inl port d := (if port =? PCI_CONFIG_DATA then board_reg (regs d) (latch d) else 0xFFFFFFFF, d);
|}.

#[export] Instance board_bus : PciBus board.
Proof. refine {| creg d := board_reg (regs d) |}. intros d a. by exists (mkBoard a (regs d)). Defined.

Definition board_mmio (a : Z) : Z :=
  if a =? 0xFEB0000C then 4 else if a =? 0xFEB00228 then 0x113 else if a =? 0xFEB00224 then 0x101 else 0.
Definition board_state : pci board := mkPci (mkBoard 0 board_regs) sample_vm 0 0 0 0 0 false 0.

Lemma board_bar a size flags : board_bars !! a = Some (size, flags) → bar (D := board) a size flags.
Proof.
  intros E d v _. cbn [outl board_ports]. cbn. unfold board_write. cbn [latch regs]. rewrite E. cbn. unfold board_reg.
  split; [by rewrite lookup_insert_eq|]. intros b Hb. by rewrite lookup_insert_ne.
Qed.

Lemma board_pos r : map_Forall (λ _ x, 0 ≤ x) r → ∀ a, 0 ≤ board_reg r a.
Proof. intros Hr a. unfold board_reg. destruct (r !! a) eqn:E; cbn; [by eapply Hr|lia]. Qed.

(** The functions whose class register is there, as it is for every bridge. *)
Lemma board_numbered r :
  forallb (λ bus, forallb (λ dev, forallb (λ f, let b := (bus, dev, f) in
    negb (present (board_reg r) b && is_bridge (board_reg r) b) || (bus <? secondary (board_reg r) b)) (seqZ 0 8)) (seqZ 0 32)) (seqZ 0 256) = true →
  numbered (board_reg r).
Proof.
  intros H [[bus dev] f] (Hb & Hd & Hf) Hp Hbr. cbn [fst snd] in *. rewrite forallb_forall in H.
  specialize (H bus ltac:(apply list_elem_of_In, elem_of_seqZ; lia)). rewrite forallb_forall in H.
  specialize (H dev ltac:(apply list_elem_of_In, elem_of_seqZ; lia)). rewrite forallb_forall in H.
  specialize (H f ltac:(apply list_elem_of_In, elem_of_seqZ; lia)). cbv zeta in H. rewrite Hp, Hbr in H. by apply Z.ltb_lt in H.
Qed.

Lemma board_room n : (n ≤ 20)%nat → vmm_room (inv := buddy_inv) n sample_vm.
Proof.
  intros Hn. destruct sample_vm_free as (F & HV & HF). exists F, (root_tree 64). split; [exact HV|]. apply spare_run. intros q Hq. apply HF. lia.
Qed.

Lemma pci_get_bar_size_correct_witness :
  ∃ s', pci_get_bar_size 0 2 0 0x10 board_state = Ok (2 ^ 12, s') ∧ ∀ b, creg (p_dev s') b = creg (p_dev board_state) b.
Proof.
  apply (pci_get_bar_size_correct board_state 0 2 0 0x10 12 0 0xFEBF0000);
    [apply board_bar; reflexivity|lia|lia|lia|reflexivity].
Defined.

(** The drive is on port 2 and there is no other port. *)
Lemma board_searched w : searched board_mmio 0xFEB00000 w → w = 0xFEB0000C ∨ w = 0xFEB00228 ∨ w = 0xFEB00224.
Proof.
  intros [->|(p & Hp & Hb & Hw)]; [by left|right]. assert (p = 2) as ->.
  { change (board_mmio (0xFEB00000 + 0x0C)) with 4 in Hb. assert (H : forallb (λ p, (Z.land 4 (Z.shiftl 1 p) =? 0) || (p =? 2)) (seqZ 0 32) = true) by (by vm_compute).
    rewrite forallb_forall in H. specialize (H p ltac:(apply list_elem_of_In, elem_of_seqZ; lia)). apply orb_true_iff in H as [H|H]; apply Z.eqb_eq in H; done. }
  destruct Hw as [->| ->]; [left|right]; done.
Qed.

Lemma scan_pci_bus_correct_witness :
  let c := board_reg board_regs in let found := [(0, 0, 0); (0, 1, 0); (1, 0, 0); (0, 2, 0)] in
  enum c 256 0 = found ∧
  ∃ s', scan_pci_bus board_mmio 256 0 board_state = Ok (tt, s') ∧ (∀ a, creg (p_dev s') a = c a) ∧ vmm_room (inv := buddy_inv) 0 (p_vmm s') ∧
    (∀ w, 0 ≤ w < 2 ^ 48 → ahci_page c found w ∨ identity sample_vm w → identity (p_vmm s') w) ∧
    ehci_of s' = Some (0, 2, 0) ∧ sata_of s' = Some 0xFEB00200.
Proof.
  intros c found. assert (enum c 256 0 = found) as E by (vm_compute; reflexivity). split; [exact E|].
  assert (Ef : ahcis c found = [(1, 0, 0)]) by (vm_compute; reflexivity).
  pose proof (scan_pci_bus_correct board_mmio buddy_inv c board_state 0 256 0) as W. cbv zeta in W. rewrite E in W. apply W.
  - intros a. reflexivity.
  - apply board_pos. apply (bool_decide_unpack _). vm_compute. exact I.
  - apply board_numbered. vm_compute. reflexivity.
  - lia.
  - lia.
  - apply board_room. vm_compute. lia.
  - intros b w Hb _ Hw. left. rewrite Ef in Hb. apply list_elem_of_singleton in Hb as ->.
    assert (Eb : ahci_base c (1, 0, 0) = 0xFEB00000) by (vm_compute; reflexivity). rewrite Eb in Hw |- *.
    apply board_searched in Hw as [->|[->| ->]]; by vm_compute.
Defined.

(** A controller with a port 31: its registers are on the second page, which nothing has mapped. *)
Definition wide_mmio (a : Z) : Z := if a =? 0xFEB0000C then 2 ^ 31 else board_mmio a.
Lemma scan_beyond_page_faults : scan_pci_bus wide_mmio 2 0 board_state = Fault.
Proof. vm_compute. reflexivity. Qed.

(** The same machine before the firmware has numbered its bridge, and with the
    bridge in the place of the host bridge. *)
Definition raw_regs : gmap Z Z := list_to_map [
  (pci_address 0 0 0 0x00, 0x34208086); (pci_address 0 0 0 0x08, 0x06040002); (pci_address 0 0 0 0x0C, 0x00010000);
  (pci_address 0 0 0 0x18, 0) ].

Lemma scan_unnumbered_bridge_spins_witness :
  scan_pci_bus board_mmio 1000 0 (mkPci (mkBoard 0 raw_regs) sample_vm 0 0 0 0 0 false 0) = Spin.
Proof. apply (scan_unnumbered_bridge_spins board_mmio (board_reg raw_regs)); reflexivity. Defined.
