(* ===== verification/Hoare.v ===== *)
(** * Total-correctness triples

    [{{ P }} f {{ Q }}]: from every state that satisfies [P] the code [f]
    returns normally, with a result and a state that satisfy [Q].  The rules
    follow the structure of monadic code; the drivers are verified with them. *)
From Stdlib Require Import ZArith Lia.
From stdpp Require Import base option gmap list.
From S2P Require Import Prelude.

Definition hoare {S X} (P : S → Prop) (f : M S X) (Q : X → S → Prop) : Prop :=
  ∀ s, P s → ∃ x s', f s = Ok (x, s') ∧ Q x s'.
Notation "{{ P }} f {{ Q }}" := (hoare P f Q) (at level 90, f at next level, format "{{  P  }}  f  {{  Q  }}").

Section rules.
Context {S : Type}.
Implicit Types (P : S → Prop).

Lemma hoare_ret {X} (x : X) P Q : (∀ s, P s → Q x s) → {{ P }} (mret x : M S X) {{ Q }}.
Proof. intros H s Hs. exists x, s. auto. Qed.

Lemma hoare_bind {X Y} P (R : X → S → Prop) Q (f : M S X) (g : X → M S Y) :
  {{ P }} f {{ R }} → (∀ x, {{ R x }} g x {{ Q }}) → {{ P }} (f ≫= g) {{ Q }}.
Proof.
  intros Hf Hg s Hs. destruct (Hf s Hs) as (x & s1 & E & H1). destruct (Hg x s1 H1) as (y & s2 & E2 & H2).
  exists y, s2. split; [|done]. by rewrite (bind_ok _ _ _ _ _ E).
Qed.

Lemma hoare_skip {X} P (Q : X → S → Prop) (f : M S X) : {{ P }} f {{ Q }} → {{ P }} ((mret tt : M S unit) ≫= λ _, f) {{ Q }}.
Proof. intros Hf s Hs. exact (Hf s Hs). Qed.

Lemma hoare_conseq {X} P P' (Q Q' : X → S → Prop) (f : M S X) :
  {{ P' }} f {{ Q' }} → (∀ s, P s → P' s) → (∀ x s, Q' x s → Q x s) → {{ P }} f {{ Q }}.
Proof. intros Hf HP HQ s Hs. destruct (Hf s (HP s Hs)) as (x & s' & E & H). eauto. Qed.

Lemma hoare_gets {X} P (Q : X → S → Prop) (g : S → X) : (∀ s, P s → Q (g s) s) → {{ P }} gets g {{ Q }}.
Proof. intros H s Hs. exists (g s), s. auto. Qed.
Lemma hoare_modify P (Q : unit → S → Prop) (g : S → S) : (∀ s, P s → Q tt (g s)) → {{ P }} modify g {{ Q }}.
Proof. intros H s Hs. exists tt, (g s). auto. Qed.

(** A pure fact of the precondition. *)
Lemma hoare_pure {X} (φ : Prop) P (Q : X → S → Prop) (f : M S X) :
  (φ → {{ P }} f {{ Q }}) → {{ λ s, φ ∧ P s }} f {{ Q }}.
Proof. intros H s [Hφ Hs]. by apply H. Qed.
Lemma hoare_ex {X Y} (P : Y → S → Prop) (Q : X → S → Prop) (f : M S X) :
  (∀ y, {{ P y }} f {{ Q }}) → {{ λ s, ∃ y, P y s }} f {{ Q }}.
Proof. intros H s [y Hs]. by apply (H y). Qed.
(** A known state. *)
Lemma hoare_state {X} P (Q : X → S → Prop) (f : M S X) : (∀ s, P s → {{ λ s', s' = s }} f {{ Q }}) → {{ P }} f {{ Q }}.
Proof. intros H s Hs. by apply (H s Hs). Qed.

Lemma hoare_at {X} P (f : M S X) Q s : P s → {{ P }} f {{ Q }} → ∃ x s', f s = Ok (x, s') ∧ Q x s'.
Proof. intros Hs Hf. exact (Hf s Hs). Qed.
Lemma hoare_result {X} P (f : M S X) r (R : S → Prop) s : {{ P }} f {{ λ x s', x = r ∧ R s' }} → P s → ∃ s', f s = Ok (r, s') ∧ R s'.
Proof. intros Hf Hs. destruct (Hf s Hs) as (x & s' & E & -> & HR). eauto. Qed.

Lemma hoare_for_loop (I : Z → S → Prop) (body : Z → M S unit) n lo :
  (∀ i, lo ≤ i < lo + Z.of_nat n → {{ I i }} body i {{ λ _, I (i + 1) }}) →
  {{ I lo }} for_loop n lo body {{ λ _, I (lo + Z.of_nat n) }}.
Proof.
  intros Hb s Hs. destruct (for_loop_inv I body n lo s Hs) as (s' & E & H); [|eauto].
  intros i s1 Hi H1. destruct (Hb i Hi s1 H1) as ([] & s2 & E2 & H2). eauto.
Qed.
End rules.
