(* ===== verification/Io.v ===== *)
(** * Ports

    The port instructions of src/kernel/main/cpu/io.c and io.h as an interface:
    a device [D] answers byte and word accesses.  The drivers are modelled for
    every device; their theorems name what they ask of it.  Also here: the
    string instructions, loops that stop at the first failure, and the
    processor's interrupt flag, halt and identification. *)
From Stdlib Require Import ZArith Lia.
From stdpp Require Import base option gmap list.
From S2P Require Import Prelude Memory Hoare.

Class Ports (D : Type) := {
  port_outb : Z → Z → D → D;
  port_inb : Z → D → Z * D;
  port_outw : Z → Z → D → D;
  port_inw : Z → D → Z * D;
}.

(** A device with registers in memory, which may also access the memory. *)
Class Mmio (D : Type) := {
  mmio_write : Z → Z → D * memory → D * memory;
  mmio_read : Z → D * memory → Z * (D * memory);
}.

(** A state [S] that holds a device. *)
Class HasDev (S D : Type) := { the_dev : S → D; set_dev : D → S → S }.

Section ports.
Context {S D : Type} `{Ports D, HasDev S D}.

Definition outb (port v : Z) : M S unit := modify (λ s, set_dev (port_outb (u16 port) (u8 v) (the_dev s)) s).
Definition inb (port : Z) : M S Z := λ s,
  let '(v, d) := port_inb (u16 port) (the_dev s) in Ok (u8 v, set_dev d s).
Definition outw (port v : Z) : M S unit := modify (λ s, set_dev (port_outw (u16 port) (u16 v) (the_dev s)) s).
Definition inw (port : Z) : M S Z := λ s,
  let '(v, d) := port_inw (u16 port) (the_dev s) in Ok (u16 v, set_dev d s).
(** [rep outsw] of the words [ws] *)
Fixpoint outsw (port : Z) (ws : list Z) : M S unit :=
  match ws with
  | [] => mret tt
  | w :: ws => outw port w;; outsw port ws
  end.

(** [rep insw] of [n] words *)
Fixpoint insw (port : Z) (n : nat) : M S (list Z) :=
  match n with
  | O => mret []
  | Datatypes.S n => w ← inw port; ws ← insw port n; mret (w :: ws)
  end.

Definition UNUSED_PORT : Z := 0x80.
Definition iowait : M S unit := outb UNUSED_PORT 0.

(** [for (i = lo; ...; i++) { if (... != 0) return r; }]: the first non-zero
    result ends the loop and is returned. *)
Fixpoint for_status (n : nat) (i : Z) (body : Z → M S Z) : M S Z :=
  match n with
  | O => mret 0
  | Datatypes.S n => r ← body i; if r =? 0 then for_status n (i + 1) body else mret r
  end.
End ports.

(** Ports of 32 bits *)
Class Ports32 (D : Type) := { port_outl : Z → Z → D → D; port_inl : Z → D → Z * D }.

Section ports32.
Context {S D : Type} `{Ports32 D, HasDev S D}.
Definition io_outl (port value : Z) : M S unit := modify (λ s, set_dev (port_outl (u16 port) (u32 value) (the_dev s)) s).
Definition io_inl (port : Z) : M S Z := λ s,
  let '(v, d) := port_inl (u16 port) (the_dev s) in Ok (u32 v, set_dev d s).
End ports32.

(** ** The processor

    The flags register, control register 3 and the answers of [cpuid] (eax,
    ebx, ecx, edx).  The messages on the console are left out. *)
Class Core (D : Type) := {
  core_flags : D → Z; set_core_flags : Z → D → D;
  core_cr3 : D → Z; set_core_cr3 : Z → D → D;
  core_cpuid : Z → Z → D → Z * Z * Z * Z }.

Section core.
Context {S D : Type} `{Core D, HasDev S D}.

Definition on_core (f : D → D) : M S unit := modify (λ s, set_dev (f (the_dev s)) s).
Definition sti : M S unit := on_core (λ d, set_core_flags (Z.setbit (core_flags d) 9) d).
Definition cli : M S unit := on_core (λ d, set_core_flags (Z.clearbit (core_flags d) 9) d).
Definition are_interrupts_enabled : M S bool := gets (λ s, negb (Z.land (core_flags (the_dev s)) (Z.shiftl 1 9) =? 0)).

(** The loop of [hlt] is not left: with interrupts masked, and with them on. *)
Definition halt_masked : M S unit := cli;; halt.
Definition halt_interrupts_enabled : M S unit := halt.
Definition hcf : M S unit := halt.

Definition enable_interrupts : M S unit :=
  sti;;
  on ← are_interrupts_enabled;
  if (on : bool) then mret tt else halt_masked.
Definition disable_interrupts : M S unit :=
  cli;;
  on ← are_interrupts_enabled;
  if negb on then mret tt else halt_masked.

Definition read_cr3 : M S Z := gets (λ s, core_cr3 (the_dev s)).
Definition write_cr3 (v : Z) : M S unit := on_core (set_core_cr3 (u64 v)).
Definition cpuid (leaf subleaf : Z) : M S (Z * Z * Z * Z) := gets (λ s,
  let '(eax, ebx, ecx, edx) := core_cpuid (u32 leaf) (u32 subleaf) (the_dev s) in (u32 eax, u32 ebx, u32 ecx, u32 edx)).

(** When the flags register holds what was written, neither function halts. *)
Context (Hdev : ∀ d (s : S), the_dev (set_dev d s) = d) (Hflags : ∀ f (d : D), core_flags (set_core_flags f d) = f).

Lemma flag_test f : (Z.land f (Z.shiftl 1 9) =? 0) = negb (Z.testbit f 9).
Proof. apply land_bit_eqb. lia. Qed.
Lemma enable_interrupts_ok s : enable_interrupts s = sti s.
Proof.
  unfold enable_interrupts, sti, on_core, are_interrupts_enabled, modify, gets, mbind, M_bind.
  by rewrite Hdev, Hflags, flag_test, negb_involutive, Z.setbit_eq by lia.
Qed.
Lemma disable_interrupts_ok s : disable_interrupts s = cli s.
Proof.
  unfold disable_interrupts, cli, on_core, are_interrupts_enabled, modify, gets, mbind, M_bind.
  by rewrite Hdev, Hflags, flag_test, negb_involutive, Z.clearbit_eq.
Qed.
End core.

Lemma for_status_ok {S} (I : Z → S → Prop) (body : Z → M S Z) n lo :
  (∀ i, lo ≤ i < lo + Z.of_nat n → {{ I i }} body i {{ λ r s, r = 0 ∧ I (i + 1) s }}) →
  {{ I lo }} for_status n lo body {{ λ r s, r = 0 ∧ I (lo + Z.of_nat n) s }}.
Proof.
  revert lo. induction n as [|n IH]; intros lo Hb; cbn [for_status].
  - apply hoare_ret. intros s Hs. by rewrite Z.add_0_r.
  - eapply hoare_bind; [apply Hb; lia|]. intros r. apply hoare_pure. intros ->. cbn [Z.eqb].
    eapply hoare_conseq; [apply (IH (lo + 1)); intros i Hi; apply Hb; lia|done|].
    intros x s [-> Hs]. split; [done|]. by replace (lo + Z.of_nat (Datatypes.S n)) with (lo + 1 + Z.of_nat n) by lia.
Qed.

(** Whatever the results: the loop ends with one that satisfies [R]. *)
Lemma for_status_any {S} (P : S → Prop) (R : Z → Prop) (body : Z → M S Z) n lo :
  R 0 → (∀ i, lo ≤ i < lo + Z.of_nat n → {{ P }} body i {{ λ r s, R r ∧ P s }}) → {{ P }} for_status n lo body {{ λ r s, R r ∧ P s }}.
Proof.
  intros H0. revert lo. induction n as [|n IH]; intros lo Hb; cbn [for_status]; [by apply hoare_ret|].
  eapply hoare_bind; [apply Hb; lia|]. intros r. apply hoare_pure. intros Hr. destruct (r =? 0); [|by apply hoare_ret].
  apply IH. intros i Hi. apply Hb. lia.
Qed.
