(* ===== verification/MathFp.v ===== *)
(** * Floating-point helpers

    The functions of src/kernel/main/util/math.c and math.h on floating-point
    numbers, in the arithmetic of IEEE 754 with rounding to nearest even
    ([SpecFloat], binary32 for [float] and binary64 for [double]; the kernel is
    built with software floating point).  A conversion to an integer that does
    not fit is undefined in C and a [Fault] here. *)
From Stdlib Require Import ZArith Lia SpecFloat.
From stdpp Require Import base option list.
From S2P Require Import Prelude.

Definition float_of (n : Z) : spec_float := binary_normalize 24 128 n 0 false.
Definition double_of (n : Z) : spec_float := binary_normalize 53 1024 n 0 false.
Definition half : spec_float := S754_finite false 8388608 (-24).

(** The integer part: conversion rounds toward zero. *)
Definition truncate (x : spec_float) : option Z :=
  match x with
  | S754_zero _ => Some 0
  | S754_finite s m e =>
      let v := if 0 <=? e then Z.pos m * 2 ^ e else Z.pos m / 2 ^ (- e) in
      Some (if s then - v else v)
  | S754_infinity _ | S754_nan => None
  end.
Definition int_fits (v : Z) : bool := (- 2 ^ 31 <=? v) && (v <? 2 ^ 31).
(** An [int] that arithmetic or a conversion gives *)
Definition to_int (v : option Z) : outcome Z :=
  match v with
  | Some v => if int_fits v then Ok v else Fault
  | None => Fault
  end.

Definition roundf (number : spec_float) : outcome Z :=
  match to_int (truncate (if SFleb (S754_zero false) number then SFadd 24 128 number half else SFsub 24 128 number half)) with
  | Ok v => Ok (u32 v)
  | Halt => Halt | Fault => Fault | Spin => Spin
  end.

Definition fabs (x : spec_float) : spec_float := if SFltb x (S754_zero false) then SFopp x else x.

Record uint16_Vector2_t := mkVector2 { v2_x : Z; v2_y : Z }.

Definition compute_intersection_x (a b : uint16_Vector2_t) (y : Z) : outcome Z :=
  if v2_y a =? v2_y b then Ok (v2_x a) else
  match to_int (Some (y - v2_y a)) with
  | Ok dy =>
      let t := SFdiv 24 128 (float_of dy) (float_of (v2_y b - v2_y a)) in
      match to_int (truncate (SFmul 24 128 (float_of (v2_x b - v2_x a)) t)) with
      | Ok dx => to_int (Some (v2_x a + dx))
      | e => e
      end
  | e => e
  end.

(** ** What they compute *)

(** [fabs] is the absolute value, but leaves the sign of a negative zero and of a NaN. *)
Lemma fabs_correct x : fabs x = match x with S754_zero _ | S754_nan => x | _ => SFabs x end.
Proof. by destruct x as [[]|[]| |[] m e]. Qed.

(** A property of the integers of a range, by computing it for each of them *)
Lemma check_range (P : Z → bool) lo n v : forallb P (seqZ lo n) = true → lo ≤ v < lo + n → P v = true.
Proof. rewrite forallb_forall. intros H Hv. apply H. rewrite <-list_elem_of_In. by apply elem_of_seqZ. Qed.

Definition gives (o : outcome Z) (v : Z) : bool := match o with Ok w => w =? v | _ => false end.
Lemma gives_spec o v : gives o v = true → o = Ok v.
Proof. destruct o; try done. cbn. by intros ->%Z.eqb_eq. Qed.

(** Whole numbers are not changed, here up to 1024. *)
Lemma roundf_whole n : - 1024 ≤ n ≤ 1024 → roundf (float_of n) = Ok (u32 n).
Proof.
  intros Hn. apply gives_spec. apply (check_range (λ n, gives (roundf (float_of n)) (u32 n)) (- 1024) 2049); [|lia].
  vm_compute. reflexivity.
Qed.

(** The largest number below one half is rounded to one. *)
Example roundf_below_half : let x := S754_finite false 16777215 (-25) in SFltb x half = true ∧ roundf x = Ok 1.
Proof. by vm_compute. Qed.

(** ** Both ends of a line *)

Definition finite_float (x : spec_float) : bool := match x with S754_finite _ _ _ => true | _ => false end.
Definition is_one (x : spec_float) : bool := match x with S754_finite false m e => (Z.pos m =? 8388608) && (e =? -23) | _ => false end.
Lemma is_one_spec x : is_one x = true → x = S754_finite false 8388608 (-23).
Proof. destruct x as [| | |[] m e]; try done. intros H. apply andb_true_iff in H as [Hm ->%Z.eqb_eq]. apply Z.eqb_eq in Hm. by injection Hm as ->. Qed.

Lemma float_of_finite n : - 1024 < n < 1024 → n ≠ 0 → finite_float (float_of n) = true.
Proof.
  intros Hn H0. assert ((n =? 0) || finite_float (float_of n) = true) as H.
  { apply (check_range (λ n, (n =? 0) || finite_float (float_of n)) (- 1024) 2048); [vm_compute; reflexivity|lia]. }
  apply orb_true_iff in H as [H|H]; [lia|done].
Qed.
Lemma div_self n : - 1024 < n < 1024 → n ≠ 0 → SFdiv 24 128 (float_of n) (float_of n) = S754_finite false 8388608 (-23).
Proof.
  intros Hn H0. apply is_one_spec. assert ((n =? 0) || is_one (SFdiv 24 128 (float_of n) (float_of n)) = true) as H.
  { apply (check_range (λ n, (n =? 0) || is_one (SFdiv 24 128 (float_of n) (float_of n))) (- 1024) 2048); [vm_compute; reflexivity|lia]. }
  apply orb_true_iff in H as [H|H]; [lia|done].
Qed.
Lemma mul_one n : - 1024 < n < 1024 → to_int (truncate (SFmul 24 128 (float_of n) (S754_finite false 8388608 (-23)))) = Ok n.
Proof.
  intros Hn. apply gives_spec.
  apply (check_range (λ n, gives (to_int (truncate (SFmul 24 128 (float_of n) (S754_finite false 8388608 (-23))))) n) (- 1024) 2048); [vm_compute; reflexivity|lia].
Qed.

(** On the rows of its ends a line is where the ends are (here for
    screens of up to 1024 pixels), and the line of a row has one point. *)
Lemma compute_intersection_ends a b : 0 ≤ v2_x a < 1024 → 0 ≤ v2_y a < 1024 → 0 ≤ v2_x b < 1024 → 0 ≤ v2_y b < 1024 →
  compute_intersection_x a b (v2_y a) = Ok (v2_x a) ∧
  compute_intersection_x a b (v2_y b) = Ok (if v2_y a =? v2_y b then v2_x a else v2_x b).
Proof.
  intros Hxa Hya Hxb Hyb. unfold compute_intersection_x. destruct (Z.eqb_spec (v2_y a) (v2_y b)) as [E|E]; [done|].
  assert (Hfit : ∀ v, - 1024 < v < 1024 → to_int (Some v) = Ok v).
  { intros v Hv. unfold to_int, int_fits. destruct (Z.leb_spec (- 2 ^ 31) v); [|lia]. by destruct (Z.ltb_spec v (2 ^ 31)); [|lia]. }
  split.
  - rewrite Z.sub_diag, Hfit by lia. pose proof (float_of_finite (v2_y b - v2_y a) ltac:(lia) ltac:(lia)) as Hf.
    destruct (float_of (v2_y b - v2_y a)) as [| | |s m e]; try done. change (float_of 0) with (S754_zero false). cbn [SFdiv].
    assert (Hz : ∀ s', to_int (truncate (S754_zero s')) = Ok 0) by by intros [].
    destruct (decide (v2_x b - v2_x a = 0)) as [->|Hd]; [change (float_of 0) with (S754_zero false)|];
      [|pose proof (float_of_finite (v2_x b - v2_x a) ltac:(lia) Hd) as Hg; destruct (float_of (v2_x b - v2_x a)) as [| | |s' m' e']; try done];
      cbn [SFmul]; rewrite Hz, Z.add_0_r; apply Hfit; lia.
  - rewrite Hfit, div_self, mul_one, Hfit by lia. f_equal. lia.
Qed.
