(* ===== verification/Ktime.v ===== *)
(** * Timekeeping

    Model of src/kernel/main/util/time (pit.c, tsc.c, ktime.c and the inline
    functions of tsc.h): the interval timer behind its ports, the time stamp
    counter, calibration and delays.  The machine is a parameter: ports, the
    instruction [rdtsc] and the processor's feature bit.  Loops that wait take
    fuel. *)
From Stdlib Require Import ZArith Lia SpecFloat.
From stdpp Require Import base option gmap list.
From S2P Require Import Prelude Memory Io MathFp.

(** [rdtsc]: the low and the high half; [tsc_feature]: bit 4 of EDX of CPUID leaf 1. *)
Class Tsc (D : Type) := { rdtsc : D → (Z * Z) * D; tsc_feature : D → bool }.

Inductive t_delay_mode := PIT_DELAY | PIC_DELAY | APIC_DELAY | IOAPIC_DELAY | TSC_DELAY | HPET_DELAY.
#[global] Instance t_delay_mode_eq_dec : EqDecision t_delay_mode.
Proof. solve_decision. Defined.

Record ktime (D : Type) := mkKtime { kt_dev : D; CPU_clock_speed : Z; boot_tsc : Z; microdelay_mode : t_delay_mode }.
Arguments mkKtime {D}.
Arguments kt_dev {D}.
Arguments CPU_clock_speed {D}.
Arguments boot_tsc {D}.
Arguments microdelay_mode {D}.

Definition PIT_CHANNEL0_PORT : Z := 0x40.
Definition PIT_CMD_PORT : Z := 0x43.
Definition PIT_FREQ : Z := 1193182.

#[global] Instance ktime_dev D : HasDev (ktime D) D := {|
  the_dev := kt_dev; set_dev d s := mkKtime d (CPU_clock_speed s) (boot_tsc s) (microdelay_mode s) |}.

Section ktime.
Context {D : Type} `{Ports D, Tsc D}.
Abbreviation K := (M (ktime D)).

Definition set_clock_speed (c : Z) (s : ktime D) : ktime D := mkKtime (kt_dev s) c (boot_tsc s) (microdelay_mode s).
Definition set_boot_tsc (b : Z) (s : ktime D) : ktime D := mkKtime (kt_dev s) (CPU_clock_speed s) b (microdelay_mode s).
Definition set_delay_mode (m : t_delay_mode) (s : ktime D) : ktime D := mkKtime (kt_dev s) (CPU_clock_speed s) (boot_tsc s) m.

(** ** The time stamp counter (tsc.h) *)

Definition read_tsc_fast : K Z := λ s,
  let '(lo, hi, d) := rdtsc (kt_dev s) in Ok (Z.lor (u64 (Z.shiftl (u32 hi) 32)) (u32 lo), set_dev d s).
(** [cpuid] before [rdtsc] only orders the instructions. *)
Definition read_tsc_serialized : K Z := read_tsc_fast.
Definition cpu_has_tsc : K bool := gets (λ s, tsc_feature (kt_dev s)).
Definition capture_boot_tsc : K unit :=
  has ← cpu_has_tsc;
  if (has : bool) then t ← read_tsc_fast; modify (set_boot_tsc t) else mret tt.

(** ** The interval timer (pit.c) *)

Definition pit_read_counter : K Z :=
  outb PIT_CMD_PORT 0x00;;
  lo ← inb PIT_CHANNEL0_PORT;
  hi ← inb PIT_CHANNEL0_PORT;
  mret (Z.lor (u16 (Z.shiftl hi 8)) lo).

Definition pit_start_one_shot (reload : Z) : K unit :=
  outb PIT_CMD_PORT 0x34;;
  outb PIT_CHANNEL0_PORT (Z.land reload 0xFF);;
  outb PIT_CHANNEL0_PORT (Z.shiftr reload 8).

(** [while (pit_read_counter() > bound);] *)
Fixpoint wait_counter (fuel : nat) (bound : Z) : K unit :=
  match fuel with
  | O => spin
  | S fuel => c ← pit_read_counter; if bound <? c then wait_counter fuel bound else mret tt
  end.

Definition pit_delay_us_limited (fuel : nat) (micros : Z) : K unit :=
  if micros =? 0 then mret tt else
  let pit_reload := u16 (u32 (PIT_FREQ / 1000000 * micros)) in
  let pit_reload := if pit_reload =? 0 then 1 else pit_reload in
  pit_start_one_shot (u16 (pit_reload * 2));;
  wait_counter fuel pit_reload.

Definition pit_delay_us (fuel : nat) (micros : Z) : K unit :=
  if 25000 <? micros then
    for_loop (Z.to_nat (micros / 25000)) 0 (λ _, pit_delay_us_limited fuel 25000);;
    pit_delay_us_limited fuel (micros `mod` 25000)
  else pit_delay_us_limited fuel micros.

(** [while (pit_read_counter() == old && read_tsc_serialized() - base > 24000);] *)
Fixpoint legit_loop (fuel : nat) (old base_tsc : Z) : K unit :=
  match fuel with
  | O => spin
  | S fuel =>
      c ← pit_read_counter;
      if negb (c =? old) then mret tt else
      t ← read_tsc_serialized;
      if 24000 <? u64 (t - base_tsc) then legit_loop fuel old base_tsc else mret tt
  end.
Definition pit_get_is_legit (fuel : nat) : K Z :=
  pit_start_one_shot 8;;
  c ← pit_read_counter;
  let old_pit_counter := u8 c in
  has ← cpu_has_tsc;
  if negb has then mret 1 else
  base_tsc ← read_tsc_serialized;
  legit_loop fuel old_pit_counter base_tsc;;
  t ← read_tsc_serialized;
  mret (if 24000 <? u64 (t - base_tsc) then 1 else 0).

(** ** Calibration (tsc.c, tsc.h) *)

Definition measure_tsc_over_pit (fuel : nat) (pit_reload : Z) : K Z :=
  if pit_reload =? 0 then mret 0 else
  legit ← pit_get_is_legit fuel;
  if legit =? 0 then mret 0 else
  let unary := pit_reload <=? 0x7FFF in
  let tickrate := if unary then u16 (pit_reload * 2) else pit_reload in
  let skiprate := if unary then pit_reload else 0 in
  pit_start_one_shot tickrate;;
  tsc_start ← read_tsc_serialized;
  wait_counter fuel skiprate;;
  tsc_end ← read_tsc_serialized;
  remaining_ticks ← pit_read_counter;
  let elapsed_ticks := u16 (tickrate - remaining_ticks) in
  let tsc_estimate := u64 (tsc_end - tsc_start) in
  mret (if (0 <? elapsed_ticks) && negb (elapsed_ticks =? pit_reload)
        then u64 (tsc_estimate * pit_reload) / elapsed_ticks else tsc_estimate).

Definition get_cpu_clock_speed_khz (fuel : nat) : K Z :=
  has ← cpu_has_tsc;
  if negb has then mret 0 else
  tsc_in_1_ltu ← measure_tsc_over_pit fuel (1193 * 4);
  if tsc_in_1_ltu =? 0 then mret 0 else
  let CPU_KHz := u64 (tsc_in_1_ltu * 1000000000) / 999848528 in
  mret (CPU_KHz / 4).

Definition set_CPU_clock_speed_partial (fuel : nat) : K Z :=
  c ← gets CPU_clock_speed;
  (if c =? 0 then khz ← get_cpu_clock_speed_khz fuel; modify (set_clock_speed (u64 (khz * 1000))) else mret tt);;
  c ← gets CPU_clock_speed;
  mret (if c =? 0 then -1 else 0).

(** The loop: [None] when a measurement failed. *)
Fixpoint accumulate_speed (n : nat) (fuel : nat) (accumulate : Z) : K (option Z) :=
  match n with
  | O => mret (Some accumulate)
  | S n =>
      set_CPU_clock_speed_partial fuel;;
      c ← gets CPU_clock_speed;
      if c =? 0 then mret None else accumulate_speed n fuel (u64 (accumulate + c / 1000))
  end.
Definition set_CPU_clock_speed (fuel : nat) : K Z :=
  c ← gets CPU_clock_speed;
  if negb (c =? 0) then mret 0 else
  acc ← accumulate_speed 10 fuel 0;
  match acc with
  | None => mret (-1)
  | Some accumulate => modify (set_clock_speed (u64 (accumulate * 100)));; mret 0
  end.

(** ** The time since boot (ktime.c) *)

Definition get_time_ms (fuel : nat) : K Z :=
  error ← set_CPU_clock_speed fuel;
  boot ← gets boot_tsc;
  if negb (error =? 0) || (boot =? 0) then mret 0 else
  current_tsc ← read_tsc_fast;
  let elapsed_tsc := u64 (current_tsc - boot) in
  c ← gets CPU_clock_speed;
  if c =? 0 then fault else mret (u32 (u64 (elapsed_tsc * 1000) / c)).

Definition get_time_us (fuel : nat) : K Z :=
  error ← set_CPU_clock_speed fuel;
  boot ← gets boot_tsc;
  if negb (error =? 0) || (boot =? 0) then mret 0 else
  current_tsc ← read_tsc_fast;
  let elapsed_tsc := u64 (current_tsc - boot) in
  c ← gets CPU_clock_speed;
  let cycles_per_us := c / 1000000 in
  if cycles_per_us =? 0 then fault else mret (u32 (elapsed_tsc / cycles_per_us)).

Definition get_time_ms_fp (fuel : nat) : K spec_float :=
  error ← set_CPU_clock_speed fuel;
  boot ← gets boot_tsc;
  if negb (error =? 0) || (boot =? 0) then mret (S754_zero false) else
  current_tsc ← read_tsc_fast;
  let elapsed_tsc := u64 (current_tsc - boot) in
  c ← gets CPU_clock_speed;
  let seconds := SFdiv 53 1024 (double_of elapsed_tsc) (double_of c) in
  mret (SFmul 53 1024 seconds (double_of 1000)).

(** ** Delays *)

(** [while (last != 0 && last - start < micros) last = get_time_us();] and the result. *)
Fixpoint tsc_wait (fuel : nat) (start_time micros last_recorded_time : Z) : K Z :=
  if (last_recorded_time =? 0) || negb (u32 (last_recorded_time - start_time) <? micros) then
    mret (if last_recorded_time =? 0 then -1 else 0)
  else match fuel with
  | O => spin
  | S fuel => last ← get_time_us fuel; tsc_wait fuel start_time micros last
  end.
Definition tsc_delay_us (fuel : nat) (micros : Z) : K Z :=
  start_time ← get_time_us fuel;
  if start_time =? 0 then mret (-1) else tsc_wait fuel start_time micros start_time.

(** The fallback to another mode when the timer of the selected one is missing. *)
Definition choose_delay_mode (fuel : nat) : K unit :=
  mode ← gets microdelay_mode;
  (if decide (mode = PIT_DELAY) then
     legit ← pit_get_is_legit fuel; if legit =? 0 then modify (set_delay_mode TSC_DELAY) else mret tt
   else mret tt);;
  mode ← gets microdelay_mode;
  if decide (mode = TSC_DELAY) then
    has ← cpu_has_tsc; if (has : bool) then mret tt else modify (set_delay_mode HPET_DELAY)
  else mret tt.

Definition udelay (fuel : nat) (micros : Z) : K Z :=
  choose_delay_mode fuel;;
  mode ← gets microdelay_mode;
  match mode with
  | PIT_DELAY => pit_delay_us fuel micros;; mret 0
  | TSC_DELAY => tsc_delay_us fuel micros
  | PIC_DELAY | APIC_DELAY | IOAPIC_DELAY | HPET_DELAY => mret (-1)
  end.
End ktime.
