(* ===== verification/KtimeProof.v ===== *)
(** * Timekeeping: how long the delays take

    Against what a time stamp counter and an interval timer promise ([TscClock],
    [PitClock]): the bounds of the delays, and what the calibration computes. *)
From Stdlib Require Import ZArith Lia.
From stdpp Require Import base option gmap list.
From S2P Require Import Prelude Memory Endian Io Ktime.

(** The counter advances with every reading, by at most [poll_cycles]. *)
Class TscClock (D : Type) `{Tsc D} := {
  cycles : D → Z;
  poll_cycles : Z;
  rdtsc_step : ∀ d, ∃ d', rdtsc d = (u32 (cycles d'), u32 (cycles d' / 2 ^ 32), d') ∧
    cycles d < cycles d' ≤ cycles d + poll_cycles;
}.

(** Channel 0 as a rate generator: [origin] is when the count was loaded.
    Latching and reading the counter takes between one and [poll_ticks] ticks
    and gives the count at some time in between. *)
Class PitClock (D : Type) `{Ports D} := {
  ticks : D → Z;
  origin : D → Z;
  period : D → Z;
  poll_ticks : Z;
  pit_started : ∀ d r, 0 < r < 65536 →
    let d' := port_outb 0x40 (r / 256) (port_outb 0x40 (r `mod` 256) (port_outb 0x43 0x34 d)) in
    ticks d ≤ origin d' ∧ ticks d' = origin d' ∧ period d' = r;
  pit_latched : ∀ d, 0 < period d ≤ 65535 → ∃ t lo d2 hi d3,
    port_inb 0x40 (port_outb 0x43 0x00 d) = (lo, d2) ∧ port_inb 0x40 d2 = (hi, d3) ∧
    0 ≤ lo < 256 ∧ 0 ≤ hi < 256 ∧ lo + 256 * hi = period d - (t - origin d) `mod` period d ∧
    ticks d < t ≤ ticks d3 ∧ ticks d3 ≤ ticks d + poll_ticks ∧ origin d3 = origin d ∧ period d3 = period d;
}.

(** ** The time stamp counter *)

Section tsc.
Context {D : Type} `{HP : Ports D, HT : Tsc D, HC : !TscClock D}.
Implicit Types (s : ktime D).

Lemma lor_halves v : Z.lor (u64 (Z.shiftl (u32 (v / 2 ^ 32)) 32)) (u32 v) = u64 v.
Proof.
  assert (0 ≤ u32 (v / 2 ^ 32) < 2 ^ 32) by apply u32_range. rewrite Z.shiftl_mul_pow2, u64_small by lia.
  rewrite Z.lor_comm, lor_low_high by (try lia; apply u32_range). unfold u32, u64.
  rewrite (Z.mul_comm _ (2 ^ 32)). change (2 ^ 64) with (2 ^ 32 * 2 ^ 32). rewrite Z.rem_mul_r by lia. lia.
Qed.

Lemma read_tsc_ok s : ∃ d', read_tsc_fast s = Ok (u64 (cycles d'), set_dev d' s) ∧
  cycles (kt_dev s) < cycles d' ≤ cycles (kt_dev s) + poll_cycles.
Proof.
  destruct (rdtsc_step (kt_dev s)) as (d' & E & Hd). exists d'. split; [|done]. unfold read_tsc_fast. rewrite E.
  assert (Hr : ∀ x, u32 (u32 x) = u32 x) by (intros x; apply u32_small, u32_range). rewrite !Hr. by rewrite lor_halves.
Qed.

(** The counter at [t] in microseconds since boot. *)
Definition micros_at s (t : Z) : Z := (t - boot_tsc s) / (CPU_clock_speed s / 1000000).

(** Calibrated, booted, and the microseconds still fit in 32 bits at the counter value [t]. *)
Record clock_ok s (t : Z) : Prop := {
  ck_speed : 1000000 ≤ CPU_clock_speed s < 2 ^ 64;
  ck_boot : 0 < boot_tsc s;
  ck_first : 1 ≤ micros_at s (cycles (kt_dev s));
  ck_range : t < 2 ^ 64;
  ck_last : micros_at s t < 2 ^ 32;
}.

Lemma micros_at_mono s a b : 0 < CPU_clock_speed s / 1000000 → a ≤ b → micros_at s a ≤ micros_at s b.
Proof. intros Hc Hab. unfold micros_at. apply Z.div_le_mono; lia. Qed.

Lemma get_time_us_ok s fuel t : clock_ok s t → cycles (kt_dev s) + poll_cycles ≤ t →
  ∃ d', get_time_us fuel s = Ok (micros_at s (cycles d'), set_dev d' s) ∧
    cycles (kt_dev s) < cycles d' ≤ cycles (kt_dev s) + poll_cycles ∧ clock_ok (set_dev d' s) t.
Proof.
  intros [Hc Hb Hf Hr Hl] Ht. destruct (read_tsc_ok s) as (d' & E & Hd). exists d'.
  assert (0 < CPU_clock_speed s / 1000000) as Hpos by zdiv.
  assert (H1 : micros_at s (cycles (kt_dev s)) ≤ micros_at s (cycles d')) by (apply micros_at_mono; lia).
  assert (H2 : micros_at s (cycles d') ≤ micros_at s t) by (apply micros_at_mono; lia).
  assert (boot_tsc s ≤ cycles d').
  { destruct (decide (boot_tsc s ≤ cycles d')); [done|]. unfold micros_at in H1, Hf.
    pose proof (Z.div_lt_upper_bound (cycles d' - boot_tsc s) (CPU_clock_speed s / 1000000) 0 Hpos ltac:(rewrite Z.mul_0_r; lia)). lia. }
  split; [|split; [done|]].
  - unfold get_time_us, set_CPU_clock_speed.
    assert (E1 : (c ← gets CPU_clock_speed; if negb (c =? 0) then mret 0 else
      acc ← accumulate_speed 10 fuel 0; match acc with None => mret (-1) | Some a => modify (set_clock_speed (u64 (a * 100)));; mret 0 end) s = Ok (0, s)).
    { mstep. rewrite (proj2 (Z.eqb_neq (CPU_clock_speed s) 0)) by lia. done. }
    mstep with E1. mstep. rewrite (proj2 (Z.eqb_neq (boot_tsc s) 0)) by lia. cbn [Z.eqb negb orb]. mstep with E. mstep.
    cbn [set_dev ktime_dev CPU_clock_speed]. rewrite (proj2 (Z.eqb_neq _ 0)) by lia. unfold mret, M_ret. f_equal. f_equal.
    rewrite (u64_small (cycles d')) by lia. rewrite u64_small by lia. fold (micros_at s (cycles d')). apply u32_small. lia.
  - split; [done|done| |done|done]. change (1 ≤ micros_at s (cycles d')). lia.
Qed.

(** Milliseconds, as long as the product with 1000 fits in 64 bits. *)
Lemma get_time_ms_ok s fuel : 0 < CPU_clock_speed s → 0 < boot_tsc s ≤ cycles (kt_dev s) →
  (cycles (kt_dev s) + poll_cycles - boot_tsc s) * 1000 < 2 ^ 64 → cycles (kt_dev s) + poll_cycles < 2 ^ 64 →
  ∃ d', get_time_ms fuel s = Ok (u32 ((cycles d' - boot_tsc s) * 1000 / CPU_clock_speed s), set_dev d' s) ∧
    cycles (kt_dev s) < cycles d' ≤ cycles (kt_dev s) + poll_cycles.
Proof.
  intros Hc Hb Hm Ht. destruct (read_tsc_ok s) as (d' & E & Hd). exists d'. split; [|done]. unfold get_time_ms, set_CPU_clock_speed.
  assert (E1 : (c ← gets CPU_clock_speed; if negb (c =? 0) then mret 0 else
    acc ← accumulate_speed 10 fuel 0; match acc with None => mret (-1) | Some a => modify (set_clock_speed (u64 (a * 100)));; mret 0 end) s = Ok (0, s)).
  { mstep. rewrite (proj2 (Z.eqb_neq (CPU_clock_speed s) 0)) by lia. done. }
  mstep with E1. mstep. rewrite (proj2 (Z.eqb_neq (boot_tsc s) 0)) by lia. cbn [Z.eqb negb orb]. mstep with E. mstep.
  cbn [set_dev ktime_dev CPU_clock_speed]. rewrite (proj2 (Z.eqb_neq _ 0)) by lia. unfold mret, M_ret.
  rewrite (u64_small (cycles d')), (u64_small (cycles d' - _)), u64_small by lia. done.
Qed.

(** The waiting loop: [t0] is the counter at the start. *)
Lemma tsc_wait_ok micros t0 t : 0 < micros < 2 ^ 32 → ∀ fuel s,
  clock_ok s t → t0 ≤ cycles (kt_dev s) → t0 + (CPU_clock_speed s / 1000000) * micros + poll_cycles ≤ t →
  micros_at s (cycles (kt_dev s)) - micros_at s t0 < micros →
  t0 + (CPU_clock_speed s / 1000000) * micros - cycles (kt_dev s) < Z.of_nat fuel → 1 ≤ micros_at s t0 →
  ∃ d', tsc_wait fuel (micros_at s t0) micros (micros_at s (cycles (kt_dev s))) s = Ok (0, set_dev d' s) ∧
    micros ≤ micros_at s (cycles d') - micros_at s t0 ∧ cycles d' ≤ t0 + (CPU_clock_speed s / 1000000) * micros + poll_cycles.
Proof.
  intros Hm. set (Q := λ s (d' : D), micros ≤ micros_at s (cycles d') - micros_at s t0 ∧ cycles d' ≤ t0 + (CPU_clock_speed s / 1000000) * micros + poll_cycles).
  assert (Hbnd : ∀ s x, 0 < CPU_clock_speed s / 1000000 → micros_at s x - micros_at s t0 < micros → x < t0 + (CPU_clock_speed s / 1000000) * micros).
  { intros s x Hc Hx. unfold micros_at in Hx. set (c := CPU_clock_speed s / 1000000) in *.
    pose proof (Z.div_mod (x - boot_tsc s) c ltac:(lia)). pose proof (Z.div_mod (t0 - boot_tsc s) c ltac:(lia)).
    pose proof (Z.mod_pos_bound (x - boot_tsc s) c Hc). pose proof (Z.mod_pos_bound (t0 - boot_tsc s) c Hc). nia. }
  induction fuel as [|fuel IH]; intros s Hck H0 Ht Hlt Hfuel H1.
  all: assert (0 < CPU_clock_speed s / 1000000) as Hpos by (destruct Hck as [? _ _ _ _]; zdiv).
  all: pose proof (Hbnd s _ Hpos Hlt) as Hx.
  { lia. }
  pose proof (ck_first _ _ Hck) as Hf. cbn [tsc_wait]. rewrite (proj2 (Z.eqb_neq _ 0)) by lia.
  assert (H2 : micros_at s t0 ≤ micros_at s (cycles (kt_dev s))) by (apply micros_at_mono; lia).
  rewrite u32_small by lia. rewrite (proj2 (Z.ltb_lt _ micros)) by done. cbn [negb orb].
  destruct (get_time_us_ok s fuel t Hck) as (d & E & Hd & Hck'); [lia|]. mstep with E.
  destruct (decide (micros_at s (cycles d) - micros_at s t0 < micros)) as [Hlt'|Hge].
  - destruct (IH (set_dev d s) Hck') as (d' & E' & HQ); [cbn; lia|done|done|cbn [kt_dev set_dev ktime_dev CPU_clock_speed]; lia|done|].
    exists d'. split; [exact E'|exact HQ].
  - assert (H3 : micros_at s (cycles d) ≤ micros_at s t) by (apply micros_at_mono; lia).
    assert (H4 : micros_at s (cycles (kt_dev s)) ≤ micros_at s (cycles d)) by (apply micros_at_mono; lia).
    pose proof (ck_last _ _ Hck). exists d. split; [|split; [lia|lia]].
    destruct fuel; cbn [tsc_wait]; rewrite (proj2 (Z.eqb_neq _ 0)) by lia; rewrite u32_small by lia;
      rewrite (proj2 (Z.ltb_ge _ micros)) by lia; done.
Qed.

(** C28: When the clock speed has been measured, is 1 MHz at least, the boot is at least a microsecond ago, and the count of
    microseconds since boot stays below 2^32 (71 minutes) during the delay ([clock_ok]: outside of that range
    [tsc_delay_us] can return -1 at once), [tsc_delay_us] of a positive number returns 0 after more than [micros] - 1
    microseconds and at most [micros] microseconds and one reading of the counter, counted from its first reading; the
    number of readings is bounded by the number of cycles. *)
Theorem tsc_delay_us_correct s fuel micros t :
  let c := CPU_clock_speed s / 1000000 in
  0 < micros < 2 ^ 32 → clock_ok s t → cycles (kt_dev s) + c * micros + 2 * poll_cycles ≤ t → c * micros < Z.of_nat fuel →
  ∃ d0 d', tsc_delay_us fuel micros s = Ok (0, set_dev d' s) ∧ cycles (kt_dev s) < cycles d0 ≤ cycles (kt_dev s) + poll_cycles ∧
    c * (micros - 1) < cycles d' - cycles d0 ≤ c * micros + poll_cycles.
Proof.
  intros c Hm Hck Ht Hfuel. pose proof (ck_speed _ _ Hck). assert (0 < c) as Hc by (unfold c; zdiv). destruct (rdtsc_step (kt_dev s)) as (dx & _ & Hp).
  destruct (get_time_us_ok s fuel t Hck) as (d0 & E0 & Hd0 & Hck0); [nia|]. unfold tsc_delay_us. mstep with E0.
  pose proof (ck_first _ _ Hck0) as Hf. change (1 ≤ micros_at s (cycles d0)) in Hf. rewrite (proj2 (Z.eqb_neq _ 0)) by lia.
  destruct (tsc_wait_ok micros (cycles d0) t Hm fuel (set_dev d0 s) Hck0) as (d' & E & Hlo & Hhi); cbn [kt_dev set_dev ktime_dev CPU_clock_speed]; try fold c; try lia.
  { done. }
  exists d0, d'. split; [exact E|]. split; [lia|]. cbn [kt_dev set_dev ktime_dev CPU_clock_speed] in Hhi. fold c in Hhi. split; [|lia].
  unfold micros_at in Hlo. cbn [kt_dev set_dev ktime_dev CPU_clock_speed boot_tsc] in Hlo. fold c in Hlo.
  pose proof (Z.div_mod (cycles d' - boot_tsc s) c ltac:(lia)). pose proof (Z.div_mod (cycles d0 - boot_tsc s) c ltac:(lia)).
  pose proof (Z.mod_pos_bound (cycles d' - boot_tsc s) c Hc). pose proof (Z.mod_pos_bound (cycles d0 - boot_tsc s) c Hc). nia.
Qed.
End tsc.

(** ** The interval timer *)

Section pit.
Context {D : Type} `{HP : Ports D, HT : Tsc D, HC : !PitClock D}.
Implicit Types (s : ktime D).

Lemma lor_bytes lo hi : 0 ≤ lo < 256 → 0 ≤ hi < 256 → Z.lor (u16 (Z.shiftl (u8 hi) 8)) (u8 lo) = lo + 256 * hi.
Proof.
  intros Hl Hh. rewrite !u8_small, Z.shiftl_mul_pow2, u16_small, Z.lor_comm, lor_low_high by lia. lia.
Qed.

Lemma pit_read_counter_ok s : 0 < period (kt_dev s) ≤ 65535 → ∃ t d', let d := kt_dev s in
  pit_read_counter s = Ok (period d - (t - origin d) `mod` period d, set_dev d' s) ∧
  ticks d < t ≤ ticks d' ∧ ticks d' ≤ ticks d + poll_ticks ∧ origin d' = origin d ∧ period d' = period d.
Proof.
  intros Hp. destruct (pit_latched (kt_dev s) Hp) as (t & lo & d2 & hi & d3 & E2 & E3 & Hlo & Hhi & Ev & Ht & Htt & Ho & Hpp).
  exists t, d3. cbv zeta. split; [|done]. unfold pit_read_counter. mstep. unfold mbind, M_bind, inb at 1, PIT_CHANNEL0_PORT, PIT_CMD_PORT.
  change (u16 0x43) with 0x43. change (u16 0x40) with 0x40. change (u8 0x00) with 0x00. cbn [the_dev ktime_dev set_dev kt_dev]. rewrite E2.
  unfold inb. change (u16 0x40) with 0x40. cbn [the_dev ktime_dev set_dev kt_dev]. rewrite E3. rewrite lor_bytes by done. by rewrite Ev.
Qed.

Lemma pit_start_ok s r : 0 < r < 65536 → ∃ d', pit_start_one_shot r s = Ok (tt, set_dev d' s) ∧
  ticks (kt_dev s) ≤ origin d' ∧ ticks d' = origin d' ∧ period d' = r.
Proof.
  intros Hr. pose proof (pit_started (kt_dev s) r Hr) as Hd. cbv zeta in Hd. eexists. split; [|exact Hd].
  unfold pit_start_one_shot. mstep. mstep. unfold outb, modify, PIT_CHANNEL0_PORT, PIT_CMD_PORT. change (u16 0x43) with 0x43. change (u16 0x40) with 0x40.
  change (u8 0x34) with 0x34. cbn [the_dev ktime_dev set_dev kt_dev]. rewrite Z.shiftr_div_pow2 by lia. change (2 ^ 8) with 256.
  change 0xFF with (2 ^ 8 - 1). rewrite land_ones_mod by lia. rewrite !u8_small by zdiv. done.
Qed.

(** The second half of the period is long enough not to be missed. *)
Lemma wait_counter_ok R : 0 < R ≤ 32767 → 2 * poll_ticks ≤ R → ∀ fuel s,
  period (kt_dev s) = 2 * R → origin (kt_dev s) ≤ ticks (kt_dev s) < origin (kt_dev s) + R + poll_ticks →
  Z.max 0 (origin (kt_dev s) + R - ticks (kt_dev s)) < Z.of_nat fuel →
  ∃ d', wait_counter fuel R s = Ok (tt, set_dev d' s) ∧
    origin (kt_dev s) + R ≤ ticks d' < origin (kt_dev s) + R + 2 * poll_ticks.
Proof.
  intros HR HP0. induction fuel as [|fuel IH]; intros s Hp Ht Hfuel; [lia|]. cbn [wait_counter].
  destruct (pit_read_counter_ok s) as (t & d' & E & Hd & Hdp & Ho & Hpp); [lia|]. mstep with E. rewrite Hp in *. set (o := origin (kt_dev s)) in *.
  assert (Hm : (t - o) `mod` (2 * R) = t - o) by (apply Z.mod_small; lia). rewrite Hm.
  destruct (Z.ltb_spec R (2 * R - (t - o))).
  - destruct (IH (set_dev d' s)) as (d2 & E2 & H2); cbn [kt_dev set_dev ktime_dev] in *; [lia|lia|lia|]. exists d2. split; [exact E2|]. lia.
  - exists d'. split; [done|]. lia.
Qed.

Lemma pit_delay_limited_ok s fuel micros : 2 * poll_ticks ≤ micros ≤ 25000 → 0 < micros → micros < Z.of_nat fuel →
  ∃ d', pit_delay_us_limited fuel micros s = Ok (tt, set_dev d' s) ∧ ticks (kt_dev s) + micros ≤ ticks d'.
Proof.
  intros Hm H0 Hf. unfold pit_delay_us_limited. rewrite (proj2 (Z.eqb_neq micros 0)) by lia.
  change (PIT_FREQ / 1000000 * micros) with (1 * micros). rewrite (u32_small (1 * micros)) by lia. rewrite (u16_small (1 * micros)) by lia.
  rewrite (proj2 (Z.eqb_neq (1 * micros) 0)) by lia. cbv zeta. rewrite (u16_small (1 * micros * 2)) by lia.
  destruct (pit_start_ok s (1 * micros * 2)) as (d1 & E1 & Ho & Ht & Hp); [lia|]. mstep with E1.
  destruct (wait_counter_ok (1 * micros) ltac:(lia) ltac:(lia) fuel (set_dev d1 s)) as (d2 & E2 & H2); cbn [kt_dev set_dev ktime_dev] in *; [lia| |lia|].
  - assert (0 < poll_ticks).
    { destruct (pit_latched d1) as (? & ? & ? & ? & ? & _ & _ & _ & _ & _ & ? & ? & _); lia. }
    lia.
  - exists d2. split; [exact E2|]. lia.
Qed.

(** [pit_delay_us] takes one tick of the 1.193182 MHz timer for a microsecond: it returns after at least [micros] ticks,
    a rest below the time of two readings excepted. *)
Theorem pit_delay_us_correct s fuel micros :
  let rest := micros `mod` 25000 in
  0 < micros < 2 ^ 32 → (rest = 0 ∨ 2 * poll_ticks ≤ rest) → 2 * poll_ticks ≤ 25000 → 25000 < Z.of_nat fuel →
  ∃ d', pit_delay_us fuel micros s = Ok (tt, set_dev d' s) ∧ ticks (kt_dev s) + micros ≤ ticks d'.
Proof.
  intros rest Hm Hr Hp Hf. unfold pit_delay_us. destruct (Z.ltb_spec 25000 micros) as [Hl|Hl].
  - set (n := micros / 25000). assert (Hn : micros = 25000 * n + rest) by apply (Z.div_mod micros 25000 ltac:(lia)). assert (0 ≤ rest < 25000) by (apply Z.mod_pos_bound; lia).
    destruct (for_loop_inv (λ i s', ∃ d', s' = set_dev d' s ∧ ticks (kt_dev s) + 25000 * i ≤ ticks d')
      (λ _, pit_delay_us_limited fuel 25000) (Z.to_nat n) 0 s) as (s1 & E1 & d1 & -> & H1).
    { exists (kt_dev s). split; [by destruct s|lia]. }
    { intros i s' _ (d' & -> & Hd). destruct (pit_delay_limited_ok (set_dev d' s) fuel 25000) as (d2 & E2 & H2); [lia|lia|lia|].
      exists (set_dev d2 (set_dev d' s)). split; [exact E2|]. exists d2. split; [done|]. cbn [kt_dev set_dev ktime_dev] in H2. lia. }
    mstep with E1. fold rest. destruct Hr as [Hr|Hr].
    + rewrite Hr in *. exists d1. split; [done|]. lia.
    + destruct (decide (rest = 0)) as [E|E].
      { exists d1. unfold pit_delay_us_limited. rewrite E. split; [done|]. lia. }
      destruct (pit_delay_limited_ok (set_dev d1 s) fuel rest) as (d2 & E2 & H2); [lia|lia|lia|]. exists d2. split; [exact E2|].
      cbn [kt_dev set_dev ktime_dev] in H2. lia.
  - destruct (decide (micros = 25000)) as [->|]; [apply pit_delay_limited_ok; lia|].
    assert (rest = micros) as E by (apply Z.mod_small; lia). rewrite E in Hr. apply pit_delay_limited_ok; lia.
Qed.
End pit.

(** ** Calibration *)

Section calibration.
Context {D : Type} `{HP : Ports D, HT : Tsc D}.
Implicit Types (s : ktime D).

Lemma khz_range s fuel khz s' : get_cpu_clock_speed_khz fuel s = Ok (khz, s') → 0 ≤ khz < 2 ^ 33.
Proof.
  unfold get_cpu_clock_speed_khz. intros H. apply bind_inv in H as (has & s1 & _ & H). destruct has; cbn [negb] in H; [|injection H as <- _; lia].
  apply bind_inv in H as (t & s2 & _ & H). destruct (t =? 0); injection H as <- _; [lia|].
  pose proof (u64_range (t * 1000000000)). zdiv.
Qed.

(** Once the speed is known, the loop measures no more. *)
Lemma accumulate_known n fuel acc s : CPU_clock_speed s ≠ 0 → 0 ≤ CPU_clock_speed s → 0 ≤ acc →
  acc + Z.of_nat n * (CPU_clock_speed s / 1000) < 2 ^ 64 →
  accumulate_speed n fuel acc s = Ok (Some (acc + Z.of_nat n * (CPU_clock_speed s / 1000)), s).
Proof.
  intros Hc Hc0. revert acc. induction n as [|n IH]; intros acc H0 Hr; [cbn; unfold mret, M_ret; by rewrite Z.add_0_r|].
  assert (0 ≤ CPU_clock_speed s / 1000) by (apply Z.div_pos; lia). cbn [accumulate_speed].
  assert (E : set_CPU_clock_speed_partial fuel s = Ok (0, s)).
  { unfold set_CPU_clock_speed_partial. mstep. rewrite (proj2 (Z.eqb_neq _ 0)) by done. mstep. mstep. by rewrite (proj2 (Z.eqb_neq _ 0)). }
  mstep with E. mstep. rewrite (proj2 (Z.eqb_neq _ 0)) by done. rewrite u64_small by nia. rewrite IH by nia.
  f_equal. f_equal. f_equal. lia.
Qed.

Lemma partial_measures fuel s : CPU_clock_speed s = 0 →
  set_CPU_clock_speed_partial fuel s =
    (khz ← get_cpu_clock_speed_khz fuel; modify (set_clock_speed (u64 (khz * 1000)));; mret (if u64 (khz * 1000) =? 0 then -1 else 0)) s.
Proof.
  intros H0. unfold set_CPU_clock_speed_partial. mstep. rewrite H0. cbn [Z.eqb]. unfold mbind, M_bind.
  by destruct (get_cpu_clock_speed_khz fuel s) as [[khz s1]| | |].
Qed.

Lemma accumulate_step n fuel acc : accumulate_speed (D := D) (S n) fuel acc =
  (set_CPU_clock_speed_partial fuel;; c ← gets CPU_clock_speed;
   if c =? 0 then mret None else accumulate_speed n fuel (u64 (acc + c / 1000))).
Proof. done. Qed.

(** [set_CPU_clock_speed] is meant to average ten measurements; it measures once and stores that value. *)
Theorem set_CPU_clock_speed_measures_once fuel s :
  CPU_clock_speed s = 0 →
  set_CPU_clock_speed fuel s =
    (khz ← get_cpu_clock_speed_khz fuel; modify (set_clock_speed (1000 * khz));; mret (if khz =? 0 then -1 else 0)) s.
Proof.
  intros H0. unfold set_CPU_clock_speed. mstep. rewrite H0. cbn [Z.eqb negb]. rewrite (accumulate_step 9).
  pose proof (partial_measures fuel s H0) as EP. destruct (get_cpu_clock_speed_khz fuel s) as [[khz s1]| | |] eqn:E;
    [|by unfold mbind, M_bind in *; rewrite EP, E..].
  pose proof (khz_range s fuel khz s1 E) as Hk. rewrite (bind_ok _ _ s khz s1 E) in EP. rewrite (bind_ok _ _ s khz s1 E). mstep.
  assert (Hu : u64 (khz * 1000) = 1000 * khz) by (rewrite u64_small; lia). rewrite Hu in EP.
  set (s2 := set_clock_speed (1000 * khz) s1) in *.
  assert (EP' : set_CPU_clock_speed_partial fuel s = Ok (if 1000 * khz =? 0 then -1 else 0, s2)) by exact EP.
  unfold mbind at 1, M_bind at 1. mstep with EP'. mstep. change (CPU_clock_speed s2) with (1000 * khz).
  destruct (Z.eqb_spec khz 0) as [->|Hne]; [done|]. rewrite (proj2 (Z.eqb_neq (1000 * khz) 0)) by lia.
  assert (Hq : 1000 * khz / 1000 = khz) by (rewrite Z.mul_comm; apply Z.div_mul; lia). rewrite Hq. rewrite u64_small by lia.
  rewrite accumulate_known; change (CPU_clock_speed s2) with (1000 * khz); rewrite ?Hq; try lia.
  mstep. unfold mret, M_ret. f_equal. f_equal. rewrite u64_small by lia. unfold s2, set_clock_speed. cbn. f_equal. lia.
Qed.
End calibration.

(** ** A machine on which every reading takes one tick *)

Record bench := mkBench { b_time : Z; b_origin : Z; b_period : Z; b_load : option Z; b_latch : Z; b_high : bool }.
Definition bench_count (b : bench) (t : Z) : Z := b_period b - (t - b_origin b) `mod` b_period b.

#[export] Instance bench_ports : Ports bench := {|
  port_outb port v b :=
    if port =? 0x43 then
      if v =? 0 then mkBench (b_time b + 1) (b_origin b) (b_period b) (b_load b) (bench_count b (b_time b + 1)) false
      else mkBench (b_time b) (b_origin b) (b_period b) None (b_latch b) (b_high b)
    else match b_load b with
    | None => mkBench (b_time b) (b_origin b) (b_period b) (Some v) (b_latch b) (b_high b)
    | Some lo => mkBench (b_time b) (b_time b) (lo + 256 * v) None (b_latch b) (b_high b)
    end;
  port_inb port b :=
    (if b_high b then b_latch b / 256 else b_latch b `mod` 256,
     mkBench (b_time b) (b_origin b) (b_period b) (b_load b) (b_latch b) (negb (b_high b)));
  port_outw _ _ b := b;
  port_inw _ b := (0, b);
|}.
#[export] Instance bench_tsc : Tsc bench := {|
  rdtsc b := let t := b_time b + 1 in
    ((u32 t, u32 (t / 2 ^ 32)), mkBench t (b_origin b) (b_period b) (b_load b) (b_latch b) (b_high b));
  tsc_feature _ := true;
|}.

#[export] Instance bench_tsc_clock : TscClock bench.
Proof.
  refine {| cycles := b_time; poll_cycles := 1 |}. intros d. exists (mkBench (b_time d + 1) (b_origin d) (b_period d) (b_load d) (b_latch d) (b_high d)). split; [reflexivity|]. cbn. lia.
Defined.
#[export] Instance bench_pit_clock : PitClock bench.
Proof.
  refine {| ticks := b_time; origin := b_origin; period := b_period; poll_ticks := 1 |}.
  - intros d r Hr. cbn. splits; [lia|done|]. pose proof (Z.div_mod r 256 ltac:(lia)). lia.
  - intros d Hp. exists (b_time d + 1). do 4 eexists. splits; [reflexivity|reflexivity|..]; cbn; unfold bench_count;
      pose proof (Z.mod_pos_bound (b_time d + 1 - b_origin d) (b_period d) ltac:(lia)); try lia; try zdiv.
Defined.

Definition bench_state : ktime bench := mkKtime (mkBench 100 0 8 None 0 false) 3000000 5 TSC_DELAY.

Lemma tsc_delay_us_correct_witness :
  ∃ d0 d', tsc_delay_us 100 10 bench_state = Ok (0, set_dev d' bench_state) ∧ 100 < cycles d0 ≤ 101 ∧ 27 < cycles d' - cycles d0 ≤ 31.
Proof.
  assert (Hck : clock_ok bench_state 1000) by (split; vm_compute; try split; congruence).
  exact (tsc_delay_us_correct bench_state 100 10 1000 ltac:(lia) Hck ltac:(vm_compute; congruence) ltac:(vm_compute; reflexivity)).
Defined.

Lemma pit_delay_us_correct_witness :
  ∃ d', pit_delay_us (Z.to_nat 25001) 50100 bench_state = Ok (tt, set_dev d' bench_state) ∧ ticks (kt_dev bench_state) + 50100 ≤ ticks d'.
Proof.
  apply (pit_delay_us_correct bench_state (Z.to_nat 25001) 50100); [lia|right; vm_compute; congruence|vm_compute; congruence|lia].
Defined.

Lemma set_CPU_clock_speed_measures_once_witness :
  let s := mkKtime (mkBench 100 0 8 None 0 false) 0 5 TSC_DELAY in
  set_CPU_clock_speed 10 s = (khz ← get_cpu_clock_speed_khz 10; modify (set_clock_speed (1000 * khz));; mret (if khz =? 0 then -1 else 0)) s.
Proof. apply set_CPU_clock_speed_measures_once. reflexivity. Defined.
