(* ===== verification/Ata.v ===== *)
(** * ATA disks

    Model of src/drivers/storage/ata.c and ata.h: programmed input and output
    against a device behind the ports of a channel.  The state is the device,
    the memory with the buffers and the two global status bytes. *)
From Stdlib Require Import ZArith Lia.
From stdpp Require Import base option gmap list.
From S2P Require Import Prelude Memory Endian Tlsf Io.

Definition ATA_PRIMARY_IO : Z := 0x1F0.
Definition ATA_SECONDARY_IO : Z := 0x170.
Definition ATA_REG_DATA : Z := 0.
Definition ATA_REG_ERROR : Z := 1.
Definition ATA_REG_SECCOUNT : Z := 2.
Definition ATA_REG_LBA_LOW : Z := 3.
Definition ATA_REG_LBA_MID : Z := 4.
Definition ATA_REG_LBA_HIGH : Z := 5.
Definition ATA_REG_DRIVE_HEAD : Z := 6.
Definition ATA_REG_COMMAND : Z := 7.
Definition ATA_REG_STATUS : Z := 7.
Definition ATA_CMD_READ_SECTORS : Z := 0x20.
Definition ATA_CMD_READ_SECTORS_EXT : Z := 0x24.
Definition ATA_CMD_WRITE_SECTORS : Z := 0x30.
Definition ATA_CMD_WRITE_SECTORS_EXT : Z := 0x34.
Definition ATA_CMD_CACHE_FLUSH : Z := 0xE7.
Definition ATA_CMD_CACHE_FLUSH_EXT : Z := 0xEA.
Definition ATA_CMD_IDENTIFY : Z := 0xEC.

Record ata (D : Type) := mkAta { ad_dev : D; ad_mem : memory; ata_status : Z; ata_error : Z }.
Arguments mkAta {D}.
Arguments ad_dev {D}.
Arguments ad_mem {D}.
Arguments ata_status {D}.
Arguments ata_error {D}.

#[global] Instance ata_dev D : HasDev (ata D) D := {|
  the_dev := ad_dev; set_dev d s := mkAta d (ad_mem s) (ata_status s) (ata_error s) |}.

Section ata.
Context {D : Type} `{Ports D}.
Abbreviation A := (M (ata D)).

Definition set_ad_mem (m : memory) (s : ata D) : ata D := mkAta (ad_dev s) m (ata_status s) (ata_error s).
Definition set_ata_status (v : Z) (s : ata D) : ata D := mkAta (ad_dev s) (ad_mem s) v (ata_error s).
Definition set_ata_error (v : Z) (s : ata D) : ata D := mkAta (ad_dev s) (ad_mem s) (ata_status s) v.

(** ** Selecting and waiting (ata.h) *)

(** [*io_base] and [*drive_head] *)
Definition ata_get_io_and_head (drive : Z) : Z * Z :=
  (if drive <? 2 then ATA_PRIMARY_IO else ATA_SECONDARY_IO,
   Z.lor 0xE0 (if negb (Z.land drive 1 =? 0) then 0x10 else 0x00)).

Fixpoint wait_loop (n : nat) (io_base : Z) (needs_drq : bool) : A Z :=
  match n with
  | O => mret (-1)
  | S n =>
      st ← inb (io_base + ATA_REG_STATUS);
      modify (set_ata_status st);;
      if negb (Z.land st 0x01 =? 0) then
        e ← inb (io_base + ATA_REG_ERROR);
        modify (set_ata_error e);;
        mret (-2)
      else if (Z.land st 0x80 =? 0) && (negb needs_drq || negb (Z.land st 0x08 =? 0)) then mret 0
      else wait_loop n io_base needs_drq
  end.
Definition ata_wait_ready (io_base : Z) (needs_drq : bool) : A Z := wait_loop (Z.to_nat 100000) io_base needs_drq.

(** [for (int i = 0; i < 4; i++) inb(io_base + ATA_REG_STATUS);] *)
Definition status_delay (io_base : Z) : A unit := for_loop 4 0 (λ _, inb (io_base + ATA_REG_STATUS);; mret tt).

(** ** Commands *)

Definition ata_write_48bit_lba (io_base lba sector_count : Z) : A unit :=
  outb (io_base + ATA_REG_SECCOUNT) (Z.land (Z.shiftr sector_count 8) 0xFF);;
  outb (io_base + ATA_REG_LBA_LOW) (Z.land (Z.shiftr lba 24) 0xFF);;
  outb (io_base + ATA_REG_LBA_MID) (Z.land (Z.shiftr lba 32) 0xFF);;
  outb (io_base + ATA_REG_LBA_HIGH) (Z.land (Z.shiftr lba 40) 0xFF);;
  outb (io_base + ATA_REG_SECCOUNT) (Z.land sector_count 0xFF);;
  outb (io_base + ATA_REG_LBA_LOW) (Z.land lba 0xFF);;
  outb (io_base + ATA_REG_LBA_MID) (Z.land (Z.shiftr lba 8) 0xFF);;
  outb (io_base + ATA_REG_LBA_HIGH) (Z.land (Z.shiftr lba 16) 0xFF).

(** The register writes of a command with a 28-bit address. *)
Definition command_28bit (io_base drive_head lba sector_count command : Z) : A unit :=
  outb (io_base + ATA_REG_DRIVE_HEAD) drive_head;;
  outb (io_base + ATA_REG_SECCOUNT) sector_count;;
  outb (io_base + ATA_REG_LBA_LOW) (Z.land lba 0xFF);;
  outb (io_base + ATA_REG_LBA_MID) (Z.land (Z.shiftr lba 8) 0xFF);;
  outb (io_base + ATA_REG_LBA_HIGH) (Z.land (Z.shiftr lba 16) 0xFF);;
  outb (io_base + ATA_REG_COMMAND) command.

(** The same for a 48-bit address. *)
Definition command_48bit (io_base drive_head lba sector_count command : Z) : A unit :=
  outb (io_base + ATA_REG_DRIVE_HEAD) drive_head;;
  status_delay io_base;;
  ata_write_48bit_lba io_base lba sector_count;;
  outb (io_base + ATA_REG_COMMAND) command.

(** ** Transfers *)

(** The index [s * sector_size_bytes + i + 1] is an [int]: its overflow is undefined. *)
Definition read_word (io_base buffer : Z) (idx : Z) : A unit :=
  if 2 ^ 31 <=? idx + 1 then fault else
  word ← inw (io_base + ATA_REG_DATA);
  modify (λ s, set_ad_mem (store8 (ad_mem s) (u64 (buffer + idx)) (Z.land word 0xFF)) s);;
  modify (λ s, set_ad_mem (store8 (ad_mem s) (u64 (buffer + idx + 1)) (Z.shiftr word 8)) s).
Definition write_word (io_base buffer : Z) (idx : Z) : A unit :=
  if 2 ^ 31 <=? idx + 1 then fault else
  m ← gets ad_mem;
  outw (io_base + ATA_REG_DATA) (Z.lor (load8 m (u64 (buffer + idx))) (Z.shiftl (load8 m (u64 (buffer + idx + 1))) 8)).

(** The loop over the sectors, with [word] for the body of the inner loop. *)
Definition transfer (word : Z → A unit) (io_base sector_count sector_size_bytes : Z) : A Z :=
  for_status (Z.to_nat sector_count) 0 (λ s,
    r ← ata_wait_ready io_base true;
    if negb (r =? 0) then mret (-2) else
    for_loop (Z.to_nat ((sector_size_bytes + 1) / 2)) 0 (λ i, word (s * sector_size_bytes + 2 * i));;
    mret 0).
Definition read_sectors (io_base sector_count buffer sector_size_bytes : Z) : A Z :=
  transfer (read_word io_base buffer) io_base sector_count sector_size_bytes.
Definition write_sectors (io_base sector_count buffer sector_size_bytes : Z) : A Z :=
  transfer (write_word io_base buffer) io_base sector_count sector_size_bytes.

(** ** Reading *)

(** Behind the selection of the channel. *)
Definition read_28bit_at (io_base drive_head lba sector_count buffer sector_size_bytes : Z) : A Z :=
  r ← ata_wait_ready io_base false;
  if negb (r =? 0) then mret (-1) else
  command_28bit io_base drive_head lba sector_count ATA_CMD_READ_SECTORS;;
  read_sectors io_base sector_count buffer sector_size_bytes.
Definition read_48bit_at (io_base drive_head lba sector_count buffer sector_size_bytes : Z) : A Z :=
  r ← ata_wait_ready io_base false;
  if negb (r =? 0) then mret (-1) else
  command_48bit io_base drive_head lba sector_count ATA_CMD_READ_SECTORS_EXT;;
  read_sectors io_base sector_count buffer sector_size_bytes.

Definition head_28bit (drive lba : Z) : Z := Z.lor (ata_get_io_and_head drive).2 (Z.land (Z.shiftr lba 24) 0x0F).
Definition head_48bit (drive : Z) : Z := Z.lor (ata_get_io_and_head drive).2 0x40.

Definition ata_read_sector_28bit (lba sector_count buffer drive sector_size_bytes : Z) : A Z :=
  if 2 ^ 28 <=? lba then mret (-3) else
  read_28bit_at (ata_get_io_and_head drive).1 (head_28bit drive lba) lba sector_count buffer sector_size_bytes.
Definition ata_read_sector_48bit (lba sector_count buffer drive sector_size_bytes : Z) : A Z :=
  read_48bit_at (ata_get_io_and_head drive).1 (head_48bit drive) lba sector_count buffer sector_size_bytes.
Definition ata_read_sector_28bit_manual (lba sector_count buffer base_pmio drive sector_size_bytes : Z) : A Z :=
  if 2 ^ 28 <=? lba then mret (-3) else
  read_28bit_at base_pmio (head_28bit drive lba) lba sector_count buffer sector_size_bytes.
Definition ata_read_sector_48bit_manual (lba sector_count buffer base_pmio drive sector_size_bytes : Z) : A Z :=
  read_48bit_at base_pmio (head_48bit drive) lba sector_count buffer sector_size_bytes.

(** The loop of 28-bit reads of at most 255 sectors; [read] is one of them. *)
Definition read_chunks (read : Z → Z → Z → A Z) (lba sector_count buffer sector_size_bytes : Z) : A Z :=
  for_status (Z.to_nat ((sector_count + 254) / 255)) 0 (λ k,
    let lba_reading := 255 * k in
    let n := u16 (sector_count - lba_reading) in
    let sector_count_reading := if 255 <? n then 255 else n in
    read (u32 (lba + lba_reading)) (u8 sector_count_reading) (u64 (buffer + u32 (lba_reading * sector_size_bytes)))).

(** The choice of the commands. *)
Definition read_auto (read28 read48 : Z → Z → Z → A Z) (lba sector_count buffer sector_size_bytes : Z) : A Z :=
  if (lba <? 2 ^ 28) && (sector_count <=? 255) then read28 (u32 lba) (u8 sector_count) buffer else
  r ← (if u64 (lba + sector_count) <? 2 ^ 28 then read_chunks read28 lba sector_count buffer sector_size_bytes else mret 0);
  if negb (r =? 0) then mret r else read48 lba sector_count buffer.

Definition ata_read_sector_auto (lba sector_count buffer drive sector_size_bytes : Z) : A Z :=
  read_auto (λ lba n buf, ata_read_sector_28bit lba n buf drive sector_size_bytes)
    (λ lba n buf, ata_read_sector_48bit lba n buf drive sector_size_bytes) lba sector_count buffer sector_size_bytes.
Definition ata_read_sector_semiauto (lba sector_count buffer base_pmio drive sector_size_bytes : Z) : A Z :=
  read_auto (λ lba n buf, ata_read_sector_28bit_manual lba n buf base_pmio drive sector_size_bytes)
    (λ lba n buf, ata_read_sector_48bit_manual lba n buf base_pmio drive sector_size_bytes) lba sector_count buffer sector_size_bytes.

(** ** Writing *)

Definition flush_with (command io_base drive_head : Z) : A Z :=
  outb (io_base + ATA_REG_DRIVE_HEAD) drive_head;;
  status_delay io_base;;
  outb (io_base + ATA_REG_COMMAND) command;;
  ata_wait_ready io_base false.
Definition ata_flush_cache : Z → Z → A Z := flush_with ATA_CMD_CACHE_FLUSH.
Definition ata_flush_cache_ext : Z → Z → A Z := flush_with ATA_CMD_CACHE_FLUSH_EXT.

Definition ata_write_sector_28bit (lba sector_count buffer drive sector_size_bytes : Z) : A Z :=
  if 2 ^ 28 <=? lba then mret (-3) else
  let io_base := (ata_get_io_and_head drive).1 in
  let drive_head := head_28bit drive lba in
  r ← ata_wait_ready io_base false;
  if negb (r =? 0) then mret (-1) else
  command_28bit io_base drive_head lba sector_count ATA_CMD_WRITE_SECTORS;;
  r ← write_sectors io_base sector_count buffer sector_size_bytes;
  if negb (r =? 0) then mret r else ata_flush_cache io_base drive_head.
Definition ata_write_sector_48bit (lba sector_count buffer drive sector_size_bytes : Z) : A Z :=
  let io_base := (ata_get_io_and_head drive).1 in
  let drive_head := head_48bit drive in
  r ← ata_wait_ready io_base false;
  if negb (r =? 0) then mret (-1) else
  command_48bit io_base drive_head lba sector_count ATA_CMD_WRITE_SECTORS_EXT;;
  r ← write_sectors io_base sector_count buffer sector_size_bytes;
  if negb (r =? 0) then mret r else ata_flush_cache_ext io_base drive_head.
Definition ata_write_sector_auto (lba sector_count buffer drive sector_size_bytes : Z) : A Z :=
  if (lba <? 2 ^ 28) && (sector_count <=? 255)
  then ata_write_sector_28bit (u32 lba) (u8 sector_count) buffer drive sector_size_bytes
  else ata_write_sector_48bit lba sector_count buffer drive sector_size_bytes.

(** ** Identification *)

(** 256 words to [identify_data]. *)
Definition read_identify (io_base identify_data : Z) : A unit :=
  for_loop 256 0 (λ i,
    w ← inw (io_base + ATA_REG_DATA);
    modify (λ s, set_ad_mem (store16 (ad_mem s) (u64 (identify_data + 2 * i)) w) s)).
Definition identify_at (io_base drive_head identify_data : Z) : A Z :=
  outb (io_base + ATA_REG_DRIVE_HEAD) drive_head;;
  status_delay io_base;;
  outb (io_base + ATA_REG_SECCOUNT) 0;;
  outb (io_base + ATA_REG_LBA_LOW) 0;;
  outb (io_base + ATA_REG_LBA_MID) 0;;
  outb (io_base + ATA_REG_LBA_HIGH) 0;;
  outb (io_base + ATA_REG_COMMAND) ATA_CMD_IDENTIFY;;
  r ← ata_wait_ready io_base true;
  if negb (r =? 0) then mret (-1) else
  read_identify io_base identify_data;;
  w ← gets (λ s, load16 (ad_mem s) identify_data);
  mret (if w =? 0 then -2 else 0).
Definition identify_ata (drive identify_data : Z) : A Z :=
  identify_at (ata_get_io_and_head drive).1 (ata_get_io_and_head drive).2 identify_data.
Definition identify_ata_manual (drive identify_data pmio_base : Z) : A Z :=
  identify_at pmio_base (ata_get_io_and_head drive).2 identify_data.
End ata.

(** ** ATAPI drives and the table of storage devices

    Model of src/drivers/storage/atapi.c, of the command packets of scsi.h and
    of stmodule.c, which probes the channels and registers what it finds. *)

Definition ATAPI_CMD_PACKET : Z := 0xA0.
Definition ATAPI_CMD_IDENTIFY : Z := 0xA1.
Definition ATA_REG_FEATURES : Z := 1.

(** ** Command packets (scsi.h): the twelve bytes of the array *)

Definition build_read_capacity_atapi_cmd : list Z := [0x25; 0; 0; 0; 0; 0; 0; 0; 0; 0; 0; 0].
Definition build_read10_atapi_cmd (lba sector_count : Z) : list Z :=
  [0x28; 0; Z.land (Z.shiftr lba 24) 0xFF; Z.land (Z.shiftr lba 16) 0xFF; Z.land (Z.shiftr lba 8) 0xFF; Z.land lba 0xFF;
   0; Z.land (Z.shiftr sector_count 8) 0xFF; Z.land sector_count 0xFF; 0; 0; 0].

(** The bytes as the words that [outsw] sends. *)
Fixpoint packet_words (bytes : list Z) : list Z :=
  match bytes with
  | lo :: hi :: bytes => (lo + 256 * hi) :: packet_words bytes
  | _ => []
  end.

Section atapi.
Context {D : Type} `{Ports D}.
Abbreviation A := (M (ata D)).

(** [ata_io_wait] *)
Definition ata_io_wait (io_base : Z) : A unit := for_loop 4 0 (λ _, inb (io_base + 0x206);; mret tt).

(** Announces a packet with a limit of [bytes] per transfer. *)
Definition send_packet_command (io_base bytes_mid bytes_high command : Z) : A unit :=
  outb (io_base + ATA_REG_FEATURES) 0;;
  outb (io_base + ATA_REG_SECCOUNT) 0;;
  outb (io_base + ATA_REG_LBA_LOW) 0;;
  outb (io_base + ATA_REG_LBA_MID) bytes_mid;;
  outb (io_base + ATA_REG_LBA_HIGH) bytes_high;;
  outb (io_base + ATA_REG_COMMAND) command.

(** The common start: selects the drive, announces the packet and sends it. *)
Definition packet_start (io_base drive_head bytes_mid bytes_high : Z) (packet : list Z) : A Z :=
  outb (io_base + ATA_REG_DRIVE_HEAD) drive_head;;
  r ← ata_wait_ready io_base false;
  if negb (r =? 0) then mret (-1) else
  send_packet_command io_base bytes_mid bytes_high ATAPI_CMD_PACKET;;
  r ← ata_wait_ready io_base true;
  if negb (r =? 0) then
    st ← inb (io_base + ATA_REG_STATUS);
    modify (set_ata_status st);;
    e ← inb (io_base + ATA_REG_ERROR);
    modify (set_ata_error e);;
    mret (-2)
  else outsw (io_base + ATA_REG_DATA) (packet_words packet);; mret 0.

(** [n] words to the 16-bit array [buf] from index [first] (32-bit arithmetic) on. *)
Definition read_words (io_base buf first : Z) (n : nat) : A unit :=
  for_loop n 0 (λ i,
    w ← inw (io_base + ATA_REG_DATA);
    modify (λ s, set_ad_mem (store16 (ad_mem s) (u64 (buf + 2 * u32 (first + i))) w) s)).

Definition atapi_read_at (io_base drive_head lba sector_count buffer sector_size : Z) : A Z :=
  r ← packet_start io_base drive_head 0 8 (build_read10_atapi_cmd lba sector_count);
  if negb (r =? 0) then mret r else
  for_status (Z.to_nat sector_count) 0 (λ s,
    r ← ata_wait_ready io_base true;
    if negb (r =? 0) then mret (-3) else
    read_words io_base buffer (u32 (s * (sector_size / 2))) (Z.to_nat (sector_size / 2));;
    mret 0).
Definition atapi_read_sector (lba sector_count buffer drive sector_size : Z) : A Z :=
  atapi_read_at (ata_get_io_and_head drive).1 (ata_get_io_and_head drive).2 lba sector_count buffer sector_size.
Definition atapi_read_sector_manual (lba sector_count buffer drive pmio_base sector_size : Z) : A Z :=
  atapi_read_at pmio_base (ata_get_io_and_head drive).2 lba sector_count buffer sector_size.

Definition identify_atapi_at (io_base drive_head identify_data : Z) : A Z :=
  outb (io_base + ATA_REG_DRIVE_HEAD) drive_head;;
  ata_io_wait io_base;;
  send_packet_command io_base 0 0 ATAPI_CMD_IDENTIFY;;
  r ← ata_wait_ready io_base true;
  if negb (r =? 0) then mret (-1) else
  read_identify io_base identify_data;;
  mret 0.
Definition identify_atapi (drive identify_data : Z) : A Z :=
  identify_atapi_at (ata_get_io_and_head drive).1 (ata_get_io_and_head drive).2 identify_data.
Definition identify_atapi_manual (drive identify_data pmio_base : Z) : A Z :=
  identify_atapi_at pmio_base (ata_get_io_and_head drive).2 identify_data.

(** [read10_capabillity_buffer_t]: [last_lba] and [sector_size] *)
Definition sizeof_capability : Z := 8.
Definition swap_capability (buffer : Z) : A unit :=
  modify (λ s, set_ad_mem (store32 (ad_mem s) (buffer + 4) (be32toh (load32 (ad_mem s) (buffer + 4)))) s);;
  modify (λ s, set_ad_mem (store32 (ad_mem s) buffer (be32toh (load32 (ad_mem s) buffer))) s).

Definition capacity_start (io_base drive_head : Z) : A Z :=
  packet_start io_base drive_head (Z.land sizeof_capability 0xFF) (Z.land (Z.shiftr sizeof_capability 8) 0xFF)
    build_read_capacity_atapi_cmd.
Definition identify_atapi_useful (buffer drive : Z) : A Z :=
  let io_base := (ata_get_io_and_head drive).1 in
  r ← capacity_start io_base (ata_get_io_and_head drive).2;
  if negb (r =? 0) then mret r else
  r ← ata_wait_ready io_base true;
  if negb (r =? 0) then mret (-3) else
  read_words io_base buffer 0 (Z.to_nat (sizeof_capability / 2));;
  swap_capability buffer;;
  mret 0.
(** The manual version does not wait before it reads. *)
Definition identify_atapi_useful_manual (buffer drive pmio_base : Z) : A Z :=
  r ← capacity_start pmio_base (ata_get_io_and_head drive).2;
  if negb (r =? 0) then mret r else
  read_words pmio_base buffer 0 (Z.to_nat (sizeof_capability / 2));;
  swap_capability buffer;;
  mret 0.
End atapi.

(** ** The table of devices (stmodule.c) *)

Definition MAX_STORAGE_DEVICES : Z := 1028.

(** [legacy_storage_device_t] *)
Record legacy_storage_device := mkDevice { type_identifier : Z; device_data : Z; dev_sector_size : Z }.

(** The first [storage_device_count] entries of [storage_devices]. *)
Record stmodule (D : Type) := mkStmodule { sm_ata : ata D; storage_devices : list legacy_storage_device }.
Arguments mkStmodule {D}.
Arguments sm_ata {D}.
Arguments storage_devices {D}.

Section stmodule.
Context {D : Type} `{Ports D} (pool : Z).
Abbreviation A := (M (stmodule D)).

Definition set_sm_ata (a : ata D) (s : stmodule D) : stmodule D := mkStmodule a (storage_devices s).
Definition in_ata {X} (m : M (ata D) X) : A X := zoom sm_ata set_sm_ata m.
Definition on_mem {X} (m : M memory X) : A X := in_ata (zoom ad_mem set_ad_mem m).

Definition register_device (dev : legacy_storage_device) : A unit := modify (λ s,
  if MAX_STORAGE_DEVICES <=? Z.of_nat (length (storage_devices s)) then s
  else mkStmodule (sm_ata s) (storage_devices s ++ [dev])).

(** A copy of the [size] bytes at [data]; the result of [malloc] is not tested,
    and a copy to a null pointer is undefined. *)
Definition copy_data (data size : Z) : A Z :=
  p ← on_mem (malloc pool size);
  if p =? 0 then fault else
  on_mem (modify (λ m, memcpy_z m p data size));;
  mret p.

(** [identify_data] and [buffer] are the addresses of the local variables,
    [sata_port] what [sata_get_port] returns. *)
Definition storage_init (identify_data buffer sata_port : Z) : A unit :=
  for_loop 2 0 (λ drive,
    r ← in_ata (identify_ata drive identify_data);
    if r =? 0 then p ← copy_data identify_data 512; register_device (mkDevice 80 p 512) else mret tt);;
  for_loop 2 0 (λ drive,
    r ← in_ata (identify_atapi_useful buffer drive);
    if r =? 0 then
      size ← on_mem (gets (λ m, load32 m (buffer + 4)));
      p ← copy_data buffer sizeof_capability;
      register_device (mkDevice 81 p size)
    else mret tt);;
  if negb (sata_port =? 0) then register_device (mkDevice 83 0 512) else mret tt.
End stmodule.
