(* ===== verification/AtaProof.v ===== *)
(** * ATA disks: transfers

    Whatever the device answers, a read ends and stays in its buffer.  Against
    what a drive promises ([AtaChannel]) a read delivers the sectors of the
    disk, and a write stores them. *)
From Stdlib Require Import ZArith Lia.
From stdpp Require Import base option gmap list.
From S2P Require Import Prelude Memory Endian Hoare Io Ata.

(** ** Any device *)

Section any.
Context {D : Type} `{HP : Ports D} (lo hi : Z) (m0 : memory).

(** Outside of [lo, hi) the memory is [m0]. *)
Definition keeps (s : ata D) : Prop := ∀ a, ¬ (lo ≤ a < hi) → load8 (ad_mem s) a = load8 m0 a.
(** Total, within the bounds, with a result in [R]. *)
Definition confined {X} (R : X → Prop) (f : M (ata D) X) : Prop := {{ keeps }} f {{ λ r s, R r ∧ keeps s }}.

Lemma confined_ret {X} (R : X → Prop) x : R x → confined R (mret x).
Proof. intros H. by apply hoare_ret. Qed.
Lemma confined_bind {X Y} (R : X → Prop) (Q : Y → Prop) f g : confined R f → (∀ x, R x → confined Q (g x)) → confined Q (f ≫= g).
Proof. intros Hf Hg. eapply hoare_bind; [exact Hf|]. intros x. by apply hoare_pure, Hg. Qed.
Lemma confined_step {X Y} (Q : Y → Prop) (f : M (ata D) X) g : confined (λ _, True) f → (∀ x, confined Q (g x)) → confined Q (f ≫= g).
Proof. intros Hf Hg. eapply confined_bind; [exact Hf|auto]. Qed.
Lemma confined_if {X} (R : X → Prop) (b : bool) f g : confined R f → confined R g → confined R (if b then f else g).
Proof. by destruct b. Qed.

Lemma confined_outb p v : confined (λ _, True) (outb p v).
Proof. intros s Hs. exists tt, (set_dev (port_outb (u16 p) (u8 v) (ad_dev s)) s). by repeat split. Qed.
Lemma confined_outw p v : confined (λ _, True) (outw p v).
Proof. intros s Hs. exists tt, (set_dev (port_outw (u16 p) (u16 v) (ad_dev s)) s). by repeat split. Qed.
Lemma confined_inb p : confined (λ _, True) (inb p).
Proof. intros s Hs. unfold inb. destruct (port_inb _ _) as [v d]. exists (u8 v), (set_dev d s). by repeat split. Qed.
Lemma confined_inw p : confined (λ _, True) (inw p).
Proof. intros s Hs. unfold inw. destruct (port_inw _ _) as [v d]. exists (u16 v), (set_dev d s). by repeat split. Qed.
Lemma confined_status v : confined (λ _, True) (modify (set_ata_status v)).
Proof. intros s Hs. by exists tt, (set_ata_status v s). Qed.
Lemma confined_error v : confined (λ _, True) (modify (set_ata_error v)).
Proof. intros s Hs. by exists tt, (set_ata_error v s). Qed.
Lemma confined_store a v : lo ≤ a < hi → confined (λ _, True) (modify (λ s : ata D, set_ad_mem (store8 (ad_mem s) a v) s)).
Proof.
  intros Ha s Hs. exists tt, (set_ad_mem (store8 (ad_mem s) a v) s). repeat split. intros b Hb. cbn. rewrite load8_store8_ne; [by apply Hs|]. intros ->. done.
Qed.
Lemma confined_for_loop n i (body : Z → M (ata D) unit) :
  (∀ k, i ≤ k < i + Z.of_nat n → confined (λ _, True) (body k)) → confined (λ _, True) (for_loop n i body).
Proof.
  intros Hb. eapply hoare_conseq; [apply (hoare_for_loop (λ _, keeps)); intros k Hk; eapply hoare_conseq; [by apply Hb|done|]|done|].
  - by intros _ s [_ Hs].
  - done.
Qed.
End any.

#[export] Hint Resolve confined_outb confined_outw confined_inb confined_inw confined_status confined_error : kern.
(** Goes through the code, one access after the other. *)
Ltac confine := repeat match goal with
  | |- confined _ _ _ _ (if _ then _ else _) => apply confined_if
  | |- confined _ _ _ _ (mret _) => apply confined_ret; auto
  | |- confined _ _ _ _ (_ ≫= _) => apply confined_step; [|intros ?]
  | |- confined _ _ _ _ _ => solve [eauto with kern]
  end.

Section any_read.
Context {D : Type} `{HP : Ports D} (lo hi : Z) (m0 : memory).
Abbreviation confined := (confined (D := D) lo hi m0).

Lemma confined_wait n io drq : confined (λ r, r = 0 ∨ r = -1 ∨ r = -2) (wait_loop n io drq).
Proof. induction n as [|n IH]; cbn [wait_loop]; confine; auto. Qed.

Lemma confined_delay io : confined (λ _, True) (status_delay io).
Proof. apply confined_for_loop. intros. confine. Qed.

Lemma confined_command28 io head lba n c : confined (λ _, True) (command_28bit io head lba n c).
Proof. unfold command_28bit. confine. Qed.
Lemma confined_command48 io head lba n c : confined (λ _, True) (command_48bit io head lba n c).
Proof. unfold command_48bit, ata_write_48bit_lba. confine. apply confined_delay. Qed.

(** The results of a read. *)
Definition read_result (r : Z) : Prop := r = 0 ∨ r = -1 ∨ r = -2 ∨ r = -3.

Lemma confined_read_word io buffer idx : 0 ≤ idx → idx + 1 < 2 ^ 31 → lo ≤ buffer + idx → buffer + idx + 1 < hi → 0 ≤ lo → hi ≤ 2 ^ 64 →
  confined (λ _, True) (read_word io buffer idx).
Proof.
  intros Hi Hx Hl Hh H0 H1. unfold read_word. rewrite (proj2 (Z.leb_gt _ _)) by lia. confine.
  - apply confined_store. rewrite u64_small; lia.
  - apply confined_store. rewrite u64_small; lia.
Qed.

Lemma confined_read_sectors io n buffer size : 0 ≤ n → 0 ≤ size → size `mod` 2 = 0 → n * size < 2 ^ 31 →
  lo ≤ buffer → buffer + n * size ≤ hi → 0 ≤ lo → hi ≤ 2 ^ 64 → confined read_result (read_sectors io n buffer size).
Proof.
  intros Hn Hs He Hns Hl Hh H0 H1. unfold read_sectors, transfer. apply for_status_any; [by left|]. intros i Hi. fold (confined read_result).
  apply confined_bind with (λ r, r = 0 ∨ r = -1 ∨ r = -2); [apply confined_wait|]. intros r _. confine; [right; right; by left| |by left].
  apply confined_for_loop. intros k Hk. assert (size = 2 * (size / 2)) as Hsz by zdiv. assert ((size + 1) / 2 = size / 2) as E by zdiv. rewrite E in Hk.
  assert (2 * k + 2 ≤ size) by lia. assert (i * size + size ≤ n * size) by nia.
  apply confined_read_word; nia.
Qed.

Lemma confined_read_28bit io head lba n buffer size : 0 ≤ n → 0 ≤ size → size `mod` 2 = 0 → n * size < 2 ^ 31 →
  lo ≤ buffer → buffer + n * size ≤ hi → 0 ≤ lo → hi ≤ 2 ^ 64 → confined read_result (read_28bit_at io head lba n buffer size).
Proof.
  intros. unfold read_28bit_at. eapply confined_bind; [apply confined_wait|]. intros r _. apply confined_if; [apply confined_ret; right; by left|].
  apply confined_step; [apply confined_command28|intros _]. by apply confined_read_sectors.
Qed.
Lemma confined_read_48bit io head lba n buffer size : 0 ≤ n → 0 ≤ size → size `mod` 2 = 0 → n * size < 2 ^ 31 →
  lo ≤ buffer → buffer + n * size ≤ hi → 0 ≤ lo → hi ≤ 2 ^ 64 → confined read_result (read_48bit_at io head lba n buffer size).
Proof.
  intros. unfold read_48bit_at. eapply confined_bind; [apply confined_wait|]. intros r _. apply confined_if; [apply confined_ret; right; by left|].
  apply confined_step; [apply confined_command48|intros _]. by apply confined_read_sectors.
Qed.

Lemma confined_read_auto (read28 read48 : Z → Z → Z → M (ata D) Z) lba n buffer size :
  (∀ lba' n' b, 0 ≤ n' → lo ≤ b → b + n' * size ≤ hi → n' * size < 2 ^ 31 → confined read_result (read28 lba' n' b)) →
  (∀ lba' n' b, 0 ≤ n' → lo ≤ b → b + n' * size ≤ hi → n' * size < 2 ^ 31 → confined read_result (read48 lba' n' b)) →
  0 ≤ n < 2 ^ 16 → 0 < size → n * size < 2 ^ 31 → lo ≤ buffer → buffer + n * size ≤ hi → 0 ≤ lo → hi ≤ 2 ^ 64 →
  confined read_result (read_auto read28 read48 lba n buffer size).
Proof.
  intros H28 H48 Hn Hs Hns Hl Hh H0 H1. unfold read_auto. destruct ((lba <? 2 ^ 28) && (n <=? 255)) eqn:Ec.
  { apply andb_true_iff in Ec as [_ Ec]. apply Z.leb_le in Ec. rewrite (u8_small n) by lia. apply H28; lia. }
  eapply confined_bind; [|intros r Hr; apply confined_if; [by apply confined_ret|apply H48; lia]].
  apply confined_if; [|apply confined_ret; by left]. unfold read_chunks. apply for_status_any; [by left|]. intros k Hk. fold (confined read_result). cbv zeta.
  assert (255 * k < n) as Hkn by zdiv. rewrite (u16_small (n - 255 * k)) by lia.
  set (c := if 255 <? n - 255 * k then 255 else n - 255 * k). assert (0 < c ≤ 255 ∧ 255 * k + c ≤ n) as [Hc Hkc].
  { unfold c. destruct (Z.ltb_spec 255 (n - 255 * k)); lia. }
  assert ((255 * k + c) * size ≤ n * size) by nia. assert (0 ≤ 255 * k * size) by nia. assert (0 < c * size) by nia.
  rewrite (u8_small c), (u32_small (255 * k * size)), u64_small by lia. apply H28; lia.
Qed.
End any_read.

(** Whatever the device on the channel answers, [ata_read_sector_auto] ends with 0 or one of its three error codes and
    writes nothing outside of the buffer. *)
Theorem ata_read_confined {D} `{Ports D} (s : ata D) lba n buffer drive size :
  0 ≤ n < 2 ^ 16 → 0 < size → size `mod` 2 = 0 → n * size < 2 ^ 31 → 0 ≤ buffer → buffer + n * size ≤ 2 ^ 64 →
  ∃ r s', ata_read_sector_auto lba n buffer drive size s = Ok (r, s') ∧ r ∈ [0; -1; -2; -3] ∧
    ∀ a, ¬ (buffer ≤ a < buffer + n * size) → load8 (ad_mem s') a = load8 (ad_mem s) a.
Proof.
  intros Hn Hs He Hns Hb Hh.
  destruct (confined_read_auto (D := D) buffer (buffer + n * size) (ad_mem s)
    (λ lba n buf, ata_read_sector_28bit lba n buf drive size) (λ lba n buf, ata_read_sector_48bit lba n buf drive size)
    lba n buffer size) with (s := s) as (r & s' & E & Hr & Hk); try done; try lia.
  - intros. unfold ata_read_sector_28bit. apply confined_if; [apply confined_ret; by right; right; right|].
    apply confined_read_28bit; try done; lia.
  - intros. apply confined_read_48bit; try done; lia.
  - exists r, s'. split; [exact E|]. split; [|exact Hk]. unfold read_result in Hr. set_solver.
Qed.

(** ** A channel with drives

    What the ATA standard says of the commands in use.  The disks are addressed
    by byte; [c_disk true] is the second drive of the channel.  The registers of
    the address hold the last value and the one before it. *)
Inductive phase :=
| Idle
| DataIn (words : list Z)         (* the words to be read *)
| DataOut (lba left : Z).         (* the words from [256 * lba] on, [left] of them *)

Record chan := mkChan {
  c_disk : bool → Z → Z; c_count : Z * Z; c_low : Z * Z; c_mid : Z * Z; c_high : Z * Z; c_head : Z; c_phase : phase }.

Definition set_phase (p : phase) (c : chan) : chan := mkChan (c_disk c) (c_count c) (c_low c) (c_mid c) (c_high c) (c_head c) p.
Definition selected (c : chan) : bool := Z.testbit (c_head c) 4.
Definition word_at (disk : Z → Z) (w : Z) : Z := disk (2 * w) + 256 * disk (2 * w + 1).
Definition words_from (disk : Z → Z) (w : Z) (n : nat) : list Z := word_at disk <$> seqZ w (Z.of_nat n).

Definition lba28 (c : chan) : Z := (c_low c).1 + 2 ^ 8 * (c_mid c).1 + 2 ^ 16 * (c_high c).1 + 2 ^ 24 * (c_head c `mod` 16).
Definition count28 (c : chan) : Z := if (c_count c).1 =? 0 then 256 else (c_count c).1.
Definition lba48 (c : chan) : Z :=
  (c_low c).1 + 2 ^ 8 * (c_mid c).1 + 2 ^ 16 * (c_high c).1 + 2 ^ 24 * (c_low c).2 + 2 ^ 32 * (c_mid c).2 + 2 ^ 40 * (c_high c).2.
Definition count48 (c : chan) : Z := let n := (c_count c).1 + 2 ^ 8 * (c_count c).2 in if n =? 0 then 65536 else n.

(** The commands of the driver, when they are in order. *)
Definition command_ok (c : chan) (v : Z) : Prop :=
  Z.testbit (c_head c) 6 = true ∧ c_phase c = Idle ∧
  ((v = 0x20 ∨ v = 0x30) ∧ lba28 c + count28 c ≤ 2 ^ 28 ∨ (v = 0x24 ∨ v = 0x34) ∧ lba48 c + count48 c ≤ 2 ^ 48 ∨ v = 0xE7 ∨ v = 0xEA).
Definition run_command (c : chan) (v : Z) : phase :=
  if v =? 0x20 then DataIn (words_from (c_disk c (selected c)) (256 * lba28 c) (Z.to_nat (256 * count28 c)))
  else if v =? 0x24 then DataIn (words_from (c_disk c (selected c)) (256 * lba48 c) (Z.to_nat (256 * count48 c)))
  else if v =? 0x30 then DataOut (256 * lba28 c) (256 * count28 c)
  else if v =? 0x34 then DataOut (256 * lba48 c) (256 * count48 c)
  else Idle.

Definition write_reg (reg v : Z) (c : chan) : chan :=
  if reg =? 2 then mkChan (c_disk c) (v, (c_count c).1) (c_low c) (c_mid c) (c_high c) (c_head c) (c_phase c)
  else if reg =? 3 then mkChan (c_disk c) (c_count c) (v, (c_low c).1) (c_mid c) (c_high c) (c_head c) (c_phase c)
  else if reg =? 4 then mkChan (c_disk c) (c_count c) (c_low c) (v, (c_mid c).1) (c_high c) (c_head c) (c_phase c)
  else if reg =? 5 then mkChan (c_disk c) (c_count c) (c_low c) (c_mid c) (v, (c_high c).1) (c_head c) (c_phase c)
  else if reg =? 6 then mkChan (c_disk c) (c_count c) (c_low c) (c_mid c) (c_high c) v (c_phase c)
  else set_phase (run_command c v) c.

(** A word for the disk: the place is [w]. *)
Definition put_word (disk : Z → Z) (w v : Z) : Z → Z := λ a,
  if a =? 2 * w then v `mod` 256 else if a =? 2 * w + 1 then v / 256 else disk a.
Definition set_disk (b : bool) (f : Z → Z) (c : chan) : chan :=
  mkChan (λ x, if eqb x b then f else c_disk c x) (c_count c) (c_low c) (c_mid c) (c_high c) (c_head c) (c_phase c).

Definition drq (c : chan) : bool := match c_phase c with Idle => false | _ => true end.

(** The device is busy for some polls of the status register after a command
    and between sectors; while it is busy no other register may be used. *)
Class AtaChannel (D : Type) `{Ports D} (io : Z) := {
  chan_of : D → chan;
  busy : D → nat;
  busy_bound : ∀ d, Z.of_nat (busy d) < 100000;
  ch_outb : ∀ d reg v, busy d = 0%nat → 2 ≤ reg ≤ 7 → 0 ≤ v < 256 → (reg = 7 → command_ok (chan_of d) v) →
    let d' := port_outb (io + reg) v d in chan_of d' = write_reg reg v (chan_of d) ∧ (reg ≠ 7 → busy d' = 0%nat);
  ch_status : ∀ d, ∃ st d', port_inb (io + 7) d = (st, d') ∧ chan_of d' = chan_of d ∧ busy d' = pred (busy d) ∧
    0 ≤ st < 256 ∧ Z.testbit st 0 = false ∧ Z.testbit st 7 = negb (busy d =? 0)%nat ∧
    (busy d = 0%nat → Z.testbit st 3 = drq (chan_of d));
  ch_inw : ∀ d w ws, busy d = 0%nat → c_phase (chan_of d) = DataIn (w :: ws) → ∃ d', port_inw io d = (w, d') ∧
    chan_of d' = set_phase (match ws with [] => Idle | _ => DataIn ws end) (chan_of d) ∧
    ((length ws `mod` 256)%nat ≠ 0%nat → busy d' = 0%nat);
  ch_outw : ∀ d v w left, busy d = 0%nat → c_phase (chan_of d) = DataOut w left → 0 ≤ v < 65536 →
    let d' := port_outw io v d in let c := chan_of d in
    chan_of d' = set_phase (if left =? 1 then Idle else DataOut (w + 1) (left - 1))
      (set_disk (selected c) (put_word (c_disk c (selected c)) w v) c) ∧
    ((left - 1) `mod` 256 ≠ 0 → busy d' = 0%nat);
}.

Section drive.
Context {D : Type} `{HP : Ports D} (io : Z) `{HA : !AtaChannel D io} (Hio : 0 ≤ io < 65000).
Implicit Types (s : ata D) (m : memory) (c : chan).

(** The memory, the channel, and with [ready] that the device is not busy. *)
Definition at_state (m : memory) (c : chan) (ready : bool) (s : ata D) : Prop :=
  ad_mem s = m ∧ chan_of (ad_dev s) = c ∧ (ready = true → busy (ad_dev s) = 0%nat).

Lemma outb_ok m c reg v : 2 ≤ reg ≤ 6 → 0 ≤ v < 256 →
  {{ at_state m c true }} outb (io + reg) v {{ λ _, at_state m (write_reg reg v c) true }}.
Proof.
  intros Hr Hv s (<- & <- & Hb). specialize (Hb eq_refl). destruct (ch_outb (ad_dev s) reg v Hb) as [E Hb']; [lia|done|lia|].
  eexists _, _. split; [reflexivity|]. unfold at_state. cbn. rewrite (u16_small (io + reg)), (u8_small v) by lia. splits; [done|done|]. intros _. apply Hb'. lia.
Qed.
Lemma command_step m c v : 0 ≤ v < 256 → command_ok c v →
  {{ at_state m c true }} outb (io + ATA_REG_COMMAND) v {{ λ _, at_state m (set_phase (run_command c v) c) false }}.
Proof.
  intros Hv Hok s (<- & <- & Hb). specialize (Hb eq_refl). destruct (ch_outb (ad_dev s) 7 v Hb) as [E _]; [lia|done|done|].
  eexists _, _. split; [reflexivity|]. unfold at_state, ATA_REG_COMMAND. cbn. rewrite (u16_small (io + 7)), (u8_small v) by lia. splits; [done|done|done].
Qed.

Lemma inb_status_ok m c b : {{ at_state m c b }} inb (io + ATA_REG_STATUS) {{ λ _, at_state m c b }}.
Proof.
  intros s (<- & <- & Hb). destruct (ch_status (ad_dev s)) as (st & d' & E & Ec & Eb & _). exists (u8 st), (set_dev d' s). unfold inb, ATA_REG_STATUS. rewrite (u16_small (io + 7)) by lia.
  cbn [the_dev ata_dev]. rewrite E. split; [done|]. unfold at_state. cbn. splits; [done|done|]. intros H. rewrite Eb, Hb by done. done.
Qed.

Lemma delay_ok m c b : {{ at_state m c b }} status_delay io {{ λ _, at_state m c b }}.
Proof.
  unfold status_delay. apply (hoare_for_loop (λ _, at_state m c b)). intros i _. eapply hoare_bind; [apply inb_status_ok|]. intros ?. by apply hoare_ret.
Qed.

Lemma land_bit st k : 0 ≤ k → (Z.land st (2 ^ k) =? 0) = negb (Z.testbit st k).
Proof. intros Hk. rewrite <-shiftl_1 by done. by apply land_bit_eqb. Qed.

Lemma wait_ok m c needs : (needs = true → drq c = true) →
  {{ at_state m c false }} ata_wait_ready io needs {{ λ r s, r = 0 ∧ at_state m c true s }}.
Proof.
  intros Hn. unfold ata_wait_ready. assert (En : Z.of_nat (Z.to_nat 100000) = 100000) by lia. revert En. generalize (Z.to_nat 100000).
  intros n0 En s (<- & <- & _).
  assert (Hl : (busy (ad_dev s) < n0)%nat) by (pose proof (busy_bound (ad_dev s)); lia). clear En. revert s Hn Hl.
  induction n0 as [|n IH]; intros s Hn Hl; [lia|]. cbn [wait_loop].
  destruct (ch_status (ad_dev s)) as (st & d' & E & Ec & Eb & Hst & E0 & E7 & E3).
  assert (Ei : inb (io + ATA_REG_STATUS) s = Ok (st, set_dev d' s)).
  { unfold inb, ATA_REG_STATUS. rewrite (u16_small (io + 7)) by lia. cbn [the_dev ata_dev]. rewrite E. by rewrite u8_small. }
  setoid_rewrite (bind_ok _ _ _ _ _ Ei). rewrite (bind_ok _ _ _ tt (set_ata_status st (set_dev d' s))) by done.
  change 0x01 with (2 ^ 0). change 0x80 with (2 ^ 7). change 0x08 with (2 ^ 3). rewrite !land_bit, E0, E7 by lia. cbn [negb].
  destruct (busy (ad_dev s)) as [|k] eqn:Ek.
  - cbn [Nat.eqb negb andb]. rewrite E3 by done.
    assert (negb needs || negb (negb (drq (chan_of (ad_dev s)))) = true) as ->.
    { destruct needs; [|done]. by rewrite Hn. }
    eexists _, _. split; [reflexivity|]. unfold at_state. cbn. splits; [done|done|done|]. intros _. by rewrite Eb.
  - cbn [Nat.eqb negb andb]. destruct (IH (set_ata_status st (set_dev d' s))) as (r & s' & E' & Er & Em & Ech & Hb).
    + cbn. by rewrite Ec.
    + cbn. rewrite Eb. cbn. lia.
    + exists r, s'. split; [exact E'|]. cbn in Em, Ech. rewrite Ec in Ech. done.
Qed.

(** *** Data to memory *)

(** The first [k] of the words [W] are at [buffer], the rest is as in [m0]. *)
Definition copied (W : list Z) (m0 : memory) (buffer k : Z) (m : memory) : Prop :=
  (∀ i w, 0 ≤ i < k → W !! Z.to_nat i = Some w → load8 m (buffer + 2 * i) = w `mod` 256 ∧ load8 m (buffer + 2 * i + 1) = w / 256) ∧
  ∀ a, ¬ (buffer ≤ a < buffer + 2 * k) → load8 m a = load8 m0 a.
Definition rest (W : list Z) (k : Z) : phase := match drop (Z.to_nat k) W with [] => Idle | l => DataIn l end.
Definition reading (W : list Z) (m0 : memory) (buffer : Z) (c : chan) (k : Z) (ready : bool) (s : ata D) : Prop :=
  ∃ m, copied W m0 buffer k m ∧ at_state m (set_phase (rest W k) c) ready s.

Lemma copied_step W m0 buffer k m w : 0 ≤ k → W !! Z.to_nat k = Some w → 0 ≤ w < 65536 → copied W m0 buffer k m →
  copied W m0 buffer (k + 1) (store8 (store8 m (buffer + 2 * k) (w `mod` 256)) (buffer + 2 * k + 1) (w / 256)).
Proof.
  intros Hk Ew Hw [H1 H2]. split.
  - intros i w' Hi Ew'. destruct (decide (i = k)) as [->|Hne].
    + assert (w' = w) as -> by congruence. rewrite load8_store8_ne, !load8_store8_eq by lia. rewrite !u8_small by zdiv. done.
    + rewrite !load8_store8_ne by lia. apply H1; [lia|done].
  - intros a Ha. rewrite !load8_store8_ne by lia. apply H2. lia.
Qed.

Lemma read_word_ok W m0 buffer c k : (length W `mod` 256)%nat = 0%nat → 0 ≤ k < Z.of_nat (length W) → (∀ w, w ∈ W → 0 ≤ w < 65536) →
  0 ≤ buffer → buffer + 2 * Z.of_nat (length W) ≤ 2 ^ 64 → 2 * Z.of_nat (length W) < 2 ^ 31 →
  {{ reading W m0 buffer c k true }} read_word io buffer (2 * k) {{ λ _, reading W m0 buffer c (k + 1) (negb ((k + 1) `mod` 256 =? 0)) }}.
Proof.
  intros H256 Hk HW Hb0 Hb1 Hl s (m & Hcp & Em & Ec & Hr). specialize (Hr eq_refl).
  destruct (lookup_lt_is_Some_2 W (Z.to_nat k)) as [w Ew]; [lia|]. assert (Hw : 0 ≤ w < 65536) by (apply HW; by eapply list_elem_of_lookup_2).
  assert (Ed : drop (Z.to_nat k) W = w :: drop (Z.to_nat (k + 1)) W) by (rewrite (drop_S W w (Z.to_nat k) Ew); do 2 f_equal; lia).
  destruct (ch_inw (ad_dev s) w (drop (Z.to_nat (k + 1)) W) Hr) as (d' & E & Ec' & Hr'). { rewrite Ec. cbn. unfold rest. by rewrite Ed. }
  unfold read_word. rewrite (proj2 (Z.leb_gt _ _)) by lia.
  assert (Ei : inw (io + ATA_REG_DATA) s = Ok (w, set_dev d' s)).
  { unfold inw, ATA_REG_DATA. rewrite Z.add_0_r, (u16_small io) by lia. cbn [the_dev ata_dev]. rewrite E. by rewrite u16_small. }
  rewrite (bind_ok _ _ _ _ _ Ei). eexists tt, _. split; [reflexivity|]. eexists. split; [|split; [reflexivity|]].
  - cbn. rewrite !u64_small by lia. rewrite Em. change 0xFF with (2 ^ 8 - 1). rewrite land_ones_mod by lia. rewrite Z.shiftr_div_pow2 by lia.
    apply copied_step; [lia|done|done|done].
  - cbn. rewrite Ec', Ec. split; [unfold rest; by destruct (drop (Z.to_nat (k + 1)) W)|]. intros Hn. apply Hr'. apply negb_true_iff, Z.eqb_neq in Hn. rewrite length_drop. intros Hz. apply Hn.
    apply Nat2Z.inj_iff in Hz, H256. rewrite Nat2Z.inj_mod in Hz, H256. zdiv.
Qed.

Lemma reading_weaken W m0 buffer c k b s : reading W m0 buffer c k b s → reading W m0 buffer c k false s.
Proof. intros (m & H & Em & Ec & _). by exists m. Qed.

Lemma read_sectors_ok W m0 buffer c n : 0 ≤ n → Z.of_nat (length W) = 256 * n → (∀ w, w ∈ W → 0 ≤ w < 65536) →
  0 ≤ buffer → buffer + 512 * n ≤ 2 ^ 64 → 512 * n < 2 ^ 31 →
  {{ at_state m0 (set_phase (rest W 0) c) false }} read_sectors io n buffer 512
  {{ λ r s, r = 0 ∧ ∃ m, copied W m0 buffer (256 * n) m ∧ at_state m (set_phase Idle c) false s }}.
Proof.
  intros Hn HL HW Hb0 Hb1 Hl. assert (H256 : (length W `mod` 256)%nat = 0%nat) by (apply Nat2Z.inj_iff; rewrite Nat2Z.inj_mod, HL; zdiv).
  unfold read_sectors, transfer. change (Z.to_nat ((512 + 1) / 2)) with 256%nat. eapply hoare_conseq.
  - apply (for_status_ok (λ i, reading W m0 buffer c (256 * i) false)). intros i Hi.
    apply hoare_state. intros s0 (m & Hm & Hs0). eapply hoare_bind.
    { eapply hoare_conseq; [apply (wait_ok m (set_phase (rest W (256 * i)) c) true)|intros s ->; exact Hs0|intros r s Hs; exact Hs].
      intros _. unfold drq, rest. cbn. destruct (drop (Z.to_nat (256 * i)) W) eqn:E; [|done]. apply (f_equal length) in E. rewrite length_drop in E. cbn in E. lia. }
    intros r. apply hoare_pure. intros ->. cbn [Z.eqb negb]. eapply hoare_bind.
    { eapply hoare_conseq; [apply (hoare_for_loop (λ j, reading W m0 buffer c (256 * i + j) (j <? 256)))
        |intros s Hs; rewrite Z.add_0_r; by exists m|intros x s Hs; exact Hs]. intros j Hj.
      replace (i * 512 + 2 * j) with (2 * (256 * i + j)) by lia. rewrite (proj2 (Z.ltb_lt j 256)) by lia.
      eapply hoare_conseq; [apply (read_word_ok W m0 buffer c (256 * i + j)); [done|lia|done|lia|lia|lia]|done|].
      intros u s Hs. rewrite <-Z.add_assoc in Hs. destruct (Z.ltb_spec (j + 1) 256); [|by eapply reading_weaken].
      by rewrite (proj2 (Z.eqb_neq _ 0)) in Hs by zdiv. }
    intros u. apply hoare_ret. intros s Hs. cbv beta in Hs. split; [done|]. apply reading_weaken in Hs. by replace (256 * (i + 1)) with (256 * i + (0 + Z.of_nat 256)) by lia.
  - intros s Hs. exists m0. split; [|done]. split; [intros; lia|done].
  - intros r s [-> (m & Hm & Hs)]. split; [done|]. replace (256 * (0 + Z.of_nat (Z.to_nat n))) with (256 * n) in * by lia. exists m. split; [done|].
    unfold rest in Hs. by rewrite drop_ge in Hs by lia.
Qed.

(** *** Commands *)

(** The second drive is meant. *)
Definition slave (drive : Z) : bool := negb (Z.land drive 1 =? 0).

Lemma head_fields drive x : 0 ≤ x < 16 → let h := Z.lor (ata_get_io_and_head drive).2 x in
  0 ≤ h < 256 ∧ h `mod` 16 = x ∧ Z.testbit h 6 = true ∧ Z.testbit h 4 = slave drive.
Proof.
  intros Hx. unfold ata_get_io_and_head, slave. cbn [snd].
  assert (x ∈ seqZ 0 16) as Hin by (apply elem_of_seqZ; lia). revert Hin. vm_compute (seqZ 0 16). rewrite !elem_of_cons, elem_of_nil.
  destruct (Z.land drive 1 =? 0); intros Hin; destruct_or!; subst; try done; vm_compute; by repeat split.
Qed.

Definition with28 (c : chan) (head lba n : Z) : chan :=
  mkChan (c_disk c) (n, (c_count c).1) (lba `mod` 2 ^ 8, (c_low c).1) ((lba / 2 ^ 8) `mod` 2 ^ 8, (c_mid c).1)
    ((lba / 2 ^ 16) `mod` 2 ^ 8, (c_high c).1) head (c_phase c).
Definition with48 (c : chan) (head lba n : Z) : chan :=
  mkChan (c_disk c) (n `mod` 2 ^ 8, (n / 2 ^ 8) `mod` 2 ^ 8) (lba `mod` 2 ^ 8, (lba / 2 ^ 24) `mod` 2 ^ 8)
    ((lba / 2 ^ 8) `mod` 2 ^ 8, (lba / 2 ^ 32) `mod` 2 ^ 8) ((lba / 2 ^ 16) `mod` 2 ^ 8, (lba / 2 ^ 40) `mod` 2 ^ 8) head (c_phase c).

Lemma head48_fields drive : let h := head_48bit drive in 0 ≤ h < 256 ∧ Z.testbit h 6 = true ∧ Z.testbit h 4 = slave drive.
Proof. unfold head_48bit, ata_get_io_and_head, slave. cbn [snd]. by destruct (Z.land drive 1 =? 0). Qed.
Lemma count48_with c head lba n : 0 < n < 65536 → count48 (with48 c head lba n) = n.
Proof.
  intros Hn. unfold count48, with48. cbn [c_count fst snd]. assert (n `mod` 2 ^ 8 + 2 ^ 8 * ((n / 2 ^ 8) `mod` 2 ^ 8) = n) as -> by zdiv.
  by rewrite (proj2 (Z.eqb_neq n 0)) by lia.
Qed.

Lemma land_byte x k : 0 ≤ k → Z.land (Z.shiftr x k) 0xFF = (x / 2 ^ k) `mod` 2 ^ 8.
Proof. intros. change 0xFF with (2 ^ 8 - 1). by rewrite land_ones_mod, Z.shiftr_div_pow2 by lia. Qed.
Lemma land_byte_0 x : Z.land x 0xFF = x `mod` 2 ^ 8.
Proof. change 0xFF with (2 ^ 8 - 1). by rewrite land_ones_mod by lia. Qed.
Lemma byte_mod x : 0 ≤ x `mod` 2 ^ 8 < 256.
Proof. apply (Z.mod_pos_bound x 256). lia. Qed.

(** The registers hold the address and the count. *)
Lemma with28_fields c drive lba n : 0 < n < 256 → 0 ≤ lba < 2 ^ 28 → let h := head_28bit drive lba in let c1 := with28 c h lba n in
  0 ≤ h < 256 ∧ Z.testbit h 6 = true ∧ Z.testbit h 4 = slave drive ∧ lba28 c1 = lba ∧ count28 c1 = n.
Proof.
  intros Hn Hlba. cbv zeta.
  assert (Ex : Z.land (Z.shiftr lba 24) 0x0F = lba / 2 ^ 24) by (change 0x0F with (2 ^ 4 - 1); rewrite land_ones_mod, Z.shiftr_div_pow2 by lia; zdiv).
  destruct (head_fields drive (lba / 2 ^ 24)) as (Hh & Em & E6 & E4); [zdiv|]. rewrite <-Ex in Hh, Em, E6, E4. fold (head_28bit drive lba) in Hh, Em, E6, E4.
  split; [done|split; [done|split; [done|split]]].
  - unfold lba28, with28. cbn [c_low c_mid c_high c_head fst]. rewrite Em, Ex. zdiv.
  - unfold count28. cbn. by rewrite (proj2 (Z.eqb_neq n 0)) by lia.
Qed.
Lemma with48_fields c drive lba n : 0 < n < 65536 → 0 ≤ lba < 2 ^ 48 → let h := head_48bit drive in let c1 := with48 c h lba n in
  0 ≤ h < 256 ∧ Z.testbit h 6 = true ∧ Z.testbit h 4 = slave drive ∧ lba48 c1 = lba ∧ count48 c1 = n.
Proof.
  intros Hn Hlba. destruct (head48_fields drive) as (Hh & E6 & E4). cbv zeta. split; [done|split; [done|split; [done|split]]].
  - unfold lba48, with48. cbn [c_low c_mid c_high fst snd]. zdiv.
  - by apply count48_with.
Qed.

Lemma command_28bit_ok m c head lba n cmd : 0 ≤ head < 256 → 0 ≤ n < 256 → 0 ≤ cmd < 256 → command_ok (with28 c head lba n) cmd →
  {{ at_state m c true }} command_28bit io head lba n cmd
  {{ λ _, at_state m (set_phase (run_command (with28 c head lba n) cmd) (with28 c head lba n)) false }}.
Proof.
  intros Hh Hn Hcmd Hok. unfold command_28bit. rewrite !land_byte, land_byte_0 by lia.
  do 5 (eapply hoare_bind; [apply outb_ok; [unfold ATA_REG_DRIVE_HEAD, ATA_REG_SECCOUNT, ATA_REG_LBA_LOW, ATA_REG_LBA_MID, ATA_REG_LBA_HIGH; lia|first [apply byte_mod|lia]]|intros ?; cbv beta]).
  by apply command_step.
Qed.
Lemma command_48bit_ok m c head lba n cmd : 0 ≤ head < 256 → 0 ≤ cmd < 256 → command_ok (with48 c head lba n) cmd →
  {{ at_state m c true }} command_48bit io head lba n cmd
  {{ λ _, at_state m (set_phase (run_command (with48 c head lba n) cmd) (with48 c head lba n)) false }}.
Proof.
  intros Hh Hcmd Hok. unfold command_48bit, ata_write_48bit_lba. rewrite !land_byte, !land_byte_0 by lia.
  eapply hoare_bind; [apply outb_ok; [unfold ATA_REG_DRIVE_HEAD; lia|done]|intros u; cbv beta]. eapply hoare_bind; [apply delay_ok|intros u1; cbv beta].
  eapply hoare_bind; [|intros u2; by apply command_step].
  do 7 (eapply hoare_bind; [apply outb_ok; [unfold ATA_REG_SECCOUNT, ATA_REG_LBA_LOW, ATA_REG_LBA_MID, ATA_REG_LBA_HIGH; lia|apply byte_mod]|intros ?; cbv beta]).
  apply outb_ok; [unfold ATA_REG_LBA_HIGH; lia|apply byte_mod].
Qed.

(** *** Whole reads *)

Definition idle (disk : bool → Z → Z) (m : memory) (s : ata D) : Prop :=
  ∃ c, at_state m c false s ∧ c_phase c = Idle ∧ c_disk c = disk.
(** The sectors from [lba] on are at [buffer]; the rest of the memory is as in [m0]. *)
Definition loaded (disk : Z → Z) (lba buffer n : Z) (m0 m : memory) : Prop :=
  (∀ i, 0 ≤ i < 512 * n → load8 m (buffer + i) = disk (512 * lba + i)) ∧
  ∀ a, ¬ (buffer ≤ a < buffer + 512 * n) → load8 m a = load8 m0 a.
Definition disk_ok (disk : Z → Z) : Prop := ∀ a, 0 ≤ disk a < 256.

Lemma copied_loaded disk lba buffer n m0 m : disk_ok disk → 0 ≤ n →
  copied (words_from disk (256 * lba) (Z.to_nat (256 * n))) m0 buffer (256 * n) m → loaded disk lba buffer n m0 m.
Proof.
  intros Hd Hn [H1 H2]. split; [|intros a Ha; apply H2; lia]. intros i Hi.
  destruct (H1 (i / 2) (word_at disk (256 * lba + i / 2))) as [Ha Hb]; [zdiv| |].
  { unfold words_from. rewrite list_lookup_fmap, lookup_seqZ_lt by zdiv. cbn. do 2 f_equal. zdiv. }
  pose proof (Hd (2 * (256 * lba + i / 2))) as D1. pose proof (Hd (2 * (256 * lba + i / 2) + 1)) as D2. unfold word_at in *.
  destruct (decide (i `mod` 2 = 0)) as [E|E].
  - replace i with (2 * (i / 2)) at 1 by zdiv. rewrite Ha. replace (2 * (256 * lba + i / 2)) with (512 * lba + i) in * by zdiv. zdiv.
  - replace (buffer + i) with (buffer + 2 * (i / 2) + 1) by zdiv. rewrite Hb. replace (2 * (256 * lba + i / 2) + 1) with (512 * lba + i) in * by zdiv. zdiv.
Qed.
Lemma words_from_range disk w n : disk_ok disk → ∀ x, x ∈ words_from disk w n → 0 ≤ x < 65536.
Proof. intros Hd x (y & -> & _)%list_elem_of_fmap. unfold word_at. pose proof (Hd (2 * y)). pose proof (Hd (2 * y + 1)). lia. Qed.
Lemma words_from_length disk w n : length (words_from disk w n) = n.
Proof. unfold words_from. rewrite length_fmap, length_seqZ. lia. Qed.
Lemma rest_0 disk w n : 0 < n → rest (words_from disk w (Z.to_nat n)) 0 = DataIn (words_from disk w (Z.to_nat n)).
Proof.
  intros Hn. unfold rest. cbn [Z.to_nat drop]. destruct (words_from disk w (Z.to_nat n)) eqn:E; [|done].
  apply (f_equal length) in E. rewrite words_from_length in E. cbn in E. lia.
Qed.

(** The data phase of a read. *)
Lemma data_in_ok disk m0 buffer c lba n : disk_ok disk → 0 < n < 65536 → 0 ≤ buffer → buffer + 512 * n ≤ 2 ^ 64 →
  {{ at_state m0 (set_phase (DataIn (words_from disk (256 * lba) (Z.to_nat (256 * n)))) c) false }} read_sectors io n buffer 512
  {{ λ r s, r = 0 ∧ ∃ m, loaded disk lba buffer n m0 m ∧ idle (c_disk c) m s }}.
Proof.
  intros Hd Hn H0 H1. rewrite <-rest_0 by lia. eapply hoare_conseq; [apply (read_sectors_ok (words_from disk (256 * lba) (Z.to_nat (256 * n))) m0 buffer c n)| |]; try lia; [|by apply words_from_range|done|].
  - rewrite words_from_length. lia.
  - intros r s [-> (m & Hm & Hs)]. split; [done|]. exists m. split; [apply copied_loaded; [done|lia|done]|]. by exists (set_phase Idle c).
Qed.

Lemma read_28bit_ok disk m0 buffer drive lba n : disk_ok (disk (slave drive)) → 0 < n < 256 → 0 ≤ lba → lba + n ≤ 2 ^ 28 →
  0 ≤ buffer → buffer + 512 * n ≤ 2 ^ 64 →
  {{ idle disk m0 }} read_28bit_at io (head_28bit drive lba) lba n buffer 512
  {{ λ r s, r = 0 ∧ ∃ m, loaded (disk (slave drive)) lba buffer n m0 m ∧ idle disk m s }}.
Proof.
  intros Hd Hn Hlba Hmax H0 H1. apply hoare_state. intros s0 (c & Hs0 & Hp & Ed). unfold read_28bit_at.
  eapply hoare_bind; [eapply hoare_conseq; [apply (wait_ok m0 c false); done|intros s ->; exact Hs0|intros r s H; exact H]|]. intros r.
  apply hoare_pure. intros ->. cbn [Z.eqb negb].
  destruct (with28_fields c drive lba n) as (Hh & E6 & E4 & El & En); [lia|lia|]. set (h := head_28bit drive lba) in *. set (c1 := with28 c h lba n) in *.
  eapply hoare_bind; [apply command_28bit_ok; [done|lia|done|]|].
  { fold c1. split; [done|]. split; [done|]. left. rewrite El, En. split; [by left|done]. }
  intros u. fold c1. change (run_command c1 ATA_CMD_READ_SECTORS) with (DataIn (words_from (c_disk c1 (selected c1)) (256 * lba28 c1) (Z.to_nat (256 * count28 c1)))).
  rewrite El, En. change (c_disk c1 (selected c1)) with (c_disk c (Z.testbit h 4)). rewrite E4, Ed.
  eapply hoare_conseq; [apply (data_in_ok (disk (slave drive)) m0 buffer c1 lba n); [done|lia|done|done]|done|].
  change (c_disk c1) with (c_disk c). rewrite Ed. done.
Qed.

Lemma read_48bit_ok disk m0 buffer drive lba n : disk_ok (disk (slave drive)) → 0 < n < 65536 → 0 ≤ lba → lba + n ≤ 2 ^ 48 →
  0 ≤ buffer → buffer + 512 * n ≤ 2 ^ 64 →
  {{ idle disk m0 }} read_48bit_at io (head_48bit drive) lba n buffer 512
  {{ λ r s, r = 0 ∧ ∃ m, loaded (disk (slave drive)) lba buffer n m0 m ∧ idle disk m s }}.
Proof.
  intros Hd Hn Hlba Hmax H0 H1. apply hoare_state. intros s0 (c & Hs0 & Hp & Ed). unfold read_48bit_at.
  eapply hoare_bind; [eapply hoare_conseq; [apply (wait_ok m0 c false); done|intros s ->; exact Hs0|intros r s H; exact H]|]. intros r.
  apply hoare_pure. intros ->. cbn [Z.eqb negb].
  destruct (with48_fields c drive lba n) as (Hh & E6 & E4 & El & En); [lia|lia|]. set (h := head_48bit drive) in *. set (c1 := with48 c h lba n) in *.
  eapply hoare_bind; [apply command_48bit_ok; [done|done|]|].
  { fold c1. split; [done|]. split; [done|]. right. left. rewrite El, En. split; [by left|done]. }
  intros u. fold c1. change (run_command c1 ATA_CMD_READ_SECTORS_EXT) with (DataIn (words_from (c_disk c1 (selected c1)) (256 * lba48 c1) (Z.to_nat (256 * count48 c1)))).
  rewrite El, En. change (c_disk c1 (selected c1)) with (c_disk c (Z.testbit h 4)). rewrite E4, Ed.
  eapply hoare_conseq; [apply (data_in_ok (disk (slave drive)) m0 buffer c1 lba n); [done|lia|done|done]|done|].
  change (c_disk c1) with (c_disk c). rewrite Ed. done.
Qed.

Lemma loaded_app disk lba buffer a b m0 m1 m2 : 0 ≤ a → 0 ≤ b →
  loaded disk lba buffer a m0 m1 → loaded disk (lba + a) (buffer + 512 * a) b m1 m2 → loaded disk lba buffer (a + b) m0 m2.
Proof.
  intros Ha Hb [H1 H1'] [H2 H2']. split.
  - intros i Hi. destruct (decide (i < 512 * a)) as [Hl|Hl].
    + rewrite H2' by lia. apply H1. lia.
    + replace (buffer + i) with (buffer + 512 * a + (i - 512 * a)) by lia. rewrite H2 by lia. f_equal. lia.
  - intros x Hx. rewrite H2', H1' by lia. done.
Qed.
Lemma loaded_again disk lba buffer n m0 m1 m2 : loaded disk lba buffer n m0 m1 → loaded disk lba buffer n m1 m2 → loaded disk lba buffer n m0 m2.
Proof. intros [H1 H1'] [H2 H2']. split; [done|]. intros x Hx. by rewrite H2', H1'. Qed.
Lemma loaded_none disk lba buffer m : loaded disk lba buffer 0 m m.
Proof. split; [intros; lia|done]. Qed.

Lemma read_chunks_ok disk m0 buffer drive lba n : disk_ok (disk (slave drive)) → 0 < n < 65536 → 0 ≤ lba → lba + n ≤ 2 ^ 28 →
  0 ≤ buffer → buffer + 512 * n ≤ 2 ^ 64 →
  {{ idle disk m0 }} read_chunks (λ lba n buf, ata_read_sector_28bit_manual lba n buf io drive 512) lba n buffer 512
  {{ λ r s, r = 0 ∧ ∃ m, loaded (disk (slave drive)) lba buffer n m0 m ∧ idle disk m s }}.
Proof.
  intros Hd Hn Hlba Hmax H0 H1. unfold read_chunks. eapply hoare_conseq.
  - apply (for_status_ok (λ k s, ∃ m, loaded (disk (slave drive)) lba buffer (Z.min (255 * k) n) m0 m ∧ idle disk m s)). intros k Hk. cbv zeta.
    assert (255 * k < n) as Hkn by zdiv. rewrite (u16_small (n - 255 * k)) by lia.
    set (x := if 255 <? n - 255 * k then 255 else n - 255 * k). assert (0 < x ≤ 255 ∧ Z.min (255 * (k + 1)) n = 255 * k + x) as [Hx Ek].
    { unfold x. destruct (Z.ltb_spec 255 (n - 255 * k)); lia. }
    rewrite (u32_small (lba + 255 * k)), (u8_small x), (u32_small (255 * k * 512)), u64_small by lia. rewrite Ek, Z.min_l by lia.
    unfold ata_read_sector_28bit_manual. rewrite (proj2 (Z.leb_gt _ _)) by lia.
    apply hoare_state. intros s0 (m & Hm & Hs0). eapply hoare_conseq; [apply (read_28bit_ok disk m (buffer + 255 * k * 512) drive (lba + 255 * k) x)|intros s ->; exact Hs0|]; try done; try lia.
    intros r s [-> (m' & Hm' & Hs')]. split; [done|]. exists m'. split; [|done]. apply (loaded_app _ _ _ _ _ _ m); [lia|lia|done|]. by replace (buffer + 512 * (255 * k)) with (buffer + 255 * k * 512) by lia.
  - intros s Hs. exists m0. split; [|done]. rewrite Z.min_l by lia. apply loaded_none.
  - intros r s [-> Hs]. split; [done|]. by rewrite Z.min_r in Hs by zdiv.
Qed.

Lemma read_semiauto_ok disk m0 buffer drive lba n : disk_ok (disk (slave drive)) → 0 < n < 65536 → 0 ≤ lba → lba + n ≤ 2 ^ 48 →
  (n ≤ 255 → lba < 2 ^ 28 → lba + n ≤ 2 ^ 28) → 0 ≤ buffer → buffer + 512 * n ≤ 2 ^ 64 →
  {{ idle disk m0 }} ata_read_sector_semiauto lba n buffer io drive 512
  {{ λ r s, r = 0 ∧ ∃ m, loaded (disk (slave drive)) lba buffer n m0 m ∧ idle disk m s }}.
Proof.
  intros Hd Hn Hlba Hmax Hst H0 H1. unfold ata_read_sector_semiauto, read_auto. destruct ((lba <? 2 ^ 28) && (n <=? 255)) eqn:Ec.
  { apply andb_true_iff in Ec as [E1 E2]. apply Z.ltb_lt in E1. apply Z.leb_le in E2. rewrite (u32_small lba), (u8_small n) by lia.
    unfold ata_read_sector_28bit_manual. rewrite (proj2 (Z.leb_gt _ _)) by lia. apply read_28bit_ok; try done; lia. }
  rewrite (u64_small (lba + n)) by lia. eapply hoare_bind.
  - instantiate (1 := λ r s, r = 0 ∧ ∃ m, (m = m0 ∨ loaded (disk (slave drive)) lba buffer n m0 m) ∧ idle disk m s). destruct (Z.ltb_spec (lba + n) (2 ^ 28)).
    + eapply hoare_conseq; [apply read_chunks_ok; try done; lia|done|]. intros r s [-> (m & Hm & Hs)]. eauto.
    + apply hoare_ret. eauto.
  - intros r. apply hoare_pure. intros ->. cbn [Z.eqb negb]. apply hoare_state. intros s0 (m & Hm & Hs0). unfold ata_read_sector_48bit_manual.
    eapply hoare_conseq; [apply (read_48bit_ok disk m); try done; lia|intros s ->; exact Hs0|]. intros r s [-> (m' & Hm' & Hs')]. split; [done|]. exists m'. split; [|done].
    destruct Hm as [->|Hm]; [done|by eapply loaded_again].
Qed.

(** *** Memory to the disk *)

Definition with_disk (f : bool → Z → Z) (c : chan) : chan := mkChan f (c_count c) (c_low c) (c_mid c) (c_high c) (c_head c) (c_phase c).
(** The disks [f] are [disk] with the first [k] words from [buffer] on the drive [b], at the sector [lba]. *)
Definition stored (disk : bool → Z → Z) (b : bool) (m : memory) (lba buffer k : Z) (f : bool → Z → Z) : Prop :=
  (∀ a, f b a = if decide (512 * lba ≤ a < 512 * lba + 2 * k) then load8 m (buffer + (a - 512 * lba)) else disk b a) ∧
  ∀ a, f (negb b) a = disk (negb b) a.
Definition left (lba n k : Z) : phase := if 256 * n =? k then Idle else DataOut (256 * lba + k) (256 * n - k).
Definition writing (disk : bool → Z → Z) (m : memory) (c : chan) (lba buffer n k : Z) (ready : bool) (s : ata D) : Prop :=
  ∃ f, stored disk (selected c) m lba buffer k f ∧ at_state m (set_phase (left lba n k) (with_disk f c)) ready s.

(** A drive that takes the last word of a write into its cache at once. *)
Definition write_cached : Prop := ∀ d v w, busy d = 0%nat → c_phase (chan_of d) = DataOut w 1 → busy (port_outw io v d) = 0%nat.

Lemma word_of_bytes m a b : Z.lor (load8 m a) (Z.shiftl (load8 m b) 8) = load8 m a + 256 * load8 m b.
Proof. rewrite Z.shiftl_mul_pow2, lor_low_high by (try lia; apply load8_range). lia. Qed.

Lemma stored_step disk b m lba buffer k f : 0 ≤ k → stored disk b m lba buffer k f →
  stored disk b m lba buffer (k + 1)
    (λ x, if eqb x b then put_word (f b) (256 * lba + k) (load8 m (buffer + 2 * k) + 256 * load8 m (buffer + 2 * k + 1)) else f x).
Proof.
  intros Hk [H1 H2]. pose proof (load8_range m (buffer + 2 * k)). pose proof (load8_range m (buffer + 2 * k + 1)). split; intros a.
  - rewrite eqb_reflx. unfold put_word. destruct (Z.eqb_spec a (2 * (256 * lba + k))) as [->|N1].
    { rewrite decide_True by lia. replace (buffer + (2 * (256 * lba + k) - 512 * lba)) with (buffer + 2 * k) by lia. zdiv. }
    destruct (Z.eqb_spec a (2 * (256 * lba + k) + 1)) as [->|N2].
    { rewrite decide_True by lia. replace (buffer + (2 * (256 * lba + k) + 1 - 512 * lba)) with (buffer + 2 * k + 1) by lia. zdiv. }
    rewrite H1. destruct (decide (512 * lba ≤ a < 512 * lba + 2 * k)); [rewrite decide_True by lia|rewrite decide_False by lia]; done.
  - destruct b; apply H2.
Qed.

Lemma write_word_ok disk m c lba buffer n k : write_cached → 0 ≤ k < 256 * n → n < 65536 → 0 ≤ buffer → buffer + 512 * n ≤ 2 ^ 64 →
  {{ writing disk m c lba buffer n k true }} write_word io buffer (2 * k)
  {{ λ _, writing disk m c lba buffer n (k + 1) (negb ((k + 1) `mod` 256 =? 0) || (k + 1 =? 256 * n)) }}.
Proof.
  intros Hwc Hk Hn H0 H1 s (f & Hf & Em & Ec & Hr). specialize (Hr eq_refl). unfold write_word. rewrite (proj2 (Z.leb_gt _ _)) by lia.
  rewrite (bind_ok _ _ s (ad_mem s) s) by done. rewrite Em, !u64_small by lia. rewrite word_of_bytes.
  set (v := load8 m (buffer + 2 * k) + 256 * load8 m (buffer + 2 * k + 1)).
  assert (Hv : 0 ≤ v < 65536) by (pose proof (load8_range m (buffer + 2 * k)); pose proof (load8_range m (buffer + 2 * k + 1)); unfold v; lia).
  assert (Hp : c_phase (chan_of (ad_dev s)) = DataOut (256 * lba + k) (256 * n - k)).
  { rewrite Ec. cbn. unfold left. by rewrite (proj2 (Z.eqb_neq _ _)) by lia. }
  destruct (ch_outw (ad_dev s) v _ _ Hr Hp Hv) as [Ec' Hr'].
  exists tt, (set_dev (port_outw io v (ad_dev s)) s). split.
  { unfold outw, modify, ATA_REG_DATA. rewrite Z.add_0_r, (u16_small io), (u16_small v) by lia. done. }
  exists (λ x, if eqb x (selected c) then put_word (f (selected c)) (256 * lba + k) v else f x). split; [apply stored_step; [lia|done]|].
  split; [done|]. split.
  - cbn [ad_dev set_dev ata_dev]. rewrite Ec', Ec. unfold set_phase, set_disk, with_disk, left, selected. cbn. f_equal.
    destruct (Z.eqb_spec (256 * n - k) 1), (Z.eqb_spec (256 * n) (k + 1)); try lia; [done|]. f_equal; lia.
  - cbn [ad_dev set_dev ata_dev]. intros Hb. apply orb_true_iff in Hb as [Hb|Hb].
    + apply negb_true_iff, Z.eqb_neq in Hb. apply Hr'. zdiv.
    + apply Z.eqb_eq in Hb. apply (Hwc (ad_dev s) v (256 * lba + k)); [done|]. rewrite Hp. f_equal. lia.
Qed.

Lemma writing_weaken disk m c lba buffer n k b s : writing disk m c lba buffer n k b s → writing disk m c lba buffer n k false s.
Proof. intros (f & H & Em & Ec & _). by exists f. Qed.

Lemma write_sectors_ok disk m c lba buffer n : write_cached → 0 < n < 65536 → 0 ≤ buffer → buffer + 512 * n ≤ 2 ^ 64 →
  {{ writing disk m c lba buffer n 0 false }} write_sectors io n buffer 512
  {{ λ r s, r = 0 ∧ writing disk m c lba buffer n (256 * n) true s }}.
Proof.
  intros Hwc Hn H0 H1. unfold write_sectors, transfer. change (Z.to_nat ((512 + 1) / 2)) with 256%nat. eapply hoare_conseq.
  - apply (for_status_ok (λ i, writing disk m c lba buffer n (256 * i) (i =? n))). intros i Hi. rewrite (proj2 (Z.eqb_neq i n)) by lia.
    apply hoare_state. intros s0 (f & Hf & Hs0). eapply hoare_bind.
    { eapply hoare_conseq; [apply (wait_ok m (set_phase (left lba n (256 * i)) (with_disk f c)) true)|intros s ->; exact Hs0|intros r s Hs; exact Hs].
      intros _. unfold drq, left. cbn. by rewrite (proj2 (Z.eqb_neq _ _)) by lia. }
    intros r. apply hoare_pure. intros ->. cbn [Z.eqb negb]. eapply hoare_bind.
    { eapply hoare_conseq; [apply (hoare_for_loop (λ j, writing disk m c lba buffer n (256 * i + j) ((j <? 256) || (256 * i + j =? 256 * n))))
        |intros s Hs; rewrite Z.add_0_r; by exists f|intros x s Hs; exact Hs]. intros j Hj.
      replace (i * 512 + 2 * j) with (2 * (256 * i + j)) by lia. rewrite (proj2 (Z.ltb_lt j 256)) by lia. cbn [orb].
      eapply hoare_conseq; [apply (write_word_ok disk m c lba buffer n (256 * i + j)); [done|lia|lia|lia|lia]|done|].
      intros u s Hs. rewrite <-Z.add_assoc in Hs. destruct (Z.ltb_spec (j + 1) 256).
      + by rewrite (proj2 (Z.eqb_neq _ 0)) in Hs by zdiv.
      + assert (((256 * i + (j + 1)) `mod` 256 =? 0) = true) as E by (apply Z.eqb_eq; zdiv). by rewrite E in Hs. }
    intros u. apply hoare_ret. intros s Hs. cbv beta in Hs. split; [done|].
    replace (256 * i + (0 + Z.of_nat 256)) with (256 * (i + 1)) in Hs by lia. destruct (Z.eqb_spec (i + 1) n) as [E|E].
    + by rewrite (proj2 (Z.eqb_eq (256 * (i + 1)) (256 * n))) in Hs by lia.
    + by eapply writing_weaken.
  - intros s Hs. by rewrite (proj2 (Z.eqb_neq 0 n)) by lia.
  - intros r s [-> Hs]. split; [done|]. replace (0 + Z.of_nat (Z.to_nat n)) with n in Hs by lia. by rewrite Z.eqb_refl in Hs.
Qed.

Lemma flush_ok m c head cmd : cmd = 0xE7 ∨ cmd = 0xEA → 0 ≤ head < 256 → Z.testbit head 6 = true → c_phase c = Idle →
  {{ at_state m c true }} flush_with cmd io head {{ λ r s, r = 0 ∧ ∃ c', at_state m c' false s ∧ c_phase c' = Idle ∧ c_disk c' = c_disk c }}.
Proof.
  intros Hcmd Hh H6 Hp. unfold flush_with. eapply hoare_bind; [apply (outb_ok m c 6); [lia|done]|intros u; cbv beta].
  eapply hoare_bind; [apply delay_ok|intros u1; cbv beta]. eapply hoare_bind; [apply command_step; [destruct Hcmd; subst; lia|]|intros u2; cbv beta].
  { split; [done|]. split; [done|]. right. right. destruct Hcmd; auto. }
  eapply hoare_conseq; [apply wait_ok; done|done|]. intros r s [-> Hs]. split; [done|].
  exists (set_phase (run_command (write_reg 6 head c) cmd) (write_reg 6 head c)). split; [destruct Hs as (? & ? & _); by split|]. by destruct Hcmd; subst.
Qed.

(** Data and flush, behind the command. *)
Lemma data_out_ok disk m c lba buffer n head cmd : write_cached → 0 < n < 65536 → 0 ≤ buffer → buffer + 512 * n ≤ 2 ^ 64 →
  cmd = 0xE7 ∨ cmd = 0xEA → 0 ≤ head < 256 → Z.testbit head 6 = true → c_disk c = disk →
  {{ at_state m (set_phase (DataOut (256 * lba) (256 * n)) c) false }}
    (r ← write_sectors io n buffer 512; if negb (r =? 0) then mret r else flush_with cmd io head)
  {{ λ r s, r = 0 ∧ ∃ f, stored disk (selected c) m lba buffer (256 * n) f ∧ idle f m s }}.
Proof.
  intros Hwc Hn H0 H1 Hcmd Hh H6 Ed. eapply hoare_bind; [eapply hoare_conseq; [apply (write_sectors_ok disk m c lba buffer n); [done|lia|done|done]| |intros r s H; exact H]|].
  - intros s Hs. exists disk. split; [split; [intros a; by rewrite decide_False by lia|done]|]. unfold left. rewrite (proj2 (Z.eqb_neq _ _)) by lia.
    rewrite Z.add_0_r, Z.sub_0_r. destruct Hs as (Em & Ec & Hr). split; [done|]. split; [|done]. rewrite Ec, <-Ed. by destruct c.
  - intros r. apply hoare_pure. intros ->. cbn [Z.eqb negb]. apply hoare_state. intros s0 (f & Hf & Hs0). unfold left in Hs0. rewrite Z.eqb_refl in Hs0.
    eapply hoare_conseq; [apply (flush_ok m (set_phase Idle (with_disk f c)) head cmd); done|intros s ->; exact Hs0|].
    intros r s [-> (c' & Hs & Hp & Ed')]. split; [done|]. exists f. split; [done|]. by exists c'.
Qed.

Lemma write_28bit_ok disk m buffer drive lba n : io = (ata_get_io_and_head drive).1 → write_cached → 0 < n < 256 → 0 ≤ lba → lba + n ≤ 2 ^ 28 →
  0 ≤ buffer → buffer + 512 * n ≤ 2 ^ 64 →
  {{ idle disk m }} ata_write_sector_28bit lba n buffer drive 512
  {{ λ r s, r = 0 ∧ ∃ f, stored disk (slave drive) m lba buffer (256 * n) f ∧ idle f m s }}.
Proof.
  intros Eio Hwc Hn Hlba Hmax H0 H1. apply hoare_state. intros s0 (c & Hs0 & Hp & Ed). unfold ata_write_sector_28bit. rewrite (proj2 (Z.leb_gt _ _)) by lia. cbv zeta. rewrite <-Eio.
  eapply hoare_bind; [eapply hoare_conseq; [apply (wait_ok m c false); done|intros s ->; exact Hs0|intros r s H; exact H]|]. intros r.
  apply hoare_pure. intros ->. cbn [Z.eqb negb].
  destruct (with28_fields c drive lba n) as (Hh & E6 & E4 & El & En); [lia|lia|]. set (h := head_28bit drive lba) in *. set (c1 := with28 c h lba n) in *.
  eapply hoare_bind; [apply command_28bit_ok; [done|lia|done|]|].
  { fold c1. split; [done|]. split; [done|]. left. rewrite El, En. split; [by right|done]. }
  intros u. fold c1. change (run_command c1 ATA_CMD_WRITE_SECTORS) with (DataOut (256 * lba28 c1) (256 * count28 c1)). rewrite El, En, <-E4.
  eapply hoare_conseq; [apply (data_out_ok disk m c1 lba buffer n h ATA_CMD_CACHE_FLUSH)|done|done]; try done; [lia|by left].
Qed.

Lemma write_48bit_ok disk m buffer drive lba n : io = (ata_get_io_and_head drive).1 → write_cached → 0 < n < 65536 → 0 ≤ lba → lba + n ≤ 2 ^ 48 →
  0 ≤ buffer → buffer + 512 * n ≤ 2 ^ 64 →
  {{ idle disk m }} ata_write_sector_48bit lba n buffer drive 512
  {{ λ r s, r = 0 ∧ ∃ f, stored disk (slave drive) m lba buffer (256 * n) f ∧ idle f m s }}.
Proof.
  intros Eio Hwc Hn Hlba Hmax H0 H1. apply hoare_state. intros s0 (c & Hs0 & Hp & Ed). unfold ata_write_sector_48bit. cbv zeta. rewrite <-Eio.
  eapply hoare_bind; [eapply hoare_conseq; [apply (wait_ok m c false); done|intros s ->; exact Hs0|intros r s H; exact H]|]. intros r.
  apply hoare_pure. intros ->. cbn [Z.eqb negb].
  destruct (with48_fields c drive lba n) as (Hh & E6 & E4 & El & En); [lia|lia|]. set (h := head_48bit drive) in *. set (c1 := with48 c h lba n) in *.
  eapply hoare_bind; [apply command_48bit_ok; [done|done|]|].
  { fold c1. split; [done|]. split; [done|]. right. left. rewrite El, En. split; [by right|done]. }
  intros u. fold c1. change (run_command c1 ATA_CMD_WRITE_SECTORS_EXT) with (DataOut (256 * lba48 c1) (256 * count48 c1)). rewrite El, En, <-E4.
  eapply hoare_conseq; [apply (data_out_ok disk m c1 lba buffer n h ATA_CMD_CACHE_FLUSH_EXT)|done|done]; try done. by right.
Qed.

Lemma write_auto_ok disk m buffer drive lba n : io = (ata_get_io_and_head drive).1 → write_cached → 0 < n < 65536 → 0 ≤ lba → lba + n ≤ 2 ^ 48 →
  (n ≤ 255 → lba < 2 ^ 28 → lba + n ≤ 2 ^ 28) → 0 ≤ buffer → buffer + 512 * n ≤ 2 ^ 64 →
  {{ idle disk m }} ata_write_sector_auto lba n buffer drive 512
  {{ λ r s, r = 0 ∧ ∃ f, stored disk (slave drive) m lba buffer (256 * n) f ∧ idle f m s }}.
Proof.
  intros Eio Hwc Hn Hlba Hmax Hst H0 H1. unfold ata_write_sector_auto. destruct ((lba <? 2 ^ 28) && (n <=? 255)) eqn:Ec.
  - apply andb_true_iff in Ec as [E1 E2]. apply Z.ltb_lt in E1. apply Z.leb_le in E2. rewrite (u32_small lba), (u8_small n) by lia. apply write_28bit_ok; try done; lia.
  - apply write_48bit_ok; done.
Qed.
End drive.

Lemma channel_io drive : 0 ≤ (ata_get_io_and_head drive).1 < 65000.
Proof. unfold ata_get_io_and_head, ATA_PRIMARY_IO, ATA_SECONDARY_IO. cbn [fst]. destruct (drive <? 2); lia. Qed.

(** C20: On an idle channel, [ata_read_sector_auto] returns 0 with the sectors of the selected drive in the buffer; the rest of
    the memory and the disks are unchanged and the channel is idle again.  This is for every request that does not reach across
    the last sector that a 28-bit command can address; with more than 255 sectors below that limit they are read twice. *)
Theorem ata_read_correct {D} `{Ports D} drive `{!AtaChannel D (ata_get_io_and_head drive).1} disk (s : ata D) lba n buffer :
  idle (ata_get_io_and_head drive).1 disk (ad_mem s) s → disk_ok (disk (slave drive)) →
  0 < n < 65536 → 0 ≤ lba → lba + n ≤ 2 ^ 48 → (n ≤ 255 → lba < 2 ^ 28 → lba + n ≤ 2 ^ 28) →
  0 ≤ buffer → buffer + 512 * n ≤ 2 ^ 64 →
  ∃ s', ata_read_sector_auto lba n buffer drive 512 s = Ok (0, s') ∧
    (∀ i, 0 ≤ i < 512 * n → load8 (ad_mem s') (buffer + i) = disk (slave drive) (512 * lba + i)) ∧
    (∀ a, ¬ (buffer ≤ a < buffer + 512 * n) → load8 (ad_mem s') a = load8 (ad_mem s) a) ∧
    idle (ata_get_io_and_head drive).1 disk (ad_mem s') s'.
Proof.
  intros Hs Hd Hn Hlba Hmax Hst H0 H1. set (io := (ata_get_io_and_head drive).1) in *.
  pose proof (channel_io drive) as Hio. fold io in Hio.
  destruct (read_semiauto_ok io Hio disk (ad_mem s) buffer drive lba n Hd Hn Hlba Hmax Hst H0 H1 s Hs) as (r & s' & E & -> & m & [Hm1 Hm2] & Hs').
  exists s'. split; [exact E|]. assert (ad_mem s' = m) as -> by (by destruct Hs' as (c & (Em & _) & _)). done.
Qed.

(** On an idle channel whose drive takes the last word of a write at once, [ata_write_sector_auto] returns 0 with the
    sectors stored on the selected drive and nothing else changed on either; reading them back into another buffer gives the
    bytes that were written. *)
Theorem ata_write_read_roundtrip {D} `{Ports D} drive `{!AtaChannel D (ata_get_io_and_head drive).1} disk (s : ata D) lba n src dst :
  let io := (ata_get_io_and_head drive).1 in
  idle io disk (ad_mem s) s → disk_ok (disk (slave drive)) → write_cached io →
  0 < n < 65536 → 0 ≤ lba → lba + n ≤ 2 ^ 48 → (n ≤ 255 → lba < 2 ^ 28 → lba + n ≤ 2 ^ 28) →
  0 ≤ src → src + 512 * n ≤ 2 ^ 64 → 0 ≤ dst → dst + 512 * n ≤ 2 ^ 64 →
  ∃ s1 s2 f, ata_write_sector_auto lba n src drive 512 s = Ok (0, s1) ∧ ad_mem s1 = ad_mem s ∧ idle io f (ad_mem s) s1 ∧
    (∀ a, ¬ (512 * lba ≤ a < 512 * (lba + n)) → f (slave drive) a = disk (slave drive) a) ∧
    (∀ a, f (negb (slave drive)) a = disk (negb (slave drive)) a) ∧
    ata_read_sector_auto lba n dst drive 512 s1 = Ok (0, s2) ∧
    ∀ i, 0 ≤ i < 512 * n → load8 (ad_mem s2) (dst + i) = load8 (ad_mem s) (src + i).
Proof.
  intros io Hs Hd Hwc Hn Hlba Hmax Hst Hs0 Hs1 Hd0 Hd1. pose proof (channel_io drive) as Hio. fold io in Hio.
  destruct (write_auto_ok io Hio disk (ad_mem s) src drive lba n eq_refl Hwc Hn Hlba Hmax Hst Hs0 Hs1 s Hs) as (r & s1 & E1 & -> & f & [Hf Hf'] & Hi1).
  assert (Em : ad_mem s1 = ad_mem s) by (by destruct Hi1 as (c & (Em & _) & _)).
  assert (Hdf : disk_ok (f (slave drive))) by (intros a; rewrite Hf; case_decide; [apply load8_range|apply Hd]).
  rewrite <-Em in Hi1. destruct (read_semiauto_ok io Hio f (ad_mem s1) dst drive lba n Hdf Hn Hlba Hmax Hst Hd0 Hd1 s1 Hi1) as (r & s2 & E2 & -> & m & [Hm _] & Hi2).
  rewrite Em in Hi1. exists s1, s2, f. split; [exact E1|]. split; [done|]. split; [done|]. split; [|split; [done|split; [exact E2|]]].
  - intros a Ha. rewrite Hf, decide_False by lia. done.
  - intros i Hi. assert (ad_mem s2 = m) as -> by (by destruct Hi2 as (c & (E & _) & _)). rewrite Hm, Hf, decide_True by lia. f_equal. lia.
Qed.

(** ** A channel that is busy for some polls after a command and after each sector *)

Record simple_drive := mkSimple { v_chan : chan; v_busy : nat }.

#[export] Instance simple_ports : Ports simple_drive := {|
  port_outb port v d := mkSimple (write_reg (port - 0x1F0) v (v_chan d)) (if port - 0x1F0 =? 7 then 3 else Nat.min (v_busy d) 5);
  port_inb port d :=
    let b := Nat.min (v_busy d) 5 in
    ((if (b =? 0)%nat then if drq (v_chan d) then 0x58 else 0x50 else 0x80), mkSimple (v_chan d) (pred b));
  port_outw port v d :=
    match c_phase (v_chan d) with
    | DataOut w left =>
        let c := v_chan d in
        mkSimple (set_phase (if left =? 1 then Idle else DataOut (w + 1) (left - 1)) (set_disk (selected c) (put_word (c_disk c (selected c)) w v) c))
          (if ((left - 1) `mod` 256 =? 0) && negb (left =? 1) then 2 else Nat.min (v_busy d) 5)
    | _ => d
    end;
  port_inw port d :=
    match c_phase (v_chan d) with
    | DataIn (w :: ws) =>
        (w, mkSimple (set_phase (match ws with [] => Idle | _ => DataIn ws end) (v_chan d))
              (if (length ws `mod` 256 =? 0)%nat then 2 else Nat.min (v_busy d) 5))
    | _ => (0, d)
    end;
|}.

#[export] Instance simple_channel : AtaChannel simple_drive 0x1F0.
Proof.
  refine {| chan_of := v_chan; busy d := Nat.min (v_busy d) 5 |}.
  - intros d. lia.
  - intros d reg v Hb Hr Hv _. cbv zeta. cbn [port_outb simple_ports v_chan v_busy]. replace (496 + reg - 496) with reg by lia.
    split; [done|]. intros Hn. rewrite (proj2 (Z.eqb_neq reg 7)) by done. lia.
  - intros d. eexists _, _. split; [reflexivity|]. cbn [v_chan v_busy]. destruct (Nat.min (v_busy d) 5) as [|k] eqn:Ek.
    + cbn [Nat.eqb negb]. destruct (drq (v_chan d)); repeat split; lia.
    + cbn [Nat.eqb negb]. splits; try done; lia.
  - intros d w ws Hb Hp. cbn [port_inw simple_ports]. rewrite Hp. eexists. split; [reflexivity|]. cbn [v_chan v_busy]. split; [done|].
    intros Hn. rewrite (proj2 (Nat.eqb_neq _ _)) by done. lia.
  - intros d v w lft Hb Hp Hv. cbn [port_outw simple_ports]. rewrite Hp. cbn [v_chan v_busy]. split; [done|].
    intros Hn. rewrite (proj2 (Z.eqb_neq _ _)) by done. cbn [andb]. lia.
Defined.

Lemma simple_cached : write_cached (D := simple_drive) 0x1F0.
Proof.
  intros d v w Hb Hp. cbn [busy simple_channel chan_of] in *. cbn [port_outw simple_ports]. rewrite Hp. change (Nat.min (Nat.min (v_busy d) 5) 5 = 0%nat). lia.
Qed.

(** A disk whose byte at [a] is [a] modulo 251. *)
Definition sample_disk (b : bool) (a : Z) : Z := a `mod` 251.
Definition sample_ata : ata simple_drive := mkAta (mkSimple (mkChan sample_disk (0, 0) (0, 0) (0, 0) (0, 0) 0 Idle) 4) ∅ 0 0.
Lemma sample_ata_idle : idle 0x1F0 sample_disk (ad_mem sample_ata) sample_ata.
Proof. exists (v_chan (ad_dev sample_ata)). by repeat split. Qed.
Lemma sample_disk_ok b : disk_ok (sample_disk b).
Proof. intros a. unfold sample_disk. pose proof (Z.mod_pos_bound a 251). lia. Qed.

Lemma ata_read_confined_witness :
  ∃ r s', ata_read_sector_auto 7 300 0x10000 0 512 sample_ata = Ok (r, s') ∧ r ∈ [0; -1; -2; -3] ∧
    ∀ a, ¬ (0x10000 ≤ a < 0x10000 + 300 * 512) → load8 (ad_mem s') a = load8 (ad_mem sample_ata) a.
Proof. apply (ata_read_confined sample_ata 7 300 0x10000 0 512); reflexivity || lia. Defined.

Lemma ata_read_correct_witness :
  ∃ s', ata_read_sector_auto 7 300 0x10000 0 512 sample_ata = Ok (0, s') ∧
    (∀ i, 0 ≤ i < 512 * 300 → load8 (ad_mem s') (0x10000 + i) = sample_disk false (512 * 7 + i)) ∧
    (∀ a, ¬ (0x10000 ≤ a < 0x10000 + 512 * 300) → load8 (ad_mem s') a = load8 (ad_mem sample_ata) a) ∧
    idle 0x1F0 sample_disk (ad_mem s') s'.
Proof. apply (ata_read_correct 0 sample_disk sample_ata 7 300 0x10000 sample_ata_idle (sample_disk_ok false)); lia. Defined.

Lemma ata_write_read_roundtrip_witness :
  ∃ s1 s2 f, ata_write_sector_auto 7 2 0x10000 1 512 sample_ata = Ok (0, s1) ∧ ad_mem s1 = ad_mem sample_ata ∧ idle 0x1F0 f (ad_mem sample_ata) s1 ∧
    (∀ a, ¬ (512 * 7 ≤ a < 512 * (7 + 2)) → f true a = sample_disk true a) ∧ (∀ a, f (negb true) a = sample_disk (negb true) a) ∧
    ata_read_sector_auto 7 2 0x20000 1 512 s1 = Ok (0, s2) ∧
    ∀ i, 0 ≤ i < 512 * 2 → load8 (ad_mem s2) (0x20000 + i) = load8 (ad_mem sample_ata) (0x10000 + i).
Proof. apply (ata_write_read_roundtrip 1 sample_disk sample_ata 7 2 0x10000 0x20000 sample_ata_idle (sample_disk_ok true) simple_cached); lia. Defined.
