(* ===== verification/PmmBlocks.v ===== *)
(** * Blocks of pages

    The interface of the page allocator to clients that take and give back
    blocks of [2^o] pages (the disk and USB drivers), over the sets of free
    pages of PmmIface.v, and its proof for the buddy allocator. *)
From Stdlib Require Import ZArith Lia.
From stdpp Require Import base option gmap list.
From S2P Require Import Prelude Memory Pmm PmmProof PmmFree PmmIface.

(** The block at [p] is in use, and not by the allocator itself. *)
Record owns (s : pmm) (F : Z → Prop) (o p : Z) : Prop := {
  ow_block : block_ok s o p;
  ow_used : ∀ q, covers o p q → ¬ F q;
  ow_off : ∀ q, covers o p q → off_bitmap s q;
}.

Class BlockAllocator (inv : pmm → (Z → Prop) → Prop) `{!PageAllocator inv} : Prop := {
  pb_alloc s F o : inv s F → 0 ≤ o < MAX_ORDER →
    palloc_order o s = Ok (0, s) ∨
    ∃ p s' F', palloc_order o s = Ok (p, s') ∧ 0 < p ∧ inv s' F' ∧ owns s' F' o p ∧ (∀ x, F x ↔ F' x ∨ covers o p x) ∧
      pmm_layout s s' ∧ ∀ a, ¬ private s F a → load8 (pmm_mem s') a = load8 (pmm_mem s) a;
  pb_free s F o p : inv s F → owns s F o p →
    ∃ s' F', pfree_order p o s = Ok (tt, s') ∧ inv s' F' ∧ (∀ x, F' x ↔ F x ∨ covers o p x) ∧
      pmm_layout s s' ∧ ∀ a, ¬ private s F a → ¬ in_block s o p a → load8 (pmm_mem s') a = load8 (pmm_mem s) a;
}.

#[export] Instance covers_dec o p q : Decision (covers o p q).
Proof. unfold covers. apply _. Defined.

#[export] Instance buddy_blocks : BlockAllocator buddy_inv.
Proof.
  split.
  - intros s F o (L & Hinv & HF) Ho. destruct (palloc_order_cases o s L Hinv Ho) as [[E _]|(p & s' & L' & E & HA)]; [by left|right].
    pose proof (alloc_releasable _ _ _ _ _ _ Hinv HA) as [Hb Hu Hoff].
    exists p, s', (free_page L'). splits; [done|by destruct Hb as (_ & ? & _)|exists L'; split; [apply HA|done]|by split|..].
    + intros x. rewrite HF, (ap_free _ _ _ _ _ _ HA). pose proof (ap_was_free _ _ _ _ _ _ HA x). destruct (decide (covers o p x)); tauto.
    + by destruct (ap_frame _ _ _ _ _ _ HA) as (? & ? & ? & _).
    + intros a Ha. destruct (ap_frame _ _ _ _ _ _ HA) as (_&_&_&_&_&Hm). apply Hm. intros [?|?]; apply Ha; [by left|by eapply in_free_private].
  - intros s F o p (L & Hinv & HF) [Hb Hu Hoff].
    destruct (pfree_order_spec s L o p Hinv) as (s' & L' & E & HP). { split; [done| |done]. intros q Hq Hf. by apply (Hu q Hq), HF. }
    exists s', (free_page L'). splits; [done|exists L'; split; [apply HP|done]|..].
    + intros x. by rewrite (fp_free _ _ _ _ _ _ HP), HF.
    + by destruct (fp_frame _ _ _ _ _ _ HP) as (? & ? & ? & _).
    + intros a Ha Hna. destruct (fp_frame _ _ _ _ _ _ HP) as (_&_&_&_&_&Hm). apply Hm. intros [?|[?|?]]; [apply Ha; by left| |done].
      apply Ha. by eapply in_free_private.
Qed.

Section owner.
Context {inv : pmm → (Z → Prop) → Prop} `{HP : !PageAllocator inv}.

(** The owner's memory is not the allocator's. *)
Lemma owned_not_private s F o p a : owns s F o p → in_block s o p a → ¬ private s F a.
Proof.
  intros [Hb Hu Hoff] Ha [Hbm|(q & Hq & Hin)]; [by eapply block_off_bitmap|].
  destruct (in_block_page s o p a Hb Ha) as (q' & Hc & Hq'). unfold in_page in Hin.
  assert (q = q') as -> by (unfold PAGE_SIZE in *; lia). by apply (Hu q').
Qed.

(** Stores to memory that is not the allocator's. *)
Lemma owns_write s F o p m : owns s F o p → owns (set_pmm_mem m s) F o p.
Proof. by intros [? ? ?]. Qed.

Lemma private_layout s s' F a : pmm_layout s s' → private s' F a ↔ private s F a.
Proof.
  intros (E1 & E2 & E3). unfold private, in_bitmap, bitmap_len, in_page. by rewrite E1, E2, E3.
Qed.
Lemma in_block_layout s s' o p a : pmm_layout s s' → in_block s' o p a ↔ in_block s o p a.
Proof. intros (E1 & E2 & E3). unfold in_block. by rewrite E3. Qed.

(** A page that was in use before the allocation is not part of the block. *)
Lemma private_alloc s F F' o p a : (∀ x, F x ↔ F' x ∨ covers o p x) → private s F' a → private s F a.
Proof. intros HF [?|(q & Hq & Hin)]; [by left|right]. exists q. split; [apply HF; by left|done]. Qed.
Lemma in_block_private s F F' o p a : block_ok s o p → (∀ x, F x ↔ F' x ∨ covers o p x) → in_block s o p a → private s F a.
Proof.
  intros Hb HF Ha. destruct (in_block_page s o p a Hb Ha) as (q & Hc & Hq). right. exists q. split; [apply HF; by right|done].
Qed.
End owner.

(** ** From taking a block to giving it back

    [p1] with the free pages [F1] is the allocator [p] with the free pages [F]
    after the block of order [o] at [pa] was taken. *)
Section taken.
Context {inv : pmm → (Z → Prop) → Prop} `{HP : !PageAllocator inv, HB : !BlockAllocator inv}.

Record held (p : pmm) (F : Z → Prop) (o pa : Z) (p1 : pmm) (F1 : Z → Prop) : Prop := {
  hd_inv : inv p1 F1;
  hd_owns : owns p1 F1 o pa;
  hd_free x : F x ↔ F1 x ∨ covers o pa x;
  hd_layout : pmm_layout p p1;
}.
(** Right after. *)
Record taken (p : pmm) (F : Z → Prop) (o pa : Z) (p1 : pmm) (F1 : Z → Prop) : Prop := {
  tk_held :> held p F o pa p1 F1;
  tk_mem a : ¬ private p F a → load8 (pmm_mem p1) a = load8 (pmm_mem p) a;
}.

Lemma take_block p F o : inv p F → 0 ≤ o < MAX_ORDER →
  palloc_order o p = Ok (0, p) ∨ ∃ pa p1 F1, palloc_order o p = Ok (pa, p1) ∧ 0 < pa ∧ taken p F o pa p1 F1.
Proof.
  intros HI Ho. destruct (pb_alloc _ _ o HI Ho) as [E|(pa & p1 & F1 & E & ? & ? & ? & ? & ? & ?)]; [by left|right].
  exists pa, p1, F1. splits; [done|done|]. by split; [split|].
Qed.

Lemma held_private p F o pa p1 F1 a : held p F o pa p1 F1 → private p1 F1 a → private p F a.
Proof.
  intros [_ _ HF HL] Ha. apply (private_alloc _ F F1 o pa); [done|]. by apply (private_layout _ _ _ _ HL).
Qed.
Lemma held_block p F o pa p1 F1 a : held p F o pa p1 F1 → in_block p1 o pa a → private p F a ∧ ¬ private p1 F1 a.
Proof.
  intros [_ Hown HF HL] Hb. split; [|by eapply owned_not_private]. eapply in_block_private; [|done|by apply (in_block_layout _ _ _ _ _ HL)].
  destruct HL as (_ & E2 & _). destruct (ow_block _ _ _ _ Hown) as (?&?&?&?). unfold block_ok. by rewrite <-E2.
Qed.


(** Where the block lies. *)
Lemma held_geometry p F o pa p1 F1 : held p F o pa p1 F1 → 0 ≤ hhdm_offset p ∧ 0 < pa ∧ pa `mod` (PAGE_SIZE * 2 ^ o) = 0 ∧
  pa + PAGE_SIZE * 2 ^ o ≤ PAGE_SIZE * pmm_max_page p ∧ hhdm_offset p + PAGE_SIZE * pmm_max_page p < 2 ^ 64 ∧
  ∀ a, in_block p1 o pa a ↔ hhdm_offset p + pa ≤ a < hhdm_offset p + pa + PAGE_SIZE * 2 ^ o.
Proof.
  intros [HI Hown _ (_ & E2 & E3)]. destruct (pa_window _ _ HI) as (W1 & W2 & W3). rewrite E2, E3 in *.
  destruct (ow_block _ _ _ _ Hown) as (Ho & Hp & Hal & Hmax). rewrite E2 in Hmax. splits; try done.
  - assert (pa `mod` PAGE_SIZE = 0).
    { apply Z.mod_divide in Hal as [k ->]; [|pose proof (pow2_pos o (proj1 Ho)); unfold PAGE_SIZE; lia].
      replace (k * (PAGE_SIZE * 2 ^ o)) with (k * 2 ^ o * PAGE_SIZE) by lia. by apply Z.mod_mul. }
    unfold PAGE_SIZE in *. zdiv.
  - intros a. unfold in_block. by rewrite E3.
Qed.

(** The owner has written what is its own; the block goes back. *)
Lemma give_back p F o pa p1 F1 m : held p F o pa p1 F1 → (∀ a, private p1 F1 a → load8 m a = load8 (pmm_mem p1) a) →
  ∃ p2 F2, pfree_order pa o (set_pmm_mem m p1) = Ok (tt, p2) ∧ inv p2 F2 ∧ (∀ x, F2 x ↔ F x) ∧ pmm_layout p p2 ∧
    ∀ a, ¬ private p F a → load8 (pmm_mem p2) a = load8 m a.
Proof.
  intros Ht Hm. pose proof Ht as [HI Hown HF HL]. assert (HI' : inv (set_pmm_mem m p1) F1) by by apply pa_write.
  destruct (pb_free _ _ o pa HI' (owns_write _ _ _ _ _ Hown)) as (p2 & F2 & E & HI2 & HF2 & HL2 & Hmem). exists p2, F2.
  splits; [done|done|intros x; by rewrite HF2, HF|by eapply pmm_layout_trans|].
  intros a Ha. apply Hmem; [|by intros Hb; apply Ha, (held_block _ _ _ _ _ _ _ Ht)]. intros Hp. by apply Ha, (held_private _ _ _ _ _ _ _ Ht).
Qed.

(** The block stays with its owner while the allocator serves others. *)
Lemma held_step p F o pa p1 F1 p2 F2 : held p F o pa p1 F1 → inv p2 F2 → (∀ x, F2 x ↔ F1 x) → pmm_layout p1 p2 → held p F o pa p2 F2.
Proof.
  intros [_ [Hb Hu Hoff] HF HL] HI HF2 HL2. pose proof HL2 as (E1 & E2 & E3). split; [done| |intros x; by rewrite HF, HF2|by eapply pmm_layout_trans].
  split.
  - destruct Hb as (?&?&?&?). unfold block_ok. by rewrite E2.
  - intros q Hq. rewrite HF2. by apply Hu.
  - intros q Hq. pose proof (Hoff q Hq). unfold off_bitmap, bitmap_len in *. by rewrite E1, E2, E3.
Qed.
End taken.
