(* ===== verification/Dma.v ===== *)
(** * Drivers of bus masters

    The state of a driver for a controller that has registers in memory and
    reads and writes memory itself, and the operations such drivers share: the
    memory manager, the clock for delays, the controller [D] behind [Mmio], and
    the static variables [G] of the driver. *)
From Stdlib Require Import ZArith Lia.
From stdpp Require Import base option gmap list.
From S2P Require Import Prelude Memory Pmm Vmm Io Ktime.

Record driver (C D G : Type) := mkDriver { dr_vmm : vmm; dr_dev : D; dr_time : ktime C; dr_globals : G }.
Arguments mkDriver {C D G}.
Arguments dr_vmm {C D G}.
Arguments dr_dev {C D G}.
Arguments dr_time {C D G}.
Arguments dr_globals {C D G}.

(** What a controller does by itself while the processor waits. *)
Class BusMaster (D : Type) := { dma_step : D * memory → D * memory }.

Section driver.
Context {C D G : Type} `{Mmio D, BusMaster D}.
Abbreviation A := (M (driver C D G)).

Definition set_dr_vmm (v : vmm) (s : driver C D G) : driver C D G := mkDriver v (dr_dev s) (dr_time s) (dr_globals s).
Definition set_dr_time (t : ktime C) (s : driver C D G) : driver C D G := mkDriver (dr_vmm s) (dr_dev s) t (dr_globals s).
Definition set_dr_dma (x : D * memory) (s : driver C D G) : driver C D G := mkDriver (set_v_mem x.2 (dr_vmm s)) x.1 (dr_time s) (dr_globals s).
Definition set_dr_globals (g : G) (s : driver C D G) : driver C D G := mkDriver (dr_vmm s) (dr_dev s) (dr_time s) g.
Definition in_vmm {X} (m : M vmm X) : A X := zoom dr_vmm set_dr_vmm m.
Definition in_time {X} (m : M (ktime C) X) : A X := zoom dr_time set_dr_time m.
Definition upd_mem (f : memory → memory) : A unit := modify (λ s, set_dr_vmm (set_v_mem (f (v_mem (dr_vmm s))) (dr_vmm s)) s).

(** Registers *)
Definition reg_write (a v : Z) : A unit := modify (λ s, set_dr_dma (mmio_write a (u32 v) (dr_dev s, v_mem (dr_vmm s))) s).
Definition reg_read (a : Z) : A Z := λ s,
  let '(v, x) := mmio_read a (dr_dev s, v_mem (dr_vmm s)) in Ok (u32 v, set_dr_dma x s).
Definition reg_and (a mask : Z) : A unit := v ← reg_read a; reg_write a (Z.land v mask).
Definition reg_or (a bits : Z) : A unit := v ← reg_read a; reg_write a (Z.lor v bits).

Definition device_runs : A unit := modify (λ s, set_dr_dma (dma_step (dr_dev s, v_mem (dr_vmm s))) s).
Definition peek32 (a : Z) : A Z := gets (λ s, load32 (v_mem (dr_vmm s)) a).
End driver.

(** ** Structures in memory *)

Lemma load8_store32_ne m a b v : b < a ∨ a + 4 ≤ b → load8 (store32 m a v) b = load8 m b.
Proof. intros. unfold store32. rewrite load8_store, decide_False by lia. done. Qed.
Lemma load8_store16_ne m a b v : b < a ∨ a + 2 ≤ b → load8 (store16 m a v) b = load8 m b.
Proof. intros. unfold store16. rewrite load8_store, decide_False by lia. done. Qed.

(** The memory outside of [lo, hi) is the same. *)
Definition outside (lo hi : Z) (m m' : memory) : Prop := ∀ a, ¬ (lo ≤ a < hi) → load8 m' a = load8 m a.
Lemma outside_load n lo hi m m' a : outside lo hi m m' → a + Z.of_nat n ≤ lo ∨ hi ≤ a → load n m' a = load n m a.
Proof. intros H Ha. apply load_ext. intros b Hb. apply H. lia. Qed.
Lemma outside_trans lo hi m1 m2 m3 : outside lo hi m1 m2 → outside lo hi m2 m3 → outside lo hi m1 m3.
Proof. intros H1 H2 a Ha. by rewrite H2, H1. Qed.
Lemma outside_mono lo hi lo' hi' m m' : outside lo hi m m' → lo' ≤ lo → hi ≤ hi' → outside lo' hi' m m'.
Proof. intros H H1 H2 a Ha. apply H. lia. Qed.

(** ** Flushing the cache returns *)

Lemma flush_lines_run n p e s : 0 ≤ p → e + 64 ≤ 2 ^ 64 → e ≤ p + 64 * Z.of_nat n →
  ∃ s', flush_lines n p e s = Ok (tt, s') ∧ v_pmm s' = v_pmm s ∧ v_hhdm s' = v_hhdm s.
Proof.
  revert p s. induction n as [|n IH]; intros p s Hp He Hn; cbn [flush_lines]; destruct (Z.leb_spec e p); try lia; try by exists s.
  mstep. rewrite u64_small by lia. destruct (IH (p + 64) (log_clflush p s)) as (s' & E & H1 & H2); [lia|lia|lia|]. exists s'. by rewrite E.
Qed.
Lemma phys_flush_cache_run a n s : 0 ≤ a → 0 ≤ n → a + n + 64 ≤ 2 ^ 64 →
  ∃ s', phys_flush_cache a n s = Ok (tt, s') ∧ v_pmm s' = v_pmm s ∧ v_hhdm s' = v_hhdm s.
Proof.
  intros Ha Hn Hb. unfold phys_flush_cache. rewrite (u64_small (a + n)) by lia.
  assert (E : Z.land a (Z.lnot 63) = a - a `mod` 64).
  { change 63 with (Z.ones 6). rewrite <-Z.ldiff_land, Z.ldiff_ones_r, Z.shiftl_mul_pow2, Z.shiftr_div_pow2 by lia. zdiv. }
  rewrite E. apply flush_lines_run; [zdiv|lia|]. rewrite Nat2Z.inj_succ, Z2Nat.id by zdiv. zdiv.
Qed.
