(* ===== verification/Sata.v ===== *)
(** * SATA disks

    Model of src/drivers/storage/sata.c and sata.h: commands of an AHCI port.
    The command structures are built in a block of pages of the physical
    allocator, at the offsets of their fields; the controller is a device with
    registers in memory that reads and writes memory itself (Dma.v).  [sata_search] and the
    block-device callbacks are in [Pci] and [Exfat]. *)
From Stdlib Require Import ZArith Lia.
From stdpp Require Import base option gmap list.
From S2P Require Import Prelude Memory Pmm Vmm Io Ktime Dma.

(** The state, with [g_sata_port]. *)
Definition sata (C D : Type) : Type := driver C D Z.

(** ** Structures (sata.h) *)

(** [ahci_port_mem_t] *)
Definition port_cl (p : Z) : Z := p.
Definition port_rfis (p : Z) : Z := p + 1024.
Definition port_ct (p : Z) : Z := p + 1024 + 256.
Definition sizeof_port_mem : Z := 1024 + 256 + 4096 * 32.
(** [hba_cmd_tbl_t.prdt_entry[i]] *)
Definition prdt_entry (tbl i : Z) : Z := tbl + 128 + 16 * i.

(** The bit fields of [hba_prdt_entry_t] at [e] *)
Definition set_dbc (m : memory) (e v : Z) : memory :=
  store32 m (e + 12) (Z.lor (Z.land (load32 m (e + 12)) (Z.lnot 0x3FFFFF)) (Z.land v 0x3FFFFF)).
Definition set_i (m : memory) (e : Z) : memory := store32 m (e + 12) (Z.lor (Z.land (load32 m (e + 12)) 0x7FFFFFFF) (Z.shiftl 1 31)).
(** [fis_reg_h2d_t.c = 1] *)
Definition set_fis_c (m : memory) (f : Z) : memory := store8 m (f + 1) (Z.lor (Z.land (load8 m (f + 1)) 0x7F) (Z.shiftl 1 7)).

Section sata.
Context {C D : Type} `{Ports C, Tsc C, Mmio D} (fuel : nat).
Abbreviation A := (M (driver C D Z)).

(** [while (register & bit);] *)
Fixpoint wait_clear (n : nat) (a bit : Z) : A unit :=
  match n with
  | O => spin
  | S n => v ← reg_read a; if Z.land v bit =? 0 then mret tt else wait_clear n a bit
  end.

(** ** Building a command *)

(** The addresses of the command list and of the received FIS. *)
Definition set_port_addresses (port_base port_mem : Z) : A unit :=
  cl_phys ← in_vmm (virt_to_phys (port_cl port_mem));
  reg_write (port_base + 0x00) cl_phys;;
  reg_write (port_base + 0x04) (Z.shiftr cl_phys 32);;
  fb_phys ← in_vmm (virt_to_phys (port_rfis port_mem));
  reg_write (port_base + 0x08) fb_phys;;
  reg_write (port_base + 0x0C) (Z.shiftr fb_phys 32).

Definition wait_stopped (port_base : Z) : A unit :=
  wait_clear fuel (port_base + 0x18) (Z.shiftl 1 15);;
  wait_clear fuel (port_base + 0x18) (Z.shiftl 1 14).

(** [cmd_header[0]] *)
Definition fill_header (port_mem flags prdt_entries : Z) : A unit :=
  upd_mem (λ m, store16 m (port_cl port_mem) flags);;
  upd_mem (λ m, store16 m (port_cl port_mem + 2) prdt_entries);;
  ct_phys ← in_vmm (virt_to_phys (port_ct port_mem));
  upd_mem (λ m, store32 m (port_cl port_mem + 8) ct_phys);;
  upd_mem (λ m, store32 m (port_cl port_mem + 12) (Z.shiftr ct_phys 32)).

(** [cmd_tbl->prdt_entry[i]] for [dbc + 1] bytes at [buf]. *)
Definition fill_prdt_entry (port_mem i buf dbc : Z) : A unit :=
  let e := prdt_entry (port_ct port_mem) i in
  buf_phys ← in_vmm (virt_to_phys buf);
  upd_mem (λ m, store32 m e buf_phys);;
  upd_mem (λ m, store32 m (e + 4) (Z.shiftr buf_phys 32));;
  upd_mem (λ m, set_dbc m e dbc);;
  upd_mem (λ m, set_i m e).

(** The loop over the entries, with [n] of them left; the declared array has 128
    entries, and an access behind them is undefined. *)
Fixpoint fill_prdt (n : nat) (port_mem i buf remaining_sectors : Z) : A unit :=
  match n with
  | O => mret tt
  | S n =>
      if 128 <=? i then fault else
      let sectors_this_entry := if remaining_sectors <? 16 then remaining_sectors else 16 in
      fill_prdt_entry port_mem i buf (Z.shiftl sectors_this_entry 9 - 1);;
      fill_prdt n port_mem (i + 1) (u64 (buf + Z.shiftl sectors_this_entry 9)) (remaining_sectors - sectors_this_entry)
  end.

Definition fill_fis (port_mem command lba sector_count : Z) : A unit :=
  let fis := port_ct port_mem in
  upd_mem (λ m, store8 m fis 0x27);;
  upd_mem (λ m, set_fis_c m fis);;
  upd_mem (λ m, store8 m (fis + 2) command);;
  upd_mem (λ m, store8 m (fis + 7) (Z.shiftl 1 6));;
  upd_mem (λ m, store8 m (fis + 4) lba);;
  upd_mem (λ m, store8 m (fis + 5) (Z.shiftr lba 8));;
  upd_mem (λ m, store8 m (fis + 6) (Z.shiftr lba 16));;
  upd_mem (λ m, store8 m (fis + 8) (Z.shiftr lba 24));;
  upd_mem (λ m, store8 m (fis + 9) (Z.shiftr lba 32));;
  upd_mem (λ m, store8 m (fis + 10) (Z.shiftr lba 40));;
  upd_mem (λ m, store8 m (fis + 12) (Z.land sector_count 0xFF));;
  upd_mem (λ m, store8 m (fis + 13) (Z.land (Z.shiftr sector_count 8) 0xFF)).

(** From the addresses to the restart of the port: the part that reading and
    writing share up to the flags and the command. *)
Definition prepare (port_base port_mem lba sector_count buffer flags command : Z) : A unit :=
  set_port_addresses port_base port_mem;;
  reg_and (port_base + 0x18) (u32 (Z.lnot 0x01));;
  reg_and (port_base + 0x18) (u32 (Z.lnot (Z.shiftl 1 4)));;
  wait_stopped port_base;;
  let prdt_entries := (sector_count + 15) / 16 in
  fill_header port_mem flags prdt_entries;;
  fill_prdt (Z.to_nat prdt_entries) port_mem 0 buffer sector_count;;
  fill_fis port_mem command lba sector_count;;
  reg_write (port_base + 0x10) 0xFFFFFFFF;;
  reg_or (port_base + 0x18) (Z.shiftl 1 4);;
  reg_or (port_base + 0x18) 0x01.

(** ** Waiting for the command *)

(** [None]: a task-file error; else the value of [timeout], which the test
    [timeout--] has stepped below 0 when it expires. *)
Fixpoint wait_ci (timeout : nat) (port_base : Z) : A (option Z) :=
  ci ← reg_read (port_base + 0x38);
  if Z.land ci 1 =? 0 then mret (Some (Z.of_nat timeout)) else
  match timeout with
  | O => mret (Some (u32 (-1)))
  | S timeout =>
      ist ← reg_read (port_base + 0x10);
      if negb (Z.land ist (Z.shiftl 1 30) =? 0) then mret None else
      in_time (udelay fuel 10);;
      wait_ci timeout port_base
  end.

(** Without the test for errors. *)
Fixpoint wait_ci_blind (timeout : nat) (port_base : Z) : A unit :=
  ci ← reg_read (port_base + 0x38);
  if Z.land ci 1 =? 0 then mret tt else
  match timeout with
  | O => mret tt
  | S timeout => in_time (udelay fuel 10);; wait_ci_blind timeout port_base
  end.

(** ** The commands *)

(** The block for the structures, cleared; [None] when there is none. *)
Definition alloc_port_mem (order : Z) : A (option (Z * Z)) :=
  phys_addr ← in_vmm (in_pmm (palloc_order order));
  if phys_addr =? 0 then mret None else
  port_mem ← in_vmm (phys_to_virt phys_addr);
  upd_mem (λ m, memset_z m port_mem 0 (4096 * Z.shiftl 1 order));;
  mret (Some (phys_addr, port_mem)).
Definition free_port_mem (phys_addr order : Z) : A unit := in_vmm (in_pmm (pfree_order phys_addr order)).

Definition sata_ahci_read_sector (port_base lba sector_count buffer : Z) : A Z :=
  mem ← alloc_port_mem 6;
  match mem with
  | None => mret (-1)
  | Some (phys_addr, port_mem) =>
      prepare port_base port_mem lba sector_count buffer 5 0x25;;
      in_vmm (phys_flush_cache port_mem sizeof_port_mem);;
      reg_write (port_base + 0x38) 1;;
      r ← wait_ci (Z.to_nat 1000000) port_base;
      match r with
      | None => free_port_mem phys_addr 6;; mret (-1)
      | Some timeout =>
          in_vmm (phys_invalidate_cache buffer (sector_count * 512));;
          if timeout =? 0 then free_port_mem phys_addr 6;; mret (-1) else
          in_vmm (phys_invalidate_cache buffer (sector_count * 512));;
          free_port_mem phys_addr 6;;
          mret 0
      end
  end.

Definition sata_ahci_write_sector (port_base lba sector_count buffer : Z) : A Z :=
  mem ← alloc_port_mem 6;
  match mem with
  | None => mret (-1)
  | Some (phys_addr, port_mem) =>
      prepare port_base port_mem lba sector_count buffer (Z.lor 5 (Z.shiftl 1 6)) 0x35;;
      in_vmm (phys_flush_cache buffer (sector_count * 512));;
      in_vmm (phys_flush_cache port_mem sizeof_port_mem);;
      reg_write (port_base + 0x38) 1;;
      r ← wait_ci (Z.to_nat 1000000) port_base;
      match r with
      | None => free_port_mem phys_addr 6;; mret (-1)
      | Some timeout =>
          if timeout =? 0 then free_port_mem phys_addr 6;; mret (-1) else
          free_port_mem phys_addr 6;;
          mret 0
      end
  end.

Definition sata_ahci_identify (port_base buffer : Z) : A Z :=
  mem ← alloc_port_mem 2;
  match mem with
  | None => mret (-1)
  | Some (phys_addr, port_mem) =>
      set_port_addresses port_base port_mem;;
      reg_and (port_base + 0x18) (u32 (Z.lnot 0x11));;
      wait_stopped port_base;;
      fill_header port_mem 5 1;;
      fill_prdt_entry port_mem 0 buffer (512 - 1);;
      upd_mem (λ m, store8 m (port_ct port_mem) 0x27);;
      upd_mem (λ m, set_fis_c m (port_ct port_mem));;
      upd_mem (λ m, store8 m (port_ct port_mem + 2) 0xEC);;
      reg_write (port_base + 0x10) 0xFFFFFFFF;;
      reg_or (port_base + 0x18) 0x11;;
      in_vmm (phys_invalidate_cache buffer 512);;
      in_vmm (phys_flush_cache port_mem sizeof_port_mem);;
      reg_write (port_base + 0x38) 1;;
      wait_ci_blind (Z.to_nat 1000000) port_base;;
      in_vmm (phys_invalidate_cache buffer 512);;
      free_port_mem phys_addr 2;;
      mret 0
  end.

Definition sata_get_port : A Z := gets dr_globals.
Definition sata_read_lba (lba count buffer : Z) : A Z :=
  p ← gets dr_globals;
  if p =? 0 then mret (-1) else sata_ahci_read_sector p lba count buffer.
Definition sata_write_lba (lba count buffer : Z) : A Z :=
  p ← gets dr_globals;
  if p =? 0 then mret (-1) else sata_ahci_write_sector p lba count buffer.
End sata.

(** ** Operations that are not implemented *)

Definition sata_ahci_read_sector_satapi (port_base lba sector_count buffer : Z) : Z := -1.
Definition sata_ahci_identify_satapi (port_base buffer : Z) : Z := -1.
Definition sata_ahci_identify_satapi_properly (port_base buffer : Z) : Z := -1.
Definition drive_read (device lba sector_count buf : Z) : Z := -1.
Definition drive_write (device lba sector_count buf : Z) : Z := -1.
Definition list_directories (device fs read_disk directory_path : Z) : Z := -1.
