(* ===== verification/SataProof.v ===== *)
(** * SATA disks: what a command does

    The command structures that the driver builds, read back as the AHCI
    standard says a controller reads them; and, against a controller that obeys
    the standard ([AhciPort]) and an allocator ([BlockAllocator]), what reading
    and writing sectors do to memory and disk. *)
From Stdlib Require Import ZArith Lia.
From stdpp Require Import base option gmap list.
From S2P Require Import Prelude Memory Pmm PmmProof PmmIface Vmm Endian Hoare Io Ktime PmmBlocks Dma Sata.

(** ** A command as the controller reads it

    [cl] is the address of the command list, [hh] the offset of the direct map. *)
Definition pair32 (m : memory) (a : Z) : Z := load32 m a + 2 ^ 32 * load32 m (a + 4).
Definition cmd_table (hh : Z) (m : memory) (cl : Z) : Z := hh + pair32 m (cl + 8).
Definition region (hh : Z) (m : memory) (tbl i : Z) : Z * Z :=
  let e := prdt_entry tbl i in (hh + pair32 m e, load32 m (e + 12) `mod` 2 ^ 22 + 1).
Definition regions (hh : Z) (m : memory) (cl : Z) : list (Z * Z) :=
  region hh m (cmd_table hh m cl) <$> seqZ 0 (load16 m (cl + 2)).
(** The addresses of the bytes of the transfer, in order. *)
Definition transfer_addrs (rs : list (Z * Z)) : list Z := rs ≫= λ r, seqZ r.1 r.2.

Definition fis_lba (m : memory) (f : Z) : Z :=
  load8 m (f + 4) + 2 ^ 8 * load8 m (f + 5) + 2 ^ 16 * load8 m (f + 6) + 2 ^ 24 * load8 m (f + 8) +
  2 ^ 32 * load8 m (f + 9) + 2 ^ 40 * load8 m (f + 10).
Definition fis_count (m : memory) (f : Z) : Z := load8 m (f + 12) + 2 ^ 8 * load8 m (f + 13).

(** A DMA command of [n] sectors at [lba], to or from the addresses [seqZ buffer (512 * n)]. *)
Record dma_command (hh : Z) (m : memory) (cl : Z) (wr : bool) (lba n : Z) (addrs : list Z) : Prop := {
  dc_cfl : load16 m cl `mod` 32 = 5;
  dc_write : Z.testbit (load16 m cl) 6 = wr;
  dc_type : load8 m (cmd_table hh m cl) = 0x27;
  dc_c : Z.testbit (load8 m (cmd_table hh m cl + 1)) 7 = true;
  dc_command : load8 m (cmd_table hh m cl + 2) = if wr then 0x35 else 0x25;
  dc_device : Z.testbit (load8 m (cmd_table hh m cl + 7)) 6 = true;
  dc_lba : fis_lba m (cmd_table hh m cl) = lba;
  dc_count : fis_count m (cmd_table hh m cl) = n;
  dc_addrs : transfer_addrs (regions hh m cl) = addrs;
  (* the alignments that the standard asks for *)
  dc_table : pair32 m (cl + 8) `mod` 128 = 0;
  dc_even : Forall (λ r, (r.1 - hh) `mod` 2 = 0 ∧ r.2 `mod` 2 = 0) (regions hh m cl);
}.

(** ** The structures in memory *)

Lemma lor_bit31 x : 0 ≤ x < 2 ^ 31 → Z.lor x (Z.shiftl 1 31) = x + 2 ^ 31.
Proof. intros H. rewrite shiftl_1 by lia. replace (2 ^ 31) with (1 * 2 ^ 31) at 1 by lia. rewrite lor_low_high by lia. lia. Qed.

Definition entry_mem (m : memory) (e phys dbc : Z) : memory :=
  set_i (set_dbc (store32 (store32 m e phys) (e + 4) (Z.shiftr phys 32)) e dbc) e.

Lemma entry_mem_ok m e phys dbc : load32 m (e + 12) = 0 → 0 ≤ phys < 2 ^ 64 → 0 ≤ dbc < 2 ^ 22 →
  let m' := entry_mem m e phys dbc in
  pair32 m' e = phys ∧ load32 m' (e + 12) `mod` 2 ^ 22 = dbc ∧ outside e (e + 16) m m'.
Proof.
  intros Hz Hp Hd m'. unfold m', entry_mem, set_i, set_dbc.
  set (m2 := store32 (store32 m e phys) (e + 4) (Z.shiftr phys 32)).
  assert (E2 : load32 m2 (e + 12) = 0) by (unfold m2; by rewrite !load32_store32_ne by lia). rewrite E2, Z.land_0_l, Z.lor_0_l.
  assert (Ed : Z.land dbc 0x3FFFFF = dbc) by (change 0x3FFFFF with (2 ^ 22 - 1); rewrite land_ones_mod by lia; apply Z.mod_small; lia). rewrite Ed.
  rewrite load32_store32_eq, (u32_small dbc) by lia.
  assert (Ed' : Z.land dbc 0x7FFFFFFF = dbc) by (change 0x7FFFFFFF with (2 ^ 31 - 1); rewrite land_ones_mod by lia; apply Z.mod_small; lia). rewrite Ed', lor_bit31 by lia.
  splits.
  - unfold pair32. rewrite !load32_store32_ne by lia. unfold m2. rewrite load32_store32_eq, load32_store32_ne, load32_store32_eq by lia.
    rewrite Z.shiftr_div_pow2 by lia. unfold u32. zdiv.
  - rewrite load32_store32_eq, u32_small by lia. zdiv.
  - intros a Ha. unfold m2. by rewrite !load8_store32_ne by lia.
Qed.

Fixpoint prdt_mem (n : nat) (hh : Z) (m : memory) (P i buf rem : Z) : memory :=
  match n with
  | O => m
  | S n =>
      let k := if rem <? 16 then rem else 16 in
      prdt_mem n hh (entry_mem m (prdt_entry (port_ct P) i) (buf - hh) (512 * k - 1)) P (i + 1) (buf + 512 * k) (rem - k)
  end.

Lemma region_ext hh m m' tbl i : (∀ a, prdt_entry tbl i ≤ a < prdt_entry tbl i + 16 → load8 m' a = load8 m a) → region hh m' tbl i = region hh m tbl i.
Proof. intros H. unfold region, pair32. by rewrite !(load_ext 4 m' m) by (intros b Hb; apply H; lia). Qed.

Lemma prdt_mem_ok hh P n : ∀ m i buf rem, 0 ≤ i → 0 ≤ hh ≤ buf → (buf - hh) `mod` 2 = 0 → 0 < rem → buf + 512 * rem ≤ 2 ^ 64 → Z.of_nat n = (rem + 15) / 16 →
  (∀ a, prdt_entry (port_ct P) i ≤ a < prdt_entry (port_ct P) (i + Z.of_nat n) → load8 m a = 0) →
  let m' := prdt_mem n hh m P i buf rem in
  transfer_addrs (region hh m' (port_ct P) <$> seqZ i (Z.of_nat n)) = seqZ buf (512 * rem) ∧
  Forall (λ r, (r.1 - hh) `mod` 2 = 0 ∧ r.2 `mod` 2 = 0) (region hh m' (port_ct P) <$> seqZ i (Z.of_nat n)) ∧
  outside (prdt_entry (port_ct P) i) (prdt_entry (port_ct P) (i + Z.of_nat n)) m m'.
Proof.
  induction n as [|n IH]; intros m i buf rem Hi Hb Hev Hr Hmax Hn Hz; [exfalso; zdiv|]. cbn [prdt_mem].
  set (k := if rem <? 16 then rem else 16). assert (Hk : k = Z.min rem 16) by (unfold k; destruct (Z.ltb_spec rem 16); lia).
  set (e := prdt_entry (port_ct P) i). set (m1 := entry_mem m e (buf - hh) (512 * k - 1)). cbv zeta.
  assert (He : ∀ j, prdt_entry (port_ct P) j = port_ct P + 128 + 16 * j) by done.
  destruct (entry_mem_ok m e (buf - hh) (512 * k - 1)) as (Ea & Ed & Eo); [|lia|lia|].
  { apply load_zeros. intros b Hb'. apply Hz. unfold e, prdt_entry in *. lia. }
  fold m1 in Ea, Ed, Eo.
  assert (Er : region hh m1 (port_ct P) i = (buf, 512 * k)) by (unfold region; fold e; rewrite Ea, Ed; f_equal; lia).
  rewrite Nat2Z.inj_succ, seqZ_cons, Z.pred_succ by lia. cbn [fmap list_fmap]. unfold transfer_addrs. rewrite bind_cons.
  destruct (decide (rem ≤ 16)) as [Hl|Hl].
  - assert (n = 0%nat) as -> by zdiv. cbn [prdt_mem seqZ]. rewrite Er. cbn [fst snd]. rewrite Hk, Z.min_l by lia. cbn. rewrite app_nil_r. splits; [done|apply Forall_cons; split; [cbn; zdiv|done]|].
    eapply outside_mono; [exact Eo|lia|]. unfold e. rewrite !He. lia.
  - destruct (IH m1 (i + 1) (buf + 512 * k) (rem - k)) as (IHa & IHe & IHo); [lia|lia|zdiv|lia|lia|zdiv| |].
    { intros a Ha. rewrite Eo by (unfold e, prdt_entry in *; lia). apply Hz. unfold prdt_entry in *. lia. }
    cbv zeta in IHa, IHe, IHo. set (m' := prdt_mem n hh m1 P (i + 1) (buf + 512 * k) (rem - k)) in *.
    rewrite (region_ext hh m1 m'), Er by (intros a Ha; apply IHo; unfold prdt_entry in *; lia). cbn [fst snd].
    rewrite <-Z.add_1_r. unfold transfer_addrs in IHa. rewrite IHa. splits.
    + replace (512 * rem) with (512 * k + (512 * rem - 512 * k)) by lia. rewrite seqZ_app by lia. f_equal. f_equal. lia.
    + rewrite Forall_cons. split; [|done]. cbn. rewrite Hk. zdiv.
    + eapply outside_trans; [eapply outside_mono; [exact Eo|unfold e; lia|unfold e, prdt_entry; lia]|]. eapply outside_mono; [exact IHo|unfold e, prdt_entry; lia|unfold e, prdt_entry; lia].
Qed.

Definition header_mem (hh : Z) (m : memory) (P flags k : Z) : memory :=
  let ct := port_ct P - hh in
  store32 (store32 (store16 (store16 m P flags) (P + 2) k) (P + 8) ct) (P + 12) (Z.shiftr ct 32).
Lemma header_mem_ok hh m P flags k : 0 ≤ flags < 2 ^ 16 → 0 ≤ k < 2 ^ 16 → 0 ≤ hh ≤ P → P + sizeof_port_mem ≤ 2 ^ 64 →
  let m' := header_mem hh m P flags k in
  load16 m' P = flags ∧ load16 m' (P + 2) = k ∧ cmd_table hh m' P = port_ct P ∧ outside P (P + 16) m m'.
Proof.
  intros Hf Hk Hh HP m'. unfold sizeof_port_mem in HP. unfold m', header_mem, load16, store16, load32, store32, cmd_table, pair32. splits.
  - rewrite !(load_store_ne 2) by lia. rewrite load_store_eq. apply Z.mod_small. lia.
  - rewrite !(load_store_ne 2 4) by lia. rewrite load_store_eq. apply Z.mod_small. lia.
  - replace (P + 8 + 4) with (P + 12) by lia. unfold load32. rewrite load_store_eq, (load_store_ne 4 4), load_store_eq by lia.
    change (Z.of_nat 4) with 4. rewrite Z.shiftr_div_pow2 by lia. unfold port_ct. zdiv.
  - intros a Ha. by rewrite !load8_store, !decide_False by lia.
Qed.

Definition fis_mem (m : memory) (f command lba n : Z) : memory :=
  store8 (store8 (store8 (store8 (store8 (store8 (store8 (store8 (store8 (store8 (set_fis_c (store8 m f 0x27) f) (f + 2) command)
    (f + 7) (Z.shiftl 1 6)) (f + 4) lba) (f + 5) (Z.shiftr lba 8)) (f + 6) (Z.shiftr lba 16)) (f + 8) (Z.shiftr lba 24))
    (f + 9) (Z.shiftr lba 32)) (f + 10) (Z.shiftr lba 40)) (f + 12) (Z.land n 0xFF)) (f + 13) (Z.land (Z.shiftr n 8) 0xFF).

Ltac at_byte := repeat first [rewrite load8_store8_eq | rewrite load8_store8_ne by lia].
Lemma fis_mem_ok m f command lba n : 0 ≤ command < 256 → 0 ≤ lba < 2 ^ 48 → 0 ≤ n < 2 ^ 16 →
  let m' := fis_mem m f command lba n in
  load8 m' f = 0x27 ∧ Z.testbit (load8 m' (f + 1)) 7 = true ∧ load8 m' (f + 2) = command ∧ Z.testbit (load8 m' (f + 7)) 6 = true ∧
  fis_lba m' f = lba ∧ fis_count m' f = n ∧ outside f (f + 16) m m'.
Proof.
  intros Hc Hl Hn m'. unfold m', fis_mem, set_fis_c. splits.
  - by at_byte.
  - at_byte. change 0x7F with (2 ^ 7 - 1). rewrite land_ones_mod by lia. unfold u8. rewrite (Z.mod_pow2_bits_low _ 8), Z.lor_spec by lia.
    by rewrite orb_true_r.
  - at_byte. apply Z.mod_small. lia.
  - by at_byte.
  - unfold fis_lba. at_byte. rewrite !Z.shiftr_div_pow2 by lia. unfold u8. zdiv.
  - unfold fis_count. at_byte. change 0xFF with (2 ^ 8 - 1). rewrite !land_ones_mod, Z.shiftr_div_pow2 by lia. unfold u8. zdiv.
  - intros a Ha. by at_byte.
Qed.

(** The structures of a command in the block at [P]. *)
Definition command_mem (hh : Z) (m : memory) (P : Z) (wr : bool) (lba n buf : Z) : memory :=
  let k := (n + 15) / 16 in
  fis_mem (prdt_mem (Z.to_nat k) hh (header_mem hh m P (if wr then 69 else 5) k) P 0 buf n) (port_ct P) (if wr then 0x35 else 0x25) lba n.

Lemma command_mem_ok hh m P wr lba n buf :
  (∀ a, P ≤ a < P + sizeof_port_mem → load8 m a = 0) → 0 ≤ hh ≤ P → (P - hh) `mod` 128 = 0 → P + sizeof_port_mem ≤ 2 ^ 64 →
  hh ≤ buf → (buf - hh) `mod` 2 = 0 → buf + 512 * n ≤ 2 ^ 64 → 0 ≤ lba < 2 ^ 48 → 0 < n < 2 ^ 16 →
  outside P (P + sizeof_port_mem) m (command_mem hh m P wr lba n buf) ∧
  ∀ m', outside (port_rfis P) (port_rfis P + 256) (command_mem hh m P wr lba n buf) m' →
    dma_command hh m' P wr lba n (seqZ buf (512 * n)).
Proof.
  intros Hz Hh Hal HP Hb Hev Hbm Hl Hn. unfold command_mem. set (k := (n + 15) / 16).
  assert (Hk : 0 < k ≤ 4096) by (unfold k; zdiv). unfold sizeof_port_mem in *.
  destruct (header_mem_ok hh m P (if wr then 69 else 5) k) as (H1 & H2 & H3 & H4); [by destruct wr|lia|lia|done|].
  set (m1 := header_mem _ _ _ _ _) in *.
  destruct (prdt_mem_ok hh P (Z.to_nat k) m1 0 buf n) as (P1 & P3 & P2); [lia|lia|lia|lia|lia|lia|..].
  { intros a Ha. unfold prdt_entry, port_ct in Ha. rewrite H4 by lia. apply Hz. lia. }
  set (m2 := prdt_mem _ _ _ _ _ _ _) in *.
  destruct (fis_mem_ok m2 (port_ct P) (if wr then 0x35 else 0x25) lba n) as (F1 & F2 & F3 & F4 & F5 & F6 & F7); [by destruct wr|lia|lia|].
  set (m3 := fis_mem _ _ _ _ _) in *. rewrite Z2Nat.id in P1, P2, P3 by lia. unfold prdt_entry, port_ct in P2. unfold port_ct in F7.
  split; [intros a Ha; rewrite F7, P2, H4 by lia; done|]. intros m' Hm'. unfold port_rfis in Hm'.
  assert (Hhd : ∀ a, P ≤ a < P + 16 → load8 m' a = load8 m1 a) by (intros a Ha; rewrite Hm', F7, P2 by lia; done).
  assert (Ec : cmd_table hh m' P = port_ct P).
  { rewrite <-H3. unfold cmd_table, pair32. by rewrite !(load_ext 4 m' m1) by (intros b Hb'; apply Hhd; lia). }
  assert (E0 : load16 m' P = if wr then 69 else 5) by (rewrite <-H1; apply load_ext; intros b Hb'; apply Hhd; lia).
  assert (E2 : load16 m' (P + 2) = k) by (rewrite <-H2; apply load_ext; intros b Hb'; apply Hhd; lia).
  assert (Ef : ∀ a, port_ct P ≤ a < port_ct P + 16 → load8 m' a = load8 m3 a) by (intros a Ha; unfold port_ct in Ha; apply Hm'; lia).
  assert (Er : regions hh m' P = region hh m2 (port_ct P) <$> seqZ 0 k).
  { unfold regions. rewrite Ec, E2. apply list_fmap_ext. intros i x Hx. apply lookup_seqZ in Hx as [-> Hx].
    apply region_ext. intros a Ha. unfold prdt_entry, port_ct in Ha. rewrite Hm', F7 by lia. done. }
  split; rewrite ?Ec, ?E0, ?Er; try done; try (by destruct wr).
  - rewrite Ef by lia. done.
  - rewrite Ef by lia. done.
  - rewrite Ef by lia. done.
  - rewrite Ef by lia. done.
  - rewrite <-F5. unfold fis_lba. by rewrite !Ef by lia.
  - rewrite <-F6. unfold fis_count. by rewrite !Ef by lia.
  - unfold cmd_table, port_ct in Ec. assert (pair32 m' (P + 8) = P - hh + 128 * 10) as -> by lia. by rewrite Z.mul_comm, Z_mod_plus_full.
Qed.

(** ** A controller that obeys the standard *)

Record request := mkRequest { rq_write : bool; rq_lba : Z; rq_count : Z; rq_addrs : list Z }.

(** What is known of a port: the two address registers (low, high), the bits
    ST and FRE of PxCMD, the bytes of the disk, and the command that runs, with
    the number of reads of PxCI that will still find it running. *)
Record port_view := mkPort {
  pv_clb : Z * Z; pv_fb : Z * Z; pv_st : bool; pv_fre : bool; pv_disk : Z → Z; pv_running : option (request * nat)
}.
Definition addr64 (x : Z * Z) : Z := x.1 + 2 ^ 32 * x.2.
Definition start_request (rq : request) (k : nat) (v : port_view) : port_view :=
  mkPort (pv_clb v) (pv_fb v) (pv_st v) (pv_fre v) (pv_disk v) (Some (rq, k)).
Definition end_request (disk : Z → Z) (v : port_view) : port_view :=
  mkPort (pv_clb v) (pv_fb v) (pv_st v) (pv_fre v) disk None.
Definition stopped (v : port_view) : Prop := pv_st v = false ∧ pv_fre v = false ∧ pv_running v = None.

(** The effect of writing register [r] when no command runs; [None]: the
    standard forbids it. *)
Definition reg_effect (r x : Z) (v : port_view) : option port_view :=
  let '(mkPort (clb, clbu) (fb, fbu) st fre disk running) := v in
  if running is Some _ then None
  else if r =? 0x00 then if st || negb (x `mod` 1024 =? 0) then None else Some (mkPort (x, clbu) (fb, fbu) st fre disk None)
  else if r =? 0x04 then if st then None else Some (mkPort (clb, x) (fb, fbu) st fre disk None)
  else if r =? 0x08 then if fre || negb (x `mod` 256 =? 0) then None else Some (mkPort (clb, clbu) (x, fbu) st fre disk None)
  else if r =? 0x0C then if fre then None else Some (mkPort (clb, clbu) (fb, x) st fre disk None)
  else if r =? 0x10 then Some v
  else if r =? 0x18 then
    let st' := Z.testbit x 0 in let fre' := Z.testbit x 4 in
    if st' && negb fre then None else if st && negb fre' then None else Some (mkPort (clb, clbu) (fb, fbu) st' fre' disk None)
  else None.

(** Where the controller writes on its own: the area of received FISes, and
    the byte count of the command header. *)
Definition fis_area (hh : Z) (v : port_view) (a : Z) : Prop := hh + addr64 (pv_fb v) ≤ a < hh + addr64 (pv_fb v) + 256.
Definition count_area (hh : Z) (v : port_view) (a : Z) : Prop := hh + addr64 (pv_clb v) + 4 ≤ a < hh + addr64 (pv_clb v) + 8.
Definition posted (hh : Z) (v : port_view) (m m' : memory) : Prop :=
  if pv_fre v then ∀ a, ¬ fis_area hh v a → load8 m' a = load8 m a else m' = m.
Definition touched (hh : Z) (v : port_view) (rq : request) (m m' : memory) : Prop :=
  ∀ a, ¬ fis_area hh v a → ¬ count_area hh v a → (rq_write rq = false → a ∉ rq_addrs rq) → load8 m' a = load8 m a.
(** The end of a request. *)
Definition transferred (v : port_view) (rq : request) (m m' : memory) (disk' : Z → Z) : Prop :=
  if rq_write rq then
    ∀ x, disk' x = if decide (512 * rq_lba rq ≤ x < 512 * (rq_lba rq + rq_count rq))
                   then load8 m (nth (Z.to_nat (x - 512 * rq_lba rq)) (rq_addrs rq) 0) else pv_disk v x
  else disk' = pv_disk v ∧ ∀ i a, rq_addrs rq !! i = Some a → load8 m' a = pv_disk v (512 * rq_lba rq + Z.of_nat i).

(** The request may be given to the controller: it is a DMA command for
    sectors of the disk, into memory that holds no structure of the command. *)
Record acceptable (hh sectors : Z) (v : port_view) (m : memory) (rq : request) : Prop := {
  ac_ready : pv_st v = true ∧ pv_fre v = true ∧ pv_running v = None;
  ac_command : dma_command hh m (hh + addr64 (pv_clb v)) (rq_write rq) (rq_lba rq) (rq_count rq) (rq_addrs rq);
  ac_range : 0 ≤ rq_lba rq ∧ 0 < rq_count rq ∧ rq_lba rq + rq_count rq ≤ sectors;
  ac_apart : ∀ a, a ∈ rq_addrs rq → ¬ fis_area hh v a ∧ ¬ count_area hh v a;
}.

(** A port whose registers are at [base] and whose disk has no faults. *)
Class AhciPort (D : Type) `{Mmio D} (base hh : Z) := {
  ap_view : D → port_view;
  ap_sectors : Z;
  ap_polls : D → nat;       (* reads of PxCMD until the engines have stopped *)
  ap_max_polls : nat;
  ap_max_latency : nat;     (* reads of PxCI during a command *)
  ap_disk_size : ap_sectors ≤ 2 ^ 48;
  ap_polls_bound : ∀ d, (ap_polls d ≤ ap_max_polls)%nat;
  ap_write : ∀ r x d m v', reg_effect r x (ap_view d) = Some v' →
    let '(d', m') := mmio_write (base + r) x (d, m) in ap_view d' = v' ∧ posted hh v' m m';
  ap_read_cmd : ∀ d m, pv_running (ap_view d) = None →
    let '(x, (d', m')) := mmio_read (base + 0x18) (d, m) in
    ap_view d' = ap_view d ∧ posted hh (ap_view d) m m' ∧
    Z.testbit x 0 = pv_st (ap_view d) ∧ Z.testbit x 4 = pv_fre (ap_view d) ∧
    (stopped (ap_view d) → ap_polls d' = pred (ap_polls d) ∧ (ap_polls d = 0%nat → Z.testbit x 14 = false ∧ Z.testbit x 15 = false));
  ap_issue : ∀ d m rq, acceptable hh ap_sectors (ap_view d) m rq →
    let '(d', m') := mmio_write (base + 0x38) 1 (d, m) in
    touched hh (ap_view d) rq m m' ∧ ∃ k, (k ≤ ap_max_latency)%nat ∧ ap_view d' = start_request rq k (ap_view d);
  ap_read_ci : ∀ d m rq k, pv_running (ap_view d) = Some (rq, k) → NoDup (rq_addrs rq) →
    let '(x, (d', m')) := mmio_read (base + 0x38) (d, m) in
    touched hh (ap_view d) rq m m' ∧ Z.testbit x 0 = negb (bool_decide (k = 0%nat)) ∧
    match k with
    | O => ∃ disk', ap_view d' = end_request disk' (ap_view d) ∧ transferred (ap_view d) rq m m' disk'
    | S k => ap_view d' = start_request rq k (ap_view d)
    end;
  ap_read_is : ∀ d m rq k, pv_running (ap_view d) = Some (rq, k) →
    let '(x, (d', m')) := mmio_read (base + 0x10) (d, m) in
    touched hh (ap_view d) rq m m' ∧ Z.testbit x 30 = false ∧ ap_view d' = ap_view d;
}.

(** Delays that return, as long as the clock satisfies [J]. *)
Class Delays {C} `{Ports C, Tsc C} (fuel : nat) (J : ktime C → Prop) : Prop := {
  delay_returns t : J t → ∃ x t', udelay fuel 10 t = Ok (x, t') ∧ J t';
}.

(** ** Building the command *)

Lemma testbit_u32 x k : 0 ≤ k < 32 → Z.testbit (u32 x) k = Z.testbit x k.
Proof. intros. unfold u32. apply Z.mod_pow2_bits_low. lia. Qed.

Definition low_high (a : Z) : Z * Z := (u32 a, u32 (Z.shiftr a 32)).
Lemma addr64_low_high a : 0 ≤ a < 2 ^ 64 → addr64 (low_high a) = a.
Proof. intros. unfold addr64, low_high, u32. cbn. rewrite Z.shiftr_div_pow2 by lia. zdiv. Qed.

Section driver.
Context {C D : Type} `{Ports C, Tsc C, AP : AhciPort D base hh} {fuel : nat} {J : ktime C → Prop} `{!Delays fuel J}.
(** The allocator after the block was taken. *)
Context (p1 : pmm).
Hypothesis Hpolls : (ap_max_polls < fuel)%nat.

Record at_port (m : memory) (v : port_view) (s : sata C D) : Prop := {
  at_pmm : v_pmm (dr_vmm s) = set_pmm_mem m p1;
  at_hh : v_hhdm (dr_vmm s) = hh;
  at_view : ap_view (dr_dev s) = v;
  at_time : J (dr_time s);
}.

Lemma run_upd_mem m v f : {{ at_port m v }} upd_mem f {{ λ _, at_port (f m) v }}.
Proof. intros s [Hp Hh Hv Hj]. do 2 eexists. split; [reflexivity|]. split; cbn; try done. unfold v_mem. by rewrite Hp. Qed.

Lemma run_virt_to_phys m v a : {{ at_port m v }} in_vmm (virt_to_phys a) {{ λ r s, r = u64 (a - hh) ∧ at_port m v s }}.
Proof. intros s [Hp Hh Hv Hj]. do 2 eexists. split; [reflexivity|]. cbn. rewrite Hh. split; [done|]. split; done. Qed.

Lemma run_flush m v a n : 0 ≤ a → 0 ≤ n → a + n + 64 ≤ 2 ^ 64 → {{ at_port m v }} in_vmm (phys_flush_cache a n) {{ λ _, at_port m v }}.
Proof.
  intros Ha Hn Hb s [Hp Hh Hv Hj]. destruct (phys_flush_cache_run a n (dr_vmm s)) as (s' & E & E1 & E2); [done..|].
  exists tt, (set_dr_vmm s' s). unfold in_vmm, zoom. rewrite E. split; [done|]. split; cbn; congruence.
Qed.

Lemma run_reg_write m v r x v' : reg_effect r (u32 x) v = Some v' →
  {{ at_port m v }} reg_write (base + r) x {{ λ _ s, ∃ m', posted hh v' m m' ∧ at_port m' v' s }}.
Proof.
  intros Hr s [Hp Hh Hv Hj]. do 2 eexists. split; [reflexivity|]. unfold v_mem. rewrite Hp. cbn [pmm_mem set_pmm_mem].
  subst v. pose proof (ap_write r (u32 x) (dr_dev s) m v' Hr) as HW. destruct (mmio_write _ _ _) as [d' m'].
  destruct HW as [Hv Hm]. exists m'. split; [done|]. split; cbn; try done. unfold v_mem. by rewrite Hp.
Qed.
(** While FRE is off the memory stays as it is. *)
Lemma run_reg_write_off m v r x v' : reg_effect r (u32 x) v = Some v' → pv_fre v' = false →
  {{ at_port m v }} reg_write (base + r) x {{ λ _, at_port m v' }}.
Proof.
  intros Hr Hf. eapply hoare_conseq; [by apply run_reg_write|done|]. intros _ s (m' & Hm & Hs). unfold posted in Hm. rewrite Hf in Hm. by subst.
Qed.

Definition cmd_bits (v : port_view) (x : Z) : Prop := Z.testbit x 0 = pv_st v ∧ Z.testbit x 4 = pv_fre v.
Lemma run_read_cmd m v : pv_running v = None →
  {{ at_port m v }} reg_read (base + 0x18) {{ λ x s, 0 ≤ x < 2 ^ 32 ∧ cmd_bits v x ∧ ∃ m', posted hh v m m' ∧ at_port m' v s }}.
Proof.
  intros Hr s [Hp Hh Hv Hj]. unfold reg_read, v_mem. rewrite Hp. cbn [pmm_mem set_pmm_mem]. subst v.
  pose proof (ap_read_cmd (dr_dev s) m Hr) as HW. destruct (mmio_read _ _) as [x [d' m']]. destruct HW as (Hv & Hm & Hb0 & Hb4 & _).
  do 2 eexists. split; [reflexivity|]. split; [apply u32_range|]. unfold cmd_bits. rewrite !testbit_u32 by lia. split; [done|].
  exists m'. split; [done|]. split; cbn; try done. unfold v_mem. by rewrite Hp.
Qed.

Lemma run_reg_update m v (f : Z → Z) v' : pv_running v = None → (∀ x, 0 ≤ x < 2 ^ 32 → cmd_bits v x → reg_effect 0x18 (u32 (f x)) v = Some v') →
  {{ at_port m v }} (x ← reg_read (base + 0x18); reg_write (base + 0x18) (f x)) {{ λ _ s, ∃ m' m'', posted hh v m m' ∧ posted hh v' m' m'' ∧ at_port m'' v' s }}.
Proof.
  intros Hr Hf. eapply hoare_bind; [by apply run_read_cmd|]. intros x. apply hoare_pure. intros Hx. apply hoare_pure. intros Hb s (m' & Hm & Hs).
  destruct (run_reg_write m' v 0x18 (f x) v' (Hf x Hx Hb) s Hs) as ([] & s' & E & m'' & H' & Hs'). eauto 10.
Qed.

(** The waiting loops of a stopped port. *)
Lemma wait_clear_run k n m v s : stopped v → (k = 14 ∨ k = 15) → (ap_polls (dr_dev s) < n)%nat → at_port m v s →
  ∃ s', wait_clear n (base + 0x18) (Z.shiftl 1 k) s = Ok (tt, s') ∧ at_port m v s'.
Proof.
  intros Hst Hk. revert s. induction n as [|n IH]; intros s Hn [Hp Hh Hv Hj]; [lia|]. cbn [wait_clear]. destruct Hst as (S1 & S2 & S3).
  pose proof (ap_read_cmd (dr_dev s) m) as HW. rewrite Hv in HW. specialize (HW S3).
  unfold reg_read at 1, mbind, M_bind, v_mem. rewrite Hp. cbn [pmm_mem set_pmm_mem].
  destruct (mmio_read _ _) as [x [d' m']]. destruct HW as (Hv' & Hm & _ & _ & Hpl). unfold posted in Hm. rewrite S2 in Hm. subst m'.
  destruct Hpl as [Hp' Hpl0]; [done|]. rewrite land_bit_eqb, testbit_u32 by lia.
  assert (Hs' : at_port m v (set_dr_dma (d', m) s)) by (split; cbn; [unfold v_mem; by rewrite Hp|done..]).
  destruct (Z.testbit x k) eqn:Ex; cbn; [|by eexists]. apply IH; [|done]. cbn. rewrite Hp'.
  destruct (ap_polls (dr_dev s)); [|lia]. exfalso. destruct (Hpl0 eq_refl). destruct Hk as [-> | ->]; congruence.
Qed.
Lemma run_wait_stopped m v : stopped v → {{ at_port m v }} wait_stopped fuel base {{ λ _, at_port m v }}.
Proof.
  intros Hst. eapply (hoare_bind _ (λ _, at_port m v)).
  - intros s Hs. destruct (wait_clear_run 15 fuel m v s) as (s' & E & Hs'); [done|by right|pose proof (ap_polls_bound (dr_dev s)); lia|done|].
    exists tt, s'. split; [exact E|exact Hs'].
  - intros []. intros s Hs. destruct (wait_clear_run 14 fuel m v s) as (s' & E & Hs'); [done|by left|pose proof (ap_polls_bound (dr_dev s)); lia|done|].
    exists tt, s'. done.
Qed.

(** One step of the driver, whose triple is [lem]. *)
Ltac run lem := eapply hoare_bind; [lem|]; first [intros ?; apply hoare_pure; intros -> | intros []].

Lemma run_fill_header m v P flags k : 0 ≤ hh → hh ≤ P → P + sizeof_port_mem ≤ 2 ^ 64 →
  {{ at_port m v }} fill_header P flags k {{ λ _, at_port (header_mem hh m P flags k) v }}.
Proof.
  intros Hh HP Hb. unfold sizeof_port_mem in Hb. unfold fill_header.
  run ltac:(apply run_upd_mem). run ltac:(apply run_upd_mem). run ltac:(apply run_virt_to_phys).
  rewrite u64_small by (unfold port_ct; lia). run ltac:(apply run_upd_mem). apply run_upd_mem.
Qed.

Lemma run_fill_prdt_entry m v P i buf dbc : 0 ≤ hh → hh ≤ buf < 2 ^ 64 →
  {{ at_port m v }} fill_prdt_entry P i buf dbc {{ λ _, at_port (entry_mem m (prdt_entry (port_ct P) i) (buf - hh) dbc) v }}.
Proof.
  intros Hh Hb. unfold fill_prdt_entry. run ltac:(apply run_virt_to_phys). rewrite u64_small by lia.
  run ltac:(apply run_upd_mem). run ltac:(apply run_upd_mem). run ltac:(apply run_upd_mem). apply run_upd_mem.
Qed.
Lemma run_fill_prdt v P n : ∀ m i buf rem, i + Z.of_nat n ≤ 128 → 0 ≤ hh → hh ≤ buf → 0 < rem → buf + 512 * rem < 2 ^ 64 → Z.of_nat n = (rem + 15) / 16 →
  {{ at_port m v }} fill_prdt n P i buf rem {{ λ _, at_port (prdt_mem n hh m P i buf rem) v }}.
Proof.
  induction n as [|n IH]; intros m i buf rem Hi Hh Hb Hr Hmax Hn; [exfalso; zdiv|]. cbn [fill_prdt prdt_mem].
  destruct (Z.leb_spec 128 i); [lia|].
  set (k := if rem <? 16 then rem else 16). assert (Hk : k = Z.min rem 16) by (unfold k; destruct (Z.ltb_spec rem 16); lia).
  rewrite Z.shiftl_mul_pow2, (Z.mul_comm k) by lia. run ltac:(apply run_fill_prdt_entry; lia). rewrite u64_small by lia.
  destruct n as [|n]; [by apply hoare_ret|]. apply IH; [lia|lia|lia|zdiv|lia|zdiv].
Qed.

Lemma run_fill_fis m v P command lba n :
  {{ at_port m v }} fill_fis P command lba n {{ λ _, at_port (fis_mem m (port_ct P) command lba n) v }}.
Proof. unfold fill_fis. do 11 (run ltac:(apply run_upd_mem)). apply run_upd_mem. Qed.

Lemma run_set_port_addresses m v P : stopped v → 0 ≤ hh → hh ≤ P → (P - hh) `mod` 1024 = 0 → P + sizeof_port_mem ≤ 2 ^ 64 →
  {{ at_port m v }} set_port_addresses base P
  {{ λ _, at_port m (mkPort (low_high (P - hh)) (low_high (P - hh + 1024)) false false (pv_disk v) None) }}.
Proof.
  intros (S1 & S2 & S3) Hh HP Hal Hb. unfold sizeof_port_mem in Hb. destruct v as [[cl clu] [fb fbu] st fre disk rn]. cbn in S1, S2, S3. subst.
  unfold set_port_addresses. run ltac:(apply run_virt_to_phys). rewrite u64_small by (unfold port_cl; lia).
  assert (A1 : u32 (P - hh) `mod` 1024 = 0) by (unfold u32; zdiv). assert (A2 : u32 (P - hh + 1024) `mod` 256 = 0) by (unfold u32; zdiv).
  run ltac:(eapply run_reg_write_off; [unfold reg_effect, port_cl; cbn [Z.eqb orb]; rewrite A1; reflexivity|reflexivity]).
  run ltac:(eapply run_reg_write_off; [reflexivity|reflexivity]). run ltac:(apply run_virt_to_phys).
  rewrite u64_small by (unfold port_rfis; lia). replace (port_rfis P - hh) with (P - hh + 1024) by (unfold port_rfis; lia).
  run ltac:(eapply run_reg_write_off; [unfold reg_effect; cbn [Z.eqb orb Pos.eqb]; rewrite A2; reflexivity|reflexivity]).
  eapply run_reg_write_off; [reflexivity|reflexivity].
Qed.

(** The port with the addresses of the block at [P]. *)
Definition port_with (P : Z) (st fre : bool) (disk : Z → Z) (rn : option (request * nat)) : port_view :=
  mkPort (low_high (P - hh)) (low_high (P - hh + 1024)) st fre disk rn.
Lemma posted_outside P st fre disk rn m m' : hh ≤ P → 0 ≤ hh → P + sizeof_port_mem ≤ 2 ^ 64 →
  posted hh (port_with P st fre disk rn) m m' → outside (port_rfis P) (port_rfis P + 256) m m'.
Proof.
  intros HP Hh Hb. unfold sizeof_port_mem in Hb. unfold posted, port_with, outside, fis_area, port_rfis. cbn [pv_fre pv_fb].
  destruct fre; [|by intros ->]. rewrite addr64_low_high by lia. intros Hm a Ha. apply Hm. lia.
Qed.

Lemma reg_effect_cmd x clb fb st fre disk : 0 ≤ x → reg_effect 0x18 (u32 x) (mkPort clb fb st fre disk None) =
  if Z.testbit x 0 && negb fre then None else if st && negb (Z.testbit x 4) then None
  else Some (mkPort clb fb (Z.testbit x 0) (Z.testbit x 4) disk None).
Proof. intros. rewrite <-!(testbit_u32 x) by lia. by destruct clb, fb. Qed.

Lemma run_prepare m v P (wr : bool) lba n buf : stopped v → 0 ≤ hh → hh ≤ P → (P - hh) `mod` 1024 = 0 → P + sizeof_port_mem ≤ 2 ^ 64 →
  hh ≤ buf → buf + 512 * n < 2 ^ 64 → 0 < n ≤ 2048 →
  {{ at_port m v }} prepare fuel base P lba n buf (if wr then 69 else 5) (if wr then 0x35 else 0x25)
  {{ λ _ s, ∃ m', outside (port_rfis P) (port_rfis P + 256) (command_mem hh m P wr lba n buf) m' ∧
       at_port m' (port_with P true true (pv_disk v) None) s }}.
Proof.
  intros Hst Hh HP Hal Hb Hbuf Hbufm Hn. unfold prepare.
  run ltac:(by apply run_set_port_addresses). fold (port_with P false false (pv_disk v) None). set (v1 := port_with P false false (pv_disk v) None).
  assert (Hclr : ∀ mask, 0 ≤ mask → {{ at_port m v1 }} reg_and (base + 0x18) mask {{ λ _, at_port m v1 }}).
  { intros mask Hmask. eapply hoare_conseq; [apply (run_reg_update m v1 (λ x, Z.land x mask) v1); [done|]|done|].
    - intros x Hx [B0 B4]. unfold v1, port_with. rewrite reg_effect_cmd, !Z.land_spec, B0, B4 by (apply Z.land_nonneg; lia). done.
    - intros [] s (m' & m'' & -> & -> & Hs). done. }
  run ltac:(apply Hclr; done). run ltac:(apply Hclr; done). run ltac:(apply run_wait_stopped; done).
  run ltac:(apply run_fill_header; done). run ltac:(apply run_fill_prdt; first [lia|zdiv|idtac]).
  run ltac:(apply run_fill_fis). fold (command_mem hh m P wr lba n buf). set (mc := command_mem hh m P wr lba n buf).
  run ltac:(eapply (run_reg_write_off mc v1 0x10); reflexivity).
  set (v2 := port_with P false true (pv_disk v) None).
  eapply (hoare_bind _ (λ _ s, ∃ m', outside (port_rfis P) (port_rfis P + 256) mc m' ∧ at_port m' v2 s)).
  - eapply hoare_conseq; [apply (run_reg_update mc v1 (λ x, Z.lor x (Z.shiftl 1 4)) v2); [done|]|done|].
    + intros x Hx [B0 B4]. unfold v1, port_with. rewrite reg_effect_cmd, !Z.lor_spec, B0, B4 by (apply Z.lor_nonneg; split; [lia|done]). done.
    + intros [] s (m' & m'' & -> & Hp & Hs). exists m''. split; [by eapply posted_outside|done].
  - intros [] s (m' & Hm' & Hs).
    destruct (run_reg_update m' v2 (λ x, Z.lor x 1) (port_with P true true (pv_disk v) None) eq_refl) with (s := s) as ([] & s' & E & m1 & m2 & H1' & H2' & Hs'); [|done|].
    + intros x Hx [B0 B4]. unfold v2, port_with. rewrite reg_effect_cmd, !Z.lor_spec, B0, B4 by (apply Z.lor_nonneg; split; [lia|done]). done.
    + exists tt, s'. split; [exact E|]. exists m2. split; [|done].
      apply posted_outside in H1', H2'; try done. by eapply outside_trans; [|eapply outside_trans].
Qed.

(** ** The command runs *)

Lemma touched_refl v rq m : touched hh v rq m m.
Proof. by intros a. Qed.
Lemma touched_trans v rq m1 m2 m3 : touched hh v rq m1 m2 → touched hh v rq m2 m3 → touched hh v rq m1 m3.
Proof. intros Ha Hb a ? ? ?. by rewrite Hb, Ha. Qed.

Lemma run_issue m v rq : acceptable hh ap_sectors v m rq →
  {{ at_port m v }} reg_write (base + 0x38) 1
  {{ λ _ s, ∃ k m', (k ≤ ap_max_latency)%nat ∧ touched hh v rq m m' ∧ at_port m' (start_request rq k v) s }}.
Proof.
  intros Hac s [Hp Hh Hv Hj]. do 2 eexists. split; [reflexivity|]. unfold v_mem. rewrite Hp. cbn [pmm_mem set_pmm_mem].
  subst v. pose proof (ap_issue (dr_dev s) m rq Hac) as HW. change (u32 1) with 1. destruct (mmio_write _ _ _) as [d' m'].
  destruct HW as (Ht & k & Hk & Hv). exists k, m'. splits; [done|done|]. split; cbn; try done. unfold v_mem. by rewrite Hp.
Qed.

Lemma run_read_is m v rq k : {{ at_port m (start_request rq k v) }} reg_read (base + 0x10)
  {{ λ x s, (Z.land x (Z.shiftl 1 30) =? 0) = true ∧ ∃ m', touched hh v rq m m' ∧ at_port m' (start_request rq k v) s }}.
Proof.
  intros s [Hp Hh Hv Hj]. unfold reg_read, v_mem. rewrite Hp. cbn [pmm_mem set_pmm_mem].
  pose proof (ap_read_is (dr_dev s) m rq k) as HW. rewrite Hv in HW. specialize (HW eq_refl).
  destruct (mmio_read _ _) as [x [d' m']]. destruct HW as (Ht & Hb & Hv').
  do 2 eexists. split; [reflexivity|]. rewrite land_bit_eqb, testbit_u32, Hb by lia. split; [done|].
  exists m'. split; [done|]. split; cbn; try done. unfold v_mem. by rewrite Hp.
Qed.

Lemma run_read_ci m v rq k : NoDup (rq_addrs rq) → {{ at_port m (start_request rq k v) }} reg_read (base + 0x38)
  {{ λ x s, (Z.land x 1 =? 0) = bool_decide (k = 0%nat) ∧ ∃ m', touched hh v rq m m' ∧
       match k with
       | O => ∃ disk', transferred v rq m m' disk' ∧ at_port m' (end_request disk' v) s
       | S k => at_port m' (start_request rq k v) s
       end }}.
Proof.
  intros Hnd s [Hp Hh Hv Hj]. unfold reg_read, v_mem. rewrite Hp. cbn [pmm_mem set_pmm_mem].
  pose proof (ap_read_ci (dr_dev s) m rq k) as HW. rewrite Hv in HW. specialize (HW eq_refl Hnd).
  destruct (mmio_read _ _) as [x [d' m']]. destruct HW as (Ht & Hb & Hv').
  do 2 eexists. split; [reflexivity|]. change 1 with (Z.shiftl 1 0). rewrite land_bit_eqb, testbit_u32, Hb, negb_involutive by lia. split; [done|].
  exists m'. split; [done|]. destruct k as [|k]; [destruct Hv' as (disk' & Hv' & Htr); exists disk'; split; [done|]|];
    (split; cbn; try done; unfold v_mem; by rewrite Hp).
Qed.

Lemma run_udelay m v : {{ at_port m v }} in_time (udelay fuel 10) {{ λ _, at_port m v }}.
Proof.
  intros s [Hp Hh Hv Hj]. destruct (delay_returns _ Hj) as (x & t' & E & Hj'). exists x, (set_dr_time t' s).
  unfold in_time, zoom. rewrite E. split; [done|]. by split.
Qed.

Lemma run_wait_ci v rq T : NoDup (rq_addrs rq) → ∀ m k, (k < T)%nat → {{ at_port m (start_request rq k v) }} wait_ci fuel T base
  {{ λ r s, r = Some (Z.of_nat (T - k)) ∧ ∃ m1 m' disk', touched hh v rq m m1 ∧ touched hh v rq m1 m' ∧ transferred v rq m1 m' disk' ∧
       at_port m' (end_request disk' v) s }}.
Proof.
  intros Hnd. induction T as [|T IH]; intros m k Hk; [lia|]. cbn [wait_ci]. eapply hoare_bind; [by apply run_read_ci|].
  intros x. apply hoare_pure. intros ->. destruct k as [|k].
  - apply hoare_ret. intros s (m' & Ht & disk' & Htr & Hs). split; [done|]. exists m, m', disk'. splits; [apply touched_refl|done..].
  - intros s (m2 & Ht & Hs). rewrite bool_decide_eq_false_2 by lia.
    enough ({{ at_port m2 (start_request rq k v) }} (ist ← reg_read (base + 0x10);
      if negb (Z.land ist (Z.shiftl 1 30) =? 0) then mret None else in_time (udelay fuel 10);; wait_ci fuel T base)
      {{ λ r s, r = Some (Z.of_nat (T - k)) ∧ ∃ m1 m' disk', touched hh v rq m2 m1 ∧ touched hh v rq m1 m' ∧ transferred v rq m1 m' disk' ∧
       at_port m' (end_request disk' v) s }}) as HW.
    { destruct (HW s Hs) as (r & s' & E & -> & m1 & m' & disk' & T1 & T2 & Htr & Hs'). do 2 eexists. split; [exact E|]. split; [done|].
      exists m1, m', disk'. splits; [by eapply touched_trans|done..]. }
    clear s Hs. eapply hoare_bind; [apply run_read_is|]. intros ist. apply hoare_pure. intros ->. cbn [negb]. intros s (m3 & Ht3 & Hs).
    destruct (run_udelay m3 _ s Hs) as (y & s2 & E2 & Hs2). destruct (IH m3 k ltac:(lia) s2 Hs2) as (r & s' & E & -> & m1 & m' & disk' & T1 & T2 & Htr & Hs').
    rewrite (bind_ok _ _ _ _ _ E2). do 2 eexists. split; [exact E|]. split; [done|].
    exists m1, m', disk'. splits; [by eapply touched_trans|done..].
Qed.

Hypothesis Hlatency : Z.of_nat ap_max_latency < 1000000.

Lemma run_issue_wait {X} m v rq (K : option Z → M (sata C D) X) Q : acceptable hh ap_sectors v m rq → NoDup (rq_addrs rq) →
  (∀ t m1 m' disk', 0 < t → touched hh v rq m m1 → touched hh v rq m m' → transferred v rq m1 m' disk' →
     {{ at_port m' (end_request disk' v) }} K (Some t) {{ Q }}) →
  {{ at_port m v }} (reg_write (base + 0x38) 1;; r ← wait_ci fuel (Z.to_nat 1000000) base; K r) {{ Q }}.
Proof.
  intros Hac Hnd HK s Hs. destruct (run_issue m v rq Hac s Hs) as ([] & s1 & E1 & k & m2 & Hk & Ht & Hs1). rewrite (bind_ok _ _ _ _ _ E1).
  destruct (run_wait_ci v rq (Z.to_nat 1000000) Hnd m2 k ltac:(lia) s1 Hs1) as (r & s2 & E2 & -> & m1 & m' & disk' & T1 & T2 & Htr & Hs2).
  rewrite (bind_ok _ _ _ _ _ E2). eapply HK; [|by eapply touched_trans| |exact Htr|exact Hs2]; [lia|].
  by eapply touched_trans; [|eapply touched_trans].
Qed.

(** ** The block of the command *)
Context {inv : pmm → (Z → Prop) → Prop} `{HPA : !PageAllocator inv, HBA : !BlockAllocator inv}.
Context (p : pmm) (F F1 : Z → Prop) (pa : Z).
Hypotheses (Htk : taken (inv := inv) p F 6 pa p1 F1) (Hoff : hhdm_offset p = hh).

Lemma block_geometry : 0 ≤ hh ∧ 0 < pa ∧ pa `mod` 4096 = 0 ∧ pa + hh + 262144 < 2 ^ 64 ∧
  ∀ a, in_block p1 6 pa a ↔ pa + hh ≤ a < pa + hh + 262144.
Proof.
  clear Hpolls Hlatency. destruct (held_geometry _ _ _ _ _ _ Htk) as (G1 & G2 & G3 & G4 & G5 & G6). rewrite Hoff in *.
  change (PAGE_SIZE * 2 ^ 6) with 262144 in *. splits; [done|done|zdiv|lia|]. intros a. rewrite G6. lia.
Qed.

(** From the cleared block to the flush: the command is ready to be issued. *)
Lemma run_transfer {X} m v (wr : bool) lba n buf (K : M (sata C D) X) Q :
  stopped v → (∀ a, pa + hh ≤ a < pa + hh + 262144 → load8 m a = 0) →
  0 ≤ lba → 0 < n ≤ 2048 → lba + n ≤ ap_sectors → hh ≤ buf → (buf - hh) `mod` 2 = 0 → buf + 512 * n + 64 ≤ 2 ^ 64 →
  (∀ a, buf ≤ a < buf + 512 * n → ¬ pa + hh ≤ a < pa + hh + 262144) →
  (∀ m', let rq := mkRequest wr lba n (seqZ buf (512 * n)) in let v' := port_with (pa + hh) true true (pv_disk v) None in
     outside (pa + hh) (pa + hh + 262144) m m' → acceptable hh ap_sectors v' m' rq → {{ at_port m' v' }} K {{ Q }}) →
  {{ at_port m v }} (prepare fuel base (pa + hh) lba n buf (if wr then 69 else 5) (if wr then 0x35 else 0x25);; K) {{ Q }}.
Proof.
  intros Hst Hz Hl Hn Hls Hb Hev Hbm Hap HK. pose proof block_geometry as (G1 & G2 & G3 & G4 & _). pose proof ap_disk_size as Hds.
  assert (Hsz : sizeof_port_mem = 132352) by done.
  destruct (command_mem_ok hh m (pa + hh) wr lba n buf) as [Ho Hc]; [intros a Ha; apply Hz; lia|lia|zdiv|lia|lia|lia|lia|lia|lia|].
  intros s Hs. destruct (run_prepare m v (pa + hh) wr lba n buf) with (s := s) as ([] & s1 & E1 & m' & Hm' & Hs1); [done|lia|lia|zdiv|lia|lia|lia|lia|done|].
  rewrite (bind_ok _ _ _ _ _ E1). refine (HK m' _ _ _ Hs1).
  - intros a Ha. unfold port_rfis in Hm'. rewrite Hm', Ho by lia. done.
  - assert (El : addr64 (low_high (pa + hh - hh)) = pa) by (rewrite addr64_low_high; lia).
    assert (Ef : addr64 (low_high (pa + hh - hh + 1024)) = pa + 1024) by (rewrite addr64_low_high; lia).
    split; cbn; [done| |lia|].
    + rewrite El, Z.add_comm. by apply Hc.
    + intros a Ha. apply elem_of_seqZ in Ha. specialize (Hap a Ha). unfold fis_area, count_area. cbn. rewrite El, Ef. lia.
Qed.
End driver.

(** ** Reading and writing sectors *)

Section disk.
Context {C D : Type} `{Ports C, Tsc C, AP : AhciPort D base hh} {fuel : nat} {J : ktime C → Prop} `{!Delays fuel J}.
Context {inv : pmm → (Z → Prop) → Prop} `{HPA : !PageAllocator inv, HBA : !BlockAllocator inv}.

(** A port that is stopped, and a buffer of the caller for [n] sectors. *)
Record sata_ready (s : sata C D) (F : Z → Prop) (lba n buf : Z) : Prop := {
  sr_polls : (ap_max_polls < fuel)%nat;
  sr_latency : Z.of_nat ap_max_latency < 1000000;
  sr_inv : inv (v_pmm (dr_vmm s)) F;
  sr_hh : v_hhdm (dr_vmm s) = hh ∧ hhdm_offset (v_pmm (dr_vmm s)) = hh;
  sr_stopped : stopped (ap_view (dr_dev s));
  sr_time : J (dr_time s);
  sr_range : 0 ≤ lba ∧ 0 < n ≤ 2048 ∧ lba + n ≤ ap_sectors;
  sr_buf : hh ≤ buf ∧ (buf - hh) `mod` 2 = 0 ∧ buf + 512 * n + 64 ≤ 2 ^ 64;
  sr_public : ∀ a, buf ≤ a < buf + 512 * n → ¬ private (v_pmm (dr_vmm s)) F a;
}.

(** The allocator has the same free pages as before, the clock still runs, and
    of the memory of the others only [W] may have changed. *)
Record sata_kept (W : Z → Prop) (F : Z → Prop) (s s' : sata C D) : Prop := {
  sk_inv : ∃ F', inv (v_pmm (dr_vmm s')) F' ∧ ∀ x, F' x ↔ F x;
  sk_layout : pmm_layout (v_pmm (dr_vmm s)) (v_pmm (dr_vmm s'));
  sk_hh : v_hhdm (dr_vmm s') = hh;
  sk_time : J (dr_time s');
  sk_memory : ∀ a, ¬ private (v_pmm (dr_vmm s)) F a → ¬ W a → load8 (v_mem (dr_vmm s')) a = load8 (v_mem (dr_vmm s)) a;
}.

(** The block at [pa] is taken and cleared. *)
Record block_taken (s : sata C D) (F : Z → Prop) (buf n pa : Z) (p1 : pmm) (F1 : Z → Prop) (m0 : memory) (s1 : sata C D) : Prop := {
  bt_taken : taken (inv := inv) (v_pmm (dr_vmm s)) F 6 pa p1 F1;
  bt_zero a : pa + hh ≤ a < pa + hh + 262144 → load8 m0 a = 0;
  bt_outside : outside (pa + hh) (pa + hh + 262144) (pmm_mem p1) m0;
  bt_apart a : buf ≤ a < buf + 512 * n → ¬ pa + hh ≤ a < pa + hh + 262144;
  bt_at : at_port (J := J) p1 m0 (ap_view (dr_dev s)) s1;
}.

Lemma alloc_port_mem_run s F lba n buf : sata_ready s F lba n buf →
  palloc_order 6 (v_pmm (dr_vmm s)) = Ok (0, v_pmm (dr_vmm s)) ∧ alloc_port_mem 6 s = Ok (None, s) ∨
  ∃ pa s1 p1 F1 m0, alloc_port_mem 6 s = Ok (Some (pa, pa + hh), s1) ∧ block_taken s F buf n pa p1 F1 m0 s1.
Proof.
  intros [_ _ Hinv [Hh Ho] _ Hj _ _ Hpub]. unfold alloc_port_mem.
  destruct (take_block _ _ 6 Hinv) as [E|(pa & p1 & F1 & E & Hpos & Htk)]; [done| |].
  - left. split; [done|]. unfold mbind, M_bind, in_vmm, in_pmm, zoom. rewrite E. destruct s as [[] ? ? ?]. done.
  - right. destruct (block_geometry (hh := hh) p1 _ F F1 pa Htk Ho) as (G1 & G2 & G3 & G4 & Hbl).
    assert (Eu : u64 (pa + hh) = pa + hh) by (apply u64_small; lia).
    pose proof (load8_memset_z (pmm_mem p1) (pa + hh) 0 262144) as Hset. set (m0 := memset_z (pmm_mem p1) (pa + hh) 0 262144) in *.
    exists pa, (set_dr_vmm (set_v_mem m0 (set_v_pmm p1 (dr_vmm s))) s), p1, F1, m0. split.
    + unfold mbind, M_bind, in_vmm, in_pmm, zoom. rewrite E. cbn. rewrite (proj2 (Z.eqb_neq pa 0)) by lia. cbn. rewrite Hh, Eu. reflexivity.
    + clearbody m0. split; try done.
      * intros a Ha. by rewrite Hset, decide_True.
      * intros a Ha. by rewrite Hset, decide_False.
      * intros a Ha Hb. apply (Hpub a Ha), (held_block _ _ _ _ _ _ _ Htk). by apply Hbl.
Qed.

(** What the command structures and the controller have written. *)
Lemma command_frame pa disk rq m m0 m2 m' : 0 ≤ hh → 0 < pa → pa + hh + 262144 < 2 ^ 64 →
  outside (pa + hh) (pa + hh + 262144) m m0 → outside (pa + hh) (pa + hh + 262144) m0 m2 →
  touched hh (port_with (hh := hh) (pa + hh) true true disk None) rq m2 m' →
  ∀ a, ¬ pa + hh ≤ a < pa + hh + 262144 → (rq_write rq = false → a ∉ rq_addrs rq) → load8 m' a = load8 m a.
Proof.
  intros G1 G2 G3 Hz Ho Ht a Ha Hw. rewrite Ht;
    [|unfold fis_area, port_with; cbn [pv_fb]; rewrite addr64_low_high; lia|unfold count_area, port_with; cbn [pv_clb]; rewrite addr64_low_high; lia|done].
  by rewrite Ho, Hz.
Qed.

(** The end of a command: memory and free pages are the caller's again. *)
Lemma command_end s F lba n buf pa p1 F1 m0 s1 m v (r : Z) (W : Z → Prop) (R : sata C D → Prop) :
  sata_ready s F lba n buf → block_taken s F buf n pa p1 F1 m0 s1 →
  (∀ a, W a → ¬ private (v_pmm (dr_vmm s)) F a) →
  (∀ a, ¬ pa + hh ≤ a < pa + hh + 262144 → ¬ W a → load8 m a = load8 (pmm_mem p1) a) →
  (∀ s', sata_kept W F s s' → ap_view (dr_dev s') = v →
     (∀ a, ¬ private (v_pmm (dr_vmm s)) F a → load8 (v_mem (dr_vmm s')) a = load8 m a) → R s') →
  {{ at_port (J := J) p1 m v }} (free_port_mem pa 6;; mret r) {{ λ x s', x = r ∧ R s' }}.
Proof.
  intros [_ _ _ [_ Ho] _ _ _ _ _] [Htk _ _ _ _] HW Hm HR s2 [Hp Hh Hv Hj].
  destruct (block_geometry (hh := hh) p1 _ F F1 pa Htk Ho) as (G1 & G2 & G3 & G4 & Hbl).
  destruct (give_back _ _ _ _ _ _ m Htk) as (p2 & F2 & E & HI2 & HF2 & HL2 & Hmem).
  { intros a Ha. apply Hm; [|intros Hw; by apply (HW a Hw), (held_private _ _ _ _ _ _ _ Htk)].
    intros Hb. by apply (held_block _ _ _ _ _ _ a Htk); [apply Hbl|]. }
  exists r, (set_dr_vmm (set_v_pmm p2 (dr_vmm s2)) s2). unfold free_port_mem, in_vmm, in_pmm, zoom, mbind, M_bind. rewrite Hp, E. split; [done|]. split; [done|].
  apply HR; [split; [by exists F2|done|done|done|]|done|done].
  intros a Ha Hw. assert (Hnb : ¬ pa + hh ≤ a < pa + hh + 262144) by (intros Hb; by apply Ha, (held_block _ _ _ _ _ _ _ Htk), Hbl).
  change (load8 (pmm_mem p2) a = load8 (v_mem (dr_vmm s)) a). rewrite Hmem, Hm by done. by apply (tk_mem _ _ _ _ _ _ Htk).
Qed.

(** C19: reading [n] sectors, 1 to 2048 of them (more do not fit the command table, see [sata_long_request_faults]), into an
    even address outside of the allocator's memory, from a stopped port with a fault-free disk that has these sectors
    and answers before the driver's limit ([sata_ready]), either returns -1 with nothing changed, because the allocator
    has no block of pages for the command, or returns 0 with the bytes of the sectors in the buffer; the disk and all
    other memory of the caller are as before, and so are the pages that are free. *)
Theorem sata_ahci_read_sector_correct s F lba n buf : sata_ready s F lba n buf →
  palloc_order 6 (v_pmm (dr_vmm s)) = Ok (0, v_pmm (dr_vmm s)) ∧ sata_ahci_read_sector fuel base lba n buf s = Ok (-1, s) ∨
  ∃ s', sata_ahci_read_sector fuel base lba n buf s = Ok (0, s') ∧
    sata_kept (λ a, buf ≤ a < buf + 512 * n) F s s' ∧
    (∀ i, 0 ≤ i < 512 * n → load8 (v_mem (dr_vmm s')) (buf + i) = pv_disk (ap_view (dr_dev s)) (512 * lba + i)) ∧
    pv_disk (ap_view (dr_dev s')) = pv_disk (ap_view (dr_dev s)).
Proof.
  intros Hr. pose proof Hr as [Hp Hl _ _ Hst _ (R1 & R2 & R3) (B1 & B2 & B3) Hpub]. unfold sata_ahci_read_sector.
  destruct (alloc_port_mem_run s F lba n buf Hr) as [[E0 E]|(pa & s1 & p1 & F1 & m0 & E & Hbt)]; rewrite (bind_ok _ _ _ _ _ E); [by left|right].
  pose proof Hbt as [Htk Hz Hm0 Hap Hs1]. destruct (block_geometry (hh := hh) p1 _ F F1 pa Htk (proj2 (sr_hh _ _ _ _ _ Hr))) as (G1 & G2 & G3 & G4 & _).
  eapply hoare_result; [|exact Hs1].
  eapply (run_transfer p1 Hp _ F F1 pa Htk (proj2 (sr_hh _ _ _ _ _ Hr)) _ _ false); try done.
  intros m2 rq v2 Hm2 Hac. eapply hoare_bind; [apply run_flush; unfold sizeof_port_mem; lia|]. intros [].
  apply (run_issue_wait p1 Hp Hl m2 v2 rq); [done|apply NoDup_seqZ|]. intros t m3 m' disk' Ht _ Htch [Hd Hdata].
  eapply hoare_bind; [apply run_flush; lia|]. intros []. rewrite (proj2 (Z.eqb_neq t 0)) by lia.
  eapply hoare_bind; [apply run_flush; lia|]. intros [].
  eapply (command_end s F lba n buf pa p1 F1 m0 s1 _ _ 0 (λ a, buf ≤ a < buf + 512 * n)); try done.
  - intros a Hb Hnw. refine (command_frame pa _ rq _ m0 m2 m' G1 G2 G4 Hm0 Hm2 Htch a Hb _). intros _ Hin. by apply elem_of_seqZ in Hin.
  - intros s' Hk Hv Hout. splits; [done| |by rewrite Hv, Hd].
    intros i Hi. rewrite Hout by (apply Hpub; lia). rewrite (Hdata (Z.to_nat i) (buf + i)).
    + cbn. by rewrite Z2Nat.id by lia.
    + cbn. apply lookup_seqZ. lia.
Qed.

(** C26: writing [n] sectors, 1 to 2048 of them (more do not fit the command table, see [sata_long_request_faults]), from an
    even address outside of the allocator's memory, to a stopped port with a fault-free disk that has these sectors and
    answers before the driver's limit ([sata_ready]), either returns -1 with nothing changed, because the allocator has
    no block of pages for the command, or returns 0 with the bytes of the buffer in the sectors; the rest of the disk, the
    memory of the caller and the free pages are as before. *)
Theorem sata_ahci_write_sector_correct s F lba n buf : sata_ready s F lba n buf →
  palloc_order 6 (v_pmm (dr_vmm s)) = Ok (0, v_pmm (dr_vmm s)) ∧ sata_ahci_write_sector fuel base lba n buf s = Ok (-1, s) ∨
  ∃ s', sata_ahci_write_sector fuel base lba n buf s = Ok (0, s') ∧
    sata_kept (λ _, False) F s s' ∧
    ∀ x, pv_disk (ap_view (dr_dev s')) x =
      if decide (512 * lba ≤ x < 512 * (lba + n)) then load8 (v_mem (dr_vmm s)) (buf + (x - 512 * lba)) else pv_disk (ap_view (dr_dev s)) x.
Proof.
  intros Hr. pose proof Hr as [Hp Hl _ _ Hst _ (R1 & R2 & R3) (B1 & B2 & B3) Hpub]. unfold sata_ahci_write_sector.
  destruct (alloc_port_mem_run s F lba n buf Hr) as [[E0 E]|(pa & s1 & p1 & F1 & m0 & E & Hbt)]; rewrite (bind_ok _ _ _ _ _ E); [by left|right].
  pose proof Hbt as [Htk Hz Hm0 Hap Hs1]. destruct (block_geometry (hh := hh) p1 _ F F1 pa Htk (proj2 (sr_hh _ _ _ _ _ Hr))) as (G1 & G2 & G3 & G4 & _).
  eapply hoare_result; [|exact Hs1].
  eapply (run_transfer p1 Hp _ F F1 pa Htk (proj2 (sr_hh _ _ _ _ _ Hr)) _ _ true); try done.
  intros m2 rq v2 Hm2 Hac. eapply hoare_bind; [apply run_flush; lia|]. intros [].
  eapply hoare_bind; [apply run_flush; unfold sizeof_port_mem; lia|]. intros [].
  apply (run_issue_wait p1 Hp Hl m2 v2 rq); [done|apply NoDup_seqZ|]. intros t m3 m' disk' Ht Htch3 Htch Hdata.
  rewrite (proj2 (Z.eqb_neq t 0)) by lia.
  eapply (command_end s F lba n buf pa p1 F1 m0 s1 _ _ 0 (λ _, False)); try done; [intros a Hb _; by refine (command_frame pa _ rq _ m0 m2 m' G1 G2 G4 Hm0 Hm2 Htch a Hb _)|].
  intros s' Hk Hv Hout. split; [done|]. intros x. rewrite Hv. cbn. rewrite (Hdata x). unfold rq. cbn. case_decide as Hx; [|done].
  rewrite (nth_lookup_Some _ _ _ (buf + (x - 512 * lba))) by (apply lookup_seqZ; lia).
  rewrite <-(tk_mem _ _ _ _ _ _ Htk) by (apply Hpub; lia). refine (command_frame pa _ rq _ m0 m2 m3 G1 G2 G4 Hm0 Hm2 Htch3 _ _ _); [|done]. apply Hap. lia.
Qed.
End disk.
