(* ===== verification/SataSpec.v ===== *)
(** * SATA disks: instances

    A controller and a machine with 256 pages at which the theorems of
    SataProof.v are instantiated. *)
From Stdlib Require Import ZArith Lia.
From stdpp Require Import base option gmap list.
From S2P Require Import Prelude Memory Pmm PmmProof PmmInit PmmIface PmmSpec Vmm Hoare Io Ktime KtimeProof PmmBlocks Dma Sata SataProof.

(** ** A controller whose commands take three reads of PxCI *)

Definition soft_base : Z := 0xFEB00100.
Definition soft_sectors : Z := 2048.
Definition soft_request (m : memory) (v : port_view) : request :=
  let cl := sample_offset + addr64 (pv_clb v) in
  let ct := cmd_table sample_offset m cl in
  mkRequest (Z.testbit (load16 m cl) 6) (fis_lba m ct) (fis_count m ct) (transfer_addrs (regions sample_offset m cl)).
Fixpoint put_bytes (m : memory) (addrs : list Z) (f : Z → Z) (x : Z) : memory :=
  match addrs with
  | [] => m
  | a :: addrs => put_bytes (store8 m a (f x)) addrs f (x + 1)
  end.
Definition soft_finish (rq : request) (v : port_view) (m : memory) : port_view * memory :=
  if rq_write rq then
    (end_request (λ x, if decide (512 * rq_lba rq ≤ x < 512 * (rq_lba rq + rq_count rq))
                       then load8 m (nth (Z.to_nat (x - 512 * rq_lba rq)) (rq_addrs rq) 0) else pv_disk v x) v, m)
  else (end_request (pv_disk v) v, put_bytes m (rq_addrs rq) (pv_disk v) (512 * rq_lba rq)).

#[export] Instance soft_mmio : Mmio port_view := {|
  mmio_write a x '(v, m) :=
    if a =? soft_base + 0x38 then (start_request (soft_request m v) 2 v, m) else (default v (reg_effect (a - soft_base) x v), m);
  mmio_read a '(v, m) :=
    if a =? soft_base + 0x18 then (Z.b2z (pv_st v) + 16 * Z.b2z (pv_fre v), (v, m))
    else if a =? soft_base + 0x38 then
      match pv_running v with
      | None => (0, (v, m))
      | Some (rq, O) => (0, soft_finish rq v m)
      | Some (rq, S k) => (1, (start_request rq k v, m))
      end
    else (0, (v, m));
|}.

Lemma soft_read_cmd v m : mmio_read (soft_base + 0x18) (v, m) = (Z.b2z (pv_st v) + 16 * Z.b2z (pv_fre v), (v, m)).
Proof. done. Qed.
Lemma soft_read_is v m : mmio_read (soft_base + 0x10) (v, m) = (0, (v, m)).
Proof. done. Qed.
Lemma soft_read_ci v m rq k : pv_running v = Some (rq, k) →
  mmio_read (soft_base + 0x38) (v, m) = match k with O => (0, soft_finish rq v m) | S k => (1, (start_request rq k v, m)) end.
Proof. intros E. unfold mmio_read, soft_mmio. by rewrite E. Qed.
Lemma soft_issue v m : mmio_write (soft_base + 0x38) 1 (v, m) = (start_request (soft_request m v) 2 v, m).
Proof. done. Qed.

Lemma load8_put_bytes_ne m addrs f x a : a ∉ addrs → load8 (put_bytes m addrs f x) a = load8 m a.
Proof.
  revert m x. induction addrs as [|b addrs IH]; intros m x Ha; [done|]. apply not_elem_of_cons in Ha as [? ?]. cbn.
  by rewrite IH, load8_store8_ne.
Qed.
Lemma load8_put_bytes m addrs f x i a : NoDup addrs → addrs !! i = Some a → load8 (put_bytes m addrs f x) a = u8 (f (x + Z.of_nat i)).
Proof.
  revert m x i. induction addrs as [|b addrs IH]; intros m x i Hnd Ha; [done|]. apply NoDup_cons in Hnd as [Hb Hnd].
  destruct i as [|i]; cbn in *.
  - injection Ha as ->. by rewrite load8_put_bytes_ne, load8_store8_eq, Z.add_0_r.
  - rewrite (IH _ _ i) by done. do 2 f_equal. lia.
Qed.

(** What the driver sees: the disk has bytes. *)
Definition soft_view (v : port_view) : port_view :=
  mkPort (pv_clb v) (pv_fb v) (pv_st v) (pv_fre v) (λ x, u8 (pv_disk v x)) (pv_running v).
Lemma soft_effect r x v v' : reg_effect r x (soft_view v) = Some v' → soft_view (default v (reg_effect r x v)) = v'.
Proof.
  destruct v as [[] [] st fre disk [|]]; unfold reg_effect; cbn; [done|]. repeat case_match; intros Hr; first [discriminate Hr|by injection Hr as <-].
Qed.

#[export] Instance soft_port : AhciPort port_view soft_base sample_offset.
Proof.
  refine {| ap_view := soft_view; ap_sectors := soft_sectors; ap_polls _ := 0%nat; ap_max_polls := 0; ap_max_latency := 2 |}.
  - done.
  - lia.
  - intros r x d m v' Hr. unfold mmio_write, soft_mmio. replace (soft_base + r - soft_base) with r by lia.
    destruct (Z.eqb_spec (soft_base + r) (soft_base + 0x38)).
    + exfalso. assert (r = 0x38) as -> by lia. destruct d as [[] [] ? ? ? [|]]; done.
    + split; [by apply soft_effect|]. unfold posted. by destruct (pv_fre v').
  - intros d m Hr. rewrite soft_read_cmd. splits; [done|unfold posted; cbn; by destruct (pv_fre d)|by destruct d as [? ? [] [] ? ?]..|].
    intros (Hst & Hfr & _). cbn [pv_st pv_fre soft_view] in Hst, Hfr. by rewrite Hst, Hfr.
  - intros d m rq [_ Hc _ _]. rewrite soft_issue. split; [by intros a|]. exists 2%nat. split; [done|]. unfold soft_view, start_request. cbn. do 3 f_equal.
    unfold soft_request. destruct Hc as [_ Hw _ _ _ _ Hl Hn Ha _ _]. cbn in *. rewrite Hw, Hl, Hn, Ha. by destruct rq.
  - intros d m rq k Hr Hnd. rewrite (soft_read_ci d m rq k) by done. destruct k as [|k]; [|by splits; [intros a| |]].
    unfold soft_finish. destruct (rq_write rq) eqn:Ew; cbn.
    + splits; [by intros a|done|]. eexists. split; [reflexivity|]. unfold transferred. rewrite Ew. intros x. cbn.
      case_decide; [apply u8_small, load8_range|done].
    + splits; [|done|].
      * intros a _ _ Ha. apply load8_put_bytes_ne. by apply Ha.
      * eexists. split; [reflexivity|]. unfold transferred. rewrite Ew. split; [done|]. intros i a Hi. by apply load8_put_bytes.
  - intros d m rq k Hr. rewrite soft_read_is. by splits; [intros a| |].
Defined.

(** ** A clock with no timer: every delay returns at once *)
Definition no_timer (t : ktime bench) : Prop := microdelay_mode t = HPET_DELAY.
#[export] Instance no_timer_delays fuel : Delays fuel no_timer.
Proof. split. intros [d c b md] Ht. unfold no_timer in Ht. cbn in Ht. subst md. by exists (-1), (mkKtime d c b HPET_DELAY). Qed.

(** ** A machine of 256 pages *)
Definition disk_map : list memmap_entry := [mkEntry 0 4096 1; mkEntry 4096 (255 * 4096) 0].
Lemma disk_boot_ok : boot_ok sample_offset disk_map.
Proof.
  split.
  - cbn. unfold entry_ok, apart, usable, e_end, LIMINE_MEMMAP_USABLE, PAGE_SIZE. cbn.
    splits; try lia; try done; intros e' H Hu; first [done|by apply elem_of_nil in H].
  - done.
  - intros e [->|[->|H]%elem_of_cons]%elem_of_cons; [done|done|]. by apply elem_of_nil in H.
Qed.
Lemma disk_covers : bitmap_covers disk_map.
Proof. by vm_compute. Qed.
Lemma disk_fits : bitmap_fits disk_map.
Proof. eexists. split; [right; left|]. done. Qed.
Definition disk_pmm : pmm :=
  match pmm_init (Some sample_offset) (Some disk_map) (pmm_boot ∅) with
  | Ok (_, s) => s
  | _ => pmm_boot ∅
  end.
Lemma disk_pmm_inv : ∃ L, pmm_inv disk_pmm L.
Proof.
  destruct (pmm_init_spec ∅ _ _ disk_boot_ok disk_covers disk_fits) as (b & mm & s & L & E & _ & H & _). exists L. unfold disk_pmm. by rewrite E.
Qed.
Lemma disk_pmm_layout : pmm_max_page disk_pmm = 256 ∧ hhdm_offset disk_pmm = sample_offset ∧ pmm_bitmap disk_pmm = sample_offset + 4096.
Proof. vm_compute. done. Qed.
Definition disk_buffer : Z := sample_offset + 0x200000.
Definition disk_machine (p : pmm) : sata bench port_view :=
  mkDriver (mkVmm (set_pmm_mem (store8 (pmm_mem p) (disk_buffer + 2) 77) p) sample_offset 0 0 [] [])
    (mkPort (0, 0) (0, 0) false false (λ x, x) None) (mkKtime (mkBench 0 0 8 None 0 false) 0 0 HPET_DELAY) soft_base.
Definition disk_state : sata bench port_view := disk_machine disk_pmm.

Lemma disk_machine_ready p F : buddy_inv p F → pmm_max_page p = 256 → hhdm_offset p = sample_offset → pmm_bitmap p = sample_offset + 4096 →
  sata_ready (fuel := 3) (J := no_timer) (inv := buddy_inv) (disk_machine p) F 3 1 disk_buffer.
Proof.
  intros HI Emax Eh Ebm.
  assert (Hpub : ∀ a, disk_buffer ≤ a → ¬ private p F a).
  { intros a Ha [Hbm|(q & Hq & Hin)].
    - unfold in_bitmap, bitmap_len in Hbm. rewrite Ebm, Emax in Hbm. unfold disk_buffer in Ha. change ((256 + 7) / 8) with 32 in Hbm. lia.
    - destruct (pa_free _ _ _ HI Hq) as [Hq' _]. unfold in_page in Hin. rewrite Eh in Hin. rewrite Emax in Hq'.
      unfold disk_buffer, PAGE_SIZE in *. lia. }
  split; [cbn; lia|done| |split; [done|exact Eh]|done|done|done|done|].
  - apply pa_write; [done|]. intros a Ha. apply load8_store8_ne. intros <-. apply (Hpub (disk_buffer + 2)); [lia|done].
  - intros a Ha. apply Hpub. lia.
Qed.
Lemma disk_machine_byte p : load8 (v_mem (dr_vmm (disk_machine p))) (disk_buffer + 2) = 77.
Proof. apply (load8_store8_eq (pmm_mem p)). Qed.
Lemma disk_state_ready : ∃ F, sata_ready (fuel := 3) (J := no_timer) (inv := buddy_inv) disk_state F 3 1 disk_buffer.
Proof.
  destruct disk_pmm_inv as [L Hinv]. destruct disk_pmm_layout as (Emax & Eh & Ebm). exists (free_page L).
  apply disk_machine_ready; [exists L; split; [exact Hinv|intros q; reflexivity]|exact Emax|exact Eh|exact Ebm].
Qed.

(** There is a block for the command. *)
Lemma disk_block : palloc_order 6 (v_pmm (dr_vmm disk_state)) ≠ Ok (0, v_pmm (dr_vmm disk_state)).
Proof.
  intros E. assert (H : returns (palloc_order 6) (v_pmm (dr_vmm disk_state)) 0 = false) by (vm_compute; reflexivity).
  unfold returns in H. rewrite E in H. discriminate H.
Qed.

(** More than 2048 sectors need more than the 128 entries of the command table. *)
Lemma sata_long_request_faults : sata_ahci_read_sector 3 soft_base 3 2049 disk_buffer disk_state = Fault.
Proof. vm_compute. reflexivity. Qed.

Lemma sata_ahci_read_sector_correct_witness : ∃ s', sata_ahci_read_sector 3 soft_base 3 1 disk_buffer disk_state = Ok (0, s') ∧
  load8 (v_mem (dr_vmm s')) (disk_buffer + 5) = u8 (512 * 3 + 5).
Proof.
  destruct disk_state_ready as [F HR]. destruct (sata_ahci_read_sector_correct disk_state F 3 1 disk_buffer HR) as [[E _]|(s' & E & _ & Hd & _)].
  - exfalso. exact (disk_block E).
  - exists s'. split; [exact E|]. apply (Hd 5). lia.
Defined.

Lemma sata_ahci_write_sector_correct_witness : ∃ s', sata_ahci_write_sector 3 soft_base 3 1 disk_buffer disk_state = Ok (0, s') ∧
  pv_disk (ap_view (dr_dev s')) (512 * 3 + 2) = 77 ∧ pv_disk (ap_view (dr_dev s')) 7 = 7.
Proof.
  destruct disk_state_ready as [F HR]. destruct (sata_ahci_write_sector_correct disk_state F 3 1 disk_buffer HR) as [[E _]|(s' & E & _ & Hd)].
  - exfalso. exact (disk_block E).
  - exists s'. split; [exact E|]. rewrite !Hd, decide_True, decide_False by lia. change (512 * 3 + 2 - 512 * 3) with 2.
    split; [apply disk_machine_byte|reflexivity].
Defined.
