(* ===== verification/Hci.v ===== *)
(** * USB: the EHCI driver

    Model of src/drivers/hci/hci.c and hci.h: starting and stopping the
    controller, ports, bulk and control transfers, the search for a mass-storage
    device and reading a sector from it.  Queue heads and transfer descriptors
    are built in memory at the offsets of their fields.  While the driver polls
    memory the controller works ([device_runs]).  Loops that wait take fuel.
    Registers that only the log prints are read, what is printed is left out. *)
From Stdlib Require Import ZArith Lia.
From stdpp Require Import base option gmap list.
From S2P Require Import Prelude Memory Pmm Vmm Io Ktime Dma.

(** ** Registers (hci.h) *)

Definition EHCI_RUN_STOP : Z := Z.shiftl 1 0.
Definition EHCI_RESET : Z := Z.shiftl 1 1.
Definition EHCI_ASYNC_EN : Z := Z.shiftl 1 5.
Definition EHCI_USBSTS_HCHALTED : Z := Z.shiftl 1 12.
Definition USB_REQ_GET_DESCRIPTOR : Z := 0x06.
Definition USB_REQ_SET_ADDRESS : Z := 0x05.
Definition USB_REQ_SET_CONFIGURATION : Z := 0x09.
Definition USB_CLASS_MASS_STORAGE : Z := 0x08.
Definition USB_SUBCLASS_SCSI : Z := 0x06.
Definition USB_PROTOCOL_BULK_ONLY : Z := 0x50.
Definition PORTSC_CONNECTED : Z := Z.shiftl 1 0.
Definition PORTSC_CONNECT_CHANGE : Z := Z.shiftl 1 1.
Definition PORTSC_ENABLED : Z := Z.shiftl 1 2.
Definition PORTSC_ENABLE_CHANGE : Z := Z.shiftl 1 3.
Definition PORTSC_RESET : Z := Z.shiftl 1 8.
Definition PORTSC_POWER : Z := Z.shiftl 1 12.
Definition PORTSC_OWNER : Z := Z.shiftl 1 13.
Definition PID_OUT : Z := 0.
Definition PID_IN : Z := 1.
Definition CBW_SIGNATURE : Z := 0x43425355.
Definition CSW_SIGNATURE : Z := 0x53425355.
Definition SCSI_READ10 : Z := 0x28.

(** [struct ehci_regs] at [ehci] *)
Definition USBCMD (ehci : Z) : Z := ehci + 0x00.
Definition USBSTS (ehci : Z) : Z := ehci + 0x04.
Definition USBINTR (ehci : Z) : Z := ehci + 0x08.
Definition PERIODICLISTBASE (ehci : Z) : Z := ehci + 0x14.
Definition ASYNCLISTADDR (ehci : Z) : Z := ehci + 0x18.
Definition CONFIGFLAG (ehci : Z) : Z := ehci + 0x40.
Definition PORTSC (ehci i : Z) : Z := ehci + 0x44 + 4 * i.

Definition HCSPARAMS_N_PORTS (x : Z) : Z := Z.land x 0x0F.

(** [qtd_t] at [q] *)
Definition qtd_next (q : Z) : Z := q.
Definition qtd_alt_next (q : Z) : Z := q + 4.
Definition qtd_token (q : Z) : Z := q + 8.
Definition qtd_buffer (q i : Z) : Z := q + 12 + 4 * i.
Definition sizeof_qtd : Z := 32.
(** [qh_t] at [q] *)
Definition qh_horiz_link (q : Z) : Z := q.
Definition qh_ep_char (q : Z) : Z := q + 4.
Definition qh_ep_cap (q : Z) : Z := q + 8.
Definition qh_curr_qtd (q : Z) : Z := q + 12.
Definition qh_overlay (q : Z) : Z := q + 32.
Definition sizeof_qh : Z := 64.

Record usb_endpoint := mkEndpoint { ep_addr : Z; ep_max_packet : Z; ep_attrs : Z }.
Record usb_device := mkUsbDevice {
  dev_address : Z; dev_config_value : Z; dev_bulk_in : usb_endpoint; dev_bulk_out : usb_endpoint; dev_iface_number : Z }.
Record usb_ctrl_setup := mkSetup { bmRequestType : Z; bRequest : Z; wValue : Z; wIndex : Z; wLength : Z }.

(** The static variables, with [pid_rn]. *)
Record hci := mkHci { h_ehci : Z; async_list_head : Z; async_list_head_phys : Z; global_tag : Z; h_pid_rn : Z }.
Definition set_h_ehci (p : Z) (g : hci) : hci := mkHci p (async_list_head g) (async_list_head_phys g) (global_tag g) (h_pid_rn g).
Definition set_async_list_head (p : Z) (g : hci) : hci := mkHci (h_ehci g) p (async_list_head_phys g) (global_tag g) (h_pid_rn g).
Definition set_async_list_head_phys (p : Z) (g : hci) : hci := mkHci (h_ehci g) (async_list_head g) p (global_tag g) (h_pid_rn g).
Definition set_global_tag (t : Z) (g : hci) : hci := mkHci (h_ehci g) (async_list_head g) (async_list_head_phys g) t (h_pid_rn g).
Definition set_h_pid_rn (n : Z) (g : hci) : hci := mkHci (h_ehci g) (async_list_head g) (async_list_head_phys g) (global_tag g) n.
Definition hci_boot : hci := mkHci 0 0 0 0x1000 0.

Section hci.
Context {C D : Type} `{Ports C, Tsc C, Mmio D, BusMaster D} (fuel : nat).
Abbreviation A := (M (driver C D hci)).

Definition glob {X} (f : hci → X) : A X := gets (λ s, f (dr_globals s)).
Definition set_glob (f : hci → hci) : A unit := modify (λ s, set_dr_globals (f (dr_globals s)) s).
Definition delay (micros : Z) : A unit := in_time (udelay fuel micros);; mret tt.
Definition now : A Z := in_time (get_time_ms fuel).
(** Registers that only the log prints. *)
Definition log_regs (regs : list Z) : A unit := mapM (λ r, reg_read r) regs;; mret tt.

(** [while (!done) { if (elapsed > limit) give up; udelay(micros); }]: whether
    the condition came true; [elapsed] gives the time since the start. *)
Fixpoint wait_ms (n : nat) (done : A bool) (elapsed : Z → Z) (limit micros : Z) : A bool :=
  match n with
  | O => spin
  | S n =>
      d ← done;
      if (d : bool) then mret true else
      t ← now;
      if limit <? elapsed t then mret false else
      delay micros;;
      wait_ms n done elapsed limit micros
  end.

(** ** The controller *)

Definition ehci_stop_controller : A Z :=
  e ← glob h_ehci;
  reg_and (USBCMD e) (u32 (Z.lnot EHCI_RUN_STOP));;
  start ← now;
  halted ← wait_ms fuel (sts ← reg_read (USBSTS e); mret (negb (Z.land sts EHCI_USBSTS_HCHALTED =? 0))) (λ t, u32 (t - start)) 500 1000;
  log_regs [USBSTS e; USBCMD e];;
  mret (if (halted : bool) then 0 else -1).

Definition ehci_reset_controller : A Z :=
  e ← glob h_ehci;
  sts ← reg_read (USBSTS e);
  stopped ← (if Z.land sts EHCI_USBSTS_HCHALTED =? 0 then r ← ehci_stop_controller; mret (0 <=? r) else mret true);
  if negb stopped then mret (-2) else
  delay 1000;;
  reg_write (USBCMD e) EHCI_RESET;;
  log_regs [USBCMD e];;
  start ← now;
  reset ← wait_ms fuel (cmd ← reg_read (USBCMD e); mret (Z.land cmd EHCI_RESET =? 0)) (λ t, u32 (t - start)) 1000 1000;
  log_regs [USBCMD e; USBSTS e];;
  if negb reset then mret (-1) else
  delay 1000;;
  mret 0.

Definition ehci_init_async_list : A Z :=
  qh_page_phys ← in_vmm (in_pmm palloc);
  if qh_page_phys =? 0 then mret (-1) else
  qh_page ← in_vmm (phys_to_virt qh_page_phys);
  upd_mem (λ m, memset_z m qh_page 0 4096);;
  set_glob (set_async_list_head qh_page);;
  phys ← in_vmm (virt_to_phys qh_page);
  set_glob (set_async_list_head_phys phys);;
  upd_mem (λ m, store32 m (qh_horiz_link qh_page) (Z.lor (u32 phys) 0x2));;
  upd_mem (λ m, store32 m (qh_ep_char qh_page) 0);;
  upd_mem (λ m, store32 m (qh_ep_cap qh_page) 0x40000000);;
  upd_mem (λ m, store32 m (qh_curr_qtd qh_page) 0x1);;
  upd_mem (λ m, store32 m (qtd_next (qh_overlay qh_page)) 0x1);;
  upd_mem (λ m, store32 m (qtd_token (qh_overlay qh_page)) 0x40);;
  e ← glob h_ehci;
  reg_write (ASYNCLISTADDR e) phys;;
  in_vmm (phys_flush_cache qh_page sizeof_qh);;
  mret 0.

Definition ehci_init_simple : A Z :=
  r ← ehci_stop_controller;
  if r <? 0 then mret (-1) else
  r ← ehci_reset_controller;
  if r <? 0 then mret (-2) else
  r ← ehci_init_async_list;
  if r <? 0 then mret (-3) else
  e ← glob h_ehci;
  reg_write (PERIODICLISTBASE e) 0;;
  reg_write (USBINTR e) 0;;
  reg_or (USBCMD e) (Z.lor EHCI_ASYNC_EN EHCI_RUN_STOP);;
  start ← now;
  wait_ms fuel (sts ← reg_read (USBSTS e); mret (negb (Z.land sts (Z.shiftl 1 15) =? 0))) (λ t, u32 (t - start)) 100 100;;
  log_regs [USBCMD e; USBSTS e];;
  mret 0.

(** ** Ports *)

Definition ehci_port_connected (port_num : Z) : A Z :=
  if (port_num <? 0) || (16 <=? port_num) then mret 0 else
  e ← glob h_ehci;
  v ← reg_read (PORTSC e port_num);
  mret (if negb (Z.land v PORTSC_CONNECTED =? 0) then 1 else 0).

(** The loop that waits for the port to be enabled. *)
Fixpoint wait_enabled (n : nat) (portsc start : Z) : A Z :=
  match n with
  | O => spin
  | S n =>
      v ← reg_read portsc;
      if negb (Z.land v PORTSC_ENABLED =? 0) then mret 0 else
      v ← reg_read portsc;
      if Z.land v PORTSC_RESET =? 0 then reg_or portsc PORTSC_OWNER;; mret (-3) else
      t ← now;
      if 500 <? u32 (t - start) then mret (-4) else
      delay 1000;;
      wait_enabled n portsc start
  end.

Definition ehci_reset_port (port_num : Z) : A Z :=
  if (port_num <? 0) || (16 <=? port_num) then mret (-1) else
  e ← glob h_ehci;
  let portsc := PORTSC e port_num in
  v ← reg_read portsc;
  if Z.land v PORTSC_CONNECTED =? 0 then mret (-2) else
  v ← reg_read portsc;
  (if negb (Z.land v PORTSC_ENABLED =? 0) then reg_and portsc (u32 (Z.lnot PORTSC_ENABLED));; delay 1000 else mret tt);;
  reg_or portsc PORTSC_RESET;;
  delay 50000;;
  reg_and portsc (u32 (Z.lnot PORTSC_RESET));;
  start ← now;
  r ← wait_enabled fuel portsc start;
  if negb (r =? 0) then mret r else
  reg_or portsc (Z.lor PORTSC_CONNECT_CHANGE PORTSC_ENABLE_CHANGE);;
  delay 10000;;
  mret 0.

Definition ehci_power_on_ports (num_ports : Z) : A unit :=
  e ← glob h_ehci;
  for_loop (Z.to_nat (Z.min num_ports 16)) 0 (λ i, reg_or (PORTSC e i) PORTSC_POWER);;
  delay 20000.

(** The number of the port; [None]: -1. *)
Fixpoint find_port (n : nat) (i : Z) : A (option Z) :=
  match n with
  | O => mret None
  | S n =>
      c ← ehci_port_connected i;
      if c =? 0 then find_port n (i + 1) else
      rc ← ehci_reset_port i;
      if rc =? 0 then mret (Some i) else find_port n (i + 1)
  end.
Definition ehci_find_and_reset_device : A (option Z) := find_port 16 0.

(** ** Bulk transfers *)

(** The token of a transfer descriptor. *)
Definition bulk_token (len pid : Z) : Z :=
  Z.lor (Z.lor (Z.lor (Z.shiftl 1 7) (Z.shiftl len 16)) (Z.shiftl 3 10)) (Z.shiftl pid 8).

(** [for (i = 1; i < 5 && len > i * 4096; i++)]: the pages behind the first, with [n] left. *)
Fixpoint fill_pages (n : nat) (i qtd buf_phys len : Z) : A unit :=
  match n with
  | O => mret tt
  | S n =>
      if i * 4096 <? len then
        upd_mem (λ m, store32 m (qtd_buffer qtd i) (Z.land (u32 (buf_phys + i * 4096)) (u32 (Z.lnot 0xFFF))));;
        fill_pages n (i + 1) qtd buf_phys len
      else mret tt
  end.

(** [qh] leaves the list of the controller. *)
Definition unlink_qh (qh : Z) : A unit :=
  head ← glob async_list_head;
  link ← peek32 (qh_horiz_link qh);
  upd_mem (λ m, store32 m (qh_horiz_link head) link);;
  in_vmm (phys_flush_cache head 64).

(** The polling loop, up to the three ways in which it ends. *)
Fixpoint wait_bulk (n : nat) (qh start timeout_ms : Z) : A Z :=
  match n with
  | O => spin
  | S n =>
      device_runs;;
      in_vmm (phys_invalidate_cache qh sizeof_qh);;
      overlay_token ← peek32 (qtd_token (qh_overlay qh));
      if Z.land overlay_token (Z.shiftl 1 7) =? 0 then mret 0 else
      if negb (Z.land overlay_token 0x7E =? 0) then mret (-3) else
      t ← now;
      if timeout_ms <? u32 (t - start) then mret (-2) else
      delay 100;;
      wait_bulk n qh start timeout_ms
  end.

(** The queue head and the transfer descriptor of a bulk transfer. *)
Definition fill_bulk (qh qtd buf_phys devaddr ep_addr len : Z) (dir_in : bool) : A unit :=
  upd_mem (λ m, memset_z m qh 0 sizeof_qh);;
  upd_mem (λ m, memset_z m qtd 0 sizeof_qtd);;
  upd_mem (λ m, store32 m (qtd_next qtd) 0x1);;
  upd_mem (λ m, store32 m (qtd_alt_next qtd) 0x1);;
  upd_mem (λ m, store32 m (qtd_token qtd) (bulk_token len (if dir_in then PID_IN else PID_OUT)));;
  upd_mem (λ m, store32 m (qtd_buffer qtd 0) buf_phys);;
  fill_pages 4 1 qtd buf_phys len;;
  let ep_num := Z.land ep_addr 0x0F in
  upd_mem (λ m, store32 m (qh_ep_char qh) (Z.lor (Z.lor (Z.lor devaddr (Z.shiftl ep_num 8)) (Z.shiftl 512 16)) (Z.shiftl 2 12)));;
  upd_mem (λ m, store32 m (qh_ep_cap qh) (Z.shiftl 1 30));;
  upd_mem (λ m, store32 m (qh_curr_qtd qh) 0);;
  upd_mem (λ m, memcpy_z m (qh_overlay qh) qtd sizeof_qtd).

Definition ehci_submit_bulk_simple (devaddr ep_addr data_vaddr len : Z) (dir_in : bool) (timeout_ms : Z) : A Z :=
  head ← glob async_list_head;
  if head =? 0 then mret (-1) else
  page_phys ← in_vmm (in_pmm palloc);
  if page_phys =? 0 then mret (-1) else
  qh ← in_vmm (phys_to_virt page_phys);
  let qtd := qh + 64 in
  qh_phys ← in_vmm (virt_to_phys qh);
  buf_phys ← in_vmm (virt_to_phys data_vaddr);
  fill_bulk qh qtd buf_phys devaddr ep_addr len dir_in;;
  link ← peek32 (qh_horiz_link head);
  upd_mem (λ m, store32 m (qh_horiz_link qh) link);;
  in_vmm (phys_flush_cache qh sizeof_qh);;
  in_vmm (phys_flush_cache qtd sizeof_qtd);;
  in_vmm (phys_flush_cache data_vaddr len);;
  upd_mem (λ m, store32 m (qh_horiz_link head) (Z.lor (u32 qh_phys) 0x2));;
  in_vmm (phys_flush_cache head 64);;
  start ← now;
  r ← wait_bulk fuel qh start timeout_ms;
  unlink_qh qh;;
  (if (r =? 0) && dir_in then in_vmm (phys_invalidate_cache data_vaddr len) else mret tt);;
  in_vmm (in_pmm (pfree page_phys));;
  mret r.

(** ** Control transfers *)

(** [while (USBSTS & (1 << 15) && timeout_ctr--) udelay(10);] *)
Fixpoint wait_async_off (n : nat) (usbsts : Z) : A unit :=
  sts ← reg_read usbsts;
  if Z.land sts (Z.shiftl 1 15) =? 0 then mret tt else
  match n with
  | O => mret tt
  | S n => delay 10;; wait_async_off n usbsts
  end.
Definition ehci_flush_async : A Z :=
  e ← glob h_ehci;
  reg_and (USBCMD e) (u32 (Z.lnot (Z.shiftl 1 5)));;
  delay 50;;
  wait_async_off (Z.to_nat 10000) (USBSTS e);;
  sts ← reg_read (USBSTS e);
  mret (if negb (Z.land sts (Z.shiftl 1 15) =? 0) then -1 else 0).

Definition ehci_run_async : A unit :=
  e ← glob h_ehci;
  head ← glob async_list_head;
  reg_write (ASYNCLISTADDR e) head;;
  delay 20;;
  reg_or (USBCMD e) (Z.shiftl 1 5);;
  delay 20.

(** The eight bytes of [usb_ctrl_setup_t], copied to [a]. *)
Definition put_setup (m : memory) (a : Z) (s : usb_ctrl_setup) : memory :=
  store16 (store16 (store16 (store8 (store8 m a (bmRequestType s)) (a + 1) (bRequest s)) (a + 2) (wValue s)) (a + 4) (wIndex s)) (a + 6) (wLength s).

(** The queue head at [mem] and its three transfer descriptors. *)
Definition fill_control (mem phys_mem devaddr : Z) (setup : usb_ctrl_setup) (data_buf data_len : Z) : A unit :=
  let qh := mem in
  let qtd_setup := mem + 64 in
  let qtd_data := mem + 128 in
  let qtd_status := mem + 192 in
  upd_mem (λ m, memset_z m qh 0 sizeof_qh);;
  upd_mem (λ m, memset_z m qtd_setup 0 sizeof_qtd);;
  upd_mem (λ m, memset_z m qtd_data 0 sizeof_qtd);;
  upd_mem (λ m, memset_z m qtd_status 0 sizeof_qtd);;
  upd_mem (λ m, store32 m (qtd_next qtd_setup) (phys_mem + 128));;
  upd_mem (λ m, store32 m (qtd_token qtd_setup) (Z.shiftl 8 16));;
  upd_mem (λ m, put_setup m (qtd_buffer qtd_setup 0) setup);;
  (if negb (data_buf =? 0) && negb (data_len =? 0) then
     upd_mem (λ m, store32 m (qtd_next qtd_data) (phys_mem + 192));;
     upd_mem (λ m, store32 m (qtd_token qtd_data) (Z.shiftl (Z.land data_len 0x7FFF) 16));;
     for_loop 5 0 (λ i, upd_mem (λ m, store32 m (qtd_buffer qtd_data i) (u64 (data_buf + 4096 * i))))
   else upd_mem (λ m, store32 m (qtd_next qtd_setup) (phys_mem + 192)));;
  upd_mem (λ m, store32 m (qtd_next qtd_status) 1);;
  upd_mem (λ m, store32 m (qtd_token qtd_status) 0);;
  upd_mem (λ m, store32 m (qh_curr_qtd qh) 0);;
  upd_mem (λ m, memcpy_z m (qh_overlay qh) qtd_setup sizeof_qtd);;
  upd_mem (λ m, store32 m (qh_horiz_link qh) 1);;
  upd_mem (λ m, store32 m (qh_ep_char qh) (Z.lor (Z.shiftl devaddr 8) (Z.shiftl 64 16)));;
  upd_mem (λ m, store32 m (qh_ep_cap qh) 0).

(** The number of bytes transferred, from the token of the data stage. *)
Definition actual_length (data_len token : Z) : Z :=
  if negb (data_len =? 0) && (Z.land token (Z.shiftl 15 3) =? 0)
  then data_len - Z.land (Z.shiftr token 16) 0x7FFF else data_len.

Definition usb_control_transfer (devaddr : Z) (setup : option usb_ctrl_setup) (data_buf data_len : Z) : A Z :=
  match setup with
  | None => mret (-1)
  | Some setup =>
      mem_phys ← in_vmm (in_pmm palloc);
      if mem_phys =? 0 then mret (-2) else
      mem ← in_vmm (phys_to_virt mem_phys);
      upd_mem (λ m, memset_z m mem 0 4096);;
      phys_mem ← in_vmm (virt_to_phys mem);
      fill_control mem phys_mem devaddr setup data_buf data_len;;
      in_vmm (phys_flush_cache mem 4096);;
      old_head ← glob async_list_head;
      set_glob (set_async_list_head mem);;
      r ← ehci_flush_async;
      if negb (r =? 0) then
        set_glob (set_async_list_head old_head);;
        in_vmm (in_pmm (pfree mem_phys));;
        mret (-3)
      else
        ehci_run_async;;
        start ← now;
        finished ← wait_ms fuel (device_runs;; token ← peek32 (qtd_token (qh_overlay mem)); mret (Z.land token (Z.shiftl 1 7) =? 0))
          (λ t, u64 (t - start)) 5000 100;
        if negb finished then
          set_glob (set_async_list_head old_head);;
          in_vmm (in_pmm (pfree mem_phys));;
          mret (-4)
        else
          in_vmm (phys_invalidate_cache mem 4096);;
          token ← peek32 (qtd_token (mem + 128));
          set_glob (set_async_list_head old_head);;
          in_vmm (in_pmm (pfree mem_phys));;
          mret (actual_length data_len token)
  end.

Definition usb_get_device_descriptor (devaddr desc_buf len : Z) : A Z :=
  usb_control_transfer devaddr (Some (mkSetup 0x80 USB_REQ_GET_DESCRIPTOR (Z.shiftl 0x01 8) 0 len)) desc_buf len.
Definition usb_get_config_descriptor (devaddr desc_buf len : Z) : A Z :=
  usb_control_transfer devaddr (Some (mkSetup 0x80 USB_REQ_GET_DESCRIPTOR (Z.shiftl 0x02 8) 0 len)) desc_buf len.
Definition usb_set_address (new_addr : Z) : A Z :=
  rc ← usb_control_transfer 0 (Some (mkSetup 0x00 USB_REQ_SET_ADDRESS new_addr 0 0)) 0 0;
  (if rc =? 0 then delay 2000 else mret tt);;
  mret rc.
Definition usb_set_configuration (devaddr config_value : Z) : A Z :=
  usb_control_transfer devaddr (Some (mkSetup 0x00 USB_REQ_SET_CONFIGURATION config_value 0 0)) 0 0.
Definition usb_msd_reset (devaddr iface_num : Z) : A Z :=
  usb_control_transfer devaddr (Some (mkSetup 0x21 0xFF 0 iface_num 0)) 0 0.

(** ** The search for a mass-storage device *)

(** Fields of the descriptors at [p] *)
Definition cfg_total_length (m : memory) (p : Z) : Z := load16 m (p + 2).
Definition cfg_value (m : memory) (p : Z) : Z := load8 m (p + 5).
Definition is_msd (m : memory) (p : Z) : bool :=
  (load8 m (p + 5) =? USB_CLASS_MASS_STORAGE) && (load8 m (p + 6) =? USB_SUBCLASS_SCSI) && (load8 m (p + 7) =? USB_PROTOCOL_BULK_ONLY).
Definition endpoint_at (m : memory) (p : Z) : usb_endpoint := mkEndpoint (load8 m (p + 2)) (load16 m (p + 4)) (load8 m (p + 3)).

Definition set_iface (n : Z) (d : usb_device) : usb_device := mkUsbDevice (dev_address d) (dev_config_value d) (dev_bulk_in d) (dev_bulk_out d) n.
Definition set_address (a : Z) (d : usb_device) : usb_device := mkUsbDevice a (dev_config_value d) (dev_bulk_in d) (dev_bulk_out d) (dev_iface_number d).
Definition set_config (c : Z) (d : usb_device) : usb_device := mkUsbDevice (dev_address d) c (dev_bulk_in d) (dev_bulk_out d) (dev_iface_number d).
(** A bulk endpoint takes its place by its direction. *)
Definition set_bulk (ep : usb_endpoint) (d : usb_device) : usb_device :=
  if negb (Z.land (ep_addr ep) 0x80 =? 0) then mkUsbDevice (dev_address d) (dev_config_value d) ep (dev_bulk_out d) (dev_iface_number d)
  else mkUsbDevice (dev_address d) (dev_config_value d) (dev_bulk_in d) ep (dev_iface_number d).

(** One descriptor at [p], of type [ty] and length [len]. *)
Definition take_descriptor (m : memory) (p ty len : Z) (found : bool) (d : usb_device) : bool * usb_device :=
  if (ty =? 0x04) && (9 <=? len) then
    if is_msd m p then (true, set_iface (load8 m (p + 2)) d) else (found, d)
  else if (ty =? 0x05) && (7 <=? len) then
    if found && (Z.land (load8 m (p + 3)) 0x03 =? 0x02) then (found, set_bulk (endpoint_at m p) d) else (found, d)
  else (found, d).

(** The loop over the descriptors up to [end_]. *)
Fixpoint parse_descriptors (n : nat) (ptr end_ : Z) (found : bool) (d : usb_device) : A (bool * usb_device) :=
  if end_ <=? ptr then mret (found, d) else
  match n with
  | O => spin
  | S n =>
      m ← gets (λ s, v_mem (dr_vmm s));
      let len := load8 m ptr in
      let ty := load8 m (ptr + 1) in
      if len <? 2 then mret (found, d) else
      let '(found, d) := take_descriptor m ptr ty len found d in
      parse_descriptors n (ptr + len) end_ found d
  end.

(** The result and [*out_dev]. *)
Definition find_mass_storage_device (out_dev : usb_device) : A (Z * usb_device) :=
  desc_buf_phys ← in_vmm (in_pmm palloc);
  if desc_buf_phys =? 0 then mret (-1, out_dev) else
  let fail (rc : Z) (d : usb_device) : A (Z * usb_device) := in_vmm (in_pmm (pfree desc_buf_phys));; mret (rc, d) in
  desc_buf ← in_vmm (phys_to_virt desc_buf_phys);
  set_glob (set_h_pid_rn 18);;
  upd_mem (λ m, memset_z m desc_buf 0 4096);;
  res ← usb_get_device_descriptor 0 desc_buf 18;
  if negb (res =? 0) then fail (-100 - res) out_dev else
  set_glob (set_h_pid_rn 19);;
  r ← usb_set_address 1;
  if negb (r =? 0) then fail (-3) out_dev else
  set_glob (set_h_pid_rn 20);;
  let out_dev := set_address 1 out_dev in
  r ← usb_get_config_descriptor 1 desc_buf 9;
  if negb (r =? 0) then fail (-4) out_dev else
  set_glob (set_h_pid_rn 21);;
  total ← gets (λ s, cfg_total_length (v_mem (dr_vmm s)) desc_buf);
  let total_len := if 1024 <? total then 1024 else total in
  r ← usb_get_config_descriptor 1 desc_buf total_len;
  if negb (r =? 0) then fail (-5) out_dev else
  set_glob (set_h_pid_rn 22);;
  value ← gets (λ s, cfg_value (v_mem (dr_vmm s)) desc_buf);
  let out_dev := set_config value out_dev in
  x ← parse_descriptors 512 (desc_buf + 9) (desc_buf + total_len) false out_dev;
  let '(found_msd, out_dev) := x in
  in_vmm (in_pmm (pfree desc_buf_phys));;
  if negb found_msd then mret (-6, out_dev) else
  r ← usb_set_configuration (dev_address out_dev) (dev_config_value out_dev);
  if negb (r =? 0) then mret (-7, out_dev) else
  delay 100000;;
  usb_msd_reset (dev_address out_dev) (dev_iface_number out_dev);;
  delay 100000;;
  mret (0, out_dev).

(** ** Mass storage *)

(** [struct CBW] and [struct CSW], packed *)
Definition sizeof_cbw : Z := 31.
Definition sizeof_csw : Z := 13.
Definition csw_signature (m : memory) (a : Z) : Z := load32 m a.
Definition csw_tag (m : memory) (a : Z) : Z := load32 m (a + 4).
Definition csw_status (m : memory) (a : Z) : Z := load8 m (a + 12).

(** The command to read one sector. *)
Definition fill_cbw (cbw tag lba : Z) : A unit :=
  upd_mem (λ m, memset_z m cbw 0 sizeof_cbw);;
  upd_mem (λ m, store32 m cbw CBW_SIGNATURE);;
  upd_mem (λ m, store32 m (cbw + 4) tag);;
  upd_mem (λ m, store32 m (cbw + 8) 512);;
  upd_mem (λ m, store8 m (cbw + 12) 0x80);;
  upd_mem (λ m, store8 m (cbw + 13) 0);;
  upd_mem (λ m, store8 m (cbw + 14) 10);;
  upd_mem (λ m, store8 m (cbw + 15) SCSI_READ10);;
  upd_mem (λ m, store8 m (cbw + 16) 0);;
  upd_mem (λ m, store8 m (cbw + 17) (Z.land (Z.shiftr lba 24) 0xFF));;
  upd_mem (λ m, store8 m (cbw + 18) (Z.land (Z.shiftr lba 16) 0xFF));;
  upd_mem (λ m, store8 m (cbw + 19) (Z.land (Z.shiftr lba 8) 0xFF));;
  upd_mem (λ m, store8 m (cbw + 20) (Z.land (Z.shiftr lba 0) 0xFF));;
  upd_mem (λ m, store8 m (cbw + 22) 0);;
  upd_mem (λ m, store8 m (cbw + 23) 1).

Definition msd_send_cbw (dev : usb_device) (cbw_buf : Z) : A Z :=
  ehci_submit_bulk_simple (dev_address dev) (ep_addr (dev_bulk_out dev)) cbw_buf 31 false 1000.
Definition msd_receive_csw (dev : usb_device) (csw_buf : Z) : A Z :=
  ehci_submit_bulk_simple (dev_address dev) (ep_addr (dev_bulk_in dev)) csw_buf 13 true 1000.

Definition msd_read_sector (dev : usb_device) (lba buf_vaddr : Z) : A Z :=
  page_phys ← in_vmm (in_pmm palloc);
  if page_phys =? 0 then mret (-1) else
  let finish (rc : Z) : A Z := in_vmm (in_pmm (pfree page_phys));; mret rc in
  cbw ← in_vmm (phys_to_virt page_phys);
  let csw := cbw + 32 in
  tag ← glob global_tag;
  set_glob (set_global_tag (u32 (tag + 1)));;
  fill_cbw cbw (u32 (tag + 1)) lba;;
  in_vmm (phys_flush_cache cbw sizeof_cbw);;
  r ← msd_send_cbw dev cbw;
  if negb (r =? 0) then finish (-2) else
  r ← ehci_submit_bulk_simple (dev_address dev) (ep_addr (dev_bulk_in dev)) buf_vaddr 512 true 1000;
  if negb (r =? 0) then finish (-3) else
  upd_mem (λ m, memset_z m csw 0 sizeof_csw);;
  r ← msd_receive_csw dev csw;
  if negb (r =? 0) then finish (-4) else
  in_vmm (phys_invalidate_cache csw sizeof_csw);;
  m ← gets (λ s, v_mem (dr_vmm s));
  finish (if negb (csw_signature m csw =? CSW_SIGNATURE) then -5
          else if negb (csw_tag m csw =? load32 m (cbw + 4)) then -6
          else if negb (csw_status m csw =? 0) then -7 else 0).

(** ** Finding the registers *)

(** The address of the operational registers and the number of ports; [None]: [NULL]. *)
Definition pci_map_ehci_mmio (bar0_virt : Z) : A (option (Z * Z)) :=
  if bar0_virt =? 0 then mret None else
  cap ← reg_read bar0_virt;
  hcsparams ← reg_read (bar0_virt + 4);
  set_glob (set_h_ehci bar0_virt);;
  mret (Some (u64 (bar0_virt + u8 cap), HCSPARAMS_N_PORTS hcsparams)).

(** [bar0_virt] is [NULL] in the source; [dev] is the uninitialised local variable. *)
Definition read_sector0_example (dev : usb_device) : A Z :=
  mmio ← pci_map_ehci_mmio 0;
  match mmio with
  | None => mret (-1)
  | Some (mmio, ports) =>
      set_glob (set_h_ehci mmio);;
      r ← ehci_init_simple;
      if negb (r =? 0) then mret (-2) else
      ehci_power_on_ports ports;;
      port_num ← ehci_find_and_reset_device;
      match port_num with
      | None => mret (-3)
      | Some _ =>
          x ← find_mass_storage_device dev;
          let '(r, dev) := x in
          if negb (r =? 0) then mret (-4) else
          sector_buf_phys ← in_vmm (in_pmm palloc);
          if sector_buf_phys =? 0 then mret (-5) else
          sector_buf ← in_vmm (phys_to_virt sector_buf_phys);
          upd_mem (λ m, memset_z m sector_buf 0 512);;
          rc ← msd_read_sector dev 0 sector_buf;
          in_vmm (in_pmm (pfree sector_buf_phys));;
          mret (if negb (rc =? 0) then rc - 5 else 0)
      end
  end.

Definition ehci_print_capabilities (bar0_virt : Z) : A unit := log_regs [bar0_virt; bar0_virt + 2; bar0_virt + 4; bar0_virt + 8].

(** ** The module *)

(** [while (!(register & bit));] and [while (register & bit);] *)
Fixpoint wait_bit (n : nat) (value : bool) (a bit : Z) : A unit :=
  match n with
  | O => spin
  | S n => v ← reg_read a; if Bool.eqb (negb (Z.land v bit =? 0)) value then mret tt else wait_bit n value a bit
  end.

Definition ehci_init (phys_mmio : Z) : A unit :=
  cap ← in_vmm (phys_to_virt phys_mmio);
  caplength ← reg_read cap;
  let op := u64 (cap + u8 caplength) in
  log_regs [cap + 2];;
  reg_and (USBCMD op) (u32 (Z.lnot 1));;
  wait_bit fuel true (USBSTS op) (Z.shiftl 1 12);;
  reg_or (USBCMD op) (Z.shiftl 1 1);;
  wait_bit fuel false (USBCMD op) (Z.shiftl 1 1);;
  qh_phys ← in_vmm (in_pmm palloc);
  qh_virt ← in_vmm (phys_to_virt qh_phys);
  upd_mem (λ m, memset_z m qh_virt 0 4096);;
  upd_mem (λ m, store32 m qh_virt (Z.lor qh_phys 0x2));;
  upd_mem (λ m, store32 m (qh_virt + 4) (Z.shiftl 1 30));;
  upd_mem (λ m, store32 m (qh_virt + 8) 1);;
  reg_write (ASYNCLISTADDR op) qh_phys;;
  reg_or (USBCMD op) (Z.shiftl 1 5);;
  reg_or (USBCMD op) 1;;
  reg_write (CONFIGFLAG op) 1.

(** [pci_mmio] is what [pci_get_ehci_mmio] returns. *)
Definition hci_module_init (pci_mmio : Z) : A Z :=
  if pci_mmio =? 0 then mret 0 else ehci_init pci_mmio;; mret 0.
End hci.
