(* ===== verification/HciProof.v ===== *)
(** * USB: what the EHCI driver guarantees

    Descriptor parsing against the configuration that the bytes encode, and
    the safety of bulk transfers: against a controller that writes only where
    its queue tells it to ([EhciBus]), a clock that advances ([MsClock]) and an
    allocator ([BlockAllocator]), every transfer returns, gives its page back
    and leaves the queue of the controller as it was. *)
From Stdlib Require Import ZArith Lia.
From stdpp Require Import base option gmap list.
From S2P Require Import Prelude Memory Pmm PmmProof PmmIface Vmm Endian Hoare Io Ktime PmmBlocks Dma Hci.

(** ** A clock in ticks

    [J x t]: the clock [t] is at tick [x].  Reading it takes at least one tick. *)
Class MsClock {C} `{Ports C, Tsc C} (fuel : nat) (J : Z → ktime C → Prop) := {
  ms_ticks : Z;     (* ticks in a millisecond *)
  ms_slack : Z;     (* the longest reading or delay of the driver *)
  ms_end : Z;       (* the clock is good up to here *)
  ms_positive : 0 < ms_ticks ∧ 0 ≤ ms_slack < 2 ^ 30 * ms_ticks;
  ms_now x t : J x t → x ≤ ms_end → ∃ x' t', get_time_ms fuel t = Ok (u32 (x' / ms_ticks), t') ∧ J x' t' ∧ x < x' ≤ x + ms_slack;
  ms_delay x t k : J x t → x ≤ ms_end → 0 ≤ k ≤ 100 → ∃ r x' t', udelay fuel k t = Ok (r, t') ∧ J x' t' ∧ x ≤ x' ≤ x + ms_slack;
}.

(** ** What the controller may write

    The queue head at [q]: its overlay, the descriptor that it names as current,
    and the bytes of the transfer in the overlay, found through the page
    pointers. *)
Definition queue_head (hh p : Z) : Z := hh + Z.land p (Z.lnot 31).
Definition transfer_byte (hh : Z) (m : memory) (q i : Z) : Z :=
  let off := load32 m (qtd_buffer (qh_overlay q) 0) `mod` 4096 + i in
  hh + 4096 * (load32 m (qtd_buffer (qh_overlay q) (off / 4096)) / 4096) + off `mod` 4096.
Definition transfer_total (m : memory) (q : Z) : Z := Z.land (Z.shiftr (load32 m (qtd_token (qh_overlay q))) 16) 0x7FFF.
Definition overlay_area (q a : Z) : Prop := qh_curr_qtd q ≤ a < q + sizeof_qh.
Definition current_area (hh : Z) (m : memory) (q a : Z) : Prop :=
  queue_head hh (load32 m (qh_curr_qtd q)) ≤ a < queue_head hh (load32 m (qh_curr_qtd q)) + sizeof_qtd.
Definition qh_reach (hh : Z) (m : memory) (q a : Z) : Prop :=
  overlay_area q a ∨ current_area hh m q a ∨ ∃ i, 0 ≤ i < transfer_total m q ∧ a = transfer_byte hh m q i.
(** The queue [head] -> [q] -> [head]; the head itself holds no transfer: it is
    not active and has no next descriptor. *)
Definition head_idle (m : memory) (head : Z) : Prop :=
  Z.testbit (load32 m (qtd_token (qh_overlay head))) 7 = false ∧ Z.testbit (load32 m (qtd_next (qh_overlay head))) 0 = true.
Definition bus_reach (hh head : Z) (m : memory) (a : Z) : Prop :=
  let q := queue_head hh (load32 m (qh_horiz_link head)) in q ≠ head ∧ qh_reach hh m q a.

(** A controller that keeps to its queue. *)
Class EhciBus (D : Type) `{BusMaster D} (hh head : Z) : Prop := {
  eb_step d m : head_idle m head → let '(d', m') := dma_step (d, m) in
    (∀ a, ¬ bus_reach hh head m a → load8 m' a = load8 m a) ∧ (∀ a, bus_reach hh head m' a → bus_reach hh head m a);
}.

(** ** Memory of a bulk transfer *)

(** The structures of a transfer within one page. *)
Definition bulk_mem (m : memory) (qh buf_phys devaddr ep len : Z) (dir_in : bool) : memory :=
  let qtd := qh + 64 in
  let m := memset_z (memset_z m qh 0 sizeof_qh) qtd 0 sizeof_qtd in
  let m := store32 (store32 (store32 (store32 m (qtd_next qtd) 1) (qtd_alt_next qtd) 1) (qtd_token qtd)
             (bulk_token len (if dir_in then PID_IN else PID_OUT))) (qtd_buffer qtd 0) buf_phys in
  let m := store32 (store32 (store32 m (qh_ep_char qh)
             (Z.lor (Z.lor (Z.lor devaddr (Z.shiftl (Z.land ep 0x0F) 8)) (Z.shiftl 512 16)) (Z.shiftl 2 12)))
             (qh_ep_cap qh) (Z.shiftl 1 30)) (qh_curr_qtd qh) 0 in
  memcpy_z m (qh_overlay qh) qtd sizeof_qtd.

Lemma load_memcpy_copy n m d s k a : d + k ≤ s ∨ s + k ≤ d → 0 ≤ a → a + Z.of_nat n ≤ k → load n (memcpy_z m d s k) (d + a) = load n m (s + a).
Proof.
  intros Hd Ha Hn. apply load_shift. intros i Hi. rewrite load8_memcpy_z, decide_True by lia. f_equal. lia.
Qed.

Lemma bulk_token_total len pid : 0 ≤ len < 2 ^ 15 → 0 ≤ pid < 4 → Z.land (Z.shiftr (u32 (bulk_token len pid)) 16) 0x7FFF = len.
Proof.
  intros Hl Hp. unfold bulk_token. set (low := Z.lor (Z.lor (Z.shiftl 1 7) (Z.shiftl 3 10)) (Z.shiftl pid 8)).
  assert (E : Z.lor (Z.lor (Z.lor (Z.shiftl 1 7) (Z.shiftl len 16)) (Z.shiftl 3 10)) (Z.shiftl pid 8) = Z.lor low (len * 2 ^ 16)).
  { unfold low. rewrite (Z.shiftl_mul_pow2 len) by lia. rewrite <-(Z.lor_assoc (Z.shiftl 1 7)), (Z.lor_comm (len * 2 ^ 16)), Z.lor_assoc.
    by rewrite <-(Z.lor_assoc _ (len * 2 ^ 16)), (Z.lor_comm (len * 2 ^ 16)), Z.lor_assoc. }
  assert (Hlow : 0 ≤ low < 2 ^ 16) by (assert (pid = 0 ∨ pid = 1 ∨ pid = 2 ∨ pid = 3) as [->|[->|[->| ->]]] by lia; by vm_compute).
  rewrite E, lor_low_high by lia. change 0x7FFF with (2 ^ 15 - 1). rewrite land_ones_mod, Z.shiftr_div_pow2 by lia. unfold u32. zdiv.
Qed.

Lemma bulk_mem_ok m qh buf_phys devaddr ep len dir_in : 0 ≤ buf_phys < 2 ^ 32 → 0 ≤ len < 2 ^ 15 →
  let m' := bulk_mem m qh buf_phys devaddr ep len dir_in in
  load32 m' (qh_curr_qtd qh) = 0 ∧ load32 m' (qtd_buffer (qh_overlay qh) 0) = buf_phys ∧ transfer_total m' qh = len ∧
  outside qh (qh + 96) m m'.
Proof.
  intros Hb Hl m'. unfold m', bulk_mem, transfer_total, qtd_token, qtd_buffer, qtd_next, qtd_alt_next, qh_curr_qtd, qh_overlay, qh_ep_char, qh_ep_cap, sizeof_qtd, sizeof_qh, load32, store32.
  rewrite <-!(Z.add_assoc (qh + 32)). splits.
  - rewrite (load_ext 4 _ (store 4 _ (qh + 12) 0)) by (intros b Hb'; rewrite load8_memcpy_z, decide_False by lia; done). by rewrite load_store_eq.
  - rewrite load_memcpy_copy by lia. rewrite !(load_store_ne 4 4) by lia. rewrite Z.add_assoc, load_store_eq. apply Z.mod_small. lia.
  - rewrite load_memcpy_copy by lia. rewrite !(load_store_ne 4 4) by lia. rewrite (load32_store32_eq _ _ (bulk_token len (if dir_in then PID_IN else PID_OUT))).
    apply bulk_token_total; [lia|by destruct dir_in].
  - intros a Ha. rewrite load8_memcpy_z, decide_False by lia. rewrite !load8_store, !decide_False by lia. rewrite !load8_memset_z, !decide_False by lia. done.
Qed.

(** The transfer as the controller finds it when the queue head is linked. *)
Definition linked_mem (m : memory) (head qh link qh_phys : Z) : memory :=
  store32 (store32 m (qh_horiz_link qh) link) (qh_horiz_link head) (Z.lor (u32 qh_phys) 2).

Definition page_area (qh a : Z) : Prop := qh + 12 ≤ a < qh + 64.
Definition zero_area (hh a : Z) : Prop := hh ≤ a < hh + 32.

Lemma queue_head_page hh p : 0 ≤ p → p `mod` 4096 = 0 → queue_head hh (Z.lor p 2) = hh + p.
Proof.
  intros H0 Hp. unfold queue_head. f_equal. apply Z.bits_inj'. intros k Hk. rewrite Z.land_spec, Z.lor_spec, Z.lnot_spec by lia.
  destruct (decide (k < 5)) as [Hk'|Hk'].
  - assert (Z.testbit p k = false) as ->.
    { replace p with (p / 4096 * 2 ^ 12) by zdiv. apply Z.mul_pow2_bits_low. lia. }
    change 31 with (Z.ones 5). rewrite Z.ones_spec_low by lia. by rewrite andb_false_r.
  - change 31 with (Z.ones 5). rewrite Z.ones_spec_high by lia. rewrite andb_true_r, (Z.bits_above_log2 2), orb_false_r; [done|lia|cbn; lia].
Qed.

(** The reach of a queue head with one transfer in one page. *)
Lemma qh_reach_page hh m q p len a : 0 ≤ p → p `mod` 4096 + len ≤ 4096 →
  load32 m (qh_curr_qtd q) = 0 → load32 m (qtd_buffer (qh_overlay q) 0) = p → transfer_total m q = len → qh_reach hh m q a →
  page_area q a ∨ zero_area hh a ∨ hh + p ≤ a < hh + p + len.
Proof.
  intros Hp Hl E1 E2 E3 [Hr|[Hr|(i & Hi & ->)]].
  - left. unfold overlay_area, qh_curr_qtd, sizeof_qh, page_area in *. lia.
  - right. left. unfold current_area, sizeof_qtd, queue_head in Hr. rewrite E1, Z.land_0_l in Hr. unfold zero_area. lia.
  - right. right. rewrite E3 in Hi. unfold transfer_byte. rewrite E2. set (o := p `mod` 4096 + i). assert (Ho : 0 ≤ o < 4096) by (unfold o; zdiv).
    rewrite (Z.div_small o), (Z.mod_small o), E2 by lia. unfold o. zdiv.
Qed.

Lemma linked_reach hh mb head pa link p len a : 0 < pa → pa + 4096 ≤ 2 ^ 32 → pa `mod` 4096 = 0 → head + 64 ≤ hh + pa ∨ hh + pa + 96 ≤ head →
  0 ≤ p → p `mod` 4096 + len ≤ 4096 →
  load32 mb (qh_curr_qtd (hh + pa)) = 0 → load32 mb (qtd_buffer (qh_overlay (hh + pa)) 0) = p → transfer_total mb (hh + pa) = len →
  bus_reach hh head (linked_mem mb head (hh + pa) link pa) a → page_area (hh + pa) a ∨ zero_area hh a ∨ hh + p ≤ a < hh + p + len.
Proof.
  intros Hpa Hpa' Hal Hap Hp Hl E1 E2 E3 [_ Hr]. revert Hr. set (m' := linked_mem mb head (hh + pa) link pa).
  assert (Eq : queue_head hh (load32 m' (qh_horiz_link head)) = hh + pa).
  { unfold m', linked_mem. rewrite load32_store32_eq, (u32_small pa) by lia.
    assert (El : Z.lor pa 2 = pa + 2) by (replace pa with (pa / 4096 * 2 ^ 12) by zdiv; rewrite Z.lor_comm, lor_low_high by lia; lia).
    rewrite u32_small by lia. apply queue_head_page; lia. }
  assert (Hld : ∀ o, 12 ≤ o → o + 4 ≤ 64 → load32 m' (hh + pa + o) = load32 mb (hh + pa + o)).
  { intros o Ho1 Ho2. unfold m', linked_mem, qh_horiz_link. rewrite !load32_store32_ne by lia. done. }
  clearbody m'. rewrite Eq. apply qh_reach_page; [done|done|..].
  - rewrite <-E1. apply Hld; lia.
  - rewrite <-E2. unfold qtd_buffer, qh_overlay. rewrite <-!Z.add_assoc, !(Z.add_assoc hh pa). apply Hld; lia.
  - rewrite <-E3. unfold transfer_total, qtd_token, qh_overlay. rewrite <-!Z.add_assoc, !(Z.add_assoc hh pa). rewrite Hld by lia. done.
Qed.

(** ** Waiting for a transfer *)

Lemma u32_sub_u32 a b : u32 (u32 a - u32 b) = u32 (a - b).
Proof. unfold u32. by rewrite <-Zminus_mod. Qed.

Section bus.
Context {C D : Type} {hh head : Z} `{Ports C, Tsc C, Mmio D, BusMaster D, EB : !EhciBus D hh head} {fuel : nat} {J : Z → ktime C → Prop} `{CK : !MsClock fuel J}.

(** The state with the memory [m] of the allocator state [p1], at tick [x]. *)
Record at_bus (p1 : pmm) (g : hci) (m : memory) (x : Z) (s : driver C D hci) : Prop := {
  ab_pmm : v_pmm (dr_vmm s) = set_pmm_mem m p1;
  ab_hh : v_hhdm (dr_vmm s) = hh;
  ab_time : J x (dr_time s);
  ab_globals : dr_globals s = g;
}.
Context (p1 : pmm) (g : hci).
Abbreviation at_bus' := (at_bus p1 g).

Lemma run_mem m x f : {{ at_bus' m x }} upd_mem f {{ λ _, at_bus' (f m) x }}.
Proof. intros s [Hp Hh Hj Hg]. do 2 eexists. split; [reflexivity|]. split; cbn; try done. unfold v_mem. by rewrite Hp. Qed.
Lemma run_peek m x a : {{ at_bus' m x }} peek32 a {{ λ r s, r = load32 m a ∧ at_bus' m x s }}.
Proof. intros s Hs. do 2 eexists. split; [reflexivity|]. split; [|done]. destruct Hs as [Hp _ _ _]. unfold v_mem. by rewrite Hp. Qed.
Lemma run_glob {X} m x (f : hci → X) : {{ at_bus' m x }} glob f {{ λ r s, r = f g ∧ at_bus' m x s }}.
Proof. intros s Hs. do 2 eexists. split; [reflexivity|]. split; [|done]. by destruct Hs as [_ _ _ ->]. Qed.
Lemma run_v2p m x a : {{ at_bus' m x }} in_vmm (virt_to_phys a) {{ λ r s, r = u64 (a - hh) ∧ at_bus' m x s }}.
Proof. intros s [Hp Hh Hj Hg]. do 2 eexists. split; [reflexivity|]. cbn. rewrite Hh. split; [done|]. by split. Qed.
Lemma run_p2v m x a : {{ at_bus' m x }} in_vmm (phys_to_virt a) {{ λ r s, r = u64 (a + hh) ∧ at_bus' m x s }}.
Proof. intros s [Hp Hh Hj Hg]. do 2 eexists. split; [reflexivity|]. cbn. rewrite Hh. split; [done|]. by split. Qed.
Lemma run_flush_bus m x a n : 0 ≤ a → 0 ≤ n → a + n + 64 ≤ 2 ^ 64 → {{ at_bus' m x }} in_vmm (phys_flush_cache a n) {{ λ _, at_bus' m x }}.
Proof.
  intros Ha Hn Hb s [Hp Hh Hj Hg]. destruct (phys_flush_cache_run a n (dr_vmm s)) as (s' & E & E1 & E2); [done..|].
  exists tt, (set_dr_vmm s' s). unfold in_vmm, zoom. rewrite E. split; [done|]. split; cbn; congruence.
Qed.
Lemma run_now m x : x ≤ ms_end →
  {{ at_bus' m x }} now fuel {{ λ r s, ∃ x', r = u32 (x' / ms_ticks) ∧ x < x' ≤ x + ms_slack ∧ at_bus' m x' s }}.
Proof.
  intros Hx s [Hp Hh Hj Hg]. destruct (ms_now _ _ Hj Hx) as (x' & t' & E & Hj' & Hx'). unfold now, in_time, zoom. rewrite E.
  do 2 eexists. split; [reflexivity|]. exists x'. splits; [done|lia|lia|]. by split.
Qed.
Lemma run_delay m x k : x ≤ ms_end → 0 ≤ k ≤ 100 → {{ at_bus' m x }} delay fuel k {{ λ _ s, ∃ x', x ≤ x' ≤ x + ms_slack ∧ at_bus' m x' s }}.
Proof.
  intros Hx Hk s [Hp Hh Hj Hg]. destruct (ms_delay _ _ _ Hj Hx Hk) as (r & x' & t' & E & Hj' & Hx').
  unfold delay, in_time, zoom, mbind, M_bind. rewrite E. do 2 eexists. split; [reflexivity|]. exists x'. split; [done|]. by split.
Qed.

(** What the controller has changed since the memory was [m0]. *)
Definition confined (m0 m : memory) : Prop :=
  (∀ a, ¬ bus_reach hh head m0 a → load8 m a = load8 m0 a) ∧ (∀ a, bus_reach hh head m a → bus_reach hh head m0 a).
Lemma confined_refl m : confined m m.
Proof. by split. Qed.
Lemma confined_trans m0 m1 m2 : confined m0 m1 → confined m1 m2 → confined m0 m2.
Proof. intros [A1 A2] [B1 B2]. split; [|by auto]. intros a Ha. rewrite B1, A1; auto. Qed.

Lemma run_device m x : head_idle m head → {{ at_bus' m x }} device_runs {{ λ _ s, ∃ m', confined m m' ∧ at_bus' m' x s }}.
Proof.
  intros Hi s [Hp Hh Hj Hg]. do 2 eexists. split; [reflexivity|]. unfold v_mem. rewrite Hp. cbn [pmm_mem set_pmm_mem].
  pose proof (eb_step (dr_dev s) m Hi) as HW. destruct (dma_step _) as [d' m']. exists m'. split; [done|].
  split; cbn; try done. unfold v_mem. by rewrite Hp.
Qed.

(** The ticks that a wait of [limit] milliseconds takes at most. *)
Definition wait_end (x0 limit : Z) : Z := x0 + (limit + 2) * ms_ticks.

Lemma elapsed_bound x0 x limit : 0 ≤ limit < 2 ^ 30 → x0 ≤ x → x ≤ wait_end x0 limit + 2 * ms_slack →
  u32 (u32 (x / ms_ticks) - u32 (x0 / ms_ticks)) ≤ limit → x < wait_end x0 limit.
Proof.
  intros Hl Hx Hmax. destruct ms_positive as [HT Hs]. unfold wait_end in *. set (T := ms_ticks) in *. rewrite u32_sub_u32.
  pose proof (Z.mod_pos_bound x T HT). pose proof (Z.div_mod x T ltac:(lia)). pose proof (Z.mod_pos_bound x0 T HT). pose proof (Z.div_mod x0 T ltac:(lia)).
  assert (Hd : 0 ≤ x / T - x0 / T < 2 ^ 32).
  { split; [pose proof (Z.div_le_mono x0 x T HT Hx); lia|].
    assert (x / T < x0 / T + limit + 4 + 2 ^ 31); [|lia]. apply Z.div_lt_upper_bound; [done|]. lia. }
  rewrite u32_small by done. intros Hle. nia.
Qed.

Lemma run_wait_bulk limit x0 qh n : 0 ≤ qh → qh + 128 ≤ 2 ^ 64 → 0 ≤ limit < 2 ^ 30 → wait_end x0 limit + 2 * ms_slack ≤ ms_end → ∀ m x,
  (∀ m', confined m m' → head_idle m' head) → x0 ≤ x ≤ wait_end x0 limit + ms_slack → Z.max 0 (wait_end x0 limit - x) + 1 ≤ Z.of_nat n →
  {{ at_bus' m x }} wait_bulk fuel n qh (u32 (x0 / ms_ticks)) limit
  {{ λ r s, (r = 0 ∨ r = -2 ∨ r = -3) ∧ ∃ m' x', confined m m' ∧ x ≤ x' ≤ wait_end x0 limit + 2 * ms_slack ∧ at_bus' m' x' s }}.
Proof.
  intros Hq Hq' Hl Hend. destruct ms_positive as [HT Hsl]. induction n as [|n IH]; intros m x Hidle Hx Hn; [lia|]. cbn [wait_bulk].
  intros s Hs. destruct (run_device m x (Hidle m (confined_refl m)) s Hs) as ([] & s1 & E1 & m1 & Hc & Hs1). rewrite (bind_ok _ _ _ _ _ E1). clear s Hs E1.
  destruct (run_flush_bus m1 x qh sizeof_qh) with (s := s1) as ([] & s2 & E2 & Hs2); [done|done|unfold sizeof_qh; lia|done|].
  unfold phys_invalidate_cache. rewrite (bind_ok _ _ _ _ _ E2). clear s1 Hs1 E2.
  destruct (run_peek m1 x (qtd_token (qh_overlay qh)) s2 Hs2) as (tok & s3 & E3 & _ & Hs3). rewrite (bind_ok _ _ _ _ _ E3). clear s2 Hs2 E3.
  destruct (Z.land tok (Z.shiftl 1 7) =? 0).
  { do 2 eexists. split; [reflexivity|]. split; [by left|]. exists m1, x. splits; try done; lia. }
  destruct (negb (Z.land tok 0x7E =? 0)).
  { do 2 eexists. split; [reflexivity|]. split; [by right; right|]. exists m1, x. splits; try done; lia. }
  destruct (run_now m1 x ltac:(lia) s3 Hs3) as (t & s4 & E4 & x1 & -> & Hx1 & Hs4). rewrite (bind_ok _ _ _ _ _ E4).
  destruct (Z.ltb_spec limit (u32 (u32 (x1 / ms_ticks) - u32 (x0 / ms_ticks)))) as [Hlt|Hge].
  { do 2 eexists. split; [reflexivity|]. split; [by right; left|]. exists m1, x1. splits; try done; lia. }
  apply elapsed_bound in Hge; [|lia..].
  destruct (run_delay m1 x1 100 ltac:(lia) ltac:(lia) s4 Hs4) as ([] & s5 & E5 & x2 & Hx2 & Hs5). rewrite (bind_ok _ _ _ _ _ E5).
  destruct (IH m1 x2) with (s := s5) as (r & s6 & E6 & Hr & m2 & x3 & Hc2 & Hx3 & Hs6); [|lia|lia|done|].
  { intros m' Hm'. apply Hidle. by eapply confined_trans. }
  exists r, s6. split; [exact E6|]. split; [done|]. exists m2, x3. splits; [by eapply confined_trans|lia|lia|done].
Qed.
End bus.

(** ** Bulk transfers *)

Lemma fill_pages_one_page {C D : Type} n qtd buf len : len ≤ 4096 → fill_pages (C := C) (D := D) n 1 qtd buf len = mret tt.
Proof. intros. destruct n; [done|]. cbn [fill_pages]. destruct (Z.ltb_spec (1 * 4096) len); [lia|done]. Qed.

Lemma head_idle_ext m m' head : head_idle m head → (∀ a, head + 32 ≤ a < head + 64 → load8 m' a = load8 m a) → head_idle m' head.
Proof.
  intros Hi Ha. unfold head_idle, qtd_token, qtd_next, qh_overlay in *. by rewrite !(load_ext 4 m' m) by (intros b Hb; apply Ha; lia).
Qed.

Section bulk.
Context {C D : Type} {hh head : Z} `{Ports C, Tsc C, Mmio D, BusMaster D, EB : !EhciBus D hh head} {fuel : nat} {J : Z → ktime C → Prop} `{CK : !MsClock fuel J}.
Context {inv : pmm → (Z → Prop) → Prop} `{HPA : !PageAllocator inv, HBA : !BlockAllocator inv}.

(** The driver between transfers: the list has an idle head that no other part
    of the kernel uses, physical memory can be named with 32 bits. *)
Record bus_ready (s : driver C D hci) (F : Z → Prop) (x : Z) : Prop := {
  br_inv : inv (v_pmm (dr_vmm s)) F;
  br_hh : v_hhdm (dr_vmm s) = hh ∧ hhdm_offset (v_pmm (dr_vmm s)) = hh;
  br_low : PAGE_SIZE * pmm_max_page (v_pmm (dr_vmm s)) ≤ 2 ^ 32;
  br_head : async_list_head (dr_globals s) = head ∧ hh + 32 ≤ head ∧ head + 128 ≤ 2 ^ 64;
  br_idle : head_idle (v_mem (dr_vmm s)) head;
  br_public a : head ≤ a < head + 64 ∨ hh ≤ a < hh + 32 → ¬ private (v_pmm (dr_vmm s)) F a;
  br_time : J x (dr_time s);
}.

(** A buffer of the caller that lies in one page and is not the head's. *)
Record buffer_ok (s : driver C D hci) (F : Z → Prop) (buf len : Z) : Prop := {
  bo_range : hh ≤ buf ∧ 0 < len ∧ buf - hh + len < 2 ^ 32 ∧ buf + len + 64 ≤ 2 ^ 64;
  bo_page : (buf - hh) `mod` 4096 + len ≤ 4096;
  bo_public a : buf ≤ a < buf + len → ¬ private (v_pmm (dr_vmm s)) F a;
  bo_apart : buf + len ≤ head ∨ head + 64 ≤ buf;
}.

(** Between [s] and [s'] only the buffer and the first bytes of physical
    memory may have changed outside of the allocator's memory. *)
Record bus_kept (F : Z → Prop) (buf len : Z) (s s' : driver C D hci) : Prop := {
  bk_layout : pmm_layout (v_pmm (dr_vmm s)) (v_pmm (dr_vmm s'));
  bk_globals : dr_globals s' = dr_globals s;
  bk_link : load32 (v_mem (dr_vmm s')) (qh_horiz_link head) = load32 (v_mem (dr_vmm s)) (qh_horiz_link head);
  bk_mem a : ¬ private (v_pmm (dr_vmm s)) F a → ¬ zero_area hh a → ¬ buf ≤ a < buf + len → ¬ head ≤ a < head + 4 →
    load8 (v_mem (dr_vmm s')) a = load8 (v_mem (dr_vmm s)) a;
}.

(** The time of a transfer with the limit [t]. *)
Definition transfer_time (t : Z) : Z := (t + 2) * ms_ticks + 3 * ms_slack.

Abbreviation at_ p1 g := (at_bus (D := D) (hh := hh) (J := J) p1 g).

Lemma run_fill_bulk p1 g m x qh buf_phys devaddr ep len dir_in : len ≤ 4096 →
  {{ at_ p1 g m x }} fill_bulk qh (qh + 64) buf_phys devaddr ep len dir_in {{ λ _, at_ p1 g (bulk_mem m qh buf_phys devaddr ep len dir_in) x }}.
Proof.
  intros Hl. unfold fill_bulk. do 6 (eapply hoare_bind; [apply run_mem|intros []]). rewrite fill_pages_one_page by done.
  apply hoare_skip.
  do 3 (eapply hoare_bind; [apply run_mem|intros []]). apply run_mem.
Qed.

(** A page is taken. *)
Lemma run_palloc s F x : bus_ready s F x →
  palloc (v_pmm (dr_vmm s)) = Ok (0, v_pmm (dr_vmm s)) ∧ in_vmm (in_pmm palloc) s = Ok (0, s) ∨
  ∃ pa p1 F1 s1, in_vmm (in_pmm palloc) s = Ok (pa, s1) ∧ at_ p1 (dr_globals s) (pmm_mem p1) x s1 ∧ taken (inv := inv) (v_pmm (dr_vmm s)) F 0 pa p1 F1 ∧
    0 ≤ hh ∧ 0 < pa ∧ pa `mod` 4096 = 0 ∧ pa + 4096 ≤ 2 ^ 32 ∧ hh + pa + 4096 < 2 ^ 64 ∧ (∀ a, in_block p1 0 pa a ↔ hh + pa ≤ a < hh + pa + 4096).
Proof.
  intros [HI [Hh Ho] Hlow _ _ _ Hj]. unfold in_vmm, in_pmm, zoom. destruct (take_block _ _ 0 HI) as [E|(pa & p1 & F1 & E & Hpos & Htk)]; [done| |]; unfold palloc; rewrite E.
  - left. split; [done|]. by destruct s as [[] ? ? ?].
  - right. exists pa, p1, F1. eexists. split; [reflexivity|]. destruct (held_geometry _ _ _ _ _ _ Htk) as (G1 & G2 & G3 & G4 & G5 & G6).
    rewrite Ho in *. change (PAGE_SIZE * 2 ^ 0) with 4096 in *. splits; try done; try lia.
    split; cbn; try done. by destruct p1.
Qed.

(** A page goes back. *)
Lemma run_pfree (s : driver C D hci) F pa p1 F1 g m x : taken (inv := inv) (v_pmm (dr_vmm s)) F 0 pa p1 F1 → (∀ a, private p1 F1 a → load8 m a = load8 (pmm_mem p1) a) →
  {{ at_ p1 g m x }} in_vmm (in_pmm (pfree pa))
  {{ λ _ s', ∃ F2, inv (v_pmm (dr_vmm s')) F2 ∧ (∀ q, F2 q ↔ F q) ∧ pmm_layout (v_pmm (dr_vmm s)) (v_pmm (dr_vmm s')) ∧
       (∀ a, ¬ private (v_pmm (dr_vmm s)) F a → load8 (v_mem (dr_vmm s')) a = load8 m a) ∧
       v_hhdm (dr_vmm s') = hh ∧ dr_globals s' = g ∧ J x (dr_time s') }}.
Proof.
  intros Htk Hm s1 [Hp Hh Hj Hg]. destruct (give_back _ _ _ _ _ _ m Htk Hm) as (p2 & F2 & E & HI2 & HF2 & HL2 & Hmem).
  exists tt, (set_dr_vmm (set_v_pmm p2 (dr_vmm s1)) s1). unfold in_vmm, in_pmm, zoom, pfree. rewrite Hp, E. split; [done|]. exists F2. by splits.
Qed.

(** The queue head leaves the list again. *)
Lemma run_unlink p1 g m x qh : async_list_head g = head → 0 ≤ head → head + 128 ≤ 2 ^ 64 →
  {{ at_ p1 g m x }} unlink_qh qh {{ λ _, at_ p1 g (store32 m (qh_horiz_link head) (load32 m (qh_horiz_link qh))) x }}.
Proof.
  intros Hg Hpos Hb. unfold unlink_qh. eapply hoare_bind; [apply run_glob|]. intros h. apply hoare_pure. intros ->. rewrite Hg.
  eapply hoare_bind; [apply run_peek|]. intros l. apply hoare_pure. intros ->. eapply hoare_bind; [apply run_mem|intros []]. apply run_flush_bus; lia.
Qed.

(** The memory [m3] when the transfer is in the list of the controller, built
    from [m]. *)
Record in_list (m : memory) (pa buf len : Z) (m3 : memory) : Prop := {
  il_reach a : bus_reach hh head m3 a → page_area (hh + pa) a ∨ zero_area hh a ∨ buf ≤ a < buf + len;
  il_link : load32 m3 (qh_horiz_link (hh + pa)) = load32 m (qh_horiz_link head);
  il_mem a : ¬ hh + pa ≤ a < hh + pa + 96 → ¬ head ≤ a < head + 4 → load8 m3 a = load8 m a;
}.

(** The places of a transfer: the page at [pa], the buffer, the head. *)
Record places (pa buf len : Z) : Prop := {
  pl_page : 0 ≤ hh ∧ 4096 ≤ pa ∧ pa `mod` 4096 = 0 ∧ pa + 4096 ≤ 2 ^ 32 ∧ hh + pa + 4096 < 2 ^ 64;
  pl_head : hh + 32 ≤ head ∧ head + 128 ≤ 2 ^ 64 ∧ (head + 64 ≤ hh + pa ∨ hh + pa + 96 ≤ head);
  pl_buf : hh ≤ buf ∧ 0 ≤ len ∧ buf - hh + len < 2 ^ 32 ∧ (buf - hh) `mod` 4096 + len ≤ 4096 ∧ buf + len + 64 ≤ 2 ^ 64;
  pl_apart : (buf + len ≤ hh + pa ∨ hh + pa + 96 ≤ buf) ∧ (buf + len ≤ head ∨ head + 64 ≤ buf);
}.

Lemma linked_in_list m pa buf len devaddr ep dir_in : places pa buf len →
  let mb := bulk_mem m (hh + pa) (buf - hh) devaddr ep len dir_in in
  in_list m pa buf len (linked_mem mb head (hh + pa) (load32 mb (qh_horiz_link head)) pa).
Proof.
  intros [(P1 & P2 & P3 & P4 & P5) (D1 & D2 & D3) (B1 & B2 & B3 & B4 & B5) (A1 & A2)] mb.
  destruct (bulk_mem_ok m (hh + pa) (buf - hh) devaddr ep len dir_in) as (E1 & E2 & E3 & Eo); [lia|zdiv|]. fold mb in E1, E2, E3, Eo. clearbody mb.
  assert (HL : load32 mb (qh_horiz_link head) = load32 m (qh_horiz_link head)).
  { apply load_ext. intros b Hb. apply Eo. unfold qh_horiz_link in Hb. lia. }
  split.
  - intros a Ha. replace buf with (hh + (buf - hh)) by lia. eapply (linked_reach hh mb head pa); [lia|lia|lia|lia|..|exact Ha]; [lia|lia|exact E1|exact E2|exact E3].
  - unfold linked_mem, qh_horiz_link in *. rewrite load32_store32_ne, load32_store32_eq, HL by lia. apply u32_small, load32_range.
  - intros a Ha Hb. unfold linked_mem, qh_horiz_link. rewrite !load8_store32_ne by lia. by apply Eo.
Qed.

Lemma run_link {X} p1 g m x pa buf len devaddr ep dir_in (K : M (driver C D hci) X) Q : places pa buf len →
  (∀ m3, in_list m pa buf len m3 → {{ at_ p1 g m3 x }} K {{ Q }}) →
  {{ at_ p1 g m x }}
    (fill_bulk (hh + pa) (hh + pa + 64) (buf - hh) devaddr ep len dir_in;;
     link ← peek32 (qh_horiz_link head);
     upd_mem (λ m, store32 m (qh_horiz_link (hh + pa)) link);;
     in_vmm (phys_flush_cache (hh + pa) sizeof_qh);;
     in_vmm (phys_flush_cache (hh + pa + 64) sizeof_qtd);;
     in_vmm (phys_flush_cache buf len);;
     upd_mem (λ m, store32 m (qh_horiz_link head) (Z.lor (u32 pa) 0x2));;
     in_vmm (phys_flush_cache head 64);; K) {{ Q }}.
Proof.
  intros Hpl HK. pose proof (linked_in_list m pa buf len devaddr ep dir_in Hpl) as Hil. cbv zeta in Hil. specialize (HK _ Hil). clear Hil.
  destruct Hpl as [(P1 & P2 & P3 & P4 & P5) (D1 & D2 & D3) (B1 & B2 & B3 & B4 & B5) (A1 & A2)].
  eapply hoare_bind; [apply run_fill_bulk; zdiv|intros []]. revert HK. generalize (bulk_mem m (hh + pa) (buf - hh) devaddr ep len dir_in). intros mb HK.
  eapply hoare_bind; [apply run_peek|intros ?; apply hoare_pure; intros ->].
  eapply hoare_bind; [apply run_mem|intros []]. do 3 (eapply hoare_bind; [apply run_flush_bus; unfold sizeof_qh, sizeof_qtd; lia|intros []]).
  eapply hoare_bind; [apply run_mem|intros []]. eapply hoare_bind; [apply run_flush_bus; lia|intros []]. exact HK.
Qed.

(** The end of a transfer that was built from the memory [m]. *)
Record bulk_end (m : memory) (pa buf len : Z) (m' : memory) : Prop := {
  be_link : load32 m' (qh_horiz_link head) = load32 m (qh_horiz_link head);
  be_mem a : ¬ hh + pa ≤ a < hh + pa + 96 → ¬ zero_area hh a → ¬ buf ≤ a < buf + len → ¬ head ≤ a < head + 4 → load8 m' a = load8 m a;
}.

Lemma run_listed {X} p1 g m m3 x pa buf len t (K : Z → M (driver C D hci) X) Q :
  places pa buf len → in_list m pa buf len m3 → head_idle m head → async_list_head g = head →
  0 ≤ t < 2 ^ 30 → x + transfer_time t ≤ ms_end → (t + 2) * ms_ticks < Z.of_nat fuel →
  (∀ r m' x', (r = 0 ∨ r = -2 ∨ r = -3) → x ≤ x' ≤ x + transfer_time t → bulk_end m pa buf len m' → {{ at_ p1 g m' x' }} K r {{ Q }}) →
  {{ at_ p1 g m3 x }} (start ← now fuel; r ← wait_bulk fuel fuel (hh + pa) start t; unlink_qh (hh + pa);; K r) {{ Q }}.
Proof.
  intros [(P1 & P2 & P3 & P4 & P5) (D1 & D2 & D3) (B1 & B2 & B3 & B4 & B5) (A1 & A2)] [Hreach Hlink Hm3] Hidle Hg Ht Hend Hfuel HK.
  destruct ms_positive as [HT Hsl]. unfold transfer_time in *. assert (HtT : 0 ≤ (t + 2) * ms_ticks) by nia.
  intros s Hs. destruct (run_now (D := D) (hh := hh) (fuel := fuel) (J := J) p1 g m3 x) with (s := s) as (st & s1 & E & x0 & -> & Hx0 & Hs1); [lia|done|].
  rewrite (bind_ok _ _ _ _ _ E).
  assert (Hidle' : ∀ m', confined (hh := hh) (head := head) m3 m' → head_idle m' head).
  { intros m' [Hc _]. apply (head_idle_ext m m'); [done|]. intros a Ha. rewrite Hc; [apply Hm3; lia|]. intros Hr%Hreach.
    unfold page_area, zero_area in Hr. lia. }
  destruct (run_wait_bulk (D := D) (hh := hh) (fuel := fuel) (J := J) p1 g t x0 (hh + pa) fuel) with (m := m3) (x := x0) (s := s1) as (r & s2 & E2' & Hr & m4 & x4 & [Hc _] & Hx4 & Hs2);
    [lia|lia|lia|unfold wait_end; lia|done|unfold wait_end; lia|unfold wait_end; lia|done|].
  rewrite (bind_ok _ _ _ _ _ E2').
  destruct (run_unlink p1 g m4 x4 (hh + pa) Hg ltac:(lia) D2 s2 Hs2) as ([] & s3 & E3' & Hs3). rewrite (bind_ok _ _ _ _ _ E3').
  assert (Hq4 : load32 m4 (qh_horiz_link (hh + pa)) = load32 m (qh_horiz_link head)).
  { rewrite <-Hlink. apply load_ext. intros b Hb. apply Hc. intros Hb'%Hreach. unfold page_area, zero_area, qh_horiz_link in *. lia. }
  refine (HK r _ x4 Hr _ _ s3 Hs3); [unfold wait_end in Hx4; lia|split].
  - rewrite load32_store32_eq, Hq4. apply u32_small, load32_range.
  - intros a Ha Hz Hbf Hd. rewrite load8_store32_ne by (unfold qh_horiz_link; lia). rewrite Hc; [by apply Hm3|].
    intros Hr'%Hreach. unfold page_area in Hr'. destruct Hr' as [?|[?|?]]; [lia|done|done].
Qed.

Lemma taken_places s F x buf len pa p1 F1 : bus_ready s F x → buffer_ok s F buf len → taken (inv := inv) (v_pmm (dr_vmm s)) F 0 pa p1 F1 →
  0 ≤ hh → 0 < pa → pa `mod` 4096 = 0 → pa + 4096 ≤ 2 ^ 32 → hh + pa + 4096 < 2 ^ 64 → (∀ a, in_block p1 0 pa a ↔ hh + pa ≤ a < hh + pa + 4096) →
  places pa buf len.
Proof.
  intros [HI [Hh Ho] Hlow (Hhead & Hhd & Hhd') Hidle Hpub Hj] [(B1 & B2 & B3 & B3') B4 B5 B6] Htk G1 G2 G3 G4 G5 G6.
  assert (Hblk : ∀ a, hh + pa ≤ a < hh + pa + 4096 → private (v_pmm (dr_vmm s)) F a) by (intros a Ha; apply (held_block _ _ _ _ _ _ _ Htk), G6, Ha).
  destruct (pa_window _ _ HI) as (W1 & W2 & W3). rewrite Ho in W3.
  split; [splits; try done; zdiv|splits; try done|splits; try done; try lia|split; [|done]].
  - destruct (decide (head + 64 ≤ hh + pa ∨ hh + pa + 96 ≤ head)); [done|]. exfalso. apply (Hpub (Z.max head (hh + pa))); [lia|]. apply Hblk. lia.
  - destruct (decide (buf + len ≤ hh + pa ∨ hh + pa + 96 ≤ buf)); [done|]. exfalso. apply (B5 (Z.max buf (hh + pa))); [lia|]. apply Hblk. lia.
Qed.

(** The driver is ready again when the page is back. *)
Lemma ready_again s s' F F2 x x' buf len g m m' pa p1 F1 :
  bus_ready s F x → taken (inv := inv) (v_pmm (dr_vmm s)) F 0 pa p1 F1 → (∀ a, in_block p1 0 pa a ↔ hh + pa ≤ a < hh + pa + 4096) → buffer_ok s F buf len →
  m = pmm_mem p1 → bulk_end m pa buf len m' → inv (v_pmm (dr_vmm s')) F2 → (∀ q, F2 q ↔ F q) → pmm_layout (v_pmm (dr_vmm s)) (v_pmm (dr_vmm s')) →
  (∀ a, ¬ private (v_pmm (dr_vmm s)) F a → load8 (v_mem (dr_vmm s')) a = load8 m' a) →
  v_hhdm (dr_vmm s') = hh → g = dr_globals s → dr_globals s' = g → J x' (dr_time s') → bus_ready s' F2 x' ∧ bus_kept F buf len s s'.
Proof.
  intros [HI [Hh Ho] Hlow Hhead Hidle Hpub Hj] Htk G6 [_ _ _ B6] -> [Hl Hm] HI2 HF2 HL2 Hout Hh' -> Hg Hj'.
  assert (Hnb : ∀ a, ¬ private (v_pmm (dr_vmm s)) F a → ¬ hh + pa ≤ a < hh + pa + 96).
  { intros a Ha Hb. apply Ha, (held_block _ _ _ _ _ _ _ Htk), G6. lia. }
  assert (Hmem : ∀ a, ¬ private (v_pmm (dr_vmm s)) F a → ¬ zero_area hh a → ¬ buf ≤ a < buf + len → ¬ head ≤ a < head + 4 →
    load8 (v_mem (dr_vmm s')) a = load8 (v_mem (dr_vmm s)) a).
  { intros a Ha Hz Hbf Hd. rewrite Hout, Hm by auto. by apply (tk_mem _ _ _ _ _ _ Htk). }
  assert (Hlink : load32 (v_mem (dr_vmm s')) (qh_horiz_link head) = load32 (v_mem (dr_vmm s)) (qh_horiz_link head)).
  { unfold qh_horiz_link in *. rewrite (load_ext 4 _ m') by (intros b Hb; apply Hout, Hpub; lia). unfold load32 in Hl. rewrite Hl.
    apply load_ext. intros b Hb. apply (tk_mem _ _ _ _ _ _ Htk), Hpub. lia. }
  split; [|by split]. destruct HL2 as (L1 & L2 & L3). split; [done|by rewrite L3|by rewrite L2|by rewrite Hg| | |done].
  - apply (head_idle_ext _ _ head Hidle). intros a Ha. apply Hmem; [apply Hpub; lia|unfold zero_area; lia|lia|lia].
  - intros a Ha Hp. apply (Hpub a Ha). apply (private_layout _ _ F a (conj L1 (conj L2 L3))). destruct Hp as [?|(q & Hq & ?)]; [by left|right].
    exists q. by rewrite <-HF2.
Qed.

(** The result of a bulk transfer from [s]. *)
Definition bulk_result (s : driver C D hci) (F : Z → Prop) (x buf len t r : Z) (s' : driver C D hci) : Prop :=
  (r = 0 ∨ r = -1 ∨ r = -2 ∨ r = -3) ∧ ∃ F' x', bus_ready s' F' x' ∧ (∀ q, F' q ↔ F q) ∧ x ≤ x' ≤ x + transfer_time t ∧ bus_kept F buf len s s'.

(** A bulk transfer returns, with the page given back and the list as before. *)
Lemma bulk_safe s F x devaddr ep buf len dir_in t : bus_ready s F x → buffer_ok s F buf len →
  0 ≤ t < 2 ^ 30 → x + transfer_time t ≤ ms_end → (t + 2) * ms_ticks < Z.of_nat fuel →
  ∃ r s', ehci_submit_bulk_simple fuel devaddr ep buf len dir_in t s = Ok (r, s') ∧ bulk_result s F x buf len t r s'.
Proof.
  intros Hr Hb Ht Hend Hfuel. pose proof Hr as [HI _ _ (Hhead & Hhd & Hhd') Hidle Hpub _].
  destruct ms_positive as [HT Hsl]. assert (Htt : 0 ≤ transfer_time t) by (unfold transfer_time; nia).
  unfold ehci_submit_bulk_simple, glob, gets.
  rewrite (bind_ok (λ s, Ok (async_list_head (dr_globals s), s)) _ _ _ _ eq_refl), Hhead.
  destruct (run_palloc s F x Hr) as [[_ E]|(pa & p1 & F1 & s1 & E & Hs1 & Htk & G1 & G2 & G3 & G4 & G5 & G6)].
  { destruct (head =? 0); [|rewrite (bind_ok _ _ _ _ _ E)]; exists (-1), s; (split; [done|]); (split; [auto|]); exists F, x; splits; try done; lia. }
  pose proof (taken_places s F x buf len pa p1 F1 Hr Hb Htk G1 G2 G3 G4 G5 G6) as Hpl. pose proof (pl_buf _ _ _ Hpl) as (B1 & B2 & B3 & B4 & B5).
  rewrite (proj2 (Z.eqb_neq head 0)), (bind_ok _ _ _ _ _ E), (proj2 (Z.eqb_neq pa 0)) by lia.
  assert (Hidle1 : head_idle (pmm_mem p1) head).
  { apply (head_idle_ext _ _ head Hidle). intros a Ha. apply (tk_mem _ _ _ _ _ _ Htk), Hpub. lia. }
  eapply hoare_at; [exact Hs1|].
  eapply hoare_bind; [apply run_p2v|intros ?; apply hoare_pure; intros ->]. rewrite (u64_small (pa + hh)), (Z.add_comm pa) by lia. cbv zeta.
  eapply hoare_bind; [apply run_v2p|intros ?; apply hoare_pure; intros ->]. rewrite u64_small, (Z.add_simpl_l hh pa) by lia.
  eapply hoare_bind; [apply run_v2p|intros ?; apply hoare_pure; intros ->]. rewrite u64_small by lia.
  apply (run_link p1 _ _ x pa buf len); [done|]. intros m3 Hil. eapply run_listed; [done|exact Hil|done|done|done|done|done|].
  intros r m' x' Hr' Hx' He.
  assert (Hpv : ∀ a, private p1 F1 a → load8 m' a = load8 (pmm_mem p1) a).
  { intros a Ha. pose proof (held_private _ _ _ _ _ _ _ Htk Ha) as Ha'. apply (be_mem _ _ _ _ _ He).
    - intros Hb'. apply (held_block _ _ _ _ _ _ a Htk); [apply G6; lia|done].
    - intros Hz. apply (Hpub a); [unfold zero_area in Hz; lia|done].
    - intros Hbf. by apply (bo_public _ _ _ _ Hb a).
    - intros Hd. apply (Hpub a); [lia|done]. }
  enough (Hfree : {{ at_ p1 (dr_globals s) m' x' }} (in_vmm (in_pmm (pfree pa));; mret r) {{ bulk_result s F x buf len t }}).
  { destruct ((r =? 0) && dir_in); [eapply hoare_bind; [apply run_flush_bus; lia|intros []; exact Hfree]|by apply hoare_skip]. }
  eapply hoare_bind; [by apply (run_pfree s F pa p1 F1)|]. intros []. apply hoare_ret. intros s' (F2 & HI2 & HF2 & HL2 & Hout & Hh2 & Hg2 & Hj2).
  split; [tauto|]. exists F2, x'.
  destruct (ready_again s s' F F2 x x' buf len (dr_globals s) (pmm_mem p1) m' pa p1 F1) as [R1 R2]; try done.
Qed.
End bulk.
