(* ===== verification/MsdProof.v ===== *)
(** * USB: reading a sector

    [msd_read_sector] composes three bulk transfers around a page of its own.
    Against any controller that keeps to its queue it returns with one of its
    documented results, gives its page back and leaves the driver as it was. *)
From Stdlib Require Import ZArith Lia.
From stdpp Require Import base option gmap list.
From S2P Require Import Prelude Memory Pmm PmmProof PmmIface Vmm Hoare Io Ktime PmmBlocks Dma Hci HciProof.

Section msd.
Context {C D : Type} {hh head : Z} `{Ports C, Tsc C, Mmio D, BusMaster D, EB : !EhciBus D hh head} {fuel : nat} {J : Z → ktime C → Prop} `{CK : !MsClock fuel J}.
Context {inv : pmm → (Z → Prop) → Prop} `{HPA : !PageAllocator inv, HBA : !BlockAllocator inv}.
Abbreviation bus_ready := (bus_ready (C := C) (D := D) (hh := hh) (head := head) (J := J) (inv := inv)).
Abbreviation held := (held (inv := inv)).

(** ** The driver with the page at [pa], since the state [s] *)
Section hold.
Context (s : driver C D hci) (F : Z → Prop) (pa buf tag : Z).
Hypothesis Hblk : ∀ a, hh + pa ≤ a < hh + pa + 4096 → private (v_pmm (dr_vmm s)) F a.
Hypothesis Hpub0 : ∀ a, head ≤ a < head + 64 ∨ hh ≤ a < hh + 32 → ¬ private (v_pmm (dr_vmm s)) F a.

Record holds (sk : driver C D hci) (Fk : Z → Prop) (x : Z) : Prop := {
  ho_ready : bus_ready sk Fk x;
  ho_held : held (v_pmm (dr_vmm s)) F 0 pa (v_pmm (dr_vmm sk)) Fk;
  ho_globals : dr_globals sk = set_global_tag tag (dr_globals s);
  ho_link : load32 (v_mem (dr_vmm sk)) (qh_horiz_link head) = load32 (v_mem (dr_vmm s)) (qh_horiz_link head);
  ho_mem a : ¬ private (v_pmm (dr_vmm s)) F a → ¬ zero_area hh a → ¬ buf ≤ a < buf + 512 → ¬ head ≤ a < head + 4 →
    load8 (v_mem (dr_vmm sk)) a = load8 (v_mem (dr_vmm s)) a;
}.
Definition H_ (x : Z) (sk : driver C D hci) : Prop := ∃ Fk, holds sk Fk x.

Lemma holds_block sk Fk x a : holds sk Fk x → hh + pa ≤ a < hh + pa + 4096 → in_block (v_pmm (dr_vmm sk)) 0 pa a.
Proof.
  intros Hk Ha. destruct (held_geometry _ _ _ _ _ _ (ho_held _ _ _ Hk)) as (_ & _ & _ & _ & _ & G). apply G.
  destruct (hd_layout _ _ _ _ _ _ (ho_held _ _ _ Hk)) as (_ & _ & E). rewrite <-E, (proj2 (br_hh _ _ _ (ho_ready _ _ _ Hk))). done.
Qed.

(** The driver writes to its page. *)
Lemma hold_mem x f : (∀ m a, ¬ hh + pa ≤ a < hh + pa + 4096 → load8 (f m) a = load8 m a) → {{ H_ x }} upd_mem f {{ λ _, H_ x }}.
Proof.
  intros Hf sk [Fk Hk]. do 2 eexists. split; [reflexivity|]. exists Fk. pose proof Hk as [[HI Hh Hlow Hhead Hidle Hpub Hj] Hhd Hg Hl Hm].
  set (m' := f (v_mem (dr_vmm sk))). assert (Hm' : ∀ a, ¬ hh + pa ≤ a < hh + pa + 4096 → load8 m' a = load8 (v_mem (dr_vmm sk)) a) by (intros a; apply Hf).
  assert (Hblk' : ∀ a, hh + pa ≤ a < hh + pa + 4096 → ¬ private (v_pmm (dr_vmm sk)) Fk a).
  { intros a Ha. by apply (held_block _ _ _ _ _ _ a Hhd), (holds_block sk Fk x). }
  assert (HI' : inv (set_pmm_mem m' (v_pmm (dr_vmm sk))) Fk).
  { apply pa_write; [done|]. intros a Ha. apply Hm'. intros Hb. by apply (Hblk' a). }
  assert (Hhead' : ∀ a, head ≤ a < head + 64 → load8 m' a = load8 (v_mem (dr_vmm sk)) a).
  { intros a Ha. apply Hm'. intros Hb. apply (Hpub0 a); [by left|by apply Hblk]. }
  split; [split; try done| |done| |].
  - apply (head_idle_ext (v_mem (dr_vmm sk)) _ head Hidle). intros a Ha. apply Hhead'. lia.
  - by apply (held_step _ _ _ _ _ _ _ _ Hhd HI').
  - rewrite <-Hl. apply load_ext. intros b Hb. apply Hhead'. unfold qh_horiz_link in Hb. lia.
  - intros a Ha Hz Hbf Hd. rewrite <-Hm by done. apply Hm'. intros Hb. by apply Ha, Hblk.
Qed.

Lemma hold_flush x a n : 0 ≤ a → 0 ≤ n → a + n + 64 ≤ 2 ^ 64 → {{ H_ x }} in_vmm (phys_flush_cache a n) {{ λ _, H_ x }}.
Proof.
  intros Ha Hn Hb sk [Fk [[HI Hh Hlow Hhead Hidle Hpub Hj] Hhd Hg Hl Hm]]. destruct (phys_flush_cache_run a n (dr_vmm sk)) as (v & E & E1 & E2); [done..|].
  exists tt, (set_dr_vmm v sk). unfold in_vmm, zoom. rewrite E. split; [done|]. exists Fk.
  assert (Em : v_mem v = v_mem (dr_vmm sk)) by (unfold v_mem; by rewrite E1).
  split; cbn [dr_vmm set_dr_vmm]; rewrite ?Em, ?E1; try done. split; cbn [dr_vmm set_dr_vmm]; rewrite ?Em, ?E1, ?E2; done.
Qed.

(** A transfer to or from the page or the caller's buffer. *)
Lemma hold_bulk x devaddr ep b l dir_in : x + transfer_time 1000 ≤ ms_end → 1002 * ms_ticks < Z.of_nat fuel →
  (∀ a, b ≤ a < b + l → hh + pa ≤ a < hh + pa + 4096 ∨ buf ≤ a < buf + 512) →
  (∀ sk Fk, holds sk Fk x → buffer_ok (hh := hh) (head := head) sk Fk b l) →
  {{ H_ x }} ehci_submit_bulk_simple fuel devaddr ep b l dir_in 1000 {{ λ _ s', ∃ x', x ≤ x' ≤ x + transfer_time 1000 ∧ H_ x' s' }}.
Proof.
  intros Hend Hfuel Hin Hok sk [Fk Hk].
  destruct (bulk_safe sk Fk x devaddr ep b l dir_in 1000) as (r & s' & E & _ & F' & x' & Hr' & HF' & Hx' & [K1 K2 K3 K4]);
    [apply Hk|by apply Hok|lia|done|lia|]. pose proof Hk as [_ Hhd Hg Hl Hm].
  exists r, s'. split; [done|]. exists x'. split; [done|]. exists F'. split; [done| |by rewrite K2|by rewrite K3|].
  - apply (held_step _ _ _ _ _ _ _ _ Hhd); [apply Hr'|done|done].
  - intros a Ha Hz Hbf Hd. rewrite K4, Hm; try done.
    + intros Hp. by apply Ha, (held_private _ _ _ _ _ _ _ Hhd).
    + intros Hb. destruct (Hin a Hb) as [?|?]; [by apply Ha, Hblk|done].
Qed.

(** The page goes back. *)
Definition msd_done (x : Z) (r : Z) (s' : driver C D hci) : Prop :=
  ∃ F', bus_ready s' F' x ∧ (∀ q, F' q ↔ F q) ∧ pmm_layout (v_pmm (dr_vmm s)) (v_pmm (dr_vmm s')) ∧
    dr_globals s' = set_global_tag tag (dr_globals s) ∧
    load32 (v_mem (dr_vmm s')) (qh_horiz_link head) = load32 (v_mem (dr_vmm s)) (qh_horiz_link head) ∧
    ∀ a, ¬ private (v_pmm (dr_vmm s)) F a → ¬ zero_area hh a → ¬ buf ≤ a < buf + 512 → ¬ head ≤ a < head + 4 →
      load8 (v_mem (dr_vmm s')) a = load8 (v_mem (dr_vmm s)) a.
Lemma hold_finish x rc : {{ H_ x }} (in_vmm (in_pmm (pfree pa));; mret rc) {{ λ r s', r = rc ∧ msd_done x r s' }}.
Proof.
  intros sk [Fk [[HI [Hh Ho] Hlow Hhead Hidle Hpub Hj] Hhd Hg Hl Hm]].
  assert (Hself : set_pmm_mem (pmm_mem (v_pmm (dr_vmm sk))) (v_pmm (dr_vmm sk)) = v_pmm (dr_vmm sk)) by by destruct (v_pmm (dr_vmm sk)).
  destruct (give_back _ _ _ _ _ _ (pmm_mem (v_pmm (dr_vmm sk))) Hhd) as (p2 & F2 & E & HI2 & HF2 & HL2 & Hmem); [done|]. rewrite Hself in E.
  exists rc, (set_dr_vmm (set_v_pmm p2 (dr_vmm sk)) sk). unfold in_vmm, in_pmm, zoom, pfree, mbind, M_bind. rewrite E. split; [done|]. split; [done|].
  exists F2. pose proof (hd_layout _ _ _ _ _ _ Hhd) as (L1 & L2 & L3). pose proof HL2 as (M1 & M2 & M3).
  assert (Hhd' : ∀ a, head ≤ a < head + 64 → load8 (pmm_mem p2) a = load8 (v_mem (dr_vmm sk)) a) by (intros a Ha; apply Hmem, Hpub0; by left).
  splits; [|done|done|done| |].
  - split; try done; cbn.
    + split; [done|]. congruence.
    + rewrite M2. by rewrite L2 in Hlow.
    + apply (head_idle_ext (v_mem (dr_vmm sk)) _ head Hidle). intros a Ha. apply Hhd'. lia.
    + intros a Ha Hp. apply (Hpub0 a Ha). apply (private_layout _ _ F a HL2). destruct Hp as [?|(q & Hq & ?)]; [by left|right]. exists q. by rewrite <-HF2.
  - rewrite <-Hl. apply load_ext. intros b Hb. apply Hhd'. unfold qh_horiz_link in Hb. lia.
  - intros a Ha Hz Hbf Hd. rewrite <-Hm by done. by apply Hmem.
Qed.

(** The three buffers. *)
Lemma hold_page_buffer sk Fk x o l : holds sk Fk x → 0 < pa → pa `mod` 4096 = 0 → pa + 4096 ≤ 2 ^ 32 → hh + pa + 4096 < 2 ^ 64 →
  0 ≤ o → 0 < l → o + l ≤ 64 → buffer_ok (hh := hh) (head := head) sk Fk (hh + pa + o) l.
Proof.
  intros Hk P1 P2 P3 P4 Ho Hl Hol. pose proof (br_head _ _ _ (ho_ready _ _ _ Hk)) as (_ & Hd & _). split; [splits; lia|zdiv| |].
  - intros a Ha. apply (held_block _ _ _ _ _ _ a (ho_held _ _ _ Hk)), (holds_block sk Fk x); [done|lia].
  - destruct (decide (hh + pa + o + l ≤ head ∨ head + 64 ≤ hh + pa + o)); [done|]. exfalso. apply (Hpub0 (Z.max head (hh + pa + o))); [lia|]. apply Hblk. lia.
Qed.
Lemma hold_buffer sk Fk x : holds sk Fk x → buffer_ok (hh := hh) (head := head) s F buf 512 → buffer_ok (hh := hh) (head := head) sk Fk buf 512.
Proof.
  intros Hk [B1 B2 B3 B4]. split; try done. intros a Ha Hp. by apply (B3 a Ha), (held_private _ _ _ _ _ _ _ (ho_held _ _ _ Hk)).
Qed.

Lemma hold_fill_cbw x t lba : {{ H_ x }} fill_cbw (hh + pa) t lba {{ λ _, H_ x }}.
Proof.
  unfold fill_cbw. do 14 (eapply hoare_bind; [apply hold_mem; intros m a Ha;
    first [rewrite load8_store32_ne by lia|rewrite load8_store8_ne by lia|rewrite load8_memset_z, decide_False by (unfold sizeof_cbw; lia)]; done|intros []]).
  apply hold_mem. intros m a Ha. by rewrite load8_store8_ne by lia.
Qed.
End hold.

Lemma hold_start s F x pa p1 F1 buf tag : bus_ready s F x → taken (inv := inv) (v_pmm (dr_vmm s)) F 0 pa p1 F1 →
  {{ at_bus (D := D) (hh := hh) (J := J) p1 (dr_globals s) (pmm_mem p1) x }} set_glob (set_global_tag tag) {{ λ _, H_ s F pa buf tag x }}.
Proof.
  intros [HI [Hh Ho] Hlow Hhead Hidle Hpub Hj] Htk s1 [Ep Eh Ej Eg]. pose proof (hd_layout _ _ _ _ _ _ Htk) as (L1 & L2 & L3).
  assert (Ep' : v_pmm (dr_vmm s1) = p1) by (rewrite Ep; by destruct p1).
  do 2 eexists. split; [reflexivity|]. exists F1. split; cbn [dr_vmm dr_globals dr_time set_dr_globals]; unfold v_mem; rewrite ?Ep', ?Eg.
  - split; cbn [dr_vmm dr_globals dr_time set_dr_globals]; unfold v_mem; rewrite ?Ep', ?Eg, ?L2, ?L3; try done; [exact (hd_inv _ _ _ _ _ _ Htk)| |].
    + apply (head_idle_ext _ _ head Hidle). intros a Ha. apply (tk_mem _ _ _ _ _ _ Htk), Hpub. lia.
    + intros a Ha Hp. apply (Hpub a Ha). exact (held_private _ _ _ _ _ _ _ Htk Hp).
  - exact (tk_held _ _ _ _ _ _ Htk).
  - done.
  - apply load_ext. intros b Hb. apply (tk_mem _ _ _ _ _ _ Htk), Hpub. unfold qh_horiz_link in Hb. lia.
  - intros a Ha _ _ _. by apply (tk_mem _ _ _ _ _ _ Htk).
Qed.

(** C27: on a machine whose physical memory ends below 4 GiB (the driver gives the controller the low 32 bits of its
    addresses), with the queue head in the direct map and idle, and for a buffer that lies within one page and does not
    meet the queue head or the allocator's memory ([bus_ready], [buffer_ok]), [msd_read_sector] returns for every
    controller that keeps to its queue and every clock that advances.  When no page is free it returns -1 with
    nothing changed; else the result lies between -7 and 0, the page of the
    command is free again, the list of the controller and its idle head are as
    before, and of the memory of others only the buffer and the first 32 bytes
    of physical memory may have changed. *)
Theorem msd_read_sector_safe s F x dev lba buf : bus_ready s F x → buffer_ok (hh := hh) (head := head) s F buf 512 →
  x + 3 * transfer_time 1000 ≤ ms_end → 1002 * ms_ticks < Z.of_nat fuel →
  ∃ r s', msd_read_sector fuel dev lba buf s = Ok (r, s') ∧ -7 ≤ r ≤ 0 ∧
    (palloc (v_pmm (dr_vmm s)) = Ok (0, v_pmm (dr_vmm s)) ∧ r = -1 ∧ s' = s ∨ ∃ x', x ≤ x' ≤ x + 3 * transfer_time 1000 ∧ msd_done s F buf (u32 (global_tag (dr_globals s) + 1)) x' r s').
Proof.
  intros Hr Hb Hend Hfuel. assert (Htt : 0 ≤ transfer_time 1000) by (destruct ms_positive; unfold transfer_time; lia).
  pose proof (br_public _ _ _ Hr) as Hpub0. unfold msd_read_sector.
  destruct (run_palloc s F x Hr) as [[E0 E]|(pa & p1 & F1 & s1 & E & Hs1 & Htk & G1 & G2 & G3 & G4 & G5 & G6)]; rewrite (bind_ok _ _ _ _ _ E).
  { exists (-1), s. splits; [done|lia|lia|by left]. }
  rewrite (proj2 (Z.eqb_neq pa 0)) by lia. pose proof Hs1 as [Ep Eh Ej Eg].
  assert (Hblk : ∀ a, hh + pa ≤ a < hh + pa + 4096 → private (v_pmm (dr_vmm s)) F a) by (intros a Ha; apply (held_block _ _ _ _ _ _ _ Htk), G6, Ha).
  set (tag := u32 (global_tag (dr_globals s) + 1)).
  assert (Hfin : ∀ x' rc, x ≤ x' ≤ x + 3 * transfer_time 1000 → -7 ≤ rc ≤ 0 → {{ H_ s F pa buf tag x' }} (in_vmm (in_pmm (pfree pa));; mret rc)
    {{ λ r s', -7 ≤ r ≤ 0 ∧ (palloc (v_pmm (dr_vmm s)) = Ok (0, v_pmm (dr_vmm s)) ∧ r = -1 ∧ s' = s ∨ ∃ x', x ≤ x' ≤ x + 3 * transfer_time 1000 ∧ msd_done s F buf tag x' r s') }}).
  { intros x' rc Hx' Hrc. eapply hoare_conseq; [by apply hold_finish|done|]. intros r s' [-> Hd]. split; [done|]. right. by exists x'. }
  eapply hoare_at; [exact Hs1|].
  eapply hoare_bind; [apply run_p2v|intros ?; apply hoare_pure; intros ->]. rewrite (u64_small (pa + hh)), (Z.add_comm pa) by lia. cbv zeta.
  eapply hoare_bind; [apply run_glob|intros ?; apply hoare_pure; intros ->]. fold tag.
  eapply hoare_bind; [by apply (hold_start s F x pa p1 F1)|intros []]. eapply hoare_bind; [apply hold_fill_cbw; done|intros []].
  eapply hoare_bind; [apply hold_flush; unfold sizeof_cbw; lia|intros []].
  eapply hoare_bind; [apply hold_bulk; [done|lia|done|intros a Ha; left; lia|]|].
  { intros sk Fk Hk. rewrite <-(Z.add_0_r (hh + pa)). eapply hold_page_buffer; try done; lia. }
  intros r. apply hoare_ex. intros x1. apply hoare_pure. intros Hx1. destruct (r =? 0); cbn [negb]; [|apply Hfin; lia].
  eapply hoare_bind; [apply hold_bulk; [done|lia|done|by right|]|].
  { intros sk Fk Hk. by eapply hold_buffer. }
  clear r. intros r. apply hoare_ex. intros x2. apply hoare_pure. intros Hx2. destruct (r =? 0); cbn [negb]; [|apply Hfin; lia].
  eapply hoare_bind; [apply hold_mem; [done|done|]|intros []].
  { intros m a Ha. by rewrite load8_memset_z, decide_False by (unfold sizeof_csw; lia). }
  eapply hoare_bind; [apply hold_bulk; [done|lia|done|intros a Ha; left; lia|]|].
  { intros sk Fk Hk. eapply hold_page_buffer; try done; lia. }
  clear r. intros r. apply hoare_ex. intros x3. apply hoare_pure. intros Hx3. destruct (r =? 0); cbn [negb]; [|apply Hfin; lia].
  eapply hoare_bind; [apply hold_flush; unfold sizeof_csw; lia|intros []].
  eapply (hoare_bind _ (λ _, H_ s F pa buf tag x3)); [by intros sk Hk; exists (v_mem (dr_vmm sk)), sk|].
  intros m. apply Hfin; [lia|]. repeat case_match; lia.
Qed.
End msd.
