(* ===== verification/UsbConfig.v ===== *)
(** * USB: configuration descriptors

    The descriptors of a configuration as data, the bytes that encode them, and
    the proof that the search of [find_mass_storage_device] through the bytes
    computes the device that the descriptors describe. *)
From Stdlib Require Import ZArith Lia.
From stdpp Require Import base option gmap list.
From S2P Require Import Prelude Memory Pmm Vmm Hoare Io Ktime Dma Hci.

(** ** Descriptors and their bytes *)

Inductive descriptor :=
| DInterface (number alternate endpoints class subclass protocol name : Z) (more : list Z)
| DEndpoint (address attributes max_packet interval : Z) (more : list Z)
| DOther (ty : Z) (body : list Z).

Definition body_of (d : descriptor) : list Z :=
  match d with
  | DInterface n alt eps c sc p i more => [n; alt; eps; c; sc; p; i] ++ more
  | DEndpoint a attr mp iv more => [a; attr; mp `mod` 256; mp / 256; iv] ++ more
  | DOther _ body => body
  end.
Definition type_of (d : descriptor) : Z :=
  match d with DInterface _ _ _ _ _ _ _ _ => 0x04 | DEndpoint _ _ _ _ _ => 0x05 | DOther ty _ => ty end.
Definition descriptor_length (d : descriptor) : Z := 2 + Z.of_nat (length (body_of d)).
Definition encode_descriptor (d : descriptor) : list Z := descriptor_length d :: type_of d :: body_of d.
Definition encode_configuration (ds : list descriptor) : list Z := ds ≫= encode_descriptor.

(** Bytes, lengths that a byte can hold, and no other descriptor in disguise. *)
Definition descriptor_ok (d : descriptor) : Prop :=
  descriptor_length d < 256 ∧ Forall (λ b, 0 ≤ b < 256) (encode_descriptor d) ∧
  match d with
  | DOther ty body => (ty = 0x04 → (length body < 7)%nat) ∧ (ty = 0x05 → (length body < 5)%nat)
  | DEndpoint _ _ mp _ _ => 0 ≤ mp < 2 ^ 16
  | _ => True
  end.

(** ** The device that the descriptors describe

    The interface is the last mass-storage interface; the endpoints are, for each
    direction, the last bulk endpoint behind the first such interface.  What is
    not there stays as it was. *)
Definition storage_interface (d : descriptor) : option Z :=
  match d with
  | DInterface n _ _ c sc p _ _ => if decide (c = USB_CLASS_MASS_STORAGE ∧ sc = USB_SUBCLASS_SCSI ∧ p = USB_PROTOCOL_BULK_ONLY) then Some n else None
  | _ => None
  end.
Definition bulk_endpoint (dir_in : bool) (d : descriptor) : option usb_endpoint :=
  match d with
  | DEndpoint a attr mp _ _ => if decide (attr `mod` 4 = 2 ∧ (128 <=? a) = dir_in) then Some (mkEndpoint a mp attr) else None
  | _ => None
  end.
Fixpoint after_storage (ds : list descriptor) : list descriptor :=
  match ds with [] => [] | d :: ds => if storage_interface d is Some _ then ds else after_storage ds end.
Definition last_or {A} (x : A) (l : list A) : A := default x (last l).
Definition describe (ds : list descriptor) (found : bool) (dev : usb_device) : bool * usb_device :=
  let behind := if found then ds else after_storage ds in
  (found || existsb (λ d, if storage_interface d is Some _ then true else false) ds,
   mkUsbDevice (dev_address dev) (dev_config_value dev)
     (last_or (dev_bulk_in dev) (omap (bulk_endpoint true) behind)) (last_or (dev_bulk_out dev) (omap (bulk_endpoint false) behind))
     (last_or (dev_iface_number dev) (omap storage_interface ds))).

Lemma last_or_cons {A} (x y : A) l : last_or x (y :: l) = last_or y l.
Proof. unfold last_or. rewrite last_cons. by destruct (last l). Qed.

(** The step of the search is one step of the description. *)
Definition apply_descriptor (x : bool * usb_device) (d : descriptor) : bool * usb_device :=
  let '(found, dev) := x in
  match storage_interface d, found, bulk_endpoint true d, bulk_endpoint false d with
  | Some n, _, _, _ => (true, set_iface n dev)
  | None, true, Some ep, _ | None, true, None, Some ep => (true, set_bulk ep dev)
  | _, _, _, _ => x
  end.

Lemma in_address a : 0 ≤ a < 256 → (Z.land a 0x80 =? 0) = negb (128 <=? a).
Proof.
  intros Ha. rewrite <-(Z2Nat.id a) by lia.
  assert (H : forallb (λ n, Bool.eqb (Z.land (Z.of_nat n) 0x80 =? 0) (negb (128 <=? Z.of_nat n))) (seq 0 256) = true) by (vm_compute; reflexivity).
  apply eqb_true_iff. rewrite forallb_forall in H. apply (H (Z.to_nat a)). apply in_seq. lia.
Qed.
Lemma set_bulk_in a mp attr dev : 0 ≤ a < 256 → set_bulk (mkEndpoint a mp attr) dev =
  mkUsbDevice (dev_address dev) (dev_config_value dev) (if 128 <=? a then mkEndpoint a mp attr else dev_bulk_in dev)
    (if 128 <=? a then dev_bulk_out dev else mkEndpoint a mp attr) (dev_iface_number dev).
Proof. intros Ha. unfold set_bulk. cbn [ep_addr]. rewrite in_address by done. by destruct (128 <=? a). Qed.

(** The direction of a bulk endpoint at [a]. *)
Ltac bulk_cases a :=
  destruct (128 <=? a) eqn:Edir; rewrite ?(decide_True (P := _ ∧ true = true)), ?(decide_True (P := _ ∧ false = false)) by done;
  rewrite ?(decide_False (P := _ ∧ true = false)), ?(decide_False (P := _ ∧ false = true)) by naive_solver.

Lemma describe_cons d ds found dev : descriptor_ok d →
  describe (d :: ds) found dev = let '(found', dev') := apply_descriptor (found, dev) d in describe ds found' dev'.
Proof.
  intros (_ & Hb & _). destruct d as [n alt eps c sc pr i more|a attr mp iv more|ty body]; cbn [apply_descriptor storage_interface bulk_endpoint].
  - case_decide as Hm; unfold describe; cbn [existsb omap list_omap storage_interface bulk_endpoint after_storage].
    + rewrite decide_True by done. destruct found; cbn; by rewrite last_or_cons.
    + rewrite decide_False by done. by destruct found.
  - assert (Ha : 0 ≤ a < 256) by (apply (Forall_lookup_1 _ _ 2%nat _ Hb); done).
    destruct found; [|done]. unfold describe. cbn [existsb omap list_omap storage_interface bulk_endpoint after_storage orb].
    destruct (decide (attr `mod` 4 = 2)) as [E|E]; [|by rewrite !decide_False by tauto].
    bulk_cases a; rewrite set_bulk_in, Edir by done; cbn; by rewrite last_or_cons.
  - by destruct found.
Qed.

(** ** Reading them back *)

Definition bytes_from (m : memory) (a : Z) (bs : list Z) : Prop := ∀ i b, bs !! i = Some b → load8 m (a + Z.of_nat i) = b.
Lemma bytes_from_app m a bs cs : bytes_from m a (bs ++ cs) → bytes_from m a bs ∧ bytes_from m (a + Z.of_nat (length bs)) cs.
Proof.
  intros H. split; intros i b Hi.
  - apply H. by apply lookup_app_l_Some.
  - rewrite <-Z.add_assoc, <-Nat2Z.inj_add. apply H. rewrite lookup_app_r by lia. by replace (length bs + i - length bs)%nat with i by lia.
Qed.

Lemma take_descriptor_correct m p d found dev : descriptor_ok d → bytes_from m p (encode_descriptor d) →
  load8 m p = descriptor_length d ∧ load8 m (p + 1) = type_of d ∧
  take_descriptor m p (type_of d) (descriptor_length d) found dev = apply_descriptor (found, dev) d.
Proof.
  intros (Hl & Hb & Hd) Hat.
  assert (Hbyte : ∀ i b, 0 ≤ i → encode_descriptor d !! Z.to_nat i = Some b → load8 m (p + i) = b).
  { intros i b Hi Hb'. rewrite <-(Z2Nat.id i) by done. by apply Hat. }
  split; [rewrite <-(Z.add_0_r p); by apply (Hbyte 0)|]. split; [by apply (Hbyte 1)|].
  unfold take_descriptor. destruct d as [n alt eps c sc pr i more|a attr mp iv more|ty body]; cbn [type_of apply_descriptor storage_interface bulk_endpoint].
  - assert ((9 <=? descriptor_length (DInterface n alt eps c sc pr i more)) = true) as -> by (unfold descriptor_length; cbn [body_of]; rewrite length_app; cbn [length]; apply Z.leb_le; lia).
    cbn [Z.eqb Pos.eqb andb]. unfold is_msd.
    rewrite (Hbyte 2 n), (Hbyte 5 c), (Hbyte 6 sc), (Hbyte 7 pr) by done.
    case_decide as Hm.
    + destruct Hm as (-> & -> & ->). done.
    + destruct (Z.eqb_spec c USB_CLASS_MASS_STORAGE), (Z.eqb_spec sc USB_SUBCLASS_SCSI), (Z.eqb_spec pr USB_PROTOCOL_BULK_ONLY); try (by destruct found). by exfalso; apply Hm.
  - assert ((7 <=? descriptor_length (DEndpoint a attr mp iv more)) = true) as -> by (unfold descriptor_length; cbn [body_of]; rewrite length_app; cbn [length]; apply Z.leb_le; lia).
    cbn [Z.eqb Pos.eqb andb]. unfold endpoint_at. rewrite (Hbyte 2 a), (Hbyte 3 attr) by done.
    assert (Z.land attr 0x03 = attr `mod` 4) as -> by (apply (land_ones_mod attr 2); lia).
    assert (load16 m (p + 4) = mp) as ->.
    { change (load16 m (p + 4)) with (load8 m (p + 4) + 2 ^ 8 * (load8 m (p + 4 + 1) + 2 ^ 8 * 0)). rewrite (Hbyte 4 (mp `mod` 256)) by done. replace (p + 4 + 1) with (p + 5) by lia. rewrite (Hbyte 5 (mp / 256)) by done. zdiv. }
    destruct found; [|done]. cbn [andb].
    destruct (Z.eqb_spec (attr `mod` 4) 2); [by bulk_cases a|by rewrite !decide_False by tauto].
  - assert (((ty =? 4) && (9 <=? descriptor_length (DOther ty body))) = false) as ->.
    { destruct (Z.eqb_spec ty 4); [|done]. destruct Hd as [Hd _]. specialize (Hd e). unfold descriptor_length. cbn [body_of andb]. apply Z.leb_gt. lia. }
    assert (((ty =? 5) && (7 <=? descriptor_length (DOther ty body))) = false) as ->; [|by destruct found].
    destruct (Z.eqb_spec ty 5); [|done]. destruct Hd as [_ Hd]. specialize (Hd e). unfold descriptor_length. cbn [body_of andb]. apply Z.leb_gt. lia.
Qed.

(** C29: on the bytes that encode a list of descriptors, the loop of [find_mass_storage_device] returns without changing
    memory or device, and what it computes is what [describe] says of the list: the number of the last mass storage
    interface and, for each direction, the last bulk endpoint behind the first such interface, of whatever interface
    it is (when the only mass storage interface is the last interface, they are its own). *)
Theorem parse_descriptors_correct {C D} (ds : list descriptor) n ptr found dev (s : driver C D hci) :
  Forall descriptor_ok ds → bytes_from (v_mem (dr_vmm s)) ptr (encode_configuration ds) → (length ds ≤ n)%nat →
  parse_descriptors n ptr (ptr + Z.of_nat (length (encode_configuration ds))) found dev s = Ok (describe ds found dev, s).
Proof.
  intros Hok. revert n ptr found dev. induction Hok as [|d ds Hd Hok IH]; intros n ptr found dev Hat Hn.
  - cbn. rewrite Z.add_0_r. assert (describe [] found dev = (found, dev)) as -> by (by destruct found, dev); destruct n; cbn [parse_descriptors]; by rewrite Z.leb_refl.
  - unfold encode_configuration in *. cbn [mbind list_bind] in *. apply bytes_from_app in Hat as [Hat1 Hat2].
    destruct n as [|n]; [cbn in Hn; lia|]. cbn [length] in Hn.
    assert (El : Z.of_nat (length (encode_descriptor d)) = descriptor_length d) by (unfold encode_descriptor, descriptor_length; cbn [length]; lia).
    rewrite length_app, Nat2Z.inj_add, El in *. assert (2 ≤ descriptor_length d) by (unfold descriptor_length; lia).
    destruct (take_descriptor_correct _ ptr d found dev Hd Hat1) as (E1 & E2 & E3).
    cbn [parse_descriptors]. rewrite (proj2 (Z.leb_gt _ _)) by lia. mstep. rewrite E1, E2, (proj2 (Z.ltb_ge _ _)) by lia. rewrite E3.
    rewrite (describe_cons d ds found dev Hd). destruct (apply_descriptor (found, dev) d) as [found' dev']. cbn.
    rewrite Z.add_assoc. apply IH; [done|lia].
Qed.
