(* ===== verification/HciSpec.v ===== *)
(** * USB: instances

    A controller that completes transfers, a clock that counts milliseconds and
    the machine of SataSpec.v, at which the theorems about USB are instantiated. *)
From Stdlib Require Import ZArith Lia.
From stdpp Require Import base option gmap list.
From S2P Require Import Prelude Memory Pmm PmmProof PmmIface PmmSpec Vmm Hoare Io Ktime KtimeProof PmmBlocks Dma SataSpec Hci HciProof MsdProof UsbConfig.

(** ** A controller that ends the transfer it finds *)

Inductive soft_ehci := SoftEhci.
Definition usb_head : Z := sample_offset + 0x200000.
Definition soft_step (m : memory) : memory :=
  let q := queue_head sample_offset (load32 m (qh_horiz_link usb_head)) in
  if decide (q + 64 ≤ usb_head ∨ usb_head + 64 ≤ q) then store32 m (qtd_token (qh_overlay q)) 0 else m.
#[export] Instance soft_ehci_mmio : Mmio soft_ehci := {| mmio_write _ _ x := x; mmio_read _ x := (0, x) |}.
#[export] Instance soft_ehci_master : BusMaster soft_ehci := {| dma_step '(d, m) := (d, soft_step m) |}.
#[export] Instance soft_ehci_bus : EhciBus soft_ehci sample_offset usb_head.
Proof.
  split. intros d m Hi. cbn [dma_step soft_ehci_master]. unfold soft_step. set (q := queue_head sample_offset (load32 m (qh_horiz_link usb_head))).
  destruct (decide (q + 64 ≤ usb_head ∨ usb_head + 64 ≤ q)) as [Hap|]; [|by split]. set (m' := store32 m (qtd_token (qh_overlay q)) 0).
  assert (Hm' : ∀ a, ¬ q + 40 ≤ a < q + 44 → load8 m' a = load8 m a).
  { intros a Ha. apply load8_store32_ne. unfold qtd_token, qh_overlay. lia. }
  assert (Hld : ∀ a, a + 4 ≤ q + 40 ∨ q + 44 ≤ a → load32 m' a = load32 m a) by (intros a Ha; apply load_ext; intros b Hb; apply Hm'; lia).
  assert (Hne : q ≠ usb_head) by lia. split.
  - intros a Ha. apply Hm'. intros Hin. apply Ha. split; [done|]. left. unfold overlay_area, qh_curr_qtd, sizeof_qh. fold q. lia.
  - intros a [_ Ha]. split; [done|]. fold q. unfold qh_horiz_link in *. rewrite (Hld usb_head) in Ha by lia. fold q in Ha.
    destruct Ha as [Ha|[Ha|(i & Hi' & _)]]; [by left|right; left|exfalso].
    + unfold current_area in *. rewrite Hld in Ha by (unfold qh_curr_qtd; lia). done.
    + unfold transfer_total, m' in Hi'. rewrite load32_store32_eq in Hi'. change (Z.land (Z.shiftr (u32 0) 16) 0x7FFF) with 0 in Hi'. lia.
Qed.

(** ** A clock of one tick per millisecond, on which delays return at once *)

Definition ms_at (x : Z) (t : ktime bench) : Prop :=
  CPU_clock_speed t = 1000 ∧ boot_tsc t = 5 ∧ microdelay_mode t = HPET_DELAY ∧ b_time (kt_dev t) = 5 + x ∧ 0 ≤ x.
#[export] Instance bench_ms fuel : MsClock fuel ms_at.
Proof.
  refine {| ms_ticks := 1; ms_slack := 1; ms_end := 2 ^ 50 |}.
  - lia.
  - intros x t (Hc & Hb & Hm & Ht & Hx) Hend. destruct (get_time_ms_ok t fuel) as (d & E & Hd); rewrite ?Hc, ?Hb; cbn [cycles poll_cycles bench_tsc_clock] in *; [lia..|].
    exists (x + 1), (set_dev d t). rewrite E, Hc, Hb. rewrite Z.div_1_r, Z.div_mul by lia. split; [do 3 f_equal; lia|]. split; [|lia].
    split; [done|]. split; [done|]. split; [done|]. split; [cbn in *; lia|lia].
  - intros x [d c b md] k (Hc & Hb & Hm & Ht & Hx) Hend Hk. cbn in Hm. subst md. exists (-1), x, (mkKtime d c b HPET_DELAY).
    splits; [done|by splits|lia|lia].
Defined.

(** ** The machine, with an idle head of the list behind the managed pages *)

Definition usb_buffer : Z := usb_head + 0x100.
Definition usb_machine (p : pmm) : driver bench soft_ehci hci :=
  mkDriver (mkVmm (set_pmm_mem (store32 (store32 (pmm_mem p) (usb_head + 40) 0x40) (usb_head + 32) 1) p) sample_offset 0 0 [] [])
    SoftEhci (mkKtime (mkBench 5 0 8 None 0 false) 1000 5 HPET_DELAY) (mkHci 0 usb_head (usb_head - sample_offset) 0x1000 0).
Definition usb_state : driver bench soft_ehci hci := usb_machine disk_pmm.
Definition usb_key : usb_device := mkUsbDevice 1 1 (mkEndpoint 0x81 512 2) (mkEndpoint 0x02 512 2) 0.

Lemma usb_machine_ready p F : buddy_inv p F → pmm_max_page p = 256 → hhdm_offset p = sample_offset → pmm_bitmap p = sample_offset + 4096 →
  bus_ready (hh := sample_offset) (head := usb_head) (J := ms_at) (inv := buddy_inv) (usb_machine p) F 0 ∧
  buffer_ok (hh := sample_offset) (head := usb_head) (usb_machine p) F usb_buffer 512.
Proof.
  intros HI Emax Eh Ebm.
  assert (Hpub : ∀ a, usb_head ≤ a ∨ sample_offset ≤ a < sample_offset + 32 → ¬ private p F a).
  { intros a Ha [Hbm|(q & Hq & Hin)].
    - unfold in_bitmap, bitmap_len in Hbm. rewrite Ebm, Emax in Hbm. unfold usb_head in Ha. change ((256 + 7) / 8) with 32 in Hbm. lia.
    - destruct (pa_free _ _ _ HI Hq) as [Hq' _]. unfold in_page in Hin. rewrite Eh in Hin. rewrite Emax in Hq'.
      unfold usb_head, PAGE_SIZE in *. lia. }
  assert (Hpub' : ∀ a, usb_head ≤ a ∨ sample_offset ≤ a < sample_offset + 32 → ¬ private (v_pmm (dr_vmm (usb_machine p))) F a) by exact Hpub.
  split; split.
  - apply pa_write; [done|]. intros a Ha. rewrite !load8_store32_ne; [done| |].
    + destruct (decide (a < usb_head + 40 ∨ usb_head + 40 + 4 ≤ a)); [done|]. exfalso. apply (Hpub a); [lia|done].
    + destruct (decide (a < usb_head + 32 ∨ usb_head + 32 + 4 ≤ a)); [done|]. exfalso. apply (Hpub a); [lia|done].
  - split; [done|exact Eh].
  - change (PAGE_SIZE * pmm_max_page p ≤ 2 ^ 32). rewrite Emax. by vm_compute.
  - by splits.
  - unfold head_idle, v_mem, qtd_token, qtd_next, qh_overlay. cbn [usb_machine dr_vmm v_pmm pmm_mem set_pmm_mem].
    rewrite <-Z.add_assoc, (load32_store32_ne _ _ (usb_head + (32 + 8))), !load32_store32_eq by lia. done.
  - intros a Ha. apply Hpub'. lia.
  - by splits.
  - by splits.
  - by vm_compute.
  - intros a Ha. apply Hpub'. unfold usb_buffer in Ha. lia.
  - right. by vm_compute.
Qed.
Lemma usb_state_ready : ∃ F, bus_ready (hh := sample_offset) (head := usb_head) (J := ms_at) (inv := buddy_inv) usb_state F 0 ∧
  buffer_ok (hh := sample_offset) (head := usb_head) usb_state F usb_buffer 512.
Proof.
  destruct disk_pmm_inv as [L Hinv]. destruct disk_pmm_layout as (Emax & Eh & Ebm). exists (free_page L).
  apply usb_machine_ready; [exists L; split; [exact Hinv|intros q; reflexivity]|exact Emax|exact Eh|exact Ebm].
Qed.

Lemma usb_page : palloc (v_pmm (dr_vmm usb_state)) ≠ Ok (0, v_pmm (dr_vmm usb_state)).
Proof.
  intros E. assert (H : returns palloc (v_pmm (dr_vmm usb_state)) 0 = false) by (vm_compute; reflexivity).
  unfold returns in H. rewrite E in H. discriminate H.
Qed.

Lemma msd_read_sector_safe_witness : ∃ r s', msd_read_sector 1100 usb_key 7 usb_buffer usb_state = Ok (r, s') ∧ -7 ≤ r ≤ 0 ∧
  load32 (v_mem (dr_vmm s')) usb_head = load32 (v_mem (dr_vmm usb_state)) usb_head.
Proof.
  destruct usb_state_ready as (F & Hr & Hb).
  destruct (msd_read_sector_safe (fuel := 1100) usb_state F 0 usb_key 7 usb_buffer Hr Hb) as (r & s' & E & Hres & [(E0 & _)|(x' & _ & F' & HD)]);
    [by vm_compute|by vm_compute|exfalso; exact (usb_page E0)|].
  exists r, s'. split; [exact E|]. split; [exact Hres|]. destruct HD as (_ & _ & _ & _ & Hl & _). exact Hl.
Defined.

(** A configuration with one mass-storage interface and two bulk endpoints. *)
Definition usb_configuration : list descriptor :=
  [DInterface 0 0 2 0x08 0x06 0x50 0 []; DEndpoint 0x81 2 512 0 []; DEndpoint 0x02 2 512 0 []; DOther 0x24 [1; 2; 3]].
Fixpoint put_list (m : memory) (a : Z) (bs : list Z) : memory :=
  match bs with [] => m | b :: bs => store8 (put_list m (a + 1) bs) a b end.
Definition config_state : driver bench soft_ehci hci :=
  mkDriver (mkVmm (set_pmm_mem (put_list ∅ 4096 (encode_configuration usb_configuration)) (pmm_boot ∅)) 0 0 0 [] [])
    SoftEhci (mkKtime (mkBench 5 0 8 None 0 false) 1000 5 HPET_DELAY) hci_boot.

Lemma parse_descriptors_correct_witness :
  parse_descriptors 4 4096 (4096 + 28) false usb_key config_state = Ok ((true, mkUsbDevice 1 1 (mkEndpoint 0x81 512 2) (mkEndpoint 0x02 512 2) 0), config_state).
Proof.
  apply (parse_descriptors_correct usb_configuration 4 4096 false usb_key config_state).
  - repeat constructor; vm_compute; try done; try (split; congruence).
  - intros i b Hi. do 28 (destruct i as [|i]; [injection Hi as <-; vm_compute; reflexivity|]). done.
  - cbn. lia.
Defined.
