(* ===== verification/Apic.v ===== *)
(** * The interrupt controllers

    src/drivers/pic/apic: the set-up of the local APIC (model-specific
    register, control register 4, spurious vector), the two legacy 8259
    controllers, the table of interrupt handlers with its dispatch and
    end-of-interrupt, and the masks of the local and the I/O APIC. *)
From Stdlib Require Import ZArith Lia.
From stdpp Require Import base option gmap list.
From S2P Require Import Prelude Memory Cpu Sched Hoare Io.

(** Model-specific registers: the low and the high half. *)
Class Msr (D : Type) := { rdmsr : Z → D → Z * Z; wrmsr : Z → Z → Z → D → D }.

(** [APIC_EOI] and [APIC_LVT_TIMER] are those of the scheduler's timer. *)
Definition APIC_BASE : Z := 0xFEE00000.
Definition APIC_IO_BASE : Z := 0xFEC00000.
Definition APIC_REGISTER_OFFSET : Z := 0x10.
Definition CR4_APIC_BIT : Z := 0x200.
Definition IA32_APIC_BASE_MSR : Z := 0x1B.
Definition IA32_APIC_BASE_MSR_ENABLE : Z := 0x800.
Definition APIC_DELIVERY_MODE_FIXED : Z := 0x00000000.
Definition APIC_SVR : Z := 0xF0.
Definition IOAPIC_REG_SELECT : Z := 0x00.
Definition IOAPIC_REG_WINDOW : Z := 0x10.
Definition APIC_REMAP_OFFSET : Z := 0x20.
Definition MAX_IRQS : Z := 64.
Definition APIC_ISR : Z := 0x100.
Definition APIC_IRR : Z := 0x200.

Record apic (D : Type) := mkApic {
  ap_cpu : cpu;
  ap_dev : D;
  ap_mem : memory;
  ap_cr4 : Z;
  g_APICIRQHandlers : list Z   (* 64 function pointers, 0 is the null pointer *) }.
Arguments mkApic {D}.
Arguments ap_cpu {D}. Arguments ap_dev {D}. Arguments ap_mem {D}. Arguments ap_cr4 {D}. Arguments g_APICIRQHandlers {D}.
#[global] Instance apic_dev D : HasDev (apic D) D := {|
  the_dev := ap_dev; set_dev d s := mkApic (ap_cpu s) d (ap_mem s) (ap_cr4 s) (g_APICIRQHandlers s) |}.

Section apic.
Context {D : Type} `{Ports D, Mmio D, Msr D}.
Abbreviation A := (M (apic D)).

Definition set_ap_cpu (c : cpu) (s : apic D) : apic D := mkApic c (ap_dev s) (ap_mem s) (ap_cr4 s) (g_APICIRQHandlers s).
Definition set_ap_cr4 (v : Z) (s : apic D) : apic D := mkApic (ap_cpu s) (ap_dev s) (ap_mem s) v (g_APICIRQHandlers s).
Definition set_ap_dma (x : D * memory) (s : apic D) : apic D := mkApic (ap_cpu s) x.1 x.2 (ap_cr4 s) (g_APICIRQHandlers s).
Definition set_irq_handlers (l : list Z) (s : apic D) : apic D := mkApic (ap_cpu s) (ap_dev s) (ap_mem s) (ap_cr4 s) l.
Definition on_cpu {X} (m : M cpu X) : A X := zoom ap_cpu set_ap_cpu m.

(** ** Registers *)

Definition mm_write (a v : Z) : A unit := modify (λ s, set_ap_dma (mmio_write a (u32 v) (ap_dev s, ap_mem s)) s).
Definition mm_read (a : Z) : A Z := λ s, let '(v, x) := mmio_read a (ap_dev s, ap_mem s) in Ok (u32 v, set_ap_dma x s).
Definition cpuGetMSR (msr : Z) : A (Z * Z) := gets (λ s, let '(lo, hi) := rdmsr msr (ap_dev s) in (u32 lo, u32 hi)).
Definition cpuSetMSR (msr lo hi : Z) : A unit := modify (λ s, set_dev (wrmsr msr (u32 lo) (u32 hi) (ap_dev s)) s).
Definition ReadCR4 : A Z := gets ap_cr4.
Definition WriteCR4 (v : Z) : A unit := modify (set_ap_cr4 (u64 v)).

(** [apic_base[reg / sizeof(uint32_t)]] *)
Definition APIC_Write (reg value : Z) : A unit := mm_write (APIC_BASE + 4 * (u32 reg / 4)) value.
Definition APIC_Read (reg : Z) : A Z := mm_read (APIC_BASE + 4 * (u32 reg / 4)).
Definition APIC_ReadIO (reg : Z) : A Z :=
  mm_write (APIC_IO_BASE + IOAPIC_REG_SELECT) reg;;
  mm_read (APIC_IO_BASE + IOAPIC_REG_WINDOW).
Definition APIC_WriteIO (reg value : Z) : A unit :=
  mm_write (APIC_IO_BASE + IOAPIC_REG_SELECT) reg;;
  mm_write (APIC_IO_BASE + IOAPIC_REG_WINDOW) value.
Definition LAPIC_SendEOI : A unit := APIC_Write APIC_EOI 0.

(** ** Set-up *)

(** Without [__PHYSICAL_MEMORY_EXTENSION__], which nothing defines. *)
Definition cpu_set_apic_base (apic : Z) : A unit :=
  cpuSetMSR IA32_APIC_BASE_MSR (Z.lor (Z.land apic 0xFFFFF000) IA32_APIC_BASE_MSR_ENABLE) 0.
Definition cpu_get_apic_base : A Z :=
  '(eax, _) ← cpuGetMSR IA32_APIC_BASE_MSR;
  mret (Z.land eax 0xFFFFF000).

Definition ConfigureIMCR : A unit :=
  al ← inb 0x22;
  if negb (Z.land al 0x80 =? 0) then outb 0x22 0x70;; outb 0x23 0x1 else mret tt.

Definition APIC_Initialize : A unit :=
  cr4 ← ReadCR4;
  WriteCR4 (Z.lor cr4 CR4_APIC_BIT);;
  '(eax, edx) ← cpuGetMSR IA32_APIC_BASE_MSR;
  (if Z.land eax IA32_APIC_BASE_MSR_ENABLE =? 0 then
     cpuSetMSR IA32_APIC_BASE_MSR (Z.lor eax IA32_APIC_BASE_MSR_ENABLE) edx
   else mret tt);;
  cpuGetMSR IA32_APIC_BASE_MSR;;
  v ← APIC_Read APIC_SVR;
  APIC_Write APIC_SVR (Z.lor (Z.lor v 0x100) 0xFF).

Definition pic_disable : A unit :=
  outb 0x20 0x11;; outb 0xA0 0x11;;
  outb 0x21 0x20;; outb 0xA1 0x28;;
  outb 0x21 0x04;; outb 0xA1 0x02;;
  outb 0x21 0x01;; outb 0xA1 0x01;;
  outb 0x21 0xFF;; outb 0xA1 0xFF.

Definition apic_module_init : A Z := pic_disable;; APIC_Initialize;; mret 0.

(** ** Interrupts *)

(** [APIC_IRQ_Handler] in the table of interrupts is the address [irq_handler];
    [call] runs the function at another address on a frame. *)
Definition APIC_IRQ_Handler (call : Z → Z → A unit) (regs : Z) : A unit :=
  n ← gets (λ s, interrupt (load_regs (ap_mem s) regs));
  let irq := s32 (u64 (n - APIC_REMAP_OFFSET)) in
  APIC_Read APIC_ISR;;
  APIC_Read APIC_IRR;;
  h ← (λ s, match zlookup (g_APICIRQHandlers s) irq with Some h => Ok (h, s) | None => Fault end);
  (if h =? 0 then mret tt else call h regs);;
  LAPIC_SendEOI.

Definition APIC_IRQ_Initialize (irq_handler : Z) : A unit :=
  APIC_Initialize;;
  for_loop 64 0 (λ i, on_cpu (ISR_RegisterHandler (APIC_REMAP_OFFSET + i) irq_handler)).

Definition APIC_IRQ_RegisterHandler (irq handler : Z) : A unit :=
  if MAX_IRQS <=? irq then mret tt
  else modify (λ s, set_irq_handlers (zinsert irq handler (g_APICIRQHandlers s)) s).

(** [ISR_Handler] of cpu/isr.c on the frame at [regs]: the handler of its
    interrupt runs, or the kernel stops. *)
Definition dispatch_interrupt (irq_handler : Z) (call : Z → Z → A unit) (regs : Z) : A unit :=
  n ← gets (λ s, interrupt (load_regs (ap_mem s) regs));
  h ← on_cpu (ISR_Handler n);
  if h =? irq_handler then APIC_IRQ_Handler call regs else call h regs.

(** ** Masks *)

Definition lvt (irq : Z) : Z := u32 (APIC_LVT_TIMER + u32 (irq * APIC_REGISTER_OFFSET)).
Definition APIC_EnableIRQ (irq : Z) : A unit :=
  value ← APIC_Read (lvt irq);
  APIC_Write (lvt irq) (Z.land value (u32 (Z.lnot 0x10000))).
Definition APIC_DisableIRQ (irq : Z) : A unit :=
  value ← APIC_Read (lvt irq);
  APIC_Write (lvt irq) (Z.lor value 0x10000).
Definition APIC_EnableIOIRQ (irq interrupt_destination : Z) : A unit :=
  let value := Z.lor interrupt_destination APIC_DELIVERY_MODE_FIXED in
  APIC_WriteIO (u32 (irq * APIC_REGISTER_OFFSET)) (Z.land value (u32 (Z.lnot 0x10000))).
Definition APIC_DisableIOIRQ (irq : Z) : A unit :=
  value ← APIC_ReadIO (u32 (irq * APIC_REGISTER_OFFSET));
  APIC_WriteIO (u32 (irq * APIC_REGISTER_OFFSET)) (Z.lor value 0x10000).
End apic.

(** ** Theorems of the interrupt controllers

    What an interrupt does once the handler of the APIC is in place; a soft
    device with the registers of the local and the I/O APIC for examples. *)

(** ** Installing a handler for 64 interrupts *)

(** A table of 256 gates and handlers. *)
Definition tables (c : cpu) : Prop := ∀ i, 0 ≤ i < 256 → is_Some (gate c i) ∧ is_Some (zlookup (g_ISRHandlers c) i).
Definition remapped (i : Z) : Prop := 0x20 ≤ i < 0x60.

Section proof.
Context {D : Type} `{HP : Ports D, HM : Mmio D, HR : Msr D}.
Context (irq_handler : Z) (call : Z → Z → M (apic D) unit).
Abbreviation A := (M (apic D)).

(** What stays: the tables of the processor and of the interrupt handlers. *)
Definition keeps {X} (f : A X) : Prop := ∀ s, ∃ x s', f s = Ok (x, s') ∧ ap_cpu s' = ap_cpu s ∧ g_APICIRQHandlers s' = g_APICIRQHandlers s.

Lemma keeps_bind {X Y} (f : A X) (g : X → A Y) : keeps f → (∀ x, keeps (g x)) → keeps (f ≫= g).
Proof.
  intros Hf Hg s. destruct (Hf s) as (x & s1 & E1 & C1 & T1). destruct (Hg x s1) as (y & s2 & E2 & C2 & T2).
  exists y, s2. split; [by mstep with E1|]. split; congruence.
Qed.
Lemma keeps_ret {X} (x : X) : keeps (mret x).
Proof. intros s. by exists x, s. Qed.
Lemma keeps_gets {X} (f : apic D → X) : keeps (gets f).
Proof. intros s. by exists (f s), s. Qed.
Lemma keeps_modify f : (∀ s : apic D, ap_cpu (f s) = ap_cpu s ∧ g_APICIRQHandlers (f s) = g_APICIRQHandlers s) → keeps (modify f).
Proof. intros Hf s. exists tt, (f s). by split; [|apply Hf]. Qed.
Lemma keeps_if {X} (b : bool) (f g : A X) : keeps f → keeps g → keeps (if b then f else g).
Proof. by destruct b. Qed.
Lemma keeps_read a : keeps (mm_read a).
Proof. intros s. unfold mm_read. destruct (mmio_read a _) as [v x]. by exists (u32 v), (set_ap_dma x s). Qed.
Lemma keeps_write a v : keeps (mm_write a v).
Proof. by apply keeps_modify. Qed.

Lemma keeps_initialize : keeps APIC_Initialize.
Proof.
  apply keeps_bind; [apply keeps_gets|intros cr4]. apply keeps_bind; [by apply keeps_modify|intros _].
  apply keeps_bind; [apply keeps_gets|intros [eax edx]]. apply keeps_bind; [apply keeps_if; [by apply keeps_modify|apply keeps_ret]|intros _].
  apply keeps_bind; [apply keeps_gets|intros _]. apply keeps_bind; [apply keeps_read|intros v; apply keeps_write].
Qed.

Lemma install_ok (s : apic D) : tables (ap_cpu s) →
  ∃ s', for_loop 64 0 (λ i, on_cpu (ISR_RegisterHandler (APIC_REMAP_OFFSET + i) irq_handler)) s = Ok (tt, s') ∧
    g_APICIRQHandlers s' = g_APICIRQHandlers s ∧
    ∀ j, (remapped j → zlookup (g_ISRHandlers (ap_cpu s')) j = Some irq_handler ∧ ∃ e, gate (ap_cpu s') j = Some e ∧ gate_present e = true) ∧
         (¬ remapped j → zlookup (g_ISRHandlers (ap_cpu s')) j = zlookup (g_ISRHandlers (ap_cpu s)) j ∧ gate (ap_cpu s') j = gate (ap_cpu s) j).
Proof.
  intros Ht.
  destruct (for_loop_inv (λ n s', g_APICIRQHandlers s' = g_APICIRQHandlers s ∧ tables (ap_cpu s') ∧
    ∀ j, (0x20 ≤ j < 0x20 + n → zlookup (g_ISRHandlers (ap_cpu s')) j = Some irq_handler ∧ ∃ e, gate (ap_cpu s') j = Some e ∧ gate_present e = true) ∧
         (¬ 0x20 ≤ j < 0x20 + n → zlookup (g_ISRHandlers (ap_cpu s')) j = zlookup (g_ISRHandlers (ap_cpu s)) j ∧ gate (ap_cpu s') j = gate (ap_cpu s) j))
    (λ i, on_cpu (ISR_RegisterHandler (APIC_REMAP_OFFSET + i) irq_handler)) 64 0 s) as (s' & E & Hh & _ & Hj).
  - splits; [done|done|]. intros j. split; [lia|done].
  - intros i s1 Hi (Hh1 & Ht1 & Hj1). destruct (Ht1 (0x20 + i) ltac:(lia)) as [[e He] [x Hx]].
    destruct (ISR_RegisterHandler_spec (0x20 + i) irq_handler (ap_cpu s1) e x He Hx) as (c & E & Hg & Hl).
    exists (set_ap_cpu c s1). split; [by apply zoom_ok|]. split; [done|]. cbn [ap_cpu set_ap_cpu]. split.
    + intros j Hjr. rewrite Hg, Hl. case_decide; [by split|by apply Ht1].
    + intros j. rewrite Hg, Hl. destruct (decide (0x20 + i = j)) as [<-|Hne]; [|split; intros Hr; apply Hj1; lia].
      split; [intros _|lia]. split; [done|]. eexists. by split; [|apply enabled_present].
  - exists s'. splits; [done|done|]. intros j. unfold remapped. exact (Hj j).
Qed.

Lemma zlookup_irq n : 0 ≤ n < 64 → s32 (u64 (0x20 + n - APIC_REMAP_OFFSET)) = n.
Proof. intros Hn. unfold APIC_REMAP_OFFSET. replace (0x20 + n - 0x20) with n by lia. rewrite u64_small by lia. apply s32_small. lia. Qed.

(** The service of an interrupt whose handler is [h]: the status registers are read, the handler runs on the frame, and 0 is
    written to the end-of-interrupt register. *)
Definition serviced (h regs : Z) : A unit :=
  mm_read 0xFEE00100;; mm_read 0xFEE00200;; (if decide (h = 0) then mret tt else call h regs);; mm_write 0xFEE000B0 0.

Lemma dispatch_ok (s : apic D) regs n h : irq_handler ≠ 0 → 0 ≤ n < 64 → zlookup (g_ISRHandlers (ap_cpu s)) (0x20 + n) = Some irq_handler →
  zlookup (g_APICIRQHandlers s) n = Some h → interrupt (load_regs (ap_mem s) regs) = 0x20 + n →
  dispatch_interrupt irq_handler call regs s = serviced h regs s.
Proof.
  intros H0 Hn Hi Hh Hr. unfold dispatch_interrupt, serviced. mstep. rewrite Hr.
  assert (E : on_cpu (ISR_Handler (0x20 + n)) s = Ok (irq_handler, s)).
  { unfold on_cpu, zoom, ISR_Handler. rewrite Hi, (proj2 (Z.eqb_neq irq_handler 0)) by done. by destruct s. }
  mstep with E. rewrite Z.eqb_refl. unfold APIC_IRQ_Handler. mstep. rewrite Hr, zlookup_irq by done.
  destruct (keeps_read 0xFEE00100 s) as (v1 & s1 & E1 & _ & T1).
  destruct (keeps_read 0xFEE00200 s1) as (v2 & s2 & E2 & _ & T2).
  change (APIC_Read APIC_ISR) with (mm_read (D := D) 0xFEE00100). change (APIC_Read APIC_IRR) with (mm_read (D := D) 0xFEE00200).
  mstep with E1. mstep with E2. mstep with E1. mstep with E2.
  assert (E3 : (λ s : apic D, match zlookup (g_APICIRQHandlers s) n with Some h => Ok (h, s) | None => Fault end) s2 = Ok (h, s2)).
  { cbn. by rewrite T2, T1, Hh. }
  mstep with E3. by destruct (Z.eqb_spec h 0), (decide (h = 0)).
Qed.

(** C39: [APIC_IRQ_Initialize] leads the interrupts 0x20 to 0x5F, and no others, to the APIC's handler behind present gates.
    From then on, once a function is registered for an interrupt number, an interrupt in that range reads the two status
    registers, runs the function registered for its number, if any, on the interrupted frame, and then writes the end-of-interrupt; registering one number leaves the others as they were. *)
Theorem irq_dispatch_correct (s : apic D) : irq_handler ≠ 0 → tables (ap_cpu s) → length (g_APICIRQHandlers s) = 64%nat →
  ∃ s1, APIC_IRQ_Initialize irq_handler s = Ok (tt, s1) ∧ g_APICIRQHandlers s1 = g_APICIRQHandlers s ∧
    (∀ j, remapped j → ∃ e, gate (ap_cpu s1) j = Some e ∧ gate_present e = true) ∧
    (∀ j, ¬ remapped j → zlookup (g_ISRHandlers (ap_cpu s1)) j = zlookup (g_ISRHandlers (ap_cpu s)) j ∧ gate (ap_cpu s1) j = gate (ap_cpu s) j) ∧
    ∀ (t : apic D) irq f, ap_cpu t = ap_cpu s1 → length (g_APICIRQHandlers t) = 64%nat → 0 ≤ irq < 2 ^ 32 →
      ∃ t', APIC_IRQ_RegisterHandler irq f t = Ok (tt, t') ∧ ap_cpu t' = ap_cpu t ∧
        ∀ (u : apic D) regs n, ap_cpu u = ap_cpu t' → g_APICIRQHandlers u = g_APICIRQHandlers t' → 0 ≤ n < 64 →
          interrupt (load_regs (ap_mem u) regs) = 0x20 + n →
          dispatch_interrupt irq_handler call regs u =
            serviced (if decide (n = irq) then f else default 0 (zlookup (g_APICIRQHandlers t) n)) regs u.
Proof.
  intros H0 Ht Hlen. destruct (keeps_initialize s) as ([] & s0 & E0 & C0 & T0).
  destruct (install_ok s0) as (s1 & E1 & T1 & Hj); [by rewrite C0|].
  exists s1. splits; [unfold APIC_IRQ_Initialize; by mstep with E0|congruence|intros j Hr; by apply Hj|intros j Hr; rewrite <-C0; by apply Hj|].
  intros t irq f Ct Lt Hirq. unfold APIC_IRQ_RegisterHandler, MAX_IRQS. eexists. split.
  { instantiate (1 := if 64 <=? irq then t else set_irq_handlers (zinsert irq f (g_APICIRQHandlers t)) t). by destruct (64 <=? irq). }
  assert (Cu : ap_cpu (if 64 <=? irq then t else set_irq_handlers (zinsert irq f (g_APICIRQHandlers t)) t) = ap_cpu t) by (by destruct (64 <=? irq)).
  split; [exact Cu|]. intros u regs n Cu' Tu Hn Hr.
  apply (dispatch_ok u regs n); [done|done| | |done].
  - rewrite Cu', Cu, Ct. apply Hj. unfold remapped. lia.
  - rewrite Tu. destruct (zlookup_lt (g_APICIRQHandlers t) n ltac:(lia)) as [x Hx].
    destruct (Z.leb_spec 64 irq); cbn [g_APICIRQHandlers set_irq_handlers].
    + by rewrite decide_False, Hx by lia.
    + rewrite zlookup_zinsert by lia. case_decide; [by rewrite decide_True|by rewrite decide_False, Hx by done].
Qed.
End proof.

(** ** A soft device

    The registers of the local APIC by address, those of the I/O APIC by the
    index written to its select register, one model-specific register, and the
    byte ports written. *)
Record soft_apic := mkSoft { sa_regs : gmap Z Z; sa_io : gmap Z Z; sa_select : Z; sa_msr : Z * Z; sa_ports : list (Z * Z) }.
#[global] Instance soft_ports : Ports soft_apic := {|
  port_outb p v d := mkSoft (sa_regs d) (sa_io d) (sa_select d) (sa_msr d) ((p, v) :: sa_ports d);
  port_inb _ d := (0, d);
  port_outw p v d := d;
  port_inw _ d := (0, d) |}.
#[global] Instance soft_mmio : Mmio soft_apic := {|
  mmio_write a v x := let '(d, m) := x in
    (if a =? APIC_IO_BASE then mkSoft (sa_regs d) (sa_io d) v (sa_msr d) (sa_ports d)
     else if a =? APIC_IO_BASE + IOAPIC_REG_WINDOW then mkSoft (sa_regs d) (<[sa_select d := v]> (sa_io d)) (sa_select d) (sa_msr d) (sa_ports d)
     else mkSoft (<[a := v]> (sa_regs d)) (sa_io d) (sa_select d) (sa_msr d) (sa_ports d), m);
  mmio_read a x := (if a =? APIC_IO_BASE + IOAPIC_REG_WINDOW then default 0 (sa_io x.1 !! sa_select x.1) else default 0 (sa_regs x.1 !! a), x) |}.
#[global] Instance soft_msr : Msr soft_apic := {|
  rdmsr _ d := sa_msr d; wrmsr _ lo hi d := mkSoft (sa_regs d) (sa_io d) (sa_select d) (lo, hi) (sa_ports d) |}.

Definition apic_boot : apic soft_apic :=
  mkApic cpu_boot (mkSoft ∅ ∅ 0 (0xFEE00900, 0) []) (store64 ∅ (0x9000 + 8 * 15) 0x21) 0x20 (replicate 64 0).

Lemma cpu_boot_tables : tables cpu_boot.
Proof. intros i Hi. split; by apply zlookup_lt. Qed.

Lemma irq_dispatch_correct_witness :
  ∃ s1 t', APIC_IRQ_Initialize 0x7000 apic_boot = Ok (tt, s1) ∧ APIC_IRQ_RegisterHandler 1 0x5000 s1 = Ok (tt, t') ∧
    dispatch_interrupt 0x7000 (λ _ _, mret tt) 0x9000 (mkApic (ap_cpu t') (ap_dev apic_boot) (ap_mem apic_boot) 0 (g_APICIRQHandlers t')) =
    serviced (λ _ _, mret tt) 0x5000 0x9000 (mkApic (ap_cpu t') (ap_dev apic_boot) (ap_mem apic_boot) 0 (g_APICIRQHandlers t')).
Proof.
  destruct (irq_dispatch_correct 0x7000 (λ _ _, mret tt) apic_boot) as (s1 & E1 & T1 & _ & _ & Hd); [done|exact cpu_boot_tables|done|].
  destruct (Hd s1 1 0x5000 eq_refl) as (t' & Et & _ & Hs); [by rewrite T1|lia|].
  exists s1, t'. split; [exact E1|]. split; [exact Et|].
  rewrite (Hs (mkApic (ap_cpu t') (ap_dev apic_boot) (ap_mem apic_boot) 0 (g_APICIRQHandlers t')) 0x9000 1 eq_refl eq_refl); [done|lia|by vm_compute].
Defined.

(** The redirection entry of pin [n] is in the registers 0x10 + 2 * n and the
    next; [APIC_EnableIOIRQ] writes register 16 * n, so that enabling interrupt
    1 programs pin 0 and leaves pin 1 as it was. *)
Lemma enable_io_irq_programs_other_pin :
  ∃ s', APIC_EnableIOIRQ 1 0x31 apic_boot = Ok (tt, s') ∧
    sa_io (ap_dev s') !! 0x10 = Some 0x31 ∧ sa_io (ap_dev s') !! (0x10 + 2 * 1) = None.
Proof. eexists. split; [reflexivity|]. split; vm_compute; reflexivity. Qed.

(** Bit 9 of control register 4 enables SSE, not the APIC; the set-up sets it, enables the APIC in its register (keeping
    address and flags) and writes vector 0xFF with the enable bit to the spurious register. *)
Lemma apic_initialize_boot :
  ∃ s', APIC_Initialize apic_boot = Ok (tt, s') ∧ ap_cr4 s' = 0x220 ∧ sa_msr (ap_dev s') = (0xFEE00900, 0) ∧
    sa_regs (ap_dev s') !! 0xFEE000F0 = Some 0x1FF.
Proof. eexists. split; [reflexivity|]. splits; vm_compute; reflexivity. Qed.
