(* ===== verification/Kmain.v ===== *)
(** * Loading the kernel modules at boot

    The module loading of src/kernel/main/kernel.c: the table of the modules
    that have been loaded, the walk over a directory, and the order in which
    [kmain] calls them.  [full_path] and [entries] are static variables of
    [load_elfs_in_dir]: every call, also a recursive one, shares them, and the
    table keeps pointers and not copies of the paths. *)
From Stdlib Require Import ZArith Lia Ascii String.
From stdpp Require Import base option gmap list.
From S2P Require Import Prelude Memory Pmm Vmm CString CStringProof Print PrintProof Vfs Modsym Elf Module.

Definition MAX_LOADED_MODULES : Z := 10000.

Record kmain (C : Type) := mkKmain {
  km_kernel : kernel C;
  loaded_modules : list Z;         (* pointers to paths, as many as [loaded_module_count] *)
  km_entries : list vfs_dirent     (* the static array of 64 entries *) }.
Arguments mkKmain {C}. Arguments km_kernel {C}. Arguments loaded_modules {C}. Arguments km_entries {C}.

(** The contents of the string at [a]: the value of a [%s] argument. *)
Fixpoint read_string (fuel : nat) (a : Z) : M memory (list Z) :=
  match fuel with
  | O => spin
  | S fuel => c ← char_at a; if c =? 0 then mret [] else l ← read_string fuel (a + 1); mret (c :: l)
  end.

(** [cpuid leaf subleaf] gives eax, ebx, ecx and edx. *)
Definition get_physical_core_count (cpuid : Z → Z → Z * Z * Z * Z) (vendor : Z) : M memory Z :=
  intel ← strcmp_lit (lit "GenuineIntel") vendor;
  if intel =? 0 then
    let '(eax, _, _, _) := cpuid 4 0 in mret (Z.land (Z.shiftr (u32 eax) 26) 0x3F + 1)
  else
  amd ← strcmp_lit (lit "AuthenticAMD") vendor;
  if amd =? 0 then
    let '(_, _, ecx, _) := cpuid 0x80000008 0 in mret (Z.land (u32 ecx) 0xFF + 1)
  else mret 1.

Section kmain.
Context {C : Type}.
Abbreviation A := (M (kmain C)).
(** The address of the static buffer, the heap, the addresses of the kernel's
    symbols, the fuel for strings, and what the code of a module does when
    [kmain] calls its entry point. *)
Context (full_path pool : Z) (addr : Z → Z) (fuel : nat) (init : Z → A unit).

Definition set_km_kernel (k : kernel C) (s : kmain C) : kmain C := mkKmain k (loaded_modules s) (km_entries s).
Definition set_loaded (l : list Z) (s : kmain C) : kmain C := mkKmain (km_kernel s) l (km_entries s).
Definition set_entries (l : list vfs_dirent) (s : kmain C) : kmain C := mkKmain (km_kernel s) (loaded_modules s) l.
Definition km_mem (s : kmain C) : memory := k_mem (km_kernel s).
Definition set_km_mem (m : memory) (s : kmain C) : kmain C := set_km_kernel (set_k_mem m (km_kernel s)) s.
Definition in_kernel {X} (m : M (kernel C) X) : A X := zoom km_kernel set_km_kernel m.
Definition in_strings {X} (m : M memory X) : A X := zoom km_mem set_km_mem m.

Fixpoint already_in (l : list Z) (path : Z) : M memory bool :=
  match l with
  | [] => mret false
  | p :: l => r ← strcmp fuel p path; if r =? 0 then mret true else already_in l path
  end.
Definition module_already_loaded (path : Z) : A bool :=
  l ← gets loaded_modules; in_strings (already_in l path).

Definition load_module (path : Z) : A unit :=
  loaded ← module_already_loaded path;
  if (loaded : bool) then mret tt else
  name ← in_strings (read_string fuel path);
  r ← in_kernel (elf_load_module pool addr fuel name);
  match r with
  | None => mret tt
  | Some info =>
      modify (λ s, if Z.of_nat (length (loaded_modules s)) <? MAX_LOADED_MODULES
                   then set_loaded (loaded_modules s ++ [path]) s else s);;
      init (mi_entry info)
  end.

Definition entry_at (i : Z) : A vfs_dirent := λ s,
  match zlookup (km_entries s) i with Some e => Ok (e, s) | None => Fault end.

(** [vfs_listdir] stores the entries of the directory in the static array and
    leaves the rest of it as it was. *)
Definition list_into (mnt : option Z) (inode : Z) : A Z :=
  r ← in_kernel (in_vfs (vfs_listdir mnt inode 64));
  if (64 <? length r.2)%nat then fault else
  modify (λ s, set_entries (r.2 ++ drop (length r.2) (km_entries s)) s);;
  mret r.1.

(** [strlen(name) > 4 && strcmp(name + strlen(name) - 4, ".elf") == 0] *)
Definition is_elf_name (name : list Z) : bool :=
  (4 <? length name)%nat && bool_decide (drop (length name - 4) name = lit ".elf").

(** One entry of the directory at [path]; [walk] is the recursive call. *)
Definition visit_entry (walk : Z → A unit) (path i : Z) : A unit :=
  plen ← in_strings (strlen fuel path);
  c ← in_strings (char_at (u64 (path + u64 (plen - 1))));
  dir ← in_strings (read_string fuel path);
  e ← entry_at i;
  in_strings (snprintf full_path 512 (if c =? ch "/" then lit "%s%s" else lit "%s/%s") [VStr (Some dir); VStr (Some (de_name e))]);;
  if de_type e =? VFS_TYPE_DIR then walk full_path
  else if de_type e =? VFS_TYPE_FILE then if is_elf_name (de_name e) then load_module full_path else mret tt
  else mret tt.

(** [depth] bounds the depth of the recursion. *)
Fixpoint load_elfs_in_dir (depth : nat) (mnt : option Z) (path : Z) : A unit :=
  match depth with
  | O => spin
  | S depth =>
      name ← in_strings (read_string fuel path);
      inode ← in_kernel (in_vfs (vfs_path_to_inode mnt name));
      if inode =? 0 then mret tt else
      count ← list_into mnt inode;
      if count <? 0 then mret tt else
      for_loop (Z.to_nat count) 0 (visit_entry (load_elfs_in_dir depth mnt) path)
  end.

(** The part of [kmain] between the unpacking of the initramfs and the start of
    the scheduler; [priority_modules] are the addresses of the three paths. *)
Definition load_boot_modules (depth : nat) (priority_modules : list Z) (root : Z) : A unit :=
  mnt ← in_kernel (in_vfs vfs_get_root_mount);
  for_loop (length priority_modules) 0 (λ i, load_module (default 0 (zlookup priority_modules i)));;
  load_elfs_in_dir depth mnt root.
End kmain.

(** ** Theorems of the module loading

    The table of loaded modules refers to the paths by pointers, and the walk
    over a directory passes the same static buffer for every file: once a
    pointer to the buffer is in the table, every later file of a directory
    counts as loaded. *)

Lemma read_string_spec m a l fuel : cstr m a l → (length l < fuel)%nat → read_string fuel a m = Ok (l, m).
Proof.
  revert a fuel; induction l as [|c l IH]; intros a [|fuel] Hc Hf; cbn in Hf; try lia; cbn [read_string].
  - mstep. cbn in Hc. by rewrite Hc.
  - destruct Hc as (H1 & H2 & H3). mstep. rewrite H1, (proj2 (Z.eqb_neq c 0)) by done. by mstep with (IH _ fuel H3 ltac:(lia)).
Qed.

(** The pointers of the table and the strings they point to. *)
Definition points_to (fuel : nat) (m : memory) (p : Z) (n : list Z) : Prop := cstr m p n ∧ (length n < fuel)%nat.

Lemma already_in_spec fuel m l names path name : Forall2 (points_to fuel m) l names → cstr m path name →
  already_in fuel l path m = Ok (bool_decide (name ∈ names), m).
Proof.
  intros Hl Hp. induction Hl as [|p n l names [Hn Hf] Hl IH]; cbn [already_in].
  - by rewrite bool_decide_false by apply not_elem_of_nil.
  - mstep with (strcmp_spec m p n path name fuel Hn Hp Hf).
    destruct (first_diff_order n name) as [Heq _]; [by eapply cstr_byte|by eapply cstr_byte|].
    destruct (Z.eqb_spec (first_diff n name) 0) as [E|E].
    + rewrite bool_decide_true; [done|]. apply Heq in E as ->. apply list.elem_of_cons. by left.
    + rewrite IH. do 2 f_equal. apply bool_decide_ext. rewrite list.elem_of_cons. split; [by right|]. intros [->|?]; [|done].
      exfalso. by apply E, Heq.
Qed.

Section proof.
Context {C : Type}.
Context (full_path pool : Z) (addr : Z → Z) (fuel : nat) (init : Z → M (kmain C) unit).
Abbreviation load := (load_module pool addr fuel init).

Lemma set_km_mem_same (s : kmain C) : set_km_mem (km_mem s) s = s.
Proof. destruct s as [[[[] ? ? ? ? ?] ? ? ? ?] ? ?]. reflexivity. Qed.

Lemma in_strings_ok {X} (f : M memory X) (s : kmain C) x m : f (km_mem s) = Ok (x, m) → in_strings f s = Ok (x, set_km_mem m s).
Proof. intros E. unfold in_strings, zoom. by rewrite E. Qed.
Lemma in_strings_read {X} (f : M memory X) (s : kmain C) x : f (km_mem s) = Ok (x, km_mem s) → in_strings f s = Ok (x, s).
Proof. intros E. rewrite (in_strings_ok f s x (km_mem s) E). by rewrite set_km_mem_same. Qed.

Lemma module_already_loaded_spec (s : kmain C) names path name : Forall2 (points_to fuel (km_mem s)) (loaded_modules s) names →
  cstr (km_mem s) path name → module_already_loaded fuel path s = Ok (bool_decide (name ∈ names), s).
Proof.
  intros Hl Hp. unfold module_already_loaded. mstep. apply in_strings_read. by apply already_in_spec.
Qed.

(** What [load_module] does, for a table whose pointers lead to strings: nothing when the path is equal to one of them, else it
    loads the file; on success the pointer is recorded, while there is room, and the entry point of the module runs. *)
Lemma load_module_spec (s : kmain C) names path name : Forall2 (points_to fuel (km_mem s)) (loaded_modules s) names →
  points_to fuel (km_mem s) path name →
  load path s =
    if decide (name ∈ names) then Ok (tt, s) else
    (r ← in_kernel (elf_load_module pool addr fuel name);
     match r with
     | None => mret tt
     | Some info =>
         modify (λ s, if Z.of_nat (length (loaded_modules s)) <? MAX_LOADED_MODULES then set_loaded (loaded_modules s ++ [path]) s else s);;
         init (mi_entry info)
     end) s.
Proof.
  intros Hl [Hp Hf]. unfold load_module. mstep with (module_already_loaded_spec s names path name Hl Hp).
  case_bool_decide; [by rewrite decide_True|]. rewrite decide_False by done.
  by mstep with (in_strings_read (read_string fuel path) s name (read_string_spec _ path name fuel Hp Hf)).
Qed.

(** ** A directory, once the buffer is in the table *)

(** The path of the file [name] in the directory [dir], as far as it fits. *)
Definition joined (dir name : list Z) : list Z := take 511 (if decide (last dir = Some (ch "/")) then dir ++ name else dir ++ ch "/" :: name).
Definition chars (l : list Z) : Prop := Forall (λ c, 0 < c < 256) l.

(** The buffer, and every string that matters, apart from each other. *)
Definition apart (p : Z) (n : list Z) : Prop := p + Z.of_nat (length n) < full_path ∨ full_path + 512 ≤ p.
Definition table_entry (m : memory) (p : Z) : Prop := p = full_path ∨ ∃ n, points_to fuel m p n ∧ apart p n.

Lemma snprintf_path m c dir name : 0 < full_path → chars dir → chars name → c = default 0 (last dir) →
  ∃ r m', snprintf full_path 512 (if c =? ch "/" then lit "%s%s" else lit "%s/%s") [VStr (Some dir); VStr (Some name)] m = Ok (r, m') ∧
    cstr m' full_path (joined dir name) ∧ only_in full_path (full_path + 512) m m'.
Proof.
  intros Hpos Hd Hn ->. unfold joined.
  assert (Ed : (default 0 (last dir) =? ch "/") = bool_decide (last dir = Some (ch "/"))).
  { destruct (last dir) as [x|]; [|by rewrite bool_decide_false]. change (default 0 (Some x)) with x.
    destruct (Z.eqb_spec x (ch "/")) as [->|]; [by rewrite bool_decide_true|rewrite bool_decide_false; [done|by intros [= ->]]]. }
  rewrite Ed. case_bool_decide as Hl; [rewrite decide_True by done|rewrite decide_False by done]; apply vsnprintf_cstr; try done.
  - apply emits_format. transitivity (Some (dir ++ name ++ [])); [reflexivity|by rewrite app_nil_r].
  - by apply Forall_app.
  - apply emits_format. transitivity (Some (dir ++ ch "/" :: name ++ [])); [reflexivity|by rewrite app_nil_r].
  - apply Forall_app. split; [done|]. apply list.Forall_cons. done.
Qed.

Lemma table_names m l n : Forall (table_entry m) l → points_to fuel m full_path n → full_path ∈ l →
  ∃ names, Forall2 (points_to fuel m) l names ∧ n ∈ names.
Proof.
  intros Hl Hn. assert (H : ∃ names, Forall2 (points_to fuel m) l names ∧ (full_path ∈ l → n ∈ names)).
  { induction Hl as [|p l Hp _ (names & IH & Hin)]; [exists []; split; [done|by intros ?%not_elem_of_nil]|].
    destruct Hp as [->|(k & Hk & _)].
    - exists (n :: names). split; [by constructor|]. intros _. apply list.elem_of_cons. by left.
    - destruct (decide (p = full_path)) as [->|Hne].
      + exists (n :: names). split; [by constructor|]. intros _. apply list.elem_of_cons. by left.
      + exists (k :: names). split; [by constructor|]. rewrite !list.elem_of_cons. intros [?|?]; [congruence|]. right. by apply Hin. }
  intros Hin. destruct H as (names & H1 & H2). exists names. split; [done|by apply H2].
Qed.

(** With the buffer in the table, [load_module] on the buffer does nothing, whatever string it holds. *)
Lemma load_blocked (s : kmain C) n : full_path ∈ loaded_modules s → Forall (table_entry (km_mem s)) (loaded_modules s) →
  points_to fuel (km_mem s) full_path n → load full_path s = Ok (tt, s).
Proof.
  intros Hin Hl Hn. destruct (table_names _ _ n Hl Hn Hin) as (names & H2 & Hnn).
  rewrite (load_module_spec s names full_path n H2 Hn). by rewrite decide_True.
Qed.

Lemma points_to_frame m m' p n : only_in full_path (full_path + 512) m m' → apart p n → points_to fuel m p n → points_to fuel m' p n.
Proof.
  intros Ho Ha [Hc Hf]. split; [|done]. eapply cstr_frame; [|exact Hc]. intros b Hb. apply Ho. unfold apart in Ha. lia.
Qed.
Lemma table_entry_frame m m' p : only_in full_path (full_path + 512) m m' → table_entry m p → table_entry m' p.
Proof. intros Ho [->|(n & Hn & Ha)]; [by left|]. right. exists n. split; [by eapply points_to_frame|done]. Qed.

Lemma length_joined dir name : (length (joined dir name) ≤ 511)%nat.
Proof. unfold joined. rewrite length_take. lia. Qed.

(** One file of a directory: the buffer gets its path, and nothing else happens. *)
Lemma visit_blocked (s : kmain C) walk path dir i e : 0 < full_path → (511 < fuel)%nat →
  full_path ∈ loaded_modules s → Forall (table_entry (km_mem s)) (loaded_modules s) →
  points_to fuel (km_mem s) path dir → apart path dir → dir ≠ [] → 0 ≤ path → path + Z.of_nat (length dir) < 2 ^ 64 →
  zlookup (km_entries s) i = Some e → de_type e ≠ VFS_TYPE_DIR → chars (de_name e) →
  ∃ m', visit_entry full_path pool addr fuel init walk path i s = Ok (tt, set_km_mem m' s) ∧ only_in full_path (full_path + 512) (km_mem s) m'.
Proof.
  intros Hpos Hfu Hin Hl [Hc Hf] Hap Hne H0 H64 He Hty Hch. unfold visit_entry.
  assert (Hlen : (0 < length dir)%nat) by (destruct dir; [done|cbn; lia]).
  mstep with (in_strings_read (strlen fuel path) s _ (strlen_spec _ path dir fuel Hc Hf)).
  rewrite (u64_small (Z.of_nat (length dir) - 1)), (u64_small (path + _)) by lia.
  assert (Ech : load8 (km_mem s) (path + (Z.of_nat (length dir) - 1)) = default 0 (last dir)).
  { rewrite (cstr_char _ path dir) by (done || lia). rewrite last_lookup. do 2 f_equal. lia. }
  mstep with (in_strings_read (char_at (path + (Z.of_nat (length dir) - 1))) s _ (f_equal (λ x, Ok (x, km_mem s)) Ech)).
  mstep with (in_strings_read (read_string fuel path) s dir (read_string_spec _ path dir fuel Hc Hf)).
  assert (Ee : entry_at i s = Ok (e, s)) by (unfold entry_at; by rewrite He).
  mstep with Ee.
  destruct (snprintf_path (km_mem s) (default 0 (last dir)) dir (de_name e) Hpos (cstr_byte _ _ _ Hc) Hch eq_refl) as (r & m' & E & Hc' & Ho).
  mstep with (in_strings_ok _ s r m' E). exists m'. split; [|done].
  rewrite (proj2 (Z.eqb_neq _ _) Hty). destruct (de_type e =? VFS_TYPE_FILE); [|done]. destruct (is_elf_name (de_name e)); [|done].
  apply (load_blocked _ (joined dir (de_name e))); [done| |].
  - eapply Forall_impl; [exact Hl|]. intros p Hp. by eapply table_entry_frame.
  - split; [exact Hc'|]. pose proof (length_joined dir (de_name e)). lia.
Qed.

Lemma in_kernel_vfs {X} (f : M (vfs C) X) (s : kmain C) x v : f (k_vfs (km_kernel s)) = Ok (x, v) →
  in_kernel (in_vfs f) s = Ok (x, set_km_kernel (set_k_vfs v (km_kernel s)) s).
Proof. intros E. unfold in_kernel, in_vfs, zoom. by rewrite E. Qed.

Lemma list_into_ok (s : kmain C) mnt inode es v : vfs_listdir mnt inode 64 (k_vfs (km_kernel s)) = Ok ((Z.of_nat (length es), es), v) →
  (length es ≤ 64)%nat → list_into mnt inode s =
    Ok (Z.of_nat (length es), mkKmain (set_k_vfs v (km_kernel s)) (loaded_modules s) (es ++ drop (length es) (km_entries s))).
Proof.
  intros E Hn. unfold list_into. mstep with (in_kernel_vfs _ s _ _ E). cbn [fst snd].
  by rewrite (proj2 (Nat.ltb_ge 64 (length es)) Hn).
Qed.

(** The table of loaded modules keeps pointers, and [load_elfs_in_dir] passes the same static buffer for every file.  Once
    a module of a directory has been loaded, so that the buffer is in the table, a walk over a directory of files loads
    nothing: it returns with the table as it was; the buffer, the static entries and the file system's state change. *)
Theorem directory_loads_no_more (s : kmain C) depth mnt path dir inode v1 es v2 : 0 < full_path → (511 < fuel)%nat →
  full_path ∈ loaded_modules s → Forall (table_entry (km_mem s)) (loaded_modules s) →
  points_to fuel (km_mem s) path dir → apart path dir → dir ≠ [] → 0 ≤ path → path + Z.of_nat (length dir) < 2 ^ 64 →
  vfs_path_to_inode mnt dir (k_vfs (km_kernel s)) = Ok (inode, v1) → inode ≠ 0 →
  vfs_listdir mnt inode 64 v1 = Ok ((Z.of_nat (length es), es), v2) → (length es ≤ 64)%nat →
  Forall (λ e, de_type e ≠ VFS_TYPE_DIR ∧ chars (de_name e)) es →
  ∃ m', load_elfs_in_dir full_path pool addr fuel init (S depth) mnt path s =
      Ok (tt, mkKmain (set_k_mem m' (set_k_vfs v2 (km_kernel s))) (loaded_modules s) (es ++ drop (length es) (km_entries s))) ∧
    only_in full_path (full_path + 512) (km_mem s) m'.
Proof.
  intros Hpos Hfu Hin Hl Hp Hap Hne H0 H64 Ei Hi Eli Hn Hes. cbn [load_elfs_in_dir].
  mstep with (in_strings_read (read_string fuel path) s dir (read_string_spec _ path dir fuel (proj1 Hp) (proj2 Hp))).
  mstep with (in_kernel_vfs _ s _ _ Ei). rewrite (proj2 (Z.eqb_neq inode 0) Hi).
  mstep with (list_into_ok (set_km_kernel (set_k_vfs v1 (km_kernel s)) s) mnt inode es v2 Eli Hn).
  rewrite (proj2 (Z.ltb_ge (Z.of_nat (length es)) 0)), Nat2Z.id by lia.
  set (s1 := mkKmain _ _ _).
  destruct (for_loop_inv (λ _ s', ∃ m', s' = set_km_mem m' s1 ∧ only_in full_path (full_path + 512) (km_mem s) m')
    (visit_entry full_path pool addr fuel init (load_elfs_in_dir full_path pool addr fuel init depth mnt) path) (length es) 0 s1) as (s' & E & m' & -> & Ho).
  - exists (km_mem s). split; [|by intros b _]. exact (eq_sym (set_km_mem_same s1)).
  - intros i s' Hri (m & -> & Ho).
    destruct (lookup_lt_is_Some_2 es (Z.to_nat i)) as [e He]; [lia|].
    assert (Hze : zlookup (km_entries (set_km_mem m s1)) i = Some e).
    { unfold zlookup. rewrite (proj2 (Z.ltb_ge i 0)) by lia. apply lookup_app_l_Some. exact He. }
    destruct (Forall_lookup_1 _ _ _ _ Hes He) as [Hty Hch].
    destruct (visit_blocked (set_km_mem m s1) (load_elfs_in_dir full_path pool addr fuel init depth mnt) path dir i e) as (m' & E & Ho'); try done.
    + eapply Forall_impl; [exact Hl|]. intros p Hpe. by eapply table_entry_frame.
    + by eapply points_to_frame.
    + exists (set_km_mem m' (set_km_mem m s1)). split; [exact E|]. exists m'. split; [done|].
      intros b Hb. rewrite (Ho' b Hb). by apply Ho.
  - exists m'. split; [exact E|exact Ho].
Qed.
End proof.

(** ** A small machine

    The root directory holds two modules; the table already has the buffer. *)
Definition two_files : list vfs_dirent := [mkDirent 2 VFS_TYPE_FILE 100 (lit "hid.elf"); mkDirent 3 VFS_TYPE_FILE 100 (lit "usb.elf")].
Definition dir_ops (ls : Z → list vfs_dirent) (inode_of : list Z → Z) : vfs_ops unit :=
  mkOps (C := unit) None None None None (Some (λ i _, mret (Z.of_nat (length (ls i)), ls i))) (Some (λ p, mret (inode_of p)))
    None None None None None None None.
Definition dir_kernel (ops : vfs_ops unit) (m : memory) : kernel unit :=
  mkKernel (mkVmm (set_pmm_mem m (pmm_boot ∅)) 0 0 0 [] [])
    (mkVfs [] [mkMount (mkFs 1 (lit "ramfs") ops) () 0 0 0 0] [lit "/"]) 0 0 0.
Definition boot_state : kmain unit :=
  mkKmain (dir_kernel (dir_ops (λ _, two_files) (λ _, 1)) (store_bytes ∅ 0x8000 [47; 0])) [0x9000] (replicate 64 (mkDirent 0 0 0 [])).

Lemma directory_loads_no_more_witness :
  ∃ m', load_elfs_in_dir 0x9000 0 (λ _, 0) 600 (λ _, mret tt) 3 (Some 0) 0x8000 boot_state =
      Ok (tt, mkKmain (set_k_mem m' (km_kernel boot_state)) [0x9000] (two_files ++ drop 2 (km_entries boot_state))) ∧
    only_in 0x9000 (0x9000 + 512) (km_mem boot_state) m'.
Proof.
  apply (directory_loads_no_more 0x9000 0 (λ _, 0) 600 (λ _, mret tt) boot_state 2 (Some 0) 0x8000 (lit "/") 1 (k_vfs (km_kernel boot_state)) two_files (k_vfs (km_kernel boot_state)));
    try done; try lia.
  - apply list.elem_of_cons. by left.
  - constructor; [by left|constructor].
  - split; [|cbn; lia]. vm_compute. done.
  - left. vm_compute. done.
  - cbn. lia.
  - repeat constructor; vm_compute; done.
Defined.

(** A directory below the root with two modules: its recursive call gets the
    buffer as its own path, so that the second file is looked for below the
    first one. *)
Definition nested_state : kmain unit :=
  mkKmain (dir_kernel (dir_ops (λ i, if i =? 1 then [mkDirent 2 VFS_TYPE_DIR 0 (lit "drv")] else two_files)
    (λ p, if bool_decide (p = lit "/") then 1 else if bool_decide (p = lit "/drv") then 2 else 0)) (store_bytes ∅ 0x8000 [47; 0])) []
    (replicate 64 (mkDirent 0 0 0 [])).

Lemma nested_directory_path :
  match load_elfs_in_dir 0x9000 0 (λ _, 0) 600 (λ _, mret tt) 3 (Some 0) 0x8000 nested_state with
  | Ok (_, s) => match read_string 600 0x9000 (km_mem s) with Ok (p, _) => p = lit "/drv/hid.elf/usb.elf" | _ => False end
  | _ => False
  end.
Proof. vm_compute. reflexivity. Qed.
