(* ===== verification/RingList.v ===== *)
(** * Intrusive lists

    The circular doubly linked lists of src/kernel/includes/main/cpu/io.h in
    memory: a node is two pointers, [next] and [prev].  [ring m h l]: going
    round from the node [h] along [next] meets the nodes [l] and then [h] again,
    and along [prev] the other way.  Every function is a function on [l]. *)
From Stdlib Require Import ZArith Lia.
From stdpp Require Import base option gmap list.
From S2P Require Import Prelude Memory.

Definition next (m : memory) (a : Z) : Z := load64 m a.
Definition prev (m : memory) (a : Z) : Z := load64 m (a + 8).
Definition set_next (m : memory) (a v : Z) : memory := store64 m a v.
Definition set_prev (m : memory) (a v : Z) : memory := store64 m (a + 8) v.

Definition list_init (m : memory) (list : Z) : memory := set_prev (set_next m list list) list list.
Definition list_last (m : memory) (list : Z) : Z := if negb (prev m list =? list) then prev m list else 0.
Definition list_next (m : memory) (list : Z) : Z := if negb (next m list =? list) then next m list else 0.
Definition list_insert (m : memory) (new link : Z) : memory :=
  let m := set_prev m new (prev m link) in
  let m := set_next m new link in
  let m := set_next m (prev m new) new in
  set_prev m (next m new) new.
Definition list_append (m : memory) (new into : Z) : memory := list_insert m new into.
Definition list_remove (m : memory) (list : Z) : memory :=
  let m := set_next m (prev m list) (next m list) in
  let m := set_prev m (next m list) (prev m list) in
  let m := set_next m list list in
  set_prev m list list.

(** ** Rings *)

Definition linked (m : memory) (a b : Z) : Prop := next m a = b ∧ prev m b = a.
(** From [a] the links lead through [l] to [b]. *)
Fixpoint chain (m : memory) (a : Z) (l : list Z) (b : Z) : Prop :=
  match l with
  | [] => linked m a b
  | x :: l => linked m a x ∧ chain m x l b
  end.
Definition ring (m : memory) (h : Z) (l : list Z) : Prop := chain m h l h.

(** Nodes that do not overlap, at addresses that fit a pointer *)
Record spaced (l : list Z) : Prop := {
  sp_nodup : NoDup l;
  sp_fits : ∀ a, a ∈ l → 0 ≤ a < 2 ^ 64;
  sp_apart : ∀ a b, a ∈ l → b ∈ l → a ≠ b → a + 16 ≤ b ∨ b + 16 ≤ a }.

Lemma spaced_perm l l' : l ≡ₚ l' → spaced l → spaced l'.
Proof. intros E [Hn Hf Ha]. split; [by rewrite <-E|intros a; rewrite <-E; auto|intros a b; rewrite <-!E; auto]. Qed.
#[export] Instance spaced_proper : Proper ((≡ₚ) ==> iff) spaced.
Proof. intros l l' E. split; by apply spaced_perm. Qed.
Lemma spaced_cons x l : spaced (x :: l) → spaced l.
Proof. intros [Hn Hf Ha]. apply NoDup_cons in Hn as [_ Hn]. split; [done|intros a H; apply Hf; by right|intros a b H1 H2; apply Ha; by right]. Qed.

(** The links of two nodes do not meet. *)
Section links.
Context (l : list Z) (Hl : spaced l) (m : memory).

Lemma ring_next_set_next a b v : a ∈ l → b ∈ l → 0 ≤ v < 2 ^ 64 → next (set_next m a v) b = if decide (a = b) then v else next m b.
Proof.
  intros Ha Hb Hv. unfold next, set_next. case_decide as E; [subst; rewrite load64_store64_eq; by apply u64_small|].
  apply load64_store64_ne. destruct (sp_apart _ Hl a b Ha Hb E); lia.
Qed.
Lemma ring_prev_set_prev a b v : a ∈ l → b ∈ l → 0 ≤ v < 2 ^ 64 → prev (set_prev m a v) b = if decide (a = b) then v else prev m b.
Proof.
  intros Ha Hb Hv. unfold prev, set_prev. case_decide as E; [subst; rewrite load64_store64_eq; by apply u64_small|].
  apply load64_store64_ne. destruct (sp_apart _ Hl a b Ha Hb E); lia.
Qed.
Lemma ring_prev_set_next a b v : a ∈ l → b ∈ l → prev (set_next m a v) b = prev m b.
Proof.
  intros Ha Hb. unfold prev, set_next. apply load64_store64_ne.
  destruct (decide (a = b)) as [->|E]; [lia|]. destruct (sp_apart _ Hl a b Ha Hb E); lia.
Qed.
Lemma ring_next_set_prev a b v : a ∈ l → b ∈ l → next (set_prev m a v) b = next m b.
Proof.
  intros Ha Hb. unfold next, set_prev. apply load64_store64_ne.
  destruct (decide (a = b)) as [->|E]; [lia|]. destruct (sp_apart _ Hl a b Ha Hb E); lia.
Qed.
End links.

Lemma ring_chain_app m a l1 x l2 b : chain m a (l1 ++ x :: l2) b ↔ chain m a l1 x ∧ chain m x l2 b.
Proof. revert a. induction l1 as [|y l1 IH]; intros a; cbn [chain app]; [done|]. rewrite IH. tauto. Qed.

(** Links that are not changed remain. *)
Lemma chain_ext m m' a l b : (∀ x, x ∈ a :: l → next m' x = next m x) → (∀ x, x ∈ l ++ [b] → prev m' x = prev m x) →
  chain m a l b → chain m' a l b.
Proof.
  revert a. induction l as [|y l IH]; intros a Hn Hp; cbn [chain].
  - intros [H1 H2]. split; [by rewrite Hn by constructor|by rewrite Hp by constructor].
  - intros [[H1 H2] H]. split; [split; [by rewrite Hn by constructor|by rewrite Hp by constructor]|].
    apply IH; [|intros x Hx; apply Hp; by right|done]. intros x Hx. apply Hn. by right.
Qed.

(** A ring has no first node. *)
Lemma ring_rotate m h l1 x l2 : ring m h (l1 ++ x :: l2) ↔ ring m x (l2 ++ h :: l1).
Proof. unfold ring. rewrite !ring_chain_app. tauto. Qed.
Lemma rotate_perm (h x : Z) l1 l2 : h :: l1 ++ x :: l2 ≡ₚ x :: l2 ++ h :: l1.
Proof. change (x :: l2 ++ h :: l1) with ((x :: l2) ++ h :: l1). rewrite (Permutation_app_comm (x :: l2)). done. Qed.

Lemma ring_prev m h l : ring m h l → prev m h = default h (last l).
Proof.
  unfold ring. destruct l as [|p l] using rev_ind; [by intros [_ H]|]. intros H. apply ring_chain_app in H as [_ [_ H]]. by rewrite last_snoc.
Qed.
Lemma ring_next m h l : ring m h l → next m h = default h (head l).
Proof. destruct l; [by intros [H _]|by intros [[H _] _]]. Qed.

(** ** The operations *)

Lemma list_init_ring m h : 0 ≤ h < 2 ^ 64 → ring (list_init m h) h [].
Proof.
  intros Hh. assert (Hs : spaced [h]).
  { split; [apply NoDup_singleton|by intros a ->%list_elem_of_singleton|by intros a b ->%list_elem_of_singleton ->%list_elem_of_singleton]. }
  assert (h ∈ [h]) by constructor. unfold list_init. split.
  - rewrite (ring_next_set_prev [h]), (ring_next_set_next [h]) by done. by rewrite decide_True.
  - rewrite (ring_prev_set_prev [h]) by done. by rewrite decide_True.
Qed.

(** In an empty ring both give NULL. *)
Lemma list_last_ring m h l : spaced (h :: l) → ring m h l → list_last m h = default 0 (last l).
Proof.
  intros Hs Hr. unfold list_last. rewrite (ring_prev _ _ _ Hr). destruct (last l) as [p|] eqn:E; cbn; [|by rewrite Z.eqb_refl].
  assert (p ≠ h) as Hne. { intros ->. apply last_Some_elem_of in E. pose proof (sp_nodup _ Hs) as Hn; by apply NoDup_cons in Hn as [? _]. }
  by rewrite (proj2 (Z.eqb_neq _ _) Hne).
Qed.
Lemma list_next_ring m h l : spaced (h :: l) → ring m h l → list_next m h = default 0 (head l).
Proof.
  intros Hs Hr. unfold list_next. rewrite (ring_next _ _ _ Hr). destruct l as [|x l]; cbn; [by rewrite Z.eqb_refl|].
  assert (x ≠ h) as Hne. { intros ->. pose proof (sp_nodup _ Hs) as Hn; apply NoDup_cons in Hn as [H _]. by apply H; left. }
  by rewrite (proj2 (Z.eqb_neq _ _) Hne).
Qed.

Section insert.
Context (m : memory) (new h : Z) (l : list Z) (Hs : spaced (new :: h :: l)) (Hr : ring m h l).
Let N := new :: h :: l.
Let p := default h (last l).

Lemma in_new : new ∈ N. Proof. by left. Qed.
Lemma in_head : h ∈ N. Proof. right. by left. Qed.
Lemma in_last : p ∈ N.
Proof. unfold p. destruct (last l) as [q|] eqn:E; [right; right; by apply last_Some_elem_of|apply in_head]. Qed.
Lemma new_apart a : a ∈ h :: l → a ≠ new.
Proof. intros Ha ->. pose proof (sp_nodup _ Hs) as Hn; by apply NoDup_cons in Hn as [? _]. Qed.
Lemma last_apart : p ≠ new.
Proof. apply new_apart. unfold p. destruct (last l) as [q|] eqn:E; [right; by apply last_Some_elem_of|by left]. Qed.

Lemma insert_links a : a ∈ N →
  next (list_insert m new h) a = (if decide (a = p) then new else if decide (a = new) then h else next m a) ∧
  prev (list_insert m new h) a = (if decide (a = h) then new else if decide (a = new) then p else prev m a).
Proof.
  intros Ha. pose proof in_new as Hn. pose proof in_head as Hh. pose proof in_last as Hp. pose proof last_apart as Hpn.
  pose proof (sp_fits _ Hs) as Hf. unfold list_insert.
  rewrite (ring_prev _ _ _ Hr). fold p. set (m1 := set_prev m new p). set (m2 := set_next m1 new h).
  assert (Ep : prev m2 new = p).
  { unfold m2, m1. rewrite (ring_prev_set_next N), (ring_prev_set_prev N) by auto. by rewrite decide_True. }
  rewrite Ep. set (m3 := set_next m2 p new).
  assert (En : next m3 new = h).
  { unfold m3, m2. rewrite (ring_next_set_next N) by auto. rewrite decide_False by done. rewrite (ring_next_set_next N) by auto. by rewrite decide_True. }
  rewrite En. split.
  - rewrite (ring_next_set_prev N) by auto. unfold m3, m2, m1. rewrite !(ring_next_set_next N), (ring_next_set_prev N) by auto.
    repeat case_decide; congruence.
  - rewrite (ring_prev_set_prev N) by auto. unfold m3, m2, m1. rewrite !(ring_prev_set_next N), (ring_prev_set_prev N) by auto.
    repeat case_decide; congruence.
Qed.

End insert.

(** The new node becomes the last one of the ring. *)
Lemma append_ring m new h l : spaced (new :: h :: l) → ring m h l → ring (list_insert m new h) h (l ++ [new]).
Proof.
  intros Hs Hr. pose proof (insert_links m new h l Hs Hr) as HL. pose proof (last_apart new h l Hs) as Hpn.
  pose proof (new_apart new h l Hs) as Hne. pose proof (Hne h ltac:(by left)) as Hhn.
  destruct (HL new ltac:(by left)) as [E1 E2]. rewrite decide_False, decide_True in E1 by done. rewrite decide_False, decide_True in E2 by done.
  destruct (HL h ltac:(right; by left)) as [_ E3]. rewrite decide_True in E3 by done.
  destruct (HL _ (in_last new h l)) as [E4 _]. rewrite decide_True in E4 by done.
  unfold ring. apply ring_chain_app. split; [|by split]. destruct l as [|q l0 _] using rev_ind; [by split|].
  rewrite last_snoc in *. cbn [default] in *. apply ring_chain_app in Hr as [Hc _]. apply ring_chain_app. split; [|by split].
  pose proof (sp_nodup _ Hs) as Hnd. apply NoDup_cons in Hnd as [_ Hnd]. apply NoDup_cons in Hnd as [Hh Hnd]. apply NoDup_app in Hnd as (_ & Hq & _).
  assert (Hin : ∀ x, x ∈ h :: l0 → x ∈ h :: l0 ++ [q]) by (intros x; rewrite !elem_of_cons, elem_of_app; tauto).
  eapply chain_ext; [| |exact Hc].
  - intros x Hx. destruct (HL x) as [E _]; [right; by apply Hin|]. rewrite E, decide_False, decide_False; [done|by apply Hne, Hin|].
    intros ->. apply elem_of_cons in Hx as [<-|Hx]; [apply Hh; rewrite elem_of_app; right; by left|by apply (Hq q Hx); left].
  - intros x Hx. destruct (HL x) as [_ E]; [right; by right|]. rewrite E, decide_False, decide_False; [done|by apply Hne; right|]. by intros ->.
Qed.

Section remove.
Context (m : memory) (x f : Z) (l : list Z) (Hs : spaced (x :: f :: l)) (Hr : ring m x (f :: l)).
Let N := x :: f :: l.
Let p := default f (last l).

Lemma removed_last : p ∈ f :: l.
Proof. unfold p. destruct (last l) as [q|] eqn:E; [right; by apply last_Some_elem_of|by left]. Qed.
Lemma removed_apart a : a ∈ f :: l → a ≠ x.
Proof. intros Ha ->. pose proof (sp_nodup _ Hs) as Hn. by apply NoDup_cons in Hn as [? _]. Qed.

Lemma remove_links a : a ∈ N →
  next (list_remove m x) a = (if decide (a = x) then x else if decide (a = p) then f else next m a) ∧
  prev (list_remove m x) a = (if decide (a = x) then x else if decide (a = f) then p else prev m a).
Proof.
  intros Ha. assert (Hx : x ∈ N) by by left. assert (Hf : f ∈ N) by (right; by left). assert (Hp : p ∈ N) by (right; apply removed_last).
  pose proof (removed_apart _ removed_last) as Hpx. pose proof (removed_apart f ltac:(by left)) as Hfx. pose proof (sp_fits _ Hs) as Hfit.
  unfold list_remove; cbv zeta. rewrite (ring_prev _ _ _ Hr), (ring_next _ _ _ Hr). change (default x (head (f :: l))) with f.
  replace (default x (last (f :: l))) with p by (unfold p; rewrite last_cons; by destruct (last l)).
  set (m1 := set_next m p f). assert (En : next m1 x = f).
  { unfold m1. rewrite (ring_next_set_next N) by auto. rewrite decide_False by done. by rewrite (ring_next _ _ _ Hr). }
  assert (Ep : prev m1 x = p).
  { unfold m1. rewrite (ring_prev_set_next N) by auto. rewrite (ring_prev _ _ _ Hr). unfold p. rewrite last_cons. by destruct (last l). }
  rewrite En, Ep. split.
  - rewrite (ring_next_set_prev N), (ring_next_set_next N), (ring_next_set_prev N) by auto. unfold m1. rewrite (ring_next_set_next N) by auto.
    repeat case_decide; congruence.
  - rewrite (ring_prev_set_prev N), (ring_prev_set_next N), (ring_prev_set_prev N) by auto. unfold m1. rewrite (ring_prev_set_next N) by auto.
    repeat case_decide; congruence.
Qed.
End remove.

(** A node that is removed is a ring of its own, and the others close up. *)
Lemma remove_ring m x f l : spaced (x :: f :: l) → ring m x (f :: l) → ring (list_remove m x) f l ∧ ring (list_remove m x) x [].
Proof.
  intros Hs Hr. pose proof (remove_links m x f l Hs Hr) as HL. pose proof (removed_apart x f l Hs) as Hne.
  destruct (HL x ltac:(by left)) as [E1 E2]. rewrite decide_True in E1, E2 by done. split; [|by split].
  destruct (HL f ltac:(right; by left)) as [E3 E4]. rewrite decide_False in E3, E4 by (apply Hne; by left). rewrite decide_True in E4 by done.
  unfold ring in *. destruct l as [|p l0 _] using rev_ind; [rewrite decide_True in E3 by done; by split|].
  rewrite last_snoc in *. cbn [default] in *. cbn [chain] in Hr. destruct Hr as [_ Hr]. apply ring_chain_app in Hr as [Hc _]. apply ring_chain_app.
  destruct (HL p) as [E5 _]; [right; right; rewrite elem_of_app; right; by left|].
  rewrite decide_False in E5 by (apply Hne; right; rewrite elem_of_app; right; by left). rewrite decide_True in E5 by done. split; [|by split].
  pose proof (sp_nodup _ Hs) as Hnd. apply NoDup_cons in Hnd as [_ Hnd]. apply NoDup_cons in Hnd as [Hf Hnd]. apply NoDup_app in Hnd as (_ & Hq & _).
  assert (Hin : ∀ y, y ∈ f :: l0 → y ∈ f :: l0 ++ [p]) by (intros y; rewrite !elem_of_cons, elem_of_app; tauto).
  eapply chain_ext; [| |exact Hc].
  - intros y Hy. destruct (HL y) as [E _]; [right; by apply Hin|]. rewrite E, decide_False, decide_False; [done| |by apply Hne, Hin].
    intros ->. apply elem_of_cons in Hy as [<-|Hy]; [apply Hf; rewrite elem_of_app; right; by left|by apply (Hq p Hy); left].
  - intros y Hy. destruct (HL y) as [_ E]; [right; by right|]. rewrite E, decide_False, decide_False; [done| |by apply Hne; right]. by intros ->.
Qed.

(** ** Anywhere in a ring *)

Lemma insert_ring m new h l1 x l2 : spaced (new :: h :: l1 ++ x :: l2) → ring m h (l1 ++ x :: l2) →
  ring (list_insert m new x) h (l1 ++ new :: x :: l2).
Proof.
  rewrite rotate_perm. intros Hs Hr. apply ring_rotate in Hr. apply (append_ring m new x) in Hr; [|done].
  change (l1 ++ new :: x :: l2) with (l1 ++ [new] ++ x :: l2). rewrite app_assoc. apply ring_rotate. by rewrite <-app_assoc in Hr.
Qed.
Lemma unlink_ring m h l1 x l2 : spaced (h :: l1 ++ x :: l2) → ring m h (l1 ++ x :: l2) →
  ring (list_remove m x) h (l1 ++ l2) ∧ ring (list_remove m x) x [].
Proof.
  rewrite rotate_perm, ring_rotate. intros Hs Hr. destruct l2 as [|f l2]; cbn [app] in *.
  - rewrite app_nil_r. by apply remove_ring.
  - rewrite ring_rotate. by apply remove_ring.
Qed.

(** ** Runs of the operations *)

Inductive list_op := Append (new : Z) | Insert (new link : Z) | Remove (x : Z).
Definition run_op (h : Z) (m : memory) (o : list_op) : memory :=
  match o with
  | Append new => list_append m new h
  | Insert new link => list_insert m new link
  | Remove x => list_remove m x
  end.

Fixpoint before (new link : Z) (l : list Z) : list Z :=
  match l with
  | [] => []
  | x :: l => if decide (x = link) then new :: x :: l else x :: before new link l
  end.
(** What an operation does to the list: a node is inserted that is not yet in
    it, before one that is, and one is removed that is in it. *)
Definition spec_op (U : list Z) (l : list Z) (o : list_op) : option (list Z) :=
  match o with
  | Append new => if decide (new ∈ U ∧ new ∉ l) then Some (l ++ [new]) else None
  | Insert new link => if decide (new ∈ U ∧ new ∉ l ∧ link ∈ l) then Some (before new link l) else None
  | Remove x => if decide (x ∈ l) then Some (filter (λ y, y ≠ x) l) else None
  end.
Fixpoint spec_run (U l : list Z) (ops : list list_op) : option (list Z) :=
  match ops with
  | [] => Some l
  | o :: ops => match spec_op U l o with Some l => spec_run U l ops | None => None end
  end.

Lemma before_app new link l1 l2 : link ∉ l1 → before new link (l1 ++ link :: l2) = l1 ++ new :: link :: l2.
Proof.
  induction l1 as [|x l1 IH]; intros H; cbn [before app]; [by rewrite decide_True|]. apply not_elem_of_cons in H as [Hx H].
  rewrite decide_False by done. by rewrite IH.
Qed.
Lemma filter_others (x : Z) (l : list Z) : x ∉ l → filter (λ y, y ≠ x) l = l.
Proof. intros H. induction l as [|y l IH]; [done|]. apply not_elem_of_cons in H as [? ?]. rewrite filter_cons_True by done. by rewrite IH. Qed.

Record list_state (U : list Z) (m : memory) (h : Z) (l : list Z) : Prop := {
  ls_universe : spaced (h :: U);
  ls_nodup : NoDup l;
  ls_nodes : ∀ a, a ∈ l → a ∈ U;
  ls_ring : ring m h l }.

Lemma spaced_sub l l' : spaced l' → NoDup l → (∀ a, a ∈ l → a ∈ l') → spaced l.
Proof. intros [Hn Hf Ha] Hl Hi. split; [done|intros a H; by apply Hf, Hi|intros a b H1 H2; apply Ha; by apply Hi]. Qed.

Lemma state_spaced U m h l : list_state U m h l → spaced (h :: l).
Proof.
  intros [Hu Hn Hl _]. apply (spaced_sub _ _ Hu).
  - apply NoDup_cons. split; [|done]. pose proof (sp_nodup _ Hu) as Hd. apply NoDup_cons in Hd as [Hd _]. intros H. by apply Hd, Hl.
  - intros a [->|H]%elem_of_cons; [by left|right; by apply Hl].
Qed.
Lemma state_new U m h l new : list_state U m h l → new ∈ U → new ∉ l → spaced (new :: h :: l).
Proof.
  intros Hs HU Hl. pose proof (state_spaced _ _ _ _ Hs) as Hsp. destruct Hs as [Hu Hn Hi _]. apply (spaced_sub _ _ Hu).
  - apply NoDup_cons. split; [|apply Hsp]. pose proof (sp_nodup _ Hu) as Hd. apply NoDup_cons in Hd as [Hd _].
    intros [->|H]%elem_of_cons; [by apply Hd|done].
  - intros a [->|[->|H]%elem_of_cons]%elem_of_cons; [by right|by left|right; by apply Hi].
Qed.

Lemma run_op_correct U m h l o l' : list_state U m h l → spec_op U l o = Some l' → list_state U (run_op h m o) h l'.
Proof.
  intros Hs E. pose proof (state_spaced _ _ _ _ Hs) as Hsp. pose proof Hs as [Hu Hn Hi Hr].
  assert (Hadd : ∀ new l1 l2, l = l1 ++ l2 → new ∈ U → new ∉ l → NoDup (l1 ++ new :: l2) ∧ ∀ a, a ∈ l1 ++ new :: l2 → a ∈ U).
  { intros new l1 l2 -> HU Hl. split; [rewrite <-Permutation_middle; by apply NoDup_cons|]. intros a Ha. rewrite elem_of_app, elem_of_cons in Ha.
    destruct Ha as [Ha|[->|Ha]]; [apply Hi; rewrite elem_of_app; by left|done|apply Hi; rewrite elem_of_app; by right]. }
  destruct o as [new|new link|x]; cbn [spec_op run_op] in *; case_decide as Hd; try done; injection E as <-.
  - destruct Hd as [HU Hl]. destruct (Hadd new l [] ltac:(by rewrite app_nil_r) HU Hl) as [H1 H2].
    split; [done..|]. apply append_ring; [by eapply state_new|done].
  - destruct Hd as (HU & Hl & Hk). apply list_elem_of_split in Hk as (l1 & l2 & ->).
    assert (Hk1 : link ∉ l1). { intros H. apply NoDup_app in Hn as (_ & Hn & _). apply (Hn link H). by left. }
    rewrite before_app by done. destruct (Hadd new l1 (link :: l2) eq_refl HU Hl) as [H1 H2].
    split; [done..|]. apply insert_ring; [by eapply state_new|done].
  - apply list_elem_of_split in Hd as (l1 & l2 & ->). pose proof Hn as Hn'. rewrite <-Permutation_middle in Hn'. apply NoDup_cons in Hn' as [Hx Hn'].
    assert (E : filter (λ y, y ≠ x) (l1 ++ x :: l2) = l1 ++ l2).
    { rewrite filter_app, filter_cons_False by auto. rewrite <-filter_app. by apply filter_others. }
    rewrite E. split; [done|done| |by apply unlink_ring].
    intros a Ha. apply Hi. rewrite elem_of_app, elem_of_cons. rewrite elem_of_app in Ha. tauto.
Qed.

(** The intrusive lists of io.h refine lists: any run of appending, inserting
    before a node and removing, on nodes that do not overlap, each inserted only
    while it is out of the list and removed only while it is in, keeps the links
    of a ring whose nodes are those that the same run on a list gives, in order;
    [list_next] and [list_last] of the head are then the first and the last node,
    or NULL when there is none. *)
Theorem list_ops_refine U m h l ops l' : list_state U m h l → spec_run U l ops = Some l' →
  list_state U (foldl (run_op h) m ops) h l' ∧
  list_next (foldl (run_op h) m ops) h = default 0 (head l') ∧ list_last (foldl (run_op h) m ops) h = default 0 (last l').
Proof.
  revert m l. induction ops as [|o ops IH]; intros m l Hs E; cbn [foldl spec_run] in *.
  - injection E as <-. split; [done|]. pose proof (state_spaced _ _ _ _ Hs). split; [by apply list_next_ring, Hs|by apply list_last_ring, Hs].
  - destruct (spec_op U l o) as [l1|] eqn:E1; [|done]. apply (IH _ l1); [by eapply run_op_correct|done].
Qed.

Lemma list_ops_refine_witness : let m := list_init ∅ 0x1000 in
  let ops := [Append 0x1010; Append 0x1020; Insert 0x1030 0x1010; Remove 0x1020; Append 0x1020; Remove 0x1010] in
  let m' := foldl (run_op 0x1000) m ops in
  ring m' 0x1000 [0x1030; 0x1020] ∧ list_next m' 0x1000 = 0x1030 ∧ list_last m' 0x1000 = 0x1020.
Proof.
  intros m ops m'. destruct (list_ops_refine [0x1010; 0x1020; 0x1030] m 0x1000 [] ops [0x1030; 0x1020]) as (Hs & H).
  - split.
    + split.
      * apply (bool_decide_unpack _). by vm_compute.
      * assert (Forall (λ a, 0 ≤ a < 2 ^ 64) [0x1000; 0x1010; 0x1020; 0x1030]) as Hf by (repeat constructor; vm_compute; done).
        by rewrite Forall_forall in Hf.
      * intros a b. rewrite !elem_of_cons, !elem_of_nil. lia.
    + apply NoDup_nil_2.
    + intros a Ha. by apply elem_of_nil in Ha.
    + by apply list_init_ring.
  - by vm_compute.
  - split; [apply Hs|exact H].
Defined.
