(* ===== verification/Boot.v ===== *)
(** * The start of the memory managers

    The part of [kmain] (src/kernel/main/kernel.c) that brings up memory: page
    frames, page tables, one block of 4 MiB for the heap, the page frame
    database, and the test allocation.  The parts share one memory; the ACPI
    tables that are read in between are not written and are left out. *)
From Stdlib Require Import ZArith Lia.
From stdpp Require Import base option gmap list.
From S2P Require Import Prelude Memory Pmm PmmProof PmmInit PmmIface PmmSpec Vmm Pfndb Tlsf TlsfProof TlsfLists TlsfPhys TlsfHeap TlsfInit TlsfSpec.

Record boot := mkBoot { bt_vmm : vmm; bt_mem_map : Z; bt_max_pfn : Z; bt_pfndb_phys : Z }.
Definition set_bt_vmm (v : vmm) (b : boot) : boot := mkBoot v (bt_mem_map b) (bt_max_pfn b) (bt_pfndb_phys b).
Definition bt_mem (b : boot) : memory := v_mem (bt_vmm b).
Definition set_bt_mem (m : memory) (b : boot) : boot := set_bt_vmm (set_v_mem m (bt_vmm b)) b.
Definition bt_db (b : boot) : pfndb := mkPfndb (bt_mem b) (v_hhdm (bt_vmm b)) (bt_mem_map b) (bt_max_pfn b) (bt_pfndb_phys b).
Definition set_bt_db (d : pfndb) (b : boot) : boot :=
  mkBoot (set_v_mem (pf_mem d) (bt_vmm b)) (mem_map d) (max_pfn d) (pfndb_phys d).
Definition bt_pmm (b : boot) : pmm := v_pmm (bt_vmm b).
Definition set_bt_pmm (p : pmm) (b : boot) : boot := set_bt_vmm (set_v_pmm p (bt_vmm b)) b.

Definition HEAP_BYTES : Z := 4096 * 1024.

(** [hhdm_request] and [memmap_request] are the answers of the boot loader. *)
Definition start_frames (hhdm_request : option Z) (memmap_request : option (list memmap_entry)) : M boot (list memmap_entry) :=
  mm ← zoom bt_pmm set_bt_pmm (pmm_init hhdm_request memmap_request);
  zoom bt_vmm set_bt_vmm vmm_init;;
  mret mm.

Definition start_heap : M boot Z :=
  heap_phys ← zoom bt_pmm set_bt_pmm (palloc_order 10);
  hhdm ← zoom bt_pmm set_bt_pmm pmm_get_hhdm_offset;
  zoom bt_mem set_bt_mem (tlsf_create_with_pool (u64 (heap_phys + hhdm)) HEAP_BYTES).

Definition try_heap (pool : Z) : M boot Z :=
  test_alloc ← zoom bt_mem set_bt_mem (tlsf_malloc pool 64);
  if test_alloc =? 0 then halt else
  zoom bt_mem set_bt_mem (tlsf_free pool test_alloc);;
  mret pool.

(** The result is [kernel_tlsf_pool]. *)
Definition start_memory (hhdm_request : option Z) (memmap_request : option (list memmap_entry)) : M boot Z :=
  mm ← start_frames hhdm_request memmap_request;
  pool ← start_heap;
  zoom bt_db set_bt_db (pfndb_init mm);;
  try_heap pool.

(** ** Theorems of the start of the memory managers

    On a memory map of the boot protocol the start ends with a heap of one free
    block in memory that the page allocator has given away, provided the frame
    database, which takes its place from the memory map without asking the page
    allocator, does not lie on that memory. *)

(** ** What the heap depends on *)

Lemma heap_range ctl b0 e m m' bs A : heap ctl b0 e m bs A →
  (∀ a, ctl ≤ a < ctl + sizeof_control ∨ b0 + 8 ≤ a < e + 16 → load8 m' a = load8 m a) → heap ctl b0 e m' bs A.
Proof.
  intros [Hlo (F & L & H & Hall) Hco Hu] Hf. split; [done| |done|done]. exists F, L. split; [|done].
  pose proof H as [HL Hch Hs Hend Hsub]. split; [| |done|done|done].
  - apply (lists_frame ctl (lo_ctl _ _ _ Hlo) m); [done|]. intros a [Ha|(x & [s Hx%Hsub] & Ha)]; apply Hf; [by left|right].
    pose proof (ents_bounds _ _ _ _ _ Hs Hx). unfold link_byte in Ha. lia.
  - eapply phys_frame; [done|done|]. intros a Ha _. apply Hf. right. lia.
Qed.

(** ** What the frame database writes *)

Definition db_byte (s : pfndb) (a : Z) : Prop := mem_map s ≤ a < mem_map s + sizeof_page * (max_pfn s + 1).
Definition pf_step (s s' : pfndb) : Prop := same_db s s' ∧ ∀ a, ¬ db_byte s a → load8 (pf_mem s') a = load8 (pf_mem s) a.

Lemma pf_step_refl s : pf_step s s.
Proof. done. Qed.
Lemma pf_step_trans s1 s2 s3 : pf_step s1 s2 → pf_step s2 s3 → pf_step s1 s3.
Proof.
  intros [D1 M1] [D2 M2]. split; [by eapply same_db_trans|]. intros a Ha. rewrite M2, M1; [done|done|].
  destruct D1 as (E1 & E2 & _). unfold db_byte. by rewrite E1, E2.
Qed.

(** A store into a record of the array *)
Lemma pf_store s i off n v ad : ad = page_at s i + off → 0 ≤ i ≤ max_pfn s → 0 ≤ off → off + Z.of_nat n ≤ sizeof_page →
  pf_step s (set_pf_mem (store n (pf_mem s) ad v) s).
Proof.
  intros -> Hi Ho Hn. split; [done|]. intros a Ha. cbn [pf_mem set_pf_mem]. rewrite load8_store, decide_False; [done|].
  intros Hin. apply Ha. unfold db_byte, page_at, sizeof_page in *. lia.
Qed.

Lemma init_page_step s i : 0 ≤ i ≤ max_pfn s → ∃ s', init_page i s = Ok (tt, s') ∧ pf_step s s'.
Proof.
  intros Hi. set (s1 := set_pf_mem (store64 (pf_mem s) (page_at s i + off_flags) PAGE_RESERVED) s).
  set (s2 := set_pf_mem (store32 (pf_mem s1) (page_at s1 i + off_refcount) 0) s1).
  set (v := if i <? max_pfn s2 then page_at s2 (i + 1) else 0).
  exists (set_pf_mem (store64 (pf_mem s2) (page_at s2 i) v) s2). split; [reflexivity|].
  apply (pf_step_trans _ s1); [by apply (pf_store s i off_flags 8)|]. apply (pf_step_trans _ s2); [by apply (pf_store s1 i off_refcount 4)|].
  apply (pf_store s2 i 0 8); [by rewrite Z.add_0_r|done|done|done].
Qed.
Lemma mark_free_step s i : 0 ≤ i ≤ max_pfn s → ∃ s', mark_free i s = Ok (tt, s') ∧ pf_step s s'.
Proof. intros Hi. eexists. split; [reflexivity|]. by apply (pf_store s i off_flags 8). Qed.

Lemma steps_loop (f : Z → M pfndb unit) n lo s :
  (∀ i s, 0 ≤ i ≤ max_pfn s → ∃ s', f i s = Ok (tt, s') ∧ pf_step s s') → 0 ≤ lo → lo + Z.of_nat n ≤ max_pfn s + 1 →
  ∃ s', for_loop n lo f s = Ok (tt, s') ∧ pf_step s s'.
Proof.
  intros Hf Hlo Hn. destruct (for_loop_inv (λ _ s', pf_step s s') f n lo s) as (s' & E & Hs); [apply pf_step_refl| |by exists s'].
  intros i s1 Hi H1. pose proof H1 as [(_ & Em & _) _]. destruct (Hf i s1) as (s2 & E2 & H2); [rewrite Em; lia|].
  exists s2. split; [done|]. by eapply pf_step_trans.
Qed.

Lemma mark_entries_step mm s : 0 ≤ max_pfn s → Forall (λ e, 0 ≤ e_base e) mm → ∃ s', mark_entries mm s = Ok (tt, s') ∧ pf_step s s'.
Proof.
  intros Hmax Hall. revert s Hmax. induction Hall as [|e mm Hb Hall IH]; intros s Hmax; [by exists s|]. cbn [mark_entries].
  assert (∃ s1, (if negb (e_type e =? LIMINE_MEMMAP_USABLE) then mret tt else
       max ← gets max_pfn;
       let start := e_base e / PAGE_SIZE in
       let end_ := u64 (e_base e + e_length e) / PAGE_SIZE in
       for_loop (Z.to_nat (Z.min end_ (max + 1) - start)) start mark_free) s = Ok (tt, s1) ∧ pf_step s s1) as (s1 & E1 & H1).
  { destruct (negb _); [by exists s|]. mstep. cbv zeta. assert (0 ≤ e_base e / PAGE_SIZE) by (apply Z.div_pos; [done|unfold PAGE_SIZE; lia]).
    destruct (decide (Z.min (u64 (e_base e + e_length e) / PAGE_SIZE) (max_pfn s + 1) ≤ e_base e / PAGE_SIZE)).
    - rewrite Z2Nat.nonpos by lia. by exists s.
    - apply steps_loop; [intros; by apply mark_free_step|done|lia]. }
  mstep with E1. pose proof H1 as [(_ & Em & _) _]. destruct (IH s1) as (s2 & E2 & H2); [lia|].
  exists s2. split; [done|]. by eapply pf_step_trans.
Qed.

(** The database takes the first entry with room and writes its array there. *)
Lemma pfndb_init_writes mm s : Forall (λ e, 0 ≤ e_base e ∧ u64 (e_base e + pf_hhdm s) ≠ 0) mm → ¬ Forall (λ e, ¬ roomy (db_size mm) e) mm →
  ∃ e mm' s', pfndb_init mm s = Ok (mm', s') ∧ first_roomy (db_size mm) mm e mm' ∧
    ∀ a, ¬ (u64 (e_base e + pf_hhdm s) ≤ a < u64 (e_base e + pf_hhdm s) + sizeof_page * (map_max_pfn mm + 1)) →
      load8 (pf_mem s') a = load8 (pf_mem s) a.
Proof.
  intros Hall Hex. unfold pfndb_init. mstep. set (s0 := set_max_pfn _ s). unfold _pfndb_reserve.
  destruct (pfndb_take_cases (db_size mm) mm s0) as [[E Hf]|(e & mm' & E & Hr)]; [done|].
  erewrite bind_ok; [|mstep; exact E]. do 2 mstep. set (s1 := set_mem_map _ _).
  destruct (first_roomy_elem _ _ _ _ Hr) as [He _]. pose proof Hall as Hall'. rewrite Forall_forall in Hall'. destruct (Hall' e He) as [_ Hnz].
  change (mem_map s1) with (u64 (e_base e + pf_hhdm s)). rewrite (proj2 (Z.eqb_neq _ _) Hnz). mstep.
  assert (Hm : 0 ≤ max_pfn s1) by apply (max_pfn_nonneg mm 0), Z.le_refl.
  destruct (steps_loop init_page (Z.to_nat (max_pfn s1 + 1)) 0 s1) as (s2 & E2 & H2); [intros; by apply init_page_step|lia|lia|].
  mstep with E2. pose proof H2 as [(_ & Em & _) _].
  destruct (mark_entries_step mm' s2) as (s3 & E3 & H3); [by rewrite Em|eapply first_roomy_bases; [exact Hr|]; eapply Forall_impl; [exact Hall|]; by intros ? []|].
  mstep with E3. do 2 mstep. pose proof H3 as [(_ & Em3 & _) _].
  exists e, mm'. eexists. split; [reflexivity|]. split; [done|]. intros a Ha.
  assert (Hstep : pf_step s1 (set_pf_mem (store 4 (pf_mem (set_pf_mem (store 8 (pf_mem s3) (page_at s3 0 + off_flags) PAGE_RESERVED) s3)) (page_at s3 0 + off_refcount) 0)
     (set_pf_mem (store 8 (pf_mem s3) (page_at s3 0 + off_flags) PAGE_RESERVED) s3))).
  { eapply pf_step_trans; [exact H2|]. eapply pf_step_trans; [exact H3|]. eapply pf_step_trans; [apply (pf_store s3 0 off_flags 8); (done || lia)|].
    apply (pf_store _ 0 off_refcount 4); (done || (cbn [max_pfn set_pf_mem]; lia)). }
  exact (proj2 Hstep a Ha).
Qed.

(** ** The database lies where the memory map says *)

Lemma map_max_pfn_bound mm : map_max_pfn mm < 2 ^ 52.
Proof.
  unfold map_max_pfn. assert (H : (0 : Z) < 2 ^ 52) by lia. revert H. generalize 0 as m. induction mm as [|e mm IH]; intros m Hm; [done|].
  cbn [fold_left]. apply IH. destruct (negb _); [done|]. cbv zeta. pose proof (u64_range (e_base e + e_length e + PAGE_SIZE - 1)) as Hu.
  destruct (m <? _); [|done]. unfold PAGE_SIZE in *. apply Z.div_lt_upper_bound; lia.
Qed.
Lemma db_size_covers mm : 0 ≤ map_max_pfn mm → sizeof_page * (map_max_pfn mm + 1) ≤ db_size mm.
Proof.
  intros H0. pose proof (map_max_pfn_bound mm) as Hb. unfold db_size, sizeof_page.
  rewrite (u64_small (map_max_pfn mm + 1)), u64_small by lia. change PAGE_SIZE with (2 ^ 12). rewrite ALIGN_UP_spec by lia. zdiv.
Qed.

(** The state of the managers after the page frames are up *)
Definition frames_up (s : pmm) (hhdm cr3 : Z) : boot := mkBoot (mkVmm s hhdm (u64 (page_base cr3 + hhdm)) cr3 [] []) 0 0 0.

Lemma start_frames_ok m cr3 hhdm mm mm' s : pmm_init (Some hhdm) (Some mm) (pmm_boot m) = Ok (mm', s) → hhdm_offset s = hhdm →
  start_frames (Some hhdm) (Some mm) (mkBoot (mkVmm (pmm_boot m) 0 0 cr3 [] []) 0 0 0) = Ok (mm', frames_up s hhdm cr3).
Proof.
  intros E Eh. unfold start_frames. set (b := mkBoot _ 0 0 0).
  mstep with (zoom_ok bt_pmm set_bt_pmm (pmm_init (Some hhdm) (Some mm)) b mm' s E).
  assert (Ev : vmm_init (bt_vmm (set_bt_pmm s b)) = Ok (tt, bt_vmm (frames_up s hhdm cr3))).
  { unfold vmm_init, frames_up. rewrite <-Eh. reflexivity. }
  by mstep with (zoom_ok bt_vmm set_bt_vmm vmm_init (set_bt_pmm s b) tt _ Ev).
Qed.

(** The trial allocation of a new heap succeeds. *)
Lemma try_heap_ok ctl b0 e b pb : heap ctl b0 e (bt_mem b) [(pb, true)] ∅ → 1000 ≤ pb →
  ∃ m' bs, try_heap ctl b = Ok (ctl, set_bt_mem m' b) ∧ heap ctl b0 e m' bs ∅.
Proof.
  intros H Hpb. unfold try_heap.
  destruct (tlsf_malloc_spec ctl b0 e _ _ ∅ 64 H ltac:(lia)) as (p & m1 & E1 & [(_ & _ & [Hr|Hr])|(n & bs1 & Hn & Hp & H1 & _)]).
  - exfalso. vm_compute in Hr. discriminate Hr.
  - exfalso. specialize (Hr pb ltac:(by left)). assert (request 64 = 64) as E by (by vm_compute). lia.
  - mstep with (zoom_ok bt_mem set_bt_mem (tlsf_malloc ctl 64) b p m1 E1).
    destruct (heap_fresh ctl b0 e m1 bs1 ∅ 64 p n H1 Hp Hn) as ((Hp0 & _) & _). rewrite (proj2 (Z.eqb_neq p 0) Hp0).
    destruct (tlsf_free_spec ctl b0 e m1 bs1 _ p n H1 (lookup_insert_eq _ _ _)) as (m2 & bs2 & E2 & H2 & _).
    mstep with (zoom_ok bt_mem set_bt_mem (tlsf_free ctl p) (set_bt_mem m1 b) tt m2 E2).
    exists m2, bs2. split; [done|]. by rewrite delete_insert_id in H2.
Qed.

(** ** The theorem *)

Lemma heap_block p hhdm s o : block_ok s o p → hhdm_offset s = hhdm → hhdm `mod` PAGE_SIZE = 0 → 2 ^ 23 ≤ hhdm →
  hhdm + PAGE_SIZE * pmm_max_page s < 2 ^ 64 →
  0 < p ∧ (hhdm + p) `mod` PAGE_SIZE = 0 ∧ hhdm + p + PAGE_SIZE * 2 ^ o ≤ 2 ^ 64 - PAGE_SIZE.
Proof.
  intros (Ho & Hp & Hal & Hmax) Eh Hh H23 Hw. pose proof (pow2_pos o (proj1 Ho)).
  assert (Hpm : p `mod` PAGE_SIZE = 0).
  { apply Z.mod_divide; [done|]. apply (Z.divide_trans _ (PAGE_SIZE * 2 ^ o)); [by apply Z.divide_factor_l|]. by apply Z.mod_divide; [unfold PAGE_SIZE; lia|]. }
  unfold PAGE_SIZE in *. splits; [done|zdiv|]. assert (p = 4096 * (p / 4096)) by zdiv. assert (hhdm = 4096 * (hhdm / 4096)) by zdiv. lia.
Qed.

(** The machine [kmain] starts on, and its run. *)
Definition boot_machine (m : memory) (cr3 : Z) : boot := mkBoot (mkVmm (pmm_boot m) 0 0 cr3 [] []) 0 0 0.

Lemma zoom_halt {S T X} (get : T → S) (set : S → T → T) (m : M S X) t : m (get t) = Halt → zoom get set m t = Halt.
Proof. intros E. unfold zoom. by rewrite E. Qed.
Lemma bind_halt {S X Y} (m : M S X) (f : X → M S Y) s : m s = Halt → (x ← m; f x) s = Halt.
Proof. intros E. unfold mbind, M_bind. by rewrite E. Qed.

Lemma pfndb_init_halts mm d : Forall (λ e, ¬ roomy (db_size mm) e) mm → pfndb_init mm d = Halt.
Proof.
  intros Hf. unfold pfndb_init. mstep. apply bind_halt. unfold _pfndb_reserve. mstep.
  destruct (pfndb_take_cases (db_size mm) mm (set_max_pfn (map_max_pfn mm) d)) as [[E _]|(e & mm' & _ & [He Hr]%first_roomy_elem)]; [exact E|].
  exfalso. exact (proj1 (Forall_forall _ _) Hf e He Hr).
Qed.

(** The heap is made in the block that the page allocator gives. *)
Lemma start_heap_ok hhdm cr3 s L p s' L' : palloc_order 10 s = Ok (p, s') → alloc_post s L 10 p s' L' → hhdm_offset s = hhdm →
  hhdm `mod` PAGE_SIZE = 0 → 2 ^ 23 ≤ hhdm → 0 < p → (hhdm + p) `mod` PAGE_SIZE = 0 → hhdm + p + HEAP_BYTES ≤ 2 ^ 64 - PAGE_SIZE →
  ∃ m1, let b1 := set_bt_mem m1 (set_bt_pmm s' (frames_up s hhdm cr3)) in start_heap (frames_up s hhdm cr3) = Ok (hhdm + p, b1) ∧
    heap (hhdm + p) (hhdm + p + sizeof_control - 8) (hhdm + p + sizeof_control - 8 + 8 + pool_block HEAP_BYTES) m1 [(pool_block HEAP_BYTES, true)] ∅.
Proof.
  intros Ep HA Eh Hal H23 Hp0 Hp8 Hpend. assert (Epb : pool_block HEAP_BYTES = 4187752) by (by vm_compute). assert (Esz : sizeof_control = 6536) by done.
  assert (Ehb : HEAP_BYTES = 4194304) by done. unfold PAGE_SIZE in Hpend.
  destruct (tlsf_create_with_pool_spec (hhdm + p) HEAP_BYTES (pmm_mem s')) as (m1 & Ec & Hheap);
    [lia|unfold PAGE_SIZE in Hp8; zdiv|lia|rewrite Epb; by vm_compute|].
  exists m1. cbv zeta. split; [|exact Hheap]. unfold start_heap. set (bs0 := frames_up s hhdm cr3).
  mstep with (zoom_ok bt_pmm set_bt_pmm (palloc_order 10) bs0 p s' Ep).
  assert (Eo : pmm_get_hhdm_offset (bt_pmm (set_bt_pmm s' bs0)) = Ok (hhdm, s')).
  { unfold pmm_get_hhdm_offset, gets. cbn. destruct (ap_frame _ _ _ _ _ _ HA) as (_ & _ & -> & _). by rewrite Eh. }
  mstep with (zoom_ok bt_pmm set_bt_pmm pmm_get_hhdm_offset (set_bt_pmm s' bs0) hhdm s' Eo).
  rewrite u64_small, (Z.add_comm p) by lia. exact (zoom_ok bt_mem set_bt_mem _ (set_bt_pmm s' bs0) _ _ Ec).
Qed.

(** C18: On a memory map that meets the boot protocol's promises, with a page-aligned direct map and a number of pages,
    up to its last address, that is not 1 to 7 above a multiple of 32768 ([bitmap_covers]): without a usable entry that has room for the bitmap the
    start of the memory managers in [kmain] stops the kernel.  Otherwise the page frames come up, and when the page allocator
    has a block of 4 MiB for the heap: without an entry that has room for the frame database the kernel stops; and when the
    place that the frame database takes (which it does not ask the page allocator for) does not meet the block, the start
    ends with a heap of the whole block and no allocation, in pages that are no longer free, and besides memory the page
    allocator is as the allocation of that block has left it. *)
Theorem start_memory_correct m cr3 hhdm mm : boot_ok hhdm mm → bitmap_covers mm → hhdm `mod` PAGE_SIZE = 0 →
  (¬ bitmap_fits mm ∧ start_memory (Some hhdm) (Some mm) (boot_machine m cr3) = Halt) ∨
  ∃ mm' s L, pmm_init (Some hhdm) (Some mm) (pmm_boot m) = Ok (mm', s) ∧ pmm_inv s L ∧
    ((palloc_order 10 s = Ok (0, s) ∧ ∀ k, 10 ≤ k < MAX_ORDER → L k = []) ∨
     ∃ p s' L', palloc_order 10 s = Ok (p, s') ∧ pmm_inv s' L' ∧ (∀ q, covers 10 p q → free_page L q ∧ ¬ free_page L' q) ∧
       (Forall (λ e, ¬ roomy (db_size mm') e) mm' → start_memory (Some hhdm) (Some mm) (boot_machine m cr3) = Halt) ∧
       (¬ Forall (λ e, ¬ roomy (db_size mm') e) mm' →
        (∀ e mm'', first_roomy (db_size mm') mm' e mm'' → e_base e + db_size mm' ≤ p ∨ p + HEAP_BYTES ≤ e_base e) →
        ∃ b bs, start_memory (Some hhdm) (Some mm) (boot_machine m cr3) = Ok (hhdm + p, b) ∧
          heap (hhdm + p) (hhdm + p + sizeof_control - 8) (hhdm + p + sizeof_control + pool_block HEAP_BYTES) (bt_mem b) bs ∅ ∧
          bt_pmm b = set_pmm_mem (bt_mem b) s')).
Proof.
  intros Hbo Hcov Hal. destruct (bitmap_fits_dec mm) as [Hfit|Hno]; [right|left; split; [done|]].
  2: { unfold start_memory, start_frames. do 2 apply bind_halt. apply zoom_halt. by apply pmm_init_halts. }
  destruct (pmm_init_spec m hhdm mm Hbo Hcov Hfit) as (b0 & mm' & s & L & E & Hpl & Hinv & _ & _ & _ & Eh & _).
  exists mm', s, L. split; [exact E|]. split; [exact Hinv|].
  destruct (palloc_order_cases 10 s L Hinv) as [Hnone|(p & s' & L' & Ep & HA)]; [by unfold MAX_ORDER|by left|right].
  exists p, s', L'. split; [exact Ep|]. split; [apply HA|].
  split; [intros q Hq; split; [by apply (ap_was_free _ _ _ _ _ _ HA)|rewrite (ap_free _ _ _ _ _ _ HA); tauto]|].
  destruct (pa_window (inv := buddy_inv) s (free_page L)) as (_ & _ & Hw); [by exists L|]. rewrite Eh in Hw.
  pose proof (proj1 (bo_offset _ _ Hbo)) as H23.
  destruct (heap_block p hhdm s 10 (ap_block _ _ _ _ _ _ HA) Eh Hal H23 Hw) as (Hp0 & Hp8 & Hpend).
  change (PAGE_SIZE * 2 ^ 10) with HEAP_BYTES in Hpend.
  destruct (start_heap_ok hhdm cr3 s L p s' L' Ep HA Eh Hal H23 Hp0 Hp8 Hpend) as (m1 & E1 & Hheap).
  set (b1 := set_bt_mem m1 (set_bt_pmm s' (frames_up s hhdm cr3))) in E1. unfold start_memory, boot_machine.
  split; [intros Hnone|intros Hroom Hapart]; mstep with (start_frames_ok m cr3 hhdm mm mm' s E Eh); mstep with E1.
  { apply bind_halt, zoom_halt. by apply pfndb_init_halts. }
  assert (Hent : ∀ e, e ∈ mm' → 0 ≤ e_base e ∧ e_base e + hhdm < 2 ^ 64).
  { intros e He. destruct (memmap_ok_elem _ _ (pl_ok _ _ _ _ Hpl) He) as (Hb & Hl & _).
    destruct (pl_shrunk _ _ _ _ Hpl e He) as (e0 & He0 & Ee & _). pose proof (bo_window _ _ Hbo e0 He0). unfold e_end in *. lia. }
  destruct (pfndb_init_writes mm' (bt_db b1)) as (e & mm'' & d & Ed & Hfr & Hd); [|exact Hroom|].
  { apply Forall_forall. intros e He. destruct (Hent e He). split; [done|]. change (pf_hhdm (bt_db b1)) with hhdm. rewrite u64_small; lia. }
  mstep with (zoom_ok bt_db set_bt_db (pfndb_init mm') b1 mm'' d Ed).
  destruct (Hent e (proj1 (first_roomy_elem _ _ _ _ Hfr))) as [He0 He1].
  change (pf_hhdm (bt_db b1)) with hhdm in Hd. rewrite u64_small in Hd by lia.
  pose proof (db_size_covers mm' (max_pfn_nonneg mm' 0 (Z.le_refl 0))) as Hsz. pose proof (Hapart e mm'' Hfr) as Hap.
  assert (Epb : pool_block HEAP_BYTES = 4187752) by (by vm_compute). assert (Ehb : HEAP_BYTES = 4194304) by done. assert (Esz : sizeof_control = 6536) by done.
  destruct (try_heap_ok (hhdm + p) (hhdm + p + sizeof_control - 8) (hhdm + p + sizeof_control - 8 + 8 + pool_block HEAP_BYTES) (set_bt_db d b1) (pool_block HEAP_BYTES)) as (m3 & bs & Et & H3); [|lia|].
  - eapply heap_range; [exact Hheap|]. intros a Ha. apply Hd. lia.
  - exists (set_bt_mem m3 (set_bt_db d b1)), bs. split; [exact Et|]. split; [|done].
    by replace (hhdm + p + sizeof_control + pool_block HEAP_BYTES) with (hhdm + p + sizeof_control - 8 + 8 + pool_block HEAP_BYTES) by lia.
Qed.

(** A machine of 12 MiB: the first page is reserved. *)
Definition boot_map : list memmap_entry := [mkEntry 0 4096 1; mkEntry 4096 (3071 * 4096) 0].
Lemma boot_map_ok : boot_ok sample_offset boot_map.
Proof.
  split.
  - cbn. unfold entry_ok, apart, usable, e_end, LIMINE_MEMMAP_USABLE, PAGE_SIZE. cbn.
    splits; try lia; try done; intros e' H Hu; first [done|by apply elem_of_nil in H].
  - done.
  - intros e [->|[->|H]%elem_of_cons]%elem_of_cons; [done|done|]. by apply elem_of_nil in H.
Qed.
Lemma boot_covers : bitmap_covers boot_map.
Proof. by vm_compute. Qed.
Lemma boot_fits : bitmap_fits boot_map.
Proof. eexists. split; [right; left|]. done. Qed.

(** What the run leaves: the memory map, and the block for the heap. *)
Definition boot_left : list memmap_entry := [mkEntry 0 4096 1; mkEntry 8192 (3070 * 4096) 0].
Definition block_of (r : outcome (list memmap_entry * pmm)) : option (list memmap_entry * Z) :=
  match r with
  | Ok (mm', s) => match palloc_order 10 s with Ok (p, _) => Some (mm', p) | _ => None end
  | _ => None
  end.
Lemma boot_run_eq : block_of (pmm_init (Some sample_offset) (Some boot_map) (pmm_boot ∅)) = Some (boot_left, 0x800000).
Proof. vm_compute. reflexivity. Qed.
Lemma off_ok : sample_offset `mod` PAGE_SIZE = 0.
Proof. by vm_compute. Qed.
Lemma boot_size : db_size boot_left = 200704.
Proof. by vm_compute. Qed.
Lemma boot_roomy : ¬ Forall (λ e, ¬ roomy (db_size boot_left) e) boot_left.
Proof.
  rewrite boot_size. intros Hf. apply list.Forall_cons in Hf as [_ Hf]. apply list.Forall_cons in Hf as [Hf _]. apply Hf. split; [done|]. by vm_compute.
Qed.
Lemma boot_apart e mm'' : first_roomy (db_size boot_left) boot_left e mm'' → e_base e + db_size boot_left ≤ 0x800000 ∨ 0x800000 + HEAP_BYTES ≤ e_base e.
Proof.
  rewrite boot_size. intros Hr. apply first_roomy_elem in Hr as [He Hr]. left.
  apply list.elem_of_cons in He as [->|He]; [by destruct Hr|]. apply list.elem_of_cons in He as [->|He]; [cbn; lia|]. exfalso; exact (not_elem_of_nil _ He).
Qed.
Lemma boot_block mm' s : pmm_init (Some sample_offset) (Some boot_map) (pmm_boot ∅) = Ok (mm', s) →
  mm' = boot_left ∧ ∃ s', palloc_order 10 s = Ok (0x800000, s').
Proof.
  intros E. pose proof boot_run_eq as Er. rewrite E in Er. unfold block_of in Er.
  destruct (palloc_order 10 s) as [[p s']| | |]; try discriminate Er. injection Er as -> ->. split; [done|]. by exists s'.
Qed.
Lemma start_memory_correct_witness :
  ∃ b bs, start_memory (Some sample_offset) (Some boot_map) (boot_machine ∅ 0x1000) = Ok (sample_offset + 0x800000, b) ∧
    heap (sample_offset + 0x800000) (sample_offset + 0x800000 + sizeof_control - 8)
      (sample_offset + 0x800000 + sizeof_control + pool_block HEAP_BYTES) (bt_mem b) bs ∅.
Proof.
  destruct (start_memory_correct ∅ 0x1000 sample_offset boot_map boot_map_ok boot_covers off_ok) as [[Hno _]|(mm' & s & L & E & _ & Hc)]; [destruct (Hno boot_fits)|].
  destruct (boot_block mm' s E) as (-> & s1 & E1).
  destruct Hc as [[Ep _]|(p & s' & L' & Ep & _ & _ & _ & Hrun)]; rewrite Ep in E1; [discriminate E1|].
  injection E1 as -> _. destruct (Hrun boot_roomy boot_apart) as (b & bs & Eb & Hh & _). exists b, bs. split; [exact Eb|exact Hh].
Defined.
