(* ===== verification/TermTables.v ===== *)
(** * Tables of the terminal

    The data and the pure functions of src/kernel/main/terminal/src/flanterm.c:
    the 256-colour palette, the width of a character by binary search in two
    tables of intervals, and the glyph of code page 437 for a code point. *)
From Stdlib Require Import ZArith Lia.
From stdpp Require Import base option list.
From S2P Require Import Prelude.

Definition col256 : list Z :=
  [
    0x000000; 0x00005f; 0x000087; 0x0000af; 0x0000d7; 0x0000ff; 0x005f00; 0x005f5f; 0x005f87; 0x005faf;
    0x005fd7; 0x005fff; 0x008700; 0x00875f; 0x008787; 0x0087af; 0x0087d7; 0x0087ff; 0x00af00; 0x00af5f;
    0x00af87; 0x00afaf; 0x00afd7; 0x00afff; 0x00d700; 0x00d75f; 0x00d787; 0x00d7af; 0x00d7d7; 0x00d7ff;
    0x00ff00; 0x00ff5f; 0x00ff87; 0x00ffaf; 0x00ffd7; 0x00ffff; 0x5f0000; 0x5f005f; 0x5f0087; 0x5f00af;
    0x5f00d7; 0x5f00ff; 0x5f5f00; 0x5f5f5f; 0x5f5f87; 0x5f5faf; 0x5f5fd7; 0x5f5fff; 0x5f8700; 0x5f875f;
    0x5f8787; 0x5f87af; 0x5f87d7; 0x5f87ff; 0x5faf00; 0x5faf5f; 0x5faf87; 0x5fafaf; 0x5fafd7; 0x5fafff;
    0x5fd700; 0x5fd75f; 0x5fd787; 0x5fd7af; 0x5fd7d7; 0x5fd7ff; 0x5fff00; 0x5fff5f; 0x5fff87; 0x5fffaf;
    0x5fffd7; 0x5fffff; 0x870000; 0x87005f; 0x870087; 0x8700af; 0x8700d7; 0x8700ff; 0x875f00; 0x875f5f;
    0x875f87; 0x875faf; 0x875fd7; 0x875fff; 0x878700; 0x87875f; 0x878787; 0x8787af; 0x8787d7; 0x8787ff;
    0x87af00; 0x87af5f; 0x87af87; 0x87afaf; 0x87afd7; 0x87afff; 0x87d700; 0x87d75f; 0x87d787; 0x87d7af;
    0x87d7d7; 0x87d7ff; 0x87ff00; 0x87ff5f; 0x87ff87; 0x87ffaf; 0x87ffd7; 0x87ffff; 0xaf0000; 0xaf005f;
    0xaf0087; 0xaf00af; 0xaf00d7; 0xaf00ff; 0xaf5f00; 0xaf5f5f; 0xaf5f87; 0xaf5faf; 0xaf5fd7; 0xaf5fff;
    0xaf8700; 0xaf875f; 0xaf8787; 0xaf87af; 0xaf87d7; 0xaf87ff; 0xafaf00; 0xafaf5f; 0xafaf87; 0xafafaf;
    0xafafd7; 0xafafff; 0xafd700; 0xafd75f; 0xafd787; 0xafd7af; 0xafd7d7; 0xafd7ff; 0xafff00; 0xafff5f;
    0xafff87; 0xafffaf; 0xafffd7; 0xafffff; 0xd70000; 0xd7005f; 0xd70087; 0xd700af; 0xd700d7; 0xd700ff;
    0xd75f00; 0xd75f5f; 0xd75f87; 0xd75faf; 0xd75fd7; 0xd75fff; 0xd78700; 0xd7875f; 0xd78787; 0xd787af;
    0xd787d7; 0xd787ff; 0xd7af00; 0xd7af5f; 0xd7af87; 0xd7afaf; 0xd7afd7; 0xd7afff; 0xd7d700; 0xd7d75f;
    0xd7d787; 0xd7d7af; 0xd7d7d7; 0xd7d7ff; 0xd7ff00; 0xd7ff5f; 0xd7ff87; 0xd7ffaf; 0xd7ffd7; 0xd7ffff;
    0xff0000; 0xff005f; 0xff0087; 0xff00af; 0xff00d7; 0xff00ff; 0xff5f00; 0xff5f5f; 0xff5f87; 0xff5faf;
    0xff5fd7; 0xff5fff; 0xff8700; 0xff875f; 0xff8787; 0xff87af; 0xff87d7; 0xff87ff; 0xffaf00; 0xffaf5f;
    0xffaf87; 0xffafaf; 0xffafd7; 0xffafff; 0xffd700; 0xffd75f; 0xffd787; 0xffd7af; 0xffd7d7; 0xffd7ff;
    0xffff00; 0xffff5f; 0xffff87; 0xffffaf; 0xffffd7; 0xffffff; 0x080808; 0x121212; 0x1c1c1c; 0x262626;
    0x303030; 0x3a3a3a; 0x444444; 0x4e4e4e; 0x585858; 0x626262; 0x6c6c6c; 0x767676; 0x808080; 0x8a8a8a;
    0x949494; 0x9e9e9e; 0xa8a8a8; 0xb2b2b2; 0xbcbcbc; 0xc6c6c6; 0xd0d0d0; 0xdadada; 0xe4e4e4; 0xeeeeee
  ].

(** ** Widths *)

Record interval := mkInterval { iv_first : Z; iv_last : Z }.
#[local] Notation "a -- b" := (mkInterval a b) (at level 35).

Definition combining : list interval :=
  [
    0x0300 -- 0x036F; 0x0483 -- 0x0489; 0x0591 -- 0x05BD; 0x05BF -- 0x05BF; 0x05C1 -- 0x05C2; 0x05C4 -- 0x05C5;
    0x05C7 -- 0x05C7; 0x0610 -- 0x061A; 0x061C -- 0x061C; 0x064B -- 0x065F; 0x0670 -- 0x0670; 0x06D6 -- 0x06DC;
    0x06DF -- 0x06E4; 0x06E7 -- 0x06E8; 0x06EA -- 0x06ED; 0x0711 -- 0x0711; 0x0730 -- 0x074A; 0x07A6 -- 0x07B0;
    0x07EB -- 0x07F3; 0x07FD -- 0x07FD; 0x0816 -- 0x0819; 0x081B -- 0x0823; 0x0825 -- 0x0827; 0x0829 -- 0x082D;
    0x0859 -- 0x085B; 0x0897 -- 0x089F; 0x08CA -- 0x08E1; 0x08E3 -- 0x0902; 0x093A -- 0x093A; 0x093C -- 0x093C;
    0x0941 -- 0x0948; 0x094D -- 0x094D; 0x0951 -- 0x0957; 0x0962 -- 0x0963; 0x0981 -- 0x0981; 0x09BC -- 0x09BC;
    0x09C1 -- 0x09C4; 0x09CD -- 0x09CD; 0x09E2 -- 0x09E3; 0x09FE -- 0x09FE; 0x0A01 -- 0x0A02; 0x0A3C -- 0x0A3C;
    0x0A41 -- 0x0A42; 0x0A47 -- 0x0A48; 0x0A4B -- 0x0A4D; 0x0A51 -- 0x0A51; 0x0A70 -- 0x0A71; 0x0A75 -- 0x0A75;
    0x0A81 -- 0x0A82; 0x0ABC -- 0x0ABC; 0x0AC1 -- 0x0AC5; 0x0AC7 -- 0x0AC8; 0x0ACD -- 0x0ACD; 0x0AE2 -- 0x0AE3;
    0x0AFA -- 0x0AFF; 0x0B01 -- 0x0B01; 0x0B3C -- 0x0B3C; 0x0B3F -- 0x0B3F; 0x0B41 -- 0x0B44; 0x0B4D -- 0x0B4D;
    0x0B55 -- 0x0B56; 0x0B62 -- 0x0B63; 0x0B82 -- 0x0B82; 0x0BC0 -- 0x0BC0; 0x0BCD -- 0x0BCD; 0x0C00 -- 0x0C00;
    0x0C04 -- 0x0C04; 0x0C3C -- 0x0C3C; 0x0C3E -- 0x0C40; 0x0C46 -- 0x0C48; 0x0C4A -- 0x0C4D; 0x0C55 -- 0x0C56;
    0x0C62 -- 0x0C63; 0x0C81 -- 0x0C81; 0x0CBC -- 0x0CBC; 0x0CBF -- 0x0CBF; 0x0CC6 -- 0x0CC6; 0x0CCC -- 0x0CCD;
    0x0CE2 -- 0x0CE3; 0x0D00 -- 0x0D01; 0x0D3B -- 0x0D3C; 0x0D41 -- 0x0D44; 0x0D4D -- 0x0D4D; 0x0D62 -- 0x0D63;
    0x0D81 -- 0x0D81; 0x0DCA -- 0x0DCA; 0x0DD2 -- 0x0DD4; 0x0DD6 -- 0x0DD6; 0x0E31 -- 0x0E31; 0x0E34 -- 0x0E3A;
    0x0E47 -- 0x0E4E; 0x0EB1 -- 0x0EB1; 0x0EB4 -- 0x0EBC; 0x0EC8 -- 0x0ECE; 0x0F18 -- 0x0F19; 0x0F35 -- 0x0F35;
    0x0F37 -- 0x0F37; 0x0F39 -- 0x0F39; 0x0F71 -- 0x0F7E; 0x0F80 -- 0x0F84; 0x0F86 -- 0x0F87; 0x0F8D -- 0x0F97;
    0x0F99 -- 0x0FBC; 0x0FC6 -- 0x0FC6; 0x102D -- 0x1030; 0x1032 -- 0x1037; 0x1039 -- 0x103A; 0x103D -- 0x103E;
    0x1058 -- 0x1059; 0x105E -- 0x1060; 0x1071 -- 0x1074; 0x1082 -- 0x1082; 0x1085 -- 0x1086; 0x108D -- 0x108D;
    0x109D -- 0x109D; 0x1160 -- 0x11FF; 0x135D -- 0x135F; 0x1712 -- 0x1714; 0x1732 -- 0x1733; 0x1752 -- 0x1753;
    0x1772 -- 0x1773; 0x17B4 -- 0x17B5; 0x17B7 -- 0x17BD; 0x17C6 -- 0x17C6; 0x17C9 -- 0x17D3; 0x17DD -- 0x17DD;
    0x180B -- 0x180F; 0x1885 -- 0x1886; 0x18A9 -- 0x18A9; 0x1920 -- 0x1922; 0x1927 -- 0x1928; 0x1932 -- 0x1932;
    0x1939 -- 0x193B; 0x1A17 -- 0x1A18; 0x1A1B -- 0x1A1B; 0x1A56 -- 0x1A56; 0x1A58 -- 0x1A5E; 0x1A60 -- 0x1A60;
    0x1A62 -- 0x1A62; 0x1A65 -- 0x1A6C; 0x1A73 -- 0x1A7C; 0x1A7F -- 0x1A7F; 0x1AB0 -- 0x1ADD; 0x1AE0 -- 0x1AEB;
    0x1B00 -- 0x1B03; 0x1B34 -- 0x1B34; 0x1B36 -- 0x1B3A; 0x1B3C -- 0x1B3C; 0x1B42 -- 0x1B42; 0x1B6B -- 0x1B73;
    0x1B80 -- 0x1B81; 0x1BA2 -- 0x1BA5; 0x1BA8 -- 0x1BA9; 0x1BAB -- 0x1BAD; 0x1BE6 -- 0x1BE6; 0x1BE8 -- 0x1BE9;
    0x1BED -- 0x1BED; 0x1BEF -- 0x1BF1; 0x1C2C -- 0x1C33; 0x1C36 -- 0x1C37; 0x1CD0 -- 0x1CD2; 0x1CD4 -- 0x1CE0;
    0x1CE2 -- 0x1CE8; 0x1CED -- 0x1CED; 0x1CF4 -- 0x1CF4; 0x1CF8 -- 0x1CF9; 0x1DC0 -- 0x1DFF; 0x200B -- 0x200F;
    0x2028 -- 0x202E; 0x2060 -- 0x206F; 0x20D0 -- 0x20F0; 0x2CEF -- 0x2CF1; 0x2D7F -- 0x2D7F; 0x2DE0 -- 0x2DFF;
    0x302A -- 0x302D; 0x3099 -- 0x309A; 0x3164 -- 0x3164; 0xA66F -- 0xA672; 0xA674 -- 0xA67D; 0xA69E -- 0xA69F;
    0xA6F0 -- 0xA6F1; 0xA802 -- 0xA802; 0xA806 -- 0xA806; 0xA80B -- 0xA80B; 0xA825 -- 0xA826; 0xA82C -- 0xA82C;
    0xA8C4 -- 0xA8C5; 0xA8E0 -- 0xA8F1; 0xA8FF -- 0xA8FF; 0xA926 -- 0xA92D; 0xA947 -- 0xA951; 0xA980 -- 0xA982;
    0xA9B3 -- 0xA9B3; 0xA9B6 -- 0xA9B9; 0xA9BC -- 0xA9BD; 0xA9E5 -- 0xA9E5; 0xAA29 -- 0xAA2E; 0xAA31 -- 0xAA32;
    0xAA35 -- 0xAA36; 0xAA43 -- 0xAA43; 0xAA4C -- 0xAA4C; 0xAA7C -- 0xAA7C; 0xAAB0 -- 0xAAB0; 0xAAB2 -- 0xAAB4;
    0xAAB7 -- 0xAAB8; 0xAABE -- 0xAABF; 0xAAC1 -- 0xAAC1; 0xAAEC -- 0xAAED; 0xAAF6 -- 0xAAF6; 0xABE5 -- 0xABE5;
    0xABE8 -- 0xABE8; 0xABED -- 0xABED; 0xD7B0 -- 0xD7FF; 0xFB1E -- 0xFB1E; 0xFE00 -- 0xFE0F; 0xFE20 -- 0xFE2F;
    0xFEFF -- 0xFEFF; 0xFFA0 -- 0xFFA0; 0xFFF0 -- 0xFFFB; 0x101FD -- 0x101FD; 0x102E0 -- 0x102E0;
    0x10376 -- 0x1037A; 0x10A01 -- 0x10A03; 0x10A05 -- 0x10A06; 0x10A0C -- 0x10A0F; 0x10A38 -- 0x10A3A;
    0x10A3F -- 0x10A3F; 0x10AE5 -- 0x10AE6; 0x10D24 -- 0x10D27; 0x10D69 -- 0x10D6D; 0x10EAB -- 0x10EAC;
    0x10EFA -- 0x10EFF; 0x10F46 -- 0x10F50; 0x10F82 -- 0x10F85; 0x11001 -- 0x11001; 0x11038 -- 0x11046;
    0x11070 -- 0x11070; 0x11073 -- 0x11074; 0x1107F -- 0x11081; 0x110B3 -- 0x110B6; 0x110B9 -- 0x110BA;
    0x110C2 -- 0x110C2; 0x11100 -- 0x11102; 0x11127 -- 0x1112B; 0x1112D -- 0x11134; 0x11173 -- 0x11173;
    0x11180 -- 0x11181; 0x111B6 -- 0x111BE; 0x111C9 -- 0x111CC; 0x111CF -- 0x111CF; 0x1122F -- 0x11231;
    0x11234 -- 0x11234; 0x11236 -- 0x11237; 0x1123E -- 0x1123E; 0x11241 -- 0x11241; 0x112DF -- 0x112DF;
    0x112E3 -- 0x112EA; 0x11300 -- 0x11301; 0x1133B -- 0x1133C; 0x11340 -- 0x11340; 0x11366 -- 0x1136C;
    0x11370 -- 0x11374; 0x113BB -- 0x113C0; 0x113CE -- 0x113CE; 0x113D0 -- 0x113D0; 0x113D2 -- 0x113D2;
    0x113E1 -- 0x113E2; 0x11438 -- 0x1143F; 0x11442 -- 0x11444; 0x11446 -- 0x11446; 0x1145E -- 0x1145E;
    0x114B3 -- 0x114B8; 0x114BA -- 0x114BA; 0x114BF -- 0x114C0; 0x114C2 -- 0x114C3; 0x115B2 -- 0x115B5;
    0x115BC -- 0x115BD; 0x115BF -- 0x115C0; 0x115DC -- 0x115DD; 0x11633 -- 0x1163A; 0x1163D -- 0x1163D;
    0x1163F -- 0x11640; 0x116AB -- 0x116AB; 0x116AD -- 0x116AD; 0x116B0 -- 0x116B5; 0x116B7 -- 0x116B7;
    0x1171D -- 0x1171D; 0x1171F -- 0x1171F; 0x11722 -- 0x11725; 0x11727 -- 0x1172B; 0x1182F -- 0x11837;
    0x11839 -- 0x1183A; 0x1193B -- 0x1193C; 0x1193E -- 0x1193E; 0x11943 -- 0x11943; 0x119D4 -- 0x119D7;
    0x119DA -- 0x119DB; 0x119E0 -- 0x119E0; 0x11A01 -- 0x11A0A; 0x11A33 -- 0x11A38; 0x11A3B -- 0x11A3E;
    0x11A47 -- 0x11A47; 0x11A51 -- 0x11A56; 0x11A59 -- 0x11A5B; 0x11A8A -- 0x11A96; 0x11A98 -- 0x11A99;
    0x11B60 -- 0x11B60; 0x11B62 -- 0x11B64; 0x11B66 -- 0x11B66; 0x11C30 -- 0x11C36; 0x11C38 -- 0x11C3D;
    0x11C3F -- 0x11C3F; 0x11C92 -- 0x11CA7; 0x11CAA -- 0x11CB0; 0x11CB2 -- 0x11CB3; 0x11CB5 -- 0x11CB6;
    0x11D31 -- 0x11D36; 0x11D3A -- 0x11D3A; 0x11D3C -- 0x11D3D; 0x11D3F -- 0x11D45; 0x11D47 -- 0x11D47;
    0x11D90 -- 0x11D91; 0x11D95 -- 0x11D95; 0x11D97 -- 0x11D97; 0x11EF3 -- 0x11EF4; 0x11F00 -- 0x11F01;
    0x11F36 -- 0x11F3A; 0x11F40 -- 0x11F40; 0x11F42 -- 0x11F42; 0x11F5A -- 0x11F5A; 0x13430 -- 0x13440;
    0x13447 -- 0x13455; 0x1611E -- 0x16129; 0x1612D -- 0x1612F; 0x16AF0 -- 0x16AF4; 0x16B30 -- 0x16B36;
    0x16F4F -- 0x16F4F; 0x16F8F -- 0x16F92; 0x16FE4 -- 0x16FE4; 0x1BC9D -- 0x1BC9E; 0x1BCA0 -- 0x1BCA3;
    0x1CF00 -- 0x1CF2D; 0x1CF30 -- 0x1CF46; 0x1D167 -- 0x1D169; 0x1D173 -- 0x1D182; 0x1D185 -- 0x1D18B;
    0x1D1AA -- 0x1D1AD; 0x1D242 -- 0x1D244; 0x1DA00 -- 0x1DA36; 0x1DA3B -- 0x1DA6C; 0x1DA75 -- 0x1DA75;
    0x1DA84 -- 0x1DA84; 0x1DA9B -- 0x1DA9F; 0x1DAA1 -- 0x1DAAF; 0x1E000 -- 0x1E006; 0x1E008 -- 0x1E018;
    0x1E01B -- 0x1E021; 0x1E023 -- 0x1E024; 0x1E026 -- 0x1E02A; 0x1E08F -- 0x1E08F; 0x1E130 -- 0x1E136;
    0x1E2AE -- 0x1E2AE; 0x1E2EC -- 0x1E2EF; 0x1E4EC -- 0x1E4EF; 0x1E5EE -- 0x1E5EF; 0x1E6E3 -- 0x1E6E3;
    0x1E6E6 -- 0x1E6E6; 0x1E6EE -- 0x1E6EF; 0x1E6F5 -- 0x1E6F5; 0x1E8D0 -- 0x1E8D6; 0x1E944 -- 0x1E94A;
    0xE0000 -- 0xE0FFF
  ].

Definition wide : list interval :=
  [
    0x1100 -- 0x115F; 0x231A -- 0x231B; 0x2329 -- 0x232A; 0x23E9 -- 0x23EC; 0x23F0 -- 0x23F0; 0x23F3 -- 0x23F3;
    0x25FD -- 0x25FE; 0x2614 -- 0x2615; 0x2630 -- 0x2637; 0x2648 -- 0x2653; 0x267F -- 0x267F; 0x268A -- 0x268F;
    0x2693 -- 0x2693; 0x26A1 -- 0x26A1; 0x26AA -- 0x26AB; 0x26BD -- 0x26BE; 0x26C4 -- 0x26C5; 0x26CE -- 0x26CE;
    0x26D4 -- 0x26D4; 0x26EA -- 0x26EA; 0x26F2 -- 0x26F3; 0x26F5 -- 0x26F5; 0x26FA -- 0x26FA; 0x26FD -- 0x26FD;
    0x2705 -- 0x2705; 0x270A -- 0x270B; 0x2728 -- 0x2728; 0x274C -- 0x274C; 0x274E -- 0x274E; 0x2753 -- 0x2755;
    0x2757 -- 0x2757; 0x2795 -- 0x2797; 0x27B0 -- 0x27B0; 0x27BF -- 0x27BF; 0x2B1B -- 0x2B1C; 0x2B50 -- 0x2B50;
    0x2B55 -- 0x2B55; 0x2E80 -- 0x2E99; 0x2E9B -- 0x2EF3; 0x2F00 -- 0x2FD5; 0x2FF0 -- 0x303E; 0x3041 -- 0x3096;
    0x3099 -- 0x30FF; 0x3105 -- 0x312F; 0x3131 -- 0x318E; 0x3190 -- 0x31E5; 0x31EF -- 0x321E; 0x3220 -- 0x3247;
    0x3250 -- 0xA48C; 0xA490 -- 0xA4C6; 0xA960 -- 0xA97C; 0xAC00 -- 0xD7A3; 0xF900 -- 0xFAFF; 0xFE10 -- 0xFE19;
    0xFE30 -- 0xFE52; 0xFE54 -- 0xFE66; 0xFE68 -- 0xFE6B; 0xFF01 -- 0xFF60; 0xFFE0 -- 0xFFE6;
    0x16FE0 -- 0x16FE4; 0x16FF0 -- 0x16FF6; 0x17000 -- 0x18CD5; 0x18CFF -- 0x18D1E; 0x18D80 -- 0x18DF2;
    0x1AFF0 -- 0x1AFF3; 0x1AFF5 -- 0x1AFFB; 0x1AFFD -- 0x1AFFE; 0x1B000 -- 0x1B122; 0x1B132 -- 0x1B132;
    0x1B150 -- 0x1B152; 0x1B155 -- 0x1B155; 0x1B164 -- 0x1B167; 0x1B170 -- 0x1B2FB; 0x1D300 -- 0x1D356;
    0x1D360 -- 0x1D376; 0x1F004 -- 0x1F004; 0x1F0CF -- 0x1F0CF; 0x1F18E -- 0x1F18E; 0x1F191 -- 0x1F19A;
    0x1F200 -- 0x1F202; 0x1F210 -- 0x1F23B; 0x1F240 -- 0x1F248; 0x1F250 -- 0x1F251; 0x1F260 -- 0x1F265;
    0x1F300 -- 0x1F320; 0x1F32D -- 0x1F335; 0x1F337 -- 0x1F37C; 0x1F37E -- 0x1F393; 0x1F3A0 -- 0x1F3CA;
    0x1F3CF -- 0x1F3D3; 0x1F3E0 -- 0x1F3F0; 0x1F3F4 -- 0x1F3F4; 0x1F3F8 -- 0x1F43E; 0x1F440 -- 0x1F440;
    0x1F442 -- 0x1F4FC; 0x1F4FF -- 0x1F53D; 0x1F54B -- 0x1F54E; 0x1F550 -- 0x1F567; 0x1F57A -- 0x1F57A;
    0x1F595 -- 0x1F596; 0x1F5A4 -- 0x1F5A4; 0x1F5FB -- 0x1F64F; 0x1F680 -- 0x1F6C5; 0x1F6CC -- 0x1F6CC;
    0x1F6D0 -- 0x1F6D2; 0x1F6D5 -- 0x1F6D8; 0x1F6DC -- 0x1F6DF; 0x1F6EB -- 0x1F6EC; 0x1F6F4 -- 0x1F6FC;
    0x1F7E0 -- 0x1F7EB; 0x1F7F0 -- 0x1F7F0; 0x1F90C -- 0x1F93A; 0x1F93C -- 0x1F945; 0x1F947 -- 0x1F9FF;
    0x1FA70 -- 0x1FA7C; 0x1FA80 -- 0x1FA8A; 0x1FA8E -- 0x1FAC6; 0x1FAC8 -- 0x1FAC8; 0x1FACD -- 0x1FADC;
    0x1FADF -- 0x1FAEA; 0x1FAEF -- 0x1FAF8; 0x20000 -- 0x2FFFD; 0x30000 -- 0x3FFFD
  ].

(** A test against the entry of a table; outside of the table the read is undefined. *)
Definition at_entry {A} (table : list interval) (i : Z) (k : interval → outcome A) : outcome A :=
  match zlookup table i with Some e => k e | None => Fault end.

(** The loop of [bisearch]; [fuel] bounds the number of rounds. *)
Fixpoint bisearch_loop (fuel : nat) (ucs : Z) (table : list interval) (min max : Z) : outcome Z :=
  if negb (max >=? min) then Ok 0 else
  match fuel with
  | O => Spin
  | S fuel =>
      let mid := Z.quot (min + max) 2 in
      at_entry table mid (λ e,
        if ucs >? iv_last e then bisearch_loop fuel ucs table (mid + 1) max
        else if ucs <? iv_first e then bisearch_loop fuel ucs table min (mid - 1)
        else Ok 1)
  end.

Definition bisearch (ucs : Z) (table : list interval) (max : Z) : outcome Z :=
  at_entry table 0 (λ e0, if ucs <? iv_first e0 then Ok 0 else
  at_entry table max (λ em, if ucs >? iv_last em then Ok 0 else
  bisearch_loop (length table) ucs table 0 max)).

Definition table_max (table : list interval) : Z := Z.of_nat (length table) - 1.

Definition mk_wcwidth (ucs : Z) : outcome Z :=
  if ucs =? 0 then Ok 0 else
  if (ucs <? 32) || ((ucs >=? 0x7f) && (ucs <? 0xa0)) then Ok (-1) else
  match bisearch ucs combining (table_max combining) with
  | Ok 0 =>
      match bisearch ucs wide (table_max wide) with
      | Ok 0 => Ok 1
      | Ok _ => Ok 2
      | e => e
      end
  | Ok _ => Ok 0
  | e => e
  end.

(** ** Code page 437 *)

(** The Braille patterns: the eight dots of a cell are the bits of the code point. *)
Definition cp437_braille (code_point : Z) : Z :=
  let dots := u32 (code_point - 0x2800) in
  if dots =? 0 then 0x20 else if dots =? 0xff then 0xdb else
  let has_top := negb (Z.land dots 0x1b =? 0) in
  let has_bottom := negb (Z.land dots 0xe4 =? 0) in
  let has_left := negb (Z.land dots 0x47 =? 0) in
  let has_right := negb (Z.land dots 0xb8 =? 0) in
  if has_top && negb has_bottom then 0xdf else
  if has_bottom && negb has_top then 0xdc else
  if has_left && negb has_right then 0xdd else
  if has_right && negb has_left then 0xde else
  let n := u32 (dots - Z.land (Z.shiftr dots 1) 0x55) in
  let n := u32 (Z.land n 0x33 + Z.land (Z.shiftr n 2) 0x33) in
  let n := Z.land (u32 (n + Z.shiftr n 4)) 0x0f in
  if n <=? 2 then 0xb0 else if n <=? 4 then 0xb1 else if n <=? 6 then 0xb2 else 0xdb.

(** The cases of the switch, in order. *)
Definition cp437_controls : list (Z * Z) :=
  [
    (0x263a, 1); (0x263b, 2); (0x2665, 3); (0x2666, 4); (0x25c6, 4); (0x2663, 5); (0x2660, 6); (0x2022, 7);
    (0x25d8, 8); (0x25cb, 9); (0x25d9, 10); (0x2642, 11); (0x2640, 12); (0x266a, 13); (0x266b, 14);
    (0x263c, 15); (0x00a4, 15); (0x25ba, 16); (0x25b6, 16); (0x25c4, 17); (0x25c0, 17); (0x2195, 18);
    (0x203c, 19); (0x00b6, 20); (0x00a7, 21); (0x25ac, 22); (0x21a8, 23); (0x2191, 24); (0x2193, 25);
    (0x2192, 26); (0x2190, 27); (0x221f, 28); (0x2194, 29); (0x25b2, 30); (0x25bc, 31)
  ].
Definition cp437_ascii : list (Z * Z) :=
  [
    (0x00a8, 0x22); (0x00b4, 0x27); (0x00b8, 0x2c); (0x00ad, 0x2d); (0x00c0, 0x41); (0x00c1, 0x41);
    (0x00c2, 0x41); (0x00c3, 0x41); (0x00a9, 0x43); (0x00d0, 0x44); (0x00c8, 0x45); (0x00ca, 0x45);
    (0x00cb, 0x45); (0x00cc, 0x49); (0x00cd, 0x49); (0x00ce, 0x49); (0x00cf, 0x49); (0x212a, 0x4b);
    (0x00d2, 0x4f); (0x00d3, 0x4f); (0x00d4, 0x4f); (0x00d5, 0x4f); (0x00ae, 0x52); (0x00d9, 0x55);
    (0x00da, 0x55); (0x00db, 0x55); (0x00dd, 0x59); (0x23bd, 0x5f); (0x00e3, 0x61); (0x00f5, 0x6f);
    (0x00d7, 0x78); (0x00fd, 0x79); (0x00a6, 0x7c)
  ].
Definition cp437_upper : list (Z * Z) :=
  [
    (0x2302, 127); (0x00c7, 128); (0x00fc, 129); (0x00e9, 130); (0x00e2, 131); (0x00e4, 132); (0x00e0, 133);
    (0x00e5, 134); (0x00e7, 135); (0x00ea, 136); (0x00eb, 137); (0x00e8, 138); (0x00ef, 139); (0x00ee, 140);
    (0x00ec, 141); (0x00c4, 142); (0x00c5, 143); (0x212b, 143); (0x00c9, 144); (0x00e6, 145); (0x00c6, 146);
    (0x00f4, 147); (0x00f6, 148); (0x00f2, 149); (0x00fb, 150); (0x00f9, 151); (0x00ff, 152); (0x00d6, 153);
    (0x00dc, 154); (0x00a2, 155); (0x00a3, 156); (0x00a5, 157); (0x20a7, 158); (0x0192, 159); (0x00e1, 160);
    (0x00ed, 161); (0x00f3, 162); (0x00fa, 163); (0x00f1, 164); (0x00d1, 165); (0x00aa, 166); (0x00ba, 167);
    (0x00bf, 168); (0x2310, 169); (0x00ac, 170); (0x00bd, 171); (0x00bc, 172); (0x00a1, 173); (0x00ab, 174);
    (0x00bb, 175); (0x2591, 176); (0x2592, 177); (0x2593, 178); (0x2502, 179); (0x2524, 180); (0x2561, 181);
    (0x2562, 182); (0x2556, 183); (0x2555, 184); (0x2563, 185); (0x2551, 186); (0x2557, 187); (0x255d, 188);
    (0x255c, 189); (0x255b, 190); (0x2510, 191); (0x2514, 192); (0x2534, 193); (0x252c, 194); (0x251c, 195);
    (0x2500, 196); (0x253c, 197); (0x255e, 198); (0x255f, 199); (0x255a, 200); (0x2554, 201); (0x2569, 202);
    (0x2566, 203); (0x2560, 204); (0x2550, 205); (0x256c, 206); (0x2567, 207); (0x2568, 208); (0x2564, 209);
    (0x2565, 210); (0x2559, 211); (0x2558, 212); (0x2552, 213); (0x2553, 214); (0x256b, 215); (0x256a, 216);
    (0x2518, 217); (0x250c, 218); (0x2588, 219); (0x2584, 220); (0x258c, 221); (0x2590, 222); (0x2580, 223);
    (0x03b1, 224); (0x00df, 225); (0x03b2, 225); (0x0393, 226); (0x03c0, 227); (0x03a3, 228); (0x03c3, 229);
    (0x00b5, 230); (0x03bc, 230); (0x03c4, 231); (0x03a6, 232); (0x00d8, 232); (0x0398, 233); (0x03a9, 234);
    (0x2126, 234); (0x03b4, 235); (0x00f0, 235); (0x221e, 236); (0x03c6, 237); (0x00f8, 237); (0x03b5, 238);
    (0x2208, 238); (0x2229, 239); (0x2261, 240); (0x00b1, 241); (0x2265, 242); (0x2264, 243); (0x2320, 244);
    (0x2321, 245); (0x00f7, 246); (0x2248, 247); (0x00b0, 248); (0x2219, 249); (0x00b7, 250); (0x221a, 251);
    (0x207f, 252); (0x00b2, 253); (0x25a0, 254); (0xfffd, 254); (0x00a0, 255)
  ].
Definition cp437_lines : list (Z * Z) :=
  [
    (0x256d, 0xda); (0x256e, 0xbf); (0x256f, 0xd9); (0x2570, 0xc0); (0x2571, 0x2f); (0x2572, 0x5c);
    (0x2573, 0x58); (0x2501, 0xc4); (0x2503, 0xb3); (0x250f, 0xda); (0x2513, 0xbf); (0x2517, 0xc0);
    (0x251b, 0xd9); (0x2523, 0xc3); (0x252b, 0xb4); (0x2533, 0xc2); (0x253b, 0xc1); (0x254b, 0xc5);
    (0x250d, 0xda); (0x250e, 0xda); (0x2511, 0xbf); (0x2512, 0xbf); (0x2515, 0xc0); (0x2516, 0xc0);
    (0x2519, 0xd9); (0x251a, 0xd9); (0x251d, 0xc3); (0x251e, 0xc3); (0x251f, 0xc3); (0x2520, 0xc3);
    (0x2521, 0xc3); (0x2522, 0xc3); (0x2525, 0xb4); (0x2526, 0xb4); (0x2527, 0xb4); (0x2528, 0xb4);
    (0x2529, 0xb4); (0x252a, 0xb4); (0x252d, 0xc2); (0x252e, 0xc2); (0x252f, 0xc2); (0x2530, 0xc2);
    (0x2531, 0xc2); (0x2532, 0xc2); (0x2535, 0xc1); (0x2536, 0xc1); (0x2537, 0xc1); (0x2538, 0xc1);
    (0x2539, 0xc1); (0x253a, 0xc1); (0x253d, 0xc5); (0x253e, 0xc5); (0x253f, 0xc5); (0x2540, 0xc5);
    (0x2541, 0xc5); (0x2542, 0xc5); (0x2543, 0xc5); (0x2544, 0xc5); (0x2545, 0xc5); (0x2546, 0xc5);
    (0x2547, 0xc5); (0x2548, 0xc5); (0x2549, 0xc5); (0x254a, 0xc5); (0x2504, 0xc4); (0x2505, 0xc4);
    (0x2506, 0xb3); (0x2507, 0xb3); (0x2508, 0xc4); (0x2509, 0xc4); (0x250a, 0xb3); (0x250b, 0xb3);
    (0x2574, 0xc4); (0x2575, 0xb3); (0x2576, 0xc4); (0x2577, 0xb3); (0x2578, 0xc4); (0x2579, 0xb3);
    (0x257a, 0xc4); (0x257b, 0xb3); (0x257c, 0xc4); (0x257d, 0xb3); (0x257e, 0xc4); (0x257f, 0xb3);
    (0x25b3, 30); (0x25b5, 30); (0x25b7, 16); (0x25b9, 16); (0x25bd, 31); (0x25bf, 31); (0x25c1, 17);
    (0x25c3, 17); (0x2581, 0xdc); (0x2582, 0xdc); (0x2583, 0xdc); (0x2585, 0xdc); (0x2586, 0xdb);
    (0x2587, 0xdb); (0x2589, 0xdb); (0x258a, 0xdb); (0x258b, 0xdd); (0x258d, 0xdd); (0x258e, 0xdd);
    (0x258f, 0xdd); (0x2594, 0xdf); (0x2595, 0xde); (0x2596, 0xdc); (0x2597, 0xdc); (0x2598, 0xdf);
    (0x2599, 0xdb); (0x259a, 0xb1); (0x259b, 0xdb); (0x259c, 0xdb); (0x259d, 0xdf); (0x259e, 0xb1);
    (0x259f, 0xdb); (0x25cf, 0x07); (0x25c9, 0x0a); (0x25ef, 0x09); (0x25e6, 0x09); (0x25aa, 0xfe);
    (0x25fc, 0xfe)
  ].
Definition cp437_shapes : list (Z * Z) :=
  [
    (0x2010, 0x2d); (0x2011, 0x2d); (0x2012, 0x2d); (0x2013, 0x2d); (0x2014, 0x2d); (0x2018, 0x27);
    (0x2019, 0x27); (0x201c, 0x22); (0x201d, 0x22); (0x2026, 0xfa); (0x2212, 0x2d); (0x2713, 0xfb);
    (0x2714, 0xfb); (0x21d0, 27); (0x21d1, 24); (0x21d2, 26); (0x21d3, 25); (0x21d4, 29); (0x21d5, 18);
    (0x2211, 0xe4); (0x2015, 0xc4); (0x23af, 0xc4); (0x23f4, 17); (0x23f5, 16); (0x23f6, 30); (0x23f7, 31);
    (0x23f8, 0xba); (0x23f9, 0xfe); (0x23fa, 0x07); (0x23a1, 0xda); (0x23a2, 0xb3); (0x23a3, 0xc0);
    (0x23a4, 0xbf); (0x23a5, 0xb3); (0x23a6, 0xd9); (0x23a7, 0xda); (0x23a8, 0xc3); (0x23a9, 0xc0);
    (0x23aa, 0xb3); (0x23ab, 0xbf); (0x23ac, 0xb4); (0x23ad, 0xd9); (0x23ae, 0xb3); (0x23b8, 0xb3);
    (0x23b9, 0xb3); (0x23ba, 0xc4); (0x23bb, 0xc4); (0x23bc, 0xc4); (0x23be, 0xb3); (0x23bf, 0xc0);
    (0x231c, 0xda); (0x231d, 0xbf); (0x231e, 0xc0); (0x231f, 0xd9)
  ].

Definition cp437_cases : list (Z * Z) :=
  cp437_controls ++ cp437_ascii ++ cp437_upper ++ cp437_lines ++ cp437_shapes.

Fixpoint switch (cases : list (Z * Z)) (v : Z) : option Z :=
  match cases with
  | [] => None
  | (c, r) :: cases => if v =? c then Some r else switch cases v
  end.

Definition unicode_to_cp437 (code_point : Z) : Z :=
  if (code_point >=? 0x2800) && (code_point <=? 0x28ff) then cp437_braille code_point else
  match switch cp437_cases code_point with Some r => r | None => -1 end.

(** The line-drawing characters of the DEC special set, by the ASCII code that selects them. *)
Definition dec_special : list (Z * Z) :=
  [
    (96, 0x04); (48, 0xdb); (45, 0x18); (44, 0x1b); (46, 0x19); (97, 0xb1); (102, 0xf8); (103, 0xf1);
    (104, 0xb0); (106, 0xd9); (107, 0xbf); (108, 0xda); (109, 0xc0); (110, 0xc5); (113, 0xc4); (115, 0x5f);
    (116, 0xc3); (117, 0xb4); (118, 0xc1); (119, 0xc2); (120, 0xb3); (121, 0xf3); (122, 0xf2); (126, 0xfa);
    (95, 0xff); (43, 0x1a); (123, 0xe3); (125, 0x9c)
  ].

(** ** Widths of characters

    The binary search of flanterm.c in a table of intervals against a search
    through the whole table, and the widths that follow. *)

(** The intervals are not empty, in ascending order and apart, and above [lo]. *)
Fixpoint ascending (lo : Z) (table : list interval) : bool :=
  match table with
  | [] => true
  | e :: table => (lo <? iv_first e) && (iv_first e <=? iv_last e) && ascending (iv_last e) table
  end.
Definition inside (ucs : Z) (e : interval) : bool := (iv_first e <=? ucs) && (ucs <=? iv_last e).
Definition in_table (ucs : Z) (table : list interval) : bool := existsb (inside ucs) table.

Lemma ascending_lookup lo table i e : ascending lo table = true → table !! i = Some e → lo < iv_first e ≤ iv_last e.
Proof.
  revert lo i. induction table as [|x table IH]; [done|]. intros lo i [[Hlo Hx]%andb_true_iff Ht]%andb_true_iff.
  destruct i as [|i]; cbn; [intros [= ->]; lia|]. intros He. specialize (IH _ _ Ht He). lia.
Qed.
Lemma ascending_apart lo table i j a b : ascending lo table = true → (i < j)%nat →
  table !! i = Some a → table !! j = Some b → iv_last a < iv_first b.
Proof.
  revert lo i j. induction table as [|x table IH]; [done|]. intros lo i j [[Hlo Hx]%andb_true_iff Ht]%andb_true_iff Hij.
  destruct i as [|i], j as [|j]; cbn; [lia| |lia|intros; eapply (IH _ i j); eauto with lia].
  intros [= ->] Hb. by eapply ascending_lookup in Hb as [? _].
Qed.

Lemma in_table_lookup ucs table : in_table ucs table = true ↔ ∃ i e, table !! i = Some e ∧ inside ucs e = true.
Proof.
  unfold in_table. rewrite existsb_exists. split.
  - intros (e & [i Hi]%list_elem_of_In%list_elem_of_lookup & He). by exists i, e.
  - intros (i & e & Hi%list_elem_of_lookup_2%list_elem_of_In & He). by exists e.
Qed.

Lemma zlookup_nat {A} (l : list A) i x : 0 ≤ i → zlookup l i = Some x → l !! Z.to_nat i = Some x.
Proof. intros Hi. unfold zlookup. by destruct (Z.ltb_spec i 0); [lia|]. Qed.

(** The loop decides membership when only the entries from [min] to [max] can
    hold the character. *)
Lemma bisearch_loop_correct lo ucs table fuel min max : ascending lo table = true → 0 ≤ min → max < Z.of_nat (length table) →
  max - min + 1 ≤ Z.of_nat fuel →
  (∀ i e, table !! i = Some e → inside ucs e = true → min ≤ Z.of_nat i ≤ max) →
  bisearch_loop fuel ucs table min max = Ok (Z.b2z (in_table ucs table)).
Proof.
  intros Ht. revert min max. induction fuel as [|fuel IH]; intros min max Hmin Hmax Hf Hin; cbn [bisearch_loop];
    (destruct (Z.geb_spec max min); cbn [negb]; [|destruct (in_table ucs table) eqn:E; [|done];
      apply in_table_lookup in E as (i & e & Hi & He); specialize (Hin i e Hi He); lia]); [lia|].
  cbv zeta. rewrite Z.quot_div_nonneg by lia. set (mid := (min + max) / 2). assert (min ≤ mid ≤ max) by (unfold mid; split; [apply Z.div_le_lower_bound|apply Z.div_le_upper_bound]; lia).
  unfold at_entry. destruct (zlookup_lt table mid) as [e He]; [lia|]. rewrite He. apply zlookup_nat in He; [|lia].
  assert (Hlow : ∀ i x, table !! i = Some x → inside ucs x = true → iv_last e < ucs → mid < Z.of_nat i).
  { intros i x Hi [_ Hx]%andb_true_iff Hlt. destruct (decide (Z.of_nat i ≤ mid)) as [Hle|]; [|lia]. exfalso.
    destruct (decide (i = Z.to_nat mid)) as [->|]; [rewrite He in Hi; injection Hi as <-; lia|].
    pose proof (ascending_apart _ _ i (Z.to_nat mid) _ _ Ht ltac:(lia) Hi He). pose proof (ascending_lookup _ _ _ _ Ht He). lia. }
  assert (Hhigh : ∀ i x, table !! i = Some x → inside ucs x = true → ucs < iv_first e → Z.of_nat i < mid).
  { intros i x Hi [Hx _]%andb_true_iff Hlt. destruct (decide (mid ≤ Z.of_nat i)) as [Hle|]; [|lia]. exfalso.
    destruct (decide (i = Z.to_nat mid)) as [->|]; [rewrite He in Hi; injection Hi as <-; lia|].
    pose proof (ascending_apart _ _ (Z.to_nat mid) i _ _ Ht ltac:(lia) He Hi). pose proof (ascending_lookup _ _ _ _ Ht He). lia. }
  destruct (Z.gtb_spec ucs (iv_last e)); [|destruct (Z.ltb_spec ucs (iv_first e))].
  - apply IH; [lia|lia|lia|]. intros i x Hi Hx. specialize (Hin i x Hi Hx). specialize (Hlow i x Hi Hx). lia.
  - apply IH; [lia|lia|lia|]. intros i x Hi Hx. specialize (Hin i x Hi Hx). specialize (Hhigh i x Hi Hx). lia.
  - replace (in_table ucs table) with true; [done|]. symmetry. apply in_table_lookup. exists (Z.to_nat mid), e.
    split; [done|]. unfold inside. apply andb_true_iff. lia.
Qed.

Lemma bisearch_correct lo ucs table : ascending lo table = true → table ≠ [] →
  bisearch ucs table (table_max table) = Ok (Z.b2z (in_table ucs table)).
Proof.
  intros Ht Hne. assert (0 < length table)%nat by (destruct table; [done|cbn; lia]).
  unfold bisearch, at_entry, table_max. destruct (zlookup_lt table 0) as [a Ha]; [lia|]. rewrite Ha.
  destruct (zlookup_lt table (Z.of_nat (length table) - 1)) as [b Hb]; [lia|]. rewrite Hb.
  apply zlookup_nat in Ha; [|lia]. apply zlookup_nat in Hb; [|lia].
  assert (Hin : ∀ i e, table !! i = Some e → inside ucs e = true → iv_first a ≤ ucs ≤ iv_last b).
  { intros i e Hi [H1 H2]%andb_true_iff. pose proof (lookup_lt_Some _ _ _ Hi). split.
    - destruct i as [|i]; [change (Z.to_nat 0) with 0%nat in Ha; rewrite Ha in Hi; injection Hi as <-; lia|].
      pose proof (ascending_apart _ _ _ _ _ _ Ht (Nat.lt_0_succ i) Ha Hi). pose proof (ascending_lookup _ _ _ _ Ht Ha). lia.
    - destruct (decide (i = Z.to_nat (Z.of_nat (length table) - 1))) as [->|]; [rewrite Hb in Hi; injection Hi as <-; lia|].
      pose proof (ascending_apart _ _ i (Z.to_nat (Z.of_nat (length table) - 1)) _ _ Ht ltac:(lia) Hi Hb).
      pose proof (ascending_lookup _ _ _ _ Ht Hb). lia. }
  assert (Hout : (iv_first a ≤ ucs ≤ iv_last b → False) → in_table ucs table = false).
  { intros Hn. destruct (in_table ucs table) eqn:E; [|done]. apply in_table_lookup in E as (i & e & Hi & He). by specialize (Hin i e Hi He). }
  destruct (Z.ltb_spec ucs (iv_first a)); [by rewrite Hout by lia|]. destruct (Z.gtb_spec ucs (iv_last b)); [by rewrite Hout by lia|].
  eapply bisearch_loop_correct; [done|lia|lia|lia|]. intros i e Hi _. pose proof (lookup_lt_Some _ _ _ Hi). lia.
Qed.

(** The width, by membership in the tables *)
Definition char_width (ucs : Z) : Z :=
  if ucs =? 0 then 0 else
  if (ucs <? 32) || ((ucs >=? 0x7f) && (ucs <? 0xa0)) then -1 else
  if in_table ucs combining then 0 else if in_table ucs wide then 2 else 1.

Lemma combining_ascending : ascending 0 combining = true.
Proof. by vm_compute. Qed.
Lemma wide_ascending : ascending 0 wide = true.
Proof. by vm_compute. Qed.

Lemma mk_wcwidth_eq ucs : mk_wcwidth ucs = Ok (char_width ucs).
Proof.
  unfold mk_wcwidth, char_width. destruct (ucs =? 0); [done|]. destruct (_ || _); [done|].
  rewrite (bisearch_correct 0 ucs combining combining_ascending) by done. destruct (in_table ucs combining); [done|]. cbn [Z.b2z].
  rewrite (bisearch_correct 0 ucs wide wide_ascending) by done. by destruct (in_table ucs wide).
Qed.
Lemma char_width_range ucs : -1 ≤ char_width ucs ≤ 2.
Proof. unfold char_width. repeat case_match; lia. Qed.
