(* ===== verification/Term.v ===== *)
(** * The terminal

    src/kernel/main/terminal/src/flanterm.c, a terminal emulator: the parser of
    text, UTF-8 and escape sequences as a state machine on bytes.  The screen
    behind it is an interface of function pointers, here the class [Backend].
    [struct flanterm_context] is split into the modes, the state of the parser,
    the look that is saved and restored as a whole, and the geometry; the
    [saved_state_...] fields are a second [look].  The calls of the client's
    callback are a log. *)
From Stdlib Require Import ZArith Lia Ascii String.
From stdpp Require Import base option list.
From S2P Require Import Prelude Print TermTables.

(** ** The context *)

Record modes := mkModes {
  tab_size : Z; autoflush : bool; cursor_enabled : bool; scroll_enabled : bool; wrap_enabled : bool;
  insert_mode : bool;
}.

Record parser := mkParser {
  control_sequence : bool; escape : bool; osc : bool; osc_escape : bool; rrr : bool; discard_next : bool;
  dec_private : bool; csi_unhandled : bool; osc_buf_i : Z; code_point : Z; unicode_remaining : Z;
  g_select : Z; escape_offset : Z; esc_values_i : Z; osc_buf : list Z; esc_values : list Z;
}.

Record look := mkLook {
  bold : bool; bg_bold : bool; reverse_video : bool; origin_mode : bool; current_charset : Z;
  current_primary : Z; current_bg : Z; charsets : list Z;
}.

Record geom := mkGeom {
  rows : Z; cols : Z; scroll_top_margin : Z; scroll_bottom_margin : Z; saved_cursor_x : Z; saved_cursor_y : Z;
}.

Record context := mkContext {
  ctx_modes : modes; ctx_parser : parser; ctx_look : look; ctx_saved : look; ctx_geom : geom;
  last_printed_char : Z; last_was_graphic : bool; callback : bool;
}.

Definition set_autoflush (v : bool) (m : modes) : modes :=
  mkModes (tab_size m) v (cursor_enabled m) (scroll_enabled m) (wrap_enabled m) (insert_mode m).
Definition set_cursor_enabled (v : bool) (m : modes) : modes :=
  mkModes (tab_size m) (autoflush m) v (scroll_enabled m) (wrap_enabled m) (insert_mode m).
Definition set_scroll_enabled (v : bool) (m : modes) : modes :=
  mkModes (tab_size m) (autoflush m) (cursor_enabled m) v (wrap_enabled m) (insert_mode m).
Definition set_wrap_enabled (v : bool) (m : modes) : modes :=
  mkModes (tab_size m) (autoflush m) (cursor_enabled m) (scroll_enabled m) v (insert_mode m).
Definition set_insert_mode (v : bool) (m : modes) : modes :=
  mkModes (tab_size m) (autoflush m) (cursor_enabled m) (scroll_enabled m) (wrap_enabled m) v.

Definition set_control_sequence (v : bool) (p : parser) : parser :=
  mkParser v (escape p) (osc p) (osc_escape p) (rrr p) (discard_next p) (dec_private p) (csi_unhandled p)
    (osc_buf_i p) (code_point p) (unicode_remaining p) (g_select p) (escape_offset p) (esc_values_i p)
    (osc_buf p) (esc_values p).
Definition set_escape (v : bool) (p : parser) : parser :=
  mkParser (control_sequence p) v (osc p) (osc_escape p) (rrr p) (discard_next p) (dec_private p)
    (csi_unhandled p) (osc_buf_i p) (code_point p) (unicode_remaining p) (g_select p) (escape_offset p)
    (esc_values_i p) (osc_buf p) (esc_values p).
Definition set_osc (v : bool) (p : parser) : parser :=
  mkParser (control_sequence p) (escape p) v (osc_escape p) (rrr p) (discard_next p) (dec_private p)
    (csi_unhandled p) (osc_buf_i p) (code_point p) (unicode_remaining p) (g_select p) (escape_offset p)
    (esc_values_i p) (osc_buf p) (esc_values p).
Definition set_osc_escape (v : bool) (p : parser) : parser :=
  mkParser (control_sequence p) (escape p) (osc p) v (rrr p) (discard_next p) (dec_private p) (csi_unhandled p)
    (osc_buf_i p) (code_point p) (unicode_remaining p) (g_select p) (escape_offset p) (esc_values_i p)
    (osc_buf p) (esc_values p).
Definition set_rrr (v : bool) (p : parser) : parser :=
  mkParser (control_sequence p) (escape p) (osc p) (osc_escape p) v (discard_next p) (dec_private p)
    (csi_unhandled p) (osc_buf_i p) (code_point p) (unicode_remaining p) (g_select p) (escape_offset p)
    (esc_values_i p) (osc_buf p) (esc_values p).
Definition set_discard_next (v : bool) (p : parser) : parser :=
  mkParser (control_sequence p) (escape p) (osc p) (osc_escape p) (rrr p) v (dec_private p) (csi_unhandled p)
    (osc_buf_i p) (code_point p) (unicode_remaining p) (g_select p) (escape_offset p) (esc_values_i p)
    (osc_buf p) (esc_values p).
Definition set_dec_private (v : bool) (p : parser) : parser :=
  mkParser (control_sequence p) (escape p) (osc p) (osc_escape p) (rrr p) (discard_next p) v (csi_unhandled p)
    (osc_buf_i p) (code_point p) (unicode_remaining p) (g_select p) (escape_offset p) (esc_values_i p)
    (osc_buf p) (esc_values p).
Definition set_csi_unhandled (v : bool) (p : parser) : parser :=
  mkParser (control_sequence p) (escape p) (osc p) (osc_escape p) (rrr p) (discard_next p) (dec_private p) v
    (osc_buf_i p) (code_point p) (unicode_remaining p) (g_select p) (escape_offset p) (esc_values_i p)
    (osc_buf p) (esc_values p).
Definition set_osc_buf_i (v : Z) (p : parser) : parser :=
  mkParser (control_sequence p) (escape p) (osc p) (osc_escape p) (rrr p) (discard_next p) (dec_private p)
    (csi_unhandled p) v (code_point p) (unicode_remaining p) (g_select p) (escape_offset p) (esc_values_i p)
    (osc_buf p) (esc_values p).
Definition set_code_point (v : Z) (p : parser) : parser :=
  mkParser (control_sequence p) (escape p) (osc p) (osc_escape p) (rrr p) (discard_next p) (dec_private p)
    (csi_unhandled p) (osc_buf_i p) v (unicode_remaining p) (g_select p) (escape_offset p) (esc_values_i p)
    (osc_buf p) (esc_values p).
Definition set_unicode_remaining (v : Z) (p : parser) : parser :=
  mkParser (control_sequence p) (escape p) (osc p) (osc_escape p) (rrr p) (discard_next p) (dec_private p)
    (csi_unhandled p) (osc_buf_i p) (code_point p) v (g_select p) (escape_offset p) (esc_values_i p) (osc_buf p)
    (esc_values p).
Definition set_g_select (v : Z) (p : parser) : parser :=
  mkParser (control_sequence p) (escape p) (osc p) (osc_escape p) (rrr p) (discard_next p) (dec_private p)
    (csi_unhandled p) (osc_buf_i p) (code_point p) (unicode_remaining p) v (escape_offset p) (esc_values_i p)
    (osc_buf p) (esc_values p).
Definition set_escape_offset (v : Z) (p : parser) : parser :=
  mkParser (control_sequence p) (escape p) (osc p) (osc_escape p) (rrr p) (discard_next p) (dec_private p)
    (csi_unhandled p) (osc_buf_i p) (code_point p) (unicode_remaining p) (g_select p) v (esc_values_i p)
    (osc_buf p) (esc_values p).
Definition set_esc_values_i (v : Z) (p : parser) : parser :=
  mkParser (control_sequence p) (escape p) (osc p) (osc_escape p) (rrr p) (discard_next p) (dec_private p)
    (csi_unhandled p) (osc_buf_i p) (code_point p) (unicode_remaining p) (g_select p) (escape_offset p) v
    (osc_buf p) (esc_values p).
Definition set_osc_buf (v : list Z) (p : parser) : parser :=
  mkParser (control_sequence p) (escape p) (osc p) (osc_escape p) (rrr p) (discard_next p) (dec_private p)
    (csi_unhandled p) (osc_buf_i p) (code_point p) (unicode_remaining p) (g_select p) (escape_offset p)
    (esc_values_i p) v (esc_values p).
Definition set_esc_values (v : list Z) (p : parser) : parser :=
  mkParser (control_sequence p) (escape p) (osc p) (osc_escape p) (rrr p) (discard_next p) (dec_private p)
    (csi_unhandled p) (osc_buf_i p) (code_point p) (unicode_remaining p) (g_select p) (escape_offset p)
    (esc_values_i p) (osc_buf p) v.

Definition set_bold (v : bool) (l : look) : look :=
  mkLook v (bg_bold l) (reverse_video l) (origin_mode l) (current_charset l) (current_primary l) (current_bg l)
    (charsets l).
Definition set_bg_bold (v : bool) (l : look) : look :=
  mkLook (bold l) v (reverse_video l) (origin_mode l) (current_charset l) (current_primary l) (current_bg l)
    (charsets l).
Definition set_reverse_video (v : bool) (l : look) : look :=
  mkLook (bold l) (bg_bold l) v (origin_mode l) (current_charset l) (current_primary l) (current_bg l) (charsets l).
Definition set_origin_mode (v : bool) (l : look) : look :=
  mkLook (bold l) (bg_bold l) (reverse_video l) v (current_charset l) (current_primary l) (current_bg l) (charsets l).
Definition set_current_charset (v : Z) (l : look) : look :=
  mkLook (bold l) (bg_bold l) (reverse_video l) (origin_mode l) v (current_primary l) (current_bg l) (charsets l).
Definition set_current_primary (v : Z) (l : look) : look :=
  mkLook (bold l) (bg_bold l) (reverse_video l) (origin_mode l) (current_charset l) v (current_bg l) (charsets l).
Definition set_current_bg (v : Z) (l : look) : look :=
  mkLook (bold l) (bg_bold l) (reverse_video l) (origin_mode l) (current_charset l) (current_primary l) v
    (charsets l).
Definition set_charsets (v : list Z) (l : look) : look :=
  mkLook (bold l) (bg_bold l) (reverse_video l) (origin_mode l) (current_charset l) (current_primary l)
    (current_bg l) v.

Definition set_scroll_top_margin (v : Z) (g : geom) : geom :=
  mkGeom (rows g) (cols g) v (scroll_bottom_margin g) (saved_cursor_x g) (saved_cursor_y g).
Definition set_scroll_bottom_margin (v : Z) (g : geom) : geom :=
  mkGeom (rows g) (cols g) (scroll_top_margin g) v (saved_cursor_x g) (saved_cursor_y g).
Definition set_saved_cursor_x (v : Z) (g : geom) : geom :=
  mkGeom (rows g) (cols g) (scroll_top_margin g) (scroll_bottom_margin g) v (saved_cursor_y g).
Definition set_saved_cursor_y (v : Z) (g : geom) : geom :=
  mkGeom (rows g) (cols g) (scroll_top_margin g) (scroll_bottom_margin g) (saved_cursor_x g) v.

Definition set_ctx_modes (v : modes) (c : context) : context :=
  mkContext v (ctx_parser c) (ctx_look c) (ctx_saved c) (ctx_geom c) (last_printed_char c) (last_was_graphic c)
    (callback c).
Definition set_ctx_parser (v : parser) (c : context) : context :=
  mkContext (ctx_modes c) v (ctx_look c) (ctx_saved c) (ctx_geom c) (last_printed_char c) (last_was_graphic c)
    (callback c).
Definition set_ctx_look (v : look) (c : context) : context :=
  mkContext (ctx_modes c) (ctx_parser c) v (ctx_saved c) (ctx_geom c) (last_printed_char c) (last_was_graphic c)
    (callback c).
Definition set_ctx_saved (v : look) (c : context) : context :=
  mkContext (ctx_modes c) (ctx_parser c) (ctx_look c) v (ctx_geom c) (last_printed_char c) (last_was_graphic c)
    (callback c).
Definition set_ctx_geom (v : geom) (c : context) : context :=
  mkContext (ctx_modes c) (ctx_parser c) (ctx_look c) (ctx_saved c) v (last_printed_char c) (last_was_graphic c)
    (callback c).
Definition set_last_printed_char (v : Z) (c : context) : context :=
  mkContext (ctx_modes c) (ctx_parser c) (ctx_look c) (ctx_saved c) (ctx_geom c) v (last_was_graphic c) (callback c).
Definition set_last_was_graphic (v : bool) (c : context) : context :=
  mkContext (ctx_modes c) (ctx_parser c) (ctx_look c) (ctx_saved c) (ctx_geom c) (last_printed_char c) v (callback c).
Definition set_callback (v : bool) (c : context) : context :=
  mkContext (ctx_modes c) (ctx_parser c) (ctx_look c) (ctx_saved c) (ctx_geom c) (last_printed_char c)
    (last_was_graphic c) v.

Definition FLANTERM_MAX_ESC_VALUES : Z := 16.
Definition CHARSET_DEFAULT : Z := 0.
Definition CHARSET_DEC_SPECIAL : Z := 1.
(** [(size_t)-1], the default colour; [(size_t)-2], a colour outside of the palette *)
Definition SIZE_MAX : Z := u64 (-1).
Definition NO_INDEX : Z := u64 (-2).

Definition reset_look : look :=
  mkLook false false false false 0 SIZE_MAX SIZE_MAX [CHARSET_DEFAULT; CHARSET_DEC_SPECIAL].
Definition flanterm_context_reinit (c : context) : context :=
  let p := ctx_parser c in
  let g := ctx_geom c in
  mkContext (mkModes 8 true true true true false)
    (mkParser false false false false false false false false
       (osc_buf_i p) (code_point p) 0 0 0 0 (osc_buf p) (esc_values p))
    reset_look reset_look
    (mkGeom (rows g) (cols g) 0 (rows g) 0 0) (ch " ") false (callback c).

(** ** The screen and the client *)

(** Every function pointer of the context that the terminal calls; none of
    them changes the context. *)
Class Backend (B : Type) := {
  be_raw_putchar : context → Z → M B unit;
  be_clear : context → bool → M B unit;
  be_set_cursor_pos : context → Z → Z → M B unit;
  be_get_cursor_pos : context → M B (Z * Z);
  be_set_text_fg : context → Z → M B unit;
  be_set_text_bg : context → Z → M B unit;
  be_set_text_fg_bright : context → Z → M B unit;
  be_set_text_bg_bright : context → Z → M B unit;
  be_set_text_fg_rgb : context → Z → M B unit;
  be_set_text_bg_rgb : context → Z → M B unit;
  be_set_text_fg_default : context → M B unit;
  be_set_text_bg_default : context → M B unit;
  be_set_text_fg_default_bright : context → M B unit;
  be_set_text_bg_default_bright : context → M B unit;
  be_move_character : context → Z → Z → Z → Z → M B unit;
  be_scroll : context → M B unit;
  be_revscroll : context → M B unit;
  be_swap_palette : context → M B unit;
  be_save_state : context → M B unit;
  be_restore_state : context → M B unit;
  be_double_buffer_flush : context → M B unit;
  be_full_refresh : context → M B unit;
  be_deinit : context → bool → M B unit;
}.

(** A call of [callback]: its number, its three arguments, and what a pointer
    among them leads to. *)
Inductive event := Event (what a b c : Z) (data : list Z).
Definition FLANTERM_CB_DEC : Z := 10.
Definition FLANTERM_CB_BELL : Z := 20.
Definition FLANTERM_CB_PRIVATE_ID : Z := 30.
Definition FLANTERM_CB_STATUS_REPORT : Z := 40.
Definition FLANTERM_CB_POS_REPORT : Z := 50.
Definition FLANTERM_CB_KBD_LEDS : Z := 60.
Definition FLANTERM_CB_MODE : Z := 70.
Definition FLANTERM_CB_LINUX : Z := 80.
Definition FLANTERM_CB_OSC : Z := 90.

Record terminal (B : Type) := mkTerminal { t_ctx : context; t_be : B; t_calls : list event }.
Arguments mkTerminal {B}.
Arguments t_ctx {B}.
Arguments t_be {B}.
Arguments t_calls {B}.

Section terminal_ops.
Context {B : Type} `{Backend B}.

Definition set_ctx (c : context) (t : terminal B) : terminal B := mkTerminal c (t_be t) (t_calls t).
Definition peek {A} (f : context → A) : M (terminal B) A := gets (λ t, f (t_ctx t)).
Definition poke (f : context → context) : M (terminal B) unit := modify (λ t, set_ctx (f (t_ctx t)) t).
Definition upd_modes (f : modes → modes) : M (terminal B) unit := poke (λ c, set_ctx_modes (f (ctx_modes c)) c).
Definition upd_parser (f : parser → parser) : M (terminal B) unit := poke (λ c, set_ctx_parser (f (ctx_parser c)) c).
Definition upd_look (f : look → look) : M (terminal B) unit := poke (λ c, set_ctx_look (f (ctx_look c)) c).
Definition upd_geom (f : geom → geom) : M (terminal B) unit := poke (λ c, set_ctx_geom (f (ctx_geom c)) c).

(** A call through a function pointer of the context. *)
Definition backend {A} (op : context → M B A) : M (terminal B) A := λ t,
  match op (t_ctx t) (t_be t) with
  | Ok (a, b) => Ok (a, mkTerminal (t_ctx t) b (t_calls t))
  | Halt => Halt
  | Fault => Fault
  | Spin => Spin
  end.

Definition raw_putchar (c : Z) : M (terminal B) unit := backend (λ x, be_raw_putchar x (u8 c)).
Definition clear (move : bool) : M (terminal B) unit := backend (λ x, be_clear x move).
Definition set_cursor_pos (x y : Z) : M (terminal B) unit := backend (λ c, be_set_cursor_pos c x y).
Definition get_cursor_pos : M (terminal B) (Z * Z) := backend be_get_cursor_pos.
Definition set_text_fg (fg : Z) : M (terminal B) unit := backend (λ c, be_set_text_fg c fg).
Definition set_text_bg (bg : Z) : M (terminal B) unit := backend (λ c, be_set_text_bg c bg).
Definition set_text_fg_bright (fg : Z) : M (terminal B) unit := backend (λ c, be_set_text_fg_bright c fg).
Definition set_text_bg_bright (bg : Z) : M (terminal B) unit := backend (λ c, be_set_text_bg_bright c bg).
Definition set_text_fg_rgb (fg : Z) : M (terminal B) unit := backend (λ c, be_set_text_fg_rgb c fg).
Definition set_text_bg_rgb (bg : Z) : M (terminal B) unit := backend (λ c, be_set_text_bg_rgb c bg).
Definition set_text_fg_default : M (terminal B) unit := backend be_set_text_fg_default.
Definition set_text_bg_default : M (terminal B) unit := backend be_set_text_bg_default.
Definition set_text_fg_default_bright : M (terminal B) unit := backend be_set_text_fg_default_bright.
Definition set_text_bg_default_bright : M (terminal B) unit := backend be_set_text_bg_default_bright.
Definition move_character (new_x new_y old_x old_y : Z) : M (terminal B) unit :=
  backend (λ c, be_move_character c new_x new_y old_x old_y).
Definition scroll : M (terminal B) unit := backend be_scroll.
Definition revscroll : M (terminal B) unit := backend be_revscroll.
Definition swap_palette : M (terminal B) unit := backend be_swap_palette.

(** [if (ctx->callback != NULL) ctx->callback(ctx, what, a, b, c);] *)
Definition report (what a b c : Z) (data : list Z) : M (terminal B) unit := modify (λ t,
  if callback (t_ctx t) then mkTerminal (t_ctx t) (t_be t) (t_calls t ++ [Event what a b c data]) else t).

(** [for (size_t i = hi; i >= lo; i--)]; with [lo = 0] the condition always holds. *)
Definition down_to (lo hi : Z) (body : Z → M (terminal B) unit) : M (terminal B) unit :=
  if lo =? 0 then spin else for_loop (Z.to_nat (hi + 1 - lo)) 0 (λ k, body (hi - k)).
Definition times (n : Z) (body : M (terminal B) unit) : M (terminal B) unit :=
  for_loop (Z.to_nat n) 0 (λ _, body).

(** An element of one of the arrays of the context. *)
Definition element {A} (a : option A) : M (terminal B) A :=
  match a with Some x => mret x | None => fault end.
Definition esc_value (i : Z) : M (terminal B) Z :=
  vs ← peek (λ c, esc_values (ctx_parser c)); element (zlookup vs i).
Definition set_esc_value (i v : Z) : M (terminal B) unit :=
  esc_value i;; upd_parser (λ p, set_esc_values (zinsert i (u32 v) (esc_values p)) p).

(** ** Colours: [sgr] *)

Definition sgr_reset : M (terminal B) unit :=
  rv ← peek (λ c, reverse_video (ctx_look c));
  when rv (upd_look (set_reverse_video false);; swap_palette);;
  upd_look (set_bold false);;
  upd_look (set_bg_bold false);;
  upd_look (set_current_primary SIZE_MAX);;
  upd_look (set_current_bg SIZE_MAX);;
  set_text_bg_default;;
  set_text_fg_default.

(** The colour [cur] is drawn again, in the other brightness: as [on] (or as
    [off] when foreground and background are exchanged), or as the default
    colour [on_default]. *)
Definition sgr_again (cur : Z) (on off : Z → M (terminal B) unit) (on_default off_default : M (terminal B) unit)
    : M (terminal B) unit :=
  rv ← peek (λ c, reverse_video (ctx_look c));
  if cur =? NO_INDEX then mret tt
  else if negb (cur =? SIZE_MAX) then (if negb rv then on cur else off cur)
  else (if negb rv then on_default else off_default).

(** The label [set_fg] *)
Definition sgr_set_fg (v offset : Z) : M (terminal B) unit :=
  l ← peek ctx_look;
  if (bold l && negb (reverse_video l)) || (bg_bold l && reverse_video l)
  then set_text_fg_bright (v - offset) else set_text_fg (v - offset).
(** The label [set_bg] *)
Definition sgr_set_bg (v offset : Z) : M (terminal B) unit :=
  l ← peek ctx_look;
  if (bold l && reverse_video l) || (bg_bold l && negb (reverse_video l))
  then set_text_bg_bright (v - offset) else set_text_bg (v - offset).

(** [swap_palette] around [f] when the video is reversed *)
Definition swapped (f : M (terminal B) unit) : M (terminal B) unit :=
  rv ← peek (λ c, reverse_video (ctx_look c));
  when rv swap_palette;;
  f;;
  rv ← peek (λ c, reverse_video (ctx_look c));
  when rv swap_palette.

Definition no_index (fg : bool) : M (terminal B) unit :=
  upd_look ((if fg then set_current_primary else set_current_bg) NO_INDEX).

(** A colour given by more parameters; [i] is the index of the parameter 38 or
    48.  The result is the index where the loop goes on, or [None] to leave it. *)
Definition sgr_extended (i v n : Z) : M (terminal B) (option Z) :=
  let fg := v =? 38 in
  rv ← peek (λ c, reverse_video (ctx_look c));
  let render_fg := if rv : bool then negb fg else fg in
  let i := u64 (i + 1) in
  if i >=? n then mret None else
  kind ← esc_value i;
  if kind =? 2 then
    if u64 (i + 3) >=? n then mret None else
    r ← esc_value (u64 (i + 1));
    g ← esc_value (u64 (i + 2));
    b ← esc_value (u64 (i + 3));
    let rgb_value := Z.lor (Z.lor (u32 (Z.shiftl (Z.land r 0xff) 16)) (u32 (Z.shiftl (Z.land g 0xff) 8))) (Z.land b 0xff) in
    no_index fg;;
    (if render_fg then set_text_fg_rgb rgb_value else set_text_bg_rgb rgb_value);;
    mret (Some (u64 (i + 3)))
  else if kind =? 5 then
    if u64 (i + 1) >=? n then mret None else
    col ← esc_value (u64 (i + 1));
    (if col <? 8 then
       no_index fg;;
       if render_fg then set_text_fg col else set_text_bg col
     else if col <? 16 then
       no_index fg;;
       if render_fg then set_text_fg_bright (col - 8) else set_text_bg_bright (col - 8)
     else if col <? 256 then
       no_index fg;;
       rgb_value ← element (zlookup col256 (col - 16));
       if render_fg then set_text_fg_rgb rgb_value else set_text_bg_rgb rgb_value
     else mret tt);;
    mret (Some (u64 (i + 1)))
  else mret (Some i).

Definition between (lo v hi : Z) : bool := (lo <=? v) && (v <=? hi).

(** One parameter, [v], which is not an extended colour *)
Definition sgr_simple (v : Z) : M (terminal B) unit :=
  l ← peek ctx_look;
  if v =? 0 then sgr_reset
  else if v =? 1 then
    upd_look (set_bold true);;
    sgr_again (current_primary l) set_text_fg_bright set_text_bg_bright set_text_fg_default_bright set_text_bg_default_bright
  else if (v =? 2) || (v =? 3) || (v =? 4) || (v =? 8) then mret tt
  else if v =? 5 then
    upd_look (set_bg_bold true);;
    sgr_again (current_bg l) set_text_bg_bright set_text_fg_bright set_text_bg_default_bright set_text_fg_default_bright
  else if v =? 22 then
    upd_look (set_bold false);;
    sgr_again (current_primary l) set_text_fg set_text_bg set_text_fg_default set_text_bg_default
  else if (v =? 23) || (v =? 24) || (v =? 28) then mret tt
  else if v =? 25 then
    upd_look (set_bg_bold false);;
    sgr_again (current_bg l) set_text_bg set_text_fg set_text_bg_default set_text_fg_default
  else if between 30 v 37 then
    upd_look (set_current_primary (v - 30));;
    if reverse_video l then sgr_set_bg v 30 else sgr_set_fg v 30
  else if between 40 v 47 then
    upd_look (set_current_bg (v - 40));;
    if reverse_video l then sgr_set_fg v 40 else sgr_set_bg v 40
  else if between 90 v 97 then
    upd_look (set_current_primary (v - 90));;
    if reverse_video l then set_text_bg_bright (v - 90) else set_text_fg_bright (v - 90)
  else if between 100 v 107 then
    upd_look (set_current_bg (v - 100));;
    if reverse_video l then set_text_fg_bright (v - 100) else set_text_bg_bright (v - 100)
  else if v =? 39 then
    upd_look (set_current_primary SIZE_MAX);;
    swapped (if negb (bold l) then set_text_fg_default else set_text_fg_default_bright)
  else if v =? 49 then
    upd_look (set_current_bg SIZE_MAX);;
    swapped (if negb (bg_bold l) then set_text_bg_default else set_text_bg_default_bright)
  else if v =? 7 then
    when (negb (reverse_video l)) (upd_look (set_reverse_video true);; swap_palette)
  else if v =? 27 then
    when (reverse_video l) (upd_look (set_reverse_video false);; swap_palette)
  else mret tt.

Fixpoint sgr_loop (fuel : nat) (i : Z) : M (terminal B) unit :=
  n ← peek (λ c, esc_values_i (ctx_parser c));
  if i >=? n then mret tt else
  match fuel with
  | O => spin
  | Datatypes.S fuel =>
      v ← esc_value i;
      if (v =? 38) || (v =? 48) then
        next ← sgr_extended i v n;
        match next with
        | Some i => sgr_loop fuel (u64 (i + 1))
        | None => mret tt
        end
      else sgr_simple v;; sgr_loop fuel (u64 (i + 1))
  end.

(** There are at most 16 parameters, and each round consumes one. *)
Definition sgr : M (terminal B) unit :=
  n ← peek (λ c, esc_values_i (ctx_parser c));
  if n =? 0 then sgr_reset else sgr_loop (Z.to_nat FLANTERM_MAX_ESC_VALUES) 0.

(** ** Saved state, private sequences, operating-system commands *)

Definition restore_state : M (terminal B) unit :=
  poke (λ c, set_ctx_look (ctx_saved c) c);;
  backend be_restore_state.
Definition save_state : M (terminal B) unit :=
  backend be_save_state;;
  poke (λ c, set_ctx_saved (ctx_look c) c).

(** The flag that [h] sets and [l] clears *)
Definition toggle (c : Z) : option bool :=
  if c =? ch "h" then Some true else if c =? ch "l" then Some false else None.

Definition dec_private_one (set : bool) (v : Z) : M (terminal B) unit :=
  if v =? 6 then
    upd_look (set_origin_mode set);;
    top ← peek (λ c, scroll_top_margin (ctx_geom c));
    set_cursor_pos 0 (if set then top else 0)
  else if v =? 7 then upd_modes (set_wrap_enabled set)
  else if v =? 25 then upd_modes (set_cursor_enabled set)
  else if v =? 1049 then
    if set then save_state;; clear true else clear true;; restore_state
  else mret tt.

Definition dec_private_parse (c : Z) : M (terminal B) unit :=
  upd_parser (set_dec_private false);;
  n ← peek (λ c, esc_values_i (ctx_parser c));
  if n =? 0 then mret tt else
  match toggle c with
  | None => mret tt
  | Some set =>
      for_loop (Z.to_nat n) 0 (λ i, v ← esc_value i; dec_private_one set v);;
      vs ← peek (λ c, esc_values (ctx_parser c));
      report FLANTERM_CB_DEC n 0 c (take (Z.to_nat n) vs)
  end.

Definition linux_private_parse : M (terminal B) unit :=
  n ← peek (λ c, esc_values_i (ctx_parser c));
  if n =? 0 then mret tt else
  vs ← peek (λ c, esc_values (ctx_parser c));
  report FLANTERM_CB_LINUX n 0 0 (take (Z.to_nat n) vs).

Definition mode_toggle (c : Z) : M (terminal B) unit :=
  n ← peek (λ c, esc_values_i (ctx_parser c));
  if n =? 0 then mret tt else
  match toggle c with
  | None => mret tt
  | Some set =>
      v ← esc_value 0;
      if v =? 4 then upd_modes (set_insert_mode set) else
      vs ← peek (λ c, esc_values (ctx_parser c));
      report FLANTERM_CB_MODE n 0 c (take (Z.to_nat n) vs)
  end.

Definition UINT64_MAX : Z := u64 (-1).

(** The number at the start of the command and the index behind it; [None] when
    it does not fit. *)
Fixpoint osc_number (buf : list Z) (osc_num i : Z) : option (Z * Z) :=
  match buf with
  | [] => Some (osc_num, i)
  | b :: buf =>
      if between (ch "0") b (ch "9") then
        let digit := b - ch "0" in
        if (osc_num >? UINT64_MAX / 10) || ((osc_num =? UINT64_MAX / 10) && (digit >? UINT64_MAX `mod` 10)) then None
        else osc_number buf (u64 (osc_num * 10 + digit)) (i + 1)
      else Some (osc_num, i)
  end.

Definition osc_finalize : M (terminal B) unit :=
  there ← peek callback;
  if there : bool then
    p ← peek ctx_parser;
    let used := take (Z.to_nat (osc_buf_i p)) (osc_buf p) in
    match osc_number used 0 0 with
    | None => mret tt
    | Some (osc_num, i) =>
        let i := match zlookup used i with Some b => if b =? ch ";" then i + 1 else i | None => i end in
        report FLANTERM_CB_OSC osc_num (u64 (osc_buf_i p - i)) 0 (drop (Z.to_nat i) used)
    end
  else mret tt.

Definition end_osc : M (terminal B) unit :=
  upd_parser (set_osc false);; upd_parser (set_osc_escape false);; upd_parser (set_escape false).

(** A byte of the command; what does not fit is dropped. *)
Definition osc_store (c : Z) : M (terminal B) unit :=
  p ← peek ctx_parser;
  if osc_buf_i p <? 256 then
    element (zlookup (osc_buf p) (osc_buf_i p));;
    upd_parser (λ p, set_osc_buf (zinsert (osc_buf_i p) (u8 c) (osc_buf p)) p);;
    upd_parser (λ p, set_osc_buf_i (osc_buf_i p + 1) p)
  else mret tt.

(** The result tells whether [c] was used up. *)
Definition osc_parse (c : Z) : M (terminal B) bool :=
  p ← peek ctx_parser;
  if osc_escape p then
    if c =? ch "\" then osc_finalize;; end_osc;; mret true
    else upd_parser (set_osc_escape false);; upd_parser (set_osc false);; mret false
  else
    (if c =? 0x1b then upd_parser (set_osc_escape true)
     else if c =? 0x07 then osc_finalize;; end_osc
     else osc_store c);;
    mret true.

(** ** Control characters *)

(** Down one line, or a scroll at the bottom margin; then the column is [x]. *)
Definition line_feed (x y : Z) : M (terminal B) unit :=
  g ← peek ctx_geom;
  if y =? u64 (scroll_bottom_margin g - 1) then scroll;; set_cursor_pos x y
  else if y <? u64 (rows g - 1) then set_cursor_pos x (y + 1)
  else mret tt.

Definition execute_c0 (c : Z) : M (terminal B) bool :=
  if c =? 0x07 then report FLANTERM_CB_BELL 0 0 0 [];; mret true
  else if c =? 0x08 then
    '(x, y) ← get_cursor_pos;
    when (x >? 0) (set_cursor_pos (x - 1) y);;
    mret true
  else if c =? 0x09 then
    '(x, y) ← get_cursor_pos;
    tab ← peek (λ c, tab_size (ctx_modes c));
    if tab =? 0 then fault else
    g ← peek ctx_geom;
    let x := u64 (u64 (x / tab + 1) * tab) in
    set_cursor_pos (if x >=? cols g then u64 (cols g - 1) else x) y;;
    mret true
  else if (c =? 0x0b) || (c =? 0x0c) || (c =? 0x0a) then
    '(x, y) ← get_cursor_pos;
    line_feed x y;;
    mret true
  else if c =? 0x0d then
    '(x, y) ← get_cursor_pos;
    set_cursor_pos 0 y;;
    mret true
  else if c =? 14 then upd_look (set_current_charset 1);; mret true
  else if c =? 15 then upd_look (set_current_charset 0);; mret true
  else mret false.

(** ** Control sequences *)

(** [n] spaces at the cursor *)
Definition spaces (n : Z) : M (terminal B) unit := times n (raw_putchar (ch " ")).

Definition csi_up (x y : Z) : M (terminal B) unit :=
  v ← esc_value 0;
  when (v >? y) (set_esc_value 0 y);;
  v ← esc_value 0;
  c ← peek id;
  let dest_y := u64 (y - v) in
  let min_y := if origin_mode (ctx_look c) then scroll_top_margin (ctx_geom c) else 0 in
  set_cursor_pos x (if dest_y <? min_y then min_y else dest_y).

Definition csi_down (x y : Z) : M (terminal B) unit :=
  v ← esc_value 0;
  c ← peek id;
  let g := ctx_geom c in
  when (u64 (y + v) >? u64 (rows g - 1)) (set_esc_value 0 (u64 (u64 (rows g - 1) - y)));;
  v ← esc_value 0;
  let dest_y := u64 (y + v) in
  let max_y := if origin_mode (ctx_look c) then scroll_bottom_margin g else rows g in
  set_cursor_pos x (if dest_y >=? max_y then u64 (max_y - 1) else dest_y).

Definition csi_right (x y : Z) : M (terminal B) unit :=
  v ← esc_value 0;
  g ← peek ctx_geom;
  when (u64 (x + v) >? u64 (cols g - 1)) (set_esc_value 0 (u64 (u64 (cols g - 1) - x)));;
  v ← esc_value 0;
  set_cursor_pos (u64 (x + v)) y.

Definition csi_left (x y : Z) : M (terminal B) unit :=
  v ← esc_value 0;
  when (v >? x) (set_esc_value 0 x);;
  v ← esc_value 0;
  set_cursor_pos (u64 (x - v)) y.

(** Parameter [i], counted from 1, as a 0-based index below [max] *)
Definition esc_index (i max : Z) : M (terminal B) unit :=
  v ← esc_value i;
  when (negb (v =? 0)) (set_esc_value i (v - 1));;
  v ← esc_value i;
  when (v >=? max) (set_esc_value i (u64 (max - 1))).

(** The number of rows that can be addressed, and the first of them *)
Definition row_range (c : context) : Z * Z :=
  let g := ctx_geom c in
  if origin_mode (ctx_look c) then (u64 (scroll_bottom_margin g - scroll_top_margin g), scroll_top_margin g) else (rows g, 0).

Definition csi_row (x : Z) : M (terminal B) unit :=
  '(max_row, row_offset) ← peek row_range;
  esc_index 0 max_row;;
  v ← esc_value 0;
  set_cursor_pos x (u64 (v + row_offset)).

Definition csi_column (y : Z) : M (terminal B) unit :=
  g ← peek ctx_geom;
  esc_index 0 (cols g);;
  v ← esc_value 0;
  set_cursor_pos v y.

Definition csi_position : M (terminal B) unit :=
  '(max_row, row_offset) ← peek row_range;
  g ← peek ctx_geom;
  esc_index 0 max_row;;
  esc_index 1 (cols g);;
  v0 ← esc_value 0;
  v1 ← esc_value 1;
  set_cursor_pos v1 (u64 (v0 + row_offset)).

(** Lines are deleted or inserted at the cursor by scrolling what is below. *)
Definition csi_lines (step : M (terminal B) unit) (y : Z) : M (terminal B) unit :=
  g ← peek ctx_geom;
  if (y <? scroll_top_margin g) || (y >=? scroll_bottom_margin g) then mret tt else
  upd_geom (set_scroll_top_margin y);;
  v ← esc_value 0;
  let max_count := u64 (scroll_bottom_margin g - y) in
  times (if v >? max_count then max_count else v) step;;
  upd_geom (set_scroll_top_margin (scroll_top_margin g)).

Definition csi_scroll (step : M (terminal B) unit) : M (terminal B) unit :=
  g ← peek ctx_geom;
  let region := u64 (scroll_bottom_margin g - scroll_top_margin g) in
  v ← esc_value 0;
  times (if v >? region then region else v) step.

Definition csi_report (x y : Z) : M (terminal B) unit :=
  v ← esc_value 0;
  if v =? 5 then report FLANTERM_CB_STATUS_REPORT 0 0 0 []
  else if v =? 6 then
    c ← peek id;
    let top := scroll_top_margin (ctx_geom c) in
    let report_y := if origin_mode (ctx_look c) && (y >=? top) then y - top else y in
    report FLANTERM_CB_POS_REPORT (x + 1) (report_y + 1) 0 []
  else mret tt.

(** Row [yc] filled with spaces *)
Definition blank_row (yc : Z) : M (terminal B) unit :=
  set_cursor_pos 0 yc;;
  n ← peek (λ c, cols (ctx_geom c));
  spaces n.

Definition csi_erase_display (x y : Z) : M (terminal B) unit :=
  g ← peek ctx_geom;
  v ← esc_value 0;
  if v =? 0 then
    set_cursor_pos x y;;
    spaces (cols g - x);;
    for_loop (Z.to_nat (rows g - (y + 1))) (y + 1) blank_row;;
    set_cursor_pos x y
  else if v =? 1 then
    for_loop (Z.to_nat y) 0 blank_row;;
    set_cursor_pos 0 y;;
    spaces (x + 1);;
    set_cursor_pos x y
  else if (v =? 2) || (v =? 3) then clear false
  else mret tt.

Definition csi_erase_line (x y : Z) : M (terminal B) unit :=
  g ← peek ctx_geom;
  v ← esc_value 0;
  if v =? 0 then set_cursor_pos x y;; spaces (cols g - x);; set_cursor_pos x y
  else if v =? 1 then set_cursor_pos 0 y;; spaces (x + 1);; set_cursor_pos x y
  else if v =? 2 then set_cursor_pos 0 y;; spaces (cols g);; set_cursor_pos x y
  else mret tt.

(** The characters from column [x] on move [n] columns to the right. *)
Definition shift_right (x y n : Z) : M (terminal B) unit :=
  m ← peek (λ c, cols (ctx_geom c));
  down_to (u64 (x + n)) (u64 (m - 1)) (λ i, move_character i y (u64 (i - n)) y).

Definition csi_insert (x y : Z) : M (terminal B) unit :=
  m ← peek (λ c, cols (ctx_geom c));
  n ← esc_value 0;
  if n =? 0 then mret tt else
  let n := if n >? u64 (m - x) then u64 (m - x) else n in
  shift_right x y n;;
  set_cursor_pos x y;;
  spaces n;;
  set_cursor_pos x y.

Definition csi_erase (x y : Z) : M (terminal B) unit :=
  '(cx, cy) ← get_cursor_pos;
  set_cursor_pos cx cy;;
  m ← peek (λ c, cols (ctx_geom c));
  v ← esc_value 0;
  let remaining := u64 (m - cx) in
  spaces (if v >? remaining then remaining else v);;
  set_cursor_pos x y.

Definition csi_delete (x y : Z) : M (terminal B) unit :=
  m ← peek (λ c, cols (ctx_geom c));
  v ← esc_value 0;
  when (v >? u64 (m - x)) (set_esc_value 0 (u64 (m - x)));;
  v ← esc_value 0;
  let lo := u64 (x + v) in
  for_loop (Z.to_nat (m - lo)) lo (λ i, move_character (u64 (i - v)) y i y);;
  set_cursor_pos (u64 (m - v)) y;;
  csi_erase x y.

Definition csi_margins : M (terminal B) unit :=
  n ← peek (λ c, esc_values_i (ctx_parser c));
  upd_geom (set_scroll_top_margin 0);;
  upd_geom (λ g, set_scroll_bottom_margin (rows g) g);;
  when (n >? 0) (v ← esc_value 0; upd_geom (set_scroll_top_margin (u32 (v - 1))));;
  when (n >? 1) (v ← esc_value 1; upd_geom (set_scroll_bottom_margin v));;
  g ← peek ctx_geom;
  when ((scroll_top_margin g >=? rows g) || (scroll_bottom_margin g >? rows g)
        || (scroll_top_margin g >=? u64 (scroll_bottom_margin g - 1)))
    (upd_geom (set_scroll_top_margin 0);; upd_geom (λ g, set_scroll_bottom_margin (rows g) g));;
  c ← peek id;
  set_cursor_pos 0 (if origin_mode (ctx_look c) then scroll_top_margin (ctx_geom c) else 0).

(** In insert mode the rest of the line moves before a character is drawn. *)
Definition repeat_one : M (terminal B) unit :=
  ins ← peek (λ c, insert_mode (ctx_modes c));
  when ins (
    '(ix, iy) ← get_cursor_pos;
    shift_right ix iy 1);;
  c ← peek last_printed_char;
  raw_putchar c.

Definition csi_repeat (r saved_wrap : bool) : M (terminal B) unit :=
  graphic ← peek last_was_graphic;
  if negb graphic then mret tt else
  upd_modes (set_scroll_enabled r);;
  upd_modes (set_wrap_enabled saved_wrap);;
  m ← peek (λ c, cols (ctx_geom c));
  v ← esc_value 0;
  times (if v >? m then m else v) repeat_one.

Definition unhandled (r saved_wrap : bool) : M (terminal B) unit :=
  upd_modes (set_scroll_enabled r);;
  upd_modes (set_wrap_enabled saved_wrap);;
  upd_parser (set_csi_unhandled true).

(** The final character [c] of a control sequence, with the cursor at [x], [y].
    The result tells whether the sequence ends here. *)
Definition csi_dispatch (r saved_wrap : bool) (c x y : Z) : M (terminal B) bool :=
  if c =? 0x1b then
    upd_modes (set_scroll_enabled r);;
    upd_modes (set_wrap_enabled saved_wrap);;
    upd_parser (set_control_sequence false);;
    upd_parser (set_escape_offset 0);;
    mret false
  else if c =? ch "F" then csi_up 0 y;; mret true
  else if c =? ch "A" then csi_up x y;; mret true
  else if c =? ch "E" then csi_down 0 y;; mret true
  else if (c =? ch "e") || (c =? ch "B") then csi_down x y;; mret true
  else if (c =? ch "a") || (c =? ch "C") then csi_right x y;; mret true
  else if c =? ch "D" then csi_left x y;; mret true
  else if c =? ch "c" then report FLANTERM_CB_PRIVATE_ID 0 0 0 [];; mret true
  else if c =? ch "d" then csi_row x;; mret true
  else if (c =? ch "G") || (c =? ch "`") then csi_column y;; mret true
  else if (c =? ch "H") || (c =? ch "f") then csi_position;; mret true
  else if c =? ch "M" then csi_lines scroll y;; mret true
  else if c =? ch "L" then csi_lines revscroll y;; mret true
  else if c =? ch "n" then csi_report x y;; mret true
  else if c =? ch "q" then (v ← esc_value 0; report FLANTERM_CB_KBD_LEDS v 0 0 []);; mret true
  else if c =? ch "J" then csi_erase_display x y;; mret true
  else if c =? ch "@" then csi_insert x y;; mret true
  else if c =? ch "P" then csi_delete x y;; mret true
  else if c =? ch "X" then csi_erase x y;; mret true
  else if c =? ch "m" then sgr;; mret true
  else if c =? ch "s" then
    '(sx, sy) ← get_cursor_pos;
    upd_geom (set_saved_cursor_x sx);;
    upd_geom (set_saved_cursor_y sy);;
    mret true
  else if c =? ch "u" then
    g ← peek ctx_geom;
    set_cursor_pos (saved_cursor_x g) (saved_cursor_y g);;
    mret true
  else if c =? ch "K" then csi_erase_line x y;; mret true
  else if c =? ch "r" then csi_margins;; mret true
  else if (c =? ch "l") || (c =? ch "h") then mode_toggle c;; mret true
  else if c =? ch "S" then csi_scroll scroll;; mret true
  else if c =? ch "T" then csi_scroll revscroll;; mret true
  else if c =? ch "b" then csi_repeat r saved_wrap;; mret true
  else if c =? ch "]" then linux_private_parse;; mret true
  else if between 0x40 c 0x7e then mret true
  else unhandled r saved_wrap;; mret false.

Definition cleanup : M (terminal B) unit :=
  upd_parser (set_control_sequence false);; upd_parser (set_escape false).

(** A digit of the parameter that is being read *)
Definition csi_digit (c : Z) : M (terminal B) unit :=
  i ← peek (λ c, esc_values_i (ctx_parser c));
  if i =? FLANTERM_MAX_ESC_VALUES then mret tt else
  upd_parser (set_rrr true);;
  v ← esc_value i;
  if v >? (2 ^ 32 - 1) / 10 then mret tt else
  set_esc_value i (v * 10);;
  v ← esc_value i;
  let digit := c - ch "0" in
  if v >? u32 (2 ^ 32 - 1 - digit) then set_esc_value i (2 ^ 32 - 1) else
  set_esc_value i (v + digit).

(** The end of a parameter; the result tells whether [c] was used up. *)
Definition csi_separator (c : Z) : M (terminal B) bool :=
  p ← peek ctx_parser;
  if rrr p then
    upd_parser (set_esc_values_i (esc_values_i p + 1));;
    upd_parser (set_rrr false);;
    mret (c =? ch ";")
  else if c =? ch ";" then
    if esc_values_i p =? FLANTERM_MAX_ESC_VALUES then mret true else
    set_esc_value (esc_values_i p) 0;;
    upd_parser (set_esc_values_i (esc_values_i p + 1));;
    mret true
  else mret false.

Definition esc_default (c : Z) : Z :=
  if (c =? ch "J") || (c =? ch "K") || (c =? ch "q") || (c =? ch "m") || (c =? ch "c") || (c =? ch "]") then 0 else 1.

(** Parameters that are missing get the default, and so do zeros where it is 1. *)
Definition csi_defaults (c : Z) : M (terminal B) unit :=
  n ← peek (λ c, esc_values_i (ctx_parser c));
  let d := esc_default c in
  for_loop (Z.to_nat (FLANTERM_MAX_ESC_VALUES - n)) n (λ i, set_esc_value i d);;
  when (negb (d =? 0))
    (for_loop (Z.to_nat n) 0 (λ i, v ← esc_value i; when (v =? 0) (set_esc_value i d))).

Definition csi_execute (c : Z) : M (terminal B) unit :=
  m ← peek ctx_modes;
  let r := scroll_enabled m in
  upd_modes (set_scroll_enabled false);;
  let saved_wrap := wrap_enabled m in
  upd_modes (set_wrap_enabled true);;
  '(x, y) ← get_cursor_pos;
  ends ← csi_dispatch r saved_wrap c x y;
  if ends : bool then
    upd_modes (set_scroll_enabled r);;
    upd_modes (set_wrap_enabled saved_wrap);;
    cleanup
  else mret tt.

(** A byte behind the parameters *)
Definition csi_final (c : Z) : M (terminal B) unit :=
  csi_defaults c;;
  p ← peek ctx_parser;
  if dec_private p then
    if between 0x20 c 0x2f then
      upd_parser (set_dec_private false);;
      upd_parser (set_csi_unhandled true)
    else dec_private_parse c;; cleanup
  else if csi_unhandled p then
    if c =? 0x1b then
      upd_parser (set_csi_unhandled false);;
      upd_parser (set_control_sequence false);;
      upd_parser (set_escape_offset 0)
    else if between 0x40 c 0x7e then
      upd_parser (set_csi_unhandled false);;
      cleanup
    else mret tt
  else csi_execute c.

Definition control_sequence_parse (c : Z) : M (terminal B) unit :=
  offset ← peek (λ c, escape_offset (ctx_parser c));
  if (offset =? 2) && (c =? ch "[") then upd_parser (set_discard_next true);; cleanup
  else if (offset =? 2) && (c =? ch "?") then upd_parser (set_dec_private true)
  else if (c <? 0x20) && negb (c =? 0x1b) then execute_c0 c;; mret tt
  else if between (ch "0") c (ch "9") then csi_digit c
  else
    used ← csi_separator c;
    if used : bool then mret tt else csi_final c.

(** ** Escape sequences *)

Definition esc_reset : M (terminal B) unit :=
  rv ← peek (λ c, reverse_video (ctx_look c));
  when rv swap_palette;;
  poke flanterm_context_reinit;;
  set_text_bg_default;;
  set_text_fg_default;;
  clear true;;
  save_state.

Definition esc_next_line (y : Z) : M (terminal B) unit :=
  g ← peek ctx_geom;
  if y =? u64 (scroll_bottom_margin g - 1) then scroll;; set_cursor_pos 0 y
  else if y <? u64 (rows g - 1) then set_cursor_pos 0 (y + 1)
  else set_cursor_pos 0 y.

Definition esc_reverse_index (x y : Z) : M (terminal B) unit :=
  g ← peek ctx_geom;
  if y =? scroll_top_margin g then revscroll;; set_cursor_pos x y
  else when (y >? 0) (set_cursor_pos x (y - 1)).

Definition begin_osc : M (terminal B) unit :=
  upd_parser (set_osc_escape false);; upd_parser (set_osc true);; upd_parser (set_osc_buf_i 0).
Definition begin_csi : M (terminal B) unit :=
  for_loop (Z.to_nat FLANTERM_MAX_ESC_VALUES) 0 (λ i, set_esc_value i 0);;
  upd_parser (set_esc_values_i 0);;
  upd_parser (set_rrr false);;
  upd_parser (set_csi_unhandled false);;
  upd_parser (set_control_sequence true).

(** The character behind ESC; the result tells whether the sequence ends here. *)
Definition escape_dispatch (c x y : Z) : M (terminal B) bool :=
  if c =? 0x1b then upd_parser (set_escape_offset 0);; mret false
  else if c =? ch "]" then begin_osc;; mret false
  else if c =? ch "[" then begin_csi;; mret false
  else if c =? ch "7" then save_state;; mret true
  else if c =? ch "8" then restore_state;; mret true
  else if c =? ch "c" then esc_reset;; mret true
  else if c =? ch "D" then line_feed x y;; mret true
  else if c =? ch "E" then esc_next_line y;; mret true
  else if c =? ch "M" then esc_reverse_index x y;; mret true
  else if c =? ch "Z" then report FLANTERM_CB_PRIVATE_ID 0 0 0 [];; mret true
  else if (c =? ch "(") || (c =? ch ")") then upd_parser (set_g_select (c - 0x27));; mret true
  else mret true.

Definition escape_parse (c : Z) : M (terminal B) unit :=
  upd_parser (λ p, set_escape_offset (u64 (escape_offset p + 1)) p);;
  in_osc ← peek (λ c, osc (ctx_parser c));
  used ← (if in_osc : bool then osc_parse c else mret false);
  if used : bool then mret tt else
  when in_osc (upd_parser (set_escape_offset 1));;
  in_csi ← peek (λ c, control_sequence (ctx_parser c));
  if in_csi : bool then control_sequence_parse c else
  '(x, y) ← get_cursor_pos;
  ends ← escape_dispatch c x y;
  when ends (upd_parser (set_escape false)).

(** ** Text *)

Definition print_glyph (c : Z) : M (terminal B) unit :=
  poke (set_last_printed_char (u8 c));;
  poke (set_last_was_graphic true);;
  raw_putchar c.

Definition dec_special_print (c : Z) : M (terminal B) bool :=
  match switch dec_special c with
  | Some g => print_glyph g;; mret true
  | None => mret false
  end.

Definition insert_shift (count : Z) : M (terminal B) unit :=
  ins ← peek (λ c, insert_mode (ctx_modes c));
  if ins && (count >? 0) then
    '(x, y) ← get_cursor_pos;
    m ← peek (λ c, cols (ctx_geom c));
    let count := if count >? u64 (m - x) then u64 (m - x) else count in
    shift_right x y count
  else mret tt.

(** A whole code point *)
Definition print_code_point (code_point : Z) : M (terminal B) unit :=
  let cc := unicode_to_cp437 code_point in
  if cc =? -1 then
    replacement_width ← (λ t, match mk_wcwidth (u32 code_point) with
                              | Ok w => Ok (w, t) | Halt => Halt | Fault => Fault | Spin => Spin end);
    when (replacement_width >? 0) (insert_shift replacement_width;; print_glyph 0xfe);;
    times (replacement_width - 1) (raw_putchar (ch " "))
  else insert_shift 1;; print_glyph cc.

(** The byte [c] where a continuation byte is due; the result tells whether it
    was used up ([unicode_error] goes on with it otherwise). *)
Definition unicode_step (c : Z) : M (terminal B) bool :=
  if negb (Z.land c 0xc0 =? 0x80) then
    p ← peek ctx_parser;
    let already_errored := code_point p >? 0x10ffff in
    upd_parser (set_unicode_remaining 0);;
    upd_parser (set_code_point 0);;
    when (negb already_errored) (insert_shift 1;; raw_putchar 0xfe);;
    mret false
  else
    upd_parser (λ p, set_unicode_remaining (unicode_remaining p - 1) p);;
    upd_parser (λ p, set_code_point (Z.lor (code_point p) (u64 (Z.shiftl (Z.land c 0x3f) (6 * unicode_remaining p)))) p);;
    p ← peek ctx_parser;
    let rem := unicode_remaining p in
    let cp := code_point p in
    if cp >? 0x10ffff then mret true
    else if ((rem =? 1) && (cp <? 0x800)) || ((rem =? 2) && (cp <? 0x10000)) || ((rem =? 2) && (cp >? 0x10ffff)) then
      insert_shift 1;;
      print_glyph 0xfe;;
      upd_parser (set_code_point UINT64_MAX);;
      mret true
    else if negb (rem =? 0) then mret true
    else if between 0xd800 cp 0xdfff then mret false
    else print_code_point cp;; mret true.

(** The first byte of a sequence *)
Definition unicode_start (c : Z) : M (terminal B) unit :=
  upd_parser (set_g_select 0);;
  if between 0xc2 c 0xdf then
    upd_parser (set_unicode_remaining 1);;
    upd_parser (set_code_point (Z.shiftl (Z.land c 0x1f) 6))
  else if between 0xe0 c 0xef then
    upd_parser (set_unicode_remaining 2);;
    upd_parser (set_code_point (Z.shiftl (Z.land c 0x0f) (6 * 2)))
  else if between 0xf0 c 0xf4 then
    upd_parser (set_unicode_remaining 3);;
    upd_parser (set_code_point (Z.shiftl (Z.land c 0x07) (6 * 3)))
  else mret tt.

Definition discard : M (terminal B) unit :=
  upd_parser (set_discard_next false);;
  upd_parser (set_escape false);;
  upd_parser (set_control_sequence false);;
  upd_parser (set_unicode_remaining 0);;
  upd_parser (set_osc false);;
  upd_parser (set_osc_escape false);;
  upd_parser (set_g_select 0);;
  poke (set_last_was_graphic false).

(** The character that designates a character set, after ESC ( or ESC ) *)
Definition select_charset (c : Z) : M (terminal B) unit :=
  upd_parser (λ p, set_g_select (u8 (g_select p - 1)) p);;
  g ← peek (λ c, g_select (ctx_parser c));
  cs ← peek (λ c, charsets (ctx_look c));
  (if c =? ch "B" then element (zlookup cs g);; upd_look (set_charsets (zinsert g CHARSET_DEFAULT cs))
   else if c =? ch "0" then element (zlookup cs g);; upd_look (set_charsets (zinsert g CHARSET_DEC_SPECIAL cs))
   else mret tt);;
  upd_parser (set_g_select 0).

(** A byte outside of all sequences, from the switch on control characters on *)
Definition put_text (c : Z) : M (terminal B) unit :=
  when (((c <=? 0x1f) && negb (c =? 0x1b)) || (c =? 0x7f)) (poke (set_last_was_graphic false));;
  if (c =? 0) || (c =? 0x7f) then mret tt
  else if c =? 0x1b then upd_parser (set_escape_offset 0);; upd_parser (set_escape true)
  else if c <? 0x20 then execute_c0 c;; mret tt
  else
    insert_shift 1;;
    l ← peek ctx_look;
    cs ← element (zlookup (charsets l) (current_charset l));
    done ← (if cs =? CHARSET_DEC_SPECIAL then dec_special_print c else mret false);
    if done : bool then mret tt
    else if between 0x20 c 0x7e then print_glyph c
    else when (c >=? 0x80) (print_glyph 0xfe).

(** From the label [unicode_error] on *)
Definition put_byte (c : Z) : M (terminal B) unit :=
  p ← peek ctx_parser;
  if negb (escape p) && between 0xc2 c 0xf4 then unicode_start c
  else if escape p then escape_parse c
  else if negb (g_select p =? 0) then
    if (c <=? 0x1f) || (c =? 0x7f) then upd_parser (set_g_select 0);; put_text c
    else select_charset c
  else put_text c.

Definition flanterm_putchar (c : Z) : M (terminal B) unit :=
  p ← peek ctx_parser;
  if discard_next p || ((c =? 0x18) || (c =? 0x1a)) then discard
  else if negb (escape p) && negb (unicode_remaining p =? 0) then
    used ← unicode_step c;
    if used : bool then mret tt else put_byte c
  else put_byte c.

(** ** The interface *)

Definition double_buffer_flush : M (terminal B) unit := backend be_double_buffer_flush.
Definition auto_flush : M (terminal B) unit :=
  a ← peek (λ c, autoflush (ctx_modes c)); when a double_buffer_flush.

Fixpoint put_bytes (buf : list Z) : M (terminal B) unit :=
  match buf with
  | [] => mret tt
  | c :: buf => flanterm_putchar (u8 c);; put_bytes buf
  end.
Definition flanterm_write (buf : list Z) : M (terminal B) unit := put_bytes buf;; auto_flush.

Definition flanterm_flush : M (terminal B) unit := double_buffer_flush.
Definition flanterm_full_refresh : M (terminal B) unit := backend be_full_refresh.
Definition flanterm_deinit (free_given : bool) : M (terminal B) unit := backend (λ c, be_deinit c free_given).
Definition flanterm_get_dimensions : M (terminal B) (Z * Z) := peek (λ c, (cols (ctx_geom c), rows (ctx_geom c))).
Definition flanterm_set_autoflush (state : bool) : M (terminal B) unit := upd_modes (set_autoflush state).
Definition flanterm_set_callback (there : bool) : M (terminal B) unit := poke (set_callback there).
Definition flanterm_get_cursor_pos : M (terminal B) (Z * Z) := get_cursor_pos.
Definition flanterm_set_cursor_pos (x y : Z) : M (terminal B) unit :=
  g ← peek ctx_geom;
  set_cursor_pos (if x >=? cols g then u64 (cols g - 1) else x) (if y >=? rows g then u64 (rows g - 1) else y);;
  auto_flush.
Definition flanterm_set_text_fg (colour : Z) (bright : bool) : M (terminal B) unit :=
  if colour >=? 8 then mret tt else
  upd_look (set_current_primary colour);;
  rv ← peek (λ c, reverse_video (ctx_look c));
  (if bright then (if negb rv then set_text_fg_bright colour else set_text_bg_bright colour)
   else (if negb rv then set_text_fg colour else set_text_bg colour));;
  auto_flush.
Definition flanterm_set_text_bg (colour : Z) (bright : bool) : M (terminal B) unit :=
  if colour >=? 8 then mret tt else
  upd_look (set_current_bg colour);;
  rv ← peek (λ c, reverse_video (ctx_look c));
  (if bright then (if negb rv then set_text_bg_bright colour else set_text_fg_bright colour)
   else (if negb rv then set_text_bg colour else set_text_fg colour));;
  auto_flush.
Definition flanterm_reset_text_fg : M (terminal B) unit :=
  upd_look (set_current_primary SIZE_MAX);;
  l ← peek ctx_look;
  swapped (if negb (bold l) then set_text_fg_default else set_text_fg_default_bright);;
  auto_flush.
Definition flanterm_reset_text_bg : M (terminal B) unit :=
  upd_look (set_current_bg SIZE_MAX);;
  l ← peek ctx_look;
  swapped (if negb (bg_bold l) then set_text_bg_default else set_text_bg_default_bright);;
  auto_flush.
Definition flanterm_clear (move : bool) : M (terminal B) unit := clear move;; auto_flush.
End terminal_ops.
