(* ===== verification/TermProof.v ===== *)
(** * Safety of the terminal

    [BackendOk] is what the parser asks of the screen: every operation returns
    and keeps an invariant, whatever characters, positions and colours of the
    right type it is given.  Against this interface the parser is safe: no byte
    sequence makes it leave its arrays, divide by zero, run on for ever or store
    a value outside of its field's type. *)
From Stdlib Require Import ZArith Lia Ascii String.
From stdpp Require Import base option list.
From S2P Require Import Prelude Print Hoare TermTables Term.

(** ** Types of the context *)

Definition colour_index (v : Z) : Prop := 0 ≤ v < 8 ∨ v = SIZE_MAX ∨ v = NO_INDEX.
Record wf_look (l : look) : Prop := {
  wl_charset : current_charset l = 0 ∨ current_charset l = 1;
  wl_charsets : ∃ a b, charsets l = [a; b];
  wl_primary : colour_index (current_primary l);
  wl_bg : colour_index (current_bg l) }.
Record wf_parser (p : parser) : Prop := {
  ps_values : length (esc_values p) = 16%nat ∧ Forall (fits 32) (esc_values p);
  ps_i : 0 ≤ esc_values_i p ≤ 16;
  ps_rrr : rrr p = true → esc_values_i p < 16;
  ps_osc : length (osc_buf p) = 256%nat ∧ Forall (fits 8) (osc_buf p) ∧ 0 ≤ osc_buf_i p ≤ 256;
  ps_select : 0 ≤ g_select p ≤ 2;
  ps_unicode : 0 ≤ unicode_remaining p ≤ 3 ∧ fits 64 (code_point p);
  ps_offset : fits 64 (escape_offset p) }.
Record wf_geom (R C : Z) (g : geom) : Prop := {
  wg_rows : rows g = R ∧ 0 < R < 2 ^ 32;
  wg_cols : cols g = C ∧ 0 < C < 2 ^ 32;
  wg_margins : 0 ≤ scroll_top_margin g < scroll_bottom_margin g ∧ scroll_bottom_margin g ≤ R;
  wg_saved : fits 64 (saved_cursor_x g) ∧ fits 64 (saved_cursor_y g) }.
Record wf (R C : Z) (c : context) : Prop := {
  wf_tab : tab_size (ctx_modes c) = 8;
  wf_ps : wf_parser (ctx_parser c);
  wf_lk : wf_look (ctx_look c);
  wf_sv : wf_look (ctx_saved c);
  wf_gm : wf_geom R C (ctx_geom c);
  wf_last : fits 8 (last_printed_char c) }.

(** ** What the parser asks of the screen *)

Class BackendOk (B : Type) `{Backend B} := {
  be_inv : Z → Z → B → Prop;
  be_raw_putchar_ok R C c v : wf_geom R C (ctx_geom c) → fits 8 v → {{ be_inv R C }} be_raw_putchar c v {{ λ _, be_inv R C }};
  be_clear_ok R C c v : wf_geom R C (ctx_geom c) → {{ be_inv R C }} be_clear c v {{ λ _, be_inv R C }};
  be_set_cursor_pos_ok R C c x y : wf_geom R C (ctx_geom c) → fits 64 x → fits 64 y →
    {{ be_inv R C }} be_set_cursor_pos c x y {{ λ _, be_inv R C }};
  be_get_cursor_pos_ok R C c : wf_geom R C (ctx_geom c) →
    {{ be_inv R C }} be_get_cursor_pos c {{ λ p b, (0 ≤ p.1 < C ∧ 0 ≤ p.2 < R) ∧ be_inv R C b }};
  be_set_text_fg_ok R C c v : 0 ≤ v < 8 → {{ be_inv R C }} be_set_text_fg c v {{ λ _, be_inv R C }};
  be_set_text_bg_ok R C c v : 0 ≤ v < 8 → {{ be_inv R C }} be_set_text_bg c v {{ λ _, be_inv R C }};
  be_set_text_fg_bright_ok R C c v : 0 ≤ v < 8 → {{ be_inv R C }} be_set_text_fg_bright c v {{ λ _, be_inv R C }};
  be_set_text_bg_bright_ok R C c v : 0 ≤ v < 8 → {{ be_inv R C }} be_set_text_bg_bright c v {{ λ _, be_inv R C }};
  be_set_text_fg_rgb_ok R C c v : fits 24 v → {{ be_inv R C }} be_set_text_fg_rgb c v {{ λ _, be_inv R C }};
  be_set_text_bg_rgb_ok R C c v : fits 24 v → {{ be_inv R C }} be_set_text_bg_rgb c v {{ λ _, be_inv R C }};
  be_set_text_fg_default_ok R C c : {{ be_inv R C }} be_set_text_fg_default c {{ λ _, be_inv R C }};
  be_set_text_bg_default_ok R C c : {{ be_inv R C }} be_set_text_bg_default c {{ λ _, be_inv R C }};
  be_set_text_fg_default_bright_ok R C c : {{ be_inv R C }} be_set_text_fg_default_bright c {{ λ _, be_inv R C }};
  be_set_text_bg_default_bright_ok R C c : {{ be_inv R C }} be_set_text_bg_default_bright c {{ λ _, be_inv R C }};
  be_move_character_ok R C c nx ny ox oy : wf_geom R C (ctx_geom c) → fits 64 nx → fits 64 ny → fits 64 ox → fits 64 oy →
    {{ be_inv R C }} be_move_character c nx ny ox oy {{ λ _, be_inv R C }};
  be_scroll_ok R C c : wf_geom R C (ctx_geom c) → {{ be_inv R C }} be_scroll c {{ λ _, be_inv R C }};
  be_revscroll_ok R C c : wf_geom R C (ctx_geom c) → {{ be_inv R C }} be_revscroll c {{ λ _, be_inv R C }};
  be_swap_palette_ok R C c : {{ be_inv R C }} be_swap_palette c {{ λ _, be_inv R C }};
  be_save_state_ok R C c : {{ be_inv R C }} be_save_state c {{ λ _, be_inv R C }};
  be_restore_state_ok R C c : {{ be_inv R C }} be_restore_state c {{ λ _, be_inv R C }};
  be_double_buffer_flush_ok R C c : wf_geom R C (ctx_geom c) → {{ be_inv R C }} be_double_buffer_flush c {{ λ _, be_inv R C }};
}.

(** ** Symbolic execution on the context

    [wp m Q c]: from context [c] and a screen that meets its invariant, [m]
    returns with the invariant kept, a result and a context that meet [Q]. *)

Section safety.
Context {B : Type} `{BackendOk B}.
Variables R C : Z.

Definition wp {A} (m : M (terminal B) A) (Q : A → context → Prop) (c : context) : Prop :=
  ∀ t, t_ctx t = c → be_inv R C (t_be t) →
  ∃ a t', m t = Ok (a, t') ∧ be_inv R C (t_be t') ∧ Q a (t_ctx t').

(** Code that keeps the types, and code that leaves the context as it is *)
Definition keeps {A} (m : M (terminal B) A) : Prop := ∀ c, wf R C c → wp m (λ _ c', wf R C c') c.
Definition still {A} (m : M (terminal B) A) : Prop := ∀ c, wf R C c → wp m (λ _ c', c' = c) c.

Lemma wp_ret {A} (a : A) (Q : A → context → Prop) c : Q a c → wp (mret a) Q c.
Proof. intros HQ t <- Hb. by exists a, t. Qed.
Lemma wp_mono {A} (m : M (terminal B) A) (Q Q' : A → context → Prop) c : wp m Q c → (∀ a c', Q a c' → Q' a c') → wp m Q' c.
Proof. intros Hm HQ t Hc Hb. destruct (Hm t Hc Hb) as (a & t' & E & Hb' & HQa). exists a, t'. auto. Qed.
Lemma wp_bind {A A'} (m : M (terminal B) A) (f : A → M (terminal B) A') Q c :
  wp m (λ a c', wp (f a) Q c') c → wp (m ≫= f) Q c.
Proof.
  intros Hm t Hc Hb. destruct (Hm t Hc Hb) as (a & t1 & E & Hb1 & Hf). destruct (Hf t1 eq_refl Hb1) as (a' & t2 & E2 & Hb2 & HQ).
  exists a', t2. split; [|done]. by rewrite (bind_ok _ _ _ _ _ E).
Qed.
Lemma wp_peek {A} (f : context → A) (Q : A → context → Prop) c : Q (f c) c → wp (peek f) Q c.
Proof. intros HQ t <- Hb. by exists (f (t_ctx t)), t. Qed.
Lemma wp_poke f (Q : unit → context → Prop) c : Q tt (f c) → wp (poke f) Q c.
Proof. intros HQ t <- Hb. by exists tt, (set_ctx (f (t_ctx t)) t). Qed.
Lemma wp_report w x y z d (Q : unit → context → Prop) c : Q tt c → wp (report w x y z d) Q c.
Proof.
  intros HQ t <- Hb. eexists tt, _. split; [reflexivity|]. destruct (callback (t_ctx t)); by split.
Qed.
Lemma wp_backend {A} (op : context → M B A) (P : A → Prop) (Q : A → context → Prop) c :
  {{ be_inv R C }} op c {{ λ a b, P a ∧ be_inv R C b }} → (∀ a, P a → Q a c) → wp (backend op) Q c.
Proof.
  intros Hop HQ t <- Hb. destruct (Hop _ Hb) as (a & b & E & HP & Hb'). unfold backend. rewrite E.
  eexists a, _. split; [reflexivity|]. split; [done|by apply HQ].
Qed.
Lemma wp_still {A} (m : M (terminal B) A) (Q : A → context → Prop) c : still m → wf R C c → (∀ a, Q a c) → wp m Q c.
Proof. intros Hm Hc HQ. apply (wp_mono _ _ _ _ (Hm c Hc)). by intros a c' ->. Qed.
Lemma wp_keeps {A} (m : M (terminal B) A) (Q : A → context → Prop) c :
  keeps m → wf R C c → (∀ a c', wf R C c' → Q a c') → wp m Q c.
Proof. intros Hm Hc HQ. by apply (wp_mono _ _ _ _ (Hm c Hc)). Qed.
Lemma wp_for_loop (I : Z → context → Prop) body n lo c :
  I lo c → (∀ i c, lo ≤ i < lo + Z.of_nat n → I i c → wp (body i) (λ _, I (i + 1)) c) →
  wp (for_loop n lo body) (λ _, I (lo + Z.of_nat n)) c.
Proof.
  revert lo c. induction n as [|n IH]; intros lo c Hc Hb; cbn [for_loop]; [apply wp_ret; by rewrite Z.add_0_r|].
  apply wp_bind. eapply wp_mono; [apply Hb; [lia|done]|]. intros ? c1 H1.
  replace (lo + Z.of_nat (S n)) with (lo + 1 + Z.of_nat n) by lia. apply IH; [done|]. intros i c2 Hi. apply Hb. lia.
Qed.
Lemma still_keeps {A} (m : M (terminal B) A) : still m → keeps m.
Proof. intros Hm c Hc. by apply wp_still. Qed.
Lemma still_ret {A} (a : A) : still (mret a).
Proof. intros c Hc. by apply wp_ret. Qed.
Lemma still_loop body n lo : (∀ i, lo ≤ i < lo + Z.of_nat n → still (body i)) → still (for_loop n lo body).
Proof. intros Hb c Hc. apply (wp_for_loop (λ _ c', c' = c)); [done|]. intros i ? Hi ->. by apply Hb. Qed.
Lemma still_seq {A A'} (m : M (terminal B) A) (f : A → M (terminal B) A') : still m → (∀ a, still (f a)) → still (m ≫= f).
Proof. intros Hm Hf c Hc. apply wp_bind, wp_still; [done|done|]. intros a. by apply Hf. Qed.
Lemma still_times n m : still m → still (times n m).
Proof. intros Hm. apply still_loop. auto. Qed.
Lemma still_when b m : (b = true → still m) → still (when b m).
Proof. intros Hm. destruct b; [by apply Hm|apply still_ret]. Qed.
Lemma ret_keeps {A} (a : A) : keeps (mret a).
Proof. intros c Hc. by apply wp_ret. Qed.
Lemma keeps_seq {A A'} (m : M (terminal B) A) (f : A → M (terminal B) A') : keeps m → (∀ a, keeps (f a)) → keeps (m ≫= f).
Proof. intros Hm Hf c Hc. apply wp_bind, wp_keeps; [done|done|]. intros a c' Hc'. by apply Hf. Qed.
Lemma keeps_when b m : (b = true → keeps m) → keeps (when b m).
Proof. intros Hm. destruct b; [by apply Hm|apply ret_keeps]. Qed.
Lemma keeps_poke f : (∀ c, wf R C c → wf R C (f c)) → keeps (poke f).
Proof. intros Hf c Hc. by apply wp_poke, Hf. Qed.

Lemma backend_still {A} (op : context → M B A) :
  (∀ c, wf R C c → {{ be_inv R C }} op c {{ λ _, be_inv R C }}) → still (backend op).
Proof.
  intros Hop c Hc. apply (wp_backend _ (λ _, True)); [|done]. eapply hoare_conseq; [by apply Hop|done|]. by intros.
Qed.
Lemma raw_putchar_still v : still (raw_putchar v).
Proof. apply backend_still. intros c Hc. apply be_raw_putchar_ok; [apply Hc|apply u8_range]. Qed.
Lemma clear_still v : still (clear v).
Proof. apply backend_still. intros c Hc. apply be_clear_ok, Hc. Qed.
Lemma set_cursor_pos_still x y : fits 64 x → fits 64 y → still (set_cursor_pos x y).
Proof. intros Hx Hy. apply backend_still. intros c Hc. apply be_set_cursor_pos_ok; [apply Hc|done|done]. Qed.
Lemma wp_get_cursor_pos (Q : Z * Z → context → Prop) c :
  wf R C c → (∀ x y, 0 ≤ x < C → 0 ≤ y < R → Q (x, y) c) → wp get_cursor_pos Q c.
Proof.
  intros Hc HQ. eapply wp_backend; [apply be_get_cursor_pos_ok, Hc|]. intros [x y] [Hx Hy]. by apply HQ.
Qed.
Lemma set_text_fg_still v : 0 ≤ v < 8 → still (set_text_fg v).
Proof. intros Hv. apply backend_still. intros c Hc. by apply be_set_text_fg_ok. Qed.
Lemma set_text_bg_still v : 0 ≤ v < 8 → still (set_text_bg v).
Proof. intros Hv. apply backend_still. intros c Hc. by apply be_set_text_bg_ok. Qed.
Lemma set_text_fg_bright_still v : 0 ≤ v < 8 → still (set_text_fg_bright v).
Proof. intros Hv. apply backend_still. intros c Hc. by apply be_set_text_fg_bright_ok. Qed.
Lemma set_text_bg_bright_still v : 0 ≤ v < 8 → still (set_text_bg_bright v).
Proof. intros Hv. apply backend_still. intros c Hc. by apply be_set_text_bg_bright_ok. Qed.
Lemma set_text_fg_rgb_still v : fits 24 v → still (set_text_fg_rgb v).
Proof. intros Hv. apply backend_still. intros c Hc. by apply be_set_text_fg_rgb_ok. Qed.
Lemma set_text_bg_rgb_still v : fits 24 v → still (set_text_bg_rgb v).
Proof. intros Hv. apply backend_still. intros c Hc. by apply be_set_text_bg_rgb_ok. Qed.
Lemma set_text_fg_default_still : still set_text_fg_default.
Proof. apply backend_still. intros c Hc. apply be_set_text_fg_default_ok. Qed.
Lemma set_text_bg_default_still : still set_text_bg_default.
Proof. apply backend_still. intros c Hc. apply be_set_text_bg_default_ok. Qed.
Lemma set_text_fg_default_bright_still : still set_text_fg_default_bright.
Proof. apply backend_still. intros c Hc. apply be_set_text_fg_default_bright_ok. Qed.
Lemma set_text_bg_default_bright_still : still set_text_bg_default_bright.
Proof. apply backend_still. intros c Hc. apply be_set_text_bg_default_bright_ok. Qed.
Lemma move_character_still a b x y : fits 64 a → fits 64 b → fits 64 x → fits 64 y → still (move_character a b x y).
Proof. intros ????. apply backend_still. intros c Hc. by apply be_move_character_ok; [apply Hc|..]. Qed.
Lemma scroll_still : still scroll.
Proof. apply backend_still. intros c Hc. apply be_scroll_ok, Hc. Qed.
Lemma revscroll_still : still revscroll.
Proof. apply backend_still. intros c Hc. apply be_revscroll_ok, Hc. Qed.
Lemma swap_palette_still : still swap_palette.
Proof. apply backend_still. intros c Hc. apply be_swap_palette_ok. Qed.
Lemma flush_still : still double_buffer_flush.
Proof. apply backend_still. intros c Hc. apply be_double_buffer_flush_ok, Hc. Qed.
Lemma report_still w x y z d : still (report w x y z d).
Proof. intros c Hc. by apply wp_report. Qed.
Lemma spaces_still n : still (spaces n).
Proof. apply still_times, raw_putchar_still. Qed.

(** ** Changes of the context *)

Lemma wf_modes_upd f c : wf R C c → tab_size (f (ctx_modes c)) = 8 → wf R C (set_ctx_modes (f (ctx_modes c)) c).
Proof. intros [] Hf. by split. Qed.
Lemma wf_parser_upd p c : wf R C c → wf_parser p → wf R C (set_ctx_parser p c).
Proof. intros [] Hf. by split. Qed.
Lemma wf_look_upd l c : wf R C c → wf_look l → wf R C (set_ctx_look l c).
Proof. intros [] Hf. by split. Qed.
Lemma wf_geom_upd g c : wf R C c → wf_geom R C g → wf R C (set_ctx_geom g c).
Proof. intros [] Hf. by split. Qed.

Lemma wp_upd_parser f (Q : unit → context → Prop) c : Q tt (set_ctx_parser (f (ctx_parser c)) c) → wp (upd_parser f) Q c.
Proof. exact (wp_poke (λ c, set_ctx_parser (f (ctx_parser c)) c) Q c). Qed.
Lemma wp_upd_look f (Q : unit → context → Prop) c : Q tt (set_ctx_look (f (ctx_look c)) c) → wp (upd_look f) Q c.
Proof. exact (wp_poke (λ c, set_ctx_look (f (ctx_look c)) c) Q c). Qed.
Lemma wp_upd_geom f (Q : unit → context → Prop) c : Q tt (set_ctx_geom (f (ctx_geom c)) c) → wp (upd_geom f) Q c.
Proof. exact (wp_poke (λ c, set_ctx_geom (f (ctx_geom c)) c) Q c). Qed.
Lemma wp_upd_modes f (Q : unit → context → Prop) c : Q tt (set_ctx_modes (f (ctx_modes c)) c) → wp (upd_modes f) Q c.
Proof. exact (wp_poke (λ c, set_ctx_modes (f (ctx_modes c)) c) Q c). Qed.

Lemma keeps_upd_modes f : (∀ m, tab_size m = 8 → tab_size (f m) = 8) → keeps (upd_modes f).
Proof. intros Hf. apply keeps_poke. intros c Hc. apply wf_modes_upd; [done|apply Hf, Hc]. Qed.
Lemma keeps_upd_parser f : (∀ p, wf_parser p → wf_parser (f p)) → keeps (upd_parser f).
Proof. intros Hf. apply keeps_poke. intros c Hc. apply wf_parser_upd; [done|apply Hf, Hc]. Qed.
Lemma keeps_upd_look f : (∀ l, wf_look l → wf_look (f l)) → keeps (upd_look f).
Proof. intros Hf. apply keeps_poke. intros c Hc. apply wf_look_upd; [done|apply Hf, Hc]. Qed.
Lemma keeps_upd_geom f : (∀ g, wf_geom R C g → wf_geom R C (f g)) → keeps (upd_geom f).
Proof. intros Hf. apply keeps_poke. intros c Hc. apply wf_geom_upd; [done|apply Hf, Hc]. Qed.

(** ** Parameters *)

Lemma wf_value p i : wf_parser p → 0 ≤ i < 16 → ∃ v, zlookup (esc_values p) i = Some v ∧ v ∈ esc_values p ∧ fits 32 v.
Proof.
  intros Hp Hi. destruct (ps_values _ Hp) as [Hlen Hall]. destruct (zlookup_lt (esc_values p) i) as [v Hv]; [lia|].
  exists v. split; [done|]. unfold zlookup in Hv. destruct (i <? 0); [done|].
  split; [by eapply list_elem_of_lookup_2|by eapply Forall_lookup_1 in Hall].
Qed.
Lemma wp_value i (Q : Z → context → Prop) c :
  wf_parser (ctx_parser c) → 0 ≤ i < 16 → (∀ v, v ∈ esc_values (ctx_parser c) → fits 32 v → Q v c) → wp (esc_value i) Q c.
Proof.
  intros Hc Hi HQ. destruct (wf_value _ i Hc Hi) as (v & Hv & Hin & Hf). apply wp_bind, wp_peek. rewrite Hv. by apply wp_ret, HQ.
Qed.
Lemma wp_esc_value i (Q : Z → context → Prop) c : wf R C c → 0 ≤ i < 16 → (∀ v, fits 32 v → Q v c) → wp (esc_value i) Q c.
Proof. intros Hc Hi HQ. apply wp_value; [apply Hc|done|]. intros v _. apply HQ. Qed.
Lemma wf_parser_value i v p : wf_parser p → wf_parser (set_esc_values (zinsert i (u32 v) (esc_values p)) p).
Proof.
  intros []. destruct ps_values0 as [Hlen Hall]. split; try done. cbn. split; [by rewrite length_zinsert|].
  unfold zinsert. destruct (i <? 0); [done|]. apply Forall_insert; [done|apply u32_range].
Qed.
(** Setting a parameter changes nothing else. *)
Definition put_value (i v : Z) (c : context) : context :=
  set_ctx_parser (set_esc_values (zinsert i (u32 v) (esc_values (ctx_parser c))) (ctx_parser c)) c.
Lemma wp_set_esc_value i v (Q : unit → context → Prop) c :
  wf R C c → 0 ≤ i < 16 → (wf R C (put_value i v c) → Q tt (put_value i v c)) → wp (set_esc_value i v) Q c.
Proof.
  intros Hc Hi HQ. apply wp_bind, wp_esc_value; [done|done|]. intros v0 _. apply wp_upd_parser, HQ.
  apply wf_parser_upd; [done|]. apply wf_parser_value, Hc.
Qed.
Lemma set_esc_value_keeps i v : 0 ≤ i < 16 → keeps (set_esc_value i v).
Proof. intros Hi c Hc. by apply wp_set_esc_value. Qed.

(** ** Colours *)

(** Code that changes at most the look *)
Definition looks {A} (m : M (terminal B) A) : Prop := ∀ c, wf R C c → wp m (λ _ c', wf R C c' ∧ ctx_parser c' = ctx_parser c) c.

Lemma looks_still {A} (m : M (terminal B) A) : still m → looks m.
Proof. intros Hm c Hc. by apply wp_still. Qed.
Lemma looks_ret {A} (a : A) : looks (mret a).
Proof. apply looks_still, still_ret. Qed.
Lemma looks_seq {A A'} (m : M (terminal B) A) (f : A → M (terminal B) A') : looks m → (∀ a, looks (f a)) → looks (m ≫= f).
Proof.
  intros Hm Hf c Hc. apply wp_bind. eapply wp_mono; [by apply Hm|]. intros a c1 [H1 E1].
  eapply wp_mono; [by apply Hf|]. intros a' c2 [H2 E2]. split; [done|]. by rewrite E2.
Qed.
Lemma looks_when b m : (b = true → looks m) → looks (when b m).
Proof. intros Hm. destruct b; [by apply Hm|apply looks_ret]. Qed.
Lemma looks_peek {A A'} (g : context → A) (f : A → M (terminal B) A') : (∀ c, wf R C c → looks (f (g c))) → looks (peek g ≫= f).
Proof. intros Hf c Hc. apply wp_bind, wp_peek. by apply (Hf c). Qed.
Lemma looks_upd_look f : (∀ l, wf_look l → wf_look (f l)) → looks (upd_look f).
Proof. intros Hf c Hc. apply wp_upd_look. split; [|done]. apply wf_look_upd; [done|apply Hf, Hc]. Qed.
Lemma looks_keeps {A} (m : M (terminal B) A) : looks m → keeps m.
Proof. intros Hm c Hc. eapply wp_mono; [by apply Hm|]. by intros a c' []. Qed.

Lemma wf_set_bold v l : wf_look l → wf_look (set_bold v l).
Proof. intros []. by split. Qed.
Lemma wf_set_bg_bold v l : wf_look l → wf_look (set_bg_bold v l).
Proof. intros []. by split. Qed.
Lemma wf_set_reverse_video v l : wf_look l → wf_look (set_reverse_video v l).
Proof. intros []. by split. Qed.
Lemma wf_set_primary v l : colour_index v → wf_look l → wf_look (set_current_primary v l).
Proof. intros Hv []. by split. Qed.
Lemma wf_set_bg v l : colour_index v → wf_look l → wf_look (set_current_bg v l).
Proof. intros Hv []. by split. Qed.
Lemma colour_default : colour_index SIZE_MAX.
Proof. right. by left. Qed.
Lemma colour_none : colour_index NO_INDEX.
Proof. right. by right. Qed.
Lemma colour_small v : 0 ≤ v < 8 → colour_index v.
Proof. by left. Qed.

#[local] Hint Resolve looks_ret wf_set_bold wf_set_bg_bold wf_set_reverse_video wf_set_primary wf_set_bg colour_default colour_none : core.
#[local] Hint Resolve set_text_fg_default_still set_text_bg_default_still set_text_fg_default_bright_still
  set_text_bg_default_bright_still swap_palette_still scroll_still revscroll_still spaces_still report_still
  raw_putchar_still clear_still still_ret : core.

(** A step of a proof about code that changes at most the look. *)
Ltac look_step :=
  first
  [ apply looks_upd_look; intros; by auto
  | apply looks_still; by auto
  | apply looks_ret
  | apply looks_peek; intros
  | apply looks_when; intros
  | apply looks_seq; [|intros]
  | match goal with |- looks (if ?b then _ else _) => destruct b eqn:? end ].
Ltac look := cbv zeta; repeat (look_step; cbv zeta).

Lemma sgr_reset_looks : looks sgr_reset.
Proof. unfold sgr_reset. look. Qed.

Lemma sgr_again_looks cur on off d d' : colour_index cur → (∀ v, 0 ≤ v < 8 → looks (on v)) → (∀ v, 0 ≤ v < 8 → looks (off v)) →
  looks d → looks d' → looks (sgr_again cur on off d d').
Proof.
  intros Hcur Hon Hoff Hd Hd'. unfold sgr_again. apply looks_peek. intros c _. destruct (Z.eqb_spec cur NO_INDEX); [by auto|].
  destruct (Z.eqb_spec cur SIZE_MAX); cbn [negb]; [by destruct (negb _)|]. destruct Hcur as [Hcur|[?|?]]; [|done|done].
  destruct (negb _); by auto.
Qed.

Lemma between_true lo v hi : between lo v hi = true → lo ≤ v ≤ hi.
Proof. unfold between. intros []%andb_true_iff. lia. Qed.

Lemma text_fg_looks v : 0 ≤ v < 8 → looks (set_text_fg v).
Proof. intros. by apply looks_still, set_text_fg_still. Qed.
Lemma text_bg_looks v : 0 ≤ v < 8 → looks (set_text_bg v).
Proof. intros. by apply looks_still, set_text_bg_still. Qed.
Lemma text_fg_bright_looks v : 0 ≤ v < 8 → looks (set_text_fg_bright v).
Proof. intros. by apply looks_still, set_text_fg_bright_still. Qed.
Lemma text_bg_bright_looks v : 0 ≤ v < 8 → looks (set_text_bg_bright v).
Proof. intros. by apply looks_still, set_text_bg_bright_still. Qed.
#[local] Hint Resolve text_fg_looks text_bg_looks text_fg_bright_looks text_bg_bright_looks : core.

Lemma sgr_set_fg_looks v o : 0 ≤ v - o < 8 → looks (sgr_set_fg v o).
Proof. intros. unfold sgr_set_fg. look; by auto. Qed.
Lemma sgr_set_bg_looks v o : 0 ≤ v - o < 8 → looks (sgr_set_bg v o).
Proof. intros. unfold sgr_set_bg. look; by auto. Qed.
Lemma swapped_looks m : looks m → looks (swapped m).
Proof. intros Hm. unfold swapped. look. done. Qed.

Lemma sgr_simple_looks v : looks (sgr_simple v).
Proof.
  unfold sgr_simple. apply looks_peek. intros c Hc. pose proof (wf_lk _ _ _ Hc) as Hl.
  repeat match goal with |- looks (if ?b then _ else _) => destruct b eqn:? end;
    repeat match goal with Hb : between _ _ _ = true |- _ => apply between_true in Hb end;
    try (apply sgr_reset_looks); try (apply looks_ret);
    try (apply looks_seq; [apply looks_upd_look; intros; (by auto using colour_small with lia) || (apply wf_set_primary || apply wf_set_bg; [apply colour_small; lia|done])|intros _]);
    try (apply sgr_again_looks; [apply Hl| | |by auto using looks_still|by auto using looks_still]; by auto);
    try (apply sgr_set_fg_looks; lia); try (apply sgr_set_bg_looks; lia);
    try (apply swapped_looks); look; auto with lia.
Qed.

Lemma wp_looks {A} (m : M (terminal B) A) (Q : A → context → Prop) c :
  looks m → wf R C c → (∀ a c', wf R C c' → ctx_parser c' = ctx_parser c → Q a c') → wp m Q c.
Proof. intros Hm Hc HQ. eapply wp_mono; [by apply Hm|]. intros a c' []. by apply HQ. Qed.

Lemma no_index_looks fg : looks (no_index fg).
Proof. apply looks_upd_look. intros l Hl. destruct fg; by auto. Qed.
#[local] Hint Resolve no_index_looks : core.

Lemma element_zlookup {A} (l : list A) i (Q : A → context → Prop) c :
  0 ≤ i < Z.of_nat (length l) → (∀ v, v ∈ l → Q v c) → wp (element (zlookup l i)) Q c.
Proof.
  intros Hi HQ. destruct (zlookup_lt l i Hi) as [v Hv]. rewrite Hv. apply wp_ret, HQ. unfold zlookup in Hv.
  destruct (i <? 0); [done|]. by eapply list_elem_of_lookup_2.
Qed.
Lemma col256_fits v : v ∈ col256 → fits 24 v.
Proof.
  intros Hv. assert (Hall : Forall (fits 24) col256); [|by eapply Forall_forall in Hall].
  apply (bool_decide_unpack _). by vm_compute.
Qed.

(** The colour of a direct-colour parameter has 24 bits. *)
Lemma rgb_fits r g b :
  fits 24 (Z.lor (Z.lor (u32 (Z.shiftl (Z.land r 0xff) 16)) (u32 (Z.shiftl (Z.land g 0xff) 8))) (Z.land b 0xff)).
Proof.
  assert (Hl : ∀ x, 0 ≤ Z.land x 0xff < 256) by (intros x; change 0xff with (2 ^ 8 - 1); rewrite land_ones_mod by done; by apply Z.mod_pos_bound).
  assert (Hs : ∀ x k, 0 ≤ k ≤ 16 → fits 24 (u32 (Z.shiftl (Z.land x 0xff) k))).
  { intros x k Hk. specialize (Hl x). rewrite Z.shiftl_mul_pow2 by lia. assert (1 ≤ 2 ^ k ≤ 2 ^ 16) by (split; [apply Z.pow_le_mono_r with (b := 0)|apply Z.pow_le_mono_r]; lia).
    rewrite u32_small; unfold fits; nia. }
  apply lor_fits; [done|apply lor_fits; [done|by apply Hs|by apply Hs]|]. specialize (Hl b). unfold fits. lia.
Qed.

Lemma rgb_index_looks (b : bool) i :
  0 ≤ i < 240 →
  looks (v ← element (zlookup col256 i); if b then set_text_fg_rgb v else set_text_bg_rgb v).
Proof.
  intros Hi c Hc. apply wp_bind, element_zlookup; [done|]. intros v Hv%col256_fits.
  apply (looks_still _ (if b return still (if b then _ else _) then set_text_fg_rgb_still v Hv else set_text_bg_rgb_still v Hv) c Hc).
Qed.

Lemma sgr_extended_ok i v n c : wf R C c → n = esc_values_i (ctx_parser c) → 0 ≤ i < n →
  wp (sgr_extended i v n) (λ a c', wf R C c' ∧ ctx_parser c' = ctx_parser c ∧ ∀ j, a = Some j → i < j < 16) c.
Proof.
  intros Hc Hn Hi. pose proof (ps_i _ (wf_ps _ _ _ Hc)) as Hn16. unfold sgr_extended. apply wp_bind, wp_peek. cbv zeta.
  rewrite (u64_small (i + 1)) by lia. destruct (Z.geb_spec (i + 1) n); [by apply wp_ret|].
  apply wp_bind, wp_esc_value; [done|lia|]. intros kind _. destruct (kind =? 2).
  - rewrite (u64_small (i + 1 + 3)) by lia. destruct (Z.geb_spec (i + 1 + 3) n); [by apply wp_ret|].
    rewrite !u64_small by lia. do 3 (apply wp_bind, wp_esc_value; [done|lia|]; intros ? _).
    apply wp_bind, wp_looks; [by auto|done|]. intros _ c1 Hc1 E1. apply wp_bind, wp_looks; [|done|].
    { destruct (if reverse_video _ then _ else _); apply looks_still;
        [apply set_text_fg_rgb_still|apply set_text_bg_rgb_still]; apply rgb_fits. }
    intros _ c2 Hc2 E2. apply wp_ret. splits; [done|congruence|]. intros j [= <-]. lia.
  - destruct (kind =? 5); [|apply wp_ret; splits; [done|done|]; intros j [= <-]; lia].
    rewrite (u64_small (i + 1 + 1)) by lia. destruct (Z.geb_spec (i + 1 + 1) n); [by apply wp_ret|].
    apply wp_bind, wp_esc_value; [done|lia|]. intros col Hcol. apply wp_bind, wp_looks; [|done|].
    + unfold fits in Hcol. destruct (Z.ltb_spec col 8); [look; auto with lia|].
      destruct (Z.ltb_spec col 16); [look; auto with lia|]. destruct (Z.ltb_spec col 256); [|look].
      apply looks_seq; [by auto|intros _]. apply rgb_index_looks. lia.
    + intros _ c2 Hc2 E2. apply wp_ret. splits; [done|congruence|]. intros j [= <-]. lia.
Qed.

Lemma sgr_loop_ok fuel i c : wf R C c → 0 ≤ i → esc_values_i (ctx_parser c) - i ≤ Z.of_nat fuel →
  wp (sgr_loop fuel i) (λ _ c', wf R C c' ∧ ctx_parser c' = ctx_parser c) c.
Proof.
  revert i c. induction fuel as [|fuel IH]; intros i c Hc Hi Hf; pose proof (ps_i _ (wf_ps _ _ _ Hc)) as H16; cbn [sgr_loop];
    apply wp_bind, wp_peek; (destruct (Z.geb_spec i (esc_values_i (ctx_parser c))); [by apply wp_ret|]); [lia|].
  apply wp_bind, wp_esc_value; [done|lia|]. intros v _. destruct ((v =? 38) || (v =? 48)).
  - apply wp_bind. eapply wp_mono; [apply sgr_extended_ok; [done|done|lia]|]. intros [j|] c1 (Hc1 & E1 & Hj); [|by apply wp_ret].
    specialize (Hj j eq_refl). eapply wp_mono; [apply IH; [done| |]|].
    + rewrite u64_small; lia.
    + rewrite E1, u64_small; lia.
    + intros _ c2 [Hc2 E2]. split; [done|congruence].
  - apply wp_bind, wp_looks; [apply sgr_simple_looks|done|]. intros _ c1 Hc1 E1. eapply wp_mono; [apply IH; [done| |]|].
    + rewrite u64_small; lia.
    + rewrite E1, u64_small; lia.
    + intros _ c2 [Hc2 E2]. split; [done|congruence].
Qed.

Lemma sgr_looks : looks sgr.
Proof.
  intros c Hc. apply wp_bind, wp_peek. destruct (_ =? 0); [by apply sgr_reset_looks|]. apply sgr_loop_ok; [done|done|].
  pose proof (ps_i _ (wf_ps _ _ _ Hc)). change (Z.of_nat (Z.to_nat FLANTERM_MAX_ESC_VALUES)) with 16. lia.
Qed.

(** ** Saved state, private sequences, operating-system commands *)

Lemma save_state_keeps : keeps save_state.
Proof.
  apply keeps_seq.
  - apply still_keeps, backend_still. intros c _. apply be_save_state_ok.
  - intros _. apply keeps_poke. intros c []. by split.
Qed.
Lemma restore_state_keeps : keeps restore_state.
Proof.
  apply keeps_seq.
  - apply keeps_poke. intros c []. by split.
  - intros _. apply still_keeps, backend_still. intros c _. apply be_restore_state_ok.
Qed.

Lemma fits_0 w : 0 ≤ w → fits w 0.
Proof. intros. unfold fits. pose proof (Z.pow_pos_nonneg 2 w). lia. Qed.
Lemma fits_u64 z : fits 64 (u64 z).
Proof. apply u64_range. Qed.
Lemma fits_col x : 0 ≤ x < 2 ^ 32 → fits 64 x.
Proof. unfold fits. lia. Qed.
Lemma fits_wider v : fits 32 v → fits 64 v.
Proof. unfold fits. lia. Qed.
#[local] Hint Resolve fits_u64 fits_wider : core.
#[local] Hint Extern 1 (fits 64 0) => (apply fits_0; lia) : core.

Lemma keeps_peek {A A'} (g : context → A) (f : A → M (terminal B) A') : (∀ c, wf R C c → keeps (f (g c))) → keeps (peek g ≫= f).
Proof. intros Hf c Hc. apply wp_bind, wp_peek. by apply (Hf c). Qed.
Lemma keeps_esc_value {A} i (f : Z → M (terminal B) A) : 0 ≤ i < 16 → (∀ v, fits 32 v → keeps (f v)) → keeps (esc_value i ≫= f).
Proof. intros Hi Hf c Hc. apply wp_bind, wp_esc_value; [done|done|]. intros v Hv. by apply Hf. Qed.
Lemma keeps_cursor {A} (f : Z * Z → M (terminal B) A) :
  (∀ x y, 0 ≤ x < C → 0 ≤ y < R → C < 2 ^ 32 → R < 2 ^ 32 → keeps (f (x, y))) → keeps (get_cursor_pos ≫= f).
Proof.
  intros Hf c Hc. apply wp_bind, wp_get_cursor_pos; [done|]. intros x y Hx Hy.
  apply Hf; [done|done|apply (wg_cols _ _ _ (wf_gm _ _ _ Hc))|apply (wg_rows _ _ _ (wf_gm _ _ _ Hc))|done].
Qed.
Lemma fits_pos x : 0 ≤ x < 2 ^ 64 → fits 64 x.
Proof. done. Qed.
Lemma keeps_loop body n lo : (∀ i, lo ≤ i < lo + Z.of_nat n → keeps (body i)) → keeps (for_loop n lo body).
Proof. intros Hb c Hc. apply (wp_for_loop (λ _, wf R C)); [done|]. intros i c' Hi Hc'. by apply Hb. Qed.

Lemma wf_cols c : wf R C c → cols (ctx_geom c) = C ∧ 0 < C < 2 ^ 32.
Proof. intros Hc. apply (wg_cols _ _ _ (wf_gm _ _ _ Hc)). Qed.
Lemma wf_rows c : wf R C c → rows (ctx_geom c) = R ∧ 0 < R < 2 ^ 32.
Proof. intros Hc. apply (wg_rows _ _ _ (wf_gm _ _ _ Hc)). Qed.
Lemma wf_margins c : wf R C c → 0 ≤ scroll_top_margin (ctx_geom c) < scroll_bottom_margin (ctx_geom c) ∧
  scroll_bottom_margin (ctx_geom c) ≤ R.
Proof. intros Hc. apply (wg_margins _ _ _ (wf_gm _ _ _ Hc)). Qed.

Lemma cursor_keeps x y : fits 64 x → fits 64 y → keeps (set_cursor_pos x y).
Proof. intros. by apply still_keeps, set_cursor_pos_still. Qed.
Lemma top_fits c : wf R C c → fits 64 (scroll_top_margin (ctx_geom c)).
Proof. intros Hc. pose proof (wf_margins c Hc). pose proof (wf_rows c Hc). unfold fits. lia. Qed.

Lemma wf_set_origin v l : wf_look l → wf_look (set_origin_mode v l).
Proof. intros []. by split. Qed.

Lemma dec_private_one_keeps set v : keeps (dec_private_one set v).
Proof.
  unfold dec_private_one. destruct (v =? 6).
  { apply keeps_seq; [apply keeps_upd_look; intros; by apply wf_set_origin|intros _]. apply keeps_peek. intros c Hc.
    apply cursor_keeps; [by auto|]. destruct set; [by apply top_fits|by auto]. }
  destruct (v =? 7); [by apply keeps_upd_modes|]. destruct (v =? 25); [by apply keeps_upd_modes|].
  destruct (v =? 1049); [|apply ret_keeps].
  destruct set; apply keeps_seq; by auto using still_keeps, save_state_keeps, restore_state_keeps.
Qed.

Lemma wf_set_dec_private v p : wf_parser p → wf_parser (set_dec_private v p).
Proof. intros []. by split. Qed.
Lemma dec_private_parse_keeps c : keeps (dec_private_parse c).
Proof.
  unfold dec_private_parse. apply keeps_seq; [apply keeps_upd_parser, wf_set_dec_private|intros _].
  apply keeps_peek. intros c0 Hc0. pose proof (ps_i _ (wf_ps _ _ _ Hc0)). destruct (_ =? 0); [apply ret_keeps|].
  destruct (toggle c); [|apply ret_keeps]. apply keeps_seq.
  - apply keeps_loop. intros i Hi. apply keeps_esc_value; [lia|]. intros v _. apply dec_private_one_keeps.
  - intros _. apply keeps_peek. intros. apply still_keeps, report_still.
Qed.
Lemma linux_private_keeps : keeps linux_private_parse.
Proof.
  apply keeps_peek. intros c0 Hc0. destruct (_ =? 0); [apply ret_keeps|]. apply keeps_peek. intros. apply still_keeps, report_still.
Qed.
Lemma mode_toggle_keeps c : keeps (mode_toggle c).
Proof.
  apply keeps_peek. intros c0 Hc0. destruct (_ =? 0); [apply ret_keeps|]. destruct (toggle c); [|apply ret_keeps].
  apply keeps_esc_value; [lia|]. intros v _. destruct (v =? 4); [by apply keeps_upd_modes|].
  apply keeps_peek. intros. apply still_keeps, report_still.
Qed.

Lemma osc_finalize_still : still osc_finalize.
Proof.
  intros c Hc. apply wp_bind, wp_peek. destruct (callback c); [|by apply wp_ret]. apply wp_bind, wp_peek. cbv zeta.
  destruct (osc_number _ _ _) as [[n i]|]; [|by apply wp_ret]. by apply wp_report.
Qed.
Lemma wf_set_osc v p : wf_parser p → wf_parser (set_osc v p).
Proof. intros []. by split. Qed.
Lemma wf_set_osc_escape v p : wf_parser p → wf_parser (set_osc_escape v p).
Proof. intros []. by split. Qed.
Lemma wf_set_escape v p : wf_parser p → wf_parser (set_escape v p).
Proof. intros []. by split. Qed.
Lemma wf_set_control v p : wf_parser p → wf_parser (set_control_sequence v p).
Proof. intros []. by split. Qed.
Lemma wf_set_csi_unhandled v p : wf_parser p → wf_parser (set_csi_unhandled v p).
Proof. intros []. by split. Qed.
Lemma wf_set_discard_next v p : wf_parser p → wf_parser (set_discard_next v p).
Proof. intros []. by split. Qed.
Lemma wf_set_offset v p : fits 64 v → wf_parser p → wf_parser (set_escape_offset v p).
Proof. intros Hv []. by split. Qed.
Lemma wf_set_select v p : 0 ≤ v ≤ 2 → wf_parser p → wf_parser (set_g_select v p).
Proof. intros Hv []. by split. Qed.
Lemma wf_set_osc_i v p : 0 ≤ v ≤ 256 → wf_parser p → wf_parser (set_osc_buf_i v p).
Proof. intros Hv []. destruct ps_osc0 as (? & ? & ?). by split. Qed.
Lemma wf_set_remaining v p : 0 ≤ v ≤ 3 → wf_parser p → wf_parser (set_unicode_remaining v p).
Proof. intros Hv []. destruct ps_unicode0. by split. Qed.
Lemma wf_set_code_point v p : fits 64 v → wf_parser p → wf_parser (set_code_point v p).
Proof. intros Hv []. destruct ps_unicode0. by split. Qed.

Lemma end_osc_keeps : keeps end_osc.
Proof.
  repeat first [apply keeps_upd_parser; auto using wf_set_osc, wf_set_osc_escape, wf_set_escape | apply keeps_seq; [|intros _]].
Qed.
Lemma osc_store_keeps c : keeps (osc_store c).
Proof.
  intros c0 Hc. apply wp_bind, wp_peek. destruct (Z.ltb_spec (osc_buf_i (ctx_parser c0)) 256); [|by apply wp_ret].
  pose proof (wf_ps _ _ _ Hc) as Hp. destruct (ps_osc _ Hp) as (Hlen & Hall & Hi).
  apply wp_bind, element_zlookup; [lia|]. intros _ _. apply wp_bind, wp_upd_parser, wp_upd_parser. cbn.
  assert (Hbuf : length (zinsert (osc_buf_i (ctx_parser c0)) (u8 c) (osc_buf (ctx_parser c0))) = 256%nat ∧
    Forall (fits 8) (zinsert (osc_buf_i (ctx_parser c0)) (u8 c) (osc_buf (ctx_parser c0)))).
  { split; [by rewrite length_zinsert|]. unfold zinsert. destruct (_ <? 0); [done|]. apply Forall_insert; [done|apply u8_range]. }
  destruct Hbuf. apply wf_parser_upd; [apply wf_parser_upd; [done|]|]; destruct Hp; split; try done; cbn; splits; (done || lia).
Qed.
Lemma osc_parse_keeps c : keeps (osc_parse c).
Proof.
  apply keeps_peek. intros c0 _. destruct (osc_escape (ctx_parser c0)).
  - destruct (c =? ch "\").
    + apply keeps_seq; [apply still_keeps, osc_finalize_still|intros _]. apply keeps_seq; [apply end_osc_keeps|intros; apply ret_keeps].
    + apply keeps_seq; [apply keeps_upd_parser, wf_set_osc_escape|intros _].
      apply keeps_seq; [apply keeps_upd_parser, wf_set_osc|intros; apply ret_keeps].
  - apply keeps_seq; [|intros; apply ret_keeps]. destruct (c =? 0x1b); [apply keeps_upd_parser, wf_set_osc_escape|].
    destruct (c =? 0x07); [|apply osc_store_keeps]. apply keeps_seq; [apply still_keeps, osc_finalize_still|intros; apply end_osc_keeps].
Qed.

(** ** Control characters *)

Lemma wf_set_charset v l : v = 0 ∨ v = 1 → wf_look l → wf_look (set_current_charset v l).
Proof. intros Hv []. by split. Qed.

Lemma line_feed_keeps x y : 0 ≤ x < C → 0 ≤ y < R → C < 2 ^ 32 → R < 2 ^ 32 → keeps (line_feed x y).
Proof.
  intros. apply keeps_peek. intros c Hc.
  destruct (_ =? _); [apply keeps_seq; [by apply still_keeps, scroll_still|intros _]; apply cursor_keeps; unfold fits; lia|].
  destruct (_ <? _); [|apply ret_keeps]. apply cursor_keeps; unfold fits; lia.
Qed.

(** [m], then a result *)
Lemma keeps_then {A A'} (m : M (terminal B) A) (a : A') : keeps m → keeps (m;; mret a).
Proof. intros Hm. apply keeps_seq; [done|intros; apply ret_keeps]. Qed.

Lemma execute_c0_keeps c : keeps (execute_c0 c).
Proof.
  unfold execute_c0. destruct (c =? 0x07); [apply keeps_then, still_keeps, report_still|].
  destruct (c =? 0x08).
  { apply keeps_cursor. intros. apply keeps_then, keeps_when. intros. apply cursor_keeps; unfold fits; lia. }
  destruct (c =? 0x09).
  { apply keeps_cursor. intros. apply keeps_peek. intros c0 Hc0. rewrite (wf_tab _ _ _ Hc0). cbn [Z.eqb].
    apply keeps_peek. intros c1 Hc1. apply keeps_then, cursor_keeps; [|unfold fits; lia]. destruct (_ >=? _); by auto. }
  destruct (_ || _); [apply keeps_cursor; intros; by apply keeps_then, line_feed_keeps|].
  destruct (c =? 0x0d); [apply keeps_cursor; intros; apply keeps_then, cursor_keeps; [by auto|unfold fits; lia]|].
  destruct (c =? 14); [apply keeps_then, keeps_upd_look; auto using wf_set_charset|].
  destruct (c =? 15); [apply keeps_then, keeps_upd_look; auto using wf_set_charset|].
  apply ret_keeps.
Qed.

(** ** Control sequences *)

Lemma csi_up_keeps x y : 0 ≤ x < C → 0 ≤ y < R → C < 2 ^ 32 → R < 2 ^ 32 → keeps (csi_up x y).
Proof.
  intros. apply keeps_esc_value; [lia|]. intros v _. apply keeps_seq; [apply keeps_when; intros; by apply set_esc_value_keeps|intros _].
  apply keeps_esc_value; [lia|]. intros v' _. apply keeps_peek. intros c Hc. cbv zeta. apply cursor_keeps; [unfold fits; lia|].
  destruct (_ <? _); [|by auto]. destruct (origin_mode _); [by apply top_fits|by auto].
Qed.
Lemma csi_down_keeps x y : 0 ≤ x < C → 0 ≤ y < R → C < 2 ^ 32 → R < 2 ^ 32 → keeps (csi_down x y).
Proof.
  intros. apply keeps_esc_value; [lia|]. intros v _. apply keeps_peek. intros c Hc. cbv zeta.
  apply keeps_seq; [apply keeps_when; intros; by apply set_esc_value_keeps|intros _].
  apply keeps_esc_value; [lia|]. intros v' _. cbv zeta. apply cursor_keeps; [unfold fits; lia|]. by destruct (_ >=? _).
Qed.
Lemma csi_right_keeps x y : 0 ≤ x < C → 0 ≤ y < R → C < 2 ^ 32 → R < 2 ^ 32 → keeps (csi_right x y).
Proof.
  intros. apply keeps_esc_value; [lia|]. intros v _. apply keeps_peek. intros c Hc.
  apply keeps_seq; [apply keeps_when; intros; by apply set_esc_value_keeps|intros _].
  apply keeps_esc_value; [lia|]. intros v' _. apply cursor_keeps; [by auto|unfold fits; lia].
Qed.
Lemma csi_left_keeps x y : 0 ≤ x < C → 0 ≤ y < R → C < 2 ^ 32 → R < 2 ^ 32 → keeps (csi_left x y).
Proof.
  intros. apply keeps_esc_value; [lia|]. intros v _.
  apply keeps_seq; [apply keeps_when; intros; by apply set_esc_value_keeps|intros _].
  apply keeps_esc_value; [lia|]. intros v' _. apply cursor_keeps; [by auto|unfold fits; lia].
Qed.
Lemma esc_index_keeps i m : 0 ≤ i < 16 → keeps (esc_index i m).
Proof.
  intros Hi. apply keeps_esc_value; [done|]. intros v _.
  apply keeps_seq; [apply keeps_when; intros; by apply set_esc_value_keeps|intros _].
  apply keeps_esc_value; [done|]. intros v' _. apply keeps_when; intros; by apply set_esc_value_keeps.
Qed.
Lemma csi_row_keeps x : 0 ≤ x < 2 ^ 32 → keeps (csi_row x).
Proof.
  intros. apply keeps_peek. intros c Hc. destruct (row_range c) as [m o]. apply keeps_seq; [by apply esc_index_keeps|intros _].
  apply keeps_esc_value; [lia|]. intros v _. apply cursor_keeps; [unfold fits; lia|by auto].
Qed.
Lemma csi_column_keeps y : 0 ≤ y < 2 ^ 32 → keeps (csi_column y).
Proof.
  intros. apply keeps_peek. intros c Hc. apply keeps_seq; [by apply esc_index_keeps|intros _].
  apply keeps_esc_value; [lia|]. intros v Hv. apply cursor_keeps; [by auto|unfold fits; lia].
Qed.
Lemma csi_position_keeps : keeps csi_position.
Proof.
  intros. apply keeps_peek. intros c Hc. destruct (row_range c) as [m o]. apply keeps_peek. intros c1 Hc1.
  do 2 (apply keeps_seq; [by apply esc_index_keeps|intros _]).
  apply keeps_esc_value; [lia|]. intros v Hv. apply keeps_esc_value; [lia|]. intros v' Hv'. apply cursor_keeps; by auto.
Qed.

Lemma csi_lines_keeps step y : still step → 0 ≤ y < R → keeps (csi_lines step y).
Proof.
  intros Hstep Hy c Hc. pose proof (wf_margins c Hc) as Hm. apply wp_bind, wp_peek.
  destruct (Z.ltb_spec y (scroll_top_margin (ctx_geom c))); [by apply wp_ret|].
  destruct (Z.geb_spec y (scroll_bottom_margin (ctx_geom c))); [by apply wp_ret|]. cbn [orb].
  apply wp_bind, wp_upd_geom. set (c1 := set_ctx_geom _ c).
  assert (Hc1 : wf R C c1). { apply wf_geom_upd; [done|]. destruct (wf_gm _ _ _ Hc). split; try done. cbn. lia. }
  apply wp_bind, wp_esc_value; [done|lia|]. intros v _. apply wp_bind, wp_still; [by apply still_times|done|]. intros _.
  apply wp_upd_geom. apply wf_geom_upd; [done|]. destruct (wf_gm _ _ _ Hc). by split.
Qed.
Lemma csi_scroll_still step : still step → still (csi_scroll step).
Proof.
  intros Hstep c Hc. apply wp_bind, wp_peek. cbv zeta. apply wp_bind, wp_esc_value; [done|lia|]. intros v _. by apply still_times.
Qed.
Lemma csi_report_still x y : still (csi_report x y).
Proof.
  intros c Hc. apply wp_bind, wp_esc_value; [done|lia|]. intros v _. destruct (v =? 5); [by apply report_still|].
  destruct (v =? 6); [|by apply wp_ret]. apply wp_bind, wp_peek. by apply report_still.
Qed.
Lemma blank_row_still y : fits 64 y → still (blank_row y).
Proof.
  intros Hy c Hc. apply wp_bind, wp_still; [by apply set_cursor_pos_still; auto|done|]. intros _.
  apply wp_bind, wp_peek. by apply spaces_still.
Qed.

(** Code that leaves the context alone reads from a context that is well formed. *)
Lemma still_peek {A A'} (g : context → A) (f : A → M (terminal B) A') : (∀ c, wf R C c → still (f (g c))) → still (peek g ≫= f).
Proof. intros Hf c Hc. apply wp_bind, wp_peek. by apply (Hf c). Qed.
Lemma still_esc_value {A} i (f : Z → M (terminal B) A) : 0 ≤ i < 16 → (∀ v, fits 32 v → still (f v)) → still (esc_value i ≫= f).
Proof. intros Hi Hf c Hc. apply wp_bind, wp_esc_value; [done|done|]. intros v Hv. by apply Hf. Qed.
Lemma still_cursor {A} (f : Z * Z → M (terminal B) A) :
  (∀ x y, 0 ≤ x < C → 0 ≤ y < R → C < 2 ^ 32 → R < 2 ^ 32 → still (f (x, y))) → still (get_cursor_pos ≫= f).
Proof.
  intros Hf c Hc. destruct (wf_cols c Hc) as [_ ?]. destruct (wf_rows c Hc) as [_ ?].
  apply wp_bind, wp_get_cursor_pos; [done|]. intros x y Hx Hy. apply Hf; [done|done|lia|lia|done].
Qed.
Ltac fit := solve [auto | unfold fits; lia].

Lemma csi_erase_display_still x y : 0 ≤ x < C → 0 ≤ y < R → C < 2 ^ 32 → R < 2 ^ 32 → still (csi_erase_display x y).
Proof.
  intros. apply still_peek. intros c Hc. destruct (wf_rows c Hc) as [ER _]. apply still_esc_value; [lia|]. intros v _.
  assert (Hpos : still (set_cursor_pos x y)) by (apply set_cursor_pos_still; fit).
  destruct (v =? 0); [|destruct (v =? 1); [|destruct (_ || _); by auto]].
  - do 2 (apply still_seq; [by auto|intros _]). apply still_seq; [|by auto]. apply still_loop. intros i Hi. apply blank_row_still. fit.
  - apply still_seq; [apply still_loop; intros i Hi; apply blank_row_still; fit|intros _].
    apply still_seq; [apply set_cursor_pos_still; fit|intros _]. apply still_seq; by auto.
Qed.
Lemma csi_erase_line_still x y : 0 ≤ x < C → 0 ≤ y < R → C < 2 ^ 32 → R < 2 ^ 32 → still (csi_erase_line x y).
Proof.
  intros. apply still_peek. intros c Hc. apply still_esc_value; [lia|]. intros v _.
  assert (Hpos : ∀ x, 0 ≤ x < C → still (set_cursor_pos x y)) by (intros; apply set_cursor_pos_still; fit).
  repeat (destruct (v =? _); [apply still_seq; [apply Hpos; lia|intros _]; apply still_seq; by auto|]). by auto.
Qed.
Lemma shift_right_still x y n : 0 ≤ x < C → 0 ≤ y < R → C < 2 ^ 32 → R < 2 ^ 32 → 0 < n ≤ C - x → still (shift_right x y n).
Proof.
  intros. apply still_peek. intros c Hc. destruct (wf_cols c Hc) as [-> _]. unfold down_to. rewrite !u64_small by lia.
  destruct (Z.eqb_spec (x + n) 0); [lia|]. apply still_loop. intros i Hi. rewrite u64_small by lia. apply move_character_still; fit.
Qed.
Lemma csi_insert_still x y : 0 ≤ x < C → 0 ≤ y < R → C < 2 ^ 32 → R < 2 ^ 32 → still (csi_insert x y).
Proof.
  intros. apply still_peek. intros c Hc. destruct (wf_cols c Hc) as [-> _]. apply still_esc_value; [lia|]. intros n Hn. unfold fits in Hn.
  destruct (Z.eqb_spec n 0); [by auto|]. cbv zeta. rewrite (u64_small (C - x)) by lia.
  assert (Hpos : still (set_cursor_pos x y)) by (apply set_cursor_pos_still; fit).
  destruct (Z.gtb_spec n (C - x)); (apply still_seq; [apply shift_right_still; lia|intros _]); repeat (apply still_seq; [by auto|intros _]); by auto.
Qed.
Lemma csi_erase_still x y : 0 ≤ x < C → 0 ≤ y < R → C < 2 ^ 32 → R < 2 ^ 32 → still (csi_erase x y).
Proof.
  intros. apply still_cursor. intros. apply still_seq; [apply set_cursor_pos_still; fit|intros _]. apply still_peek. intros c Hc.
  apply still_esc_value; [lia|]. intros v _. apply still_seq; [by auto|intros _]. apply set_cursor_pos_still; fit.
Qed.
Lemma csi_delete_keeps x y : 0 ≤ x < C → 0 ≤ y < R → C < 2 ^ 32 → R < 2 ^ 32 → keeps (csi_delete x y).
Proof.
  intros. apply keeps_peek. intros c Hc. apply keeps_esc_value; [lia|]. intros v _.
  apply keeps_seq; [apply keeps_when; intros; by apply set_esc_value_keeps|intros _]. apply keeps_esc_value; [lia|]. intros v' _. cbv zeta.
  destruct (wf_cols c Hc) as [-> _]. apply keeps_seq.
  { apply still_keeps, still_loop. intros i Hi. pose proof (u64_range (x + v')). apply move_character_still; fit. }
  intros _. apply keeps_seq; [apply cursor_keeps; fit|intros _]. by apply still_keeps, csi_erase_still.
Qed.

Lemma wp_when b (m : M (terminal B) unit) (Q : unit → context → Prop) c :
  (b = true → wp m Q c) → (b = false → Q tt c) → wp (when b m) Q c.
Proof. destruct b; intros Ht Hf; [by apply Ht|by apply wp_ret, Hf]. Qed.

(** The margins that are asked for are taken only if they are in order.  A
    bottom margin of 0 would pass that test, but zeros have been replaced. *)
Definition nonzero (c : context) : Prop := Forall (λ v, v ≠ 0) (esc_values (ctx_parser c)).

Lemma csi_margins_ok c : wf R C c → nonzero c → wp csi_margins (λ _ c', wf R C c') c.
Proof.
  intros Hc Hnz. destruct (wf_rows c Hc) as [ER HR]. pose proof (wf_gm _ _ _ Hc) as Hg. pose proof (wf_ps _ _ _ Hc) as Hp.
  apply wp_bind, wp_peek. apply wp_bind, wp_upd_geom. apply wp_bind, wp_upd_geom. cbn.
  set (P := λ c', ∃ top bot, c' = set_ctx_geom (set_scroll_bottom_margin bot (set_scroll_top_margin top (ctx_geom c))) c ∧
    0 ≤ top ∧ 0 < bot < 2 ^ 32).
  apply wp_bind. eapply (wp_mono _ (λ _, P)).
  { apply wp_when; intros _; [|exists 0, R; splits; [by rewrite <-ER|done|lia|lia]].
    apply wp_bind, wp_value; [done|lia|]. intros v _ Hv. apply wp_upd_geom. exists (u32 (v - 1)), R.
    splits; [by rewrite <-ER|apply u32_range|lia|lia]. }
  intros _ c1 (top & bot & -> & Ht & Hb). apply wp_bind. eapply (wp_mono _ (λ _, P)).
  { apply wp_when; intros _; [|by exists top, bot]. apply wp_bind, wp_value; [done|lia|]. intros v Hin Hv. apply wp_upd_geom.
    exists top, v. splits; [done|done| |apply Hv]. unfold fits in Hv. assert (v ≠ 0) by exact (proj1 (Forall_forall _ _) Hnz v Hin). lia. }
  clear top bot Ht Hb. intros _ c1 (top & bot & -> & Ht & Hb). apply wp_bind, wp_peek. cbn.
  apply wp_bind. eapply (wp_mono _ (λ _, wf R C)).
  { apply wp_when.
    - intros _. apply wp_bind, wp_upd_geom, wp_upd_geom.
      apply (wf_geom_upd (set_scroll_bottom_margin (rows (ctx_geom c)) (set_scroll_top_margin 0 (ctx_geom c))) c Hc).
      destruct Hg; split; try done; cbn; lia.
    - intros [[_ Hb']%orb_false_iff Hlt]%orb_false_iff. rewrite Z.gtb_ltb, Z.ltb_ge in Hb'. rewrite Z.geb_leb, Z.leb_gt, u64_small in Hlt by lia.
      apply wf_geom_upd; [done|]. destruct Hg; split; try done; cbn; lia. }
  intros _ c1 Hc1. apply wp_bind, wp_peek. apply cursor_keeps; [by auto| |done]. destruct (origin_mode _); [by apply top_fits|by auto].
Qed.

Lemma repeat_one_still : still repeat_one.
Proof.
  apply still_peek. intros c Hc. apply still_seq.
  - apply still_when. intros _. apply still_cursor. intros x y Hx Hy ??. apply shift_right_still; lia.
  - intros _. apply still_peek. by auto.
Qed.
Lemma csi_repeat_keeps r w : keeps (csi_repeat r w).
Proof.
  apply keeps_peek. intros c Hc. destruct (negb _); [apply ret_keeps|]. apply keeps_seq; [by apply keeps_upd_modes|intros _].
  apply keeps_seq; [by apply keeps_upd_modes|intros _]. apply keeps_peek. intros c1 Hc1. apply keeps_esc_value; [lia|]. intros v _.
  apply still_keeps, still_times, repeat_one_still.
Qed.
Lemma save_cursor_keeps : keeps ('(sx, sy) ← get_cursor_pos; upd_geom (set_saved_cursor_x sx);; upd_geom (set_saved_cursor_y sy);; mret true).
Proof.
  apply keeps_cursor. intros x y Hx Hy ??. apply keeps_seq; [|intros _; apply keeps_then]; apply keeps_upd_geom; intros g [? ? ? []]; split; try done;
    cbn; split; fit.
Qed.

Lemma csi_dispatch_ok r w c x y c0 : wf R C c0 → (esc_default c ≠ 0 → nonzero c0) →
  0 ≤ x < C → 0 ≤ y < R → C < 2 ^ 32 → R < 2 ^ 32 → wp (csi_dispatch r w c x y) (λ _ c', wf R C c') c0.
Proof.
  intros Hc Hnz Hx Hy HC HR. unfold csi_dispatch. destruct (c =? 0x1b).
  { apply (keeps_seq); [by apply keeps_upd_modes|intros _|done]. apply keeps_seq; [by apply keeps_upd_modes|intros _].
    apply keeps_seq; [by apply keeps_upd_parser, wf_set_control|intros _].
    apply keeps_then, keeps_upd_parser. intros. apply wf_set_offset; by auto. }
  repeat match goal with |- wp (if ?b then _ else _) _ _ => destruct b eqn:? end;
    try (apply keeps_then; [|done]; by auto using still_keeps, csi_up_keeps, csi_down_keeps, csi_right_keeps, csi_left_keeps,
           csi_position_keeps, csi_lines_keeps, csi_report_still, csi_erase_display_still, csi_insert_still,
           csi_delete_keeps, csi_erase_still, csi_erase_line_still, csi_scroll_still, csi_repeat_keeps, linux_private_keeps,
           mode_toggle_keeps, looks_keeps, sgr_looks).
  - apply keeps_then, Hc. apply csi_up_keeps; lia.
  - apply keeps_then, Hc. apply csi_down_keeps; lia.
  - apply keeps_then, Hc. apply csi_row_keeps; lia.
  - apply keeps_then, Hc. apply csi_column_keeps; lia.
  - apply keeps_then, Hc. apply keeps_esc_value; [lia|]. by auto using still_keeps.
  - by apply save_cursor_keeps.
  - apply keeps_peek, Hc. intros c1 Hc1. destruct (wg_saved _ _ _ (wf_gm _ _ _ Hc1)). by apply keeps_then, cursor_keeps.
  - apply wp_bind. eapply wp_mono; [apply csi_margins_ok; [done|]|intros; by apply wp_ret]. apply Hnz.
    match goal with Hr : (c =? ch "r") = true |- _ => apply Z.eqb_eq in Hr; by rewrite Hr end.
  - by apply wp_ret.
  - apply keeps_seq; [|intros; apply ret_keeps|done].
    repeat (apply keeps_seq; [by apply keeps_upd_modes|intros _]). apply keeps_upd_parser. by apply wf_set_csi_unhandled.
Qed.

Lemma cleanup_keeps : keeps cleanup.
Proof. apply keeps_seq; [apply keeps_upd_parser, wf_set_control|intros; apply keeps_upd_parser, wf_set_escape]. Qed.

(** ** Parameters of a control sequence *)

Lemma csi_digit_keeps c : keeps (csi_digit c).
Proof.
  intros c0 Hc. pose proof (wf_ps _ _ _ Hc) as Hp. pose proof (ps_i _ Hp) as Hi. apply wp_bind, wp_peek.
  destruct (Z.eqb_spec (esc_values_i (ctx_parser c0)) FLANTERM_MAX_ESC_VALUES) as [|Hne]; [by apply wp_ret|].
  change FLANTERM_MAX_ESC_VALUES with 16 in Hne. apply wp_bind, wp_upd_parser.
  assert (Hc1 : wf R C (set_ctx_parser (set_rrr true (ctx_parser c0)) c0)).
  { apply wf_parser_upd; [done|]. destruct Hp; split; try done. cbn. lia. }
  revert Hc1. generalize (set_ctx_parser (set_rrr true (ctx_parser c0)) c0). 
  assert (Hlt : 0 ≤ esc_values_i (ctx_parser c0) < 16) by lia. revert Hlt. generalize (esc_values_i (ctx_parser c0)). clear. intros i Hi.
  apply keeps_esc_value; [done|]. intros v _. destruct (_ >? _); [apply ret_keeps|].
  apply keeps_seq; [by apply set_esc_value_keeps|intros _]. apply keeps_esc_value; [done|]. intros v' _. cbv zeta.
  destruct (_ >? _); by apply set_esc_value_keeps.
Qed.

Lemma csi_separator_keeps c : keeps (csi_separator c).
Proof.
  intros c0 Hc. pose proof (wf_ps _ _ _ Hc) as Hp. pose proof (ps_i _ Hp) as Hi. apply wp_bind, wp_peek.
  destruct (rrr (ctx_parser c0)) eqn:Hr.
  - pose proof (ps_rrr _ Hp Hr). apply wp_bind, wp_upd_parser. apply wp_bind, wp_upd_parser. apply wp_ret.
    apply (wf_parser_upd (set_rrr false (set_esc_values_i (esc_values_i (ctx_parser c0) + 1) (ctx_parser c0))) c0 Hc).
    destruct Hp; split; try done; cbn. lia.
  - destruct (c =? ch ";"); [|by apply wp_ret].
    destruct (Z.eqb_spec (esc_values_i (ctx_parser c0)) FLANTERM_MAX_ESC_VALUES) as [|Hne]; [by apply wp_ret|].
    change FLANTERM_MAX_ESC_VALUES with 16 in Hne. apply wp_bind, wp_set_esc_value; [done|lia|]. intros Hc1.
    apply wp_bind, wp_upd_parser, wp_ret. apply wf_parser_upd; [done|]. destruct (wf_ps _ _ _ Hc1); split; try done; cbn; [lia|by rewrite Hr].
Qed.

(** Parameter [j] is set to something else than 0. *)
Definition is_set (c : context) (j : Z) : Prop := ∃ v, zlookup (esc_values (ctx_parser c)) j = Some v ∧ v ≠ 0.
Lemma is_set_put c i v j : wf R C c → 0 ≤ i < 16 → is_set (put_value i v c) j ↔ if decide (i = j) then u32 v ≠ 0 else is_set c j.
Proof.
  intros Hc Hi. destruct (ps_values _ (wf_ps _ _ _ Hc)) as [Hlen _]. unfold is_set. cbn. rewrite zlookup_zinsert by lia.
  case_decide; [|done]. split; [by intros (? & [= <-] & ?)|by eauto].
Qed.

Lemma csi_defaults_ok c c0 : wf R C c0 → wp (csi_defaults c) (λ _ c', wf R C c' ∧ (esc_default c ≠ 0 → nonzero c')) c0.
Proof.
  intros Hc. pose proof (ps_i _ (wf_ps _ _ _ Hc)) as Hn. apply wp_bind, wp_peek. cbv zeta.
  set (n := esc_values_i (ctx_parser c0)) in *. set (d := esc_default c).
  assert (Hd : d = 0 ∨ d = 1) by (unfold d, esc_default; destruct (_ || _); auto).
  set (I := λ i c', wf R C c' ∧ (d ≠ 0 → ∀ j, n ≤ j < i → is_set c' j)).
  change FLANTERM_MAX_ESC_VALUES with 16. apply wp_bind. eapply wp_mono; [apply (wp_for_loop I)|].
  { split; [done|]. lia. }
  { intros i c1 Hi [H1 Hset]. apply wp_set_esc_value; [done|lia|]. intros H2. split; [done|]. intros Hd1 j Hj.
    apply is_set_put; [done|lia|]. case_decide; [by destruct Hd as [->| ->]|]. apply Hset; [done|lia]. }
  intros ? c1 [Hc1 Hset]. replace (n + Z.of_nat (Z.to_nat (16 - n))) with 16 in Hset by lia.
  destruct (Z.eqb_spec d 0) as [Hd0|Hd0]; cbn [negb when]; [by apply wp_ret|]. specialize (Hset Hd0).
  eapply wp_mono; [apply (wp_for_loop (λ i c', wf R C c' ∧ ∀ j, n ≤ j < 16 ∨ 0 ≤ j < i → is_set c' j))|].
  { split; [done|]. intros j [Hj|Hj]; [by apply Hset|lia]. }
  { intros i c2 Hi [Hc2 Hs]. destruct (wf_value _ i (wf_ps _ _ _ Hc2)) as (v & Hv & _); [lia|].
    apply wp_bind. eapply (wp_mono _ (λ a c', c' = c2 ∧ a = v)).
    { apply wp_bind, wp_peek. rewrite Hv. by apply wp_ret. }
    intros ? c3 [-> ->]. destruct (Z.eqb_spec v 0) as [->|Hv0]; cbn [when].
    - apply wp_set_esc_value; [done|lia|]. intros H3. split; [done|]. intros j Hj. apply is_set_put; [done|lia|].
      case_decide; [by destruct Hd as [->| ->]|]. apply Hs. lia.
    - apply wp_ret. split; [done|]. intros j Hj. destruct (decide (j = i)) as [->|]; [by exists v|]. apply Hs. lia. }
  intros ? c2 [Hc2 Hs]. split; [done|]. intros _. destruct (ps_values _ (wf_ps _ _ _ Hc2)) as [Hlen _].
  apply Forall_lookup. intros k v Hk. pose proof (lookup_lt_Some _ _ _ Hk). destruct (Hs (Z.of_nat k)) as (v' & Hv' & Hne); [lia|].
  unfold zlookup in Hv'. destruct (Z.ltb_spec (Z.of_nat k) 0); [lia|]. rewrite Nat2Z.id in Hv'. congruence.
Qed.

Lemma csi_execute_ok c c0 : wf R C c0 → (esc_default c ≠ 0 → nonzero c0) → wp (csi_execute c) (λ _ c', wf R C c') c0.
Proof.
  intros Hc Hnz. apply wp_bind, wp_peek. cbv zeta. apply wp_bind, wp_upd_modes. apply wp_bind, wp_upd_modes. cbn.
  set (c1 := set_ctx_modes _ _). assert (Hc1 : wf R C c1) by (destruct Hc; by split).
  apply wp_bind, wp_get_cursor_pos; [done|]. intros x y Hx Hy. destruct (wf_cols _ Hc1) as [_ ?]. destruct (wf_rows _ Hc1) as [_ ?].
  apply wp_bind. eapply wp_mono; [apply csi_dispatch_ok; (done || lia)|]. intros [] c2 Hc2; [|by apply wp_ret].
  revert c2 Hc2. apply keeps_seq; [by apply keeps_upd_modes|intros _]. apply keeps_seq; [by apply keeps_upd_modes|intros _]. apply cleanup_keeps.
Qed.

Lemma csi_final_keeps c : keeps (csi_final c).
Proof.
  intros c0 Hc. apply wp_bind. eapply wp_mono; [by apply csi_defaults_ok|]. intros _ c1 [Hc1 Hnz]. apply wp_bind, wp_peek.
  destruct (dec_private _).
  { destruct (between _ _ _); [|by apply keeps_seq; [apply dec_private_parse_keeps|intros; apply cleanup_keeps|]].
    apply keeps_seq; [apply keeps_upd_parser, wf_set_dec_private|intros _|done]. apply keeps_upd_parser, wf_set_csi_unhandled. }
  destruct (csi_unhandled _); [|by apply csi_execute_ok]. destruct (c =? 0x1b).
  { apply keeps_seq; [apply keeps_upd_parser, wf_set_csi_unhandled|intros _|done].
    apply keeps_seq; [apply keeps_upd_parser, wf_set_control|intros _]. apply keeps_upd_parser. intros. apply wf_set_offset; by auto. }
  destruct (between _ _ _); [|by apply wp_ret]. apply keeps_seq; [apply keeps_upd_parser, wf_set_csi_unhandled|intros; apply cleanup_keeps|done].
Qed.

Lemma control_sequence_keeps c : keeps (control_sequence_parse c).
Proof.
  apply keeps_peek. intros c0 _. destruct (_ && _); [apply keeps_seq; [apply keeps_upd_parser, wf_set_discard_next|intros; apply cleanup_keeps]|].
  destruct (_ && _); [apply keeps_upd_parser, wf_set_dec_private|].
  destruct (_ && _); [apply keeps_then, execute_c0_keeps|]. destruct (between _ _ _); [apply csi_digit_keeps|].
  apply keeps_seq; [apply csi_separator_keeps|]. intros []; [apply ret_keeps|apply csi_final_keeps].
Qed.

(** ** Escape sequences *)

Lemma wf_reset : wf_look reset_look.
Proof. split; cbn; [by left|by eauto|by right; left|by right; left]. Qed.
Lemma reinit_wf c : wf R C c → wf R C (flanterm_context_reinit c).
Proof.
  intros Hc. destruct (wf_rows c Hc) as [ER HR]. destruct (wf_gm _ _ _ Hc). destruct (wf_ps _ _ _ Hc).
  split; cbn; [done| |apply wf_reset|apply wf_reset| |].
  - destruct ps_unicode0. split; cbn; try done; lia.
  - split; cbn; [done|done|lia|]. split; fit.
  - done.
Qed.

Lemma esc_reset_keeps : keeps esc_reset.
Proof.
  apply keeps_peek. intros c _. apply keeps_seq; [apply keeps_when; by auto using still_keeps|intros _].
  apply keeps_seq; [apply keeps_poke, reinit_wf|intros _]. do 3 (apply keeps_seq; [by auto using still_keeps|intros _]). apply save_state_keeps.
Qed.
Lemma esc_next_line_keeps y : 0 ≤ y < R → R < 2 ^ 32 → keeps (esc_next_line y).
Proof.
  intros. apply keeps_peek. intros c Hc. destruct (_ =? _); [apply keeps_seq; [by auto using still_keeps|intros _]; apply cursor_keeps; fit|].
  destruct (_ <? _); apply cursor_keeps; fit.
Qed.
Lemma esc_reverse_index_keeps x y : 0 ≤ x < C → 0 ≤ y < R → C < 2 ^ 32 → R < 2 ^ 32 → keeps (esc_reverse_index x y).
Proof.
  intros. apply keeps_peek. intros c Hc. destruct (_ =? _); [apply keeps_seq; [by auto using still_keeps|intros _]; apply cursor_keeps; fit|].
  apply keeps_when. intros. apply cursor_keeps; fit.
Qed.
Lemma begin_osc_keeps : keeps begin_osc.
Proof.
  apply keeps_seq; [apply keeps_upd_parser, wf_set_osc_escape|intros _]. apply keeps_seq; [apply keeps_upd_parser, wf_set_osc|intros _].
  apply keeps_upd_parser. intros. by apply wf_set_osc_i.
Qed.
Lemma begin_csi_keeps : keeps begin_csi.
Proof.
  apply keeps_seq; [apply keeps_loop; intros i Hi; change (Z.of_nat (Z.to_nat FLANTERM_MAX_ESC_VALUES)) with 16 in Hi; apply set_esc_value_keeps; lia|intros _].
  apply keeps_seq; [apply keeps_upd_parser; intros p []; by split|intros _].
  apply keeps_seq; [apply keeps_upd_parser; intros p []; by split|intros _].
  apply keeps_seq; [apply keeps_upd_parser, wf_set_csi_unhandled|intros _]. apply keeps_upd_parser, wf_set_control.
Qed.

Lemma escape_dispatch_keeps c x y : 0 ≤ x < C → 0 ≤ y < R → C < 2 ^ 32 → R < 2 ^ 32 → keeps (escape_dispatch c x y).
Proof.
  intros. unfold escape_dispatch.
  repeat match goal with |- keeps (if ?b then _ else _) => destruct b eqn:? end; try apply ret_keeps; apply keeps_then;
    eauto using still_keeps, begin_osc_keeps, begin_csi_keeps, save_state_keeps, restore_state_keeps, esc_reset_keeps, line_feed_keeps,
      esc_next_line_keeps, esc_reverse_index_keeps.
  - apply keeps_upd_parser. intros. apply wf_set_offset; by auto.
  - apply keeps_upd_parser. intros p Hp. apply wf_set_select; [|done].
    match goal with Ho : _ || _ = true |- _ => apply orb_true_iff in Ho; destruct Ho as [->%Z.eqb_eq| ->%Z.eqb_eq]; by vm_compute end.
Qed.

Lemma escape_parse_keeps c : keeps (escape_parse c).
Proof.
  apply keeps_seq; [apply keeps_upd_parser; intros; apply wf_set_offset; by auto|intros _]. apply keeps_peek. intros c1 _.
  apply keeps_seq; [destruct (osc _); [apply osc_parse_keeps|apply ret_keeps]|]. intros []; [apply ret_keeps|].
  apply keeps_seq; [apply keeps_when; intros; apply keeps_upd_parser; intros; apply wf_set_offset; by auto || done|intros _].
  apply keeps_peek. intros c2 _. destruct (control_sequence _); [apply control_sequence_keeps|]. apply keeps_cursor. intros x y Hx Hy ??.
  apply keeps_seq; [by apply escape_dispatch_keeps|]. intros ends. apply keeps_when. intros. apply keeps_upd_parser, wf_set_escape.
Qed.
(** ** Text *)

(** ** Text *)

Lemma print_glyph_keeps c : keeps (print_glyph c).
Proof.
  apply keeps_seq; [apply keeps_poke; intros c0 []; split; try done; apply u8_range|intros _].
  apply keeps_seq; [apply keeps_poke; intros c0 []; by split|intros _]. by auto using still_keeps.
Qed.
Lemma dec_special_keeps c : keeps (dec_special_print c).
Proof. unfold dec_special_print. destruct (switch _ _); [apply keeps_then, print_glyph_keeps|apply ret_keeps]. Qed.
Lemma insert_shift_still n : still (insert_shift n).
Proof.
  apply still_peek. intros c _. destruct (_ && _) eqn:E; [|by auto]. apply andb_true_iff in E as [_ En]. apply Z.gtb_lt in En.
  apply still_cursor. intros x y Hx Hy ??. apply still_peek. intros c1 Hc1. destruct (wf_cols c1 Hc1) as [-> _]. cbv zeta.
  rewrite u64_small by lia. destruct (Z.gtb_spec n (C - x)); apply shift_right_still; lia.
Qed.
Lemma wp_mk_wcwidth {A} cp (f : Z → M (terminal B) A) (Q : A → context → Prop) c :
  wp (f (char_width cp)) Q c →
  wp ((λ t, match mk_wcwidth cp with Ok w => Ok (w, t) | Halt => Halt | Fault => Fault | Spin => Spin end) ≫= f) Q c.
Proof. intros Hf. apply wp_bind. rewrite mk_wcwidth_eq. intros t <- Hb. exists (char_width cp), t. by splits. Qed.

Lemma print_code_point_keeps cp : keeps (print_code_point cp).
Proof.
  unfold print_code_point. cbv zeta. destruct (_ =? _).
  - intros c Hc. apply wp_mk_wcwidth. revert c Hc. apply keeps_seq; [|intros _; by auto using still_keeps, still_times].
    apply keeps_when. intros _. apply keeps_seq; [apply still_keeps, insert_shift_still|intros; apply print_glyph_keeps].
  - apply keeps_seq; [apply still_keeps, insert_shift_still|intros; apply print_glyph_keeps].
Qed.

Lemma land_3f c : 0 ≤ Z.land c 0x3f < 2 ^ 6.
Proof. change 0x3f with (2 ^ 6 - 1). rewrite land_ones_mod by lia. by apply Z.mod_pos_bound. Qed.

Lemma unicode_step_keeps c c0 : wf R C c0 → unicode_remaining (ctx_parser c0) ≠ 0 → wp (unicode_step c) (λ _ c', wf R C c') c0.
Proof.
  intros Hc Hrem. unfold unicode_step. pose proof (wf_ps _ _ _ Hc) as Hp. destruct (ps_unicode _ Hp) as [Hr Hcp].
  destruct (negb _).
  { apply wp_bind, wp_peek. cbv zeta. revert c0 Hc Hrem Hp Hr Hcp. intros c0 Hc _ _ _ _.
    apply keeps_seq; [apply keeps_upd_parser; intros; by apply wf_set_remaining|intros _|done].
    apply keeps_seq; [apply keeps_upd_parser; intros; apply wf_set_code_point; by auto|intros _].
    apply keeps_then, keeps_when. intros _. apply still_keeps, still_seq; [apply insert_shift_still|by auto]. }
  apply wp_bind, wp_upd_parser. apply wp_bind, wp_upd_parser. cbn. set (cp := Z.lor _ _). set (c1 := set_ctx_parser _ _).
  assert (Hfit : fits 64 cp) by (apply lor_fits; [done|done|apply u64_range]).
  assert (Hc1 : wf R C c1).
  { apply (wf_parser_upd (set_code_point cp (set_unicode_remaining (unicode_remaining (ctx_parser c0) - 1) (ctx_parser c0))) c0 Hc).
    apply wf_set_code_point; [done|]. apply wf_set_remaining; [lia|done]. }
  clearbody c1. apply wp_bind, wp_peek. cbv zeta. destruct (_ >? _); [by apply wp_ret|]. destruct (_ || _).
  { apply keeps_seq; [apply still_keeps, insert_shift_still|intros _|done]. apply keeps_seq; [apply print_glyph_keeps|intros _].
    apply keeps_then, keeps_upd_parser. intros. apply wf_set_code_point; [by vm_compute|done]. }
  destruct (negb _); [by apply wp_ret|]. destruct (between _ _ _); [by apply wp_ret|]. by apply keeps_then; [apply print_code_point_keeps|].
Qed.

Lemma shifted_fits c m k : 0 ≤ m < 2 ^ 8 → 0 ≤ k ≤ 18 → fits 64 (Z.shiftl (Z.land c m) k).
Proof.
  intros Hm Hk. assert (0 ≤ Z.land c m ≤ m).
  { split; [apply Z.land_nonneg; lia|]. apply Z.ldiff_le; [lia|]. rewrite Z.ldiff_land, <-Z.land_assoc, Z.land_lnot_diag. apply Z.land_0_r. }
  rewrite Z.shiftl_mul_pow2 by lia. assert (1 ≤ 2 ^ k ≤ 2 ^ 18) by (split; [apply (Z.pow_le_mono_r 2 0)|apply Z.pow_le_mono_r]; lia).
  unfold fits. nia.
Qed.
Lemma unicode_start_keeps c : keeps (unicode_start c).
Proof.
  unfold unicode_start. apply keeps_seq; [apply keeps_upd_parser; intros; by apply wf_set_select|intros _].
  repeat (destruct (between _ _ _); [apply keeps_seq; [apply keeps_upd_parser; intros; by apply wf_set_remaining|intros _];
    apply keeps_upd_parser; intros; apply wf_set_code_point; [by apply shifted_fits|done]|]). apply ret_keeps.
Qed.
Lemma discard_keeps : keeps discard.
Proof.
  unfold discard. do 7 (apply keeps_seq; [apply keeps_upd_parser; intros;
    auto using wf_set_discard_next, wf_set_escape, wf_set_control, wf_set_osc, wf_set_osc_escape; (by apply wf_set_remaining) || by apply wf_set_select|intros _]).
  apply keeps_poke. intros c []. by split.
Qed.
Lemma select_charset_keeps c c0 : wf R C c0 → g_select (ctx_parser c0) ≠ 0 → wp (select_charset c) (λ _ c', wf R C c') c0.
Proof.
  intros Hc Hg. pose proof (wf_ps _ _ _ Hc) as Hp. pose proof (ps_select _ Hp) as Hs. apply wp_bind, wp_upd_parser.
  rewrite (u8_small (g_select (ctx_parser c0) - 1)) by lia. set (g := g_select (ctx_parser c0) - 1).
  assert (Hg01 : g = 0 ∨ g = 1) by lia. set (c1 := set_ctx_parser _ _).
  assert (Hc1 : wf R C c1) by (apply wf_parser_upd; [done|]; apply wf_set_select; [lia|done]).
  assert (Eg : g_select (ctx_parser c1) = g) by done. clearbody c1.
  apply wp_bind, wp_peek. apply wp_bind, wp_peek. rewrite Eg. destruct (wl_charsets _ (wf_lk _ _ _ Hc1)) as (a & b & Ecs).
  apply wp_bind. eapply (wp_mono _ (λ _, wf R C)).
  - assert (Hset : ∀ v, wp (element (zlookup (charsets (ctx_look c1)) g);; upd_look (set_charsets (zinsert g v (charsets (ctx_look c1)))))
      (λ _, wf R C) c1).
    { intros v. apply wp_bind, element_zlookup; [rewrite Ecs; cbn; lia|]. intros _ _. apply wp_upd_look, wf_look_upd; [done|].
      destruct (wf_lk _ _ _ Hc1). split; try done. cbn. rewrite Ecs. destruct Hg01 as [->| ->]; cbn; eauto. }
    destruct (c =? ch "B"); [apply Hset|]. destruct (c =? ch "0"); [apply Hset|by apply wp_ret].
  - intros ? c2. apply keeps_upd_parser. intros. by apply wf_set_select.
Qed.

Lemma put_text_keeps c : keeps (put_text c).
Proof.
  apply keeps_seq; [apply keeps_when; intros; apply keeps_poke; intros c0 []; by split|intros _].
  destruct (_ || _); [apply ret_keeps|]. destruct (c =? 0x1b).
  { apply keeps_seq; [apply keeps_upd_parser; intros; apply wf_set_offset; by auto|intros _]. apply keeps_upd_parser, wf_set_escape. }
  destruct (c <? 0x20); [apply keeps_then, execute_c0_keeps|]. apply keeps_seq; [apply still_keeps, insert_shift_still|intros _].
  apply keeps_peek. intros c0 Hc0. pose proof (wf_lk _ _ _ Hc0) as Hl. destruct (wl_charsets _ Hl) as (a & b & ->).
  intros c1 Hc1. apply wp_bind, element_zlookup; [destruct (wl_charset _ Hl) as [->| ->]; cbn; lia|]. intros cs _. revert c1 Hc1.
  apply keeps_seq; [destruct (cs =? _); [apply dec_special_keeps|apply ret_keeps]|]. intros []; [apply ret_keeps|].
  destruct (between _ _ _); [apply print_glyph_keeps|]. apply keeps_when. intros. apply print_glyph_keeps.
Qed.

Lemma put_byte_keeps c : keeps (put_byte c).
Proof.
  intros c0 Hc. apply wp_bind, wp_peek. destruct (_ && _); [by apply unicode_start_keeps|].
  destruct (escape _); [by apply escape_parse_keeps|]. destruct (Z.eqb_spec (g_select (ctx_parser c0)) 0); cbn [negb]; [by apply put_text_keeps|].
  destruct (_ || _); [|by apply select_charset_keeps]. apply keeps_seq; [|intros; apply put_text_keeps|done].
  apply keeps_upd_parser. intros. by apply wf_set_select.
Qed.

Lemma putchar_keeps c : keeps (flanterm_putchar c).
Proof.
  intros c0 Hc. apply wp_bind, wp_peek. destruct (_ || _); [by apply discard_keeps|].
  destruct (negb (escape _) && _) eqn:E; [|by apply put_byte_keeps]. apply andb_true_iff in E as [_ Hrem%negb_true_iff%Z.eqb_neq].
  apply wp_bind. eapply wp_mono; [by apply unicode_step_keeps|]. intros [] c1 Hc1; [by apply wp_ret|by apply put_byte_keeps].
Qed.
Lemma put_bytes_keeps bs : keeps (put_bytes bs).
Proof. induction bs as [|b bs IH]; cbn [put_bytes]; [apply ret_keeps|]. apply keeps_seq; [apply putchar_keeps|by intros]. Qed.
Lemma auto_flush_still : still auto_flush.
Proof. apply still_peek. intros c _. apply still_when. intros _. apply flush_still. Qed.
Lemma write_keeps bs : keeps (flanterm_write bs).
Proof. apply keeps_seq; [apply put_bytes_keeps|intros; apply still_keeps, auto_flush_still]. Qed.

(** A terminal of [R] rows and [C] columns whose fields are within their types *)
Definition terminal_ok (t : terminal B) : Prop := wf R C (t_ctx t) ∧ be_inv R C (t_be t).

End safety.

(** C16: On any screen that keeps to its interface, a terminal whose fields are within their types processes every sequence of
    bytes without leaving an array, dividing by zero or looping for ever, and its fields stay within their types: counters and
    indices within their arrays, margins in order within the screen, palette indices below 8 or one of the two markers. *)
Theorem flanterm_write_safe {B} `{BackendOk B} R C bytes t : terminal_ok R C t →
  ∃ t', flanterm_write bytes t = Ok (tt, t') ∧ terminal_ok R C t'.
Proof.
  intros [Hc Hb]. destruct (write_keeps R C bytes (t_ctx t) Hc t eq_refl Hb) as ([] & t' & E & Hb' & Hc'). by exists t'.
Qed.
