(* ===== verification/Fb.v ===== *)
(** * The screen of the terminal

    src/kernel/main/terminal/src/flanterm_backends/fb.c: a grid of characters on
    a framebuffer.  Changes are collected in a queue, with a map from cells to
    queue items, and drawn by [flanterm_fb_double_buffer_flush].  Grid, queue,
    map, font and canvas are arrays, read and written within their bounds or a
    [Fault]; the framebuffer is a finite map from pixel numbers to colours.
    The functions are an instance of the class [Backend]. *)
From Stdlib Require Import ZArith Lia.
From stdpp Require Import base option list gmap.
From S2P Require Import Prelude Term.

(** ** The built-in font

    The table of src/kernel/main/terminal/src/flanterm_backends/fb.c: 256 glyphs
    of 16 bytes, one byte for each row of eight pixels. *)

Definition builtin_font_0 : list Z :=
  [
    0; 0; 0; 0; 0; 0; 0; 0; 0; 0; 0; 0; 0; 0; 0; 0; 0; 60; 66; 129; 129; 165; 165; 129; 129; 165; 153; 129; 66;
    60; 0; 0; 0; 60; 126; 255; 255; 219; 219; 255; 255; 219; 231; 255; 126; 60; 0; 0; 0; 0; 0; 108; 254; 254;
    254; 124; 124; 56; 56; 16; 16; 0; 0; 0; 0; 16; 16; 56; 56; 124; 124; 254; 124; 124; 56; 56; 16; 16; 0; 0; 0;
    0; 0; 24; 60; 60; 219; 255; 255; 219; 24; 24; 60; 0; 0; 0; 0; 0; 0; 24; 60; 126; 255; 255; 255; 102; 24; 24;
    60; 0; 0; 0; 0; 0; 0; 0; 0; 0; 48; 120; 120; 48; 0; 0; 0; 0; 0; 0; 255; 255; 255; 255; 255; 255; 231; 195;
    195; 231; 255; 255; 255; 255; 255; 255; 0; 0; 0; 0; 0; 120; 204; 132; 132; 204; 120; 0; 0; 0; 0; 0; 255;
    255; 255; 255; 255; 195; 153; 189; 189; 153; 195; 255; 255; 255; 255; 255; 0; 0; 0; 30; 14; 30; 50; 120;
    204; 204; 204; 120; 0; 0; 0; 0; 0; 0; 0; 120; 204; 204; 204; 120; 48; 252; 48; 48; 0; 0; 0; 0; 0; 0; 16; 24;
    28; 30; 22; 18; 16; 16; 112; 240; 224; 0; 0; 0; 0; 48; 56; 44; 38; 50; 58; 46; 38; 34; 98; 226; 198; 14; 12;
    0; 0; 0; 0; 24; 24; 219; 60; 231; 60; 219; 24; 24; 0; 0; 0; 0; 0; 0; 0; 128; 192; 224; 248; 254; 248; 224;
    192; 128; 0; 0; 0; 0; 0; 0; 0; 2; 6; 14; 62; 254; 62; 14; 6; 2; 0; 0; 0; 0; 0; 0; 48; 120; 252; 48; 48; 48;
    48; 48; 252; 120; 48; 0; 0; 0; 0; 0; 204; 204; 204; 204; 204; 204; 204; 204; 0; 204; 204; 0; 0; 0; 0; 0;
    127; 219; 219; 219; 219; 123; 27; 27; 27; 27; 27; 0; 0; 0; 0; 0; 124; 198; 96; 56; 108; 198; 198; 108; 56;
    12; 198; 124; 0; 0; 0; 0; 0; 0; 0; 0; 0; 0; 0; 0; 254; 254; 254; 0; 0; 0; 0; 0; 48; 120; 252; 48; 48; 48;
    48; 48; 252; 120; 48; 252; 0; 0; 0; 0; 48; 120; 252; 48; 48; 48; 48; 48; 48; 48; 48; 0; 0; 0; 0; 0; 48; 48;
    48; 48; 48; 48; 48; 48; 252; 120; 48; 0; 0; 0; 0; 0; 0; 0; 0; 24; 12; 254; 254; 12; 24; 0; 0; 0; 0; 0; 0; 0;
    0; 0; 0; 48; 96; 254; 254; 96; 48; 0; 0; 0; 0; 0; 0; 0; 0; 0; 0; 0; 0; 192; 192; 192; 254; 0; 0; 0; 0; 0; 0;
    0; 0; 0; 0; 36; 102; 255; 255; 102; 36; 0; 0; 0; 0; 0; 0; 0; 0; 0; 16; 16; 56; 56; 124; 124; 254; 254; 0; 0;
    0; 0; 0; 0; 0; 0; 254; 254; 124; 124; 56; 56; 16; 16; 0; 0; 0; 0; 0; 0; 0; 0; 0; 0; 0; 0; 0; 0; 0; 0; 0; 0;
    0; 0; 0; 0; 48; 120; 120; 120; 120; 48; 48; 48; 0; 48; 48; 0; 0; 0; 0; 0; 204; 204; 204; 204; 204; 0; 0; 0;
    0; 0; 0; 0; 0; 0; 0; 0; 108; 108; 108; 254; 108; 108; 108; 254; 108; 108; 108; 0; 0; 0; 0; 24; 24; 124; 198;
    192; 192; 124; 6; 6; 198; 124; 24; 24; 0; 0; 0; 0; 198; 198; 12; 12; 24; 56; 48; 96; 96; 198; 198; 0; 0; 0;
    0; 0; 56; 108; 108; 56; 48; 118; 222; 204; 204; 222; 118; 0; 0; 0; 0; 0; 24; 24; 24; 48; 0; 0; 0; 0; 0; 0;
    0; 0; 0; 0; 0; 0; 24; 48; 96; 96; 96; 96; 96; 96; 96; 48; 24; 0; 0; 0; 0; 0; 96; 48; 24; 24; 24; 24; 24; 24;
    24; 48; 96; 0; 0; 0; 0; 0; 0; 0; 0; 108; 56; 254; 56; 108; 0; 0; 0; 0; 0; 0; 0; 0; 0; 0; 0; 24; 24; 126; 24;
    24; 0; 0; 0; 0; 0; 0; 0; 0; 0; 0; 0; 0; 0; 0; 0; 0; 0; 24; 24; 48; 0; 0; 0; 0; 0; 0; 0; 0; 0; 254; 0; 0; 0;
    0; 0; 0; 0; 0; 0; 0; 0; 0; 0; 0; 0; 0; 0; 0; 0; 24; 24; 0; 0; 0; 0; 0; 6; 6; 12; 12; 24; 56; 48; 96; 96;
    192; 192; 0; 0; 0; 0; 0; 124; 198; 198; 198; 214; 214; 214; 198; 198; 198; 124; 0; 0; 0; 0; 0; 24; 56; 120;
    24; 24; 24; 24; 24; 24; 24; 126; 0; 0; 0; 0; 0; 124; 198; 6; 6; 12; 24; 48; 96; 192; 192; 254; 0; 0; 0; 0;
    0; 124; 198; 6; 6; 60; 6; 6; 6; 6; 198; 124; 0; 0; 0; 0; 0; 4; 12; 28; 60; 108; 204; 254; 12; 12; 12; 12; 0;
    0; 0; 0; 0; 254; 192; 192; 192; 252; 6; 6; 6; 6; 198; 124; 0; 0; 0; 0; 0; 60; 96; 192; 192; 252; 198; 198;
    198; 198; 198; 124; 0; 0; 0; 0; 0; 254; 198; 6; 6; 12; 24; 48; 48; 48; 48; 48; 0; 0; 0; 0; 0; 124; 198; 198;
    198; 124; 198; 198; 198; 198; 198; 124; 0; 0; 0; 0; 0; 124; 198; 198; 198; 198; 126; 6; 6; 6; 12; 120; 0; 0;
    0; 0; 0; 0; 0; 0; 0; 0; 24; 24; 0; 0; 24; 24; 0; 0; 0; 0; 0; 0; 0; 0; 0; 0; 24; 24; 0; 0; 24; 24; 48; 0; 0;
    0; 0; 6; 12; 24; 48; 96; 192; 96; 48; 24; 12; 6; 0; 0; 0; 0; 0; 0; 0; 0; 0; 254; 0; 254; 0; 0; 0; 0; 0; 0;
    0; 0; 0; 192; 96; 48; 24; 12; 6; 12; 24; 48; 96; 192; 0; 0; 0; 0; 0; 124; 198; 198; 6; 12; 24; 48; 48; 0;
    48; 48; 0; 0; 0; 0; 0; 124; 198; 198; 198; 222; 222; 222; 222; 192; 192; 126; 0; 0; 0; 0; 0; 56; 108; 198;
    198; 198; 198; 254; 198; 198; 198; 198; 0; 0; 0; 0; 0; 252; 198; 198; 198; 252; 198; 198; 198; 198; 198;
    252; 0; 0; 0; 0; 0; 124; 198; 192; 192; 192; 192; 192; 192; 192; 198; 124; 0; 0; 0; 0; 0; 248; 204; 198;
    198; 198; 198; 198; 198; 198; 204; 248; 0; 0; 0; 0; 0; 254; 192; 192; 192; 252; 192; 192; 192; 192; 192;
    254; 0; 0; 0; 0; 0; 254; 192; 192; 192; 252; 192; 192; 192; 192; 192; 192; 0; 0; 0; 0; 0; 124; 198; 192;
    192; 192; 222; 198; 198; 198; 198; 126; 0; 0; 0; 0; 0; 198; 198; 198; 198; 198; 254; 198; 198; 198; 198;
    198; 0; 0; 0; 0; 0; 252; 48; 48; 48; 48; 48; 48; 48; 48; 48; 252; 0; 0; 0; 0; 0; 30; 12; 12; 12; 12; 12; 12;
    12; 204; 204; 120; 0; 0; 0; 0; 0; 198; 198; 204; 216; 240; 224; 240; 216; 204; 198; 198; 0; 0; 0; 0; 0; 192;
    192; 192; 192; 192; 192; 192; 192; 192; 192; 254; 0; 0; 0; 0; 0; 198; 198; 238; 254; 214; 214; 214; 198;
    198; 198; 198; 0; 0; 0; 0; 0; 198; 198; 230; 230; 246; 222; 206; 206; 198; 198; 198; 0; 0; 0; 0; 0; 124;
    198; 198; 198; 198; 198; 198; 198; 198; 198; 124; 0; 0; 0; 0; 0; 252; 198; 198; 198; 198; 252; 192; 192;
    192; 192; 192; 0; 0; 0; 0; 0; 124; 198; 198; 198; 198; 198; 198; 198; 246; 218; 108; 6; 0; 0; 0; 0; 252;
    198; 198; 198; 198; 252; 216; 204; 204; 198; 198; 0; 0; 0; 0; 0; 124; 198; 192; 96; 48; 24; 12; 6; 6; 198;
    124; 0; 0; 0; 0; 0; 255; 24; 24; 24; 24; 24; 24; 24; 24; 24; 24; 0; 0; 0; 0; 0; 198; 198; 198; 198; 198; 198
  ].
Definition builtin_font_1 : list Z :=
  [
    198; 198; 198; 198; 124; 0; 0; 0; 0; 0; 198; 198; 198; 198; 198; 198; 198; 198; 108; 56; 16; 0; 0; 0; 0; 0;
    198; 198; 198; 198; 214; 214; 214; 214; 254; 108; 108; 0; 0; 0; 0; 0; 198; 198; 198; 108; 56; 56; 56; 108;
    198; 198; 198; 0; 0; 0; 0; 0; 204; 204; 204; 204; 204; 120; 48; 48; 48; 48; 48; 0; 0; 0; 0; 0; 254; 6; 6;
    12; 24; 48; 96; 192; 192; 192; 254; 0; 0; 0; 0; 0; 120; 96; 96; 96; 96; 96; 96; 96; 96; 96; 120; 0; 0; 0; 0;
    0; 192; 192; 96; 96; 48; 56; 24; 12; 12; 6; 6; 0; 0; 0; 0; 0; 120; 24; 24; 24; 24; 24; 24; 24; 24; 24; 120;
    0; 0; 0; 0; 0; 16; 56; 108; 198; 0; 0; 0; 0; 0; 0; 0; 0; 0; 0; 0; 0; 0; 0; 0; 0; 0; 0; 0; 0; 0; 0; 0; 0;
    255; 0; 0; 0; 24; 24; 24; 12; 0; 0; 0; 0; 0; 0; 0; 0; 0; 0; 0; 0; 0; 0; 0; 124; 6; 6; 126; 198; 198; 198;
    126; 0; 0; 0; 0; 0; 192; 192; 192; 220; 230; 198; 198; 198; 198; 230; 220; 0; 0; 0; 0; 0; 0; 0; 0; 124; 198;
    192; 192; 192; 192; 198; 124; 0; 0; 0; 0; 0; 6; 6; 6; 118; 206; 198; 198; 198; 198; 206; 118; 0; 0; 0; 0; 0;
    0; 0; 0; 124; 198; 198; 254; 192; 192; 192; 126; 0; 0; 0; 0; 0; 28; 54; 48; 48; 252; 48; 48; 48; 48; 48; 48;
    0; 0; 0; 0; 0; 0; 0; 0; 118; 206; 198; 198; 198; 206; 118; 6; 198; 124; 0; 0; 0; 192; 192; 192; 220; 230;
    198; 198; 198; 198; 198; 198; 0; 0; 0; 0; 0; 24; 0; 0; 56; 24; 24; 24; 24; 24; 24; 60; 0; 0; 0; 0; 0; 6; 0;
    0; 30; 6; 6; 6; 6; 6; 6; 198; 198; 124; 0; 0; 0; 192; 192; 192; 198; 204; 216; 240; 240; 216; 204; 198; 0;
    0; 0; 0; 0; 56; 24; 24; 24; 24; 24; 24; 24; 24; 24; 60; 0; 0; 0; 0; 0; 0; 0; 0; 236; 254; 214; 214; 214;
    214; 198; 198; 0; 0; 0; 0; 0; 0; 0; 0; 220; 230; 198; 198; 198; 198; 198; 198; 0; 0; 0; 0; 0; 0; 0; 0; 124;
    198; 198; 198; 198; 198; 198; 124; 0; 0; 0; 0; 0; 0; 0; 0; 220; 230; 198; 198; 198; 230; 220; 192; 192; 192;
    0; 0; 0; 0; 0; 0; 118; 206; 198; 198; 198; 206; 118; 6; 6; 6; 0; 0; 0; 0; 0; 0; 220; 230; 192; 192; 192;
    192; 192; 192; 0; 0; 0; 0; 0; 0; 0; 0; 124; 198; 192; 112; 28; 6; 198; 124; 0; 0; 0; 0; 0; 48; 48; 48; 254;
    48; 48; 48; 48; 48; 54; 28; 0; 0; 0; 0; 0; 0; 0; 0; 198; 198; 198; 198; 198; 198; 198; 124; 0; 0; 0; 0; 0;
    0; 0; 0; 198; 198; 198; 198; 198; 108; 56; 16; 0; 0; 0; 0; 0; 0; 0; 0; 198; 198; 214; 214; 214; 214; 254;
    108; 0; 0; 0; 0; 0; 0; 0; 0; 198; 198; 108; 56; 56; 108; 198; 198; 0; 0; 0; 0; 0; 0; 0; 0; 198; 198; 198;
    198; 198; 206; 118; 6; 198; 124; 0; 0; 0; 0; 0; 0; 254; 6; 12; 24; 48; 96; 192; 254; 0; 0; 0; 0; 0; 28; 48;
    48; 48; 48; 224; 48; 48; 48; 48; 28; 0; 0; 0; 0; 0; 48; 48; 48; 48; 48; 0; 48; 48; 48; 48; 48; 0; 0; 0; 0;
    0; 224; 48; 48; 48; 48; 28; 48; 48; 48; 48; 224; 0; 0; 0; 0; 0; 0; 118; 220; 0; 0; 0; 0; 0; 0; 0; 0; 0; 0;
    0; 0; 0; 0; 16; 16; 56; 56; 108; 108; 198; 198; 254; 0; 0; 0; 0; 0; 0; 60; 102; 192; 192; 192; 192; 192;
    192; 102; 60; 24; 204; 120; 0; 0; 0; 108; 108; 0; 198; 198; 198; 198; 198; 198; 198; 124; 0; 0; 0; 0; 12;
    24; 48; 0; 124; 198; 198; 254; 192; 192; 192; 126; 0; 0; 0; 0; 16; 56; 108; 0; 124; 6; 6; 126; 198; 198;
    198; 126; 0; 0; 0; 0; 0; 108; 108; 0; 124; 6; 6; 126; 198; 198; 198; 126; 0; 0; 0; 0; 96; 48; 24; 0; 124; 6;
    6; 126; 198; 198; 198; 126; 0; 0; 0; 0; 56; 108; 56; 0; 124; 6; 6; 126; 198; 198; 198; 126; 0; 0; 0; 0; 0;
    0; 0; 0; 124; 198; 192; 192; 192; 192; 198; 124; 24; 12; 56; 0; 16; 56; 108; 0; 124; 198; 198; 254; 192;
    192; 192; 126; 0; 0; 0; 0; 0; 108; 108; 0; 124; 198; 198; 254; 192; 192; 192; 126; 0; 0; 0; 0; 96; 48; 24;
    0; 124; 198; 198; 254; 192; 192; 192; 126; 0; 0; 0; 0; 0; 108; 108; 0; 56; 24; 24; 24; 24; 24; 24; 60; 0; 0;
    0; 0; 16; 56; 108; 0; 56; 24; 24; 24; 24; 24; 24; 60; 0; 0; 0; 0; 96; 48; 24; 0; 56; 24; 24; 24; 24; 24; 24;
    60; 0; 0; 0; 198; 198; 16; 56; 108; 198; 198; 198; 254; 198; 198; 198; 198; 0; 0; 0; 56; 108; 56; 0; 56;
    108; 198; 198; 198; 254; 198; 198; 198; 0; 0; 0; 24; 48; 96; 0; 254; 192; 192; 252; 192; 192; 192; 192; 254;
    0; 0; 0; 0; 0; 0; 0; 0; 236; 54; 54; 118; 222; 216; 216; 110; 0; 0; 0; 0; 0; 30; 60; 108; 204; 204; 254;
    204; 204; 204; 204; 206; 0; 0; 0; 0; 16; 56; 108; 0; 124; 198; 198; 198; 198; 198; 198; 124; 0; 0; 0; 0; 0;
    108; 108; 0; 124; 198; 198; 198; 198; 198; 198; 124; 0; 0; 0; 0; 96; 48; 24; 0; 124; 198; 198; 198; 198;
    198; 198; 124; 0; 0; 0; 0; 16; 56; 108; 0; 198; 198; 198; 198; 198; 198; 198; 124; 0; 0; 0; 0; 96; 48; 24;
    0; 198; 198; 198; 198; 198; 198; 198; 124; 0; 0; 0; 0; 0; 108; 108; 0; 198; 198; 198; 198; 198; 206; 118; 6;
    198; 124; 0; 108; 108; 0; 124; 198; 198; 198; 198; 198; 198; 198; 198; 124; 0; 0; 0; 108; 108; 0; 198; 198;
    198; 198; 198; 198; 198; 198; 198; 124; 0; 0; 0; 0; 0; 0; 48; 48; 120; 204; 192; 192; 204; 120; 48; 48; 0;
    0; 0; 0; 0; 56; 108; 96; 96; 96; 248; 96; 96; 96; 230; 252; 0; 0; 0; 0; 0; 204; 204; 204; 120; 48; 252; 48;
    252; 48; 48; 48; 0; 0; 0; 0; 0; 248; 204; 204; 248; 196; 204; 222; 204; 204; 204; 198; 0; 0; 0; 0; 0; 14;
    27; 24; 24; 24; 126; 24; 24; 24; 24; 24; 216; 112; 0; 0; 12; 24; 48; 0; 124; 6; 6; 126; 198; 198; 198; 126;
    0; 0; 0; 0; 12; 24; 48; 0; 56; 24; 24; 24; 24; 24; 24; 60; 0; 0; 0; 0; 12; 24; 48; 0; 124; 198; 198; 198;
    198; 198; 198; 124; 0; 0; 0; 0; 12; 24; 48; 0; 198; 198; 198; 198; 198; 198; 198; 124; 0; 0; 0; 0; 118; 220;
    0; 0; 220; 230; 198; 198; 198; 198; 198; 198; 0; 0; 0; 118; 220; 0; 198; 198; 230; 246; 254; 222; 206; 198;
    198; 198; 0; 0; 0; 0; 120; 216; 216; 108; 0; 252; 0; 0; 0; 0; 0; 0; 0; 0; 0; 0; 56; 108; 108; 56; 0; 124; 0;
    0; 0; 0; 0; 0; 0; 0; 0; 0; 0; 24; 24; 0; 24; 24; 48; 96; 192; 198; 198; 124; 0; 0; 0; 0; 0; 0; 0; 0; 0; 0;
    0; 254; 192; 192; 192; 0; 0; 0; 0; 0; 0; 0; 0; 0; 0; 0; 0; 254; 6; 6; 6; 0; 0; 0; 0
  ].
Definition builtin_font_2 : list Z :=
  [
    0; 0; 192; 194; 198; 204; 216; 48; 96; 220; 134; 12; 24; 62; 0; 0; 0; 0; 192; 194; 198; 204; 216; 48; 102;
    206; 158; 62; 6; 6; 0; 0; 0; 0; 48; 48; 0; 48; 48; 48; 120; 120; 120; 120; 48; 0; 0; 0; 0; 0; 0; 0; 0; 54;
    108; 216; 108; 54; 0; 0; 0; 0; 0; 0; 0; 0; 0; 0; 0; 216; 108; 54; 108; 216; 0; 0; 0; 0; 0; 0; 34; 136; 34;
    136; 34; 136; 34; 136; 34; 136; 34; 136; 34; 136; 34; 136; 85; 170; 85; 170; 85; 170; 85; 170; 85; 170; 85;
    170; 85; 170; 85; 170; 221; 119; 221; 119; 221; 119; 221; 119; 221; 119; 221; 119; 221; 119; 221; 119; 24;
    24; 24; 24; 24; 24; 24; 24; 24; 24; 24; 24; 24; 24; 24; 24; 24; 24; 24; 24; 24; 24; 24; 248; 248; 24; 24;
    24; 24; 24; 24; 24; 24; 24; 24; 24; 24; 248; 248; 24; 24; 248; 248; 24; 24; 24; 24; 24; 54; 54; 54; 54; 54;
    54; 54; 246; 246; 54; 54; 54; 54; 54; 54; 54; 0; 0; 0; 0; 0; 0; 0; 254; 254; 54; 54; 54; 54; 54; 54; 54; 0;
    0; 0; 0; 0; 248; 248; 24; 24; 248; 248; 24; 24; 24; 24; 24; 54; 54; 54; 54; 54; 246; 246; 6; 6; 246; 246;
    54; 54; 54; 54; 54; 54; 54; 54; 54; 54; 54; 54; 54; 54; 54; 54; 54; 54; 54; 54; 54; 0; 0; 0; 0; 0; 254; 254;
    6; 6; 246; 246; 54; 54; 54; 54; 54; 54; 54; 54; 54; 54; 246; 246; 6; 6; 254; 254; 0; 0; 0; 0; 0; 54; 54; 54;
    54; 54; 54; 54; 254; 254; 0; 0; 0; 0; 0; 0; 0; 24; 24; 24; 24; 24; 248; 248; 24; 24; 248; 248; 0; 0; 0; 0;
    0; 0; 0; 0; 0; 0; 0; 0; 248; 248; 24; 24; 24; 24; 24; 24; 24; 24; 24; 24; 24; 24; 24; 24; 31; 31; 0; 0; 0;
    0; 0; 0; 0; 24; 24; 24; 24; 24; 24; 24; 255; 255; 0; 0; 0; 0; 0; 0; 0; 0; 0; 0; 0; 0; 0; 0; 255; 255; 24;
    24; 24; 24; 24; 24; 24; 24; 24; 24; 24; 24; 24; 24; 31; 31; 24; 24; 24; 24; 24; 24; 24; 0; 0; 0; 0; 0; 0; 0;
    255; 255; 0; 0; 0; 0; 0; 0; 0; 24; 24; 24; 24; 24; 24; 24; 255; 255; 24; 24; 24; 24; 24; 24; 24; 24; 24; 24;
    24; 24; 31; 31; 24; 24; 31; 31; 24; 24; 24; 24; 24; 54; 54; 54; 54; 54; 54; 54; 55; 55; 54; 54; 54; 54; 54;
    54; 54; 54; 54; 54; 54; 54; 55; 55; 48; 48; 63; 63; 0; 0; 0; 0; 0; 0; 0; 0; 0; 0; 63; 63; 48; 48; 55; 55;
    54; 54; 54; 54; 54; 54; 54; 54; 54; 54; 247; 247; 0; 0; 255; 255; 0; 0; 0; 0; 0; 0; 0; 0; 0; 0; 255; 255; 0;
    0; 247; 247; 54; 54; 54; 54; 54; 54; 54; 54; 54; 54; 55; 55; 48; 48; 55; 55; 54; 54; 54; 54; 54; 0; 0; 0; 0;
    0; 255; 255; 0; 0; 255; 255; 0; 0; 0; 0; 0; 54; 54; 54; 54; 54; 247; 247; 0; 0; 247; 247; 54; 54; 54; 54;
    54; 24; 24; 24; 24; 24; 255; 255; 0; 0; 255; 255; 0; 0; 0; 0; 0; 54; 54; 54; 54; 54; 54; 54; 255; 255; 0; 0;
    0; 0; 0; 0; 0; 0; 0; 0; 0; 0; 255; 255; 0; 0; 255; 255; 24; 24; 24; 24; 24; 0; 0; 0; 0; 0; 0; 0; 255; 255;
    54; 54; 54; 54; 54; 54; 54; 54; 54; 54; 54; 54; 54; 54; 63; 63; 0; 0; 0; 0; 0; 0; 0; 24; 24; 24; 24; 24; 31;
    31; 24; 24; 31; 31; 0; 0; 0; 0; 0; 0; 0; 0; 0; 0; 31; 31; 24; 24; 31; 31; 24; 24; 24; 24; 24; 0; 0; 0; 0; 0;
    0; 0; 63; 63; 54; 54; 54; 54; 54; 54; 54; 54; 54; 54; 54; 54; 54; 54; 255; 255; 54; 54; 54; 54; 54; 54; 54;
    24; 24; 24; 24; 24; 255; 255; 24; 24; 255; 255; 24; 24; 24; 24; 24; 24; 24; 24; 24; 24; 24; 24; 248; 248; 0;
    0; 0; 0; 0; 0; 0; 0; 0; 0; 0; 0; 0; 0; 31; 31; 24; 24; 24; 24; 24; 24; 24; 255; 255; 255; 255; 255; 255;
    255; 255; 255; 255; 255; 255; 255; 255; 255; 255; 0; 0; 0; 0; 0; 0; 0; 0; 255; 255; 255; 255; 255; 255; 255;
    255; 240; 240; 240; 240; 240; 240; 240; 240; 240; 240; 240; 240; 240; 240; 240; 240; 15; 15; 15; 15; 15; 15;
    15; 15; 15; 15; 15; 15; 15; 15; 15; 15; 255; 255; 255; 255; 255; 255; 255; 255; 0; 0; 0; 0; 0; 0; 0; 0; 0;
    0; 0; 0; 0; 118; 214; 220; 200; 200; 220; 214; 118; 0; 0; 0; 0; 0; 120; 204; 204; 204; 216; 204; 204; 204;
    204; 204; 216; 192; 192; 0; 0; 0; 254; 198; 198; 192; 192; 192; 192; 192; 192; 192; 192; 0; 0; 0; 0; 0; 0;
    0; 0; 126; 254; 36; 36; 36; 36; 102; 198; 0; 0; 0; 0; 0; 254; 254; 194; 96; 48; 24; 48; 96; 194; 254; 254;
    0; 0; 0; 0; 0; 0; 0; 0; 126; 200; 204; 204; 204; 204; 204; 120; 0; 0; 0; 0; 0; 0; 0; 0; 102; 102; 102; 102;
    102; 102; 118; 108; 96; 192; 0; 0; 0; 0; 0; 0; 102; 252; 152; 24; 24; 24; 24; 24; 0; 0; 0; 0; 0; 252; 48;
    48; 120; 204; 204; 204; 120; 48; 48; 252; 0; 0; 0; 0; 0; 56; 108; 198; 198; 198; 254; 198; 198; 198; 108;
    56; 0; 0; 0; 0; 0; 56; 108; 198; 198; 198; 198; 198; 108; 108; 108; 238; 0; 0; 0; 0; 0; 120; 204; 96; 48;
    120; 204; 204; 204; 204; 204; 120; 0; 0; 0; 0; 0; 0; 0; 0; 118; 187; 153; 153; 221; 110; 0; 0; 0; 0; 0; 0;
    0; 2; 6; 60; 108; 206; 214; 214; 230; 108; 120; 192; 128; 0; 0; 0; 0; 30; 48; 96; 192; 192; 254; 192; 192;
    96; 48; 30; 0; 0; 0; 0; 0; 56; 108; 198; 198; 198; 198; 198; 198; 198; 198; 198; 0; 0; 0; 0; 0; 0; 0; 254;
    0; 0; 254; 0; 0; 254; 0; 0; 0; 0; 0; 0; 0; 0; 0; 0; 48; 48; 252; 48; 48; 0; 0; 252; 0; 0; 0; 0; 0; 0; 0; 96;
    48; 24; 12; 24; 48; 96; 0; 252; 0; 0; 0; 0; 0; 0; 0; 24; 48; 96; 192; 96; 48; 24; 0; 252; 0; 0; 0; 0; 0; 28;
    54; 54; 48; 48; 48; 48; 48; 48; 48; 48; 48; 48; 48; 24; 24; 24; 24; 24; 24; 24; 24; 24; 24; 216; 216; 112;
    0; 0; 0; 0; 0; 0; 0; 48; 48; 0; 252; 0; 48; 48; 0; 0; 0; 0; 0; 0; 0; 0; 0; 0; 118; 220; 0; 118; 220; 0; 0;
    0; 0; 0; 0; 0; 120; 204; 204; 204; 120; 0; 0; 0; 0; 0; 0; 0; 0; 0; 0; 0; 0; 0; 0; 0; 0; 0; 48; 48; 0; 0; 0;
    0; 0; 0; 0; 0; 0; 0; 0; 0; 0; 0; 48; 0; 0; 0; 0; 0; 0; 0; 0; 0; 15; 12; 12; 12; 12; 12; 12; 12; 204; 108;
    60; 28; 12; 0; 0; 0; 216; 236; 204; 204; 204; 204; 204; 0; 0; 0; 0; 0; 0; 0; 0; 0; 56; 108; 12; 24; 48; 96;
    124; 0; 0; 0; 0; 0; 0; 0; 0; 0; 0; 0; 0; 120; 120; 120; 120; 120; 120; 120; 0; 0; 0; 0; 0; 0; 0; 0; 0; 0; 0;
    0; 0; 0; 0; 0; 0; 0; 0; 0; 0
  ].
Definition builtin_font : list Z := builtin_font_0 ++ builtin_font_1 ++ builtin_font_2.

Record fb_char := mkChar {
  fc_c : Z; fc_fg_default : bool; fc_bg_default : bool; fc_fg : Z; fc_bg : Z;
}.
Record queue_item := mkItem {
  q_x : Z; q_y : Z; q_c : fb_char;
}.

Record masks := mkMasks {
  red_mask_size : Z; red_mask_shift : Z; green_mask_size : Z; green_mask_shift : Z; blue_mask_size : Z;
  blue_mask_shift : Z;
}.

(** Which of the four functions draws a character *)
Inductive plotter := plot_unscaled_uncanvas | plot_unscaled_canvas | plot_scaled_uncanvas | plot_scaled_canvas.

(** What does not change after the set-up.  [framebuffer] is the pixel index of
    the first pixel that is used; [addresses] are the blocks that [deinit]
    gives back. *)
Record fb_conf := mkFbConf {
  font_width : Z; font_height : Z; glyph_width : Z; glyph_height : Z; font_scale_x : Z; font_scale_y : Z;
  offset_x : Z; offset_y : Z; framebuffer : Z; pitch : Z; width : Z; height : Z; phys_height : Z;
  colour_masks : masks; rotation : Z; font_bits_size : Z; font_bits : list Z; font_bool_size : Z;
  font_bool : gmap Z bool; ansi_colours : list Z; ansi_bright_colours : list Z; default_fg : Z;
  default_bg : Z; default_fg_bright : Z; default_bg_bright : Z; canvas_size : Z; canvas : option (list Z);
  grid_size : Z; queue_size : Z; map_size : Z; plot_char : plotter; addresses : list Z;
}.

(** Colours and cursor, which [save_state] saves *)
Record fb_pen := mkPen {
  text_fg : Z; text_bg : Z; text_fg_default : bool; text_bg_default : bool; cursor_x : Z; cursor_y : Z;
}.

(** The static variables of the pool that memory comes from when there is no [malloc] *)
Record bump_state := mkBump {
  bump_alloc_ptr : Z; bump_alloc_base_offset_added : bool; bump_allocated_instance : bool;
}.

(** A pointer into the queue is an index; [pixels] has the pixels of the
    framebuffer that may be accessed; [flushes] logs the calls of the flush
    callback, [freed] those of [_free]. *)
Record fb := mkFb {
  conf : fb_conf; pen : fb_pen; saved_pen : fb_pen; grid : list fb_char; queue : list queue_item; queue_i : Z;
  queue_map : list (option Z); old_cursor_x : Z; old_cursor_y : Z; pixels : gmap Z Z; flush_callback : bool;
  flushes : list Z; bump : bump_state; freed : list (Z * Z);
}.

Definition put_text_fg (v : Z) (p : fb_pen) : fb_pen :=
  mkPen v (text_bg p) (text_fg_default p) (text_bg_default p) (cursor_x p) (cursor_y p).
Definition put_text_bg (v : Z) (p : fb_pen) : fb_pen :=
  mkPen (text_fg p) v (text_fg_default p) (text_bg_default p) (cursor_x p) (cursor_y p).
Definition put_text_fg_default (v : bool) (p : fb_pen) : fb_pen :=
  mkPen (text_fg p) (text_bg p) v (text_bg_default p) (cursor_x p) (cursor_y p).
Definition put_text_bg_default (v : bool) (p : fb_pen) : fb_pen :=
  mkPen (text_fg p) (text_bg p) (text_fg_default p) v (cursor_x p) (cursor_y p).
Definition put_cursor_x (v : Z) (p : fb_pen) : fb_pen :=
  mkPen (text_fg p) (text_bg p) (text_fg_default p) (text_bg_default p) v (cursor_y p).
Definition put_cursor_y (v : Z) (p : fb_pen) : fb_pen :=
  mkPen (text_fg p) (text_bg p) (text_fg_default p) (text_bg_default p) (cursor_x p) v.

Definition set_pen (v : fb_pen) (s : fb) : fb :=
  mkFb (conf s) v (saved_pen s) (grid s) (queue s) (queue_i s) (queue_map s) (old_cursor_x s) (old_cursor_y s)
    (pixels s) (flush_callback s) (flushes s) (bump s) (freed s).
Definition set_saved_pen (v : fb_pen) (s : fb) : fb :=
  mkFb (conf s) (pen s) v (grid s) (queue s) (queue_i s) (queue_map s) (old_cursor_x s) (old_cursor_y s)
    (pixels s) (flush_callback s) (flushes s) (bump s) (freed s).
Definition set_grid (v : list fb_char) (s : fb) : fb :=
  mkFb (conf s) (pen s) (saved_pen s) v (queue s) (queue_i s) (queue_map s) (old_cursor_x s) (old_cursor_y s)
    (pixels s) (flush_callback s) (flushes s) (bump s) (freed s).
Definition set_queue (v : list queue_item) (s : fb) : fb :=
  mkFb (conf s) (pen s) (saved_pen s) (grid s) v (queue_i s) (queue_map s) (old_cursor_x s) (old_cursor_y s)
    (pixels s) (flush_callback s) (flushes s) (bump s) (freed s).
Definition set_queue_i (v : Z) (s : fb) : fb :=
  mkFb (conf s) (pen s) (saved_pen s) (grid s) (queue s) v (queue_map s) (old_cursor_x s) (old_cursor_y s)
    (pixels s) (flush_callback s) (flushes s) (bump s) (freed s).
Definition set_queue_map (v : list (option Z)) (s : fb) : fb :=
  mkFb (conf s) (pen s) (saved_pen s) (grid s) (queue s) (queue_i s) v (old_cursor_x s) (old_cursor_y s)
    (pixels s) (flush_callback s) (flushes s) (bump s) (freed s).
Definition set_old_cursor_x (v : Z) (s : fb) : fb :=
  mkFb (conf s) (pen s) (saved_pen s) (grid s) (queue s) (queue_i s) (queue_map s) v (old_cursor_y s) (pixels s)
    (flush_callback s) (flushes s) (bump s) (freed s).
Definition set_old_cursor_y (v : Z) (s : fb) : fb :=
  mkFb (conf s) (pen s) (saved_pen s) (grid s) (queue s) (queue_i s) (queue_map s) (old_cursor_x s) v (pixels s)
    (flush_callback s) (flushes s) (bump s) (freed s).
Definition set_pixels (v : gmap Z Z) (s : fb) : fb :=
  mkFb (conf s) (pen s) (saved_pen s) (grid s) (queue s) (queue_i s) (queue_map s) (old_cursor_x s)
    (old_cursor_y s) v (flush_callback s) (flushes s) (bump s) (freed s).
Definition set_flush_callback (v : bool) (s : fb) : fb :=
  mkFb (conf s) (pen s) (saved_pen s) (grid s) (queue s) (queue_i s) (queue_map s) (old_cursor_x s)
    (old_cursor_y s) (pixels s) v (flushes s) (bump s) (freed s).
Definition set_flushes (v : list Z) (s : fb) : fb :=
  mkFb (conf s) (pen s) (saved_pen s) (grid s) (queue s) (queue_i s) (queue_map s) (old_cursor_x s)
    (old_cursor_y s) (pixels s) (flush_callback s) v (bump s) (freed s).
Definition set_bump (v : bump_state) (s : fb) : fb :=
  mkFb (conf s) (pen s) (saved_pen s) (grid s) (queue s) (queue_i s) (queue_map s) (old_cursor_x s)
    (old_cursor_y s) (pixels s) (flush_callback s) (flushes s) v (freed s).
Definition set_freed (v : list (Z * Z)) (s : fb) : fb :=
  mkFb (conf s) (pen s) (saved_pen s) (grid s) (queue s) (queue_i s) (queue_map s) (old_cursor_x s)
    (old_cursor_y s) (pixels s) (flush_callback s) (flushes s) (bump s) v.

(** ** Arrays *)

Definition the_conf : M fb fb_conf := gets conf.
Definition upd_pen (f : fb_pen → fb_pen) : M fb unit := modify (λ s, set_pen (f (pen s)) s).
Definition at_index {A} (l : list A) (i : Z) : M fb A := match zlookup l i with Some x => mret x | None => fault end.
Definition grid_at (i : Z) : M fb fb_char := g ← gets grid; at_index g i.
Definition map_at (i : Z) : M fb (option Z) := m ← gets queue_map; at_index m i.
Definition item_at (i : Z) : M fb queue_item := q ← gets queue; at_index q i.
Definition put_grid (i : Z) (c : fb_char) : M fb unit := grid_at i;; modify (λ s, set_grid (zinsert i c (grid s)) s).
Definition put_map (i : Z) (q : option Z) : M fb unit := map_at i;; modify (λ s, set_queue_map (zinsert i q (queue_map s)) s).
Definition put_item (i : Z) (q : queue_item) : M fb unit := item_at i;; modify (λ s, set_queue (zinsert i q (queue s)) s).

Definition bool_at {S} (l : gmap Z bool) (i : Z) : M S bool := match l !! i with Some b => mret b | None => fault end.

(** ** Colours *)

(** The lower bits of a colour of more than 8 bits.  A shift by a negative
    number is undefined. *)
Definition widen {S} (v size shift : Z) : M S Z :=
  if size >? 8 then
    if size >? 16 then fault else mret (u32 (Z.shiftl (Z.shiftr v (16 - size)) (shift - size + 8)))
  else mret 0.
(** A colour as red, green and blue bytes, in the format of the framebuffer *)
Definition convert_colour {S} (k : masks) (colour : Z) : M S Z :=
  let r := Z.land (Z.shiftr colour 16) 0xff in
  let g := Z.land (Z.shiftr colour 8) 0xff in
  let b := Z.land colour 0xff in
  let ret := Z.lor (Z.lor (u32 (Z.shiftl r (red_mask_shift k))) (u32 (Z.shiftl g (green_mask_shift k))))
                   (u32 (Z.shiftl b (blue_mask_shift k))) in
  wr ← widen r (red_mask_size k) (red_mask_shift k);
  wg ← widen g (green_mask_size k) (green_mask_shift k);
  wb ← widen b (blue_mask_size k) (blue_mask_shift k);
  mret (Z.lor (Z.lor (Z.lor ret wr) wg) wb).

Definition flanterm_fb_save_state : M fb unit := modify (λ s, set_saved_pen (pen s) s).
Definition flanterm_fb_restore_state : M fb unit := modify (λ s, set_pen (saved_pen s) s).
Definition flanterm_fb_swap_palette : M fb unit :=
  upd_pen (λ p, mkPen (text_bg p) (text_fg p) (text_bg_default p) (text_fg_default p) (cursor_x p) (cursor_y p)).

Definition flanterm_fb_set_text_fg (fg : Z) : M fb unit :=
  k ← the_conf; v ← at_index (ansi_colours k) fg; upd_pen (put_text_fg v);; upd_pen (put_text_fg_default false).
Definition flanterm_fb_set_text_bg (bg : Z) : M fb unit :=
  k ← the_conf; v ← at_index (ansi_colours k) bg; upd_pen (put_text_bg v);; upd_pen (put_text_bg_default false).
Definition flanterm_fb_set_text_fg_bright (fg : Z) : M fb unit :=
  k ← the_conf; v ← at_index (ansi_bright_colours k) fg; upd_pen (put_text_fg v);; upd_pen (put_text_fg_default false).
Definition flanterm_fb_set_text_bg_bright (bg : Z) : M fb unit :=
  k ← the_conf; v ← at_index (ansi_bright_colours k) bg; upd_pen (put_text_bg v);; upd_pen (put_text_bg_default false).
Definition flanterm_fb_set_text_fg_rgb (fg : Z) : M fb unit :=
  k ← the_conf; v ← convert_colour (colour_masks k) fg; upd_pen (put_text_fg v);; upd_pen (put_text_fg_default false).
Definition flanterm_fb_set_text_bg_rgb (bg : Z) : M fb unit :=
  k ← the_conf; v ← convert_colour (colour_masks k) bg; upd_pen (put_text_bg v);; upd_pen (put_text_bg_default false).
Definition flanterm_fb_set_text_fg_default : M fb unit :=
  k ← the_conf; upd_pen (put_text_fg (default_fg k));; upd_pen (put_text_fg_default false).
Definition flanterm_fb_set_text_bg_default : M fb unit := upd_pen (put_text_bg_default true).
Definition flanterm_fb_set_text_fg_default_bright : M fb unit :=
  k ← the_conf; upd_pen (put_text_fg (default_fg_bright k));; upd_pen (put_text_fg_default false).
Definition flanterm_fb_set_text_bg_default_bright : M fb unit :=
  k ← the_conf; upd_pen (put_text_bg (default_bg_bright k));; upd_pen (put_text_bg_default false).

(** ** Pixels *)

Definition px_store (i v : Z) : M fb unit :=
  ps ← gets pixels;
  match ps !! i with
  | Some _ => modify (λ s, set_pixels (<[i := v]> (pixels s)) s)
  | None => fault
  end.

Definition FLANTERM_FB_ROTATE_0 : Z := 0.
Definition FLANTERM_FB_ROTATE_90 : Z := 1.
Definition FLANTERM_FB_ROTATE_180 : Z := 2.
Definition FLANTERM_FB_ROTATE_270 : Z := 3.

(** Where the pixel at [x], [y] of the screen is in the framebuffer, and the
    distance to the pixel below and to the one on the right. *)
Record placement := mkPlacement { dest : Z; outer_stride : Z; inner_stride : Z }.
Definition place (k : fb_conf) (x y : Z) : placement :=
  let stride := pitch k / 4 in
  if rotation k =? FLANTERM_FB_ROTATE_90 then
    mkPlacement (framebuffer k + u64 (u64 (height k - 1) - y) + u64 (x * stride)) (-1) (s32 stride)
  else if rotation k =? FLANTERM_FB_ROTATE_180 then
    mkPlacement (framebuffer k + u64 (u64 (width k - 1) - x) + u64 (u64 (u64 (height k - 1) - y) * stride))
      (s32 (u64 (- stride))) (-1)
  else if rotation k =? FLANTERM_FB_ROTATE_270 then
    mkPlacement (framebuffer k + y + u64 (u64 (u64 (width k - 1) - x) * stride)) 1 (s32 (u64 (- stride)))
  else mkPlacement (framebuffer k + x + u64 (y * stride)) (s32 stride) 1.

(** The colour of a pixel of a character: [on] tells whether the glyph has it,
    [back] is the colour behind the text. *)
Definition shade (c : fb_char) (on : bool) (back : Z) : Z :=
  if on then (if fc_fg_default c then back else fc_fg c) else (if fc_bg_default c then back else fc_bg c).

(** What is behind the pixel [gx], [gy] of the character at the pixel [x], [y] *)
Definition behind (k : fb_conf) (x y gx gy : Z) : M fb Z :=
  match canvas k with
  | Some cv => at_index cv (u64 (u64 (x + u64 (u64 (y + gy) * width k)) + gx))
  | None => fault
  end.

Definition glyph_offset (k : fb_conf) (c : fb_char) : Z := u64 (u64 (fc_c c * font_height k) * font_width k).

Definition plot_pixel (k : fb_conf) (pl : placement) (back : Z → Z → M fb Z) (c : fb_char) (gx gy row fx : Z) : M fb unit :=
  b ← back gx gy;
  on ← bool_at (font_bool k) (u64 (u64 (glyph_offset k c + u64 (row * font_width k)) + fx));
  px_store (dest pl + gy * outer_stride pl + gx * inner_stride pl) (shade c on b).

(** The pixels of a line of a glyph, one by one or each [font_scale_x] times *)
Definition plot_unscaled (k : fb_conf) (pl : placement) (back : Z → Z → M fb Z) (c : fb_char) : M fb unit :=
  for_loop (Z.to_nat (glyph_height k)) 0 (λ gy,
    for_loop (Z.to_nat (font_width k)) 0 (λ fx, plot_pixel k pl back c fx gy gy fx)).
Definition plot_scaled (k : fb_conf) (pl : placement) (back : Z → Z → M fb Z) (c : fb_char) : M fb unit :=
  for_loop (Z.to_nat (glyph_height k)) 0 (λ gy,
    if font_scale_y k =? 0 then fault else
    let fy := u8 (gy / font_scale_y k) in
    for_loop (Z.to_nat (font_width k)) 0 (λ fx,
      for_loop (Z.to_nat (font_scale_x k)) 0 (λ i, plot_pixel k pl back c (u64 (font_scale_x k * fx + i)) gy fy fx))).

Definition plot_at (ctx : context) (c : fb_char) (x y : Z) : M fb unit :=
  if (x >=? cols (ctx_geom ctx)) || (y >=? rows (ctx_geom ctx)) then mret tt else
  k ← the_conf;
  let x := u64 (offset_x k + u64 (x * glyph_width k)) in
  let y := u64 (offset_y k + u64 (y * glyph_height k)) in
  let pl := place k x y in
  match plot_char k with
  | plot_unscaled_uncanvas => plot_unscaled k pl (λ _ _, mret (default_bg k)) c
  | plot_unscaled_canvas => plot_unscaled k pl (behind k x y) c
  | plot_scaled_uncanvas => plot_scaled k pl (λ _ _, mret (default_bg k)) c
  | plot_scaled_canvas => plot_scaled k pl (behind k x y) c
  end.

(** ** The queue *)

Definition compare_char (a b : fb_char) : bool :=
  if negb (fc_c a =? fc_c b) then false
  else if negb (eqb (fc_fg_default a) (fc_fg_default b)) || negb (eqb (fc_bg_default a) (fc_bg_default b)) then false
  else if negb (fc_fg_default a) && negb (fc_fg a =? fc_fg b) then false
  else if negb (fc_bg_default a) && negb (fc_bg a =? fc_bg b) then false
  else true.

Definition set_item_char (n : Z) (c : fb_char) : M fb unit := q ← item_at n; put_item n (mkItem (q_x q) (q_y q) c).

Definition push_to_queue (ctx : context) (c : fb_char) (x y : Z) : M fb unit :=
  let g := ctx_geom ctx in
  if (x >=? cols g) || (y >=? rows g) then mret tt else
  let i := u64 (u64 (y * cols g) + x) in
  q ← map_at i;
  match q with
  | Some n => set_item_char n c
  | None =>
      old ← grid_at i;
      if compare_char old c then mret tt else
      n ← gets queue_i;
      if n =? u64 (rows g * cols g) then mret tt else
      modify (set_queue_i (n + 1));;
      q ← item_at n;
      put_item n (mkItem x y (q_c q));;
      put_map i (Some n);;
      set_item_char n c
  end.

(** The character that cell [i] is going to have *)
Definition cell_char (i : Z) : M fb fb_char :=
  q ← map_at i;
  match q with
  | Some n => q ← item_at n; mret (q_c q)
  | None => grid_at i
  end.

Definition blank (p : fb_pen) (c : Z) : fb_char := mkChar c (text_fg_default p) (text_bg_default p) (text_fg p) (text_bg p).

(** A line of spaces *)
Definition blank_line (ctx : context) (y : Z) : M fb unit :=
  p ← gets pen;
  for_loop (Z.to_nat (cols (ctx_geom ctx))) 0 (λ i, push_to_queue ctx (blank p 0x20) i y).

(** Cell [i] gets what cell [from] has. *)
Definition copy_cell (ctx : context) (from to : Z) : M fb unit :=
  let m := cols (ctx_geom ctx) in
  c ← cell_char from;
  if m =? 0 then fault else push_to_queue ctx c (to `mod` m) (to / m).

Definition flanterm_fb_revscroll (ctx : context) : M fb unit :=
  let g := ctx_geom ctx in
  let start := u64 (scroll_top_margin g * cols g) in
  let end_ := u64 (u64 (scroll_bottom_margin g - 1) * cols g) in
  for_loop (Z.to_nat (end_ - start)) 0 (λ k, copy_cell ctx (end_ - 1 - k) (u64 (end_ - 1 - k + cols g)));;
  blank_line ctx (scroll_top_margin g).

Definition flanterm_fb_scroll (ctx : context) : M fb unit :=
  let g := ctx_geom ctx in
  let start := u64 (u64 (scroll_top_margin g + 1) * cols g) in
  let end_ := u64 (scroll_bottom_margin g * cols g) in
  for_loop (Z.to_nat (end_ - start)) start (λ i, copy_cell ctx i (u64 (i - cols g)));;
  blank_line ctx (u64 (scroll_bottom_margin g - 1)).

Definition flanterm_fb_clear (ctx : context) (move : bool) : M fb unit :=
  let g := ctx_geom ctx in
  p ← gets pen;
  for_loop (Z.to_nat (u64 (rows g * cols g))) 0 (λ i,
    if cols g =? 0 then fault else push_to_queue ctx (blank p 0x20) (i `mod` cols g) (i / cols g));;
  when move (upd_pen (put_cursor_x 0);; upd_pen (put_cursor_y 0)).

(** ** The cursor *)

(** A coordinate that is too large is the last one, or 0 if it was negative. *)
Definition clamp_pos (v n : Z) : Z := if v >=? n then (if v >? SIZE_MAX / 2 then 0 else u64 (n - 1)) else v.

Definition flanterm_fb_set_cursor_pos (ctx : context) (x y : Z) : M fb unit :=
  let g := ctx_geom ctx in
  upd_pen (put_cursor_x (clamp_pos x (cols g)));;
  upd_pen (put_cursor_y (clamp_pos y (rows g))).

Definition flanterm_fb_get_cursor_pos (ctx : context) : M fb (Z * Z) :=
  let g := ctx_geom ctx in
  p ← gets pen;
  mret (if cursor_x p >=? cols g then u64 (cols g - 1) else cursor_x p,
        if cursor_y p >=? rows g then u64 (rows g - 1) else cursor_y p).

Definition flanterm_fb_move_character (ctx : context) (new_x new_y old_x old_y : Z) : M fb unit :=
  let g := ctx_geom ctx in
  if (old_x >=? cols g) || (old_y >=? rows g) || (new_x >=? cols g) || (new_y >=? rows g) then mret tt else
  c ← cell_char (u64 (old_x + u64 (old_y * cols g)));
  push_to_queue ctx c new_x new_y.

(** The line break that a character behind the last column asks for *)
Definition wrap_cursor (ctx : context) : M fb unit :=
  let g := ctx_geom ctx in
  let m := ctx_modes ctx in
  p ← gets pen;
  if wrap_enabled m && ((cursor_y p <? u64 (scroll_bottom_margin g - 1)) || scroll_enabled m) then
    upd_pen (put_cursor_x 0);;
    upd_pen (put_cursor_y (u64 (cursor_y p + 1)));;
    p ← gets pen;
    when (cursor_y p =? scroll_bottom_margin g)
      (upd_pen (put_cursor_y (u64 (cursor_y p - 1)));; flanterm_fb_scroll ctx);;
    p ← gets pen;
    when (cursor_y p >=? rows g) (upd_pen (put_cursor_y (u64 (rows g - 1))))
  else upd_pen (put_cursor_x (u64 (cols g - 1))).

Definition flanterm_fb_raw_putchar (ctx : context) (c : Z) : M fb unit :=
  p ← gets pen;
  when (cursor_x p >=? cols (ctx_geom ctx)) (wrap_cursor ctx);;
  p ← gets pen;
  upd_pen (put_cursor_x (u64 (cursor_x p + 1)));;
  push_to_queue ctx (blank p c) (cursor_x p) (cursor_y p).

(** ** Drawing *)

Definition invert (c : fb_char) : fb_char := mkChar (fc_c c) (fc_bg_default c) (fc_fg_default c) (fc_bg c) (fc_fg c).

Definition draw_cursor (ctx : context) : M fb unit :=
  let g := ctx_geom ctx in
  p ← gets pen;
  if (cursor_x p >=? cols g) || (cursor_y p >=? rows g) then mret tt else
  let i := u64 (cursor_x p + u64 (cursor_y p * cols g)) in
  q ← map_at i;
  c ← cell_char i;
  plot_at ctx (invert c) (cursor_x p) (cursor_y p);;
  match q with
  | Some n => q ← item_at n; put_grid i (q_c q);; put_map i None
  | None => mret tt
  end.

(** Item [n] of the queue, unless its cell has been drawn *)
Definition flush_item (ctx : context) (n : Z) : M fb unit :=
  q ← item_at n;
  let offset := u64 (u64 (q_y q * cols (ctx_geom ctx)) + q_x q) in
  there ← map_at offset;
  match there with
  | None => mret tt
  | Some _ => plot_at ctx (q_c q) (q_x q) (q_y q);; put_grid offset (q_c q);; put_map offset None
  end.

Definition redraw_old_cursor (ctx : context) : M fb unit :=
  let g := ctx_geom ctx in
  s ← gets id;
  when ((negb (old_cursor_x s =? cursor_x (pen s)) || negb (old_cursor_y s =? cursor_y (pen s)))
        || negb (cursor_enabled (ctx_modes ctx)))
    (when ((old_cursor_x s <? cols g) && (old_cursor_y s <? rows g))
      (c ← grid_at (u64 (old_cursor_x s + u64 (old_cursor_y s * cols g)));
       plot_at ctx c (old_cursor_x s) (old_cursor_y s))).

Definition call_flush : M fb unit := modify (λ s,
  if flush_callback s then set_flushes (flushes s ++ [u64 (pitch (conf s) * phys_height (conf s))]) s else s).

Definition flanterm_fb_double_buffer_flush (ctx : context) : M fb unit :=
  when (cursor_enabled (ctx_modes ctx)) (draw_cursor ctx);;
  n ← gets queue_i;
  for_loop (Z.to_nat n) 0 (flush_item ctx);;
  redraw_old_cursor ctx;;
  p ← gets pen;
  modify (set_old_cursor_x (cursor_x p));;
  modify (set_old_cursor_y (cursor_y p));;
  modify (set_queue_i 0);;
  call_flush.

(** The pixel of the framebuffer for a pixel of the screen *)
Definition rotated (k : fb_conf) (x y : Z) : Z * Z :=
  if rotation k =? FLANTERM_FB_ROTATE_90 then (u64 (u64 (height k - 1) - y), x)
  else if rotation k =? FLANTERM_FB_ROTATE_180 then (u64 (u64 (width k - 1) - x), u64 (u64 (height k - 1) - y))
  else if rotation k =? FLANTERM_FB_ROTATE_270 then (y, u64 (u64 (width k - 1) - x))
  else (x, y).

Definition refresh_pixel (k : fb_conf) (x y : Z) : M fb unit :=
  let '(px, py) := rotated k x y in
  v ← match canvas k with Some cv => at_index cv (u64 (u64 (y * width k) + x)) | None => mret (default_bg k) end;
  px_store (framebuffer k + u64 (u64 (py * (pitch k / 4)) + px)) v.

Definition flanterm_fb_full_refresh (ctx : context) : M fb unit :=
  let g := ctx_geom ctx in
  k ← the_conf;
  for_loop (Z.to_nat (height k)) 0 (λ y, for_loop (Z.to_nat (width k)) 0 (λ x, refresh_pixel k x y));;
  for_loop (Z.to_nat (u64 (rows g * cols g))) 0 (λ i,
    if cols g =? 0 then fault else
    c ← grid_at i;
    plot_at ctx c (i `mod` cols g) (i / cols g));;
  when (cursor_enabled (ctx_modes ctx)) (draw_cursor ctx);;
  call_flush.

(** ** Set-up *)

(** The size of a C structure, from the size and the alignment of its fields *)
Fixpoint end_of (fields : list (Z * Z)) (off : Z) : Z :=
  match fields with
  | [] => off
  | (size, align) :: fields => end_of fields ((off + align - 1) / align * align + size)
  end.
Definition struct_size (fields : list (Z * Z)) (align : Z) : Z := (end_of fields 0 + align - 1) / align * align.
Definition ty_size : Z * Z := (8, 8).
Definition ty_u32 : Z * Z := (4, 4).
Definition ty_byte : Z * Z := (1, 1).
Definition ty_array (n : Z) (t : Z * Z) : Z * Z := (n * t.1, t.2).

Definition sizeof_context : Z := struct_size
  ([ty_size] ++ replicate 9 ty_byte ++ [ty_size; ty_array 256 ty_byte] ++ replicate 8 ty_byte ++ [ty_size; ty_size]
   ++ replicate 3 ty_byte ++ replicate 9 ty_size ++ [ty_array 16 ty_u32] ++ replicate 6 ty_byte
   ++ [ty_size; ty_byte; ty_byte; ty_size; ty_size] ++ [ty_size; ty_size] ++ replicate 24 ty_size) 8.
Definition sizeof_fb_char : Z := struct_size [ty_byte; ty_byte; ty_byte; ty_u32; ty_u32] 4.
Definition sizeof_queue_item : Z := struct_size [ty_size; ty_size; (sizeof_fb_char, 4)] 8.
Definition sizeof_fb : Z := struct_size
  ([(sizeof_context, 8)] ++ replicate 2 ty_size ++ replicate 8 ty_size ++ replicate 6 ty_size ++ replicate 6 ty_byte
   ++ [ty_u32] ++ replicate 4 ty_size ++ [ty_array 8 ty_u32; ty_array 8 ty_u32] ++ replicate 4 ty_u32
   ++ replicate 9 ty_size ++ [ty_u32; ty_u32; ty_byte; ty_byte; ty_size; ty_size]
   ++ [ty_u32; ty_u32; ty_byte; ty_byte; ty_size; ty_size] ++ [ty_size; ty_size]) 8.

Definition mul_size_overflow (a b : Z) : option Z :=
  if negb (a =? 0) && (b >? SIZE_MAX / a) then None else Some (u64 (a * b)).

Definition FLANTERM_FB_BUMP_ALLOC_POOL_SIZE : Z := 873000.
Definition FLANTERM_FB_BUMP_ALLOC_ASPECT_WIDTH : Z := 16.
Definition FLANTERM_FB_BUMP_ALLOC_ASPECT_HEIGHT : Z := 10.
Definition FLANTERM_FB_FONT_GLYPHS : Z := 256.

(** The set-up uses memory from [_malloc], whose answer to a call is given by
    the number of the call, or from the pool; [su_blocks] are the blocks that it
    has got. *)
Record setup := mkSetup { su_bump : bump_state; su_calls : nat; su_blocks : list (Z * Z); su_freed : list (Z * Z) }.
Definition set_su_bump (b : bump_state) (s : setup) : setup := mkSetup b (su_calls s) (su_blocks s) (su_freed s).

Definition bump_reset (b : bump_state) : bump_state := mkBump 0 false (bump_allocated_instance b).

(** [pool] is the address of [bump_alloc_pool]. *)
Definition bump_alloc (pool s : Z) (b : bump_state) : Z * bump_state :=
  let ptr := if bump_alloc_base_offset_added b then bump_alloc_ptr b
             else if negb (Z.land pool 0xf =? 0) then u64 (bump_alloc_ptr b + (0x10 - Z.land pool 0xf))
             else bump_alloc_ptr b in
  let s := if negb (Z.land s 0xf =? 0) then Z.land (u64 (s + 0x10)) (u64 (Z.lnot 0xf)) else s in
  let next_ptr := u64 (ptr + s) in
  if next_ptr >? FLANTERM_FB_BUMP_ALLOC_POOL_SIZE then (0, mkBump ptr true (bump_allocated_instance b))
  else (pool + ptr, mkBump next_ptr true (bump_allocated_instance b)).

Definition allocate (pool : Z) (_malloc : option (nat → Z → Z)) (size : Z) : M setup (option Z) := λ s,
  let '(a, b) := match _malloc with
                 | None => bump_alloc pool size (su_bump s)
                 | Some f => (f (su_calls s) size, su_bump s)
                 end in
  if a =? 0 then Ok (None, mkSetup b (S (su_calls s)) (su_blocks s) (su_freed s))
  else Ok (Some a, mkSetup b (S (su_calls s)) (su_blocks s ++ [(a, size)]) (su_freed s)).

(** Euclid's algorithm on [a] and [b]; [fuel] bounds the number of rounds. *)
Fixpoint gcd_loop (fuel : nat) (a b : Z) : outcome Z :=
  if b =? 0 then Ok a else
  match fuel with O => Spin | S fuel => gcd_loop fuel b (a `mod` b) end.

(** The largest [k] for which a screen of [aw * k] by [ah * k] pixels has at most [cap] cells *)
Fixpoint limit_loop (fuel : nat) (aw ah cap k : Z) : outcome Z :=
  match fuel with
  | O => Spin
  | S fuel =>
      let next := u64 (k + 1) in
      let cells_w := u64 (aw * next) / 9 in
      let cells_h := u64 (ah * next) / 16 in
      if negb (cells_h =? 0) && (cells_w >? SIZE_MAX / cells_h) then Ok k else
      let cells := u64 (cells_w * cells_h) in
      if cells >? cap then Ok k else limit_loop fuel aw ah cap next
  end.

Definition bump_pool_limits : outcome (Z * Z) :=
  let fixed_bytes := sizeof_fb + FLANTERM_FB_FONT_GLYPHS * 16 + FLANTERM_FB_FONT_GLYPHS * 16 * 9 * 1 + 7 * 16 in
  let per_cell_bytes := sizeof_fb_char + sizeof_queue_item + 8 in
  match gcd_loop 100 FLANTERM_FB_BUMP_ALLOC_ASPECT_WIDTH FLANTERM_FB_BUMP_ALLOC_ASPECT_HEIGHT with
  | Ok a =>
      let aw := if negb (a =? 0) then FLANTERM_FB_BUMP_ALLOC_ASPECT_WIDTH / a else FLANTERM_FB_BUMP_ALLOC_ASPECT_WIDTH in
      let ah := if negb (a =? 0) then FLANTERM_FB_BUMP_ALLOC_ASPECT_HEIGHT / a else FLANTERM_FB_BUMP_ALLOC_ASPECT_HEIGHT in
      let usable := if FLANTERM_FB_BUMP_ALLOC_POOL_SIZE >? fixed_bytes
                    then FLANTERM_FB_BUMP_ALLOC_POOL_SIZE - fixed_bytes else 0 in
      let cap_cells := if negb (per_cell_bytes =? 0) then usable / per_cell_bytes else 0 in
      if negb (aw =? 0) && negb (ah =? 0) && negb (cap_cells =? 0) then
        match limit_loop 1000 aw ah cap_cells 0 with
        | Ok k => Ok (u64 (aw * k), u64 (ah * k))
        | Halt => Halt | Fault => Fault | Spin => Spin
        end
      else Ok (0, 0)
  | Halt => Halt | Fault => Fault | Spin => Spin
  end.

(** One bit of the font: a row of a glyph is a byte, its columns behind the
    eighth repeat the last one in the line-drawing characters. *)
Definition font_bit (bits : list Z) (font_height i y x : Z) : option bool :=
  match zlookup bits (i * font_height + y) with
  | Some row =>
      Some (if x <? 8 then negb (Z.land row (Z.shiftr 0x80 x) =? 0)
            else if (i >=? 0xc0) && (i <=? 0xdf) then negb (Z.land row 1 =? 0) else false)
  | None => None
  end.

Definition font_store (bits : list Z) (size font_width font_height i y x : Z) : M (gmap Z bool) unit := λ l,
  let offset := u64 (u64 (u64 (u64 (i * font_height) * font_width) + u64 (y * font_width)) + x) in
  match font_bit bits font_height i y x with
  | Some b => if offset <? size then Ok (tt, <[offset := b]> l) else Fault
  | None => Fault
  end.

Definition expand_font (bits : list Z) (size font_width font_height : Z) : M (gmap Z bool) unit :=
  for_loop (Z.to_nat FLANTERM_FB_FONT_GLYPHS) 0 (λ i,
    for_loop (Z.to_nat font_height) 0 (λ y,
      for_loop 8 0 (font_store bits size font_width font_height i y);;
      for_loop (Z.to_nat (font_width - 8)) 8 (font_store bits size font_width font_height i y))).

Record fb_args := mkFbArgs {
  a_pool : Z; a_malloc : option (nat → Z → Z); a_free : bool;
  a_width : Z; a_height : Z; a_pitch : Z; a_masks : masks; a_canvas : option (list Z);
  a_ansi_colours : option (list Z); a_ansi_bright_colours : option (list Z);
  a_default_bg : option Z; a_default_fg : option Z; a_default_bg_bright : option Z; a_default_fg_bright : option Z;
  a_font : option (list Z); a_font_width : Z; a_font_height : Z; a_font_spacing : Z;
  a_font_scale_x : Z; a_font_scale_y : Z; a_margin : Z; a_rotation : Z }.

(** The steps of the set-up: [None] is the jump to [fail]. *)
Definition step {A X} (m : M setup (option A)) (k : A → M setup (option X)) : M setup (option X) :=
  r ← m; match r with Some x => k x | None => mret None end.
Definition need {A} (r : option A) : M setup (option A) := mret r.
Definition check (b : bool) : M setup (option unit) := mret (if b then Some tt else None).

Definition quarter_turn (rotation : Z) : bool := (rotation =? FLANTERM_FB_ROTATE_90) || (rotation =? FLANTERM_FB_ROTATE_270).

(** The scale of the font, by the size of the screen unless it is given *)
Definition font_scale (width height sx sy : Z) : Z * Z :=
  if (sx =? 0) || (sy =? 0) then
    if (width >=? 3840 + 3840 / 3) && (height >=? 2160 + 2160 / 3) then (4, 4)
    else if (width >=? 1920 + 1920 / 3) && (height >=? 1080 + 1080 / 3) then (2, 2)
    else (1, 1)
  else (sx, sy).

Definition masks_ok (k : masks) : bool :=
  negb ((red_mask_size k <? 8) || negb (red_mask_size k =? green_mask_size k) || negb (red_mask_size k =? blue_mask_size k))
  && negb ((red_mask_shift k + red_mask_size k >? 32) || (green_mask_shift k + green_mask_size k >? 32)
           || (blue_mask_shift k + blue_mask_size k >? 32)).
Definition stored_masks (k : masks) : masks :=
  mkMasks (red_mask_size k) (u8 (red_mask_shift k + (red_mask_size k - 8)))
          (green_mask_size k) (u8 (green_mask_shift k + (green_mask_size k - 8)))
          (blue_mask_size k) (u8 (blue_mask_shift k + (blue_mask_size k - 8))).

(** Without [_malloc] the screen is at most as large as the pool allows, in the
    middle of the framebuffer: first pixel, width, height, physical height *)
Definition limit_screen (rotation pitch width height phys_height : Z) : outcome (Z * Z * Z * Z) :=
  match bump_pool_limits with
  | Ok (fb_width_limit, fb_height_limit) =>
      if (width >? fb_width_limit) || (height >? fb_height_limit) then
        let width_limit := if width >? fb_width_limit then fb_width_limit else width in
        let height_limit := if height >? fb_height_limit then fb_height_limit else height in
        let bytes :=
          if quarter_turn rotation then
            u64 (u64 ((height / 2 - height_limit / 2) * 4) + u64 ((width / 2 - width_limit / 2) * pitch))
          else u64 (u64 ((height / 2 - height_limit / 2) * pitch) + u64 ((width / 2 - width_limit / 2) * 4)) in
        Ok (bytes / 4, width_limit, height_limit, if quarter_turn rotation then width_limit else height_limit)
      else Ok (0, width, height, phys_height)
  | Halt => Halt | Fault => Fault | Spin => Spin
  end.

(** The part of the framebuffer that is used, and the scale *)
Record screen_part := mkPart {
  sp_first : Z; sp_width : Z; sp_height : Z; sp_phys_height : Z; sp_scale_x : Z; sp_scale_y : Z; sp_canvas : option (list Z) }.

Definition lift {A} (o : outcome A) : M setup A := λ s,
  match o with Ok x => Ok (x, s) | Halt => Halt | Fault => Fault | Spin => Spin end.

Definition fb_part (a : fb_args) : M setup (option screen_part) :=
  step (check (a_pitch a `mod` 4 =? 0)) (λ _,
  step (need (mul_size_overflow (a_width a) 4)) (λ min_pitch,
  step (check (negb (a_pitch a <? min_pitch))) (λ _,
  let '(width, height) := if quarter_turn (a_rotation a) then (a_height a, a_width a) else (a_width a, a_height a) in
  let '(sx, sy) := font_scale width height (a_font_scale_x a) (a_font_scale_y a) in
  step (check (masks_ok (a_masks a))) (λ _,
  match a_malloc a with
  | Some _ => mret (Some (mkPart 0 width height (a_height a) sx sy (a_canvas a)))
  | None =>
      taken ← gets (λ s, bump_allocated_instance (su_bump s));
      step (check (negb taken)) (λ _,
      '(first, w, h, ph) ← lift (limit_screen (a_rotation a) (a_pitch a) width height (a_height a));
      mret (Some (mkPart first w h ph sx sy None)))
  end)))).

(** The converted palette: eight colours, eight bright colours, the defaults *)
Record palette := mkPalette {
  pa_colours : list Z; pa_bright : list Z; pa_bg : Z; pa_fg : Z; pa_bg_bright : Z; pa_fg_bright : Z }.

Fixpoint convert_colours {S} (k : masks) (l : list Z) : M S (list Z) :=
  match l with
  | [] => mret []
  | v :: l => v ← convert_colour k v; l ← convert_colours k l; mret (v :: l)
  end.
(** An array of eight colours that the caller gives, or [l]. *)
Definition eight {S} (given : option (list Z)) (l : list Z) : M S (list Z) :=
  match given with
  | None => mret l
  | Some g => if Z.of_nat (length g) <? 8 then fault else mret (take 8 g)
  end.
Definition standard_colours : list Z :=
  [0x00000000; 0x00aa0000; 0x0000aa00; 0x00aa5500; 0x000000aa; 0x00aa00aa; 0x0000aaaa; 0x00aaaaaa].
Definition standard_bright : list Z :=
  [0x00555555; 0x00ff5555; 0x0055ff55; 0x00ffff55; 0x005555ff; 0x00ff55ff; 0x0055ffff; 0x00ffffff].

Definition fb_palette (a : fb_args) : M setup palette :=
  let k := stored_masks (a_masks a) in
  cs ← eight (a_ansi_colours a) standard_colours;
  cs ← convert_colours k cs;
  bs ← eight (a_ansi_bright_colours a) standard_bright;
  bs ← convert_colours k bs;
  bg ← match a_default_bg a with Some v => convert_colour k v | None => mret 0x00000000 end;
  fg ← convert_colour k (default 0x00aaaaaa (a_default_fg a));
  bgb ← convert_colour k (default 0x00555555 (a_default_bg_bright a));
  fgb ← convert_colour k (default 0x00ffffff (a_default_fg_bright a));
  mret (mkPalette cs bs bg fg bgb fgb).

Record font_data := mkFont {
  f_width : Z; f_height : Z; f_bits_size : Z; f_bits : list Z; f_bool_size : Z; f_bool : gmap Z bool }.

(** The memory for the bits of the font, and the bits *)
Definition font_source (a : fb_args) : M setup (option (Z * Z * Z * Z * list Z)) :=
  match a_font a with
  | Some font =>
      step (need (mul_size_overflow (a_font_height a) FLANTERM_FB_FONT_GLYPHS)) (λ size,
      step (allocate (a_pool a) (a_malloc a) size) (λ _,
      if Z.of_nat (length font) <? size then fault else
      mret (Some (a_font_width a, a_font_height a, a_font_spacing a, size, take (Z.to_nat size) font))))
  | None =>
      let size := 16 * FLANTERM_FB_FONT_GLYPHS in
      step (allocate (a_pool a) (a_malloc a) size) (λ _, mret (Some (8, 16, 1, size, builtin_font)))
  end.

Definition fb_font (a : fb_args) : M setup (option font_data) :=
  step (font_source a) (λ '(fw, fh, spacing, bits_size, bits),
  step (check (negb (spacing >? SIZE_MAX - fw))) (λ _,
  let fw := u64 (fw + spacing) in
  step (need (mul_size_overflow FLANTERM_FB_FONT_GLYPHS fh)) (λ n,
  step (need (mul_size_overflow n fw)) (λ n,
  step (need (mul_size_overflow n 1)) (λ bool_size,
  step (allocate (a_pool a) (a_malloc a) bool_size) (λ _,
  bools ← lift (expand_font bits bool_size fw fh ∅);
  mret (Some (mkFont fw fh bits_size bits bool_size bools.2)))))))).

(** Cells and margins *)
Record layout := mkLayout { la_glyph_width : Z; la_glyph_height : Z; la_cols : Z; la_rows : Z; la_offset_x : Z; la_offset_y : Z }.

Definition fb_layout (a : fb_args) (sp : screen_part) (f : font_data) : M setup (option layout) :=
  step (need (mul_size_overflow (f_width f) (sp_scale_x sp))) (λ gw,
  step (need (mul_size_overflow (f_height f) (sp_scale_y sp))) (λ gh,
  step (check (negb ((gw =? 0) || (gh =? 0)))) (λ _,
  let m := a_margin a in
  let w := sp_width sp in
  let h := sp_height sp in
  step (check (negb ((m >? SIZE_MAX / 2) || (u64 (m * 2) >=? w) || (u64 (m * 2) >=? h)))) (λ _,
  let m2 := u64 (m * 2) in
  let cols := (w - m2) / gw in
  let rows := (h - m2) / gh in
  step (check (negb ((cols =? 0) || (rows =? 0)))) (λ _,
  mret (Some (mkLayout gw gh cols rows (u64 (m + (w - m2) `mod` gw / 2)) (u64 (m + (h - m2) `mod` gh / 2))))))))).

(** An array of [n] elements of [each] bytes; its size *)
Definition fb_array (a : fb_args) (rows cols each : Z) : M setup (option Z) :=
  step (need (mul_size_overflow rows cols)) (λ n,
  step (need (mul_size_overflow n each)) (λ size,
  step (allocate (a_pool a) (a_malloc a) size) (λ _, mret (Some size)))).

Definition fb_canvas (a : fb_args) (sp : screen_part) : M setup (option (Z * option (list Z))) :=
  match sp_canvas sp with
  | None => mret (Some (0, None))
  | Some cv =>
      step (fb_array a (sp_width sp) (sp_height sp) 4) (λ size,
      let n := u64 (sp_width sp * sp_height sp) in
      if Z.of_nat (length cv) <? n then fault else
      cv ← convert_colours (stored_masks (a_masks a)) (take (Z.to_nat n) cv);
      mret (Some (size, Some cv)))
  end.

Definition choose_plot (sx sy : Z) (cv : option (list Z)) : plotter :=
  if (sx =? 1) && (sy =? 1) then match cv with None => plot_unscaled_uncanvas | Some _ => plot_unscaled_canvas end
  else match cv with None => plot_scaled_uncanvas | Some _ => plot_scaled_canvas end.

Definition null_char : fb_char := mkChar 0 false false 0 0.
Definition zero_context (rows cols : Z) : context :=
  let l := mkLook false false false false 0 0 0 [0; 0] in
  mkContext (mkModes 0 false false false false false)
    (mkParser false false false false false false false false 0 0 0 0 0 0 (replicate 256 0) (replicate 16 0))
    l l (mkGeom rows cols 0 0 0 0) 0 false false.

(** The context that the steps lead to, before the screen is drawn *)
Definition fb_assemble (a : fb_args) (sp : screen_part) (pa : palette) (f : font_data) (la : layout)
    (grid_size queue_size map_size canvas_size : Z) (cv : option (list Z)) (b : bump_state)
    (blocks : list (Z * Z)) (screen : gmap Z Z) : context * fb :=
  let n := Z.to_nat (u64 (la_rows la * la_cols la)) in
  let p := mkPen (pa_fg pa) 0 false true 0 0 in
  let k := mkFbConf (f_width f) (f_height f) (la_glyph_width la) (la_glyph_height la) (sp_scale_x sp) (sp_scale_y sp)
             (la_offset_x la) (la_offset_y la) (sp_first sp) (a_pitch a) (sp_width sp) (sp_height sp) (sp_phys_height sp)
             (stored_masks (a_masks a)) (a_rotation a) (f_bits_size f) (f_bits f) (f_bool_size f) (f_bool f)
             (pa_colours pa) (pa_bright pa) (pa_fg pa) (pa_bg pa) (pa_fg_bright pa) (pa_bg_bright pa)
             canvas_size cv grid_size queue_size map_size (choose_plot (sp_scale_x sp) (sp_scale_y sp) cv) (blocks.*1) in
  (flanterm_context_reinit (zero_context (la_rows la) (la_cols la)),
   mkFb k p p (replicate n (blank p 0x20)) (replicate n (mkItem 0 0 null_char)) 0 (replicate n None) 0 0 screen
     false [] (if a_malloc a is Some _ then b else mkBump (bump_alloc_ptr b) (bump_alloc_base_offset_added b) true) []).

Definition fb_build (a : fb_args) (screen : gmap Z Z) : M setup (option (context * fb)) :=
  step (fb_part a) (λ sp,
  step (allocate (a_pool a) (a_malloc a) sizeof_fb) (λ _,
  pa ← fb_palette a;
  step (fb_font a) (λ f,
  step (fb_layout a sp f) (λ la,
  step (fb_array a (la_rows la) (la_cols la) sizeof_fb_char) (λ grid_size,
  step (fb_array a (la_rows la) (la_cols la) sizeof_queue_item) (λ queue_size,
  step (fb_array a (la_rows la) (la_cols la) 8) (λ map_size,
  step (fb_canvas a sp) (λ '(canvas_size, cv),
  s ← gets id;
  let '(c, t) := fb_assemble a sp pa f la grid_size queue_size map_size canvas_size cv (su_bump s) (su_blocks s) screen in
  drawn ← lift (flanterm_fb_full_refresh c t);
  mret (Some (c, drawn.2)))))))))).

(** The label [fail]: the pool is reset, or the blocks are given back, the last first. *)
Definition fb_fail (a : fb_args) : M setup unit := modify (λ s,
  match su_blocks s with
  | [] => s
  | bl =>
      match a_malloc a with
      | None => mkSetup (bump_reset (su_bump s)) (su_calls s) bl (su_freed s)
      | Some _ => if a_free a then mkSetup (su_bump s) (su_calls s) bl (su_freed s ++ rev bl) else s
      end
  end).

Definition flanterm_fb_init (a : fb_args) (screen : gmap Z Z) : M setup (option (context * fb)) :=
  r ← fb_build a screen;
  match r with
  | Some x => mret (Some x)
  | None => fb_fail a;; mret None
  end.

Definition flanterm_fb_deinit (_free : bool) : M fb unit := modify (λ s,
  if _free then
    let k := conf s in
    let sizes := [sizeof_fb; font_bits_size k; font_bool_size k; grid_size k; queue_size k; map_size k; canvas_size k] in
    match zip (addresses k) sizes with
    | self :: blocks => set_freed (freed s ++ blocks ++ [self]) s
    | [] => s
    end
  else if bump_allocated_instance (bump s) then set_bump (mkBump 0 false false) s
  else s).

Definition flanterm_fb_set_flush_callback (there : bool) : M fb unit :=
  modify (set_flush_callback there);;
  call_flush.

#[global] Instance fb_backend : Backend fb := {|
  be_raw_putchar := flanterm_fb_raw_putchar;
  be_clear := flanterm_fb_clear;
  be_set_cursor_pos := flanterm_fb_set_cursor_pos;
  be_get_cursor_pos := flanterm_fb_get_cursor_pos;
  be_set_text_fg := λ _, flanterm_fb_set_text_fg;
  be_set_text_bg := λ _, flanterm_fb_set_text_bg;
  be_set_text_fg_bright := λ _, flanterm_fb_set_text_fg_bright;
  be_set_text_bg_bright := λ _, flanterm_fb_set_text_bg_bright;
  be_set_text_fg_rgb := λ _, flanterm_fb_set_text_fg_rgb;
  be_set_text_bg_rgb := λ _, flanterm_fb_set_text_bg_rgb;
  be_set_text_fg_default := λ _, flanterm_fb_set_text_fg_default;
  be_set_text_bg_default := λ _, flanterm_fb_set_text_bg_default;
  be_set_text_fg_default_bright := λ _, flanterm_fb_set_text_fg_default_bright;
  be_set_text_bg_default_bright := λ _, flanterm_fb_set_text_bg_default_bright;
  be_move_character := flanterm_fb_move_character;
  be_scroll := flanterm_fb_scroll;
  be_revscroll := flanterm_fb_revscroll;
  be_swap_palette := λ _, flanterm_fb_swap_palette;
  be_save_state := λ _, flanterm_fb_save_state;
  be_restore_state := λ _, flanterm_fb_restore_state;
  be_double_buffer_flush := flanterm_fb_double_buffer_flush;
  be_full_refresh := flanterm_fb_full_refresh;
  be_deinit := λ _, flanterm_fb_deinit;
|}.

(** The terminal that [kmain] sets up on the framebuffer of the boot loader *)
Definition kernel_terminal (pool width height pitch : Z) (k : masks) (screen : gmap Z Z) : M setup (option (context * fb)) :=
  flanterm_fb_init (mkFbArgs pool None false width height pitch k None None None
    (Some 0x00282828) (Some 0x00ebdbb2) None None None 0 0 1 0 0 0 FLANTERM_FB_ROTATE_0) screen.
