(* ===== verification/FbProof.v ===== *)
(** * Drawing on the framebuffer

    Under [conf_ok], which says how font, cells and pixels fit together, drawing
    a character at a cell stores exactly the pixels of that cell: [plot_spec].
    The four drawing functions and the four rotations share one description of a
    pixel's address and colour. *)
From Stdlib Require Import ZArith Lia.
From stdpp Require Import base option gmap list.
From S2P Require Import Prelude Hoare Term TermProof Fb.

Definition stride (k : fb_conf) : Z := pitch k / 4.

(** The pixel of the framebuffer that the pixel [x], [y] of the screen is *)
Definition px (k : fb_conf) (x y : Z) : Z :=
  if rotation k =? FLANTERM_FB_ROTATE_90 then framebuffer k + (height k - 1 - y) + x * stride k
  else if rotation k =? FLANTERM_FB_ROTATE_180 then framebuffer k + (width k - 1 - x) + (height k - 1 - y) * stride k
  else if rotation k =? FLANTERM_FB_ROTATE_270 then framebuffer k + y + (width k - 1 - x) * stride k
  else framebuffer k + x + y * stride k.

Definition glyph_index (k : fb_conf) (c row col : Z) : Z := c * font_height k * font_width k + row * font_width k + col.
Definition has_canvas (k : fb_conf) : Prop := ∃ cv, canvas k = Some cv ∧ Z.of_nat (length cv) = width k * height k.

Record conf_ok (R C : Z) (k : fb_conf) : Prop := {
  ck_stride : 0 < stride k < 2 ^ 31;
  ck_size : 0 < width k < 2 ^ 31 ∧ 0 < height k < 2 ^ 31;
  ck_fits : (if quarter_turn (rotation k) then height k else width k) ≤ stride k;
  ck_font : 0 < font_width k ∧ 0 < font_height k ≤ 256 ∧ 0 < font_scale_x k ∧ 0 < font_scale_y k;
  ck_font_size : 256 * (font_height k * font_width k) < 2 ^ 63;
  ck_glyph : glyph_width k = font_width k * font_scale_x k ∧ glyph_height k = font_height k * font_scale_y k;
  ck_glyphs : ∀ c row col, 0 ≤ c < 256 → 0 ≤ row < font_height k → 0 ≤ col < font_width k →
    is_Some (font_bool k !! glyph_index k c row col);
  ck_cells_x : 0 ≤ offset_x k ∧ offset_x k + C * glyph_width k ≤ width k;
  ck_cells_y : 0 ≤ offset_y k ∧ offset_y k + R * glyph_height k ≤ height k;
  ck_colours : length (ansi_colours k) = 8%nat ∧ length (ansi_bright_colours k) = 8%nat;
  ck_masks : red_mask_size (colour_masks k) ≤ 16 ∧ green_mask_size (colour_masks k) ≤ 16 ∧ blue_mask_size (colour_masks k) ≤ 16;
  ck_canvas : canvas k = None ∨ has_canvas k;
  ck_plot : match plot_char k with
            | plot_unscaled_uncanvas => font_scale_x k = 1 ∧ font_scale_y k = 1
            | plot_unscaled_canvas => font_scale_x k = 1 ∧ font_scale_y k = 1 ∧ has_canvas k
            | plot_scaled_uncanvas => True
            | plot_scaled_canvas => has_canvas k
            end }.

(** Every pixel of the screen is in the framebuffer. *)
Definition covered (k : fb_conf) (ps : gmap Z Z) : Prop :=
  ∀ x y, 0 ≤ x < width k → 0 ≤ y < height k → is_Some (ps !! px k x y).

(** ** Addresses *)

Section geometry.
Context (R C : Z) (k : fb_conf) (Hk : conf_ok R C k).

Lemma strided a a' v v' s : 0 ≤ a < s → 0 ≤ a' < s → a + v * s = a' + v' * s → a = a' ∧ v = v'.
Proof. intros Ha Ha' E. assert (v = v'); [|subst; lia]. destruct (Z.lt_trichotomy v v') as [|[|]]; nia. Qed.

Lemma px_inj x y x' y' : 0 ≤ x < width k → 0 ≤ y < height k → 0 ≤ x' < width k → 0 ≤ y' < height k →
  px k x y = px k x' y' → x = x' ∧ y = y'.
Proof.
  intros Hx Hy Hx' Hy' E. pose proof (ck_fits _ _ _ Hk) as Hf. unfold quarter_turn in Hf. unfold px in E.
  destruct (Z.eqb_spec (rotation k) FLANTERM_FB_ROTATE_90); cbn [orb] in Hf.
  { destruct (strided (height k - 1 - y) (height k - 1 - y') x x' (stride k)); lia. }
  destruct (Z.eqb_spec (rotation k) FLANTERM_FB_ROTATE_180) as [Er|].
  { rewrite Er in Hf. cbn in Hf.
    destruct (strided (width k - 1 - x) (width k - 1 - x') (height k - 1 - y) (height k - 1 - y') (stride k)); lia. }
  destruct (Z.eqb_spec (rotation k) FLANTERM_FB_ROTATE_270).
  - destruct (strided y y' (width k - 1 - x) (width k - 1 - x') (stride k)); lia.
  - destruct (strided x x' y y' (stride k)); lia.
Qed.

Lemma neg_stride : s32 (u64 (- stride k)) = - stride k.
Proof.
  pose proof (ck_stride _ _ _ Hk). unfold s32, swrap, u64. cbv zeta.
  replace ((- stride k) `mod` 2 ^ 64 `mod` 2 ^ 32) with (2 ^ 32 - stride k); [destruct (Z.ltb_spec (2 ^ 32 - stride k) (2 ^ (32 - 1))); lia|].
  symmetry. replace (- stride k) with (2 ^ 64 - stride k + (-1) * 2 ^ 64) by lia. rewrite Z_mod_plus_full, (Z.mod_small (2 ^ 64 - stride k)) by lia.
  replace (2 ^ 64 - stride k) with (2 ^ 32 - stride k + (2 ^ 32 - 1) * 2 ^ 32) by lia. rewrite Z_mod_plus_full. apply Z.mod_small. lia.
Qed.

(** The walk of the drawing functions from [dest] reaches the pixels. *)
Lemma place_px x y gx gy : 0 ≤ x → 0 ≤ y → 0 ≤ gx → 0 ≤ gy → x + gx < width k → y + gy < height k →
  dest (place k x y) + gy * outer_stride (place k x y) + gx * inner_stride (place k x y) = px k (x + gx) (y + gy).
Proof.
  intros. destruct (ck_size _ _ _ Hk). pose proof (ck_stride _ _ _ Hk) as Hs. unfold place, px. fold (stride k). cbv zeta.
  rewrite neg_stride. rewrite (s32_small (stride k)) by lia.
  assert (Hm : ∀ v, 0 ≤ v < 2 ^ 31 → u64 (v * stride k) = v * stride k) by (intros v Hv; apply u64_small; split; [nia|]; apply Z.le_lt_trans with (2 ^ 31 * 2 ^ 31); [apply Z.mul_le_mono_nonneg; lia|lia]).
  repeat case_match; cbn [dest outer_stride inner_stride]; rewrite ?(u64_small (height k - 1)), ?(u64_small (width k - 1)) by lia;
    rewrite ?(u64_small (height k - 1 - y)), ?(u64_small (width k - 1 - x)) by lia; rewrite ?Hm by lia; lia.
Qed.
End geometry.

(** ** Characters as pixels *)

Definition pixel_x (k : fb_conf) (x : Z) : Z := offset_x k + x * glyph_width k.
Definition pixel_y (k : fb_conf) (y : Z) : Z := offset_y k + y * glyph_height k.

(** The colour behind a pixel of the screen *)
Definition backdrop (k : fb_conf) (x y : Z) : Z :=
  match plot_char k with
  | plot_unscaled_uncanvas | plot_scaled_uncanvas => default_bg k
  | plot_unscaled_canvas | plot_scaled_canvas =>
      match canvas k with Some cv => default 0 (zlookup cv (y * width k + x)) | None => 0 end
  end.
Definition glyph_bit (k : fb_conf) (c : fb_char) (gx gy : Z) : bool :=
  default false (font_bool k !! glyph_index k (fc_c c) (gy / font_scale_y k) (gx / font_scale_x k)).
(** The colour of pixel [gx], [gy] of the character [c] that is drawn at the pixel [x], [y] *)
Definition pixel_of (k : fb_conf) (c : fb_char) (x y gx gy : Z) : Z :=
  shade c (glyph_bit k c gx gy) (backdrop k (x + gx) (y + gy)).

Definition in_glyph (k : fb_conf) (gx gy : Z) : Prop := 0 ≤ gx < glyph_width k ∧ 0 ≤ gy < glyph_height k.

(** [ps] is [ps0] after the pixels of [D] of the character have been drawn. *)
Definition drawn (k : fb_conf) (c : fb_char) (x y : Z) (ps0 ps : gmap Z Z) (D : Z → Z → Prop) : Prop :=
  (∀ gx gy, in_glyph k gx gy → D gx gy → ps !! px k (x + gx) (y + gy) = Some (pixel_of k c x y gx gy)) ∧
  (∀ a, (∀ gx gy, in_glyph k gx gy → D gx gy → a ≠ px k (x + gx) (y + gy)) → ps !! a = ps0 !! a).

Section plot.
Context (R C : Z) (k : fb_conf) (Hk : conf_ok R C k).
Context (c : fb_char) (Hc : fits 8 (fc_c c)).
Context (x y : Z) (Hx : 0 ≤ x ∧ x + glyph_width k ≤ width k) (Hy : 0 ≤ y ∧ y + glyph_height k ≤ height k).
Context (s0 : fb) (Ek : conf s0 = k) (Hcov : covered k (pixels s0)).

Lemma drawn_none : drawn k c x y (pixels s0) (pixels s0) (λ _ _, False).
Proof. by split. Qed.
Lemma drawn_iff ps D D' : (∀ gx gy, in_glyph k gx gy → D gx gy ↔ D' gx gy) → drawn k c x y (pixels s0) ps D → drawn k c x y (pixels s0) ps D'.
Proof.
  intros HD [Hin Hout]. split.
  - intros gx gy Hg Hd. apply Hin; [done|]. by apply HD.
  - intros a Ha. apply Hout. intros gx gy Hg Hd. apply Ha; [done|]. by apply HD.
Qed.
Lemma drawn_store ps D gx gy : in_glyph k gx gy → drawn k c x y (pixels s0) ps D →
  drawn k c x y (pixels s0) (<[px k (x + gx) (y + gy) := pixel_of k c x y gx gy]> ps) (λ gx' gy', D gx' gy' ∨ gx' = gx ∧ gy' = gy).
Proof.
  intros Hg [Hin Hout]. unfold in_glyph in Hg. split.
  - intros gx' gy' Hg' Hd. unfold in_glyph in Hg'. destruct (decide (px k (x + gx) (y + gy) = px k (x + gx') (y + gy'))) as [E|Hne].
    + apply (px_inj R C k Hk) in E as [E1 E2]; [|lia..]. assert (gx' = gx) as -> by lia. assert (gy' = gy) as -> by lia.
      apply lookup_insert_eq.
    + rewrite lookup_insert_ne by done. apply Hin; [done|]. destruct Hd as [|[-> ->]]; [done|done].
  - intros a Ha. rewrite lookup_insert_ne by (intros <-; eapply (Ha gx gy); eauto). apply Hout. intros gx' gy' Hg' Hd.
    apply Ha; [done|by left].
Qed.
Lemma drawn_covered ps D : drawn k c x y (pixels s0) ps D → covered k ps.
Proof.
  intros [Hin Hout] x' y' Hx' Hy'. destruct (ps !! px k x' y') eqn:E; [by eexists|]. exfalso.
  assert (Ho : ps !! px k x' y' = pixels s0 !! px k x' y').
  { apply Hout. intros gx gy Hg Hd Ea. rewrite Ea, (Hin gx gy Hg Hd) in E. done. }
  rewrite E in Ho. destruct (Hcov x' y' Hx' Hy') as [v Hv]. congruence.
Qed.

(** One pixel: [row] and [fx] are its place in the unscaled glyph. *)
Lemma plot_pixel_ok (back : Z → Z → M fb Z) ps D gx gy row fx :
  (∀ s, conf s = k → back gx gy s = Ok (backdrop k (x + gx) (y + gy), s)) →
  in_glyph k gx gy → row = gy / font_scale_y k → fx = gx / font_scale_x k →
  drawn k c x y (pixels s0) ps D →
  ∃ ps', plot_pixel k (place k x y) back c gx gy row fx (set_pixels ps s0) = Ok (tt, set_pixels ps' s0) ∧
    drawn k c x y (pixels s0) ps' (λ gx' gy', D gx' gy' ∨ gx' = gx ∧ gy' = gy).
Proof.
  intros Hback Hg Erow Efx Hd. destruct (ck_font _ _ _ Hk) as (Hfw & Hfh & Hsx & Hsy). destruct (ck_glyph _ _ _ Hk) as [Egw Egh].
  pose proof Hg as [Hgx Hgy]. assert (0 ≤ row < font_height k). { rewrite Erow. split; [apply Z.div_pos; lia|apply Z.div_lt_upper_bound; lia]. }
  assert (0 ≤ fx < font_width k). { rewrite Efx. split; [apply Z.div_pos; lia|apply Z.div_lt_upper_bound; lia]. }
  unfold fits in Hc. change (2 ^ 8) with 256 in Hc. pose proof (ck_font_size _ _ _ Hk) as Hfs.
  destruct (ck_glyphs _ _ _ Hk (fc_c c) row fx) as [b Hb]; [lia|lia|lia|].
  unfold plot_pixel. rewrite (bind_ok _ _ _ _ _ (Hback (set_pixels ps s0) Ek)). cbv beta.
  assert (Eidx : u64 (u64 (glyph_offset k c + u64 (row * font_width k)) + fx) = glyph_index k (fc_c c) row fx).
  { unfold glyph_offset, glyph_index. rewrite (u64_small (fc_c c * font_height k)) by nia.
    assert (0 ≤ fc_c c * font_height k * font_width k + row * font_width k + fx < 2 ^ 63).
    { assert (fc_c c * (font_height k * font_width k) ≤ 255 * (font_height k * font_width k)) by (apply Z.mul_le_mono_nonneg_r; nia).
      assert (row * font_width k + fx < font_height k * font_width k) by nia. nia. }
    assert (0 ≤ fc_c c * font_height k * font_width k) by nia. assert (0 ≤ row * font_width k) by nia.
    rewrite (u64_small (fc_c c * font_height k * font_width k)), (u64_small (row * font_width k)) by lia.
    rewrite (u64_small (_ + row * font_width k)) by lia. apply u64_small. lia. }
  rewrite Eidx. unfold bool_at. rewrite Hb. rewrite (bind_ok _ _ _ _ _ (ret_eq _ _)). cbv beta.
  rewrite (place_px R C k Hk) by lia. unfold px_store. mstep. change (pixels (set_pixels ps s0)) with ps.
  destruct (drawn_covered ps D Hd (x + gx) (y + gy)) as [v Hv]; [lia|lia|]. rewrite Hv.
  eexists. split; [reflexivity|]. change (pixels (set_pixels ps s0)) with ps.
  replace (shade c b (backdrop k (x + gx) (y + gy))) with (pixel_of k c x y gx gy); [by apply drawn_store|].
  unfold pixel_of, glyph_bit. by rewrite <-Erow, <-Efx, Hb.
Qed.

(** The pixels before [gx], [gy] in the order of the loops *)
Definition raster (gx gy gx' gy' : Z) : Prop := gy' < gy ∨ gy' = gy ∧ gx' < gx.
Definition drawn_to (gx gy : Z) (s : fb) : Prop :=
  ∃ ps, s = set_pixels ps s0 ∧ drawn k c x y (pixels s0) ps (raster gx gy).

Lemma drawn_to_pixel back gx gy row fx s :
  (∀ s, conf s = k → back gx gy s = Ok (backdrop k (x + gx) (y + gy), s)) →
  in_glyph k gx gy → row = gy / font_scale_y k → fx = gx / font_scale_x k → drawn_to gx gy s →
  ∃ s', plot_pixel k (place k x y) back c gx gy row fx s = Ok (tt, s') ∧ drawn_to (gx + 1) gy s'.
Proof.
  intros Hback Hg Erow Efx (ps & -> & Hd). destruct (plot_pixel_ok back ps _ gx gy row fx Hback Hg Erow Efx Hd) as (ps' & E & Hd').
  exists (set_pixels ps' s0). split; [done|]. exists ps'. split; [done|]. eapply drawn_iff; [|exact Hd']. unfold raster. intros. lia.
Qed.
Lemma drawn_to_row gy s : drawn_to (glyph_width k) gy s → drawn_to 0 (gy + 1) s.
Proof.
  intros (ps & -> & Hd). exists ps. split; [done|]. eapply drawn_iff; [|exact Hd]. unfold raster, in_glyph. intros. lia.
Qed.

Definition backs (back : Z → Z → M fb Z) : Prop :=
  ∀ gx gy, in_glyph k gx gy → ∀ s, conf s = k → back gx gy s = Ok (backdrop k (x + gx) (y + gy), s).

Lemma plot_unscaled_ok back : backs back → font_scale_x k = 1 → font_scale_y k = 1 →
  ∃ s', plot_unscaled k (place k x y) back c s0 = Ok (tt, s') ∧ drawn_to 0 (glyph_height k) s'.
Proof.
  intros Hback Esx Esy. destruct (ck_font _ _ _ Hk) as (Hfw & Hfh & _). destruct (ck_glyph _ _ _ Hk) as [Egw Egh].
  rewrite Esx, Z.mul_1_r in Egw. rewrite Esy, Z.mul_1_r in Egh.
  destruct (for_loop_inv (drawn_to 0) (λ gy, for_loop (Z.to_nat (font_width k)) 0 (λ fx, plot_pixel k (place k x y) back c fx gy gy fx))
    (Z.to_nat (glyph_height k)) 0 s0) as (s' & E & H).
  - exists (pixels s0). split; [by destruct s0|]. eapply drawn_iff; [|apply drawn_none]. unfold raster, in_glyph. intros. lia.
  - intros gy s Hgy Hs. destruct (for_loop_inv (λ gx, drawn_to gx gy) (λ fx, plot_pixel k (place k x y) back c fx gy gy fx)
      (Z.to_nat (font_width k)) 0 s Hs) as (s1 & E1 & H1).
    + intros fx s1 Hfx H1. apply drawn_to_pixel; [|unfold in_glyph; lia|by rewrite Esy, Z.div_1_r|by rewrite Esx, Z.div_1_r|done].
      intros. apply Hback; [unfold in_glyph; lia|done].
    + exists s1. split; [done|]. apply drawn_to_row. by replace (glyph_width k) with (0 + Z.of_nat (Z.to_nat (font_width k))) by lia.
  - exists s'. split; [done|]. by replace (glyph_height k) with (0 + Z.of_nat (Z.to_nat (glyph_height k))) by lia.
Qed.

Lemma plot_scaled_ok back : backs back →
  ∃ s', plot_scaled k (place k x y) back c s0 = Ok (tt, s') ∧ drawn_to 0 (glyph_height k) s'.
Proof.
  intros Hback. destruct (ck_font _ _ _ Hk) as (Hfw & Hfh & Hsx & Hsy). destruct (ck_glyph _ _ _ Hk) as [Egw Egh].
  unfold plot_scaled. edestruct (for_loop_inv (drawn_to 0)) as (s' & E & H); [| |exists s'; split; [exact E|]].
  - exists (pixels s0). split; [by destruct s0|]. eapply drawn_iff; [|apply drawn_none]. unfold raster, in_glyph. intros. lia.
  - intros gy s Hgy Hs. cbn beta. destruct (Z.eqb_spec (font_scale_y k) 0); [lia|]. cbv zeta.
    assert (Hrow : 0 ≤ gy / font_scale_y k < 256). { split; [apply Z.div_pos; lia|apply Z.div_lt_upper_bound; [lia|nia]]. }
    rewrite u8_small by lia. edestruct (for_loop_inv (λ fx, drawn_to (font_scale_x k * fx) gy)) as (s1 & E1 & H1);
      [| |exists s1; split; [exact E1|]].
    + by rewrite Z.mul_0_r.
    + intros fx s1 Hfx H1. cbn beta. edestruct (for_loop_inv (λ i, drawn_to (font_scale_x k * fx + i) gy)) as (s2 & E2 & H2);
        [| |exists s2; split; [exact E2|]].
      * by rewrite Z.add_0_r.
      * intros i s2 Hi H2. assert (Hgx : 0 ≤ font_scale_x k * fx + i < glyph_width k) by (rewrite Egw; nia).
        destruct (ck_cells_x _ _ _ Hk). destruct (ck_size _ _ _ Hk). rewrite u64_small by lia. rewrite Z.add_assoc.
        apply drawn_to_pixel; [|split; lia|done| |done]. { intros. apply Hback; [split; lia|done]. }
        rewrite Z.add_comm, Z.mul_comm, Z.div_add by lia. rewrite Z.div_small by lia. lia.
      * replace (font_scale_x k * (fx + 1)) with (font_scale_x k * fx + (0 + Z.of_nat (Z.to_nat (font_scale_x k)))) by lia. exact H2.
    + apply drawn_to_row. rewrite Egw. replace (font_width k * font_scale_x k) with (font_scale_x k * (0 + Z.of_nat (Z.to_nat (font_width k)))) by lia.
      exact H1.
  - replace (glyph_height k) with (0 + Z.of_nat (Z.to_nat (glyph_height k))) at 1; [exact H|]. rewrite Egh. nia.
Qed.

Lemma behind_backs : has_canvas k → plot_char k = plot_unscaled_canvas ∨ plot_char k = plot_scaled_canvas → backs (behind k x y).
Proof.
  intros (cv & Ecv & Hlen) Hp gx gy [Hgx Hgy] s Es. destruct (ck_size _ _ _ Hk) as [Hw Hh]. unfold behind, backdrop. rewrite Ecv.
  assert (Hrow : 0 ≤ (y + gy) * width k ∧ (y + gy) * width k + (x + gx) < width k * height k) by nia.
  assert (width k * height k < 2 ^ 62) by nia.
  rewrite (u64_small (y + gy)), (u64_small ((y + gy) * width k)), (u64_small (x + (y + gy) * width k)) by lia.
  rewrite u64_small by lia. replace (x + (y + gy) * width k + gx) with ((y + gy) * width k + (x + gx)) by lia.
  unfold at_index. destruct (zlookup_lt cv ((y + gy) * width k + (x + gx))) as [v Hv]; [lia|]. rewrite Hv. by destruct Hp as [->| ->].
Qed.
End plot.

(** ** Cells *)

(** The pixels of cell [x], [y] are the character [c]. *)
Definition shows (k : fb_conf) (ps : gmap Z Z) (x y : Z) (c : fb_char) : Prop :=
  ∀ gx gy, in_glyph k gx gy →
  ps !! px k (pixel_x k x + gx) (pixel_y k y + gy) = Some (pixel_of k c (pixel_x k x) (pixel_y k y) gx gy).

Section cells.
Context (R C : Z) (k : fb_conf) (Hk : conf_ok R C k).

Lemma cell_x x : 0 ≤ x < C → 0 ≤ pixel_x k x ∧ pixel_x k x + glyph_width k ≤ width k.
Proof.
  intros Hx. destruct (ck_cells_x _ _ _ Hk). destruct (ck_font _ _ _ Hk) as (? & ? & ? & ?). destruct (ck_glyph _ _ _ Hk) as [Eg _].
  unfold pixel_x. assert (0 < glyph_width k) by (rewrite Eg; nia). nia.
Qed.
Lemma cell_y y : 0 ≤ y < R → 0 ≤ pixel_y k y ∧ pixel_y k y + glyph_height k ≤ height k.
Proof.
  intros Hy. destruct (ck_cells_y _ _ _ Hk). destruct (ck_font _ _ _ Hk) as (? & ? & ? & ?). destruct (ck_glyph _ _ _ Hk) as [_ Eg].
  unfold pixel_y. assert (0 < glyph_height k) by (rewrite Eg; nia). nia.
Qed.
(** Two cells share no pixel. *)
Lemma cells_apart x y gx gy x' y' gx' gy' : 0 ≤ x < C → 0 ≤ y < R → 0 ≤ x' < C → 0 ≤ y' < R →
  in_glyph k gx gy → in_glyph k gx' gy' →
  px k (pixel_x k x + gx) (pixel_y k y + gy) = px k (pixel_x k x' + gx') (pixel_y k y' + gy') → x = x' ∧ y = y'.
Proof.
  intros Hx Hy Hx' Hy' [Hgx Hgy] [Hgx' Hgy'] E.
  pose proof (cell_x x Hx). pose proof (cell_y y Hy). pose proof (cell_x x' Hx'). pose proof (cell_y y' Hy').
  apply (px_inj R C k Hk) in E as [E1 E2]; [|lia..]. unfold pixel_x, pixel_y in *.
  split; [assert (x < x' + 1 ∧ x' < x + 1) by nia; lia|assert (y < y' + 1 ∧ y' < y + 1) by nia; lia].
Qed.

Lemma plot_at_ok ctx c x y s : wf_geom R C (ctx_geom ctx) → conf s = k → covered k (pixels s) → fits 8 (fc_c c) →
  0 ≤ x < C → 0 ≤ y < R →
  ∃ ps, plot_at ctx c x y s = Ok (tt, set_pixels ps s) ∧ covered k ps ∧ shows k ps x y c ∧
    ∀ x' y' c', 0 ≤ x' < C → 0 ≤ y' < R → x' ≠ x ∨ y' ≠ y → shows k (pixels s) x' y' c' → shows k ps x' y' c'.
Proof.
  intros Hg Ek Hcov Hc Hx Hy. pose proof (cell_x x Hx) as Hpx. pose proof (cell_y y Hy) as Hpy. destruct (ck_size _ _ _ Hk) as [Hw Hh].
  assert (Hplot : ∃ s', plot_at ctx c x y s = Ok (tt, s') ∧ drawn_to k c (pixel_x k x) (pixel_y k y) s 0 (glyph_height k) s').
  { unfold plot_at. destruct (wg_rows _ _ _ Hg) as [-> _]. destruct (wg_cols _ _ _ Hg) as [-> _].
    destruct (Z.geb_spec x C); [lia|]. destruct (Z.geb_spec y R); [lia|]. cbn [orb]. unfold the_conf. mstep. cbv zeta. rewrite Ek.
    assert (0 ≤ x * glyph_width k ∧ 0 ≤ y * glyph_height k ∧ 0 < glyph_width k ∧ 0 < glyph_height k).
    { destruct (ck_font _ _ _ Hk) as (? & ? & ? & ?). destruct (ck_glyph _ _ _ Hk) as [-> ->]. splits; nia. }
    destruct (ck_cells_x _ _ _ Hk), (ck_cells_y _ _ _ Hk). unfold pixel_x, pixel_y in *.
    rewrite (u64_small (x * glyph_width k)), (u64_small (y * glyph_height k)) by lia. rewrite (u64_small (offset_x k + _)), (u64_small (offset_y k + _)) by lia.
    pose proof (ck_plot _ _ _ Hk) as Hp. destruct (plot_char k) eqn:Ep.
    - destruct Hp. apply (plot_unscaled_ok R C); try done. intros gx gy _ s1 _. unfold backdrop. by rewrite Ep.
    - destruct Hp as (? & ? & ?). apply (plot_unscaled_ok R C); try done. apply (behind_backs R C); auto.
    - apply (plot_scaled_ok R C); try done. intros gx gy _ s1 _. unfold backdrop. by rewrite Ep.
    - apply (plot_scaled_ok R C); try done. apply (behind_backs R C); auto. }
  destruct Hplot as (s' & E & ps & -> & Hd). exists ps. split; [exact E|].
  assert (Hall : ∀ gx gy, in_glyph k gx gy → raster 0 (glyph_height k) gx gy) by (unfold in_glyph, raster; lia).
  splits.
  - by eapply drawn_covered.
  - intros gx gy Hin. apply Hd; auto.
  - intros x' y' c' Hx' Hy' Hne Hs gx gy Hin. rewrite (proj2 Hd); [by apply Hs|]. intros gx' gy' Hin' _ Ea.
    apply cells_apart in Ea; [|done..]. lia.
Qed.
End cells.
