(* ===== verification/FbSpec.v ===== *)
(** * The screen as an array of characters

    What fb.c promises: the screen is an array of characters with a cursor, on
    which printing, scrolling, clearing and moving have their plain meaning
    ([screen], an instance of [Backend]).  The queue, the map and the grid
    refine it ([refines]): no operation loses a character, and after a flush the
    pixels of every cell are its character, inverted at the cursor. *)
From Stdlib Require Import ZArith Lia.
From stdpp Require Import base option gmap list.
From S2P Require Import Prelude Hoare Term TermProof Fb FbProof.

(** ** Characters that look alike *)

Definition char_eq (a b : fb_char) : Prop := compare_char a b = true.

Lemma char_eq_iff a b : char_eq a b ↔ fc_c a = fc_c b ∧ fc_fg_default a = fc_fg_default b ∧ fc_bg_default a = fc_bg_default b ∧
  (fc_fg_default a = false → fc_fg a = fc_fg b) ∧ (fc_bg_default a = false → fc_bg a = fc_bg b).
Proof.
  unfold char_eq, compare_char. destruct (Z.eqb_spec (fc_c a) (fc_c b)); cbn [negb]; [|split; [done|by intros [? _]]].
  destruct (fc_fg_default a), (fc_fg_default b), (fc_bg_default a), (fc_bg_default b); cbn;
    try (split; [done|by intros (_ & ? & ? & _)]); destruct (Z.eqb_spec (fc_fg a) (fc_fg b)), (Z.eqb_spec (fc_bg a) (fc_bg b)); cbn;
    split; try done; try (by intros _); intros (_ & _ & _ & Hf & Hb); try (by specialize (Hf eq_refl)); by specialize (Hb eq_refl).
Qed.
#[export] Instance char_eq_equiv : Equivalence char_eq.
Proof.
  split.
  - intros a. by apply char_eq_iff.
  - intros a b. rewrite !char_eq_iff. intros (E1 & E2 & E3 & Hf & Hb). splits; try done; intros; symmetry; [apply Hf|apply Hb]; congruence.
  - intros a b c. rewrite !char_eq_iff. intros (E1 & E2 & E3 & Hf & Hb) (E1' & E2' & E3' & Hf' & Hb'). splits; try congruence; intros.
    + rewrite Hf by done. apply Hf'. congruence.
    + rewrite Hb by done. apply Hb'. congruence.
Qed.
Lemma invert_char_eq a b : char_eq a b → char_eq (invert a) (invert b).
Proof. rewrite !char_eq_iff. intros (E1 & E2 & E3 & Hf & Hb). by splits. Qed.
Lemma shade_char_eq a b on back : char_eq a b → shade a on back = shade b on back.
Proof.
  rewrite char_eq_iff. intros (_ & E1 & E2 & Hf & Hb). unfold shade. rewrite E1, E2.
  destruct on; [destruct (fc_fg_default b) eqn:E|destruct (fc_bg_default b) eqn:E]; try done; [apply Hf|apply Hb]; congruence.
Qed.
Lemma shows_char_eq k ps x y a b : char_eq a b → shows k ps x y a → shows k ps x y b.
Proof.
  intros Hab Hs gx gy Hin. rewrite (Hs gx gy Hin). f_equal. unfold pixel_of, glyph_bit.
  rewrite (shade_char_eq a b) by done. by rewrite (proj1 (proj1 (char_eq_iff a b) Hab)).
Qed.

(** ** The abstract screen *)

Record screen := mkScreen { sc_conf : fb_conf; sc_pen : fb_pen; sc_saved : fb_pen; sc_cells : list fb_char }.
Definition set_sc_pen (p : fb_pen) (a : screen) : screen := mkScreen (sc_conf a) p (sc_saved a) (sc_cells a).
Definition set_sc_cells (l : list fb_char) (a : screen) : screen := mkScreen (sc_conf a) (sc_pen a) (sc_saved a) l.

Section screen_ops.
Variable ctx : context.
Let C := cols (ctx_geom ctx).
Let R := rows (ctx_geom ctx).

Definition row_start (y : Z) : nat := Z.to_nat (y * C).
Definition blanks (a : screen) : list fb_char := replicate (Z.to_nat C) (blank (sc_pen a) 0x20).

(** The lines of the scrolling region move up or down; the line that is left is blank. *)
Definition sc_scroll (a : screen) : screen :=
  let top := scroll_top_margin (ctx_geom ctx) in
  let bot := scroll_bottom_margin (ctx_geom ctx) in
  let l := sc_cells a in
  set_sc_cells (take (row_start top) l ++ drop (row_start (top + 1)) (take (row_start bot) l) ++ blanks a ++ drop (row_start bot) l) a.
Definition sc_revscroll (a : screen) : screen :=
  let top := scroll_top_margin (ctx_geom ctx) in
  let bot := scroll_bottom_margin (ctx_geom ctx) in
  let l := sc_cells a in
  set_sc_cells (take (row_start top) l ++ blanks a ++ drop (row_start top) (take (row_start (bot - 1)) l) ++ drop (row_start bot) l) a.

Definition sc_put (x y : Z) (c : fb_char) (a : screen) : screen :=
  if (x >=? C) || (y >=? R) then a else set_sc_cells (zinsert (y * C + x) c (sc_cells a)) a.

(** The cursor behind the last column goes to the next line, with a scroll at
    the bottom margin, or stays in the last column. *)
Definition sc_wrap (a : screen) : screen :=
  let p := sc_pen a in
  let bot := scroll_bottom_margin (ctx_geom ctx) in
  if wrap_enabled (ctx_modes ctx) && ((cursor_y p <? bot - 1) || scroll_enabled (ctx_modes ctx)) then
    if cursor_y p + 1 =? bot then sc_scroll (set_sc_pen (put_cursor_x 0 p) a)
    else set_sc_pen (put_cursor_y (Z.min (cursor_y p + 1) (R - 1)) (put_cursor_x 0 p)) a
  else set_sc_pen (put_cursor_x (C - 1) p) a.
Definition sc_print (c : Z) (a : screen) : screen :=
  let a := if cursor_x (sc_pen a) >=? C then sc_wrap a else a in
  let p := sc_pen a in
  sc_put (cursor_x p) (cursor_y p) (blank p c) (set_sc_pen (put_cursor_x (cursor_x p + 1) p) a).

Definition sc_clear (move : bool) (a : screen) : screen :=
  let a := set_sc_cells (replicate (Z.to_nat (R * C)) (blank (sc_pen a) 0x20)) a in
  if move then set_sc_pen (put_cursor_y 0 (put_cursor_x 0 (sc_pen a))) a else a.
Definition sc_set_cursor (x y : Z) (a : screen) : screen :=
  set_sc_pen (put_cursor_y (clamp_pos y R) (put_cursor_x (clamp_pos x C) (sc_pen a))) a.
Definition sc_cursor (a : screen) : Z * Z := (Z.min (cursor_x (sc_pen a)) (C - 1), Z.min (cursor_y (sc_pen a)) (R - 1)).
Definition sc_move (nx ny ox oy : Z) (a : screen) : screen :=
  if (ox >=? C) || (oy >=? R) || (nx >=? C) || (ny >=? R) then a
  else match zlookup (sc_cells a) (oy * C + ox) with Some c => sc_put nx ny c a | None => a end.
End screen_ops.

Definition sc_fg (v : option Z) (a : screen) : screen :=
  match v with Some v => set_sc_pen (put_text_fg_default false (put_text_fg v (sc_pen a))) a | None => a end.
Definition sc_bg (v : option Z) (a : screen) : screen :=
  match v with Some v => set_sc_pen (put_text_bg_default false (put_text_bg v (sc_pen a))) a | None => a end.
Definition converted (k : fb_conf) (v : Z) : option Z :=
  match convert_colour (colour_masks k) v tt with Ok (r, _) => Some r | _ => None end.
Definition sc_swap (a : screen) : screen :=
  let p := sc_pen a in
  set_sc_pen (mkPen (text_bg p) (text_fg p) (text_bg_default p) (text_fg_default p) (cursor_x p) (cursor_y p)) a.

#[global] Instance screen_backend : Backend screen := {|
  be_raw_putchar := λ ctx c, modify (sc_print ctx c);
  be_clear := λ ctx move, modify (sc_clear ctx move);
  be_set_cursor_pos := λ ctx x y, modify (sc_set_cursor ctx x y);
  be_get_cursor_pos := λ ctx, gets (sc_cursor ctx);
  be_set_text_fg := λ _ v, modify (λ a, sc_fg (zlookup (ansi_colours (sc_conf a)) v) a);
  be_set_text_bg := λ _ v, modify (λ a, sc_bg (zlookup (ansi_colours (sc_conf a)) v) a);
  be_set_text_fg_bright := λ _ v, modify (λ a, sc_fg (zlookup (ansi_bright_colours (sc_conf a)) v) a);
  be_set_text_bg_bright := λ _ v, modify (λ a, sc_bg (zlookup (ansi_bright_colours (sc_conf a)) v) a);
  be_set_text_fg_rgb := λ _ v, modify (λ a, sc_fg (converted (sc_conf a) v) a);
  be_set_text_bg_rgb := λ _ v, modify (λ a, sc_bg (converted (sc_conf a) v) a);
  be_set_text_fg_default := λ _, modify (λ a, sc_fg (Some (default_fg (sc_conf a))) a);
  be_set_text_bg_default := λ _, modify (λ a, set_sc_pen (put_text_bg_default true (sc_pen a)) a);
  be_set_text_fg_default_bright := λ _, modify (λ a, sc_fg (Some (default_fg_bright (sc_conf a))) a);
  be_set_text_bg_default_bright := λ _, modify (λ a, sc_bg (Some (default_bg_bright (sc_conf a))) a);
  be_move_character := λ ctx nx ny ox oy, modify (sc_move ctx nx ny ox oy);
  be_scroll := λ ctx, modify (sc_scroll ctx);
  be_revscroll := λ ctx, modify (sc_revscroll ctx);
  be_swap_palette := λ _, modify sc_swap;
  be_save_state := λ _, modify (λ a, mkScreen (sc_conf a) (sc_pen a) (sc_pen a) (sc_cells a));
  be_restore_state := λ _, modify (λ a, set_sc_pen (sc_saved a) a);
  be_double_buffer_flush := λ _, mret tt;
  be_full_refresh := λ _, mret tt;
  be_deinit := λ _ _, mret tt;
|}.

(** ** The queue *)

Definition cell (C x y : Z) : Z := y * C + x.

(** Items and map entries belong to each other, one by one. *)
Record queue_ok (R C : Z) (s : fb) : Prop := {
  qk_dims : 0 < R ∧ 0 < C ∧ R * C < 2 ^ 62;
  qk_grid : Z.of_nat (length (grid s)) = R * C;
  qk_map : Z.of_nat (length (queue_map s)) = R * C;
  qk_queue : Z.of_nat (length (queue s)) = R * C;
  qk_i : 0 ≤ queue_i s ≤ R * C;
  qk_items : ∀ n, 0 ≤ n < queue_i s → ∃ q, zlookup (queue s) n = Some q ∧ 0 ≤ q_x q < C ∧ 0 ≤ q_y q < R ∧
    zlookup (queue_map s) (cell C (q_x q) (q_y q)) = Some (Some n);
  qk_entries : ∀ i n, zlookup (queue_map s) i = Some (Some n) → 0 ≤ n < queue_i s ∧
    ∃ q, zlookup (queue s) n = Some q ∧ cell C (q_x q) (q_y q) = i }.

(** The character that a cell is going to have *)
Definition logical (s : fb) (i : Z) : option fb_char :=
  match zlookup (queue_map s) i with
  | Some (Some n) => q_c <$> zlookup (queue s) n
  | Some None => zlookup (grid s) i
  | None => None
  end.

(** Only the queue and the map differ. *)
Definition same_screen (s s' : fb) : Prop :=
  s' = mkFb (conf s) (pen s) (saved_pen s) (grid s) (queue s') (queue_i s') (queue_map s') (old_cursor_x s) (old_cursor_y s)
         (pixels s) (flush_callback s) (flushes s) (bump s) (freed s).
Lemma same_screen_refl s : same_screen s s.
Proof. by destruct s. Qed.
Lemma same_screen_trans s1 s2 s3 : same_screen s1 s2 → same_screen s2 s3 → same_screen s1 s3.
Proof. unfold same_screen. intros -> ->. done. Qed.

Section queue.
Context (R C : Z).

Lemma cell_range x y : 0 ≤ x < C → 0 ≤ y < R → 0 ≤ cell C x y < R * C.
Proof. unfold cell. nia. Qed.
Lemma cell_inj x y x' y' : 0 ≤ x < C → 0 ≤ x' < C → cell C x y = cell C x' y' → x = x' ∧ y = y'.
Proof. unfold cell. intros. assert (y = y'); [|lia]. destruct (Z.lt_trichotomy y y') as [|[|]]; nia. Qed.
Lemma cell_of i : 0 < C → 0 ≤ i < R * C → cell C (i `mod` C) (i / C) = i ∧ 0 ≤ i `mod` C < C ∧ 0 ≤ i / C < R.
Proof.
  intros HC Hi. pose proof (Z.mod_pos_bound i C HC). pose proof (Z.div_mod i C ltac:(lia)). unfold cell. splits; [lia|lia|lia|apply Z.div_pos; lia|].
  apply Z.div_lt_upper_bound; lia.
Qed.

Lemma logical_some s i : queue_ok R C s → 0 ≤ i < R * C → ∃ c, logical s i = Some c.
Proof.
  intros Hq Hi. unfold logical. destruct (zlookup_lt (queue_map s) i) as [o Ho]; [rewrite (qk_map _ _ _ Hq); lia|]. rewrite Ho.
  destruct o as [n|].
  - destruct (qk_entries _ _ _ Hq i n Ho) as (_ & q & -> & _). by eexists.
  - destruct (zlookup_lt (grid s) i) as [c Hc]; [rewrite (qk_grid _ _ _ Hq); lia|]. by exists c.
Qed.

(** The cells of the items of the queue are different, so that there is room for a cell without an item. *)
Lemma queue_room s i : queue_ok R C s → 0 ≤ i < R * C → zlookup (queue_map s) i = Some None → queue_i s < R * C.
Proof.
  intros Hq Hi Hn. destruct (qk_i _ _ _ Hq) as [H0 Hle]. 
  set (f := λ n, match zlookup (queue s) n with Some q => cell C (q_x q) (q_y q) | None => 0 end).
  assert (Hf : ∀ n, 0 ≤ n < queue_i s → zlookup (queue_map s) (f n) = Some (Some n) ∧ 0 ≤ f n < R * C).
  { intros n Hn'. destruct (qk_items _ _ _ Hq n Hn') as (q & E & Hx & Hy & Hm). unfold f. rewrite E. split; [done|by apply cell_range]. }
  assert (Hlen : (length (i :: (f <$> seqZ 0 (queue_i s))) ≤ Z.to_nat (R * C))%nat).
  { apply NoDup_bounded.
    - apply NoDup_cons. split.
      + intros (n & -> & Hn'%elem_of_seqZ)%list_elem_of_fmap. destruct (Hf n) as [E _]; [lia|]. congruence.
      + apply NoDup_fmap_2_strong; [|apply NoDup_seqZ]. intros n m Hn'%elem_of_seqZ Hm'%elem_of_seqZ E.
        destruct (Hf n) as [En _]; [lia|]. destruct (Hf m) as [Em _]; [lia|]. rewrite E, Em in En. by injection En.
    - intros v [->|(n & -> & Hn'%elem_of_seqZ)%list_elem_of_fmap]%elem_of_cons; [lia|]. destruct (Hf n) as [_ ?]; lia. }
  cbn in Hlen. rewrite length_fmap, length_seqZ in Hlen. lia.
Qed.

Lemma at_index_ok {A} (l : list A) i x (s : fb) : zlookup l i = Some x → at_index l i s = Ok (x, s).
Proof. intros E. unfold at_index. by rewrite E. Qed.
Lemma map_at_ok s i o : zlookup (queue_map s) i = Some o → map_at i s = Ok (o, s).
Proof. apply at_index_ok. Qed.
Lemma grid_at_ok s i c : zlookup (grid s) i = Some c → grid_at i s = Ok (c, s).
Proof. apply at_index_ok. Qed.
Lemma item_at_ok s n q : zlookup (queue s) n = Some q → item_at n s = Ok (q, s).
Proof. apply at_index_ok. Qed.
Lemma put_item_ok s n q q' : zlookup (queue s) n = Some q → put_item n q' s = Ok (tt, set_queue (zinsert n q' (queue s)) s).
Proof. intros E. unfold put_item. by rewrite (bind_ok _ _ _ _ _ (item_at_ok s n q E)). Qed.
Lemma put_map_ok s i o o' : zlookup (queue_map s) i = Some o → put_map i o' s = Ok (tt, set_queue_map (zinsert i o' (queue_map s)) s).
Proof. intros E. unfold put_map. by rewrite (bind_ok _ _ _ _ _ (map_at_ok s i o E)). Qed.
Lemma put_grid_ok s i c c' : zlookup (grid s) i = Some c → put_grid i c' s = Ok (tt, set_grid (zinsert i c' (grid s)) s).
Proof. intros E. unfold put_grid. by rewrite (bind_ok _ _ _ _ _ (grid_at_ok s i c E)). Qed.
Lemma set_item_char_ok s n q c : zlookup (queue s) n = Some q →
  set_item_char n c s = Ok (tt, set_queue (zinsert n (mkItem (q_x q) (q_y q) c) (queue s)) s).
Proof. intros E. unfold set_item_char. rewrite (bind_ok _ _ _ _ _ (item_at_ok s n q E)). by eapply put_item_ok. Qed.
Lemma cell_char_ok s i c : logical s i = Some c → cell_char i s = Ok (c, s).
Proof.
  unfold logical, cell_char. intros E. destruct (zlookup (queue_map s) i) as [o|] eqn:Eo; [|done].
  rewrite (bind_ok _ _ _ _ _ (map_at_ok s i o Eo)). destruct o as [n|]; [|by apply grid_at_ok].
  destruct (zlookup (queue s) n) as [q|] eqn:Eq; [|done]. injection E as <-. by rewrite (bind_ok _ _ _ _ _ (item_at_ok s n q Eq)).
Qed.

Lemma cell_u64 ctx x y s : wf_geom R C (ctx_geom ctx) → queue_ok R C s → 0 ≤ x < C → 0 ≤ y < R →
  u64 (u64 (y * cols (ctx_geom ctx)) + x) = cell C x y.
Proof.
  intros Hg Hq Hx Hy. destruct (wg_cols _ _ _ Hg) as [-> _]. destruct (qk_dims _ _ _ Hq) as (_ & _ & Hs).
  pose proof (cell_range x y Hx Hy). unfold cell in *. rewrite (u64_small (y * C)) by nia. apply u64_small. lia.
Qed.

(** A character for a cell that has an item *)
Lemma push_replace s i n c : queue_ok R C s → 0 ≤ i < R * C → zlookup (queue_map s) i = Some (Some n) →
  ∃ s', set_item_char n c s = Ok (tt, s') ∧ same_screen s s' ∧ queue_ok R C s' ∧
    ∀ j, 0 ≤ j < R * C → logical s' j = if decide (j = i) then Some c else logical s j.
Proof.
  intros Hq Hi Hm. destruct (qk_entries _ _ _ Hq i n Hm) as (Hn & q & Eq & Ec).
  assert (Hlen : 0 ≤ n < Z.of_nat (length (queue s))) by (rewrite (qk_queue _ _ _ Hq); pose proof (qk_i _ _ _ Hq); lia).
  eexists. split; [by apply set_item_char_ok|]. split; [by destruct s|].
  assert (Hlook : ∀ m, zlookup (zinsert n (mkItem (q_x q) (q_y q) c) (queue s)) m =
    if decide (n = m) then Some (mkItem (q_x q) (q_y q) c) else zlookup (queue s) m) by (intros; by apply zlookup_zinsert).
  split.
  - destruct Hq. split; cbn; try done; [by rewrite length_zinsert|..].
    + intros m Hm'. rewrite Hlook. case_decide; [subst m; eexists; split; [done|]|by apply qk_items0].
      destruct (qk_items0 n Hn) as (q' & E' & H'). assert (q' = q) as -> by congruence. exact H'.
    + intros j m Hj. destruct (qk_entries0 j m Hj) as (Hm' & q' & E' & H'). split; [done|]. rewrite Hlook.
      case_decide; [subst m; eexists; split; [done|]; cbn; congruence|eauto].
  - intros j Hj. unfold logical. cbn. destruct (zlookup (queue_map s) j) as [[m|]|] eqn:Ej.
    + destruct (qk_entries _ _ _ Hq j m Ej) as (_ & q' & E' & H'). rewrite Hlook. case_decide.
      * subst m. rewrite decide_True; [done|]. congruence.
      * rewrite decide_False; [done|]. intros ->. congruence.
    + rewrite decide_False; [done|]. intros ->. congruence.
    + rewrite decide_False; [done|]. intros ->. congruence.
Qed.

(** A new item for a cell without one *)
Lemma push_new s x y c : queue_ok R C s → 0 ≤ x < C → 0 ≤ y < R → zlookup (queue_map s) (cell C x y) = Some None →
  ∃ s', (modify (set_queue_i (queue_i s + 1));; q ← item_at (queue_i s); put_item (queue_i s) (mkItem x y (q_c q));;
         put_map (cell C x y) (Some (queue_i s));; set_item_char (queue_i s) c) s = Ok (tt, s') ∧
    same_screen s s' ∧ queue_ok R C s' ∧
    ∀ j, 0 ≤ j < R * C → logical s' j = if decide (j = cell C x y) then Some c else logical s j.
Proof.
  intros Hq Hx Hy Hm. pose proof (cell_range x y Hx Hy) as Hi. pose proof (queue_room s _ Hq Hi Hm) as Hroom.
  pose proof (qk_i _ _ _ Hq) as Hqi. set (n := queue_i s) in *.
  assert (Hlen : 0 ≤ n < Z.of_nat (length (queue s))) by (rewrite (qk_queue _ _ _ Hq); lia).
  destruct (zlookup_lt (queue s) n Hlen) as [q Eq]. set (s1 := set_queue_i (n + 1) s).
  set (qs1 := zinsert n (mkItem x y (q_c q)) (queue s)). set (s2 := set_queue qs1 s1).
  set (qm := zinsert (cell C x y) (Some n) (queue_map s)). set (s3 := set_queue_map qm s2).
  assert (Eq1 : zlookup qs1 n = Some (mkItem x y (q_c q))) by (unfold qs1; rewrite zlookup_zinsert by done; by rewrite decide_True).
  set (qs2 := zinsert n (mkItem x y c) qs1). exists (set_queue qs2 s3). split.
  { rewrite (bind_ok (modify _) _ s tt s1) by reflexivity. rewrite (bind_ok _ _ _ _ _ (item_at_ok s1 n q Eq)).
    rewrite (bind_ok _ _ _ _ _ (put_item_ok s1 n q _ Eq)). fold qs1 s2. rewrite (bind_ok _ _ _ _ _ (put_map_ok s2 _ None _ Hm)).
    fold qm s3. exact (set_item_char_ok s3 n _ c Eq1). }
  split; [by destruct s|].
  assert (Hlook : ∀ m, zlookup qs2 m = if decide (n = m) then Some (mkItem x y c) else zlookup (queue s) m).
  { intros m. unfold qs2, qs1. rewrite zlookup_zinsert by (by rewrite length_zinsert). case_decide; [done|]. rewrite zlookup_zinsert by done.
    by rewrite decide_False. }
  assert (Hlm : 0 ≤ cell C x y < Z.of_nat (length (queue_map s))) by (by rewrite (qk_map _ _ _ Hq)).
  assert (Hmap : ∀ j, zlookup qm j = if decide (cell C x y = j) then Some (Some n) else zlookup (queue_map s) j) by (intros; by apply zlookup_zinsert).
  split.
  - destruct Hq. split; cbn; try done; [by unfold qm; rewrite length_zinsert|by unfold qs2, qs1; rewrite !length_zinsert|lia|..].
    + intros m Hm'. rewrite Hlook. case_decide as Hnm.
      * subst m. eexists. split; [done|]. cbn. splits; try lia. rewrite Hmap. by rewrite decide_True.
      * destruct (qk_items0 m) as (q' & E' & Hx' & Hy' & H'); [unfold n in *; lia|]. exists q'. splits; try done; try lia. rewrite Hmap.
        rewrite decide_False; [done|]. intros Ec. rewrite <-Ec in H'. congruence.
    + intros j m. rewrite Hmap. case_decide as Hj.
      * intros [= <-]. split; [unfold n in *; lia|]. rewrite Hlook, decide_True by done. eexists. split; [done|]. cbn. done.
      * intros Ej. destruct (qk_entries0 j m Ej) as (Hm' & q' & E' & H'). split; [unfold n in *; lia|]. rewrite Hlook.
        rewrite decide_False; [by exists q'|]. unfold n. lia.
  - intros j Hj. unfold logical. cbn. rewrite Hmap. case_decide as Hjc.
    + rewrite Hlook, decide_True by done. cbn. by rewrite decide_True.
    + rewrite decide_False by done. destruct (zlookup (queue_map s) j) as [[m|]|] eqn:Ej; [|done|done].
      destruct (qk_entries _ _ _ Hq j m Ej) as (Hm' & _). rewrite Hlook, decide_False; [done|]. unfold n. lia.
Qed.

Lemma push_ok ctx c x y s : wf_geom R C (ctx_geom ctx) → queue_ok R C s → 0 ≤ x < C → 0 ≤ y < R →
  ∃ s' c', push_to_queue ctx c x y s = Ok (tt, s') ∧ same_screen s s' ∧ queue_ok R C s' ∧ char_eq c' c ∧
    ∀ j, 0 ≤ j < R * C → logical s' j = if decide (j = cell C x y) then Some c' else logical s j.
Proof.
  intros Hg Hq Hx Hy. pose proof (cell_range x y Hx Hy) as Hi. unfold push_to_queue. cbv zeta. rewrite (cell_u64 ctx x y s) by done.
  destruct (wg_rows _ _ _ Hg) as [-> _]. destruct (wg_cols _ _ _ Hg) as [-> _].
  destruct (Z.geb_spec x C); [lia|]. destruct (Z.geb_spec y R); [lia|]. cbn [orb].
  destruct (zlookup_lt (queue_map s) (cell C x y)) as [o Ho]; [by rewrite (qk_map _ _ _ Hq)|].
  rewrite (bind_ok _ _ _ _ _ (map_at_ok s _ o Ho)). destruct o as [n|].
  { destruct (push_replace s _ n c Hq Hi Ho) as (s' & E & Hs & Hq' & Hl). by exists s', c. }
  destruct (zlookup_lt (grid s) (cell C x y)) as [old Eold]; [by rewrite (qk_grid _ _ _ Hq)|].
  rewrite (bind_ok _ _ _ _ _ (grid_at_ok s _ old Eold)). destruct (compare_char old c) eqn:Ecmp.
  { exists s, old. splits; [done|apply same_screen_refl|done|done|]. intros j Hj. case_decide; [subst j|done]. unfold logical. by rewrite Ho. }
  mstep. pose proof (queue_room s _ Hq Hi Ho). destruct (qk_dims _ _ _ Hq) as (_ & _ & ?). rewrite u64_small by nia.
  destruct (Z.eqb_spec (queue_i s) (R * C)); [lia|]. destruct (push_new s x y c Hq Hx Hy Ho) as (s' & E & Hs & Hq' & Hl).
  exists s', c. splits; try done.
Qed.

(** ** Contents *)

(** The cells have the characters of [f], up to their looks. *)
Definition content (s : fb) (f : Z → fb_char) : Prop := ∀ i, 0 ≤ i < R * C → ∃ c, logical s i = Some c ∧ char_eq c (f i).

(** [s'] has the contents [f], and only queue and map differ from [s]. *)
Definition moved (s s' : fb) (f : Z → fb_char) : Prop := same_screen s s' ∧ queue_ok R C s' ∧ content s' f.

Lemma moved_trans s1 s2 s3 f : same_screen s1 s2 → moved s2 s3 f → moved s1 s3 f.
Proof. intros H12 (H23 & Hq & Hc). split; [by eapply same_screen_trans|done]. Qed.
Lemma content_ext s f g : (∀ i, 0 ≤ i < R * C → f i = g i) → content s f → content s g.
Proof. intros Hfg Hf i Hi. rewrite <-Hfg by done. by apply Hf. Qed.
Lemma moved_ext s s' f g : (∀ i, 0 ≤ i < R * C → f i = g i) → moved s s' f → moved s s' g.
Proof. intros Hfg (Hs & Hq & Hf). split; [done|]. split; [done|by eapply content_ext]. Qed.
Lemma moved_refl s f : queue_ok R C s → content s f → moved s s f.
Proof. intros Hq Hf. split; [apply same_screen_refl|by split]. Qed.

Lemma push_moved ctx c g x y s f : wf_geom R C (ctx_geom ctx) → queue_ok R C s → content s f → char_eq c g →
  0 ≤ x < C → 0 ≤ y < R →
  ∃ s', push_to_queue ctx c x y s = Ok (tt, s') ∧ moved s s' (λ j, if decide (j = cell C x y) then g else f j).
Proof.
  intros Hg Hq Hf Hcg Hx Hy. destruct (push_ok ctx c x y s Hg Hq Hx Hy) as (s' & c' & E & Hs & Hq' & Hcc & Hl).
  exists s'. split; [done|]. split; [done|]. split; [done|]. intros i Hi. rewrite Hl by done. case_decide; [|by apply Hf].
  exists c'. split; [done|]. by transitivity c.
Qed.

(** A loop of pushes *)
Lemma moved_loop (body : Z → M fb unit) (f : Z → Z → fb_char) n lo s :
  (∀ i s, lo ≤ i < lo + Z.of_nat n → queue_ok R C s → content s (f i) → ∃ s', body i s = Ok (tt, s') ∧ moved s s' (f (i + 1))) →
  queue_ok R C s → content s (f lo) →
  ∃ s', for_loop n lo body s = Ok (tt, s') ∧ moved s s' (f (lo + Z.of_nat n)).
Proof.
  intros Hb Hq Hf. destruct (for_loop_inv (λ i s', moved s s' (f i)) body n lo s) as (s' & E & H); [by apply moved_refl| |eauto].
  intros i s1 Hi (Hs1 & Hq1 & Hf1). destruct (Hb i s1 Hi Hq1 Hf1) as (s2 & E2 & H2). exists s2. split; [done|]. by eapply moved_trans.
Qed.

Lemma copy_cell_moved ctx from to s f : wf_geom R C (ctx_geom ctx) → queue_ok R C s → content s f → 0 ≤ from < R * C → 0 ≤ to < R * C →
  ∃ s', copy_cell ctx from to s = Ok (tt, s') ∧ moved s s' (λ j, if decide (j = to) then f from else f j).
Proof.
  intros Hg Hq Hf Hfrom Hto. destruct (qk_dims _ _ _ Hq) as (_ & HC & _). destruct (Hf from Hfrom) as (c & Hc & Hcf).
  destruct (cell_of to HC Hto) as (Ecell & Hx & Hy). unfold copy_cell. cbv zeta. rewrite (bind_ok _ _ _ _ _ (cell_char_ok s from c Hc)).
  destruct (wg_cols _ _ _ Hg) as [-> _]. destruct (Z.eqb_spec C 0); [lia|].
  destruct (push_moved ctx c (f from) (to `mod` C) (to / C) s f Hg Hq Hf Hcf Hx Hy) as (s' & E & H). exists s'. split; [done|]. by rewrite Ecell in H.
Qed.

Lemma blank_line_moved ctx y s f : wf_geom R C (ctx_geom ctx) → queue_ok R C s → content s f → 0 ≤ y < R →
  ∃ s', blank_line ctx y s = Ok (tt, s') ∧ moved s s' (λ j, if decide (y * C ≤ j < (y + 1) * C) then blank (pen s) 0x20 else f j).
Proof.
  intros Hg Hq Hf Hy. destruct (qk_dims _ _ _ Hq) as (_ & HC & _). unfold blank_line. mstep. destruct (wg_cols _ _ _ Hg) as [-> _].
  destruct (moved_loop (λ i, push_to_queue ctx (blank (pen s) 0x20) i y)
    (λ i j, if decide (y * C ≤ j < y * C + i) then blank (pen s) 0x20 else f j) (Z.to_nat C) 0 s) as (s' & E & H).
  - intros i s1 Hi Hq1 Hf1. destruct (push_moved ctx (blank (pen s) 0x20) (blank (pen s) 0x20) i y s1 _ Hg Hq1 Hf1) as (s2 & E2 & H2);
      [reflexivity|lia|done|]. exists s2. split; [done|]. eapply moved_ext; [|exact H2]. intros j Hj. cbn beta. unfold cell.
    repeat case_decide; (done || lia).
  - done.
  - eapply content_ext; [|exact Hf]. intros j Hj. by rewrite decide_False by lia.
  - exists s'. split; [done|]. eapply moved_ext; [|exact H]. intros j Hj. cbn beta. repeat case_decide; (done || lia).
Qed.

(** The lines of the region move up; the pen is not changed. *)
Definition scrolled (top bot : Z) (b : fb_char) (f : Z → fb_char) (j : Z) : fb_char :=
  if decide (top * C ≤ j < (bot - 1) * C) then f (j + C) else if decide ((bot - 1) * C ≤ j < bot * C) then b else f j.
Definition revscrolled (top bot : Z) (b : fb_char) (f : Z → fb_char) (j : Z) : fb_char :=
  if decide ((top + 1) * C ≤ j < bot * C) then f (j - C) else if decide (top * C ≤ j < (top + 1) * C) then b else f j.

Lemma scroll_moved ctx s f : wf_geom R C (ctx_geom ctx) → queue_ok R C s → content s f →
  ∃ s', flanterm_fb_scroll ctx s = Ok (tt, s') ∧
    moved s s' (scrolled (scroll_top_margin (ctx_geom ctx)) (scroll_bottom_margin (ctx_geom ctx)) (blank (pen s) 0x20) f).
Proof.
  intros Hg Hq Hf. destruct (qk_dims _ _ _ Hq) as (HR & HC & Hs). destruct (wg_margins _ _ _ Hg) as [Hm Hb].
  destruct (wg_rows _ _ _ Hg) as [_ HR']. unfold flanterm_fb_scroll. cbv zeta. destruct (wg_cols _ _ _ Hg) as [-> HC'].
  set (top := scroll_top_margin (ctx_geom ctx)) in *. set (bot := scroll_bottom_margin (ctx_geom ctx)) in *.
  assert (0 ≤ (top + 1) * C ≤ bot * C ∧ bot * C ≤ R * C) by nia.
  rewrite (u64_small (top + 1)), (u64_small ((top + 1) * C)), (u64_small (bot * C)), (u64_small (bot - 1)) by lia.
  destruct (moved_loop (λ i, copy_cell ctx i (u64 (i - C))) (λ i j, if decide (top * C ≤ j < i - C) then f (j + C) else f j)
    (Z.to_nat (bot * C - (top + 1) * C)) ((top + 1) * C) s) as (s1 & E1 & Hs1 & Hq1 & Hf1).
  - intros i s1 Hi Hq1 Hf1. rewrite u64_small by lia.
    destruct (copy_cell_moved ctx i (i - C) s1 _ Hg Hq1 Hf1) as (s2 & E2 & H2); [lia|lia|]. exists s2. split; [done|].
    eapply moved_ext; [|exact H2]. intros j Hj. cbn beta. repeat case_decide; try lia; try done. f_equal. lia.
  - done.
  - eapply content_ext; [|exact Hf]. intros j Hj. by rewrite decide_False by lia.
  - rewrite (bind_ok _ _ _ _ _ E1). destruct (blank_line_moved ctx (bot - 1) s1 _ Hg Hq1 Hf1) as (s2 & E2 & H2); [lia|].
    exists s2. split; [done|]. eapply moved_trans; [exact Hs1|]. eapply moved_ext; [|exact H2]. intros j Hj. cbn beta. unfold scrolled.
    replace (pen s1) with (pen s) by (by rewrite Hs1). repeat case_decide; (done || lia).
Qed.

Lemma revscroll_moved ctx s f : wf_geom R C (ctx_geom ctx) → queue_ok R C s → content s f →
  ∃ s', flanterm_fb_revscroll ctx s = Ok (tt, s') ∧
    moved s s' (revscrolled (scroll_top_margin (ctx_geom ctx)) (scroll_bottom_margin (ctx_geom ctx)) (blank (pen s) 0x20) f).
Proof.
  intros Hg Hq Hf. destruct (qk_dims _ _ _ Hq) as (HR & HC & Hs). destruct (wg_margins _ _ _ Hg) as [Hm Hb].
  destruct (wg_rows _ _ _ Hg) as [_ HR']. unfold flanterm_fb_revscroll. cbv zeta. destruct (wg_cols _ _ _ Hg) as [-> HC'].
  set (top := scroll_top_margin (ctx_geom ctx)) in *. set (bot := scroll_bottom_margin (ctx_geom ctx)) in *.
  assert (0 ≤ top * C ≤ (bot - 1) * C ∧ bot * C ≤ R * C) by nia.
  rewrite (u64_small (bot - 1)), (u64_small (top * C)), (u64_small ((bot - 1) * C)) by lia. set (e := (bot - 1) * C) in *.
  destruct (moved_loop (λ k, copy_cell ctx (e - 1 - k) (u64 (e - 1 - k + C))) (λ k j, if decide (e + C - k ≤ j < e + C) then f (j - C) else f j)
    (Z.to_nat (e - top * C)) 0 s) as (s1 & E1 & Hs1 & Hq1 & Hf1).
  - intros i s1 Hi Hq1 Hf1. rewrite u64_small by lia.
    destruct (copy_cell_moved ctx (e - 1 - i) (e - 1 - i + C) s1 _ Hg Hq1 Hf1) as (s2 & E2 & H2); [lia|lia|]. exists s2. split; [done|].
    eapply moved_ext; [|exact H2]. intros j Hj. cbn beta. repeat case_decide; try lia; try done. f_equal. lia.
  - done.
  - eapply content_ext; [|exact Hf]. intros j Hj. by rewrite decide_False by lia.
  - rewrite (bind_ok _ _ _ _ _ E1). destruct (blank_line_moved ctx top s1 _ Hg Hq1 Hf1) as (s2 & E2 & H2); [lia|].
    exists s2. split; [done|]. eapply moved_trans; [exact Hs1|]. eapply moved_ext; [|exact H2]. intros j Hj. cbn beta. unfold revscrolled.
    replace (pen s1) with (pen s) by (by rewrite Hs1). repeat case_decide; (done || lia).
Qed.
End queue.

(** ** Scrolling of lists *)

Lemma scroll_list {A} (l : list A) a m e x i : (a + m ≤ e ≤ length l)%nat →
  (take a l ++ drop (a + m) (take e l) ++ replicate m x ++ drop e l) !! i =
    if decide (i < a)%nat then l !! i else if decide (i < e - m)%nat then l !! (i + m)%nat else if decide (i < e)%nat then Some x else l !! i.
Proof.
  intros Hl. case_decide; [rewrite lookup_app_l by (rewrite length_take; lia); by apply lookup_take_lt|].
  rewrite lookup_app_r, length_take by (rewrite length_take; lia). case_decide.
  { rewrite lookup_app_l by (rewrite length_drop, length_take; lia). rewrite lookup_drop, lookup_take_lt by lia. f_equal. lia. }
  rewrite lookup_app_r, length_drop, length_take by (rewrite length_drop, length_take; lia). case_decide.
  { rewrite lookup_app_l by (rewrite length_replicate; lia). apply lookup_replicate_2. lia. }
  rewrite lookup_app_r, length_replicate by (rewrite length_replicate; lia). rewrite lookup_drop. f_equal. lia.
Qed.
Lemma revscroll_list {A} (l : list A) a m e x i : (a + m ≤ e ≤ length l)%nat →
  (take a l ++ replicate m x ++ drop a (take (e - m) l) ++ drop e l) !! i =
    if decide (i < a)%nat then l !! i else if decide (i < a + m)%nat then Some x else if decide (i < e)%nat then l !! (i - m)%nat else l !! i.
Proof.
  intros Hl. case_decide; [rewrite lookup_app_l by (rewrite length_take; lia); by apply lookup_take_lt|].
  rewrite lookup_app_r, length_take by (rewrite length_take; lia). case_decide.
  { rewrite lookup_app_l by (rewrite length_replicate; lia). apply lookup_replicate_2. lia. }
  rewrite lookup_app_r, length_replicate by (rewrite length_replicate; lia). case_decide.
  { rewrite lookup_app_l by (rewrite length_drop, length_take; lia). rewrite lookup_drop, lookup_take_lt by lia. f_equal. lia. }
  rewrite lookup_app_r, length_drop, length_take by (rewrite length_drop, length_take; lia). rewrite lookup_drop. f_equal. lia.
Qed.

(** A list of cells as a function *)
Definition at_cell (l : list fb_char) (j : Z) : fb_char := default null_char (zlookup l j).
Lemma at_cell_nat l j : 0 ≤ j → at_cell l j = default null_char (l !! Z.to_nat j).
Proof. intros. unfold at_cell, zlookup. by destruct (Z.ltb_spec j 0); [lia|]. Qed.

Definition bytes (l : list fb_char) : Prop := Forall (λ c, fits 8 (fc_c c)) l.

Section scrolling.
Context (R C : Z) (ctx : context) (Hg : wf_geom R C (ctx_geom ctx)) (Hs : R * C < 2 ^ 62).
Context (a : screen) (Hlen : Z.of_nat (length (sc_cells a)) = R * C) (Hbytes : bytes (sc_cells a)).

Lemma row_start_add y : 0 ≤ y → row_start ctx (y + 1) = (row_start ctx y + Z.to_nat C)%nat.
Proof. intros Hy. unfold row_start. destruct (wg_cols _ _ _ Hg) as [-> ?]. nia. Qed.
Lemma margins_nat : (row_start ctx (scroll_top_margin (ctx_geom ctx)) + Z.to_nat C ≤ row_start ctx (scroll_bottom_margin (ctx_geom ctx)) ≤ length (sc_cells a))%nat.
Proof.
  destruct (wg_margins _ _ _ Hg) as [Hm Hb]. destruct (wg_cols _ _ _ Hg) as [E HC]. rewrite <-row_start_add by lia. unfold row_start. rewrite E. nia.
Qed.

Lemma sc_scroll_cells : Z.of_nat (length (sc_cells (sc_scroll ctx a))) = R * C ∧ bytes (sc_cells (sc_scroll ctx a)) ∧
  ∀ j, 0 ≤ j < R * C → at_cell (sc_cells (sc_scroll ctx a)) j =
    scrolled C (scroll_top_margin (ctx_geom ctx)) (scroll_bottom_margin (ctx_geom ctx)) (blank (sc_pen a) 0x20) (at_cell (sc_cells a)) j.
Proof.
  destruct (wg_margins _ _ _ Hg) as [Hm Hb]. pose proof margins_nat as Hmn. destruct (wg_cols _ _ _ Hg) as [E HC].
  unfold sc_scroll. cbn [sc_cells set_sc_cells]. rewrite row_start_add by lia. unfold blanks. rewrite E. splits.
  - rewrite !length_app, length_take, !length_drop, length_take, length_replicate. lia.
  - repeat apply Forall_app_2; [by apply Forall_take|by apply Forall_drop, Forall_take|by apply Forall_replicate|by apply Forall_drop].
  - intros j Hj. rewrite at_cell_nat by lia. rewrite scroll_list by done. unfold scrolled. unfold row_start in *. rewrite E in *.
    rewrite !at_cell_nat by lia. repeat case_decide; try lia; try done; f_equal; f_equal; lia.
Qed.
Lemma sc_revscroll_cells : Z.of_nat (length (sc_cells (sc_revscroll ctx a))) = R * C ∧ bytes (sc_cells (sc_revscroll ctx a)) ∧
  ∀ j, 0 ≤ j < R * C → at_cell (sc_cells (sc_revscroll ctx a)) j =
    revscrolled C (scroll_top_margin (ctx_geom ctx)) (scroll_bottom_margin (ctx_geom ctx)) (blank (sc_pen a) 0x20) (at_cell (sc_cells a)) j.
Proof.
  destruct (wg_margins _ _ _ Hg) as [Hm Hb]. pose proof margins_nat as Hmn. destruct (wg_cols _ _ _ Hg) as [E HC].
  unfold sc_revscroll. cbn [sc_cells set_sc_cells]. unfold blanks. rewrite E.
  replace (row_start ctx (scroll_bottom_margin (ctx_geom ctx) - 1)) with (row_start ctx (scroll_bottom_margin (ctx_geom ctx)) - Z.to_nat C)%nat
    by (unfold row_start; rewrite E; nia). splits.
  - rewrite !length_app, length_take, !length_drop, length_take, length_replicate. lia.
  - repeat apply Forall_app_2; [by apply Forall_take|by apply Forall_replicate|by apply Forall_drop, Forall_take|by apply Forall_drop].
  - intros j Hj. rewrite at_cell_nat by lia. rewrite revscroll_list by done. unfold revscrolled. unfold row_start in *. rewrite E in *.
    repeat case_decide; try lia; try done; rewrite at_cell_nat by lia; f_equal; f_equal; lia.
Qed.
End scrolling.
