(* ===== verification/FbRefine.v ===== *)
(** * The framebuffer implements the abstract screen

    [refines] relates a framebuffer to an abstract screen; every operation of
    fb.c keeps it, and returns what the abstract operation returns.  A flush
    draws what the abstract screen has. *)
From Stdlib Require Import ZArith Lia.
From stdpp Require Import base option gmap list.
From S2P Require Import Prelude Hoare Term TermProof Fb FbProof FbSpec.

(** The pixels of every cell but that of the last cursor are its character in the grid. *)
Record pictured (R C : Z) (s : fb) : Prop := {
  pt_conf : conf_ok R C (conf s);
  pt_covered : covered (conf s) (pixels s);
  pt_bytes : bytes (grid s);
  pt_sync : ∀ x y c, 0 ≤ x < C → 0 ≤ y < R → x ≠ old_cursor_x s ∨ y ≠ old_cursor_y s →
    zlookup (grid s) (cell C x y) = Some c → shows (conf s) (pixels s) x y c;
  pt_old : 0 ≤ old_cursor_x s ≤ C ∧ 0 ≤ old_cursor_y s < R }.

Definition pen_ok (R C : Z) (p : fb_pen) : Prop := 0 ≤ cursor_x p ≤ C ∧ 0 ≤ cursor_y p < R.

Record refines (R C : Z) (s : fb) (a : screen) : Prop := {
  rf_conf : sc_conf a = conf s;
  rf_pen : sc_pen a = pen s ∧ sc_saved a = saved_pen s;
  rf_pos : pen_ok R C (pen s) ∧ pen_ok R C (saved_pen s);
  rf_pict : pictured R C s;
  rf_queue : queue_ok R C s;
  rf_len : Z.of_nat (length (sc_cells a)) = R * C;
  rf_bytes : bytes (sc_cells a);
  rf_content : content R C s (at_cell (sc_cells a)) }.

(** The concrete operation returns what the abstract one returns. *)
Definition simulates {A} (R C : Z) (op : M fb A) (op' : M screen A) : Prop :=
  ∀ s a, refines R C s a → ∃ r s' a', op s = Ok (r, s') ∧ op' a = Ok (r, a') ∧ refines R C s' a'.

Lemma at_cell_insert l i c j : 0 ≤ i < Z.of_nat (length l) → at_cell (zinsert i c l) j = if decide (j = i) then c else at_cell l j.
Proof. intros Hi. unfold at_cell. rewrite zlookup_zinsert by done. repeat case_decide; (done || congruence). Qed.
Lemma bytes_insert i c l : fits 8 (fc_c c) → bytes l → bytes (zinsert i c l).
Proof. intros Hc Hl. unfold bytes, zinsert. destruct (i <? 0); [done|]. by apply Forall_insert. Qed.
Lemma bytes_lookup l j c : bytes l → zlookup l j = Some c → fits 8 (fc_c c).
Proof. unfold zlookup. destruct (j <? 0); [done|]. intros Hl Hj. by eapply Forall_lookup_1 in Hl. Qed.
Lemma at_cell_lookup l j : 0 ≤ j < Z.of_nat (length l) → zlookup l j = Some (at_cell l j).
Proof. intros Hj. unfold at_cell. by destruct (zlookup_lt l j Hj) as [c ->]. Qed.

Section refine.
Context (R C : Z).

Lemma same_pictured s s' : same_screen s s' → pictured R C s → pictured R C s'.
Proof. intros E []. rewrite E. by split. Qed.

(** A change of queue and map that the cells [l] describe *)
Lemma refines_moved s s' a f l : refines R C s a → moved R C s s' f → Z.of_nat (length l) = R * C → bytes l →
  (∀ j, 0 ≤ j < R * C → at_cell l j = f j) → refines R C s' (set_sc_cells l a).
Proof.
  intros [] (Hs & Hq & Hf) Hlen Hb Hl. split; try done; try (by rewrite Hs).
  - by eapply same_pictured.
  - eapply content_ext; [|exact Hf]. intros. symmetry. by apply Hl.
Qed.
(** A change of the pen *)
Lemma refines_pen s a p : refines R C s a → pen_ok R C p → refines R C (set_pen p s) (set_sc_pen p a).
Proof. intros [? [? ?] [? ?] [] [] ? ? ?] Hp. by split. Qed.

Lemma simulates_pen f g : (∀ s a, refines R C s a → g a = set_sc_pen (f (pen s)) a ∧ pen_ok R C (f (pen s))) →
  simulates R C (upd_pen f) (modify g).
Proof.
  intros Hg s a Hr. destruct (Hg s a Hr) as [E Hp]. exists tt. eexists _, _. split; [reflexivity|]. split; [reflexivity|].
  rewrite E. by apply refines_pen.
Qed.

Lemma push_refines ctx x y c s a : wf_geom R C (ctx_geom ctx) → fits 8 (fc_c c) → refines R C s a → 0 ≤ x → 0 ≤ y →
  ∃ s', push_to_queue ctx c x y s = Ok (tt, s') ∧ refines R C s' (sc_put ctx x y c a).
Proof.
  intros Hg Hc Hr Hx Hy. unfold sc_put. destruct (wg_rows _ _ _ Hg) as [ER _]. destruct (wg_cols _ _ _ Hg) as [EC _].
  destruct ((x >=? cols (ctx_geom ctx)) || (y >=? rows (ctx_geom ctx))) eqn:E.
  { exists s. split; [|done]. unfold push_to_queue. cbv zeta. by rewrite E. }
  apply orb_false_iff in E as [E1 E2]. rewrite Z.geb_leb, Z.leb_gt in E1, E2.
  destruct (push_moved R C ctx c c x y s _ Hg (rf_queue _ _ _ _ Hr) (rf_content _ _ _ _ Hr)) as (s' & E & Hm); [reflexivity|lia|lia|].
  exists s'. split; [done|]. pose proof (rf_len _ _ _ _ Hr) as Hlen. assert (Hcell : 0 ≤ cell C x y < R * C) by (apply cell_range; lia).
  rewrite EC. change (y * C + x) with (cell C x y). eapply refines_moved; [done|exact Hm|by rewrite length_zinsert|by apply bytes_insert, Hr|].
  intros j Hj. cbn beta. rewrite at_cell_insert by lia. done.
Qed.

Lemma scroll_refines ctx s a : wf_geom R C (ctx_geom ctx) → refines R C s a →
  ∃ s', flanterm_fb_scroll ctx s = Ok (tt, s') ∧ refines R C s' (sc_scroll ctx a) ∧ pen s' = pen s.
Proof.
  intros Hg Hr. destruct (scroll_moved R C ctx s _ Hg (rf_queue _ _ _ _ Hr) (rf_content _ _ _ _ Hr)) as (s' & E & Hm).
  exists s'. split; [done|]. split; [|destruct Hm as (-> & _); done].
  destruct (sc_scroll_cells R C ctx Hg (proj2 (proj2 (qk_dims _ _ _ (rf_queue _ _ _ _ Hr)))) a (rf_len _ _ _ _ Hr) (rf_bytes _ _ _ _ Hr)) as (Hl & Hb & Hj).
  refine (refines_moved s s' a _ _ Hr Hm Hl Hb _). intros j Hj'. rewrite Hj by done. by rewrite (proj1 (rf_pen _ _ _ _ Hr)).
Qed.
Lemma revscroll_refines ctx s a : wf_geom R C (ctx_geom ctx) → refines R C s a →
  ∃ s', flanterm_fb_revscroll ctx s = Ok (tt, s') ∧ refines R C s' (sc_revscroll ctx a).
Proof.
  intros Hg Hr. destruct (revscroll_moved R C ctx s _ Hg (rf_queue _ _ _ _ Hr) (rf_content _ _ _ _ Hr)) as (s' & E & Hm).
  exists s'. split; [done|]. destruct (sc_revscroll_cells R C ctx Hg (proj2 (proj2 (qk_dims _ _ _ (rf_queue _ _ _ _ Hr)))) a (rf_len _ _ _ _ Hr) (rf_bytes _ _ _ _ Hr)) as (Hl & Hb & Hj).
  refine (refines_moved s s' a _ _ Hr Hm Hl Hb _). intros j Hj'. rewrite Hj by done. by rewrite (proj1 (rf_pen _ _ _ _ Hr)).
Qed.

(** ** The cursor *)

Lemma clamp_ok v n : 0 ≤ v → 0 < n < 2 ^ 32 → 0 ≤ clamp_pos v n < n.
Proof.
  intros Hv Hn. unfold clamp_pos. destruct (Z.geb_spec v n); [|lia]. destruct (_ >? _); [lia|]. rewrite u64_small by lia. lia.
Qed.
Lemma set_cursor_simulates ctx x y : wf_geom R C (ctx_geom ctx) → fits 64 x → fits 64 y →
  simulates R C (flanterm_fb_set_cursor_pos ctx x y) (modify (sc_set_cursor ctx x y)).
Proof.
  intros Hg [Hx _] [Hy _] s a Hr. destruct (wg_rows _ _ _ Hg) as [ER HR]. destruct (wg_cols _ _ _ Hg) as [EC HC].
  exists tt. eexists _, _. split; [reflexivity|]. split; [reflexivity|]. unfold sc_set_cursor. rewrite (proj1 (rf_pen _ _ _ _ Hr)).
  apply (refines_pen s a (put_cursor_y (clamp_pos y (rows (ctx_geom ctx))) (put_cursor_x (clamp_pos x (cols (ctx_geom ctx))) (pen s)))); [done|].
  rewrite ER, EC. pose proof (clamp_ok x C Hx HC). pose proof (clamp_ok y R Hy HR). split; cbn; lia.
Qed.
Lemma get_cursor_simulates ctx : wf_geom R C (ctx_geom ctx) →
  simulates R C (flanterm_fb_get_cursor_pos ctx) (gets (sc_cursor ctx)).
Proof.
  intros Hg s a Hr. destruct (wg_rows _ _ _ Hg) as [ER HR]. destruct (wg_cols _ _ _ Hg) as [EC HC].
  eexists (_, _), _, _. split; [reflexivity|]. split; [|exact Hr]. unfold gets, sc_cursor. rewrite (proj1 (rf_pen _ _ _ _ Hr)), ER, EC.
  destruct (rf_pos _ _ _ _ Hr) as [[Hpx Hpy] _]. do 3 f_equal.
  - destruct (Z.geb_spec (cursor_x (pen s)) C); [rewrite u64_small by lia|]; lia.
  - destruct (Z.geb_spec (cursor_y (pen s)) R); lia.
Qed.

Lemma wrap_refines ctx s a : wf_geom R C (ctx_geom ctx) → refines R C s a →
  ∃ s', wrap_cursor ctx s = Ok (tt, s') ∧ refines R C s' (sc_wrap ctx a) ∧ cursor_x (pen s') < C.
Proof.
  intros Hg Hr. destruct (wg_rows _ _ _ Hg) as [ER HR]. destruct (wg_cols _ _ _ Hg) as [EC HC]. destruct (wg_margins _ _ _ Hg) as [Hm Hb].
  destruct (rf_pos _ _ _ _ Hr) as [[Hpx Hpy] _]. unfold wrap_cursor, sc_wrap. cbv zeta. mstep. rewrite (proj1 (rf_pen _ _ _ _ Hr)), EC, ER.
  rewrite (u64_small (_ - 1)) by lia. destruct (wrap_enabled _ && _).
  - mstep. mstep. mstep. cbn [cursor_y pen set_pen put_cursor_y put_cursor_x]. rewrite (u64_small (cursor_y (pen s) + 1)) by lia.
    destruct (Z.eqb_spec (cursor_y (pen s) + 1) (scroll_bottom_margin (ctx_geom ctx))) as [Ebot|Hne]; cbn [when].
    + set (p := put_cursor_x 0 (pen s)). 
      assert (Hr1 : refines R C (set_pen p s) (set_sc_pen p a)) by (apply refines_pen; [done|split; cbn; lia]).
      destruct (scroll_refines ctx _ _ Hg Hr1) as (s1 & E1 & H1 & Ep).
      match goal with |- context [upd_pen ?f ;; flanterm_fb_scroll ctx] => set (back := f) end.
      set (s0 := set_pen _ (set_pen _ s)). assert (Eb : upd_pen back s0 = Ok (tt, set_pen p s)).
      { unfold upd_pen, modify, back, s0, p. do 2 f_equal. cbn. unfold put_cursor_y, put_cursor_x. cbn.
        rewrite (u64_small (_ + 1 - 1)) by lia. by replace (cursor_y (pen s) + 1 - 1) with (cursor_y (pen s)) by lia. }
      rewrite (bind_ok _ _ s0 tt s1); [|by rewrite (bind_ok _ _ _ _ _ Eb)]. mstep. rewrite Ep. cbn [cursor_y pen set_pen].
      destruct (Z.geb_spec (cursor_y p) R); [change (cursor_y p) with (cursor_y (pen s)) in *; lia|]. exists s1. split; [done|]. split; [exact H1|].
      rewrite Ep. cbn. lia.
    + rewrite (bind_ok (mret tt) _ _ tt _ (ret_eq _ _)). mstep. cbn [cursor_y pen set_pen put_cursor_y put_cursor_x].
      destruct (Z.geb_spec (cursor_y (pen s) + 1) R); cbn [when].
      * eexists. split; [reflexivity|]. rewrite u64_small by lia. split; [|cbn; lia].
        replace (Z.min (cursor_y (pen s) + 1) (R - 1)) with (R - 1) by lia.
        apply (refines_pen s a (put_cursor_y (R - 1) (put_cursor_x 0 (pen s)))); [done|]. split; cbn; lia.
      * eexists. split; [reflexivity|]. split; [|cbn; lia]. replace (Z.min (cursor_y (pen s) + 1) (R - 1)) with (cursor_y (pen s) + 1) by lia.
        apply (refines_pen s a (put_cursor_y (cursor_y (pen s) + 1) (put_cursor_x 0 (pen s)))); [done|]. split; cbn; lia.
  - eexists. split; [reflexivity|]. rewrite u64_small by lia. split; [|cbn; lia].
    apply (refines_pen s a (put_cursor_x (C - 1) (pen s))); [done|]. split; cbn; lia.
Qed.

Lemma print_simulates ctx c : wf_geom R C (ctx_geom ctx) → fits 8 c → simulates R C (flanterm_fb_raw_putchar ctx c) (modify (sc_print ctx c)).
Proof.
  intros Hg Hc s a Hr. destruct (wg_rows _ _ _ Hg) as [ER HR]. destruct (wg_cols _ _ _ Hg) as [EC HC].
  assert (Hw : ∃ s1 a1, when (cursor_x (pen s) >=? cols (ctx_geom ctx)) (wrap_cursor ctx) s = Ok (tt, s1) ∧
    a1 = (if cursor_x (sc_pen a) >=? cols (ctx_geom ctx) then sc_wrap ctx a else a) ∧ refines R C s1 a1 ∧ cursor_x (pen s1) < C).
  { rewrite (proj1 (rf_pen _ _ _ _ Hr)). destruct (Z.geb_spec (cursor_x (pen s)) (cols (ctx_geom ctx))); cbn [when].
    - destruct (wrap_refines ctx s a Hg Hr) as (s1 & E & H1 & Hlt). by exists s1, (sc_wrap ctx a).
    - exists s, a. split; [done|]. split; [done|]. split; [done|lia]. }
  destruct Hw as (s1 & a1 & E1 & Ea & H1 & Hlt). destruct (rf_pos _ _ _ _ H1) as [[Hpx Hpy] _].
  unfold flanterm_fb_raw_putchar. unfold simulates. unfold modify at 1. unfold sc_print. cbv zeta. rewrite <-Ea. rewrite (proj1 (rf_pen _ _ _ _ H1)).
  set (p := put_cursor_x (cursor_x (pen s1) + 1) (pen s1)).
  assert (H2 : refines R C (set_pen p s1) (set_sc_pen p a1)) by (apply refines_pen; [done|split; cbn; lia]).
  destruct (push_refines ctx (cursor_x (pen s1)) (cursor_y (pen s1)) (blank (pen s1) c) _ _ Hg Hc H2) as (s2 & E2 & H3); [lia|lia|].
  exists tt, s2. eexists. split; [|split; [reflexivity|exact H3]].
  mstep. rewrite (bind_ok _ _ _ _ _ E1). mstep. rewrite (bind_ok (upd_pen _) _ s1 tt (set_pen p s1)); [exact E2|].
  unfold upd_pen, modify, p. by rewrite u64_small by lia.
Qed.
(** ** Clearing, moving, colours *)

Lemma clear_simulates ctx move : wf_geom R C (ctx_geom ctx) → simulates R C (flanterm_fb_clear ctx move) (modify (sc_clear ctx move)).
Proof.
  intros Hg s a Hr. destruct (wg_rows _ _ _ Hg) as [ER HR]. destruct (wg_cols _ _ _ Hg) as [EC HC].
  pose proof (rf_queue _ _ _ _ Hr) as Hq. destruct (qk_dims _ _ _ Hq) as (_ & _ & Hs).
  unfold flanterm_fb_clear, modify, sc_clear. cbv zeta. rewrite EC, ER, (u64_small (R * C)) by nia.
  set (b := blank (pen s) 0x20). 
  destruct (moved_loop R C (λ i, if C =? 0 then fault else push_to_queue ctx b (i `mod` C) (i / C))
    (λ i j, if decide (j < i) then b else at_cell (sc_cells a) j) (Z.to_nat (R * C)) 0 s) as (s1 & E1 & Hm).
  { intros i s1 Hi Hq1 Hf1. destruct (Z.eqb_spec C 0); [lia|]. destruct (cell_of R C i ltac:(lia) ltac:(lia)) as (Ecell & Hx & Hy).
    destruct (push_moved R C ctx b b (i `mod` C) (i / C) s1 _ Hg Hq1 Hf1) as (s2 & E2 & H2); [reflexivity|done|done|]. exists s2. split; [done|].
    eapply moved_ext; [|exact H2]. intros j Hj. cbn beta. rewrite Ecell. repeat case_decide; (done || lia). }
  { done. } { eapply content_ext; [|apply Hr]. intros j Hj. cbn beta. by rewrite decide_False by lia. }
  assert (Hr1 : refines R C s1 (set_sc_cells (replicate (Z.to_nat (R * C)) (blank (sc_pen a) 0x20)) a)).
  { rewrite (proj1 (rf_pen _ _ _ _ Hr)). fold b. eapply refines_moved; [done|exact Hm|rewrite length_replicate; nia|by apply Forall_replicate|].
    intros j Hj. cbn beta. rewrite decide_True by lia. rewrite at_cell_nat by lia. by rewrite lookup_replicate_2 by lia. }
  mstep. rewrite (bind_ok _ _ s tt s1 E1). exists tt. destruct move; cbn [when].
  - eexists _, _. split; [reflexivity|]. split; [reflexivity|]. rewrite (proj1 (rf_pen _ _ _ _ Hr1)).
    apply (refines_pen s1 _ (put_cursor_y 0 (put_cursor_x 0 (pen s1))) Hr1). split; cbn; lia.
  - eexists _, _. split; [reflexivity|]. split; [reflexivity|exact Hr1].
Qed.

Lemma move_simulates ctx nx ny ox oy : wf_geom R C (ctx_geom ctx) → fits 64 nx → fits 64 ny → fits 64 ox → fits 64 oy →
  simulates R C (flanterm_fb_move_character ctx nx ny ox oy) (modify (sc_move ctx nx ny ox oy)).
Proof.
  intros Hg [Hnx _] [Hny _] [Hox _] [Hoy _] s a Hr. destruct (wg_rows _ _ _ Hg) as [ER HR]. destruct (wg_cols _ _ _ Hg) as [EC HC].
  pose proof (rf_queue _ _ _ _ Hr) as Hq. destruct (qk_dims _ _ _ Hq) as (_ & _ & Hs). exists tt.
  unfold flanterm_fb_move_character, modify, sc_move. cbv zeta. rewrite EC, ER.
  destruct (_ || (ny >=? R)) eqn:E; [by exists s, a|]. repeat (apply orb_false_iff in E as [E ?]).
  repeat match goal with H : (_ >=? _) = false |- _ => rewrite Z.geb_leb, Z.leb_gt in H end.
  assert (Hcell : 0 ≤ cell C ox oy < R * C) by (apply cell_range; lia).
  rewrite (u64_small (oy * C)) by nia. rewrite u64_small by (unfold cell in Hcell; lia). replace (ox + oy * C) with (cell C ox oy) by (unfold cell; lia).
  destruct (rf_content _ _ _ _ Hr (cell C ox oy) Hcell) as (c & Hc & Hcf). rewrite (bind_ok _ _ _ _ _ (cell_char_ok s _ c Hc)).
  change (oy * C + ox) with (cell C ox oy). rewrite (at_cell_lookup (sc_cells a)) by (by rewrite (rf_len _ _ _ _ Hr)).
  set (g := at_cell (sc_cells a) (cell C ox oy)) in *.
  destruct (push_moved R C ctx c g nx ny s _ Hg Hq (rf_content _ _ _ _ Hr) Hcf) as (s1 & E1 & Hm); [lia|lia|].
  exists s1. eexists. split; [exact E1|]. split; [reflexivity|]. unfold sc_put. rewrite EC, ER.
  destruct (Z.geb_spec nx C); [lia|]. destruct (Z.geb_spec ny R); [lia|]. cbn [orb]. change (ny * C + nx) with (cell C nx ny).
  assert (Hcell' : 0 ≤ cell C nx ny < R * C) by (apply cell_range; lia). pose proof (rf_len _ _ _ _ Hr) as Hlen.
  eapply refines_moved; [done|exact Hm|by rewrite length_zinsert| |].
  - apply bytes_insert; [|apply (rf_bytes _ _ _ _ Hr)]. apply (bytes_lookup _ (cell C ox oy) _ (rf_bytes _ _ _ _ Hr)). apply at_cell_lookup. by rewrite Hlen.
  - intros j Hj. cbn beta. by rewrite at_cell_insert by lia.
Qed.

Lemma convert_ok {S} k v (s : S) : red_mask_size k ≤ 16 ∧ green_mask_size k ≤ 16 ∧ blue_mask_size k ≤ 16 →
  ∃ r, convert_colour k v s = Ok (r, s) ∧ convert_colour k v tt = Ok (r, tt).
Proof.
  intros (Hr & Hg & Hb).
  assert (Hw : ∀ {T} (t : T) v size shift, size ≤ 16 → widen v size shift t = Ok (if size >? 8 then
    u32 (Z.shiftl (Z.shiftr v (16 - size)) (shift - size + 8)) else 0, t)).
  { intros T t v' size shift Hs. unfold widen. destruct (size >? 8); [|done]. by destruct (Z.gtb_spec size 16); [lia|]. }
  unfold convert_colour. cbv zeta. eexists. split; rewrite (bind_ok _ _ _ _ _ (Hw _ _ _ _ _ Hr)), (bind_ok _ _ _ _ _ (Hw _ _ _ _ _ Hg)),
    (bind_ok _ _ _ _ _ (Hw _ _ _ _ _ Hb)); reflexivity.
Qed.


(** A change of the text colour to a value that both sides compute *)
Lemma colour_simulates (op : M fb Z) (v : fb_conf → option Z) (set : Z → fb_pen → fb_pen) (set' : option Z → screen → screen) (flag : fb_pen → fb_pen) :
  (∀ s, conf_ok R C (conf s) → ∃ r, op s = Ok (r, s) ∧ v (conf s) = Some r) →
  (∀ r a, set' (Some r) a = set_sc_pen (flag (set r (sc_pen a))) a) →
  (∀ r p, pen_ok R C p → pen_ok R C (flag (set r p))) →
  simulates R C (r ← op; upd_pen (set r);; upd_pen flag) (modify (λ a, set' (v (sc_conf a)) a)).
Proof.
  intros Hop Hset Hpen s a Hr. destruct (Hop s (pt_conf _ _ _ (rf_pict _ _ _ _ Hr))) as (r & E & Ev).
  exists tt. eexists _, _. split; [rewrite (bind_ok _ _ _ _ _ E); reflexivity|]. split; [reflexivity|].
  rewrite (rf_conf _ _ _ _ Hr), Ev, Hset, (proj1 (rf_pen _ _ _ _ Hr)).
  apply (refines_pen s a (flag (set r (pen s))) Hr). apply Hpen, Hr.
Qed.

Lemma palette_ok (l : fb_conf → list Z) v s : length (l (conf s)) = 8%nat → 0 ≤ v < 8 →
  ∃ r, (k ← the_conf; at_index (l k) v) s = Ok (r, s) ∧ zlookup (l (conf s)) v = Some r.
Proof.
  intros Hl Hv. destruct (zlookup_lt (l (conf s)) v) as [r Er]; [lia|]. exists r. split; [|done]. unfold the_conf. mstep. by apply at_index_ok.
Qed.
Lemma rgb_ok v s : conf_ok R C (conf s) →
  ∃ r, (k ← the_conf; convert_colour (colour_masks k) v) s = Ok (r, s) ∧ converted (conf s) v = Some r.
Proof.
  intros Hk. destruct (convert_ok (colour_masks (conf s)) v s (ck_masks _ _ _ Hk)) as (r & E & E'). exists r. split.
  - unfold the_conf. mstep. exact E.
  - unfold converted. by rewrite E'.
Qed.
Lemma fg_simulates (op : M fb Z) v : (∀ s, conf_ok R C (conf s) → ∃ r, op s = Ok (r, s) ∧ v (conf s) = Some r) →
  simulates R C (r ← op; upd_pen (put_text_fg r);; upd_pen (put_text_fg_default false)) (modify (λ a, sc_fg (v (sc_conf a)) a)).
Proof. intros Hop. by apply (colour_simulates op v put_text_fg sc_fg). Qed.
Lemma bg_simulates (op : M fb Z) v : (∀ s, conf_ok R C (conf s) → ∃ r, op s = Ok (r, s) ∧ v (conf s) = Some r) →
  simulates R C (r ← op; upd_pen (put_text_bg r);; upd_pen (put_text_bg_default false)) (modify (λ a, sc_bg (v (sc_conf a)) a)).
Proof. intros Hop. by apply (colour_simulates op v put_text_bg sc_bg). Qed.

Lemma simulates_ext {A} (op op2 : M fb A) op' : (∀ s, op s = op2 s) → simulates R C op2 op' → simulates R C op op'.
Proof. intros E H s a Hr. rewrite E. by apply H. Qed.
Lemma fixed_ok (l : fb_conf → Z) s : ∃ r, (k ← the_conf; mret (l k)) s = Ok (r, s) ∧ Some (l (conf s)) = Some r.
Proof. by eexists. Qed.

Lemma text_fg_simulates v : 0 ≤ v < 8 → simulates R C (flanterm_fb_set_text_fg v) (modify (λ a, sc_fg (zlookup (ansi_colours (sc_conf a)) v) a)).
Proof. intros Hv. apply (fg_simulates _ (λ k, zlookup (ansi_colours k) v)). intros s Hk. apply palette_ok; [apply Hk|done]. Qed.
Lemma text_bg_simulates v : 0 ≤ v < 8 → simulates R C (flanterm_fb_set_text_bg v) (modify (λ a, sc_bg (zlookup (ansi_colours (sc_conf a)) v) a)).
Proof. intros Hv. apply (bg_simulates _ (λ k, zlookup (ansi_colours k) v)). intros s Hk. apply palette_ok; [apply Hk|done]. Qed.
Lemma text_fg_bright_simulates v : 0 ≤ v < 8 →
  simulates R C (flanterm_fb_set_text_fg_bright v) (modify (λ a, sc_fg (zlookup (ansi_bright_colours (sc_conf a)) v) a)).
Proof. intros Hv. apply (fg_simulates _ (λ k, zlookup (ansi_bright_colours k) v)). intros s Hk. apply palette_ok; [apply Hk|done]. Qed.
Lemma text_bg_bright_simulates v : 0 ≤ v < 8 →
  simulates R C (flanterm_fb_set_text_bg_bright v) (modify (λ a, sc_bg (zlookup (ansi_bright_colours (sc_conf a)) v) a)).
Proof. intros Hv. apply (bg_simulates _ (λ k, zlookup (ansi_bright_colours k) v)). intros s Hk. apply palette_ok; [apply Hk|done]. Qed.
Lemma text_fg_rgb_simulates v : simulates R C (flanterm_fb_set_text_fg_rgb v) (modify (λ a, sc_fg (converted (sc_conf a) v) a)).
Proof. apply (fg_simulates _ (λ k, converted k v)). intros s Hk. by apply rgb_ok. Qed.
Lemma text_bg_rgb_simulates v : simulates R C (flanterm_fb_set_text_bg_rgb v) (modify (λ a, sc_bg (converted (sc_conf a) v) a)).
Proof. apply (bg_simulates _ (λ k, converted k v)). intros s Hk. by apply rgb_ok. Qed.
Lemma text_fg_default_simulates : simulates R C flanterm_fb_set_text_fg_default (modify (λ a, sc_fg (Some (default_fg (sc_conf a))) a)).
Proof. eapply simulates_ext; [|apply (fg_simulates (k ← the_conf; mret (default_fg k)) (λ k, Some (default_fg k)))]; [by intros []|]. intros s _. apply fixed_ok. Qed.
Lemma text_fg_default_bright_simulates :
  simulates R C flanterm_fb_set_text_fg_default_bright (modify (λ a, sc_fg (Some (default_fg_bright (sc_conf a))) a)).
Proof. eapply simulates_ext; [|apply (fg_simulates (k ← the_conf; mret (default_fg_bright k)) (λ k, Some (default_fg_bright k)))]; [by intros []|]. intros s _. apply fixed_ok. Qed.
Lemma text_bg_default_bright_simulates :
  simulates R C flanterm_fb_set_text_bg_default_bright (modify (λ a, sc_bg (Some (default_bg_bright (sc_conf a))) a)).
Proof. eapply simulates_ext; [|apply (bg_simulates (k ← the_conf; mret (default_bg_bright k)) (λ k, Some (default_bg_bright k)))]; [by intros []|]. intros s _. apply fixed_ok. Qed.
Lemma text_bg_default_simulates : simulates R C flanterm_fb_set_text_bg_default (modify (λ a, set_sc_pen (put_text_bg_default true (sc_pen a)) a)).
Proof. apply simulates_pen. intros s a Hr. rewrite (proj1 (rf_pen _ _ _ _ Hr)). split; [done|apply Hr]. Qed.

(** ** The palette and the saved state *)

Lemma swap_simulates : simulates R C flanterm_fb_swap_palette (modify sc_swap).
Proof. apply simulates_pen. intros s a Hr. unfold sc_swap. rewrite (proj1 (rf_pen _ _ _ _ Hr)). split; [done|apply Hr]. Qed.
Lemma save_simulates : simulates R C flanterm_fb_save_state (modify (λ a, mkScreen (sc_conf a) (sc_pen a) (sc_pen a) (sc_cells a))).
Proof.
  intros s a Hr. exists tt. eexists _, _. split; [reflexivity|]. split; [reflexivity|]. destruct Hr as [? [? ?] [? ?] [] [] ? ? ?]. by split.
Qed.
Lemma restore_simulates : simulates R C flanterm_fb_restore_state (modify (λ a, set_sc_pen (sc_saved a) a)).
Proof.
  intros s a Hr. exists tt. eexists _, _. split; [reflexivity|]. split; [reflexivity|]. rewrite (proj2 (rf_pen _ _ _ _ Hr)).
  by apply refines_pen, Hr.
Qed.
End refine.

(** ** Flushing

    A flush draws the items of the queue: afterwards the queue is empty, and the
    pixels of every cell are the character that the abstract screen has there,
    inverted at the cursor if it is enabled ([flush_displays]).  The proof follows
    the flush item by item: [flushing]. *)

Section flush.
Context (R C : Z) (ctx : context) (Hg : wf_geom R C (ctx_geom ctx)).
Context (s : fb) (a : screen) (Hr : refines R C s a).

Definition at_cursor (x y : Z) : Prop := x = cursor_x (pen s) ∧ y = cursor_y (pen s).
#[local] Instance at_cursor_dec x y : Decision (at_cursor x y).
Proof. unfold at_cursor. apply _. Defined.

(** Items before [n] have been drawn; [cur] tells whether the cursor has been. *)
Record flushing (cur : bool) (n : Z) (s1 : fb) : Prop := {
  fl_same : s1 = mkFb (conf s) (pen s) (saved_pen s) (grid s1) (queue s) (queue_i s) (queue_map s1) (old_cursor_x s) (old_cursor_y s)
                   (pixels s1) (flush_callback s) (flushes s) (bump s) (freed s);
  fl_len : length (grid s1) = length (grid s) ∧ length (queue_map s1) = length (queue_map s);
  fl_bytes : bytes (grid s1);
  fl_covered : covered (conf s) (pixels s1);
  fl_map : ∀ i m, zlookup (queue_map s1) i = Some (Some m) → zlookup (queue_map s) i = Some (Some m) ∧ n ≤ m;
  fl_logical : ∀ i, 0 ≤ i < R * C → logical s1 i = logical s i;
  fl_cursor : ∀ x y c, cur = true → at_cursor x y → 0 ≤ x < C → zlookup (grid s1) (cell C x y) = Some c →
    shows (conf s) (pixels s1) x y (invert c) ∧ zlookup (queue_map s1) (cell C x y) = Some None;
  fl_sync : ∀ x y c, 0 ≤ x < C → 0 ≤ y < R → cur = false ∨ ¬ at_cursor x y → x ≠ old_cursor_x s ∨ y ≠ old_cursor_y s →
    zlookup (grid s1) (cell C x y) = Some c → shows (conf s) (pixels s1) x y c }.

Definition settled (i : Z) (c : fb_char) (ps : gmap Z Z) (s1 : fb) : fb :=
  set_queue_map (zinsert i None (queue_map s1)) (set_grid (zinsert i c (grid s1)) (set_pixels ps s1)).

Lemma logical_settled i c ps s1 j : zlookup (queue_map s1) i ≠ None → 0 ≤ i < Z.of_nat (length (grid s1)) → logical s1 i = Some c →
  logical (settled i c ps s1) j = logical s1 j.
Proof.
  intros Hi Hlen Hc. unfold logical in *. cbn. rewrite !zlookup_zinsert; [|done|].
  - case_decide as Hij; [subst j|done]. by rewrite Hc.
  - destruct (zlookup (queue_map s1) i) eqn:E; [|done]. by eapply zlookup_Some_bounds.
Qed.

(** A cell whose character has been drawn *)
Lemma settle cur cur' n n' x y c d ps s1 : flushing cur n s1 → 0 ≤ x < C → 0 ≤ y < R → logical s1 (cell C x y) = Some c →
  covered (conf s) ps → shows (conf s) ps x y d →
  (∀ x' y' c', 0 ≤ x' < C → 0 ≤ y' < R → x' ≠ x ∨ y' ≠ y → shows (conf s) (pixels s1) x' y' c' → shows (conf s) ps x' y' c') →
  d = (if decide (cur' = true ∧ at_cursor x y) then invert c else c) → cur' = cur ∨ cur = false ∧ at_cursor x y →
  (∀ i m, zlookup (queue_map s1) i = Some (Some m) → i ≠ cell C x y → n' ≤ m) →
  flushing cur' n' (settled (cell C x y) c ps s1).
Proof.
  intros Hf Hx Hy Hc Hcov Hd Hother Ed Hcur Hn. pose proof (rf_queue _ _ _ _ Hr) as Hq. destruct (fl_len _ _ _ Hf) as [Hlg Hlm].
  pose proof (cell_range R C x y Hx Hy) as Hi.
  assert (Hig : 0 ≤ cell C x y < Z.of_nat (length (grid s1))) by (rewrite Hlg, (qk_grid _ _ _ Hq); done).
  assert (Him : 0 ≤ cell C x y < Z.of_nat (length (queue_map s1))) by (rewrite Hlm, (qk_map _ _ _ Hq); done).
  assert (Hcb : fits 8 (fc_c c)).
  { rewrite (fl_logical _ _ _ Hf _ Hi) in Hc. destruct (rf_content _ _ _ _ Hr _ Hi) as (c1 & Hc1 & E). assert (c1 = c) as -> by congruence.
    rewrite (proj1 (proj1 (char_eq_iff _ _) E)). eapply bytes_lookup; [apply (rf_bytes _ _ _ _ Hr)|]. apply at_cell_lookup. by rewrite (rf_len _ _ _ _ Hr). }
  assert (Hgr : ∀ j, zlookup (grid (settled (cell C x y) c ps s1)) j = if decide (cell C x y = j) then Some c else zlookup (grid s1) j).
  { intros j. by apply zlookup_zinsert. }
  assert (Hmp : ∀ j, zlookup (queue_map (settled (cell C x y) c ps s1)) j = if decide (cell C x y = j) then Some None else zlookup (queue_map s1) j).
  { intros j. by apply zlookup_zinsert. }
  destruct (rf_pos _ _ _ _ Hr) as [[Hpx Hpy] _].
  split.
  - rewrite (fl_same _ _ _ Hf). done.
  - cbn. by rewrite !length_zinsert.
  - cbn. by apply bytes_insert, Hf.
  - exact Hcov.
  - intros i m. rewrite Hmp. destruct (decide (cell C x y = i)) as [E|E]; intros Hm; [discriminate Hm|]. split; [apply (fl_map _ _ _ Hf i m Hm)|]. apply (Hn i m Hm). by intros ->.
  - intros i Hi'. rewrite logical_settled; [by eapply fl_logical| |done|done]. by destruct (zlookup_lt _ _ Him) as [? ->].
  - intros x' y' c' Ecur Hat Hx' Hc'. rewrite Hgr in Hc'. rewrite Hmp. assert (Hy' : 0 ≤ y' < R) by (destruct Hat; lia). case_decide as E.
    + apply cell_inj in E as [<- <-]; [|done|done]. injection Hc' as <-. split; [|done]. by rewrite decide_True in Ed by done; subst d.
    + assert (Hne : x' ≠ x ∨ y' ≠ y) by (destruct (decide (x' = x)) as [->|]; [right; by intros ->|by left]).
      destruct Hcur as [->|[_ Hat']]; [|unfold at_cursor in *; lia].
      destruct (fl_cursor _ _ _ Hf x' y' c' Ecur Hat Hx' Hc') as [Hs Hm]. split; [by apply Hother|done].
  - intros x' y' c' Hx' Hy' Hno Hold Hc'. rewrite Hgr in Hc'. destruct (decide (cell C x y = cell C x' y')) as [E|E].
    + apply cell_inj in E as [<- <-]; [|done|done]. injection Hc' as <-. rewrite decide_False in Ed by (destruct Hno; naive_solver). by subst d.
    + assert (Hne : x' ≠ x ∨ y' ≠ y) by (destruct (decide (x' = x)) as [->|]; [right; by intros ->|by left]).
      apply Hother; [done..|]. apply (fl_sync _ _ _ Hf); [done|done| |done|done]. destruct Hcur as [->|[-> _]]; [done|by left]. 
Qed.

Lemma flushing_char cur n s1 i : flushing cur n s1 → 0 ≤ i < R * C → ∃ c, logical s1 i = Some c ∧ fits 8 (fc_c c) ∧ char_eq c (at_cell (sc_cells a) i).
Proof.
  intros Hf Hi. destruct (rf_content _ _ _ _ Hr i Hi) as (c & Hc & E). exists c. rewrite (fl_logical _ _ _ Hf i Hi). split; [done|]. split; [|done].
  rewrite (proj1 (proj1 (char_eq_iff _ _) E)). eapply bytes_lookup; [apply (rf_bytes _ _ _ _ Hr)|]. apply at_cell_lookup. by rewrite (rf_len _ _ _ _ Hr).
Qed.

Lemma flushing_start : flushing false 0 s.
Proof.
  pose proof (rf_pict _ _ _ _ Hr) as Hp. split; try done; try apply Hp.
  - by destruct s.
  - intros i m Hm. split; [done|]. destruct (qk_entries _ _ _ (rf_queue _ _ _ _ Hr) i m Hm); lia.
  - intros x y c Hx Hy _ Hold. by apply (pt_sync _ _ _ Hp).
Qed.

Lemma flushing_plot cur n s1 c x y : flushing cur n s1 → fits 8 (fc_c c) → 0 ≤ x < C → 0 ≤ y < R →
  ∃ ps, plot_at ctx c x y s1 = Ok (tt, set_pixels ps s1) ∧ covered (conf s) ps ∧ shows (conf s) ps x y c ∧
    ∀ x' y' c', 0 ≤ x' < C → 0 ≤ y' < R → x' ≠ x ∨ y' ≠ y → shows (conf s) (pixels s1) x' y' c' → shows (conf s) ps x' y' c'.
Proof.
  intros Hf Hc Hx Hy. apply (plot_at_ok R C); try done; [apply (rf_pict _ _ _ _ Hr)| |apply Hf]. by rewrite (fl_same _ _ _ Hf).
Qed.

Lemma flushing_map cur n s1 i : flushing cur n s1 → 0 ≤ i < R * C → ∃ o, zlookup (queue_map s1) i = Some o.
Proof.
  intros Hf Hi. apply zlookup_lt. rewrite (proj2 (fl_len _ _ _ Hf)), (qk_map _ _ _ (rf_queue _ _ _ _ Hr)). done.
Qed.
Lemma flushing_grid cur n s1 i : flushing cur n s1 → 0 ≤ i < R * C → ∃ c, zlookup (grid s1) i = Some c ∧ fits 8 (fc_c c).
Proof.
  intros Hf Hi. destruct (zlookup_lt (grid s1) i) as [c Hc].
  - rewrite (proj1 (fl_len _ _ _ Hf)), (qk_grid _ _ _ (rf_queue _ _ _ _ Hr)). done.
  - exists c. split; [done|]. eapply bytes_lookup; [apply Hf|done].
Qed.

(** ** The steps *)

Lemma draw_cursor_flushing : ∃ cur s1, when (cursor_enabled (ctx_modes ctx)) (draw_cursor ctx) s = Ok (tt, s1) ∧ flushing cur 0 s1 ∧
  (cur = true ↔ cursor_enabled (ctx_modes ctx) = true ∧ cursor_x (pen s) < C).
Proof.
  pose proof flushing_start as H0. destruct (cursor_enabled (ctx_modes ctx)); cbn [when]; [|exists false, s; split; [done|]; split; [done|]; split; [done|by intros [? _]]].
  destruct (rf_pos _ _ _ _ Hr) as [[Hpx Hpy] _]. destruct (qk_dims _ _ _ (rf_queue _ _ _ _ Hr)) as (_ & _ & Hs).
  unfold draw_cursor. cbv zeta. mstep. destruct (wg_cols _ _ _ Hg) as [-> HC]. destruct (wg_rows _ _ _ Hg) as [-> HR].
  destruct (Z.geb_spec (cursor_x (pen s)) C).
  { cbn [orb]. exists false, s. split; [done|]. split; [done|]. split; [done|intros [_ ?]; lia]. }
  destruct (Z.geb_spec (cursor_y (pen s)) R); [lia|]. cbn [orb].
  set (px := cursor_x (pen s)) in *. set (py := cursor_y (pen s)) in *. assert (Hx : 0 ≤ px < C) by lia.
  pose proof (cell_range R C px py Hx Hpy) as Hi. rewrite (u64_small (py * C)) by nia.
  rewrite u64_small by (unfold cell in Hi; lia). replace (px + py * C) with (cell C px py) by (unfold cell; lia).
  destruct (flushing_map _ _ _ _ H0 Hi) as [o Ho]. rewrite (bind_ok _ _ _ _ _ (map_at_ok s _ o Ho)).
  destruct (flushing_char _ _ _ _ H0 Hi) as (c & Hc & Hcb & _). rewrite (bind_ok _ _ _ _ _ (cell_char_ok s _ c Hc)).
  destruct (flushing_plot _ _ _ (invert c) px py H0 Hcb Hx Hpy) as (ps & E & Hcov & Hsh & Hoth). rewrite (bind_ok _ _ _ _ _ E).
  exists true, (settled (cell C px py) c ps s). split.
  - unfold logical in Hc. rewrite Ho in Hc. destruct o as [n|].
    + destruct (zlookup (queue s) n) as [q|] eqn:Eq; [|done]. injection Hc as <-.
      rewrite (bind_ok (item_at n) _ _ q (set_pixels ps s)) by (by apply item_at_ok).
      destruct (flushing_grid _ _ _ _ H0 Hi) as (old & Hold & _). rewrite (bind_ok _ _ _ _ _ (put_grid_ok (set_pixels ps s) _ old _ Hold)).
      rewrite (put_map_ok _ _ (Some n)) by done. done.
    + unfold settled. rewrite (zinsert_id _ _ _ Ho), (zinsert_id _ _ _ Hc). by destruct s.
  - split; [|split; [done|intros; done]]. apply (settle false true 0 0 px py c (invert c) ps s); try done.
    + by rewrite decide_True.
    + right. done.
    + intros i m Hm _. by apply (fl_map _ _ _ H0 i m).
Qed.

Lemma flush_item_flushing cur n s1 : 0 ≤ n < queue_i s → flushing cur n s1 →
  ∃ s2, flush_item ctx n s1 = Ok (tt, s2) ∧ flushing cur (n + 1) s2.
Proof.
  intros Hn Hf. destruct (qk_dims _ _ _ (rf_queue _ _ _ _ Hr)) as (_ & _ & Hs).
  destruct (qk_items _ _ _ (rf_queue _ _ _ _ Hr) n Hn) as (q & Eq & Hx & Hy & Hm). pose proof (cell_range R C _ _ Hx Hy) as Hi.
  assert (Eq1 : zlookup (queue s1) n = Some q) by (by rewrite (fl_same _ _ _ Hf)).
  assert (Hnext : ∀ i m, zlookup (queue_map s1) i = Some (Some m) → i ≠ cell C (q_x q) (q_y q) → n + 1 ≤ m).
  { intros i m Him Hne. destruct (fl_map _ _ _ Hf i m Him) as [Him' ?]. assert (m ≠ n); [|lia]. intros ->.
    destruct (qk_entries _ _ _ (rf_queue _ _ _ _ Hr) i n Him') as (_ & q' & Eq' & Ec). congruence. }
  unfold flush_item. rewrite (bind_ok _ _ _ _ _ (item_at_ok s1 n q Eq1)). cbv zeta. destruct (wg_cols _ _ _ Hg) as [-> HC].
  rewrite (u64_small (q_y q * C)) by nia. rewrite u64_small by (unfold cell in Hi; lia). fold (cell C (q_x q) (q_y q)).
  destruct (flushing_map _ _ _ _ Hf Hi) as [o Ho]. rewrite (bind_ok _ _ _ _ _ (map_at_ok s1 _ o Ho)). destruct o as [m|].
  - destruct (fl_map _ _ _ Hf _ m Ho) as [Hm' _]. assert (m = n) as -> by congruence.
    destruct (flushing_char _ _ _ _ Hf Hi) as (c & Hc & Hcb & _). pose proof Hc as Hc'. unfold logical in Hc'. rewrite Ho, Eq1 in Hc'. injection Hc' as Ec. rewrite Ec.
    destruct (flushing_plot _ _ _ c (q_x q) (q_y q) Hf Hcb Hx Hy) as (ps & E & Hcov & Hsh & Hoth). rewrite (bind_ok _ _ _ _ _ E).
    destruct (flushing_grid _ _ _ _ Hf Hi) as (old & Hold & _). rewrite (bind_ok _ _ _ _ _ (put_grid_ok (set_pixels ps s1) _ old _ Hold)).
    rewrite (put_map_ok _ _ (Some n)) by done. eexists. split; [reflexivity|].
    change (flushing cur (n + 1) (settled (cell C (q_x q) (q_y q)) c ps s1)).
    apply (settle cur cur n (n + 1) (q_x q) (q_y q) c c ps s1); try done; [|by left].
    rewrite decide_False; [done|]. intros [Ecur Hat].
    destruct (flushing_grid _ _ _ _ Hf Hi) as (g & Hg' & _). destruct (fl_cursor _ _ _ Hf _ _ g Ecur Hat Hx Hg') as [_ E']. congruence.
  - exists s1. split; [done|]. destruct Hf. split; try done. intros i m Him. split; [by apply fl_map0|]. apply (Hnext i m Him). congruence.
Qed.
(** ** The end of the flush *)

Lemma flushed_cells cur s1 i : flushing cur (queue_i s) s1 → 0 ≤ i < R * C →
  zlookup (queue_map s1) i = Some None ∧ ∃ c, zlookup (grid s1) i = Some c ∧ fits 8 (fc_c c) ∧ char_eq c (at_cell (sc_cells a) i).
Proof.
  intros Hf Hi. destruct (flushing_map _ _ _ _ Hf Hi) as [[m|] Hm].
  { exfalso. destruct (fl_map _ _ _ Hf i m Hm) as [Hm' ?]. destruct (qk_entries _ _ _ (rf_queue _ _ _ _ Hr) i m Hm') as [? _]. lia. }
  split; [done|]. destruct (flushing_char _ _ _ _ Hf Hi) as (c & Hc & Hcb & E). exists c. split; [|done]. unfold logical in Hc. by rewrite Hm in Hc.
Qed.

(** The character that the pixels of a cell show *)
Definition face (cur : bool) (x y : Z) (c : fb_char) : fb_char := if decide (cur = true ∧ at_cursor x y) then invert c else c.

Lemma redraw_flushing cur s1 : flushing cur (queue_i s) s1 →
  (cur = true ↔ cursor_enabled (ctx_modes ctx) = true ∧ cursor_x (pen s) < C) →
  ∃ ps, redraw_old_cursor ctx s1 = Ok (tt, set_pixels ps s1) ∧ covered (conf s) ps ∧
    ∀ x y c, 0 ≤ x < C → 0 ≤ y < R → zlookup (grid s1) (cell C x y) = Some c → shows (conf s) ps x y (face cur x y c).
Proof.
  intros Hf Hcur. destruct (pt_old _ _ _ (rf_pict _ _ _ _ Hr)) as [Hox Hoy]. destruct (qk_dims _ _ _ (rf_queue _ _ _ _ Hr)) as (_ & _ & Hs).
  assert (Hface : ∀ x y c, 0 ≤ x < C → 0 ≤ y < R → (cur = true ∧ at_cursor x y) ∨ x ≠ old_cursor_x s ∨ y ≠ old_cursor_y s →
    zlookup (grid s1) (cell C x y) = Some c → shows (conf s) (pixels s1) x y (face cur x y c)).
  { intros x y c Hx Hy Hold Hc. unfold face. case_decide as Hd.
    - destruct Hd as [Ecur Hat]. by apply (fl_cursor _ _ _ Hf x y c).
    - apply (fl_sync _ _ _ Hf); [done|done| |naive_solver|done]. destruct cur; [right|by left]. intros Hat. by apply Hd. }
  assert (Hkeep : redraw_old_cursor ctx s1 = Ok (tt, s1) → (∀ x y, 0 ≤ x < C → (cur = true ∧ at_cursor x y) ∨ x ≠ old_cursor_x s ∨ y ≠ old_cursor_y s) →
    ∃ ps, redraw_old_cursor ctx s1 = Ok (tt, set_pixels ps s1) ∧ covered (conf s) ps ∧
    ∀ x y c, 0 ≤ x < C → 0 ≤ y < R → zlookup (grid s1) (cell C x y) = Some c → shows (conf s) ps x y (face cur x y c)).
  { intros E Hall. exists (pixels s1). split; [rewrite E; by destruct s1|]. split; [apply Hf|]. intros x y c Hx Hy Hc. apply Hface; auto. }
  revert Hkeep. unfold redraw_old_cursor. cbv zeta. mstep. unfold id. destruct (wg_cols _ _ _ Hg) as [-> HC]. destruct (wg_rows _ _ _ Hg) as [-> HR].
  replace (old_cursor_x s1) with (old_cursor_x s) by (by rewrite (fl_same _ _ _ Hf)). replace (old_cursor_y s1) with (old_cursor_y s) by (by rewrite (fl_same _ _ _ Hf)).
  replace (pen s1) with (pen s) by (by rewrite (fl_same _ _ _ Hf)). set (ox := old_cursor_x s) in *. set (oy := old_cursor_y s) in *.
  intros Hkeep. destruct (_ || negb (cursor_enabled _)) eqn:Eor; cbn [when] in *.
  - destruct ((ox <? C) && (oy <? R)) eqn:Eand; cbn [when] in *.
    + apply andb_true_iff in Eand as [E1%Z.ltb_lt _]. clear Hkeep. assert (Hx : 0 ≤ ox < C) by lia. pose proof (cell_range R C ox oy Hx Hoy) as Hi.
      rewrite (u64_small (oy * C)) by nia. rewrite u64_small by (unfold cell in Hi; lia). replace (ox + oy * C) with (cell C ox oy) by (unfold cell; lia).
      destruct (flushing_grid _ _ _ _ Hf Hi) as (c & Hc & Hcb). rewrite (bind_ok _ _ _ _ _ (grid_at_ok s1 _ c Hc)).
      destruct (flushing_plot _ _ _ c ox oy Hf Hcb Hx Hoy) as (ps & E & Hcov & Hsh & Hoth). exists ps. split; [exact E|]. split; [done|].
      intros x y c' Hx' Hy' Hc'. destruct (decide (x = ox ∧ y = oy)) as [[-> ->]|Hne].
      * assert (c' = c) as -> by congruence. unfold face. rewrite decide_False; [done|]. intros [Ecur [Ex Ey]].
        apply Hcur in Ecur as [Een _]. rewrite Een, Ex, Ey, !Z.eqb_refl in Eor. done.
      * apply Hoth; [done|done|lia|]. apply Hface; [done|done| |done]. right. lia.
    + apply Hkeep; [done|]. intros x y Hx. right. left. apply andb_false_iff in Eand as [E|E]; apply Z.ltb_ge in E; lia.
  - apply Hkeep; [done|]. intros x y Hx. apply orb_false_iff in Eor as [Eor Een%negb_false_iff].
    apply orb_false_iff in Eor as [E1%negb_false_iff%Z.eqb_eq E2%negb_false_iff%Z.eqb_eq].
    destruct (decide (x = ox ∧ y = oy)) as [[-> ->]|]; [|right; lia]. left. split; [|by split]. apply Hcur. split; [done|]. lia.
Qed.
End flush.

(** The pixels of every cell are its character, inverted at the cursor. *)
Definition displays (R C : Z) (ctx : context) (s : fb) (a : screen) : Prop :=
  ∀ x y, 0 ≤ x < C → 0 ≤ y < R → shows (conf s) (pixels s) x y
    (if decide (cursor_enabled (ctx_modes ctx) = true ∧ x = cursor_x (sc_pen a) ∧ y = cursor_y (sc_pen a))
     then invert (at_cell (sc_cells a) (cell C x y)) else at_cell (sc_cells a) (cell C x y)).

Theorem flush_displays R C ctx s a : wf_geom R C (ctx_geom ctx) → refines R C s a →
  ∃ s', flanterm_fb_double_buffer_flush ctx s = Ok (tt, s') ∧ refines R C s' a ∧ displays R C ctx s' a ∧ queue_i s' = 0.
Proof.
  intros Hg Hr. destruct (draw_cursor_flushing R C ctx Hg s a Hr) as (cur & s1 & E1 & H1 & Hcur).
  pose proof (qk_i _ _ _ (rf_queue _ _ _ _ Hr)) as Hqi.
  destruct (for_loop_inv (flushing R C s cur) (flush_item ctx) (Z.to_nat (queue_i s)) 0 s1 H1) as (s2 & E2 & H2).
  { intros n s2 Hn H2. apply (flush_item_flushing R C ctx Hg s a Hr); [lia|done]. }
  replace (0 + Z.of_nat (Z.to_nat (queue_i s))) with (queue_i s) in H2 by lia.
  destruct (redraw_flushing R C ctx Hg s a Hr cur s2 H2 Hcur) as (ps & E3 & Hcov & Hsh).
  set (s3 := set_queue_i 0 (set_old_cursor_y (cursor_y (pen s)) (set_old_cursor_x (cursor_x (pen s)) (set_pixels ps s2)))).
  assert (E : flanterm_fb_double_buffer_flush ctx s = call_flush s3).
  { unfold flanterm_fb_double_buffer_flush. rewrite (bind_ok _ _ _ _ _ E1). mstep. 
    replace (queue_i s1) with (queue_i s) by (by rewrite (fl_same _ _ _ _ _ _ H1)). rewrite (bind_ok _ _ _ _ _ E2), (bind_ok _ _ _ _ _ E3). unfold s3.
    assert (Ep : pen s2 = pen s) by (by rewrite (fl_same _ _ _ _ _ _ H2)). rewrite <-Ep. reflexivity. }
  set (s4 := if flush_callback s3 then set_flushes (flushes s3 ++ [u64 (pitch (conf s3) * phys_height (conf s3))]) s3 else s3).
  exists s4. split; [exact E|].
  assert (Hs4 : s4 = mkFb (conf s) (pen s) (saved_pen s) (grid s2) (queue s) 0 (queue_map s2) (cursor_x (pen s)) (cursor_y (pen s))
    ps (flush_callback s) (flushes s4) (bump s) (freed s)).
  { unfold s4, s3. rewrite (fl_same _ _ _ _ _ _ H2). cbn. by destruct (flush_callback s). }
  pose proof (rf_queue _ _ _ _ Hr) as Hq. pose proof (rf_pict _ _ _ _ Hr) as Hp. destruct (fl_len _ _ _ _ _ _ H2) as [Hlg Hlm].
  rewrite Hs4. clear Hs4 E. split; [|split; [|done]].
  - split; try apply Hr.
    + split; cbn; [apply Hp|exact Hcov|apply H2| |apply Hr]. intros x y c Hx Hy Hne Hc. specialize (Hsh x y c Hx Hy Hc). unfold face in Hsh.
      rewrite decide_False in Hsh; [exact Hsh|]. intros [_ [Ex Ey]]. cbn in Hne. lia.
    + pose proof (qk_map _ _ _ Hq) as Hqm. destruct Hq. split; cbn; try done; [by rewrite Hlg|by rewrite Hlm|lia|lia|]. intros i m Hm.
      assert (0 ≤ i < R * C) as Hi. { rewrite <-Hqm, <-Hlm. by eapply zlookup_Some_bounds. }
      destruct (flushed_cells R C s a Hr cur s2 i H2 Hi) as [Hn _]. congruence.
    + intros i Hi. destruct (flushed_cells R C s a Hr cur s2 i H2 Hi) as (Hm & c & Hc & _ & Ec). exists c. split; [|done].
      unfold logical. cbn. by rewrite Hm.
  - intros x y Hx Hy. cbn [conf pixels]. pose proof (cell_range R C x y Hx Hy) as Hi.
    destruct (flushed_cells R C s a Hr cur s2 _ H2 Hi) as (Hm & c & Hc & _ & Ec). specialize (Hsh x y c Hx Hy Hc).
    rewrite (proj1 (rf_pen _ _ _ _ Hr)). unfold face in Hsh. case_decide as Hd; case_decide as Hd'.
    + by eapply shows_char_eq, Hsh; apply invert_char_eq.
    + exfalso. apply Hd'. destruct Hd as [Ecur [-> ->]]. apply Hcur in Ecur as [? _]. done.
    + exfalso. apply Hd. destruct Hd' as (Een & -> & ->). split; [|by split]. apply Hcur. split; [done|]. lia.
    + by eapply shows_char_eq, Hsh.
Qed.
