(* ===== verification/FbBackend.v ===== *)
(** * The terminal on the framebuffer

    The operations of fb.c keep the refinement of the abstract screen, so the
    framebuffer is a screen for which the parser is safe, and what the parser
    does on the framebuffer it does on the abstract screen ([write_refines]). *)
From Stdlib Require Import ZArith Lia.
From stdpp Require Import base option list gmap.
From S2P Require Import Prelude Print Hoare TermTables Term TermProof Fb FbProof FbSpec FbRefine.

(** ** The parser and the screen

    The parser sees the screen only through its operations: when the operations
    of one screen follow those of another, so does every function of the parser
    ([write_follows]).  [both] runs two screens side by side and compares what
    they return, so that the safety of the parser on the pair shows that it does
    the same on either. *)

(** What [m] does in [s], [m'] does in [f s]. *)
Definition follows {S S' A} (f : S → S') (m : M S A) (m' : M S' A) : Prop :=
  ∀ s r s', m s = Ok (r, s') → m' (f s) = Ok (r, f s').

Class BackendMorphism {B B'} `{Backend B} `{Backend B'} (f : B → B') : Prop := {
  mor_raw_putchar c v : follows f (be_raw_putchar c v) (be_raw_putchar c v);
  mor_clear c v : follows f (be_clear c v) (be_clear c v);
  mor_set_cursor_pos c x y : follows f (be_set_cursor_pos c x y) (be_set_cursor_pos c x y);
  mor_get_cursor_pos c : follows f (be_get_cursor_pos c) (be_get_cursor_pos c);
  mor_set_text_fg c v : follows f (be_set_text_fg c v) (be_set_text_fg c v);
  mor_set_text_bg c v : follows f (be_set_text_bg c v) (be_set_text_bg c v);
  mor_set_text_fg_bright c v : follows f (be_set_text_fg_bright c v) (be_set_text_fg_bright c v);
  mor_set_text_bg_bright c v : follows f (be_set_text_bg_bright c v) (be_set_text_bg_bright c v);
  mor_set_text_fg_rgb c v : follows f (be_set_text_fg_rgb c v) (be_set_text_fg_rgb c v);
  mor_set_text_bg_rgb c v : follows f (be_set_text_bg_rgb c v) (be_set_text_bg_rgb c v);
  mor_set_text_fg_default c : follows f (be_set_text_fg_default c) (be_set_text_fg_default c);
  mor_set_text_bg_default c : follows f (be_set_text_bg_default c) (be_set_text_bg_default c);
  mor_set_text_fg_default_bright c : follows f (be_set_text_fg_default_bright c) (be_set_text_fg_default_bright c);
  mor_set_text_bg_default_bright c : follows f (be_set_text_bg_default_bright c) (be_set_text_bg_default_bright c);
  mor_move_character c nx ny ox oy : follows f (be_move_character c nx ny ox oy) (be_move_character c nx ny ox oy);
  mor_scroll c : follows f (be_scroll c) (be_scroll c);
  mor_revscroll c : follows f (be_revscroll c) (be_revscroll c);
  mor_swap_palette c : follows f (be_swap_palette c) (be_swap_palette c);
  mor_save_state c : follows f (be_save_state c) (be_save_state c);
  mor_restore_state c : follows f (be_restore_state c) (be_restore_state c);
  mor_double_buffer_flush c : follows f (be_double_buffer_flush c) (be_double_buffer_flush c);
}.

Section rules.
Context {S S' : Type} (f : S → S').

Lemma follows_ret {A} (a : A) : follows f (mret a) (mret a).
Proof. intros s r s' E. by injection E as <- <-. Qed.
Lemma follows_bind {A A'} (m : M S A) m' (k : A → M S A') k' :
  follows f m m' → (∀ a, follows f (k a) (k' a)) → follows f (m ≫= k) (m' ≫= k').
Proof.
  intros Hm Hk s r s' E. unfold mbind, M_bind in E. destruct (m s) as [[a s1]| | |] eqn:E1; try done.
  rewrite (bind_ok _ _ _ _ _ (Hm _ _ _ E1)). by apply Hk.
Qed.
Lemma follows_for_loop n lo body body' : (∀ i, follows f (body i) (body' i)) → follows f (for_loop n lo body) (for_loop n lo body').
Proof. intros Hb. revert lo. induction n as [|n IH]; intros lo; cbn [for_loop]; [apply follows_ret|apply follows_bind; auto]. Qed.
Lemma follows_when b m m' : follows f m m' → follows f (when b m) (when b m').
Proof. destruct b; [done|]. intros _. apply follows_ret. Qed.
Lemma follows_fault {A} : follows f (fault (A := A)) fault.
Proof. by intros ???. Qed.
Lemma follows_spin {A} : follows f (spin (A := A)) spin.
Proof. by intros ???. Qed.
End rules.

Section parser.
Context {B B' : Type} `{Backend B} `{Backend B'} (f : B → B') `{!BackendMorphism f}.

Definition map_be (t : terminal B) : terminal B' := mkTerminal (t_ctx t) (f (t_be t)) (t_calls t).

Lemma follows_peek {A} (g : context → A) : follows map_be (peek g) (peek g).
Proof. intros s r s' E. by injection E as <- <-. Qed.
Lemma follows_poke g : follows map_be (poke g) (poke g).
Proof. intros s r s' E. by injection E as <- <-. Qed.
Lemma follows_report w x y z d : follows map_be (report w x y z d) (report w x y z d).
Proof. intros s r s' E. injection E as <- <-. unfold report, modify, map_be. cbn. by destruct (callback (t_ctx s)). Qed.
Lemma follows_backend {A} (op : context → M B A) (op' : context → M B' A) :
  (∀ c, follows f (op c) (op' c)) → follows map_be (backend op) (backend op').
Proof.
  intros Hop s r s' E. unfold backend in *. destruct (op (t_ctx s) (t_be s)) as [[a b]| | |] eqn:E1; try done.
  injection E as <- <-. cbn. by rewrite (Hop _ _ _ _ E1).
Qed.
Lemma follows_wcwidth {S S'} (g : S → S') cp :
  follows g (λ t, match mk_wcwidth cp with Ok w => Ok (w, t) | Halt => Halt | Fault => Fault | Spin => Spin end)
            (λ t, match mk_wcwidth cp with Ok w => Ok (w, t) | Halt => Halt | Fault => Fault | Spin => Spin end).
Proof. intros s r s'. destruct (mk_wcwidth cp); try done. by intros [= <- <-]. Qed.

Ltac follow1 :=
  lazymatch goal with
  | |- follows _ (mret _) _ => apply follows_ret
  | |- follows _ (_ ≫= _) _ => apply follows_bind; [|intros ?]
  | |- follows _ (for_loop _ _ _) _ => apply follows_for_loop; intros ?
  | |- follows _ (when _ _) _ => apply follows_when
  | |- follows _ (peek _) _ => apply follows_peek
  | |- follows _ (poke _) _ => apply follows_poke
  | |- follows _ (report _ _ _ _ _) _ => apply follows_report
  | |- follows _ fault _ => apply follows_fault
  | |- follows _ spin _ => apply follows_spin
  | |- follows _ (match ?x with _ => _ end) _ => destruct x
  | |- follows _ (let x := _ in _) _ => cbv zeta
  | |- follows _ (λ t, match mk_wcwidth _ with _ => _ end) _ => apply follows_wcwidth
  | |- follows _ _ _ => solve [eauto with follow]
  end.
Ltac follow := intros; repeat follow1.

(** ** The operations *)

Lemma raw_putchar_follows c : follows map_be (raw_putchar c) (raw_putchar c).
Proof. apply follows_backend. intros ?. apply mor_raw_putchar. Qed.
Lemma clear_follows b : follows map_be (clear b) (clear b).
Proof. apply follows_backend. intros ?. apply mor_clear. Qed.
Lemma set_cursor_pos_follows x y : follows map_be (set_cursor_pos x y) (set_cursor_pos x y).
Proof. apply follows_backend. intros ?. apply mor_set_cursor_pos. Qed.
Lemma get_cursor_pos_follows : follows map_be (get_cursor_pos) (get_cursor_pos).
Proof. apply follows_backend. intros ?. apply mor_get_cursor_pos. Qed.
Lemma set_text_fg_follows v : follows map_be (set_text_fg v) (set_text_fg v).
Proof. apply follows_backend. intros ?. apply mor_set_text_fg. Qed.
Lemma set_text_bg_follows v : follows map_be (set_text_bg v) (set_text_bg v).
Proof. apply follows_backend. intros ?. apply mor_set_text_bg. Qed.
Lemma set_text_fg_bright_follows v : follows map_be (set_text_fg_bright v) (set_text_fg_bright v).
Proof. apply follows_backend. intros ?. apply mor_set_text_fg_bright. Qed.
Lemma set_text_bg_bright_follows v : follows map_be (set_text_bg_bright v) (set_text_bg_bright v).
Proof. apply follows_backend. intros ?. apply mor_set_text_bg_bright. Qed.
Lemma set_text_fg_rgb_follows v : follows map_be (set_text_fg_rgb v) (set_text_fg_rgb v).
Proof. apply follows_backend. intros ?. apply mor_set_text_fg_rgb. Qed.
Lemma set_text_bg_rgb_follows v : follows map_be (set_text_bg_rgb v) (set_text_bg_rgb v).
Proof. apply follows_backend. intros ?. apply mor_set_text_bg_rgb. Qed.
Lemma set_text_fg_default_follows : follows map_be (set_text_fg_default) (set_text_fg_default).
Proof. apply follows_backend. intros ?. apply mor_set_text_fg_default. Qed.
Lemma set_text_bg_default_follows : follows map_be (set_text_bg_default) (set_text_bg_default).
Proof. apply follows_backend. intros ?. apply mor_set_text_bg_default. Qed.
Lemma set_text_fg_default_bright_follows : follows map_be (set_text_fg_default_bright) (set_text_fg_default_bright).
Proof. apply follows_backend. intros ?. apply mor_set_text_fg_default_bright. Qed.
Lemma set_text_bg_default_bright_follows : follows map_be (set_text_bg_default_bright) (set_text_bg_default_bright).
Proof. apply follows_backend. intros ?. apply mor_set_text_bg_default_bright. Qed.
Lemma move_character_follows a b x y : follows map_be (move_character a b x y) (move_character a b x y).
Proof. apply follows_backend. intros ?. apply mor_move_character. Qed.
Lemma scroll_follows : follows map_be (scroll) (scroll).
Proof. apply follows_backend. intros ?. apply mor_scroll. Qed.
Lemma revscroll_follows : follows map_be (revscroll) (revscroll).
Proof. apply follows_backend. intros ?. apply mor_revscroll. Qed.
Lemma swap_palette_follows : follows map_be (swap_palette) (swap_palette).
Proof. apply follows_backend. intros ?. apply mor_swap_palette. Qed.
Lemma double_buffer_flush_follows : follows map_be (double_buffer_flush) (double_buffer_flush).
Proof. apply follows_backend. intros ?. apply mor_double_buffer_flush. Qed.
Lemma restore_follows : follows map_be (backend be_restore_state) (backend be_restore_state).
Proof. apply follows_backend. intros ?. apply mor_restore_state. Qed.
Lemma save_follows : follows map_be (backend be_save_state) (backend be_save_state).
Proof. apply follows_backend. intros ?. apply mor_save_state. Qed.
#[local] Hint Resolve raw_putchar_follows clear_follows set_cursor_pos_follows get_cursor_pos_follows set_text_fg_follows set_text_bg_follows set_text_fg_bright_follows set_text_bg_bright_follows set_text_fg_rgb_follows set_text_bg_rgb_follows set_text_fg_default_follows set_text_bg_default_follows set_text_fg_default_bright_follows set_text_bg_default_bright_follows move_character_follows scroll_follows revscroll_follows swap_palette_follows double_buffer_flush_follows restore_follows save_follows : follow.

Lemma upd_look_follows g : follows map_be (upd_look g) (upd_look g).
Proof. apply follows_poke. Qed.
Lemma upd_parser_follows g : follows map_be (upd_parser g) (upd_parser g).
Proof. apply follows_poke. Qed.
Lemma upd_geom_follows g : follows map_be (upd_geom g) (upd_geom g).
Proof. apply follows_poke. Qed.
Lemma upd_modes_follows g : follows map_be (upd_modes g) (upd_modes g).
Proof. apply follows_poke. Qed.
Lemma element_follows {A} (o : option A) : follows map_be (element o) (element o).
Proof. unfold element. follow. Qed.
Lemma times_follows n m m' : follows map_be m m' → follows map_be (times n m) (times n m').
Proof. intros Hm. unfold times. by follow. Qed.
Lemma down_to_follows lo hi m m' : (∀ i, follows map_be (m i) (m' i)) → follows map_be (down_to lo hi m) (down_to lo hi m').
Proof. intros Hm. unfold down_to. by follow. Qed.
Lemma sgr_again_follows cur on on' off off' d d' e e' : (∀ v, follows map_be (on v) (on' v)) → (∀ v, follows map_be (off v) (off' v)) →
  follows map_be d d' → follows map_be e e' → follows map_be (sgr_again cur on off d e) (sgr_again cur on' off' d' e').
Proof. intros ????. unfold sgr_again. by follow. Qed.
Lemma swapped_follows m m' : follows map_be m m' → follows map_be (swapped m) (swapped m').
Proof. intros Hm. unfold swapped. by follow. Qed.
#[local] Hint Resolve upd_look_follows upd_parser_follows upd_geom_follows upd_modes_follows element_follows times_follows down_to_follows
  sgr_again_follows : follow.
#[local] Hint Extern 1 (follows _ (swapped _) _) => apply swapped_follows; follow : follow.

Lemma esc_value_follows i : follows map_be (esc_value i) (esc_value i).
Proof. unfold esc_value. follow. Qed.
#[local] Hint Resolve esc_value_follows : follow.
Lemma set_esc_value_follows i v : follows map_be (set_esc_value i v) (set_esc_value i v).
Proof. unfold set_esc_value. follow. Qed.
#[local] Hint Resolve set_esc_value_follows : follow.
Lemma sgr_reset_follows : follows map_be (sgr_reset) (sgr_reset).
Proof. unfold sgr_reset. follow. Qed.
#[local] Hint Resolve sgr_reset_follows : follow.
Lemma sgr_set_fg_follows v o : follows map_be (sgr_set_fg v o) (sgr_set_fg v o).
Proof. unfold sgr_set_fg. follow. Qed.
#[local] Hint Resolve sgr_set_fg_follows : follow.
Lemma sgr_set_bg_follows v o : follows map_be (sgr_set_bg v o) (sgr_set_bg v o).
Proof. unfold sgr_set_bg. follow. Qed.
#[local] Hint Resolve sgr_set_bg_follows : follow.
Lemma no_index_follows b : follows map_be (no_index b) (no_index b).
Proof. unfold no_index. follow. Qed.
#[local] Hint Resolve no_index_follows : follow.
Lemma sgr_extended_follows i v n : follows map_be (sgr_extended i v n) (sgr_extended i v n).
Proof. unfold sgr_extended. follow. Qed.
#[local] Hint Resolve sgr_extended_follows : follow.
Lemma sgr_simple_follows v : follows map_be (sgr_simple v) (sgr_simple v).
Proof. unfold sgr_simple. follow. Qed.
#[local] Hint Resolve sgr_simple_follows : follow.
Lemma sgr_loop_follows fuel i : follows map_be (sgr_loop fuel i) (sgr_loop fuel i).
Proof. revert i. induction fuel as [|fuel IH]; intros i; cbn [sgr_loop]; follow; apply IH. Qed.
#[local] Hint Resolve sgr_loop_follows : follow.
Lemma sgr_follows : follows map_be (sgr) (sgr).
Proof. unfold sgr. follow. Qed.
#[local] Hint Resolve sgr_follows : follow.
Lemma restore_state_follows : follows map_be (restore_state) (restore_state).
Proof. unfold restore_state. follow. Qed.
#[local] Hint Resolve restore_state_follows : follow.
Lemma save_state_follows : follows map_be (save_state) (save_state).
Proof. unfold save_state. follow. Qed.
#[local] Hint Resolve save_state_follows : follow.
Lemma dec_private_one_follows set v : follows map_be (dec_private_one set v) (dec_private_one set v).
Proof. unfold dec_private_one. follow. Qed.
#[local] Hint Resolve dec_private_one_follows : follow.
Lemma dec_private_parse_follows c : follows map_be (dec_private_parse c) (dec_private_parse c).
Proof. unfold dec_private_parse. follow. Qed.
#[local] Hint Resolve dec_private_parse_follows : follow.
Lemma linux_private_parse_follows : follows map_be (linux_private_parse) (linux_private_parse).
Proof. unfold linux_private_parse. follow. Qed.
#[local] Hint Resolve linux_private_parse_follows : follow.
Lemma mode_toggle_follows c : follows map_be (mode_toggle c) (mode_toggle c).
Proof. unfold mode_toggle. follow. Qed.
#[local] Hint Resolve mode_toggle_follows : follow.
Lemma osc_finalize_follows : follows map_be (osc_finalize) (osc_finalize).
Proof. unfold osc_finalize. follow. Qed.
#[local] Hint Resolve osc_finalize_follows : follow.
Lemma end_osc_follows : follows map_be (end_osc) (end_osc).
Proof. unfold end_osc. follow. Qed.
#[local] Hint Resolve end_osc_follows : follow.
Lemma osc_store_follows c : follows map_be (osc_store c) (osc_store c).
Proof. unfold osc_store. follow. Qed.
#[local] Hint Resolve osc_store_follows : follow.
Lemma osc_parse_follows c : follows map_be (osc_parse c) (osc_parse c).
Proof. unfold osc_parse. follow. Qed.
#[local] Hint Resolve osc_parse_follows : follow.
Lemma line_feed_follows x y : follows map_be (line_feed x y) (line_feed x y).
Proof. unfold line_feed. follow. Qed.
#[local] Hint Resolve line_feed_follows : follow.
Lemma execute_c0_follows c : follows map_be (execute_c0 c) (execute_c0 c).
Proof. unfold execute_c0. follow. Qed.
#[local] Hint Resolve execute_c0_follows : follow.
Lemma spaces_follows n : follows map_be (spaces n) (spaces n).
Proof. unfold spaces. follow. Qed.
#[local] Hint Resolve spaces_follows : follow.
Lemma csi_up_follows x y : follows map_be (csi_up x y) (csi_up x y).
Proof. unfold csi_up. follow. Qed.
#[local] Hint Resolve csi_up_follows : follow.
Lemma csi_down_follows x y : follows map_be (csi_down x y) (csi_down x y).
Proof. unfold csi_down. follow. Qed.
#[local] Hint Resolve csi_down_follows : follow.
Lemma csi_right_follows x y : follows map_be (csi_right x y) (csi_right x y).
Proof. unfold csi_right. follow. Qed.
#[local] Hint Resolve csi_right_follows : follow.
Lemma csi_left_follows x y : follows map_be (csi_left x y) (csi_left x y).
Proof. unfold csi_left. follow. Qed.
#[local] Hint Resolve csi_left_follows : follow.
Lemma esc_index_follows i m : follows map_be (esc_index i m) (esc_index i m).
Proof. unfold esc_index. follow. Qed.
#[local] Hint Resolve esc_index_follows : follow.
Lemma csi_row_follows x : follows map_be (csi_row x) (csi_row x).
Proof. unfold csi_row. follow. Qed.
#[local] Hint Resolve csi_row_follows : follow.
Lemma csi_column_follows y : follows map_be (csi_column y) (csi_column y).
Proof. unfold csi_column. follow. Qed.
#[local] Hint Resolve csi_column_follows : follow.
Lemma csi_position_follows : follows map_be (csi_position) (csi_position).
Proof. unfold csi_position. follow. Qed.
#[local] Hint Resolve csi_position_follows : follow.
Lemma csi_lines_follows m m' y : follows map_be m m' → follows map_be (csi_lines m y) (csi_lines m' y).
Proof. intros Hm. unfold csi_lines. by follow. Qed.
Lemma csi_scroll_follows m m' : follows map_be m m' → follows map_be (csi_scroll m) (csi_scroll m').
Proof. intros Hm. unfold csi_scroll. by follow. Qed.
#[local] Hint Resolve csi_lines_follows csi_scroll_follows : follow.
Lemma csi_report_follows x y : follows map_be (csi_report x y) (csi_report x y).
Proof. unfold csi_report. follow. Qed.
#[local] Hint Resolve csi_report_follows : follow.
Lemma blank_row_follows y : follows map_be (blank_row y) (blank_row y).
Proof. unfold blank_row. follow. Qed.
#[local] Hint Resolve blank_row_follows : follow.
Lemma csi_erase_display_follows x y : follows map_be (csi_erase_display x y) (csi_erase_display x y).
Proof. unfold csi_erase_display. follow. Qed.
#[local] Hint Resolve csi_erase_display_follows : follow.
Lemma csi_erase_line_follows x y : follows map_be (csi_erase_line x y) (csi_erase_line x y).
Proof. unfold csi_erase_line. follow. Qed.
#[local] Hint Resolve csi_erase_line_follows : follow.
Lemma shift_right_follows x y n : follows map_be (shift_right x y n) (shift_right x y n).
Proof. unfold shift_right. follow. Qed.
#[local] Hint Resolve shift_right_follows : follow.
Lemma csi_insert_follows x y : follows map_be (csi_insert x y) (csi_insert x y).
Proof. unfold csi_insert. follow. Qed.
#[local] Hint Resolve csi_insert_follows : follow.
Lemma csi_erase_follows x y : follows map_be (csi_erase x y) (csi_erase x y).
Proof. unfold csi_erase. follow. Qed.
#[local] Hint Resolve csi_erase_follows : follow.
Lemma csi_delete_follows x y : follows map_be (csi_delete x y) (csi_delete x y).
Proof. unfold csi_delete. follow. Qed.
#[local] Hint Resolve csi_delete_follows : follow.
Lemma csi_margins_follows : follows map_be (csi_margins) (csi_margins).
Proof. unfold csi_margins. follow. Qed.
#[local] Hint Resolve csi_margins_follows : follow.
Lemma repeat_one_follows : follows map_be (repeat_one) (repeat_one).
Proof. unfold repeat_one. follow. Qed.
#[local] Hint Resolve repeat_one_follows : follow.
Lemma csi_repeat_follows r w : follows map_be (csi_repeat r w) (csi_repeat r w).
Proof. unfold csi_repeat. follow. Qed.
#[local] Hint Resolve csi_repeat_follows : follow.
Lemma unhandled_follows r w : follows map_be (unhandled r w) (unhandled r w).
Proof. unfold unhandled. follow. Qed.
#[local] Hint Resolve unhandled_follows : follow.
Lemma csi_dispatch_follows r w c x y : follows map_be (csi_dispatch r w c x y) (csi_dispatch r w c x y).
Proof. unfold csi_dispatch. follow. Qed.
#[local] Hint Resolve csi_dispatch_follows : follow.
Lemma cleanup_follows : follows map_be (cleanup) (cleanup).
Proof. unfold cleanup. follow. Qed.
#[local] Hint Resolve cleanup_follows : follow.
Lemma csi_digit_follows c : follows map_be (csi_digit c) (csi_digit c).
Proof. unfold csi_digit. follow. Qed.
#[local] Hint Resolve csi_digit_follows : follow.
Lemma csi_separator_follows c : follows map_be (csi_separator c) (csi_separator c).
Proof. unfold csi_separator. follow. Qed.
#[local] Hint Resolve csi_separator_follows : follow.
Lemma csi_defaults_follows c : follows map_be (csi_defaults c) (csi_defaults c).
Proof. unfold csi_defaults. follow. Qed.
#[local] Hint Resolve csi_defaults_follows : follow.
Lemma csi_execute_follows c : follows map_be (csi_execute c) (csi_execute c).
Proof. unfold csi_execute. follow. Qed.
#[local] Hint Resolve csi_execute_follows : follow.
Lemma csi_final_follows c : follows map_be (csi_final c) (csi_final c).
Proof. unfold csi_final. follow. Qed.
#[local] Hint Resolve csi_final_follows : follow.
Lemma control_sequence_parse_follows c : follows map_be (control_sequence_parse c) (control_sequence_parse c).
Proof. unfold control_sequence_parse. follow. Qed.
#[local] Hint Resolve control_sequence_parse_follows : follow.
Lemma esc_reset_follows : follows map_be (esc_reset) (esc_reset).
Proof. unfold esc_reset. follow. Qed.
#[local] Hint Resolve esc_reset_follows : follow.
Lemma esc_next_line_follows y : follows map_be (esc_next_line y) (esc_next_line y).
Proof. unfold esc_next_line. follow. Qed.
#[local] Hint Resolve esc_next_line_follows : follow.
Lemma esc_reverse_index_follows x y : follows map_be (esc_reverse_index x y) (esc_reverse_index x y).
Proof. unfold esc_reverse_index. follow. Qed.
#[local] Hint Resolve esc_reverse_index_follows : follow.
Lemma begin_osc_follows : follows map_be (begin_osc) (begin_osc).
Proof. unfold begin_osc. follow. Qed.
#[local] Hint Resolve begin_osc_follows : follow.
Lemma begin_csi_follows : follows map_be (begin_csi) (begin_csi).
Proof. unfold begin_csi. follow. Qed.
#[local] Hint Resolve begin_csi_follows : follow.
Lemma escape_dispatch_follows c x y : follows map_be (escape_dispatch c x y) (escape_dispatch c x y).
Proof. unfold escape_dispatch. follow. Qed.
#[local] Hint Resolve escape_dispatch_follows : follow.
Lemma escape_parse_follows c : follows map_be (escape_parse c) (escape_parse c).
Proof. unfold escape_parse. follow. Qed.
#[local] Hint Resolve escape_parse_follows : follow.
Lemma print_glyph_follows c : follows map_be (print_glyph c) (print_glyph c).
Proof. unfold print_glyph. follow. Qed.
#[local] Hint Resolve print_glyph_follows : follow.
Lemma dec_special_print_follows c : follows map_be (dec_special_print c) (dec_special_print c).
Proof. unfold dec_special_print. follow. Qed.
#[local] Hint Resolve dec_special_print_follows : follow.
Lemma insert_shift_follows n : follows map_be (insert_shift n) (insert_shift n).
Proof. unfold insert_shift. follow. Qed.
#[local] Hint Resolve insert_shift_follows : follow.
Lemma print_code_point_follows c : follows map_be (print_code_point c) (print_code_point c).
Proof. unfold print_code_point. follow. Qed.
#[local] Hint Resolve print_code_point_follows : follow.
Lemma unicode_step_follows c : follows map_be (unicode_step c) (unicode_step c).
Proof. unfold unicode_step. follow. Qed.
#[local] Hint Resolve unicode_step_follows : follow.
Lemma unicode_start_follows c : follows map_be (unicode_start c) (unicode_start c).
Proof. unfold unicode_start. follow. Qed.
#[local] Hint Resolve unicode_start_follows : follow.
Lemma discard_follows : follows map_be (discard) (discard).
Proof. unfold discard. follow. Qed.
#[local] Hint Resolve discard_follows : follow.
Lemma select_charset_follows c : follows map_be (select_charset c) (select_charset c).
Proof. unfold select_charset. follow. Qed.
#[local] Hint Resolve select_charset_follows : follow.
Lemma put_text_follows c : follows map_be (put_text c) (put_text c).
Proof. unfold put_text. follow. Qed.
#[local] Hint Resolve put_text_follows : follow.
Lemma put_byte_follows c : follows map_be (put_byte c) (put_byte c).
Proof. unfold put_byte. follow. Qed.
#[local] Hint Resolve put_byte_follows : follow.
Lemma flanterm_putchar_follows c : follows map_be (flanterm_putchar c) (flanterm_putchar c).
Proof. unfold flanterm_putchar. follow. Qed.
#[local] Hint Resolve flanterm_putchar_follows : follow.
Lemma auto_flush_follows : follows map_be (auto_flush) (auto_flush).
Proof. unfold auto_flush. follow. Qed.
#[local] Hint Resolve auto_flush_follows : follow.

Lemma put_bytes_follows bs : follows map_be (put_bytes bs) (put_bytes bs).
Proof. induction bs; cbn [put_bytes]; follow. Qed.
Lemma write_follows bs : follows map_be (flanterm_write bs) (flanterm_write bs).
Proof. unfold flanterm_write. follow. apply put_bytes_follows. Qed.
End parser.

(** ** Two screens side by side *)

(** Both operations, which have to return the same. *)
Definition both {S S' A} `{EqDecision A} (m : M S A) (m' : M S' A) : M (S * S') A := λ p,
  match m p.1, m' p.2 with
  | Ok (r, s), Ok (r', s') => if decide (r = r') then Ok (r, (s, s')) else Fault
  | _, _ => Fault
  end.
Lemma both_fst {S S' A} `{EqDecision A} (m : M S A) (m' : M S' A) : follows fst (both m m') m.
Proof.
  intros [s s'] r [s1 s1']. unfold both. cbn. destruct (m s) as [[r1 s2]| | |], (m' s') as [[r2 s2']| | |]; try done.
  case_decide; [|done]. by intros [= <- <- <-].
Qed.
Lemma both_snd {S S' A} `{EqDecision A} (m : M S A) (m' : M S' A) : follows snd (both m m') m'.
Proof.
  intros [s s'] r [s1 s1']. unfold both. cbn. destruct (m s) as [[r1 s2]| | |], (m' s') as [[r2 s2']| | |]; try done.
  case_decide; [|done]. subst. by intros [= <- <- <-].
Qed.

Section pair.
Context {B B' : Type} `{Backend B} `{Backend B'}.
#[global] Instance pair_backend : Backend (B * B') := {|
  be_raw_putchar := λ c v, both (be_raw_putchar c v) (be_raw_putchar c v);
  be_clear := λ c v, both (be_clear c v) (be_clear c v);
  be_set_cursor_pos := λ c x y, both (be_set_cursor_pos c x y) (be_set_cursor_pos c x y);
  be_get_cursor_pos := λ c, both (be_get_cursor_pos c) (be_get_cursor_pos c);
  be_set_text_fg := λ c v, both (be_set_text_fg c v) (be_set_text_fg c v);
  be_set_text_bg := λ c v, both (be_set_text_bg c v) (be_set_text_bg c v);
  be_set_text_fg_bright := λ c v, both (be_set_text_fg_bright c v) (be_set_text_fg_bright c v);
  be_set_text_bg_bright := λ c v, both (be_set_text_bg_bright c v) (be_set_text_bg_bright c v);
  be_set_text_fg_rgb := λ c v, both (be_set_text_fg_rgb c v) (be_set_text_fg_rgb c v);
  be_set_text_bg_rgb := λ c v, both (be_set_text_bg_rgb c v) (be_set_text_bg_rgb c v);
  be_set_text_fg_default := λ c, both (be_set_text_fg_default c) (be_set_text_fg_default c);
  be_set_text_bg_default := λ c, both (be_set_text_bg_default c) (be_set_text_bg_default c);
  be_set_text_fg_default_bright := λ c, both (be_set_text_fg_default_bright c) (be_set_text_fg_default_bright c);
  be_set_text_bg_default_bright := λ c, both (be_set_text_bg_default_bright c) (be_set_text_bg_default_bright c);
  be_move_character := λ c nx ny ox oy, both (be_move_character c nx ny ox oy) (be_move_character c nx ny ox oy);
  be_scroll := λ c, both (be_scroll c) (be_scroll c);
  be_revscroll := λ c, both (be_revscroll c) (be_revscroll c);
  be_swap_palette := λ c, both (be_swap_palette c) (be_swap_palette c);
  be_save_state := λ c, both (be_save_state c) (be_save_state c);
  be_restore_state := λ c, both (be_restore_state c) (be_restore_state c);
  be_double_buffer_flush := λ c, both (be_double_buffer_flush c) (be_double_buffer_flush c);
  be_full_refresh := λ c, both (be_full_refresh c) (be_full_refresh c);
  be_deinit := λ c v, both (be_deinit c v) (be_deinit c v);
|}.
#[global] Instance fst_morphism : BackendMorphism (fst : B * B' → B).
Proof. split; intros; apply both_fst. Qed.
#[global] Instance snd_morphism : BackendMorphism (snd : B * B' → B').
Proof. split; intros; apply both_snd. Qed.
End pair.

(** ** The framebuffer beside the abstract screen *)

Definition pair_refines (R C : Z) (p : fb * screen) : Prop := refines R C p.1 p.2.

Lemma both_simulates {A} `{EqDecision A} R C (op : M fb A) op' : simulates R C op op' →
  {{ pair_refines R C }} both op op' {{ λ _, pair_refines R C }}.
Proof.
  intros Hop [s a] Hr. destruct (Hop s a Hr) as (r & s' & a' & E & E' & Hr'). exists r, (s', a'). split; [|done].
  unfold both. cbn. rewrite E, E'. by rewrite decide_True.
Qed.
Lemma scroll_simulates R C ctx : wf_geom R C (ctx_geom ctx) → simulates R C (flanterm_fb_scroll ctx) (modify (sc_scroll ctx)).
Proof. intros Hg s a Hr. destruct (scroll_refines R C ctx s a Hg Hr) as (s' & E & Hr' & _). by exists tt, s', (sc_scroll ctx a). Qed.
Lemma revscroll_simulates R C ctx : wf_geom R C (ctx_geom ctx) → simulates R C (flanterm_fb_revscroll ctx) (modify (sc_revscroll ctx)).
Proof. intros Hg s a Hr. destruct (revscroll_refines R C ctx s a Hg Hr) as (s' & E & Hr'). by exists tt, s', (sc_revscroll ctx a). Qed.
Lemma flush_simulates R C ctx : wf_geom R C (ctx_geom ctx) → simulates R C (flanterm_fb_double_buffer_flush ctx) (mret tt).
Proof. intros Hg s a Hr. destruct (flush_displays R C ctx s a Hg Hr) as (s' & E & Hr' & _). by exists tt, s', a. Qed.
Lemma cursor_both R C ctx : wf_geom R C (ctx_geom ctx) →
  {{ pair_refines R C }} both (flanterm_fb_get_cursor_pos ctx) (gets (sc_cursor ctx))
    {{ λ p b, (0 ≤ p.1 < C ∧ 0 ≤ p.2 < R) ∧ pair_refines R C b }}.
Proof.
  intros Hg [s a] Hr. destruct (both_simulates R C _ _ (get_cursor_simulates R C ctx Hg) (s, a) Hr) as (r & p & E & Hp).
  exists r, p. split; [exact E|]. split; [|exact Hp]. apply both_snd in E. injection E as <- _.
  destruct (wg_rows _ _ _ Hg) as [ER HR]. destruct (wg_cols _ _ _ Hg) as [EC HC]. destruct (rf_pos _ _ _ _ Hr) as [[Hx Hy] _].
  change (refines R C s a) in Hr. cbn [fst snd] in *. unfold sc_cursor. cbn [fst snd]. rewrite (proj1 (rf_pen _ _ _ _ Hr)), EC, ER. lia.
Qed.

#[global] Program Instance pair_backend_ok : BackendOk (fb * screen) := {| be_inv := pair_refines |}.
Next Obligation. intros. by apply both_simulates, print_simulates. Qed.
Next Obligation. intros. by apply both_simulates, clear_simulates. Qed.
Next Obligation. intros. by apply both_simulates, set_cursor_simulates. Qed.
Next Obligation. intros. by apply cursor_both. Qed.
Next Obligation. intros. by apply both_simulates, text_fg_simulates. Qed.
Next Obligation. intros. by apply both_simulates, text_bg_simulates. Qed.
Next Obligation. intros. by apply both_simulates, text_fg_bright_simulates. Qed.
Next Obligation. intros. by apply both_simulates, text_bg_bright_simulates. Qed.
Next Obligation. intros. by apply both_simulates, text_fg_rgb_simulates. Qed.
Next Obligation. intros. by apply both_simulates, text_bg_rgb_simulates. Qed.
Next Obligation. intros. by apply both_simulates, text_fg_default_simulates. Qed.
Next Obligation. intros. by apply both_simulates, text_bg_default_simulates. Qed.
Next Obligation. intros. by apply both_simulates, text_fg_default_bright_simulates. Qed.
Next Obligation. intros. by apply both_simulates, text_bg_default_bright_simulates. Qed.
Next Obligation. intros. by apply both_simulates, move_simulates. Qed.
Next Obligation. intros. by apply both_simulates, scroll_simulates. Qed.
Next Obligation. intros. by apply both_simulates, revscroll_simulates. Qed.
Next Obligation. intros. by apply both_simulates, swap_simulates. Qed.
Next Obligation. intros. by apply both_simulates, save_simulates. Qed.
Next Obligation. intros. by apply both_simulates, restore_simulates. Qed.
Next Obligation. intros. by apply both_simulates, flush_simulates. Qed.

(** ** The framebuffer by itself *)

Definition fb_inv (R C : Z) (s : fb) : Prop := ∃ a, refines R C s a.
Lemma fb_simulates {A} R C (op : M fb A) op' : simulates R C op op' → {{ fb_inv R C }} op {{ λ _, fb_inv R C }}.
Proof. intros Hop s [a Hr]. destruct (Hop s a Hr) as (r & s' & a' & E & _ & Hr'). exists r, s'. split; [done|by exists a']. Qed.
Lemma fb_cursor R C ctx : wf_geom R C (ctx_geom ctx) →
  {{ fb_inv R C }} flanterm_fb_get_cursor_pos ctx {{ λ p s, (0 ≤ p.1 < C ∧ 0 ≤ p.2 < R) ∧ fb_inv R C s }}.
Proof.
  intros Hg s [a Hr]. destruct (cursor_both R C ctx Hg (s, a) Hr) as (r & p & E & Hb & Hp). exists r, p.1. split; [by apply both_fst in E|].
  split; [done|by exists p.2].
Qed.
#[global] Program Instance fb_backend_ok : BackendOk fb := {| be_inv := fb_inv |}.
Next Obligation. intros. by eapply fb_simulates, print_simulates. Qed.
Next Obligation. intros. by eapply fb_simulates, clear_simulates. Qed.
Next Obligation. intros. by eapply fb_simulates, set_cursor_simulates. Qed.
Next Obligation. intros. by apply fb_cursor. Qed.
Next Obligation. intros. by eapply fb_simulates, text_fg_simulates. Qed.
Next Obligation. intros. by eapply fb_simulates, text_bg_simulates. Qed.
Next Obligation. intros. by eapply fb_simulates, text_fg_bright_simulates. Qed.
Next Obligation. intros. by eapply fb_simulates, text_bg_bright_simulates. Qed.
Next Obligation. intros. by eapply fb_simulates, text_fg_rgb_simulates. Qed.
Next Obligation. intros. by eapply fb_simulates, text_bg_rgb_simulates. Qed.
Next Obligation. intros. by eapply fb_simulates, text_fg_default_simulates. Qed.
Next Obligation. intros. by eapply fb_simulates, text_bg_default_simulates. Qed.
Next Obligation. intros. by eapply fb_simulates, text_fg_default_bright_simulates. Qed.
Next Obligation. intros. by eapply fb_simulates, text_bg_default_bright_simulates. Qed.
Next Obligation. intros. by eapply fb_simulates, move_simulates. Qed.
Next Obligation. intros. by eapply fb_simulates, scroll_simulates. Qed.
Next Obligation. intros. by eapply fb_simulates, revscroll_simulates. Qed.
Next Obligation. intros. by eapply fb_simulates, swap_simulates. Qed.
Next Obligation. intros. by eapply fb_simulates, save_simulates. Qed.
Next Obligation. intros. by eapply fb_simulates, restore_simulates. Qed.
Next Obligation. intros. by eapply fb_simulates, flush_simulates. Qed.

(** ** The parser on both *)

Record term_refines (R C : Z) (t : terminal fb) (t' : terminal screen) : Prop := {
  tr_wf : wf R C (t_ctx t);
  tr_ctx : t_ctx t' = t_ctx t;
  tr_calls : t_calls t' = t_calls t;
  tr_be : refines R C (t_be t) (t_be t') }.

Definition beside (t : terminal fb) (t' : terminal screen) : terminal (fb * screen) := mkTerminal (t_ctx t) (t_be t, t_be t') (t_calls t).
Lemma beside_fst t t' : map_be fst (beside t t') = t.
Proof. by destruct t. Qed.
Lemma beside_snd R C t t' : term_refines R C t t' → map_be snd (beside t t') = t'.
Proof. intros [_ Ec Ee _]. unfold map_be. cbn. rewrite <-Ec, <-Ee. by destruct t'. Qed.

(** What the terminal does with the pair, it does with both. *)
Lemma put_bytes_refines R C bs t t' : term_refines R C t t' →
  ∃ t1 t1', put_bytes bs t = Ok (tt, t1) ∧ put_bytes bs t' = Ok (tt, t1') ∧ term_refines R C t1 t1'.
Proof.
  intros Hr. pose proof (put_bytes_keeps (B := fb * screen) R C bs _ (tr_wf _ _ _ _ Hr)) as Hk.
  destruct (Hk (beside t t') eq_refl (tr_be _ _ _ _ Hr)) as ([] & p & E & Hp & Hwf).
  exists (map_be fst p), (map_be snd p). apply (put_bytes_follows fst bs) in E as E1. apply (put_bytes_follows snd bs) in E as E2.
  rewrite beside_fst in E1. rewrite (beside_snd R C) in E2 by done. split; [exact E1|]. split; [exact E2|]. by split.
Qed.

Lemma write_refines R C bytes t t' : term_refines R C t t' →
  ∃ t1 t1', flanterm_write bytes t = Ok (tt, t1) ∧ flanterm_write bytes t' = Ok (tt, t1') ∧ term_refines R C t1 t1' ∧
    (autoflush (ctx_modes (t_ctx t1)) = true → displays R C (t_ctx t1) (t_be t1) (t_be t1') ∧ queue_i (t_be t1) = 0).
Proof.
  intros Hr. destruct (put_bytes_refines R C bytes t t' Hr) as (t1 & t1' & E & E' & Hr1).
  unfold flanterm_write.
  pose proof (bind_ok (put_bytes bytes) (λ _, auto_flush) _ _ _ E) as F. pose proof (bind_ok (put_bytes bytes) (λ _, auto_flush) _ _ _ E') as F'.
  assert (A : auto_flush t1 = when (autoflush (ctx_modes (t_ctx t1))) double_buffer_flush t1) by reflexivity.
  assert (A' : auto_flush t1' = when (autoflush (ctx_modes (t_ctx t1'))) double_buffer_flush t1') by reflexivity.
  rewrite (tr_ctx _ _ _ _ Hr1) in A'. rewrite F, F', A, A'.
  destruct (autoflush (ctx_modes (t_ctx t1))) eqn:Ea; cbn [when]; [|exists t1, t1'; split; [reflexivity|]; split; [reflexivity|]; split; [exact Hr1|]; congruence].
  destruct (flush_displays R C (t_ctx t1) (t_be t1) (t_be t1') (wf_gm _ _ _ (tr_wf _ _ _ _ Hr1)) (tr_be _ _ _ _ Hr1)) as (s & Es & Hs & Hd & Hq).
  exists (mkTerminal (t_ctx t1) s (t_calls t1)), t1'. split; [unfold double_buffer_flush, backend; cbn; by rewrite Es|]. split.
  - unfold double_buffer_flush, backend. cbn. by destruct t1'.
  - split; [by destruct Hr1; split|]. intros _. by split.
Qed.

(** C7: Writing to the terminal on the framebuffer refines writing to the
    abstract screen: for every sequence of bytes, [flanterm_write] on fb.c's
    queue, map, grid and pixels and [flanterm_write] on an array of characters
    with a cursor both return, with the same parser state and the same calls of
    the callback, and the framebuffer still stands for the abstract screen.  With
    [autoflush], every pixel of every cell then is the one that the abstract
    screen's character has there, in reverse at the cursor if that is enabled. *)
Theorem flanterm_write_refines R C bytes t t' : term_refines R C t t' →
  ∃ t1 t1', flanterm_write bytes t = Ok (tt, t1) ∧ flanterm_write bytes t' = Ok (tt, t1') ∧ term_refines R C t1 t1' ∧
    (autoflush (ctx_modes (t_ctx t1)) = true → displays R C (t_ctx t1) (t_be t1) (t_be t1') ∧ queue_i (t_be t1) = 0).
Proof. apply write_refines. Qed.
