(* ===== verification/FbInit.v ===== *)
(** * Setting up the framebuffer

    [flanterm_fb_init] as the kernel calls it: the pool is large enough for every
    framebuffer, the font is expanded bit by bit, and the terminal that results
    stands for a blank screen, which its pixels show ([kernel_terminal_ok]). *)
From Stdlib Require Import ZArith Lia.
From stdpp Require Import base option gmap list.
From S2P Require Import Prelude Hoare Term TermProof Fb FbProof FbSpec FbRefine FbBackend.

(** ** The refresh *)

Section refresh.
Context (R C : Z) (ctx : context) (Hg : wf_geom R C (ctx_geom ctx)).
Context (s : fb) (Hk : conf_ok R C (conf s)) (Hq : queue_ok R C s) (Hb : bytes (grid s)) (Hp : pen_ok R C (pen s)) (Hempty : queue_i s = 0).

Lemma refresh_grid i : 0 ≤ i < R * C → zlookup (queue_map s) i = Some None ∧ ∃ c, zlookup (grid s) i = Some c ∧ fits 8 (fc_c c).
Proof.
  intros Hi. split.
  - destruct (zlookup_lt (queue_map s) i) as [[n|] Hn]; [by rewrite (qk_map _ _ _ Hq)| |done].
    destruct (qk_entries _ _ _ Hq i n Hn) as [? _]. lia.
  - destruct (zlookup_lt (grid s) i) as [c Hc]; [by rewrite (qk_grid _ _ _ Hq)|]. exists c. split; [done|]. by eapply bytes_lookup.
Qed.

Lemma rotated_px x y : 0 ≤ x < width (conf s) → 0 ≤ y < height (conf s) →
  framebuffer (conf s) + u64 (u64 ((rotated (conf s) x y).2 * (pitch (conf s) / 4)) + (rotated (conf s) x y).1) = px (conf s) x y.
Proof.
  intros Hx Hy. pose proof (ck_size _ _ _ Hk) as [Hw Hh]. pose proof (ck_stride _ _ _ Hk) as Hs. unfold px, rotated. fold (stride (conf s)).
  assert (Hm : ∀ v r, 0 ≤ v < 2 ^ 31 → 0 ≤ r < 2 ^ 31 → u64 (u64 (v * stride (conf s)) + r) = v * stride (conf s) + r).
  { intros v r Hv Hr. assert (0 ≤ v * stride (conf s) < 2 ^ 62) by nia. rewrite (u64_small (v * _)) by lia. apply u64_small. lia. }
  repeat case_match; cbn [fst snd]; rewrite ?(u64_small (height (conf s) - 1)), ?(u64_small (width (conf s) - 1)) by lia;
    rewrite ?(u64_small (height (conf s) - 1 - y)), ?(u64_small (width (conf s) - 1 - x)) by lia; rewrite Hm by lia; lia.
Qed.

Lemma refresh_pixel_ok ps x y : covered (conf s) ps → 0 ≤ x < width (conf s) → 0 ≤ y < height (conf s) →
  ∃ ps', refresh_pixel (conf s) x y (set_pixels ps s) = Ok (tt, set_pixels ps' s) ∧ covered (conf s) ps'.
Proof.
  intros Hcov Hx Hy. unfold refresh_pixel. pose proof (rotated_px x y Hx Hy) as E. destruct (rotated (conf s) x y) as [rx ry]. cbn [fst snd] in E.
  assert (Hback : ∃ v, match canvas (conf s) with Some cv => at_index cv (u64 (u64 (y * width (conf s)) + x)) | None => mret (default_bg (conf s)) end
    (set_pixels ps s) = Ok (v, set_pixels ps s)).
  { destruct (ck_canvas _ _ _ Hk) as [->|(cv & -> & Hlen)]; [by eexists|]. destruct (ck_size _ _ _ Hk) as [Hw Hh].
    assert (0 ≤ y * width (conf s) ∧ y * width (conf s) + x < width (conf s) * height (conf s) < 2 ^ 62) by nia.
    rewrite (u64_small (y * _)), u64_small by lia. destruct (zlookup_lt cv (y * width (conf s) + x)) as [v Hv]; [lia|]. exists v. by apply at_index_ok. }
  destruct Hback as [v Ev]. rewrite (bind_ok _ _ _ _ _ Ev), E. unfold px_store. mstep. change (pixels (set_pixels ps s)) with ps.
  destruct (Hcov x y Hx Hy) as [old ->]. eexists. split; [reflexivity|]. change (pixels (set_pixels ps s)) with ps.
  intros x' y' Hx' Hy'. destruct (decide (px (conf s) x y = px (conf s) x' y')) as [->|Hne]; [rewrite lookup_insert_eq; by eexists|].
  rewrite lookup_insert_ne by done. by apply Hcov.
Qed.

Definition painted (s1 : fb) : Prop := ∃ ps, s1 = set_pixels ps s ∧ covered (conf s) ps.
Definition shown (n : Z) (s1 : fb) : Prop := ∃ ps, s1 = set_pixels ps s ∧ covered (conf s) ps ∧
  ∀ x y c, 0 ≤ x < C → 0 ≤ y < R → cell C x y < n → zlookup (grid s) (cell C x y) = Some c → shows (conf s) ps x y c.

Lemma refresh_all s1 : painted s1 →
  ∃ s2, for_loop (Z.to_nat (height (conf s))) 0 (λ y, for_loop (Z.to_nat (width (conf s))) 0 (λ x, refresh_pixel (conf s) x y)) s1 = Ok (tt, s2) ∧ painted s2.
Proof.
  intros H1. apply (for_loop_inv (λ _, painted)); [done|]. intros y s2 Hy H2.
  apply (for_loop_inv (λ _, painted)); [done|]. intros x s3 Hx (ps & -> & Hcov).
  destruct (refresh_pixel_ok ps x y Hcov) as (ps' & E & Hcov'); [lia|lia|]. exists (set_pixels ps' s). split; [done|]. by exists ps'.
Qed.

Lemma refresh_cell n s1 : 0 ≤ n < R * C → shown n s1 →
  ∃ s2, (if C =? 0 then fault else c ← grid_at n; plot_at ctx c (n `mod` C) (n / C)) s1 = Ok (tt, s2) ∧ shown (n + 1) s2.
Proof.
  intros Hn (ps & -> & Hcov & Hsh). destruct (qk_dims _ _ _ Hq) as (_ & HC & _). destruct (Z.eqb_spec C 0); [lia|].
  destruct (refresh_grid n Hn) as (_ & c & Hc & Hcb). rewrite (bind_ok _ _ _ _ _ (grid_at_ok (set_pixels ps s) n c Hc)).
  destruct (cell_of R C n HC Hn) as (Ecell & Hx & Hy).
  destruct (plot_at_ok R C (conf s) Hk ctx c _ _ (set_pixels ps s) Hg eq_refl Hcov Hcb Hx Hy) as (ps' & E & Hcov' & Hs & Hoth).
  eexists. split; [exact E|]. exists ps'. split; [done|]. split; [done|]. intros x y c' Hx' Hy' Hlt Hc'.
  destruct (decide (cell C x y = n)) as [En|Hne].
  - rewrite <-Ecell in En. apply cell_inj in En as [-> ->]; [|done|done]. rewrite Ecell in Hc'. by assert (c' = c) as -> by congruence.
  - apply Hoth; [done|done| |apply Hsh; [done|done|lia|done]]. destruct (decide (x = n `mod` C)) as [->|]; [right|by left].
    intros ->. by rewrite Ecell in Hne.
Qed.

(** A refresh of an empty queue draws every character, and the cursor. *)
Lemma full_refresh_ok : covered (conf s) (pixels s) → flush_callback s = false →
  ∃ ps, flanterm_fb_full_refresh ctx s = Ok (tt, set_pixels ps s) ∧ covered (conf s) ps ∧
    ∀ x y c, 0 ≤ x < C → 0 ≤ y < R → zlookup (grid s) (cell C x y) = Some c → shows (conf s) ps x y
      (if decide (cursor_enabled (ctx_modes ctx) = true ∧ x = cursor_x (pen s) ∧ y = cursor_y (pen s)) then invert c else c).
Proof.
  intros Hcov Hcb. destruct (qk_dims _ _ _ Hq) as (HR & HC & Hs). destruct (refresh_all s) as (s1 & E1 & ps1 & -> & Hcov1).
  { exists (pixels s). split; [by destruct s|done]. }
  destruct (for_loop_inv shown (λ i, if C =? 0 then fault else c ← grid_at i; plot_at ctx c (i `mod` C) (i / C)) (Z.to_nat (R * C)) 0 (set_pixels ps1 s))
    as (s2 & E2 & ps2 & -> & Hcov2 & Hsh2).
  { exists ps1. split; [done|]. split; [done|]. intros x y c Hx Hy Hlt. unfold cell in Hlt. nia. }
  { intros i s2 Hi. apply refresh_cell. lia. }
  unfold flanterm_fb_full_refresh, the_conf. cbv zeta. mstep. rewrite (bind_ok _ _ _ _ _ E1).
  destruct (wg_rows _ _ _ Hg) as [-> HR']. destruct (wg_cols _ _ _ Hg) as [EC HC']. rewrite EC, (u64_small (R * C)) by nia. rewrite (bind_ok _ _ _ _ _ E2).
  assert (Hall : ∀ x y c, 0 ≤ x < C → 0 ≤ y < R → zlookup (grid s) (cell C x y) = Some c → shows (conf s) ps2 x y c).
  { intros x y c Hx Hy. apply Hsh2; [done|done|]. pose proof (cell_range R C x y Hx Hy). lia. }
  assert (Hdraw : ∃ ps, when (cursor_enabled (ctx_modes ctx)) (draw_cursor ctx) (set_pixels ps2 s) = Ok (tt, set_pixels ps s) ∧ covered (conf s) ps ∧
    ∀ x y c, 0 ≤ x < C → 0 ≤ y < R → zlookup (grid s) (cell C x y) = Some c → shows (conf s) ps x y
      (if decide (cursor_enabled (ctx_modes ctx) = true ∧ x = cursor_x (pen s) ∧ y = cursor_y (pen s)) then invert c else c)).
  { destruct (cursor_enabled (ctx_modes ctx)); cbn [when]; [|exists ps2; split; [done|]; split; [done|]; intros; rewrite decide_False by (by intros [? _]); by apply Hall].
    destruct Hp as [Hpx Hpy]. unfold draw_cursor. cbv zeta. mstep. rewrite EC. destruct (wg_rows _ _ _ Hg) as [-> _].
    cbn [pen set_pixels]. set (x0 := cursor_x (pen s)) in *. set (y0 := cursor_y (pen s)) in *.
    destruct (Z.geb_spec x0 C).
    { cbn [orb]. exists ps2. split; [done|]. split; [done|]. intros x y c Hx Hy Hc. rewrite decide_False by (intros (_ & -> & _); lia). by apply Hall. }
    destruct (Z.geb_spec y0 R); [lia|]. cbn [orb]. assert (Hx : 0 ≤ x0 < C) by lia. pose proof (cell_range R C x0 y0 Hx Hpy) as Hi.
    rewrite (u64_small (y0 * C)) by nia. rewrite u64_small by (unfold cell in Hi; lia). replace (x0 + y0 * C) with (cell C x0 y0) by (unfold cell; lia).
    destruct (refresh_grid _ Hi) as (Hm & c & Hc & Hcf). rewrite (bind_ok _ _ _ _ _ (map_at_ok (set_pixels ps2 s) _ None Hm)).
    rewrite (bind_ok _ _ (set_pixels ps2 s) c (set_pixels ps2 s)) by (apply cell_char_ok; unfold logical; cbn; by rewrite Hm).
    destruct (plot_at_ok R C (conf s) Hk ctx (invert c) _ _ (set_pixels ps2 s) Hg eq_refl Hcov2 Hcf Hx Hpy) as (ps & E & Hcov3 & Hsh & Hoth).
    rewrite (bind_ok _ _ _ _ _ E). exists ps. split; [done|]. split; [done|]. intros x y c' Hx' Hy' Hc'. case_decide as Hd.
    - destruct Hd as (_ & -> & ->). by assert (c' = c) as -> by congruence.
    - apply Hoth; [done|done|lia|]. by apply Hall. }
  destruct Hdraw as (ps & E & Hcov3 & Hsh). rewrite (bind_ok _ _ _ _ _ E). exists ps. split; [|done].
  unfold call_flush, modify. cbn. by rewrite Hcb.
Qed.
End refresh.

(** ** The font *)

Section font.
Context (bits : list Z) (fw fh : Z) (Hfw : 8 ≤ fw) (Hfh : 0 < fh) (Hsize : 256 * (fh * fw) < 2 ^ 63) (Hbits : 256 * fh ≤ Z.of_nat (length bits)).
Let offset (i y x : Z) : Z := i * fh * fw + y * fw + x.

(** The bits before [n] have been stored. *)
Definition expanded (n : Z) (m : gmap Z bool) : Prop :=
  ∀ i y x, 0 ≤ i < 256 → 0 ≤ y < fh → 0 ≤ x < fw → offset i y x < n → m !! offset i y x = font_bit bits fh i y x.

Lemma offset_bound i y x : 0 ≤ i < 256 → 0 ≤ y < fh → 0 ≤ x < fw → 0 ≤ i * fh * fw ∧ 0 ≤ y * fw ∧ offset i y x < 256 * fh * fw.
Proof. 
  intros Hi Hy Hx. unfold offset. assert ((y + 1) * fw ≤ fh * fw) by (apply Z.mul_le_mono_nonneg_r; lia).
  assert (0 < fh * fw) by nia. assert (0 ≤ i * (fh * fw) ≤ 255 * (fh * fw)) by (split; [nia|apply Z.mul_le_mono_nonneg_r; lia]).
  assert (0 ≤ y * fw) by nia. rewrite <-!Z.mul_assoc. lia.
Qed.

Lemma font_store_ok i y x m : 0 ≤ i < 256 → 0 ≤ y < fh → 0 ≤ x < fw → expanded (offset i y x) m →
  ∃ m', font_store bits (256 * fh * fw) fw fh i y x m = Ok (tt, m') ∧ expanded (offset i y x + 1) m'.
Proof.
  intros Hi Hy Hx Hm. destruct (offset_bound i y x Hi Hy Hx) as (H1 & H2 & H3). unfold font_store. cbv zeta.
  assert (0 ≤ i * fh ≤ i * fh * fw) by nia. unfold offset in H3. rewrite (u64_small (i * fh)) by lia. rewrite (u64_small (i * fh * fw)), (u64_small (y * fw)) by lia.
  rewrite (u64_small (i * fh * fw + y * fw)), (u64_small (i * fh * fw + y * fw + x)) by lia. fold (offset i y x).
  assert (Hb : ∃ b, font_bit bits fh i y x = Some b).
  { unfold font_bit. destruct (zlookup_lt bits (i * fh + y)) as [row ->]; [nia|]. by eexists. }
  destruct Hb as [b Eb]. rewrite Eb. destruct (Z.ltb_spec (offset i y x) (256 * fh * fw)); [|unfold offset in *; lia].
  eexists. split; [reflexivity|]. intros i' y' x' Hi' Hy' Hx' Hlt. destruct (decide (offset i y x = offset i' y' x')) as [E|Hne].
  - rewrite <-E, lookup_insert_eq. unfold offset in E.
    destruct (strided (y * fw + x) (y' * fw + x') i i' (fh * fw)) as [E1 ->]; [split; [nia|nia]|split; [nia|nia]|nia|].
    by destruct (strided x x' y y' fw) as [-> ->]; [lia|lia|lia|].
  - rewrite lookup_insert_ne by done. apply Hm; [done|done|done|lia].
Qed.

Lemma font_row i y m : 0 ≤ i < 256 → 0 ≤ y < fh → expanded (offset i y 0) m →
  ∃ m', (for_loop 8 0 (font_store bits (256 * fh * fw) fw fh i y);; for_loop (Z.to_nat (fw - 8)) 8 (font_store bits (256 * fh * fw) fw fh i y)) m
    = Ok (tt, m') ∧ expanded (offset i (y + 1) 0) m'.
Proof.
  intros Hi Hy Hm.
  assert (Hstep : ∀ x m, 0 ≤ x < fw → expanded (offset i y x) m →
    ∃ m', font_store bits (256 * fh * fw) fw fh i y x m = Ok (tt, m') ∧ expanded (offset i y (x + 1)) m').
  { intros x m1 Hx H1. destruct (font_store_ok i y x m1 Hi Hy Hx H1) as (m2 & E & H2). exists m2. split; [done|].
    by replace (offset i y (x + 1)) with (offset i y x + 1) by (unfold offset; lia). }
  destruct (for_loop_inv (λ x, expanded (offset i y x)) (font_store bits (256 * fh * fw) fw fh i y) 8 0 m Hm) as (m1 & E1 & H1).
  { intros x m1 Hx. apply Hstep. lia. }
  destruct (for_loop_inv (λ x, expanded (offset i y x)) (font_store bits (256 * fh * fw) fw fh i y) (Z.to_nat (fw - 8)) 8 m1 H1) as (m2 & E2 & H2).
  { intros x m2 Hx. apply Hstep. lia. }
  exists m2. rewrite (bind_ok _ _ _ _ _ E1). split; [done|]. replace (offset i (y + 1) 0) with (offset i y (8 + Z.of_nat (Z.to_nat (fw - 8)))); [done|].
  unfold offset. lia.
Qed.

(** Every bit of every glyph is where the drawing functions look for it. *)
Lemma expand_font_ok : ∃ m, expand_font bits (256 * fh * fw) fw fh ∅ = Ok (tt, m) ∧
  ∀ i y x, 0 ≤ i < 256 → 0 ≤ y < fh → 0 ≤ x < fw → m !! (i * fh * fw + y * fw + x) = font_bit bits fh i y x ∧ is_Some (font_bit bits fh i y x).
Proof.
  unfold expand_font. edestruct (for_loop_inv (λ i, expanded (offset i 0 0))) as (m & E & H); [| |exists m; split; [exact E|]].
  - intros i y x Hi Hy Hx. unfold offset. assert (0 ≤ i * fh) by nia. nia.
  - intros i m Hi Hm. edestruct (for_loop_inv (λ y, expanded (offset i y 0))) as (m1 & E1 & H1); [exact Hm| |exists m1; split; [exact E1|]].
    + intros y m1 Hy H1. apply font_row; [unfold FLANTERM_FB_FONT_GLYPHS in *; lia|lia|exact H1].
    + cbn beta in H1. replace (offset (i + 1) 0 0) with (offset i (0 + Z.of_nat (Z.to_nat fh)) 0); [done|]. unfold offset. lia.
  - intros i y x Hi Hy Hx. split.
    + apply H; [done|done|done|]. destruct (offset_bound i y x Hi Hy Hx) as (_ & _ & Hlt).
      replace (0 + Z.of_nat (Z.to_nat FLANTERM_FB_FONT_GLYPHS)) with 256 by done. unfold offset in *. lia.
    + unfold font_bit. destruct (zlookup_lt bits (i * fh + y)) as [row ->]; [nia|]. by eexists.
Qed.
End font.

(** ** The pool *)

(** What has been used of the pool, with what the alignment of its start takes *)
Definition used (b : bump_state) : Z := bump_alloc_ptr b + (if bump_alloc_base_offset_added b then 0 else 15).

Lemma land_15 s : 0 ≤ s → s + 16 < 2 ^ 64 →
  s ≤ (if negb (Z.land s 0xf =? 0) then Z.land (u64 (s + 0x10)) (u64 (Z.lnot 0xf)) else s) ≤ s + 15.
Proof.
  intros Hs Hlt. rewrite (land_ones_mod s 4 ltac:(lia) : Z.land s 0xf = s `mod` 2 ^ 4).
  destruct (Z.eqb_spec (s `mod` 2 ^ 4) 0) as [|Hne]; cbn [negb]; [lia|].
  rewrite u64_small by lia.
  assert (E : Z.land (s + 16) (u64 (Z.lnot 15)) = Z.land (s + 16) (Z.lnot (2 ^ 4 - 1))).
  { unfold u64. rewrite <-(Z.land_ones (Z.lnot 15) 64) by lia. rewrite (Z.land_comm (Z.lnot 15)), Z.land_assoc.
    rewrite (Z.land_ones (s + 16) 64) by lia. by rewrite (Z.mod_small (s + 16)) by lia. }
  rewrite E, land_lnot_ones by lia. pose proof (Z.div_mod (s + 16) (2 ^ 4) ltac:(lia)). pose proof (Z.mod_pos_bound s (2 ^ 4) ltac:(lia)).
  assert (Em : (s + 16) `mod` 2 ^ 4 = s `mod` 2 ^ 4) by (change (2 ^ 4) with 16; replace (s + 16) with (s + 1 * 16) by lia; by rewrite Z_mod_plus_full).
  rewrite Em in *. change (2 ^ 4) with 16 in *. lia.
Qed.

Lemma bump_alloc_ok pool s b : 0 < pool → pool + FLANTERM_FB_BUMP_ALLOC_POOL_SIZE < 2 ^ 64 → 0 ≤ bump_alloc_ptr b → 0 ≤ s →
  used b + s + 15 ≤ FLANTERM_FB_BUMP_ALLOC_POOL_SIZE →
  ∃ a b', bump_alloc pool s b = (a, b') ∧ pool ≤ a ∧ a + s ≤ pool + FLANTERM_FB_BUMP_ALLOC_POOL_SIZE ∧ 0 ≤ bump_alloc_ptr b' ∧ used b' ≤ used b + s + 15 ∧
    bump_alloc_base_offset_added b' = true ∧ bump_allocated_instance b' = bump_allocated_instance b.
Proof.
  intros Hpool Hend Hptr Hs Hroom. unfold FLANTERM_FB_BUMP_ALLOC_POOL_SIZE in *. unfold used in *. unfold bump_alloc.
  set (ptr := if bump_alloc_base_offset_added b then _ else _). cbv zeta.
  assert (Hp : 0 ≤ ptr ≤ bump_alloc_ptr b + (if bump_alloc_base_offset_added b then 0 else 15)).
  { unfold ptr. destruct (bump_alloc_base_offset_added b); [lia|]. change 0xf with (2 ^ 4 - 1). rewrite (land_ones_mod pool 4) by lia.
    pose proof (Z.mod_pos_bound pool (2 ^ 4) ltac:(lia)). destruct (Z.eqb_spec (pool `mod` 2 ^ 4) 0); cbn [negb]; [lia|]. rewrite u64_small by lia. lia. }
  pose proof (land_15 s Hs ltac:(lia)) as Hr. set (r := if negb (Z.land s 0xf =? 0) then _ else s) in *. rewrite u64_small by lia.
  unfold FLANTERM_FB_BUMP_ALLOC_POOL_SIZE. destruct (Z.gtb_spec (ptr + r) 873000); [lia|]. eexists _, _. split; [reflexivity|]. cbn. splits; lia || done.
Qed.

(** The set-up has used at most [n] bytes of the pool. *)
Definition pool_used (n : Z) (s : setup) : Prop :=
  0 ≤ bump_alloc_ptr (su_bump s) ∧ used (su_bump s) ≤ n ∧ bump_allocated_instance (su_bump s) = false.

Lemma allocate_ok pool size n s : 0 < pool → pool + FLANTERM_FB_BUMP_ALLOC_POOL_SIZE < 2 ^ 64 → 0 ≤ size →
  n + size + 15 ≤ FLANTERM_FB_BUMP_ALLOC_POOL_SIZE → pool_used n s →
  ∃ a s', allocate pool None size s = Ok (Some a, s') ∧ pool_used (n + size + 15) s'.
Proof.
  intros Hpool Hend Hs Hn (Hptr & Hu & Hi). destruct (bump_alloc_ok pool size (su_bump s)) as (a & b & E & Ha & _ & Hptr' & Hu' & _ & Hi'); try done; [lia|].
  unfold allocate. rewrite E. destruct (Z.eqb_spec a 0); [lia|]. eexists _, _. split; [reflexivity|]. split; [done|]. cbn. split; [lia|]. by rewrite Hi'.
Qed.

Lemma step_ok {A X} (m : M setup (option A)) (k : A → M setup (option X)) s a s1 : m s = Ok (Some a, s1) → step m k s = k a s1.
Proof. intros E. unfold step. by rewrite (bind_ok _ _ _ _ _ E). Qed.
Lemma mul_size_small a b : 0 ≤ a → 0 ≤ b → a * b < 2 ^ 64 → mul_size_overflow a b = Some (a * b).
Proof.
  intros Ha Hb Hab. unfold mul_size_overflow, SIZE_MAX. rewrite (u64_small (a * b)) by nia. destruct (Z.eqb_spec a 0); [done|]. cbn [negb andb].
  destruct (Z.gtb_spec b (u64 (-1) / a)) as [Hgt|]; [|done]. exfalso. change (u64 (-1)) with (2 ^ 64 - 1) in Hgt.
  assert (2 ^ 64 - 1 < a * b); [|lia]. apply Z.lt_nge. intros Hle. assert (b ≤ (2 ^ 64 - 1) / a); [|lia]. apply Z.div_le_lower_bound; lia.
Qed.
Lemma need_ok {A X} (o : option A) (k : A → M setup (option X)) s x : o = Some x → step (need o) k s = k x s.
Proof. intros ->. done. Qed.
Lemma check_ok {X} b (k : unit → M setup (option X)) s : b = true → step (check b) k s = k tt s.
Proof. intros ->. done. Qed.

(** ** The colours *)

Lemma convert_colours_ok {S} k l (s : S) : red_mask_size k ≤ 16 ∧ green_mask_size k ≤ 16 ∧ blue_mask_size k ≤ 16 →
  ∃ l', convert_colours k l s = Ok (l', s) ∧ length l' = length l.
Proof.
  intros Hk. induction l as [|v l IH]; cbn [convert_colours]; [by exists []|]. destruct (convert_ok k v s Hk) as (r & E & _).
  rewrite (bind_ok _ _ _ _ _ E). destruct IH as (l' & E' & Hl). rewrite (bind_ok _ _ _ _ _ E'). eexists. split; [reflexivity|]. cbn. lia.
Qed.
Lemma palette_built a s : red_mask_size (a_masks a) ≤ 16 ∧ green_mask_size (a_masks a) ≤ 16 ∧ blue_mask_size (a_masks a) ≤ 16 →
  a_ansi_colours a = None → a_ansi_bright_colours a = None →
  ∃ pa, fb_palette a s = Ok (pa, s) ∧ length (pa_colours pa) = 8%nat ∧ length (pa_bright pa) = 8%nat.
Proof.
  intros Hk E1 E2. unfold fb_palette. rewrite E1, E2. cbn [eight]. set (k := stored_masks (a_masks a)).
  rewrite (bind_ok _ _ _ _ _ (ret_eq _ _)). destruct (convert_colours_ok k standard_colours s Hk) as (cs & Ec & Hcs). rewrite (bind_ok _ _ _ _ _ Ec).
  rewrite (bind_ok _ _ _ _ _ (ret_eq _ _)). destruct (convert_colours_ok k standard_bright s Hk) as (bs & Eb & Hbs). rewrite (bind_ok _ _ _ _ _ Eb).
  assert (Hbg : ∃ v, match a_default_bg a with Some v => convert_colour k v | None => mret 0 end s = Ok (v, s)).
  { destruct (a_default_bg a) as [v|]; [|by eexists]. destruct (convert_ok k v s Hk) as (r & E & _). by exists r. }
  destruct Hbg as [bg Ebg]. rewrite (bind_ok _ _ _ _ _ Ebg).
  do 3 match goal with |- context [convert_colour k ?v] => let E := fresh in destruct (convert_ok k v s Hk) as (? & E & _); rewrite (bind_ok _ _ _ _ _ E); clear E end.
  eexists. split; [reflexivity|]. by split.
Qed.

(** ** The screen *)

Lemma limits : bump_pool_limits = Ok (1920, 1200).
Proof. vm_compute. reflexivity. Qed.

Lemma font_scale_small w h : 9 ≤ w → 16 ≤ h → ∃ sc, font_scale w h 0 0 = (sc, sc) ∧ (sc = 1 ∨ sc = 2 ∧ 2560 ≤ w ∧ 1440 ≤ h ∨ sc = 4 ∧ 5120 ≤ w ∧ 2880 ≤ h).
Proof.
  intros Hw Hh. unfold font_scale. cbn [Z.eqb orb]. change (3840 + 3840 / 3) with 5120. change (2160 + 2160 / 3) with 2880.
  change (1920 + 1920 / 3) with 2560. change (1080 + 1080 / 3) with 1440.
  destruct (Z.geb_spec w 5120), (Z.geb_spec h 2880); cbn [andb]; [exists 4; split; [done|lia]|..];
    destruct (Z.geb_spec w 2560), (Z.geb_spec h 1440); cbn [andb]; (exists 2; split; [done|lia]) || (exists 1; split; [done|lia]).
Qed.

(** The part of the framebuffer in the middle that the pool allows *)
Definition centred (w h stride w' h' first : Z) : Prop :=
  w' = Z.min w 1920 ∧ h' = Z.min h 1200 ∧ first = (h / 2 - h' / 2) * stride + (w / 2 - w' / 2).

Lemma limit_screen_ok w h s : 0 < w < 2 ^ 31 → 0 < h < 2 ^ 31 → w ≤ s < 2 ^ 31 →
  ∃ first w' h', limit_screen 0 (4 * s) w h h = Ok (first, w', h', h') ∧ centred w h s w' h' first.
Proof.
  intros Hw Hh Hs. unfold limit_screen. rewrite limits. cbn [quarter_turn orb Z.eqb FLANTERM_FB_ROTATE_90 FLANTERM_FB_ROTATE_270].
  change (quarter_turn 0) with false. cbv iota.
  assert (Hw' : (if w >? 1920 then 1920 else w) = Z.min w 1920) by (destruct (Z.gtb_spec w 1920); lia).
  assert (Hh' : (if h >? 1200 then 1200 else h) = Z.min h 1200) by (destruct (Z.gtb_spec h 1200); lia).
  destruct ((w >? 1920) || (h >? 1200)) eqn:E.
  - rewrite Hw', Hh'. cbv zeta. eexists _, _, _. split; [reflexivity|]. split; [done|]. split; [done|].
    set (dy := h / 2 - Z.min h 1200 / 2). set (dx := w / 2 - Z.min w 1920 / 2).
    assert (0 ≤ dy < 2 ^ 30) by (unfold dy; zdiv; lia). assert (0 ≤ dx < 2 ^ 30) by (unfold dx; zdiv; lia).
    assert (0 ≤ dy * s < 2 ^ 61) by nia. rewrite (u64_small (dy * (4 * s))), (u64_small (dx * 4)) by lia. rewrite u64_small by lia.
    replace (dy * (4 * s) + dx * 4) with ((dy * s + dx) * 4) by lia. by rewrite Z.div_mul.
  - apply orb_false_iff in E as [E1 E2]. destruct (Z.gtb_spec w 1920); [done|]. destruct (Z.gtb_spec h 1200); [done|].
    exists 0, w, h. split; [done|]. split; [lia|]. split; [lia|]. lia.
Qed.

Lemma centred_inside w h s w' h' first x y : 0 < w → 0 < h → centred w h s w' h' first → 0 ≤ x < w' → 0 ≤ y < h' →
  ∃ x' y', 0 ≤ x' < w ∧ 0 ≤ y' < h ∧ first + x + y * s = y' * s + x'.
Proof.
  intros Hw Hh (-> & -> & ->) Hx Hy. exists (w / 2 - Z.min w 1920 / 2 + x), (h / 2 - Z.min h 1200 / 2 + y). splits; try (zdiv; lia).
Qed.

(** ** The first picture *)

Lemma zlookup_replicate {A} (x : A) n i : 0 ≤ i < Z.of_nat n → zlookup (replicate n x) i = Some x.
Proof. intros Hi. unfold zlookup. destruct (Z.ltb_spec i 0); [lia|]. apply lookup_replicate_2. lia. Qed.

(** The abstract screen that the terminal starts with *)
Definition blank_screen (s : fb) : screen := mkScreen (conf s) (pen s) (saved_pen s) (replicate (length (grid s)) (blank (pen s) 0x20)).

Lemma first_picture R C ctx s : wf_geom R C (ctx_geom ctx) → R * C < 2 ^ 62 → conf_ok R C (conf s) → covered (conf s) (pixels s) →
  s = mkFb (conf s) (pen s) (pen s) (replicate (Z.to_nat (R * C)) (blank (pen s) 0x20)) (replicate (Z.to_nat (R * C)) (mkItem 0 0 null_char)) 0
        (replicate (Z.to_nat (R * C)) None) 0 0 (pixels s) false [] (bump s) [] → cursor_x (pen s) = 0 → cursor_y (pen s) = 0 →
  ∃ s', flanterm_fb_full_refresh ctx s = Ok (tt, s') ∧ refines R C s' (blank_screen s') ∧ displays R C ctx s' (blank_screen s') ∧ conf s' = conf s ∧ pen s' = pen s.
Proof.
  intros Hg Hs Hk Hcov Es Hx Hy. destruct (wg_rows _ _ _ Hg) as [_ HR]. destruct (wg_cols _ _ _ Hg) as [_ HC].
  assert (Hgrid : grid s = replicate (Z.to_nat (R * C)) (blank (pen s) 0x20)) by (by rewrite Es). 
  assert (Hqu : queue s = replicate (Z.to_nat (R * C)) (mkItem 0 0 null_char)) by (by rewrite Es).
  assert (Hmap : queue_map s = replicate (Z.to_nat (R * C)) None) by (by rewrite Es).
  assert (Hqi : queue_i s = 0) by (by rewrite Es). assert (Hn : 0 ≤ R * C) by lia.
  assert (Hq : queue_ok R C s).
  { split; rewrite ?Hgrid, ?Hmap, ?Hqu, ?Hqi, ?length_replicate; try lia.
    intros i n Hi. assert (0 ≤ i < Z.of_nat (Z.to_nat (R * C))) as Hi'. { rewrite <-(length_replicate (Z.to_nat (R * C)) (@None Z)). by eapply zlookup_Some_bounds. }
    by rewrite zlookup_replicate in Hi. }
  assert (Hb : bytes (grid s)) by (rewrite Hgrid; by apply Forall_replicate).
  assert (Hp : pen_ok R C (pen s)) by (split; lia).
  destruct (full_refresh_ok R C ctx Hg s Hk Hq Hb Hp Hqi Hcov) as (ps & E & Hcov' & Hsh); [by rewrite Es|].
  assert (Hcell : ∀ x y, 0 ≤ x < C → 0 ≤ y < R → zlookup (grid s) (cell C x y) = Some (blank (pen s) 0x20)).
  { intros x y Hx' Hy'. rewrite Hgrid. apply zlookup_replicate. pose proof (cell_range R C x y Hx' Hy'). lia. }
  exists (set_pixels ps s). split; [exact E|].
  assert (Hcells : ∀ i, 0 ≤ i < R * C → at_cell (sc_cells (blank_screen (set_pixels ps s))) i = blank (pen s) 0x20).
  { intros i Hi. unfold blank_screen, at_cell. cbn [sc_cells grid set_pixels pen]. rewrite Hgrid, length_replicate. by rewrite zlookup_replicate by lia. }
  assert (Hold : old_cursor_x s = 0 ∧ old_cursor_y s = 0) by (by rewrite Es).
  split; [|split; [|done]].
  - split; try done.
    + split; [done|]. cbn. by rewrite Es.
    + split; [done|done|done| |cbn; lia]. intros x y c Hx' Hy' Hne Hc. pose proof (Hsh x y c Hx' Hy' Hc) as Hs'. rewrite decide_False in Hs'; [exact Hs'|]. cbn in Hne. lia.
    + by destruct Hq; split.
    + unfold blank_screen. cbn [sc_cells grid set_pixels pen]. rewrite Hgrid, !length_replicate. lia.
    + cbn. by apply Forall_replicate.
    + intros i Hi. rewrite Hcells by done. exists (blank (pen s) 0x20). split; [|done]. unfold logical. cbn [queue_map set_pixels grid queue].
      rewrite Hmap, Hgrid, !zlookup_replicate by lia. done.
  - intros x y Hx' Hy'. rewrite Hcells by (by apply cell_range). cbn. apply Hsh; auto.
Qed.

(** ** The kernel's terminal *)

Section kernel.
Context (pool w h s : Z) (k : masks).
Context (Hpool : 0 < pool ∧ pool + FLANTERM_FB_BUMP_ALLOC_POOL_SIZE < 2 ^ 64).
Context (Hw : 9 ≤ w < 2 ^ 31) (Hh : 16 ≤ h < 2 ^ 31) (Hs : w ≤ s < 2 ^ 31) (Hmasks : masks_ok k = true) (Hwide : red_mask_size k ≤ 16).

Definition kernel_args : fb_args :=
  mkFbArgs pool None false w h (4 * s) k None None None (Some 0x00282828) (Some 0x00ebdbb2) None None None 0 0 1 0 0 0 FLANTERM_FB_ROTATE_0.

(** The scale, as the screen's size allows it *)
Definition scaled (sc w' h' : Z) : Prop := (sc = 1 ∨ sc = 2 ∨ sc = 4) ∧ 9 * sc ≤ w' ≤ 1920 ∧ 16 * sc ≤ h' ≤ 1200.

Lemma part_ok n st : pool_used n st →
  ∃ first w' h' sc, fb_part kernel_args st = Ok (Some (mkPart first w' h' h' sc sc None), st) ∧ centred w h s w' h' first ∧ scaled sc w' h'.
Proof.
  intros (_ & _ & Hfree). unfold fb_part, kernel_args. cbn [a_pitch a_width a_height a_rotation a_font_scale_x a_font_scale_y a_masks a_malloc].
  rewrite check_ok by (apply Z.eqb_eq; rewrite Z.mul_comm; apply Z.mod_mul; lia).
  rewrite (need_ok _ _ _ (w * 4)) by (apply mul_size_small; lia).
  rewrite check_ok by (apply negb_true_iff, Z.ltb_ge; lia). change (quarter_turn FLANTERM_FB_ROTATE_0) with false. cbv iota.
  destruct (font_scale_small w h) as (sc & -> & Hsc); [lia|lia|]. rewrite check_ok by done.
  rewrite (bind_ok (gets _) _ st false st) by (unfold gets; by rewrite Hfree). rewrite check_ok by done.
  destruct (limit_screen_ok w h s) as (first & w' & h' & E & Hc); [lia|lia|lia|].
  rewrite (bind_ok (lift _) _ st (first, w', h', h') st) by (unfold lift; change FLANTERM_FB_ROTATE_0 with 0; by rewrite E).
  exists first, w', h', sc. split; [done|]. split; [done|].
  destruct Hc as (-> & -> & _). unfold scaled. lia.
Qed.

Lemma font_ok n st : pool_used n st → n + 40990 ≤ FLANTERM_FB_BUMP_ALLOC_POOL_SIZE →
  ∃ m st', fb_font kernel_args st = Ok (Some (mkFont 9 16 4096 builtin_font 36864 m), st') ∧ pool_used (n + 40990) st' ∧
    ∀ i y x, 0 ≤ i < 256 → 0 ≤ y < 16 → 0 ≤ x < 9 → m !! (i * 16 * 9 + y * 9 + x) = font_bit builtin_font 16 i y x ∧ is_Some (font_bit builtin_font 16 i y x).
Proof.
  intros Hn Hroom. destruct Hpool as [Hp1 Hp2]. destruct (allocate_ok pool 4096 n st) as (a1 & st1 & E1 & H1); [lia..|done|].
  destruct (allocate_ok pool 36864 (n + 4096 + 15) st1) as (a2 & st2 & E2 & H2); [lia..|done|].
  destruct (expand_font_ok builtin_font 9 16) as (m & E & Hm); [lia|lia|lia|done|]. exists m, st2.
  unfold fb_font, font_source. cbn [kernel_args a_font a_pool a_malloc].
  rewrite (step_ok _ _ st (9 - 1, 16, 1, 4096, builtin_font) st1) by (by rewrite (step_ok _ _ _ _ _ E1)).
  rewrite check_ok by done. change (u64 (9 - 1 + 1)) with 9.
  rewrite (need_ok _ _ _ 4096) by done. rewrite (need_ok _ _ _ 36864) by done. rewrite (need_ok _ _ _ 36864) by done. rewrite (step_ok _ _ _ _ _ E2).
  change (256 * 16 * 9) with 36864 in E. rewrite (bind_ok (lift _) _ st2 (tt, m) st2) by (unfold lift; by rewrite E). split; [done|]. split; [|exact Hm].
  by replace (n + 40990) with (n + 4096 + 15 + 36864 + 15) by lia.
Qed.

Lemma fb_layout_ok first w' h' sc f st : scaled sc w' h' → f_width f = 9 → f_height f = 16 →
  fb_layout kernel_args (mkPart first w' h' h' sc sc None) f st =
    Ok (Some (mkLayout (9 * sc) (16 * sc) (w' / (9 * sc)) (h' / (16 * sc)) (w' `mod` (9 * sc) / 2) (h' `mod` (16 * sc) / 2)), st).
Proof.
  intros (Hsc & Hw' & Hh') Efw Efh. unfold fb_layout. rewrite Efw, Efh. cbn [sp_scale_x sp_scale_y sp_width sp_height kernel_args a_margin].
  rewrite (need_ok _ _ _ (9 * sc)) by (apply mul_size_small; lia). rewrite (need_ok _ _ _ (16 * sc)) by (apply mul_size_small; lia).
  rewrite check_ok by (destruct (Z.eqb_spec (9 * sc) 0); [lia|]; destruct (Z.eqb_spec (16 * sc) 0); [lia|done]).
  rewrite check_ok.
  2:{ change (u64 (0 * 2)) with 0. change (0 >? SIZE_MAX / 2) with false. destruct (Z.geb_spec 0 w'); [lia|]. by destruct (Z.geb_spec 0 h'); [lia|]. }
  cbv zeta. change (u64 (0 * 2)) with 0. rewrite !Z.sub_0_r, !Z.add_0_l.
  assert (1 ≤ w' / (9 * sc)) by (apply Z.div_le_lower_bound; lia). assert (1 ≤ h' / (16 * sc)) by (apply Z.div_le_lower_bound; lia).
  rewrite check_ok by (destruct (Z.eqb_spec (w' / (9 * sc)) 0); [lia|]; destruct (Z.eqb_spec (h' / (16 * sc)) 0); [lia|done]).
  pose proof (Z.mod_pos_bound w' (9 * sc) ltac:(lia)). pose proof (Z.mod_pos_bound h' (16 * sc) ltac:(lia)).
  rewrite !u64_small by (zdiv; lia). done.
Qed.

Lemma cells_limit sc w' h' : scaled sc w' h' →
  1 ≤ w' / (9 * sc) ≤ 213 ∧ 1 ≤ h' / (16 * sc) ≤ 75 ∧ 1 ≤ h' / (16 * sc) * (w' / (9 * sc)) ≤ 15975.
Proof.
  intros (Hsc & Hw' & Hh'). assert (1 ≤ w' / (9 * sc) ≤ 213). { split; [apply Z.div_le_lower_bound; lia|]. apply Z.lt_succ_r, Z.div_lt_upper_bound; lia. }
  assert (1 ≤ h' / (16 * sc) ≤ 75). { split; [apply Z.div_le_lower_bound; lia|]. apply Z.lt_succ_r, Z.div_lt_upper_bound; lia. }
  split; [done|]. split; [done|]. nia.
Qed.

Lemma array_ok rows cols each n st : 1 ≤ rows * cols ≤ 15975 → 0 < rows → 0 < cols → 0 < each ≤ 32 → pool_used n st →
  n + rows * cols * each + 15 ≤ FLANTERM_FB_BUMP_ALLOC_POOL_SIZE →
  ∃ size st', fb_array kernel_args rows cols each st = Ok (Some size, st') ∧ pool_used (n + rows * cols * each + 15) st'.
Proof.
  intros Hn Hr Hc He Hu Hroom. destruct Hpool as [Hp1 Hp2]. assert (0 ≤ rows * cols * each ≤ 15975 * 32) by nia.
  destruct (allocate_ok pool (rows * cols * each) n st) as (a1 & st1 & E1 & H1); [lia..|done|]. unfold fb_array. cbn [kernel_args a_pool a_malloc].
  rewrite (need_ok _ _ _ (rows * cols)) by (apply mul_size_small; lia). rewrite (need_ok _ _ _ (rows * cols * each)) by (apply mul_size_small; lia).
  rewrite (step_ok _ _ _ _ _ E1). by eexists _, st1.
Qed.

Lemma half_le r : 0 ≤ r → 0 ≤ r / 2 ≤ r.
Proof. intros. zdiv. Qed.
Lemma kernel_conf first w' h' sc pa f la gs qs ms addrs (R := h' / (16 * sc)) (C := w' / (9 * sc)) m :
  centred w h s w' h' first → scaled sc w' h' → length (pa_colours pa) = 8%nat → length (pa_bright pa) = 8%nat →
  (∀ i y x, 0 ≤ i < 256 → 0 ≤ y < 16 → 0 ≤ x < 9 → is_Some (m !! (i * 16 * 9 + y * 9 + x))) →
  la = mkLayout (9 * sc) (16 * sc) C R (w' `mod` (9 * sc) / 2) (h' `mod` (16 * sc) / 2) → f = mkFont 9 16 4096 builtin_font 36864 m →
  conf_ok R C (mkFbConf (f_width f) (f_height f) (la_glyph_width la) (la_glyph_height la) sc sc
             (la_offset_x la) (la_offset_y la) first (4 * s) w' h' h' (stored_masks k) FLANTERM_FB_ROTATE_0 (f_bits_size f) (f_bits f) (f_bool_size f) (f_bool f)
             (pa_colours pa) (pa_bright pa) (pa_fg pa) (pa_bg pa) (pa_fg_bright pa) (pa_bg_bright pa)
             0 None gs qs ms (choose_plot sc sc None) addrs).
Proof.
  intros (Ew & Eh & Efirst) (Hsc & Hw' & Hh') Hc Hb Hm -> ->. 
  pose proof (Z.div_mod w' (9 * sc) ltac:(lia)). pose proof (Z.mod_pos_bound w' (9 * sc) ltac:(lia)).
  pose proof (Z.div_mod h' (16 * sc) ltac:(lia)). pose proof (Z.mod_pos_bound h' (16 * sc) ltac:(lia)).
  assert (Hst : 4 * s / 4 = s) by (rewrite Z.mul_comm; by apply Z.div_mul).
  unfold masks_ok in Hmasks. apply andb_true_iff in Hmasks as [Hm1 _]. apply negb_true_iff, orb_false_iff in Hm1 as [Hm1 E2%negb_false_iff%Z.eqb_eq].
  apply orb_false_iff in Hm1 as [_ E1%negb_false_iff%Z.eqb_eq].
  split; cbn [pitch width height rotation font_width font_height font_scale_x font_scale_y glyph_width glyph_height font_bool offset_x offset_y ansi_colours
    ansi_bright_colours colour_masks canvas plot_char f_width f_height f_bool la_glyph_width la_glyph_height la_offset_x la_offset_y].
  - unfold stride. cbn [pitch]. lia.
  - lia.
  - unfold stride. cbn. lia.
  - lia.
  - lia.
  - lia.
  - intros c row col ? ? ?. unfold glyph_index. cbn. by apply Hm.
  - pose proof (half_le (w' `mod` (9 * sc)) ltac:(lia)). unfold C. lia.
  - pose proof (half_le (h' `mod` (16 * sc)) ltac:(lia)). unfold R. lia.
  - done.
  - cbn. lia.
  - by left.
  - unfold choose_plot. by destruct Hsc as [->|[->| ->]].
Qed.

Lemma kernel_covered first w' h' (K : fb_conf) screen : centred w h s w' h' first → width K = w' → height K = h' → framebuffer K = first →
  pitch K = 4 * s → rotation K = 0 → (∀ x y, 0 ≤ x < w → 0 ≤ y < h → is_Some (screen !! (y * s + x))) → covered K screen.
Proof.
  intros Hc <- <- <- Ep Er Hscreen x y Hx Hy. destruct (centred_inside w h s _ _ _ x y ltac:(lia) ltac:(lia) Hc Hx Hy) as (x' & y' & Hx' & Hy' & E).
  unfold px. rewrite Er. change (0 =? FLANTERM_FB_ROTATE_90) with false. change (0 =? FLANTERM_FB_ROTATE_180) with false.
  change (0 =? FLANTERM_FB_ROTATE_270) with false. cbv iota. unfold stride. rewrite Ep.
  replace (4 * s / 4) with s by (rewrite Z.mul_comm; symmetry; by apply Z.div_mul). rewrite E. by apply Hscreen.
Qed.

Lemma kernel_context R C : 0 < R < 2 ^ 32 → 0 < C < 2 ^ 32 → wf R C (flanterm_context_reinit (zero_context R C)).
Proof.
  intros HR HC. split; cbn.
  - done.
  - assert (H32 : Forall (fits 32) (replicate 16 0)) by (apply Forall_replicate; by split).
    assert (H8 : Forall (fits 8) (replicate 256 0)) by (apply Forall_replicate; by split).
    split; cbn; try lia; try done; by split.
  - apply wf_reset.
  - apply wf_reset.
  - split; cbn; [done|done|lia|by split; split].
  - done.
Qed.

Lemma built (screen : gmap Z Z) : (∀ x y, 0 ≤ x < w → 0 ≤ y < h → is_Some (screen !! (y * s + x))) →
  ∃ c t st R C, fb_build kernel_args screen (mkSetup (mkBump 0 false false) 0 [] []) = Ok (Some (c, t), st) ∧ 1 ≤ R ≤ 75 ∧ 1 ≤ C ≤ 213 ∧
    c = flanterm_context_reinit (zero_context R C) ∧ cursor_x (pen t) = 0 ∧ cursor_y (pen t) = 0 ∧ wf R C c ∧ refines R C t (blank_screen t) ∧ displays R C c t (blank_screen t).
Proof.
  intros Hscreen. destruct Hpool as [Hp1 Hp2]. set (st0 := mkSetup (mkBump 0 false false) 0 [] []).
  assert (H0 : pool_used 15 st0) by (split; [done|]; split; [by vm_compute|done]).
  destruct (part_ok _ st0 H0) as (first & w' & h' & sc & E0 & Hc & Hsc). 
  destruct (cells_limit sc w' h' Hsc) as (HC & HR & HN). set (R := h' / (16 * sc)) in *. set (C := w' / (9 * sc)) in *.
  unfold FLANTERM_FB_BUMP_ALLOC_POOL_SIZE in *.
  destruct (allocate_ok pool sizeof_fb 15 st0) as (a1 & st1 & E1 & H1); [lia|done|done|by vm_compute|done|]. change (15 + sizeof_fb + 15) with 1142 in H1.
  destruct (palette_built kernel_args st1) as (pa & E2 & Hpa & Hpb).
  { cbn. unfold masks_ok in Hmasks. apply andb_true_iff in Hmasks as [Hm1 _]. apply negb_true_iff, orb_false_iff in Hm1 as [Hm1 E2%negb_false_iff%Z.eqb_eq].
    apply orb_false_iff in Hm1 as [_ E1'%negb_false_iff%Z.eqb_eq]. lia. }
  { done. } { done. }
  destruct (font_ok 1142 st1 H1) as (m & st2 & E3 & H2 & Hm); [done|].
  pose proof (fb_layout_ok first w' h' sc (mkFont 9 16 4096 builtin_font 36864 m) st2 Hsc eq_refl eq_refl) as E4.
  destruct (array_ok R C sizeof_fb_char (1142 + 40990) st2) as (gs & st3 & E5 & H3); [done|lia|lia|by vm_compute|done|change sizeof_fb_char with 12; unfold FLANTERM_FB_BUMP_ALLOC_POOL_SIZE; lia|].
  change sizeof_fb_char with 12 in H3.
  destruct (array_ok R C sizeof_queue_item (1142 + 40990 + R * C * 12 + 15) st3) as (qs & st4 & E6 & H4); [done|lia|lia|by vm_compute|done|change sizeof_queue_item with 32; unfold FLANTERM_FB_BUMP_ALLOC_POOL_SIZE; lia|].
  change sizeof_queue_item with 32 in H4.
  destruct (array_ok R C 8 (1142 + 40990 + R * C * 12 + 15 + R * C * 32 + 15) st4) as (ms & st5 & E7 & H5); [done|lia|lia|lia|done|unfold FLANTERM_FB_BUMP_ALLOC_POOL_SIZE; lia|].
  unfold fb_build. rewrite (step_ok _ _ _ _ _ E0). rewrite (step_ok _ _ _ _ _ (E1 : allocate (a_pool kernel_args) (a_malloc kernel_args) _ _ = _)).
  rewrite (bind_ok _ _ _ _ _ E2), (step_ok _ _ _ _ _ E3), (step_ok _ _ _ _ _ E4). cbn [la_rows la_cols]. fold R C.
  rewrite (step_ok _ _ _ _ _ E5), (step_ok _ _ _ _ _ E6), (step_ok _ _ _ _ _ E7).
  rewrite (step_ok (fb_canvas _ _) _ st5 (0, None) st5) by done. rewrite (bind_ok (gets id) _ st5 st5 st5) by done.
  match goal with |- context [fb_assemble ?a ?b ?c ?d ?e ?f ?g ?h ?i ?j ?k ?l ?m] => set (ct := fb_assemble a b c d e f g h i j k l m) end.
  assert (Ect : ct = (flanterm_context_reinit (zero_context R C), ct.2)) by done. rewrite Ect. cbv beta iota zeta.
  destruct (first_picture R C (flanterm_context_reinit (zero_context R C)) ct.2) as (t & Et & Hr & Hd & _ & Ep).
  - apply (kernel_context R C); lia.
  - nia.
  - apply (kernel_conf first w' h' sc pa _ _ gs qs ms _ m); try done. intros i y x Hi Hy Hx. by destruct (Hm i y x Hi Hy Hx) as [-> ?].
  - by apply (kernel_covered first w' h').
  - unfold ct. cbn. fold R C. by rewrite (u64_small (R * C)) by lia.
  - done.
  - done.
  - rewrite (bind_ok (lift _) _ st5 (tt, t) st5) by (unfold lift; by rewrite Et). eexists _, t, st5, R, C. split; [reflexivity|].
    split; [done|]. split; [done|]. split; [done|]. rewrite Ep. split; [done|]. split; [done|]. split; [|done]. apply kernel_context; lia.
Qed.
End kernel.

(** The terminal that the kernel sets up, with the context that it starts in *)
Lemma kernel_terminal_starts pool w h s k screen : 0 < pool → pool + FLANTERM_FB_BUMP_ALLOC_POOL_SIZE < 2 ^ 64 →
  9 ≤ w < 2 ^ 31 → 16 ≤ h < 2 ^ 31 → w ≤ s < 2 ^ 31 → masks_ok k = true → red_mask_size k ≤ 16 →
  (∀ x y, 0 ≤ x < w → 0 ≤ y < h → is_Some (screen !! (y * s + x))) →
  ∃ t st R C (c := flanterm_context_reinit (zero_context R C)),
    kernel_terminal pool w h (4 * s) k screen (mkSetup (mkBump 0 false false) 0 [] []) = Ok (Some (c, t), st) ∧ 1 ≤ R ≤ 75 ∧ 1 ≤ C ≤ 213 ∧
    cursor_x (pen t) = 0 ∧ cursor_y (pen t) = 0 ∧
    term_refines R C (mkTerminal c t []) (mkTerminal c (blank_screen t) []) ∧ displays R C c t (blank_screen t).
Proof.
  intros Hp1 Hp2 Hw Hh Hs Hm Hwide Hscreen.
  destruct (built pool w h s k (conj Hp1 Hp2) Hw Hh Hs Hm Hwide screen Hscreen) as (c & t & st & R & C & E & HR & HC & -> & Hx & Hy & Hwf & Hr & Hd).
  exists t, st, R, C. split; [|do 4 (split; [done|]); split; [by split|exact Hd]].
  unfold kernel_terminal, flanterm_fb_init. fold (kernel_args pool w h s k). by rewrite (bind_ok _ _ _ _ _ E).
Qed.

(** C15: The terminal that the kernel sets up at boot: for every framebuffer of at
    least one character (9 by 16 pixels) whose pitch is a multiple of 4 and whose
    colour masks [flanterm_fb_init] accepts and [convert_colour] can shift, the
    static pool, wherever it is, holds the context, the font, the grid, the queue
    and the map, no store leaves the framebuffer, and the terminal stands for a
    blank screen of at most 75 rows and 213 columns, which all its pixels show. *)
Theorem kernel_terminal_ok pool w h s k screen : 0 < pool → pool + FLANTERM_FB_BUMP_ALLOC_POOL_SIZE < 2 ^ 64 →
  9 ≤ w < 2 ^ 31 → 16 ≤ h < 2 ^ 31 → w ≤ s < 2 ^ 31 → masks_ok k = true → red_mask_size k ≤ 16 →
  (∀ x y, 0 ≤ x < w → 0 ≤ y < h → is_Some (screen !! (y * s + x))) →
  ∃ c t st R C, kernel_terminal pool w h (4 * s) k screen (mkSetup (mkBump 0 false false) 0 [] []) = Ok (Some (c, t), st) ∧ 1 ≤ R ≤ 75 ∧ 1 ≤ C ≤ 213 ∧
    term_refines R C (mkTerminal c t []) (mkTerminal c (blank_screen t) []) ∧ displays R C c t (blank_screen t).
Proof.
  intros Hp1 Hp2 Hw Hh Hs Hm Hwide Hscreen. destruct (kernel_terminal_starts pool w h s k screen) as (t & st & R & C & E & HR & HC & _ & _ & H); try done.
  by eexists _, t, st, R, C.
Qed.
