(* ===== verification/TermText.v ===== *)
(** * Text on the terminal

    What the bytes of text do: a code point in UTF-8 is drawn as the character
    that it stands for ([utf8_decodes]), printable ASCII goes to the screen as it
    is, and the control sequence for the cursor position moves the cursor there. *)
From Stdlib Require Import ZArith Lia Ascii String.
From stdpp Require Import base option list gmap.
From S2P Require Import Prelude Endian Print Hoare TermTables Term TermProof Fb FbProof FbSpec.

(** ** UTF-8 *)

(** The encoding of RFC 3629 *)
Definition utf8 (cp : Z) : list Z :=
  if cp <? 0x80 then [cp]
  else if cp <? 0x800 then [0xc0 + cp / 64; 0x80 + cp `mod` 64]
  else if cp <? 0x10000 then [0xe0 + cp / 4096; 0x80 + (cp / 64) `mod` 64; 0x80 + cp `mod` 64]
  else [0xf0 + cp / 262144; 0x80 + (cp / 4096) `mod` 64; 0x80 + (cp / 64) `mod` 64; 0x80 + cp `mod` 64].

(** Outside of sequences of any kind *)
Definition in_text (p : parser) : Prop := discard_next p = false ∧ escape p = false ∧ unicode_remaining p = 0.
(** [n] bytes of a code point are due, [v] has the bits of those before them. *)
Definition pending (n v : Z) (c : context) : context :=
  set_ctx_parser (set_code_point v (set_unicode_remaining n (set_g_select 0 (ctx_parser c)))) c.

Lemma bytes_below (P : Z → bool) n : forallb P (seqZ 0 n) = true → ∀ r, 0 ≤ r < n → P r = true.
Proof. intros H r Hr. rewrite forallb_forall in H. apply H, list_elem_of_In, elem_of_seqZ. lia. Qed.
Lemma continuation_byte r : 0 ≤ r < 64 → (Z.land (0x80 + r) 0xc0 =? 0x80) = true ∧ Z.land (0x80 + r) 0x3f = r.
Proof.
  intros Hr. pose proof (bytes_below (λ r, (Z.land (0x80 + r) 0xc0 =? 0x80) && (Z.land (0x80 + r) 0x3f =? r)) 64) as H.
  specialize (H ltac:(by vm_compute) r Hr). by apply andb_true_iff in H as [? ?%Z.eqb_eq].
Qed.

Section text.
Context {B : Type} `{Backend B}.
Implicit Types t : terminal B.

Lemma putchar_first b n v t : in_text (ctx_parser (t_ctx t)) →
  between 0xc2 b 0xdf = true ∧ n = 1 ∧ v = Z.shiftl (Z.land b 0x1f) 6 ∨
  between 0xe0 b 0xef = true ∧ n = 2 ∧ v = Z.shiftl (Z.land b 0x0f) 12 ∨
  between 0xf0 b 0xf4 = true ∧ n = 3 ∧ v = Z.shiftl (Z.land b 0x07) 18 →
  flanterm_putchar b t = Ok (tt, set_ctx (pending n v (t_ctx t)) t).
Proof.
  intros (Hd & He & Hu) Hb.
  assert (Hr : 0xc2 ≤ b ≤ 0xf4) by (destruct Hb as [(E%between_true & _)|[(E%between_true & _)|(E%between_true & _)]]; lia).
  unfold flanterm_putchar. rewrite (bind_ok _ _ _ (ctx_parser (t_ctx t)) t) by done. cbv beta. rewrite Hd, He, Hu.
  destruct (Z.eqb_spec b 0x18); [lia|]. destruct (Z.eqb_spec b 0x1a); [lia|]. cbn [orb andb negb Z.eqb].
  unfold put_byte. rewrite (bind_ok _ _ _ (ctx_parser (t_ctx t)) t) by done. cbv beta. rewrite He.
  assert (E : between 0xc2 b 0xf4 = true) by (apply andb_true_iff; split; lia). rewrite E. cbn [andb negb]. clear E.
  unfold unicode_start. unfold upd_parser at 1, poke at 1. mstep.
  destruct Hb as [(E & -> & ->)|[(E & -> & ->)|(E & -> & ->)]].
  - rewrite E. done.
  - pose proof (between_true _ _ _ E). replace (between 0xc2 b 0xdf) with false by (symmetry; apply andb_false_iff; lia). rewrite E. done.
  - pose proof (between_true _ _ _ E). replace (between 0xc2 b 0xdf) with false by (symmetry; apply andb_false_iff; lia).
    replace (between 0xe0 b 0xef) with false by (symmetry; apply andb_false_iff; lia). rewrite E. done.
Qed.

(** A continuation byte behind the bits [v] *)
Lemma unicode_next n v r t : 0 ≤ n ≤ 2 → 0 ≤ r < 64 → 0 ≤ v → v `mod` 2 ^ (6 * (n + 1)) = 0 → v + r * 2 ^ (6 * n) ≤ 0x10ffff →
  (n = 1 → 0x800 ≤ v + r * 2 ^ 6) → (n = 2 → 0x10000 ≤ v + r * 2 ^ 12) → (n = 0 → ¬ 0xd800 ≤ v + r ≤ 0xdfff) →
  unicode_step (0x80 + r) (set_ctx (pending (n + 1) v (t_ctx t)) t) =
    (if n =? 0 then print_code_point (v + r);; mret true else mret true) (set_ctx (pending n (v + r * 2 ^ (6 * n)) (t_ctx t)) t).
Proof.
  intros Hn Hr Hv Hmod Hmax H1 H2 H0. destruct (continuation_byte r Hr) as [Ec El].
  unfold unicode_step. rewrite Ec, El. cbn [negb].
  assert (Ev : Z.lor v (u64 (Z.shiftl r (6 * n))) = v + r * 2 ^ (6 * n)).
  { rewrite Z.shiftl_mul_pow2 by lia. assert (Hp : 0 < 2 ^ (6 * n) ≤ 2 ^ 12) by (split; [lia|apply Z.pow_le_mono_r; lia]).
    rewrite u64_small by nia. apply Z.div_exact in Hmod; [|lia]. rewrite Hmod, Z.lor_comm, (Z.mul_comm (2 ^ _)).
    rewrite lor_low_high; [lia|lia|]. replace (6 * (n + 1)) with (6 * n + 6) by lia. rewrite Z.pow_add_r by lia. nia. }
  rewrite (bind_ok _ _ _ tt (set_ctx (pending n v (t_ctx t)) t))
    by (unfold upd_parser, poke, modify, pending, set_ctx, set_ctx_parser, set_unicode_remaining, set_code_point; cbn; do 5 f_equal; by replace (n + 1 - 1) with n by lia).
  rewrite (bind_ok _ _ _ tt (set_ctx (pending n (v + r * 2 ^ (6 * n)) (t_ctx t)) t))
    by (unfold upd_parser, poke, modify; rewrite <-Ev; done).
  set (s2 := set_ctx _ t). rewrite (bind_ok _ _ s2 (ctx_parser (t_ctx s2)) s2) by done. cbv zeta.
  change (unicode_remaining (ctx_parser (t_ctx s2))) with n. change (code_point (ctx_parser (t_ctx s2))) with (v + r * 2 ^ (6 * n)).
  destruct (Z.gtb_spec (v + r * 2 ^ (6 * n)) 0x10ffff); [lia|].
  assert (n = 0 ∨ n = 1 ∨ n = 2) as [->|[->| ->]] by lia; cbn [Z.eqb andb orb negb].
  - change (2 ^ (6 * 0)) with 1. rewrite Z.mul_1_r. change (0 =? 0) with true. cbn [negb].
    replace (between 0xd800 (v + r) 0xdfff) with false; [done|]. symmetry. apply andb_false_iff. specialize (H0 eq_refl). lia.
  - specialize (H1 eq_refl). change (2 ^ (6 * 1)) with (2 ^ 6). destruct (Z.ltb_spec (v + r * 2 ^ 6) 0x800); [lia|]. done.
  - specialize (H2 eq_refl). change (2 ^ (6 * 2)) with (2 ^ 12). destruct (Z.ltb_spec (v + r * 2 ^ 12) 0x10000); [lia|].
    change (2 =? 1) with false. change (2 =? 2) with true. cbn [andb orb]. change (2 ^ (6 * 2)) with (2 ^ 12) in *. destruct (Z.gtb_spec (v + r * 2 ^ 12) 0x10ffff); [lia|]. done.
Qed.

Lemma putchar_next b t : discard_next (ctx_parser (t_ctx t)) = false → escape (ctx_parser (t_ctx t)) = false → unicode_remaining (ctx_parser (t_ctx t)) ≠ 0 →
  0x80 ≤ b → flanterm_putchar b t = (used ← unicode_step b; if used : bool then mret tt else put_byte b : M (terminal B) unit) t.
Proof.
  intros Hd He Hu Hb. unfold flanterm_putchar. rewrite (bind_ok _ _ _ (ctx_parser (t_ctx t)) t) by done. rewrite Hd, He.
  destruct (Z.eqb_spec b 0x18); [lia|]. destruct (Z.eqb_spec b 0x1a); [lia|]. by destruct (Z.eqb_spec (unicode_remaining (ctx_parser (t_ctx t))) 0); [lia|].
Qed.

Section code_point.
Context (t : terminal B) (Ht : in_text (ctx_parser (t_ctx t))).
Let due (n v : Z) : terminal B := set_ctx (pending n v (t_ctx t)) t.

Lemma next_more n v r : 1 ≤ n ≤ 2 → 0 ≤ r < 64 → 0 ≤ v → v `mod` 2 ^ (6 * (n + 1)) = 0 → v + r * 2 ^ (6 * n) ≤ 0x10ffff →
  (n = 1 → 0x800 ≤ v + r * 2 ^ 6) → (n = 2 → 0x10000 ≤ v + r * 2 ^ 12) →
  flanterm_putchar (0x80 + r) (due (n + 1) v) = Ok (tt, due n (v + r * 2 ^ (6 * n))).
Proof.
  intros Hn Hr Hv Hmod Hmax H1 H2. destruct Ht as (Hd & He & _). rewrite putchar_next; [|done|done|cbn; lia|lia].
  rewrite (bind_ok _ _ _ true (due n (v + r * 2 ^ (6 * n)))); [done|]. unfold due. rewrite unicode_next; try done; try lia.
  by destruct (Z.eqb_spec n 0); [lia|].
Qed.
Lemma next_last v r : 0 ≤ r < 64 → 0 ≤ v → v `mod` 64 = 0 → v + r ≤ 0x10ffff → ¬ 0xd800 ≤ v + r ≤ 0xdfff →
  flanterm_putchar (0x80 + r) (due 1 v) = print_code_point (v + r) (due 0 (v + r)).
Proof.
  intros Hr Hv Hmod Hmax Hsur. destruct Ht as (Hd & He & _). rewrite putchar_next; [|done|done|done|lia].
  unfold mbind, M_bind. unfold due. change 1 with (0 + 1). rewrite unicode_next; try done; try lia. change (2 ^ (6 * 0)) with 1. rewrite Z.mul_1_r. change (0 =? 0) with true.
  cbv iota. unfold mbind, M_bind. by destruct (print_code_point _ _) as [[[] ?]| | |].
Qed.
End code_point.
Lemma first_byte base mask m q : 0 ≤ q < m → forallb (λ q, Z.land (base + q) mask =? q) (seqZ 0 m) = true → Z.land (base + q) mask = q.
Proof. intros Hq Hm. by apply (bytes_below (λ q, Z.land (base + q) mask =? q)) in Hq; [apply Z.eqb_eq|]. Qed.
Lemma between_in lo v hi : lo ≤ v ≤ hi → between lo v hi = true.
Proof. intros. apply andb_true_iff. lia. Qed.
Lemma last_byte (b : Z) (t : terminal B) : (flanterm_putchar b;; mret tt) t = flanterm_putchar b t.
Proof. unfold mbind at 1, M_bind at 1. by destruct (flanterm_putchar b t) as [[[] ?]| | |]. Qed.

(** C25: UTF-8: a terminal that reads text, given the encoding of a code point from
    U+0080 on that is not a surrogate, however many bytes that has, does exactly
    what [print_code_point] does with the code point. *)
Theorem utf8_decodes cp t : 0x80 ≤ cp ≤ 0x10ffff → ¬ 0xd800 ≤ cp ≤ 0xdfff → in_text (ctx_parser (t_ctx t)) →
  put_bytes (utf8 cp) t = print_code_point cp (set_ctx (pending 0 cp (t_ctx t)) t).
Proof.
  intros Hcp Hsur Ht. unfold utf8. pose proof (Z.mod_pos_bound cp 64 ltac:(lia)) as Hr. pose proof (Z.div_mod cp 64 ltac:(lia)) as Edm.
  set (r := cp `mod` 64) in *. set (q := cp / 64) in *.
  destruct (Z.ltb_spec cp 0x80); [lia|]. destruct (Z.ltb_spec cp 0x800).
  { cbn [put_bytes]. rewrite !u8_small by lia. rewrite (bind_ok _ _ _ _ _ (putchar_first (0xc0 + q) 1 (q * 64) t Ht
      ltac:(left; split; [apply between_in; lia|]; split; [done|]; rewrite (first_byte 0xc0 0x1f 32) by (lia || by vm_compute); by rewrite Z.shiftl_mul_pow2))).
    rewrite last_byte, (next_last t Ht); try lia; [by replace (q * 64 + r) with cp by lia|apply Z.mod_mul; lia]. }
  pose proof (Z.mod_pos_bound q 64 ltac:(lia)) as Hr2. pose proof (Z.div_mod q 64 ltac:(lia)) as Edm2.
  replace (cp / 4096) with (q / 64) by (unfold q; by rewrite Z.div_div by lia).
  set (r2 := q `mod` 64) in *. set (q2 := q / 64) in *. destruct (Z.ltb_spec cp 0x10000).
  { cbn [put_bytes]. rewrite !u8_small by lia. rewrite (bind_ok _ _ _ _ _ (putchar_first (0xe0 + q2) 2 (q2 * 4096) t Ht
      ltac:(right; left; split; [apply between_in; lia|]; split; [done|]; rewrite (first_byte 0xe0 0x0f 16) by (lia || by vm_compute); by rewrite Z.shiftl_mul_pow2))).
    change 2 with (1 + 1) at 1. rewrite (bind_ok _ _ _ _ _ (next_more t Ht 1 (q2 * 4096) r2 ltac:(lia) ltac:(lia) ltac:(lia)
      ltac:(apply Z.mod_mul; lia) ltac:(lia) ltac:(lia) ltac:(lia))).
    rewrite last_byte, (next_last t Ht); try lia; [by replace (q2 * 4096 + r2 * 2 ^ (6 * 1) + r) with cp by lia|].
    replace (q2 * 4096 + r2 * 2 ^ (6 * 1)) with ((q2 * 64 + r2) * 64) by lia. apply Z.mod_mul. lia. }
  pose proof (Z.mod_pos_bound q2 64 ltac:(lia)) as Hr3. pose proof (Z.div_mod q2 64 ltac:(lia)) as Edm3.
  replace (cp / 262144) with (q2 / 64) by (unfold q2, q; by rewrite !Z.div_div by lia).
  set (r3 := q2 `mod` 64) in *. set (q3 := q2 / 64) in *.
  cbn [put_bytes]. rewrite !u8_small by lia. rewrite (bind_ok _ _ _ _ _ (putchar_first (0xf0 + q3) 3 (q3 * 262144) t Ht
    ltac:(right; right; split; [apply between_in; lia|]; split; [done|]; rewrite (first_byte 0xf0 0x07 8) by (lia || by vm_compute); by rewrite Z.shiftl_mul_pow2))).
  change 3 with (2 + 1) at 1. rewrite (bind_ok _ _ _ _ _ (next_more t Ht 2 (q3 * 262144) r3 ltac:(lia) ltac:(lia) ltac:(lia)
    ltac:(apply Z.mod_mul; lia) ltac:(lia) ltac:(lia) ltac:(lia))).
  change 2 with (1 + 1) at 2. rewrite (bind_ok _ _ _ _ _ (next_more t Ht 1 (q3 * 262144 + r3 * 2 ^ (6 * 2)) r2 ltac:(lia) ltac:(lia) ltac:(lia)
    ltac:(replace (q3 * 262144 + r3 * 2 ^ (6 * 2)) with ((q3 * 64 + r3) * 2 ^ (6 * (1 + 1))) by lia; apply Z.mod_mul; lia) ltac:(lia) ltac:(lia) ltac:(lia))).
  rewrite last_byte, (next_last t Ht); try lia; [by replace (q3 * 262144 + r3 * 2 ^ (6 * 2) + r2 * 2 ^ (6 * 1) + r) with cp by lia|].
  replace (q3 * 262144 + r3 * 2 ^ (6 * 2) + r2 * 2 ^ (6 * 1)) with ((q3 * 4096 + r3 * 64 + r2) * 64) by lia. apply Z.mod_mul. lia.
Qed.
End text.

(** ** The control sequence for the cursor position

    ESC [ row ; column H on the abstract screen: the parser reads the two decimal
    numbers and the cursor goes to that cell, or to the last one before it that
    the screen has ([cursor_position]). *)

(** The next byte is text in the default character set, and is not inserted. *)
Record plain (c : context) : Prop := {
  pl_text : in_text (ctx_parser c);
  pl_select : g_select (ctx_parser c) = 0;
  pl_insert : insert_mode (ctx_modes c) = false;
  pl_charset : zlookup (charsets (ctx_look c)) (current_charset (ctx_look c)) = Some CHARSET_DEFAULT }.

(** Digits as a number, and as the bytes that are written for them *)
Definition decimal (v : Z) (ds : list Z) : Z := foldl (λ v d, v * 10 + d) v ds.
Definition digit_bytes (ds : list Z) : list Z := (λ d, ch "0" + d) <$> ds.
Definition digit (d : Z) : Prop := 0 ≤ d ≤ 9.

Lemma decimal_le ds v : 0 ≤ v → Forall digit ds → v ≤ decimal v ds.
Proof.
  intros Hv Hds. revert v Hv. induction Hds as [|d ds Hd Hds IH]; intros v Hv; [done|]. cbn. unfold digit in Hd.
  specialize (IH (v * 10 + d)). unfold decimal in IH. lia.
Qed.

Section csi.
Context {B : Type} `{Backend B} (t : terminal B).
Let p := ctx_parser (t_ctx t).

(** The terminal behind ESC [ and some of the parameters *)
Definition csi_parser (off : Z) (param : bool) (n : Z) (vs : list Z) : parser :=
  set_escape_offset off (set_rrr param (set_esc_values_i n (set_esc_values vs (set_control_sequence true (set_escape true (set_csi_unhandled false p)))))).
Definition in_csi (off : Z) (param : bool) (n : Z) (vs : list Z) : terminal B := set_ctx (set_ctx_parser (csi_parser off param n vs) (t_ctx t)) t.

Lemma putchar_escape b (t1 : terminal B) : discard_next (ctx_parser (t_ctx t1)) = false → escape (ctx_parser (t_ctx t1)) = true →
  b ≠ 0x18 → b ≠ 0x1a → flanterm_putchar b t1 = escape_parse b t1.
Proof.
  intros Hd He H1 H2. unfold flanterm_putchar. rewrite (bind_ok _ _ _ (ctx_parser (t_ctx t1)) t1) by done. rewrite Hd, He.
  destruct (Z.eqb_spec b 0x18); [done|]. destruct (Z.eqb_spec b 0x1a); [done|]. cbn [orb andb negb].
  unfold put_byte. rewrite (bind_ok _ _ _ (ctx_parser (t_ctx t1)) t1) by done. by rewrite He.
Qed.

Context (Hp : discard_next p = false) (Ho : osc p = false) (Hd : dec_private p = false).

Lemma putchar_csi b off param n vs : b ≠ 0x18 → b ≠ 0x1a →
  flanterm_putchar b (in_csi off param n vs) = control_sequence_parse b (in_csi (u64 (off + 1)) param n vs).
Proof.
  intros H1 H2. rewrite putchar_escape by done. unfold escape_parse.
  rewrite (bind_ok _ _ _ tt (in_csi (u64 (off + 1)) param n vs)) by done.
  rewrite (bind_ok _ _ _ false (in_csi (u64 (off + 1)) param n vs)) by (unfold peek, gets; cbn; by rewrite Ho).
  rewrite (bind_ok _ _ _ false (in_csi (u64 (off + 1)) param n vs)) by done. cbn [when]. rewrite (bind_ok _ _ _ tt (in_csi (u64 (off + 1)) param n vs)) by done.
  by rewrite (bind_ok _ _ _ true (in_csi (u64 (off + 1)) param n vs)) by done.
Qed.

Lemma esc_value_csi off param n vs i v : zlookup vs i = Some v → esc_value i (in_csi off param n vs) = Ok (v, in_csi off param n vs).
Proof. intros E. unfold esc_value. rewrite (bind_ok _ _ _ vs (in_csi off param n vs)) by done. by rewrite E. Qed.
Lemma set_esc_value_csi off param n vs i v w : zlookup vs i = Some w →
  set_esc_value i v (in_csi off param n vs) = Ok (tt, in_csi off param n (zinsert i (u32 v) vs)).
Proof. intros E. unfold set_esc_value. by rewrite (bind_ok _ _ _ _ _ (esc_value_csi off param n vs i w E)). Qed.

Lemma put_digit d off param n vs v : digit d → 0 ≤ n < 16 → zlookup vs n = Some v → 0 ≤ v → v * 10 + d < 2 ^ 32 →
  flanterm_putchar (ch "0" + d) (in_csi off param n vs) = Ok (tt, in_csi (u64 (off + 1)) true n (zinsert n (v * 10 + d) vs)).
Proof.
  unfold digit. intros Hdd Hn Hv Hv0 Hlt. change (ch "0") with 48. rewrite putchar_csi by lia. unfold control_sequence_parse.
  rewrite (bind_ok _ _ _ (u64 (off + 1)) (in_csi (u64 (off + 1)) param n vs)) by done.
  change (ch "[") with 91. change (ch "?") with 63. change (ch "0") with 48. change (ch "9") with 57.
  destruct (Z.eqb_spec (48 + d) 91); [lia|]. destruct (Z.eqb_spec (48 + d) 63); [lia|]. rewrite !andb_false_r.
  destruct (Z.ltb_spec (48 + d) 0x20); [lia|]. cbn [andb]. rewrite between_in by lia.
  unfold csi_digit. rewrite (bind_ok _ _ _ n (in_csi (u64 (off + 1)) param n vs)) by done. change FLANTERM_MAX_ESC_VALUES with 16. destruct (Z.eqb_spec n 16); [lia|].
  rewrite (bind_ok _ _ _ tt (in_csi (u64 (off + 1)) true n vs)) by done. rewrite (bind_ok _ _ _ _ _ (esc_value_csi _ _ _ _ _ _ Hv)).
  destruct (Z.gtb_spec v ((2 ^ 32 - 1) / 10)) as [Hgt|_]; [exfalso; change ((2 ^ 32 - 1) / 10) with 429496729 in Hgt; lia|].
  rewrite (bind_ok _ _ _ _ _ (set_esc_value_csi _ _ _ _ _ (v * 10) _ Hv)). rewrite (u32_small (v * 10)) by lia.
  pose proof (zlookup_Some_bounds _ _ _ Hv) as Hb. set (vs1 := zinsert n (v * 10) vs).
  assert (Hv1 : zlookup vs1 n = Some (v * 10)) by (unfold vs1; rewrite zlookup_zinsert by done; by rewrite decide_True).
  rewrite (bind_ok _ _ _ _ _ (esc_value_csi _ _ _ _ _ _ Hv1)). cbv zeta. replace (48 + d - ch "0") with d by (change (ch "0") with 48; lia).
  rewrite (u32_small (2 ^ 32 - 1 - d)) by lia. destruct (Z.gtb_spec (v * 10) (2 ^ 32 - 1 - d)); [lia|].
  rewrite (set_esc_value_csi _ _ _ _ _ _ _ Hv1). rewrite u32_small by lia. unfold vs1. by rewrite zinsert_twice.
Qed.

(** A parameter *)
Lemma put_digits ds off param n vs v : Forall digit ds → ds ≠ [] → 0 ≤ n < 16 → zlookup vs n = Some v → 0 ≤ v → decimal v ds < 2 ^ 32 →
  ∃ off', put_bytes (digit_bytes ds) (in_csi off param n vs) = Ok (tt, in_csi off' true n (zinsert n (decimal v ds) vs)).
Proof.
  intros Hds Hne Hn. revert off param vs v. induction Hds as [|d ds Hdd Hds IH]; [done|]. intros off param vs v Hv Hv0 Hlt. clear Hne.
  cbn [digit_bytes fmap list_fmap put_bytes]. assert (Hdd' := Hdd). unfold digit in Hdd'.
  assert (Hlt1 : v * 10 + d < 2 ^ 32) by (pose proof (decimal_le ds (v * 10 + d) ltac:(lia) Hds); cbn in Hlt; unfold decimal in *; lia).
  rewrite u8_small by (change (ch "0") with 48; lia). rewrite (bind_ok _ _ _ _ _ (put_digit d off param n vs v Hdd Hn Hv Hv0 Hlt1)).
  destruct ds as [|d2 ds]; [by eexists|]. pose proof (zlookup_Some_bounds _ _ _ Hv) as Hb.
  destruct (IH ltac:(done) (u64 (off + 1)) true (zinsert n (v * 10 + d) vs) (v * 10 + d)) as (off' & E).
  - rewrite zlookup_zinsert by done. by rewrite decide_True.
  - lia.
  - exact Hlt.
  - exists off'. rewrite zinsert_twice in E. exact E.
Qed.

Lemma put_semicolon off n vs : flanterm_putchar (ch ";") (in_csi off true n vs) = Ok (tt, in_csi (u64 (off + 1)) false (n + 1) vs).
Proof.
  rewrite putchar_csi by done. unfold control_sequence_parse. rewrite (bind_ok _ _ _ (u64 (off + 1)) (in_csi (u64 (off + 1)) true n vs)) by done.
  change (ch ";" =? ch "[") with false. change (ch ";" =? ch "?") with false. rewrite !andb_false_r. done.
Qed.
End csi.

(** ** On the abstract screen *)

Definition default_one (v : Z) : Z := if v =? 0 then 1 else v.
(** Row or column [v], counted from 1, of [n] *)
Definition index_of (v n : Z) : Z := Z.min (default_one v - 1) (n - 1).

Section position.
Context (t : terminal screen).

(** The values with which [H] is executed *)
Definition parameters (r c : Z) : list Z := [default_one r; default_one c; 1; 1; 1; 1; 1; 1; 1; 1; 1; 1; 1; 1; 1; 1].
Lemma zero_default off vs i v : zlookup vs i = Some v →
  (v ← esc_value i; when (v =? 0) (set_esc_value i 1)) (in_csi t off false 2 vs) = Ok (tt, in_csi t off false 2 (zinsert i (default_one v) vs)).
Proof.
  intros Hv. rewrite (bind_ok _ _ _ _ _ (esc_value_csi t off false 2 vs i v Hv)). unfold default_one. destruct (v =? 0); cbn [when].
  - by rewrite (set_esc_value_csi _ _ _ _ _ _ _ _ Hv).
  - by rewrite zinsert_id.
Qed.
Lemma defaults_csi off r c : csi_defaults (ch "H") (in_csi t off false 2 [r; c; 0; 0; 0; 0; 0; 0; 0; 0; 0; 0; 0; 0; 0; 0]) =
  Ok (tt, in_csi t off false 2 (parameters r c)).
Proof.
  unfold csi_defaults. rewrite (bind_ok _ _ _ 2 _) by reflexivity. cbv zeta. change (esc_default (ch "H")) with 1. change (Z.to_nat (FLANTERM_MAX_ESC_VALUES - 2)) with 14%nat.
  rewrite (bind_ok _ _ _ tt (in_csi t off false 2 [r; c; 1; 1; 1; 1; 1; 1; 1; 1; 1; 1; 1; 1; 1; 1])) by reflexivity.
  change (negb (1 =? 0)) with true. cbn [when]. change (Z.to_nat 2) with 2%nat. cbn [for_loop].
  rewrite (bind_ok _ _ _ _ _ (zero_default off [r; c; 1; 1; 1; 1; 1; 1; 1; 1; 1; 1; 1; 1; 1; 1] 0 r eq_refl)).
  by rewrite (bind_ok _ _ _ _ _ (zero_default off [default_one r; c; 1; 1; 1; 1; 1; 1; 1; 1; 1; 1; 1; 1; 1; 1] (0 + 1) c eq_refl)).
Qed.

(** The command itself *)
Lemma esc_index_csi off vs i v m : zlookup vs i = Some v → 1 ≤ v < 2 ^ 32 → 1 ≤ m < 2 ^ 32 →
  esc_index i m (in_csi t off false 2 vs) = Ok (tt, in_csi t off false 2 (zinsert i (Z.min (v - 1) (m - 1)) vs)).
Proof.
  intros Hv Hv1 Hm. pose proof (zlookup_Some_bounds _ _ _ Hv) as Hb. unfold esc_index. rewrite (bind_ok _ _ _ _ _ (esc_value_csi t off false 2 vs i v Hv)).
  destruct (Z.eqb_spec v 0); [lia|]. cbn [negb when]. rewrite (bind_ok _ _ _ _ _ (set_esc_value_csi t off false 2 vs i (v - 1) _ Hv)).
  assert (Hv2 : zlookup (zinsert i (u32 (v - 1)) vs) i = Some (v - 1)) by (rewrite u32_small, zlookup_zinsert by lia; by rewrite decide_True).
  rewrite (bind_ok _ _ _ _ _ (esc_value_csi t off false 2 _ i _ Hv2)). destruct (Z.geb_spec (v - 1) m); cbn [when].
  - rewrite (set_esc_value_csi t off false 2 _ i _ _ Hv2). rewrite zinsert_twice. rewrite u64_small, u32_small by lia. by replace (Z.min (v - 1) (m - 1)) with (m - 1) by lia.
  - rewrite u32_small by lia. by replace (Z.min (v - 1) (m - 1)) with (v - 1) by lia.
Qed.
Definition indices (r c R C : Z) : list Z := [index_of r R; index_of c C; 1; 1; 1; 1; 1; 1; 1; 1; 1; 1; 1; 1; 1; 1].
(** [N] rows of the [R] can be addressed, from row [o] on: all, or in origin mode those between the margins. *)
Definition rows_from (R N o : Z) : Prop := row_range (t_ctx t) = (N, o) ∧ 0 < N ∧ 0 ≤ o ∧ o + N ≤ R.
Lemma position_csi off r c R C N o : wf_geom R C (ctx_geom (t_ctx t)) → rows_from R N o → 0 ≤ r < 2 ^ 32 → 0 ≤ c < 2 ^ 32 →
  csi_position (in_csi t off false 2 (parameters r c)) =
    Ok (tt, in_csi (mkTerminal (t_ctx t) (sc_set_cursor (t_ctx t) (index_of c C) (index_of r N + o) (t_be t)) (t_calls t)) off false 2 (indices r c N C)).
Proof.
  intros Hg (Horigin & HN & Ho & HoN) Hr Hcc. destruct (wg_rows _ _ _ Hg) as [ER HR]. destruct (wg_cols _ _ _ Hg) as [EC HC].
  assert (Hr1 : 1 ≤ default_one r < 2 ^ 32) by (unfold default_one; destruct (Z.eqb_spec r 0); lia).
  assert (Hc1 : 1 ≤ default_one c < 2 ^ 32) by (unfold default_one; destruct (Z.eqb_spec c 0); lia).
  unfold csi_position. set (s := in_csi t off false 2 (parameters r c)).
  rewrite (bind_ok _ _ s (N, o) s) by (unfold peek, gets; by rewrite <-Horigin). rewrite (bind_ok _ _ s (ctx_geom (t_ctx t)) s) by done. rewrite EC.
  rewrite (bind_ok _ _ _ _ _ (esc_index_csi off (parameters r c) 0 (default_one r) N eq_refl Hr1 ltac:(lia))). fold (index_of r N).
  set (vs1 := zinsert 0 (index_of r N) (parameters r c)). assert (H1 : zlookup vs1 1 = Some (default_one c)) by done.
  rewrite (bind_ok _ _ _ _ _ (esc_index_csi off vs1 1 (default_one c) C H1 Hc1 ltac:(lia))). fold (index_of c C). set (vs2 := zinsert 1 (index_of c C) vs1).
  rewrite (bind_ok _ _ _ _ _ (esc_value_csi t off false 2 vs2 0 (index_of r N) eq_refl)).
  rewrite (bind_ok _ _ _ _ _ (esc_value_csi t off false 2 vs2 1 (index_of c C) eq_refl)). rewrite u64_small by (unfold index_of; lia). done.
Qed.

(** The bytes before the parameters *)

Context (Ht : plain (t_ctx t)).
Let p := ctx_parser (t_ctx t).
Context (Ho : osc p = false) (Hc : control_sequence p = false) (Hd : dec_private p = false) (Hl : length (esc_values p) = 16%nat).

Lemma put_escape : flanterm_putchar 0x1b t = Ok (tt, set_ctx (set_ctx_parser (set_escape true (set_escape_offset 0 p)) (t_ctx t)) t).
Proof.
  destruct Ht as [(Hdn & He & Hu) Hg _ _]. unfold flanterm_putchar. rewrite (bind_ok _ _ _ p t) by done. unfold p in *. rewrite Hdn, He, Hu.
  change (0x1b =? 0x18) with false. change (0x1b =? 0x1a) with false. cbn [orb andb negb Z.eqb]. unfold put_byte. rewrite (bind_ok _ _ _ (ctx_parser (t_ctx t)) t) by done. rewrite He, Hg. done.
Qed.
Lemma put_open : put_bytes [0x1b; ch "["] t = Ok (tt, in_csi t 1 false 0 (replicate 16 0)).
Proof.
  cbn [put_bytes]. rewrite (u8_small 0x1b) by lia. change (u8 (ch "[")) with (ch "["). rewrite (bind_ok _ _ _ _ _ put_escape). set (t1 := set_ctx _ t).
  rewrite (bind_ok _ _ _ tt (in_csi t 1 false 0 (replicate 16 0))); [done|]. destruct Ht as [(Hdn & He & Hu) Hg _ _].
  rewrite putchar_escape by done. unfold escape_parse.
  set (t2 := set_ctx (set_ctx_parser (set_escape true (set_escape_offset 1 p)) (t_ctx t)) t).
  rewrite (bind_ok _ _ _ tt t2) by done. rewrite (bind_ok _ _ _ false t2) by (unfold peek, gets; cbn; by rewrite <-Ho).
  rewrite (bind_ok _ _ _ false t2) by done. cbn [when]. rewrite (bind_ok _ _ _ tt t2) by done.
  rewrite (bind_ok _ _ _ false t2) by (unfold peek, gets; cbn; by rewrite <-Hc).
  rewrite (bind_ok get_cursor_pos _ t2 (sc_cursor (t_ctx t) (t_be t)) t2) by done. destruct (sc_cursor _ _) as [x y].
  rewrite (bind_ok _ _ _ false (in_csi t 1 false 0 (replicate 16 0))); [done|].
  change (escape_dispatch (ch "[") x y t2) with ((begin_csi;; mret false) t2).
  rewrite (bind_ok _ _ _ tt (in_csi t 1 false 0 (replicate 16 0))); [done|]. subst t2 t1. unfold p in *.
  destruct t as [[m ps l sv g lp lw cb] b ev]. destruct ps. cbn in *. subst.
  do 16 (destruct esc_values as [|? esc_values]; [done|]). destruct esc_values; [|done]. reflexivity.
Qed.

End position.

(** ** The whole sequence *)

Lemma execute_csi (t : terminal screen) off r c R C N o : wf_geom R C (ctx_geom (t_ctx t)) → rows_from t R N o → 0 ≤ r < 2 ^ 32 → 0 ≤ c < 2 ^ 32 →
  csi_execute (ch "H") (in_csi t off false 2 (parameters r c)) =
    Ok (tt, mkTerminal (set_ctx_parser (set_escape false (set_control_sequence false (csi_parser t off false 2 (indices r c N C)))) (t_ctx t))
              (sc_set_cursor (t_ctx t) (index_of c C) (index_of r N + o) (t_be t)) (t_calls t)).
Proof.
  intros Hg Horigin Hr Hcc. set (m := ctx_modes (t_ctx t)).
  set (t1 := set_ctx (set_ctx_modes (set_wrap_enabled true (set_scroll_enabled false m)) (t_ctx t)) t).
  pose proof (position_csi t1 off r c R C N o Hg Horigin Hr Hcc) as E. unfold csi_execute. set (s := in_csi t off false 2 (parameters r c)).
  rewrite (bind_ok _ _ s m s) by done. cbv zeta. set (s1 := in_csi t1 off false 2 (parameters r c)).
  rewrite (bind_ok _ _ s tt (in_csi (set_ctx (set_ctx_modes (set_scroll_enabled false m) (t_ctx t)) t) off false 2 (parameters r c))) by done.
  rewrite (bind_ok _ _ _ tt s1) by done. rewrite (bind_ok get_cursor_pos _ s1 (sc_cursor (t_ctx t1) (t_be t)) s1) by done. destruct (sc_cursor _ _) as [x y].
  assert (Ed : csi_dispatch (scroll_enabled m) (wrap_enabled m) (ch "H") x y s1 = (csi_position;; mret true) s1) by done.
  rewrite (bind_ok _ _ s1 true (in_csi (mkTerminal (t_ctx t1) (sc_set_cursor (t_ctx t1) (index_of c C) (index_of r N + o) (t_be t1)) (t_calls t1)) off false 2 (indices r c N C))).
  2:{ rewrite Ed. by rewrite (bind_ok _ _ _ _ _ E). }
  cbn [t_ctx t_be t_calls set_ctx t1]. destruct t as [[m0 ps l sv g lp lw cb] b ev]. destruct m0. reflexivity.
Qed.

Lemma final_csi (t : terminal screen) off r c R C N o (p := ctx_parser (t_ctx t)) : discard_next p = false → osc p = false → dec_private p = false →
  wf_geom R C (ctx_geom (t_ctx t)) → rows_from t R N o → 0 ≤ r < 2 ^ 32 → 0 ≤ c < 2 ^ 32 →
  flanterm_putchar (ch "H") (in_csi t off true (0 + 1) (zinsert (0 + 1) c (zinsert 0 r (replicate 16 0)))) =
    Ok (tt, mkTerminal (set_ctx_parser (set_escape false (set_control_sequence false (csi_parser t (u64 (off + 1)) false 2 (indices r c N C)))) (t_ctx t))
              (sc_set_cursor (t_ctx t) (index_of c C) (index_of r N + o) (t_be t)) (t_calls t)).
Proof.
  intros Hdn Ho Hd Hg Horigin Hr Hc. rewrite (putchar_csi t Hdn Ho) by done. set (off1 := u64 (off + 1)). set (vs := zinsert (0 + 1) c _).
  unfold control_sequence_parse. rewrite (bind_ok _ _ _ off1 (in_csi t off1 true (0 + 1) vs)) by done.
  change (ch "H" =? ch "[") with false. change (ch "H" =? ch "?") with false. rewrite !andb_false_r.
  change (between (ch "0") (ch "H") (ch "9")) with false. change ((ch "H" <? 0x20) && negb (ch "H" =? 0x1b)) with false. cbv iota.
  rewrite (bind_ok _ _ _ false (in_csi t off1 false 2 vs)) by done. unfold csi_final. rewrite (bind_ok _ _ _ _ _ (defaults_csi t off1 r c)).
  set (s := in_csi t off1 false 2 (parameters r c)). rewrite (bind_ok _ _ s (ctx_parser (t_ctx s)) s) by done.
  change (dec_private (ctx_parser (t_ctx s))) with (dec_private p). rewrite Hd. change (csi_unhandled (ctx_parser (t_ctx s))) with false. cbv iota.
  by apply (execute_csi t off1 r c R C N o).
Qed.
Lemma put_bytes_app {B} `{Backend B} a b (t t1 : terminal B) : put_bytes a t = Ok (tt, t1) → put_bytes (a ++ b) t = put_bytes b t1.
Proof.
  revert t. induction a as [|x a IH]; intros t E; cbn [put_bytes app] in *; [by injection E as ->|].
  unfold mbind, M_bind in E |- *. destruct (flanterm_putchar (u8 x) t) as [[[] t2]| | |]; try done. by apply IH.
Qed.

(** The rows that can be addressed are among those of the screen. *)
Lemma wf_rows_from R C t : wf R C (t_ctx t) → rows_from t R (row_range (t_ctx t)).1 (row_range (t_ctx t)).2.
Proof.
  intros Hwf. destruct (wf_gm _ _ _ Hwf) as [[ER HR] _ [Hm1 Hm2] _]. unfold rows_from, row_range. cbv zeta.
  destruct (origin_mode _); cbn [fst snd]; [rewrite u64_small by lia|]; splits; (done || lia).
Qed.

(** The terminal reads text in the default character set and no sequence has left its mark: the mark of a private mode
    sequence survives CAN and SUB. *)
Definition at_rest (c : context) : Prop :=
  plain c ∧ osc (ctx_parser c) = false ∧ control_sequence (ctx_parser c) = false ∧ dec_private (ctx_parser c) = false.

(** C24: Cursor addressing: a terminal that reads text with no sequence begun ([at_rest]: in the default character set,
    outside of insert mode, and without the mark of a private mode sequence that CAN has cut off), given ESC [ r ; c H with
    any two decimal numbers below 2^32, leading zeros included, moves the cursor of the screen to row r and column c,
    counted from 1 with 0 read as 1, or to the last row or column if there are fewer.  In origin mode the rows are those
    between the margins, else those of the screen ([row_range]).  Nothing else of the screen changes, and the terminal
    is at rest again, with modes, colours and margins as before. *)
Theorem cursor_position R C (t : terminal screen) rs cs (N := (row_range (t_ctx t)).1) (o := (row_range (t_ctx t)).2) :
  wf R C (t_ctx t) → at_rest (t_ctx t) →
  Forall digit rs → rs ≠ [] → Forall digit cs → cs ≠ [] → decimal 0 rs < 2 ^ 32 → decimal 0 cs < 2 ^ 32 →
  ∃ t', put_bytes ([0x1b; ch "["] ++ digit_bytes rs ++ [ch ";"] ++ digit_bytes cs ++ [ch "H"]) t = Ok (tt, t') ∧
    t_be t' = set_sc_pen (put_cursor_y (o + index_of (decimal 0 rs) N) (put_cursor_x (index_of (decimal 0 cs) C) (sc_pen (t_be t)))) (t_be t) ∧
    at_rest (t_ctx t') ∧ wf R C (t_ctx t') ∧ ctx_modes (t_ctx t') = ctx_modes (t_ctx t) ∧ ctx_look (t_ctx t') = ctx_look (t_ctx t) ∧
    ctx_geom (t_ctx t') = ctx_geom (t_ctx t) ∧ t_calls t' = t_calls t.
Proof.
  intros Hwf (Hpl & Ho & Hc & Hd) Hrs Hrs0 Hcs Hcs0 Hr Hcc. pose proof (wf_ps _ _ _ Hwf) as Hps. destruct (ps_values _ Hps) as [Hl _].
  pose proof (decimal_le rs 0 ltac:(lia) Hrs). pose proof (decimal_le cs 0 ltac:(lia) Hcs). set (r := decimal 0 rs) in *. set (c := decimal 0 cs) in *.
  assert (Hdn : discard_next (ctx_parser (t_ctx t)) = false) by apply Hpl.
  rewrite (put_bytes_app _ _ _ _ (put_open t Hpl Ho Hc Hd Hl)).
  destruct (put_digits t Hdn Ho rs 1 false 0 (replicate 16 0) 0 Hrs Hrs0 ltac:(lia) eq_refl ltac:(lia) Hr) as (o1 & E1). fold r in E1.
  rewrite (put_bytes_app _ _ _ _ E1). cbn [app put_bytes]. change (u8 (ch ";")) with (ch ";"). rewrite (bind_ok _ _ _ _ _ (put_semicolon t Hdn Ho _ _ _)).
  set (vs1 := zinsert 0 r (replicate 16 0)).
  destruct (put_digits t Hdn Ho cs (u64 (o1 + 1)) false (0 + 1) vs1 0 Hcs Hcs0 ltac:(lia) eq_refl ltac:(lia) Hcc) as (o2 & E2). fold c in E2.
  rewrite (put_bytes_app _ _ _ _ E2). cbn [put_bytes]. change (u8 (ch "H")) with (ch "H"). rewrite last_byte.
  rewrite (final_csi t _ r c R C N o Hdn Ho Hd (wf_gm _ _ _ Hwf) (wf_rows_from R C t Hwf)) by lia. eexists. split; [reflexivity|]. cbn [t_be t_ctx t_calls].
  destruct (wg_rows _ _ _ (wf_gm _ _ _ Hwf)) as [ER HR]. destruct (wg_cols _ _ _ (wf_gm _ _ _ Hwf)) as [EC HC].
  assert (Hi : ∀ v n, 0 ≤ v → 0 < n → 0 ≤ index_of v n < n) by (intros v n Hv Hn; unfold index_of, default_one; destruct (Z.eqb_spec v 0); lia).
  destruct (wf_rows_from R C t Hwf) as (_ & HN & HoN & HNR). fold N o in HN, HoN, HNR. pose proof (Hi r N ltac:(lia) HN). pose proof (Hi c C ltac:(lia) ltac:(lia)). split; [|split; [|split; [|done]]].
  - unfold sc_set_cursor, clamp_pos. rewrite EC, ER. destruct (Z.geb_spec (index_of c C) C); [lia|]. destruct (Z.geb_spec (index_of r N + o) R); [lia|]. by rewrite (Z.add_comm o).
  - destruct Hpl as [(Hx & _ & Hz) ? ? ?]. split; [split; [split; [exact Hx|split; [done|exact Hz]]|done..]|done].
  - destruct Hwf. split; try done. destruct Hps. split; cbn; try done; try lia; [|split; apply Z.mod_pos_bound; lia].
    split; [done|]. repeat (constructor; [split; lia|]). constructor.
Qed.
