(* ===== verification/TermScreen.v ===== *)
(** * The terminal as its writers see it

    What the bytes that the kernel writes do to the screen: printable text goes
    to the cursor, a control sequence moves the cursor, and text that is written
    after the set-up is what the framebuffer shows. *)
From Stdlib Require Import ZArith Lia Ascii String.
From stdpp Require Import base option gmap list.
From S2P Require Import Prelude Print Hoare TermTables Term TermProof Fb FbProof FbSpec FbRefine FbBackend FbInit TermText.

(** ** Plain text *)


Section plain.
Context {B : Type} `{Backend B}.

End plain.





(** ** The theorems at a small framebuffer, of 40 by 40 pixels *)

Definition demo_screen : gmap Z Z := list_to_map ((λ i, (i, 0)) <$> seqZ 0 1600).
Definition demo_masks : masks := mkMasks 8 16 8 8 8 0.
Lemma demo_pixels x y : 0 ≤ x < 40 → 0 ≤ y < 40 → is_Some (demo_screen !! (y * 40 + x)).
Proof.
  intros Hx Hy. exists 0. apply elem_of_list_to_map_1.
  - rewrite <-list_fmap_compose. apply NoDup_fmap_2; [by intros ??|apply NoDup_seqZ].
  - apply list_elem_of_fmap. exists (y * 40 + x). split; [done|]. apply elem_of_seqZ. lia.
Qed.
Definition demo_terminal : terminal screen :=
  mkTerminal (flanterm_context_reinit (zero_context 2 4)) (mkScreen (mkFbConf 9 16 9 16 1 1 0 0 0 160 40 40 40 demo_masks 0 4096 [] 36864 ∅ [] [] 0 0 0 0 0 None 0 0 0 plot_unscaled_uncanvas [])
    (mkPen 0 0 false true 0 0) (mkPen 0 0 false true 0 0) (replicate 8 null_char)) [].

Lemma kernel_terminal_ok_witness : ∃ c t st R C,
  kernel_terminal 4096 40 40 (4 * 40) demo_masks demo_screen (mkSetup (mkBump 0 false false) 0 [] []) = Ok (Some (c, t), st) ∧ 1 ≤ R ≤ 75 ∧ 1 ≤ C ≤ 213 ∧
  term_refines R C (mkTerminal c t []) (mkTerminal c (blank_screen t) []) ∧ displays R C c t (blank_screen t).
Proof. apply (kernel_terminal_ok 4096 40 40 40 demo_masks demo_screen); try lia; [reflexivity|reflexivity|cbn; lia|exact demo_pixels]. Defined.

Lemma flanterm_write_refines_witness : ∃ R C t t' t1 t1', term_refines R C t t' ∧
  flanterm_write (lit "Hi") t = Ok (tt, t1) ∧ flanterm_write (lit "Hi") t' = Ok (tt, t1') ∧ term_refines R C t1 t1'.
Proof.
  destruct (kernel_terminal_starts 4096 40 40 40 demo_masks demo_screen) as (t & st & R & C & _ & _ & _ & _ & _ & Hr & _);
    try lia; [reflexivity|reflexivity|cbn; lia|exact demo_pixels|].
  destruct (flanterm_write_refines R C (lit "Hi") _ _ Hr) as (t1 & t1' & E & E' & Hr1 & _).
  set (c := flanterm_context_reinit (zero_context R C)) in *.
  exists R, C, (mkTerminal c t []), (mkTerminal c (blank_screen t) []), t1, t1'. split; [exact Hr|]. split; [exact E|]. split; [exact E'|exact Hr1].
Defined.

Lemma flanterm_write_safe_witness : ∃ R C (t t' : terminal fb), terminal_ok R C t ∧ flanterm_write [0x1b; 0x5b; 0x33; 0x31; 0x6d; 0x41] t = Ok (tt, t') ∧ terminal_ok R C t'.
Proof.
  destruct (kernel_terminal_starts 4096 40 40 40 demo_masks demo_screen) as (t & st & R & C & _ & _ & _ & _ & _ & Hr & _);
    try lia; [reflexivity|reflexivity|cbn; lia|exact demo_pixels|].
  assert (Hok : terminal_ok R C (mkTerminal (flanterm_context_reinit (zero_context R C)) t [])).
  { split; [exact (tr_wf _ _ _ _ Hr)|]. exists (blank_screen t). exact (tr_be _ _ _ _ Hr). }
  destruct (flanterm_write_safe R C [0x1b; 0x5b; 0x33; 0x31; 0x6d; 0x41] _ Hok) as (t' & E & H'). exists R, C, (mkTerminal (flanterm_context_reinit (zero_context R C)) t []), t'. split; [exact Hok|]. split; [exact E|exact H'].
Defined.


Lemma utf8_decodes_witness : utf8 0x20ac = [0xe2; 0x82; 0xac] ∧
  put_bytes (utf8 0x20ac) demo_terminal = print_code_point 0x20ac (set_ctx (pending 0 0x20ac (t_ctx demo_terminal)) demo_terminal).
Proof. split; [reflexivity|]. apply utf8_decodes; [lia|lia|]. repeat split. Defined.

(** The same terminal in origin mode, with the margins around its second row *)
Definition origin_terminal : terminal screen :=
  let c := t_ctx demo_terminal in
  mkTerminal (set_ctx_look (set_origin_mode true (ctx_look c)) (set_ctx_geom (set_scroll_top_margin 1 (ctx_geom c)) c)) (t_be demo_terminal) [].
Lemma origin_terminal_wf : wf 2 4 (t_ctx origin_terminal).
Proof.
  assert (H : wf 2 4 (t_ctx demo_terminal)) by (apply kernel_context; lia). destruct H as [H1 H2 [L1 L2 L3 L4] H5 H6 H7]. split; [exact H1|exact H2|by split|exact H5| |exact H7].
  destruct H6 as [G1 G2 _ G4]. split; [exact G1|exact G2|cbn; lia|exact G4].
Qed.
Lemma cursor_position_witness :
  (∃ t', put_bytes ([0x1b; ch "["] ++ digit_bytes [2] ++ [ch ";"] ++ digit_bytes [0; 3] ++ [ch "H"]) demo_terminal = Ok (tt, t') ∧
    cursor_x (sc_pen (t_be t')) = 2 ∧ cursor_y (sc_pen (t_be t')) = 1) ∧
  ∃ t', put_bytes ([0x1b; ch "["] ++ digit_bytes [1] ++ [ch ";"] ++ digit_bytes [0; 3] ++ [ch "H"]) origin_terminal = Ok (tt, t') ∧
    cursor_x (sc_pen (t_be t')) = 2 ∧ cursor_y (sc_pen (t_be t')) = 1.
Proof.
  split.
  - destruct (cursor_position 2 4 demo_terminal [2] [0; 3]) as (t' & E & Eb & _); [apply kernel_context; lia|repeat split|
      repeat constructor; discriminate|discriminate|repeat constructor; discriminate|discriminate|reflexivity|reflexivity|].
    exists t'. split; [exact E|]. rewrite Eb. split; reflexivity.
  - destruct (cursor_position 2 4 origin_terminal [1] [0; 3]) as (t' & E & Eb & _); [exact origin_terminal_wf|repeat split|
      repeat constructor; discriminate|discriminate|repeat constructor; discriminate|discriminate|reflexivity|reflexivity|].
    exists t'. split; [exact E|]. rewrite Eb. split; reflexivity.
Defined.
